(* ===== verification/_CoqProject ===== *)
-Q . S2P
Prelude.v
Abi.v
Obj.v
Scope.v
ScopeProofs.v
ScopeCpu.v
ScopeRace.v
Ctrl.v
Frame.v
FrameProofs.v
Elf.v
ElfProofs.v
Objects.v
Machine.v
CapOps.v
Authority.v
AuthorityOps.v
Dispatch.v
AuthorityRun.v
Bytes.v
AbiWire.v
AbiFixture.v
Thread.v
Ipc.v
Hoare.v
IpcFrames.v
IpcQueue.v
IpcChannels.v
IpcAdmit.v
IpcRefine.v
IpcWithdraw.v
IpcTotal.v
IpcSample.v
Sha256.v
K4Layout.v
K4Golden.v
K4Format.v
K4FormatProofs.v
K4Verify.v
Effects.v
K4Disk.v
K4Store.v
K4StoreLog.v
K4StorePub.v
K4StoreProofs.v
K4Staging.v
K4Crash.v
K4PubLog.v
K4Calm.v
K4Replay.v
K4Tail.v
K4Reopen.v
K4Atomic.v
Leads.v
Sync.v
SyncProofs.v
Shootdown.v
ShootdownProofs.v
Events.v
EventsProofs.v
EventsSample.v
LogOps.v
ScopeOps.v
ScopeOpsProofs.v
ScopeOpsSample.v
FrameHeld.v
Paging.v
PagingProofs.v
MemOps.v
