(* ===== verification/Prelude.v ===== *)
(** * Thalyx-Kernel: a verification library

    Thalyx-Kernel is a capability microkernel with a durable store beside it. This
    library models the kernel's core - authority, accounts, frames, page tables, memory
    objects, receipts, events, threads and channels, its locks and the invalidation of
    translations, its boot image reader, its binary interface - and the store's format,
    driver protocol and log, and proves what they promise.

    Every definition that models code is preceded by a comment that opens with the file
    under src/, the lines and the Rust name it models. A definition without one is a
    notion of the proofs, or plumbing the files explain.

    ** The parts and where they are modelled

    Conventions. Prelude: machine integers (an unsigned integer is an [N], its width
    written where an operation can leave it), tables (a list indexed by [N]), record
    update, the kernel monad [K] whose outcomes are a value, a status with the state
    changed so far, and a panic. Effects: the same for the user programs, where a
    function may return early. Hoare: partial correctness over [K], and the tactics that
    take a handler apart down to what each of its operations keeps.

    The binary interface. Abi: constants, the operation table, handles. Bytes: byte
    strings and codecs with their laws, shared with the store. AbiWire: every structure
    that crosses the entry, with its layout. AbiFixture: the fixtures the kernel decodes
    at boot.

    Authority. Obj is kernel/src/obj.rs: capability tables and grant nodes. Scope is
    kernel/src/scope.rs with the credit of kernel/src/sched.rs: the tree of accounts.
    Ctrl is the log of receipts, Frame the physical frames and their quarantine, Elf the
    image reader, Objects the records of everything else a capability names. Machine is
    the state of kernel/src/state.rs over all of these, and what every handler is built
    from (kernel/src/api/mod.rs); CapOps the capability handlers; Dispatch the table of
    operations and the path from a handle to its handler.

    Threads and channels. Thread: waits, offers, the claim that ends a wait, deferred
    wakes. Ipc is kernel/src/api/ipcops.rs: endpoints and facets, admission by both
    routes, receive, reply, effects, resolution, workers, withdrawal, the death of a
    domain, faults. A handler that blocks is two steps, before and after the block.

    Events, scopes and logs. Events is kernel/src/api/evtops.rs with the part of the tick
    that ends timed waits; ScopeOps is kernel/src/api/scopeops.rs, the barrier, the drain
    report and retirement; LogOps is kernel/src/api/logops.rs.

    Memory. Paging is kernel/src/arch/x86_64/paging.rs: the four-level tables as the
    words of the frames they stand in, over the allocator of Frame. MemOps is
    kernel/src/api/memops.rs with map and unmap of kernel/src/api/domainops.rs: objects,
    mappings, the seal, the bytes, over the machine and the tables of every domain.

    Below the operations. Sync is kernel/src/sync.rs at the granularity of its atomic
    accesses; Shootdown is kernel/src/tlb.rs with the switches of kernel/src/sched.rs and
    the kernel stacks of kernel/src/domain.rs, processors with cached translations
    interleaved one access at a time. They say why a handler may be one step, and what
    the generations a frame waits for mean.

    The durable store. K4Layout, K4Golden, K4Format, Sha256 and K4Verify are
    user/k4fmt; K4Disk is the block driver (user/k4disk) over a medium with a volatile
    cache; K4Store, K4StoreLog and K4StorePub are user/k4store/src/state.rs.

    Objects, codecs and layouts have the source's fields in the source's order. A handler
    takes its request decoded and gives its response as a record: the codecs between the
    bytes and the records are in AbiWire. What is printed to the diagnostic console is
    left out everywhere.

    ** What the theorems show

    Authority: a handle never changes its meaning; a fence reaches exactly the lineage
    and is for ever; no sequence of operations amplifies authority; resolution and
    derivation on every branch (Obj, Authority, AuthorityOps, AuthorityRun).

    Accounts: reservations are all or nothing, ceilings hold under any sequence of
    operations (ScopeProofs) and under any interleaving of the instructions of several
    processors (ScopeRace); barriers are final and quiescence is exact; execution is
    paid from what was reserved (ScopeCpu).

    Receipts, frames, images: the log refines a bounded queue and keeps its closing
    cells (Ctrl); allocation is exact and the quarantine holds (FrameProofs); an accepted
    image is safe (ElfProofs); the operation table is its specification (Dispatch).

    Events: no wake-up is lost and no deadline missed, whatever operations run in which
    order (EventsProofs; EventsSample has the concrete runs). Scope operations: what a
    retirement frees and what it leaves (ScopeOpsProofs, ScopeOpsSample).

    Memory: what allocation and return do to the frames held (FrameHeld); the tables of a
    space are a tree of frames nothing else holds, and mapping and unmapping are insertion
    and deletion in the map they stand for (PagingProofs).

    Locks and shootdown: exclusion in every interleaving, and that the exclusive side is
    had under fair scheduling, from the well-founded relation of Leads (SyncProofs); a
    frame whose withdrawal returned is reached by no cached translation (ShootdownProofs).

    Channels: the linked queues in the message table are sequences (IpcQueue), every
    channel's its own (IpcChannels, IpcFrames); admission and receive are the ends of a
    queue and a refusal takes nothing (IpcAdmit, IpcRefine); withdrawal ends and is
    complete (IpcWithdraw, IpcTotal). IpcSample runs them on a concrete kernel.

    The store: round trips, canonical encodings and binding digests (K4FormatProofs),
    SHA-256 against FIPS 180-4 (Sha256), the golden vectors (K4Verify); objects read are
    verified (K4Staging over K4StoreProofs); a publication survives a power cut whole:
    what it writes (K4Crash, K4PubLog), reading without faults (K4Calm), the scan
    (K4Replay, K4Tail), recovery over what was left (K4Reopen), and their composition
    (K4Atomic).

    ** Bounds and fuel

    A loop of the code with a bound of its own has that bound: lineages
    [MAX_DERIVE_DEPTH], scopes [MAX_SCOPE_DEPTH], the 48 turns of a walk over a queue
    (IpcTotal shows they are enough), the attempts of a receive. A scan of the store's
    log takes as many turns as an arena has blocks, more than it has records. A
    publication writes at most [PUBLICATION_BLOCKS] blocks, 44, the prepare, the objects
    and the commit. Counters the code keeps in 64 bits and only adds one to are not
    wrapped where nothing reads them but a report. A walk of page tables has the levels of
    the hardware; a walk's fuel is its level.

    ** What is not modelled

    Interrupts and context switches, the per-processor run queues, devices and their
    configuration space, boot, the copy between a program's memory and the kernel, the
    programs of the user side other than the driver and the store's state, and the host
    tools. Each is listed with its reason in the manifest of the library. A handler runs
    as one step, as the exclusive or shared hold it runs under allows (Sync, SyncProofs);
    the interleavings of handlers under the shared hold are those of ScopeRace and
    Shootdown only. The contents of frames are words where a frame is a page table and
    bytes where an object holds it. *)

From stdpp Require Export base tactics numbers list option relations.
From Stdlib Require Export NArith ZArith Lia.

#[export] Set Default Goal Selector "!".

(** ** Machine integers

    An unsigned Rust integer is an [N]; the width is stated where an operation
    can leave it. Statuses ([i64]) are [Z]. *)

Definition U8_MAX : N := 255.
Definition U16_MAX : N := 65535.
Definition U32_MAX : N := 4294967295.
Definition U64_MAX : N := 18446744073709551615.

(** [x.wrapping_add(y)], and what [AtomicU64::fetch_add] stores. *)
Definition wrapping_add (w x y : N) : N := (x + y) mod 2 ^ w.
(** [x.wrapping_sub(y)], and what [AtomicU64::fetch_sub] stores, for [y < 2^w]. *)
Definition wrapping_sub (w x y : N) : N := (x + 2 ^ w - y) mod 2 ^ w.
(** [x.saturating_add(y)] at width [w]. *)
Definition saturating_add (w x y : N) : N := N.min (x + y) (2 ^ w - 1).
(** [x.saturating_sub(y)]. Subtraction on [N] already stops at zero. *)
Definition saturating_sub (x y : N) : N := x - y.
(** [x.checked_add(y)] at width [w]; also [x + y] under overflow checks, whose
    [None] is the panic. *)
Definition checked_add (w x y : N) : option N :=
  if decide (x + y < 2 ^ w)%N then Some (x + y)%N else None.
(** [x.checked_mul(y)] at width [w]. *)
Definition checked_mul (w x y : N) : option N :=
  if decide (x * y < 2 ^ w)%N then Some (x * y)%N else None.
(** [x - y] under overflow checks, whose [None] is the panic. *)
Definition checked_sub (x y : N) : option N :=
  if decide (y <= x)%N then Some (x - y)%N else None.
(** [x.div_ceil(y)]. *)
Definition div_ceil (x y : N) : N := ((x + y - 1) / y)%N.
(** [x & !y]. *)
Definition andnot (x y : N) : N := N.ldiff x y.

Lemma wrapping_add_small w x y : (x + y < 2 ^ w)%N → wrapping_add w x y = (x + y)%N.
Proof. apply N.mod_small. Qed.

Lemma wrapping_sub_small w x y : (y <= x)%N → (x < 2 ^ w)%N → wrapping_sub w x y = (x - y)%N.
Proof.
  intros Hy Hx. unfold wrapping_sub.
  replace (x + 2 ^ w - y)%N with (x - y + 1 * 2 ^ w)%N by lia.
  rewrite N.Div0.mod_add. apply N.mod_small. lia.
Qed.

Lemma wrapping_add_bound w x y : (wrapping_add w x y <= 2 ^ w - 1)%N.
Proof. unfold wrapping_add. pose proof (N.mod_lt (x + y) (2 ^ w)). lia. Qed.
Lemma wrapping_sub_bound w x y : (wrapping_sub w x y <= 2 ^ w - 1)%N.
Proof. unfold wrapping_sub. pose proof (N.mod_lt (x + 2 ^ w - y) (2 ^ w)). lia. Qed.
Lemma saturating_sub_bound x y z : (x <= z)%N → (saturating_sub x y <= z)%N.
Proof. unfold saturating_sub. lia. Qed.

(** [bounds]: results of machine arithmetic stay at their width. *)
Create HintDb bounds.
#[export] Hint Resolve saturating_sub_bound : bounds.
#[export] Hint Extern 1 (wrapping_add _ _ _ <= _)%N => apply wrapping_add_bound : bounds.
#[export] Hint Extern 1 (wrapping_sub _ _ _ <= _)%N => apply wrapping_sub_bound : bounds.

(** An atomic add and the subtraction that undoes it. *)
Lemma wrapping_undo w x y :
  (x < 2 ^ w)%N → (y < 2 ^ w)%N → wrapping_sub w (wrapping_add w x y) y = x.
Proof.
  intros Hx Hy. unfold wrapping_add, wrapping_sub.
  destruct (N.lt_ge_cases (x + y) (2 ^ w)) as [Hs|Hs].
  - rewrite (N.mod_small (x + y)) by done.
    replace (x + y + 2 ^ w - y)%N with (x + 1 * 2 ^ w)%N by lia.
    rewrite N.Div0.mod_add. by apply N.mod_small.
  - replace ((x + y) mod 2 ^ w)%N with (x + y - 2 ^ w)%N.
    + replace (x + y - 2 ^ w + 2 ^ w - y)%N with x by lia. by apply N.mod_small.
    + rewrite N.Div0.mod_eq.
      replace ((x + y) / 2 ^ w)%N with 1%N; [lia|].
      apply (N.div_unique _ _ _ (x + y - 2 ^ w)); lia.
Qed.

(** *** Single bits of a word *)

Lemma land_bit_zero w k : N.land w (N.shiftl 1 k) = 0%N ↔ N.testbit w k = false.
Proof.
  rewrite N.shiftl_1_l. split.
  - intros H. apply (f_equal (λ x, N.testbit x k)) in H.
    by rewrite N.land_spec, N.pow2_bits_true, andb_true_r, N.bits_0 in H.
  - intros H. apply N.bits_inj_0. intros n. rewrite N.land_spec.
    destruct (decide (k = n)) as [<-|]; [by rewrite H|].
    by rewrite N.pow2_bits_false, andb_false_r.
Qed.

Lemma testbit_set w k n :
  N.testbit (N.lor w (N.shiftl 1 k)) n = bool_decide (k = n) || N.testbit w n.
Proof.
  rewrite N.shiftl_1_l, N.lor_spec. case_bool_decide as H.
  - subst. by rewrite N.pow2_bits_true, orb_true_r.
  - by rewrite N.pow2_bits_false, orb_false_r.
Qed.

Lemma testbit_clear w k n :
  N.testbit (andnot w (N.shiftl 1 k)) n = negb (bool_decide (k = n)) && N.testbit w n.
Proof.
  unfold andnot. rewrite N.shiftl_1_l, N.ldiff_spec. case_bool_decide as H.
  - subst. by rewrite N.pow2_bits_true, andb_false_r.
  - by rewrite N.pow2_bits_false, andb_true_r.
Qed.

(** ** Tables

    A fixed-capacity kernel table is a list; a Rust index is an [N]. *)

#[global] Instance table_Lookup {A} : Lookup N A (list A) :=
  λ i l, l !! N.to_nat i.
#[global] Instance table_Insert {A} : Insert N A (list A) :=
  λ i x l, <[N.to_nat i := x]> l.
#[global] Instance table_Alter {A} : Alter N A (list A) :=
  λ f i l, alter f (N.to_nat i) l.
Global Arguments table_Lookup {A} _ _ : simpl never.
Global Arguments table_Insert {A} _ _ _ : simpl never.
Global Arguments table_Alter {A} _ _ _ : simpl never.

Definition tlen {A} (l : list A) : N := N.of_nat (length l).
Lemma tlen_app {A} (k k' : list A) : tlen (k ++ k') = (tlen k + tlen k')%N.
Proof. unfold tlen. rewrite length_app. lia. Qed.
(** The indices of a table, in order. *)
Definition indices {A} (l : list A) : list N := N.of_nat <$> seq 0 (length l).

Section tables.
Context {A : Type}.
Implicit Types (l : list A) (i j : N) (f : A → A) (P : A → Prop).

Lemma table_lookup_nat l (n : nat) : l !! N.of_nat n = l !! n.
Proof. unfold lookup at 1, table_Lookup. by rewrite Nat2N.id. Qed.

Lemma table_lookup_lt l i x : l !! i = Some x → (i < tlen l)%N.
Proof. intros H%lookup_lt_Some. unfold tlen. lia. Qed.

Lemma table_lookup_is_Some l i : (i < tlen l)%N ↔ is_Some (l !! i).
Proof.
  unfold lookup, table_Lookup, tlen. rewrite lookup_lt_is_Some. lia.
Qed.

Lemma table_lookup_ge l i : (tlen l <= i)%N → l !! i = None.
Proof. intros. apply lookup_ge_None_2. unfold tlen in *. lia. Qed.

Lemma tlen_alter f i l : tlen (alter f i l) = tlen l.
Proof.
  unfold tlen, alter, table_Alter. by rewrite length_alter.
Qed.

Lemma tlen_insert i x l : tlen (<[i := x]> l) = tlen l.
Proof. unfold tlen, insert, table_Insert. by rewrite length_insert. Qed.

Lemma table_alter_eq f l i : alter f i l !! i = f <$> l !! i.
Proof. apply list_lookup_alter_eq. Qed.

Lemma table_alter_ne f l i j : i ≠ j → alter f i l !! j = l !! j.
Proof. intros. apply list_lookup_alter_ne. lia. Qed.

Lemma table_alter f l i j :
  alter f i l !! j = if decide (i = j) then f <$> l !! j else l !! j.
Proof.
  case_decide; [subst; apply table_alter_eq | by apply table_alter_ne].
Qed.

Lemma table_insert_eq l i x : (i < tlen l)%N → <[i := x]> l !! i = Some x.
Proof. intros. apply list_lookup_insert_eq. unfold tlen in *. lia. Qed.

Lemma table_insert_ne l i j x : i ≠ j → <[i := x]> l !! j = l !! j.
Proof. intros. apply list_lookup_insert_ne. lia. Qed.

Lemma table_insert l i j x :
  <[i := x]> l !! j =
    if decide (i = j ∧ (j < tlen l)%N) then Some x else l !! j.
Proof.
  case_decide as Hd.
  - destruct Hd as [-> ?]. by apply table_insert_eq.
  - destruct (decide (i = j)) as [->|]; [|by apply table_insert_ne].
    assert (tlen l <= j)%N by lia.
    rewrite !table_lookup_ge by (rewrite ?tlen_insert; done). done.
Qed.

Lemma table_fmap {B} (g : A → B) l i : (g <$> l) !! i = g <$> l !! i.
Proof. apply list_lookup_fmap. Qed.

Lemma table_alter_as_insert f l i x :
  l !! i = Some x → alter f i l = <[i := f x]> l.
Proof.
  intros H. apply list_eq. intros n. unfold insert, table_Insert, alter, table_Alter.
  unfold lookup, table_Lookup in H.
  destruct (decide (n = N.to_nat i)) as [->|].
  - rewrite list_lookup_alter_eq, H. cbn. rewrite list_lookup_insert_eq; [done|].
    by eapply lookup_lt_Some.
  - by rewrite list_lookup_alter_ne, list_lookup_insert_ne by done.
Qed.

Lemma table_insert_id l i x : l !! i = Some x → <[i := x]> l = l.
Proof. apply list_insert_id. Qed.

Lemma table_insert_insert l i x y : <[i := x]> (<[i := y]> l) = <[i := x]> l.
Proof. apply list_insert_insert_eq. Qed.

(** Two tables of one length that agree at every index are equal. *)
Lemma table_eq l1 l2 : (∀ i, l1 !! i = l2 !! i) → l1 = l2.
Proof.
  intros H. apply list_eq. intros n. specialize (H (N.of_nat n)).
  unfold lookup, table_Lookup in H. by rewrite Nat2N.id in H.
Qed.

Lemma table_Forall P l : Forall P l ↔ ∀ i x, l !! i = Some x → P x.
Proof.
  rewrite Forall_lookup. split; intros H.
  - intros i x Hi. by apply (H (N.to_nat i)).
  - intros n x Hn. apply (H (N.of_nat n)).
    unfold lookup, table_Lookup. by rewrite Nat2N.id.
Qed.

(** How one write changes the number of entries that satisfy a predicate. *)
Lemma count_insert (Q : A → Prop) `{!∀ x, Decision (Q x)} l i x y :
  l !! i = Some y →
  (tlen (filter Q (<[i := x]> l)) + (if decide (Q y) then 1 else 0) =
   tlen (filter Q l) + (if decide (Q x) then 1 else 0))%N.
Proof.
  unfold lookup, table_Lookup, insert, table_Insert, tlen.
  generalize (N.to_nat i). clear i. induction l as [|z l IH]; intros [|n] Hl; try done.
  - injection Hl as ->. change (<[0%nat := x]> (y :: l)) with (x :: l).
    rewrite !filter_cons.
    do 2 case_decide; cbn [length]; lia.
  - specialize (IH n Hl). change (<[S n := x]> (z :: l)) with (z :: <[n := x]> l).
    rewrite !filter_cons.
    repeat case_decide; cbn [length]; lia.
Qed.

(** The sum of a measure over a table. *)
Definition tsum (m : A → N) (l : list A) : N := foldr (λ x, N.add (m x)) 0%N l.

Lemma tsum_insert (m : A → N) l i x y :
  l !! i = Some y → (tsum m (<[i := x]> l) + m y = tsum m l + m x)%N.
Proof.
  unfold lookup, table_Lookup, insert, table_Insert.
  generalize (N.to_nat i). clear i. induction l as [|z l IH]; intros [|n] Hl; try done.
  - injection Hl as ->. change (m x + tsum m l + m y = m y + tsum m l + m x)%N. lia.
  - specialize (IH n Hl).
    change (m z + tsum m (list_insert n x l) + m y = m z + tsum m l + m x)%N.
    unfold insert in IH. lia.
Qed.

Lemma tsum_le (m m' : A → N) l : (∀ x, x ∈ l → (m x <= m' x)%N) → (tsum m l <= tsum m' l)%N.
Proof.
  intros H. induction l as [|x l IH]; [done|].
  change (m x + tsum m l <= m' x + tsum m' l)%N.
  pose proof (H x ltac:(left)). specialize (IH (λ y Hy, H y ltac:(by right))). lia.
Qed.

Lemma tsum_bound (m : A → N) l b : (∀ x, x ∈ l → (m x <= b)%N) → (tsum m l <= tlen l * b)%N.
Proof.
  intros H. unfold tlen. induction l as [|x l IH]; [done|]. cbn [tsum foldr length].
  pose proof (H x ltac:(left)). specialize (IH (λ y Hy, H y ltac:(by right))).
  unfold tsum in IH. lia.
Qed.

Lemma filter_agree (p q : A → bool) l :
  (∀ x, x ∈ l → p x = q x) → filter p l = filter q l.
Proof.
  intros Hpq. induction l as [|x l IH]; [done|]. rewrite !filter_cons, (Hpq x) by left.
  rewrite IH; [done|]. intros y Hy. apply Hpq. by right.
Qed.

Lemma forallb_agree (p q : A → bool) l :
  (∀ x, x ∈ l → p x = q x) → forallb p l = forallb q l.
Proof.
  intros Hpq. induction l as [|x l IH]; [done|]. cbn. rewrite Hpq by left. f_equal.
  apply IH. intros y Hy. apply Hpq. by right.
Qed.

Lemma count_complement (p q : A → bool) l :
  (∀ x, q x = negb (p x)) → tlen l = (tlen (filter q l) + tlen (filter p l))%N.
Proof.
  intros Hq. unfold tlen. induction l as [|x l IH]; [done|]. rewrite !filter_cons.
  specialize (Hq x).
  destruct (decide (q x)) as [H|H], (decide (p x)) as [H'|H'];
    destruct (p x), (q x); try done; cbn [length]; lia.
Qed.

Lemma forallb_elem (p : A → bool) l : forallb p l = true → ∀ x, x ∈ l → p x = true.
Proof. rewrite forallb_forall. intros H x Hx. by apply H, list_elem_of_In. Qed.

Lemma count_none (Q : A → Prop) `{!∀ x, Decision (Q x)} l :
  (∀ i x, l !! i = Some x → ¬ Q x) → tlen (filter Q l) = 0%N.
Proof.
  intros Hl%(table_Forall (λ x, ¬ Q x)). unfold tlen.
  induction Hl as [|x l Hx _ IH]; [done|]. by rewrite filter_cons_False.
Qed.

(** A count and a sum are zero only when nothing contributes. *)
Lemma count_zero (Q : A → Prop) `{!∀ x, Decision (Q x)} l i x :
  tlen (filter Q l) = 0%N → l !! i = Some x → ¬ Q x.
Proof.
  intros Hz Hi HQ. assert (x ∈ filter Q l) as Hx.
  { apply list_elem_of_filter. split; [done|]. by eapply list_elem_of_lookup_2. }
  unfold tlen in Hz. destruct (filter Q l); [by apply not_elem_of_nil in Hx|done].
Qed.

(** Two tables on which a predicate agrees index by index. *)
Lemma count_pointwise (p : A → bool) l l' :
  (∀ i, p <$> l !! i = p <$> l' !! i) → tlen (filter p l) = tlen (filter p l').
Proof.
  unfold tlen. revert l'. induction l as [|x l IH]; intros [|x' l'] H; [done|..].
  - by specialize (H 0%N).
  - by specialize (H 0%N).
  - assert (p x = p x') as Hx by (by specialize (H 0%N); injection H).
    rewrite !filter_cons, Hx. assert (length (filter p l) = length (filter p l')) as Hl.
    { assert (N.of_nat (length (filter p l)) = N.of_nat (length (filter p l'))); [|lia].
      apply IH. intros i. specialize (H (N.succ i)). unfold lookup, table_Lookup in H |- *.
      by rewrite N2Nat.inj_succ in H. }
    case_decide; cbn [length]; lia.
Qed.

Lemma tsum_elem (m : A → N) l i x : l !! i = Some x → (m x <= tsum m l)%N.
Proof.
  intros Hx%list_elem_of_lookup_2. induction Hx as [|x y l Hx IH].
  - change (m x <= m x + tsum m l)%N. lia.
  - change (m x <= m y + tsum m l)%N. lia.
Qed.

Lemma elem_of_cons_ne (x y : N) (k : list N) :
  x ≠ y → bool_decide (x ∈ y :: k) = bool_decide (x ∈ k).
Proof. intros. apply bool_decide_ext. rewrite elem_of_cons. tauto. Qed.

Lemma NoDup_indices l : NoDup (indices l).
Proof. apply NoDup_fmap_2; [|apply NoDup_seq]. intros ?? H. by apply Nat2N.inj. Qed.

(** Two predicates that differ at one element of a list without repetitions. *)
Lemma count_flip (p q : A → bool) l x :
  NoDup l → x ∈ l → p x = true → q x = false → (∀ y, y ∈ l → y ≠ x → p y = q y) →
  (tlen (filter p l) = tlen (filter q l) + 1)%N.
Proof.
  intros Hnd Hx Hp Hq Heq. unfold tlen. induction Hnd as [|y l Hy Hnd IH].
  { by apply not_elem_of_nil in Hx. }
  rewrite !filter_cons. apply elem_of_cons in Hx as [->|Hx].
  - rewrite decide_True by by rewrite Hp. rewrite decide_False by (rewrite Hq; by intros []).
    rewrite (filter_agree p q l); [cbn [length]; lia|].
    intros z Hz. apply Heq; [by right|]. by intros ->.
  - assert (p y = q y) as Hpq. { apply Heq; [by left|]. by intros ->. }
    pose proof (IH Hx (λ z Hz, Heq z ltac:(by right))) as Hl.
    repeat case_decide; rewrite ?Hpq in *; try done; cbn [length]; lia.
Qed.

Lemma indices_lookup l i : i ∈ indices l ↔ (i < tlen l)%N.
Proof.
  unfold indices, tlen. rewrite list_elem_of_fmap. split.
  - intros (n & -> & Hn%elem_of_seq). lia.
  - intros. exists (N.to_nat i). rewrite elem_of_seq. lia.
Qed.
End tables.

(** ** Record update

    [r <| f := v |>] is [r] with field [f] replaced; [r <| f ::= g |>] applies
    [g] to the field. A record takes part by declaring the [Rebuild] instance
    that writes a value of it as its constructor applied to its own fields. *)

Class Rebuild (R : Type) : Type := rebuild : R → R.
Class SetField {R T : Type} (f : R → T) : Type := set_field : (T → T) → R → R.
Global Arguments set_field {R T} f {_} _ _ /.

Ltac derive_set_field :=
  lazymatch goal with
  | |- @SetField ?R ?T ?f =>
      let e := eval hnf in (@rebuild R _) in
      exact (fun (upd : T -> T) (r : R) =>
        ltac:(let b := eval cbv beta in (e r) in
              lazymatch eval pattern (f r) in b with
              | ?g _ => let v := eval cbv beta in (g (upd (f r))) in exact v
              end))
  end.
#[global] Hint Extern 1 (SetField _) => derive_set_field : typeclass_instances.

Notation "r <| f ::= g |>" := (set_field f g r)
  (at level 1, f at level 9, left associativity, format "r  <| f  ::=  g |>").
Notation "r <| f := v |>" := (set_field f (λ _, v) r)
  (at level 1, f at level 9, left associativity, format "r  <| f  :=  v |>").

(** ** The kernel monad

    A kernel operation reads and writes a state, and ends in one of three ways:
    with a value; with a status, the state keeping whatever was changed before
    the [Err] ([Result<_, i64>] with [?] and early [return Err]); or in a panic,
    which stops the machine (index out of range, [expect] on [None], arithmetic
    overflow under the profiles' overflow checks). *)

Inductive out (S A : Type) : Type :=
| Done (a : A) (s : S)
| Fail (code : Z) (s : S)
| Panic.
Arguments Done {S A} _ _.
Arguments Fail {S A} _ _.
Arguments Panic {S A}.

Definition K (S A : Type) : Type := S → out S A.

#[global] Instance K_ret S : MRet (K S) := λ A a s, Done a s.
#[global] Instance K_bind S : MBind (K S) := λ A B k m s,
  match m s with
  | Done a s' => k a s'
  | Fail e s' => Fail e s'
  | Panic => Panic
  end.
#[global] Instance K_fmap S : FMap (K S) := λ A B f m s,
  match m s with
  | Done a s' => Done (f a) s'
  | Fail e s' => Fail e s'
  | Panic => Panic
  end.

Section kernel_monad.
Context {S : Type}.
Definition err {A} (code : Z) : K S A := λ s, Fail code s.
Definition panic {A} : K S A := λ _, Panic.
Definition getk : K S S := λ s, Done s s.
Definition gets {A} (f : S → A) : K S A := λ s, Done (f s) s.
Definition modify (f : S → S) : K S () := λ s, Done () (f s).
(** Runs a state transformer on one component of the state. *)
Definition zoom {T A} (get : S → T) (put : T → S → S) (m : T → A * T) : K S A :=
  λ s, let '(a, t) := m (get s) in Done a (put t s).
(** [option]'s [expect], and an index expression: [None] is a panic. *)
Definition expect {A} (o : option A) : K S A :=
  match o with Some a => mret a | None => panic end.
(** [o.ok_or(code)?]. *)
Definition ok_or {A} (code : Z) (o : option A) : K S A :=
  match o with Some a => mret a | None => err code end.
(** [if b { return Err(code); }] *)
Definition err_if (b : bool) (code : Z) : K S () :=
  if b then err code else mret ().
(** A [match] on the [Result] of a call, whose [Err] is handled here. *)
Definition catch {A} (m : K S A) : K S (Z + A) := λ s,
  match m s with
  | Done a s' => Done (inr a) s'
  | Fail e s' => Done (inl e) s'
  | Panic => Panic
  end.
(** [for x in l { body(x) }] *)
Fixpoint for_each {A} (l : list A) (body : A → K S ()) : K S () :=
  match l with
  | [] => mret ()
  | x :: l => body x ;; for_each l body
  end.
End kernel_monad.

(** *** Weakest preconditions

    [wp m Q E s]: from [s], [m] does not panic; a returned value satisfies [Q]
    and a returned status [E], each with the state it leaves. *)
Definition wp {S A} (m : K S A) (Q : A → S → Prop) (E : Z → S → Prop) (s : S) : Prop :=
  match m s with
  | Done a s' => Q a s'
  | Fail e s' => E e s'
  | Panic => False
  end.

Section wp.
Context {S : Type}.
Implicit Types (s : S).

Lemma wp_ret {A} (a : A) Q E s : wp (mret a) Q E s ↔ Q a s.
Proof. done. Qed.
Lemma wp_err {A} code (Q : A → S → Prop) E s : wp (err code) Q E s ↔ E code s.
Proof. done. Qed.
Lemma wp_bind {A B} (m : K S A) (k : A → K S B) Q E s :
  wp (m ≫= k) Q E s ↔ wp m (λ a, wp (k a) Q E) E s.
Proof. unfold wp, mbind, K_bind. by destruct (m s). Qed.
Lemma wp_gets {A} (f : S → A) Q E s : wp (gets f) Q E s ↔ Q (f s) s.
Proof. done. Qed.
Lemma wp_modify f Q E s : wp (modify f) Q E s ↔ Q () (f s).
Proof. done. Qed.
Lemma wp_err_if b code Q E s :
  wp (err_if b code) Q E s ↔ if b then E code s else Q () s.
Proof. by destruct b. Qed.
Lemma wp_expect {A} (o : option A) Q E s :
  wp (expect o) Q E s ↔ ∃ a, o = Some a ∧ Q a s.
Proof.
  destruct o as [a|]; cbn; split.
  - intros H. by exists a.
  - by intros (? & [= ->] & ?).
  - by intros [].
  - by intros (? & ? & ?).
Qed.
Lemma wp_ok_or {A} code (o : option A) Q E s :
  wp (ok_or code o) Q E s ↔ match o with Some a => Q a s | None => E code s end.
Proof. by destruct o. Qed.
Lemma wp_mono {A} (m : K S A) (Q Q' : A → S → Prop) (E E' : Z → S → Prop) s :
  wp m Q E s → (∀ a s', Q a s' → Q' a s') → (∀ e s', E e s' → E' e s') →
  wp m Q' E' s.
Proof. unfold wp. destruct (m s); eauto. Qed.
(** What holds of a run holds of its result. *)
Lemma wp_done {A} (m : K S A) Q E s a s' : wp m Q E s → m s = Done a s' → Q a s'.
Proof. unfold wp. intros H Hm. by rewrite Hm in H. Qed.
Lemma wp_fail {A} (m : K S A) Q E s e s' : wp m Q E s → m s = Fail e s' → E e s'.
Proof. unfold wp. intros H Hm. by rewrite Hm in H. Qed.

(** An invariant of the body is an invariant of the loop. *)
Lemma wp_for_each {A} (I : S → Prop) E (body : A → K S ()) l s :
  (∀ x s', x ∈ l → I s' → wp (body x) (λ _, I) E s') →
  I s → wp (for_each l body) (λ _, I) E s.
Proof.
  revert s. induction l as [|x l IH]; intros s Hb HI; [done|]. cbn.
  apply wp_bind. eapply wp_mono; [by apply Hb; [left|]| |done].
  intros [] s' HI'. apply IH; [|done]. intros y s'' Hy. by apply Hb; right.
Qed.
End wp.
