(* ===== verification/Abi.v ===== *)
(** * The binary interface: constants, the operation table, handles

    [abi/src/generated.rs] and [abi/src/lib.rs]. The constants keep the modules
    and the names the generated bindings give them. Every definition of the
    library that models code opens with the file and the lines it models, and
    the Rust name in brackets. *)

From S2P Require Import Prelude.
From Stdlib Require Import String.

#[local] Open Scope N_scope.

(** ** Constants of the interface *)

Module limit.
(** abi/src/generated.rs:18-18 [limit::MAX_DESCRIPTOR_LEN] *)
Definition MAX_DESCRIPTOR_LEN : N := 4096.
(** abi/src/generated.rs:20-20 [limit::MAX_INLINE_PAYLOAD] *)
Definition MAX_INLINE_PAYLOAD : N := 256.
(** abi/src/generated.rs:22-22 [limit::MAX_CAPS_PER_MESSAGE] *)
Definition MAX_CAPS_PER_MESSAGE : N := 4.
(** abi/src/generated.rs:24-24 [limit::MAX_SCOPE_DEPTH] *)
Definition MAX_SCOPE_DEPTH : N := 16.
(** abi/src/generated.rs:26-26 [limit::MAX_DERIVE_DEPTH] *)
Definition MAX_DERIVE_DEPTH : N := 32.
(** abi/src/generated.rs:28-28 [limit::MAX_HANDLES_PER_DOMAIN] *)
Definition MAX_HANDLES_PER_DOMAIN : N := 32.
(** abi/src/generated.rs:30-30 [limit::MAX_ENDPOINT_QUEUE] *)
Definition MAX_ENDPOINT_QUEUE : N := 8.
(** abi/src/generated.rs:32-32 [limit::MAX_MEMORY_PAGES_PER_OBJECT] *)
Definition MAX_MEMORY_PAGES_PER_OBJECT : N := 4096.
(** abi/src/generated.rs:34-34 [limit::CPU_WINDOW_NS] *)
Definition CPU_WINDOW_NS : N := 10000000.
(** abi/src/generated.rs:36-36 [limit::CPU_QUANTUM_NS] *)
Definition CPU_QUANTUM_NS : N := 1000000.
(** abi/src/generated.rs:38-38 [limit::PAGE_SIZE] *)
Definition PAGE_SIZE : N := 4096.
(** abi/src/generated.rs:40-40 [limit::CONTROL_LOG_CAPACITY] *)
Definition CONTROL_LOG_CAPACITY : N := 256.
(** abi/src/generated.rs:42-42 [limit::CONTROL_LOG_RESERVED] *)
Definition CONTROL_LOG_RESERVED : N := 8.
(** abi/src/generated.rs:44-44 [limit::RECEIPT_BATCH] *)
Definition RECEIPT_BATCH : N := 16.
End limit.

Module object_type.
(** abi/src/generated.rs:66-66 [object_type::NONE] *)
Definition NONE : N := 0.
(** abi/src/generated.rs:68-68 [object_type::SCOPE] *)
Definition SCOPE : N := 1.
(** abi/src/generated.rs:70-70 [object_type::DOMAIN] *)
Definition DOMAIN : N := 2.
(** abi/src/generated.rs:72-72 [object_type::MEMORY] *)
Definition MEMORY : N := 3.
(** abi/src/generated.rs:74-74 [object_type::ENDPOINT] *)
Definition ENDPOINT : N := 4.
(** abi/src/generated.rs:76-76 [object_type::INVOCATION] *)
Definition INVOCATION : N := 5.
(** abi/src/generated.rs:78-78 [object_type::SIGNAL] *)
Definition SIGNAL : N := 6.
(** abi/src/generated.rs:80-80 [object_type::TIMER] *)
Definition TIMER : N := 7.
(** abi/src/generated.rs:82-82 [object_type::CONTROL_LOG] *)
Definition CONTROL_LOG : N := 8.
(** abi/src/generated.rs:84-84 [object_type::DEVICE] *)
Definition DEVICE : N := 9.
End object_type.

Module right.
(** abi/src/generated.rs:91-91 [right::INSPECT] *)
Definition INSPECT : N := N.shiftl 1 0.
(** abi/src/generated.rs:93-93 [right::DERIVE] *)
Definition DERIVE : N := N.shiftl 1 1.
(** abi/src/generated.rs:95-95 [right::TRANSFER] *)
Definition TRANSFER : N := N.shiftl 1 2.
(** abi/src/generated.rs:97-97 [right::DESTROY] *)
Definition DESTROY : N := N.shiftl 1 3.
(** abi/src/generated.rs:99-99 [right::ADMIN] *)
Definition ADMIN : N := N.shiftl 1 4.
(** abi/src/generated.rs:102-102 [right::SCOPE_CREATE] *)
Definition SCOPE_CREATE : N := N.shiftl 1 8.
(** abi/src/generated.rs:104-104 [right::SCOPE_LIMIT] *)
Definition SCOPE_LIMIT : N := N.shiftl 1 9.
(** abi/src/generated.rs:106-106 [right::SCOPE_FENCE] *)
Definition SCOPE_FENCE : N := N.shiftl 1 10.
(** abi/src/generated.rs:108-108 [right::SCOPE_EXEC] *)
Definition SCOPE_EXEC : N := N.shiftl 1 11.
(** abi/src/generated.rs:111-111 [right::DOMAIN_BUILD] *)
Definition DOMAIN_BUILD : N := N.shiftl 1 8.
(** abi/src/generated.rs:113-113 [right::DOMAIN_ACTIVATE] *)
Definition DOMAIN_ACTIVATE : N := N.shiftl 1 9.
(** abi/src/generated.rs:115-115 [right::DOMAIN_STOP] *)
Definition DOMAIN_STOP : N := N.shiftl 1 10.
(** abi/src/generated.rs:117-117 [right::DOMAIN_WAIT] *)
Definition DOMAIN_WAIT : N := N.shiftl 1 11.
(** abi/src/generated.rs:120-120 [right::MEMORY_READ] *)
Definition MEMORY_READ : N := N.shiftl 1 8.
(** abi/src/generated.rs:122-122 [right::MEMORY_WRITE] *)
Definition MEMORY_WRITE : N := N.shiftl 1 9.
(** abi/src/generated.rs:124-124 [right::MEMORY_EXECUTE] *)
Definition MEMORY_EXECUTE : N := N.shiftl 1 10.
(** abi/src/generated.rs:126-126 [right::MEMORY_MAP] *)
Definition MEMORY_MAP : N := N.shiftl 1 11.
(** abi/src/generated.rs:128-128 [right::MEMORY_SEAL] *)
Definition MEMORY_SEAL : N := N.shiftl 1 12.
(** abi/src/generated.rs:131-131 [right::ENDPOINT_SEND] *)
Definition ENDPOINT_SEND : N := N.shiftl 1 8.
(** abi/src/generated.rs:133-133 [right::ENDPOINT_CALL] *)
Definition ENDPOINT_CALL : N := N.shiftl 1 9.
(** abi/src/generated.rs:135-135 [right::ENDPOINT_RECEIVE] *)
Definition ENDPOINT_RECEIVE : N := N.shiftl 1 10.
(** abi/src/generated.rs:137-137 [right::ENDPOINT_BIND] *)
Definition ENDPOINT_BIND : N := N.shiftl 1 11.
(** abi/src/generated.rs:140-140 [right::INVOCATION_REPLY] *)
Definition INVOCATION_REPLY : N := N.shiftl 1 8.
(** abi/src/generated.rs:142-142 [right::INVOCATION_EFFECT] *)
Definition INVOCATION_EFFECT : N := N.shiftl 1 9.
(** abi/src/generated.rs:144-144 [right::INVOCATION_RESOLVE] *)
Definition INVOCATION_RESOLVE : N := N.shiftl 1 10.
(** abi/src/generated.rs:146-146 [right::INVOCATION_BIND] *)
Definition INVOCATION_BIND : N := N.shiftl 1 11.
(** abi/src/generated.rs:149-149 [right::SIGNAL_RAISE] *)
Definition SIGNAL_RAISE : N := N.shiftl 1 8.
(** abi/src/generated.rs:151-151 [right::SIGNAL_WAIT] *)
Definition SIGNAL_WAIT : N := N.shiftl 1 9.
(** abi/src/generated.rs:154-154 [right::TIMER_ARM] *)
Definition TIMER_ARM : N := N.shiftl 1 8.
(** abi/src/generated.rs:157-157 [right::LOG_READ] *)
Definition LOG_READ : N := N.shiftl 1 8.
(** abi/src/generated.rs:159-159 [right::LOG_APPEND] *)
Definition LOG_APPEND : N := N.shiftl 1 9.
(** abi/src/generated.rs:161-161 [right::LOG_ACK] *)
Definition LOG_ACK : N := N.shiftl 1 10.
(** abi/src/generated.rs:164-164 [right::DEVICE_MAP] *)
Definition DEVICE_MAP : N := N.shiftl 1 8.
(** abi/src/generated.rs:166-166 [right::DEVICE_IRQ] *)
Definition DEVICE_IRQ : N := N.shiftl 1 9.
(** abi/src/generated.rs:168-168 [right::DEVICE_DMA] *)
Definition DEVICE_DMA : N := N.shiftl 1 10.
(** abi/src/generated.rs:170-170 [right::DEVICE_CONTROL] *)
Definition DEVICE_CONTROL : N := N.shiftl 1 11.
End right.

Module op.
(** abi/src/generated.rs:176-176 [op::CAP_INSPECT] *)
Definition CAP_INSPECT : N := 0x00000001.
(** abi/src/generated.rs:178-178 [op::CAP_DERIVE] *)
Definition CAP_DERIVE : N := 0x00000002.
(** abi/src/generated.rs:180-180 [op::CAP_COPY] *)
Definition CAP_COPY : N := 0x00000003.
(** abi/src/generated.rs:182-182 [op::CAP_CLOSE] *)
Definition CAP_CLOSE : N := 0x00000004.
(** abi/src/generated.rs:184-184 [op::CAP_FENCE] *)
Definition CAP_FENCE : N := 0x00000005.
(** abi/src/generated.rs:186-186 [op::CAP_DRAIN_STATUS] *)
Definition CAP_DRAIN_STATUS : N := 0x00000006.
(** abi/src/generated.rs:188-188 [op::SCOPE_CREATE_CHILD] *)
Definition SCOPE_CREATE_CHILD : N := 0x00010001.
(** abi/src/generated.rs:190-190 [op::SCOPE_QUERY] *)
Definition SCOPE_QUERY : N := 0x00010002.
(** abi/src/generated.rs:192-192 [op::SCOPE_SET_LIMITS] *)
Definition SCOPE_SET_LIMITS : N := 0x00010003.
(** abi/src/generated.rs:194-194 [op::SCOPE_FENCE] *)
Definition SCOPE_FENCE : N := 0x00010004.
(** abi/src/generated.rs:196-196 [op::SCOPE_DRAIN_STATUS] *)
Definition SCOPE_DRAIN_STATUS : N := 0x00010005.
(** abi/src/generated.rs:198-198 [op::SCOPE_RETIRE] *)
Definition SCOPE_RETIRE : N := 0x00010006.
(** abi/src/generated.rs:200-200 [op::SCOPE_CREATE_DOMAIN] *)
Definition SCOPE_CREATE_DOMAIN : N := 0x00010007.
(** abi/src/generated.rs:202-202 [op::SCOPE_CREATE_MEMORY] *)
Definition SCOPE_CREATE_MEMORY : N := 0x00010008.
(** abi/src/generated.rs:204-204 [op::SCOPE_CREATE_ENDPOINT] *)
Definition SCOPE_CREATE_ENDPOINT : N := 0x00010009.
(** abi/src/generated.rs:206-206 [op::SCOPE_CREATE_SIGNAL] *)
Definition SCOPE_CREATE_SIGNAL : N := 0x0001000A.
(** abi/src/generated.rs:208-208 [op::SCOPE_CREATE_TIMER] *)
Definition SCOPE_CREATE_TIMER : N := 0x0001000B.
(** abi/src/generated.rs:210-210 [op::DOMAIN_MAP] *)
Definition DOMAIN_MAP : N := 0x00020001.
(** abi/src/generated.rs:212-212 [op::DOMAIN_UNMAP] *)
Definition DOMAIN_UNMAP : N := 0x00020002.
(** abi/src/generated.rs:214-214 [op::DOMAIN_INSTALL_CAP] *)
Definition DOMAIN_INSTALL_CAP : N := 0x00020003.
(** abi/src/generated.rs:216-216 [op::DOMAIN_ADD_THREAD] *)
Definition DOMAIN_ADD_THREAD : N := 0x00020004.
(** abi/src/generated.rs:218-218 [op::DOMAIN_SET_FAULT_CHANNEL] *)
Definition DOMAIN_SET_FAULT_CHANNEL : N := 0x00020005.
(** abi/src/generated.rs:220-220 [op::DOMAIN_ACTIVATE] *)
Definition DOMAIN_ACTIVATE : N := 0x00020006.
(** abi/src/generated.rs:222-222 [op::DOMAIN_TERMINATE] *)
Definition DOMAIN_TERMINATE : N := 0x00020007.
(** abi/src/generated.rs:224-224 [op::DOMAIN_QUERY] *)
Definition DOMAIN_QUERY : N := 0x00020008.
(** abi/src/generated.rs:226-226 [op::MEMORY_QUERY] *)
Definition MEMORY_QUERY : N := 0x00030001.
(** abi/src/generated.rs:228-228 [op::MEMORY_COPY] *)
Definition MEMORY_COPY : N := 0x00030002.
(** abi/src/generated.rs:230-230 [op::MEMORY_SEAL] *)
Definition MEMORY_SEAL : N := 0x00030003.
(** abi/src/generated.rs:232-232 [op::MEMORY_WRITE] *)
Definition MEMORY_WRITE : N := 0x00030004.
(** abi/src/generated.rs:234-234 [op::MEMORY_READ] *)
Definition MEMORY_READ : N := 0x00030005.
(** abi/src/generated.rs:236-236 [op::ENDPOINT_BIND_FACET] *)
Definition ENDPOINT_BIND_FACET : N := 0x00040001.
(** abi/src/generated.rs:238-238 [op::ENDPOINT_CALL] *)
Definition ENDPOINT_CALL : N := 0x00040002.
(** abi/src/generated.rs:240-240 [op::ENDPOINT_SEND] *)
Definition ENDPOINT_SEND : N := 0x00040003.
(** abi/src/generated.rs:242-242 [op::ENDPOINT_RECEIVE] *)
Definition ENDPOINT_RECEIVE : N := 0x00040004.
(** abi/src/generated.rs:244-244 [op::ENDPOINT_QUERY] *)
Definition ENDPOINT_QUERY : N := 0x00040005.
(** abi/src/generated.rs:246-246 [op::INVOCATION_REPLY] *)
Definition INVOCATION_REPLY : N := 0x00050001.
(** abi/src/generated.rs:248-248 [op::INVOCATION_BEGIN_EFFECT] *)
Definition INVOCATION_BEGIN_EFFECT : N := 0x00050002.
(** abi/src/generated.rs:250-250 [op::INVOCATION_RESOLVE] *)
Definition INVOCATION_RESOLVE : N := 0x00050003.
(** abi/src/generated.rs:252-252 [op::INVOCATION_QUERY] *)
Definition INVOCATION_QUERY : N := 0x00050004.
(** abi/src/generated.rs:254-254 [op::INVOCATION_BIND_WORKER] *)
Definition INVOCATION_BIND_WORKER : N := 0x00050005.
(** abi/src/generated.rs:256-256 [op::INVOCATION_UNBIND_WORKER] *)
Definition INVOCATION_UNBIND_WORKER : N := 0x00050006.
(** abi/src/generated.rs:258-258 [op::SIGNAL_RAISE] *)
Definition SIGNAL_RAISE : N := 0x00060001.
(** abi/src/generated.rs:260-260 [op::SIGNAL_WAIT] *)
Definition SIGNAL_WAIT : N := 0x00060002.
(** abi/src/generated.rs:262-262 [op::SIGNAL_QUERY] *)
Definition SIGNAL_QUERY : N := 0x00060003.
(** abi/src/generated.rs:264-264 [op::TIMER_ARM] *)
Definition TIMER_ARM : N := 0x00070001.
(** abi/src/generated.rs:266-266 [op::TIMER_CANCEL] *)
Definition TIMER_CANCEL : N := 0x00070002.
(** abi/src/generated.rs:268-268 [op::TIMER_QUERY] *)
Definition TIMER_QUERY : N := 0x00070003.
(** abi/src/generated.rs:270-270 [op::LOG_READ] *)
Definition LOG_READ : N := 0x00080001.
(** abi/src/generated.rs:272-272 [op::LOG_APPEND] *)
Definition LOG_APPEND : N := 0x00080002.
(** abi/src/generated.rs:274-274 [op::LOG_ACK] *)
Definition LOG_ACK : N := 0x00080003.
(** abi/src/generated.rs:276-276 [op::LOG_QUERY] *)
Definition LOG_QUERY : N := 0x00080004.
(** abi/src/generated.rs:278-278 [op::DEVICE_QUERY] *)
Definition DEVICE_QUERY : N := 0x00090001.
(** abi/src/generated.rs:280-280 [op::DEVICE_MAP_REGION] *)
Definition DEVICE_MAP_REGION : N := 0x00090002.
(** abi/src/generated.rs:282-282 [op::DEVICE_UNMAP_REGION] *)
Definition DEVICE_UNMAP_REGION : N := 0x00090003.
(** abi/src/generated.rs:284-284 [op::DEVICE_BIND_IRQ] *)
Definition DEVICE_BIND_IRQ : N := 0x00090004.
(** abi/src/generated.rs:286-286 [op::DEVICE_SET_MASTER] *)
Definition DEVICE_SET_MASTER : N := 0x00090005.
(** abi/src/generated.rs:288-288 [op::DEVICE_DMA_MAP] *)
Definition DEVICE_DMA_MAP : N := 0x00090006.
(** abi/src/generated.rs:290-290 [op::DEVICE_DMA_UNMAP] *)
Definition DEVICE_DMA_UNMAP : N := 0x00090007.
(** abi/src/generated.rs:292-292 [op::DEVICE_RESET] *)
Definition DEVICE_RESET : N := 0x00090008.
End op.

Module flag.
(** abi/src/generated.rs:298-298 [flag::NONBLOCKING] *)
Definition NONBLOCKING : N := N.shiftl 1 0.
(** abi/src/generated.rs:300-300 [flag::KNOWN] *)
Definition KNOWN : N := 0x1.
End flag.

Module status.
(** abi/src/generated.rs:1063-1063 [status::OK] *)
Definition OK : Z := (0)%Z.
(** abi/src/generated.rs:1065-1065 [status::UNSUPPORTED_ENTRY] *)
Definition UNSUPPORTED_ENTRY : Z := (-1)%Z.
(** abi/src/generated.rs:1067-1067 [status::INVALID_ARGUMENT] *)
Definition INVALID_ARGUMENT : Z := (-2)%Z.
(** abi/src/generated.rs:1069-1069 [status::INCOMPATIBLE_VERSION] *)
Definition INCOMPATIBLE_VERSION : Z := (-3)%Z.
(** abi/src/generated.rs:1071-1071 [status::INVALID_HANDLE] *)
Definition INVALID_HANDLE : Z := (-4)%Z.
(** abi/src/generated.rs:1073-1073 [status::WRONG_TYPE] *)
Definition WRONG_TYPE : Z := (-5)%Z.
(** abi/src/generated.rs:1075-1075 [status::INSUFFICIENT_RIGHTS] *)
Definition INSUFFICIENT_RIGHTS : Z := (-6)%Z.
(** abi/src/generated.rs:1077-1077 [status::EXPIRED] *)
Definition EXPIRED : Z := (-7)%Z.
(** abi/src/generated.rs:1079-1079 [status::SCOPE_CLOSED] *)
Definition SCOPE_CLOSED : Z := (-8)%Z.
(** abi/src/generated.rs:1081-1081 [status::LIMIT_EXHAUSTED] *)
Definition LIMIT_EXHAUSTED : Z := (-9)%Z.
(** abi/src/generated.rs:1083-1083 [status::QUEUE_FULL] *)
Definition QUEUE_FULL : Z := (-10)%Z.
(** abi/src/generated.rs:1085-1085 [status::INVALID_ADDRESS] *)
Definition INVALID_ADDRESS : Z := (-11)%Z.
(** abi/src/generated.rs:1087-1087 [status::PEER_DEAD] *)
Definition PEER_DEAD : Z := (-12)%Z.
(** abi/src/generated.rs:1089-1089 [status::CANCELLED] *)
Definition CANCELLED : Z := (-13)%Z.
(** abi/src/generated.rs:1091-1091 [status::PENDING] *)
Definition PENDING : Z := (-14)%Z.
(** abi/src/generated.rs:1093-1093 [status::WOULD_BLOCK] *)
Definition WOULD_BLOCK : Z := (-15)%Z.
(** abi/src/generated.rs:1095-1095 [status::TIMED_OUT] *)
Definition TIMED_OUT : Z := (-16)%Z.
(** abi/src/generated.rs:1097-1097 [status::ALREADY_RESOLVED] *)
Definition ALREADY_RESOLVED : Z := (-17)%Z.
(** abi/src/generated.rs:1099-1099 [status::STATE_CONFLICT] *)
Definition STATE_CONFLICT : Z := (-18)%Z.
(** abi/src/generated.rs:1101-1101 [status::DRAIN_INCOMPLETE] *)
Definition DRAIN_INCOMPLETE : Z := (-19)%Z.
(** abi/src/generated.rs:1103-1103 [status::NOT_SUPPORTED] *)
Definition NOT_SUPPORTED : Z := (-20)%Z.
(** abi/src/generated.rs:1105-1105 [status::UNSUPPORTED_PROFILE] *)
Definition UNSUPPORTED_PROFILE : Z := (-21)%Z.
End status.

Module scope_state.
(** abi/src/generated.rs:1111-1111 [scope_state::OPEN] *)
Definition OPEN : N := 1.
(** abi/src/generated.rs:1113-1113 [scope_state::FENCED] *)
Definition FENCED : N := 2.
(** abi/src/generated.rs:1115-1115 [scope_state::QUIESCENT] *)
Definition QUIESCENT : N := 3.
(** abi/src/generated.rs:1117-1117 [scope_state::RETIRED] *)
Definition RETIRED : N := 4.
End scope_state.

Module memory_state.
(** abi/src/generated.rs:1123-1123 [memory_state::MUTABLE] *)
Definition MUTABLE : N := 1.
(** abi/src/generated.rs:1125-1125 [memory_state::SEALING] *)
Definition SEALING : N := 2.
(** abi/src/generated.rs:1127-1127 [memory_state::SEALED] *)
Definition SEALED : N := 3.
End memory_state.

Module domain_state.
(** abi/src/generated.rs:1133-1133 [domain_state::BUILDING] *)
Definition BUILDING : N := 1.
(** abi/src/generated.rs:1135-1135 [domain_state::RUNNABLE] *)
Definition RUNNABLE : N := 2.
(** abi/src/generated.rs:1137-1137 [domain_state::FAULTED] *)
Definition FAULTED : N := 3.
(** abi/src/generated.rs:1139-1139 [domain_state::STOPPING] *)
Definition STOPPING : N := 4.
(** abi/src/generated.rs:1141-1141 [domain_state::DEAD] *)
Definition DEAD : N := 5.
End domain_state.

Module invocation_state.
(** abi/src/generated.rs:1147-1147 [invocation_state::ADMITTED] *)
Definition ADMITTED : N := 1.
(** abi/src/generated.rs:1149-1149 [invocation_state::DELIVERED] *)
Definition DELIVERED : N := 2.
(** abi/src/generated.rs:1151-1151 [invocation_state::RESOLVED] *)
Definition RESOLVED : N := 3.
End invocation_state.

Module effect_state.
(** abi/src/generated.rs:1157-1157 [effect_state::NONE] *)
Definition NONE : N := 0.
(** abi/src/generated.rs:1159-1159 [effect_state::ADMITTED] *)
Definition ADMITTED : N := 1.
(** abi/src/generated.rs:1161-1161 [effect_state::REFUSED] *)
Definition REFUSED : N := 2.
(** abi/src/generated.rs:1163-1163 [effect_state::RESOLVED] *)
Definition RESOLVED : N := 3.
End effect_state.

Module cancel_state.
(** abi/src/generated.rs:1169-1169 [cancel_state::LIVE] *)
Definition LIVE : N := 0.
(** abi/src/generated.rs:1171-1171 [cancel_state::ORIGIN_FENCED] *)
Definition ORIGIN_FENCED : N := 1.
(** abi/src/generated.rs:1173-1173 [cancel_state::ORIGIN_DEAD] *)
Definition ORIGIN_DEAD : N := 2.
End cancel_state.

Module outcome.
(** abi/src/generated.rs:1179-1179 [outcome::COMMITTED] *)
Definition COMMITTED : N := 1.
(** abi/src/generated.rs:1181-1181 [outcome::ABORTED] *)
Definition ABORTED : N := 2.
(** abi/src/generated.rs:1183-1183 [outcome::UNKNOWN] *)
Definition UNKNOWN : N := 3.
End outcome.

Module cap_op.
(** abi/src/generated.rs:1189-1189 [cap_op::COPY] *)
Definition COPY : N := 0.
(** abi/src/generated.rs:1191-1191 [cap_op::MOVE] *)
Definition MOVE : N := 1.
End cap_op.

Module message_kind.
(** abi/src/generated.rs:1197-1197 [message_kind::REQUEST] *)
Definition REQUEST : N := 1.
(** abi/src/generated.rs:1199-1199 [message_kind::FAULT] *)
Definition FAULT : N := 2.
End message_kind.

Module receipt_kind.
(** abi/src/generated.rs:1205-1205 [receipt_kind::ADMIT] *)
Definition ADMIT : N := 1.
(** abi/src/generated.rs:1207-1207 [receipt_kind::EFFECT] *)
Definition EFFECT : N := 2.
(** abi/src/generated.rs:1209-1209 [receipt_kind::FENCE] *)
Definition FENCE : N := 3.
(** abi/src/generated.rs:1211-1211 [receipt_kind::RETIRE] *)
Definition RETIRE : N := 4.
(** abi/src/generated.rs:1213-1213 [receipt_kind::SERVICE_NOTE] *)
Definition SERVICE_NOTE : N := 5.
(** abi/src/generated.rs:1215-1215 [receipt_kind::OBJECT_LIFE] *)
Definition OBJECT_LIFE : N := 6.
End receipt_kind.

Module cap_lineage.
(** abi/src/generated.rs:1221-1221 [cap_lineage::LIVE] *)
Definition LIVE : N := 1.
(** abi/src/generated.rs:1223-1223 [cap_lineage::FENCED] *)
Definition FENCED : N := 2.
(** abi/src/generated.rs:1225-1225 [cap_lineage::EXPIRED] *)
Definition EXPIRED : N := 3.
End cap_lineage.
(** ** The operation table *)

(** abi/src/generated.rs:553-566 [OpSpec] *)
Record OpSpec := mkOpSpec {
  code : N;
  spec_object_type : N;
  rights : N;
  descriptor_len : N;
  writes_response : bool;
  name : string
}.

#[local] Open Scope string_scope.
(** abi/src/generated.rs:569-1042 [OPERATIONS]. Every operation this revision
    assigns, ordered by code. *)
Definition OPERATIONS : list OpSpec := [
  mkOpSpec 0x00000001 0 0x00000000 96 true "CAP_INSPECT";
  mkOpSpec 0x00000002 0 0x00000002 56 false "CAP_DERIVE";
  mkOpSpec 0x00000003 0 0x00000000 0 false "CAP_COPY";
  mkOpSpec 0x00000004 0 0x00000000 0 false "CAP_CLOSE";
  mkOpSpec 0x00000005 0 0x00000010 0 false "CAP_FENCE";
  mkOpSpec 0x00000006 0 0x00000010 96 true "CAP_DRAIN_STATUS";
  mkOpSpec 0x00010001 1 0x00000200 96 false "SCOPE_CREATE_CHILD";
  mkOpSpec 0x00010002 1 0x00000001 176 true "SCOPE_QUERY";
  mkOpSpec 0x00010003 1 0x00000200 80 false "SCOPE_SET_LIMITS";
  mkOpSpec 0x00010004 1 0x00000400 0 false "SCOPE_FENCE";
  mkOpSpec 0x00010005 1 0x00000001 96 true "SCOPE_DRAIN_STATUS";
  mkOpSpec 0x00010006 1 0x00000400 96 true "SCOPE_RETIRE";
  mkOpSpec 0x00010007 1 0x00000100 56 false "SCOPE_CREATE_DOMAIN";
  mkOpSpec 0x00010008 1 0x00000100 64 false "SCOPE_CREATE_MEMORY";
  mkOpSpec 0x00010009 1 0x00000100 56 false "SCOPE_CREATE_ENDPOINT";
  mkOpSpec 0x0001000A 1 0x00000100 0 false "SCOPE_CREATE_SIGNAL";
  mkOpSpec 0x0001000B 1 0x00000100 48 false "SCOPE_CREATE_TIMER";
  mkOpSpec 0x00020001 2 0x00000100 64 false "DOMAIN_MAP";
  mkOpSpec 0x00020002 2 0x00000100 48 false "DOMAIN_UNMAP";
  mkOpSpec 0x00020003 2 0x00000100 56 false "DOMAIN_INSTALL_CAP";
  mkOpSpec 0x00020004 2 0x00000100 64 false "DOMAIN_ADD_THREAD";
  mkOpSpec 0x00020005 2 0x00000100 48 false "DOMAIN_SET_FAULT_CHANNEL";
  mkOpSpec 0x00020006 2 0x00000200 0 false "DOMAIN_ACTIVATE";
  mkOpSpec 0x00020007 2 0x00000400 0 false "DOMAIN_TERMINATE";
  mkOpSpec 0x00020008 2 0x00000800 104 true "DOMAIN_QUERY";
  mkOpSpec 0x00030001 3 0x00000001 88 true "MEMORY_QUERY";
  mkOpSpec 0x00030002 3 0x00000200 64 false "MEMORY_COPY";
  mkOpSpec 0x00030003 3 0x00001000 88 true "MEMORY_SEAL";
  mkOpSpec 0x00030004 3 0x00000200 304 false "MEMORY_WRITE";
  mkOpSpec 0x00030005 3 0x00000100 304 true "MEMORY_READ";
  mkOpSpec 0x00040001 4 0x00000800 56 false "ENDPOINT_BIND_FACET";
  mkOpSpec 0x00040002 4 0x00000200 344 true "ENDPOINT_CALL";
  mkOpSpec 0x00040003 4 0x00000100 344 false "ENDPOINT_SEND";
  mkOpSpec 0x00040004 4 0x00000400 408 true "ENDPOINT_RECEIVE";
  mkOpSpec 0x00040005 4 0x00000001 80 true "ENDPOINT_QUERY";
  mkOpSpec 0x00050001 5 0x00000100 352 false "INVOCATION_REPLY";
  mkOpSpec 0x00050002 5 0x00000200 48 false "INVOCATION_BEGIN_EFFECT";
  mkOpSpec 0x00050003 5 0x00000400 48 false "INVOCATION_RESOLVE";
  mkOpSpec 0x00050004 5 0x00000001 96 true "INVOCATION_QUERY";
  mkOpSpec 0x00050005 5 0x00000800 0 false "INVOCATION_BIND_WORKER";
  mkOpSpec 0x00050006 5 0x00000800 0 false "INVOCATION_UNBIND_WORKER";
  mkOpSpec 0x00060001 6 0x00000100 40 false "SIGNAL_RAISE";
  mkOpSpec 0x00060002 6 0x00000200 64 true "SIGNAL_WAIT";
  mkOpSpec 0x00060003 6 0x00000001 64 true "SIGNAL_QUERY";
  mkOpSpec 0x00070001 7 0x00000100 40 false "TIMER_ARM";
  mkOpSpec 0x00070002 7 0x00000100 0 false "TIMER_CANCEL";
  mkOpSpec 0x00070003 7 0x00000001 64 true "TIMER_QUERY";
  mkOpSpec 0x00080001 8 0x00000100 1584 true "LOG_READ";
  mkOpSpec 0x00080002 8 0x00000200 64 false "LOG_APPEND";
  mkOpSpec 0x00080003 8 0x00000400 40 false "LOG_ACK";
  mkOpSpec 0x00080004 8 0x00000001 72 true "LOG_QUERY";
  mkOpSpec 0x00090001 9 0x00000001 264 true "DEVICE_QUERY";
  mkOpSpec 0x00090002 9 0x00000100 56 false "DEVICE_MAP_REGION";
  mkOpSpec 0x00090003 9 0x00000100 56 false "DEVICE_UNMAP_REGION";
  mkOpSpec 0x00090004 9 0x00000200 56 false "DEVICE_BIND_IRQ";
  mkOpSpec 0x00090005 9 0x00000800 40 false "DEVICE_SET_MASTER";
  mkOpSpec 0x00090006 9 0x00000400 72 true "DEVICE_DMA_MAP";
  mkOpSpec 0x00090007 9 0x00000400 56 false "DEVICE_DMA_UNMAP";
  mkOpSpec 0x00090008 9 0x00000800 264 true "DEVICE_RESET"
].
#[local] Close Scope string_scope.

(** abi/src/generated.rs:1049-1058 [spec]. The generated table's search: the
    first entry whose code is the one asked for. *)
Fixpoint spec_from (ops : list OpSpec) (c : N) : option OpSpec :=
  match ops with
  | [] => None
  | o :: ops => if decide (code o = c) then Some o else spec_from ops c
  end.
(** abi/src/generated.rs:1049-1058 [spec] *)
Definition spec (c : N) : option OpSpec := spec_from OPERATIONS c.

(** ** Handles *)

(** abi/src/lib.rs:68-69 [MAX_DESCRIPTOR_LEN, MAX_INLINE_PAYLOAD_LEN] *)
Definition MAX_DESCRIPTOR_LEN : N := limit.MAX_DESCRIPTOR_LEN.

(** abi/src/lib.rs:72-73 [MAX_MESSAGE_CAPS] *)
Definition MAX_MESSAGE_CAPS : N := limit.MAX_CAPS_PER_MESSAGE.

(** abi/src/lib.rs:78-80 [pack_version] *)
Definition pack_version (major minor : N) : N :=
  N.lor (N.shiftl major 16) minor.

(** abi/src/lib.rs:87-89 [handle] *)
Definition handle (slot generation : N) : N :=
  N.lor (N.shiftl generation 32) slot.

(** abi/src/lib.rs:93-95 [handle_slot] *)
Definition handle_slot (value : N) : N := N.land value 0xFFFFFFFF.

(** abi/src/lib.rs:99-101 [handle_generation]. The cast to [u32] keeps the low
    half of the shifted word. *)
Definition handle_generation (value : N) : N := N.land (N.shiftr value 32) U32_MAX.

(** abi/src/lib.rs:106-108 [boot_handle] *)
Definition boot_handle (slot : N) : N := handle slot 1.

(** abi/src/lib.rs:114-116 [op_type] *)
Definition op_type (operation : N) : N := N.shiftr operation 16.

Lemma handle_arith slot generation :
  slot < 2 ^ 32 → handle slot generation = generation * 2 ^ 32 + slot.
Proof.
  intros Hs. unfold handle. rewrite N.shiftl_mul_pow2.
  rewrite <-N.lxor_lor, <-N.add_nocarry_lxor; [done| |].
  all: apply N.bits_inj_0; intros n; rewrite N.land_spec;
    destruct (N.lt_ge_cases n 32) as [Hn|Hn];
    [rewrite N.mul_pow2_bits_low by done; done|].
  all: rewrite (N.bits_above_log2 slot n); [by rewrite andb_false_r|].
  all: destruct (decide (slot = 0)) as [->|]; [cbn; lia|].
  all: apply N.log2_lt_pow2 in Hs; lia.
Qed.

(** A 64-bit value is the handle of its two halves. *)
Lemma handle_split h : h <= U64_MAX → handle (handle_slot h) (handle_generation h) = h.
Proof.
  unfold U64_MAX. intros Hh.
  assert (handle_slot h = h mod 2 ^ 32) as ->.
  { unfold handle_slot. change 0xFFFFFFFF with (N.ones 32). apply N.land_ones. }
  assert (handle_generation h = h / 2 ^ 32) as ->.
  { unfold handle_generation, U32_MAX. change 4294967295 with (N.ones 32).
    rewrite N.land_ones, N.shiftr_div_pow2. apply N.mod_small.
    apply N.Div0.div_lt_upper_bound. lia. }
  rewrite handle_arith by (apply N.mod_lt; lia).
  pose proof (N.div_mod h (2 ^ 32)). lia.
Qed.

Lemma handle_parts slot generation :
  slot <= U32_MAX → generation <= U32_MAX →
  handle_slot (handle slot generation) = slot ∧
  handle_generation (handle slot generation) = generation.
Proof.
  unfold U32_MAX. intros Hs Hg. rewrite handle_arith by lia.
  unfold handle_slot, handle_generation, U32_MAX.
  change 0xFFFFFFFF with (N.ones 32). change 4294967295 with (N.ones 32).
  rewrite !N.land_ones, N.shiftr_div_pow2. split.
  - rewrite N.add_comm, N.Div0.mod_add. apply N.mod_small. lia.
  - rewrite N.div_add_l, (N.div_small slot) by lia.
    rewrite N.add_0_r. apply N.mod_small. lia.
Qed.

Lemma handle_bound slot generation :
  slot <= U32_MAX → generation <= U32_MAX → handle slot generation <= U64_MAX.
Proof. unfold U32_MAX, U64_MAX. intros. rewrite handle_arith; lia. Qed.

Lemma handle_nonzero slot generation :
  slot <= U32_MAX → generation <= U32_MAX → generation ≠ 0 → handle slot generation ≠ 0.
Proof.
  intros Hs Hg Hz Hh. destruct (handle_parts slot generation Hs Hg) as [_ Hg'].
  rewrite Hh in Hg'. by rewrite <-Hg' in Hz.
Qed.

(** A handle and its two halves determine each other: splitting a handle
    gives back the slot and the generation it was built from, a live handle
    (whose generation is at least one) is never zero, and every 64-bit value is
    the handle of its own halves. *)
Theorem handle_round_trip slot generation h :
  slot <= U32_MAX → 1 <= generation <= U32_MAX → h <= U64_MAX →
  handle_slot (handle slot generation) = slot ∧
  handle_generation (handle slot generation) = generation ∧
  handle slot generation ≠ 0 ∧
  handle (handle_slot h) (handle_generation h) = h.
Proof.
  intros Hs Hg Hh. destruct (handle_parts slot generation) as [? ?]; [done|lia|].
  split_and!; [done..| |by apply handle_split]. apply handle_nonzero; lia.
Qed.

Lemma handle_round_trip_witness :
  handle_slot (handle 7 3) = 7 ∧ handle_generation (handle 7 3) = 3 ∧ handle 7 3 ≠ 0 ∧
  handle (handle_slot 99) (handle_generation 99) = 99.
Proof. apply (handle_round_trip 7 3 99); unfold U32_MAX, U64_MAX; lia. Defined.
