(* ===== verification/Obj.v ===== *)
(** * Capability tables and the grant tree

    [kernel/src/obj.rs], with the table sizes of [kernel/src/limits.rs]: the
    object references, a domain's capability table, the grant node, and the
    fence over a lineage. *)

From S2P Require Import Prelude Abi.

#[local] Open Scope N_scope.

(** ** Table sizes *)

(** kernel/src/limits.rs:32-32 [MAX_CAPS] *)
Definition MAX_CAPS : N := limit.MAX_HANDLES_PER_DOMAIN.
(** kernel/src/limits.rs:34-34 [MAX_SCOPES] *)
Definition MAX_SCOPES : N := 24.
(** kernel/src/limits.rs:36-36 [MAX_GRANTS] *)
Definition MAX_GRANTS : N := 256.

(** ** Objects *)

(** Indices of the scope and the grant table. *)
Abbreviation ScopeId := N (only parsing).
Abbreviation GrantId := N (only parsing).
(** kernel/src/obj.rs:31-31 [NO_GRANT] *)
Definition NO_GRANT : GrantId := U16_MAX.

(** kernel/src/obj.rs:34-54 [ObjKind] *)
Inductive ObjKind :=
| Scope | Domain | Memory | Endpoint | Invocation | Signal | Timer | ControlLog | Device.

#[global] Instance ObjKind_eq_dec : EqDecision ObjKind.
Proof. solve_decision. Defined.

(** kernel/src/obj.rs:59-71 [ObjKind::abi_type] *)
Definition abi_type (k : ObjKind) : N :=
  match k with
  | Scope => object_type.SCOPE
  | Domain => object_type.DOMAIN
  | Memory => object_type.MEMORY
  | Endpoint => object_type.ENDPOINT
  | Invocation => object_type.INVOCATION
  | Signal => object_type.SIGNAL
  | Timer => object_type.TIMER
  | ControlLog => object_type.CONTROL_LOG
  | Device => object_type.DEVICE
  end.

(** kernel/src/obj.rs:95-96 [ObjKind::COMMON_RIGHTS] *)
Definition COMMON_RIGHTS : N :=
  N.lor (N.lor (N.lor (N.lor right.INSPECT right.DERIVE) right.TRANSFER) right.DESTROY)
    right.ADMIN.

(** kernel/src/obj.rs:103-138 [ObjKind::rights_mask, the rights of one type] *)
Definition specific_rights (k : ObjKind) : N :=
  match k with
  | Scope =>
      N.lor (N.lor (N.lor right.SCOPE_CREATE right.SCOPE_LIMIT) right.SCOPE_FENCE)
        right.SCOPE_EXEC
  | Domain =>
      N.lor (N.lor (N.lor right.DOMAIN_BUILD right.DOMAIN_ACTIVATE) right.DOMAIN_STOP)
        right.DOMAIN_WAIT
  | Memory =>
      N.lor (N.lor (N.lor (N.lor right.MEMORY_READ right.MEMORY_WRITE)
        right.MEMORY_EXECUTE) right.MEMORY_MAP) right.MEMORY_SEAL
  | Endpoint =>
      N.lor (N.lor (N.lor right.ENDPOINT_SEND right.ENDPOINT_CALL) right.ENDPOINT_RECEIVE)
        right.ENDPOINT_BIND
  | Invocation =>
      N.lor (N.lor (N.lor right.INVOCATION_REPLY right.INVOCATION_EFFECT)
        right.INVOCATION_RESOLVE) right.INVOCATION_BIND
  | Signal => N.lor right.SIGNAL_RAISE right.SIGNAL_WAIT
  | Timer => right.TIMER_ARM
  | ControlLog => N.lor (N.lor right.LOG_READ right.LOG_APPEND) right.LOG_ACK
  | Device =>
      N.lor (N.lor (N.lor right.DEVICE_MAP right.DEVICE_IRQ) right.DEVICE_DMA)
        right.DEVICE_CONTROL
  end.

(** kernel/src/obj.rs:101-140 [ObjKind::rights_mask] *)
Definition rights_mask (k : ObjKind) : N := N.lor COMMON_RIGHTS (specific_rights k).

(** kernel/src/obj.rs:145-152 [ObjRef] *)
Record ObjRef := mkObjRef {
  obj_kind : ObjKind;
  obj_index : N;
  obj_generation : N
}.
#[global] Instance ObjRef_rebuild : Rebuild ObjRef :=
  λ o, mkObjRef (obj_kind o) (obj_index o) (obj_generation o).
#[global] Instance ObjRef_eq_dec : EqDecision ObjRef.
Proof. solve_decision. Defined.

(** ** Capability tables *)

(** kernel/src/obj.rs:168-182 [CapEntry] *)
Record CapEntry := mkCapEntry {
  cap_generation : N;
  cap_live : bool;
  cap_retired : bool;
  cap_object : ObjRef;
  cap_grant : GrantId
}.
#[global] Instance CapEntry_rebuild : Rebuild CapEntry :=
  λ e, mkCapEntry (cap_generation e) (cap_live e) (cap_retired e) (cap_object e) (cap_grant e).
#[global] Instance CapEntry_eq_dec : EqDecision CapEntry.
Proof. solve_decision. Defined.

(** kernel/src/obj.rs:200-203 [CapTable] *)
Record CapTable := mkCapTable { slots : list CapEntry }.
#[global] Instance CapTable_rebuild : Rebuild CapTable := λ t, mkCapTable (slots t).

Module CapEntry.
(** kernel/src/obj.rs:185-193 [CapEntry::empty] *)
Definition empty : CapEntry := {|
  cap_generation := 0;
  cap_live := false;
  cap_retired := false;
  cap_object := mkObjRef Scope 0 0;
  cap_grant := NO_GRANT
|}.
End CapEntry.

Module CapTable.
(** kernel/src/obj.rs:208-212 [CapTable::new] *)
Definition new : CapTable := mkCapTable (replicate (N.to_nat MAX_CAPS) CapEntry.empty).

(** kernel/src/obj.rs:216-218 [CapTable::live] *)
Definition live (t : CapTable) : N := tlen (filter cap_live (slots t)).

(** kernel/src/obj.rs:225-225 [CapTable::free_slots, the predicate counted]. The slots
    an installation may take. *)
Definition is_free (e : CapEntry) : bool := negb (cap_live e) && negb (cap_retired e).

(** kernel/src/obj.rs:222-227 [CapTable::free_slots] *)
Definition free_slots (t : CapTable) : N := tlen (filter is_free (slots t)).

(** kernel/src/obj.rs:234-245 [CapTable::lookup] *)
Definition lookup (t : CapTable) (h : N) : option CapEntry :=
  if decide (h = 0) then None else
  let slot := handle_slot h in
  let generation := handle_generation h in
  entry ← slots t !! slot;
  if negb (cap_live entry) || bool_decide (cap_generation entry ≠ generation) then None
  else Some entry.

(** kernel/src/obj.rs:261-264 [CapTable::install_at, the writes]. What installation
    writes over a free slot. *)
Definition occupy (object : ObjRef) (grant : GrantId) (e : CapEntry) : CapEntry :=
  e <| cap_generation ::= λ g, g + 1 |> <| cap_live := true |>
    <| cap_object := object |> <| cap_grant := grant |>.

(** kernel/src/obj.rs:252-266 [CapTable::install_at] *)
Definition install_at (slot : N) (object : ObjRef) (grant : GrantId) (t : CapTable) :
    option N * CapTable :=
  match slots t !! slot with
  | None => (None, t)
  | Some entry =>
      if cap_live entry || cap_retired entry then (None, t) else
      if decide (cap_generation entry = U32_MAX)
      then (None, t <| slots ::= <[slot := entry <| cap_retired := true |>]> |>)
      else let entry := occupy object grant entry in
           (Some (handle slot (cap_generation entry)), t <| slots ::= <[slot := entry]> |>)
  end.

(** kernel/src/obj.rs:270-277 [CapTable::install, the loop]. The candidates are the
    slots still to look at. *)
Fixpoint install_from (candidates : list N) (object : ObjRef) (grant : GrantId)
    (t : CapTable) : option (N * N) * CapTable :=
  match candidates with
  | [] => (None, t)
  | slot :: candidates =>
      match slots t !! slot with
      | Some entry =>
          if cap_live entry || cap_retired entry
          then install_from candidates object grant t
          else let '(h, t) := install_at slot object grant t in ((slot,.) <$> h, t)
      | None => (None, t)
      end
  end.
(** kernel/src/obj.rs:269-278 [CapTable::install] *)
Definition install (object : ObjRef) (grant : GrantId) (t : CapTable) :
    option (N * N) * CapTable :=
  install_from (indices (slots t)) object grant t.

(** kernel/src/obj.rs:288-290 [CapTable::release, the writes]. What a release writes
    over a live slot. *)
Definition vacate (e : CapEntry) : CapEntry :=
  e <| cap_live := false |> <| cap_grant := NO_GRANT |>.

(** kernel/src/obj.rs:281-292 [CapTable::release] *)
Definition release (h : N) (t : CapTable) : option CapEntry * CapTable :=
  let slot := handle_slot h in
  let generation := handle_generation h in
  match slots t !! slot with
  | None => (None, t)
  | Some entry =>
      if negb (cap_live entry) || bool_decide (cap_generation entry ≠ generation)
      then (None, t)
      else (Some entry, t <| slots ::= <[slot := vacate entry]> |>)
  end.

(** kernel/src/obj.rs:296-305 [CapTable::release_slot] *)
Definition release_slot (slot : N) (t : CapTable) : option CapEntry * CapTable :=
  match slots t !! slot with
  | None => (None, t)
  | Some entry =>
      if negb (cap_live entry) then (None, t)
      else (Some entry, t <| slots ::= <[slot := vacate entry]> |>)
  end.
End CapTable.

(** ** The naming of capabilities

    Every operation on a table moves each slot forward along [entry_le]: the
    generation grows when the slot is occupied, and under one generation the
    slot names one object and one grant until it is vacated for good. *)

Definition entry_le (e e' : CapEntry) : Prop :=
  cap_generation e < cap_generation e' ∨
  (cap_generation e = cap_generation e' ∧ (cap_live e' = true → e = e')).

Definition table_le (t t' : CapTable) : Prop :=
  ∀ i e, slots t !! i = Some e → ∃ e', slots t' !! i = Some e' ∧ entry_le e e'.

(** One operation on a table, by any path the kernel has to it. *)
Inductive cap_step : CapTable → CapTable → Prop :=
| step_install_at slot object grant t :
    cap_step t (CapTable.install_at slot object grant t).2
| step_install object grant t : cap_step t (CapTable.install object grant t).2
| step_release h t : cap_step t (CapTable.release h t).2
| step_release_slot slot t : cap_step t (CapTable.release_slot slot t).2.

Record entry_wf (e : CapEntry) : Prop := {
  entry_generation : cap_generation e <= U32_MAX;
  entry_occupied : cap_live e = true → cap_generation e ≠ 0 ∧ cap_retired e = false
}.
Record cap_wf (t : CapTable) : Prop := {
  cap_wf_len : tlen (slots t) = MAX_CAPS;
  cap_wf_entries : ∀ i e, slots t !! i = Some e → entry_wf e
}.

#[global] Instance entry_le_preorder : PreOrder entry_le.
Proof.
  split.
  - intros e. by right.
  - intros e1 e2 e3 [H|[H1 H2]] [H'|[H1' H2']]; [left; lia..|].
    right. split; [congruence|]. intros Hl. rewrite <-(H2' Hl). apply H2.
    by rewrite (H2' Hl).
Qed.

#[global] Instance table_le_preorder : PreOrder table_le.
Proof.
  split.
  - intros t i e He. by exists e.
  - intros t1 t2 t3 H1 H2 i e He. destruct (H1 i e He) as (e2 & He2 & Hle).
    destruct (H2 i e2 He2) as (e3 & He3 & Hle'). exists e3. split; [done|].
    by transitivity e2.
Qed.

Lemma lookup_Some t h e :
  CapTable.lookup t h = Some e ↔
  h ≠ 0 ∧ slots t !! handle_slot h = Some e ∧ cap_live e = true ∧
  cap_generation e = handle_generation h.
Proof.
  unfold CapTable.lookup. case_decide as H0.
  { split; [done|]. by intros [? _]. }
  split.
  - destruct (slots t !! _) as [e'|]; cbn; [|done].
    destruct (cap_live e') eqn:?; cbn; [|done].
    case_bool_decide as Hg; [done|]. intros [= ->]. by split_and!.
  - intros (_ & -> & Hl & Hg). cbn. rewrite Hl. by rewrite bool_decide_false by auto.
Qed.

Lemma table_le_insert t i e e' :
  slots t !! i = Some e → entry_le e e' → table_le t (t <| slots ::= <[i := e']> |>).
Proof.
  intros He Hle j x Hx. cbn. rewrite table_insert.
  case_decide as Hd; [|by exists x].
  destruct Hd as [-> _]. exists e'. by replace x with e by congruence.
Qed.

Lemma cap_wf_insert t i e :
  cap_wf t → entry_wf e → cap_wf (t <| slots ::= <[i := e]> |>).
Proof.
  intros [Hlen Hwf] He. split; cbn; [by rewrite tlen_insert|].
  intros j x. rewrite table_insert. case_decide; [congruence|apply Hwf].
Qed.

Lemma vacate_le e : entry_le e (CapTable.vacate e).
Proof. by right. Qed.
Lemma occupy_le object grant e : entry_le e (CapTable.occupy object grant e).
Proof. left. cbn. lia. Qed.
Lemma vacate_wf e : entry_wf e → entry_wf (CapTable.vacate e).
Proof. by intros []. Qed.
Lemma occupy_wf object grant e :
  entry_wf e → cap_retired e = false → cap_generation e ≠ U32_MAX →
  entry_wf (CapTable.occupy object grant e).
Proof. intros [? ?] ??. split; cbn; [lia|]. intros _. split; [lia|done]. Qed.

Lemma install_at_moves slot object grant t :
  let t' := (CapTable.install_at slot object grant t).2 in
  table_le t t' ∧ (cap_wf t → cap_wf t').
Proof.
  unfold CapTable.install_at. destruct (slots t !! slot) as [e|] eqn:He; cbn; [|done].
  destruct (cap_live e) eqn:Hl, (cap_retired e) eqn:Hr; cbn; try done.
  case_decide as Hg; cbn.
  - split.
    + eapply table_le_insert; [done|]. right. cbn. split; [done|]. congruence.
    + intros Hwf. apply cap_wf_insert; [done|]. split; cbn; [lia|congruence].
  - split.
    + eapply table_le_insert; [done|]. apply occupy_le.
    + intros Hwf. apply cap_wf_insert; [done|].
      by apply occupy_wf; [eapply cap_wf_entries| |].
Qed.

Lemma install_from_moves candidates object grant t :
  let t' := (CapTable.install_from candidates object grant t).2 in
  table_le t t' ∧ (cap_wf t → cap_wf t').
Proof.
  induction candidates as [|slot candidates IH]; cbn; [done|].
  destruct (slots t !! slot) as [e|]; [|done].
  destruct (cap_live e || cap_retired e); [done|].
  pose proof (install_at_moves slot object grant t) as H.
  by destruct (CapTable.install_at slot object grant t).
Qed.

Lemma release_slot_moves slot t :
  let t' := (CapTable.release_slot slot t).2 in
  table_le t t' ∧ (cap_wf t → cap_wf t').
Proof.
  unfold CapTable.release_slot. destruct (slots t !! slot) as [e|] eqn:He; cbn; [|done].
  destruct (cap_live e); cbn; [|done]. split.
  - eapply table_le_insert; [done|apply vacate_le].
  - intros Hwf. apply cap_wf_insert; [done|]. by eapply vacate_wf, cap_wf_entries.
Qed.

Lemma release_moves h t :
  let t' := (CapTable.release h t).2 in
  table_le t t' ∧ (cap_wf t → cap_wf t').
Proof.
  unfold CapTable.release. pose proof (release_slot_moves (handle_slot h) t) as H.
  unfold CapTable.release_slot in H.
  destruct (slots t !! _) as [e|] eqn:He; cbn in *; [|done].
  destruct (cap_live e); cbn in *; [|done]. by case_bool_decide.
Qed.

Lemma cap_step_moves t t' : cap_step t t' → table_le t t' ∧ (cap_wf t → cap_wf t').
Proof.
  intros []; [apply install_at_moves|apply install_from_moves|apply release_moves|
    apply release_slot_moves].
Qed.

Lemma cap_steps_move t t' : rtc cap_step t t' → table_le t t' ∧ (cap_wf t → cap_wf t').
Proof.
  induction 1 as [|t1 t2 t3 Hs _ [IH1 IH2]]; [done|].
  destruct (cap_step_moves _ _ Hs). split; [by transitivity t2|auto].
Qed.

Lemma cap_new_wf : cap_wf CapTable.new.
Proof.
  split; [done|]. intros i e He%list_elem_of_lookup_2. unfold CapTable.new in He. cbn in He.
  apply elem_of_replicate in He as [-> _]. split; [cbn; lia|done].
Qed.

Lemma lookup_insert_other t i e h :
  handle_slot h ≠ i → CapTable.lookup (t <| slots ::= <[i := e]> |>) h = CapTable.lookup t h.
Proof. intros. unfold CapTable.lookup. cbn. by rewrite table_insert_ne by done. Qed.

(** A slot that is not live answers to no handle. *)
Lemma lookup_dead t e h :
  slots t !! handle_slot h = Some e → cap_live e = false → CapTable.lookup t h = None.
Proof.
  intros He Hl. unfold CapTable.lookup. case_decide; [done|]. rewrite He. cbn. by rewrite Hl.
Qed.

Lemma lookup_insert_dead t i e e' h :
  slots t !! i = Some e → cap_live e = false → cap_live e' = false →
  CapTable.lookup (t <| slots ::= <[i := e']> |>) h = CapTable.lookup t h.
Proof.
  intros He Hl Hl'. destruct (decide (handle_slot h = i)) as [<-|];
    [|by apply lookup_insert_other].
  rewrite (lookup_dead t e h He Hl). eapply lookup_dead; [|exact Hl'].
  cbn. apply table_insert_eq. by eapply table_lookup_lt.
Qed.

Lemma free_slots_insert t i e e' :
  slots t !! i = Some e →
  CapTable.free_slots (t <| slots ::= <[i := e']> |>)
    + (if CapTable.is_free e then 1 else 0) =
  CapTable.free_slots t + (if CapTable.is_free e' then 1 else 0).
Proof.
  intros He. unfold CapTable.free_slots. cbn.
  pose proof (count_insert (λ e, CapTable.is_free e) (slots t) i e' e He) as H.
  unfold decide in H. destruct (CapTable.is_free e), (CapTable.is_free e'); exact H.
Qed.

(** The first free candidate decides what [install] does. *)
Inductive install_case (candidates : list N) (object : ObjRef) (grant : GrantId)
    (t : CapTable) : Prop :=
| install_none :
    (∀ i e, i ∈ candidates → slots t !! i = Some e → CapTable.is_free e = false) →
    CapTable.install_from candidates object grant t = (None, t) →
    install_case candidates object grant t
| install_first slot e :
    slot ∈ candidates → slots t !! slot = Some e → CapTable.is_free e = true →
    CapTable.install_from candidates object grant t =
      ((λ '(h, t), ((slot,.) <$> h, t)) (CapTable.install_at slot object grant t)) →
    install_case candidates object grant t.

Lemma install_cases candidates object grant t :
  (∀ i, i ∈ candidates → i < tlen (slots t)) → install_case candidates object grant t.
Proof.
  induction candidates as [|slot candidates IH]; intros Hin.
  { apply install_none; [|done]. by intros i e []%not_elem_of_nil. }
  destruct (slots t !! slot) as [e|] eqn:He.
  2:{ assert (slot < tlen (slots t)) as [??]%table_lookup_is_Some by (apply Hin; left).
      congruence. }
  assert (Hs : CapTable.is_free e = negb (cap_live e || cap_retired e)).
  { symmetry. apply negb_orb. }
  destruct (cap_live e || cap_retired e) eqn:Hf; cbn in Hs.
  - destruct IH as [Hno Heq|s es Hs' He' Hf' Heq].
    + intros i Hi. apply Hin. by right.
    + apply install_none; [|by cbn; rewrite He, Hf]. intros i ei [->|Hi]%elem_of_cons Hei.
      * congruence.
      * by eapply Hno.
    + eapply install_first; [by right|done|done|]. cbn. by rewrite He, Hf.
  - eapply install_first; [by left|done|done|]. cbn. rewrite He, Hf. done.
Qed.

Lemma slot_bound t slot e : cap_wf t → slots t !! slot = Some e → slot <= U32_MAX.
Proof.
  intros [Hlen _] He%table_lookup_lt. rewrite Hlen in He.
  unfold MAX_CAPS, limit.MAX_HANDLES_PER_DOMAIN, U32_MAX in *. lia.
Qed.

(** Occupying a dead slot adds one handle and touches no other. *)
Lemma lookup_occupy t slot e object grant h h' :
  cap_wf t → slots t !! slot = Some e → cap_live e = false → cap_generation e ≠ U32_MAX →
  h = handle slot (cap_generation e + 1) → h' <= U64_MAX →
  CapTable.lookup (t <| slots ::= <[slot := CapTable.occupy object grant e]> |>) h' =
    if decide (h' = h) then Some (CapTable.occupy object grant e) else CapTable.lookup t h'.
Proof.
  intros Hwf He Hl Hg -> Hh'. pose proof (slot_bound t slot e Hwf He).
  destruct (cap_wf_entries t Hwf slot e He) as [Hge _].
  destruct (handle_parts slot (cap_generation e + 1)) as [Hhs Hhg]; [done|lia|].
  destruct (decide (handle_slot h' = slot)) as [Hs'|].
  2:{ rewrite lookup_insert_other by done. by case_decide; [subst|]. }
  case_decide as Hd.
  - subst h'. apply lookup_Some. rewrite Hhs, Hhg. split_and!; [|cbn|done..].
    + apply handle_nonzero; [done|lia..].
    + apply table_insert_eq. by eapply table_lookup_lt.
  - rewrite (lookup_dead t e h') by (by rewrite ?Hs'). apply eq_None_not_Some.
    intros [x (_ & Hx & _ & Hgx)%lookup_Some]. rewrite Hs' in Hx. cbn in Hx.
    rewrite table_insert_eq in Hx by (by eapply table_lookup_lt).
    injection Hx as <-. cbn in Hgx. apply Hd. by rewrite <-(handle_split h' Hh'), Hs', <-Hgx.
Qed.

(** C21. [install], on every branch, over a well-formed table. When it returns a
    handle, that handle is not zero, named nothing before, and now names a live
    entry carrying exactly the object and the grant given; every other 64-bit
    handle resolves as before, and one free slot is used. When it refuses,
    either the table has no free slot and is unchanged, or the lowest free slot
    had exhausted its generations and is withdrawn for good; in both cases
    every handle resolves as before. *)
Theorem install_correct object grant t r t' :
  cap_wf t → CapTable.install object grant t = (r, t') →
  match r with
  | Some (slot, h) =>
      h ≠ 0 ∧ handle_slot h = slot ∧ CapTable.lookup t h = None ∧
      (∃ e, CapTable.lookup t' h = Some e ∧ cap_object e = object ∧ cap_grant e = grant) ∧
      (∀ h', h' <= U64_MAX → h' ≠ h → CapTable.lookup t' h' = CapTable.lookup t h') ∧
      CapTable.free_slots t' + 1 = CapTable.free_slots t
  | None =>
      (∀ h', CapTable.lookup t' h' = CapTable.lookup t h') ∧
      (CapTable.free_slots t = 0 ∧ t' = t ∨
       CapTable.free_slots t' + 1 = CapTable.free_slots t)
  end.
Proof.
  intros Hwf. unfold CapTable.install.
  destruct (install_cases (indices (slots t)) object grant t) as [Hno ->|slot e _ He Hf ->].
  - intros i. by rewrite indices_lookup.
  - intros [= <- <-]. split; [done|]. left. split; [|done].
    apply count_none. intros i e He Hf.
    rewrite (Hno i e) in Hf; [done| |done]. by eapply indices_lookup, table_lookup_lt.
  - destruct (cap_wf_entries t Hwf slot e He) as [Hg Hocc].
    pose proof (slot_bound t slot e Hwf He) as Hlt.
    assert (cap_live e = false ∧ cap_retired e = false) as [Hl Hr].
    { unfold CapTable.is_free in Hf. by destruct (cap_live e), (cap_retired e). }
    unfold CapTable.install_at. rewrite He, Hl, Hr. cbn [orb].
    case_decide as Hmax; intros [= <- <-].
    + split; [|right]; [by intros h'; eapply lookup_insert_dead|].
      pose proof (free_slots_insert t slot e (e <| cap_retired := true |>) He) as H.
      rewrite Hf in H. unfold CapTable.is_free in H. cbn in H. rewrite andb_false_r in H.
      cbn. lia.
    + assert (handle slot (cap_generation e + 1) ≠ 0) by (apply handle_nonzero; lia).
      destruct (handle_parts slot (cap_generation e + 1)) as [Hhs Hhg]; [done|lia|].
      pose proof (λ h', lookup_occupy t slot e object grant _ h' Hwf He Hl Hmax eq_refl) as Hocy.
      split_and!; [done|done|by eapply lookup_dead; [cbn; rewrite Hhs|]| | |].
      * eexists. rewrite Hocy by (by apply handle_bound; [done|lia]). by rewrite decide_True.
      * intros h' Hh' Hne. rewrite Hocy by done. by rewrite decide_False.
      * pose proof (free_slots_insert t slot e (CapTable.occupy object grant e) He) as Hfs.
        rewrite Hf in Hfs. unfold CapTable.is_free in Hfs. cbn in Hfs. cbn. lia.
Qed.

(** An object and a grant the witnesses use. *)
Definition sample_object : ObjRef := mkObjRef Memory 3 1.

Lemma install_correct_witness :
  cap_wf CapTable.new ∧ handle 0 1 ≠ 0 ∧
  CapTable.lookup (CapTable.install sample_object 5 CapTable.new).2 (handle 0 1) ≠ None.
Proof.
  split; [apply cap_new_wf|].
  destruct (install_correct sample_object 5 CapTable.new (Some (0, handle 0 1))
    (CapTable.install sample_object 5 CapTable.new).2 cap_new_wf)
    as (Hz & _ & _ & (e & -> & _) & _); [by vm_compute|].
  by split.
Defined.

(** C1. A capability handle never comes to name anything else. Take a handle that
    named an entry at some moment, and any sequence of table operations after
    it (installations at a chosen or a free slot, releases by handle or by
    slot). At the end the handle either still names the very same entry, or it
    names nothing and no further sequence of operations brings it back. *)
Theorem stale_handle_is_dead t0 t1 h e :
  CapTable.lookup t0 h = Some e → rtc cap_step t0 t1 →
  CapTable.lookup t1 h = Some e ∨
  (∀ t2, rtc cap_step t1 t2 → CapTable.lookup t2 h = None).
Proof.
  intros (Hz & He & _ & Hg)%lookup_Some [H01 _]%cap_steps_move.
  destruct (H01 _ _ He) as (e1 & He1 & Hle1).
  destruct (decide (CapTable.lookup t1 h = Some e)) as [|Hno]; [by left|right].
  intros t2 [H12 _]%cap_steps_move. apply eq_None_not_Some.
  intros [e2 (_ & He2 & Hl2 & Hg2)%lookup_Some].
  destruct (H12 _ _ He1) as (e2' & He2' & Hle2).
  assert (e2' = e2) as -> by congruence.
  destruct Hle1 as [?|[Hg1 Hsame1]], Hle2 as [?|[Hg12 Hsame2]]; [lia..|].
  assert (e1 = e2) as <- by auto. assert (e = e1) as <- by auto.
  destruct Hno. by apply lookup_Some.
Qed.

Lemma stale_handle_is_dead_witness :
  let t0 := (CapTable.install sample_object 5 CapTable.new).2 in
  let t1 := (CapTable.release (handle 0 1) t0).2 in
  let t2 := (CapTable.install sample_object 6 t1).2 in
  CapTable.lookup t0 (handle 0 1) ≠ None ∧ CapTable.lookup t2 (handle 0 1) = None ∧
  CapTable.lookup t2 (handle 0 2) ≠ None.
Proof.
  intros t0 t1 t2. split; [by vm_compute|].
  destruct (CapTable.lookup t0 (handle 0 1)) as [e|] eqn:He; [|by vm_compute in He].
  split; [|by vm_compute].
  destruct (stale_handle_is_dead t0 t1 (handle 0 1) e He) as [Hl|Hdead].
  - apply rtc_once. apply (step_release (handle 0 1)).
  - by vm_compute in Hl.
  - apply Hdead. apply rtc_once. apply (step_install sample_object 6).
Defined.

(** Withdrawing a capability by its handle gives back exactly the entry the
    handle resolved to, over every table the kernel can build: [release]
    succeeds when, and only when, [lookup] does, although it does not test for
    the zero handle; the handle resolves to nothing afterwards, every other
    64-bit handle resolves as before, and an unsuccessful release changes
    nothing. *)
Theorem release_is_lookup t h :
  rtc cap_step CapTable.new t →
  let '(r, t') := CapTable.release h t in
  r = CapTable.lookup t h ∧ CapTable.lookup t' h = None ∧
  (∀ h', h <= U64_MAX → h' <= U64_MAX → h' ≠ h →
     CapTable.lookup t' h' = CapTable.lookup t h') ∧
  (r = None → t' = t).
Proof.
  intros [_ Hwf]%cap_steps_move. specialize (Hwf cap_new_wf).
  unfold CapTable.release. destruct (slots t !! handle_slot h) as [e|] eqn:He.
  2:{ assert (CapTable.lookup t h = None) as ->; [|done].
      apply eq_None_not_Some. intros [x (_ & ? & _)%lookup_Some]. congruence. }
  destruct (cap_wf_entries t Hwf _ _ He) as [_ Hocc].
  destruct (cap_live e) eqn:Hl; cbn [negb orb].
  2:{ by rewrite (lookup_dead t e h He Hl). }
  case_bool_decide as Hg.
  { assert (CapTable.lookup t h = None) as ->; [|done].
    apply eq_None_not_Some. intros [x (_ & ? & _ & ?)%lookup_Some]. congruence. }
  assert (Hgen : cap_generation e = handle_generation h).
  { by destruct (decide (cap_generation e = handle_generation h)). }
  assert (Hz : h ≠ 0). { destruct Hocc as [Hocc _]; [done|]. intros ->. by apply Hocc. }
  split_and!; [symmetry; by apply lookup_Some| | |done].
  - eapply lookup_dead; [cbn; apply table_insert_eq; by eapply table_lookup_lt|done].
  - intros h' Hh Hh' Hne. destruct (decide (handle_slot h' = handle_slot h)) as [Hs|];
      [|by apply lookup_insert_other].
    rewrite (lookup_dead _ (CapTable.vacate e) h');
      [|cbn; rewrite Hs; apply table_insert_eq; by eapply table_lookup_lt|done].
    symmetry. apply eq_None_not_Some. intros [x (_ & Hx & _ & Hgx)%lookup_Some].
    rewrite Hs, He in Hx. injection Hx as <-. apply Hne.
    by rewrite <-(handle_split h Hh), <-(handle_split h' Hh'), Hs, <-Hgx, Hgen.
Qed.

Lemma release_is_lookup_witness :
  CapTable.release (handle 0 1) (CapTable.install sample_object 5 CapTable.new).2 =
    CapTable.release (handle 0 1) (CapTable.install sample_object 5 CapTable.new).2 ∧
  CapTable.lookup (CapTable.install sample_object 5 CapTable.new).2 0 = None.
Proof.
  split; [done|].
  pose proof (release_is_lookup (CapTable.install sample_object 5 CapTable.new).2 0) as H.
  destruct (CapTable.release 0 _) as [r t'] eqn:Hr.
  destruct H as (Hrl & _); [apply rtc_once, (step_install sample_object 5)|].
  rewrite <-Hrl. by vm_compute in Hr; injection Hr as <- _.
Defined.

(** ** The grant tree *)

(** kernel/src/obj.rs:322-349 [Grant] *)
Record Grant := mkGrant {
  g_used : bool;
  g_id : N;
  g_parent : GrantId;
  g_depth : N;
  g_rights : N;
  g_deadline_ns : N;
  g_life_scope : option ScopeId;
  g_facet : N;
  g_object : ObjRef;
  g_fenced : bool;
  g_refs : N;
  g_children : N;
  g_sponsor : ScopeId
}.
#[global] Instance Grant_rebuild : Rebuild Grant := λ g,
  mkGrant (g_used g) (g_id g) (g_parent g) (g_depth g) (g_rights g) (g_deadline_ns g)
    (g_life_scope g) (g_facet g) (g_object g) (g_fenced g) (g_refs g) (g_children g)
    (g_sponsor g).

Module Grant.
(** kernel/src/obj.rs:354-370 [Grant::empty] *)
Definition empty : Grant := {|
  g_used := false;
  g_id := 0;
  g_parent := NO_GRANT;
  g_depth := 0;
  g_rights := 0;
  g_deadline_ns := 0;
  g_life_scope := None;
  g_facet := 0;
  g_object := mkObjRef Scope 0 0;
  g_fenced := false;
  g_refs := 0;
  g_children := 0;
  g_sponsor := 0
|}.
End Grant.

(** kernel/src/obj.rs:406-406 [fence_lineage, the write] *)
Definition set_fence (g : Grant) : Grant := g <| g_fenced := true |>.

(** kernel/src/obj.rs:393-410 [fence_lineage, the body of the inner loop]. The nodes, how
    many were fenced so far, and whether this pass fenced one. [None] is the panic
    of an index out of range. *)
Definition fence_visit (index : N) (st : list Grant * N * bool) :
    option (list Grant * N * bool) :=
  let '(grants, changed, progressed) := st in
  node ← grants !! index;
  if negb (g_used node) || g_fenced node || bool_decide (g_parent node = NO_GRANT)
  then Some st else
  parent ← grants !! g_parent node;
  if g_fenced parent
  then Some (alter set_fence index grants, changed + 1, true)
  else Some st.

(** kernel/src/obj.rs:393-410 [fence_lineage, the inner loop] *)
Fixpoint fence_sweep (index : list N) (st : list Grant * N * bool) :
    option (list Grant * N * bool) :=
  match index with
  | [] => Some st
  | i :: index => st ← fence_visit i st; fence_sweep index st
  end.

(** kernel/src/obj.rs:391-414 [fence_lineage, the outer loop]. At most [passes] sweeps,
    stopping after one that made no progress. *)
Fixpoint fence_passes (passes : nat) (grants : list Grant) (changed : N) :
    option (list Grant * N) :=
  match passes with
  | O => Some (grants, changed)
  | S passes =>
      '(grants, changed, progressed) ← fence_sweep (indices grants) (grants, changed, false);
      if progressed : bool then fence_passes passes grants changed
      else Some (grants, changed)
  end.

(** kernel/src/obj.rs:378-416 [fence_lineage] *)
Definition fence_lineage (grants : list Grant) (root : GrantId) : option (list Grant * N) :=
  let '(grants, changed) :=
    match grants !! root with
    | Some node =>
        if g_used node && negb (g_fenced node)
        then (alter set_fence root grants, 1) else (grants, 0)
    | None => (grants, 0)
    end in
  fence_passes (N.to_nat limit.MAX_DERIVE_DEPTH) grants changed.

(** *** The tree *)

(** Every used node that is not a root hangs under a used node, one level
    deeper, within the interface's depth; a fence above is a fence below. *)
Record grants_wf (grants : list Grant) : Prop := {
  grants_len : tlen grants = MAX_GRANTS;
  grants_depth i n : grants !! i = Some n → g_used n = true →
    g_depth n <= limit.MAX_DERIVE_DEPTH;
  grants_parent i n : grants !! i = Some n → g_used n = true → g_parent n ≠ NO_GRANT →
    ∃ p, grants !! g_parent n = Some p ∧ g_used p = true ∧ g_depth n = g_depth p + 1 ∧
      (g_fenced p = true → g_fenced n = true)
}.

(** [descends grants root i]: [i] is [root] or hangs below it. *)
Inductive descends (grants : list Grant) (root : GrantId) : GrantId → Prop :=
| descends_root n : grants !! root = Some n → g_used n = true → descends grants root root
| descends_child i n :
    grants !! i = Some n → g_used n = true → g_parent n ≠ NO_GRANT →
    descends grants root (g_parent n) → descends grants root i.

Section fence.
Context (base : list Grant) (root : GrantId) (base_wf : grants_wf base).

(** [gs] is [base] with fences added, each of them on a descendant of [root]. *)
Definition fence_of (gs : list Grant) : Prop :=
  tlen gs = tlen base ∧
  ∀ i n, base !! i = Some n → ∃ b, gs !! i = Some (n <| g_fenced := b |>) ∧
    (g_fenced n = true → b = true) ∧
    (b = true → g_fenced n = true ∨ descends base root i).

Definition is_fenced (gs : list Grant) (i : GrantId) : Prop :=
  ∃ n, gs !! i = Some n ∧ g_fenced n = true.

Lemma fence_of_refl : fence_of base.
Proof.
  split; [done|]. intros i n Hn. exists (g_fenced n). split_and!; [|done|by left].
  rewrite Hn. by destruct n.
Qed.

Lemma fence_of_set gs i :
  fence_of gs → descends base root i → fence_of (alter set_fence i gs).
Proof.
  intros [Hlen Hgs] Hd. split; [by rewrite tlen_alter|]. intros j n Hn.
  destruct (Hgs j n Hn) as (b & Hb & Hmono & Hjust).
  rewrite table_alter. case_decide; [subst j|by exists b].
  exists true. rewrite Hb. by split_and!; [|done|right].
Qed.

Lemma is_fenced_mono gs i j : is_fenced gs j → is_fenced (alter set_fence i gs) j.
Proof.
  intros (n & Hn & Hf). unfold is_fenced. rewrite table_alter.
  case_decide; [|by exists n]. exists (set_fence n). by rewrite Hn.
Qed.

Lemma fence_of_descends gs i n :
  fence_of gs → base !! i = Some n → g_used n = true → g_parent n ≠ NO_GRANT →
  g_fenced n = false → is_fenced gs (g_parent n) → descends base root i.
Proof.
  intros [_ Hgs] Hn Hu Hp Hf (pn & Hpn & Hpf).
  destruct (grants_parent base base_wf i n Hn Hu Hp) as (p & Hp' & _ & _ & Hcl).
  destruct (Hgs _ p Hp') as (b & Hb & _ & Hjust). rewrite Hpn in Hb. injection Hb as ->.
  destruct (Hjust Hpf) as [?|?]; [|by eapply descends_child].
  rewrite Hcl in Hf by done. done.
Qed.

Definition fenced_count (gs : list Grant) : N := tlen (filter g_fenced gs).

Lemma fenced_count_set gs i n :
  gs !! i = Some n → g_fenced n = false →
  fenced_count (alter set_fence i gs) = fenced_count gs + 1.
Proof.
  intros Hn Hf. rewrite (table_alter_as_insert _ _ _ n Hn).
  pose proof (count_insert (λ g, g_fenced g) gs i (set_fence n) n Hn) as Hc.
  unfold decide in Hc. rewrite Hf in Hc. cbn in Hc. unfold fenced_count. lia.
Qed.

(** One visit stays a fence of [base], keeps the count, and fences a node whose
    parent is fenced. *)
Lemma fence_visit_ok i gs c b :
  fence_of gs → i < tlen base →
  ∃ gs' c' b', fence_visit i (gs, c, b) = Some (gs', c', b') ∧ fence_of gs' ∧
    c' + fenced_count gs = c + fenced_count gs' ∧
    (∀ j, is_fenced gs j → is_fenced gs' j) ∧
    (b' = false → b = false ∧ gs' = gs) ∧
    (∀ n, base !! i = Some n → g_used n = true → g_parent n ≠ NO_GRANT →
       is_fenced gs (g_parent n) → is_fenced gs' i).
Proof.
  intros Hgs Hi. pose proof Hgs as [Hlen Hpt].
  apply table_lookup_is_Some in Hi as [n Hn]. destruct (Hpt i n Hn) as (f & Hf & Hm & _).
  unfold fence_visit. cbn beta iota. rewrite Hf. cbn -[lookup].
  assert (Hsame : ∀ x, (∀ m, base !! i = Some m → g_used m = true → g_parent m ≠ NO_GRANT →
      is_fenced gs (g_parent m) → is_fenced gs i) → x = (gs, c, b) →
    ∃ gs' c' b', Some x = Some (gs', c', b') ∧ fence_of gs' ∧
      c' + fenced_count gs = c + fenced_count gs' ∧ (∀ j, is_fenced gs j → is_fenced gs' j) ∧
      (b' = false → b = false ∧ gs' = gs) ∧
      (∀ m, base !! i = Some m → g_used m = true → g_parent m ≠ NO_GRANT →
        is_fenced gs (g_parent m) → is_fenced gs' i)).
  { intros x Hx ->. by exists gs, c, b. }
  destruct (g_used n) eqn:Hu; cbn -[lookup].
  2:{ apply Hsame; [|done]. congruence. }
  destruct f; cbn -[lookup].
  { apply Hsame; [|done]. intros. by eexists. }
  case_bool_decide as Hp.
  { apply Hsame; [|done]. congruence. }
  destruct (grants_parent base base_wf i n Hn Hu Hp) as (p & Hpp & _).
  destruct (Hpt _ p Hpp) as (pf & Hpf & _). rewrite Hpf. cbn -[lookup].
  destruct pf.
  2:{ apply Hsame; [|done]. intros m Hm' _ _ (x & Hx & Hxf).
      assert (m = n) as -> by congruence. rewrite Hpf in Hx. injection Hx as <-. done. }
  exists (alter set_fence i gs), (c + 1), true. split_and!; try done.
  - apply fence_of_set; [done|]. eapply fence_of_descends; try done.
    + destruct (g_fenced n); [by discriminate Hm|done].
    + by eexists.
  - rewrite (fenced_count_set gs i _ Hf) by done. lia.
  - intros j. apply is_fenced_mono.
  - intros _ _ _ _ _. unfold is_fenced. rewrite table_alter_eq, Hf. by eexists.
Qed.

(** A sweep does for the indices it visits what a visit does for one. *)
Lemma fence_sweep_ok index gs c b :
  fence_of gs → (∀ i, i ∈ index → i < tlen base) →
  ∃ gs' c' b', fence_sweep index (gs, c, b) = Some (gs', c', b') ∧ fence_of gs' ∧
    c' + fenced_count gs = c + fenced_count gs' ∧
    (∀ j, is_fenced gs j → is_fenced gs' j) ∧
    (b' = false → b = false ∧ gs' = gs) ∧
    (∀ i n, i ∈ index → base !! i = Some n → g_used n = true → g_parent n ≠ NO_GRANT →
       is_fenced gs (g_parent n) → is_fenced gs' i).
Proof.
  revert gs c b. induction index as [|i index IH]; intros gs c b Hgs Hin.
  { exists gs, c, b. split_and!; try done. by intros i n []%not_elem_of_nil. }
  destruct (fence_visit_ok i gs c b) as (gs1 & c1 & b1 & Hv & Hgs1 & Hc1 & Hm1 & Hb1 & Hf1);
    [done|apply Hin; by left|].
  destruct (IH gs1 c1 b1) as (gs2 & c2 & b2 & Hs & Hgs2 & Hc2 & Hm2 & Hb2 & Hf2);
    [done|intros j Hj; apply Hin; by right|].
  exists gs2, c2, b2. cbn [fence_sweep]. rewrite Hv. cbn [mbind option_bind].
  split_and!; try done.
  - lia.
  - eauto.
  - intros Hb. destruct (Hb2 Hb) as [Hb1' ->]. by apply Hb1.
  - intros j n [->|Hj]%elem_of_cons; eauto.
Qed.

(** Every descendant at most [k] levels below [root] is fenced. *)
Definition fenced_to (k : N) (gs : list Grant) : Prop :=
  ∀ r i n, base !! root = Some r → base !! i = Some n → descends base root i →
    g_depth n <= g_depth r + k → is_fenced gs i.

Lemma descends_depth i r n :
  descends base root i → base !! root = Some r → base !! i = Some n →
  g_depth r <= g_depth n ∧ (g_depth n <= g_depth r → i = root) ∧ g_used n = true.
Proof.
  intros Hd Hr. revert n. induction Hd as [m Hm Hu|i m Hm Hu Hp _ IH]; intros n Hn.
  - assert (n = r) as -> by congruence. by replace r with m by congruence.
  - assert (n = m) as -> by congruence.
    destruct (grants_parent base base_wf i m Hm Hu Hp) as (p & Hpp & _ & Hdep & _).
    destruct (IH p Hpp) as (? & _). split_and!; [lia|lia|done].
Qed.

Lemma fenced_to_next k gs gs' :
  fenced_to k gs → (∀ j, is_fenced gs j → is_fenced gs' j) →
  (∀ i n, base !! i = Some n → g_used n = true → g_parent n ≠ NO_GRANT →
       is_fenced gs (g_parent n) → is_fenced gs' i) →
  fenced_to (k + 1) gs'.
Proof.
  intros Hk Hm Hf r i n Hr Hn Hd Hdep.
  destruct Hd as [m Hm' Hu|i m Hm' Hu Hp Hd].
  - apply Hm. eapply Hk; [done|done|by apply (descends_root _ _ m)|]. assert (n = r) as -> by congruence. lia.
  - assert (n = m) as -> by congruence.
    destruct (grants_parent base base_wf i m Hn Hu Hp) as (p & Hpp & _ & Hdp & _).
    eapply Hf; [done..|]. eapply Hk; [done..|lia].
Qed.

(** A table in which a fenced parent already means a fenced child is fenced all
    the way down once its root is. *)
Lemma fenced_closed k gs :
  fenced_to 0 gs →
  (∀ i n, base !! i = Some n → g_used n = true → g_parent n ≠ NO_GRANT →
       is_fenced gs (g_parent n) → is_fenced gs i) →
  fenced_to k gs.
Proof.
  intros H0 Hcl r i n Hr Hn Hd _. revert n Hn.
  induction Hd as [m Hm Hu|i m Hm Hu Hp Hd IH]; intros n Hn.
  - eapply H0; [done..| |].
    + by apply (descends_root _ _ m).
    + assert (n = r) as -> by congruence. lia.
  - destruct (grants_parent base base_wf i m Hm Hu Hp) as (p & Hpp & _).
    assert (n = m) as -> by congruence. eapply Hcl; [done..|by eapply IH].
Qed.

Lemma fence_passes_ok passes gs c k :
  fence_of gs → fenced_to k gs →
  ∃ gs' c', fence_passes passes gs c = Some (gs', c') ∧ fence_of gs' ∧
    c' + fenced_count gs = c + fenced_count gs' ∧ fenced_to (k + N.of_nat passes) gs'.
Proof.
  revert gs c k. induction passes as [|passes IH]; intros gs c k Hgs Hk.
  { exists gs, c. split_and!; [done..|]. by rewrite N.add_0_r. }
  destruct (fence_sweep_ok (indices gs) gs c false)
    as (gs1 & c1 & b1 & Hs & Hgs1 & Hc1 & Hm1 & Hb1 & Hf1); [done| |].
  { intros i. rewrite indices_lookup. by destruct Hgs as [-> _]. }
  assert (Hf : ∀ i n, base !! i = Some n → g_used n = true → g_parent n ≠ NO_GRANT →
      is_fenced gs (g_parent n) → is_fenced gs1 i).
  { intros i n Hn. apply (Hf1 i n); [|done]. apply indices_lookup.
    destruct Hgs as [-> _]. by eapply table_lookup_lt. }
  cbn [fence_passes]. rewrite Hs. cbn [mbind option_bind].
  destruct b1.
  - destruct (IH gs1 c1 (k + 1)) as (gs2 & c2 & -> & Hgs2 & Hc2 & Hk2); [done| |].
    { by eapply fenced_to_next. }
    exists gs2, c2. split_and!; [done..|lia|].
    by replace (k + N.of_nat (S passes)) with (k + 1 + N.of_nat passes) by lia.
  - destruct (Hb1 eq_refl) as [_ ->]. exists gs, c1. split_and!; [done..|].
    apply fenced_closed; [|done]. intros r i n Hr Hn Hd Hdep. eapply Hk; [done..|lia].
Qed.
End fence.

Lemma fenced_wf grants root grants' :
  grants_wf grants → tlen grants' = tlen grants →
  (∀ i n, grants !! i = Some n → ∃ b, grants' !! i = Some (n <| g_fenced := b |>) ∧
     (b = true ↔ g_fenced n = true ∨ descends grants root i)) →
  grants_wf grants'.
Proof.
  intros Hwf Hlen Hex.
  assert (Hback : ∀ i n', grants' !! i = Some n' → ∃ n, grants !! i = Some n ∧
    n' = n <| g_fenced := g_fenced n' |> ∧
    (g_fenced n' = true ↔ g_fenced n = true ∨ descends grants root i)).
  { intros i n' Hn'. assert (is_Some (grants !! i)) as [n Hn].
    { apply table_lookup_is_Some. rewrite <-Hlen. by eapply table_lookup_lt. }
    exists n. destruct (Hex i n Hn) as (b & Hb & Hiff). rewrite Hn' in Hb.
    injection Hb as ->. by split_and!. }
  split; [by rewrite Hlen; apply grants_len|..]; intros i n' Hn' Hu.
  - destruct (Hback i n' Hn') as (n & Hn & Heq & _). rewrite Heq in Hu |- *.
    by apply (grants_depth grants Hwf i n Hn).
  - intros Hp. destruct (Hback i n' Hn') as (n & Hn & Heq & Hiff).
    rewrite Heq in Hu, Hp. cbn in Hu, Hp.
    destruct (grants_parent grants Hwf i n Hn Hu Hp) as (p & Hpp & Hpu & Hdep & Hcl).
    destruct (Hex _ p Hpp) as (b & Hb & Hbiff).
    exists (p <| g_fenced := b |>). rewrite Heq. split_and!; [done..|].
    cbn. intros [?|?]%Hbiff; apply Hiff; [left; auto|].
    right. by eapply descends_child.
Qed.

Lemma fence_lineage_spec grants root node :
  grants_wf grants → grants !! root = Some node → g_used node = true →
  ∃ grants' changed, fence_lineage grants root = Some (grants', changed) ∧
    (∀ i n, grants !! i = Some n → ∃ b, grants' !! i = Some (n <| g_fenced := b |>) ∧
       (b = true ↔ g_fenced n = true ∨ descends grants root i)) ∧
    changed + fenced_count grants = fenced_count grants' ∧ grants_wf grants'.
Proof.
  intros Hwf Hroot Hused. unfold fence_lineage. rewrite Hroot, Hused. cbn [andb].
  assert (Hd : descends grants root root) by by eapply descends_root.
  set (start := if negb (g_fenced node) then _ else _).
  assert (Hstart : fence_of grants root start.1 ∧
    start.2 + fenced_count grants = fenced_count start.1 ∧ is_fenced start.1 root).
  { unfold start, is_fenced. destruct (g_fenced node) eqn:Hf; cbn -[lookup].
    - split_and!; [apply fence_of_refl|done|by exists node].
    - split_and!; [apply fence_of_set; [apply fence_of_refl|done]| |].
      + rewrite (fenced_count_set _ _ node) by done. lia.
      + rewrite table_alter_eq, Hroot. by eexists. }
  destruct start as [gs c]. destruct Hstart as (Hgs & Hc & Hfr). cbn in Hgs, Hc, Hfr.
  destruct (fence_passes_ok grants root Hwf (N.to_nat limit.MAX_DERIVE_DEPTH) gs c 0)
    as (gs' & c' & Hp & Hgs' & Hc' & Hall); [done| |].
  { intros r i n Hr Hn Hdi Hdep.
    destruct (descends_depth grants root Hwf i r n Hdi Hr Hn) as (_ & Hi & _).
    rewrite Hi by lia. done. }
  exists gs', c'. assert (Hexact : ∀ i n, grants !! i = Some n →
    ∃ b, gs' !! i = Some (n <| g_fenced := b |>) ∧
       (b = true ↔ g_fenced n = true ∨ descends grants root i)).
  { intros i n Hn. destruct (proj2 Hgs' i n Hn) as (b & Hb & Hmono & Hjust).
    exists b. split; [done|]. split; [done|]. intros [?|Hdi]; [auto|].
    destruct (Hall node i n Hroot Hn Hdi) as (x & Hx & Hxf).
    - destruct (descends_depth grants root Hwf i node n Hdi Hroot Hn) as (_ & _ & Hu).
      pose proof (grants_depth grants Hwf i n Hn Hu). rewrite N2Nat.id. lia.
    - rewrite Hb in Hx. by injection Hx as <-. }
  split_and!; [done|done|lia|].
  eapply fenced_wf; [done|by destruct Hgs'|done].
Qed.

(** C2. A fence on a node of a well-formed grant tree fences exactly that node's
    lineage. The sweep never indexes outside the table; the node and all its
    descendants end fenced, however deep; no other node changes its fence, and
    nothing but the fence of any node changes; and the count returned is the
    number of nodes that were not fenced before. *)
Theorem fence_lineage_exact grants root node :
  grants_wf grants → grants !! root = Some node → g_used node = true →
  ∃ grants' changed, fence_lineage grants root = Some (grants', changed) ∧
    (∀ i n, grants !! i = Some n → ∃ b, grants' !! i = Some (n <| g_fenced := b |>) ∧
       (b = true ↔ g_fenced n = true ∨ descends grants root i)) ∧
    changed + fenced_count grants = fenced_count grants' ∧ grants_wf grants'.
Proof. apply fence_lineage_spec. Qed.

(** The tree conditions of one node, as a computation. *)
Definition node_wfb (grants : list Grant) (n : Grant) : bool :=
  negb (g_used n) ||
  (bool_decide (g_depth n <= limit.MAX_DERIVE_DEPTH) &&
   (bool_decide (g_parent n = NO_GRANT) ||
    match grants !! g_parent n with
    | Some p => g_used p && bool_decide (g_depth n = g_depth p + 1)
                && implb (g_fenced p) (g_fenced n)
    | None => false
    end)).

Lemma grants_wf_compute grants :
  tlen grants = MAX_GRANTS → forallb (node_wfb grants) grants = true → grants_wf grants.
Proof.
  intros Hlen Hall. assert (Hn : ∀ i n, grants !! i = Some n → g_used n = true →
    node_wfb grants n = true ∧ g_used n = true).
  { intros i n Hi%list_elem_of_lookup_2 Hu. split; [|done].
    rewrite forallb_forall in Hall. by apply Hall, list_elem_of_In. }
  split; [done|..]; intros i n Hi Hu; destruct (Hn i n Hi Hu) as [Hb _];
    unfold node_wfb in Hb; rewrite Hu in Hb; cbn [negb orb] in Hb;
    apply andb_true_iff in Hb as [Hd%bool_decide_eq_true Hb]; [done|].
  intros Hp. rewrite bool_decide_false in Hb by done. cbn [orb] in Hb.
  destruct (grants !! g_parent n) as [p|]; [|done]. exists p.
  apply andb_true_iff in Hb as [[? Hdp%bool_decide_eq_true]%andb_true_iff Himp].
  split_and!; try done. intros Hf. by rewrite Hf in Himp.
Qed.

(** Two roots, a child and a grandchild of the first. *)
Definition sample_node (parent : GrantId) (depth : N) : Grant :=
  Grant.empty <| g_used := true |> <| g_parent := parent |> <| g_depth := depth |>
    <| g_rights := COMMON_RIGHTS |> <| g_object := sample_object |>.
Definition sample_grants : list Grant :=
  [sample_node NO_GRANT 0; sample_node 2 2; sample_node 0 1; sample_node NO_GRANT 0]
    ++ replicate 252 Grant.empty.

Lemma sample_grants_wf : grants_wf sample_grants.
Proof. by apply grants_wf_compute; vm_compute. Qed.

Lemma fence_lineage_exact_witness :
  grants_wf sample_grants ∧
  ∃ grants' changed, fence_lineage sample_grants 0 = Some (grants', changed) ∧
    changed = 3 ∧ is_fenced grants' 1 ∧ ¬ is_fenced grants' 3.
Proof.
  split; [apply sample_grants_wf|].
  destruct (fence_lineage_exact sample_grants 0 (sample_node NO_GRANT 0) sample_grants_wf)
    as (grants' & changed & Hf & _ & _ & _); [done..|].
  exists grants', changed. split; [done|].
  vm_compute in Hf. injection Hf as <- <-. split; [done|]. split.
  - by eexists.
  - intros (n & Hn & Hfn). vm_compute in Hn. by injection Hn as <-.
Defined.
