(* ===== verification/Scope.v ===== *)
(** * Scopes: accounts, fences and processor credit

    [kernel/src/scope.rs], and the part of [kernel/src/sched.rs] that holds a
    processor's credit. The statics [SCOPES], [FENCED] and [ROLL_SEQ] and the
    credits are the fields of [Scopes]. An operation here is one processor's run
    of it, with no other processor in between; what interleaved reservations do
    to one account is the subject of [ScopeRace]. Diagnostic records are not
    modelled. *)

From S2P Require Import Prelude Abi Obj.

#[local] Open Scope N_scope.

(** kernel/src/limits.rs:23-23 [MAX_CPUS] *)
Definition MAX_CPUS : N := 8.
(** kernel/src/limits.rs:61-61 [CPU_WINDOW_NS] *)
Definition CPU_WINDOW_NS : N := limit.CPU_WINDOW_NS.
(** kernel/src/sched.rs:67-67 [QUANTUM_NS] *)
Definition QUANTUM_NS : N := limit.CPU_QUANTUM_NS.
(** kernel/src/scope.rs:54-54 [DEBT_RECORD_LIMIT] *)
Definition DEBT_RECORD_LIMIT : N := 16.
(** kernel/src/scope.rs:57-57 [NO_SCOPE] *)
Definition NO_SCOPE : ScopeId := U16_MAX.

(** ** Data *)

(** kernel/src/scope.rs:61-75 [Limits] *)
Record Limits := mkLimits {
  l_memory_pages : N;
  l_metadata_objects : N;
  l_cpu_budget_ns : N;
  l_queue_bytes : N;
  l_closure_reserve_ns : N;
  l_parallelism : N
}.
#[global] Instance Limits_rebuild : Rebuild Limits := λ l,
  mkLimits (l_memory_pages l) (l_metadata_objects l) (l_cpu_budget_ns l) (l_queue_bytes l)
    (l_closure_reserve_ns l) (l_parallelism l).
#[global] Instance Limits_eq_dec : EqDecision Limits.
Proof. solve_decision. Defined.

Module Limits.
(** kernel/src/scope.rs:89-98 [Ceilings::zero, Limits::default] *)
Definition default : Limits := mkLimits 0 0 0 0 0 0.
End Limits.

(** kernel/src/scope.rs:150-157 [Resource] *)
Inductive Resource := MemoryPages | Metadata | QueueBytes.
#[global] Instance Resource_eq_dec : EqDecision Resource.
Proof. solve_decision. Defined.

(** kernel/src/scope.rs:174-185 [State] *)
Inductive State := Empty | Open | Fenced | Quiescent | Retired.
#[global] Instance State_eq_dec : EqDecision State.
Proof. solve_decision. Defined.

Module State.
(** kernel/src/scope.rs:188-196 [State::from_u8] *)
Definition from_u8 (value : N) : State :=
  match value with 1 => Open | 2 => Fenced | 3 => Quiescent | 4 => Retired | _ => Empty end.
(** kernel/src/scope.rs:174-185 [State as u8] *)
Definition to_u8 (s : State) : N :=
  match s with Empty => 0 | Open => 1 | Fenced => 2 | Quiescent => 3 | Retired => 4 end.
(** kernel/src/scope.rs:200-208 [State::abi] *)
Definition abi (s : State) : N :=
  match s with
  | Empty => 0
  | Open => scope_state.OPEN
  | Fenced => scope_state.FENCED
  | Quiescent => scope_state.QUIESCENT
  | Retired => scope_state.RETIRED
  end.
End State.

(** kernel/src/scope.rs:232-349 [Scope] *)
Record Scope := mkScope {
  sc_state : State;
  sc_generation : N;
  sc_id : N;
  sc_parent : N;
  sc_depth : N;
  sc_label : list N;
  sc_limits : Limits;
  sc_memory_pages : N;
  sc_metadata : N;
  sc_queue_bytes : N;
  sc_cpu_window_ns : N;
  sc_cpu_committed_ns : N;
  sc_closure_used_ns : N;
  sc_closure_committed_ns : N;
  sc_running : N;
  sc_max_running : N;
  sc_max_committed_ns : N;
  sc_dispatch_grants : N;
  sc_dispatch_refusals : N;
  sc_window_opened_ns : N;
  sc_max_charged_in_window_ns : N;
  sc_max_excess_ns : N;
  sc_cpu_total_ns : N;
  sc_cpu_debt_ns : N;
  sc_closure_reserved_ns : N;
  sc_window_index : N;
  sc_max_window_ns : N;
  sc_windows_closed : N;
  sc_overruns : N;
  sc_max_overrun_ns : N;
  sc_debt_records : N;
  sc_threads : N;
  sc_parallelism_used : N;
  sc_invocations_pending : N;
  sc_effects_pending : N;
  sc_maps_pending : N;
  sc_undelivered_cancelled : N;
  sc_last_progress_ns : N;
  sc_drain_token : N;
  sc_children : N;
  sc_refs : N
}.
#[global] Instance Scope_rebuild : Rebuild Scope := λ s, mkScope
  (sc_state s) (sc_generation s) (sc_id s) (sc_parent s) (sc_depth s) (sc_label s)
  (sc_limits s) (sc_memory_pages s) (sc_metadata s) (sc_queue_bytes s) (sc_cpu_window_ns
  s) (sc_cpu_committed_ns s) (sc_closure_used_ns s) (sc_closure_committed_ns s)
  (sc_running s) (sc_max_running s) (sc_max_committed_ns s) (sc_dispatch_grants s)
  (sc_dispatch_refusals s) (sc_window_opened_ns s) (sc_max_charged_in_window_ns s)
  (sc_max_excess_ns s) (sc_cpu_total_ns s) (sc_cpu_debt_ns s) (sc_closure_reserved_ns s)
  (sc_window_index s) (sc_max_window_ns s) (sc_windows_closed s) (sc_overruns s)
  (sc_max_overrun_ns s) (sc_debt_records s) (sc_threads s) (sc_parallelism_used s)
  (sc_invocations_pending s) (sc_effects_pending s) (sc_maps_pending s)
  (sc_undelivered_cancelled s) (sc_last_progress_ns s) (sc_drain_token s) (sc_children s)
  (sc_refs s).

Module Scope.
(** kernel/src/scope.rs:353-398 [Scope::empty] *)
Definition empty : Scope := {|
  sc_state := Empty;
  sc_generation := 0;
  sc_id := 0;
  sc_parent := NO_SCOPE;
  sc_depth := 0;
  sc_label := (replicate 16 0);
  sc_limits := Limits.default;
  sc_memory_pages := 0;
  sc_metadata := 0;
  sc_queue_bytes := 0;
  sc_cpu_window_ns := 0;
  sc_cpu_committed_ns := 0;
  sc_closure_used_ns := 0;
  sc_closure_committed_ns := 0;
  sc_running := 0;
  sc_max_running := 0;
  sc_max_committed_ns := 0;
  sc_dispatch_grants := 0;
  sc_dispatch_refusals := 0;
  sc_window_opened_ns := 0;
  sc_max_charged_in_window_ns := 0;
  sc_max_excess_ns := 0;
  sc_cpu_total_ns := 0;
  sc_cpu_debt_ns := 0;
  sc_closure_reserved_ns := 0;
  sc_window_index := 0;
  sc_max_window_ns := 0;
  sc_windows_closed := 0;
  sc_overruns := 0;
  sc_max_overrun_ns := 0;
  sc_debt_records := 0;
  sc_threads := 0;
  sc_parallelism_used := 0;
  sc_invocations_pending := 0;
  sc_effects_pending := 0;
  sc_maps_pending := 0;
  sc_undelivered_cancelled := 0;
  sc_last_progress_ns := 0;
  sc_drain_token := 0;
  sc_children := 0;
  sc_refs := 0
|}.
End Scope.

(** kernel/src/sched.rs:150-157 [Credit] *)
Record Credit := mkCredit {
  cr_window : N;
  cr_reserved_ns : N;
  cr_pending_ns : N
}.
#[global] Instance Credit_rebuild : Rebuild Credit := λ c,
  mkCredit (cr_window c) (cr_reserved_ns c) (cr_pending_ns c).

(** The scope table, the count of fenced scopes, the roll sequence, and every
    processor's credits, one per scope. *)
(** kernel/src/scope.rs:571-571 [SCOPES, FENCED, ROLL_SEQ] *)
Record Scopes := mkScopes {
  scopes : list Scope;
  fenced : N;
  roll_seq : N;
  credits : list (list Credit)
}.
#[global] Instance Scopes_rebuild : Rebuild Scopes := λ t,
  mkScopes (scopes t) (fenced t) (roll_seq t) (credits t).

(** One scope of the table changes. *)
Definition on_scope (i : ScopeId) (f : Scope → Scope) (t : Scopes) : Scopes :=
  t <| scopes ::= alter f i |>.
Definition on_credit (cpu i : N) (f : Credit → Credit) (t : Scopes) : Scopes :=
  t <| credits ::= alter (alter f i) cpu |>.

(** ** Structure *)

(** kernel/src/scope.rs:491-498 [Scope::parent] *)
Definition parent (s : Scope) : option ScopeId :=
  if decide (sc_parent s = NO_SCOPE) then None else Some (sc_parent s).

(** The walk of [Chain::of], with the room left in its array. *)
(** kernel/src/scope.rs:600-612 [Chain::of, the walk] *)
Fixpoint chain_from (room : nat) (tbl : list Scope) (current : ScopeId) : list ScopeId :=
  match room with
  | O => []
  | S room =>
      match tbl !! current with
      | None => []
      | Some node =>
          current :: match parent node with
                     | Some p => chain_from room tbl p
                     | None => []
                     end
      end
  end.
(** kernel/src/scope.rs:595-619 [Chain::of, Chain::nodes] *)
Definition chain_of (tbl : list Scope) (scope : ScopeId) : list ScopeId :=
  chain_from (N.to_nat limit.MAX_SCOPE_DEPTH + 1) tbl scope.

(** kernel/src/scope.rs:622-624 [Chain::iter] *)
Definition chain_scopes (tbl : list Scope) (scope : ScopeId) : list Scope :=
  omap (λ i, tbl !! i) (chain_of tbl scope).

(** kernel/src/scope.rs:629-633 [is_open] *)
Definition is_open (t : Scopes) (scope : ScopeId) : bool :=
  forallb (λ n, bool_decide (sc_state n = Open)) (chain_scopes (scopes t) scope).

(** kernel/src/scope.rs:637-639 [is_within] *)
Definition is_within (t : Scopes) (ancestor candidate : ScopeId) : bool :=
  bool_decide (ancestor ∈ chain_of (scopes t) candidate).

(** kernel/src/scope.rs:468-487 [Scope::set_state] *)
Definition set_state (i : ScopeId) (state : State) (t : Scopes) : Scopes :=
  match scopes t !! i with
  | None => t
  | Some node =>
      let was := sc_state node in
      if decide (was = state) then t else
      let t := on_scope i (λ s, s <| sc_state := state |>) t in
      let t := if decide (was = Fenced)
               then t <| fenced ::= λ n, wrapping_sub 32 n 1 |> else t in
      if decide (state = Fenced) then t <| fenced ::= λ n, wrapping_add 32 n 1 |> else t
  end.

(** kernel/src/scope.rs:402-458 [Scope::reset] *)
Definition reset (i : ScopeId) (t : Scopes) : Scopes :=
  on_scope i (λ s, Scope.empty <| sc_generation := sc_generation s |>) (set_state i Empty t).

(** ** Accounts *)

(** kernel/src/scope.rs:535-541 [Scope::account]; also [Scope::used] *)
Definition account (r : Resource) (s : Scope) : N :=
  match r with
  | MemoryPages => sc_memory_pages s
  | Metadata => sc_metadata s
  | QueueBytes => sc_queue_bytes s
  end.
(** kernel/src/scope.rs:535-541 [Scope::account, written through] *)
Definition set_account (r : Resource) (f : N → N) (s : Scope) : Scope :=
  match r with
  | MemoryPages => s <| sc_memory_pages ::= f |>
  | Metadata => s <| sc_metadata ::= f |>
  | QueueBytes => s <| sc_queue_bytes ::= f |>
  end.

(** kernel/src/scope.rs:543-549 [Scope::limit] *)
Definition limit_of (r : Resource) (s : Scope) : N :=
  match r with
  | MemoryPages => l_memory_pages (sc_limits s)
  | Metadata => l_metadata_objects (sc_limits s)
  | QueueBytes => l_queue_bytes (sc_limits s)
  end.

(** kernel/src/scope.rs:649-657 [bounded_add]. The counter it leaves, and [Ok(next)] as
    [inr], [Err(previous)] as [inl]. *)
Definition bounded_add (counter amount limit : N) : (N + N) * N :=
  let previous := counter in
  let counter := wrapping_add 64 counter amount in
  let next := saturating_add 64 previous amount in
  if decide (limit < next) then (inl previous, wrapping_sub 64 counter amount)
  else (inr next, counter).

(** Charging a chain: [charge] at each level, leaf first, up to the first level
    that refuses. A level that refuses may still have been written. The result
    is how many levels were charged and whether one refused. *)
(** kernel/src/scope.rs:667-678 [reserve, the loop over the chain] *)
Fixpoint charge_chain (charge : Scope → bool * Scope) (nodes : list ScopeId)
    (tbl : list Scope) : N * bool * list Scope :=
  match nodes with
  | [] => (0, false, tbl)
  | i :: nodes =>
      match tbl !! i with
      | None => (0, false, tbl)
      | Some node =>
          let '(refused, node) := charge node in
          let tbl := <[i := node]> tbl in
          if refused : bool then (0, true, tbl)
          else let '(done, refused, tbl) := charge_chain charge nodes tbl in
               (done + 1, refused, tbl)
      end
  end.

(** [for &index in nodes] with a write to each scope. *)
(** kernel/src/scope.rs:682-686 [reserve, the undo] *)
Definition for_nodes (f : Scope → Scope) (nodes : list ScopeId) (tbl : list Scope) :
    list Scope :=
  foldl (λ tbl i, alter f i tbl) tbl nodes.

(** kernel/src/scope.rs:670-672 [reserve, one level] *)
Definition reserve_level (resource : Resource) (amount : N) (node : Scope) : bool * Scope :=
  if negb (bool_decide (sc_state node = Open)) then (true, node) else
  let '(r, counter) := bounded_add (account resource node) amount (limit_of resource node) in
  (match r with inl _ => true | inr _ => false end, set_account resource (λ _, counter) node).

(** kernel/src/scope.rs:664-704 [reserve] *)
Definition reserve (scope : ScopeId) (resource : Resource) (amount : N) (t : Scopes) :
    bool * Scopes :=
  let nodes := chain_of (scopes t) scope in
  let '(done, refused, tbl) :=
    charge_chain (reserve_level resource amount) nodes (scopes t) in
  if refused : bool then
    (false, t <| scopes := for_nodes (set_account resource (λ c, wrapping_sub 64 c amount))
                             (take (N.to_nat done) nodes) tbl |>)
  else (true, t <| scopes := tbl |>).

(** kernel/src/scope.rs:707-723 [release] *)
Definition release (scope : ScopeId) (resource : Resource) (amount : N) (t : Scopes) : Scopes :=
  t <| scopes ::= for_nodes (set_account resource (λ c, saturating_sub c amount))
                    (chain_of (scopes t) scope) |>.

(** ** Execution *)

(** kernel/src/scope.rs:841-853 [charge_cpu] *)
Definition charge_cpu (scope : ScopeId) (ns : N) (recovery : bool) (t : Scopes) : Scopes :=
  if decide (ns = 0) then t else
  t <| scopes ::= for_nodes (λ n,
         let n := n <| sc_cpu_total_ns ::= λ c, wrapping_add 64 c ns |> in
         if recovery then n <| sc_closure_used_ns ::= λ c, wrapping_add 64 c ns |>
         else n <| sc_cpu_window_ns ::= λ c, wrapping_add 64 c ns |>)
       (chain_of (scopes t) scope) |>.

(** kernel/src/scope.rs:943-943 [the committed counter of an account] *)
Definition committed (recovery : bool) (n : Scope) : N :=
  if recovery then sc_closure_committed_ns n else sc_cpu_committed_ns n.
(** kernel/src/scope.rs:950-954 [the committed counter, written through] *)
Definition set_committed (recovery : bool) (f : N → N) (n : Scope) : Scope :=
  if recovery then n <| sc_closure_committed_ns ::= f |>
  else n <| sc_cpu_committed_ns ::= f |>.
(** kernel/src/scope.rs:129-139 [Ceilings::cpu_budget_ns, Ceilings::closure_reserve_ns] *)
Definition budget (recovery : bool) (n : Scope) : N :=
  if recovery then l_closure_reserve_ns (sc_limits n) else l_cpu_budget_ns (sc_limits n).

(** kernel/src/scope.rs:857-868 [commit_excess] *)
Definition commit_excess (scope : ScopeId) (ns : N) (recovery : bool) (t : Scopes) : Scopes :=
  if decide (ns = 0) then t else
  t <| scopes ::= for_nodes (set_committed recovery (λ c, wrapping_add 64 c ns))
       (chain_of (scopes t) scope) |>.

(** kernel/src/scope.rs:878-883 [available_ns, the states that may pay] *)
Definition usable (recovery : bool) (s : State) : bool :=
  if recovery then negb (bool_decide (s = Retired) || bool_decide (s = Empty))
  else bool_decide (s = Open) || bool_decide (s = Fenced).

(** kernel/src/scope.rs:877-899 [available_ns, the loop]. [None] is the early return. *)
Fixpoint available_from (recovery : bool) (nodes : list Scope) (available : N) : option N :=
  match nodes with
  | [] => Some available
  | n :: nodes =>
      if negb (usable recovery (sc_state n)) then None else
      available_from recovery nodes
        (N.min available (saturating_sub (budget recovery n) (committed recovery n)))
  end.
(** kernel/src/scope.rs:875-901 [available_ns] *)
Definition available_ns (t : Scopes) (scope : ScopeId) (recovery : bool) : N :=
  match available_from recovery (chain_scopes (scopes t) scope) U64_MAX with
  | None => 0
  | Some available => if decide (available = U64_MAX) then 0 else available
  end.

(** kernel/src/scope.rs:928-945 [reserve_cpu, one level] *)
Definition reserve_cpu_level (recovery : bool) (amount : N) (n : Scope) : bool * Scope :=
  let '(r, counter) := bounded_add (committed recovery n) amount (budget recovery n) in
  (match r with inl _ => true | inr _ => false end,
   set_committed recovery (λ _, counter) n).

(** kernel/src/scope.rs:962-978 [reserve_cpu, the peaks]. [peak] is what [bounded_add]
    returned for [scope] itself. *)
Definition note_peaks (scope : ScopeId) (peak : N) (nodes : list ScopeId) (tbl : list Scope) :
    list Scope :=
  foldl (λ tbl i, alter (λ n,
      let c := if decide (i = scope) then peak else sc_cpu_committed_ns n in
      if decide (sc_max_committed_ns n < c)
      then n <| sc_max_committed_ns := c |> else n) i tbl) tbl nodes.

(** kernel/src/scope.rs:912-981 [reserve_cpu]. [None] where the code does not return: the
    index panic on a scope outside the table, and the wait for another
    processor's roll while the sequence is odd. Without another processor in
    between the sequence reads the same twice, so one turn of the loop decides. *)
Definition reserve_cpu (scope : ScopeId) (amount : N) (recovery : bool) (window : N)
    (t : Scopes) : option (bool * Scopes) :=
  if N.odd (roll_seq t) then None else
  own ← scopes t !! scope;
  if decide (sc_window_index own ≠ window) then Some (false, t) else
  let nodes := chain_of (scopes t) scope in
  let peak := saturating_add 64 (committed recovery own) amount in
  let '(done, refused, tbl) :=
    charge_chain (reserve_cpu_level recovery amount) nodes (scopes t) in
  if refused : bool then
    Some (false, t <| scopes :=
            for_nodes (set_committed recovery (λ c, wrapping_sub 64 c amount))
              (take (N.to_nat done) nodes) tbl |>)
  else if recovery then Some (true, t <| scopes := tbl |>)
  else Some (true, t <| scopes := note_peaks scope peak nodes tbl |>).

(** kernel/src/scope.rs:988-1011 [return_cpu] *)
Definition return_cpu (scope : ScopeId) (amount : N) (recovery : bool) (window : N)
    (t : Scopes) : Scopes :=
  if decide (amount = 0) then t else
  t <| scopes ::= for_nodes (λ n,
         if decide (sc_window_index n ≠ window) then n
         else set_committed recovery (λ c, saturating_sub c amount) n)
       (chain_of (scopes t) scope) |>.

(** ** Simultaneity *)

(** kernel/src/scope.rs:1019-1032 [take_running, one level] *)
Definition take_running_level (n : Scope) : bool * Scope :=
  let previous := sc_running n in
  if decide (l_parallelism (sc_limits n) <= previous)
  then (true, n <| sc_running := wrapping_sub 32 (wrapping_add 32 previous 1) 1 |>)
  else let n := n <| sc_running := wrapping_add 32 previous 1 |> in
       (false, if decide (sc_max_running n < previous + 1)
               then n <| sc_max_running := previous + 1 |> else n).

(** kernel/src/scope.rs:1014-1044 [take_running] *)
Definition take_running (scope : ScopeId) (t : Scopes) : bool * Scopes :=
  let nodes := chain_of (scopes t) scope in
  let '(done, refused, tbl) := charge_chain take_running_level nodes (scopes t) in
  if refused : bool then
    (false, t <| scopes := for_nodes (λ n, n <| sc_running ::= λ c, wrapping_sub 32 c 1 |>)
                             (take (N.to_nat done) nodes) tbl |>)
  else (true, t <| scopes := tbl |>).

(** kernel/src/scope.rs:1047-1059 [drop_running] *)
Definition drop_running (scope : ScopeId) (t : Scopes) : Scopes :=
  t <| scopes ::= for_nodes (λ n,
         let previous := sc_running n in
         let n := n <| sc_running := wrapping_sub 32 previous 1 |> in
         if decide (previous = 0) then n <| sc_running := 0 |> else n)
       (chain_of (scopes t) scope) |>.

(** kernel/src/scope.rs:1063-1069 [peak_running] *)
Definition peak_running (t : Scopes) : N :=
  foldr N.max 0 (sc_max_running <$> scopes t).

(** kernel/src/scope.rs:1079-1083 [has_parallelism] *)
Definition has_parallelism (t : Scopes) (scope : ScopeId) : bool :=
  forallb (λ n, bool_decide (sc_parallelism_used n < l_parallelism (sc_limits n)))
    (chain_scopes (scopes t) scope).
(** kernel/src/scope.rs:1086-1090 [take_parallelism] *)
Definition take_parallelism (scope : ScopeId) (t : Scopes) : Scopes :=
  t <| scopes ::= for_nodes (λ n, n <| sc_parallelism_used ::= λ c, wrapping_add 32 c 1 |>)
       (chain_of (scopes t) scope) |>.
(** kernel/src/scope.rs:1093-1109 [drop_parallelism] *)
Definition drop_parallelism (scope : ScopeId) (t : Scopes) : Scopes :=
  t <| scopes ::= for_nodes (λ n, n <| sc_parallelism_used ::= λ c, saturating_sub c 1 |>)
       (chain_of (scopes t) scope) |>.

(** kernel/src/scope.rs:1112-1121 [decrement] *)
Definition decrement (counter : N) : N := saturating_sub counter 1.
(** kernel/src/scope.rs:1124-1133 [subtract32] *)
Definition subtract32 (counter amount : N) : N := saturating_sub counter amount.
(** kernel/src/scope.rs:1136-1145 [subtract] *)
Definition subtract (counter amount : N) : N := saturating_sub counter amount.

(** ** Barriers and drains *)

(** kernel/src/scope.rs:1148-1152 [note_progress]. [None] is the index panic. *)
Definition note_progress (scope : ScopeId) (now : N) (t : Scopes) : option Scopes :=
  _ ← scopes t !! scope;
  Some (on_scope scope (λ n, n <| sc_last_progress_ns := now |>
                               <| sc_drain_token ::= λ c, wrapping_add 64 c 1 |>) t).

(** kernel/src/scope.rs:1163-1172 [fence, one index] *)
Definition fence_index (root : ScopeId) (st : N * Scopes) (index : ScopeId) : N * Scopes :=
  let '(changed, t) := st in
  match scopes t !! index with
  | None => st
  | Some node =>
      if negb (bool_decide (sc_state node = Open)) then st else
      if negb (is_within t root index) then st else
      (changed + 1,
       on_scope index (λ n, n <| sc_drain_token ::= λ c, wrapping_add 64 c 1 |>)
         (set_state index Fenced t))
  end.
(** kernel/src/scope.rs:1160-1175 [fence] *)
Definition fence (root : ScopeId) (t : Scopes) : N * Scopes :=
  foldl (fence_index root) (0, t) (indices (scopes t)).

(** kernel/src/scope.rs:1179-1194 [Pending] *)
Record Pending := mkPending {
  p_threads : N;
  p_invocations : N;
  p_effects : N;
  p_maps : N;
  p_undelivered : N;
  p_pages : N;
  p_metadata : N
}.
#[global] Instance Pending_rebuild : Rebuild Pending := λ p,
  mkPending (p_threads p) (p_invocations p) (p_effects p) (p_maps p) (p_undelivered p)
    (p_pages p) (p_metadata p).

(** kernel/src/scope.rs:1200-1214 [pending, the loop]. [None] is the overflow of a sum. *)
Fixpoint pending_from (t : Scopes) (root : ScopeId) (index : list ScopeId) (total : Pending) :
    option Pending :=
  match index with
  | [] => Some total
  | i :: index =>
      node ← scopes t !! i;
      if bool_decide (sc_state node = Empty) || negb (is_within t root i)
      then pending_from t root index total else
      threads ← checked_add 32 (p_threads total) (sc_threads node);
      invocations ← checked_add 32 (p_invocations total) (sc_invocations_pending node);
      effects ← checked_add 32 (p_effects total) (sc_effects_pending node);
      maps ← checked_add 32 (p_maps total) (sc_maps_pending node);
      undelivered ← checked_add 32 (p_undelivered total) (sc_undelivered_cancelled node);
      pending_from t root index
        (mkPending threads invocations effects maps undelivered (p_pages total)
           (p_metadata total))
  end.
(** kernel/src/scope.rs:1198-1218 [pending] *)
Definition pending (t : Scopes) (root : ScopeId) : option Pending :=
  total ← pending_from t root (indices (scopes t)) (mkPending 0 0 0 0 0 0 0);
  node ← scopes t !! root;
  Some (total <| p_pages := sc_memory_pages node |> <| p_metadata := sc_metadata node |>).

(** kernel/src/scope.rs:1272-1275 [advance_quiescence, the condition] *)
Definition settled (p : Pending) : bool :=
  bool_decide (p_threads p = 0) && bool_decide (p_invocations p = 0) &&
  bool_decide (p_effects p = 0) && bool_decide (p_maps p = 0).

(** kernel/src/scope.rs:1267-1281 [advance_quiescence, one index] *)
Definition quiesce_index (now_ns : N) (st : N * Scopes) (index : ScopeId) :
    option (N * Scopes) :=
  let '(promoted, t) := st in
  node ← scopes t !! index;
  if negb (bool_decide (sc_state node = Fenced)) then Some st else
  obligations ← pending t index;
  if settled obligations then
    Some (promoted + 1,
          on_scope index (λ n, n <| sc_last_progress_ns := now_ns |>
                                 <| sc_drain_token ::= λ c, wrapping_add 64 c 1 |>)
            (set_state index Quiescent t))
  else Some st.
(** kernel/src/scope.rs:1264-1284 [advance_quiescence, the loop] *)
Fixpoint quiesce_from (now_ns : N) (index : list ScopeId) (st : N * Scopes) :
    option (N * Scopes) :=
  match index with
  | [] => Some st
  | i :: index => st ← quiesce_index now_ns st i; quiesce_from now_ns index st
  end.
(** kernel/src/scope.rs:1264-1284 [advance_quiescence] *)
Definition advance_quiescence (now_ns : N) (t : Scopes) : option (N * Scopes) :=
  quiesce_from now_ns (indices (scopes t)) (0, t).

(** kernel/src/scope.rs:1289-1291 [any_fenced] *)
Definition any_fenced (t : Scopes) : bool := negb (bool_decide (fenced t = 0)).

(** ** Processor credit *)

(** kernel/src/scope.rs:1315-1317 [credit_refill_ns] *)
Definition credit_refill_ns (window_left : N) : N := N.min (2 * QUANTUM_NS) window_left.

Definition credit_at (t : Scopes) (cpu scope : N) : option Credit :=
  row ← credits t !! cpu; row !! scope.

(** kernel/src/sched.rs:404-409 [flush_pending_charges, one processor] *)
Definition flush_one (scope : ScopeId) (t : Scopes) (cpu : N) : Scopes :=
  match credit_at t cpu scope with
  | None => t
  | Some c =>
      charge_cpu scope (cr_pending_ns c) false
        (on_credit cpu scope (λ c, c <| cr_pending_ns := 0 |>) t)
  end.
(** kernel/src/sched.rs:403-410 [flush_pending_charges] *)
Definition flush_pending_charges (scope : ScopeId) (t : Scopes) : Scopes :=
  foldl (flush_one scope) t (indices (credits t)).

(** kernel/src/sched.rs:414-422 [pending_charges]. A sum past 2^64 would panic. *)
Definition pending_charges (t : Scopes) (scope : ScopeId) : N :=
  foldr N.add 0 (omap (λ row : list Credit, cr_pending_ns <$> row !! scope) (credits t)).

(** kernel/src/sched.rs:425-432 [forget_credits] *)
Definition forget_credits (scope : ScopeId) (t : Scopes) : Scopes :=
  t <| credits ::= fmap (alter (λ _, mkCredit 0 0 0) scope) |>.

(** kernel/src/sched.rs:436-445 [release_credit] *)
Definition release_credit (cpu : N) (scope : ScopeId) (t : Scopes) : Scopes :=
  match credit_at t cpu scope with
  | None => t
  | Some c =>
      let t := on_credit cpu scope (λ c, c <| cr_reserved_ns := 0 |>) t in
      let t := if decide (cr_reserved_ns c ≠ 0)
               then return_cpu scope (cr_reserved_ns c) false (cr_window c) t else t in
      charge_cpu scope (cr_pending_ns c) false
        (on_credit cpu scope (λ c, c <| cr_pending_ns := 0 |>) t)
  end.
(** kernel/src/sched.rs:449-458 [release_credits] *)
Definition release_credits (cpu : N) (t : Scopes) : Scopes :=
  foldl (λ t scope,
    match credit_at t cpu scope with
    | Some c => if decide (cr_reserved_ns c ≠ 0 ∨ cr_pending_ns c ≠ 0)
                then release_credit cpu scope t else t
    | None => t
    end) t (N.of_nat <$> seq 0 (N.to_nat MAX_SCOPES)).

(** ** The window *)

(** kernel/src/scope.rs:770-827 [roll_window, one scope]. The sequence ends where it began
    plus two. *)
Definition roll_scope (window : N) (node : Scope) : Scope :=
  let closing := sc_cpu_window_ns node in
  let budget := l_cpu_budget_ns (sc_limits node) in
  let overrun := saturating_sub closing budget in
  let written := negb (bool_decide (overrun = 0))
                 && bool_decide (sc_debt_records node < DEBT_RECORD_LIMIT) in
  let node := if written : bool
              then node <| sc_debt_records ::= λ c, wrapping_add 32 c 1 |> else node in
  let node := node <| sc_windows_closed ::= λ c, wrapping_add 64 c 1 |>
                   <| sc_max_window_ns ::= N.max closing |> in
  let opened := sc_window_opened_ns node in
  let charged := saturating_sub closing opened in
  let admissible := saturating_sub budget opened in
  let node := node <| sc_max_charged_in_window_ns ::= N.max charged |>
                   <| sc_max_excess_ns ::= N.max (saturating_sub charged admissible) |> in
  let node := if decide (overrun ≠ 0)
              then node <| sc_overruns ::= λ c, wrapping_add 64 c 1 |>
                        <| sc_max_overrun_ns ::= N.max overrun |> else node in
  node <| sc_cpu_debt_ns ::= λ c, wrapping_add 64 c overrun |>
       <| sc_cpu_window_ns := overrun |>
       <| sc_cpu_committed_ns := overrun |>
       <| sc_window_opened_ns := overrun |>
       <| sc_closure_used_ns := 0 |>
       <| sc_closure_committed_ns := 0 |>
       <| sc_window_index := window |>.

(** kernel/src/scope.rs:748-750 [roll_window, a scope in an old window] *)
Definition stale (window : N) (node : Scope) : bool :=
  negb (bool_decide (sc_state node = Empty))
  && negb (bool_decide (sc_window_index node = window)).

(** kernel/src/scope.rs:765-829 [roll_window, one index] *)
Definition roll_index (window : N) (t : Scopes) (index : ScopeId) : Scopes :=
  match scopes t !! index with
  | Some node =>
      if stale window node
      then on_scope index (roll_scope window)
             (t <| roll_seq ::= λ n, wrapping_add 64 (wrapping_add 64 n 1) 1 |>)
      else t
  | None => t
  end.

(** kernel/src/scope.rs:760-764 [roll_window, the charges pulled in] *)
Definition flush_index (t : Scopes) (index : ScopeId) : Scopes :=
  match scopes t !! index with
  | Some node => if decide (sc_state node = Empty) then t else flush_pending_charges index t
  | None => t
  end.

(** kernel/src/scope.rs:746-830 [roll_window] *)
Definition roll_window (now_ns : N) (t : Scopes) : Scopes :=
  let window := now_ns / CPU_WINDOW_NS in
  if negb (existsb (stale window) (scopes t)) then t else
  let t := foldl flush_index t (indices (scopes t)) in
  foldl (roll_index window) t (indices (scopes t)).

(** ** Dispatch *)

(** What one dispatch holds: the scheduler's fields of the thread. *)
(** kernel/src/sched.rs:591-597 [reserve_for, the reservation recorded] *)
Record Dispatch := mkDispatch {
  d_reserved_ns : N;
  d_charged_ns : N;
  d_window : N;
  d_scope : ScopeId;
  d_recovery : bool;
  d_reservation_end_ns : N
}.
#[global] Instance Dispatch_rebuild : Rebuild Dispatch := λ d,
  mkDispatch (d_reserved_ns d) (d_charged_ns d) (d_window d) (d_scope d) (d_recovery d)
    (d_reservation_end_ns d).

(** kernel/src/sched.rs:484-492 [take_grant, the credit of an old window] *)
Definition renew_credit (cpu : N) (scope : ScopeId) (window : N) (t : Scopes) : Scopes :=
  match credit_at t cpu scope with
  | Some c =>
      if decide (cr_window c ≠ window) then
        on_credit cpu scope (λ c, c <| cr_window := window |>)
          (charge_cpu scope (cr_pending_ns c) false
             (on_credit cpu scope (λ c, c <| cr_reserved_ns := 0 |> <| cr_pending_ns := 0 |>) t))
      else t
  | None => t
  end.

(** kernel/src/sched.rs:505-506 [take_grant, what a refill asks for] *)
Definition refill_want (ceiling have available : N) : N :=
  let share := N.min (N.max (div_ceil available 2) QUANTUM_NS) available in
  N.min (saturating_sub ceiling have) share.

(** kernel/src/sched.rs:495-516 [take_grant, the refill]. What the credit holds after it;
    [None] as for [reserve_cpu]. *)
Definition refill_credit (cpu : N) (scope : ScopeId) (window window_left have : N)
    (t : Scopes) : option (N * Scopes) :=
  if decide (N.min QUANTUM_NS window_left <= have) then Some (have, t) else
  let want := refill_want (credit_refill_ns window_left) have (available_ns t scope false) in
  if decide (want = 0) then Some (have, t) else
  '(ok, t) ← reserve_cpu scope want false window t;
  if ok : bool
  then Some (have + want, on_credit cpu scope (λ c, c <| cr_reserved_ns ::= N.add want |>) t)
  else Some (have, t).

(** kernel/src/sched.rs:467-538 [take_grant], for the scope and the recovery flag of the
    thread. A credit that holds nothing after the refill grants nothing. *)
Definition take_grant (cpu : N) (scope : ScopeId) (recovery : bool) (now : N) (t : Scopes) :
    option (N * Scopes) :=
  let window := now / CPU_WINDOW_NS in
  let window_left := CPU_WINDOW_NS - now mod CPU_WINDOW_NS in
  if recovery then
    let amount := N.min (N.min QUANTUM_NS (available_ns t scope true)) window_left in
    if decide (amount = 0) then Some (0, t) else
    '(ok, t) ← reserve_cpu scope amount true window t;
    if ok : bool then Some (amount, t) else Some (0, t)
  else
    _ ← credit_at t cpu scope;
    let t := renew_credit cpu scope window t in
    let ceiling := credit_refill_ns window_left in
    c ← credit_at t cpu scope;
    '(have, t) ← refill_credit cpu scope window window_left (cr_reserved_ns c) t;
    let grant := N.min (N.min have ceiling) QUANTUM_NS in
    if decide (grant = 0) then Some (0, t)
    else Some (grant, on_credit cpu scope (λ c, c <| cr_reserved_ns := have - grant |>) t).

(** kernel/src/sched.rs:568-607 [reserve_for] *)
Definition reserve_for (cpu : N) (scope : ScopeId) (recovery : bool) (now : N) (t : Scopes) :
    option (option Dispatch * Scopes) :=
  let refuse t := on_scope scope (λ n, n <| sc_dispatch_refusals ::= λ c, wrapping_add 64 c 1 |>) t in
  _ ← scopes t !! scope;
  let '(ok, t) := take_running scope t in
  if negb ok then Some (None, refuse t) else
  '(grant, t) ← take_grant cpu scope recovery now t;
  if decide (grant = 0) then Some (None, refuse (drop_running scope t)) else
  let t := on_scope scope (λ n, n <| sc_dispatch_grants ::= λ c, wrapping_add 64 c 1 |>) t in
  Some (Some {| d_reserved_ns := grant;
                d_charged_ns := 0;
                d_window := now / CPU_WINDOW_NS;
                d_scope := scope;
                d_recovery := recovery;
                d_reservation_end_ns := saturating_add 64 now grant |}, t).

(** kernel/src/sched.rs:786-800 [charge], for a dispatched user thread whose effective
    scope and recovery flag are given *)
Definition charge (cpu : N) (scope : ScopeId) (recovery : bool) (ran : N) (d : Dispatch)
    (t : Scopes) : Dispatch * Scopes :=
  if decide (ran = 0) then (d, t) else
  (d <| d_charged_ns ::= λ c, c + ran |>,
   if recovery then charge_cpu scope ran true t
   else on_credit cpu scope (λ c, c <| cr_pending_ns ::= λ p, wrapping_add 64 p ran |>) t).

(** kernel/src/sched.rs:805-842 [settle], for a thread that was dispatched *)
Definition settle (cpu : N) (d : Dispatch) (t : Scopes) : Scopes :=
  let t := drop_running (d_scope d) t in
  if decide (d_reserved_ns d < d_charged_ns d)
  then commit_excess (d_scope d) (d_charged_ns d - d_reserved_ns d) (d_recovery d) t else
  let unused := d_reserved_ns d - d_charged_ns d in
  if decide (unused = 0) then t else
  if d_recovery d then return_cpu (d_scope d) unused true (d_window d) t else
  match credit_at t cpu (d_scope d) with
  | Some c =>
      if decide (cr_window c = d_window d)
      then on_credit cpu (d_scope d) (λ c, c <| cr_reserved_ns ::= λ r, wrapping_add 64 r unused |>) t
      else return_cpu (d_scope d) unused false (d_window d) t
  | None => t
  end.
