(* ===== verification/ScopeProofs.v ===== *)
(** * What the scope accounts guarantee

    The tree invariant of the scope table and the theorems on [Scope]: reservation,
    the barrier, draining, the window and processor credit. *)

From S2P Require Import Prelude Abi Obj Scope.

#[local] Open Scope N_scope.

(** ** The tree *)

Record scopes_wf (tbl : list Scope) : Prop := {
  scopes_len : tlen tbl = MAX_SCOPES;
  scopes_depth i n : tbl !! i = Some n → sc_state n ≠ Empty →
    sc_depth n < limit.MAX_SCOPE_DEPTH;
  scopes_parent i n p : tbl !! i = Some n → sc_state n ≠ Empty → parent n = Some p →
    ∃ pn, tbl !! p = Some pn ∧ sc_state pn ≠ Empty ∧ sc_depth n = sc_depth pn + 1
}.

Lemma chain_from_live room tbl i n j :
  scopes_wf tbl → tbl !! i = Some n → sc_state n ≠ Empty → j ∈ chain_from room tbl i →
  ∃ m, tbl !! j = Some m ∧ sc_state m ≠ Empty ∧ sc_depth m <= sc_depth n.
Proof.
  intros Hwf. revert i n. induction room as [|room IH]; intros i n Hn Hs; cbn -[lookup].
  { by intros []%not_elem_of_nil. }
  rewrite Hn. intros [->|Hj]%elem_of_cons; [by exists n|].
  destruct (parent n) as [p|] eqn:Hp; [|by apply not_elem_of_nil in Hj].
  destruct (scopes_parent tbl Hwf i n p Hn Hs Hp) as (pn & Hpn & Hps & Hd).
  destruct (IH p pn Hpn Hps Hj) as (m & Hm & Hms & Hle).
  exists m. split_and!; [done..|lia].
Qed.

Lemma chain_from_NoDup room tbl i n :
  scopes_wf tbl → tbl !! i = Some n → sc_state n ≠ Empty → NoDup (chain_from room tbl i).
Proof.
  intros Hwf. revert i n. induction room as [|room IH]; intros i n Hn Hs; cbn -[lookup].
  { constructor. }
  rewrite Hn. destruct (parent n) as [p|] eqn:Hp; [|apply NoDup_singleton].
  destruct (scopes_parent tbl Hwf i n p Hn Hs Hp) as (pn & Hpn & Hps & Hd).
  constructor; [|by eapply IH]. intros Hi.
  destruct (chain_from_live _ _ _ _ _ Hwf Hpn Hps Hi) as (m & Hm & _ & Hle).
  assert (m = n) as -> by congruence. lia.
Qed.

Lemma chain_from_ext room tbl tbl' i :
  (∀ j, parent <$> tbl !! j = parent <$> tbl' !! j) →
  chain_from room tbl i = chain_from room tbl' i.
Proof.
  intros Heq. revert i. induction room as [|room IH]; intros i; cbn -[lookup]; [done|].
  specialize (Heq i).
  destruct (tbl !! i) as [n|], (tbl' !! i) as [n'|]; cbn in Heq; try done.
  injection Heq as ->. destruct (parent n'); [by rewrite IH|done].
Qed.

(** The room of the array is enough: a chain in the tree is the whole way up. *)
Lemma chain_from_room room room' tbl i n :
  scopes_wf tbl → tbl !! i = Some n → sc_state n ≠ Empty →
  sc_depth n < N.of_nat room → sc_depth n < N.of_nat room' →
  chain_from room tbl i = chain_from room' tbl i.
Proof.
  intros Hwf. revert room' i n. induction room as [|room IH]; intros [|room'] i n Hn Hs Hr Hr';
    try lia. cbn -[lookup]. rewrite Hn. f_equal.
  destruct (parent n) as [p|] eqn:Hp; [|done].
  destruct (scopes_parent tbl Hwf i n p Hn Hs Hp) as (pn & Hpn & Hps & Hd).
  eapply IH; [done..|lia|lia].
Qed.

Lemma chain_of_unfold tbl i n :
  scopes_wf tbl → tbl !! i = Some n → sc_state n ≠ Empty →
  chain_of tbl i = i :: match parent n with Some p => chain_of tbl p | None => [] end.
Proof.
  intros Hwf Hn Hs. unfold chain_of at 1.
  replace (N.to_nat limit.MAX_SCOPE_DEPTH + 1)%nat with (S (N.to_nat limit.MAX_SCOPE_DEPTH)) by lia.
  cbn [chain_from]. rewrite Hn. destruct (parent n) as [p|] eqn:Hp; [|reflexivity].
  apply (f_equal (cons i)).
  destruct (scopes_parent tbl Hwf i n p Hn Hs Hp) as (pn & Hpn & Hps & Hd).
  pose proof (scopes_depth tbl Hwf i n Hn Hs).
  eapply chain_from_room; [done..|lia|lia].
Qed.

(** A scope that takes part: its chain names distinct, occupied slots. *)
Definition live_scope (tbl : list Scope) (i : ScopeId) : Prop :=
  ∃ n, tbl !! i = Some n ∧ sc_state n ≠ Empty.

Lemma chain_live tbl i j :
  scopes_wf tbl → live_scope tbl i → j ∈ chain_of tbl i → live_scope tbl j.
Proof.
  intros Hwf (n & Hn & Hs) Hj.
  destruct (chain_from_live _ _ _ _ _ Hwf Hn Hs Hj) as (m & ? & ? & _). by exists m.
Qed.
Lemma chain_NoDup tbl i : scopes_wf tbl → live_scope tbl i → NoDup (chain_of tbl i).
Proof. intros Hwf (n & Hn & Hs). by eapply chain_from_NoDup. Qed.
Lemma chain_self tbl i : live_scope tbl i → i ∈ chain_of tbl i.
Proof.
  intros (n & Hn & _). unfold chain_of.
  replace (N.to_nat limit.MAX_SCOPE_DEPTH + 1)%nat with (S (N.to_nat limit.MAX_SCOPE_DEPTH)) by lia.
  cbn [chain_from]. rewrite Hn. left.
Qed.
Lemma chain_ext tbl tbl' i :
  (∀ j, parent <$> tbl !! j = parent <$> tbl' !! j) → chain_of tbl i = chain_of tbl' i.
Proof. apply chain_from_ext. Qed.

(** ** Writing along a chain *)

Lemma for_nodes_lookup f nodes tbl i :
  NoDup nodes →
  for_nodes f nodes tbl !! i = if decide (i ∈ nodes) then f <$> tbl !! i else tbl !! i.
Proof.
  unfold for_nodes. revert tbl. induction nodes as [|j nodes IH]; intros tbl Hnd; cbn -[lookup].
  { by rewrite decide_False by apply not_elem_of_nil. }
  apply NoDup_cons in Hnd as [Hj Hnd]. rewrite IH by done. rewrite table_alter.
  destruct (decide (i ∈ nodes)) as [Hi|Hi].
  - rewrite decide_False by (by intros ->). by rewrite decide_True by by right.
  - destruct (decide (j = i)) as [->|Hne].
    + by rewrite decide_True by left.
    + rewrite decide_False; [done|]. by intros [->|?]%elem_of_cons.
Qed.

Lemma tlen_for_nodes f nodes tbl : tlen (for_nodes f nodes tbl) = tlen tbl.
Proof.
  unfold for_nodes. revert tbl. induction nodes as [|j nodes IH]; intros tbl; [done|].
  cbn -[tlen]. by rewrite IH, tlen_alter.
Qed.

Lemma for_nodes_cons f i nodes tbl :
  NoDup (i :: nodes) → for_nodes f (i :: nodes) tbl = alter f i (for_nodes f nodes tbl).
Proof.
  intros Hnd. pose proof Hnd as [Hi Hnd']%NoDup_cons. apply table_eq. intros j.
  rewrite table_alter, !for_nodes_lookup by done.
  destruct (decide (j ∈ i :: nodes)) as [Hj|Hj], (decide (i = j)) as [<-|Hne];
    rewrite ?(decide_False (P := i ∈ nodes)) by done; try done.
  - apply elem_of_cons in Hj as [->|Hj]; [done|]. by rewrite decide_True.
  - destruct Hj. left.
  - rewrite decide_False; [done|]. intros ?. destruct Hj. by right.
Qed.

Lemma for_nodes_id f nodes tbl :
  NoDup nodes → (∀ i n, i ∈ nodes → tbl !! i = Some n → f n = n) → for_nodes f nodes tbl = tbl.
Proof.
  intros Hnd Hf. apply table_eq. intros i. rewrite for_nodes_lookup by done.
  case_decide as Hi; [|done]. destruct (tbl !! i) as [n|] eqn:Hn; [|done].
  cbn. by rewrite (Hf i n).
Qed.

Lemma for_nodes_compose f g nodes tbl :
  NoDup nodes → for_nodes g nodes (for_nodes f nodes tbl) = for_nodes (g ∘ f) nodes tbl.
Proof.
  intros Hnd. apply table_eq. intros i. rewrite !for_nodes_lookup by done.
  case_decide; [|done]. by destruct (tbl !! i).
Qed.

(** A write that keeps the parent links keeps every chain. *)
Lemma for_nodes_chain f nodes tbl i :
  NoDup nodes → (∀ n, sc_parent (f n) = sc_parent n) →
  chain_of (for_nodes f nodes tbl) i = chain_of tbl i.
Proof.
  intros Hnd Hf. apply chain_ext. intros j. rewrite for_nodes_lookup by done.
  case_decide; [|done]. destruct (tbl !! j) as [n|]; [|done]. cbn. unfold parent.
  by rewrite Hf.
Qed.

Lemma NoDup_prefix_of {A} (k : nat) (l : list A) : NoDup l → NoDup (take k l).
Proof. intros Hnd. rewrite <-(take_drop k l) in Hnd. by apply NoDup_app in Hnd as [? _]. Qed.

(** A charge along a chain either lands on every level, or some level refuses and
    the undo leaves the table as it was. *)
Lemma charge_chain_spec charge undo nodes tbl :
  NoDup nodes → (∀ i, i ∈ nodes → is_Some (tbl !! i)) →
  (∀ i n, i ∈ nodes → tbl !! i = Some n →
    if (charge n).1 : bool then (charge n).2 = n else undo (charge n).2 = n) →
  let '(done, refused, tbl') := charge_chain charge nodes tbl in
  refused = negb (forallb (λ n, negb (charge n).1) (omap (λ i, tbl !! i) nodes)) ∧
  if refused : bool then for_nodes undo (take (N.to_nat done) nodes) tbl' = tbl
  else tbl' = for_nodes (λ n, (charge n).2) nodes tbl.
Proof.
  revert tbl. induction nodes as [|i nodes IH]; intros tbl Hnd Hin Hundo; [done|].
  pose proof Hnd as [Hi Hnd']%NoDup_cons. cbn -[lookup N.to_nat for_nodes].
  destruct (Hin i) as [n Hn]; [left|]. specialize (Hundo i n) as Hun.
  rewrite Hn in *. specialize (Hun ltac:(left) eq_refl).
  destruct (charge n) as [[] n'] eqn:Hc; cbn -[lookup N.to_nat for_nodes] in *.
  { split; [by rewrite Hc|]. subst n'. by apply table_insert_id. }
  rewrite Hc. cbn -[lookup N.to_nat for_nodes].
  assert (Hsame : ∀ j, j ∈ nodes → <[i := n']> tbl !! j = tbl !! j).
  { intros j Hj. apply table_insert_ne. by intros ->. }
  specialize (IH (<[i := n']> tbl) Hnd').
  assert (Hom : omap (λ j, <[i := n']> tbl !! j) nodes = omap (λ j, tbl !! j) nodes).
  { clear -Hsame. induction nodes as [|j nodes IH]; [done|]. cbn -[lookup].
    rewrite Hsame by left. rewrite IH; [done|]. intros k Hk. apply Hsame. by right. }
  rewrite Hom in IH. destruct (charge_chain charge nodes (<[i := n']> tbl)) as [[done refused] tbl'].
  destruct IH as [Href IH].
  - intros j Hj. rewrite Hsame by done. apply Hin. by right.
  - intros j m Hj. rewrite Hsame by done. apply Hundo. by right.
  - split; [done|]. destruct refused.
    + replace (N.to_nat (done + 1)) with (S (N.to_nat done)) by lia.
      pose proof (NoDup_prefix_of (S (N.to_nat done)) _ Hnd) as Hpre. cbn [take] in *.
      rewrite for_nodes_cons, IH by done.
      rewrite (table_alter_as_insert _ _ _ n'), table_insert_insert, Hun.
      * by apply table_insert_id.
      * apply table_insert_eq. by eapply table_lookup_lt.
    + subst tbl'. rewrite for_nodes_cons by done. apply table_eq. intros j.
      rewrite table_alter, !for_nodes_lookup by done.
      destruct (decide (i = j)) as [<-|].
      * rewrite !decide_False by done. rewrite Hn. cbn. rewrite Hc.
        apply table_insert_eq. by eapply table_lookup_lt.
      * case_decide; by rewrite table_insert_ne.
Qed.

(** ** Bounded counters *)

Lemma bounded_add_spec counter amount limit :
  counter <= U64_MAX → amount <= U64_MAX → limit < U64_MAX →
  bounded_add counter amount limit =
    if decide (counter + amount <= limit)
    then (inr (counter + amount), counter + amount) else (inl counter, counter).
Proof.
  unfold bounded_add, saturating_add, U64_MAX. intros Hc Ha Hl.
  change (2 ^ 64 - 1) with 18446744073709551615.
  destruct (decide (counter + amount <= limit)).
  - rewrite decide_False by lia. rewrite wrapping_add_small by lia. do 2 f_equal. lia.
  - rewrite decide_True by lia. by rewrite wrapping_undo by lia.
Qed.

(** The counters of a scope hold at their widths, and no ceiling is the width's
    last value, past which a saturated sum would pass for an admitted one. *)
Record counters_ok (n : Scope) : Prop := {
  ok_account r : account r n <= U64_MAX;
  ok_limit r : limit_of r n < U64_MAX;
  ok_committed b : committed b n <= U64_MAX;
  ok_budget b : budget b n < U64_MAX;
  ok_running : sc_running n <= U32_MAX;
  ok_window : sc_cpu_window_ns n <= U64_MAX;
  ok_parallelism : l_parallelism (sc_limits n) <= U32_MAX
}.

Lemma account_set_account r f n : account r (set_account r f n) = f (account r n).
Proof. by destruct r. Qed.
Lemma set_account_twice r f g n : set_account r g (set_account r f n) = set_account r (g ∘ f) n.
Proof. by destruct r. Qed.
Lemma set_account_id r f n : f (account r n) = account r n → set_account r f n = n.
Proof. destruct r, n; cbn; by intros ->. Qed.
Lemma set_committed_twice b f g n :
  set_committed b g (set_committed b f n) = set_committed b (g ∘ f) n.
Proof. by destruct b. Qed.
Lemma set_committed_id b f n : f (committed b n) = committed b n → set_committed b f n = n.
Proof. destruct b, n; cbn; by intros ->. Qed.
Lemma set_account_ext r f g n :
  f (account r n) = g (account r n) → set_account r f n = set_account r g n.
Proof. destruct r; cbn; by intros ->. Qed.
Lemma set_committed_ext b f g n :
  f (committed b n) = g (committed b n) → set_committed b f n = set_committed b g n.
Proof. destruct b; cbn; by intros ->. Qed.

(** When one level takes a charge. *)
Definition level_admits (resource : Resource) (amount : N) (n : Scope) : bool :=
  bool_decide (sc_state n = Open) && bool_decide (account resource n + amount <= limit_of resource n).

Lemma reserve_level_spec resource amount n :
  counters_ok n → amount <= U64_MAX →
  reserve_level resource amount n =
    if level_admits resource amount n
    then (false, set_account resource (N.add amount) n) else (true, n).
Proof.
  intros Hok Ha. unfold reserve_level, level_admits.
  destruct (bool_decide (sc_state n = Open)); cbn [negb andb]; [|done].
  rewrite bounded_add_spec; [|apply Hok|done|apply Hok].
  destruct (decide (account resource n + amount <= limit_of resource n)).
  - rewrite bool_decide_true by done. f_equal. apply set_account_ext. lia.
  - rewrite bool_decide_false by done. f_equal. by apply set_account_id.
Qed.

Lemma reserve_level_undo resource amount n :
  counters_ok n → amount <= U64_MAX →
  if (reserve_level resource amount n).1 : bool then (reserve_level resource amount n).2 = n
  else set_account resource (λ c, wrapping_sub 64 c amount) (reserve_level resource amount n).2 = n.
Proof.
  intros Hok Ha. rewrite reserve_level_spec by done.
  destruct (level_admits resource amount n) eqn:Hl; cbn [fst snd]; [|done].
  apply andb_true_iff in Hl as [_ Hl%bool_decide_eq_true].
  rewrite set_account_twice. apply set_account_id. cbn.
  pose proof (ok_limit n Hok resource). unfold U64_MAX in *.
  rewrite wrapping_sub_small by lia. lia.
Qed.

(** Everything a reservation relies on: the tree, and counters at their widths. *)
Record accounts_wf (t : Scopes) : Prop := {
  acc_tree : scopes_wf (scopes t);
  acc_counters i n : scopes t !! i = Some n → counters_ok n
}.

Lemma chain_scopes_elem t i n :
  n ∈ chain_scopes (scopes t) i ↔ ∃ j, j ∈ chain_of (scopes t) i ∧ scopes t !! j = Some n.
Proof. apply list_elem_of_omap. Qed.

Lemma with_scopes_ext t tbl f : tbl = f (scopes t) → t <| scopes := tbl |> = t <| scopes ::= f |>.
Proof. by intros ->. Qed.
Lemma with_scopes_id t tbl : tbl = scopes t → t <| scopes := tbl |> = t.
Proof. intros ->. by destruct t. Qed.

(** [reserve] in closed form: every level is asked, and all of them pay or none. *)
Lemma reserve_spec scope resource amount t :
  accounts_wf t → live_scope (scopes t) scope → amount <= U64_MAX →
  reserve scope resource amount t =
    if forallb (level_admits resource amount) (chain_scopes (scopes t) scope)
    then (true, t <| scopes ::= for_nodes (set_account resource (N.add amount))
                                 (chain_of (scopes t) scope) |>)
    else (false, t).
Proof.
  intros [Htree Hok] Hlive Ha. unfold reserve.
  pose proof (chain_NoDup _ _ Htree Hlive) as Hnd.
  assert (Hlv : ∀ j, j ∈ chain_of (scopes t) scope → is_Some (scopes t !! j)).
  { intros j Hj. destruct (chain_live _ _ _ Htree Hlive Hj) as (n & ? & _). by exists n. }
  pose proof (charge_chain_spec (reserve_level resource amount)
    (set_account resource (λ c, wrapping_sub 64 c amount)) (chain_of (scopes t) scope) (scopes t)
    Hnd Hlv) as Hspec.
  destruct (charge_chain _ _ _) as [[done refused] tbl'].
  destruct Hspec as [Href Htbl].
  { intros i n _ Hn. apply reserve_level_undo; [by eapply Hok|done]. }
  assert (refused = negb (forallb (level_admits resource amount) (chain_scopes (scopes t) scope)))
    as ->.
  { rewrite Href. f_equal. apply forallb_agree. intros n (j & _ & Hj)%chain_scopes_elem.
    rewrite reserve_level_spec by eauto. by destruct (level_admits _ _ _). }
  destruct (forallb (level_admits resource amount) _) eqn:Hall; cbn [negb] in *.
  - apply (f_equal (pair true)), with_scopes_ext. subst tbl'. apply table_eq. intros i. rewrite !for_nodes_lookup by done. case_decide as Hi; [|done].
    destruct (_ !! i) as [n|] eqn:Hn; [|done]. cbn. rewrite reserve_level_spec by (by eauto).
    rewrite forallb_forall in Hall. rewrite Hall; [done|].
    apply list_elem_of_In, chain_scopes_elem. by exists i.
  - by apply (f_equal (pair false)), with_scopes_id.
Qed.

(** [release] in closed form: the amount is below what a reservation left. *)
Lemma release_reserve scope resource amount t :
  accounts_wf t → live_scope (scopes t) scope → amount <= U64_MAX →
  release scope resource amount
    (t <| scopes ::= for_nodes (set_account resource (N.add amount)) (chain_of (scopes t) scope) |>)
  = t.
Proof.
  intros [Htree _] Hlive Ha. pose proof (chain_NoDup _ _ Htree Hlive) as Hnd.
  destruct t as [tbl nf nr cr]. unfold release. cbn in *.
  rewrite for_nodes_chain by (done || by destruct resource).
  apply (f_equal (λ x, mkScopes x nf nr cr)).
  rewrite for_nodes_compose by done. apply for_nodes_id; [done|].
  intros i n _ _. cbn. rewrite set_account_twice. apply set_account_id.
  cbn. unfold saturating_sub. lia.
Qed.

(** C8. A reservation is all or nothing. Over a well-formed table, [reserve]
    succeeds exactly when the scope and every ancestor are open and have room for
    the amount; then every one of those accounts, and nothing else of any
    scope, has grown by the amount, and releasing the same amount restores the
    table exactly. A refusal leaves the whole table as it was, although the
    levels below the refusal had been charged. *)
Theorem reserve_all_or_nothing scope resource amount t :
  accounts_wf t → live_scope (scopes t) scope → amount <= U64_MAX →
  let '(ok, t') := reserve scope resource amount t in
  (ok = true ↔ ∀ i n, i ∈ chain_of (scopes t) scope → scopes t !! i = Some n →
     sc_state n = Open ∧ account resource n + amount <= limit_of resource n) ∧
  (ok = false → t' = t) ∧
  (ok = true →
     (∀ i n, scopes t !! i = Some n →
        scopes t' !! i = Some (if decide (i ∈ chain_of (scopes t) scope)
                               then set_account resource (N.add amount) n else n)) ∧
     release scope resource amount t' = t).
Proof.
  intros Hwf Hlive Ha. rewrite reserve_spec by done.
  destruct (forallb _ _) eqn:Hall; (split; [|split]); try done.
  - split; [|done]. intros _ i n Hi Hn. rewrite forallb_forall in Hall.
    specialize (Hall n). rewrite <-list_elem_of_In, chain_scopes_elem in Hall.
    apply andb_true_iff in Hall as [?%bool_decide_eq_true ?%bool_decide_eq_true]; [done|].
    by exists i.
  - intros _. split; [|by apply release_reserve].
    intros i n Hn. cbn. rewrite for_nodes_lookup by (by apply chain_NoDup; [apply Hwf|]).
    rewrite Hn. by case_decide.
  - split; [done|]. intros H. rewrite <-Hall. apply forallb_forall.
    intros n (j & Hj & Hn)%list_elem_of_In%chain_scopes_elem.
    destruct (H j n Hj Hn). unfold level_admits. by rewrite !bool_decide_true.
Qed.

(** ** What the operations preserve *)

(** A state moves only forward. *)
Definition state_le (s s' : State) : Prop :=
  s = s' ∨ (s ≠ Empty ∧ State.to_u8 s < State.to_u8 s').

(** The accounts of a scope are inside its ceilings. *)
Definition within_limits (n : Scope) : Prop := ∀ r, account r n <= limit_of r n.

(** How one scope may change: its place in the tree and its ceilings stay, its
    state moves along [R], and its counters stay at their widths and its accounts
    inside their ceilings. *)
Record scope_le (R : relation State) (n n' : Scope) : Prop := {
  le_parent : sc_parent n' = sc_parent n;
  le_depth : sc_depth n' = sc_depth n;
  le_limits : sc_limits n' = sc_limits n;
  le_state : R (sc_state n) (sc_state n');
  le_counters : counters_ok n → counters_ok n';
  le_within : within_limits n → within_limits n'
}.

Global Arguments le_parent {R n n'} _.
Global Arguments le_depth {R n n'} _.
Global Arguments le_limits {R n n'} _.
Global Arguments le_state {R n n'} _.
Global Arguments le_counters {R n n'} _ _.
Global Arguments le_within {R n n'} _ _.

Definition scopes_le (R : relation State) (tbl tbl' : list Scope) : Prop :=
  tlen tbl' = tlen tbl ∧
  ∀ i n, tbl !! i = Some n → ∃ n', tbl' !! i = Some n' ∧ scope_le R n n'.

#[global] Instance state_le_preorder : PreOrder state_le.
Proof.
  split; [by left|]. intros s1 s2 s3 [->|[H1 H2]]; [done|].
  intros [<-|[H3 H4]]; right; split; [done..|lia].
Qed.

#[global] Instance scope_le_preorder R : PreOrder R → PreOrder (scope_le R).
Proof.
  intros HR. split; [by split|]. intros n1 n2 n3 [] []. split; try congruence; try tauto.
  by etrans.
Qed.

#[global] Instance scopes_le_preorder R : PreOrder R → PreOrder (scopes_le R).
Proof.
  intros HR. split.
  - intros tbl. split; [done|]. intros i n Hn. by exists n.
  - intros t1 t2 t3 [Hl1 H1] [Hl2 H2]. split; [congruence|].
    intros i n Hn. destruct (H1 i n Hn) as (n2 & Hn2 & Hle).
    destruct (H2 i n2 Hn2) as (n3 & Hn3 & Hle'). exists n3. split; [done|]. by etrans.
Qed.

Lemma scopes_le_alter R `{!PreOrder R} f i tbl :
  (∀ n, tbl !! i = Some n → scope_le R n (f n)) → scopes_le R tbl (alter f i tbl).
Proof.
  intros Hf. split; [apply tlen_alter|]. intros j n Hn. rewrite table_alter, Hn.
  case_decide; [subst|by exists n]. exists (f n). split; [done|]. by apply Hf.
Qed.

Lemma scopes_le_for_nodes R `{!PreOrder R} f nodes tbl :
  (∀ n, scope_le R n (f n)) → scopes_le R tbl (for_nodes f nodes tbl).
Proof.
  intros Hf. unfold for_nodes. revert tbl. induction nodes as [|i nodes IH]; intros tbl; [done|].
  cbn. etrans; [|apply IH]. by apply scopes_le_alter.
Qed.

Lemma state_le_live s s' : state_le s s' → s ≠ Empty → s' ≠ Empty.
Proof. intros [->|[_ H]] Hs; [done|]. intros ->. by destruct s. Qed.

Lemma state_le_dead s s' : state_le s s' → s' ≠ Empty → s ≠ Empty.
Proof. by intros [->|[H _]]. Qed.

Lemma scopes_le_back R tbl tbl' i n' :
  scopes_le R tbl tbl' → tbl' !! i = Some n' → ∃ n, tbl !! i = Some n ∧ scope_le R n n'.
Proof.
  intros [Hlen Hle] Hn'. assert (is_Some (tbl !! i)) as [n Hn].
  { apply table_lookup_is_Some. rewrite <-Hlen. by eapply table_lookup_lt. }
  exists n. destruct (Hle i n Hn) as (x & Hx & Hnx). by replace n' with x by congruence.
Qed.

Lemma scopes_le_wf tbl tbl' :
  scopes_le state_le tbl tbl' → scopes_wf tbl → scopes_wf tbl'.
Proof.
  intros [Hlen Hle] Hwf.
  assert (Hold : ∀ i n', tbl' !! i = Some n' → sc_state n' ≠ Empty →
    ∃ n, tbl !! i = Some n ∧ sc_state n ≠ Empty ∧ scope_le state_le n n').
  { intros i n' Hn' Hs. destruct (scopes_le_back _ _ _ _ _ (conj Hlen Hle) Hn') as (n & Hn & Hnn).
    exists n. split_and!; [done| |done]. by eapply state_le_dead; [apply Hnn|]. }
  split.
  - rewrite Hlen. apply Hwf.
  - intros i n' Hn' Hs. destruct (Hold i n' Hn' Hs) as (n & Hn & Hns & Hnn).
    rewrite (le_depth Hnn). by eapply scopes_depth.
  - intros i n' p Hn' Hs Hp. destruct (Hold i n' Hn' Hs) as (n & Hn & Hns & Hnn).
    unfold parent in Hp. rewrite (le_parent Hnn) in Hp.
    destruct (scopes_parent tbl Hwf i n p Hn Hns Hp) as (pn & Hpn & Hps & Hd).
    destruct (Hle p pn Hpn) as (pn' & Hpn' & Hpp). exists pn'. split_and!; [done| |].
    + by eapply state_le_live; [apply Hpp|].
    + by rewrite (le_depth Hnn), (le_depth Hpp).
Qed.

(** A write to fields other than the accounts, the place and the state: every
    obligation of [scope_le] is a field unchanged or a bounded counter. *)
Lemma counters_ok_keep n n' :
  (∀ r, account r n' = account r n) → sc_limits n' = sc_limits n →
  (counters_ok n → (∀ b, committed b n' <= U64_MAX) ∧ sc_running n' <= U32_MAX ∧
     sc_cpu_window_ns n' <= U64_MAX) →
  counters_ok n → counters_ok n'.
Proof.
  intros Ha Hl Hc Hok. pose proof (Hc Hok) as (Hcm & Hr & Hw).
  destruct Hok as [H1 H2 _ H4 _ _ H6].
  split; [intros r|intros r|done|intros b|done|done|by rewrite Hl].
  - by rewrite Ha.
  - generalize (H2 r). unfold limit_of. by rewrite Hl.
  - generalize (H4 b). unfold budget. by rewrite Hl.
Qed.

Lemma scope_le_keep n n' :
  sc_parent n' = sc_parent n → sc_depth n' = sc_depth n → sc_limits n' = sc_limits n →
  sc_state n' = sc_state n → (∀ r, account r n' = account r n) →
  (counters_ok n → (∀ b, committed b n' <= U64_MAX) ∧ sc_running n' <= U32_MAX ∧
     sc_cpu_window_ns n' <= U64_MAX) →
  scope_le eq n n'.
Proof.
  intros Hp Hd Hl Hs Ha Hc. split; try done.
  - by apply counters_ok_keep.
  - intros Hw r. generalize (Hw r). unfold limit_of. by rewrite Ha, Hl.
Qed.

Ltac keeps_scope :=
  intros; apply scope_le_keep;
  [done|done|done|done|by intros []
  |let Hok := fresh in
   intros Hok; pose proof (ok_committed _ Hok true); pose proof (ok_committed _ Hok false);
   pose proof (ok_running _ Hok); pose proof (ok_window _ Hok); cbn in *;
   split_and!; [intros []| |];
   cbn in *; first [assumption|solve [auto with bounds]|lia]].

Lemma set_committed_le b f n :
  (committed b n <= U64_MAX → f (committed b n) <= U64_MAX) → scope_le eq n (set_committed b f n).
Proof. intros Hf. destruct b; cbn in Hf; keeps_scope. Qed.

Lemma charge_cpu_le scope ns recovery t :
  scopes_le eq (scopes t) (scopes (charge_cpu scope ns recovery t)).
Proof.
  unfold charge_cpu. case_decide; [done|]. apply (scopes_le_for_nodes eq). destruct recovery; keeps_scope.
Qed.

Lemma commit_excess_le scope ns recovery t :
  scopes_le eq (scopes t) (scopes (commit_excess scope ns recovery t)).
Proof.
  unfold commit_excess. case_decide; [done|]. apply (scopes_le_for_nodes eq).
  intros n. apply set_committed_le. auto with bounds.
Qed.

Lemma return_cpu_le scope amount recovery window t :
  scopes_le eq (scopes t) (scopes (return_cpu scope amount recovery window t)).
Proof.
  unfold return_cpu. case_decide; [done|]. apply (scopes_le_for_nodes eq). intros n.
  case_decide; [done|]. apply set_committed_le. auto with bounds.
Qed.

Lemma drop_running_le scope t : scopes_le eq (scopes t) (scopes (drop_running scope t)).
Proof.
  apply (scopes_le_for_nodes eq). intros n. cbv beta zeta. case_decide; keeps_scope.
Qed.

Lemma take_parallelism_le scope t : scopes_le eq (scopes t) (scopes (take_parallelism scope t)).
Proof. apply (scopes_le_for_nodes eq). keeps_scope. Qed.
Lemma drop_parallelism_le scope t : scopes_le eq (scopes t) (scopes (drop_parallelism scope t)).
Proof. apply (scopes_le_for_nodes eq). keeps_scope. Qed.

Lemma note_progress_le scope now t t' :
  note_progress scope now t = Some t' → scopes_le eq (scopes t) (scopes t').
Proof.
  unfold note_progress. destruct (scopes t !! scope); [|done]. intros [= <-].
  apply (scopes_le_alter eq). keeps_scope.
Qed.

Lemma set_account_le r f n :
  (account r n <= U64_MAX → f (account r n) <= U64_MAX) →
  (account r n <= limit_of r n → f (account r n) <= limit_of r n) →
  scope_le eq n (set_account r f n).
Proof.
  intros Hb Hw. assert (Ha : ∀ r', account r' (set_account r f n) =
    if decide (r' = r) then f (account r n) else account r' n) by by intros []; destruct r.
  assert (Hl : sc_limits (set_account r f n) = sc_limits n) by by destruct r.
  split; try by destruct r.
  - intros [H1 H2 H3 H4 H5 H6 H7].
    split; [intros r'|intros r'|intros b|intros b| | |]; try by destruct r.
    + rewrite Ha. case_decide; auto.
    + unfold limit_of. rewrite Hl. apply (H2 r').
    + destruct r; apply (H3 b).
    + unfold budget. rewrite Hl. apply (H4 b).
  - intros Hw' r'. rewrite Ha. unfold limit_of. rewrite Hl. case_decide; [subst|apply (Hw' r')].
    apply Hw, Hw'.
Qed.

Lemma release_le scope r amount t : scopes_le eq (scopes t) (scopes (release scope r amount t)).
Proof.
  apply (scopes_le_for_nodes eq). intros n. apply set_account_le; [auto with bounds|].
  unfold saturating_sub. lia.
Qed.

Lemma scopes_le_pointwise R `{!PreOrder R} f nodes tbl :
  NoDup nodes → (∀ i n, i ∈ nodes → tbl !! i = Some n → scope_le R n (f n)) →
  scopes_le R tbl (for_nodes f nodes tbl).
Proof.
  intros Hnd Hf. split; [apply tlen_for_nodes|]. intros i n Hn.
  rewrite for_nodes_lookup, Hn by done. case_decide; [|by exists n].
  exists (f n). split; [done|]. by eapply Hf.
Qed.

Lemma reserve_le scope r amount t :
  accounts_wf t → live_scope (scopes t) scope → amount <= U64_MAX →
  scopes_le eq (scopes t) (scopes (reserve scope r amount t).2).
Proof.
  intros Hwf Hlive Ha. rewrite reserve_spec by done.
  destruct (forallb _ _) eqn:Hall; [|done].
  apply (scopes_le_pointwise eq); [by apply chain_NoDup; [apply Hwf|]|].
  intros i n Hi Hn. rewrite forallb_forall in Hall. specialize (Hall n).
  rewrite <-list_elem_of_In, chain_scopes_elem in Hall.
  apply andb_true_iff in Hall as [_ Hle%bool_decide_eq_true]; [|by exists i].
  pose proof (ok_limit n (acc_counters t Hwf i n Hn) r). by apply set_account_le; lia.
Qed.

Lemma charge_chain_le R `{!PreOrder R} charge nodes tbl :
  (∀ n, scope_le R n (charge n).2) →
  scopes_le R tbl (charge_chain charge nodes tbl).2.
Proof.
  intros Hc. revert tbl. induction nodes as [|i nodes IH]; intros tbl; [done|].
  cbn -[lookup insert]. destruct (tbl !! i) as [n|] eqn:Hn; [|done].
  specialize (Hc n). destruct (charge n) as [refused n'].
  assert (scopes_le R tbl (<[i := n']> tbl)) as Hi.
  { rewrite <-(table_alter_as_insert (λ _, n') tbl i n Hn). apply (scopes_le_alter R).
    intros m Hm. by replace m with n by congruence. }
  destruct refused; [done|]. specialize (IH (<[i := n']> tbl)).
  destruct (charge_chain charge nodes _) as [[done refused] tbl']. by etrans.
Qed.

Lemma bounded_add_bound counter amount limit :
  counter <= U64_MAX → (bounded_add counter amount limit).2 <= U64_MAX.
Proof. unfold bounded_add. intros. case_decide; cbn; auto with bounds. Qed.

Lemma reserve_cpu_level_le recovery amount n :
  scope_le eq n (reserve_cpu_level recovery amount n).2.
Proof.
  unfold reserve_cpu_level.
  pose proof (bounded_add_bound (committed recovery n) amount (budget recovery n)) as Hb.
  destruct (bounded_add _ _ _) as [r c]. by apply set_committed_le.
Qed.

Lemma note_peaks_le scope peak nodes tbl : scopes_le eq tbl (note_peaks scope peak nodes tbl).
Proof.
  unfold note_peaks. revert tbl. induction nodes as [|i nodes IH]; intros tbl; [done|].
  cbn. etrans; [|apply IH]. apply (scopes_le_alter eq). intros n _. cbv beta zeta.
  case_decide; [|done]. destruct (decide _); keeps_scope.
Qed.

Lemma reserve_cpu_le scope amount recovery window t ok t' :
  reserve_cpu scope amount recovery window t = Some (ok, t') → scopes_le eq (scopes t) (scopes t').
Proof.
  unfold reserve_cpu. destruct (N.odd (roll_seq t)); [done|].
  destruct (scopes t !! scope) as [own|]; cbn -[charge_chain chain_of for_nodes]; [|done].
  case_decide; [by intros [= _ <-]|].
  pose proof (charge_chain_le eq (reserve_cpu_level recovery amount) (chain_of (scopes t) scope)
    (scopes t) (reserve_cpu_level_le recovery amount)) as Hc.
  destruct (charge_chain _ _ _) as [[done refused] tbl]. cbn -[for_nodes] in Hc.
  destruct refused; [|destruct recovery]; intros [= _ <-]; cbn -[for_nodes]; etrans; try exact Hc.
  - apply (scopes_le_for_nodes eq). intros n. apply set_committed_le. auto with bounds.
  - done.
  - apply note_peaks_le.
Qed.

Lemma take_running_level_le n : scope_le eq n (take_running_level n).2.
Proof.
  unfold take_running_level. case_decide; [keeps_scope|]. cbn [snd]. cbv zeta.
  case_decide; keeps_scope.
Qed.

Lemma take_running_le scope t : scopes_le eq (scopes t) (scopes (take_running scope t).2).
Proof.
  unfold take_running.
  pose proof (charge_chain_le eq take_running_level (chain_of (scopes t) scope) (scopes t)
    take_running_level_le) as Hc.
  destruct (charge_chain _ _ _) as [[done refused] tbl]. cbn -[for_nodes] in Hc.
  destruct refused; cbn -[for_nodes]; [|done]. etrans; [exact Hc|].
  apply (scopes_le_for_nodes eq). keeps_scope.
Qed.

Lemma foldl_le R `{!PreOrder R} {A} (f : Scopes → A → Scopes) l t :
  (∀ t x, scopes_le R (scopes t) (scopes (f t x))) →
  scopes_le R (scopes t) (scopes (foldl f t l)).
Proof.
  intros Hf. revert t. induction l as [|x l IH]; intros t; [done|]. cbn.
  etrans; [apply Hf|apply IH].
Qed.

Lemma flush_one_le scope t cpu : scopes_le eq (scopes t) (scopes (flush_one scope t cpu)).
Proof.
  unfold flush_one. destruct (credit_at t cpu scope) as [c|]; [|done].
  apply (charge_cpu_le _ _ _ (on_credit cpu scope _ t)).
Qed.
Lemma flush_pending_charges_le scope t :
  scopes_le eq (scopes t) (scopes (flush_pending_charges scope t)).
Proof. apply (foldl_le eq). apply flush_one_le. Qed.

Lemma release_credit_le cpu scope t : scopes_le eq (scopes t) (scopes (release_credit cpu scope t)).
Proof.
  unfold release_credit. destruct (credit_at t cpu scope) as [c|]; [|done].
  etrans; [|apply charge_cpu_le]. cbn. case_decide; [|done].
  apply (return_cpu_le _ _ _ _ (on_credit cpu scope _ t)).
Qed.
Lemma release_credits_le cpu t : scopes_le eq (scopes t) (scopes (release_credits cpu t)).
Proof.
  apply (foldl_le eq). intros t' x. destruct (credit_at t' cpu x); [|done].
  case_decide; [apply release_credit_le|done].
Qed.

Lemma roll_scope_le window n : scope_le eq n (roll_scope window n).
Proof.
  apply scope_le_keep; unfold roll_scope; cbv zeta;
    [by repeat case_match..|intros []; by repeat case_match|].
  intros Hok. pose proof (ok_window n Hok). unfold saturating_sub.
  split_and!; [intros []|..]; repeat case_match; cbn; try apply Hok; lia.
Qed.

Lemma roll_window_le now t : scopes_le eq (scopes t) (scopes (roll_window now t)).
Proof.
  unfold roll_window. destruct (existsb _ _); [|done]. cbn [negb].
  etrans; [|apply (foldl_le eq)].
  - apply (foldl_le eq). intros t' i. unfold flush_index.
    destruct (scopes t' !! i); [|done]. case_decide; [done|apply flush_pending_charges_le].
  - intros t' i. unfold roll_index. destruct (scopes t' !! i); [|done].
    destruct (stale _ _); [|done]. apply (scopes_le_alter eq). intros n _. apply roll_scope_le.
Qed.

Lemma scopes_le_forward tbl tbl' : scopes_le eq tbl tbl' → scopes_le state_le tbl tbl'.
Proof.
  intros [Hlen H]. split; [done|]. intros i n Hn. destruct (H i n Hn) as (n' & Hn' & []).
  exists n'. split; [done|]. split; try done. by left.
Qed.

Lemma scopes_le_forward_scope n n' : scope_le eq n n' → scope_le state_le n n'.
Proof. intros []. split; try done. by left. Qed.

Lemma renew_credit_le cpu scope window t :
  scopes_le eq (scopes t) (scopes (renew_credit cpu scope window t)).
Proof.
  unfold renew_credit. destruct (credit_at t cpu scope) as [c|]; [|done].
  case_decide; [|done]. apply (charge_cpu_le _ _ _ (on_credit cpu scope _ t)).
Qed.

Lemma refill_credit_le cpu scope window left have t have' t' :
  refill_credit cpu scope window left have t = Some (have', t') →
  scopes_le eq (scopes t) (scopes t').
Proof.
  unfold refill_credit. case_decide; [by intros [= _ <-]|]. case_decide; [by intros [= _ <-]|].
  destruct (reserve_cpu _ _ _ _ _) as [[ok t1]|] eqn:Hr; [|done].
  apply reserve_cpu_le in Hr. destruct ok; by intros [= _ <-].
Qed.

Lemma take_grant_le cpu scope recovery now t g t' :
  take_grant cpu scope recovery now t = Some (g, t') → scopes_le eq (scopes t) (scopes t').
Proof.
  unfold take_grant. cbv zeta. destruct recovery.
  - case_decide; [by intros [= _ <-]|].
    destruct (reserve_cpu _ _ _ _ _) as [[ok t1]|] eqn:Hr; [|done].
    apply reserve_cpu_le in Hr. destruct ok; by intros [= _ <-].
  - destruct (credit_at t cpu scope); [|done]. cbn -[renew_credit credit_at].
    destruct (credit_at (renew_credit _ _ _ _) _ _) as [c'|]; [|done]. cbn -[renew_credit].
    destruct (refill_credit _ _ _ _ _ _) as [[have t1]|] eqn:Hr; [|done].
    apply refill_credit_le in Hr. cbn -[renew_credit].
    intros Hres. etrans; [apply (renew_credit_le cpu scope (now / CPU_WINDOW_NS))|].
    etrans; [exact Hr|]. case_decide; by injection Hres as _ <-.
Qed.

Lemma reserve_for_le cpu scope recovery now t d t' :
  reserve_for cpu scope recovery now t = Some (d, t') → scopes_le eq (scopes t) (scopes t').
Proof.
  unfold reserve_for. destruct (scopes t !! scope); [|done]. cbn -[take_running take_grant].
  pose proof (take_running_le scope t) as Hr.
  destruct (take_running scope t) as [[] t1]; cbn -[take_grant on_scope] in *.
  - destruct (take_grant _ _ _ _ _) as [[g t2]|] eqn:Hg; [|done]. apply take_grant_le in Hg.
    cbn -[on_scope]. case_decide; intros [= _ <-]; (etrans; [exact Hr|]);
      (etrans; [exact Hg|]).
    + etrans; [apply (drop_running_le scope)|]. apply (scopes_le_alter eq). keeps_scope.
    + apply (scopes_le_alter eq). keeps_scope.
  - intros [= _ <-]. etrans; [exact Hr|]. apply (scopes_le_alter eq). keeps_scope.
Qed.

Lemma settle_le cpu d t : scopes_le eq (scopes t) (scopes (settle cpu d t)).
Proof.
  unfold settle. etrans; [apply (drop_running_le (d_scope d))|]. cbv zeta.
  case_decide; [apply commit_excess_le|]. case_decide; [done|].
  destruct (d_recovery d); [apply return_cpu_le|].
  destruct (credit_at _ _ _); [|done]. case_decide; [done|apply return_cpu_le].
Qed.

(** *** States and the count of fenced scopes *)

Lemma set_state_scopes i s t :
  scopes (set_state i s t) = alter (λ n, n <| sc_state := s |>) i (scopes t).
Proof.
  unfold set_state. destruct (scopes t !! i) as [n|] eqn:Hn.
  - case_decide as Hs.
    + symmetry. rewrite (table_alter_as_insert _ _ _ n Hn). apply table_insert_id.
      rewrite Hn. destruct n; cbn in *. by subst.
    + by repeat case_decide.
  - apply table_eq. intros j. rewrite table_alter. case_decide; [subst|done]. by rewrite Hn.
Qed.

(** [FENCED] counts the fenced scopes. *)
Definition states (t : Scopes) : list State := sc_state <$> scopes t.
Definition fenced_count_ok (t : Scopes) : Prop :=
  tlen (scopes t) <= U32_MAX ∧ fenced t = tlen (filter (eq Fenced) (states t)).

Lemma tlen_filter {A} (P : A → Prop) `{!∀ x, Decision (P x)} l : tlen (filter P l) <= tlen l.
Proof. unfold tlen. pose proof (length_filter P l). lia. Qed.

Lemma table_fmap_lookup {A B} (f : A → B) (l : list A) (i : N) : (f <$> l) !! i = f <$> l !! i.
Proof. apply list_lookup_fmap. Qed.
Lemma table_fmap_insert {A B} (f : A → B) (l : list A) (i : N) x :
  f <$> <[i := x]> l = <[i := f x]> (f <$> l).
Proof. apply list_fmap_insert. Qed.
Lemma table_alter_none {A} (f : A → A) (l : list A) (i : N) : l !! i = None → alter f i l = l.
Proof.
  intros Hn. apply table_eq. intros j. rewrite table_alter. case_decide; [subst|done].
  by rewrite Hn.
Qed.

Lemma set_state_fenced i s t : fenced_count_ok t → fenced_count_ok (set_state i s t).
Proof.
  intros [Hlen Hf]. split; [by rewrite set_state_scopes, tlen_alter|].
  unfold states. rewrite set_state_scopes. unfold set_state.
  destruct (scopes t !! i) as [n|] eqn:Hn; [|by rewrite table_alter_none].
  rewrite (table_alter_as_insert _ _ _ n Hn), table_fmap_insert.
  assert (Hst : (sc_state <$> scopes t) !! i = Some (sc_state n)) by by rewrite table_fmap_lookup, Hn.
  pose proof (count_insert (eq Fenced) _ i s (sc_state n) Hst) as Hc.
  pose proof (tlen_filter (eq Fenced) (<[i := s]> (sc_state <$> scopes t))) as Hb.
  pose proof (tlen_filter (eq Fenced) (sc_state <$> scopes t)) as Hb'.
  rewrite tlen_insert in Hb. unfold states in Hf. rewrite <-Hf in Hc, Hb'.
  assert (tlen (sc_state <$> scopes t) = tlen (scopes t)) as Hl.
  { unfold tlen. by rewrite length_fmap. }
  rewrite Hl in Hb, Hb'. unfold U32_MAX in *. cbn [sc_state set_field rebuild Scope_rebuild].
  cbv zeta. destruct (decide (sc_state n = s)) as [<-|Hs].
  { destruct (decide (Fenced = sc_state n)); lia. }
  destruct (decide (sc_state n = Fenced)) as [Hw|Hw], (decide (s = Fenced)) as [Hs'|Hs'];
    cbn [fenced set_field rebuild Scopes_rebuild on_scope]; try congruence.
  - rewrite decide_True, decide_False in Hc by congruence.
    rewrite wrapping_sub_small; lia.
  - rewrite decide_False, decide_True in Hc by congruence.
    rewrite wrapping_add_small; lia.
  - rewrite !decide_False in Hc by congruence. lia.
Qed.

(** Tables with the same states at every index have the same count. *)
Lemma fenced_count_keep t t' :
  scopes_le eq (scopes t) (scopes t') → fenced t' = fenced t →
  fenced_count_ok t → fenced_count_ok t'.
Proof.
  intros [Hlen Hle] Hfe [Hl Hf]. split; [by rewrite Hlen|]. rewrite Hfe, Hf.
  do 2 f_equal. apply table_eq. intros i. unfold states. rewrite !table_fmap_lookup.
  destruct (scopes t !! i) as [n|] eqn:Hn.
  - destruct (Hle i n Hn) as (n' & -> & Hnn). cbn. by rewrite (le_state Hnn).
  - destruct (scopes t' !! i) as [n'|] eqn:Hn'; [|done].
    destruct (scopes_le_back _ _ _ _ _ (conj Hlen Hle) Hn') as (n & ? & _). congruence.
Qed.

Lemma on_scope_fenced i f t :
  (∀ n, sc_state (f n) = sc_state n) → fenced_count_ok t → fenced_count_ok (on_scope i f t).
Proof.
  intros Hst [Hlen Hf]. split; cbn; [by rewrite tlen_alter|]. rewrite Hf. do 2 f_equal.
  apply table_eq. intros j. unfold states. cbn. rewrite !table_fmap_lookup, table_alter.
  case_decide; [|done]. destruct (scopes t !! j); [|done]. cbn. by rewrite Hst.
Qed.

(** *** The barrier *)

(** What the barrier writes over an open scope. *)
Definition barrier (n : Scope) : Scope :=
  n <| sc_state := Fenced |> <| sc_drain_token ::= λ c, wrapping_add 64 c 1 |>.
(** The scopes a barrier on [root] closes. *)
Definition closes (t : Scopes) (root i : ScopeId) : bool :=
  match scopes t !! i with
  | Some n => bool_decide (sc_state n = Open) && is_within t root i
  | None => false
  end.

Lemma is_within_ext t t' root i :
  (∀ j, parent <$> scopes t !! j = parent <$> scopes t' !! j) →
  is_within t root i = is_within t' root i.
Proof. intros H. unfold is_within. by rewrite (chain_ext _ _ i H). Qed.

Lemma fence_index_spec root c t j :
  fence_index root (c, t) j =
    if closes t root j
    then (c + 1, on_scope j (λ n, n <| sc_drain_token ::= λ c, wrapping_add 64 c 1 |>)
                   (set_state j Fenced t))
    else (c, t).
Proof.
  unfold fence_index, closes. destruct (scopes t !! j) as [n|]; [|done].
  destruct (bool_decide (sc_state n = Open)); [|done]. by destruct (is_within t root j).
Qed.

Lemma fence_foldl root l c t :
  NoDup l →
  let '(c', t') := foldl (fence_index root) (c, t) l in
  (∀ i, scopes t' !! i =
     (if bool_decide (i ∈ l) && closes t root i then barrier else id) <$> scopes t !! i) ∧
  c' = c + tlen (filter (closes t root) l) ∧
  (fenced_count_ok t → fenced_count_ok t') ∧ credits t' = credits t ∧ roll_seq t' = roll_seq t.
Proof.
  revert c t. induction l as [|j l IH]; intros c t Hnd.
  { split_and!; [|cbn; by rewrite N.add_0_r|done..]. intros i. by destruct (scopes t !! i). }
  apply NoDup_cons in Hnd as [Hj Hnd]. cbn [foldl]. rewrite fence_index_spec, filter_cons.
  destruct (closes t root j) eqn:Hcl.
  2:{ specialize (IH c t Hnd). destruct (foldl _ _ l) as [c' t']. destruct IH as (Hs & Hc & Hrest).
      split_and!; try apply Hrest; [|by rewrite decide_False by (intros [])].
      intros i. rewrite Hs. destruct (decide (i = j)) as [->|Hne].
      - by rewrite Hcl, !andb_false_r.
      - by rewrite elem_of_cons_ne. }
  set (t1 := on_scope j _ (set_state j Fenced t)).
  assert (Ht1 : scopes t1 = alter barrier j (scopes t)).
  { unfold t1. cbn -[alter]. rewrite set_state_scopes. apply table_eq. intros i.
    rewrite !table_alter. case_decide; [subst|done]. by destruct (scopes t !! i). }
  assert (Hsame : ∀ i, i ≠ j → closes t1 root i = closes t root i).
  { intros i Hi. unfold closes. rewrite Ht1, table_alter_ne by done.
    destruct (scopes t !! i); [|done]. f_equal. symmetry. apply is_within_ext. intros k.
    rewrite Ht1, table_alter. case_decide; [subst|done]. by destruct (scopes t !! k). }
  specialize (IH (c + 1) t1 Hnd). destruct (foldl _ _ l) as [c' t'].
  destruct IH as (Hs & Hc & Hfe & Hcr & Hrs). split_and!.
  - intros i. rewrite Hs, Ht1, table_alter. destruct (decide (j = i)) as [<-|Hne].
    + rewrite (bool_decide_false (j ∈ l)) by done. rewrite bool_decide_true by left.
      rewrite Hcl. by destruct (scopes t !! j).
    + by rewrite Hsame, elem_of_cons_ne by done.
  - rewrite decide_True by done. rewrite Hc.
    assert (filter (closes t1 root) l = filter (closes t root) l) as ->; [|unfold tlen; cbn; lia].
    apply filter_agree. intros i Hi. rewrite Hsame; [done|]. by intros ->.
  - intros Hok. apply Hfe. apply on_scope_fenced; [done|]. by apply set_state_fenced.
  - rewrite Hcr. unfold t1, set_state. destruct (scopes t !! j); [|done]. by repeat case_decide.
  - rewrite Hrs. unfold t1, set_state. destruct (scopes t !! j); [|done]. by repeat case_decide.
Qed.

Lemma fence_le root t : scopes_le state_le (scopes t) (scopes (fence root t).2).
Proof.
  pose proof (fence_foldl root (indices (scopes t)) 0 t (NoDup_indices _)) as H.
  unfold fence. destruct (foldl _ _ _) as [c t']. destruct H as (Hs & _).
  split.
  - assert (∀ i, (i < tlen (scopes t') ↔ i < tlen (scopes t))) as Hi.
    { intros i. rewrite !table_lookup_is_Some, Hs. apply fmap_is_Some. }
    destruct (N.lt_trichotomy (tlen (scopes t')) (tlen (scopes t))) as [Hlt|[Heq|Hlt]]; [|done|].
    + apply Hi in Hlt. lia.
    + apply Hi in Hlt. lia.
  - intros i n Hn. cbn [snd]. rewrite Hs, Hn. cbn [fmap option_fmap option_map].
    destruct (_ && closes t root i) eqn:Hcl; [|by exists n].
    exists (barrier n). split; [done|].
    apply andb_true_iff in Hcl as [_ Hcl]. unfold closes in Hcl. rewrite Hn in Hcl.
    apply andb_true_iff in Hcl as [Hst%bool_decide_eq_true _].
    split; try done.
    + rewrite Hst. by right.
    + by apply counters_ok_keep; [intros []| |intros []].
Qed.

(** The barrier closes exactly the open scopes of the perimeter. After
    [fence root], a scope is fenced with its drain token moved if it was open
    and [root] or below it, and is untouched otherwise; the count returned is
    the number of scopes closed; the processor credits stay; and if [FENCED]
    counted the fenced scopes before, it counts them after. *)
Theorem fence_exact root t :
  let '(changed, t') := fence root t in
  (∀ i n, scopes t !! i = Some n →
     scopes t' !! i = Some (if bool_decide (sc_state n = Open) && is_within t root i
                            then barrier n else n)) ∧
  changed = tlen (filter (closes t root) (indices (scopes t))) ∧
  credits t' = credits t ∧
  (fenced_count_ok t → fenced_count_ok t').
Proof.
  pose proof (fence_foldl root (indices (scopes t)) 0 t (NoDup_indices _)) as H.
  unfold fence. destruct (foldl _ _ _) as [c t']. destruct H as (Hs & Hc & Hfe & Hcr & _).
  split_and!; try done.
  intros i n Hn. rewrite Hs, Hn. rewrite bool_decide_true.
  2:{ apply indices_lookup. by eapply table_lookup_lt. }
  unfold closes. rewrite Hn. cbn [andb]. by destruct (_ && _).
Qed.

(** *** Draining *)

(** What promotion writes over a drained scope. *)
Definition drained (now : N) (n : Scope) : Scope :=
  n <| sc_state := Quiescent |> <| sc_last_progress_ns := now |>
    <| sc_drain_token ::= λ c, wrapping_add 64 c 1 |>.

(** What [pending] reads of a scope besides its accounts. *)
Definition obligations_of (n : Scope) :=
  (parent n, bool_decide (sc_state n = Empty),
   (sc_threads n, sc_invocations_pending n, sc_effects_pending n, sc_maps_pending n,
    sc_undelivered_cancelled n), (sc_memory_pages n, sc_metadata n)).

Lemma pending_from_ext t t' root index total :
  (∀ i, obligations_of <$> scopes t !! i = obligations_of <$> scopes t' !! i) →
  pending_from t root index total = pending_from t' root index total.
Proof.
  intros Heq. revert total. induction index as [|i index IH]; intros total; [done|].
  cbn -[lookup is_within]. assert (Hw : is_within t root i = is_within t' root i).
  { apply is_within_ext. intros j. specialize (Heq j).
    destruct (scopes t !! j), (scopes t' !! j); try done. cbn in Heq |- *.
    unfold obligations_of in Heq. congruence. }
  rewrite <-Hw. pose proof (Heq i) as Hi.
  destruct (scopes t !! i) as [n|], (scopes t' !! i) as [n'|]; try done.
  cbn in Hi. unfold obligations_of in Hi. injection Hi as _ He Ht Hv Hf Hm Hu _ _. cbn. rewrite <-He.
  destruct (_ || _); [apply IH|]. rewrite <-Ht, <-Hv, <-Hf, <-Hm, <-Hu.
  repeat (destruct (checked_add _ _ _); [cbn|done]). apply IH.
Qed.

Lemma obligations_len t t' :
  (∀ i, obligations_of <$> scopes t !! i = obligations_of <$> scopes t' !! i) →
  indices (scopes t) = indices (scopes t').
Proof.
  intros Heq. assert (obligations_of <$> scopes t = obligations_of <$> scopes t') as Hl.
  { apply table_eq. intros i. by rewrite !table_fmap_lookup. }
  apply (f_equal length) in Hl. rewrite !length_fmap in Hl. unfold indices. by rewrite Hl.
Qed.

Lemma pending_ext t t' root :
  (∀ i, obligations_of <$> scopes t !! i = obligations_of <$> scopes t' !! i) →
  pending t root = pending t' root.
Proof.
  intros Heq. unfold pending. rewrite (pending_from_ext t t') by done.
  rewrite (obligations_len t t') by done.
  destruct (pending_from _ _ _ _) as [total|]; [|done]. cbn -[lookup].
  specialize (Heq root). destruct (scopes t !! root), (scopes t' !! root); try done.
  cbn in Heq |- *. unfold obligations_of in Heq. injection Heq as _ _ _ _ _ _ _ Hp Hm. by rewrite Hp, Hm.
Qed.

(** Nothing of a scope is left to observe. *)
Definition idle (n : Scope) : Prop :=
  sc_threads n = 0 ∧ sc_invocations_pending n = 0 ∧ sc_effects_pending n = 0 ∧
  sc_maps_pending n = 0.

Lemma settled_iff p :
  settled p = true ↔ p_threads p = 0 ∧ p_invocations p = 0 ∧ p_effects p = 0 ∧ p_maps p = 0.
Proof. unfold settled. rewrite !andb_true_iff, !bool_decide_eq_true. tauto. Qed.

Lemma checked_add_Some w x y z : checked_add w x y = Some z ↔ z = x + y ∧ x + y < 2 ^ w.
Proof.
  unfold checked_add. case_decide; split; [by intros [= <-]|by intros [-> _]|done|].
  intros [_ ?]. lia.
Qed.

(** A drain total is zero when, and only when, every scope inside is idle. *)
Lemma pending_from_settled t root index total p :
  pending_from t root index total = Some p →
  (settled p = true ↔ settled total = true ∧
     ∀ i n, i ∈ index → scopes t !! i = Some n → sc_state n ≠ Empty →
       is_within t root i = true → idle n).
Proof.
  revert total. induction index as [|j index IH]; intros total; cbn -[lookup is_within settled].
  { intros [= <-]. split; [|tauto]. intros ?. split; [done|]. by intros i n []%not_elem_of_nil. }
  destruct (scopes t !! j) as [m|] eqn:Hm; [|done]. cbn -[lookup is_within settled].
  destruct (bool_decide_reflect (sc_state m = Empty)) as [He|He]; cbn [orb].
  { intros Hp%IH. rewrite Hp. split; intros [H1 H2]; (split; [done|]); intros i n Hi Hn Hs Hw;
      [apply elem_of_cons in Hi as [->|Hi]; [congruence|eauto]|].
    eapply H2; [by right|done..]. }
  destruct (is_within t root j) eqn:Hwj; cbn [negb].
  2:{ intros Hp%IH. rewrite Hp. split; intros [H1 H2]; (split; [done|]); intros i n Hi Hn Hs Hw;
      [apply elem_of_cons in Hi as [->|Hi]; [congruence|eauto]|].
    eapply H2; [by right|done..]. }
  intros Hp. do 5 (apply bind_Some in Hp as (? & [-> _]%checked_add_Some & Hp)).
  apply IH in Hp. rewrite Hp, !settled_iff. cbn [p_threads p_invocations p_effects p_maps].
  split; intros [H1 H2].
  - split; [lia|]. intros i n [->|Hi]%elem_of_cons Hn Hs Hw; [|eauto].
    assert (n = m) as -> by congruence. unfold idle. lia.
  - assert (idle m) as (?&?&?&?) by (eapply (H2 j); [left|done..]).
    split; [lia|]. intros i n Hi. apply H2. by right.
Qed.

(** A fenced scope with nothing inside its perimeter left to observe. *)
Definition quiet (t : Scopes) (i : ScopeId) (n : Scope) : bool :=
  bool_decide (sc_state n = Fenced) &&
  match pending t i with Some p => settled p | None => false end.

Lemma quiesce_from_spec now l c t :
  NoDup l → (∀ i n, i ∈ l → scopes t !! i = Some n → sc_state n = Fenced → is_Some (pending t i)) →
  (∀ i, i ∈ l → is_Some (scopes t !! i)) →
  ∃ c' t', quiesce_from now l (c, t) = Some (c', t') ∧
  (∀ i, scopes t' !! i =
     (λ n, if bool_decide (i ∈ l) && quiet t i n then drained now n else n) <$> scopes t !! i) ∧
  (fenced_count_ok t → fenced_count_ok t') ∧ credits t' = credits t ∧ roll_seq t' = roll_seq t.
Proof.
  revert c t. induction l as [|j l IH]; intros c t Hnd Hp Hin.
  { exists c, t. split_and!; [done| |done..]. intros i. by destruct (scopes t !! i). }
  apply NoDup_cons in Hnd as [Hj Hnd]. destruct (Hin j) as [m Hm]; [left|].
  cbn [quiesce_from]. unfold quiesce_index. cbn beta iota. rewrite Hm. cbn -[lookup pending is_within].
  assert (Hskip : quiet t j m = false → ∃ c' t', quiesce_from now l (c, t) = Some (c', t') ∧
    (∀ i, scopes t' !! i =
      (λ n, if bool_decide (i ∈ j :: l) && quiet t i n then drained now n else n) <$> scopes t !! i) ∧
    (fenced_count_ok t → fenced_count_ok t') ∧ credits t' = credits t ∧ roll_seq t' = roll_seq t).
  { intros Hq. destruct (IH c t) as (c' & t' & Hr & Hs & Hrest); [done| | |].
    - intros i n Hi. apply Hp. by right.
    - intros i Hi. apply Hin. by right.
    - exists c', t'. split; [done|]. split; [|done]. intros i. rewrite Hs.
      destruct (decide (i = j)) as [->|]; [|by rewrite elem_of_cons_ne].
      rewrite Hm. cbn. by rewrite Hq, !andb_false_r. }
  destruct (bool_decide (sc_state m = Fenced)) eqn:Hst; cbn [negb].
  2:{ apply Hskip. unfold quiet. by rewrite Hst. }
  apply bool_decide_eq_true in Hst. destruct (Hp j m) as [p Hpj]; [left|done..|].
  rewrite Hpj. cbn -[lookup pending is_within settled].
  destruct (settled p) eqn:Hse.
  2:{ apply Hskip. unfold quiet. by rewrite Hpj, Hse, andb_false_r. }
  set (t1 := on_scope j _ (set_state j Quiescent t)).
  assert (Ht1 : scopes t1 = alter (drained now) j (scopes t)).
  { unfold t1. cbn -[alter]. rewrite set_state_scopes. apply table_eq. intros i.
    rewrite !table_alter. case_decide; [subst|done]. by destruct (scopes t !! i). }
  assert (Hob : ∀ i, obligations_of <$> scopes t !! i = obligations_of <$> scopes t1 !! i).
  { intros i. rewrite Ht1, table_alter. case_decide; [subst|done]. rewrite Hm. cbn.
    unfold obligations_of. cbn. rewrite Hst. done. }
  destruct (IH (c + 1) t1) as (c' & t' & Hr & Hs & Hfe & Hcr & Hrs); [done| | |].
  - intros i n Hi Hn Hf. rewrite <-(pending_ext t t1) by done.
    rewrite Ht1, table_alter_ne in Hn by (by intros ->). eapply Hp; [by right|done..].
  - intros i Hi. rewrite Ht1, table_alter_ne by (by intros ->). apply Hin. by right.
  - exists c', t'. split; [done|]. split_and!.
    + intros i. rewrite Hs, Ht1, table_alter. destruct (decide (j = i)) as [<-|Hne].
      * rewrite (bool_decide_false (j ∈ l)) by done. rewrite bool_decide_true by left.
        rewrite Hm. cbn [fmap option_fmap option_map andb]. unfold quiet.
        by rewrite Hst, bool_decide_true, Hpj, Hse.
      * rewrite elem_of_cons_ne by done. destruct (scopes t !! i); [|done]. cbn.
        unfold quiet. by rewrite <-(pending_ext t t1).
    + intros Hok. apply Hfe. apply on_scope_fenced; [done|]. by apply set_state_fenced.
    + rewrite Hcr. unfold t1, set_state. destruct (scopes t !! j); [|done]. by repeat case_decide.
    + rewrite Hrs. unfold t1, set_state. destruct (scopes t !! j); [|done]. by repeat case_decide.
Qed.

(** C18. Quiescence is derived from what is left inside, over the whole perimeter.
    When no drain total overflows its width, [advance_quiescence] returns; it
    promotes exactly the fenced scopes all of whose live descendants (the scope
    included) have no thread, invocation, effect or mapping left, whatever the
    order in which the table is visited; every other scope is untouched; and
    [FENCED] keeps counting the fenced scopes. *)
Theorem advance_quiescence_exact now t :
  (∀ i n, scopes t !! i = Some n → sc_state n = Fenced → is_Some (pending t i)) →
  ∃ promoted t', advance_quiescence now t = Some (promoted, t') ∧
  (∀ i n, scopes t !! i = Some n → ∃ n', scopes t' !! i = Some n' ∧
     (n' = n ∨ n' = drained now n) ∧
     (n' ≠ n → sc_state n = Fenced) ∧
     (sc_state n' = Quiescent ↔
       sc_state n = Quiescent ∨
       (sc_state n = Fenced ∧
        ∀ j m, scopes t !! j = Some m → sc_state m ≠ Empty → is_within t i j = true → idle m))) ∧
  (fenced_count_ok t → fenced_count_ok t').
Proof.
  intros Hp.
  destruct (quiesce_from_spec now (indices (scopes t)) 0 t) as (c & t' & Hr & Hs & Hfe & _).
  { apply NoDup_indices. }
  { intros i n _. apply Hp. }
  { intros i. rewrite indices_lookup. apply table_lookup_is_Some. }
  exists c, t'. split; [done|]. split; [|done]. intros i n Hn.
  pose proof (Hs i) as Hi. rewrite Hn, bool_decide_true in Hi.
  2:{ apply indices_lookup. by eapply table_lookup_lt. }
  eexists. split; [exact Hi|]. cbn [andb]. unfold quiet.
  destruct (bool_decide_reflect (sc_state n = Fenced)) as [Hst|Hst]; cbn [andb].
  2:{ split_and!; [by left|done|]. split; [by left|]. by intros [?|[? _]]. }
  destruct (Hp i n Hn Hst) as [p Hpi]. rewrite Hpi. unfold pending in Hpi.
  apply bind_Some in Hpi as (total & Hpf & Hpi). rewrite Hn in Hpi.
  assert (settled p = settled total) as -> by by injection Hpi as <-.
  apply pending_from_settled in Hpf.
  assert (Hall : settled total = true ↔ ∀ j m, scopes t !! j = Some m → sc_state m ≠ Empty →
    is_within t i j = true → idle m).
  { rewrite Hpf. split; [|intros H; split; [done|intros ?? _; apply H]].
    intros [_ H] j m Hm. apply (H j m); [|done].
    apply indices_lookup. by eapply table_lookup_lt. }
  destruct (settled total).
  - split_and!; [by right|done|]. split; [|done]. intros _. right. split; [done|]. by apply Hall.
  - split_and!; [by left|done|]. rewrite Hst. split; [done|].
    by intros [?|[_ ?%Hall]].
Qed.

Lemma quiesce_from_le now l c t c' t' :
  quiesce_from now l (c, t) = Some (c', t') → scopes_le state_le (scopes t) (scopes t').
Proof.
  revert c t. induction l as [|j l IH]; intros c t; [by intros [= _ <-]|].
  cbn [quiesce_from]. unfold quiesce_index. cbn beta iota.
  destruct (scopes t !! j) as [m|] eqn:Hm; [|done]. cbn -[pending lookup].
  destruct (bool_decide_reflect (sc_state m = Fenced)) as [Hst|Hst]; cbn [negb].
  2:{ apply IH. }
  destruct (pending t j) as [p|]; [|done]. cbn -[lookup settled].
  destruct (settled p); [|apply IH]. intros H%IH. etrans; [|exact H]. cbn -[alter].
  rewrite set_state_scopes. etrans; apply (scopes_le_alter state_le).
  - intros n Hn. assert (n = m) as -> by congruence.
    split; try done; [rewrite Hst; by right|].
    by apply counters_ok_keep; [intros []| |intros []].
  - intros n _. apply scopes_le_forward_scope. keeps_scope.
Qed.

(** One operation on the accounts, by any processor at any time. *)
Inductive scope_step : Scopes → Scopes → Prop :=
| step_reserve scope r a t :
    live_scope (scopes t) scope → a <= U64_MAX → scope_step t (reserve scope r a t).2
| step_release scope r a t : scope_step t (release scope r a t)
| step_charge_cpu scope ns recovery t : scope_step t (charge_cpu scope ns recovery t)
| step_commit_excess scope ns recovery t : scope_step t (commit_excess scope ns recovery t)
| step_reserve_cpu scope a recovery w t ok t' :
    reserve_cpu scope a recovery w t = Some (ok, t') → scope_step t t'
| step_return_cpu scope a recovery w t : scope_step t (return_cpu scope a recovery w t)
| step_take_running scope t : scope_step t (take_running scope t).2
| step_drop_running scope t : scope_step t (drop_running scope t)
| step_take_parallelism scope t : scope_step t (take_parallelism scope t)
| step_drop_parallelism scope t : scope_step t (drop_parallelism scope t)
| step_note_progress scope now t t' : note_progress scope now t = Some t' → scope_step t t'
| step_roll_window now t : scope_step t (roll_window now t)
| step_reserve_for cpu scope recovery now t d t' :
    reserve_for cpu scope recovery now t = Some (d, t') → scope_step t t'
| step_settle cpu d t : scope_step t (settle cpu d t)
| step_release_credits cpu t : scope_step t (release_credits cpu t)
| step_fence root t : scope_step t (fence root t).2
| step_advance now t c t' : advance_quiescence now t = Some (c, t') → scope_step t t'
| step_retire i t n :
    scopes t !! i = Some n → sc_state n = Quiescent → scope_step t (set_state i Retired t).

(** A table in good order: the tree, the counters at their widths, every account
    inside its ceiling. *)
Record scopes_inv (t : Scopes) : Prop := {
  inv_accounts : accounts_wf t;
  inv_within i n : scopes t !! i = Some n → within_limits n
}.

Lemma scope_step_le t t' :
  scope_step t t' → accounts_wf t → scopes_le state_le (scopes t) (scopes t').
Proof.
  intros Hstep Hwf. destruct Hstep as [| | | | | | | | | | | | | | | | |i t n Hn Hs].
  17:{ by eapply quiesce_from_le. }
  16:{ apply fence_le. }
  16:{ rewrite set_state_scopes. apply (scopes_le_alter state_le). intros m Hm.
       assert (m = n) as -> by congruence. split; try done; [rewrite Hs; by right|].
       by apply counters_ok_keep; [intros []| |intros []]. }
  all: apply scopes_le_forward; eauto using release_le, charge_cpu_le, commit_excess_le,
    reserve_cpu_le, return_cpu_le, take_running_le, drop_running_le, take_parallelism_le,
    drop_parallelism_le, note_progress_le, roll_window_le, reserve_for_le, settle_le,
    release_credits_le, reserve_le.
Qed.

Lemma scopes_inv_le t t' :
  scopes_le state_le (scopes t) (scopes t') → scopes_inv t → scopes_inv t'.
Proof.
  intros Hle [[Htree Hok] Hw]. split; [split; [by eapply scopes_le_wf|]|];
    intros i n' Hn'; destruct (scopes_le_back _ _ _ _ _ Hle Hn') as (n & Hn & Hnn).
  - eapply (le_counters Hnn), Hok, Hn.
  - eapply (le_within Hnn), Hw, Hn.
Qed.

Lemma scope_steps_le t t' :
  rtc scope_step t t' → scopes_inv t →
  scopes_le state_le (scopes t) (scopes t') ∧ scopes_inv t'.
Proof.
  induction 1 as [t|t1 t2 t3 Hs _ IH]; intros Hinv; [done|].
  pose proof (scope_step_le _ _ Hs (inv_accounts _ Hinv)) as Hle.
  destruct IH as [IH1 IH2]; [by eapply scopes_inv_le|]. split; [by etrans|done].
Qed.

(** C15. Ceilings hold over every sequence of operations. Whatever reservations,
    releases, charges, dispatches, settlements, window rolls, barriers,
    promotions and retirements happen, in any order and on any scopes: memory,
    metadata and queue accounts never exceed their ceilings at any level, the
    tree keeps its shape, no counter leaves its width, and no scope's state
    ever moves backwards. *)
Theorem ceilings_hold t t' i n :
  scopes_inv t → rtc scope_step t t' → scopes t !! i = Some n →
  scopes_inv t' ∧
  ∃ n', scopes t' !! i = Some n' ∧ (∀ r, account r n' <= limit_of r n') ∧
    sc_limits n' = sc_limits n ∧ sc_parent n' = sc_parent n ∧
    state_le (sc_state n) (sc_state n').
Proof.
  intros Hinv Hs Hn. destruct (scope_steps_le _ _ Hs Hinv) as [[_ Hle] Hinv'].
  split; [done|]. destruct (Hle i n Hn) as (n' & Hn' & Hnn). exists n'.
  split_and!; [done| |apply Hnn..]. by apply (inv_within _ Hinv' i).
Qed.

(** C16. A barrier is final. Once [fence root] has run, no sequence of operations
    admits anything again under [root]: for the scope itself and every live
    descendant, each later reservation is refused without leaving a charge, and
    the scope never again counts as open. *)
Theorem fence_is_final root t t' i r amount :
  scopes_inv t → live_scope (scopes t) i → is_within t root i = true → amount <= U64_MAX →
  rtc scope_step (fence root t).2 t' →
  reserve i r amount t' = (false, t') ∧ is_open t' i = false.
Proof.
  intros Hinv (n & Hn & Hs) Hin Ha Hsteps.
  pose proof (fence_le root t) as Hle1.
  destruct (scope_steps_le _ _ Hsteps (scopes_inv_le _ _ Hle1 Hinv)) as [Hle2 Hinv'].
  pose proof (fence_foldl root (indices (scopes t)) 0 t (NoDup_indices _)) as Hf.
  unfold fence in *. destruct (foldl _ _ _) as [c t1]. destruct Hf as (Hlook & _).
  specialize (Hlook i). rewrite Hn in Hlook. cbn [fmap option_fmap option_map] in Hlook.
  destruct (proj2 Hle2 i _ Hlook) as (n' & Hn' & Hnn).
  assert (Hclosed : sc_state n' ≠ Open ∧ sc_state n' ≠ Empty).
  { pose proof (le_state Hnn) as Hst. revert Hst. rewrite bool_decide_true.
    2:{ apply indices_lookup. by eapply table_lookup_lt. }
    unfold closes. rewrite Hn, Hin, andb_true_r. cbn [andb].
    destruct (bool_decide_reflect (sc_state n = Open)); cbn; unfold state_le;
      destruct (sc_state n), (sc_state n'); cbn; intuition (done || lia). }
  destruct Hclosed as [Hopen Hempty].
  assert (Hlive : live_scope (scopes t') i) by by exists n'.
  assert (Hin' : n' ∈ chain_scopes (scopes t') i).
  { apply chain_scopes_elem. exists i. split; [by apply chain_self|done]. }
  split.
  - rewrite reserve_spec by (done || apply Hinv'). destruct (forallb _ _) eqn:Hall; [|done].
    rewrite forallb_forall in Hall. specialize (Hall n' (proj1 (list_elem_of_In _ _) Hin')).
    apply andb_true_iff in Hall as [?%bool_decide_eq_true _]. done.
  - unfold is_open. apply not_true_iff_false. rewrite forallb_forall. intros Hall.
    specialize (Hall n' (proj1 (list_elem_of_In _ _) Hin')).
    by apply bool_decide_eq_true in Hall.
Qed.

(** *** A table to evaluate on *)

(** The conditions of [scopes_inv] on one scope, as a computation. *)
Definition scope_okb (tbl : list Scope) (n : Scope) : bool :=
  forallb (λ r, bool_decide (account r n <= U64_MAX) && bool_decide (limit_of r n < U64_MAX)
                && bool_decide (account r n <= limit_of r n)) [MemoryPages; Metadata; QueueBytes]
  && forallb (λ b, bool_decide (committed b n <= U64_MAX) && bool_decide (budget b n < U64_MAX))
       [true; false]
  && bool_decide (sc_running n <= U32_MAX) && bool_decide (sc_cpu_window_ns n <= U64_MAX)
  && bool_decide (l_parallelism (sc_limits n) <= U32_MAX)
  && (bool_decide (sc_state n = Empty) ||
      bool_decide (sc_depth n < limit.MAX_SCOPE_DEPTH) &&
      match parent n with
      | None => true
      | Some p =>
          match tbl !! p with
          | Some pn => negb (bool_decide (sc_state pn = Empty))
                       && bool_decide (sc_depth n = sc_depth pn + 1)
          | None => false
          end
      end).

Lemma scopes_inv_compute t :
  tlen (scopes t) = MAX_SCOPES → forallb (scope_okb (scopes t)) (scopes t) = true → scopes_inv t.
Proof.
  intros Hlen Hall. assert (Hn : ∀ i n, scopes t !! i = Some n → scope_okb (scopes t) n = true).
  { intros i n Hi%list_elem_of_lookup_2. rewrite forallb_forall in Hall.
    by apply Hall, list_elem_of_In. }
  assert (Hd : ∀ i n, scopes t !! i = Some n → counters_ok n ∧ within_limits n ∧
    (sc_state n ≠ Empty → sc_depth n < limit.MAX_SCOPE_DEPTH ∧
      ∀ p, parent n = Some p → ∃ pn, scopes t !! p = Some pn ∧ sc_state pn ≠ Empty ∧
        sc_depth n = sc_depth pn + 1)).
  { intros i n Hi. specialize (Hn i n Hi). unfold scope_okb in Hn.
    cbn [forallb] in Hn. rewrite !andb_true_iff, !bool_decide_eq_true, orb_true_iff in Hn.
    destruct Hn as [[[[[Ha Hb] Hr] Hw] Hp] Ht]. split_and!.
    - split; try done.
      + intros []; tauto.
      + intros []; tauto.
      + intros []; tauto.
      + intros []; tauto.
    - intros []; tauto.
    - intros Hs. rewrite bool_decide_eq_true in Ht. destruct Ht as [?|Ht]; [done|].
      apply andb_true_iff in Ht as [Hdep%bool_decide_eq_true Ht]. split; [done|].
      intros p Hpn. rewrite Hpn in Ht. destruct (scopes t !! p) as [pn|]; [|done].
      exists pn. apply andb_true_iff in Ht as [Hps%negb_true_iff Hpd%bool_decide_eq_true].
      apply bool_decide_eq_false in Hps. done. }
  split; [split; [split; [done|..]|]|].
  - intros i n Hi Hs. destruct (Hd i n Hi) as (_ & _ & H). by apply H.
  - intros i n p Hi Hs Hp. destruct (Hd i n Hi) as (_ & _ & H). by apply H.
  - intros i n Hi. by apply Hd in Hi as [? _].
  - intros i n Hi. by apply Hd in Hi as (_ & ? & _).
Qed.

(** A root, two children and a grandchild, with room for three queue bytes in the
    first child and two in the grandchild. *)
Definition sample_scope (parent depth : N) (limits : Limits) : Scope :=
  Scope.empty <| sc_state := Open |> <| sc_parent := parent |> <| sc_depth := depth |>
    <| sc_limits := limits |>.
Definition sample_limits (bytes : N) : Limits :=
  mkLimits 100 100 4000000 bytes 1000000 4.
Definition sample_scopes : Scopes := {|
  scopes := [sample_scope NO_SCOPE 0 (sample_limits 10);
             sample_scope 0 1 (sample_limits 3);
             sample_scope 1 2 (sample_limits 2);
             sample_scope 0 1 (sample_limits 10)] ++ replicate 20 Scope.empty;
  fenced := 0;
  roll_seq := 0;
  credits := replicate 8 (replicate 24 (mkCredit 0 0 0))
|}.

Lemma sample_scopes_inv : scopes_inv sample_scopes.
Proof. apply scopes_inv_compute; by vm_compute. Qed.

Lemma sample_live i : bool_decide (i < 4) = true → live_scope (scopes sample_scopes) i.
Proof.
  intros Hi%bool_decide_eq_true.
  destruct (decide (i = 0)) as [->|]; [by eexists|]. destruct (decide (i = 1)) as [->|]; [by eexists|].
  destruct (decide (i = 2)) as [->|]; [by eexists|].
  replace i with 3 by lia. by eexists.
Qed.

Lemma reserve_all_or_nothing_witness :
  (reserve 2 QueueBytes 2 sample_scopes).1 = true ∧
  release 2 QueueBytes 2 (reserve 2 QueueBytes 2 sample_scopes).2 = sample_scopes.
Proof.
  pose proof (reserve_all_or_nothing 2 QueueBytes 2 sample_scopes) as H.
  destruct (reserve 2 QueueBytes 2 sample_scopes) as [ok t'] eqn:Hr.
  destruct H as (_ & _ & H).
  - apply sample_scopes_inv.
  - by apply sample_live.
  - by vm_compute.
  - vm_compute in Hr. injection Hr as <- Ht. split; [done|]. by apply H.
Defined.

Lemma pending_defined t i n :
  forallb (λ i, match pending t i with Some _ => true | None => false end) (indices (scopes t))
    = true → scopes t !! i = Some n → is_Some (pending t i).
Proof.
  rewrite forallb_forall. intros Hall Hn%table_lookup_lt.
  specialize (Hall i). rewrite <-list_elem_of_In, indices_lookup in Hall.
  destruct (pending t i); [done|]. by specialize (Hall Hn).
Qed.

Lemma advance_quiescence_exact_witness :
  ∃ promoted t', advance_quiescence 7 (fence 1 sample_scopes).2 = Some (promoted, t') ∧
    sc_state <$> scopes t' !! 1 = Some Quiescent ∧ fenced t' = 0.
Proof.
  destruct (advance_quiescence_exact 7 (fence 1 sample_scopes).2) as (promoted & t' & Hr & _ & Hf).
  - intros i n Hn _. eapply pending_defined; [|exact Hn]. by vm_compute.
  - exists promoted, t'. split; [done|]. vm_compute in Hr. injection Hr as <- <-. by vm_compute.
Defined.

Lemma ceilings_hold_witness :
  scopes_inv (reserve 2 QueueBytes 2 sample_scopes).2 ∧
  ∃ n, scopes (reserve 2 QueueBytes 2 sample_scopes).2 !! 2 = Some n ∧ sc_queue_bytes n <= 2.
Proof.
  destruct (ceilings_hold sample_scopes (reserve 2 QueueBytes 2 sample_scopes).2 2
    (sample_scope 1 2 (sample_limits 2))) as [Hinv (n & Hn & Hw & Hl & _)].
  - apply sample_scopes_inv.
  - apply rtc_once, step_reserve; [by apply sample_live|by vm_compute].
  - by vm_compute.
  - split; [done|]. exists n. split; [done|]. specialize (Hw QueueBytes).
    unfold limit_of in Hw. by rewrite Hl in Hw.
Defined.

Lemma fence_is_final_witness :
  reserve 2 QueueBytes 1 (fence 1 sample_scopes).2 = (false, (fence 1 sample_scopes).2).
Proof.
  apply (fence_is_final 1 sample_scopes (fence 1 sample_scopes).2 2 QueueBytes 1).
  - apply sample_scopes_inv.
  - by apply sample_live.
  - by vm_compute.
  - by vm_compute.
  - done.
Defined.
