(* ===== verification/ScopeCpu.v ===== *)
(** * Execution accounts: reservation, credit and the window

    The theorems on the part of [Scope] that pays for execution: the closed form of
    [reserve_cpu], its agreement with [available_ns], what a dispatch is paid
    from, and the window roll. *)

From S2P Require Import Prelude Abi Obj Scope ScopeProofs.

#[local] Open Scope N_scope.

(** ** Reservation of execution *)

Definition cpu_admits (recovery : bool) (amount : N) (n : Scope) : bool :=
  bool_decide (committed recovery n + amount <= budget recovery n).

Lemma committed_set_committed b f n : committed b (set_committed b f n) = f (committed b n).
Proof. by destruct b. Qed.

Lemma reserve_cpu_level_spec recovery amount n :
  counters_ok n → amount <= U64_MAX →
  reserve_cpu_level recovery amount n =
    if cpu_admits recovery amount n
    then (false, set_committed recovery (N.add amount) n) else (true, n).
Proof.
  intros Hok Ha. unfold reserve_cpu_level, cpu_admits.
  rewrite bounded_add_spec; [|apply Hok|done|apply Hok].
  destruct (decide (committed recovery n + amount <= budget recovery n)).
  - rewrite bool_decide_true by done. f_equal. apply set_committed_ext. lia.
  - rewrite bool_decide_false by done. f_equal. by apply set_committed_id.
Qed.

Lemma reserve_cpu_level_undo recovery amount n :
  counters_ok n → amount <= U64_MAX →
  if (reserve_cpu_level recovery amount n).1 : bool then (reserve_cpu_level recovery amount n).2 = n
  else set_committed recovery (λ c, wrapping_sub 64 c amount)
         (reserve_cpu_level recovery amount n).2 = n.
Proof.
  intros Hok Ha. rewrite reserve_cpu_level_spec by done.
  destruct (cpu_admits recovery amount n) eqn:Hl; cbn [fst snd]; [|done].
  apply bool_decide_eq_true in Hl.
  rewrite set_committed_twice. apply set_committed_id. cbn.
  pose proof (ok_budget n Hok recovery). unfold U64_MAX in *.
  rewrite wrapping_sub_small by lia. lia.
Qed.

(** [n'] is [n] with its committed total and its recorded peak moved. *)
Definition cpu_charged (recovery : bool) (amount : N) (n n' : Scope) : Prop :=
  n' = set_committed recovery (N.add amount) n <| sc_max_committed_ns := sc_max_committed_ns n' |>.

Lemma note_peaks_lookup scope peak nodes tbl i :
  note_peaks scope peak nodes tbl !! i = tbl !! i ∨
  ∃ n p, i ∈ nodes ∧ tbl !! i = Some n ∧
    note_peaks scope peak nodes tbl !! i = Some (n <| sc_max_committed_ns := p |>).
Proof.
  unfold note_peaks. revert tbl. induction nodes as [|j nodes IH]; intros tbl; [by left|].
  cbn [foldl]. set (f := λ n : Scope, _).
  assert (Hf : ∀ n, ∃ p, f n = n <| sc_max_committed_ns := p |>).
  { intros n. unfold f. cbv zeta. case_decide; [|exists (sc_max_committed_ns n); by destruct n].
    by eexists. }
  assert (Hj : alter f j tbl !! i = tbl !! i ∨ ∃ n p, i = j ∧ tbl !! i = Some n ∧
    alter f j tbl !! i = Some (n <| sc_max_committed_ns := p |>)).
  { rewrite table_alter. case_decide as Hji; [subst|by left].
    destruct (tbl !! i) as [n|]; [right|by left]. destruct (Hf n) as [p Hp].
    exists n, p. split_and!; [done..|]. cbn. by rewrite Hp. }
  destruct (IH (alter f j tbl)) as [->|(m & r & Hi & Hm & ->)].
  - destruct Hj as [->|(n & p & -> & Hn & ->)]; [by left|right].
    exists n, p. split_and!; [left|done..].
  - right. destruct Hj as [Heq|(n & p & -> & Hn & Heq)]; rewrite Heq in Hm.
    + exists m, r. split_and!; [by right|done..].
    + injection Hm as <-. exists n, r. split_and!; [by left|done..].
Qed.

(** What a granted reservation leaves. *)
Definition cpu_reserved (scope : ScopeId) (recovery : bool) (amount : N) (t t' : Scopes) : Prop :=
  credits t' = credits t ∧ roll_seq t' = roll_seq t ∧ fenced t' = fenced t ∧
  ∀ i n, scopes t !! i = Some n → ∃ n', scopes t' !! i = Some n' ∧
    if decide (i ∈ chain_of (scopes t) scope) then cpu_charged recovery amount n n' else n' = n.

Lemma reserve_cpu_spec scope own amount recovery window t :
  accounts_wf t → scopes t !! scope = Some own → sc_state own ≠ Empty →
  amount <= U64_MAX → N.odd (roll_seq t) = false →
  ∃ ok t', reserve_cpu scope amount recovery window t = Some (ok, t') ∧
    ok = bool_decide (sc_window_index own = window) &&
         forallb (cpu_admits recovery amount) (chain_scopes (scopes t) scope) ∧
    if ok : bool then cpu_reserved scope recovery amount t t' else t' = t.
Proof.
  intros [Htree Hok] Hown Hst Ha Hodd. unfold reserve_cpu. rewrite Hodd, Hown.
  cbn [mbind option_bind]. destruct (decide (sc_window_index own ≠ window)) as [Hw|Hw].
  { exists false, t. by rewrite bool_decide_false. }
  rewrite bool_decide_true by (by destruct (decide (sc_window_index own = window))).
  assert (Hlive : live_scope (scopes t) scope) by by exists own.
  pose proof (chain_NoDup _ _ Htree Hlive) as Hnd.
  assert (Hlv : ∀ j, j ∈ chain_of (scopes t) scope → is_Some (scopes t !! j)).
  { intros j Hj. destruct (chain_live _ _ _ Htree Hlive Hj) as (n & ? & _). by exists n. }
  pose proof (charge_chain_spec (reserve_cpu_level recovery amount)
    (set_committed recovery (λ c, wrapping_sub 64 c amount)) (chain_of (scopes t) scope)
    (scopes t) Hnd Hlv) as Hspec.
  destruct (charge_chain _ _ _) as [[done refused] tbl']. destruct Hspec as [Href Htbl].
  { intros i n _ Hn. apply reserve_cpu_level_undo; [by eapply Hok|done]. }
  assert (Hadm : ∀ n, n ∈ chain_scopes (scopes t) scope →
    negb (reserve_cpu_level recovery amount n).1 = cpu_admits recovery amount n).
  { intros n (j & _ & Hj)%chain_scopes_elem.
    rewrite reserve_cpu_level_spec by eauto. by destruct (cpu_admits _ _ _). }
  assert (refused = negb (forallb (cpu_admits recovery amount) (chain_scopes (scopes t) scope)))
    as ->. { rewrite Href. f_equal. by apply forallb_agree. }
  clear Href. cbn [andb].
  destruct (forallb (cpu_admits recovery amount) _) eqn:Hall; cbn [negb] in *.
  2:{ exists false. eexists. split; [done|]. split; [done|]. by apply with_scopes_id. }
  assert (Hpt : ∀ i n, scopes t !! i = Some n → tbl' !! i =
    Some (if decide (i ∈ chain_of (scopes t) scope)
          then set_committed recovery (N.add amount) n else n)).
  { intros i n Hn. subst tbl'. rewrite for_nodes_lookup, Hn by done. case_decide as Hi; [|done].
    cbn. rewrite reserve_cpu_level_spec by (by eauto). rewrite forallb_forall in Hall.
    rewrite Hall; [done|]. apply list_elem_of_In, chain_scopes_elem. by exists i. }
  exists true. destruct recovery; (eexists; split; [done|]; split; [done|]);
    (split; [done|]; split; [done|]; split; [done|]); intros i n Hn; cbn -[note_peaks].
  - rewrite (Hpt i n Hn). eexists. split; [done|]. case_decide; [|done]. by destruct n.
  - set (peak := saturating_add _ _ _).
    destruct (note_peaks_lookup scope peak (chain_of (scopes t) scope) tbl' i)
      as [->|(m & p & Hi & Hm & ->)].
    + rewrite (Hpt i n Hn). eexists. split; [done|]. case_decide; [|done]. by destruct n.
    + rewrite (Hpt i n Hn), decide_True in Hm by done. injection Hm as <-.
      eexists. split; [done|]. by rewrite decide_True.
Qed.

Lemma available_from_spec recovery l a v :
  available_from recovery l a = Some v →
  (∀ n, n ∈ l → usable recovery (sc_state n) = true) ∧
  ∀ x, x <= v ↔ x <= a ∧ ∀ n, n ∈ l → x <= budget recovery n - committed recovery n.
Proof.
  revert a. induction l as [|m l IH]; intros a; cbn.
  { intros [= <-]. split; [by intros n []%not_elem_of_nil|]. intros x. split; [|tauto].
    intros ?. split; [done|]. by intros n []%not_elem_of_nil. }
  destruct (usable recovery (sc_state m)) eqn:Hu; [|done]. intros [Hall Hx]%IH.
  split; [by intros n [->|?]%elem_of_cons; auto|]. intros x. rewrite Hx.
  unfold saturating_sub. split.
  - intros [H1 H2]. split; [lia|]. intros n [->|?]%elem_of_cons; [lia|auto].
  - intros [H1 H2]. split; [|intros n Hn; apply H2; by right].
    pose proof (H2 m ltac:(left)). lia.
Qed.

Lemma available_from_usable recovery l a :
  (∀ n, n ∈ l → usable recovery (sc_state n) = true) → is_Some (available_from recovery l a).
Proof.
  revert a. induction l as [|m l IH]; intros a Hu; [done|]. cbn.
  rewrite (Hu m) by left. apply IH. intros n Hn. apply Hu. by right.
Qed.



(** ** What a dispatch is paid from *)

(** Two tables with the same pool: same committed totals, windows, ceilings and
    links. *)
Definition same_pool (tbl tbl' : list Scope) : Prop :=
  ∀ i n, tbl !! i = Some n → ∃ n', tbl' !! i = Some n' ∧
    sc_cpu_committed_ns n' = sc_cpu_committed_ns n ∧ sc_window_index n' = sc_window_index n ∧
    sc_limits n' = sc_limits n ∧ sc_parent n' = sc_parent n ∧ sc_state n' = sc_state n.

Lemma same_pool_refl tbl : same_pool tbl tbl.
Proof. intros i n Hn. by exists n. Qed.

Lemma for_nodes_same_pool f nodes tbl :
  (∀ n, sc_cpu_committed_ns (f n) = sc_cpu_committed_ns n ∧
     sc_window_index (f n) = sc_window_index n ∧ sc_limits (f n) = sc_limits n ∧
     sc_parent (f n) = sc_parent n ∧ sc_state (f n) = sc_state n) →
  same_pool tbl (for_nodes f nodes tbl).
Proof.
  intros Hf. unfold for_nodes. revert tbl. induction nodes as [|j nodes IH]; intros tbl.
  { apply same_pool_refl. }
  cbn [foldl]. intros i n Hn.
  assert (∃ m, alter f j tbl !! i = Some m ∧ (m = n ∨ m = f n)) as (m & Hm & Hmn).
  { rewrite table_alter, Hn. case_decide; cbn; eexists; split; (done || auto). }
  destruct (IH _ i m Hm) as (n' & Hn' & H1 & H2 & H3 & H4 & H5). exists n'. split; [done|].
  destruct Hmn as [-> | ->]; [done|]. destruct (Hf n) as (E1 & E2 & E3 & E4 & E5).
  split_and!; congruence.
Qed.

Lemma charge_cpu_same_pool scope ns t :
  same_pool (scopes t) (scopes (charge_cpu scope ns false t)).
Proof.
  unfold charge_cpu. case_decide; [apply same_pool_refl|]. by apply for_nodes_same_pool.
Qed.

Lemma same_pool_chain tbl tbl' i :
  tlen tbl' = tlen tbl → same_pool tbl tbl' → chain_of tbl' i = chain_of tbl i.
Proof.
  intros Hlen Hp. apply chain_ext. intros j. destruct (tbl !! j) as [n|] eqn:Hn.
  - destruct (Hp j n Hn) as (n' & -> & _ & _ & _ & Hpar & _). cbn. unfold parent. by rewrite Hpar.
  - rewrite table_lookup_ge; [done|]. rewrite Hlen.
    destruct (N.lt_ge_cases j (tlen tbl)) as [Hj%table_lookup_is_Some|]; [|done].
    rewrite Hn in Hj. by destruct Hj.
Qed.

Lemma credit_on_credit t cpu scope f c :
  credit_at t cpu scope = Some c → credit_at (on_credit cpu scope f t) cpu scope = Some (f c).
Proof.
  unfold credit_at. intros (row & Hrow & Hc)%bind_Some. cbn.
  rewrite table_alter_eq, Hrow. cbn. by rewrite table_alter_eq, Hc.
Qed.

Lemma charge_cpu_credits scope ns r t : credits (charge_cpu scope ns r t) = credits t.
Proof. unfold charge_cpu. by case_decide. Qed.
Lemma charge_cpu_roll_seq scope ns r t : roll_seq (charge_cpu scope ns r t) = roll_seq t.
Proof. unfold charge_cpu. by case_decide. Qed.

(** The credit a dispatch starts from, in the window it runs in. *)
Lemma renew_credit_spec cpu scope window t c :
  credit_at t cpu scope = Some c →
  let t' := renew_credit cpu scope window t in
  same_pool (scopes t) (scopes t') ∧ tlen (scopes t') = tlen (scopes t) ∧
  roll_seq t' = roll_seq t ∧
  ∃ c', credit_at t' cpu scope = Some c' ∧ cr_window c' = window ∧
    cr_reserved_ns c' = if decide (cr_window c = window) then cr_reserved_ns c else 0.
Proof.
  intros Hc. pose proof (renew_credit_le cpu scope window t) as [Hlen _].
  unfold renew_credit in *. rewrite Hc in *.
  destruct (decide (cr_window c ≠ window)) as [Hw|Hw].
  - split_and!; [|done|cbn; by rewrite charge_cpu_roll_seq|].
    + apply (charge_cpu_same_pool _ _ (on_credit cpu scope _ t)).
    + pose proof (credit_on_credit t cpu scope
        (λ c, c <| cr_reserved_ns := 0 |> <| cr_pending_ns := 0 |>) c Hc) as H1.
      set (t1 := on_credit cpu scope _ t) in *.
      assert (H2 : credit_at (charge_cpu scope (cr_pending_ns c) false t1) cpu scope =
        Some (c <| cr_reserved_ns := 0 |> <| cr_pending_ns := 0 |>)).
      { unfold credit_at. by rewrite charge_cpu_credits. }
      eexists. split; [by apply credit_on_credit|]. split; [done|].
      rewrite decide_False by done. done.
  - split_and!; [apply same_pool_refl|done..|]. exists c.
    assert (cr_window c = window) by by destruct (decide (cr_window c = window)).
    by rewrite decide_True.
Qed.

Lemma accounts_wf_le t t' : scopes_le eq (scopes t) (scopes t') → accounts_wf t → accounts_wf t'.
Proof.
  intros Hle%scopes_le_forward [Htree Hok]. split; [by eapply scopes_le_wf|].
  intros i n' Hn'. destruct (scopes_le_back _ _ _ _ _ Hle Hn') as (n & Hn & Hnn).
  eapply (le_counters Hnn), Hok, Hn.
Qed.

(** [want] nanoseconds went from the pool of [scope] and of every ancestor, and
    each of them had them to give. *)
Definition drawn (tbl tbl' : list Scope) (scope : ScopeId) (want : N) : Prop :=
  ∀ i n, i ∈ chain_of tbl scope → tbl !! i = Some n → ∃ n', tbl' !! i = Some n' ∧
    sc_cpu_committed_ns n' = sc_cpu_committed_ns n + want ∧
    (want ≠ 0 → sc_cpu_committed_ns n' <= l_cpu_budget_ns (sc_limits n)).

Lemma drawn_nothing tbl tbl' scope : same_pool tbl tbl' → drawn tbl tbl' scope 0.
Proof.
  intros Hp i n _ Hn. destruct (Hp i n Hn) as (n' & Hn' & Hc & _). exists n'.
  split_and!; [done|by rewrite N.add_0_r|done].
Qed.

(** The refill: what the credit holds afterwards was there or came from the pool. *)
Lemma refill_credit_spec cpu scope own c window left t :
  accounts_wf t → scopes t !! scope = Some own → sc_state own ≠ Empty →
  N.odd (roll_seq t) = false → credit_at t cpu scope = Some c →
  ∃ have want t' c', refill_credit cpu scope window left (cr_reserved_ns c) t = Some (have, t') ∧
    have = cr_reserved_ns c + want ∧ drawn (scopes t) (scopes t') scope want ∧
    credit_at t' cpu scope = Some c' ∧ cr_reserved_ns c' = have ∧ cr_window c' = cr_window c.
Proof.
  intros Hwf Hown Hst Hodd Hc. unfold refill_credit.
  assert (Hnone : ∃ have want t' c', Some (cr_reserved_ns c, t) = Some (have, t') ∧
    have = cr_reserved_ns c + want ∧ drawn (scopes t) (scopes t') scope want ∧
    credit_at t' cpu scope = Some c' ∧ cr_reserved_ns c' = have ∧ cr_window c' = cr_window c).
  { exists (cr_reserved_ns c), 0, t, c. split_and!; try done; [by rewrite N.add_0_r|].
    apply drawn_nothing, same_pool_refl. }
  case_decide; [done|]. set (want := refill_want _ _ _). case_decide as Hw; [done|].
  assert (Hwant : want <= U64_MAX).
  { assert (want <= 2 * QUANTUM_NS); [|unfold QUANTUM_NS, limit.CPU_QUANTUM_NS, U64_MAX in *; lia].
    unfold want, refill_want, credit_refill_ns, saturating_sub. lia. }
  destruct (reserve_cpu_spec scope own want false window t Hwf Hown Hst Hwant Hodd)
    as (ok & t1 & Hr & Hok & Ht1). rewrite Hr. cbn [mbind option_bind].
  destruct ok; [|by subst t1].
  destruct Ht1 as (Hcr & _ & _ & Hpt).
  exists (cr_reserved_ns c + want), want, (on_credit cpu scope (λ c, c <| cr_reserved_ns ::= N.add want |>) t1),
    (c <| cr_reserved_ns ::= N.add want |>).
  split_and!; [done|done| |apply credit_on_credit; unfold credit_at in *; by rewrite Hcr|cbn; lia|done].
  intros i n Hi Hn. destruct (Hpt i n Hn) as (n' & Hn' & Hch). rewrite decide_True in Hch by done.
  exists n'. split; [done|]. rewrite Hch. cbn. split; [lia|]. intros _.
  symmetry in Hok. apply andb_true_iff in Hok as [_ Hall]. rewrite forallb_forall in Hall.
  assert (cpu_admits false want n = true) as Had%bool_decide_eq_true.
  { apply Hall, list_elem_of_In, chain_scopes_elem. by exists i. }
  cbn in Had. lia.
Qed.

Lemma drawn_renewed tbl tbl1 tbl2 scope want :
  tlen tbl1 = tlen tbl → same_pool tbl tbl1 → drawn tbl1 tbl2 scope want →
  drawn tbl tbl2 scope want.
Proof.
  intros Hlen Hp Hd i n Hi Hn. destruct (Hp i n Hn) as (m & Hm & Hc & _ & Hl & _).
  destruct (Hd i m) as (n' & Hn' & Hc' & Hb); [|done|].
  { by rewrite (same_pool_chain tbl tbl1). }
  exists n'. rewrite <-Hc, <-Hl. done.
Qed.

(** C20. Nothing is dispatched that was not reserved. An ordinary [take_grant]
    returns; it grants at most a quantum, at most what is left of the window,
    and never more than the processor's credit for the current window together
    with what this call drew from the pool; what it drew was charged to the
    scope and to every ancestor, each staying inside its budget; and what is
    not granted stays in the credit. *)
Theorem grant_is_funded cpu scope own c now t :
  accounts_wf t → scopes t !! scope = Some own → sc_state own ≠ Empty →
  N.odd (roll_seq t) = false → credit_at t cpu scope = Some c →
  ∃ grant want t' c', take_grant cpu scope false now t = Some (grant, t') ∧
    grant <= QUANTUM_NS ∧ grant <= CPU_WINDOW_NS - now mod CPU_WINDOW_NS ∧
    credit_at t' cpu scope = Some c' ∧ cr_window c' = now / CPU_WINDOW_NS ∧
    grant + cr_reserved_ns c' =
      (if decide (cr_window c = now / CPU_WINDOW_NS) then cr_reserved_ns c else 0) + want ∧
    drawn (scopes t) (scopes t') scope want.
Proof.
  intros Hwf Hown Hst Hodd Hc. unfold take_grant. cbv zeta. rewrite Hc. cbn [mbind option_bind].
  set (window := now / CPU_WINDOW_NS). set (left := CPU_WINDOW_NS - now mod CPU_WINDOW_NS).
  pose proof (renew_credit_le cpu scope window t) as Hle.
  destruct (renew_credit_spec cpu scope window t c Hc) as (Hp & Hlen & Hrs & c1 & Hc1 & Hw1 & Hr1).
  set (t1 := renew_credit cpu scope window t) in *. rewrite Hc1. cbn [mbind option_bind].
  destruct (Hp scope own Hown) as (own1 & Hown1 & _ & _ & _ & _ & Hst1).
  destruct (refill_credit_spec cpu scope own1 c1 window left t1)
    as (have & want & t2 & c2 & Hf & Hhave & Hd & Hc2 & Hr2 & Hw2);
    [by eapply accounts_wf_le|done|by rewrite Hst1|by rewrite Hrs|done|].
  rewrite Hf. cbn [mbind option_bind]. pose proof (drawn_renewed _ _ _ _ _ Hlen Hp Hd) as Hd'.
  set (grant := N.min (N.min have (credit_refill_ns left)) QUANTUM_NS).
  assert (grant <= QUANTUM_NS ∧ grant <= left ∧ grant <= have) as (Hg1 & Hg2 & Hg3).
  { unfold grant, credit_refill_ns. lia. }
  rewrite <-Hr1. destruct (decide (grant = 0)) as [Hz|Hz].
  - exists 0, want, t2, c2. split_and!; [done|lia|lia|done|congruence|lia|done].
  - exists grant, want, (on_credit cpu scope (λ c, c <| cr_reserved_ns := have - grant |>) t2),
      (c2 <| cr_reserved_ns := have - grant |>).
    split_and!; [done|done|done|by apply credit_on_credit|cbn; congruence|cbn; lia|exact Hd'].
Qed.

Lemma grant_is_funded_witness :
  ∃ t', take_grant 0 2 false 5 sample_scopes = Some (1000000, t') ∧
    (sc_cpu_committed_ns <$> scopes t' !! 0 = Some 2000000) ∧
    (cr_reserved_ns <$> credit_at t' 0 2 = Some 1000000).
Proof.
  destruct (grant_is_funded 0 2 (sample_scope 1 2 (sample_limits 2)) (mkCredit 0 0 0) 5 sample_scopes)
    as (g & w & t' & c' & Hg & _); [apply sample_scopes_inv|by vm_compute|done|done|by vm_compute|].
  exists t'. vm_compute in Hg. injection Hg as <- <-. by vm_compute.
Defined.

(** ** The window *)

Lemma roll_foldl window l t :
  NoDup l →
  let t' := foldl (roll_index window) t l in
  (∀ i, scopes t' !! i =
     (λ n, if bool_decide (i ∈ l) && stale window n then roll_scope window n else n)
       <$> scopes t !! i) ∧
  N.odd (roll_seq t') = N.odd (roll_seq t) ∧ credits t' = credits t ∧ fenced t' = fenced t.
Proof.
  revert t. induction l as [|j l IH]; intros t Hnd.
  { cbn [foldl]. cbv zeta. split_and!; try done. intros i.
    rewrite (bool_decide_false (i ∈ [])) by apply not_elem_of_nil. by destruct (scopes t !! i). }
  apply NoDup_cons in Hnd as [Hj Hnd]. cbn [foldl].
  destruct (IH (roll_index window t j) Hnd) as (Hs & Hodd & Hcr & Hfe).
  assert (Ht1 : ∀ i, scopes (roll_index window t j) !! i =
    (λ n, if bool_decide (i = j) && stale window n then roll_scope window n else n)
      <$> scopes t !! i).
  { intros i. unfold roll_index. destruct (scopes t !! j) as [m|] eqn:Hm.
    - destruct (stale window m) eqn:Hst.
      + cbn -[alter]. rewrite table_alter. destruct (decide (j = i)) as [<-|Hne].
        * rewrite Hm, bool_decide_true by done. cbn [fmap option_fmap option_map]. by rewrite Hst.
        * rewrite bool_decide_false by done. by destruct (scopes t !! i).
      + destruct (decide (i = j)) as [->|Hne].
        * rewrite Hm, bool_decide_true by done. cbn [fmap option_fmap option_map]. by rewrite Hst.
        * rewrite bool_decide_false by done. by destruct (scopes t !! i).
    - destruct (decide (i = j)) as [->|Hne]; [by rewrite Hm|].
      rewrite bool_decide_false by done. by destruct (scopes t !! i). }
  split_and!.
  - intros i. rewrite Hs, Ht1. destruct (scopes t !! i) as [n|]; [|done].
    cbn [fmap option_fmap option_map]. destruct (decide (i = j)) as [->|Hne].
    + rewrite (bool_decide_false (j ∈ l)) by done.
      rewrite (bool_decide_true (j = j)) by done.
      by rewrite (bool_decide_true (j ∈ j :: l)) by left.
    + by rewrite (bool_decide_false (i = j)), elem_of_cons_ne by done.
  - rewrite Hodd. unfold roll_index. destruct (scopes t !! j); [|done].
    destruct (stale _ _); [|done]. cbn. unfold wrapping_add.
    rewrite N.Div0.add_mod_idemp_l. change 64 with (N.succ 63).
    rewrite <-!N.bit0_odd, N.mod_pow2_bits_low by lia.
    replace (roll_seq t + 1 + 1) with (roll_seq t + 2 * 1) by lia.
    rewrite !N.bit0_odd. by rewrite N.odd_add_mul_2.
  - rewrite Hcr. unfold roll_index. destruct (scopes t !! j); [|done]. by destruct (stale _ _).
  - rewrite Hfe. unfold roll_index. destruct (scopes t !! j); [|done]. by destruct (stale _ _).
Qed.

Lemma roll_scope_fresh window n : stale window (roll_scope window n) = false.
Proof.
  unfold stale. rewrite (bool_decide_true (sc_window_index (roll_scope window n) = window)).
  - by rewrite andb_false_r.
  - unfold roll_scope. cbv zeta. by repeat case_match.
Qed.

(** The table the windows close over: every charge held by a processor pulled in. *)
Definition flushed (t : Scopes) : Scopes := foldl flush_index t (indices (scopes t)).

Lemma flushed_len t : tlen (scopes (flushed t)) = tlen (scopes t).
Proof.
  assert (Hle : scopes_le eq (scopes t) (scopes (flushed t))); [|by destruct Hle].
  apply (foldl_le eq). intros t' i. unfold flush_index.
  destruct (scopes t' !! i); [|done]. case_decide; [done|apply flush_pending_charges_le].
Qed.

Lemma existsb_stale window tbl :
  existsb (stale window) tbl = false ↔ ∀ i n, tbl !! i = Some n → stale window n = false.
Proof.
  rewrite <-not_true_iff_false, existsb_exists. split.
  - intros H i n Hn. apply not_true_iff_false. intros Hs. apply H. exists n.
    split; [|done]. by eapply list_elem_of_In, list_elem_of_lookup_2.
  - intros H (n & [i Hi]%list_elem_of_In%list_elem_of_lookup & Hs).
    rewrite (H (N.of_nat i) n) in Hs; [done|]. unfold lookup, table_Lookup. by rewrite Nat2N.id.
Qed.

(** Rolling the window. If no scope is in an old window nothing happens.
    Otherwise every charge the processors hold is pulled in first, and then
    every live scope still in an old window is moved: what it was charged beyond
    its budget, and nothing else, opens the new window as already spent and
    already committed, is added to its debt, and its recovery account restarts
    at zero. Afterwards every live scope is in the window of [now], so rolling
    again for the same instant changes nothing, and the sequence a reservation
    watches is even again if it was. *)
Theorem roll_window_carries now t :
  let window := now / CPU_WINDOW_NS in
  let t' := roll_window now t in
  (∀ i n', scopes t' !! i = Some n' → sc_state n' ≠ Empty → sc_window_index n' = window) ∧
  (existsb (stale window) (scopes t) = false → t' = t) ∧
  (existsb (stale window) (scopes t) = true →
   ∀ i n, scopes (flushed t) !! i = Some n → stale window n = true →
     ∃ n', scopes t' !! i = Some n' ∧
       sc_cpu_window_ns n' = sc_cpu_window_ns n - l_cpu_budget_ns (sc_limits n) ∧
       sc_cpu_committed_ns n' = sc_cpu_window_ns n' ∧
       sc_window_opened_ns n' = sc_cpu_window_ns n' ∧
       sc_cpu_debt_ns n' = wrapping_add 64 (sc_cpu_debt_ns n) (sc_cpu_window_ns n') ∧
       sc_closure_used_ns n' = 0 ∧ sc_closure_committed_ns n' = 0) ∧
  roll_window now t' = t' ∧
  N.odd (roll_seq (foldl (roll_index window) (flushed t) (indices (scopes (flushed t))))) =
    N.odd (roll_seq (flushed t)).
Proof.
  intros window t'.
  destruct (roll_foldl window (indices (scopes (flushed t))) (flushed t) (NoDup_indices _))
    as (Hs & Hodd & _ & _).
  assert (Hcur : ∀ i n', scopes t' !! i = Some n' → stale window n' = false).
  { intros i n'. unfold t', roll_window. fold window.
    destruct (existsb (stale window) (scopes t)) eqn:Hex; cbn [negb].
    - fold (flushed t). rewrite Hs. destruct (scopes (flushed t) !! i) as [n|] eqn:Hn; [|done].
      cbn [fmap option_fmap option_map].
      rewrite bool_decide_true by (by eapply indices_lookup, table_lookup_lt).
      cbn [andb]. destruct (stale window n) eqn:Hst; intros [= <-]; [apply roll_scope_fresh|done].
    - intros Hn. by eapply existsb_stale. }
  split_and!; [| | | |done].
  - intros i n' Hn' Hne. apply Hcur in Hn'. unfold stale in Hn'.
    rewrite (bool_decide_false (sc_state n' = Empty)) in Hn' by done.
    by apply negb_false_iff, bool_decide_eq_true in Hn'.
  - intros Hex. unfold t', roll_window. fold window. by rewrite Hex.
  - intros Hex i n Hn Hst. unfold t', roll_window. fold window. rewrite Hex. cbn [negb].
    fold (flushed t). rewrite Hs, Hn. cbn [fmap option_fmap option_map].
    rewrite bool_decide_true by (by eapply indices_lookup, table_lookup_lt).
    cbn [andb]. rewrite Hst. eexists. split; [done|]. unfold roll_scope, saturating_sub. cbv zeta.
    split_and!; by repeat case_match.
  - unfold roll_window at 1. fold window.
    assert (existsb (stale window) (scopes t') = false) as ->; [|done].
    by apply existsb_stale.
Qed.
