(* ===== verification/ScopeRace.v ===== *)
(** * Interleaved reservations on one account

    [bounded_add] and its undo are atomic instructions of several processors on
    one counter. Here each processor is between instructions in one of three
    phases, and a step is one instruction of one processor. *)

From S2P Require Import Prelude Abi Obj Scope ScopeProofs.

#[local] Open Scope N_scope.

(** Where one processor stands in a reservation on the account. *)
(** kernel/src/scope.rs:650-656 [bounded_add, between its instructions] *)
Inductive Phase :=
| Idle
| Added (previous amount : N)
| Held (amount : N).

(** kernel/src/scope.rs:650-656 [bounded_add, the shared counter] *)
Record Race := mkRace { counter : N; procs : list Phase }.
#[global] Instance Race_rebuild : Rebuild Race := λ s, mkRace (counter s) (procs s).

(** kernel/src/scope.rs:651-652 [bounded_add, the test] *)
Definition over (limit previous amount : N) : bool :=
  bool_decide (limit < saturating_add 64 previous amount).

(** One atomic instruction of processor [i]. *)
(** kernel/src/scope.rs:649-657 [bounded_add, its instructions]; the undo of
    [reserve] and the update of [release] on the same counter *)
Inductive race_step (limit : N) (i : N) : Race → Race → Prop :=
| race_add s amount :
    procs s !! i = Some Idle →
    race_step limit i s
      (mkRace (wrapping_add 64 (counter s) amount)
         (<[i := Added (counter s) amount]> (procs s)))
| race_accept s previous amount :
    procs s !! i = Some (Added previous amount) → over limit previous amount = false →
    race_step limit i s (mkRace (counter s) (<[i := Held amount]> (procs s)))
| race_refuse s previous amount :
    procs s !! i = Some (Added previous amount) → over limit previous amount = true →
    race_step limit i s
      (mkRace (wrapping_sub 64 (counter s) amount) (<[i := Idle]> (procs s)))
| race_undo s amount :
    procs s !! i = Some (Held amount) →
    race_step limit i s
      (mkRace (wrapping_sub 64 (counter s) amount) (<[i := Idle]> (procs s)))
| race_release s amount :
    procs s !! i = Some (Held amount) →
    race_step limit i s
      (mkRace (saturating_sub (counter s) amount) (<[i := Idle]> (procs s))).

(** Amounts are at most [most], the largest request any caller makes. *)
Definition modest (most : N) (s s' : Race) : Prop :=
  ∀ i previous amount, procs s' !! i = Some (Added previous amount) →
    procs s !! i = Some (Added previous amount) ∨ amount <= most.

Definition any_step (limit most : N) (s s' : Race) : Prop :=
  (∃ i, race_step limit i s s') ∧ modest most s s'.

(** What a processor has been admitted, what it has on the counter, and what it
    is bound to be admitted. *)
Definition held (p : Phase) : N := match p with Held a => a | _ => 0 end.
Definition on_counter (p : Phase) : N :=
  match p with Idle => 0 | Added _ a | Held a => a end.
Definition won (limit : N) (p : Phase) : N :=
  match p with
  | Idle => 0
  | Added previous a => if over limit previous a then 0 else a
  | Held a => a
  end.

(** Without another processor in between, the instructions are [bounded_add]. *)
Lemma bounded_add_instructions limit c amount :
  bounded_add c amount limit =
    if over limit c amount
    then (inl c, wrapping_sub 64 (wrapping_add 64 c amount) amount)
    else (inr (saturating_add 64 c amount), wrapping_add 64 c amount).
Proof.
  unfold bounded_add, over. case_decide as H.
  - by rewrite bool_decide_true.
  - by rewrite bool_decide_false.
Qed.

Section race.
Context (limit most n : N) (Hroom : limit + n * most < 2 ^ 64).

Record race_inv (s : Race) : Prop := {
  race_procs : tlen (procs s) = n;
  race_amounts i p : procs s !! i = Some p → on_counter p <= most;
  race_counter : counter s = tsum on_counter (procs s);
  race_won : tsum (won limit) (procs s) <= limit
}.

Lemma race_counter_bound s : race_inv s → counter s <= n * most.
Proof.
  intros [Hn Ha -> _]. rewrite <-Hn. apply tsum_bound.
  intros p [i Hi]%list_elem_of_lookup. apply (Ha (N.of_nat i)).
  unfold lookup, table_Lookup. by rewrite Nat2N.id.
Qed.

Lemma won_le_counter s : race_inv s → tsum (won limit) (procs s) <= counter s.
Proof.
  intros [_ _ -> _]. apply tsum_le. intros [| |] _; cbn; try case_match; lia.
Qed.

Lemma over_exact previous amount :
  previous + amount < 2 ^ 64 → over limit previous amount = false → previous + amount <= limit.
Proof.
  unfold over, saturating_add. intros Hb Ho%bool_decide_eq_false. lia.
Qed.

(** One slot of the invariant changes. *)
Lemma race_inv_update s i p p' c' :
  race_inv s → procs s !! i = Some p → on_counter p' <= most →
  c' + on_counter p = counter s + on_counter p' →
  tsum (won limit) (procs s) + won limit p' <= limit + won limit p →
  race_inv (mkRace c' (<[i := p']> (procs s))).
Proof.
  intros [Hn Ha Hc Hw] Hp Hp' Hc' Hw'.
  pose proof (tsum_insert on_counter (procs s) i p' p Hp).
  pose proof (tsum_insert (won limit) (procs s) i p' p Hp).
  split; cbn [counter procs]; [by rewrite tlen_insert| |lia|lia].
  intros j q. rewrite table_insert. case_decide; [by intros [= <-]|apply Ha].
Qed.

Lemma race_step_inv s s' : any_step limit most s s' → race_inv s → race_inv s'.
Proof.
  intros [[i Hstep] Hmod] Hinv. pose proof (race_counter_bound s Hinv) as Hb.
  pose proof (won_le_counter s Hinv) as Hwc. pose proof (race_won s Hinv) as Hw.
  assert (Hon : ∀ p, procs s !! i = Some p → on_counter p <= counter s).
  { intros p Hp. rewrite (race_counter s Hinv).
    pose proof (tsum_insert on_counter (procs s) i Idle p Hp) as H. cbn in H. lia. }
  assert (Hn : 1 <= n ∨ procs s !! i = None).
  { destruct (procs s !! i) eqn:Hp; [left|by right]. apply table_lookup_lt in Hp.
    rewrite (race_procs s Hinv) in Hp. lia. }
  destruct Hstep as [s amount Hp|s prev amount Hp Ho|s prev amount Hp Ho|s amount Hp|s amount Hp].
  - destruct Hn as [Hn|Hn]; [|congruence].
    assert (amount <= most) as Ham.
    { destruct (Hmod i (counter s) amount) as [?|?]; [|congruence|done].
      cbn. apply table_insert_eq. by eapply table_lookup_lt. }
    assert (Hidle : counter s + most <= n * most).
    { (* the slot of an idle processor contributes nothing *)
      rewrite (race_counter s Hinv).
      pose proof (tsum_insert on_counter (procs s) i (Held most) Idle Hp) as H. cbn in H.
      assert (tsum on_counter (<[i := Held most]> (procs s)) <= n * most); [|lia].
      rewrite <-(race_procs s Hinv), <-(tlen_insert i (Held most)). apply tsum_bound.
      intros q [j Hj]%list_elem_of_lookup. unfold insert, table_Insert in Hj.
      apply list_lookup_insert_Some in Hj as [(_ & <- & _)|[_ Hj]]; [done|].
      apply (race_amounts s Hinv (N.of_nat j)). unfold lookup, table_Lookup. by rewrite Nat2N.id. }
    rewrite wrapping_add_small by lia.
    eapply race_inv_update; [done..|cbn; lia|].
    cbn. destruct (over limit (counter s) amount) eqn:Ho; [lia|].
    apply over_exact in Ho; lia.
  - eapply race_inv_update; [done..|by apply (race_amounts s Hinv i (Added prev amount))|cbn; lia|].
    cbn. rewrite Ho. lia.
  - specialize (Hon _ Hp). cbn in Hon. rewrite wrapping_sub_small by lia.
    eapply race_inv_update; [done..|cbn; lia|cbn; lia|]. cbn. rewrite Ho. lia.
  - specialize (Hon _ Hp). cbn in Hon. rewrite wrapping_sub_small by lia.
    eapply race_inv_update; [done..|cbn; lia|cbn; lia|]. cbn. lia.
  - specialize (Hon _ Hp). cbn in Hon. unfold saturating_sub.
    eapply race_inv_update; [done..|cbn; lia|cbn; lia|]. cbn. lia.
Qed.
End race.

Lemma race_inv_start limit most n :
  race_inv limit most n (mkRace 0 (replicate (N.to_nat n) Idle)).
Proof.
  assert (Hz : ∀ m : Phase → N, m Idle = 0 → tsum m (replicate (N.to_nat n) Idle) = 0).
  { intros m Hm. induction (N.to_nat n) as [|k IH]; [done|].
    change (m Idle + tsum m (replicate k Idle) = 0). by rewrite Hm, IH. }
  split; cbn [procs counter].
  - unfold tlen. rewrite length_replicate. lia.
  - intros i p Hi%list_elem_of_lookup_2. apply elem_of_replicate in Hi as [-> _]. cbn. lia.
  - by rewrite Hz.
  - rewrite Hz by done. lia.
Qed.

(** C17. Admission is exact under any interleaving. Let [n] processors reserve,
    undo and release on one account, an instruction of any of them at a time,
    with requests small enough that all of them in flight together do not wrap
    the counter. At every instant what has been admitted is inside the
    ceiling, although the counter itself may be past it; the counter is
    exactly what the processors have put on it; and whenever no reservation is
    in flight the counter is the admitted total. *)
Theorem admitted_within_ceiling limit most n s :
  limit + n * most < 2 ^ 64 →
  rtc (any_step limit most) (mkRace 0 (replicate (N.to_nat n) Idle)) s →
  tsum held (procs s) <= limit ∧
  counter s = tsum on_counter (procs s) ∧
  ((∀ i p a, procs s !! i ≠ Some (Added p a)) → counter s = tsum held (procs s)).
Proof.
  intros Hroom Hsteps.
  assert (race_inv limit most n s) as [Hn Ha Hc Hw].
  { revert Hsteps. generalize (race_inv_start limit most n). generalize (mkRace 0 (replicate (N.to_nat n) Idle)).
    intros s0 H0 Hsteps. induction Hsteps; [done|]. by eauto using race_step_inv. }
  split_and!; [|done|].
  - etrans; [|exact Hw]. apply tsum_le. intros [| |] _; cbn; try case_match; lia.
  - intros Hquiet. rewrite Hc. apply N.le_antisymm; apply tsum_le; intros p [i Hi]%list_elem_of_lookup;
      destruct p as [|q a|]; cbn; try lia.
    destruct (Hquiet (N.of_nat i) q a). unfold lookup, table_Lookup. by rewrite Nat2N.id.
Qed.

(** Two processors ask for three of a ceiling of four. *)
Definition race0 : Race := mkRace 0 [Idle; Idle].
Definition race2 : Race := mkRace 6 [Added 0 3; Added 3 3].

Lemma race2_reachable : rtc (any_step 4 3) race0 race2.
Proof.
  eapply rtc_l; [|eapply rtc_l; [|done]].
  - split; [exists 0; by apply (race_add 4 0 race0 3)|].
    intros i p a Hi. right. destruct (decide (i = 0)) as [->|]; [by injection Hi as _ <-|].
    destruct (decide (i = 1)) as [->|]; [done|].
    apply table_lookup_lt in Hi. change (i < 2) in Hi. lia.
  - split; [exists 1; by apply (race_add 4 1 (mkRace 3 [Added 0 3; Idle]) 3)|].
    intros i p a Hi. right. destruct (decide (i = 0)) as [->|]; [by injection Hi as _ <-|].
    destruct (decide (i = 1)) as [->|]; [by injection Hi as _ <-|].
    apply table_lookup_lt in Hi. change (i < 2) in Hi. lia.
Qed.

Lemma admitted_within_ceiling_witness : tsum held (procs race2) <= 4.
Proof. apply (admitted_within_ceiling 4 3 2 race2); [done|]. apply race2_reachable. Defined.

(** The counter of an account is observably past its ceiling while a refused
    reservation has not been undone. *)
Theorem ceiling_exceeded_in_flight :
  rtc (any_step 4 3) race0 race2 ∧ 4 < counter race2.
Proof. split; [apply race2_reachable|done]. Qed.
