(* ===== verification/Ctrl.v ===== *)
(** * The control-receipt log

    [kernel/src/ctrl.rs]: a ring that never overwrites, with cells kept back for
    closing receipts, and its refinement to a bounded queue. *)

From S2P Require Import Prelude Abi Obj.

#[local] Open Scope N_scope.

(** kernel/src/limits.rs:56-56 [CONTROL_LOG_CAPACITY] *)
Definition CONTROL_LOG_CAPACITY : N := limit.CONTROL_LOG_CAPACITY.
(** kernel/src/limits.rs:59-59 [CONTROL_LOG_RESERVED] *)
Definition CONTROL_LOG_RESERVED : N := limit.CONTROL_LOG_RESERVED.
(** kernel/src/ctrl.rs:26-26 [RECEIPT_SCHEMA] *)
Definition RECEIPT_SCHEMA : N := 1.

(** abi/src/generated.rs:2700-2727 [ReceiptRecord] *)
Record ReceiptRecord := mkReceipt {
  r_schema : N;
  r_kind : N;
  r_sequence : N;
  r_epoch : N;
  r_ns : N;
  r_origin_domain_id : N;
  r_origin_scope_id : N;
  r_object_id : N;
  r_grant_id : N;
  r_parent_invocation_id : N;
  r_result : Z;
  r_a : N;
  r_b : N
}.
#[global] Instance ReceiptRecord_rebuild : Rebuild ReceiptRecord := λ r,
  mkReceipt (r_schema r) (r_kind r) (r_sequence r) (r_epoch r) (r_ns r) (r_origin_domain_id r)
    (r_origin_scope_id r) (r_object_id r) (r_grant_id r) (r_parent_invocation_id r) (r_result r)
    (r_a r) (r_b r).

(** kernel/src/ctrl.rs:30-32 [is_closing] *)
Definition is_closing (kind : N) : bool :=
  bool_decide (kind = receipt_kind.FENCE) || bool_decide (kind = receipt_kind.RETIRE).

(** kernel/src/ctrl.rs:35-71 [ControlLog] *)
Record ControlLog := mkControlLog {
  cl_used : bool;
  cl_generation : N;
  cl_id : N;
  cl_owner_scope : ScopeId;
  cl_records : list ReceiptRecord;
  cl_head : N;
  cl_count : N;
  cl_next_sequence : N;
  cl_oldest_sequence : N;
  cl_lost : N;
  cl_coalesced : N;
  cl_pending_reservations : N;
  cl_refs : N;
  cl_readers : N
}.
#[global] Instance ControlLog_rebuild : Rebuild ControlLog := λ l,
  mkControlLog (cl_used l) (cl_generation l) (cl_id l) (cl_owner_scope l) (cl_records l)
    (cl_head l) (cl_count l) (cl_next_sequence l) (cl_oldest_sequence l) (cl_lost l)
    (cl_coalesced l) (cl_pending_reservations l) (cl_refs l) (cl_readers l).

Module ControlLog.
(** kernel/src/ctrl.rs:82-82 [ReceiptRecord::zeroed] *)
Definition zeroed : ReceiptRecord := mkReceipt 0 0 0 0 0 0 0 0 0 0 0 0 0.

(** kernel/src/ctrl.rs:76-93 [ControlLog::empty] *)
Definition empty : ControlLog := {|
  cl_used := false;
  cl_generation := 0;
  cl_id := 0;
  cl_owner_scope := 0;
  cl_records := replicate (N.to_nat CONTROL_LOG_CAPACITY) zeroed;
  cl_head := 0;
  cl_count := 0;
  cl_next_sequence := 1;
  cl_oldest_sequence := 1;
  cl_lost := 0;
  cl_coalesced := 0;
  cl_pending_reservations := 0;
  cl_refs := 0;
  cl_readers := 0
|}.

(** kernel/src/ctrl.rs:97-99 [ControlLog::ordinary_capacity] *)
Definition ordinary_capacity : N := CONTROL_LOG_CAPACITY - CONTROL_LOG_RESERVED.

(** kernel/src/ctrl.rs:103-105 [ControlLog::can_reserve] *)
Definition can_reserve (l : ControlLog) : bool :=
  bool_decide (cl_count l + cl_pending_reservations l < ordinary_capacity).

(** kernel/src/ctrl.rs:108-114 [ControlLog::reserve] *)
Definition reserve (l : ControlLog) : bool * ControlLog :=
  if negb (can_reserve l) then (false, l)
  else (true, l <| cl_pending_reservations ::= λ p, p + 1 |>).

(** kernel/src/ctrl.rs:118-120 [ControlLog::release_reservation] *)
Definition release_reservation (l : ControlLog) : ControlLog :=
  l <| cl_pending_reservations ::= λ p, saturating_sub p 1 |>.

(** kernel/src/ctrl.rs:122-133 [ControlLog::push] *)
Definition push (record : ReceiptRecord) (l : ControlLog) : bool * ControlLog :=
  if decide (CONTROL_LOG_CAPACITY <= cl_count l) then (false, l) else
  let index := (cl_head l + cl_count l) mod CONTROL_LOG_CAPACITY in
  let l := l <| cl_records ::= <[index := record]> |> in
  let l := if decide (cl_count l = 0) then l <| cl_oldest_sequence := r_sequence record |> else l in
  (true, l <| cl_count ::= λ c, c + 1 |>).

(** kernel/src/ctrl.rs:148-152 [ControlLog::write, the cells a kind may occupy] *)
Definition room_for (kind : N) : N :=
  if is_closing kind then CONTROL_LOG_CAPACITY else ordinary_capacity.

(** kernel/src/ctrl.rs:146-170 [ControlLog::write] *)
Definition write (record : ReceiptRecord) (l : ControlLog) : N * ControlLog :=
  let closing := is_closing (r_kind record) in
  if decide (room_for (r_kind record) <= cl_count l) then
    (0, if closing then l <| cl_coalesced ::= λ c, saturating_add 32 c 1 |>
        else l <| cl_lost ::= λ c, saturating_add 32 c 1 |>)
  else
    let record := record <| r_schema := RECEIPT_SCHEMA |>
                         <| r_sequence := cl_next_sequence l |> in
    let l := l <| cl_next_sequence ::= λ s, saturating_add 64 s 1 |> in
    let '(ok, l) := push record l in
    if ok : bool then (r_sequence record, l)
    else (0, l <| cl_lost ::= λ c, saturating_add 32 c 1 |>).

(** kernel/src/ctrl.rs:136-139 [ControlLog::commit_reserved] *)
Definition commit_reserved (record : ReceiptRecord) (l : ControlLog) : N * ControlLog :=
  write record (l <| cl_pending_reservations ::= λ p, saturating_sub p 1 |>).

(** kernel/src/ctrl.rs:173-179 [ControlLog::read]. The records copied into a buffer of
    [len] slots. *)
Definition read (len : N) (l : ControlLog) : list ReceiptRecord :=
  let take := N.min len (cl_count l) in
  omap (λ offset, cl_records l !! ((cl_head l + N.of_nat offset) mod CONTROL_LOG_CAPACITY))
    (seq 0 (N.to_nat take)).

(** kernel/src/ctrl.rs:184-192 [ControlLog::acknowledge, the loop]. The fuel is the number
    of live records, which every turn lowers. *)
Fixpoint acknowledge_from (fuel : nat) (sequence dropped : N) (l : ControlLog) :
    N * ControlLog :=
  match fuel with
  | O => (dropped, l)
  | S fuel =>
      if decide (cl_count l = 0) then (dropped, l) else
      match cl_records l !! cl_head l with
      | None => (dropped, l)
      | Some record =>
          if decide (sequence < r_sequence record) then (dropped, l)
          else acknowledge_from fuel sequence (dropped + 1)
                 (l <| cl_head ::= λ h, (h + 1) mod CONTROL_LOG_CAPACITY |>
                    <| cl_count ::= λ c, c - 1 |>)
      end
  end.
(** kernel/src/ctrl.rs:182-199 [ControlLog::acknowledge] *)
Definition acknowledge (sequence : N) (l : ControlLog) : N * ControlLog :=
  let '(dropped, l) := acknowledge_from (N.to_nat (cl_count l)) sequence 0 l in
  (dropped,
   l <| cl_oldest_sequence :=
     if decide (cl_count l = 0) then cl_next_sequence l
     else match cl_records l !! cl_head l with
          | Some record => r_sequence record
          | None => 0
          end |>).
End ControlLog.

(** ** The queue a log stands for *)

(** The live records, oldest first. *)
Definition contents (l : ControlLog) : list ReceiptRecord := ControlLog.read (cl_count l) l.

(** The ring: its storage, its cursor and its count. *)
Record ring_wf (l : ControlLog) : Prop := {
  ring_len : tlen (cl_records l) = CONTROL_LOG_CAPACITY;
  ring_head : cl_head l < CONTROL_LOG_CAPACITY;
  ring_count : cl_count l <= CONTROL_LOG_CAPACITY
}.

(** The slot that holds the record at an offset from the oldest. *)
Definition slot_of (head offset : N) : N := (head + offset) mod CONTROL_LOG_CAPACITY.

Lemma capacity_eq : CONTROL_LOG_CAPACITY = 256.
Proof. done. Qed.

Lemma slot_of_lt head offset : slot_of head offset < CONTROL_LOG_CAPACITY.
Proof. apply N.mod_lt. done. Qed.

Lemma slot_of_inj head i j :
  i < CONTROL_LOG_CAPACITY → j < CONTROL_LOG_CAPACITY → slot_of head i = slot_of head j → i = j.
Proof.
  unfold slot_of. rewrite capacity_eq. intros Hi Hj H.
  pose proof (N.div_mod (head + i) 256). pose proof (N.div_mod (head + j) 256). nia.
Qed.

Lemma slot_of_next head offset :
  slot_of (slot_of head 1) offset = slot_of head (offset + 1).
Proof.
  unfold slot_of. rewrite N.Div0.add_mod_idemp_l. f_equal. lia.
Qed.

Lemma read_lookup l n i :
  ring_wf l → n <= cl_count l →
  ControlLog.read n l !! i = if decide (i < n) then cl_records l !! slot_of (cl_head l) i else None.
Proof.
  intros Hwf Hn. unfold ControlLog.read. rewrite N.min_l by done.
  rewrite <-(N2Nat.id i). generalize (N.to_nat i). clear i. intros i.
  assert (Hslot : ∀ o, is_Some (cl_records l !! slot_of (cl_head l) o)).
  { intros o. apply table_lookup_is_Some. rewrite (ring_len l Hwf). apply slot_of_lt. }
  assert (Hgen : ∀ k s, omap (λ offset, cl_records l !! slot_of (cl_head l) (N.of_nat offset)) (seq s k)
    !! N.of_nat i = if decide (i < k)%nat then cl_records l !! slot_of (cl_head l) (N.of_nat (s + i)) else None).
  { intros k s. rewrite (table_lookup_nat (omap _ _)). revert i s.
    induction k as [|k IH]; intros i s; [done|]. cbn [seq].
    destruct (Hslot (N.of_nat s)) as [r Hr]. cbn -[lookup slot_of]. rewrite Hr, lookup_cons.
    destruct i as [|i].
    - by rewrite Nat.add_0_r.
    - unfold omap in IH. rewrite IH. replace (S s + i)%nat with (s + S i)%nat by lia.
      repeat case_decide; (done || lia). }
  unfold slot_of in Hgen. rewrite Hgen. unfold slot_of.
  repeat case_decide; (done || lia).
Qed.

Lemma contents_lookup l i :
  ring_wf l →
  contents l !! i =
    if decide (i < cl_count l) then cl_records l !! slot_of (cl_head l) i else None.
Proof. intros Hwf. by apply read_lookup. Qed.

Lemma contents_len l : ring_wf l → tlen (contents l) = cl_count l.
Proof.
  intros Hwf.
  assert (Hi : ∀ i, i < tlen (contents l) ↔ i < cl_count l).
  { intros i. rewrite table_lookup_is_Some, contents_lookup by done. case_decide; split; try done.
    intros _. apply table_lookup_is_Some. rewrite (ring_len l Hwf). apply slot_of_lt. }
  pose proof (Hi (cl_count l)). pose proof (Hi (tlen (contents l))). lia.
Qed.

(** *** Writing appends, acknowledging drops a prefix *)

Lemma list_eq_snoc {A} (k k' : list A) x :
  tlen k' = tlen k + 1 →
  (∀ i : N, i < tlen k → k' !! i = k !! i) → k' !! tlen k = Some x → k' = k ++ [x].
Proof.
  intros Hlen Hpre Hx. apply table_eq. intros i. unfold tlen in *.
  destruct (N.lt_trichotomy i (N.of_nat (length k))) as [Hi|[->|Hi]].
  - rewrite Hpre by done. unfold lookup, table_Lookup. rewrite lookup_app_l; [done|]. lia.
  - rewrite Hx. rewrite table_lookup_nat. by rewrite list_lookup_middle.
  - rewrite table_lookup_ge by (unfold tlen; lia). symmetry. apply table_lookup_ge.
    unfold tlen. rewrite length_app. cbn. lia.
Qed.

Lemma push_spec record l ok l' :
  ring_wf l → ControlLog.push record l = (ok, l') →
  if ok : bool then
    cl_count l < CONTROL_LOG_CAPACITY ∧ ring_wf l' ∧ contents l' = contents l ++ [record] ∧
    cl_count l' = cl_count l + 1 ∧ cl_next_sequence l' = cl_next_sequence l ∧
    cl_lost l' = cl_lost l ∧ cl_coalesced l' = cl_coalesced l ∧
    cl_pending_reservations l' = cl_pending_reservations l
  else CONTROL_LOG_CAPACITY <= cl_count l ∧ l' = l.
Proof.
  intros Hwf. unfold ControlLog.push. case_decide as Hfull; [by intros [= <- <-]|].
  fold (slot_of (cl_head l) (cl_count l)).
  set (recs := <[slot_of (cl_head l) (cl_count l) := record]> (cl_records l)).
  assert (Hl' : ∀ x, x = l <| cl_records := recs |> <| cl_count := cl_count l + 1 |>
      <| cl_oldest_sequence := cl_oldest_sequence x |> →
    cl_count l < CONTROL_LOG_CAPACITY ∧ ring_wf x ∧ contents x = contents l ++ [record] ∧
    cl_count x = cl_count l + 1 ∧ cl_next_sequence x = cl_next_sequence l ∧
    cl_lost x = cl_lost l ∧ cl_coalesced x = cl_coalesced l ∧
    cl_pending_reservations x = cl_pending_reservations l).
  { intros x ->. assert (Hx : ring_wf (l <| cl_records := recs |> <| cl_count := cl_count l + 1 |>
      <| cl_oldest_sequence := cl_oldest_sequence x |>)).
    { split; cbn; [unfold recs; rewrite tlen_insert; apply Hwf|apply Hwf|lia]. }
    split_and!; [lia|done| |done..]. apply list_eq_snoc.
    - by rewrite !contents_len.
    - intros i. rewrite contents_len by done. intros Hi. rewrite !contents_lookup by done. cbn.
      rewrite !decide_True by lia. unfold recs. apply table_insert_ne.
      intros H%slot_of_inj; lia.
    - rewrite contents_len, contents_lookup by done. cbn. rewrite decide_True by lia.
      unfold recs. apply table_insert_eq. rewrite (ring_len l Hwf). apply slot_of_lt. }
  intros [= <- <-]. apply Hl'. by case_decide.
Qed.

(** The receipt as the log stores it. *)
Definition stamped (record : ReceiptRecord) (sequence : N) : ReceiptRecord :=
  record <| r_schema := RECEIPT_SCHEMA |> <| r_sequence := sequence |>.

Lemma room_for_bound kind : ControlLog.room_for kind <= CONTROL_LOG_CAPACITY.
Proof. unfold ControlLog.room_for. by destruct (is_closing kind). Qed.

Lemma write_spec record l :
  ring_wf l →
  let '(s, l') := ControlLog.write record l in
  ring_wf l' ∧ cl_pending_reservations l' = cl_pending_reservations l ∧
  if decide (cl_count l < ControlLog.room_for (r_kind record)) then
    s = cl_next_sequence l ∧ contents l' = contents l ++ [stamped record s] ∧
    cl_count l' = cl_count l + 1 ∧
    cl_next_sequence l' = saturating_add 64 (cl_next_sequence l) 1 ∧
    cl_lost l' = cl_lost l ∧ cl_coalesced l' = cl_coalesced l
  else
    s = 0 ∧ contents l' = contents l ∧ cl_count l' = cl_count l ∧
    cl_next_sequence l' = cl_next_sequence l ∧
    (cl_lost l', cl_coalesced l') =
      if is_closing (r_kind record)
      then (cl_lost l, saturating_add 32 (cl_coalesced l) 1)
      else (saturating_add 32 (cl_lost l) 1, cl_coalesced l).
Proof.
  intros Hwf. unfold ControlLog.write.
  destruct (decide (ControlLog.room_for (r_kind record) <= cl_count l)) as [Hfull|Hroom].
  - cbv iota beta. rewrite decide_False by lia. destruct (is_closing (r_kind record));
      (split; [by destruct Hwf|]); by split_and!.
  - cbv zeta. pose proof (room_for_bound (r_kind record)).
    fold (stamped record (cl_next_sequence l)).
    set (l1 := l <| cl_next_sequence ::= λ s, saturating_add 64 s 1 |>).
    assert (Hwf1 : ring_wf l1) by by destruct Hwf.
    destruct (ControlLog.push _ l1) as [ok l'] eqn:Hp. apply push_spec in Hp; [|done].
    destruct ok.
    + rewrite decide_True by lia. destruct Hp as (_ & ? & Hc & ? & ? & ? & ? & ?). by split_and!.
    + destruct Hp as [Hfull _]. change (cl_count l1) with (cl_count l) in Hfull. lia.
Qed.

(** What acknowledging [sequence] leaves of a queue. *)
Fixpoint drop_through (sequence : N) (k : list ReceiptRecord) : list ReceiptRecord :=
  match k with
  | [] => []
  | r :: rest => if decide (r_sequence r <= sequence) then drop_through sequence rest else k
  end.

Lemma contents_head l :
  ring_wf l → 0 < cl_count l →
  ∃ r rest, cl_records l !! cl_head l = Some r ∧ contents l = r :: rest ∧
    let l1 := l <| cl_head ::= λ h, (h + 1) mod CONTROL_LOG_CAPACITY |>
                <| cl_count ::= λ c, c - 1 |> in
    ring_wf l1 ∧ contents l1 = rest.
Proof.
  intros Hwf Hc.
  assert (is_Some (cl_records l !! cl_head l)) as [r Hr].
  { apply table_lookup_is_Some. rewrite (ring_len l Hwf). apply Hwf. }
  assert (Hs0 : slot_of (cl_head l) 0 = cl_head l).
  { unfold slot_of. rewrite N.add_0_r. apply N.mod_small, Hwf. }
  pose proof (contents_lookup l 0 Hwf) as H0. rewrite decide_True, Hs0, Hr in H0 by done.
  destruct (contents l) as [|r' rest] eqn:Hcon; [done|]. injection H0 as ->.
  exists r, rest. split; [done|]. split; [done|]. intros l1.
  assert (Hwf1 : ring_wf l1).
  { split; cbn; [apply Hwf|apply slot_of_lt|]. pose proof (ring_count l Hwf). lia. }
  split; [done|]. apply table_eq. intros i. rewrite contents_lookup by done.
  change (cl_head l1) with (slot_of (cl_head l) 1). change (cl_records l1) with (cl_records l).
  change (cl_count l1) with (cl_count l - 1). rewrite slot_of_next.
  assert (rest !! i = contents l !! (i + 1)) as ->.
  { rewrite Hcon. unfold lookup, table_Lookup.
    by replace (N.to_nat (i + 1)) with (S (N.to_nat i)) by lia. }
  rewrite contents_lookup by done. repeat case_decide; (done || lia).
Qed.

Lemma contents_nil l : ring_wf l → cl_count l = 0 → contents l = [].
Proof.
  intros Hwf Hz. pose proof (contents_len l Hwf) as Hlen. destruct (contents l); [done|].
  unfold tlen in Hlen. cbn in Hlen. lia.
Qed.

Lemma acknowledge_from_spec fuel sequence dropped l :
  ring_wf l → cl_count l <= N.of_nat fuel →
  let '(d, l') := ControlLog.acknowledge_from fuel sequence dropped l in
  ring_wf l' ∧ contents l' = drop_through sequence (contents l) ∧
  d + cl_count l' = dropped + cl_count l ∧ cl_next_sequence l' = cl_next_sequence l ∧
  cl_pending_reservations l' = cl_pending_reservations l ∧ cl_lost l' = cl_lost l ∧
  cl_coalesced l' = cl_coalesced l.
Proof.
  revert dropped l. induction fuel as [|fuel IH]; intros dropped l Hwf Hfuel.
  { cbn. rewrite (contents_nil l) by (done || lia). done. }
  cbn [ControlLog.acknowledge_from]. destruct (decide (cl_count l = 0)) as [Hz|Hz].
  { by rewrite (contents_nil l). }
  destruct (contents_head l) as (r & rest & Hr & Hcon & Hwf1 & Hrest); [done|lia|].
  rewrite Hr, Hcon. cbn [drop_through].
  destruct (decide (sequence < r_sequence r)) as [Hgt|Hle].
  { by rewrite decide_False by lia. }
  rewrite decide_True by lia. set (l1 := l <| cl_head ::= _ |> <| cl_count ::= _ |>) in *.
  specialize (IH (dropped + 1) l1 Hwf1). change (cl_count l1) with (cl_count l - 1) in IH.
  destruct (ControlLog.acknowledge_from _ _ _ l1) as [d l'].
  destruct IH as (? & Hc & ? & ? & ? & ? & ?); [lia|]. rewrite Hrest in Hc.
  split_and!; (done || lia).
Qed.

(** ** Invariants over every use of a log *)

Definition ordinary (r : ReceiptRecord) : bool := negb (is_closing (r_kind r)).

(** Sequences are contiguous, and ordinary receipts never occupy the cells kept
    for closing ones. *)
Record log_inv (l : ControlLog) : Prop := {
  li_ring : ring_wf l;
  li_oldest : cl_oldest_sequence l + cl_count l = cl_next_sequence l;
  li_sequence i r : contents l !! i = Some r → r_sequence r = cl_oldest_sequence l + i;
  li_ordinary : tlen (filter ordinary (contents l)) <= ControlLog.ordinary_capacity;
  li_positive : 0 < cl_oldest_sequence l
}.

(** One operation on a log, while its sequence numbers last. *)
Inductive log_step : ControlLog → ControlLog → Prop :=
| step_reserve l : log_step l (ControlLog.reserve l).2
| step_release_reservation l : log_step l (ControlLog.release_reservation l)
| step_write r l : cl_next_sequence l < U64_MAX → log_step l (ControlLog.write r l).2
| step_commit r l : cl_next_sequence l < U64_MAX → log_step l (ControlLog.commit_reserved r l).2
| step_acknowledge s l : log_step l (ControlLog.acknowledge s l).2.

Lemma filter_bound {A} (p : A → bool) k : tlen (filter p k) <= tlen k.
Proof. unfold tlen. pose proof (length_filter p k). lia. Qed.

Lemma push_oldest record l l' :
  ControlLog.push record l = (true, l') →
  cl_oldest_sequence l' = if decide (cl_count l = 0) then r_sequence record else cl_oldest_sequence l.
Proof.
  unfold ControlLog.push. case_decide; [done|]. intros [= <-]. cbn. by case_decide.
Qed.

Lemma write_oldest record l :
  ring_wf l → cl_oldest_sequence l + cl_count l = cl_next_sequence l →
  cl_oldest_sequence (ControlLog.write record l).2 = cl_oldest_sequence l.
Proof.
  intros Hwf Ho. unfold ControlLog.write. case_decide; [by destruct (is_closing _)|].
  cbv zeta. set (l1 := l <| cl_next_sequence ::= _ |>).
  destruct (ControlLog.push _ l1) as [ok l'] eqn:Hp. destruct ok.
  - apply push_oldest in Hp. cbn in *. rewrite Hp. case_decide; [lia|done].
  - apply push_spec in Hp as [_ ->]; [done|]. by destruct Hwf.
Qed.

Lemma write_inv r l :
  cl_next_sequence l < U64_MAX → log_inv l → log_inv (ControlLog.write r l).2.
Proof.
  intros Hnext [Hwf Ho Hs Hord Hpos]. pose proof (write_oldest r l Hwf Ho) as Hold.
  pose proof (write_spec r l Hwf) as Hw. destruct (ControlLog.write r l) as [s l'].
  cbn [snd] in *. destruct Hw as (Hwf' & _ & Hw). destruct (decide (_ < _)) as [Hroom|Hfull].
  - destruct Hw as (-> & Hc & Hcnt & Hn & _). split; [done|..]; rewrite ?Hold, ?Hcnt, ?Hn, ?Hc.
    + unfold saturating_add, U64_MAX in *. lia.
    + intros i x Hx. destruct (decide (i < tlen (contents l))) as [Hi|Hi].
      * apply Hs. unfold lookup, table_Lookup in *. rewrite lookup_app_l in Hx; [done|].
        unfold tlen in Hi. lia.
      * pose proof (table_lookup_lt _ _ _ Hx) as Hlt. rewrite tlen_app in Hlt.
        assert (i = tlen (contents l)) as -> by (unfold tlen in *; cbn in *; lia).
        unfold tlen in Hx. rewrite table_lookup_nat, list_lookup_middle in Hx by done.
        injection Hx as <-. cbn. rewrite contents_len by done. lia.
    + rewrite filter_app, tlen_app. pose proof (filter_bound ordinary (contents l)) as Hb.
      rewrite contents_len in Hb by done. unfold ControlLog.room_for in Hroom.
      rewrite filter_cons. destruct (is_closing (r_kind r)) eqn:Hk.
      * rewrite decide_False; [rewrite N.add_0_r; done|]. unfold ordinary. cbn. rewrite Hk. by intros [].
      * case_decide; unfold tlen in *; cbn [length filter] in *; cbn in *; lia.
    + done.
  - destruct Hw as (-> & Hc & Hcnt & Hn & _). split; [done|..]; by rewrite ?Hold, ?Hcnt, ?Hn, ?Hc.
Qed.

Lemma drop_through_suffix s k : ∃ n, drop_through s k = drop n k.
Proof.
  induction k as [|r k [n IH]]; [by exists 0%nat|]. cbn. case_decide.
  - by exists (S n).
  - by exists 0%nat.
Qed.

Lemma acknowledge_spec s l :
  ring_wf l →
  let '(d, l') := ControlLog.acknowledge s l in
  ring_wf l' ∧ contents l' = drop_through s (contents l) ∧ d + cl_count l' = cl_count l ∧
  cl_next_sequence l' = cl_next_sequence l ∧
  cl_pending_reservations l' = cl_pending_reservations l ∧
  cl_oldest_sequence l' =
    match contents l' with r :: _ => r_sequence r | [] => cl_next_sequence l end.
Proof.
  intros Hwf. unfold ControlLog.acknowledge.
  pose proof (acknowledge_from_spec (N.to_nat (cl_count l)) s 0 l Hwf) as H.
  destruct (ControlLog.acknowledge_from _ _ _ l) as [d l1].
  destruct H as (Hwf1 & Hc & Hd & Hn & Hp & _); [lia|].
  set (l2 := l1 <| cl_oldest_sequence := _ |>).
  assert (ring_wf l2) by by destruct Hwf1.
  change (contents l2) with (contents l1). split_and!; try done.
  unfold l2. cbn -[lookup contents]. case_decide as Hz.
  - by rewrite (contents_nil l1).
  - destruct (contents_head l1) as (r & rest & -> & -> & _); [done|lia|done].
Qed.

Lemma acknowledge_inv s l : log_inv l → log_inv (ControlLog.acknowledge s l).2.
Proof.
  intros [Hwf Ho Hs Hord Hpos]. pose proof (acknowledge_spec s l Hwf) as Ha.
  destruct (ControlLog.acknowledge s l) as [d l']. cbn [snd].
  destruct Ha as (Hwf' & Hc & Hd & Hn & _ & Hold).
  destruct (drop_through_suffix s (contents l)) as [n Hdrop]. rewrite Hdrop in Hc.
  assert (Hlen : cl_count l' = cl_count l - N.of_nat n).
  { rewrite <-(contents_len l'), <-(contents_len l) by done. rewrite Hc. unfold tlen.
    rewrite length_drop. lia. }
  assert (Hx : ∀ i, contents l' !! i = contents l !! (i + N.of_nat n)).
  { intros i. rewrite Hc. unfold lookup, table_Lookup. rewrite lookup_drop. f_equal. lia. }
  assert (Hold' : cl_oldest_sequence l' + cl_count l' = cl_next_sequence l).
  { rewrite Hold. destruct (contents l') as [|r k] eqn:Hl'.
    - rewrite <-(contents_len l' Hwf'), Hl'. apply N.add_0_r.
    - specialize (Hx 0). rewrite N.add_0_l in Hx. symmetry in Hx.
      pose proof (table_lookup_lt _ _ _ Hx) as Hlt. rewrite contents_len in Hlt by done.
      apply Hs in Hx. lia. }
  split; [done|by rewrite Hn| | |].
  - intros i r. rewrite Hx. intros Hr. pose proof (table_lookup_lt _ _ _ Hr) as Hlt.
    rewrite contents_len in Hlt by done. apply Hs in Hr. lia.
  - rewrite Hc. etrans; [|exact Hord]. rewrite <-(take_drop n (contents l)) at 2.
    rewrite filter_app, tlen_app. lia.
  - destruct (decide (cl_count l' = 0)); lia.
Qed.

Lemma log_inv_ignores l l' :
  log_inv l → contents l' = contents l → ring_wf l' → cl_count l' = cl_count l →
  cl_oldest_sequence l' = cl_oldest_sequence l → cl_next_sequence l' = cl_next_sequence l →
  log_inv l'.
Proof. intros [] Hc ? Hk Ho Hn. by split; rewrite ?Hc, ?Hk, ?Ho, ?Hn. Qed.

Lemma log_step_inv l l' : log_step l l' → log_inv l → log_inv l'.
Proof.
  intros Hstep Hinv. pose proof (li_ring l Hinv) as Hwf. destruct Hstep as [l|l|r l Hn|r l Hn|s l].
  - unfold ControlLog.reserve. destruct (negb _); [done|].
    eapply log_inv_ignores; [done|done|by destruct Hwf|done..].
  - eapply log_inv_ignores; [done|done|by destruct Hwf|done..].
  - by apply write_inv.
  - apply write_inv; [done|]. eapply log_inv_ignores; [done|done|by destruct Hwf|done..].
  - by apply acknowledge_inv.
Qed.

Lemma log_inv_empty : log_inv ControlLog.empty.
Proof. split; try done. Qed.

Lemma log_steps_inv l l' : rtc log_step l l' → log_inv l → log_inv l'.
Proof. induction 1; eauto using log_step_inv. Qed.

(** C22. The log is a bounded queue that never rewrites history. In every state a
    log can reach: reading returns the oldest records in order, without
    consuming them; writing, when the kind has a cell, appends the record with
    the next sequence number and returns that number, and otherwise leaves the
    queue as it was, returns zero and counts the loss; acknowledging drops
    exactly the prefix up to the sequence given and returns its length; and the
    sequence numbers in the log are contiguous, from the oldest the log reports
    to the last one written. *)
Theorem log_is_a_queue l :
  rtc log_step ControlLog.empty l →
  (∀ len, ControlLog.read len l = take (N.to_nat len) (contents l)) ∧
  (∀ record, let '(s, l') := ControlLog.write record l in
     if decide (cl_count l < ControlLog.room_for (r_kind record)) then
       s = cl_next_sequence l ∧ contents l' = contents l ++ [stamped record s]
     else s = 0 ∧ contents l' = contents l ∧
       (cl_lost l', cl_coalesced l') =
         if is_closing (r_kind record)
         then (cl_lost l, saturating_add 32 (cl_coalesced l) 1)
         else (saturating_add 32 (cl_lost l) 1, cl_coalesced l)) ∧
  (∀ s, let '(dropped, l') := ControlLog.acknowledge s l in
     contents l' = drop_through s (contents l) ∧ dropped + tlen (contents l') = tlen (contents l)) ∧
  (∀ i r, contents l !! i = Some r → r_sequence r = cl_oldest_sequence l + i) ∧
  cl_oldest_sequence l + tlen (contents l) = cl_next_sequence l.
Proof.
  intros Hsteps. destruct (log_steps_inv _ _ Hsteps log_inv_empty) as [Hwf Ho Hs _ _].
  split_and!.
  - intros len. apply table_eq. intros i.
    assert (ControlLog.read len l = ControlLog.read (N.min len (cl_count l)) l) as ->.
    { unfold ControlLog.read. by rewrite <-N.min_assoc, N.min_id. }
    rewrite read_lookup by (done || lia). unfold lookup at 2, table_Lookup.
    destruct (decide (i < len)).
    + rewrite lookup_take_lt by lia. change (contents l !! N.to_nat i) with (contents l !! i).
      rewrite contents_lookup by done. repeat case_decide; (done || lia).
    + rewrite lookup_take_ge by lia. by rewrite decide_False by lia.
  - intros r. pose proof (write_spec r l Hwf) as Hw. destruct (ControlLog.write r l) as [s l'].
    destruct Hw as (_ & _ & Hw). by case_decide; destruct_and!.
  - intros s. pose proof (acknowledge_spec s l Hwf) as Ha.
    destruct (ControlLog.acknowledge s l) as [d l']. destruct Ha as (Hwf' & Hc & Hd & _).
    by rewrite !contents_len.
  - done.
  - by rewrite contents_len.
Qed.

(** C23. Ordinary traffic cannot keep a closing receipt out. In every state a log
    can reach, if it holds fewer closing receipts than the cells kept for them,
    then a fence or retirement receipt is written, with the next sequence
    number, whatever the log has been saturated with. *)
Theorem closing_cell_is_kept l record :
  rtc log_step ControlLog.empty l → is_closing (r_kind record) = true →
  tlen (filter (λ r, is_closing (r_kind r)) (contents l)) < CONTROL_LOG_RESERVED →
  (ControlLog.write record l).1 = cl_next_sequence l ∧ cl_next_sequence l ≠ 0.
Proof.
  intros Hsteps Hk Hfew. destruct (log_steps_inv _ _ Hsteps log_inv_empty) as [Hwf Ho _ Hord Hpos].
  pose proof (write_spec record l Hwf) as Hw. destruct (ControlLog.write record l) as [s l'].
  destruct Hw as (_ & _ & Hw). rewrite decide_True in Hw; [split; [by destruct Hw|lia]|].
  unfold ControlLog.room_for. rewrite Hk. rewrite <-contents_len by done.
  assert (tlen (contents l) = tlen (filter ordinary (contents l)) +
    tlen (filter (λ r, is_closing (r_kind r)) (contents l))) as ->.
  { by apply (count_complement (λ r, is_closing (r_kind r))). }
  unfold ControlLog.ordinary_capacity in Hord.
  change CONTROL_LOG_CAPACITY with 256 in *. change CONTROL_LOG_RESERVED with 8 in *. lia.
Qed.

(** A receipt of a covered operation, and a closing one. *)
Definition sample_receipt (kind : N) : ReceiptRecord := ControlLog.zeroed <| r_kind := kind |>.

(** The log after some writes of one kind. *)
Fixpoint filled (n : nat) (kind : N) : ControlLog :=
  match n with
  | O => ControlLog.empty
  | S n => (ControlLog.write (sample_receipt kind) (filled n kind)).2
  end.

Lemma filled_reachable n kind :
  N.of_nat n < U64_MAX → rtc log_step ControlLog.empty (filled n kind) ∧
  cl_next_sequence (filled n kind) <= 1 + N.of_nat n.
Proof.
  induction n as [|n IH]; intros Hn; [by split|].
  destruct IH as [IH Hseq]; [lia|]. cbn [filled]. set (l := filled n kind) in *. split.
  - eapply rtc_r; [exact IH|]. apply (step_write (sample_receipt kind) l). lia.
  - pose proof (log_steps_inv _ _ IH log_inv_empty) as [Hwf _ _ _ _].
    pose proof (write_spec (sample_receipt kind) l Hwf) as Hw.
    destruct (ControlLog.write _ l) as [s l']. destruct Hw as (_ & _ & Hw). cbn [snd].
    case_decide.
    + destruct Hw as (_ & _ & _ & -> & _). unfold saturating_add. lia.
    + destruct Hw as (_ & _ & _ & -> & _). lia.
Qed.

Lemma log_is_a_queue_witness :
  ControlLog.read 1 (filled 3 receipt_kind.SERVICE_NOTE) =
    take 1 (contents (filled 3 receipt_kind.SERVICE_NOTE)) ∧
  r_sequence <$> contents (filled 3 receipt_kind.SERVICE_NOTE) = [1; 2; 3].
Proof.
  split; [|by vm_compute].
  apply (log_is_a_queue (filled 3 receipt_kind.SERVICE_NOTE)). by apply filled_reachable.
Defined.

Lemma closing_cell_is_kept_witness :
  (ControlLog.write (sample_receipt receipt_kind.SERVICE_NOTE)
     (filled 300 receipt_kind.SERVICE_NOTE)).1 = 0 ∧
  (ControlLog.write (sample_receipt receipt_kind.FENCE)
     (filled 300 receipt_kind.SERVICE_NOTE)).1 = 249.
Proof.
  split; [by vm_compute|].
  destruct (closing_cell_is_kept (filled 300 receipt_kind.SERVICE_NOTE)
    (sample_receipt receipt_kind.FENCE)) as [-> _].
  - by apply filled_reachable.
  - done.
  - by vm_compute.
  - by vm_compute.
Defined.

(** ** What a reservation buys *)

(** Uses of a log in which every ordinary receipt was paid for and no closing
    receipt is written. *)
Inductive paid_step : ControlLog → ControlLog → Prop :=
| paid_reserve l : paid_step l (ControlLog.reserve l).2
| paid_release l : paid_step l (ControlLog.release_reservation l)
| paid_commit r l :
    0 < cl_pending_reservations l → paid_step l (ControlLog.commit_reserved r l).2
| paid_acknowledge s l : paid_step l (ControlLog.acknowledge s l).2.

Record paid_inv (l : ControlLog) : Prop := {
  paid_ring : ring_wf l;
  paid_room : cl_count l + cl_pending_reservations l <= ControlLog.ordinary_capacity;
  paid_next : 0 < cl_next_sequence l
}.

Lemma room_for_ordinary kind : ControlLog.ordinary_capacity <= ControlLog.room_for kind.
Proof. unfold ControlLog.room_for. by destruct (is_closing kind). Qed.

Lemma commit_paid r l :
  paid_inv l → 0 < cl_pending_reservations l →
  (ControlLog.commit_reserved r l).1 = cl_next_sequence l ∧
  paid_inv (ControlLog.commit_reserved r l).2.
Proof.
  intros [Hwf Hroom Hnext] Hp. unfold ControlLog.commit_reserved.
  set (l1 := l <| cl_pending_reservations ::= _ |>).
  assert (Hwf1 : ring_wf l1) by by destruct Hwf.
  assert (Hp1 : cl_pending_reservations l1 = cl_pending_reservations l - 1) by done.
  pose proof (write_spec r l1 Hwf1) as Hw. destruct (ControlLog.write r l1) as [s l'].
  destruct Hw as (Hwf' & Hp' & Hw). change (cl_count l1) with (cl_count l) in Hw.
  pose proof (room_for_ordinary (r_kind r)). rewrite decide_True in Hw by lia.
  destruct Hw as (-> & _ & Hc & Hn & _). change (cl_next_sequence l1) with (cl_next_sequence l) in *.
  split; [done|]. split; cbn [snd]; [done|lia|]. rewrite Hn. unfold saturating_add.
  change (2 ^ 64 - 1) with 18446744073709551615. lia.
Qed.

Lemma paid_step_inv l l' : paid_step l l' → paid_inv l → paid_inv l'.
Proof.
  intros Hstep Hinv. destruct Hstep as [l|l|r l Hp|s l]; [| |by apply commit_paid|];
    destruct Hinv as [Hwf Hroom Hnext].
  - unfold ControlLog.reserve, ControlLog.can_reserve.
    case_bool_decide; cbn -[ControlLog.ordinary_capacity]; [|done].
    split; cbn -[ControlLog.ordinary_capacity]; [by destruct Hwf|lia|done].
  - split; cbn -[ControlLog.ordinary_capacity]; [by destruct Hwf| |done].
    unfold saturating_sub. lia.
  - pose proof (acknowledge_spec s l Hwf) as Ha. destruct (ControlLog.acknowledge s l) as [d l'].
    destruct Ha as (? & _ & Hd & Hn & Hp & _). cbn [snd]. split; [done|lia|by rewrite Hn].
Qed.

(** A reservation buys a record. As long as nothing is written that was not
    reserved first, a receipt committed against an outstanding reservation is
    always written, with the next sequence number, however the reservations,
    commits, withdrawals and acknowledgements before it were interleaved. *)
Theorem reservation_pays l record :
  rtc paid_step ControlLog.empty l → 0 < cl_pending_reservations l →
  (ControlLog.commit_reserved record l).1 = cl_next_sequence l ∧ 0 < cl_next_sequence l.
Proof.
  intros Hsteps Hp. assert (paid_inv l) as Hinv.
  { assert (paid_inv ControlLog.empty) as H0 by done.
    revert Hsteps H0. generalize ControlLog.empty. induction 1; eauto using paid_step_inv. }
  split; [by apply commit_paid|apply Hinv].
Qed.

Lemma reservation_pays_witness :
  (ControlLog.commit_reserved (sample_receipt receipt_kind.ADMIT)
     (ControlLog.reserve ControlLog.empty).2).1 = 1.
Proof.
  destruct (reservation_pays (ControlLog.reserve ControlLog.empty).2
    (sample_receipt receipt_kind.ADMIT)) as [-> _]; [|done..].
  apply rtc_once, paid_reserve.
Defined.

(** A closing receipt takes the cell an admission has reserved: the reservation is
    granted, a fence is recorded, and the reserved receipt is then lost. *)
Theorem reserved_cell_can_be_lost :
  let l0 := filled 247 receipt_kind.SERVICE_NOTE in
  let '(ok, l1) := ControlLog.reserve l0 in
  let '(fence, l2) := ControlLog.write (sample_receipt receipt_kind.FENCE) l1 in
  let '(receipt, l3) := ControlLog.commit_reserved (sample_receipt receipt_kind.ADMIT) l2 in
  ok = true ∧ fence = 248 ∧ receipt = 0 ∧ cl_lost l3 = 1.
Proof. by vm_compute. Qed.
