(* ===== verification/Frame.v ===== *)
(** * Physical frames: mapping rights, the bitmap allocator, the quarantine

    [kernel/src/mm/mod.rs] and [kernel/src/mm/frame.rs], with the part of
    [kernel/src/tlb.rs] the quarantine asks. The contents of the frames, which
    the allocator zeroes on the way out, are in [Paging] and [MemOps]. *)

From S2P Require Import Prelude Abi Obj Scope.

#[local] Open Scope N_scope.

(** boot/protocol/src/lib.rs:46-46 [PAGE_SIZE] *)
Definition PAGE_SIZE : N := 4096.
(** kernel/src/limits.rs:25-25 [MAX_DOMAINS] *)
Definition MAX_DOMAINS : N := 16.

(** ** Rights of a mapping *)

(** kernel/src/mm/mod.rs:63-74 [Rights] *)
Record Rights := mkRights {
  rt_read : bool;
  rt_write : bool;
  rt_execute : bool;
  rt_user : bool;
  rt_uncacheable : bool
}.

(** kernel/src/mm/mod.rs:141-148 [RightsError] *)
Inductive RightsError := WriteOrExecuteWithoutRead | WriteAndExecute | NoAccess.

Module Rights.
(** kernel/src/mm/mod.rs:112-120 [Rights::user] *)
Definition user (read write execute : bool) : Rights := mkRights read write execute true false.
(** kernel/src/mm/mod.rs:125-136 [Rights::validate] *)
Definition validate (r : Rights) : option RightsError :=
  if negb (rt_read r) && (rt_write r || rt_execute r) then Some WriteOrExecuteWithoutRead
  else if rt_write r && rt_execute r then Some WriteAndExecute
  else if negb (rt_read r) then Some NoAccess
  else None.
End Rights.

(** ** Owners and frames *)

(** kernel/src/mm/mod.rs:175-183 [Owner] *)
Inductive Owner := OwnKernel | OwnDomain (id : N) | OwnScope (id : N).
#[global] Instance Owner_eq_dec : EqDecision Owner.
Proof. solve_decision. Defined.

(** kernel/src/mm/mod.rs:186-192 [Owner::slot] *)
Definition owner_slot (o : Owner) : N :=
  match o with
  | OwnKernel => 0
  | OwnDomain id => id + 1
  | OwnScope id => id + 1 + MAX_DOMAINS
  end.

(** kernel/src/mm/mod.rs:23-25 [Frame::containing] *)
Definition frame_containing (addr : N) : N := andnot addr (PAGE_SIZE - 1).
(** kernel/src/mm/mod.rs:35-37 [Frame::index] *)
Definition frame_index (frame : N) : N := frame / PAGE_SIZE.

(** kernel/src/mm/frame.rs:39-39 [OWNER_SLOTS] *)
Definition OWNER_SLOTS : N := 1 + MAX_DOMAINS + MAX_SCOPES.
(** kernel/src/mm/frame.rs:49-49 [QUARANTINE_SLOTS] *)
Definition QUARANTINE_SLOTS : N := 1024.

(** kernel/src/mm/frame.rs:52-58 [Quarantined] *)
Record Quarantined := mkQuarantined {
  q_used : bool;
  q_frame : N;
  q_owner : Owner;
  q_generation : N
}.
#[global] Instance Quarantined_rebuild : Rebuild Quarantined := λ q,
  mkQuarantined (q_used q) (q_frame q) (q_owner q) (q_generation q).

Module Quarantined.
(** kernel/src/mm/frame.rs:61-68 [Quarantined::empty] *)
Definition empty : Quarantined := mkQuarantined false (frame_containing 0) OwnKernel 0.
End Quarantined.

(** kernel/src/mm/frame.rs:72-85 [FrameAllocator, QUARANTINE_PENDING] *)
Record FrameAllocator := mkFrameAllocator {
  fa_bitmap : list N;
  fa_frames : N;
  fa_free : N;
  fa_usable : N;
  fa_hint : N;
  fa_charged : list N;
  fa_quarantine : list Quarantined;
  fa_quarantined : N;
  fa_quarantine_peak : N;
  fa_quarantine_retained : N;
  fa_quarantine_released : N;
  fa_pending : bool
}.
#[global] Instance FrameAllocator_rebuild : Rebuild FrameAllocator := λ a,
  mkFrameAllocator (fa_bitmap a) (fa_frames a) (fa_free a) (fa_usable a) (fa_hint a)
    (fa_charged a) (fa_quarantine a) (fa_quarantined a) (fa_quarantine_peak a)
    (fa_quarantine_retained a) (fa_quarantine_released a) (fa_pending a).

(** ** The invalidation generation *)

(** kernel/src/tlb.rs:53-78 [GENERATION, ONLINE, PROCESSORS] *)
Record Tlb := mkTlb {
  tlb_generation : N;
  tlb_online : N;
  tlb_seen : list N
}.

(** kernel/src/tlb.rs:537-553 [safe_generation] *)
Definition safe_generation (t : Tlb) : N :=
  if decide (tlb_online t = 0) then tlb_generation t else
  foldl (λ safe cpu,
    if negb (N.testbit (tlb_online t) cpu) then safe else
    match tlb_seen t !! cpu with
    | Some seen => if decide (seen < safe) then seen else safe
    | None => safe
    end) U64_MAX (N.of_nat <$> seq 0 (N.to_nat MAX_CPUS)).

(** ** The bitmap

    [None] is the panic of a word index outside the bitmap. *)

(** kernel/src/mm/frame.rs:169-171 [FrameAllocator::test] *)
Definition test (a : FrameAllocator) (index : N) : option bool :=
  word ← fa_bitmap a !! (index / 64);
  Some (negb (bool_decide (N.land word (N.shiftl 1 (index mod 64)) = 0))).

(** kernel/src/mm/frame.rs:173-175 [FrameAllocator::set], its index in range *)
Definition set_bit (index : N) (a : FrameAllocator) : FrameAllocator :=
  a <| fa_bitmap ::= alter (λ w, N.lor w (N.shiftl 1 (index mod 64))) (index / 64) |>.
(** kernel/src/mm/frame.rs:177-179 [FrameAllocator::clear], its index in range *)
Definition clear_bit (index : N) (a : FrameAllocator) : FrameAllocator :=
  a <| fa_bitmap ::= alter (λ w, andnot w (N.shiftl 1 (index mod 64))) (index / 64) |>.

(** kernel/src/mm/frame.rs:201-203 [FrameAllocator::charged] *)
Definition charged (a : FrameAllocator) (o : Owner) : option N := fa_charged a !! owner_slot o.

(** Frame [index] leaves the pool for [owner]. *)
(** kernel/src/mm/frame.rs:372-374 [FrameAllocator::alloc, the frame taken]; the same three
    writes in [alloc_below] and [take_run] *)
Definition take_frame (index : N) (owner : Owner) (a : FrameAllocator) : option FrameAllocator :=
  free ← checked_sub (fa_free a) 1;
  c ← charged a owner;
  c ← checked_add 64 c 1;
  Some (set_bit index a <| fa_free := free |>
          <| fa_charged ::= <[owner_slot owner := c]> |>).

(** kernel/src/mm/frame.rs:375-379 [FrameAllocator::alloc, the hint] *)
Definition hint_after (a : FrameAllocator) (next : N) : N :=
  if decide (fa_frames a <= next) then 0 else next.

(** ** Returning frames *)

(** kernel/src/mm/frame.rs:474-491 [FrameAllocator::release] *)
Definition release (frame : N) (owner : Owner) (a : FrameAllocator) : option FrameAllocator :=
  let index := frame_index frame in
  if decide (fa_frames a <= index) then Some a else
  taken ← test a index;
  if negb taken then Some a else
  let a := clear_bit index a <| fa_free ::= λ f, f + 1 |> in
  let a := if decide (index < fa_hint a) then a <| fa_hint := index |> else a in
  _ ← charged a owner;
  Some (a <| fa_charged ::= alter (λ c, saturating_sub c 1) (owner_slot owner) |>).

(** kernel/src/mm/frame.rs:282-301 [FrameAllocator::retire_at, the search]. The first slot
    not in use. *)
Fixpoint retire_slot (k : list Quarantined) (i : N) : option N :=
  match k with
  | [] => None
  | q :: k => if q_used q then retire_slot k (i + 1) else Some i
  end.
(** kernel/src/mm/frame.rs:282-301 [FrameAllocator::retire_at] *)
Definition retire_at (frame : N) (owner : Owner) (generation : N) (a : FrameAllocator) :
    FrameAllocator :=
  let a := a <| fa_pending := true |> in
  match retire_slot (fa_quarantine a) 0 with
  | Some i =>
      let a := a <| fa_quarantine ::= <[i := mkQuarantined true frame owner generation]> |>
                 <| fa_quarantined ::= λ n, n + 1 |> in
      if decide (fa_quarantine_peak a < fa_quarantined a)
      then a <| fa_quarantine_peak := fa_quarantined a |> else a
  | None => a <| fa_quarantine_retained ::= λ n, n + 1 |>
  end.

(** kernel/src/mm/frame.rs:311-324 [FrameAllocator::drain_quarantine, the loop] *)
Fixpoint drain_from (safe : N) (index : list N) (released : N) (a : FrameAllocator) :
    option (N * FrameAllocator) :=
  match index with
  | [] => Some (released, a)
  | i :: index =>
      slot ← fa_quarantine a !! i;
      if negb (q_used slot) || bool_decide (safe < q_generation slot)
      then drain_from safe index released a else
      let a := a <| fa_quarantine ::= <[i := slot <| q_used := false |>]> |> in
      quarantined ← checked_sub (fa_quarantined a) 1;
      let a := a <| fa_quarantined := quarantined |> in
      a ← release (q_frame slot) (q_owner slot) a;
      drain_from safe index (released + 1) a
  end.
(** kernel/src/mm/frame.rs:308-330 [FrameAllocator::drain_quarantine] *)
Definition drain_quarantine (safe : N) (a : FrameAllocator) : option (N * FrameAllocator) :=
  '(released, a) ← drain_from safe (indices (fa_quarantine a)) 0 a;
  let a := a <| fa_quarantine_released ::= λ n, n + released |> in
  Some (released, if decide (fa_quarantined a = 0) then a <| fa_pending := false |> else a).

(** kernel/src/mm/frame.rs:232-244 [FrameAllocator::reassign_quarantine] *)
Definition reassign_quarantine (from to : Owner) (a : FrameAllocator) : N * FrameAllocator :=
  let mine q := q_used q && bool_decide (q_owner q = from) in
  let moved := tlen (filter mine (fa_quarantine a)) in
  let a := a <| fa_quarantine ::= fmap (λ q, if mine q : bool then q <| q_owner := to |> else q) |> in
  let a := a <| fa_charged ::= alter (λ c, saturating_sub c moved) (owner_slot from) |> in
  (moved, a <| fa_charged ::= alter (λ c, saturating_add 64 c moved) (owner_slot to) |>).

(** kernel/src/mm/frame.rs:218-223 [FrameAllocator::quarantined_for] *)
Definition quarantined_for (a : FrameAllocator) (o : Owner) : N :=
  tlen (filter (λ q, q_used q && bool_decide (q_owner q = o)) (fa_quarantine a)).

(** ** Taking frames

    The outer [None] is a panic, the inner one [Err(OutOfMemory)]. *)

(** kernel/src/mm/frame.rs:342-355 [FrameAllocator::alloc_below, the search] *)
Fixpoint first_free (index : list N) (a : FrameAllocator) : option (option N) :=
  match index with
  | [] => Some None
  | i :: index => taken ← test a i; if taken : bool then first_free index a else Some (Some i)
  end.
(** kernel/src/mm/frame.rs:337-357 [FrameAllocator::alloc_below] *)
Definition alloc_below (limit : N) (owner : Owner) (a : FrameAllocator) :
    option (option N * FrameAllocator) :=
  let bound := N.min (limit / PAGE_SIZE) (fa_frames a) in
  found ← first_free (N.of_nat <$> seq 1 (N.to_nat bound - 1)) a;
  match found with
  | Some index =>
      a ← take_frame index owner a;
      Some (Some (frame_containing (index * PAGE_SIZE)), a)
  | None => Some (None, a)
  end.

(** kernel/src/mm/frame.rs:370-394 [FrameAllocator::alloc, the loop]. The fuel is the number
    of frames: the index comes round to [start] within that many turns. *)
Fixpoint scan (fuel : nat) (start index : N) (a : FrameAllocator) : option (option N) :=
  match fuel with
  | O => None
  | S fuel =>
      taken ← test a index;
      if negb taken then Some (Some index) else
      let index := if decide (fa_frames a <= index + 1) then 0 else index + 1 in
      if decide (index = start) then Some None else scan fuel start index a
  end.
(** kernel/src/mm/frame.rs:364-395 [FrameAllocator::alloc] *)
Definition alloc (safe : N) (owner : Owner) (a : FrameAllocator) :
    option (option N * FrameAllocator) :=
  a ← (if decide (fa_free a = 0) then snd <$> drain_quarantine safe a else Some a);
  found ← scan (N.to_nat (fa_frames a)) (fa_hint a) (fa_hint a) a;
  match found with
  | Some index =>
      a ← take_frame index owner a;
      Some (Some (frame_containing (index * PAGE_SIZE)),
            a <| fa_hint := hint_after a (index + 1) |>)
  | None => Some (None, a)
  end.

(** kernel/src/mm/frame.rs:436-439 [FrameAllocator::take_run, the length of a run] *)
Fixpoint run_length (count : nat) (index : N) (a : FrameAllocator) : option N :=
  match count with
  | O => Some 0
  | S count =>
      taken ← test a index;
      if taken : bool then Some 0 else run ← run_length count (index + 1) a; Some (run + 1)
  end.

(** kernel/src/mm/frame.rs:441-451 [FrameAllocator::take_run, the frames taken] *)
Fixpoint take_frames (count : nat) (index : N) (owner : Owner) (a : FrameAllocator) :
    option FrameAllocator :=
  match count with
  | O => Some a
  | S count => a ← take_frame index owner a; take_frames count (index + 1) owner a
  end.

(** kernel/src/mm/frame.rs:434-464 [FrameAllocator::take_run, the search]. Every turn moves
    [index] up, so a fuel of [to + 1] is enough. *)
Fixpoint run_from (fuel : nat) (index to count : N) (a : FrameAllocator) : option (option N) :=
  match fuel with
  | O => None
  | S fuel =>
      last ← checked_add 64 index count;
      if decide (to < last) then Some None else
      run ← run_length (N.to_nat count) index a;
      if decide (run = count) then Some (Some index)
      else run_from fuel (index + (run + 1)) to count a
  end.
(** kernel/src/mm/frame.rs:433-464 [FrameAllocator::take_run] *)
Definition take_run (from to count : N) (owner : Owner) (a : FrameAllocator) :
    option (option N * FrameAllocator) :=
  found ← run_from (N.to_nat to + 1) from to count a;
  match found with
  | Some index =>
      a ← take_frames (N.to_nat count) index owner a;
      Some (Some (frame_containing (index * PAGE_SIZE)),
            a <| fa_hint := hint_after a (index + count) |>)
  | None => Some (None, a)
  end.

(** kernel/src/mm/frame.rs:405-430 [FrameAllocator::alloc_contiguous] *)
Definition alloc_contiguous (safe count : N) (owner : Owner) (a : FrameAllocator) :
    option (option N * FrameAllocator) :=
  if decide (count = 0) then Some (None, a) else
  '(_, a) ← drain_quarantine safe a;
  let start := N.min (fa_hint a) (fa_frames a) in
  '(found, a) ← take_run start (fa_frames a) count owner a;
  match found with
  | Some frame => Some (Some frame, a)
  | None => take_run 0 (N.min (saturating_add 64 start count) (fa_frames a)) count owner a
  end.

(** ** Building the pool *)

(** boot/protocol/src/lib.rs:63-72 [MemoryRegion] *)
Record MemoryRegion := mkMemoryRegion { mr_base : N; mr_pages : N; mr_kind : N }.
(** boot/protocol/src/lib.rs:77-77 [region_kind::USABLE] *)
Definition USABLE : N := 1.

(** Clears the allocated frames of a range, counting them. *)
(** kernel/src/mm/frame.rs:504-510 [FrameAllocator::reclaim, the loop]; lines 148-154 of [new] *)
Fixpoint clear_range (index : list N) (recovered : N) (a : FrameAllocator) :
    option (N * FrameAllocator) :=
  match index with
  | [] => Some (recovered, a)
  | i :: index =>
      taken ← test a i;
      if taken : bool
      then clear_range index (recovered + 1) (clear_bit i a <| fa_free ::= λ f, f + 1 |>)
      else clear_range index recovered a
  end.
Definition range (from to : N) : list N := N.of_nat <$> seq (N.to_nat from) (N.to_nat to - N.to_nat from).

(** kernel/src/mm/frame.rs:501-512 [FrameAllocator::reclaim] *)
Definition reclaim (base pages : N) (a : FrameAllocator) : option (N * FrameAllocator) :=
  let first := base / PAGE_SIZE in
  clear_range (range first (N.min (saturating_add 64 first pages) (fa_frames a))) 0 a.

(** kernel/src/mm/frame.rs:142-155 [FrameAllocator::new, the usable regions] *)
Fixpoint clear_regions (regions : list MemoryRegion) (a : FrameAllocator) :
    option FrameAllocator :=
  match regions with
  | [] => Some a
  | r :: regions =>
      if decide (mr_kind r ≠ USABLE) then clear_regions regions a else
      let first := mr_base r / PAGE_SIZE in
      '(n, a) ← clear_range (range first (N.min (saturating_add 64 first (mr_pages r)) (fa_frames a)))
                  0 a;
      clear_regions regions (a <| fa_usable ::= N.add n |>)
  end.

(** kernel/src/mm/frame.rs:157-163 [FrameAllocator::new, the bitmap's own frames] *)
Fixpoint set_range (index : list N) (a : FrameAllocator) : option FrameAllocator :=
  match index with
  | [] => Some a
  | i :: index =>
      taken ← test a i;
      if negb taken
      then free ← checked_sub (fa_free a) 1; set_range index (set_bit i a <| fa_free := free |>)
      else set_range index a
  end.

(** kernel/src/mm/frame.rs:99-167 [FrameAllocator::new]. [Some None] is the refusal when no
    usable region can hold the bitmap. *)
Definition new (regions : list MemoryRegion) (limit_frames : N) :
    option (option FrameAllocator) :=
  let bitmap_words := div_ceil limit_frames 64 in
  let bitmap_frames := div_ceil (bitmap_words * 8) PAGE_SIZE in
  match filter (λ r, bool_decide (mr_kind r = USABLE) && bool_decide (bitmap_frames <= mr_pages r))
          regions with
  | [] => Some None
  | r :: _ =>
      let storage := mr_base r in
      a ← clear_regions regions {|
        fa_bitmap := replicate (N.to_nat bitmap_words) U64_MAX;
        fa_frames := limit_frames;
        fa_free := 0;
        fa_usable := 0;
        fa_hint := 0;
        fa_charged := replicate (N.to_nat OWNER_SLOTS) 0;
        fa_quarantine := replicate (N.to_nat QUARANTINE_SLOTS) Quarantined.empty;
        fa_quarantined := 0;
        fa_quarantine_peak := 0;
        fa_quarantine_retained := 0;
        fa_quarantine_released := 0;
        fa_pending := false
      |};
      let first := storage / PAGE_SIZE in
      a ← set_range (range first (first + bitmap_frames)) a;
      Some (Some (a <| fa_charged ::= alter (N.add bitmap_frames) (owner_slot OwnKernel) |>))
  end.

(** ** Ranges *)

Lemma range_elem from to i : i ∈ range from to ↔ from <= i < to.
Proof.
  unfold range. rewrite list_elem_of_fmap. split.
  - intros (n & -> & Hn%elem_of_seq). lia.
  - intros Hi. exists (N.to_nat i). rewrite elem_of_seq. lia.
Qed.

Lemma NoDup_range from to : NoDup (range from to).
Proof. apply NoDup_fmap_2; [|apply NoDup_seq]. intros ?? H. by apply Nat2N.inj. Qed.
