(* ===== verification/FrameProofs.v ===== *)
(** * What the frame allocator guarantees

    The pool invariant, the exactness of single and contiguous allocation, and
    the quarantine: no frame comes back before its generation is safe. *)

From S2P Require Import Prelude Abi Obj Scope Frame.

#[local] Open Scope N_scope.

(** ** The bitmap as a set of frames *)

Definition taken (a : FrameAllocator) (i : N) : bool :=
  match fa_bitmap a !! (i / 64) with Some w => N.testbit w (i mod 64) | None => true end.

Lemma test_taken a i : i / 64 < tlen (fa_bitmap a) → test a i = Some (taken a i).
Proof.
  intros [w Hw]%table_lookup_is_Some. unfold test, taken. rewrite Hw. cbn. f_equal.
  case_bool_decide as H; [by apply land_bit_zero in H as ->|].
  rewrite land_bit_zero in H. by destruct (N.testbit _ _).
Qed.

Lemma split_index i j : i / 64 = j / 64 → i mod 64 = j mod 64 → i = j.
Proof. intros Hd Hm. rewrite (N.div_mod i 64), (N.div_mod j 64) by done. congruence. Qed.

Lemma taken_set i j a :
  i / 64 < tlen (fa_bitmap a) → taken (set_bit i a) j = bool_decide (i = j) || taken a j.
Proof.
  intros [w Hw]%table_lookup_is_Some. unfold taken, set_bit. cbn. rewrite table_alter.
  case_decide as Hd.
  - rewrite <-Hd, Hw. cbn. rewrite testbit_set. f_equal. apply bool_decide_ext.
    split; [by apply split_index|by intros ->].
  - rewrite bool_decide_false by by intros ->. done.
Qed.

Lemma taken_clear i j a :
  i / 64 < tlen (fa_bitmap a) → taken (clear_bit i a) j = negb (bool_decide (i = j)) && taken a j.
Proof.
  intros [w Hw]%table_lookup_is_Some. unfold taken, clear_bit. cbn. rewrite table_alter.
  case_decide as Hd.
  - rewrite <-Hd, Hw. cbn. rewrite testbit_clear. do 2 f_equal. apply bool_decide_ext.
    split; [by apply split_index|by intros ->].
  - rewrite bool_decide_false by by intros ->. done.
Qed.

Lemma frame_containing_mul i : frame_containing (i * PAGE_SIZE) = i * PAGE_SIZE.
Proof.
  unfold frame_containing, andnot, PAGE_SIZE. change (4096 - 1) with (N.ones 12).
  rewrite N.ldiff_ones_r, N.shiftr_div_pow2, N.shiftl_mul_pow2.
  change (2 ^ 12) with 4096. by rewrite N.div_mul.
Qed.

Lemma frame_index_mul i : frame_index (i * PAGE_SIZE) = i.
Proof. unfold frame_index, PAGE_SIZE. by apply N.div_mul. Qed.

(** ** The pool invariant *)

Definition free_count (a : FrameAllocator) : N :=
  tlen (filter (λ i, negb (taken a i)) (range 0 (fa_frames a))).

Record pool_wf (a : FrameAllocator) : Prop := {
  pool_map i : i < fa_frames a → i / 64 < tlen (fa_bitmap a);
  pool_hint : fa_hint a < fa_frames a;
  pool_free : fa_free a = free_count a;
  pool_charged : tlen (fa_charged a) = OWNER_SLOTS;
  pool_frames : fa_frames a < 2 ^ 63;
  pool_quarantine s q : fa_quarantine a !! s = Some q → q_used q = true →
    frame_index (q_frame q) < fa_frames a ∧ taken a (frame_index (q_frame q)) = true ∧
    owner_slot (q_owner q) < OWNER_SLOTS;
  pool_distinct s s' q q' : fa_quarantine a !! s = Some q → fa_quarantine a !! s' = Some q' →
    q_used q = true → q_used q' = true → frame_index (q_frame q) = frame_index (q_frame q') →
    s = s';
  pool_quarantined : fa_quarantined a = tlen (filter q_used (fa_quarantine a))
}.

Lemma free_count_flip a a' i :
  fa_frames a' = fa_frames a → i < fa_frames a → taken a i = false → taken a' i = true →
  (∀ j, j ≠ i → taken a' j = taken a j) → free_count a = free_count a' + 1.
Proof.
  intros Hfr Hi Ha Ha' Hoth. unfold free_count. rewrite Hfr.
  apply (count_flip _ _ _ i); [apply NoDup_range|apply range_elem; lia|by rewrite Ha|by rewrite Ha'|].
  intros j _ Hj. by rewrite Hoth.
Qed.

(** Taking one free frame. *)
Record took (P : N → Prop) (n : N) (a a' : FrameAllocator) : Prop := {
  took_taken j : taken a' j = true ↔ P j ∨ taken a j = true;
  took_frames : fa_frames a' = fa_frames a;
  took_free : fa_free a' + n = fa_free a;
  took_quarantine : fa_quarantine a' = fa_quarantine a
}.

(** The owner's counter can take [n] more. *)
Definition chargeable (owner : Owner) (n : N) (a : FrameAllocator) : Prop :=
  ∃ c, charged a owner = Some c ∧ c + n < 2 ^ 64.

Lemma take_frame_spec i owner n a :
  pool_wf a → chargeable owner (n + 1) a → i < fa_frames a → taken a i = false →
  ∃ a', take_frame i owner a = Some a' ∧ pool_wf a' ∧ took (eq i) 1 a a' ∧ chargeable owner n a'.
Proof.
  intros Hwf (c & Hc & Hn) Hi Hfree. pose proof (pool_map a Hwf i Hi) as Hmap.
  set (a' := set_bit i a <| fa_free := fa_free a - 1 |>
               <| fa_charged ::= <[owner_slot owner := c + 1]> |>).
  assert (Htk : ∀ j, taken a' j = bool_decide (i = j) || taken a j).
  { intros j. by rewrite <-taken_set. }
  assert (Hpos : free_count a = free_count a' + 1).
  { apply free_count_flip with i; try done; [by rewrite Htk, bool_decide_true|].
    intros j Hj. by rewrite Htk, bool_decide_false. }
  pose proof (pool_free a Hwf) as Hf.
  exists a'. split_and!; [| |split; try done|].
  - unfold take_frame, checked_sub, checked_add. rewrite decide_True by lia. cbn [mbind option_bind].
    rewrite Hc. cbn [mbind option_bind]. by rewrite decide_True by lia.
  - assert (Hmono : ∀ j, taken a j = true → taken a' j = true).
    { intros j Hj. by rewrite Htk, Hj, orb_true_r. }
    split; try apply Hwf.
    + intros j Hj. cbn. rewrite tlen_alter. by apply (pool_map a Hwf).
    + change (fa_free a') with (fa_free a - 1). lia.
    + cbn. rewrite tlen_insert. apply Hwf.
    + intros s q Hq Hu. destruct (pool_quarantine a Hwf s q Hq Hu) as (? & ? & ?). auto.
  - intros j. by rewrite Htk, orb_true_iff, bool_decide_eq_true.
  - change (fa_free a') with (fa_free a - 1). lia.
  - exists (c + 1). split; [|lia]. apply table_insert_eq. by eapply table_lookup_lt.
Qed.

(** Returning one taken frame that is not in quarantine. *)
Definition in_quarantine (a : FrameAllocator) (i : N) : Prop :=
  ∃ s q, fa_quarantine a !! s = Some q ∧ q_used q = true ∧ frame_index (q_frame q) = i.

(** The frame freed, the tables around it as they were. *)
Record freed (i : N) (a a' : FrameAllocator) : Prop := {
  freed_taken j : taken a' j = negb (bool_decide (i = j)) && taken a j;
  freed_map : tlen (fa_bitmap a') = tlen (fa_bitmap a);
  freed_frames : fa_frames a' = fa_frames a;
  freed_free : fa_free a' = fa_free a + 1;
  freed_hint : fa_hint a' = N.min i (fa_hint a);
  freed_charged : tlen (fa_charged a') = tlen (fa_charged a);
  freed_counter o c' : charged a' o = Some c' → ∃ c, charged a o = Some c ∧ c' <= c;
  freed_quarantine : fa_quarantine a' = fa_quarantine a;
  freed_quarantined : fa_quarantined a' = fa_quarantined a
}.

Lemma freed_wf i a a' :
  pool_wf a → i < fa_frames a → taken a i = true → ¬ in_quarantine a i →
  freed i a a' → pool_wf a'.
Proof.
  intros Hwf Hi Ht Hq Hf. split.
  - rewrite (freed_frames _ _ _ Hf), (freed_map _ _ _ Hf). apply Hwf.
  - rewrite (freed_frames _ _ _ Hf), (freed_hint _ _ _ Hf). pose proof (pool_hint a Hwf). lia.
  - rewrite (freed_free _ _ _ Hf), (pool_free a Hwf).
    symmetry. apply free_count_flip with i; [symmetry; apply Hf|by rewrite (freed_frames _ _ _ Hf)|
      by rewrite (freed_taken _ _ _ Hf), bool_decide_true|done|].
    intros j Hj. by rewrite (freed_taken _ _ _ Hf), bool_decide_false.
  - rewrite (freed_charged _ _ _ Hf). apply Hwf.
  - rewrite (freed_frames _ _ _ Hf). apply Hwf.
  - rewrite (freed_quarantine _ _ _ Hf), (freed_frames _ _ _ Hf). intros s q Hs Hu.
    destruct (pool_quarantine a Hwf s q Hs Hu) as (? & Hqt & ?).
    rewrite (freed_taken _ _ _ Hf), Hqt, andb_true_r. split_and!; [done| |done].
    rewrite bool_decide_false; [done|]. intros ->. apply Hq. by exists s, q.
  - rewrite (freed_quarantine _ _ _ Hf). apply Hwf.
  - rewrite (freed_quarantined _ _ _ Hf), (freed_quarantine _ _ _ Hf). apply Hwf.
Qed.

Lemma release_taken frame owner a :
  pool_wf a → owner_slot owner < OWNER_SLOTS →
  frame_index frame < fa_frames a → taken a (frame_index frame) = true →
  ∃ a', release frame owner a = Some a' ∧ freed (frame_index frame) a a'.
Proof.
  intros Hwf Ho Hi Ht. set (i := frame_index frame) in *. unfold release. fold i.
  pose proof (pool_map a Hwf i Hi) as Hmap. rewrite decide_False, test_taken, Ht by lia || done.
  cbn [mbind option_bind negb].
  set (a1 := clear_bit i a <| fa_free ::= λ f, f + 1 |>).
  set (a2 := if decide (i < fa_hint a1) then a1 <| fa_hint := i |> else a1).
  assert (charged a2 owner = charged a owner) as -> by (unfold a2; by case_decide).
  destruct (charged a owner) as [c|] eqn:Hc.
  2:{ apply eq_None_not_Some in Hc. destruct Hc. apply table_lookup_is_Some.
      by rewrite (pool_charged a Hwf). }
  cbn [mbind option_bind]. eexists. split; [done|].
  assert (Hh : fa_hint a1 = fa_hint a) by done. revert Hh.
  unfold a2. intros Hh. split; try (by case_decide).
  - intros j. rewrite <-taken_clear by done. by case_decide.
  - transitivity (tlen (fa_bitmap a1)); [by case_decide|]. apply tlen_alter.
  - case_decide as Hd; rewrite Hh in Hd; cbn; lia.
  - cbn. rewrite tlen_alter. by case_decide.
  - intros o c'. unfold charged at 1. cbn. rewrite table_alter.
    replace (fa_charged _) with (fa_charged a) by by case_decide. intros Hc'.
    case_decide as Hd; [|by exists c'].
    apply fmap_Some in Hc' as (d & Hd' & ->). exists d. split; [done|]. unfold saturating_sub. lia.
Qed.

(** ** Draining the quarantine *)

Definition expired (safe : N) (q : Quarantined) : bool :=
  q_used q && bool_decide (q_generation q <= safe).
Definition expire (safe : N) (q : Quarantined) : Quarantined :=
  if expired safe q then q <| q_used := false |> else q.

Lemma expire_idem safe q : expire safe (expire safe q) = expire safe q.
Proof. unfold expire. destruct (expired safe q) eqn:H; [done|]. by rewrite H. Qed.

Lemma expired_expire safe q : expired safe (expire safe q) = false.
Proof. unfold expire. by destruct (expired safe q) eqn:H. Qed.

(** What a pass over the slots [l] did. *)
Record drained (safe : N) (l : list N) (n : N) (a a' : FrameAllocator) : Prop := {
  dr_wf : pool_wf a';
  dr_frames : fa_frames a' = fa_frames a;
  dr_free : fa_free a' = fa_free a + n;
  dr_counter o c' : charged a' o = Some c' → ∃ c, charged a o = Some c ∧ c' <= c;
  dr_quarantine s : fa_quarantine a' !! s =
    if decide (s ∈ l) then expire safe <$> fa_quarantine a !! s else fa_quarantine a !! s;
  dr_taken j : taken a' j = true ↔
    taken a j = true ∧ ∀ s q, s ∈ l → fa_quarantine a !! s = Some q → expired safe q = true →
      frame_index (q_frame q) ≠ j
}.

(** One slot emptied, its frame not yet returned. *)
Lemma unslot_wf i q a :
  pool_wf a → fa_quarantine a !! i = Some q → q_used q = true →
  1 <= fa_quarantined a ∧
  pool_wf (a <| fa_quarantine ::= <[i := q <| q_used := false |>]> |>
             <| fa_quarantined := fa_quarantined a - 1 |>) ∧
  ¬ in_quarantine (a <| fa_quarantine ::= <[i := q <| q_used := false |>]> |>
             <| fa_quarantined := fa_quarantined a - 1 |>) (frame_index (q_frame q)).
Proof.
  intros Hwf Hi Hu.
  assert (Hother : ∀ s p, <[i := q <| q_used := false |>]> (fa_quarantine a) !! s = Some p →
    q_used p = true → s ≠ i ∧ fa_quarantine a !! s = Some p).
  { intros s p Hs Hp. rewrite table_insert in Hs. case_decide as Hd; [by simplify_eq|].
    split; [|done]. intros ->. apply Hd. split; [done|]. by eapply table_lookup_lt. }
  pose proof (count_insert q_used _ i (q <| q_used := false |>) q Hi) as Hc.
  rewrite (decide_True (P := q_used q)), decide_False in Hc by (by rewrite ?Hu || by intros []).
  split_and!; [rewrite (pool_quarantined a Hwf); lia|split|]; try apply Hwf.
  - cbn. intros s p Hs Hp. destruct (Hother s p Hs Hp). by apply (pool_quarantine a Hwf s).
  - cbn. intros s s' p p' Hs Hs' Hp Hp'. destruct (Hother s p Hs Hp), (Hother s' p' Hs' Hp').
    by apply (pool_distinct a Hwf s s' p p').
  - cbn. rewrite (pool_quarantined a Hwf). cbn in Hc. lia.
  - intros (s & p & Hs & Hp & Hf). destruct (Hother s p Hs Hp) as [Hne Hs'].
    apply Hne. by apply (pool_distinct a Hwf s i p q).
Qed.

Lemma drain_one safe i q a :
  pool_wf a → fa_quarantine a !! i = Some q → expired safe q = true →
  ∃ a', checked_sub (fa_quarantined a) 1 = Some (fa_quarantined a - 1) ∧
    release (q_frame q) (q_owner q)
      (a <| fa_quarantine ::= <[i := q <| q_used := false |>]> |>
         <| fa_quarantined := fa_quarantined a - 1 |>) = Some a' ∧
    drained safe [i] 1 a a'.
Proof.
  intros Hwf Hi Hx. pose proof Hx as Hu. unfold expired in Hu. apply andb_true_iff in Hu as [Hu _].
  destruct (unslot_wf i q a Hwf Hi Hu) as (Hq & Hwf' & Hnot).
  destruct (pool_quarantine a Hwf i q Hi Hu) as (Hlt & Ht & Ho).
  destruct (release_taken (q_frame q) (q_owner q) _ Hwf' Ho Hlt Ht) as (a' & Hrel & Hfr).
  exists a'. split_and!; [by unfold checked_sub; rewrite decide_True|done|]. split.
  - by eapply freed_wf.
  - apply (freed_frames _ _ _ Hfr).
  - apply (freed_free _ _ _ Hfr).
  - apply (freed_counter _ _ _ Hfr).
  - intros s. rewrite (freed_quarantine _ _ _ Hfr). cbn. rewrite table_insert.
    destruct (decide (i = s)) as [->|Hne].
    + rewrite decide_True by (split; [done|by eapply table_lookup_lt]).
      rewrite decide_True by by left. rewrite Hi. cbn. unfold expire. by rewrite Hx.
    + rewrite decide_False by tauto. rewrite decide_False; [done|].
      by intros ->%list_elem_of_singleton.
  - intros j. rewrite (freed_taken _ _ _ Hfr), andb_true_iff, negb_true_iff, bool_decide_eq_false.
    change (taken (a <| fa_quarantine ::= _ |> <| fa_quarantined := _ |>) j) with (taken a j).
    split; intros [H1 H2]; (split; [try done|try done]).
    + intros s p ->%list_elem_of_singleton Hp _. congruence.
    + apply (H2 i q); [by left|done..].
Qed.

Lemma drained_app safe l l' n n' a a' a'' :
  drained safe l n a a' → drained safe l' n' a' a'' → drained safe (l ++ l') (n + n') a a''.
Proof.
  intros [W1 F1 R1 C1 Q1 T1] [W2 F2 R2 C2 Q2 T2]. split; [done|congruence|lia|..].
  - intros o c (d & Hd & ?)%C2. destruct (C1 o d Hd) as (e & ? & ?). exists e. split; [done|lia].
  - intros s. rewrite Q2, Q1. pose proof (elem_of_app l l' s) as Happ.
    repeat case_decide; try tauto. destruct (fa_quarantine a !! s); [|done].
    cbn. by rewrite expire_idem.
  - intros j. rewrite T2, T1. split.
    + intros [[Hj H1] H2]. split; [done|]. intros s q Hs%elem_of_app Hq Hx.
      destruct (decide (s ∈ l)) as [Hl|Hl]; [by apply (H1 s q)|].
      apply (H2 s q); [tauto| |done]. by rewrite Q1, decide_False.
    + intros [Hj H]. split; [split; [done|]|]; intros s q Hs Hq Hx.
      * apply (H s q); [apply elem_of_app; by left|done..].
      * rewrite Q1 in Hq. case_decide as Hl; [|by apply (H s q); [apply elem_of_app; right|..]].
        apply fmap_Some in Hq as (p & _ & ->). by rewrite expired_expire in Hx.
Qed.

Lemma drain_from_spec safe l : ∀ r a,
  pool_wf a → (∀ i, i ∈ l → i < tlen (fa_quarantine a)) →
  ∃ n a', drain_from safe l r a = Some (r + n, a') ∧ drained safe l n a a'.
Proof.
  induction l as [|i l IH]; intros r a Hwf Hl.
  { exists 0, a. rewrite N.add_0_r. split; [done|].
    split; try done; [lia|by eauto|]. intros j. split; [|by intros []]. intros Hj. split; [done|].
    by intros s q Hs%not_elem_of_nil. }
  destruct (fa_quarantine a !! i) as [q|] eqn:Hq.
  2:{ apply eq_None_not_Some in Hq. destruct Hq. apply table_lookup_is_Some, Hl. by left. }
  assert (negb (q_used q) || bool_decide (safe < q_generation q) = negb (expired safe q)) as Hneg.
  { unfold expired. destruct (q_used q); [cbn|done]. rewrite <-bool_decide_not.
    apply bool_decide_ext. lia. }
  cbn [drain_from]. rewrite Hq. cbn [mbind option_bind]. rewrite Hneg. clear Hneg.
  destruct (expired safe q) eqn:Hx; cbn [negb].
  - destruct (drain_one safe i q a Hwf Hq Hx) as (a1 & Hsub & Hrel & Hone).
    change (fa_quarantined (a <| fa_quarantine ::= ?[f] |>)) with (fa_quarantined a).
    rewrite Hsub. cbn [mbind option_bind]. rewrite Hrel.
    cbn [mbind option_bind].
    destruct (IH (r + 1) a1 (dr_wf _ _ _ _ _ Hone)) as (n & a' & Hrun & Hd).
    { intros j Hj. apply table_lookup_is_Some. rewrite (dr_quarantine _ _ _ _ _ Hone).
      assert (is_Some (fa_quarantine a !! j)) as [p ->].
      { apply table_lookup_is_Some, Hl. by right. } destruct (decide (j ∈ [i])); by eexists. }
    exists (1 + n), a'. rewrite Hrun. split; [f_equal; f_equal; lia|].
    by apply (drained_app safe [i] l 1 n a a1 a').
  - destruct (IH r a Hwf) as (n & a' & Hrun & Hd); [intros j Hj; apply Hl; by right|].
    exists n, a'. split; [done|]. apply (drained_app safe [i] l 0 n a a a'); [|done].
    split; try done; [lia|by eauto|..].
    + intros s. case_decide as Hs; [|done]. apply list_elem_of_singleton in Hs as ->.
      rewrite Hq. cbn. unfold expire. by rewrite Hx.
    + intros j. split; [|by intros []]. intros Hj. split; [done|].
      intros s p ->%list_elem_of_singleton Hp. congruence.
Qed.

(** The whole pass: every expired slot is empty and its frame free; nothing
    else moved. *)
Definition drained_pool (safe : N) (a a' : FrameAllocator) : Prop :=
  pool_wf a' ∧ fa_frames a' = fa_frames a ∧
  fa_quarantine a' = expire safe <$> fa_quarantine a ∧
  (∀ owner n, owner_slot owner < OWNER_SLOTS → chargeable owner n a → chargeable owner n a') ∧
  ∀ j, taken a' j = true ↔ taken a j = true ∧
    ∀ q, q ∈ fa_quarantine a → expired safe q = true → frame_index (q_frame q) ≠ j.

Lemma drain_spec safe a : pool_wf a →
  ∃ n a', drain_quarantine safe a = Some (n, a') ∧ fa_free a' = fa_free a + n ∧
    drained_pool safe a a'.
Proof.
  intros Hwf. unfold drain_quarantine.
  destruct (drain_from_spec safe (indices (fa_quarantine a)) 0 a Hwf) as (n & a' & -> & Hd).
  { intros i. by rewrite indices_lookup. }
  cbn [mbind option_bind]. rewrite N.add_0_l. exists n. eexists. split; [done|].
  set (a1 := a' <| fa_quarantine_released ::= _ |>).
  assert (Hwf1 : pool_wf (if decide (fa_quarantined a1 = 0) then a1 <| fa_pending := false |> else a1)).
  { destruct (dr_wf _ _ _ _ _ Hd). by case_decide. }
  split; [transitivity (fa_free a'); [by case_decide|apply Hd]|].
  split_and!; [done|transitivity (fa_frames a'); [by case_decide|apply Hd]|..].
  - transitivity (fa_quarantine a'); [by case_decide|]. apply table_eq. intros s.
    rewrite (dr_quarantine _ _ _ _ _ Hd), table_fmap.
    destruct (decide (s ∈ _)) as [Hs|Hs]; [done|].
    rewrite indices_lookup in Hs. by rewrite table_lookup_ge by lia.
  - intros owner n' Ho (c & Hc & Hn).
    assert (is_Some (charged a' owner)) as [c' Hc'].
    { apply table_lookup_is_Some. rewrite (pool_charged a' (dr_wf _ _ _ _ _ Hd)). done. }
    destruct (dr_counter _ _ _ _ _ Hd _ _ Hc') as (d & ? & ?). simplify_eq.
    exists c'. split; [by destruct (decide (fa_quarantined a1 = 0))|lia].
  - intros j. transitivity (taken a' j = true); [by case_decide|].
    rewrite (dr_taken _ _ _ _ _ Hd). split; intros [Hj H]; (split; [done|]).
    + intros q [s Hs]%list_elem_of_lookup_1 Hx. rewrite <-table_lookup_nat in Hs.
      apply (H (N.of_nat s) q); [|done..]. apply indices_lookup. by eapply table_lookup_lt.
    + intros s q _ Hs. apply H. by eapply list_elem_of_lookup_2.
Qed.

(** ** Taking frames *)

Lemma test_wf a i : pool_wf a → i < fa_frames a → test a i = Some (taken a i).
Proof. intros Hwf Hi. by apply test_taken, (pool_map a Hwf). Qed.

(** [k] turns after the hint, every frame passed is taken. *)
Lemma scan_spec a start : pool_wf a → start < fa_frames a → ∀ (fuel k : nat),
  (0 < fuel)%nat → N.of_nat k + N.of_nat fuel = fa_frames a →
  (∀ m, (m < k)%nat → taken a ((start + N.of_nat m) mod fa_frames a) = true) →
  match scan fuel start ((start + N.of_nat k) mod fa_frames a) a with
  | Some (Some i) => i < fa_frames a ∧ taken a i = false
  | Some None => ∀ i, i < fa_frames a → taken a i = true
  | None => False
  end.
Proof.
  intros Hwf Hs. set (n := fa_frames a) in *.
  induction fuel as [|fuel IH]; intros k Hf Hk Hpast; [lia|]. cbn [scan]. fold n.
  set (i := (start + N.of_nat k) mod n). pose proof (N.mod_lt (start + N.of_nat k) n ltac:(lia)) as Hi.
  rewrite test_wf by done. cbn [mbind option_bind]. destruct (taken a i) eqn:Ht; cbn [negb]; [|done].
  assert (Hnext : (if decide (n <= i + 1) then 0 else i + 1) = (start + N.of_nat (S k)) mod n).
  { replace (start + N.of_nat (S k)) with ((start + N.of_nat k) + 1) by lia.
    rewrite <-N.Div0.add_mod_idemp_l. fold i. case_decide; [|by rewrite N.mod_small by lia].
    replace (i + 1) with n by lia. by rewrite N.Div0.mod_same. }
  rewrite Hnext.
  assert (Hpast' : ∀ m, (m < S k)%nat → taken a ((start + N.of_nat m) mod n) = true).
  { intros m Hm. destruct (decide (m = k)) as [->|]; [done|]. apply Hpast. lia. }
  destruct fuel as [|fuel].
  - assert (N.of_nat (S k) = n) as -> by lia.
    replace ((start + n) mod n) with start.
    2:{ rewrite <-N.Div0.add_mod_idemp_r, N.Div0.mod_same, N.add_0_r. by rewrite N.mod_small. }
    rewrite decide_True by done. intros j Hj.
    set (m := (j + n - start) mod n). pose proof (N.mod_lt (j + n - start) n ltac:(lia)) as Hm.
    replace j with ((start + N.of_nat (N.to_nat m)) mod n); [apply Hpast'; lia|].
    rewrite N2Nat.id. unfold m. rewrite N.Div0.add_mod_idemp_r.
    replace (start + (j + n - start)) with (j + n) by lia.
    rewrite <-N.Div0.add_mod_idemp_r, N.Div0.mod_same, N.add_0_r. by apply N.mod_small.
  - rewrite decide_False; [apply IH; [lia|lia|done]|].
    intros Heq. apply (f_equal (λ x, (x + (n - start)) mod n)) in Heq.
    rewrite N.Div0.add_mod_idemp_l in Heq.
    replace (start + N.of_nat (S k) + (n - start)) with (N.of_nat (S k) + n) in Heq by lia.
    replace (start + (n - start)) with n in Heq by lia.
    rewrite <-N.Div0.add_mod_idemp_r, N.Div0.mod_same, N.add_0_r, N.mod_small in Heq by lia. lia.
Qed.

Lemma hint_after_lt a i : 0 < fa_frames a → hint_after a i < fa_frames a.
Proof. unfold hint_after. case_decide; lia. Qed.

(** The pool after frames have been taken and the hint moved. *)
Lemma hint_wf a h : pool_wf a → h < fa_frames a → pool_wf (a <| fa_hint := h |>).
Proof. intros [] Hh. by split. Qed.

(** Runs. *)
Lemma run_length_spec a count i : pool_wf a → i + N.of_nat count <= fa_frames a →
  ∃ r, run_length count i a = Some r ∧ r <= N.of_nat count ∧
    (∀ k, k < r → taken a (i + k) = false) ∧ (r < N.of_nat count → taken a (i + r) = true).
Proof.
  intros Hwf. revert i. induction count as [|count IH]; intros i Hi; cbn [run_length].
  { exists 0. split_and!; [done|lia|intros; lia|lia]. }
  rewrite test_wf by (done || lia). cbn [mbind option_bind]. destruct (taken a i) eqn:Ht.
  { exists 0. rewrite N.add_0_r. split_and!; [done|lia|intros; lia|done]. }
  destruct (IH (i + 1)) as (r & -> & Hr & Hfree & Hstop); [lia|]. cbn [mbind option_bind].
  exists (r + 1). split_and!; [done|lia|..].
  - intros k Hk. destruct (decide (k = 0)) as [->|]; [by rewrite N.add_0_r|].
    replace (i + k) with (i + 1 + (k - 1)) by lia. apply Hfree. lia.
  - intros Hlt. replace (i + (r + 1)) with (i + 1 + r) by lia. apply Hstop. lia.
Qed.

Definition free_run (a : FrameAllocator) (i count : N) : Prop :=
  ∀ k, k < count → taken a (i + k) = false.

Lemma run_from_spec a to count : pool_wf a → to <= fa_frames a → fa_frames a + count < 2 ^ 64 →
  ∀ fuel i, i <= fa_frames a → to < i + N.of_nat fuel → (0 < fuel)%nat →
  match run_from fuel i to count a with
  | Some (Some j) => i <= j ∧ j + count <= to ∧ free_run a j count
  | Some None => ∀ j, i <= j → j + count <= to → ¬ free_run a j count
  | None => False
  end.
Proof.
  intros Hwf Hto Hcount. induction fuel as [|fuel IH]; intros i Hi Hf Hpos; [lia|].
  cbn [run_from]. unfold checked_add. rewrite decide_True by lia. cbn [mbind option_bind].
  case_decide as Hend; [intros j Hj ?; lia|].
  destruct (run_length_spec a (N.to_nat count) i Hwf) as (r & -> & Hr & Hfree & Hstop); [lia|].
  cbn [mbind option_bind]. rewrite N2Nat.id in Hr, Hstop.
  case_decide as Hrc; [subst r; split_and!; [lia|lia|done]|].
  specialize (IH (i + (r + 1)) ltac:(lia) ltac:(lia) ltac:(lia)).
  assert (Hskip : ∀ j, i <= j → j < i + (r + 1) → ¬ free_run a j count).
  { intros j Hj Hlt Hrun. specialize (Hrun (i + r - j) ltac:(lia)).
    replace (j + (i + r - j)) with (i + r) in Hrun by lia. rewrite Hstop in Hrun by lia. done. }
  destruct (run_from _ _ _ _ _) as [[j|]|]; [destruct IH as (? & ? & ?); split_and!; [lia|done..]| |done].
  intros j Hj Hjt. destruct (decide (j < i + (r + 1))); [by apply Hskip|apply IH; lia].
Qed.

Definition within (i count j : N) : Prop := i <= j < i + count.

Lemma take_frames_spec count owner : ∀ i a,
  pool_wf a → chargeable owner (N.of_nat count) a → i + N.of_nat count <= fa_frames a →
  free_run a i (N.of_nat count) →
  ∃ a', take_frames count i owner a = Some a' ∧ pool_wf a' ∧
    took (within i (N.of_nat count)) (N.of_nat count) a a'.
Proof.
  induction count as [|count IH]; intros i a Hwf Hch Hi Hrun; cbn [take_frames].
  { exists a. split_and!; [done..|]. split; try done; [|lia]. intros j. unfold within.
    split; [by right|]. intros [|]; [lia|done]. }
  assert (Hfirst : taken a i = false) by (rewrite <-(N.add_0_r i); apply Hrun; lia).
  destruct (take_frame_spec i owner (N.of_nat count) a) as (a1 & -> & Hwf1 & T1 & Hch1);
    [done|by replace (N.of_nat count + 1) with (N.of_nat (S count)) by lia|lia|done|].
  cbn [mbind option_bind]. destruct (IH (i + 1) a1) as (a' & -> & Hwf' & T2); [done|done|..].
  { rewrite (took_frames _ _ _ _ T1). lia. }
  { intros k Hk. apply not_true_iff_false. rewrite (took_taken _ _ _ _ T1). intros [|Ht]; [lia|].
    replace (i + 1 + k) with (i + (1 + k)) in Ht by lia. rewrite Hrun in Ht by lia. done. }
  exists a'. split_and!; [done..|]. destruct T1 as [t1 f1 r1 q1], T2 as [t2 f2 r2 q2].
  split; [|congruence|lia|congruence..]. intros j. rewrite t2, t1. unfold within. split.
  - intros [|[->|]]; [left; lia..|by right].
  - intros [|]; [|by right; right]. destruct (decide (i = j)); [by right; left|left; lia].
Qed.

Lemma take_run_spec from to count owner a :
  pool_wf a → 0 < count → from <= fa_frames a → to <= fa_frames a → fa_frames a + count < 2 ^ 64 →
  chargeable owner count a →
  ∃ found a', take_run from to count owner a = Some (found, a') ∧ pool_wf a' ∧
    match found with
    | Some frame => ∃ i, frame = i * PAGE_SIZE ∧ i + count <= fa_frames a ∧ free_run a i count ∧
        (∀ j, taken a' j = true ↔ within i count j ∨ taken a j = true) ∧
        fa_quarantine a' = fa_quarantine a
    | None => a' = a ∧ ∀ j, from <= j → j + count <= to → ¬ free_run a j count
    end.
Proof.
  intros Hwf Hpos Hfrom Hto Hbig Hch. unfold take_run.
  pose proof (run_from_spec a to count Hwf Hto Hbig (N.to_nat to + 1) from Hfrom
                ltac:(lia) ltac:(lia)) as Hrun.
  destruct (run_from _ _ _ _ _) as [[i|]|]; cbn [mbind option_bind]; [| |done].
  2:{ by exists None, a. }
  destruct Hrun as (Hi & Hend & Hfree).
  destruct (take_frames_spec (N.to_nat count) owner i a) as (a1 & -> & Hwf1 & T); rewrite ?N2Nat.id;
    [done..|lia|done|]. rewrite N2Nat.id in T. cbn [mbind option_bind].
  eexists _, _. split; [done|]. split.
  { apply hint_wf, hint_after_lt; [done|]. rewrite (took_frames _ _ _ _ T). lia. }
  exists i. rewrite frame_containing_mul. split_and!; [done|lia|done|apply T|apply T].
Qed.

(** What an allocation does to the pool: a run of free frames is taken, or no
    such run exists. *)
Definition allocated (count : N) (a : FrameAllocator) (found : option N) (a' : FrameAllocator) :
    Prop :=
  match found with
  | Some frame => ∃ i, frame = i * PAGE_SIZE ∧ i + count <= fa_frames a ∧ free_run a i count ∧
      (∀ j, taken a' j = true ↔ within i count j ∨ taken a j = true) ∧
      fa_quarantine a' = fa_quarantine a
  | None => a' = a ∧ ∀ i, i + count <= fa_frames a → ¬ free_run a i count
  end.

Lemma alloc_contiguous_spec safe count owner a :
  pool_wf a → 0 < count → fa_frames a + count < 2 ^ 64 →
  owner_slot owner < OWNER_SLOTS → chargeable owner count a →
  ∃ d found a', alloc_contiguous safe count owner a = Some (found, a') ∧
    drained_pool safe a d ∧ pool_wf a' ∧ allocated count d found a'.
Proof.
  intros Hwf Hpos Hbig Ho Hch. unfold alloc_contiguous. rewrite decide_False by lia.
  destruct (drain_spec safe a Hwf) as (n & d & -> & _ & Hd). cbn [mbind option_bind].
  pose proof Hd as (Hwfd & Hfr & _ & Hchd & _). pose proof (Hchd owner count Ho Hch) as Hch'.
  set (start := N.min (fa_hint d) (fa_frames d)).
  destruct (take_run_spec start (fa_frames d) count owner d) as (f1 & a1 & -> & Hwf1 & H1);
    [done|done|lia|lia|by rewrite Hfr|done|]. cbn [mbind option_bind]. destruct f1 as [frame|].
  { by exists d, (Some frame), a1. }
  destruct H1 as [-> Hnone].
  destruct (take_run_spec 0 (N.min (saturating_add 64 start count) (fa_frames d)) count owner d)
    as (f2 & a2 & -> & Hwf2 & H2); [done|done|lia|lia|by rewrite Hfr|done|].
  exists d, f2, a2. split_and!; [done..|]. destruct f2 as [frame|]; [done|].
  destruct H2 as [-> Hnone2]. split; [done|]. intros i Hi.
  pose proof (pool_frames d Hwfd). unfold saturating_add in Hnone2.
  destruct (decide (start <= i)); [apply Hnone; lia|apply Hnone2; lia].
Qed.

Lemma alloc_spec safe owner n a :
  pool_wf a → owner_slot owner < OWNER_SLOTS → chargeable owner (n + 1) a →
  ∃ d found a', alloc safe owner a = Some (found, a') ∧
    (if decide (fa_free a = 0) then drained_pool safe a d else d = a) ∧
    pool_wf a' ∧ chargeable owner n a' ∧ fa_frames a' = fa_frames a ∧ allocated 1 d found a'.
Proof.
  intros Hwf Ho Hch. unfold alloc.
  assert (∃ d, (if decide (fa_free a = 0) then snd <$> drain_quarantine safe a else Some a) = Some d
    ∧ (if decide (fa_free a = 0) then drained_pool safe a d else d = a)
    ∧ pool_wf d ∧ chargeable owner (n + 1) d ∧ fa_frames d = fa_frames a) as (d & -> & Hd & Hwfd & Hchd & Hfr).
  { case_decide; [|by exists a]. destruct (drain_spec safe a Hwf) as (m & d & -> & _ & Hd).
    exists d. pose proof Hd as (? & ? & _ & Hc & _). split_and!; [done..| |done]. by apply Hc. }
  cbn [mbind option_bind]. pose proof (pool_hint d Hwfd) as Hh.
  pose proof (scan_spec d (fa_hint d) Hwfd Hh (N.to_nat (fa_frames d)) 0 ltac:(lia) ltac:(lia)
                ltac:(intros; lia)) as Hscan.
  rewrite N.add_0_r, N.mod_small in Hscan by done.
  destruct (scan _ _ _ d) as [[i|]|]; cbn [mbind option_bind]; [| |done]; exists d.
  - destruct Hscan as [Hi Hfree].
    destruct (take_frame_spec i owner n d) as (a1 & -> & Hwf1 & T & Hch1); [done..|].
    cbn [mbind option_bind]. pose proof (took_frames _ _ _ _ T) as Hfr1.
    eexists _, _. split_and!; [done|done|..].
    { apply hint_wf, hint_after_lt; [done|]. lia. }
    { exact Hch1. }
    { cbn. lia. }
    exists i. rewrite frame_containing_mul. split_and!; [done|lia|..|apply T].
    + intros k Hk. by replace (i + k) with i by lia.
    + intros j. etrans; [apply T|]. unfold within. f_equiv. lia.
  - exists None, d. split_and!; [done..| |done|split; [done|]].
    { destruct Hchd as (c & Hc & Hn). exists c. split; [done|lia]. }
    intros i Hi Hrun. specialize (Hrun 0 ltac:(lia)). rewrite N.add_0_r, Hscan in Hrun by lia. done.
Qed.

(** ** The quarantine over time *)

Lemma retire_slot_free l : ∀ i j, retire_slot l i = Some j →
  ∃ q, l !! (j - i) = Some q ∧ q_used q = false ∧ i <= j.
Proof.
  induction l as [|q l IH]; intros i j; [done|]. cbn [retire_slot].
  destruct (q_used q) eqn:Hu.
  - intros (p & Hp & Hpu & Hle)%IH. exists p. split_and!; [|done|lia].
    replace (j - i) with (N.succ (j - (i + 1))) by lia.
    unfold lookup, table_Lookup in *. by rewrite N2Nat.inj_succ.
  - intros [= <-]. exists q. rewrite N.sub_diag. split_and!; [done..|lia].
Qed.

(** A frame its holder may give up: taken, and not already in quarantine. *)
Definition held (a : FrameAllocator) (frame : N) : Prop :=
  frame_index frame < fa_frames a ∧ taken a (frame_index frame) = true ∧
  ¬ in_quarantine a (frame_index frame).

Lemma retire_at_spec frame owner generation a :
  pool_wf a → owner_slot owner < OWNER_SLOTS → held a frame →
  pool_wf (retire_at frame owner generation a) ∧
  ∀ s q, fa_quarantine a !! s = Some q → q_used q = true →
    fa_quarantine (retire_at frame owner generation a) !! s = Some q.
Proof.
  intros Hwf Ho (Hi & Ht & Hnot). unfold retire_at. cbn [set_field fa_quarantine].
  destruct (retire_slot _ 0) as [i|] eqn:Hs; [|by split; [destruct Hwf|]].
  apply retire_slot_free in Hs as (q0 & Hq0 & Hu0 & _). rewrite N.sub_0_r in Hq0.
  cbn in Hq0. set (new := mkQuarantined true frame owner generation).
  set (a1 := a <| fa_pending := true |> <| fa_quarantine ::= <[i := new]> |>
               <| fa_quarantined ::= λ n, n + 1 |>).
  assert (Hother : ∀ s q, fa_quarantine a1 !! s = Some q →
    s = i ∧ q = new ∨ s ≠ i ∧ fa_quarantine a !! s = Some q).
  { intros s q Hs. cbn in Hs. rewrite table_insert in Hs. case_decide as Hd.
    - left. destruct Hd. by simplify_eq.
    - right. split; [|done]. intros ->. apply Hd. split; [done|]. by eapply table_lookup_lt. }
  assert (pool_wf a1) as Hwf1.
  { split; try apply Hwf.
    - intros s q Hs Hu. destruct (Hother s q Hs) as [[-> ->]|[_ Hs']]; [done|].
      by apply (pool_quarantine a Hwf s).
    - intros s s' q q' Hs Hs' Hu Hu' Heq.
      destruct (Hother s q Hs) as [[-> ->]|[_ Hq]], (Hother s' q' Hs') as [[-> ->]|[_ Hq']]; [done|..].
      + destruct Hnot. by exists s', q'.
      + destruct Hnot. by exists s, q.
      + by apply (pool_distinct a Hwf s s' q q').
    - pose proof (count_insert q_used _ i new q0 Hq0) as Hc.
      rewrite (decide_False (P := q_used q0)), decide_True in Hc by (done || by rewrite Hu0; intros []).
      cbn. rewrite (pool_quarantined a Hwf). cbn in Hc. lia. }
  split; [by case_decide; [destruct Hwf1|]|]. intros s q Hq Hu.
  replace (fa_quarantine _) with (<[i := new]> (fa_quarantine a)) by (by case_decide).
  rewrite table_insert_ne; [done|]. intros <-. congruence.
Qed.

(** The quarantined frame of [q] is still held back, by whatever owner. *)
Definition held_back (q : Quarantined) (a : FrameAllocator) : Prop :=
  ∃ s q', fa_quarantine a !! s = Some q' ∧ q_used q' = true ∧ q_frame q' = q_frame q ∧
    q_generation q' = q_generation q.

Lemma held_back_drained safe q a d :
  safe < q_generation q → drained_pool safe a d → held_back q a → held_back q d.
Proof.
  intros Hg (_ & _ & Hq & _) (s & q' & Hs & Hu & Hf & Hgen). exists s, q'.
  rewrite Hq, table_fmap, Hs. cbn. unfold expire, expired.
  rewrite bool_decide_false, andb_false_r by lia. done.
Qed.

Lemma held_back_taken q a : pool_wf a → held_back q a → taken a (frame_index (q_frame q)) = true.
Proof. intros Hwf (s & q' & Hs & Hu & <- & _). by apply (pool_quarantine a Hwf s). Qed.

(** One operation of a client on the pool, at a moment where the oldest
    generation any processor may still use is [safe]; the label is the run of
    frames handed out. *)
Inductive pool_step (safe : N) : option (N * N) → FrameAllocator → FrameAllocator → Prop :=
| St_alloc owner a found a' :
    owner_slot owner < OWNER_SLOTS → chargeable owner 1 a →
    alloc safe owner a = Some (found, a') →
    pool_step safe ((λ frame, (frame_index frame, 1)) <$> found) a a'
| St_contiguous count owner a found a' :
    0 < count → fa_frames a + count < 2 ^ 64 →
    owner_slot owner < OWNER_SLOTS → chargeable owner count a →
    alloc_contiguous safe count owner a = Some (found, a') →
    pool_step safe ((λ frame, (frame_index frame, count)) <$> found) a a'
| St_drain a n a' :
    drain_quarantine safe a = Some (n, a') → pool_step safe None a a'
| St_retire frame owner generation a :
    owner_slot owner < OWNER_SLOTS → held a frame →
    pool_step safe None a (retire_at frame owner generation a)
| St_release frame owner a a' :
    owner_slot owner < OWNER_SLOTS → held a frame →
    release frame owner a = Some a' → pool_step safe None a a'
| St_reassign from to a :
    owner_slot to < OWNER_SLOTS → pool_step safe None a (snd (reassign_quarantine from to a)).

(** A run of operations, every one before generation [g] is safe. *)
Inductive pool_run (g : N) : list (N * N) → FrameAllocator → FrameAllocator → Prop :=
| Run_nil a : pool_run g [] a a
| Run_cons safe handed l a a' a'' :
    safe < g → pool_step safe handed a a' → pool_run g l a' a'' →
    pool_run g (option_list handed ++ l) a a''.

Lemma reassign_spec from to a :
  pool_wf a → owner_slot to < OWNER_SLOTS →
  pool_wf (snd (reassign_quarantine from to a)) ∧
  ∀ s q, fa_quarantine a !! s = Some q →
    ∃ o, fa_quarantine (snd (reassign_quarantine from to a)) !! s = Some (q <| q_owner := o |>).
Proof.
  intros Hwf Ho. set (f q := if q_used q && bool_decide (q_owner q = from)
    then q <| q_owner := to |> else q).
  assert (Hq' : fa_quarantine (snd (reassign_quarantine from to a)) = f <$> fa_quarantine a) by done.
  assert (Hf : ∀ q, q_frame (f q) = q_frame q ∧ q_used (f q) = q_used q ∧
    (f q = q ∨ f q = q <| q_owner := to |>)).
  { intros q. unfold f. case_match; cbn; auto. }
  assert (Hinv : ∀ s q', fa_quarantine (snd (reassign_quarantine from to a)) !! s = Some q' →
    ∃ q, fa_quarantine a !! s = Some q ∧ q' = f q).
  { intros s q' Hs. rewrite Hq', table_fmap in Hs. by apply fmap_Some in Hs. }
  split; [split; try apply Hwf|].
  - cbn. rewrite !tlen_alter. apply Hwf.
  - intros s q' (q & Hs & ->)%Hinv Hu. destruct (Hf q) as (Hfr & Hfu & Hfo). rewrite Hfu in Hu.
    destruct (pool_quarantine a Hwf s q Hs Hu) as (? & ? & ?). rewrite Hfr. split_and!; [done..|].
    by destruct Hfo as [-> | ->].
  - intros s s' q q' (p & Hs & ->)%Hinv (p' & Hs' & ->)%Hinv. destruct (Hf p) as (-> & -> & _),
      (Hf p') as (-> & -> & _). by apply (pool_distinct a Hwf).
  - rewrite Hq'. transitivity (fa_quarantined a); [done|]. rewrite (pool_quarantined a Hwf).
    unfold tlen. f_equal. clear -Hf. induction (fa_quarantine a) as [|q l IH]; [done|].
    rewrite fmap_cons, !filter_cons. destruct (Hf q) as (_ & -> & _).
    case_decide; cbn; congruence.
  - intros s q Hs. rewrite Hq', table_fmap, Hs. cbn. destruct (Hf q) as (_ & _ & [-> | ->]).
    + exists (q_owner q). by destruct q.
    + by exists to.
Qed.

Lemma allocated_held_back count q d found a' :
  pool_wf d → held_back q d → allocated count d found a' →
  held_back q a' ∧
  ∀ frame, found = Some frame → ¬ within (frame_index frame) count (frame_index (q_frame q)).
Proof.
  intros Hwf Hq. destruct found as [frame|]; [|by intros [-> _]].
  intros (i & -> & Hi & Hfree & _ & Hqu). split.
  - destruct Hq as (s & q' & Hs & ?). exists s, q'. by rewrite Hqu.
  - intros ? [= <-] [H1 H2]. rewrite frame_index_mul in *.
    pose proof (held_back_taken q d Hwf Hq) as Ht.
    specialize (Hfree (frame_index (q_frame q) - i) ltac:(lia)).
    replace (i + (frame_index (q_frame q) - i)) with (frame_index (q_frame q)) in Hfree by lia.
    congruence.
Qed.

Lemma pool_step_spec safe handed a a' : pool_wf a → pool_step safe handed a a' →
  pool_wf a' ∧ ∀ q, safe < q_generation q → held_back q a → held_back q a' ∧
    ∀ run, run ∈ option_list handed → ¬ within run.1 run.2 (frame_index (q_frame q)).
Proof.
  intros Hwf Hstep.
  assert (Hpass : ∀ count d found, pool_wf d → pool_wf a' → allocated count d found a' →
    (∀ q, safe < q_generation q → held_back q a → held_back q d) →
    pool_wf a' ∧ ∀ q, safe < q_generation q → held_back q a → held_back q a' ∧
      ∀ run, run ∈ option_list ((λ frame, (frame_index frame, count)) <$> found) →
        ¬ within run.1 run.2 (frame_index (q_frame q))).
  { intros count d found Hwfd Hwf' Hal Hd. split; [done|]. intros q Hg Hq.
    destruct (allocated_held_back count q d found a') as [Hq' Hn]; [done|by apply Hd|done|].
    split; [done|]. intros run. destruct found as [frame|]; [|by intros ?%not_elem_of_nil].
    intros ->%list_elem_of_singleton. by apply Hn. }
  assert (Hquiet : pool_wf a' → (∀ q, safe < q_generation q → held_back q a → held_back q a') →
    pool_wf a' ∧ ∀ q, safe < q_generation q → held_back q a → held_back q a' ∧
      ∀ run, run ∈ option_list None → ¬ within run.1 run.2 (frame_index (q_frame q))).
  { intros Hwf' Hq'. split; [done|]. intros q Hg Hq. split; [by apply Hq'|].
    by intros run ?%not_elem_of_nil. }
  destruct Hstep as [owner a found a' Ho Hch Hal|count owner a found a' Hpos Hbig Ho Hch Hal|
    a n a' Hdr|frame owner g a Ho Hheld|frame owner a a' Ho Hheld Hrel|from to a Ho].
  - destruct (alloc_spec safe owner 0 a Hwf Ho Hch) as (d & f & a2 & Hal2 & Hd & Hwf2 & _ & _ & Hspec).
    rewrite Hal in Hal2. simplify_eq.
    apply (Hpass 1 d); [|done|done|]; case_decide; subst; try done; [apply Hd|].
    intros q Hg. by apply held_back_drained with safe.
  - destruct (alloc_contiguous_spec safe count owner a) as (d & f & a2 & Hal2 & Hd & Hwf2 & Hspec);
      [done..|]. rewrite Hal in Hal2. simplify_eq. apply (Hpass count d); [apply Hd|done|done|].
    intros q Hg. by apply held_back_drained with safe.
  - destruct (drain_spec safe a Hwf) as (n' & a2 & Hdr2 & _ & Hd). rewrite Hdr in Hdr2. simplify_eq.
    apply Hquiet; [apply Hd|]. intros q Hg. by apply held_back_drained with safe.
  - destruct (retire_at_spec frame owner g a Hwf Ho Hheld) as [Hwf' Hq']. apply Hquiet; [done|].
    intros q _ (s & q' & Hs & Hu & ?). exists s, q'. by rewrite (Hq' s q' Hs Hu).
  - destruct Hheld as (Hi & Ht & Hnot).
    destruct (release_taken frame owner a Hwf Ho Hi Ht) as (a2 & Hrel2 & Hfr).
    rewrite Hrel in Hrel2. simplify_eq. apply Hquiet; [by eapply freed_wf|].
    intros q _ (s & q' & Hs & ?). exists s, q'. by rewrite (freed_quarantine _ _ _ Hfr).
  - destruct (reassign_spec from to a Hwf Ho) as [Hwf' Hq']. apply Hquiet; [done|].
    intros q _ (s & q' & Hs & Hu & Hfr & Hgen). destruct (Hq' s q' Hs) as [o Ho'].
    by exists s, (q' <| q_owner := o |>).
Qed.

(** A pool of 128 frames: 0 and 1 taken, 5 in quarantine at generation 7. *)
Definition sample_pool : FrameAllocator := {|
  fa_bitmap := [35; 0];
  fa_frames := 128;
  fa_free := 125;
  fa_usable := 128;
  fa_hint := 0;
  fa_charged := replicate (N.to_nat OWNER_SLOTS) 0;
  fa_quarantine := [mkQuarantined true (5 * PAGE_SIZE) (OwnScope 3) 7; Quarantined.empty];
  fa_quarantined := 1;
  fa_quarantine_peak := 1;
  fa_quarantine_retained := 0;
  fa_quarantine_released := 0;
  fa_pending := true
|}.

Lemma sample_pool_wf : pool_wf sample_pool.
Proof.
  assert (Hq : ∀ s q, fa_quarantine sample_pool !! s = Some q → q_used q = true →
    s = 0 ∧ q = mkQuarantined true (5 * PAGE_SIZE) (OwnScope 3) 7).
  { intros s q Hs Hu. unfold lookup, table_Lookup in Hs.
    destruct (N.to_nat s) as [|[|]] eqn:Hn; simplify_eq/=. split; [lia|done]. }
  split; try done.
  - intros i Hi. change (i < 128) in Hi. apply N.Div0.div_lt_upper_bound.
    change (i < 64 * 2). lia.
  - intros s q Hs Hu. destruct (Hq s q Hs Hu) as [-> ->]. by vm_compute.
  - intros s s' q q' Hs Hs' Hu Hu' _. destruct (Hq s q Hs Hu), (Hq s' q' Hs' Hu'). congruence.
Qed.

Lemma sample_chargeable n : n < 2 ^ 64 → chargeable (OwnScope 3) n sample_pool.
Proof. intros Hn. exists 0. split; [done|by rewrite N.add_0_l]. Qed.

(** C25. A contiguous allocation succeeds exactly when, once the quarantine has
    returned what is safe, some run of that many free frames exists. It then
    takes a free run and only it, and never panics; when it refuses, nothing
    was taken. The pool's invariant holds afterwards. *)
Theorem alloc_contiguous_exact safe count owner a :
  pool_wf a → 0 < count → fa_frames a + count < 2 ^ 64 →
  owner_slot owner < OWNER_SLOTS → chargeable owner count a →
  ∃ d found a', alloc_contiguous safe count owner a = Some (found, a') ∧
    drained_pool safe a d ∧ pool_wf a' ∧ allocated count d found a'.
Proof. intros. by apply alloc_contiguous_spec. Qed.

Lemma alloc_contiguous_exact_witness :
  (∃ a', alloc_contiguous 6 4 (OwnScope 3) sample_pool = Some (Some (6 * PAGE_SIZE), a')) ∧
  ∃ d found a', alloc_contiguous 6 4 (OwnScope 3) sample_pool = Some (found, a') ∧
    drained_pool 6 sample_pool d ∧ pool_wf a' ∧ allocated 4 d found a'.
Proof.
  split; [by eexists; vm_compute|].
  apply (alloc_contiguous_exact 6 4 (OwnScope 3) sample_pool);
    [exact sample_pool_wf|done|done|done|by apply sample_chargeable].
Defined.

(** A single allocation takes one free frame, whatever the hint, and fails
    exactly when the pool has none: the quarantine is asked first, and only
    when the pool is empty. *)
Theorem alloc_exact safe owner a :
  pool_wf a → owner_slot owner < OWNER_SLOTS → chargeable owner 1 a →
  ∃ d found a', alloc safe owner a = Some (found, a') ∧
    (if decide (fa_free a = 0) then drained_pool safe a d else d = a) ∧
    pool_wf a' ∧ allocated 1 d found a'.
Proof.
  intros Hwf Ho Hch. destruct (alloc_spec safe owner 0 a Hwf Ho Hch) as (d & f & a' & ? & ? & ? & _ & _ & ?). by exists d, f, a'.
Qed.

Lemma alloc_exact_witness :
  (∃ a', alloc 6 (OwnScope 3) sample_pool = Some (Some (2 * PAGE_SIZE), a')) ∧
  ∃ d found a', alloc 6 (OwnScope 3) sample_pool = Some (found, a') ∧
    (if decide (fa_free sample_pool = 0) then drained_pool 6 sample_pool d else d = sample_pool) ∧
    pool_wf a' ∧ allocated 1 d found a'.
Proof.
  split; [by eexists; vm_compute|].
  apply (alloc_exact 6 (OwnScope 3) sample_pool);
    [exact sample_pool_wf|done|by apply sample_chargeable].
Defined.

(** C24. No frame comes back early: over any sequence of allocations, releases,
    retirements, drains and ownership transfers made while the oldest
    generation still in use is below a quarantined frame's, the pool stays
    well formed, the frame stays in quarantine, and no allocation hands out a
    run that contains it. *)
Theorem quarantine_holds q l a a' :
  pool_wf a → held_back q a → pool_run (q_generation q) l a a' →
  pool_wf a' ∧ held_back q a' ∧
  ∀ run, run ∈ l → ¬ within run.1 run.2 (frame_index (q_frame q)).
Proof.
  intros Hwf Hq Hrun. remember (q_generation q) as g eqn:Hg.
  induction Hrun as [a|safe handed l a a1 a' Hs Hstep _ IH].
  { split_and!; [done..|]. by intros run ?%not_elem_of_nil. }
  destruct (pool_step_spec safe handed a a1 Hwf Hstep) as [Hwf1 Hkeep].
  destruct (Hkeep q) as [Hq1 Hout]; [by rewrite <-Hg|done|].
  destruct (IH Hwf1 Hq1) as (? & ? & Hin). split_and!; [done..|].
  intros run [|]%elem_of_app; auto.
Qed.

Lemma quarantine_holds_witness :
  ∃ a', pool_run 7 [(6, 4)] sample_pool a' ∧ pool_wf a' ∧
    held_back (mkQuarantined true (5 * PAGE_SIZE) (OwnScope 3) 7) a' ∧
    ∀ run, run ∈ [(6, 4)] → ¬ within run.1 run.2 5.
Proof.
  assert (∃ a', alloc_contiguous 6 4 (OwnScope 3) sample_pool = Some (Some (6 * PAGE_SIZE), a'))
    as [a' Hal] by by eexists; vm_compute.
  assert (Hrun : pool_run 7 [(6, 4)] sample_pool a').
  { apply (Run_cons 7 6 (Some (6, 4)) [] sample_pool a' a'); [done| |apply Run_nil].
    apply (St_contiguous 6 4 (OwnScope 3) sample_pool (Some (6 * PAGE_SIZE)));
      [done..|by apply sample_chargeable|done]. }
  exists a'. split; [done|].
  apply (quarantine_holds (mkQuarantined true (5 * PAGE_SIZE) (OwnScope 3) 7) [(6, 4)] sample_pool);
    [exact sample_pool_wf| |exact Hrun]. by exists 0, (mkQuarantined true (5 * PAGE_SIZE) (OwnScope 3) 7).
Defined.
