(* ===== verification/Elf.v ===== *)
(** * The bounded ELF reader

    [kernel/src/elf.rs]: the reader of the images the kernel loads itself. *)

From Stdlib Require Import Strings.Byte.
From S2P Require Import Prelude Abi Frame.

#[local] Open Scope N_scope.

#[global] Instance byte_eq_dec : EqDecision byte := Byte.byte_eq_dec.

(** boot/protocol/src/lib.rs:39-39 [USER_MIN_ADDR] *)
Definition USER_MIN_ADDR : N := 4096.
(** boot/protocol/src/lib.rs:43-43 [USER_MAX_ADDR] *)
Definition USER_MAX_ADDR : N := 2 ^ 47.
(** kernel/src/elf.rs:16-16 [MAX_SEGMENTS] *)
Definition MAX_SEGMENTS : N := 8.
(** kernel/src/elf.rs:26-26 [MAX_IMAGE_BYTES] *)
Definition MAX_IMAGE_BYTES : N := 16 * 1024 * 1024.
(** kernel/src/elf.rs:35-35 [MAX_IMAGE_PAGES] *)
Definition MAX_IMAGE_PAGES : N := 4096.
(** kernel/src/elf.rs:38-38 [HEADER_LEN] *)
Definition HEADER_LEN : N := 64.
(** kernel/src/elf.rs:39-39 [PROGRAM_HEADER_LEN] *)
Definition PROGRAM_HEADER_LEN : N := 56.
(** kernel/src/elf.rs:40-40 [ET_EXEC] *)
Definition ET_EXEC : N := 2.
(** kernel/src/elf.rs:41-41 [EM_X86_64] *)
Definition EM_X86_64 : N := 62.
(** kernel/src/elf.rs:42-42 [PT_LOAD] *)
Definition PT_LOAD : N := 1.
(** kernel/src/elf.rs:43-43 [PF_X] *)
Definition PF_X : N := 1.
(** kernel/src/elf.rs:44-44 [PF_W] *)
Definition PF_W : N := 2.
(** kernel/src/elf.rs:45-45 [PF_R] *)
Definition PF_R : N := 4.

(** kernel/src/elf.rs:49-80 [Reject] *)
Inductive Reject :=
| TooShort | TooLarge | NotElf64 | WrongObjectType | BadProgramHeaders
| SegmentOutsideImage | SegmentUnaligned | SegmentFileLargerThanMemory
| SegmentOutsideUserRange | SegmentWriteAndExecute | SegmentWriteOrExecuteWithoutRead
| SegmentOverlap | SegmentCount | ImageTooManyPages | EntryNotExecutable.

(** kernel/src/elf.rs:108-123 [Segment] *)
Record Segment := mkSegment {
  sg_vaddr : N;
  sg_file_offset : N;
  sg_file_len : N;
  sg_mem_len : N;
  sg_read : bool;
  sg_write : bool;
  sg_execute : bool
}.

(** kernel/src/elf.rs:128-130 [Segment::pages] *)
Definition pages (s : Segment) : N := div_ceil (sg_mem_len s) PAGE_SIZE.

(** kernel/src/elf.rs:135-144 [Image] *)
Record Image := mkImage {
  im_entry : N;
  im_segments : list Segment;
  im_segment_count : N;
  im_pages : N
}.

(** ** Checks that may refuse

    A check returns a value, refuses the image, or panics on an arithmetic
    overflow or an index out of range. *)
Inductive Check (A : Type) := Ok (a : A) | Err (r : Reject) | Panics.
Arguments Ok {A} _.
Arguments Err {A} _.
Arguments Panics {A}.

#[global] Instance Check_ret : MRet Check := λ A a, Ok a.
#[global] Instance Check_bind : MBind Check := λ A B k m,
  match m with Ok a => k a | Err r => Err r | Panics => Panics end.

(** [o.ok_or(r)?] *)
Definition or_reject {A} (r : Reject) (o : option A) : Check A :=
  match o with Some a => Ok a | None => Err r end.
(** [if b { return Err(r); }] *)
Definition reject_if (b : bool) (r : Reject) : Check () := if b then Err r else Ok ().
(** Plain arithmetic, whose overflow is a panic. *)
Definition must {A} (o : option A) : Check A :=
  match o with Some a => Ok a | None => Panics end.

(** ** Reading the image *)

(** [bytes.get(offset..offset + n)]. *)
Definition slice (bytes : list byte) (offset n : N) : option (list byte) :=
  if decide (offset + n <= tlen bytes)
  then Some (take (N.to_nat n) (drop (N.to_nat offset) bytes)) else None.

(** [from_le_bytes]. *)
Definition from_le_bytes (bytes : list byte) : N :=
  foldr (λ b v, Byte.to_N b + 256 * v) 0 bytes.

(** kernel/src/elf.rs:146-150 [read_u16] *)
Definition read_u16 (bytes : list byte) (offset : N) : option N :=
  from_le_bytes <$> slice bytes offset 2.
(** kernel/src/elf.rs:152-156 [read_u32] *)
Definition read_u32 (bytes : list byte) (offset : N) : option N :=
  from_le_bytes <$> slice bytes offset 4.
(** kernel/src/elf.rs:158-162 [read_u64] *)
Definition read_u64 (bytes : list byte) (offset : N) : option N :=
  from_le_bytes <$> slice bytes offset 8.

(** kernel/src/elf.rs:173-176 [parse_user_image, the identification] *)
Definition ident_ok (image : list byte) : bool :=
  bool_decide (take 4 image = [x7f; x45; x4c; x46]) &&
  bool_decide ((image !! 4%nat) = Some x02) &&
  bool_decide ((image !! 5%nat) = Some x01) && bool_decide ((image !! 6%nat) = Some x01).

(** ** One program header *)

(** The locals of the loop: the segment array, how many are valid, the pages. *)
(** kernel/src/elf.rs:201-211 [parse_user_image, the locals of the loop] *)
Record Loading := mkLoading {
  ld_segments : list Segment;
  ld_count : N;
  ld_pages : N
}.

(** kernel/src/elf.rs:275-281 [parse_user_image, the overlap test] *)
Fixpoint check_overlap (start stop : N) (k : list Segment) : Check () :=
  match k with
  | [] => Ok ()
  | existing :: k =>
      size ← must (checked_mul 64 (pages existing) PAGE_SIZE);
      other_end ← must (checked_add 64 (sg_vaddr existing) size);
      reject_if (bool_decide (start < other_end) && bool_decide (sg_vaddr existing < stop))
        SegmentOverlap;;
      check_overlap start stop k
  end.

(** kernel/src/elf.rs:228-271 [parse_user_image, the checks on one segment] *)
Definition check_segment (image : list byte) (p_flags p_offset p_vaddr p_filesz p_memsz : N) :
    Check Segment :=
  reject_if (bool_decide (p_memsz < p_filesz)) SegmentFileLargerThanMemory;;
  file_end ← or_reject SegmentOutsideImage (checked_add 64 p_offset p_filesz);
  reject_if (bool_decide (tlen image < file_end)) SegmentOutsideImage;;
  reject_if (negb (bool_decide (p_vaddr mod PAGE_SIZE = 0))) SegmentUnaligned;;
  mem_end ← or_reject SegmentOutsideUserRange (checked_add 64 p_vaddr p_memsz);
  reject_if (bool_decide (p_vaddr < USER_MIN_ADDR) || bool_decide (USER_MAX_ADDR < mem_end))
    SegmentOutsideUserRange;;
  let read := negb (bool_decide (N.land p_flags PF_R = 0)) in
  let write := negb (bool_decide (N.land p_flags PF_W = 0)) in
  let execute := negb (bool_decide (N.land p_flags PF_X = 0)) in
  reject_if (write && execute) SegmentWriteAndExecute;;
  reject_if (negb read && (write || execute)) SegmentWriteOrExecuteWithoutRead;;
  reject_if (negb read) SegmentWriteOrExecuteWithoutRead;;
  Ok (mkSegment p_vaddr p_offset p_filesz p_memsz read write execute).

(** kernel/src/elf.rs:273-290 [parse_user_image, one segment added] *)
Definition add_segment (segment : Segment) (st : Loading) : Check Loading :=
  size ← must (checked_mul 64 (pages segment) PAGE_SIZE);
  stop ← must (checked_add 64 (sg_vaddr segment) size);
  check_overlap (sg_vaddr segment) stop (take (N.to_nat (ld_count st)) (ld_segments st));;
  total ← or_reject ImageTooManyPages (checked_add 64 (ld_pages st) (pages segment));
  reject_if (bool_decide (MAX_IMAGE_PAGES < total)) ImageTooManyPages;;
  if decide (ld_count st < tlen (ld_segments st))
  then Ok (mkLoading (<[ld_count st := segment]> (ld_segments st)) (ld_count st + 1) total)
  else Panics.

(** kernel/src/elf.rs:213-291 [parse_user_image, the body of the loop] *)
Definition load_header (image : list byte) (phoff : N) (st : Loading) (index : N) :
    Check Loading :=
  base ← must (checked_add 64 phoff (index * PROGRAM_HEADER_LEN));
  p_type ← or_reject BadProgramHeaders (read_u32 image base);
  if decide (p_type ≠ PT_LOAD) then Ok st else
  reject_if (bool_decide (ld_count st = MAX_SEGMENTS)) SegmentCount;;
  p_flags ← or_reject BadProgramHeaders (read_u32 image (base + 4));
  p_offset ← or_reject BadProgramHeaders (read_u64 image (base + 8));
  p_vaddr ← or_reject BadProgramHeaders (read_u64 image (base + 16));
  p_filesz ← or_reject BadProgramHeaders (read_u64 image (base + 32));
  p_memsz ← or_reject BadProgramHeaders (read_u64 image (base + 40));
  if decide (p_memsz = 0) then Ok st else
  segment ← check_segment image p_flags p_offset p_vaddr p_filesz p_memsz;
  add_segment segment st.

(** kernel/src/elf.rs:213-291 [parse_user_image, the loop] *)
Fixpoint load_headers (image : list byte) (phoff : N) (k : list N) (st : Loading) :
    Check Loading :=
  match k with
  | [] => Ok st
  | index :: k => st ← load_header image phoff st index; load_headers image phoff k st
  end.

(** kernel/src/elf.rs:297-299 [parse_user_image, the entry point] *)
Definition entry_ok (entry : N) (k : list Segment) : bool :=
  existsb (λ s, sg_execute s && bool_decide (sg_vaddr s <= entry) &&
                bool_decide (entry < sg_vaddr s + sg_mem_len s)) k.

(** The entry point, the offset of the program headers and their number. *)
(** kernel/src/elf.rs:166-199 [parse_user_image, the header] *)
Definition check_header (image : list byte) : Check (N * N * N) :=
  reject_if (bool_decide (MAX_IMAGE_BYTES < tlen image)) TooLarge;;
  reject_if (bool_decide (tlen image < HEADER_LEN)) TooShort;;
  reject_if (negb (ident_ok image)) NotElf64;;
  e_type ← or_reject TooShort (read_u16 image 16);
  reject_if (negb (bool_decide (e_type = ET_EXEC))) WrongObjectType;;
  e_machine ← or_reject TooShort (read_u16 image 18);
  reject_if (negb (bool_decide (e_machine = EM_X86_64))) WrongObjectType;;
  entry ← or_reject TooShort (read_u64 image 24);
  phoff ← or_reject TooShort (read_u64 image 32);
  phentsize ← or_reject TooShort (read_u16 image 54);
  phnum ← or_reject TooShort (read_u16 image 56);
  reject_if (negb (bool_decide (phentsize = PROGRAM_HEADER_LEN)) || bool_decide (phnum = 0)
             || bool_decide (64 < phnum)) BadProgramHeaders;;
  table_len ← or_reject BadProgramHeaders (checked_mul 64 phnum PROGRAM_HEADER_LEN);
  table_end ← or_reject BadProgramHeaders (checked_add 64 phoff table_len);
  reject_if (bool_decide (tlen image < table_end)) BadProgramHeaders;;
  Ok (entry, phoff, phnum).

(** kernel/src/elf.rs:165-310 [parse_user_image] *)
Definition parse_user_image (image : list byte) : Check Image :=
  '(entry, phoff, phnum) ← check_header image;
  st ← load_headers image phoff (N.of_nat <$> seq 0 (N.to_nat phnum))
         (mkLoading (replicate (N.to_nat MAX_SEGMENTS) (mkSegment 0 0 0 0 false false false)) 0 0);
  reject_if (bool_decide (ld_count st = 0)) SegmentCount;;
  reject_if (negb (entry_ok entry (take (N.to_nat (ld_count st)) (ld_segments st))))
    EntryNotExecutable;;
  Ok (mkImage entry (ld_segments st) (ld_count st) (ld_pages st)).
