(* ===== verification/ElfProofs.v ===== *)
(** * What an accepted image guarantees *)

From Stdlib Require Import Strings.Byte.
From S2P Require Import Prelude Abi Frame Elf.

#[local] Open Scope N_scope.

(** ** What makes a set of segments acceptable *)

Definition page_end (s : Segment) : N := sg_vaddr s + pages s * PAGE_SIZE.

Record segment_safe (image : list byte) (s : Segment) : Prop := {
  safe_file : sg_file_offset s + sg_file_len s <= tlen image;
  safe_fits : sg_file_len s <= sg_mem_len s;
  safe_size : 0 < sg_mem_len s;
  safe_aligned : sg_vaddr s mod PAGE_SIZE = 0;
  safe_low : USER_MIN_ADDR <= sg_vaddr s;
  safe_high : sg_vaddr s + sg_mem_len s <= USER_MAX_ADDR;
  safe_read : sg_read s = true;
  safe_wx : sg_write s && sg_execute s = false
}.

(** No page belongs to both. *)
Definition pages_disjoint (s t : Segment) : Prop :=
  page_end s <= sg_vaddr t ∨ page_end t <= sg_vaddr s.
Definition disjoint_all (k : list Segment) : Prop :=
  ∀ (i j : nat) s t, k !! i = Some s → k !! j = Some t → (i < j)%nat → pages_disjoint s t.

Record acceptable (image : list byte) (k : list Segment) : Prop := {
  acc_safe s : s ∈ k → segment_safe image s;
  acc_disjoint : disjoint_all k;
  acc_pages : tsum pages k <= MAX_IMAGE_PAGES
}.

Lemma tsum_app (k k' : list Segment) : tsum pages (k ++ k') = tsum pages k + tsum pages k'.
Proof. unfold tsum. induction k as [|s k IH]; cbn; [done|]. rewrite IH. lia. Qed.

Lemma acceptable_prefix image k k' : acceptable image (k ++ k') → acceptable image k.
Proof.
  intros [Hs Hd Hp]. split.
  - intros s Hk. apply Hs, elem_of_app. by left.
  - intros i j s t Hi Hj. apply Hd; by apply lookup_app_l_Some.
  - rewrite tsum_app in Hp. lia.
Qed.

Lemma acceptable_snoc image k s :
  acceptable image (k ++ [s]) ↔ acceptable image k ∧ segment_safe image s ∧
    (∀ t, t ∈ k → pages_disjoint t s) ∧ tsum pages k + pages s <= MAX_IMAGE_PAGES.
Proof.
  assert (Hsum : tsum pages (k ++ [s]) = tsum pages k + pages s).
  { rewrite tsum_app. f_equal. apply N.add_0_r. }
  split.
  - intros Hall. pose proof (acceptable_prefix _ _ _ Hall) as Hk. destruct Hall as [Hs Hd Hp].
    split_and!; [done|apply Hs, elem_of_app; right; by left| |by rewrite <-Hsum].
    intros t [i Hi]%list_elem_of_lookup_1. apply (Hd i (length k)); [by apply lookup_app_l_Some|..].
    + by apply list_lookup_middle.
    + by eapply lookup_lt_Some.
  - intros ([Hs Hd Hp] & Hsafe & Hdis & Hpages). split; [|..|by rewrite Hsum].
    + by intros t [Ht| ->%list_elem_of_singleton]%elem_of_app; [apply Hs|].
    + intros i j t u Hi Hj Hij. apply lookup_lt_Some in Hj as Hlt. rewrite length_app in Hlt.
      cbn in Hlt. rewrite lookup_app_l in Hi by lia.
      destruct (decide (j = length k)) as [->|Hne].
      * rewrite list_lookup_middle in Hj by done. simplify_eq. apply Hdis. by eapply list_elem_of_lookup_2.
      * rewrite lookup_app_l in Hj by lia. by apply (Hd i j).
Qed.

(** ** One segment *)

(** Splits on every test of a straight-line check. *)
Ltac check_cases :=
  repeat (match goal with
    | |- context [bool_decide ?P] => destruct (bool_decide_reflect P)
    | |- context [decide ?P] => destruct (decide P)
    | |- context [negb ?b] => destruct b eqn:?
    | |- context [?b && _] => destruct b eqn:?
    | |- context [if ?b then Err _ else _] => destruct b eqn:?
    end; cbn [mbind Check_bind or_reject must negb andb orb]).

Lemma pages_bound s : sg_mem_len s <= pages s * PAGE_SIZE < sg_mem_len s + PAGE_SIZE.
Proof.
  unfold pages, div_ceil. change PAGE_SIZE with 4096. set (x := sg_mem_len s + 4096 - 1).
  pose proof (N.div_mod x 4096 ltac:(done)). pose proof (N.mod_lt x 4096 ltac:(done)).
  assert (x + 1 = sg_mem_len s + 4096) by lia. clearbody x.
  generalize dependent (x / 4096). generalize dependent (x mod 4096). intros. lia.
Qed.

Lemma page_end_user image s : segment_safe image s → page_end s <= USER_MAX_ADDR.
Proof.
  intros Hs. unfold page_end. pose proof (pages_bound s). pose proof (safe_high _ _ Hs).
  pose proof (N.div_mod (sg_vaddr s) PAGE_SIZE ltac:(done)) as Hd. rewrite (safe_aligned _ _ Hs) in Hd.
  change USER_MAX_ADDR with (34359738368 * 4096) in *. change PAGE_SIZE with 4096 in *. lia.
Qed.

(** The segment a header asks for, and whether its checks pass. *)
Definition requested (p_flags p_offset p_vaddr p_filesz p_memsz : N) : Segment :=
  mkSegment p_vaddr p_offset p_filesz p_memsz
    (negb (bool_decide (N.land p_flags PF_R = 0))) (negb (bool_decide (N.land p_flags PF_W = 0)))
    (negb (bool_decide (N.land p_flags PF_X = 0))).

Lemma check_segment_spec image p_flags p_offset p_vaddr p_filesz p_memsz :
  tlen image < 2 ^ 63 → p_memsz ≠ 0 →
  let s := requested p_flags p_offset p_vaddr p_filesz p_memsz in
  match check_segment image p_flags p_offset p_vaddr p_filesz p_memsz with
  | Ok s' => s' = s ∧ segment_safe image s
  | Err _ => ¬ segment_safe image s
  | Panics => False
  end.
Proof.
  intros Hlen Hmem s. unfold check_segment, reject_if, checked_add. cbv zeta.
  change (negb (bool_decide (N.land p_flags PF_R = 0))) with (sg_read s).
  change (negb (bool_decide (N.land p_flags PF_W = 0))) with (sg_write s).
  change (negb (bool_decide (N.land p_flags PF_X = 0))) with (sg_execute s).
  change USER_MAX_ADDR with 140737488355328.
  check_cases; try (intros [? ? ? ? ? Hhigh]; change USER_MAX_ADDR with 140737488355328 in Hhigh;
    cbn in *; (lia || congruence)).
  1: { intros [_ _ _ _ _ _ _ Hwx]. by rewrite Heqb0, Heqb1 in Hwx. }
  all: subst s; unfold requested in *; cbn in *; (split; [congruence|]).
  all: split; cbn; change USER_MAX_ADDR with 140737488355328;
    (lia || done || (apply andb_false_iff; auto)).
Qed.

Lemma check_overlap_spec start stop k :
  (∀ t, t ∈ k → page_end t < 2 ^ 64) →
  match check_overlap start stop k with
  | Ok _ => ∀ t, t ∈ k → stop <= sg_vaddr t ∨ page_end t <= start
  | Err _ => ¬ ∀ t, t ∈ k → stop <= sg_vaddr t ∨ page_end t <= start
  | Panics => False
  end.
Proof.
  induction k as [|t k IH]; intros Hk; cbn [check_overlap].
  { by intros t ?%not_elem_of_nil. }
  pose proof (Hk t ltac:(by left)) as Ht. unfold page_end in Ht.
  unfold checked_mul, checked_add, reject_if.
  rewrite decide_True by lia. cbn [mbind Check_bind must]. rewrite decide_True by done.
  cbn [mbind Check_bind must]. specialize (IH (λ u Hu, Hk u ltac:(by right))).
  destruct (bool_decide _ && bool_decide _) eqn:Hov; cbn [mbind Check_bind].
  - apply andb_true_iff in Hov as [H1%bool_decide_eq_true H2%bool_decide_eq_true].
    intros Hall. specialize (Hall t ltac:(by left)). unfold page_end in Hall. lia.
  - assert (stop <= sg_vaddr t ∨ page_end t <= start) as Hhead.
    { apply andb_false_iff in Hov as [H%bool_decide_eq_false|H%bool_decide_eq_false];
        unfold page_end; lia. }
    destruct (check_overlap _ _ k); [|intros Hall; apply IH; intros u Hu; apply Hall; by right|done].
    intros u [->|Hu]%elem_of_cons; [done|by apply IH].
Qed.

(** ** The loop *)

Definition valid (st : Loading) : list Segment := take (N.to_nat (ld_count st)) (ld_segments st).

Record loading_ok (image : list byte) (st : Loading) : Prop := {
  lo_array : tlen (ld_segments st) = MAX_SEGMENTS;
  lo_count : ld_count st <= MAX_SEGMENTS;
  lo_pages : ld_pages st = tsum pages (valid st);
  lo_valid : acceptable image (valid st)
}.

Lemma valid_length image st : loading_ok image st → tlen (valid st) = ld_count st.
Proof.
  intros []. unfold valid, tlen in *. rewrite length_take. lia.
Qed.

Lemma add_segment_spec image s st :
  loading_ok image st → ld_count st < MAX_SEGMENTS → segment_safe image s →
  match add_segment s st with
  | Ok st' => loading_ok image st' ∧ valid st' = valid st ++ [s]
  | Err _ => ¬ acceptable image (valid st ++ [s])
  | Panics => False
  end.
Proof.
  intros Hst Hcount Hs. unfold add_segment, checked_mul, checked_add, reject_if.
  pose proof (page_end_user image s Hs) as Hend. unfold page_end in Hend.
  change USER_MAX_ADDR with 140737488355328 in Hend.
  change (2 ^ 64) with 18446744073709551616. rewrite (decide_True (P := pages s * PAGE_SIZE < _)) by lia. cbn [mbind Check_bind must].
  rewrite (decide_True (P := sg_vaddr s + _ < _)) by lia. cbn [mbind Check_bind must]. fold (valid st) (page_end s).
  pose proof (check_overlap_spec (sg_vaddr s) (page_end s) (valid st)) as Hov.
  assert (Hdis : (∀ t, t ∈ valid st → page_end s <= sg_vaddr t ∨ page_end t <= sg_vaddr s) ↔
    ∀ t, t ∈ valid st → pages_disjoint t s).
  { unfold pages_disjoint. split; intros H t Ht; specialize (H t Ht); tauto. }
  specialize (Hov ltac:(intros t Ht%(acc_safe _ _ (lo_valid _ _ Hst)); apply page_end_user in Ht;
      by eapply N.le_lt_trans)).
  destruct (check_overlap _ _ _); cbn [mbind Check_bind]; [|rewrite acceptable_snoc; tauto|done].
  pose proof (proj1 Hdis Hov) as Hov'. clear Hdis Hov.
  destruct Hst as [Harr Hcnt Hpg Hval]. rewrite Hpg. pose proof (acc_pages _ _ Hval) as Hacc.
  change MAX_IMAGE_PAGES with 4096 in *. pose proof (pages_bound s). pose proof (safe_high _ _ Hs).
  change PAGE_SIZE with 4096 in *. change USER_MAX_ADDR with 140737488355328 in *.
  rewrite (decide_True (P := _ + _ < _)) by lia. cbn [mbind Check_bind or_reject].
  case_bool_decide as Hmax; cbn [mbind Check_bind].
  { rewrite acceptable_snoc. change MAX_IMAGE_PAGES with 4096. lia. }
  rewrite decide_True by by rewrite Harr.
  assert (Hv : valid (mkLoading (<[ld_count st := s]> (ld_segments st)) (ld_count st + 1)
    (tsum pages (valid st) + pages s)) = valid st ++ [s]).
  { unfold valid. cbn [ld_count ld_segments]. unfold tlen in *.
    change (<[ld_count st := s]> (ld_segments st))
      with (<[N.to_nat (ld_count st) := s]> (ld_segments st)).
    replace (N.to_nat (ld_count st + 1)) with (S (N.to_nat (ld_count st))) by lia.
    rewrite (take_S_r _ _ s) by (apply list_lookup_insert_eq; change MAX_SEGMENTS with 8 in *; lia).
    by rewrite take_insert_ge by lia. }
  split; [|done]. split; cbn [ld_segments ld_count ld_pages].
  - by rewrite tlen_insert.
  - lia.
  - rewrite Hv, tsum_app. f_equal. symmetry. apply N.add_0_r.
  - rewrite Hv, acceptable_snoc. change MAX_IMAGE_PAGES with 4096. split_and!; try done. lia.
Qed.

(** The segment a header names, without any check: what the image asks for. *)
Definition field (f : list byte → N → option N) (image : list byte) (offset : N) : N :=
  default 0 (f image offset).
Definition is_load (image : list byte) (phoff index : N) : bool :=
  bool_decide (field read_u32 image (phoff + index * PROGRAM_HEADER_LEN) = PT_LOAD).
Definition header_segment (image : list byte) (phoff index : N) : option Segment :=
  let base := phoff + index * PROGRAM_HEADER_LEN in
  if is_load image phoff index && negb (bool_decide (field read_u64 image (base + 40) = 0)) then
    Some (requested (field read_u32 image (base + 4)) (field read_u64 image (base + 8))
      (field read_u64 image (base + 16)) (field read_u64 image (base + 32))
      (field read_u64 image (base + 40)))
  else None.
Definition requested_by (image : list byte) (phoff : N) (l : list N) : list Segment :=
  omap (header_segment image phoff) l.
Definition loads (image : list byte) (phoff : N) (l : list N) : N :=
  tlen (filter (is_load image phoff) l).

(** Reads inside the image. *)
Lemma slice_in bytes offset n :
  offset + n <= tlen bytes → slice bytes offset n = Some (take (N.to_nat n) (drop (N.to_nat offset) bytes)).
Proof. intros. unfold slice. by rewrite decide_True. Qed.

Lemma read_u16_in image offset :
  offset + 2 <= tlen image → read_u16 image offset = Some (field read_u16 image offset).
Proof. intros. unfold field, read_u16. by rewrite slice_in. Qed.
Lemma read_u32_in image offset :
  offset + 4 <= tlen image → read_u32 image offset = Some (field read_u32 image offset).
Proof. intros. unfold field, read_u32. by rewrite slice_in. Qed.
Lemma read_u64_in image offset :
  offset + 8 <= tlen image → read_u64 image offset = Some (field read_u64 image offset).
Proof. intros. unfold field, read_u64. by rewrite slice_in. Qed.

Lemma load_header_spec image phoff st i :
  tlen image < 2 ^ 63 → phoff + (i + 1) * PROGRAM_HEADER_LEN <= tlen image → loading_ok image st →
  match load_header image phoff st i with
  | Ok st' => loading_ok image st' ∧
      valid st' = valid st ++ option_list (header_segment image phoff i)
  | Err _ => acceptable image (valid st ++ option_list (header_segment image phoff i)) →
      ld_count st = MAX_SEGMENTS ∧ is_load image phoff i = true
  | Panics => False
  end.
Proof.
  intros Hlen Hi Hst. unfold load_header, header_segment, checked_add.
  set (base := phoff + i * PROGRAM_HEADER_LEN).
  assert (Hbase : base + 56 <= tlen image). { unfold base, PROGRAM_HEADER_LEN in *. lia. }
  rewrite (decide_True (P := base < _)) by (change (2 ^ 64) with (2 * 2 ^ 63); lia).
  cbn [mbind Check_bind must]. rewrite !read_u32_in, !read_u64_in by lia.
  cbn [mbind Check_bind or_reject]. unfold is_load. fold base.
  set (p_type := field read_u32 image base).
  destruct (decide (p_type = PT_LOAD)) as [Htype|Htype].
  2:{ rewrite (decide_True (P := p_type ≠ PT_LOAD)), bool_decide_false by done. by rewrite app_nil_r. }
  rewrite (decide_False (P := p_type ≠ PT_LOAD)) by (by intros []).
  rewrite (bool_decide_true (p_type = PT_LOAD)) by done. cbn [andb].
  unfold reject_if. case_bool_decide as Hfull; cbn [mbind Check_bind]; [by intros|].
  case_decide as Hmem; [by rewrite bool_decide_true, app_nil_r|].
  rewrite bool_decide_false by done. cbn [negb option_list option_rect].
  set (s := requested _ _ _ _ _).
  pose proof (check_segment_spec image (field read_u32 image (base + 4))
    (field read_u64 image (base + 8)) (field read_u64 image (base + 16))
    (field read_u64 image (base + 32)) (field read_u64 image (base + 40)) Hlen Hmem) as Hseg.
  cbv zeta in Hseg. fold s in Hseg.
  destruct (check_segment _ _ _ _ _ _) as [s'| |]; cbn [mbind Check_bind]; 
    [|by intros (_ & ? & _)%acceptable_snoc|done].
  destruct Hseg as [-> Hsafe]. pose proof (lo_count _ _ Hst).
  pose proof (add_segment_spec image s st Hst ltac:(lia) Hsafe) as Hadd.
  destruct (add_segment _ _); [done|by intros|done].
Qed.

Lemma load_headers_spec image phoff l : ∀ st,
  tlen image < 2 ^ 63 → (∀ i, i ∈ l → phoff + (i + 1) * PROGRAM_HEADER_LEN <= tlen image) →
  loading_ok image st →
  match load_headers image phoff l st with
  | Ok st' => loading_ok image st' ∧ valid st' = valid st ++ requested_by image phoff l
  | Err _ => acceptable image (valid st ++ requested_by image phoff l) →
      MAX_SEGMENTS < ld_count st + loads image phoff l
  | Panics => False
  end.
Proof.
  induction l as [|i l IH]; intros st Hlen Hl Hst; cbn [load_headers].
  { by rewrite app_nil_r. }
  assert (Hreq : requested_by image phoff (i :: l) =
    option_list (header_segment image phoff i) ++ requested_by image phoff l).
  { unfold requested_by. cbn. by destruct (header_segment _ _ _). }
  assert (Hloads : loads image phoff (i :: l) =
    (if is_load image phoff i then 1 else 0) + loads image phoff l).
  { unfold loads, tlen. rewrite filter_cons. destruct (is_load _ _ i);
      case_decide; try done; cbn [length]; lia. }
  rewrite Hreq, Hloads, app_assoc.
  pose proof (load_header_spec image phoff st i Hlen (Hl i ltac:(by left)) Hst) as Hone.
  destruct (load_header _ _ _ _) as [st1| |]; cbn [mbind Check_bind]; [|..|done].
  - destruct Hone as [Hst1 Hv]. rewrite <-Hv.
    specialize (IH st1 Hlen (λ j Hj, Hl j ltac:(by right)) Hst1).
    destruct (load_headers _ _ _ _); [done| |done]. intros Hacc. specialize (IH Hacc).
    rewrite <-(valid_length _ _ Hst1), Hv in IH. rewrite <-(valid_length _ _ Hst).
    assert (tlen (option_list (header_segment image phoff i)) <=
      if is_load image phoff i then 1 else 0).
    { unfold header_segment. destruct (is_load _ _ i); [by destruct (negb _)|done]. }
    unfold tlen in *. rewrite length_app in IH. lia.
  - intros [-> ->]%acceptable_prefix%Hone. lia.
Qed.

(** ** The whole image *)

Definition phoff (image : list byte) : N := field read_u64 image 32.
Definition header_indices (image : list byte) : list N :=
  N.of_nat <$> seq 0 (N.to_nat (field read_u16 image 56)).
(** Every loadable segment the image names, in the order of its headers. *)
Definition requested_segments (image : list byte) : list Segment :=
  requested_by image (phoff image) (header_indices image).

Record header_ok (image : list byte) : Prop := {
  hd_large : tlen image <= MAX_IMAGE_BYTES;
  hd_short : HEADER_LEN <= tlen image;
  hd_ident : ident_ok image = true;
  hd_type : field read_u16 image 16 = ET_EXEC;
  hd_machine : field read_u16 image 18 = EM_X86_64;
  hd_entsize : field read_u16 image 54 = PROGRAM_HEADER_LEN;
  hd_some : field read_u16 image 56 ≠ 0;
  hd_many : field read_u16 image 56 <= 64;
  hd_table : phoff image + field read_u16 image 56 * PROGRAM_HEADER_LEN <= tlen image
}.

Lemma loading_ok_empty image :
  loading_ok image (mkLoading (replicate (N.to_nat MAX_SEGMENTS) (mkSegment 0 0 0 0 false false false)) 0 0).
Proof.
  split; try done. change (valid _) with (@nil Segment). split; [|by intros i j s t|done].
  by intros s ?%not_elem_of_nil.
Qed.

Lemma check_header_spec image :
  match check_header image with
  | Ok h => header_ok image ∧ h = (field read_u64 image 24, phoff image, field read_u16 image 56)
  | Err _ => ¬ header_ok image
  | Panics => False
  end.
Proof.
  unfold check_header, reject_if.
  destruct (bool_decide_reflect (MAX_IMAGE_BYTES < tlen image)) as [?|Hlarge];
    cbn [mbind Check_bind]; [intros []; lia|].
  destruct (bool_decide_reflect (tlen image < HEADER_LEN)) as [?|Hshort];
    cbn [mbind Check_bind]; [intros []; lia|].
  destruct (ident_ok image) eqn:Hident; cbn [mbind Check_bind negb]; [|intros []; congruence].
  change HEADER_LEN with 64 in *. change MAX_IMAGE_BYTES with 16777216 in *.
  rewrite !read_u16_in, !read_u64_in by lia. cbn [mbind Check_bind or_reject].
  fold (phoff image).
  destruct (bool_decide_reflect (field read_u16 image 16 = ET_EXEC)) as [Htype|?];
    cbn [mbind Check_bind negb]; [|intros []; congruence].
  destruct (bool_decide_reflect (field read_u16 image 18 = EM_X86_64)) as [Hmach|?];
    cbn [mbind Check_bind negb]; [|intros []; congruence].
  set (n := field read_u16 image 56).
  destruct (negb (bool_decide (_ = PROGRAM_HEADER_LEN)) || _ || _) eqn:Hph; cbn [mbind Check_bind].
  { intros []. rewrite bool_decide_true in Hph by done. rewrite bool_decide_false in Hph by done.
    rewrite bool_decide_false in Hph by (fold n in hd_many0; lia). done. }
  apply orb_false_iff in Hph as [[Hent%negb_false_iff%bool_decide_eq_true Hn0%bool_decide_eq_false]%orb_false_iff Hn64%bool_decide_eq_false].
  unfold checked_mul, checked_add. change PROGRAM_HEADER_LEN with 56 in *.
  rewrite (decide_True (P := n * 56 < _)) by (change (2 ^ 64) with 18446744073709551616; lia).
  cbn [mbind Check_bind or_reject].
  destruct (decide (phoff image + n * 56 < 2 ^ 64)) as [Htab|Htab]; cbn [mbind Check_bind or_reject].
  2:{ intros []. change PROGRAM_HEADER_LEN with 56 in *. fold n in hd_table0.
      change (2 ^ 64) with 18446744073709551616 in *. lia. }
  destruct (bool_decide_reflect (tlen image < phoff image + n * 56)) as [Hend|Hend];
    cbn [mbind Check_bind].
  { intros []. change PROGRAM_HEADER_LEN with 56 in *. fold n in hd_table0. lia. }
  split; [|done]. split; change PROGRAM_HEADER_LEN with 56; try done; [..|lia].
  all: change HEADER_LEN with 64; change MAX_IMAGE_BYTES with 16777216; fold n; lia.
Qed.

Lemma parse_spec image :
  match parse_user_image image with
  | Ok img =>
      let k := take (N.to_nat (im_segment_count img)) (im_segments img) in
      header_ok image ∧ k = requested_segments image ∧ acceptable image k ∧
      tlen k = im_segment_count img ∧ 0 < im_segment_count img <= MAX_SEGMENTS ∧
      im_pages img = tsum pages k ∧
      im_entry img = field read_u64 image 24 ∧ entry_ok (im_entry img) k = true
  | Err _ => header_ok image → acceptable image (requested_segments image) →
      requested_segments image ≠ [] →
      entry_ok (field read_u64 image 24) (requested_segments image) = true →
      MAX_SEGMENTS < loads image (phoff image) (header_indices image)
  | Panics => False
  end.
Proof.
  unfold parse_user_image, reject_if. pose proof (check_header_spec image) as Hhead.
  destruct (check_header image) as [h| |]; cbn [mbind Check_bind]; [|by intros|done].
  destruct Hhead as [Hhd ->]. pose proof (hd_large _ Hhd) as Hlarge.
  pose proof (hd_many _ Hhd) as Hmany. pose proof (hd_table _ Hhd) as Htable.
  change MAX_IMAGE_BYTES with 16777216 in *.
  set (n := field read_u16 image 56) in *.
  pose proof (load_headers_spec image (phoff image) (header_indices image) _
    ltac:(change (2 ^ 63) with 9223372036854775808; lia)
    ltac:(intros i (m & -> & Hm%elem_of_seq)%list_elem_of_fmap; fold n in Hm;
          change PROGRAM_HEADER_LEN with 56 in *; lia) (loading_ok_empty image)) as Hload.
  unfold header_indices in Hload at 1. fold n in Hload.
  destruct (load_headers _ _ _ _) as [st| |]; cbn [mbind Check_bind]; [|intros _ Hacc _ _; exact (Hload Hacc)|done].
  change (valid (mkLoading _ 0 0)) with (@nil Segment) in Hload. rewrite app_nil_l in Hload.
  fold (requested_segments image) (valid st) in *. destruct Hload as [Hst Hv].
  pose proof (valid_length _ _ Hst) as Hlen.
  destruct (bool_decide_reflect (ld_count st = 0)) as [Hzero|Hzero]; cbn [mbind Check_bind].
  { intros _ _ []. rewrite <-Hv. destruct (valid st); [done|]. unfold tlen in Hlen. cbn in Hlen. lia. }
  destruct (entry_ok _ (valid st)) eqn:Hentry; cbn [mbind Check_bind negb].
  2:{ intros _ _ _. rewrite <-Hv. congruence. }
  cbn [im_segments im_segment_count im_pages im_entry]. fold (valid st).
  destruct Hst as [_ Hc Hp Hacc]. split_and!; try done. lia.
Qed.

(** C26. The reader never panics, and an image it accepts is safe to map: at most
    [MAX_SEGMENTS] segments, each page aligned, inside the user range, its bytes
    inside the image, readable and never writable and executable at once; no
    page belongs to two of them; together they take at most [MAX_IMAGE_PAGES]
    pages; and the entry point lies in an executable, read-only segment. The
    segments are exactly the non-empty loadable ones the image names. *)
Theorem accepted_image_is_safe image :
  match parse_user_image image with
  | Ok img =>
      let k := take (N.to_nat (im_segment_count img)) (im_segments img) in
      k = requested_segments image ∧
      tlen k = im_segment_count img ∧ 0 < im_segment_count img <= MAX_SEGMENTS ∧
      (∀ s, s ∈ k → segment_safe image s) ∧ disjoint_all k ∧
      im_pages img = tsum pages k ∧ im_pages img <= MAX_IMAGE_PAGES ∧
      ∃ s, s ∈ k ∧ sg_execute s = true ∧ sg_write s = false ∧
        sg_vaddr s <= im_entry img < sg_vaddr s + sg_mem_len s
  | Err _ => True
  | Panics => False
  end.
Proof.
  pose proof (parse_spec image) as H. destruct (parse_user_image image) as [img| |]; [|done..].
  cbv zeta in H |- *. destruct H as (_ & Hk & [Hs Hd Hp] & Hlen & Hc & Hpg & _ & Hentry).
  rewrite Hpg. split_and!; try done; [lia..|].
  apply existsb_exists in Hentry as (s & Hin%list_elem_of_In & Hx).
  apply andb_true_iff in Hx as [[He Hlo%bool_decide_eq_true]%andb_true_iff Hhi%bool_decide_eq_true].
  exists s. pose proof (safe_wx _ _ (Hs s Hin)) as Hwx. rewrite He, andb_true_r in Hwx.
  by split_and!.
Qed.

(** C27. The reader refuses nothing it promises to load: an image with a valid
    header, at most [MAX_SEGMENTS] loadable headers, at least one of them not
    empty, whose segments are all safe, share no page and fit the page bound,
    and whose entry point is executable, is accepted with exactly those
    segments. *)
Theorem valid_image_is_accepted image :
  header_ok image → acceptable image (requested_segments image) →
  requested_segments image ≠ [] →
  entry_ok (field read_u64 image 24) (requested_segments image) = true →
  loads image (phoff image) (header_indices image) <= MAX_SEGMENTS →
  ∃ img, parse_user_image image = Ok img ∧ im_entry img = field read_u64 image 24 ∧
    take (N.to_nat (im_segment_count img)) (im_segments img) = requested_segments image.
Proof.
  intros Hhd Hacc Hsome Hentry Hloads. pose proof (parse_spec image) as H.
  destruct (parse_user_image image) as [img| |].
  - exists img. by destruct H as (_ & Hk & _ & _ & _ & _ & He & _).
  - specialize (H Hhd Hacc Hsome Hentry). lia.
  - done.
Qed.

(** An executable image of one page whose program header follows the ELF one. *)
Definition le (n : nat) (v : N) : list byte :=
  (λ i, default x00 (Byte.of_N ((v / 2 ^ (8 * N.of_nat i)) mod 256))) <$> seq 0 n.
Definition sample_image : list byte :=
  [x7f; x45; x4c; x46; x02; x01; x01] ++ replicate 9 x00 ++
  le 2 ET_EXEC ++ le 2 EM_X86_64 ++ le 4 1 ++ le 8 4198400 ++ le 8 64 ++ le 8 0 ++ le 4 0 ++
  le 2 64 ++ le 2 56 ++ le 2 1 ++ replicate 6 x00 ++
  le 4 PT_LOAD ++ le 4 5 ++ le 8 0 ++ le 8 4198400 ++ le 8 0 ++ le 8 120 ++ le 8 4096 ++ le 8 4096.

Lemma valid_image_is_accepted_witness :
  requested_segments sample_image = [mkSegment 4198400 0 120 4096 true false true] ∧
  ∃ img, parse_user_image sample_image = Ok img ∧ im_entry img = 4198400 ∧
    take (N.to_nat (im_segment_count img)) (im_segments img) =
      [mkSegment 4198400 0 120 4096 true false true].
Proof.
  assert (Hreq : requested_segments sample_image = [mkSegment 4198400 0 120 4096 true false true])
    by by vm_compute.
  split; [exact Hreq|]. rewrite <-Hreq. apply (valid_image_is_accepted sample_image).
  - by split; vm_compute.
  - rewrite Hreq. split; [|intros [|i] [|j] s t Hi Hj; by (lia || simplify_eq/=)|by vm_compute].
    intros s ->%list_elem_of_singleton. by split; vm_compute.
  - by rewrite Hreq.
  - rewrite Hreq. by vm_compute.
  - by vm_compute.
Defined.
