(* ===== verification/Objects.v ===== *)
(** * The objects of the tables

    Signals and timers ([kernel/src/events.rs]), endpoints, messages and
    admitted work ([kernel/src/ipc.rs]), memory objects and their mappings
    ([kernel/src/memobj.rs]), domains ([kernel/src/state.rs]): their records,
    their lifecycles, their free slots. Devices
    ([kernel/src/device.rs]) have their records only. *)

From S2P Require Import Prelude Abi Obj Scope Frame.

#[local] Open Scope N_scope.

(** kernel/src/limits.rs:65-65 [MAX_DEVICES] *)
Definition MAX_DEVICES : N := 4.
(** kernel/src/limits.rs:28-28 [MAX_THREADS] *)
Definition MAX_THREADS : N := 8 + 40.
(** kernel/src/limits.rs:30-30 [MAX_THREADS_PER_DOMAIN] *)
Definition MAX_THREADS_PER_DOMAIN : N := 4.
(** kernel/src/limits.rs:38-38 [MAX_MEMORY_OBJECTS] *)
Definition MAX_MEMORY_OBJECTS : N := 72.
(** kernel/src/limits.rs:40-40 [MAX_OBJECT_PAGES] *)
Definition MAX_OBJECT_PAGES : N := limit.MAX_MEMORY_PAGES_PER_OBJECT.
(** kernel/src/limits.rs:42-42 [MAX_MAPS] *)
Definition MAX_MAPS : N := 224.
(** kernel/src/limits.rs:44-44 [MAX_ENDPOINTS] *)
Definition MAX_ENDPOINTS : N := 20.
(** kernel/src/limits.rs:46-46 [MAX_MESSAGES] *)
Definition MAX_MESSAGES : N := 48.
(** kernel/src/limits.rs:48-48 [MAX_INVOCATIONS] *)
Definition MAX_INVOCATIONS : N := 48.
(** kernel/src/limits.rs:50-50 [MAX_SIGNALS] *)
Definition MAX_SIGNALS : N := 20.
(** kernel/src/limits.rs:52-52 [MAX_TIMERS] *)
Definition MAX_TIMERS : N := 12.
(** kernel/src/limits.rs:54-54 [MAX_CONTROL_LOGS] *)
Definition MAX_CONTROL_LOGS : N := 2.

(** ** Signals and timers *)

(** kernel/src/events.rs:19-37 [Signal] *)
Record Signal := mkSignal {
  sig_used : bool;
  sig_generation : N;
  sig_id : N;
  sig_owner_scope : ScopeId;
  sig_bits : N;
  sig_sequence : N;
  sig_waiters : N;
  sig_refs : N
}.
#[global] Instance Signal_rebuild : Rebuild Signal := λ x, mkSignal
  (sig_used x) (sig_generation x) (sig_id x) (sig_owner_scope x) (sig_bits x)
  (sig_sequence x) (sig_waiters x) (sig_refs x).

Module Signal.
(** kernel/src/events.rs:42-53 [Signal::empty] *)
Definition empty : Signal := {|
  sig_used := false;
  sig_generation := 0;
  sig_id := 0;
  sig_owner_scope := 0;
  sig_bits := 0;
  sig_sequence := 0;
  sig_waiters := 0;
  sig_refs := 0
|}.
End Signal.

(** kernel/src/events.rs:58-82 [Timer] *)
Record Timer := mkTimer {
  tm_used : bool;
  tm_generation : N;
  tm_id : N;
  tm_owner_scope : ScopeId;
  tm_signal : N;
  tm_signal_generation : N;
  tm_bits : N;
  tm_deadline_ns : N;
  tm_armed : bool;
  tm_fired : N;
  tm_refs : N
}.
#[global] Instance Timer_rebuild : Rebuild Timer := λ x, mkTimer
  (tm_used x) (tm_generation x) (tm_id x) (tm_owner_scope x) (tm_signal x)
  (tm_signal_generation x) (tm_bits x) (tm_deadline_ns x) (tm_armed x) (tm_fired x)
  (tm_refs x).

Module Timer.
(** kernel/src/events.rs:87-101 [Timer::empty] *)
Definition empty : Timer := {|
  tm_used := false;
  tm_generation := 0;
  tm_id := 0;
  tm_owner_scope := 0;
  tm_signal := 0;
  tm_signal_generation := 0;
  tm_bits := 0;
  tm_deadline_ns := 0;
  tm_armed := false;
  tm_fired := 0;
  tm_refs := 0
|}.
End Timer.

(** ** Endpoints and messages *)

(** kernel/src/ipc.rs:28-28 [NO_MESSAGE] *)
Definition NO_MESSAGE : N := U16_MAX.

(** kernel/src/ipc.rs:31-78 [Endpoint] *)
Record Endpoint := mkEndpoint {
  ep_open : bool;
  ep_id : N;
  ep_epoch : N;
  ep_owner_scope : ScopeId;
  ep_receiver_domain : N;
  ep_receiver_generation : N;
  ep_capacity : N;
  ep_reserved_cells : N;
  ep_reserved_used : N;
  ep_queued : N;
  ep_head : N;
  ep_tail : N;
  ep_facets : N;
  ep_next_facet : N;
  ep_admitted : N;
  ep_delivered : N;
  ep_label : list N;
  ep_receivers : N
}.
#[global] Instance Endpoint_rebuild : Rebuild Endpoint := λ x, mkEndpoint
  (ep_open x) (ep_id x) (ep_epoch x) (ep_owner_scope x) (ep_receiver_domain x)
  (ep_receiver_generation x) (ep_capacity x) (ep_reserved_cells x) (ep_reserved_used x)
  (ep_queued x) (ep_head x) (ep_tail x) (ep_facets x) (ep_next_facet x) (ep_admitted x)
  (ep_delivered x) (ep_label x) (ep_receivers x).

Module Endpoint.
(** kernel/src/ipc.rs:83-104 [Endpoint::empty] *)
Definition empty : Endpoint := {|
  ep_open := false;
  ep_id := 0;
  ep_epoch := 0;
  ep_owner_scope := 0;
  ep_receiver_domain := U16_MAX;
  ep_receiver_generation := 0;
  ep_capacity := 0;
  ep_reserved_cells := 0;
  ep_reserved_used := 0;
  ep_queued := 0;
  ep_head := NO_MESSAGE;
  ep_tail := NO_MESSAGE;
  ep_facets := 0;
  ep_next_facet := 1;
  ep_admitted := 0;
  ep_delivered := 0;
  ep_label := replicate 16 0;
  ep_receivers := 0
|}.
End Endpoint.

(** kernel/src/ipc.rs:115-117 [Endpoint::ordinary_capacity] *)
Definition ordinary_capacity (e : Endpoint) : N :=
  saturating_sub (ep_capacity e) (ep_reserved_cells e).
(** kernel/src/ipc.rs:121-123 [Endpoint::has_ordinary_room] *)
Definition has_ordinary_room (e : Endpoint) : bool :=
  bool_decide (saturating_sub (ep_queued e) (ep_reserved_used e) < ordinary_capacity e).

(** kernel/src/ipc.rs:128-135 [DeliveredCap] *)
Record DeliveredCap := mkDeliveredCap {
  dc_slot : N;
  dc_handle : N;
  dc_grant : GrantId
}.
#[global] Instance DeliveredCap_rebuild : Rebuild DeliveredCap := λ x, mkDeliveredCap
  (dc_slot x) (dc_handle x) (dc_grant x).

Module DeliveredCap.
(** kernel/src/ipc.rs:138-144 [DeliveredCap::empty] *)
Definition empty : DeliveredCap := {|
  dc_slot := U16_MAX;
  dc_handle := 0;
  dc_grant := NO_GRANT
|}.
End DeliveredCap.

(** kernel/src/ipc.rs:149-174 [Message] *)
Record Message := mkMessage {
  msg_used : bool;
  msg_next : N;
  msg_endpoint : N;
  msg_endpoint_generation : N;
  msg_invocation : N;
  msg_reserved_cell : bool;
  msg_kind : N;
  msg_payload : list N;
  msg_payload_len : N;
  msg_caps : list DeliveredCap;
  msg_cap_count : N;
  msg_charged_bytes : N
}.
#[global] Instance Message_rebuild : Rebuild Message := λ x, mkMessage
  (msg_used x) (msg_next x) (msg_endpoint x) (msg_endpoint_generation x)
  (msg_invocation x) (msg_reserved_cell x) (msg_kind x) (msg_payload x) (msg_payload_len x) (msg_caps x)
  (msg_cap_count x) (msg_charged_bytes x).

Module Message.
(** kernel/src/ipc.rs:179-194 [Message::empty] *)
Definition empty : Message := {|
  msg_used := false;
  msg_next := NO_MESSAGE;
  msg_endpoint := 0;
  msg_endpoint_generation := 0;
  msg_invocation := 0;
  msg_reserved_cell := false;
  msg_kind := 0;
  msg_payload := replicate (N.to_nat limit.MAX_INLINE_PAYLOAD) 0;
  msg_payload_len := 0;
  msg_caps := replicate (N.to_nat limit.MAX_CAPS_PER_MESSAGE) DeliveredCap.empty;
  msg_cap_count := 0;
  msg_charged_bytes := 0
|}.
End Message.

(** ** Admitted work *)

Module ipc.
(** kernel/src/ipc.rs:201-210 [State] *)
Inductive State := Empty | Admitted_ | Delivered | Resolved.
(** kernel/src/ipc.rs:215-222 [State::abi] *)
Definition state_abi (s : State) : N :=
  match s with
  | Empty => 0
  | Admitted_ => invocation_state.ADMITTED
  | Delivered => invocation_state.DELIVERED
  | Resolved => invocation_state.RESOLVED
  end.
#[global] Instance State_eq_dec : EqDecision State.
Proof. solve_decision. Defined.
End ipc.

Module Effect.
(** kernel/src/ipc.rs:238-247 [Effect] *)
Inductive Effect := None | Admitted_ | Refused | Resolved.
(** kernel/src/ipc.rs:252-259 [Effect::abi] *)
Definition abi (e : Effect) : N :=
  match e with
  | None => effect_state.NONE
  | Admitted_ => effect_state.ADMITTED
  | Refused => effect_state.REFUSED
  | Resolved => effect_state.RESOLVED
  end.
#[global] Instance Effect_eq_dec : EqDecision Effect.
Proof. solve_decision. Defined.
End Effect.

Module Cancel.
(** kernel/src/ipc.rs:275-282 [Cancel] *)
Inductive Cancel := Live | OriginFenced | OriginDead.
(** kernel/src/ipc.rs:287-293 [Cancel::abi] *)
Definition abi (c : Cancel) : N :=
  match c with
  | Live => cancel_state.LIVE
  | OriginFenced => cancel_state.ORIGIN_FENCED
  | OriginDead => cancel_state.ORIGIN_DEAD
  end.
#[global] Instance Cancel_eq_dec : EqDecision Cancel.
Proof. solve_decision. Defined.
End Cancel.

(** kernel/src/ipc.rs:314-378 [Invocation] *)
Record Invocation := mkInvocation {
  inv_state : ipc.State;
  inv_generation : N;
  inv_id : N;
  inv_endpoint : N;
  inv_endpoint_generation : N;
  inv_epoch : N;
  inv_origin_domain : N;
  inv_origin_domain_generation : N;
  inv_origin_domain_id : N;
  inv_origin_scope : ScopeId;
  inv_origin_scope_id : N;
  inv_waiter : option N;
  inv_parent_id : N;
  inv_grant : GrantId;
  inv_facet : N;
  inv_cancel : Cancel.Cancel;
  inv_effect : Effect.Effect;
  inv_closure_reserved_ns : N;
  inv_closure_service : ScopeId;
  inv_admitted_ns : N;
  inv_message : N;
  inv_receiver_domain : N;
  inv_charged_bytes : N;
  inv_refs : N;
  inv_replied : bool;
  inv_outcome : N;
  inv_reply_payload : list N;
  inv_reply_len : N;
  inv_reply_caps : list N;
  inv_reply_cap_count : N;
  inv_reply_result : N
}.
#[global] Instance Invocation_rebuild : Rebuild Invocation := λ x, mkInvocation
  (inv_state x) (inv_generation x) (inv_id x) (inv_endpoint x) (inv_endpoint_generation x)
  (inv_epoch x) (inv_origin_domain x) (inv_origin_domain_generation x)
  (inv_origin_domain_id x) (inv_origin_scope x) (inv_origin_scope_id x) (inv_waiter x)
  (inv_parent_id x) (inv_grant x) (inv_facet x) (inv_cancel x) (inv_effect x)
  (inv_closure_reserved_ns x) (inv_closure_service x) (inv_admitted_ns x) (inv_message x)
  (inv_receiver_domain x) (inv_charged_bytes x) (inv_refs x) (inv_replied x)
  (inv_outcome x) (inv_reply_payload x) (inv_reply_len x) (inv_reply_caps x) (inv_reply_cap_count x)
  (inv_reply_result x).

Module Invocation.
(** kernel/src/ipc.rs:383-417 [Invocation::empty] *)
Definition empty : Invocation := {|
  inv_state := ipc.Empty;
  inv_generation := 0;
  inv_id := 0;
  inv_endpoint := 0;
  inv_endpoint_generation := 0;
  inv_epoch := 0;
  inv_origin_domain := 0;
  inv_origin_domain_generation := 0;
  inv_origin_domain_id := 0;
  inv_origin_scope := 0;
  inv_origin_scope_id := 0;
  inv_waiter := None;
  inv_parent_id := 0;
  inv_grant := NO_GRANT;
  inv_facet := 0;
  inv_cancel := Cancel.Live;
  inv_effect := Effect.None;
  inv_closure_reserved_ns := 0;
  inv_closure_service := 0;
  inv_admitted_ns := 0;
  inv_message := NO_MESSAGE;
  inv_receiver_domain := U16_MAX;
  inv_charged_bytes := 0;
  inv_refs := 0;
  inv_replied := false;
  inv_outcome := 0;
  inv_reply_payload := replicate (N.to_nat limit.MAX_INLINE_PAYLOAD) 0;
  inv_reply_len := 0;
  inv_reply_caps := replicate (N.to_nat limit.MAX_CAPS_PER_MESSAGE) 0;
  inv_reply_cap_count := 0;
  inv_reply_result := 0
|}.
End Invocation.

(** ** Memory objects and mappings *)

Module memobj.
(** kernel/src/memobj.rs:30-39 [State] *)
Inductive State := Empty | Mutable | Sealing | Sealed.
(** kernel/src/memobj.rs:44-51 [State::abi] *)
Definition state_abi (s : State) : N :=
  match s with
  | Empty => 0
  | Mutable => memory_state.MUTABLE
  | Sealing => memory_state.SEALING
  | Sealed => memory_state.SEALED
  end.
#[global] Instance State_eq_dec : EqDecision State.
Proof. solve_decision. Defined.
End memobj.

(** kernel/src/memobj.rs:66-111 [MemoryObject] *)
Record MemoryObject := mkMemoryObject {
  mo_state : memobj.State;
  mo_generation : N;
  mo_id : N;
  mo_base : N;
  mo_pages : N;
  mo_max_rights : N;
  mo_sponsor : ScopeId;
  mo_map_count : N;
  mo_writable_maps : N;
  mo_dma_grants : N;
  mo_label : list N;
  mo_refs : N;
  mo_unmapped_at : N;
  mo_unmapped_cpus : N
}.
#[global] Instance MemoryObject_rebuild : Rebuild MemoryObject := λ x, mkMemoryObject
  (mo_state x) (mo_generation x) (mo_id x) (mo_base x) (mo_pages x) (mo_max_rights x)
  (mo_sponsor x) (mo_map_count x) (mo_writable_maps x) (mo_dma_grants x) (mo_label x)
  (mo_refs x) (mo_unmapped_at x) (mo_unmapped_cpus x).

Module MemoryObject.
(** kernel/src/memobj.rs:116-133 [MemoryObject::empty] *)
Definition empty : MemoryObject := {|
  mo_state := memobj.Empty;
  mo_generation := 0;
  mo_id := 0;
  mo_base := frame_containing 0;
  mo_pages := 0;
  mo_max_rights := 0;
  mo_sponsor := 0;
  mo_map_count := 0;
  mo_writable_maps := 0;
  mo_dma_grants := 0;
  mo_label := replicate 16 0;
  mo_refs := 0;
  mo_unmapped_at := 0;
  mo_unmapped_cpus := 0
|}.
End MemoryObject.

(** kernel/src/memobj.rs:144-146 [MemoryObject::len] *)
Definition memory_len (m : MemoryObject) : N := mo_pages m * PAGE_SIZE.

(** kernel/src/memobj.rs:170-195 [MapRecord] *)
Record MapRecord := mkMapRecord {
  map_used : bool;
  map_memory : N;
  map_memory_generation : N;
  map_domain : N;
  map_domain_generation : N;
  map_vaddr : N;
  map_offset_pages : N;
  map_pages : N;
  map_rights : N;
  map_grant : GrantId;
  map_scope : ScopeId
}.
#[global] Instance MapRecord_rebuild : Rebuild MapRecord := λ x, mkMapRecord
  (map_used x) (map_memory x) (map_memory_generation x) (map_domain x)
  (map_domain_generation x) (map_vaddr x) (map_offset_pages x) (map_pages x)
  (map_rights x) (map_grant x) (map_scope x).

Module MapRecord.
(** kernel/src/memobj.rs:200-214 [MapRecord::empty] *)
Definition empty : MapRecord := {|
  map_used := false;
  map_memory := 0;
  map_memory_generation := 0;
  map_domain := 0;
  map_domain_generation := 0;
  map_vaddr := 0;
  map_offset_pages := 0;
  map_pages := 0;
  map_rights := 0;
  map_grant := NO_GRANT;
  map_scope := 0
|}.
End MapRecord.

(** ** Domains *)

Module DomainState.
(** kernel/src/state.rs:89-102 [DomainState] *)
Inductive DomainState := Empty | Building | Runnable | Faulted | Stopping | Dead.
(** kernel/src/state.rs:120-130 [DomainState::abi] *)
Definition abi (s : DomainState) : N :=
  match s with
  | Empty => 0
  | Building => domain_state.BUILDING
  | Runnable => domain_state.RUNNABLE
  | Faulted => domain_state.FAULTED
  | Stopping => domain_state.STOPPING
  | Dead => domain_state.DEAD
  end.
#[global] Instance DomainState_eq_dec : EqDecision DomainState.
Proof. solve_decision. Defined.
End DomainState.

(** kernel/src/state.rs:135-142 [ExitReason] *)
Inductive ExitReason := UserFault | Voluntary | Terminated.

(** kernel/src/state.rs:158-171 [FaultRecord] *)
Record FaultRecord := mkFaultRecord {
  fr_vector : N;
  fr_error_code : N;
  fr_cr2 : N;
  fr_rip : N;
  fr_rsp : N;
  fr_cs : N
}.
#[global] Instance FaultRecord_rebuild : Rebuild FaultRecord := λ x, mkFaultRecord
  (fr_vector x) (fr_error_code x) (fr_cr2 x) (fr_rip x) (fr_rsp x) (fr_cs x).

(** The address space is not modelled. *)
(** kernel/src/state.rs:174-240 [Domain] *)
Record Domain := mkDomain {
  dom_state : DomainState.DomainState;
  dom_id : N;
  dom_generation : N;
  dom_name : list N;
  dom_name_len : N;
  dom_owner_scope : ScopeId;
  dom_threads : list (option N);
  dom_caps : CapTable;
  dom_fault_endpoint : option ObjRef;
  dom_fault_grant : GrantId;
  dom_fault_facet : N;
  dom_fault_reserved : bool;
  dom_entry : N;
  dom_segments : N;
  dom_image_pages : N;
  dom_stack_mapped : bool;
  dom_managed : bool;
  dom_reserved_pages : N;
  dom_reserved_metadata : N;
  dom_fault : option FaultRecord;
  dom_faults : N;
  dom_exit_reason : option ExitReason;
  dom_exit_code : N;
  dom_notes : N;
  dom_invocations : N;
  dom_refusals : N;
  dom_refusal_records : N;
  dom_refs : N
}.
#[global] Instance Domain_rebuild : Rebuild Domain := λ x, mkDomain
  (dom_state x) (dom_id x) (dom_generation x) (dom_name x) (dom_name_len x)
  (dom_owner_scope x) (dom_threads x) (dom_caps x) (dom_fault_endpoint x)
  (dom_fault_grant x) (dom_fault_facet x) (dom_fault_reserved x) (dom_entry x) (dom_segments x)
  (dom_image_pages x) (dom_stack_mapped x) (dom_managed x) (dom_reserved_pages x)
  (dom_reserved_metadata x) (dom_fault x) (dom_faults x) (dom_exit_reason x)
  (dom_exit_code x) (dom_notes x) (dom_invocations x) (dom_refusals x)
  (dom_refusal_records x) (dom_refs x).

Module Domain.
(** kernel/src/state.rs:245-277 [Domain::empty] *)
Definition empty : Domain := {|
  dom_state := DomainState.Empty;
  dom_id := 0;
  dom_generation := 0;
  dom_name := replicate 32 0;
  dom_name_len := 0;
  dom_owner_scope := 0;
  dom_threads := replicate (N.to_nat MAX_THREADS_PER_DOMAIN) None;
  dom_caps := CapTable.new;
  dom_fault_endpoint := None;
  dom_fault_grant := NO_GRANT;
  dom_fault_facet := 0;
  dom_fault_reserved := false;
  dom_entry := 0;
  dom_segments := 0;
  dom_image_pages := 0;
  dom_stack_mapped := false;
  dom_managed := false;
  dom_reserved_pages := 0;
  dom_reserved_metadata := 0;
  dom_fault := None;
  dom_faults := 0;
  dom_exit_reason := None;
  dom_exit_code := 0;
  dom_notes := 0;
  dom_invocations := 0;
  dom_refusals := 0;
  dom_refusal_records := 0;
  dom_refs := 0
|}.
End Domain.

(** kernel/src/state.rs:287-289 [Domain::first_thread] *)
Definition first_thread (d : Domain) : option N := head (omap id (dom_threads d)).
(** kernel/src/state.rs:293-295 [Domain::thread_count] *)
Definition thread_count (d : Domain) : N := tlen (omap id (dom_threads d)).

(** ** Endpoint slots *)

(** kernel/src/state.rs:56-63 [EndpointId] *)
Record EndpointId := mkEndpointId {
  ei_used : bool;
  ei_generation : N;
  ei_refs : N
}.
#[global] Instance EndpointId_rebuild : Rebuild EndpointId := λ x, mkEndpointId
  (ei_used x) (ei_generation x) (ei_refs x).

Module EndpointId.
(** kernel/src/state.rs:68-74 [EndpointId::empty] *)
Definition empty : EndpointId := {|
  ei_used := false;
  ei_generation := 0;
  ei_refs := 0
|}.
End EndpointId.

(** ** Devices *)

Module device.
(** kernel/src/device.rs:67-76 [State] *)
Inductive State := Empty | Ready | Running | Stopping.
End device.

(** kernel/src/device.rs:104-119 [Region] *)
Record Region := mkRegion {
  rg_kind : N;
  rg_bar : N;
  rg_phys : N;
  rg_offset : N;
  rg_length : N;
  rg_notify_off_multiplier : N;
  rg_maps : N
}.
#[global] Instance Region_rebuild : Rebuild Region := λ x, mkRegion
  (rg_kind x) (rg_bar x) (rg_phys x) (rg_offset x) (rg_length x)
  (rg_notify_off_multiplier x) (rg_maps x).

(** The MSI-X capability is not modelled. *)
(** kernel/src/device.rs:122-171 [Device] *)
Record Device := mkDevice {
  dev_used : bool;
  dev_generation : N;
  dev_id : N;
  dev_state : device.State;
  dev_session : N;
  dev_sponsor : ScopeId;
  dev_label : list N;
  dev_bdf : N;
  dev_vendor : N;
  dev_device_id : N;
  dev_class : N;
  dev_regions : list Region;
  dev_region_count : N;
  dev_msix_table : N;
  dev_common_config : N;
  dev_bus_master : bool;
  dev_access_platform : bool;
  dev_version_1 : bool;
  dev_dma_address_bits : N;
  dev_isolation_group : N;
  dev_group_members : N;
  dev_refs : N
}.
#[global] Instance Device_rebuild : Rebuild Device := λ x, mkDevice
  (dev_used x) (dev_generation x) (dev_id x) (dev_state x) (dev_session x) (dev_sponsor x)
  (dev_label x) (dev_bdf x) (dev_vendor x) (dev_device_id x) (dev_class x)
  (dev_regions x) (dev_region_count x) (dev_msix_table x) (dev_common_config x) (dev_bus_master x)
  (dev_access_platform x) (dev_version_1 x) (dev_dma_address_bits x)
  (dev_isolation_group x) (dev_group_members x) (dev_refs x).

Module Device.
(** kernel/src/device.rs:176-210 [Device::empty] *)
Definition empty : Device := {|
  dev_used := false;
  dev_generation := 0;
  dev_id := 0;
  dev_state := device.Empty;
  dev_session := 0;
  dev_sponsor := 0;
  dev_label := replicate 16 0;
  dev_bdf := 0;
  dev_vendor := 0;
  dev_device_id := 0;
  dev_class := 0;
  dev_regions := replicate 4 (mkRegion 0 0 0 0 0 0 0);
  dev_region_count := 0;
  dev_msix_table := 0;
  dev_common_config := 0;
  dev_bus_master := false;
  dev_access_platform := false;
  dev_version_1 := false;
  dev_dma_address_bits := 64;
  dev_isolation_group := 0;
  dev_group_members := 1;
  dev_refs := 0
|}.
End Device.
