(* ===== verification/Machine.v ===== *)
(** * The machine

    [kernel/src/state.rs] and the part of [kernel/src/api/mod.rs] every handler
    is built from: free-slot words, identities, the objects a capability keeps
    alive, the installation and release of capabilities, grant nodes and their
    collection, lineages, the resolution of a handle, receipts.

    The operations of one component run one at a time here: each Rust function
    is translated as one sequential step, its locks taken and dropped in order.
    Threads and page tables are beside the record ([Thread], [MemOps]); device
    interrupts and the configuration window are not modelled. *)

From S2P Require Import Prelude Abi Obj Scope Ctrl Frame Objects.

#[local] Open Scope N_scope.

(** The scope table of [kernel/src/scope.rs] is a static beside the machine; it
    is a component of the record here. *)
(** kernel/src/state.rs:299-419 [Grants, Machine] *)
Record Machine := mkMachine {
  m_memory : option FrameAllocator;
  m_domains : list Domain;
  m_grants : list Grant;
  m_grants_hint : N;
  m_memories : list MemoryObject;
  m_maps : list MapRecord;
  m_endpoints : list Endpoint;
  m_endpoint_ids : list EndpointId;
  m_messages : list Message;
  m_message_free : N;
  m_invocations : list Invocation;
  m_invocation_free : N;
  m_signals : list Signal;
  m_timers : list Timer;
  m_logs : list ControlLog;
  m_devices : list Device;
  m_next_object_id : N;
  m_boot_epoch : N;
  m_root_scope : option ScopeId;
  m_system_log : option N;
  m_pending_memory : list N;
  m_scopes : Scopes
}.
#[global] Instance Machine_rebuild : Rebuild Machine := λ m,
  mkMachine (m_memory m) (m_domains m) (m_grants m) (m_grants_hint m) (m_memories m) (m_maps m)
    (m_endpoints m) (m_endpoint_ids m) (m_messages m) (m_message_free m) (m_invocations m)
    (m_invocation_free m) (m_signals m) (m_timers m) (m_logs m) (m_devices m)
    (m_next_object_id m) (m_boot_epoch m) (m_root_scope m) (m_system_log m) (m_pending_memory m)
    (m_scopes m).

(** The fields of the record, over the scope table beside it. *)
(** kernel/src/state.rs:422-468 [Machine::new] *)
Definition new (t : Scopes) : Machine := {|
  m_memory := None;
  m_domains := replicate (N.to_nat MAX_DOMAINS) Domain.empty;
  m_grants := replicate (N.to_nat MAX_GRANTS) Grant.empty;
  m_grants_hint := 0;
  m_memories := replicate (N.to_nat MAX_MEMORY_OBJECTS) MemoryObject.empty;
  m_maps := replicate (N.to_nat MAX_MAPS) MapRecord.empty;
  m_endpoints := replicate (N.to_nat MAX_ENDPOINTS) Endpoint.empty;
  m_endpoint_ids := replicate (N.to_nat MAX_ENDPOINTS) EndpointId.empty;
  m_messages := replicate (N.to_nat MAX_MESSAGES) Message.empty;
  m_message_free := N.ones MAX_MESSAGES;
  m_invocations := replicate (N.to_nat MAX_INVOCATIONS) Invocation.empty;
  m_invocation_free := N.ones MAX_INVOCATIONS;
  m_signals := replicate (N.to_nat MAX_SIGNALS) Signal.empty;
  m_timers := replicate (N.to_nat MAX_TIMERS) Timer.empty;
  m_logs := replicate (N.to_nat MAX_CONTROL_LOGS) ControlLog.empty;
  m_devices := replicate (N.to_nat MAX_DEVICES) Device.empty;
  m_next_object_id := 1;
  m_boot_epoch := 0;
  m_root_scope := None;
  m_system_log := None;
  m_pending_memory := [0; 0];
  m_scopes := t
|}.

(** [table[index]], the value read; out of range is a panic. *)
Definition at_index {A} (table : Machine → list A) (i : N) : K Machine A :=
  t ← gets table; expect (t !! i).

(** ** Free slots and identities *)

(** [x.trailing_zeros()] of a 64-bit word. *)
Definition trailing_zeros (w : N) : N :=
  default 64 (head (filter (N.testbit w) (N.of_nat <$> seq 0 64))).
(** [x.count_ones()] of a 64-bit word. *)
Definition count_ones (w : N) : N := tlen (filter (N.testbit w) (N.of_nat <$> seq 0 64)).

(** The slot a free word gives, and the word without it. *)
(** kernel/src/state.rs:500-512 [Machine::claim_message, the search of the word] *)
Definition claim_bit (free : N) : option N * N :=
  if decide (free = 0) then (None, free) else
  let index := trailing_zeros free in
  (Some index, andnot free (N.shiftl 1 index)).

(** kernel/src/state.rs:500-512 [Machine::claim_message] *)
Definition claim_message (m : Machine) : option N * Machine :=
  let '(index, free) := claim_bit (m_message_free m) in (index, m <| m_message_free := free |>).
(** kernel/src/state.rs:515-517 [Machine::release_message] *)
Definition release_message (index : N) (m : Machine) : Machine :=
  m <| m_message_free ::= λ w, N.lor w (N.shiftl 1 index) |>.
(** kernel/src/state.rs:521-523 [Machine::messages_used] *)
Definition messages_used (m : Machine) : N := MAX_MESSAGES - count_ones (m_message_free m).
(** kernel/src/state.rs:526-538 [Machine::claim_invocation] *)
Definition claim_invocation (m : Machine) : option N * Machine :=
  let '(index, free) := claim_bit (m_invocation_free m) in
  (index, m <| m_invocation_free := free |>).
(** kernel/src/state.rs:541-544 [Machine::release_invocation] *)
Definition release_invocation (index : N) (m : Machine) : Machine :=
  m <| m_invocation_free ::= λ w, N.lor w (N.shiftl 1 index) |>.
(** kernel/src/state.rs:548-551 [Machine::invocations_used] *)
Definition invocations_used (m : Machine) : N :=
  MAX_INVOCATIONS - count_ones (m_invocation_free m).

(** kernel/src/state.rs:472-477 [Machine::defer_memory] *)
Definition defer_memory (index : N) (m : Machine) : Machine :=
  if decide (MAX_MEMORY_OBJECTS <= index) then m else
  m <| m_pending_memory ::= alter (λ w, N.lor w (N.shiftl 1 (index mod 64))) (index / 64) |>.
(** kernel/src/state.rs:480-490 [Machine::take_pending_memory] *)
Definition take_pending_memory (m : Machine) : list N * Machine :=
  (m_pending_memory m, m <| m_pending_memory := [0; 0] |>).

(** kernel/src/state.rs:557-574 [Machine::next_id] *)
Definition next_id (m : Machine) : option N * Machine :=
  let current := m_next_object_id m in
  if decide (current = U64_MAX) then (None, m)
  else (Some current, m <| m_next_object_id := current + 1 |>).

(** A state function as an operation of the machine. *)
Definition run {A} (f : Machine → A * Machine) : K Machine A :=
  λ m, let '(a, m) := f m in Done a m.
Definition on_scopes {A} (f : Scopes → A * Scopes) : K Machine A :=
  zoom m_scopes (λ t m, m <| m_scopes := t |>) f.
Definition release_metadata (owner : ScopeId) : K Machine () :=
  modify (λ m, m <| m_scopes ::= Scope.release owner Metadata 1 |>).

(** ** Objects *)

(** kernel/src/api/mod.rs:97-135 [object_alive] *)
Definition object_alive (m : Machine) (o : ObjRef) : bool :=
  let index := obj_index o in
  let generation := obj_generation o in
  match obj_kind o with
  | Obj.Scope =>
      from_option (λ s, negb (bool_decide (sc_state s = Scope.Empty)) &&
                        bool_decide (sc_generation s = generation)) false
        (scopes (m_scopes m) !! index)
  | Obj.Domain =>
      from_option (λ d, negb (bool_decide (dom_state d = DomainState.Empty)) &&
                        bool_decide (dom_generation d = generation)) false (m_domains m !! index)
  | Obj.Memory =>
      from_option (λ o, negb (bool_decide (mo_state o = memobj.Empty)) &&
                        bool_decide (mo_generation o = generation)) false (m_memories m !! index)
  | Obj.Endpoint =>
      from_option (λ e, ei_used e && bool_decide (ei_generation e = generation)) false
        (m_endpoint_ids m !! index)
  | Obj.Invocation =>
      from_option (λ i, negb (bool_decide (inv_state i = ipc.Empty)) &&
                        bool_decide (inv_generation i = generation)) false
        (m_invocations m !! index)
  | Obj.Signal =>
      from_option (λ s, sig_used s && bool_decide (sig_generation s = generation)) false
        (m_signals m !! index)
  | Obj.Timer =>
      from_option (λ t, tm_used t && bool_decide (tm_generation t = generation)) false
        (m_timers m !! index)
  | Obj.ControlLog =>
      from_option (λ l, cl_used l && bool_decide (cl_generation l = generation)) false
        (m_logs m !! index)
  | Obj.Device =>
      from_option (λ d, dev_used d && bool_decide (dev_generation d = generation)) false
        (m_devices m !! index)
  end.

(** kernel/src/api/mod.rs:139-155 [object_id] *)
Definition object_id (m : Machine) (o : ObjRef) : option N :=
  if negb (object_alive m o) then Some 0 else
  let index := obj_index o in
  match obj_kind o with
  | Obj.Scope => sc_id <$> scopes (m_scopes m) !! index
  | Obj.Domain => dom_id <$> m_domains m !! index
  | Obj.Memory => mo_id <$> m_memories m !! index
  | Obj.Endpoint => ep_id <$> m_endpoints m !! index
  | Obj.Invocation => inv_id <$> m_invocations m !! index
  | Obj.Signal => sig_id <$> m_signals m !! index
  | Obj.Timer => tm_id <$> m_timers m !! index
  | Obj.ControlLog => cl_id <$> m_logs m !! index
  | Obj.Device => dev_id <$> m_devices m !! index
  end.

(** kernel/src/api/mod.rs:159-165 [adjust_object_refs, apply]. [delta] is one or
    minus one. *)
Definition apply_refs (delta : Z) (value : N) : N :=
  if decide (0 <= delta)%Z then saturating_add 32 value (Z.to_N delta)
  else saturating_sub value (Z.to_N (- delta)).
(** kernel/src/api/mod.rs:169-175 [adjust_object_refs, apply_atomic] *)
Definition apply_atomic (delta : Z) (value : N) : N :=
  if decide (0 <= delta)%Z then wrapping_add 32 value (Z.to_N delta)
  else subtract32 value (Z.to_N (- delta)).

(** kernel/src/api/mod.rs:157-195 [adjust_object_refs] *)
Definition adjust_object_refs (o : ObjRef) (delta : Z) : K Machine () :=
  let index := obj_index o in
  match obj_kind o with
  | Obj.Scope =>
      _ ← at_index (λ m, scopes (m_scopes m)) index;
      modify (λ m, m <| m_scopes ::= on_scope index (λ s, s <| sc_refs ::= apply_atomic delta |>) |>)
  | Obj.Domain =>
      _ ← at_index m_domains index;
      modify (λ m, m <| m_domains ::= alter (λ d, d <| dom_refs ::= apply_atomic delta |>) index |>)
  | Obj.Memory =>
      _ ← at_index m_memories index;
      modify (λ m, m <| m_memories ::= alter (λ o, o <| mo_refs ::= apply_atomic delta |>) index |>)
  | Obj.Endpoint =>
      _ ← at_index m_endpoint_ids index;
      modify (λ m, m <| m_endpoint_ids ::=
        alter (λ e, e <| ei_refs ::= apply_atomic delta |>) index |>)
  | Obj.Invocation =>
      _ ← at_index m_invocations index;
      modify (λ m, m <| m_invocations ::=
        alter (λ i, i <| inv_refs ::= apply_refs delta |>) index |>)
  | Obj.Signal =>
      _ ← at_index m_signals index;
      modify (λ m, m <| m_signals ::= alter (λ s, s <| sig_refs ::= apply_atomic delta |>) index |>)
  | Obj.Timer =>
      _ ← at_index m_timers index;
      modify (λ m, m <| m_timers ::= alter (λ t, t <| tm_refs ::= apply_atomic delta |>) index |>)
  | Obj.ControlLog =>
      _ ← at_index m_logs index;
      modify (λ m, m <| m_logs ::= alter (λ l, l <| cl_refs ::= apply_refs delta |>) index |>)
  | Obj.Device =>
      _ ← at_index m_devices index;
      modify (λ m, m <| m_devices ::= alter (λ d, d <| dev_refs ::= apply_atomic delta |>) index |>)
  end.

(** ** Grant nodes *)

(** kernel/src/api/mod.rs:363-368 [free_grant_hint] *)
Definition free_grant_hint (index : N) (m : Machine) : Machine :=
  m <| m_grants_hint ::= N.min index |>.

(** kernel/src/api/mod.rs:332-359 [collect_grant, the loop]. [steps] counts down the
    turns the bound leaves. *)
Fixpoint collect_from (steps : nat) (current : GrantId) : K Machine () :=
  match steps with
  | O => mret ()
  | S steps =>
      if decide (current = NO_GRANT) then mret () else
      node ← at_index m_grants current;
      if negb (g_used node) || bool_decide (0 < g_refs node) || bool_decide (0 < g_children node)
      then mret () else
      modify (λ m, free_grant_hint current (m <| m_grants ::= <[current := Grant.empty]> |>));;
      (if decide (g_parent node = NO_GRANT) then mret () else
       _ ← at_index m_grants (g_parent node);
       modify (λ m, m <| m_grants ::=
         alter (λ n, n <| g_children ::= λ c, saturating_sub c 1 |>) (g_parent node) |>));;
      release_metadata (g_sponsor node);;
      collect_from steps (g_parent node)
  end.
(** kernel/src/api/mod.rs:332-359 [collect_grant] *)
Definition collect_grant (grant : GrantId) : K Machine () :=
  collect_from (N.to_nat limit.MAX_DERIVE_DEPTH) grant.

(** kernel/src/api/mod.rs:424-436 [grant_alloc, the search]. The first node not in
    use, from the hint round to it. *)
Fixpoint find_free (index : list N) (k : list Grant) : option N :=
  match index with
  | [] => None
  | i :: index =>
      match k !! i with
      | Some node => if g_used node then find_free index k else Some i
      | None => None
      end
  end.
(** The indices [hint..total] and then [0..hint]. *)
Definition from_hint (hint total : N) : list N := range hint total ++ range 0 hint.

(** kernel/src/api/mod.rs:378-455 [grant_alloc] *)
Definition grant_alloc (sponsor : ScopeId) (parent : GrantId) (object : ObjRef) (rights : N)
    (deadline_ns : N) (life_scope : option ScopeId) (facet : N) : K Machine (option GrantId) :=
  depth ← (if decide (parent = NO_GRANT) then mret 0
           else node ← at_index m_grants parent; expect (checked_add 16 (g_depth node) 1));
  if decide (limit.MAX_DERIVE_DEPTH < depth) then mret None else
  ok ← on_scopes (Scope.reserve sponsor Metadata 1);
  if negb ok then mret None else
  id ← run next_id;
  match id with
  | None => release_metadata sponsor;; mret None
  | Some id =>
      let node := mkGrant true id parent depth rights deadline_ns life_scope facet object
                    false 0 0 sponsor in
      nodes ← gets m_grants;
      hint ← gets m_grants_hint;
      match find_free (from_hint (N.min hint (tlen nodes)) (tlen nodes)) nodes with
      | None => release_metadata sponsor;; mret None
      | Some index =>
          modify (λ m, m <| m_grants ::= <[index := node]> |> <| m_grants_hint := index + 1 |>);;
          (if decide (parent = NO_GRANT) then mret () else
           above ← at_index m_grants parent;
           children ← expect (checked_add 32 (g_children above) 1);
           modify (λ m, m <| m_grants ::= alter (λ n, n <| g_children := children |>) parent |>));;
          mret (Some index)
      end
  end.

(** kernel/src/api/mod.rs:466-508 [walk_lineage, the loop]. [steps] counts down the
    turns the bound leaves. *)
Fixpoint walk_from (m : Machine) (now : N) (steps : nat) (current : GrantId) : Z :=
  if decide (current = NO_GRANT) then status.OK else
  match steps with
  | O => status.INVALID_HANDLE
  | S steps =>
      match m_grants m !! current with
      | None => status.INVALID_HANDLE
      | Some node =>
          if negb (g_used node) then status.INVALID_HANDLE else
          if g_fenced node then status.SCOPE_CLOSED else
          if negb (bool_decide (g_deadline_ns node = 0)) && bool_decide (g_deadline_ns node <= now)
          then status.EXPIRED else
          if from_option (λ life, negb (is_open (m_scopes m) life)) false (g_life_scope node)
          then status.SCOPE_CLOSED else
          if negb (is_open (m_scopes m) (g_sponsor node)) then status.SCOPE_CLOSED else
          walk_from m now steps (g_parent node)
      end
  end.
(** kernel/src/api/mod.rs:461-508 [lineage_status, walk_lineage] *)
Definition walk_lineage (m : Machine) (grant : GrantId) (now : N) : Z :=
  walk_from m now (N.to_nat limit.MAX_DERIVE_DEPTH + 1) grant.

(** kernel/src/api/mod.rs:1309-1331 [grant_within, the loop] *)
Fixpoint within_from (m : Machine) (root : GrantId) (steps : nat) (current : GrantId) : bool :=
  match steps with
  | O => false
  | S steps =>
      if decide (current = NO_GRANT) then false else
      if decide (current = root) then true else
      match m_grants m !! current with
      | None => false
      | Some node => if negb (g_used node) then false else within_from m root steps (g_parent node)
      end
  end.
(** kernel/src/api/mod.rs:1309-1331 [grant_within] *)
Definition grant_within (m : Machine) (root candidate : GrantId) : bool :=
  within_from m root (N.to_nat limit.MAX_DERIVE_DEPTH + 2) candidate.

(** ** Capabilities *)

(** kernel/src/api/mod.rs:309-325 [collect_invocation] *)
Definition collect_invocation (index : N) : K Machine () :=
  table ← gets m_invocations;
  match table !! index with
  | None => mret ()
  | Some invocation =>
      if negb (bool_decide (inv_state invocation = ipc.Resolved)) ||
         negb (bool_decide (inv_refs invocation = 0))
      then mret () else
      modify (λ m, release_invocation index (m <| m_invocations ::=
        alter (λ i, i <| inv_state := ipc.Empty |> <| inv_waiter := None |> <| inv_refs := 0 |>)
          index |>))
  end.

(** kernel/src/api/mod.rs:202-238 [cap_install] *)
Definition cap_install (domain : N) (object : ObjRef) (grant : GrantId) (slot : option N) :
    K Machine (option N) :=
  d ← at_index m_domains domain;
  let owner := dom_owner_scope d in
  ok ← on_scopes (Scope.reserve owner Metadata 1);
  if negb ok then mret None else
  let '(handle, caps) :=
    match slot with
    | Some index => CapTable.install_at index object grant (dom_caps d)
    | None => let '(r, caps) := CapTable.install object grant (dom_caps d) in (snd <$> r, caps)
    end in
  modify (λ m, m <| m_domains ::= alter (λ d, d <| dom_caps := caps |>) domain |>);;
  match handle with
  | Some handle =>
      (if decide (grant = NO_GRANT) then mret () else
       _ ← at_index m_grants grant;
       modify (λ m, m <| m_grants ::=
         alter (λ n, n <| g_refs ::= λ r, saturating_add 32 r 1 |>) grant |>));;
      adjust_object_refs object 1;;
      mret (Some handle)
  | None => release_metadata owner;; mret None
  end.

(** kernel/src/api/mod.rs:258-285 [release_entry] *)
Definition release_entry (domain : N) (entry : CapEntry) : K Machine () :=
  d ← at_index m_domains domain;
  release_metadata (dom_owner_scope d);;
  let grant := cap_grant entry in
  let object := cap_object entry in
  (if decide (grant = NO_GRANT) then mret () else
   _ ← at_index m_grants grant;
   modify (λ m, m <| m_grants ::=
     alter (λ n, n <| g_refs ::= λ r, saturating_sub r 1 |>) grant |>));;
  adjust_object_refs object (-1);;
  (if decide (obj_kind object = Obj.Invocation) then collect_invocation (obj_index object)
   else mret ());;
  memories ← gets m_memories;
  (if bool_decide (obj_kind object = Obj.Memory) &&
      from_option (λ o, bool_decide (mo_generation o = obj_generation object)) false
        (memories !! obj_index object)
   then modify (defer_memory (obj_index object)) else mret ());;
  collect_grant grant.

(** The domain's table after a release, and the entry released. *)
(** kernel/src/api/mod.rs:242-244 [cap_release, the table] *)
Definition release_with (domain : N) (f : CapTable → option CapEntry * CapTable) :
    K Machine bool :=
  d ← at_index m_domains domain;
  let '(entry, caps) := f (dom_caps d) in
  match entry with
  | None => mret false
  | Some entry =>
      modify (λ m, m <| m_domains ::= alter (λ d, d <| dom_caps := caps |>) domain |>);;
      release_entry domain entry;;
      mret true
  end.
(** kernel/src/api/mod.rs:241-247 [cap_release] *)
Definition cap_release (domain handle : N) : K Machine bool :=
  release_with domain (CapTable.release handle).
(** kernel/src/api/mod.rs:250-256 [cap_release_slot] *)
Definition cap_release_slot (domain slot : N) : K Machine bool :=
  release_with domain (CapTable.release_slot slot).

(** ** Resolution *)

(** kernel/src/api/mod.rs:55-66 [Resolved] *)
Record Resolved := mkResolved {
  rs_slot : N;
  rs_object : ObjRef;
  rs_grant : GrantId;
  rs_rights : N;
  rs_facet : N
}.

(** kernel/src/api/mod.rs:569-625 [resolve_entry] *)
Definition resolve_entry (domain handle required_type required_rights : N) (now : option N) :
    K Machine Resolved :=
  d ← at_index m_domains domain;
  entry ← ok_or status.INVALID_HANDLE (CapTable.lookup (dom_caps d) handle);
  err_if (negb (bool_decide (required_type = object_type.NONE)) &&
          negb (bool_decide (abi_type (obj_kind (cap_object entry)) = required_type)))
    status.WRONG_TYPE;;
  m ← getk;
  node ← ok_or status.INVALID_HANDLE
           (node ← m_grants m !! cap_grant entry; if g_used node then Some node else None);
  (match now with
   | None => mret ()
   | Some now =>
       let lineage := walk_lineage m (cap_grant entry) now in
       err_if (negb (bool_decide (lineage = status.OK))) lineage
   end);;
  err_if (negb (bool_decide (g_object node = cap_object entry))) status.INVALID_HANDLE;;
  err_if (negb (bool_decide (N.land (g_rights node) required_rights = required_rights)))
    status.INSUFFICIENT_RIGHTS;;
  err_if (negb (object_alive m (cap_object entry))) status.PEER_DEAD;;
  mret (mkResolved (handle_slot handle) (cap_object entry) (cap_grant entry) (g_rights node)
          (g_facet node)).
(** kernel/src/api/mod.rs:511-527 [resolve] *)
Definition resolve (domain handle required_type required_rights now : N) : K Machine Resolved :=
  resolve_entry domain handle required_type required_rights (Some now).
(** kernel/src/api/mod.rs:545-560 [resolve_observer] *)
Definition resolve_observer (domain handle required_type required_rights : N) :
    K Machine Resolved :=
  resolve_entry domain handle required_type required_rights None.

(** kernel/src/api/mod.rs:70-87 [Ctx] *)
Record Ctx := mkCtx {
  cx_domain : N;
  cx_thread : N;
  cx_handle : N;
  cx_operation : N;
  cx_flags : N;
  cx_deadline : N;
  cx_now : N;
  cx_cap : Resolved
}.

(** ** Refusals and receipts *)

(** kernel/src/api/mod.rs:51-51 [REFUSAL_RECORD_LIMIT] *)
Definition REFUSAL_RECORD_LIMIT : N := 64.

(** kernel/src/api/mod.rs:632-657 [note_refusal]. The second component says whether a
    diagnostic record is emitted. *)
Definition note_refusal (domain : N) : K Machine bool :=
  table ← gets m_domains;
  match table !! domain with
  | None => mret false
  | Some d =>
      modify (λ m, m <| m_domains ::=
        alter (λ d, d <| dom_refusals ::= λ n, wrapping_add 64 n 1 |>) domain |>);;
      _ ← expect (checked_add 64 (dom_refusals d) 1);
      if decide (REFUSAL_RECORD_LIMIT <= dom_refusal_records d) then mret false else
      modify (λ m, m <| m_domains ::=
        alter (λ d, d <| dom_refusal_records ::= λ n, n + 1 |>) domain |>);;
      mret true
  end.

(** The clock read inside is an argument; the wake of a reader whose batch is complete
    is in [LogOps]. *)
(** kernel/src/api/mod.rs:1218-1286 [receipt] *)
Definition receipt (now_ns kind origin_domain : N) (origin_scope : ScopeId)
    (object grant parent_invocation : N) (result : Z) (a b : N) (reserved : bool) :
    K Machine N :=
  m ← getk;
  match m_system_log m with
  | None => mret 0
  | Some log_index =>
      let record := mkReceipt RECEIPT_SCHEMA kind 0 (m_boot_epoch m) now_ns
        (from_option dom_id 0 (m_domains m !! origin_domain))
        (from_option sc_id 0 (scopes (m_scopes m) !! origin_scope))
        object grant parent_invocation result a b in
      log ← at_index m_logs log_index;
      let '(sequence, log) :=
        if reserved then ControlLog.commit_reserved record log
        else ControlLog.write record log in
      modify (λ m, m <| m_logs ::= <[log_index := log]> |>);;
      mret sequence
  end.

(** kernel/src/api/mod.rs:1293-1298 [reserve_receipt] *)
Definition reserve_receipt : K Machine bool :=
  m ← getk;
  match m_system_log m with
  | None => mret true
  | Some index =>
      log ← at_index m_logs index;
      let '(ok, log) := ControlLog.reserve log in
      modify (λ m, m <| m_logs ::= <[index := log]> |>);;
      mret ok
  end.
(** kernel/src/api/mod.rs:1301-1305 [release_receipt] *)
Definition release_receipt : K Machine () :=
  m ← getk;
  match m_system_log m with
  | None => mret ()
  | Some index =>
      log ← at_index m_logs index;
      modify (λ m, m <| m_logs ::= <[index := ControlLog.release_reservation log]> |>)
  end.
