(* ===== verification/CapOps.v ===== *)
(** * The operations every capability supports

    [kernel/src/api/capops.rs]. A request arrives decoded and a response leaves
    as a record; the copies of the descriptor are not part of these functions. *)

From S2P Require Import Prelude Abi Obj Scope Ctrl Frame Objects Machine.

#[local] Open Scope N_scope.

(** abi/src/generated.rs:1401-1422 [CapInfo] *)
Record CapInfo := mkCapInfo {
  ci_object_type : N;
  ci_rights : N;
  ci_derive_depth : N;
  ci_lineage_state : N;
  ci_grant_id : N;
  ci_parent_grant_id : N;
  ci_deadline_ns : N;
  ci_life_scope_id : N;
  ci_object_id : N;
  ci_facet : N
}.

(** abi/src/generated.rs:1454-1463 [DeriveRequest] *)
Record DeriveRequest := mkDeriveRequest {
  dr_rights_mask : N;
  dr_reserved0 : N;
  dr_deadline_ns : N;
  dr_life_scope : N
}.

(** abi/src/generated.rs:1630-1655 [DrainReport] *)
Record DrainReport := mkDrainReport {
  rp_state : N;
  rp_threads_running : N;
  rp_invocations_pending : N;
  rp_effects_pending : N;
  rp_maps_pending : N;
  rp_undelivered_cancelled : N;
  rp_external_unknown : N;
  rp_reserved0 : N;
  rp_retained_pages : N;
  rp_retained_metadata : N;
  rp_last_progress_ns : N;
  rp_token : N
}.
#[global] Instance DrainReport_rebuild : Rebuild DrainReport := λ r,
  mkDrainReport (rp_state r) (rp_threads_running r) (rp_invocations_pending r)
    (rp_effects_pending r) (rp_maps_pending r) (rp_undelivered_cancelled r)
    (rp_external_unknown r) (rp_reserved0 r) (rp_retained_pages r) (rp_retained_metadata r)
    (rp_last_progress_ns r) (rp_token r).

(** kernel/src/api/capops.rs:25-53 [inspect]. The response and the value returned. *)
Definition inspect (ctx : Ctx) : K Machine (CapInfo * N) :=
  let cap := cx_cap ctx in
  node ← at_index m_grants (rs_grant cap);
  m ← getk;
  let walked := walk_lineage m (rs_grant cap) (cx_now ctx) in
  let lineage := if decide (walked = status.OK) then cap_lineage.LIVE
                 else if decide (walked = status.EXPIRED) then cap_lineage.EXPIRED
                 else cap_lineage.FENCED in
  parent_id ← (if decide (g_parent node = NO_GRANT) then mret 0
               else parent ← at_index m_grants (g_parent node); mret (g_id parent));
  life_id ← match g_life_scope node with
            | None => mret 0
            | Some scope => s ← at_index (λ m, scopes (m_scopes m)) scope; mret (sc_id s)
            end;
  object ← expect (object_id m (rs_object cap));
  mret (mkCapInfo (abi_type (obj_kind (rs_object cap))) (g_rights node) (g_depth node) lineage
          (g_id node) parent_id (g_deadline_ns node) life_id object (g_facet node), g_rights node).

(** The child grant never became reachable: it is taken back. *)
(** kernel/src/api/capops.rs:127-140 [derive, the rollback] *)
Definition undo_derive (parent child : GrantId) : K Machine () :=
  _ ← at_index m_grants parent;
  modify (λ m, m <| m_grants ::=
    alter (λ n, n <| g_children ::= λ c, saturating_sub c 1 |>) parent |>);;
  node ← at_index m_grants child;
  modify (λ m, free_grant_hint child (m <| m_grants ::= <[child := Grant.empty]> |>));;
  release_metadata (g_sponsor node).

(** kernel/src/api/capops.rs:75-82 [derive, the deadline] *)
Definition derived_deadline (requested held : N) : K Machine N :=
  if decide (requested = 0) then mret held else
  err_if (negb (bool_decide (held = 0)) && bool_decide (held < requested)) status.INVALID_ARGUMENT;;
  mret requested.

(** kernel/src/api/capops.rs:84-96 [derive, the bounding scope] *)
Definition derived_life (ctx : Ctx) (requested : N) (held : option ScopeId) :
    K Machine (option ScopeId) :=
  if decide (requested = 0) then mret held else
  scope ← resolve (cx_domain ctx) requested object_type.SCOPE right.INSPECT (cx_now ctx);
  mret (Some (obj_index (rs_object scope))).

(** kernel/src/api/capops.rs:57-142 [derive] *)
Definition derive (ctx : Ctx) (request : DeriveRequest) : K Machine N :=
  let cap := cx_cap ctx in
  err_if (negb (bool_decide (dr_reserved0 request = 0))) status.INVALID_ARGUMENT;;
  parent ← at_index m_grants (rs_grant cap);
  err_if (negb (bool_decide (andnot (dr_rights_mask request) (g_rights parent) = 0)))
    status.INSUFFICIENT_RIGHTS;;
  err_if (negb (bool_decide
            (andnot (dr_rights_mask request) (rights_mask (obj_kind (rs_object cap))) = 0)))
    status.INVALID_ARGUMENT;;
  deadline ← derived_deadline (dr_deadline_ns request) (g_deadline_ns parent);
  life ← derived_life ctx (dr_life_scope request) (g_life_scope parent);
  d ← at_index m_domains (cx_domain ctx);
  child ← grant_alloc (dom_owner_scope d) (rs_grant cap) (rs_object cap)
            (dr_rights_mask request) deadline life (g_facet parent);
  child ← ok_or status.LIMIT_EXHAUSTED child;
  handle ← cap_install (cx_domain ctx) (rs_object cap) child None;
  match handle with
  | Some handle => mret handle
  | None => undo_derive (rs_grant cap) child;; err status.LIMIT_EXHAUSTED
  end.

(** kernel/src/api/capops.rs:145-148 [copy] *)
Definition copy (ctx : Ctx) : K Machine N :=
  handle ← cap_install (cx_domain ctx) (rs_object (cx_cap ctx)) (rs_grant (cx_cap ctx)) None;
  ok_or status.LIMIT_EXHAUSTED handle.

(** kernel/src/api/capops.rs:151-157 [close] *)
Definition close (ctx : Ctx) : K Machine N :=
  released ← cap_release (cx_domain ctx) (cx_handle ctx);
  if released : bool then mret 0 else err status.INVALID_HANDLE.

(** kernel/src/api/capops.rs:160-185 [fence] *)
Definition fence (ctx : Ctx) (now_ns : N) : K Machine N :=
  let cap := cx_cap ctx in
  nodes ← gets m_grants;
  r ← expect (fence_lineage nodes (rs_grant cap));
  let '(nodes, changed) := r in
  modify (λ m, m <| m_grants := nodes |>);;
  node ← at_index m_grants (rs_grant cap);
  m ← getk;
  object ← expect (object_id m (rs_object cap));
  d ← at_index m_domains (cx_domain ctx);
  _ ← receipt now_ns receipt_kind.FENCE (cx_domain ctx) (dom_owner_scope d) object (g_id node) 0
        status.OK changed 0 false;
  mret changed.

(** kernel/src/api/capops.rs:188-220 [drain_status]. The response and the value
    returned. *)
Definition drain_status (ctx : Ctx) : K Machine (DrainReport * N) :=
  let root := rs_grant (cx_cap ctx) in
  node ← at_index m_grants root;
  m ← getk;
  let pending i := negb (bool_decide (inv_state i = ipc.Empty)) &&
    negb (bool_decide (inv_state i = ipc.Resolved)) && grant_within m root (inv_grant i) in
  let count n := N.min n U32_MAX in
  let maps := count (tlen (filter (λ r, map_used r && grant_within m root (map_grant r)) (m_maps m))) in
  let invocations := count (tlen (filter pending (m_invocations m))) in
  let effects := count (tlen (filter (λ i, pending i &&
                   bool_decide (inv_effect i = Effect.Admitted_)) (m_invocations m))) in
  mret (mkDrainReport (if g_fenced node then scope_state.FENCED else scope_state.OPEN)
          0 invocations effects maps 0 0 0 0 0 (cx_now ctx) (g_id node), invocations).
