(* ===== verification/Authority.v ===== *)
(** * Authority

    What the capability tables and the grant tree keep true of each other: every
    entry names a node that authorises its object, no node grants more than its
    parent, and no node that is named or has children is reused. The operations
    of [kernel/src/api/capops.rs] preserve it, and a fence is final. *)

From S2P Require Import Prelude Abi Obj Scope ScopeProofs Ctrl Frame Objects Machine CapOps.

#[local] Open Scope N_scope.

Implicit Types (gs : list Grant) (ts : list CapTable) (g i j d s : N).

(** ** The invariant, over the grant nodes and the capability tables *)

(** [n] grants no more than [p]: a subset of the rights, no later deadline, the
    same object. *)
Record narrower (n p : Grant) : Prop := {
  nw_rights : andnot (g_rights n) (g_rights p) = 0;
  nw_deadline : g_deadline_ns p ≠ 0 → g_deadline_ns n ≠ 0 ∧ g_deadline_ns n <= g_deadline_ns p;
  nw_object : g_object n = g_object p
}.

Definition names (g : GrantId) (e : CapEntry) : bool := cap_live e && bool_decide (cap_grant e = g).
(** How many live entries, of all the tables, name [g]. *)
Definition held (ts : list CapTable) (g : GrantId) : N :=
  tsum (λ t, tlen (filter (names g) (slots t))) ts.
Definition child_of (g : GrantId) (n : Grant) : bool :=
  g_used n && bool_decide (g_parent n = g).
Definition children_of (gs : list Grant) (g : GrantId) : N := tlen (filter (child_of g) gs).

(** The capacity of the table an object lives in. *)
Definition object_limit (k : ObjKind) : N :=
  match k with
  | Obj.Scope => MAX_SCOPES
  | Obj.Domain => MAX_DOMAINS
  | Obj.Memory => MAX_MEMORY_OBJECTS
  | Obj.Endpoint => MAX_ENDPOINTS
  | Obj.Invocation => MAX_INVOCATIONS
  | Obj.Signal => MAX_SIGNALS
  | Obj.Timer => MAX_TIMERS
  | Obj.ControlLog => MAX_CONTROL_LOGS
  | Obj.Device => MAX_DEVICES
  end.

Record authority (gs : list Grant) (ts : list CapTable) : Prop := {
  au_tree : grants_wf gs;
  au_narrow i n p : gs !! i = Some n → g_used n = true → g_parent n ≠ NO_GRANT →
    gs !! g_parent n = Some p → narrower n p;
  au_named d t s e : ts !! d = Some t → slots t !! s = Some e → cap_live e = true →
    ∃ n, gs !! cap_grant e = Some n ∧ g_used n = true ∧ g_object n = cap_object e;
  au_objects i n : gs !! i = Some n → g_used n = true →
    obj_index (g_object n) < object_limit (obj_kind (g_object n));
  au_tables d t : ts !! d = Some t → cap_wf t;
  au_domains : tlen ts <= MAX_DOMAINS;
  au_refs i n : gs !! i = Some n → g_used n = true → held ts i <= g_refs n;
  au_children i n : gs !! i = Some n → g_used n = true → g_children n = children_of gs i
}.

Lemma index_not_none (gs : list Grant) i n : grants_wf gs → gs !! i = Some n → i ≠ NO_GRANT.
Proof.
  intros Hwf Hi%table_lookup_lt. rewrite (grants_len gs Hwf) in Hi.
  unfold MAX_GRANTS, NO_GRANT, U16_MAX in *. lia.
Qed.

(** *** Counting *)

Lemma names_zero t g :
  (∀ s e, slots t !! s = Some e → cap_live e = true → cap_grant e ≠ g) →
  tlen (filter (names g) (slots t)) = 0.
Proof.
  intros H. apply count_none. intros s e He Hn. unfold names in Hn.
  destruct (cap_live e) eqn:Hl; [|done]. cbn in Hn. apply (H s e He Hl).
  by case_bool_decide.
Qed.

Lemma held_zero ts g :
  (∀ d t s e, ts !! d = Some t → slots t !! s = Some e → cap_live e = true → cap_grant e ≠ g) →
  held ts g = 0.
Proof.
  intros H. apply N.le_0_r. unfold held.
  etrans; [apply (tsum_bound _ ts 0)|by rewrite N.mul_0_r].
  intros t [d Hd]%list_elem_of_lookup_1. rewrite <-table_lookup_nat in Hd.
  rewrite names_zero; [done|]. intros s e. by eapply H.
Qed.

(** An entry keeps its node held. *)
Lemma held_pos ts d t s e :
  ts !! d = Some t → slots t !! s = Some e → cap_live e = true → 1 <= held ts (cap_grant e).
Proof.
  intros Ht He Hl. unfold held.
  etrans; [|by eapply (tsum_elem (λ t, tlen (filter (names (cap_grant e)) (slots t))))].
  destruct (decide (tlen (filter (names (cap_grant e)) (slots t)) = 0)) as [Hz|]; [|lia].
  destruct (count_zero _ _ _ _ Hz He). unfold names. rewrite Hl. by case_bool_decide.
Qed.

Definition one (b : bool) : N := if b then 1 else 0.

Lemma held_insert ts d t s e e' g :
  ts !! d = Some t → slots t !! s = Some e →
  held (<[d := t <| slots ::= <[s := e']> |>]> ts) g + one (names g e) =
  held ts g + one (names g e').
Proof.
  intros Ht He. unfold held.
  pose proof (tsum_insert (λ t, tlen (filter (names g) (slots t))) ts d
    (t <| slots ::= <[s := e']> |>) t Ht) as Hs.
  cbv beta in Hs.
  change (slots (t <| slots ::= <[s := e']> |>)) with (<[s := e']> (slots t)) in Hs.
  pose proof (count_insert (names g) (slots t) s e' e He) as Hc. unfold one.
  destruct (decide (names g e)) as [H1|H1], (decide (names g e')) as [H2|H2];
    destruct (names g e), (names g e'); try done; lia.
Qed.

Lemma children_insert gs i n n' g :
  gs !! i = Some n →
  children_of (<[i := n']> gs) g + one (child_of g n) = children_of gs g + one (child_of g n').
Proof.
  intros Hi. pose proof (count_insert (child_of g) gs i n' n Hi) as Hc. unfold children_of, one.
  destruct (decide (child_of g n)) as [H1|H1], (decide (child_of g n')) as [H2|H2];
    destruct (child_of g n), (child_of g n'); try done; lia.
Qed.

Lemma no_children gs i j n :
  children_of gs i = 0 → gs !! j = Some n → g_used n = true → g_parent n ≠ i.
Proof.
  intros Hz Hj Hu Hp. destruct (count_zero _ _ _ _ Hz Hj). unfold child_of.
  rewrite Hu, Hp. by case_bool_decide.
Qed.

Lemma unused_no_children gs i n :
  grants_wf gs → gs !! i = Some n → g_used n = false → children_of gs i = 0.
Proof.
  intros Hwf Hi Hu. apply count_none. intros j x Hj Hx. unfold child_of in Hx.
  destruct (g_used x) eqn:Hxu; [|done]. cbn in Hx. case_bool_decide as Hp; [|done].
  destruct (grants_parent gs Hwf j x Hj Hxu) as (p & Hpp & Hpu & _).
  { rewrite Hp. by eapply index_not_none. }
  congruence.
Qed.

Lemma held_bound ts g : (∀ d t, ts !! d = Some t → cap_wf t) → tlen ts <= MAX_DOMAINS →
  held ts g <= MAX_DOMAINS * MAX_CAPS.
Proof.
  intros Hwf Hlen. etrans; [apply (tsum_bound _ ts MAX_CAPS)|by apply N.mul_le_mono_r].
  intros t [d Hd]%list_elem_of_lookup_1. rewrite <-table_lookup_nat in Hd.
  rewrite <-(cap_wf_len t (Hwf _ t Hd)). apply tlen_filter.
Qed.

(** *** Nodes that differ only in their counters *)

Record same_shape (n n' : Grant) : Prop := {
  ss_used : g_used n' = g_used n;
  ss_parent : g_parent n' = g_parent n;
  ss_depth : g_depth n' = g_depth n;
  ss_rights : g_rights n' = g_rights n;
  ss_deadline : g_deadline_ns n' = g_deadline_ns n;
  ss_object : g_object n' = g_object n;
  ss_fenced : g_fenced n' = g_fenced n
}.
#[global] Instance same_shape_refl : Reflexive same_shape.
Proof. by split. Qed.

(** [f] changes counters only. *)
Definition counters_only (f : Grant → Grant) : Prop := ∀ n, same_shape n (f n).

Lemma shape_alter f i gs j n' : counters_only f → alter f i gs !! j = Some n' →
  ∃ n, gs !! j = Some n ∧ same_shape n n'.
Proof.
  intros Hf. rewrite table_alter. case_decide; [|by exists n'].
  intros (n & Hn & ->)%fmap_Some. by exists n.
Qed.

Lemma shape_alter_fwd f i gs j n : counters_only f → gs !! j = Some n →
  ∃ n', alter f i gs !! j = Some n' ∧ same_shape n n'.
Proof. intros Hf Hj. rewrite table_alter, Hj. case_decide; eexists; [done|by split]. Qed.

Lemma children_alter f i gs g : counters_only f → children_of (alter f i gs) g = children_of gs g.
Proof.
  intros Hf. destruct (gs !! i) as [n|] eqn:Hi.
  - rewrite (table_alter_as_insert f gs i n Hi). pose proof (children_insert gs i n (f n) g Hi) as Hc.
    assert (child_of g (f n) = child_of g n) as Heq.
    { unfold child_of. by destruct (Hf n) as [-> -> _ _ _ _ _]. }
    rewrite Heq in Hc. lia.
  - by rewrite table_alter_none.
Qed.

Lemma tree_alter f i gs : counters_only f → grants_wf gs → grants_wf (alter f i gs).
Proof.
  intros Hf Hwf. split; [by rewrite tlen_alter; apply grants_len|..]; intros j n' Hj Hu;
    destruct (shape_alter f i gs j n' Hf Hj) as (n & Hn & [Su Sp Sd _ _ _ Sf]); rewrite Su in Hu.
  - rewrite Sd. by eapply grants_depth.
  - rewrite Sp, Sd, Sf. intros Hp. destruct (grants_parent gs Hwf j n Hn Hu Hp) as (p & Hpp & Hpu & Hd & Hpf).
    destruct (shape_alter_fwd f i gs _ p Hf Hpp) as (p' & Hp' & [Tu _ Td _ _ _ Tf]).
    exists p'. rewrite Tu, Td, Tf. by split_and!.
Qed.

Lemma narrower_shape n p n' p' :
  same_shape n n' → same_shape p p' → narrower n p → narrower n' p'.
Proof.
  intros [_ _ _ Sr Sd So _] [_ _ _ Tr Td To _] [Hr Hd Ho].
  split; rewrite ?Sr, ?Sd, ?So, ?Tr, ?Td, ?To; done.
Qed.

Lemma narrow_alter f i gs :
  counters_only f →
  (∀ i n p, gs !! i = Some n → g_used n = true → g_parent n ≠ NO_GRANT →
    gs !! g_parent n = Some p → narrower n p) →
  ∀ j n p, alter f i gs !! j = Some n → g_used n = true → g_parent n ≠ NO_GRANT →
    alter f i gs !! g_parent n = Some p → narrower n p.
Proof.
  intros Hf Hnw j n' p' Hj Hu Hp Hpp.
  destruct (shape_alter f i gs j n' Hf Hj) as (n & Hn & Sn).
  destruct (shape_alter f i gs _ p' Hf Hpp) as (p & Hpn & Sp). pose proof Sn as [Su Spp _ _ _ _ _].
  rewrite Su in Hu. rewrite Spp in Hp, Hpn. by eapply narrower_shape; [..|eapply Hnw].
Qed.


(** *** A handle behind a fence

    The slot the handle names has moved on, or still holds an entry whose node
    is fenced. *)

Definition fenced_node gs g : Prop := ∃ n, gs !! g = Some n ∧ g_used n = true ∧ g_fenced n = true.
Definition barred gs ts d (h : N) : Prop :=
  ∃ t e, ts !! d = Some t ∧ slots t !! handle_slot h = Some e ∧
    (handle_generation h < cap_generation e ∨
     cap_generation e = handle_generation h ∧
       (cap_live e = true → fenced_node gs (cap_grant e))).

(** The invariant holds after, and no handle has come back from behind a fence. *)
Record advances gs ts gs' ts' : Prop := {
  adv_authority : authority gs' ts';
  adv_barred d h : barred gs ts d h → barred gs' ts' d h
}.

Lemma advances_refl gs ts : authority gs ts → advances gs ts gs ts.
Proof. by split. Qed.
Lemma advances_trans gs1 ts1 gs2 ts2 gs3 ts3 :
  advances gs1 ts1 gs2 ts2 → advances gs2 ts2 gs3 ts3 → advances gs1 ts1 gs3 ts3.
Proof. intros [] []. split; auto. Qed.

Lemma barred_grants gs gs' ts d h :
  (∀ g n, held ts g ≠ 0 → gs !! g = Some n → g_used n = true → g_fenced n = true →
    fenced_node gs' g) →
  barred gs ts d h → barred gs' ts d h.
Proof.
  intros Hf (t & e & Ht & He & Hb). exists t, e. split_and!; [done..|].
  destruct Hb as [|[Hg Hb]]; [by left|right]. split; [done|]. intros Hl.
  destruct (Hb Hl) as (n & Hn & Hu & Hfn). apply (Hf _ n); try done.
  pose proof (held_pos ts d t _ e Ht He Hl). lia.
Qed.

Lemma fenced_alter f i gs g : counters_only f → fenced_node gs g → fenced_node (alter f i gs) g.
Proof.
  intros Hf (n & Hn & Hu & Hfn). destruct (shape_alter_fwd f i gs g n Hf Hn) as (n' & Hn' & S).
  exists n'. rewrite (ss_used _ _ S), (ss_fenced _ _ S). done.
Qed.

(** *** Counters alone *)

Lemma counters_advance f i gs ts :
  counters_only f → authority gs ts →
  (∀ n, gs !! i = Some n → g_used n = true →
    held ts i <= g_refs (f n) ∧ g_children (f n) = children_of gs i) →
  advances gs ts (alter f i gs) ts.
Proof.
  intros Hf [Htree Hnw Hnamed Hobj Htab Hdom Hrefs Hch] Hi. split.
  2:{ intros d h. apply barred_grants. intros g n _ Hn Hu Hfn. apply fenced_alter; [done|].
      by exists n. }
  split; try done.
  - by apply tree_alter.
  - by apply narrow_alter.
  - intros d t s e Ht He Hl. destruct (Hnamed d t s e Ht He Hl) as (n & Hn & Hu & Ho).
    destruct (shape_alter_fwd f i gs _ n Hf Hn) as (n' & Hn' & S). exists n'.
    rewrite (ss_used _ _ S), (ss_object _ _ S). done.
  - intros j n' Hj Hu. destruct (shape_alter f i gs j n' Hf Hj) as (n & Hn & S).
    rewrite (ss_object _ _ S). rewrite (ss_used _ _ S) in Hu. by eapply Hobj.
  - intros j n' Hj Hu. rewrite table_alter in Hj. case_decide as Hd.
    + subst j. apply fmap_Some in Hj as (n & Hn & ->). apply (Hi n Hn).
      by rewrite <-(ss_used _ _ (Hf n)).
    + by apply Hrefs.
  - intros j n' Hj Hu. rewrite children_alter by done. rewrite table_alter in Hj. case_decide as Hd.
    + subst j. apply fmap_Some in Hj as (n & Hn & ->). apply (Hi n Hn).
      by rewrite <-(ss_used _ _ (Hf n)).
    + by apply Hch.
Qed.

(** *** A new node *)

Section alloc.
Context (gs : list Grant) (ts : list CapTable) (i : N) (n0 n : Grant).
Context (Hau : authority gs ts) (Hi : gs !! i = Some n0) (Hfree : g_used n0 = false).
Context (Hused : g_used n = true) (Hr : g_refs n = 0) (Hc : g_children n = 0).
Context (Hdepth : g_depth n <= limit.MAX_DERIVE_DEPTH).
Context (Hobj : obj_index (g_object n) < object_limit (obj_kind (g_object n))).
Context (Hparent : g_parent n ≠ NO_GRANT → ∃ p, gs !! g_parent n = Some p ∧ g_used p = true ∧
  g_fenced p = false ∧ g_depth n = g_depth p + 1 ∧ narrower n p).

Definition with_child : list Grant :=
  alter (λ p, p <| g_children ::= λ c, c + 1 |>) (g_parent n) (<[i := n]> gs).

Lemma alloc_parent_ne : g_parent n ≠ i.
Proof.
  intros Heq. destruct (decide (g_parent n = NO_GRANT)) as [Hn|Hn].
  - rewrite Hn in Heq. symmetry in Heq. revert Heq. eapply index_not_none; [apply Hau|done].
  - destruct (Hparent Hn) as (p & Hp & Hu & _). congruence.
Qed.

Lemma alloc_lookup j n' : with_child !! j = Some n' →
  j = i ∧ n' = n ∨
  j ≠ i ∧ ∃ m, gs !! j = Some m ∧ same_shape m n' ∧ g_refs n' = g_refs m ∧
    g_children n' = g_children m + one (bool_decide (g_parent n = j)).
Proof.
  unfold with_child. rewrite table_alter, table_insert. pose proof alloc_parent_ne.
  pose proof (table_lookup_lt _ _ _ Hi). destruct (decide (i = j)) as [<-|Hne].
  - rewrite (decide_False (P := g_parent n = i)), decide_True by done. intros [= <-]. by left.
  - rewrite (decide_False (P := i = j ∧ _)) by tauto. intros Hj. right. split; [done|].
    destruct (decide (g_parent n = j)) as [Hp|Hp].
    + apply fmap_Some in Hj as (m & Hm & ->). exists m. rewrite bool_decide_true by done. by split_and!.
    + exists n'. rewrite bool_decide_false by done. split_and!; [done..|by rewrite N.add_0_r].
Qed.

Lemma alloc_lookup_fwd j m : j ≠ i → gs !! j = Some m →
  ∃ n', with_child !! j = Some n' ∧ same_shape m n'.
Proof.
  intros Hne Hj. apply shape_alter_fwd; [by split|]. by rewrite table_insert_ne.
Qed.

Lemma alloc_used_ne j m : gs !! j = Some m → g_used m = true → j ≠ i.
Proof. intros Hj Hu ->. congruence. Qed.

Lemma alloc_children g : children_of with_child g = children_of gs g + one (bool_decide (g_parent n = g)).
Proof.
  unfold with_child. rewrite children_alter by by split.
  pose proof (children_insert gs i n0 n g Hi) as Hci. unfold child_of in Hci.
  rewrite Hfree, Hused in Hci. cbn in Hci. lia.
Qed.

Lemma alloc_tree : grants_wf with_child.
Proof.
  split; [unfold with_child; rewrite tlen_alter, tlen_insert; apply Hau|..]; intros j n' Hj Hu;
    destruct (alloc_lookup j n' Hj) as [[-> ->]|(Hne & m & Hm & [Su Sp Sd _ _ _ Sf] & _)].
  - done.
  - rewrite Sd. rewrite Su in Hu. by eapply grants_depth; [apply Hau|..].
  - intros Hp. destruct (Hparent Hp) as (p & Hpp & Hpu & Hpf & Hpd & _).
    destruct (alloc_lookup_fwd _ p alloc_parent_ne Hpp) as (p' & Hp' & [Tu _ Td _ _ _ Tf]).
    exists p'. rewrite Tu, Td, Tf, Hpf. by split_and!.
  - rewrite Sp, Sd, Sf. rewrite Su in Hu. intros Hp.
    destruct (grants_parent gs (au_tree _ _ Hau) j m Hm Hu Hp) as (p & Hpp & Hpu & Hd & Hpf).
    destruct (alloc_lookup_fwd _ p (alloc_used_ne _ p Hpp Hpu) Hpp) as (p' & Hp' & [Tu _ Td _ _ _ Tf]).
    exists p'. rewrite Tu, Td, Tf. by split_and!.
Qed.

Lemma alloc_narrow j x p : with_child !! j = Some x → g_used x = true → g_parent x ≠ NO_GRANT →
  with_child !! g_parent x = Some p → narrower x p.
Proof.
  intros Hj Hu Hp Hpp. destruct (alloc_lookup j x Hj) as [[-> ->]|(Hne & m & Hm & S & _)].
  - destruct (Hparent Hp) as (q & Hq & Hqu & _ & _ & Hnw).
    destruct (alloc_lookup _ p Hpp) as [[Heq _]|(_ & q' & Hq' & T & _)]; [by destruct alloc_parent_ne|].
    assert (q' = q) as -> by congruence. by eapply narrower_shape; [reflexivity|..].
  - rewrite (ss_used _ _ S) in Hu. rewrite (ss_parent _ _ S) in Hp, Hpp.
    destruct (grants_parent gs (au_tree _ _ Hau) j m Hm Hu Hp) as (q & Hq & Hqu & _).
    destruct (alloc_lookup _ p Hpp) as [[Heq _]|(_ & q' & Hq' & T & _)].
    + destruct (alloc_used_ne _ q Hq Hqu). done.
    + assert (q' = q) as -> by congruence. eapply narrower_shape; [done..|].
      by eapply au_narrow; [apply Hau|..].
Qed.

Lemma alloc_advance : advances gs ts with_child ts.
Proof.
  split.
  2:{ intros d h. apply barred_grants. intros g m _ Hm Hu Hf.
      destruct (alloc_lookup_fwd g m (alloc_used_ne _ _ Hm Hu) Hm) as (n' & Hn' & S).
      exists n'. rewrite (ss_used _ _ S), (ss_fenced _ _ S). done. }
  split; [apply alloc_tree|apply alloc_narrow| | |apply Hau..| |].
  - intros d t s e Ht He Hl. destruct (au_named _ _ Hau d t s e Ht He Hl) as (m & Hm & Hu & Ho).
    destruct (alloc_lookup_fwd _ m (alloc_used_ne _ _ Hm Hu) Hm) as (n' & Hn' & S). exists n'.
    rewrite (ss_used _ _ S), (ss_object _ _ S). done.
  - intros j n' Hj Hu. destruct (alloc_lookup j n' Hj) as [[-> ->]|(_ & m & Hm & S & _)]; [done|].
    rewrite (ss_object _ _ S). rewrite (ss_used _ _ S) in Hu. by eapply au_objects; [apply Hau|..].
  - intros j n' Hj Hu. destruct (alloc_lookup j n' Hj) as [[-> ->]|(_ & m & Hm & S & -> & _)].
    + rewrite Hr, held_zero; [done|]. intros d t s e Ht He Hl Hg.
      destruct (au_named _ _ Hau d t s e Ht He Hl) as (m & Hm & Hu' & _). congruence.
    + rewrite (ss_used _ _ S) in Hu. by eapply au_refs; [apply Hau|..].
  - intros j n' Hj Hu. rewrite alloc_children.
    destruct (alloc_lookup j n' Hj) as [[-> ->]|(_ & m & Hm & S & _ & ->)].
    + pose proof alloc_parent_ne. rewrite bool_decide_false, Hc by done. symmetry. rewrite N.add_0_r.
      by eapply unused_no_children; [apply Hau|..].
    + rewrite (ss_used _ _ S) in Hu. by erewrite au_children by done.
Qed.
End alloc.

(** *** A node given up *)

Section collect.
Context (gs : list Grant) (ts : list CapTable) (i : N) (n : Grant).
Context (Hau : authority gs ts) (Hi : gs !! i = Some n) (Hused : g_used n = true).
Context (Hheld : held ts i = 0) (Hleaf : children_of gs i = 0).

Definition without_child : list Grant :=
  alter (λ p, p <| g_children ::= λ c, saturating_sub c 1 |>) (g_parent n)
    (<[i := Grant.empty]> gs).

Lemma collect_parent_ne : g_parent n ≠ i.
Proof. by eapply no_children. Qed.

Lemma collect_lookup j n' : without_child !! j = Some n' →
  j = i ∧ n' = Grant.empty ∨
  j ≠ i ∧ ∃ m, gs !! j = Some m ∧ same_shape m n' ∧ g_refs n' = g_refs m ∧
    g_children n' = g_children m - one (bool_decide (g_parent n = j)).
Proof.
  unfold without_child. rewrite table_alter, table_insert. pose proof collect_parent_ne.
  pose proof (table_lookup_lt _ _ _ Hi). destruct (decide (i = j)) as [<-|Hne].
  - rewrite (decide_False (P := g_parent n = i)), decide_True by done. intros [= <-]. by left.
  - rewrite (decide_False (P := i = j ∧ _)) by tauto. intros Hj. right. split; [done|].
    destruct (decide (g_parent n = j)) as [Hp|Hp].
    + apply fmap_Some in Hj as (m & Hm & ->). exists m. rewrite bool_decide_true by done. by split_and!.
    + exists n'. rewrite bool_decide_false by done. split_and!; [done..|by rewrite N.sub_0_r].
Qed.

Lemma collect_lookup_fwd j m : j ≠ i → gs !! j = Some m →
  ∃ n', without_child !! j = Some n' ∧ same_shape m n'.
Proof.
  intros Hne Hj. apply shape_alter_fwd; [by split|]. by rewrite table_insert_ne.
Qed.

Lemma collect_children g :
  children_of without_child g + one (bool_decide (g_parent n = g)) = children_of gs g.
Proof.
  unfold without_child. rewrite children_alter by by split.
  pose proof (children_insert gs i n Grant.empty g Hi) as Hci. unfold child_of in Hci.
  rewrite Hused in Hci. change (one (g_used Grant.empty && _)) with 0 in Hci. cbn [andb] in Hci. lia.
Qed.

Lemma collect_survivor j m : j ≠ i → gs !! j = Some m → g_used m = true → g_parent m ≠ i.
Proof. intros _ Hj Hu. by eapply no_children. Qed.

Lemma collect_tree : grants_wf without_child.
Proof.
  split; [unfold without_child; rewrite tlen_alter, tlen_insert; apply Hau|..]; intros j n' Hj Hu;
    destruct (collect_lookup j n' Hj) as [[-> ->]|(Hne & m & Hm & [Su Sp Sd _ _ _ Sf] & _)]; try done.
  - rewrite Sd. rewrite Su in Hu. by eapply grants_depth; [apply Hau|..].
  - rewrite Sp, Sd, Sf. rewrite Su in Hu. intros Hp.
    destruct (grants_parent gs (au_tree _ _ Hau) j m Hm Hu Hp) as (p & Hpp & Hpu & Hd & Hpf).
    destruct (collect_lookup_fwd _ p (collect_survivor j m Hne Hm Hu) Hpp)
      as (p' & Hp' & [Tu _ Td _ _ _ Tf]).
    exists p'. rewrite Tu, Td, Tf. by split_and!.
Qed.

Lemma collect_narrow j x p : without_child !! j = Some x → g_used x = true → g_parent x ≠ NO_GRANT →
  without_child !! g_parent x = Some p → narrower x p.
Proof.
  intros Hj Hu Hp Hpp. destruct (collect_lookup j x Hj) as [[-> ->]|(Hne & m & Hm & S & _)]; [done|].
  rewrite (ss_used _ _ S) in Hu. rewrite (ss_parent _ _ S) in Hp, Hpp.
  destruct (collect_lookup _ p Hpp) as [[Heq _]|(_ & q & Hq & T & _)].
  - by destruct (collect_survivor j m Hne Hm Hu).
  - eapply narrower_shape; [done..|]. by eapply au_narrow; [apply Hau|..].
Qed.

Lemma held_ne g : held ts g ≠ 0 → g ≠ i.
Proof. by intros ? ->. Qed.

Lemma collect_advance : advances gs ts without_child ts.
Proof.
  split.
  2:{ intros d h. apply barred_grants. intros g m Hg Hm Hu Hf.
      destruct (collect_lookup_fwd g m (held_ne g Hg) Hm) as (n' & Hn' & S).
      exists n'. rewrite (ss_used _ _ S), (ss_fenced _ _ S). done. }
  split; [apply collect_tree|apply collect_narrow| | |apply Hau..| |].
  - intros d t s e Ht He Hl. destruct (au_named _ _ Hau d t s e Ht He Hl) as (m & Hm & Hu & Ho).
    assert (cap_grant e ≠ i) as Hne.
    { apply held_ne. pose proof (held_pos ts d t s e Ht He Hl). lia. }
    destruct (collect_lookup_fwd _ m Hne Hm) as (n' & Hn' & S). exists n'.
    rewrite (ss_used _ _ S), (ss_object _ _ S). done.
  - intros j n' Hj Hu. destruct (collect_lookup j n' Hj) as [[-> ->]|(_ & m & Hm & S & _)]; [done|].
    rewrite (ss_object _ _ S). rewrite (ss_used _ _ S) in Hu. by eapply au_objects; [apply Hau|..].
  - intros j n' Hj Hu. destruct (collect_lookup j n' Hj) as [[-> ->]|(_ & m & Hm & S & -> & _)]; [done|].
    rewrite (ss_used _ _ S) in Hu. by eapply au_refs; [apply Hau|..].
  - intros j n' Hj Hu. destruct (collect_lookup j n' Hj) as [[-> ->]|(_ & m & Hm & S & _ & ->)]; [done|].
    rewrite (ss_used _ _ S) in Hu. erewrite au_children by done.
    pose proof (collect_children j). lia.
Qed.
End collect.

(** *** Entries *)

(** One slot of one table rewritten. *)
Definition with_slot ts d (t : CapTable) s (e : CapEntry) : list CapTable :=
  <[d := t <| slots ::= <[s := e]> |>]> ts.

Lemma with_slot_lookup ts d t s e0 e d' t' s' e' :
  ts !! d = Some t → slots t !! s = Some e0 →
  with_slot ts d t s e !! d' = Some t' → slots t' !! s' = Some e' →
  d' = d ∧ s' = s ∧ e' = e ∨
  (d' ≠ d ∨ s' ≠ s) ∧ ∃ t1, ts !! d' = Some t1 ∧ slots t1 !! s' = Some e'.
Proof.
  intros Ht He0 Ht' He'. unfold with_slot in Ht'. rewrite table_insert in Ht'.
  case_decide as Hd; [|].
  - destruct Hd as [<- _]. injection Ht' as <-. cbn in He'. rewrite table_insert in He'.
    case_decide as Hs; [destruct Hs as [<- _]; injection He' as <-; by left|].
    right. pose proof (table_lookup_lt _ _ _ He0).
    destruct (decide (s' = s)) as [->|]; [|split; [by right|by exists t]].
    destruct Hs. split; [done|]. by eapply table_lookup_lt.
  - right. split; [|by exists t']. left. intros ->. destruct Hd. split; [done|].
    by eapply table_lookup_lt.
Qed.

Lemma with_slot_lookup_ne ts d t s e0 e d' t1 s' e' :
  ts !! d = Some t → slots t !! s = Some e0 →
  ts !! d' = Some t1 → slots t1 !! s' = Some e' → (d' ≠ d ∨ s' ≠ s) →
  ∃ t', with_slot ts d t s e !! d' = Some t' ∧ slots t' !! s' = Some e'.
Proof.
  intros Ht He0 Ht1 He' Hne. unfold with_slot. rewrite table_insert. case_decide as Hd.
  - destruct Hd as [<- _]. replace t1 with t in He' by congruence. eexists. split; [done|].
    cbn. rewrite table_insert_ne; [done|]. intros ->. tauto.
  - by exists t1.
Qed.

Lemma with_slot_eq ts d t s e0 e :
  ts !! d = Some t → slots t !! s = Some e0 →
  ∃ t', with_slot ts d t s e !! d = Some t' ∧ slots t' !! s = Some e.
Proof.
  intros Ht He0. exists (t <| slots ::= <[s := e]> |>). unfold with_slot.
  split; [by apply table_insert_eq; eapply table_lookup_lt|].
  cbn. apply table_insert_eq. by eapply table_lookup_lt.
Qed.

Section entry.
Context (gs : list Grant) (ts : list CapTable) (d : N) (t : CapTable) (s : N) (e0 e : CapEntry).
Context (f : Grant → Grant) (g0 : GrantId).
Context (Hau : authority gs ts) (Ht : ts !! d = Some t) (He0 : slots t !! s = Some e0).
Context (Hwf : entry_wf e) (Hle : entry_le e0 e).
Context (Hnew : cap_live e = true → ∃ n, gs !! cap_grant e = Some n ∧ g_used n = true ∧
  g_object n = cap_object e).
Context (Hf : counters_only f) (Hfc : ∀ n, g_children (f n) = g_children n).
Context (Hrefs : ∀ j n, gs !! j = Some n → g_used n = true →
  held (with_slot ts d t s e) j <= g_refs (if decide (g0 = j) then f n else n)).

Lemma entry_barred d' h : barred gs ts d' h → barred (alter f g0 gs) (with_slot ts d t s e) d' h.
Proof.
  intros (t1 & e1 & Ht1 & He1 & Hb). destruct (decide (d' = d ∧ handle_slot h = s)) as [[-> <-]|Hne].
  - assert (t1 = t) as -> by congruence. assert (e1 = e0) as -> by congruence.
    destruct (with_slot_eq ts d t _ e0 e Ht He0) as (t' & Ht' & He'). exists t', e.
    split_and!; [done..|]. destruct Hle as [Hlt|[Heq Hsame]].
    + left. destruct Hb as [|[? _]]; lia.
    + destruct Hb as [|[Hg Hb]]; [left; lia|]. right. split; [congruence|]. intros Hl.
      apply fenced_alter; [done|]. rewrite <-(Hsame Hl). apply Hb. by rewrite (Hsame Hl).
  - destruct (with_slot_lookup_ne ts d t s e0 e d' t1 _ e1 Ht He0 Ht1 He1) as (t' & Ht' & He').
    { destruct (decide (d' = d)), (decide (handle_slot h = s)); tauto. }
    exists t', e1. split_and!; [done..|]. destruct Hb as [|[Hg Hb]]; [by left|right].
    split; [done|]. intros Hl. apply fenced_alter; auto.
Qed.

Lemma entry_advance : advances gs ts (alter f g0 gs) (with_slot ts d t s e).
Proof.
  split; [|apply entry_barred]. split.
  - apply tree_alter; [done|apply Hau].
  - apply narrow_alter; [done|apply Hau].
  - intros d' t' s' e' Ht' He' Hl.
    assert (∃ n, gs !! cap_grant e' = Some n ∧ g_used n = true ∧ g_object n = cap_object e')
      as (n & Hn & Hu & Ho).
    { destruct (with_slot_lookup _ _ _ _ _ _ _ _ _ _ Ht He0 Ht' He')
        as [(-> & -> & ->)|(_ & t1 & Ht1 & He1)]; [by apply Hnew|]. by eapply au_named; [apply Hau|..]. }
    destruct (shape_alter_fwd f g0 gs _ n Hf Hn) as (n' & Hn' & S). exists n'.
    rewrite (ss_used _ _ S), (ss_object _ _ S). done.
  - intros j n' Hj Hu. destruct (shape_alter f g0 gs j n' Hf Hj) as (n & Hn & S).
    rewrite (ss_object _ _ S). rewrite (ss_used _ _ S) in Hu. by eapply au_objects; [apply Hau|..].
  - intros d' t'. unfold with_slot. rewrite table_insert. case_decide; [|by apply Hau].
    intros [= <-]. apply cap_wf_insert; [by eapply au_tables; [apply Hau|]|done].
  - unfold with_slot. rewrite tlen_insert. apply Hau.
  - intros j n'. rewrite table_alter. case_decide as Hd.
    + intros (n & Hn & ->)%fmap_Some Hu. rewrite (ss_used _ _ (Hf n)) in Hu.
      specialize (Hrefs j n Hn Hu). by rewrite decide_True in Hrefs.
    + intros Hn Hu. specialize (Hrefs j n' Hn Hu). by rewrite decide_False in Hrefs.
  - intros j n'. rewrite children_alter, table_alter by done. case_decide as Hd.
    + intros (n & Hn & ->)%fmap_Some Hu. rewrite (ss_used _ _ (Hf n)) in Hu. rewrite Hfc.
      by eapply au_children; [apply Hau|..].
    + by eapply au_children; [apply Hau|..].
Qed.
End entry.

Lemma alter_id {A} (l : list A) (i : N) : alter (λ x, x) i l = l.
Proof.
  apply table_eq. intros j. rewrite table_alter. case_decide; [|done]. by destruct (l !! j).
Qed.

(** An entry that was not live, and is not, changes no count. *)
Lemma retire_advance gs ts d t s e :
  authority gs ts → ts !! d = Some t → slots t !! s = Some e → cap_live e = false →
  advances gs ts gs (with_slot ts d t s (e <| cap_retired := true |>)).
Proof.
  intros Hau Ht He Hl. pose proof (entry_advance gs ts d t s e (e <| cap_retired := true |>)
    (λ n, n) 0 Hau Ht He) as H. rewrite alter_id in H. apply H.
  - destruct (cap_wf_entries t (au_tables _ _ Hau d t Ht) s e He). split; cbn; [done|]. congruence.
  - right. split; [done|]. cbn. congruence.
  - cbn. congruence.
  - done.
  - done.
  - intros j n Hn Hu. pose proof (held_insert ts d t s e (e <| cap_retired := true |>) j Ht He) as Hh.
    assert (names j e = false) as Hn0 by (unfold names; by rewrite Hl).
    assert (names j (e <| cap_retired := true |>) = false) as Hn1 by (unfold names; cbn; by rewrite Hl).
    rewrite Hn0, Hn1 in Hh. unfold with_slot. pose proof (au_refs _ _ Hau j n Hn Hu).
    unfold one in Hh. rewrite !N.add_0_r in Hh. rewrite Hh. by case_decide.
Qed.

Definition add_ref (n : Grant) : Grant := n <| g_refs ::= λ r, saturating_add 32 r 1 |>.
Definition drop_ref (n : Grant) : Grant := n <| g_refs ::= λ r, saturating_sub r 1 |>.

Lemma held_after ts d t s e e' g :
  ts !! d = Some t → slots t !! s = Some e →
  held (with_slot ts d t s e') g + one (names g e) = held ts g + one (names g e').
Proof. apply held_insert. Qed.

Lemma occupy_advance gs ts d t s e object g n :
  authority gs ts → ts !! d = Some t → slots t !! s = Some e →
  cap_live e = false → cap_retired e = false → cap_generation e ≠ U32_MAX →
  gs !! g = Some n → g_used n = true → g_object n = object →
  advances gs ts (alter add_ref g gs) (with_slot ts d t s (CapTable.occupy object g e)).
Proof.
  intros Hau Ht He Hl Hret Hgen Hg Hu Ho.
  pose proof (au_tables _ _ Hau d t Ht) as Hwf. pose proof (cap_wf_entries t Hwf s e He) as Hewf.
  pose proof (occupy_wf object g e Hewf Hret Hgen) as Howf.
  apply entry_advance with e; try done; [apply occupy_le|by exists n|].
  intros j m Hm Hmu. pose proof (held_after ts d t s e (CapTable.occupy object g e) j Ht He) as Hh.
  assert (held (with_slot ts d t s (CapTable.occupy object g e)) j <= MAX_DOMAINS * MAX_CAPS) as Hb.
  { apply held_bound; unfold with_slot; [|rewrite tlen_insert; apply Hau].
    intros d' t'. rewrite table_insert. case_decide; [|by apply Hau]. intros [= <-].
    by apply cap_wf_insert. }
  pose proof (au_refs _ _ Hau j m Hm Hmu) as Hr.
  assert (names j e = false) as Hn0 by (unfold names; by rewrite Hl).
  assert (names j (CapTable.occupy object g e) = bool_decide (g = j)) as Hn1 by done.
  rewrite Hn0, Hn1 in Hh. unfold one in Hh. destruct (decide (g = j)) as [Hj|Hj].
  - rewrite bool_decide_true in Hh by done.
    change (g_refs (add_ref m)) with (N.min (g_refs m + 1) 4294967295).
    change (MAX_DOMAINS * MAX_CAPS) with 512 in Hb. lia.
  - rewrite bool_decide_false in Hh by done. lia.
Qed.

Lemma vacate_advance gs ts d t s e :
  authority gs ts → ts !! d = Some t → slots t !! s = Some e → cap_live e = true →
  advances gs ts (alter drop_ref (cap_grant e) gs) (with_slot ts d t s (CapTable.vacate e)).
Proof.
  intros Hau Ht He Hl.
  pose proof (cap_wf_entries t (au_tables _ _ Hau d t Ht) s e He) as Hewf.
  apply entry_advance with e; try done; [by apply vacate_wf|apply vacate_le|].
  intros j m Hm Hmu. pose proof (held_after ts d t s e (CapTable.vacate e) j Ht He) as Hh.
  pose proof (au_refs _ _ Hau j m Hm Hmu) as Hr.
  assert (names j e = bool_decide (cap_grant e = j)) as Hn0 by (unfold names; by rewrite Hl).
  assert (names j (CapTable.vacate e) = false) as Hn1 by done.
  rewrite Hn0, Hn1 in Hh. unfold one in Hh. destruct (decide (cap_grant e = j)) as [Hj|Hj].
  - rewrite bool_decide_true in Hh by done. change (g_refs (drop_ref m)) with (g_refs m - 1). lia.
  - rewrite bool_decide_false in Hh by done. lia.
Qed.

(** *** A barrier *)

Lemma fence_advance gs ts gs' root :
  authority gs ts → tlen gs' = tlen gs → grants_wf gs' →
  (∀ i n, gs !! i = Some n → ∃ b, gs' !! i = Some (n <| g_fenced := b |>) ∧
     (b = true ↔ g_fenced n = true ∨ descends gs root i)) →
  advances gs ts gs' ts.
Proof.
  intros Hau Hlen Hwf Hex.
  assert (Hback : ∀ i n', gs' !! i = Some n' → ∃ n b, gs !! i = Some n ∧ n' = n <| g_fenced := b |>).
  { intros i n' Hn'. assert (is_Some (gs !! i)) as [n Hn].
    { apply table_lookup_is_Some. rewrite <-Hlen. by eapply table_lookup_lt. }
    destruct (Hex i n Hn) as (b & Hb & _). exists n, b. split; [done|]. congruence. }
  split.
  2:{ intros d h. apply barred_grants. intros g n _ Hn Hu Hf.
      destruct (Hex g n Hn) as (b & Hb & Hiff). eexists. split_and!; [done..|]. cbn. apply Hiff. by left. }
  split; [done|..|apply Hau|apply Hau| |].
  - intros i n' p' Hi Hu Hp Hpp. destruct (Hback i n' Hi) as (n & b & Hn & ->).
    destruct (Hback _ p' Hpp) as (p & b' & Hpn & ->). cbn in *.
    by destruct (au_narrow _ _ Hau i n p Hn Hu Hp Hpn).
  - intros d t s e Ht He Hl. destruct (au_named _ _ Hau d t s e Ht He Hl) as (n & Hn & Hu & Ho).
    destruct (Hex _ n Hn) as (b & Hb & _). by eexists.
  - intros i n' Hi. destruct (Hback i n' Hi) as (n & b & Hn & ->). by apply (au_objects _ _ Hau i n Hn).
  - intros i n' Hi. destruct (Hback i n' Hi) as (n & b & Hn & ->). by apply (au_refs _ _ Hau i n Hn).
  - intros i n' Hi Hu. destruct (Hback i n' Hi) as (n & b & Hn & ->). cbn in *.
    rewrite (au_children _ _ Hau i n Hn Hu). apply count_pointwise. intros j.
    destruct (gs !! j) as [x|] eqn:Hj.
    + by destruct (Hex j x Hj) as (b' & -> & _).
    + destruct (gs' !! j) as [x'|] eqn:Hj'; [|done]. destruct (Hback j x' Hj') as (? & ? & ? & _). congruence.
Qed.
