(* ===== verification/AuthorityOps.v ===== *)
(** * Authority over the operations

    The operations of [Machine] and [CapOps] on the invariant of [Authority]: each
    keeps it, none panics, and no handle comes back from behind a fence. *)

From S2P Require Import Prelude Abi Obj Scope ScopeProofs Ctrl Frame Objects Machine CapOps.
From S2P Require Import Authority.

#[local] Open Scope N_scope.

(** ** The machine's authority *)

Definition tables (m : Machine) : list CapTable := dom_caps <$> m_domains m.

Definition table_size (m : Machine) (k : ObjKind) : N :=
  match k with
  | Obj.Scope => tlen (scopes (m_scopes m))
  | Obj.Domain => tlen (m_domains m)
  | Obj.Memory => tlen (m_memories m)
  | Obj.Endpoint => N.min (tlen (m_endpoint_ids m)) (tlen (m_endpoints m))
  | Obj.Invocation => tlen (m_invocations m)
  | Obj.Signal => tlen (m_signals m)
  | Obj.Timer => tlen (m_timers m)
  | Obj.ControlLog => tlen (m_logs m)
  | Obj.Device => tlen (m_devices m)
  end.

(** The scopes that bound nodes have a place in the table. *)
Definition lives (gs : list Grant) : Prop :=
  ∀ i n l, gs !! i = Some n → g_used n = true → g_life_scope n = Some l → l < MAX_SCOPES.

Record machine_wf (m : Machine) : Prop := {
  mw_authority : authority (m_grants m) (tables m);
  mw_lives : lives (m_grants m);
  mw_log i : m_system_log m = Some i → i < MAX_CONTROL_LOGS;
  mw_sizes k : table_size m k = object_limit k
}.

(** What an operation may do to the machine as far as authority goes. *)
Record steps_to (m m' : Machine) : Prop := {
  st_advances : advances (m_grants m) (tables m) (m_grants m') (tables m');
  st_lives : lives (m_grants m) → lives (m_grants m');
  st_log : m_system_log m' = m_system_log m;
  st_sizes k : table_size m' k = table_size m k;
  st_owners : dom_owner_scope <$> m_domains m' = dom_owner_scope <$> m_domains m
}.

(** Changes beside authority. *)
Record beside (m m' : Machine) : Prop := {
  be_grants : m_grants m' = m_grants m;
  be_tables : tables m' = tables m;
  be_log : m_system_log m' = m_system_log m;
  be_sizes k : table_size m' k = table_size m k;
  be_owners : dom_owner_scope <$> m_domains m' = dom_owner_scope <$> m_domains m
}.
#[global] Instance beside_preorder : PreOrder beside.
Proof. split; [by split|]. intros m1 m2 m3 [] []. split; congruence. Qed.

Lemma steps_to_wf m m' : machine_wf m → steps_to m m' → machine_wf m'.
Proof.
  intros [_ Hv Hl Hs] [[Ha _] Hv' Hl' Hs' _]. split; [done|auto|by rewrite Hl'|].
  intros k. by rewrite Hs'.
Qed.

Lemma steps_to_trans m1 m2 m3 : steps_to m1 m2 → steps_to m2 m3 → steps_to m1 m3.
Proof.
  intros [A1 V1 L1 S1 O1] [A2 V2 L2 S2 O2].
  split; [by eapply advances_trans|auto|congruence|intros k; congruence|congruence].
Qed.

Lemma beside_steps m m' : machine_wf m → beside m m' → steps_to m m'.
Proof.
  intros [Ha _ _ _] [G T L S O]. split; [|by rewrite G|done..]. rewrite G, T. by apply advances_refl.
Qed.

Lemma lives_alter f i gs : (∀ n, g_used (f n) = g_used n ∧ g_life_scope (f n) = g_life_scope n) →
  lives gs → lives (alter f i gs).
Proof.
  intros Hf Hv j n l. rewrite table_alter. case_decide; [|by apply Hv].
  intros (x & Hx & ->)%fmap_Some Hu Hl. destruct (Hf x) as [Fu Fl]. apply (Hv j x); congruence.
Qed.

Lemma lives_insert gs i n :
  (g_used n = true → ∀ l, g_life_scope n = Some l → l < MAX_SCOPES) → lives gs →
  lives (<[i := n]> gs).
Proof.
  intros Hn Hv j x l. rewrite table_insert. case_decide; [|by apply Hv].
  intros [= <-] Hu Hl. by apply Hn.
Qed.

Lemma tables_lookup m d D : m_domains m !! d = Some D → tables m !! d = Some (dom_caps D).
Proof. intros Hd. unfold tables. by rewrite table_fmap, Hd. Qed.

(** ** The steps of an operation *)

Lemma wp_at_index {A} (table : Machine → list A) i Q E m x :
  table m !! i = Some x → Q x m → wp (at_index table i) Q E m.
Proof. intros Hx HQ. unfold at_index. apply wp_bind, wp_gets, wp_expect. by exists x. Qed.

Lemma wp_run {A} (f : Machine → A * Machine) Q E m :
  Q (f m).1 (f m).2 → wp (run f) Q E m.
Proof. unfold wp, run. by destruct (f m). Qed.

Lemma wp_on_scopes {A} (f : Scopes → A * Scopes) Q E m :
  Q (f (m_scopes m)).1 (m <| m_scopes := (f (m_scopes m)).2 |>) → wp (on_scopes f) Q E m.
Proof. unfold wp, on_scopes, zoom. by destruct (f (m_scopes m)). Qed.

Lemma wp_release_metadata owner Q E m :
  Q () (m <| m_scopes ::= Scope.release owner Metadata 1 |>) → wp (release_metadata owner) Q E m.
Proof. done. Qed.

Lemma tlen_charge_chain charge nodes : ∀ tbl, tlen (charge_chain charge nodes tbl).2 = tlen tbl.
Proof.
  induction nodes as [|i nodes IH]; intros tbl; [done|]. cbn [charge_chain].
  destruct (tbl !! i) as [node|]; [|done]. destruct (charge node) as [refused node'].
  destruct refused; [by rewrite <-(tlen_insert i node' tbl)|].
  specialize (IH (<[i := node']> tbl)). destruct (charge_chain charge nodes _) as [[? ?] ?].
  cbn in *. by rewrite IH, tlen_insert.
Qed.

Lemma tlen_reserve scope r amount t :
  tlen (scopes (Scope.reserve scope r amount t).2) = tlen (scopes t).
Proof.
  unfold Scope.reserve.
  pose proof (tlen_charge_chain (reserve_level r amount) (chain_of (scopes t) scope) (scopes t)) as H.
  destruct (charge_chain _ _ _) as [[done refused] tbl]. cbn in H.
  destruct refused; cbn; [|done]. by rewrite tlen_for_nodes.
Qed.

Lemma beside_scopes m f :
  tlen (scopes (f (m_scopes m))) = tlen (scopes (m_scopes m)) → beside m (m <| m_scopes ::= f |>).
Proof. intros Hlen. split; [done|done|done| |done]. by intros []. Qed.

Lemma beside_reserve m owner r :
  beside m (m <| m_scopes := (Scope.reserve owner r 1 (m_scopes m)).2 |>).
Proof. apply (beside_scopes m (λ t, (Scope.reserve owner r 1 t).2)), tlen_reserve. Qed.

(** The accounts a reservation of one unit and its release rely on. *)
Definition funded (t : Scopes) (s : ScopeId) : Prop := accounts_wf t ∧ live_scope (scopes t) s.

Lemma reserve_refused t s r :
  funded t s → (Scope.reserve s r 1 t).1 = false → (Scope.reserve s r 1 t).2 = t.
Proof. intros [Hwf Hl]. rewrite reserve_spec by (done || by vm_compute). by case_match. Qed.

Lemma reserve_undone t s r :
  funded t s → (Scope.reserve s r 1 t).1 = true →
  Scope.release s r 1 (Scope.reserve s r 1 t).2 = t.
Proof.
  intros [Hwf Hl]. rewrite reserve_spec by (done || by vm_compute). case_match; [|done].
  intros _. by apply release_reserve.
Qed.

Lemma reserve_funded t s r s' : funded t s → funded t s' → funded (Scope.reserve s r 1 t).2 s'.
Proof.
  intros [Hwf Hl] [_ Hl']. pose proof (reserve_le s r 1 t Hwf Hl ltac:(by vm_compute)) as Hle.
  assert (scopes_le state_le (scopes t) (scopes (Scope.reserve s r 1 t).2)) as Hle'.
  { by apply scopes_le_forward. }
  split; [split; [by eapply scopes_le_wf; [|apply Hwf]|]|].
  - intros i n' Hn'. destruct (scopes_le_back _ _ _ _ _ Hle' Hn') as (n & Hn & Hnn).
    by eapply (le_counters Hnn), Hwf.
  - destruct Hl' as (n & Hn & Hs). destruct Hle as [_ Hle]. destruct (Hle s' n Hn) as (n' & Hn' & Hnn).
    exists n'. split; [done|]. by rewrite <-(le_state Hnn).
Qed.

Lemma beside_release m owner r n : beside m (m <| m_scopes ::= Scope.release owner r n |>).
Proof. apply beside_scopes. cbn. apply tlen_for_nodes. Qed.

Lemma fmap_alter_same {A B} (h : A → B) (f : A → A) (l : list A) (i : N) :
  (∀ x, h (f x) = h x) → h <$> alter f i l = h <$> l.
Proof.
  intros Hf. apply table_eq. intros j. rewrite !table_fmap, table_alter. case_decide; [|done].
  destruct (l !! j); cbn; [by rewrite Hf|done].
Qed.

Lemma wp_adjust o delta Q E m :
  machine_wf m → obj_index o < object_limit (obj_kind o) →
  (∀ m', beside m m' → Q () m') → wp (adjust_object_refs o delta) Q E m.
Proof.
  intros [_ _ _ Hs] Hi HQ. specialize (Hs (obj_kind o)). rewrite <-Hs in Hi. clear Hs.
  unfold adjust_object_refs. destruct (obj_kind o);
    try (apply N.min_glb_lt_iff in Hi as [Hi _]);
    apply table_lookup_is_Some in Hi as [x Hx]; apply wp_bind; (eapply wp_at_index; [exact Hx|]);
    apply wp_modify, HQ; split; try done; try (by intros []);
    try (intros []; cbn -[alter]; by rewrite ?tlen_alter).
  all: by apply (fmap_alter_same _ (λ d, d <| dom_refs ::= apply_atomic delta |>)).
Qed.

Lemma wp_collect_invocation i Q E m :
  (∀ m', beside m m' → Q () m') → wp (collect_invocation i) Q E m.
Proof.
  intros HQ. unfold collect_invocation. apply wp_bind, wp_gets.
  destruct (m_invocations m !! i) as [inv|]; [|by apply wp_ret, HQ].
  destruct (negb _ || _); [by apply wp_ret, HQ|]. apply wp_modify, HQ. split; try done.
  intros []; try done. cbn -[alter]. by rewrite tlen_alter.
Qed.

Lemma beside_defer i m : beside m (defer_memory i m).
Proof. unfold defer_memory. by case_decide. Qed.

(** ** Collection *)

Lemma wp_collect_from steps : ∀ g Q E m,
  machine_wf m → (g ≠ NO_GRANT → is_Some (m_grants m !! g)) →
  (∀ m', steps_to m m' → Q () m') → wp (collect_from steps g) Q E m.
Proof.
  induction steps as [|steps IH]; intros g Q E m Hwf Hg HQ.
  { apply wp_ret, HQ. by apply beside_steps. }
  cbn [collect_from]. case_decide as Hno; [by apply wp_ret, HQ, beside_steps|].
  destruct (Hg Hno) as [n Hn]. apply wp_bind. eapply wp_at_index; [exact Hn|].
  destruct (negb (g_used n) || _ || _) eqn:Hc; [by apply wp_ret, HQ, beside_steps|].
  apply orb_false_iff in Hc as [[Hu%negb_false_iff Hr%bool_decide_eq_false]%orb_false_iff
    Hch%bool_decide_eq_false].
  pose proof (mw_authority _ Hwf) as Hau. pose proof (au_refs _ _ Hau g n Hn Hu) as Hrefs.
  pose proof (au_children _ _ Hau g n Hn Hu) as Hchild.
  pose proof (collect_advance (m_grants m) (tables m) g n Hau Hn Hu ltac:(lia) ltac:(lia)) as Hadv.
  pose proof (collect_parent_ne (m_grants m) g n Hn Hu ltac:(lia)) as Hne.
  apply wp_bind, wp_modify, wp_bind.
  assert (Hfin : ∀ m', m_grants m' = without_child (m_grants m) g n → tables m' = tables m →
    m_system_log m' = m_system_log m →
    (∀ k, table_size m' k = table_size m k) →
    dom_owner_scope <$> m_domains m' = dom_owner_scope <$> m_domains m →
    wp (release_metadata (g_sponsor n);; collect_from steps (g_parent n)) Q E m').
  { intros m' Hg' Ht' Hl' Hs' Ho'. assert (steps_to m m') as Hst.
    { split; [by rewrite Hg', Ht'| |done..]. rewrite Hg'. intros Hv.
      by apply lives_alter, lives_insert. }
    pose proof (steps_to_wf m m' Hwf Hst) as Hwf'.
    apply wp_bind, wp_release_metadata.
    pose proof (beside_release m' (g_sponsor n) Metadata 1) as Hb.
    apply IH; [by eapply steps_to_wf, beside_steps| |].
    - intros Hp. rewrite (be_grants _ _ Hb), Hg'.
      destruct (grants_parent _ (au_tree _ _ Hau) g n Hn Hu Hp) as (p & Hpp & _).
      destruct (collect_lookup_fwd (m_grants m) g n _ p Hne Hpp) as (p' & Hp' & _). by exists p'.
    - intros m2 Hm2. apply HQ. eapply steps_to_trans; [done|].
      eapply steps_to_trans; [|done]. by apply beside_steps. }
  case_decide as Hp; [apply wp_ret|].
  - apply Hfin; try done. unfold without_child. rewrite table_alter_none; [done|].
    apply table_lookup_ge. rewrite tlen_insert, Hp, (grants_len _ (au_tree _ _ Hau)). done.
  - destruct (grants_parent _ (au_tree _ _ Hau) g n Hn Hu Hp) as (p & Hpp & _).
    apply wp_bind. eapply wp_at_index; [cbn; rewrite table_insert_ne by done; exact Hpp|].
    by apply wp_modify, Hfin.
Qed.

(** ** Releasing an entry *)

(** The machine with one table replaced, and how that looks from outside. *)
Definition with_table (d : N) (caps : CapTable) (m : Machine) : Machine :=
  m <| m_domains ::= alter (λ D, D <| dom_caps := caps |>) d |>.

Lemma tables_with_table m d D caps :
  m_domains m !! d = Some D → tables (with_table d caps m) = <[d := caps]> (tables m).
Proof.
  intros Hd. apply table_eq. intros j. unfold tables, with_table. cbn.
  rewrite table_fmap, table_alter, table_insert, table_fmap.
  pose proof (table_lookup_lt _ _ _ Hd) as Hlt.
  destruct (decide (d = j)) as [<-|Hne]; [|by rewrite decide_False by tauto].
  rewrite decide_True; [by rewrite Hd|]. split; [done|]. unfold tlen in *. by rewrite length_fmap.
Qed.

Lemma sizes_with_table m d caps k : table_size (with_table d caps m) k = table_size m k.
Proof. destruct k; try done. unfold with_table. cbn -[alter]. by rewrite tlen_alter. Qed.

Lemma owners_with_table m d caps :
  dom_owner_scope <$> m_domains (with_table d caps m) = dom_owner_scope <$> m_domains m.
Proof. by apply fmap_alter_same. Qed.

Lemma wp_release_entry d D s e Q E m :
  machine_wf m → m_domains m !! d = Some D → slots (dom_caps D) !! s = Some e → cap_live e = true →
  (∀ m', steps_to m m' → Q () m') →
  wp (release_entry d e) Q E
    (with_table d ((dom_caps D) <| slots ::= <[s := CapTable.vacate e]> |>) m).
Proof.
  intros Hwf Hd He Hl HQ. pose proof (mw_authority _ Hwf) as Hau.
  pose proof (tables_lookup m d D Hd) as Ht.
  destruct (au_named _ _ Hau d _ s e Ht He Hl) as (n & Hn & Hu & Ho).
  pose proof (au_objects _ _ Hau _ n Hn Hu) as Hobj. rewrite Ho in Hobj.
  pose proof (vacate_advance _ _ d _ s e Hau Ht He Hl) as Hadv.
  pose proof (index_not_none _ _ n (au_tree _ _ Hau) Hn) as Hne.
  unfold release_entry. apply wp_bind. eapply wp_at_index.
  { cbn. rewrite table_alter_eq, Hd. done. }
  apply wp_bind, wp_release_metadata, wp_bind. rewrite decide_False by done.
  apply wp_bind. eapply wp_at_index; [exact Hn|]. apply wp_modify.
  set (m1 := _ <| m_grants ::= _ |>).
  assert (Hst : steps_to m m1).
  { split.
    - change (m_grants m1) with (alter drop_ref (cap_grant e) (m_grants m)).
      change (tables m1) with (tables (with_table d ((dom_caps D) <| slots ::= <[s := CapTable.vacate e]> |>) m)).
      by rewrite (tables_with_table m d D).
    - by apply lives_alter.
    - done.
    - intros k. etrans; [|apply sizes_with_table].
      pose proof (beside_release (with_table d ((dom_caps D) <| slots ::= <[s := CapTable.vacate e]> |>) m)
        (dom_owner_scope (D <| dom_caps := (dom_caps D) <| slots ::= <[s := CapTable.vacate e]> |> |>)) Metadata 1) as Hb.
      rewrite <-(be_sizes _ _ Hb k). by destruct k.
    - apply owners_with_table. }
  clearbody m1. pose proof (steps_to_wf m m1 Hwf Hst) as Hwf1.
  apply wp_bind, wp_adjust; [done..|]. intros m2 Hb2. apply wp_bind.
  assert (Hfin : ∀ m', beside m1 m' →
    wp (memories ← gets m_memories;
      (if bool_decide (obj_kind (cap_object e) = Obj.Memory) &&
          from_option (λ o, bool_decide (mo_generation o = obj_generation (cap_object e))) false
            (memories !! obj_index (cap_object e))
       then modify (defer_memory (obj_index (cap_object e))) else mret ());;
      collect_grant (cap_grant e)) Q E m').
  { intros m3 Hb3. apply wp_bind, wp_gets, wp_bind.
    assert (Hlast : ∀ m', beside m1 m' → wp (collect_grant (cap_grant e)) Q E m').
    { intros m4 Hb4. pose proof (beside_steps m1 m4 Hwf1 Hb4) as Hst4.
      pose proof (steps_to_wf m1 m4 Hwf1 Hst4) as Hwf4. apply wp_collect_from; [done| |].
      - intros _. apply table_lookup_is_Some.
        rewrite (grants_len _ (au_tree _ _ (mw_authority _ Hwf4))),
          <-(grants_len _ (au_tree _ _ Hau)). by eapply table_lookup_lt.
      - intros m5 Hst5. apply HQ. eapply steps_to_trans; [exact Hst|].
        by eapply steps_to_trans. }
    destruct (bool_decide _ && _); [apply wp_modify|apply wp_ret]; apply Hlast; [|done].
    etrans; [done|apply beside_defer]. }
  destruct (decide (obj_kind (cap_object e) = Obj.Invocation)).
  - apply wp_collect_invocation. intros m3 Hb3. apply Hfin. by etrans.
  - by apply wp_ret, Hfin.
Qed.

(** A table operation that vacates one live slot, or does nothing. *)
Definition vacates (f : CapTable → option CapEntry * CapTable) : Prop :=
  ∀ t, match f t with
       | (None, t') => t' = t
       | (Some e, t') => ∃ s, slots t !! s = Some e ∧ cap_live e = true ∧
           t' = t <| slots ::= <[s := CapTable.vacate e]> |>
       end.

Lemma release_slot_vacates s : vacates (CapTable.release_slot s).
Proof.
  intros t. unfold CapTable.release_slot. destruct (slots t !! s) as [e|] eqn:He; [|done].
  destruct (cap_live e) eqn:Hl; cbn; [|done]. by exists s.
Qed.

Lemma release_vacates h : vacates (CapTable.release h).
Proof.
  intros t. unfold CapTable.release. destruct (slots t !! _) as [e|] eqn:He; [|done].
  destruct (cap_live e) eqn:Hl; cbn; [|done]. case_bool_decide; [done|]. by eexists.
Qed.

Lemma wp_release_with d f Q E m :
  machine_wf m → is_Some (m_domains m !! d) → vacates f →
  (∀ b m', steps_to m m' → Q b m') → wp (release_with d f) Q E m.
Proof.
  intros Hwf [D Hd] Hf HQ. unfold release_with. apply wp_bind. eapply wp_at_index; [exact Hd|].
  specialize (Hf (dom_caps D)). destruct (f (dom_caps D)) as [[e|] caps].
  2:{ apply wp_ret, HQ. by apply beside_steps. }
  destruct Hf as (s & He & Hl & ->). apply wp_bind, wp_modify, wp_bind.
  eapply wp_release_entry; [done..|]. intros m' Hst. by apply wp_ret, HQ.
Qed.

(** ** Installing an entry *)

(** What an installation did to a table: nothing, a slot withdrawn, or a free slot
    occupied. *)
Definition installs (t : CapTable) (object : ObjRef) (g : GrantId) (r : option N * CapTable) :
    Prop :=
  match r with
  | (None, t') => t' = t ∨ ∃ s e, slots t !! s = Some e ∧ cap_live e = false ∧
      t' = t <| slots ::= <[s := e <| cap_retired := true |>]> |>
  | (Some h, t') => ∃ s e, slots t !! s = Some e ∧ cap_live e = false ∧ cap_retired e = false ∧
      cap_generation e ≠ U32_MAX ∧ h = handle s (cap_generation e + 1) ∧
      t' = t <| slots ::= <[s := CapTable.occupy object g e]> |>
  end.

Lemma install_at_installs s object g t : installs t object g (CapTable.install_at s object g t).
Proof.
  unfold CapTable.install_at. destruct (slots t !! s) as [e|] eqn:He; [|by left].
  destruct (cap_live e) eqn:Hl, (cap_retired e) eqn:Hr; cbn [orb]; try by left.
  case_decide; cbn; [right|]; by exists s, e.
Qed.

Lemma install_installs object g t :
  installs t object g (let '(r, t') := CapTable.install object g t in (snd <$> r, t')).
Proof.
  unfold CapTable.install.
  destruct (install_cases (indices (slots t)) object g t) as [_ ->|s e _ _ _ ->].
  - intros i. by rewrite indices_lookup.
  - by left.
  - pose proof (install_at_installs s object g t) as H.
    by destruct (CapTable.install_at s object g t) as [[h|] t'].
Qed.

(** Every handle names what it named. *)
Definition same_handles (ts ts' : list CapTable) : Prop :=
  ∀ d t, ts !! d = Some t → ∃ t', ts' !! d = Some t' ∧
    ∀ h, CapTable.lookup t' h = CapTable.lookup t h.
#[global] Instance same_handles_preorder : PreOrder same_handles.
Proof.
  split; [by intros ts d t Ht; exists t|]. intros ts1 ts2 ts3 H1 H2 d t Ht.
  destruct (H1 d t Ht) as (t2 & Ht2 & E2). destruct (H2 d t2 Ht2) as (t3 & Ht3 & E3).
  exists t3. split; [done|]. intros h. by rewrite E3.
Qed.

Lemma same_handles_retire ts d t s e :
  ts !! d = Some t → slots t !! s = Some e → cap_live e = false →
  same_handles ts (with_slot ts d t s (e <| cap_retired := true |>)).
Proof.
  intros Ht He Hl d' t' Ht'. unfold with_slot. rewrite table_insert. case_decide as Hd.
  2:{ by exists t'. }
  destruct Hd as [<- _]. assert (t' = t) as -> by congruence. eexists. split; [done|].
  intros h. by apply lookup_insert_dead with e.
Qed.

(** The end of an installation. *)
Definition installed (m : Machine) (d : N) (object : ObjRef) (g : GrantId) (r : option N)
    (m' : Machine) : Prop :=
  steps_to m m' ∧
  match r with
  | Some h => ∃ t s e, tables m !! d = Some t ∧ slots t !! s = Some e ∧ cap_live e = false ∧
      cap_generation e ≠ U32_MAX ∧ h = handle s (cap_generation e + 1) ∧
      tables m' = with_slot (tables m) d t s (CapTable.occupy object g e) ∧
      m_grants m' = alter add_ref g (m_grants m)
  | None => m_grants m' = m_grants m ∧ same_handles (tables m) (tables m') ∧
      (∀ D, m_domains m !! d = Some D → funded (m_scopes m) (dom_owner_scope D) →
        m_scopes m' = m_scopes m)
  end.

Lemma wp_cap_install d D object g n slot Q E m :
  machine_wf m → m_domains m !! d = Some D →
  m_grants m !! g = Some n → g_used n = true → g_object n = object →
  (∀ r m', installed m d object g r m' → Q r m') → wp (cap_install d object g slot) Q E m.
Proof.
  intros Hwf Hd Hg Hu Ho HQ. pose proof (mw_authority _ Hwf) as Hau. pose proof (tables_lookup m d D Hd) as Ht.
  pose proof (index_not_none _ _ n (au_tree _ _ Hau) Hg) as Hne.
  unfold cap_install. apply wp_bind. eapply wp_at_index; [exact Hd|].
  apply wp_bind, wp_on_scopes. set (m1 := m <| m_scopes := _ |>).
  assert (Hb1 : beside m m1) by apply beside_reserve.
  assert (Hs1 : m_scopes m1 = (Scope.reserve (dom_owner_scope D) Metadata 1 (m_scopes m)).2) by done.
  clearbody m1. destruct (Scope.reserve _ _ _ _).1 eqn:Hok; cbn [negb].
  2:{ apply wp_ret, HQ. split; [by apply beside_steps|split; [apply Hb1|split]].
      - by rewrite (be_tables _ _ Hb1).
      - intros D' HD' Hf. assert (D' = D) as -> by congruence. rewrite Hs1. by apply reserve_refused. }
  set (r := match slot with Some _ => _ | None => _ end).
  assert (Hr : installs (dom_caps D) object g r).
  { unfold r. destruct slot; [apply install_at_installs|apply install_installs]. }
  clearbody r. destruct r as [h caps]. apply wp_bind, wp_modify. fold (with_table d caps m1).
  assert (Hd1 : dom_caps <$> m_domains m1 !! d = Some (dom_caps D)).
  { rewrite <-table_fmap. change (tables m1 !! d = Some (dom_caps D)). by rewrite (be_tables _ _ Hb1). }
  apply fmap_Some in Hd1 as (D1 & Hd1 & _).
  assert (Htab : tables (with_table d caps m1) = <[d := caps]> (tables m)).
  { by rewrite (tables_with_table m1 d D1 caps Hd1), (be_tables _ _ Hb1). }
  assert (Hsizes : ∀ k, table_size (with_table d caps m1) k = table_size m k).
  { intros k. by rewrite sizes_with_table, (be_sizes _ _ Hb1). }
  assert (Howners : dom_owner_scope <$> m_domains (with_table d caps m1) =
    dom_owner_scope <$> m_domains m).
  { by rewrite owners_with_table, (be_owners _ _ Hb1). }
  destruct h as [h|].
  - destruct Hr as (s & e & He & Hl & Hret & Hgen & -> & ->).
    rewrite decide_False by done. apply wp_bind, wp_bind. eapply wp_at_index.
    { cbn. rewrite (be_grants _ _ Hb1). exact Hg. }
    apply wp_modify, wp_bind. set (m2 := _ <| m_grants ::= _ |>).
    assert (Hgr : m_grants m2 = alter add_ref g (m_grants m)).
    { change (m_grants m2) with (alter add_ref g (m_grants m1)). by rewrite (be_grants _ _ Hb1). }
    assert (Hst : steps_to m m2).
    { split; [|rewrite Hgr; by apply lives_alter|apply Hb1|exact Hsizes|exact Howners].
      rewrite Hgr. change (tables m2) with
        (tables (with_table d ((dom_caps D) <| slots ::= <[s := CapTable.occupy object g e]> |>) m1)).
      rewrite Htab. by apply occupy_advance with n. }
    pose proof (au_objects _ _ Hau g n Hg Hu) as Hobj. rewrite Ho in Hobj.
    apply wp_adjust; [by eapply steps_to_wf|done|]. intros m3 Hb3. apply wp_ret, HQ. split.
    { eapply steps_to_trans; [exact Hst|]. apply beside_steps; [by eapply steps_to_wf|done]. }
    exists (dom_caps D), s, e. rewrite (be_tables _ _ Hb3), (be_grants _ _ Hb3). split_and!; done.
  - apply wp_bind, wp_release_metadata, wp_ret, HQ.
    pose proof (beside_release (with_table d caps m1) (dom_owner_scope D) Metadata 1) as Hb2.
    set (m2 := (with_table d caps m1) <| m_scopes ::= _ |>) in *.
    assert (Hg2 : m_grants m2 = m_grants m).
    { rewrite (be_grants _ _ Hb2). apply (be_grants _ _ Hb1). }
    assert (Hsc2 : funded (m_scopes m) (dom_owner_scope D) → m_scopes m2 = m_scopes m).
    { intros Hf. change (m_scopes m2) with (Scope.release (dom_owner_scope D) Metadata 1 (m_scopes m1)).
      rewrite Hs1. by apply reserve_undone. }
    assert (Ht2 : tables m2 = <[d := caps]> (tables m)) by by rewrite (be_tables _ _ Hb2).
    split; [|split; [done|split; [|by intros D' ?; assert (D' = D) as -> by congruence]]].
    2:{ rewrite Ht2. destruct Hr as [->|(s & e & He & Hl & ->)]; [by rewrite table_insert_id|].
        by apply same_handles_retire. }
    split; [|by rewrite Hg2|etrans; [apply Hb2|apply Hb1]|..].
    + rewrite Hg2, Ht2. destruct Hr as [->|(s & e & He & Hl & ->)].
      * rewrite table_insert_id by done. by apply advances_refl.
      * by apply retire_advance.
    + intros k. by rewrite (be_sizes _ _ Hb2).
    + by rewrite (be_owners _ _ Hb2).
Qed.

(** ** Allocating a node *)

Lemma find_free_spec index k i :
  find_free index k = Some i → ∃ n, k !! i = Some n ∧ g_used n = false.
Proof.
  induction index as [|j index IH]; [done|]. cbn [find_free].
  destruct (k !! j) as [n|] eqn:Hj; [|done]. destruct (g_used n) eqn:Hu; [done|].
  intros [= <-]. by exists n.
Qed.

(** The node an allocation writes. *)
Definition new_node (id depth sponsor parent : N) (object : ObjRef) (rights deadline : N)
    (life : option ScopeId) (facet : N) : Grant :=
  mkGrant true id parent depth rights deadline life facet object false 0 0 sponsor.

(** May a node with these facts hang under [parent]. *)
Definition attenuates (m : Machine) (parent : GrantId) (object : ObjRef) (rights deadline : N) :
    Prop :=
  parent ≠ NO_GRANT → ∃ p, m_grants m !! parent = Some p ∧ g_used p = true ∧ g_fenced p = false ∧
    andnot rights (g_rights p) = 0 ∧
    (g_deadline_ns p ≠ 0 → deadline ≠ 0 ∧ deadline <= g_deadline_ns p) ∧ object = g_object p.

Definition allocated_node (m : Machine) (sponsor : ScopeId) (parent : GrantId) (object : ObjRef)
    (rights deadline : N) (life : option ScopeId) (facet : N) (r : option GrantId) (m' : Machine) :
    Prop :=
  steps_to m m' ∧ tables m' = tables m ∧
  match r with
  | Some i => ∃ n0 id depth, m_grants m !! i = Some n0 ∧ g_used n0 = false ∧ i ≠ parent ∧
      m_grants m' = with_child (m_grants m) i
        (new_node id depth sponsor parent object rights deadline life facet) ∧
      (Scope.reserve sponsor Metadata 1 (m_scopes m)).1 = true ∧
      m_scopes m' = (Scope.reserve sponsor Metadata 1 (m_scopes m)).2
  | None => m_grants m' = m_grants m ∧
      (funded (m_scopes m) sponsor → m_scopes m' = m_scopes m)
  end.

Lemma children_bound gs ts i n :
  authority gs ts → gs !! i = Some n → g_used n = true → g_children n <= MAX_GRANTS.
Proof.
  intros Hau Hi Hu. rewrite (au_children _ _ Hau i n Hi Hu), <-(grants_len _ (au_tree _ _ Hau)).
  apply tlen_filter.
Qed.

Lemma with_child_as_alter gs i n p :
  g_parent n ≠ i → gs !! g_parent n = Some p →
  alter (λ x, x <| g_children := g_children p + 1 |>) (g_parent n) (<[i := n]> gs) =
  with_child gs i n.
Proof.
  intros Hne Hp. unfold with_child.
  assert (<[i := n]> gs !! g_parent n = Some p) as Hl by by rewrite table_insert_ne.
  by rewrite !(table_alter_as_insert _ _ _ p Hl).
Qed.

Lemma wp_grant_alloc sponsor parent object rights deadline life facet Q E m :
  machine_wf m → obj_index object < object_limit (obj_kind object) →
  (∀ l, life = Some l → l < MAX_SCOPES) →
  attenuates m parent object rights deadline →
  (∀ r m', allocated_node m sponsor parent object rights deadline life facet r m' → Q r m') →
  wp (grant_alloc sponsor parent object rights deadline life facet) Q E m.
Proof.
  intros Hwf Hobj Hlife Hatt HQ. pose proof (mw_authority _ Hwf) as Hau.
  set (depth := match m_grants m !! parent with Some p => g_depth p + 1 | None => 0 end).
  unfold grant_alloc. apply wp_bind.
  assert (Hdepth : wp (if decide (parent = NO_GRANT) then mret 0
    else node ← at_index m_grants parent; expect (checked_add 16 (g_depth node) 1))
    (λ x m', x = depth ∧ m' = m) E m).
  { unfold depth. case_decide as Hp.
    - apply wp_ret. split; [|done]. subst parent. rewrite table_lookup_ge; [done|].
      by rewrite (grants_len _ (au_tree _ _ Hau)).
    - destruct (Hatt Hp) as (p & Hpp & Hu & _). apply wp_bind. eapply wp_at_index; [exact Hpp|].
      pose proof (grants_depth _ (au_tree _ _ Hau) parent p Hpp Hu) as Hd.
      change limit.MAX_DERIVE_DEPTH with 32 in Hd. apply wp_expect. exists (g_depth p + 1).
      unfold checked_add. rewrite decide_True by (change (2 ^ 16) with 65536; lia). by rewrite Hpp. }
  eapply wp_mono; [exact Hdepth| |done]. intros ? ? [-> ->]. clear Hdepth.
  case_decide as Hdeep; [apply wp_ret, HQ; split; [by apply beside_steps|done]|].
  apply wp_bind, wp_on_scopes. set (m1 := m <| m_scopes := _ |>).
  assert (Hb1 : beside m m1) by apply beside_reserve.
  assert (Hs1 : m_scopes m1 = (Scope.reserve sponsor Metadata 1 (m_scopes m)).2) by done.
  clearbody m1.
  assert (Hnone : ∀ m', beside m m' → (funded (m_scopes m) sponsor → m_scopes m' = m_scopes m) →
    Q None m').
  { intros m' Hb Hf. apply HQ. split; [by apply beside_steps|]. split; [apply Hb|].
    split; [apply Hb|done]. }
  destruct (Scope.reserve _ _ _ _).1 eqn:Hok; cbn [negb].
  2:{ apply wp_ret, Hnone; [done|]. intros Hf. rewrite Hs1. by apply reserve_refused. }
  assert (Hundo : ∀ m', m_scopes m' = m_scopes m1 → funded (m_scopes m) sponsor →
    Scope.release sponsor Metadata 1 (m_scopes m') = m_scopes m).
  { intros m' -> Hf. rewrite Hs1. by apply reserve_undone. }
  apply wp_bind, wp_run. unfold next_id.
  case_decide as Hid; cbn [fst snd].
  { apply wp_bind, wp_release_metadata, wp_ret, Hnone; [|by apply Hundo].
    etrans; [exact Hb1|apply beside_release]. }
  set (m2 := m1 <| m_next_object_id := _ |>).
  assert (Hb2 : beside m m2) by (etrans; [exact Hb1|by split; [..|intros []|]]).
  assert (Hs2 : m_scopes m2 = m_scopes m1) by done. clearbody m2.
  set (node := mkGrant _ _ _ _ _ _ _ _ _ _ _ _ _).
  apply wp_bind, wp_gets, wp_bind, wp_gets. rewrite (be_grants _ _ Hb2).
  destruct (find_free _ _) as [i|] eqn:Hfind.
  2:{ apply wp_bind, wp_release_metadata, wp_ret, Hnone; [|by apply Hundo].
      etrans; [exact Hb2|apply beside_release]. }
  apply find_free_spec in Hfind as (n0 & Hi & Hfree). apply wp_bind, wp_modify.
  assert (Hpar : g_parent node ≠ NO_GRANT → ∃ p, m_grants m !! g_parent node = Some p ∧
    g_used p = true ∧ g_fenced p = false ∧ g_depth node = g_depth p + 1 ∧ narrower node p).
  { intros Hp. destruct (Hatt Hp) as (p & Hpp & Hu & Hf & Hr & Hd & Ho). cbn in Hpp.
    exists p. split_and!; [done..| |by split]. cbn. unfold depth. by rewrite Hpp. }
  assert (Hadv : advances (m_grants m) (tables m) (with_child (m_grants m) i node) (tables m)).
  { apply alloc_advance with n0; try done. cbn. lia. }
  assert (g_parent node ≠ i) as Hne by by eapply alloc_parent_ne.
  assert (Hfin : ∀ m', m_grants m' = with_child (m_grants m) i node →
    tables m' = tables m2 → m_system_log m' = m_system_log m2 → (∀ k, table_size m' k = table_size m2 k) →
    dom_owner_scope <$> m_domains m' = dom_owner_scope <$> m_domains m2 →
    m_scopes m' = m_scopes m2 → Q (Some i) m').
  { intros m' Hg' Ht' Hl' Hs' Ho' Hsc'. apply HQ. split; [|split].
    - split; [by rewrite Hg', Ht', (be_tables _ _ Hb2)| |by rewrite Hl', (be_log _ _ Hb2)| |
        by rewrite Ho', (be_owners _ _ Hb2)].
      { rewrite Hg'. intros Hv. apply lives_alter; [done|]. by apply lives_insert. }
      intros k. by rewrite Hs', (be_sizes _ _ Hb2).
    - by rewrite Ht', (be_tables _ _ Hb2).
    - exists n0, (m_next_object_id m1), depth. split_and!; try done. by rewrite Hsc', Hs2. }
  apply wp_bind. case_decide as Hp.
  - apply wp_ret, wp_ret, Hfin; try done. cbn. rewrite (be_grants _ _ Hb2).
    unfold with_child. rewrite table_alter_none; [done|].
    apply table_lookup_ge. rewrite tlen_insert, (grants_len _ (au_tree _ _ Hau)). by rewrite Hp.
  - destruct (Hatt Hp) as (p & Hpp & Hu & _). cbn in Hne.
    apply wp_bind. eapply wp_at_index.
    { cbn. rewrite (be_grants _ _ Hb2), table_insert_ne by done. exact Hpp. }
    pose proof (children_bound _ _ parent p Hau Hpp Hu) as Hcb. unfold MAX_GRANTS in Hcb.
    apply wp_bind, wp_expect. exists (g_children p + 1).
    split; [unfold checked_add; by rewrite decide_True by (change (2 ^ 32) with 4294967296; lia)|].
    apply wp_modify, wp_ret, Hfin; try done. cbn. rewrite (be_grants _ _ Hb2).
    by apply (with_child_as_alter _ i node p).
Qed.

(** ** Resolution *)

(** The lineage of [g] permits use at [now]: no barrier, no passed deadline and no
    closed scope from the node to its root. *)
Inductive live_lineage (m : Machine) (now : N) : GrantId → Prop :=
| live_top : live_lineage m now NO_GRANT
| live_node g n :
    m_grants m !! g = Some n → g_used n = true → g_fenced n = false →
    (g_deadline_ns n = 0 ∨ now < g_deadline_ns n) →
    (∀ life, g_life_scope n = Some life → is_open (m_scopes m) life = true) →
    is_open (m_scopes m) (g_sponsor n) = true →
    live_lineage m now (g_parent n) → live_lineage m now g.

Lemma walk_from_live m now : grants_wf (m_grants m) → ∀ steps g,
  (∀ n, m_grants m !! g = Some n → g_used n = true → g_depth n < N.of_nat steps) →
  walk_from m now steps g = status.OK ↔ live_lineage m now g.
Proof.
  intros Hwf. induction steps as [|steps IH]; intros g Hdepth; cbn [walk_from];
    (case_decide as Hg; [split; [subst; constructor|done]|]).
  { split; [done|]. inversion 1 as [|? n Hn Hu]; subst; [done|].
    specialize (Hdepth n Hn Hu). lia. }
  destruct (m_grants m !! g) as [n|] eqn:Hn; [|split; [done|]; inversion 1; congruence].
  destruct (g_used n) eqn:Hu; cbn [negb].
  2:{ split; [done|]. inversion 1; congruence. }
  assert (Hinv : live_lineage m now g ↔ g_fenced n = false ∧
    (g_deadline_ns n = 0 ∨ now < g_deadline_ns n) ∧
    (∀ life, g_life_scope n = Some life → is_open (m_scopes m) life = true) ∧
    is_open (m_scopes m) (g_sponsor n) = true ∧ live_lineage m now (g_parent n)).
  { split; [|intros (?&?&?&?&?); by econstructor].
    inversion 1 as [|? n' Hn' ? ? ? ? ? ?]; [congruence|].
    assert (n' = n) as -> by congruence. done. }
  rewrite Hinv. clear Hinv. destruct (g_fenced n); [split; [done|by intros []]|].
  destruct (negb (bool_decide (g_deadline_ns n = 0)) && _) eqn:Hd.
  { apply andb_true_iff in Hd as [Hd1%negb_true_iff%bool_decide_eq_false Hd2%bool_decide_eq_true].
    split; [done|]. intros (_ & [|] & _); lia. }
  destruct (from_option _ false (g_life_scope n)) eqn:Hl.
  { split; [done|]. intros (_ & _ & H & _). destruct (g_life_scope n) as [life|]; [|done].
    cbn in Hl. by rewrite (H life eq_refl) in Hl. }
  destruct (is_open (m_scopes m) (g_sponsor n)); cbn [negb]; [|split; [done|by intros (_ & _ & _ & ? & _)]].
  rewrite IH.
  - split; [|tauto]. intros H. split_and!; [done| | |done..].
    + apply andb_false_iff in Hd as [Hd%negb_false_iff%bool_decide_eq_true|Hd%bool_decide_eq_false]; lia.
    + intros life Hlife. rewrite Hlife in Hl. cbn in Hl. by destruct (is_open _ life).
  - intros p Hp Hpu. specialize (Hdepth n eq_refl Hu). destruct (decide (g_parent n = NO_GRANT)) as [Hno|Hno].
    + exfalso. revert Hno. by eapply index_not_none.
    + destruct (grants_parent _ Hwf g n Hn Hu Hno) as (q & Hq & _ & Hqd & _).
      assert (q = p) as -> by congruence. lia.
Qed.

Lemma walk_live m now g : grants_wf (m_grants m) →
  walk_lineage m g now = status.OK ↔ live_lineage m now g.
Proof.
  intros Hwf. apply walk_from_live; [done|]. intros n Hn Hu.
  pose proof (grants_depth _ Hwf g n Hn Hu). change limit.MAX_DERIVE_DEPTH with 32 in *. lia.
Qed.

(** A handle gives authority over [r]: the table entry, its node, the lineage when
    the use needs one, and a living object. *)
Definition authorised (m : Machine) (d h type rights : N) (now : option N) (r : Resolved) : Prop :=
  ∃ D e n, m_domains m !! d = Some D ∧ CapTable.lookup (dom_caps D) h = Some e ∧
    (type = object_type.NONE ∨ abi_type (obj_kind (cap_object e)) = type) ∧
    m_grants m !! cap_grant e = Some n ∧ g_used n = true ∧
    (∀ t, now = Some t → live_lineage m t (cap_grant e)) ∧
    g_object n = cap_object e ∧ N.land (g_rights n) rights = rights ∧
    object_alive m (cap_object e) = true ∧
    r = mkResolved (handle_slot h) (cap_object e) (cap_grant e) (g_rights n) (g_facet n).

Lemma authorised_iff m d h type rights now r D e n :
  m_domains m !! d = Some D → CapTable.lookup (dom_caps D) h = Some e →
  m_grants m !! cap_grant e = Some n → g_used n = true →
  authorised m d h type rights now r ↔
    (type = object_type.NONE ∨ abi_type (obj_kind (cap_object e)) = type) ∧
    (∀ t, now = Some t → live_lineage m t (cap_grant e)) ∧
    g_object n = cap_object e ∧ N.land (g_rights n) rights = rights ∧
    object_alive m (cap_object e) = true ∧
    r = mkResolved (handle_slot h) (cap_object e) (cap_grant e) (g_rights n) (g_facet n).
Proof.
  intros Hd He Hn Hu. split.
  - intros (D' & e' & n' & Hd' & He' & Ht & Hn' & _ & H).
    assert (D' = D) as -> by congruence. assert (e' = e) as -> by congruence.
    by assert (n' = n) as -> by congruence.
  - intros (Ht & H). by exists D, e, n.
Qed.

Lemma wp_resolve_entry d h type rights now Q E m :
  grants_wf (m_grants m) → is_Some (m_domains m !! d) →
  (∀ r, authorised m d h type rights now r → Q r m) →
  (∀ code, (∀ r, ¬ authorised m d h type rights now r) → E code m) →
  wp (resolve_entry d h type rights now) Q E m.
Proof.
  intros Hwf [D Hd] HQ HE. unfold resolve_entry. apply wp_bind. eapply wp_at_index; [exact Hd|].
  apply wp_bind, wp_ok_or. destruct (CapTable.lookup (dom_caps D) h) as [e|] eqn:Hl.
  2:{ apply HE. intros r (D' & e & n & Hd' & He & _). congruence. }
  apply wp_bind, wp_err_if.
  assert (Htype : negb (bool_decide (type = object_type.NONE)) &&
    negb (bool_decide (abi_type (obj_kind (cap_object e)) = type)) = false ↔
    (type = object_type.NONE ∨ abi_type (obj_kind (cap_object e)) = type)).
  { by rewrite andb_false_iff, !negb_false_iff, !bool_decide_eq_true. }
  destruct (negb _ && _).
  { apply HE. intros r (D' & e' & n & Hd' & He & Ht & _). assert (D' = D) as -> by congruence.
    assert (e' = e) as -> by congruence. by apply Htype in Ht. }
  apply wp_bind, wp_gets, wp_bind, wp_ok_or. cbn beta.
  destruct (m_grants m !! cap_grant e) as [n|] eqn:Hn; cbn [mbind option_bind].
  2:{ apply HE. intros r (D' & e' & n & Hd' & He & _ & Hn' & _). congruence. }
  destruct (g_used n) eqn:Hu.
  2:{ apply HE. intros r (D' & e' & n' & Hd' & He & _ & Hn' & Hu' & _). congruence. }
  pose proof (λ r, authorised_iff m d h type rights now r D e n Hd Hl Hn Hu) as Hiff.
  apply wp_bind. eapply (wp_mono _ (λ _ m', m' = m ∧ ∀ t, now = Some t → live_lineage m t (cap_grant e))
    _ (λ code m', m' = m ∧ ∀ r, ¬ authorised m d h type rights now r)).
  { destruct now as [now|]; [|by apply wp_ret]. apply wp_err_if.
    pose proof (walk_live m now (cap_grant e) Hwf) as Hw.
    case_bool_decide as Hok; cbn [negb]; (split; [done|]).
    - intros t [= <-]. by apply Hw.
    - intros r (_ & Hlive & _)%Hiff. apply Hok, Hw, Hlive. done. }
  2:{ intros code m' [-> Hno]. by apply HE. }
  intros _ m' [-> Hlive]. apply wp_bind, wp_err_if.
  case_bool_decide as Ho; cbn [negb]; [|apply HE; intros r H%Hiff; tauto].
  apply wp_bind, wp_err_if.
  case_bool_decide as Hr; cbn [negb]; [|apply HE; intros r H%Hiff; tauto].
  apply wp_bind, wp_err_if.
  destruct (object_alive m (cap_object e)) eqn:Hal; cbn [negb]; [|apply HE; intros r (_ & _ & _ & _ & ? & _)%Hiff; congruence].
  apply wp_ret, HQ, Hiff. by rewrite <-Htype.
Qed.
