(* ===== verification/Dispatch.v ===== *)
(** * Dispatch

    The structural part of [kernel/src/api/mod.rs]: the two-level table of
    operation codes, the descriptor header, which operations wait and which
    observe a dead lineage, and the path of a capability operation from the
    handle to the handler. *)

From S2P Require Import Prelude Abi Obj Scope Ctrl Frame Objects Machine CapOps.

#[local] Open Scope N_scope.

(** ** The table of operations *)

(** kernel/src/api/mod.rs:799-799 [SPEC_GROUPS] *)
Definition SPEC_GROUPS : N := 16.
(** kernel/src/api/mod.rs:800-800 [SPEC_ORDINALS] *)
Definition SPEC_ORDINALS : N := 16.
(** kernel/src/api/mod.rs:801-801 [NO_SPEC] *)
Definition NO_SPEC : N := U8_MAX.

(** [code >> 16], and [code & 0xFFFF]. *)
Definition group_of (code : N) : N := N.shiftr code 16.
Definition ordinal_of (code : N) : N := N.land code 0xFFFF.

(** The loop that builds the table, whose assertions stop the build; [None] is a
    failed assertion. *)
(** kernel/src/api/mod.rs:803-817 [SPEC_INDEX, the loop] *)
Fixpoint fill_index (ops : list OpSpec) (index : N) (table : list (list N)) :
    option (list (list N)) :=
  match ops with
  | [] => Some table
  | o :: ops =>
      let group := group_of (code o) in
      let ordinal := ordinal_of (code o) in
      row ← table !! group;
      cell ← row !! ordinal;
      if decide (cell = NO_SPEC ∧ index < NO_SPEC)
      then fill_index ops (index + 1) (<[group := <[ordinal := index]> row]> table)
      else None
  end.
(** kernel/src/api/mod.rs:803-817 [SPEC_INDEX] *)
Definition SPEC_INDEX : option (list (list N)) :=
  fill_index OPERATIONS 0
    (replicate (N.to_nat SPEC_GROUPS) (replicate (N.to_nat SPEC_ORDINALS) NO_SPEC)).

(** kernel/src/api/mod.rs:826-839 [spec] *)
Definition spec (table : list (list N)) (c : N) : option OpSpec :=
  let group := group_of c in
  let ordinal := ordinal_of c in
  if bool_decide (SPEC_GROUPS <= group) || bool_decide (SPEC_ORDINALS <= ordinal) then None else
  row ← table !! group;
  index ← row !! ordinal;
  if decide (index = NO_SPEC) then None else OPERATIONS !! index.

(** ** The descriptor header *)

(** abi/src/generated.rs:1277-1292 [DescriptorHeader] *)
Record DescriptorHeader := mkHeader {
  h_major : N;
  h_minor : N;
  h_opcode : N;
  h_flags : N;
  h_total_len : N;
  h_cookie : N;
  h_reserved : N
}.

(** kernel/src/api/mod.rs:669-686 [validate_header]. The versions are those of the
    interface. *)
Definition validate_header (version_major version_minor : N) (header : DescriptorHeader)
    (operation len : N) : option Z :=
  if negb (bool_decide (h_major header = version_major)) then Some status.INCOMPATIBLE_VERSION
  else if bool_decide (version_minor < h_minor header) then Some status.INCOMPATIBLE_VERSION
  else if negb (bool_decide (h_opcode header = operation)) then Some status.INVALID_ARGUMENT
  else if negb (bool_decide (h_total_len header = len)) then Some status.INVALID_ARGUMENT
  else if negb (bool_decide (h_flags header = 0)) || negb (bool_decide (h_reserved header = 0))
  then Some status.INVALID_ARGUMENT
  else None.

(** ** Which gate an operation passes *)

(** kernel/src/api/mod.rs:765-770 [observes_lineage] *)
Definition observes_lineage (operation : N) : bool :=
  bool_decide (operation ∈ [op.CAP_INSPECT; op.CAP_CLOSE; op.CAP_DRAIN_STATUS]).

(** kernel/src/api/mod.rs:779-791 [waits] *)
Definition waits (operation : N) : bool :=
  bool_decide (operation ∈ [op.ENDPOINT_CALL; op.ENDPOINT_RECEIVE; op.SIGNAL_WAIT; op.LOG_READ;
    op.MEMORY_SEAL; op.DOMAIN_UNMAP; op.DEVICE_UNMAP_REGION; op.DEVICE_RESET]).

(** The registers of the entry, before a descriptor is read: the operation they
    name, or the status that refuses them. *)
(** kernel/src/api/mod.rs:952-979 [invoke, the registers] *)
Definition check_registers (rsi rdx r10 r8 : N) : Z + OpSpec :=
  if decide (U32_MAX < rsi) then inl status.INVALID_ARGUMENT else
  match Abi.spec rsi with
  | None => inl status.NOT_SUPPORTED
  | Some o =>
      if negb (bool_decide (andnot r8 flag.KNOWN = 0)) then inl status.INVALID_ARGUMENT
      else if negb (waits rsi) && negb (bool_decide (N.land r8 flag.NONBLOCKING = 0))
      then inl status.INVALID_ARGUMENT
      else if negb (bool_decide (descriptor_len o = 0))
      then if negb (bool_decide (r10 = descriptor_len o)) then inl status.INVALID_ARGUMENT
           else inr o
      else if negb (bool_decide (rdx = 0)) || negb (bool_decide (r10 = 0))
      then inl status.INVALID_ARGUMENT
      else inr o
  end.

(** ** The operations every capability supports *)

(** A call: who, on which handle, and the decoded request. *)
Record Call := mkCall {
  call_domain : N;
  call_thread : N;
  call_handle : N;
  call_operation : N;
  call_now : N;
  call_request : DeriveRequest
}.

(** The operations of this file. *)
Definition capability_operation (operation : N) : bool :=
  bool_decide (operation ∈ [op.CAP_INSPECT; op.CAP_DERIVE; op.CAP_COPY; op.CAP_CLOSE;
    op.CAP_FENCE; op.CAP_DRAIN_STATUS]).

Section handlers.
(** The handlers of the operations on the other objects. *)
Context (others : Ctx → K Machine N).

(** kernel/src/api/mod.rs:695-701 [simple, the capability operations] *)
Definition simple (ctx : Ctx) (request : DeriveRequest) (now_ns : N) : K Machine N :=
  if decide (cx_operation ctx = op.CAP_INSPECT) then snd <$> inspect ctx
  else if decide (cx_operation ctx = op.CAP_DERIVE) then derive ctx request
  else if decide (cx_operation ctx = op.CAP_COPY) then copy ctx
  else if decide (cx_operation ctx = op.CAP_CLOSE) then close ctx
  else if decide (cx_operation ctx = op.CAP_FENCE) then CapOps.fence ctx now_ns
  else if decide (cx_operation ctx = op.CAP_DRAIN_STATUS) then snd <$> drain_status ctx
  else others ctx.

(** The handle is resolved and the handler run, in one hold of the machine. The
    reclamation of memory objects around the two is not part of this function. *)
(** kernel/src/api/mod.rs:1040-1058 [invoke, the resolution and the handler]; the same
    steps in [shared]. *)
Definition perform (c : Call) : K Machine N :=
  o ← ok_or status.NOT_SUPPORTED (Abi.spec (call_operation c));
  cap ← (if observes_lineage (call_operation c)
         then resolve_observer (call_domain c) (call_handle c) (spec_object_type o) (rights o)
         else resolve (call_domain c) (call_handle c) (spec_object_type o) (rights o) (call_now c));
  simple (mkCtx (call_domain c) (call_thread c) (call_handle c) (call_operation c) 0 0
            (call_now c) cap) (call_request c) (call_now c).
End handlers.

(** ** The two lookups agree *)

#[local] Instance string_eq_dec : EqDecision String.string := String.string_dec.
#[global] Instance OpSpec_eq_dec : EqDecision OpSpec.
Proof. solve_decision. Defined.

(** The codes the table has a cell for. *)
Definition cell_codes : list N :=
  g ← range 0 SPEC_GROUPS; o ← range 0 SPEC_ORDINALS; [N.lor (N.shiftl g 16) o].

Lemma cells_agree table : SPEC_INDEX = Some table →
  forallb (λ c, bool_decide (spec table c = Abi.spec c)) cell_codes = true.
Proof. intros H. vm_compute in H. injection H as <-. by vm_compute. Qed.

Lemma code_split c : c = N.lor (N.shiftl (group_of c) 16) (ordinal_of c).
Proof.
  apply N.bits_inj. intros n. unfold group_of, ordinal_of. change 0xFFFF with (N.ones 16).
  rewrite N.lor_spec, N.land_spec. destruct (N.lt_ge_cases n 16) as [Hn|Hn].
  - by rewrite N.shiftl_spec_low, N.ones_spec_low, andb_true_r by done.
  - rewrite N.shiftl_spec_high', N.shiftr_spec', N.ones_spec_high, andb_false_r, orb_false_r by done.
    f_equal. lia.
Qed.

Lemma cell_codes_elem c : group_of c < SPEC_GROUPS → ordinal_of c < SPEC_ORDINALS → c ∈ cell_codes.
Proof.
  intros Hg Ho. unfold cell_codes. apply list_elem_of_bind. exists (group_of c).
  split; [|apply range_elem; lia]. apply list_elem_of_bind. exists (ordinal_of c).
  split; [|apply range_elem; lia]. rewrite <-code_split. by left.
Qed.

(** Every assigned code has a cell. *)
Lemma assigned_codes_fit o : o ∈ OPERATIONS →
  group_of (code o) < SPEC_GROUPS ∧ ordinal_of (code o) < SPEC_ORDINALS.
Proof.
  assert (forallb (λ o, bool_decide (group_of (code o) < SPEC_GROUPS) &&
    bool_decide (ordinal_of (code o) < SPEC_ORDINALS)) OPERATIONS = true) as H by by vm_compute.
  intros Ho. pose proof (forallb_elem _ _ H o Ho) as Hb. cbn beta in Hb.
  by apply andb_true_iff in Hb as [?%bool_decide_eq_true ?%bool_decide_eq_true].
Qed.

Lemma spec_from_elem ops c o : spec_from ops c = Some o → o ∈ ops ∧ code o = c.
Proof.
  induction ops as [|o' ops IH]; [done|]. cbn [spec_from]. case_decide as Hc.
  - intros [= <-]. split; [by left|done].
  - intros [? ?]%IH. split; [by right|done].
Qed.

(** C28. The two-level table is built without a failed assertion, and for every
    operation code the lookup through it gives what the search of the generated
    table gives: the same entry, or nothing. *)
Theorem spec_is_search :
  ∃ table, SPEC_INDEX = Some table ∧ ∀ c, spec table c = Abi.spec c.
Proof.
  assert (is_Some SPEC_INDEX) as [table Ht] by (vm_compute; by eexists).
  exists table. split; [done|]. intros c.
  destruct (bool_decide (SPEC_GROUPS <= group_of c) || bool_decide (SPEC_ORDINALS <= ordinal_of c))
    eqn:Hout.
  - unfold spec. rewrite Hout. symmetry. apply eq_None_not_Some. intros [o Ho].
    apply spec_from_elem in Ho as [Ho <-]. destruct (assigned_codes_fit o Ho).
    apply orb_true_iff in Hout as [Hc%bool_decide_eq_true|Hc%bool_decide_eq_true]; lia.
  - apply orb_false_iff in Hout as [H1%bool_decide_eq_false H2%bool_decide_eq_false].
    assert (c ∈ cell_codes) as Hc by (apply cell_codes_elem; lia).
    pose proof (forallb_elem _ _ (cells_agree table Ht) c Hc) as Hb.
    by apply bool_decide_eq_true in Hb.
Qed.
