(* ===== verification/AuthorityRun.v ===== *)
(** * Authority over a run

    The capability operations of [CapOps] and [Dispatch], and any sequence of them:
    what a derivation grants, what a refusal leaves, and that a fence is final. *)

From S2P Require Import Prelude Abi Obj Scope ScopeProofs Ctrl Frame Objects Machine CapOps.
From S2P Require Import Authority AuthorityOps Dispatch.

#[local] Open Scope N_scope.

Implicit Types (m : Machine) (g i j d h : N).

(** ** The handlers one by one *)

Lemma wp_object_id m o Q E m0 :
  machine_wf m → obj_index o < object_limit (obj_kind o) →
  (∀ id, Q id m0) → wp (expect (object_id m o)) Q E m0.
Proof.
  intros Hwf Hi HQ. rewrite <-(mw_sizes m Hwf) in Hi. apply wp_expect. unfold object_id.
  destruct (negb _); [by eexists|]. destruct (obj_kind o);
    try (apply N.min_glb_lt_iff in Hi as [_ Hi]);
    apply table_lookup_is_Some in Hi as [x Hx]; cbn [fmap option_fmap]; rewrite Hx; by eexists.
Qed.

Lemma wp_receipt now kind d s object grant parent result a b reserved Q E m :
  machine_wf m → (∀ id m', beside m m' → Q id m') →
  wp (receipt now kind d s object grant parent result a b reserved) Q E m.
Proof.
  intros Hwf HQ. unfold receipt. apply wp_bind, wp_gets. cbn beta.
  destruct (m_system_log m) as [i|] eqn:Hi; [|by apply wp_ret, HQ].
  pose proof (mw_log m Hwf i Hi) as Hlt. change MAX_CONTROL_LOGS with (object_limit Obj.ControlLog) in Hlt.
  rewrite <-(mw_sizes m Hwf) in Hlt. apply table_lookup_is_Some in Hlt as [l Hl].
  apply wp_bind. eapply wp_at_index; [exact Hl|].
  destruct (if reserved then _ else _) as [n l']. apply wp_bind, wp_modify, wp_ret, HQ.
  split; try done. intros []; try done. cbn -[insert]. by rewrite tlen_insert.
Qed.

(** The capability an operation received: its node is in use and its domain is
    there. *)
Record holds m (ctx : Ctx) (n : Grant) (D : Domain) : Prop := {
  hd_domain : m_domains m !! cx_domain ctx = Some D;
  hd_node : m_grants m !! rs_grant (cx_cap ctx) = Some n;
  hd_used : g_used n = true;
  hd_object : g_object n = rs_object (cx_cap ctx)
}.

Lemma holds_object m ctx n D : machine_wf m → holds m ctx n D →
  obj_index (rs_object (cx_cap ctx)) < object_limit (obj_kind (rs_object (cx_cap ctx))).
Proof. intros Hwf [_ Hn Hu <-]. by eapply au_objects; [apply Hwf|..]. Qed.

Lemma wp_inspect ctx n D Q E m :
  machine_wf m → holds m ctx n D → (∀ r, Q r m) → wp (inspect ctx) Q E m.
Proof.
  intros Hwf Hh HQ. pose proof Hh as [_ Hn Hu _]. unfold inspect. apply wp_bind.
  eapply wp_at_index; [exact Hn|]. apply wp_bind, wp_gets, wp_bind. cbn beta.
  eapply (wp_mono _ (λ _ m', m' = m) _ (λ _ _, False)); [| |done].
  { case_decide as Hp; [done|].
    destruct (grants_parent _ (au_tree _ _ (mw_authority _ Hwf)) _ n Hn Hu Hp) as (p & Hpp & _).
    apply wp_bind. by eapply wp_at_index. }
  intros parent ? ->. apply wp_bind. eapply (wp_mono _ (λ _ m', m' = m) _ (λ _ _, False)); [| |done].
  { destruct (g_life_scope n) as [l|] eqn:Hl; [|done].
    pose proof (mw_lives m Hwf _ n l Hn Hu Hl) as Hlt.
    change MAX_SCOPES with (object_limit Obj.Scope) in Hlt. rewrite <-(mw_sizes m Hwf) in Hlt.
    apply table_lookup_is_Some in Hlt as [s Hs]. apply wp_bind. by eapply wp_at_index. }
  intros life ? ->. apply wp_bind, wp_object_id; [done|by eapply holds_object|].
  intros id. by apply wp_ret.
Qed.

Lemma wp_drain_status ctx n D Q E m :
  holds m ctx n D → (∀ r, Q r m) → wp (drain_status ctx) Q E m.
Proof.
  intros [_ Hn _ _] HQ. unfold drain_status. apply wp_bind. eapply wp_at_index; [exact Hn|].
  by apply wp_bind, wp_gets, wp_ret.
Qed.

(** The barrier went up: exactly the descendants of the node are behind it. *)
Definition barrier m g m' : Prop :=
  ∀ i n, m_grants m !! i = Some n → ∃ b, m_grants m' !! i = Some (n <| g_fenced := b |>) ∧
    (b = true ↔ g_fenced n = true ∨ descends (m_grants m) g i).

Lemma wp_fence ctx now n D Q E m :
  machine_wf m → holds m ctx n D →
  (∀ k m', steps_to m m' → barrier m (rs_grant (cx_cap ctx)) m' → tables m' = tables m → Q k m') →
  wp (CapOps.fence ctx now) Q E m.
Proof.
  intros Hwf Hh HQ. pose proof Hh as [Hd Hn Hu Ho].
  pose proof (mw_authority _ Hwf) as Hau.
  destruct (fence_lineage_spec (m_grants m) (rs_grant (cx_cap ctx)) n (au_tree _ _ Hau) Hn Hu)
    as (gs' & changed & Hf & Hex & _ & Hwf').
  unfold CapOps.fence. apply wp_bind, wp_gets, wp_bind, wp_expect. exists (gs', changed).
  split; [done|]. apply wp_bind, wp_modify. set (m1 := m <| m_grants := gs' |>).
  destruct (Hex _ n Hn) as (b & Hb & _).
  assert (Hst : steps_to m m1).
  { split; [|intros Hv|done|by intros []|done].
    - apply (fence_advance (m_grants m) (tables m) gs' (rs_grant (cx_cap ctx))); try done.
      by rewrite (grants_len _ Hwf'), (grants_len _ (au_tree _ _ Hau)).
    - intros i x' l Hx' Hxu Hxl. cbn in Hx'. assert (is_Some (m_grants m !! i)) as [x Hx].
      { apply table_lookup_is_Some. rewrite (grants_len _ (au_tree _ _ Hau)), <-(grants_len _ Hwf').
        by eapply table_lookup_lt. }
      destruct (Hex i x Hx) as (b' & Hb' & _). rewrite Hx' in Hb'. injection Hb' as ->.
      by apply (Hv i x l). }
  pose proof (steps_to_wf m m1 Hwf Hst) as Hwf1.
  apply wp_bind. eapply wp_at_index; [exact Hb|]. apply wp_bind, wp_gets, wp_bind.
  apply wp_object_id; [done|by eapply holds_object|]. intros id. apply wp_bind.
  eapply wp_at_index; [exact Hd|]. apply wp_bind, wp_receipt; [done|]. intros id' m2 Hb2.
  apply wp_ret, HQ.
  - eapply steps_to_trans; [exact Hst|]. by apply beside_steps.
  - intros i x Hx. rewrite (be_grants _ _ Hb2). by apply Hex.
  - by rewrite (be_tables _ _ Hb2).
Qed.

Lemma wp_copy ctx n D Q E m :
  machine_wf m → holds m ctx n D →
  (∀ h m', installed m (cx_domain ctx) (rs_object (cx_cap ctx)) (rs_grant (cx_cap ctx)) (Some h) m' →
    Q h m') →
  (∀ m', installed m (cx_domain ctx) (rs_object (cx_cap ctx)) (rs_grant (cx_cap ctx)) None m' →
    E status.LIMIT_EXHAUSTED m') →
  wp (copy ctx) Q E m.
Proof.
  intros Hwf [Hd Hn Hu Ho] HQ HE. apply wp_bind. eapply wp_cap_install; [done..|].
  intros [h|] m' Hi; apply wp_ok_or; auto.
Qed.

Lemma wp_close ctx n D Q E m :
  machine_wf m → holds m ctx n D →
  (∀ b m', steps_to m m' → if b : bool then Q 0 m' else E status.INVALID_HANDLE m') →
  wp (close ctx) Q E m.
Proof.
  intros Hwf [Hd _ _ _] HQ. apply wp_bind.
  apply wp_release_with; [done|by exists D|apply release_vacates|].
  intros b m' Hst. specialize (HQ b m' Hst). by destruct b.
Qed.

(** ** Derivation *)

(** The scope that bounds a derived grant: the parent's, or the one named, which
    has to resolve. *)
Definition life_of m (ctx : Ctx) (q : DeriveRequest) (p : Grant) (life : option ScopeId) : Prop :=
  if decide (dr_life_scope q = 0) then life = g_life_scope p else
  ∃ r, authorised m (cx_domain ctx) (dr_life_scope q) object_type.SCOPE right.INSPECT
         (Some (cx_now ctx)) r ∧ life = Some (obj_index (rs_object r)).

(** What a request has to satisfy: rights of the parent and of the object's kind,
    and no deadline beyond the parent's. *)
Record acceptable m (ctx : Ctx) (q : DeriveRequest) (p : Grant) (life : option ScopeId) : Prop := {
  ac_reserved : dr_reserved0 q = 0;
  ac_rights : andnot (dr_rights_mask q) (g_rights p) = 0;
  ac_kind : andnot (dr_rights_mask q) (rights_mask (obj_kind (rs_object (cx_cap ctx)))) = 0;
  ac_deadline : dr_deadline_ns q = 0 ∨ g_deadline_ns p = 0 ∨ dr_deadline_ns q <= g_deadline_ns p;
  ac_life : life_of m ctx q p life
}.

Definition chosen_deadline (q : DeriveRequest) (p : Grant) : N :=
  if decide (dr_deadline_ns q = 0) then g_deadline_ns p else dr_deadline_ns q.

Lemma scope_type k : abi_type k = object_type.SCOPE → k = Obj.Scope.
Proof. by destruct k. Qed.

Lemma named_scope_bound m d h now r :
  machine_wf m → authorised m d h object_type.SCOPE right.INSPECT now r →
  obj_index (rs_object r) < MAX_SCOPES.
Proof.
  intros Hwf (D & e & n & _ & _ & Ht & Hn & Hu & _ & Ho & _ & _ & ->). cbn [rs_object].
  destruct Ht as [|Ht%scope_type]; [done|].
  pose proof (au_objects _ _ (mw_authority _ Hwf) _ n Hn Hu) as Hb. by rewrite Ho, Ht in Hb.
Qed.

Lemma life_bound m ctx q p life i :
  machine_wf m → m_grants m !! i = Some p → g_used p = true → life_of m ctx q p life →
  ∀ l, life = Some l → l < MAX_SCOPES.
Proof.
  intros Hwf Hp Hu. unfold life_of. case_decide; intros Hl l ->.
  - by eapply (mw_lives m Hwf i p).
  - destruct Hl as (r & Hr & [= ->]). by eapply named_scope_bound.
Qed.

Lemma wp_derived_life ctx q p Q E m :
  grants_wf (m_grants m) → is_Some (m_domains m !! cx_domain ctx) →
  (∀ life, life_of m ctx q p life → Q life m) →
  (∀ code, (∀ life, ¬ life_of m ctx q p life) → E code m) →
  wp (derived_life ctx (dr_life_scope q) (g_life_scope p)) Q E m.
Proof.
  intros Hwf Hd HQ HE. unfold derived_life, life_of in *. case_decide; [by apply wp_ret, HQ|].
  apply wp_bind. unfold resolve. apply wp_resolve_entry; [done..| |].
  - intros r Hr. apply wp_ret, HQ. by exists r.
  - intros code Hno. apply HE. intros life (r & Hr & _). by apply (Hno r).
Qed.

Lemma without_child_as_alter gs i n p :
  g_parent n ≠ i → gs !! g_parent n = Some p →
  <[i := Grant.empty]> (alter (λ x, x <| g_children ::= λ c, saturating_sub c 1 |>) (g_parent n) gs)
  = without_child gs i n.
Proof.
  intros Hne Hp. unfold without_child. apply table_eq. intros j.
  rewrite table_insert, !table_alter, table_insert, tlen_alter.
  destruct (decide (i = j)) as [<-|]; [|by rewrite !(decide_False (P := i = j ∧ _)) by tauto].
  by rewrite !(decide_False (P := g_parent n = i)) by done.
Qed.

Lemma wp_undo_derive i n Q E m :
  machine_wf m → m_grants m !! i = Some n → g_used n = true → g_refs n = 0 → g_children n = 0 →
  g_parent n ≠ NO_GRANT →
  (∀ m', steps_to m m' → m_grants m' = without_child (m_grants m) i n → tables m' = tables m →
    m_scopes m' = Scope.release (g_sponsor n) Metadata 1 (m_scopes m) → Q () m') →
  wp (undo_derive (g_parent n) i) Q E m.
Proof.
  intros Hwf Hi Hu Hr Hc Hp HQ. pose proof (mw_authority _ Hwf) as Hau.
  pose proof (au_refs _ _ Hau i n Hi Hu) as Hheld. pose proof (au_children _ _ Hau i n Hi Hu) as Hch.
  destruct (grants_parent _ (au_tree _ _ Hau) i n Hi Hu Hp) as (p & Hpp & _).
  pose proof (collect_parent_ne (m_grants m) i n Hi Hu ltac:(lia)) as Hne.
  unfold undo_derive. apply wp_bind. eapply wp_at_index; [exact Hpp|]. apply wp_bind, wp_modify, wp_bind.
  eapply wp_at_index; [cbn; rewrite table_alter_ne by done; exact Hi|].
  apply wp_bind, wp_modify, wp_release_metadata.
  match goal with |- Q () ?m' => set (m2 := m') end.
  assert (Hg2 : m_grants m2 = without_child (m_grants m) i n) by by eapply without_child_as_alter.
  apply HQ; [|done..]. split.
  - rewrite Hg2. exact (collect_advance (m_grants m) (tables m) i n Hau Hi Hu
      ltac:(lia) ltac:(lia)).
  - rewrite Hg2. intros Hv. by apply lives_alter, lives_insert.
  - done.
  - intros []; try done. apply tlen_for_nodes.
  - done.
Qed.

(** Every handle that named something names the same. *)
Definition kept_handles (ts ts' : list CapTable) : Prop :=
  ∀ d t h e, ts !! d = Some t → CapTable.lookup t h = Some e →
    ∃ t', ts' !! d = Some t' ∧ CapTable.lookup t' h = Some e.

Lemma occupy_keeps ts d t s e object g :
  ts !! d = Some t → slots t !! s = Some e → cap_live e = false →
  kept_handles ts (with_slot ts d t s (CapTable.occupy object g e)).
Proof.
  intros Ht He Hl d' t' h e' Ht' Hlk. unfold with_slot. rewrite table_insert. case_decide as Hd.
  2:{ by exists t'. }
  destruct Hd as [<- _]. assert (t' = t) as -> by congruence. eexists. split; [done|].
  rewrite lookup_insert_other; [done|]. intros Hs. apply lookup_Some in Hlk as (_ & Hx & Hxl & _).
  congruence.
Qed.

(** A grant derived from [p]: a new node under it that grants what was asked and no
    more than [p], a handle that names it, and everything else as it was. *)
Definition granted m (ctx : Ctx) (q : DeriveRequest) (p : Grant) (life : option ScopeId) (h : N)
    (m' : Machine) : Prop :=
  ∃ g n t e,
    (∀ n0, m_grants m !! g = Some n0 → g_used n0 = false) ∧ m_grants m' !! g = Some n ∧
    (g_used n = true ∧ g_fenced n = false ∧ g_parent n = rs_grant (cx_cap ctx) ∧
     g_depth n = g_depth p + 1 ∧ g_rights n = dr_rights_mask q ∧
     g_deadline_ns n = chosen_deadline q p ∧ g_life_scope n = life ∧ g_facet n = g_facet p ∧
     narrower n p) ∧
    (∀ j x, j ≠ g → j ≠ rs_grant (cx_cap ctx) → m_grants m !! j = Some x →
       m_grants m' !! j = Some x) ∧
    tables m' !! cx_domain ctx = Some t ∧ CapTable.lookup t h = Some e ∧
    cap_object e = rs_object (cx_cap ctx) ∧ cap_grant e = g ∧
    kept_handles (tables m) (tables m').

(** Nothing is left of a refused derivation: the nodes in use, the handles, and the
    accounts of [s]. *)
Record nothing_left m (s : ScopeId) (m' : Machine) : Prop := {
  nl_nodes j x : m_grants m !! j = Some x → g_used x = true → m_grants m' !! j = Some x;
  nl_free j x : m_grants m !! j = Some x → g_used x = false →
    ∃ x', m_grants m' !! j = Some x' ∧ g_used x' = false;
  nl_handles : same_handles (tables m) (tables m');
  nl_accounts : funded (m_scopes m) s → m_scopes m' = m_scopes m
}.

Lemma nothing_left_refl m s : nothing_left m s m.
Proof. split; try done. intros j x. by exists x. Qed.

(** Taking a fresh node back. *)
Lemma child_undone gs i n n0 j x :
  gs !! i = Some n0 → g_used n0 = false → g_parent n ≠ i → gs !! j = Some x →
  without_child (with_child gs i n) i n !! j = Some (if decide (i = j) then Grant.empty else x).
Proof.
  intros Hi Hfree Hp Hj. unfold without_child, with_child. pose proof (table_lookup_lt _ _ _ Hj).
  rewrite table_alter, table_insert, table_alter, table_insert, tlen_alter, tlen_insert.
  destruct (decide (i = j)) as [<-|Hne].
  - by rewrite decide_False, decide_True by done.
  - rewrite !(decide_False (P := i = j ∧ _)) by tauto. rewrite Hj.
    destruct (decide (g_parent n = j)); [|done]. cbn. f_equal. destruct x. unfold set_field.
    cbn. unfold saturating_sub. f_equal. lia.
Qed.

(** The end of a derivation. *)
Definition derived m (ctx : Ctx) (q : DeriveRequest) (p : Grant) (h : N) (m' : Machine) : Prop :=
  steps_to m m' ∧ ∃ life, acceptable m ctx q p life ∧ granted m ctx q p life h m'.
Definition underived m (ctx : Ctx) (q : DeriveRequest) (p : Grant) (s : ScopeId) (code : Z)
    (m' : Machine) : Prop :=
  steps_to m m' ∧
  ((∀ life, ¬ acceptable m ctx q p life) ∧ m' = m ∨
   code = status.LIMIT_EXHAUSTED ∧ (∃ life, acceptable m ctx q p life) ∧ nothing_left m s m').

Section derive.
Context (ctx : Ctx) (q : DeriveRequest) (p : Grant) (D : Domain) (life : option ScopeId).
Abbreviation parent := (rs_grant (cx_cap ctx)).
Abbreviation object := (rs_object (cx_cap ctx)).
Abbreviation node_of id depth := (new_node id depth (dom_owner_scope D) parent object
  (dr_rights_mask q) (chosen_deadline q p) life (g_facet p)).

(** The child is there and has a handle. *)
Lemma derive_finish m m1 m2 g n0 id depth h :
  machine_wf m → holds m ctx p D → g_fenced p = false → acceptable m ctx q p life →
  m_grants m !! g = Some n0 → g_used n0 = false → g ≠ parent →
  steps_to m m1 → tables m1 = tables m → m_grants m1 = with_child (m_grants m) g (node_of id depth) →
  installed m1 (cx_domain ctx) object g (Some h) m2 →
  derived m ctx q p h m2.
Proof.
  intros Hwf [Hd Hp Hu Ho] Hf Hacc Hg Hfree Hne Hst1 Ht1 Hg1 [Hst2 Hin].
  assert (steps_to m m2) as Hst by by eapply steps_to_trans.
  split; [done|]. exists life. split; [done|].
  destruct Hin as (t & s & e & Ht & He & Hl & Hgen & -> & Ht2 & Hg2). rewrite Ht1 in Ht, Ht2.
  pose proof (au_tables _ _ (mw_authority _ Hwf) _ t Ht) as Htwf.
  assert (Hlk : ∀ j, m_grants m2 !! j = (if decide (g = j) then add_ref <$> m_grants m1 !! j
    else m_grants m1 !! j)) by (intros j; by rewrite Hg2, table_alter).
  assert (Hpn : parent ≠ NO_GRANT) by by eapply index_not_none; [apply Hwf|].
  assert (Hchild : m_grants m2 !! g = Some (add_ref (node_of id depth))).
  { rewrite Hlk, decide_True, Hg1 by done. unfold with_child. cbn -[alter insert].
    rewrite table_alter_ne, table_insert_eq; [done|by eapply table_lookup_lt|done]. }
  exists g, (add_ref (node_of id depth)),
    (t <| slots ::= <[s := CapTable.occupy object g e]> |>), (CapTable.occupy object g e).
  assert (Hold : ∀ j x, j ≠ g → m_grants m !! j = Some x →
    m_grants m2 !! j = Some (if decide (parent = j) then x <| g_children ::= λ c, c + 1 |> else x)).
  { intros j x Hj Hx. rewrite Hlk, decide_False, Hg1 by done. unfold with_child. cbn -[alter insert].
    rewrite table_alter, table_insert_ne, Hx by done. by case_decide. }
  split_and!.
  - intros n1 Hn1. congruence.
  - done.
  - done.
  - done.
  - done.
  - pose proof (Hold parent p (not_eq_sym Hne) Hp) as Hp2. rewrite decide_True in Hp2 by done.
    destruct (steps_to_wf m m2 Hwf Hst) as [Hau2 _ _ _].
    destruct (grants_parent _ (au_tree _ _ Hau2) g _ Hchild eq_refl Hpn) as (p' & Hp' & _ & Hd' & _).
    cbn in Hp'. rewrite Hp2 in Hp'. injection Hp' as <-. exact Hd'.
  - done.
  - done.
  - done.
  - done.
  - destruct Hacc as [_ Hr _ Hdl _]. split; cbn; [done| |done]. unfold chosen_deadline.
    intros Hpd. case_decide; [done|]. split; [done|]. destruct Hdl as [|[|]]; done.
  - intros j x Hj Hjp Hx. rewrite (Hold j x Hj Hx). by rewrite decide_False.
  - rewrite Ht2. apply table_insert_eq. by eapply table_lookup_lt.
  - pose proof (slot_bound t s e Htwf He) as Hs. destruct (cap_wf_entries t Htwf s e He) as [Hge _].
    rewrite (lookup_occupy t s e) with (h := handle s (cap_generation e + 1)); try done.
    + by rewrite decide_True.
    + apply handle_bound; [done|]. unfold U32_MAX in *. lia.
  - done.
  - done.
  - rewrite Ht2. by apply occupy_keeps.
Qed.

(** The child is taken back. *)
Lemma wp_derive_undone m m1 m2 g n0 id depth D1 Q E :
  machine_wf m → holds m ctx p D → acceptable m ctx q p life →
  m_grants m !! g = Some n0 → g_used n0 = false → g ≠ parent →
  steps_to m m1 → tables m1 = tables m → m_grants m1 = with_child (m_grants m) g (node_of id depth) →
  (Scope.reserve (dom_owner_scope D) Metadata 1 (m_scopes m)).1 = true →
  m_scopes m1 = (Scope.reserve (dom_owner_scope D) Metadata 1 (m_scopes m)).2 →
  m_domains m1 !! cx_domain ctx = Some D1 → dom_owner_scope D1 = dom_owner_scope D →
  installed m1 (cx_domain ctx) object g None m2 →
  (∀ m', underived m ctx q p (dom_owner_scope D) status.LIMIT_EXHAUSTED m' →
    E status.LIMIT_EXHAUSTED m') →
  wp (undo_derive parent g;; err (A := N) status.LIMIT_EXHAUSTED) Q E m2.
Proof.
  intros Hwf [Hd Hp Hu Ho] Hacc Hg Hfree Hne Hst1 Ht1 Hg1 Hok Hs1 Hd1 Ho1
    (Hst2 & Hg2 & Hh2 & Hs2) HE.
  assert (steps_to m m2) as Hst by by eapply steps_to_trans.
  assert (Hpn : parent ≠ NO_GRANT) by by eapply index_not_none; [apply Hwf|].
  assert (Hchild : m_grants m2 !! g = Some (node_of id depth)).
  { rewrite Hg2, Hg1. unfold with_child. cbn -[alter insert].
    rewrite table_alter_ne, table_insert_eq; [done|by eapply table_lookup_lt|done]. }
  apply wp_bind. change parent with (g_parent (node_of id depth)).
  apply wp_undo_derive; try done; [by eapply steps_to_wf|].
  intros m3 Hst3 Hg3 Ht3 Hs3. apply wp_err, HE.
  assert (Hlk : ∀ j x, m_grants m !! j = Some x →
    m_grants m3 !! j = Some (if decide (g = j) then Grant.empty else x)).
  { intros j x Hx. rewrite Hg3, Hg2, Hg1. by eapply child_undone; [..|apply not_eq_sym|]. }
  split; [by eapply steps_to_trans|]. right. split; [done|]. split; [by exists life|]. split.
  - intros j x Hx Hxu. rewrite (Hlk j x Hx). case_decide; [congruence|done].
  - intros j x Hx Hxu. rewrite (Hlk j x Hx). case_decide; by eexists.
  - by rewrite <-Ht1, Ht3.
  - intros Hf. rewrite Hs3, (Hs2 D1 Hd1), Hs1 by (rewrite Ho1, Hs1; by apply reserve_funded).
    cbn [g_sponsor new_node]. by apply reserve_undone.
Qed.
End derive.

Lemma wp_derived_deadline q p Q E m :
  (dr_deadline_ns q = 0 ∨ g_deadline_ns p = 0 ∨ dr_deadline_ns q <= g_deadline_ns p →
    Q (chosen_deadline q p) m) →
  (¬ (dr_deadline_ns q = 0 ∨ g_deadline_ns p = 0 ∨ dr_deadline_ns q <= g_deadline_ns p) →
    E status.INVALID_ARGUMENT m) →
  wp (derived_deadline (dr_deadline_ns q) (g_deadline_ns p)) Q E m.
Proof.
  intros HQ HE. unfold derived_deadline, chosen_deadline in *. case_decide as Hz.
  { apply wp_ret, HQ. by left. }
  apply wp_bind, wp_err_if. destruct (_ && _) eqn:Hb.
  - apply andb_true_iff in Hb as [Hb1%negb_true_iff%bool_decide_eq_false Hb2%bool_decide_eq_true].
    apply HE. intros [|[|]]; [done..|lia].
  - apply wp_ret, HQ. right. apply andb_false_iff in Hb
      as [Hb%negb_false_iff%bool_decide_eq_true|Hb%bool_decide_eq_false]; [by left|right; lia].
Qed.

Lemma wp_derive ctx q p D m Q E :
  machine_wf m → holds m ctx p D → g_fenced p = false →
  (∀ h m', derived m ctx q p h m' → Q h m') →
  (∀ code m', underived m ctx q p (dom_owner_scope D) code m' → E code m') →
  wp (derive ctx q) Q E m.
Proof.
  intros Hwf Hh Hf HQ HE. pose proof Hh as [Hd Hp Hu Ho]. pose proof (mw_authority _ Hwf) as Hau.
  assert (Href : ∀ code, (∀ life, ¬ acceptable m ctx q p life) → E code m).
  { intros code Hno. apply HE. split; [by apply beside_steps|]. by left. }
  unfold derive. apply wp_bind, wp_err_if.
  case_bool_decide as H0; cbn [negb]; [|apply Href; by intros life []].
  apply wp_bind. eapply wp_at_index; [exact Hp|].
  apply wp_bind, wp_err_if. case_bool_decide as H1; cbn [negb]; [|apply Href; by intros life []].
  apply wp_bind, wp_err_if. case_bool_decide as H2; cbn [negb]; [|apply Href; by intros life []].
  apply wp_bind, wp_derived_deadline; [intros H3|intros H3; apply Href; by intros life []].
  apply wp_bind, wp_derived_life; [apply Hau|by exists D| |].
  2:{ intros code Hno. apply Href. intros life []. by apply (Hno life). }
  intros life Hlife. assert (acceptable m ctx q p life) as Hacc by done.
  apply wp_bind. eapply wp_at_index; [exact Hd|].
  assert (Hpn : rs_grant (cx_cap ctx) ≠ NO_GRANT) by by eapply index_not_none; [apply Hau|].
  assert (Hatt : attenuates m (rs_grant (cx_cap ctx)) (rs_object (cx_cap ctx)) (dr_rights_mask q)
    (chosen_deadline q p)).
  { intros _. exists p. split_and!; try done. unfold chosen_deadline. intros Hpd.
    case_decide; [done|]. split; [done|]. by destruct H3 as [|[|]]. }
  apply wp_bind, wp_grant_alloc; [done|by eapply holds_object|by eapply life_bound|done|].
  intros [g|] m1 (Hst1 & Ht1 & Ha); apply wp_bind, wp_ok_or.
  2:{ destruct Ha as [Hg1 Hs1]. apply HE. split; [done|]. right. split; [done|]. split; [by exists life|].
      split; [intros j x; by rewrite Hg1|intros j x; rewrite Hg1; by exists x|by rewrite Ht1|done]. }
  destruct Ha as (n0 & id & depth & Hg & Hfree & Hne & Hg1 & Hok & Hs1).
  assert (Hwf1 : machine_wf m1) by by eapply steps_to_wf.
  assert (∃ D1, m_domains m1 !! cx_domain ctx = Some D1 ∧ dom_owner_scope D1 = dom_owner_scope D)
    as (D1 & Hd1 & Ho1).
  { pose proof (st_owners _ _ Hst1) as Hown.
    apply (f_equal (λ k : list N, k !! cx_domain ctx)) in Hown. rewrite !table_fmap, Hd in Hown.
    apply fmap_Some in Hown as (D1 & HD1 & ->). by exists D1. }
  assert (Hchild : m_grants m1 !! g = Some (new_node id depth (dom_owner_scope D)
    (rs_grant (cx_cap ctx)) (rs_object (cx_cap ctx)) (dr_rights_mask q) (chosen_deadline q p) life
    (g_facet p))).
  { rewrite Hg1. unfold with_child. cbn -[alter insert].
    rewrite table_alter_ne, table_insert_eq; [done|by eapply table_lookup_lt|done]. }
  apply wp_bind. eapply wp_cap_install; [exact Hwf1|exact Hd1|exact Hchild|done|done|].
  intros [h|] m2 Hin.
  - apply wp_ret, HQ. by apply (derive_finish ctx q p D life m m1 m2 g n0 id depth h).
  - apply (wp_derive_undone ctx q p D life m m1 m2 g n0 id depth D1); try done. intros m3. apply HE.
Qed.

(** ** A call *)

(** What a call whose handle resolved goes on with. *)
Lemma authorised_holds m c flags type rights now r :
  authorised m (call_domain c) (call_handle c) type rights now r →
  ∃ n D, holds m (mkCtx (call_domain c) (call_thread c) (call_handle c) (call_operation c)
    flags 0 (call_now c) r) n D ∧
    (∀ t, now = Some t → live_lineage m t (rs_grant r)).
Proof.
  intros (D & e & n & Hd & _ & _ & Hn & Hu & Hlive & Ho & _ & _ & ->). by exists n, D.
Qed.

Lemma live_unfenced m now g n :
  live_lineage m now g → m_grants m !! g = Some n → g ≠ NO_GRANT → g_fenced n = false.
Proof. intros [|g' n' Hn' _ Hf _ _ _ _]; congruence. Qed.

(** The end of a call that fenced: exactly the descendants of the node its handle
    named are behind the barrier. *)
Definition fenced_by m (c : Call) m' : Prop :=
  ∃ D e, m_domains m !! call_domain c = Some D ∧
    CapTable.lookup (dom_caps D) (call_handle c) = Some e ∧ barrier m (cap_grant e) m' ∧
    tables m' = tables m.

Lemma wp_perform others c m :
  machine_wf m → is_Some (m_domains m !! call_domain c) →
  capability_operation (call_operation c) = true →
  wp (perform others c)
    (λ _ m', steps_to m m' ∧ (call_operation c = op.CAP_FENCE → fenced_by m c m'))
    (λ _ m', steps_to m m') m.
Proof.
  intros Hwf Hd Hop. pose proof (mw_authority _ Hwf) as Hau.
  assert (Hstay : steps_to m m) by by apply beside_steps.
  unfold perform. apply wp_bind, wp_ok_or. destruct (Abi.spec (call_operation c)) as [o|]; [|done].
  apply wp_bind. set (now := if observes_lineage (call_operation c) then None else Some (call_now c)).
  assert (Hres : wp (resolve_entry (call_domain c) (call_handle c) (spec_object_type o) (rights o) now)
    (λ r m', m' = m ∧ authorised m (call_domain c) (call_handle c) (spec_object_type o) (rights o) now r)
    (λ _ m', m' = m) m).
  { by apply wp_resolve_entry; [apply Hau|..]. }
  eapply (wp_mono _ (λ r m', m' = m ∧
    authorised m (call_domain c) (call_handle c) (spec_object_type o) (rights o) now r) _
    (λ _ m', m' = m)).
  { unfold now in *. by destruct (observes_lineage (call_operation c)). }
  2:{ by intros ? ? ->. }
  intros r ? [-> Hr].
  destruct (authorised_holds m c 0 _ _ _ r Hr) as (n & D & Hh & Hlive).
  unfold simple. cbn [cx_operation].
  destruct (decide (call_operation c = op.CAP_INSPECT)) as [Heq|H1].
  { rewrite Heq. unfold wp, fmap, K_fmap.
    pose proof (wp_inspect _ n D (λ _ m', m' = m) (λ _ _, False) m Hwf Hh ltac:(done)) as Hw.
    unfold wp in Hw. destruct (inspect _ m); [subst; by split| |]; done. }
  destruct (decide (call_operation c = op.CAP_DERIVE)) as [Heq|H2].
  { pose proof Hh as [_ Hn Hu _]. eapply wp_derive; [done|exact Hh| | |].
    - eapply live_unfenced; [apply Hlive; unfold now; by rewrite Heq|exact Hn|].
      by eapply index_not_none; [apply Hau|].
    - intros h m' [Hst _]. split; [done|]. by rewrite Heq.
    - by intros code m' [Hst _]. }
  destruct (decide (call_operation c = op.CAP_COPY)) as [Heq|H3].
  { eapply wp_copy; [done|exact Hh|..]; intros; [split; [apply H|]|apply H]. by rewrite Heq. }
  destruct (decide (call_operation c = op.CAP_CLOSE)) as [Heq|H4].
  { eapply wp_close; [done|exact Hh|]. intros [] m' Hst; [split; [done|]|done]. by rewrite Heq. }
  destruct (decide (call_operation c = op.CAP_FENCE)) as [Heq|H5].
  { eapply wp_fence; [done|exact Hh|]. intros k m' Hst Hb Ht. split; [done|]. intros _.
    destruct Hr as (D' & e & n' & Hd' & He & _ & _ & _ & _ & _ & _ & _ & ->). by exists D', e. }
  destruct (decide (call_operation c = op.CAP_DRAIN_STATUS)) as [Heq|H6].
  { rewrite Heq. unfold wp, fmap, K_fmap.
    pose proof (wp_drain_status _ n D (λ _ m', m' = m) (λ _ _, False) m Hh ltac:(done)) as Hw.
    unfold wp in Hw. destruct (drain_status _ m); [subst; by split| |]; done. }
  apply bool_decide_eq_true in Hop. exfalso.
  repeat (apply elem_of_cons in Hop as [?|Hop]; [done|]). by apply elem_of_nil in Hop.
Qed.

(** ** Any sequence of operations *)

(** What changes authority: the capability operations, and the steps the other
    handlers are made of. *)
Inductive Event :=
| Perform (c : Call)
| ReleaseSlot (domain slot : N)
| NewRoot (sponsor : ScopeId) (object : ObjRef) (rights deadline : N) (life : option ScopeId)
    (facet : N)
| Install (domain : N) (object : ObjRef) (grant : GrantId) (slot : option N).

Definition happen (others : Ctx → K Machine N) (ev : Event) : K Machine () :=
  match ev with
  | Perform c => (λ _, ()) <$> perform others c
  | ReleaseSlot domain slot => (λ _, ()) <$> cap_release_slot domain slot
  | NewRoot sponsor object rights deadline life facet =>
      (λ _, ()) <$> grant_alloc sponsor NO_GRANT object rights deadline life facet
  | Install domain object grant slot => (λ _, ()) <$> cap_install domain object grant slot
  end.

(** What the callers of these keep to: indices in range, and an entry is installed
    for a node that authorises its object. *)
Definition proper_event m (ev : Event) : Prop :=
  match ev with
  | Perform c => call_domain c < MAX_DOMAINS ∧ capability_operation (call_operation c) = true
  | ReleaseSlot domain _ => domain < MAX_DOMAINS
  | NewRoot _ object _ _ life _ =>
      obj_index object < object_limit (obj_kind object) ∧ ∀ l, life = Some l → l < MAX_SCOPES
  | Install domain object grant _ => domain < MAX_DOMAINS ∧
      ∃ n, m_grants m !! grant = Some n ∧ g_used n = true ∧ g_object n = object
  end.

(** One step: an event, whatever it answers, or a change beside authority. *)
Inductive machine_step (others : Ctx → K Machine N) m : Machine → Prop :=
| step_done ev m' : proper_event m ev → happen others ev m = Done () m' → machine_step others m m'
| step_fail ev code m' : proper_event m ev → happen others ev m = Fail code m' →
    machine_step others m m'
| step_beside m' : beside m m' → machine_step others m m'.

Lemma domain_there m d : machine_wf m → d < MAX_DOMAINS → is_Some (m_domains m !! d).
Proof.
  intros Hwf Hd. apply table_lookup_is_Some. change MAX_DOMAINS with (object_limit Obj.Domain) in Hd.
  by rewrite <-(mw_sizes m Hwf) in Hd.
Qed.

Lemma wp_forget {A} (k : K Machine A) (P : Machine → Prop) m :
  wp k (λ _, P) (λ _, P) m → wp ((λ _, ()) <$> k) (λ _, P) (λ _, P) m.
Proof. unfold wp, fmap, K_fmap. by destruct (k m). Qed.

Lemma wp_happen others ev m :
  machine_wf m → proper_event m ev →
  wp (happen others ev) (λ _, steps_to m) (λ _, steps_to m) m.
Proof.
  intros Hwf Hev. destruct ev as [c|d s|sponsor object rights deadline life facet|d object g slot];
    apply wp_forget.
  - destruct Hev as [Hd Hop]. eapply wp_mono; [apply wp_perform; [done|by apply domain_there|done]|..].
    + by intros ? ? [].
    + done.
  - by apply wp_release_with; [|apply domain_there|apply release_slot_vacates|].
  - destruct Hev as [Ho Hl]. apply wp_grant_alloc; [done..|by intros []|]. by intros r m' [].
  - destruct Hev as [Hd (n & Hn & Hu & Ho)]. destruct (domain_there m d Hwf Hd) as [D HD].
    eapply wp_cap_install; [done|exact HD|exact Hn|done|done|]. by intros r m' [].
Qed.

Lemma machine_step_to others m m' : machine_wf m → machine_step others m m' → steps_to m m'.
Proof.
  intros Hwf [ev m1 Hev Hm|ev code m1 Hev Hm|m1 Hb].
  - exact (wp_done _ _ _ _ _ _ (wp_happen others ev m Hwf Hev) Hm).
  - exact (wp_fail _ _ _ _ _ _ (wp_happen others ev m Hwf Hev) Hm).
  - by apply beside_steps.
Qed.

Lemma machine_steps_to others m m' : machine_wf m → rtc (machine_step others) m m' → steps_to m m'.
Proof.
  intros Hwf H. induction H as [m|m1 m2 m3 Hs _ IH]; [by apply beside_steps|].
  pose proof (machine_step_to others m1 m2 Hwf Hs) as H12. eapply steps_to_trans; [exact H12|].
  apply IH. by eapply steps_to_wf.
Qed.

(** A barred handle has no authority. *)
Lemma barred_unauthorised m d h type rights now r :
  grants_wf (m_grants m) → barred (m_grants m) (tables m) d h →
  ¬ authorised m d h type rights (Some now) r.
Proof.
  intros Hwf (t & e & Ht & He & Hb) (D & e' & n & Hd & Hlk & _ & Hn & Hu & Hlive & _).
  rewrite (tables_lookup m d D Hd) in Ht. injection Ht as <-.
  apply lookup_Some in Hlk as (_ & He' & Hl & Hg). assert (e' = e) as -> by congruence.
  destruct Hb as [|[_ Hb]]; [lia|]. destruct (Hb Hl) as (x & Hx & _ & Hf).
  pose proof (live_unfenced m now _ x (Hlive now eq_refl) Hx (index_not_none _ _ x Hwf Hx)). congruence.
Qed.

(** ** The theorems *)

(** No capability answers to the handle for this type, these rights and this time. *)
Definition without_authority m d (h type rights now : N) : Prop :=
  ∀ r, ¬ authorised m d h type rights (Some now) r.

(** C7. Resolution gives authority to exactly who has it, and changes nothing. A
    handle of a domain resolves, for a type, a set of rights and a time, to
    precisely the capability its table entry and its grant node authorise:
    the entry is live and of the generation the handle names, the object has the
    type asked and is alive, the node has every right asked and matches the
    object, and no node from it to its root is fenced, expired or bounded or paid
    by a scope that is no longer open. Otherwise it refuses; it never panics. *)
Theorem resolve_exact m d h type rights now :
  grants_wf (m_grants m) → is_Some (m_domains m !! d) →
  match resolve d h type rights now m with
  | Done r m' => m' = m ∧ authorised m d h type rights (Some now) r
  | Fail _ m' => m' = m ∧ without_authority m d h type rights now
  | Panic => False
  end.
Proof. intros Hwf Hd. by apply (wp_resolve_entry d h type rights (Some now)). Qed.

(** C6. A derivation attenuates, and a refused one leaves nothing. With a
    capability of a live lineage, [derive] answers a handle only when the request
    asks for rights the parent and the kind of object have, no later deadline and
    a scope it may name; then there is one new node, under the parent and one
    level deeper, with exactly the rights asked, the chosen deadline and scope and
    the parent's facet and object, the handle names it, and no other node or handle
    has changed. Otherwise it refuses, either because the request is not
    acceptable, with the machine as it was, or for want of room, and then no node,
    no handle and no charge is left behind. It never panics. *)
Theorem derive_attenuates m ctx q p D :
  machine_wf m → holds m ctx p D → g_fenced p = false →
  match derive ctx q m with
  | Done h m' => machine_wf m' ∧ ∃ life, acceptable m ctx q p life ∧ granted m ctx q p life h m'
  | Fail code m' => machine_wf m' ∧
      ((∀ life, ¬ acceptable m ctx q p life) ∧ m' = m ∨
       code = status.LIMIT_EXHAUSTED ∧ (∃ life, acceptable m ctx q p life) ∧
       nothing_left m (dom_owner_scope D) m')
  | Panic => False
  end.
Proof.
  intros Hwf Hh Hf. apply (wp_derive ctx q p D); try done.
  - intros h m' [Hst Hd]. split; [by eapply steps_to_wf|done].
  - intros code m' [Hst Hd]. split; [by eapply steps_to_wf|done].
Qed.

(** C4. Authority is kept. From a machine in good order, whatever capability
    operations are called on whatever handles, whatever entries are installed or
    released and nodes created by the other handlers, in any order: the machine
    stays in good order (every live entry names a node in use for its object, no
    node grants more than its parent, a node that is named or has children is
    never reused, its counters are exact) and none of these operations panics. *)
Theorem authority_is_kept others m m' ev :
  machine_wf m → rtc (machine_step others) m m' →
  machine_wf m' ∧ (proper_event m' ev → happen others ev m' ≠ Panic).
Proof.
  intros Hwf Hrun. assert (machine_wf m') as Hwf' by by eapply steps_to_wf, machine_steps_to.
  split; [done|]. intros Hev Hp. pose proof (wp_happen others ev m' Hwf' Hev) as Hw.
  unfold wp in Hw. by rewrite Hp in Hw.
Qed.

(** C3. A fence is for ever. Once [CAP_FENCE] has answered on a capability, every
    handle of every domain that named an entry derived from it (its own handle
    among them) is dead for use: after any further sequence of operations
    it resolves to nothing, whatever is asked of it, even when its slot or its
    node has been given to something else. *)
Theorem fence_is_forever others m c k m1 m2 D e d t h x type rights now :
  machine_wf m → is_Some (m_domains m !! call_domain c) → call_operation c = op.CAP_FENCE →
  perform others c m = Done k m1 →
  m_domains m !! call_domain c = Some D → CapTable.lookup (dom_caps D) (call_handle c) = Some e →
  tables m !! d = Some t → CapTable.lookup t h = Some x →
  descends (m_grants m) (cap_grant e) (cap_grant x) →
  rtc (machine_step others) m1 m2 →
  ∃ code, resolve d h type rights now m2 = Fail code m2.
Proof.
  intros Hwf Hd Hop Hrun HD He Ht Hx Hdesc Hsteps.
  pose proof (wp_perform others c m Hwf Hd ltac:(by rewrite Hop)) as Hw.
  apply (wp_done _ _ _ _ _ _ Hw) in Hrun as [Hst Hfence]. clear Hw.
  destruct (Hfence Hop) as (D' & e' & HD' & He' & Hbar & Ht1).
  assert (D' = D) as -> by congruence. assert (e' = e) as -> by congruence.
  pose proof (steps_to_wf m m1 Hwf Hst) as Hwf1.
  pose proof (machine_steps_to others m1 m2 Hwf1 Hsteps) as Hst2.
  pose proof (steps_to_wf m1 m2 Hwf1 Hst2) as Hwf2.
  assert (barred (m_grants m2) (tables m2) d h) as Hbarred.
  { apply (adv_barred _ _ _ _ (st_advances _ _ Hst2)).
    apply lookup_Some in Hx as (_ & Hx & Hl & Hg).
    destruct (au_named _ _ (mw_authority _ Hwf) d t _ x Ht Hx Hl) as (n & Hn & Hu & _).
    destruct (Hbar _ n Hn) as (b & Hb & Hiff). exists t, x. rewrite Ht1. split_and!; [done..|].
    right. split; [done|]. intros _. eexists. split_and!; [done..|]. cbn. apply Hiff. by right. }
  assert (is_Some (m_domains m2 !! d)) as Hd2.
  { destruct Hbarred as (t2 & _ & Ht2 & _). unfold tables in Ht2. rewrite table_fmap in Ht2.
    apply fmap_Some in Ht2 as (D2 & HD2 & _). by exists D2. }
  pose proof (au_tree _ _ (mw_authority _ Hwf2)) as Htree.
  pose proof (wp_resolve_entry d h type rights (Some now) (λ _ _, False) (λ _ m', m' = m2) m2 Htree Hd2
    (λ r, barred_unauthorised m2 d h type rights now r Htree Hbarred) ltac:(done)) as Hw.
  unfold wp in Hw. unfold resolve. destruct (resolve_entry _ _ _ _ _ m2) as [|code m'|]; [done| |done].
  subst. by exists code.
Qed.

(** ** A machine in good order *)

Lemma replicate_lookup {A} (n : nat) (x y : A) i : replicate n x !! i = Some y → y = x.
Proof. intros H. by apply (lookup_replicate_1 n x y (N.to_nat i)) in H as [-> _]. Qed.

(** The machine the kernel starts with. *)
Lemma machine_new_wf t : tlen (scopes t) = MAX_SCOPES → machine_wf (Machine.new t).
Proof.
  intros Ht.
  assert (Hg : ∀ i n, m_grants (Machine.new t) !! i = Some n → g_used n = true → False).
  { intros i n Hi Hu. apply replicate_lookup in Hi as ->. done. }
  assert (Hd : ∀ d x, tables (Machine.new t) !! d = Some x → x = CapTable.new).
  { intros d x. unfold tables. rewrite table_fmap. intros (D & HD & ->)%fmap_Some.
    by apply replicate_lookup in HD as ->. }
  split; [split| |done|by intros []].
  - split; [done|..]; intros i n Hi Hu; by destruct (Hg i n).
  - intros i n p Hi Hu. by destruct (Hg i n).
  - intros d x s e Hx He Hl. apply Hd in Hx as ->. by apply replicate_lookup in He as ->.
  - intros i n Hi Hu. by destruct (Hg i n).
  - intros d x ->%Hd. apply cap_new_wf.
  - done.
  - intros i n Hi Hu. by destruct (Hg i n).
  - intros i n Hi Hu. by destruct (Hg i n).
  - intros i n l Hi Hu. by destruct (Hg i n).
Qed.

(** A root node over scope 1, a handle of domain 0 for it, and one derived with
    fewer rights. *)
Definition sample_root : ObjRef := mkObjRef Obj.Scope 1 0.
Definition sample_request : DeriveRequest :=
  mkDeriveRequest (N.lor right.INSPECT right.DERIVE) 0 1000 0.
Definition sample_call (operation h : N) (q : DeriveRequest) : Call := mkCall 0 0 h operation 5 q.
Definition no_others : Ctx → K Machine N := λ _, err status.NOT_SUPPORTED.

(** The machine after an event, whatever it answers. *)
Definition after (ev : Event) m : Machine :=
  match happen no_others ev m with Done _ m' => m' | Fail _ m' => m' | Panic => m end.

Lemma after_step ev m : machine_wf m → proper_event m ev → machine_step no_others m (after ev m).
Proof.
  intros Hwf Hev. pose proof (wp_happen no_others ev m Hwf Hev) as Hw. unfold wp in Hw.
  unfold after. destruct (happen no_others ev m) as [[] m'|code m'|] eqn:Hm; [| |done].
  - by eapply step_done.
  - by eapply step_fail.
Qed.

Lemma after_wf ev m : machine_wf m → proper_event m ev → machine_wf (after ev m).
Proof. intros Hwf Hev. by eapply steps_to_wf, machine_step_to, after_step. Qed.

Definition sample_derive : Call := sample_call op.CAP_DERIVE (handle 0 1) sample_request.
Definition sample_rooted : Machine :=
  after (Install 0 sample_root 0 None)
    (after (NewRoot 0 sample_root (rights_mask Obj.Scope) 0 None 7) (Machine.new sample_scopes)).
Definition sample_machine : Machine := after (Perform sample_derive) sample_rooted.

Lemma sample_rooted_wf : machine_wf sample_rooted.
Proof.
  apply after_wf; [apply after_wf; [by apply machine_new_wf|by split]|].
  split; [done|]. eexists. split; [vm_compute; reflexivity|]. by vm_compute.
Qed.
Lemma sample_machine_wf : machine_wf sample_machine.
Proof. apply after_wf; [apply sample_rooted_wf|by vm_compute]. Qed.

Lemma resolve_exact_witness :
  resolve 0 (handle 1 1) object_type.SCOPE right.INSPECT 5 sample_machine =
    Done (mkResolved 1 sample_root 1 (N.lor right.INSPECT right.DERIVE) 7) sample_machine ∧
  authorised sample_machine 0 (handle 1 1) object_type.SCOPE right.INSPECT (Some 5)
    (mkResolved 1 sample_root 1 (N.lor right.INSPECT right.DERIVE) 7).
Proof.
  pose proof (resolve_exact sample_machine 0 (handle 1 1) object_type.SCOPE right.INSPECT 5
    (au_tree _ _ (mw_authority _ sample_machine_wf)) ltac:(vm_compute; by eexists)) as H.
  assert (Hr : match resolve 0 (handle 1 1) object_type.SCOPE right.INSPECT 5 sample_machine with
    | Done r _ => Some r | _ => None end =
    Some (mkResolved 1 sample_root 1 (N.lor right.INSPECT right.DERIVE) 7)) by by vm_compute.
  destruct (resolve _ _ _ _ _ _) as [r m'| |]; [|done..]. injection Hr as ->.
  by destruct H as [-> H].
Defined.

Definition sample_ctx : Ctx :=
  mkCtx 0 0 (handle 0 1) op.CAP_DERIVE 0 0 5 (mkResolved 0 sample_root 0 (rights_mask Obj.Scope) 7).
Definition sample_parent : Grant := default Grant.empty (m_grants sample_rooted !! 0).
Definition sample_domain m : Domain := default Domain.empty (m_domains m !! 0).

Lemma derive_attenuates_witness :
  ∃ h m' life, derive sample_ctx sample_request sample_rooted = Done h m' ∧ machine_wf m' ∧
    granted sample_rooted sample_ctx sample_request sample_parent life h m'.
Proof.
  pose proof (derive_attenuates sample_rooted sample_ctx sample_request sample_parent
    (sample_domain sample_rooted) sample_rooted_wf) as H.
  assert (Hr : match derive sample_ctx sample_request sample_rooted with
    | Done h _ => bool_decide (h = handle 1 1) | _ => false end = true) by by vm_compute.
  destruct (derive _ _ _) as [h m'| |]; [|done..].
  destruct H as [Hwf (life & _ & Hg)]; [split; by vm_compute|by vm_compute|]. by exists h, m', life.
Defined.

Lemma authority_is_kept_witness :
  machine_wf sample_machine ∧
  happen no_others (Perform (sample_call op.CAP_CLOSE (handle 0 1) sample_request)) sample_machine
    ≠ Panic.
Proof.
  destruct (authority_is_kept no_others sample_rooted sample_machine
    (Perform (sample_call op.CAP_CLOSE (handle 0 1) sample_request)) sample_rooted_wf) as [Hwf Hev].
  - apply rtc_once, after_step; [apply sample_rooted_wf|by vm_compute].
  - split; [done|]. apply Hev. by vm_compute.
Defined.

Definition sample_fence : Call := sample_call op.CAP_FENCE (handle 0 1) sample_request.
Definition sample_fenced : Machine := after (Perform sample_fence) sample_machine.
Definition sample_entry (s : N) : CapEntry :=
  default CapEntry.empty (slots (dom_caps (sample_domain sample_machine)) !! s).

(** The handle that was derived is dead, also after the fenced one is released. *)
Lemma fence_is_forever_witness :
  ∃ code, resolve 0 (handle 1 1) object_type.SCOPE right.INSPECT 5
    (after (ReleaseSlot 0 0) sample_fenced) = Fail code (after (ReleaseSlot 0 0) sample_fenced).
Proof.
  assert (Hwf1 : machine_wf sample_fenced).
  { apply after_wf; [apply sample_machine_wf|by vm_compute]. }
  assert (Hdone : ∃ k, perform no_others sample_fence sample_machine = Done k sample_fenced).
  { unfold sample_fenced, after, happen, fmap, K_fmap.
    assert (Hr : match perform no_others sample_fence sample_machine with
      | Done _ _ => true | _ => false end = true) by by vm_compute.
    destruct (perform _ _ _) as [k m'| |]; [by exists k|done..]. }
  destruct Hdone as [k Hk].
  apply (fence_is_forever no_others sample_machine sample_fence k sample_fenced
    (after (ReleaseSlot 0 0) sample_fenced) (sample_domain sample_machine) (sample_entry 0) 0
    (dom_caps (sample_domain sample_machine)) (handle 1 1) (sample_entry 1)).
  - apply sample_machine_wf.
  - vm_compute. by eexists.
  - done.
  - exact Hk.
  - by vm_compute.
  - by vm_compute.
  - by vm_compute.
  - by vm_compute.
  - eapply descends_child; [by vm_compute|by vm_compute|by vm_compute|].
    by eapply descends_root; vm_compute.
  - apply rtc_once, after_step; [done|by vm_compute].
Defined.

(** ** The depth of a collection

    The loop of [collect_grant] takes at most [MAX_DERIVE_DEPTH] turns and a lineage may
    have one node more, so the root of a full lineage stays behind. *)

(** Derive from the last handle and close it, over and over. *)
Fixpoint descend (steps : nat) (slot generation : N) m : Machine :=
  match steps with
  | O => m
  | S steps =>
      let h := handle slot generation in
      let m := after (Perform (sample_call op.CAP_DERIVE h sample_request)) m in
      let m := after (Perform (sample_call op.CAP_CLOSE h sample_request)) m in
      descend steps (1 - slot) (generation + slot) m
  end.

Lemma full_lineage_keeps_its_root :
  let m := after (Perform (sample_call op.CAP_CLOSE (handle 0 17) sample_request))
             (descend 32 0 1 sample_rooted) in
  filter g_used (m_grants m) =
    [mkGrant true 1 NO_GRANT 0 (rights_mask Obj.Scope) 0 None 7 sample_root false 0 0 0] ∧
  held (tables m) 0 = 0.
Proof. by vm_compute. Qed.
