(* ===== verification/Bytes.v ===== *)
(** * Bytes and layouts

    What the format crates share: little- and big-endian integers as lists of bytes,
    and codecs - the bytes of a plain structure - built from their fields, each with
    the laws that make it a layout. A byte is an [N] below 256. *)

From S2P Require Import Prelude.

#[local] Open Scope N_scope.

(** ** Integers *)

(** [x.to_le_bytes()] of a [w]-byte integer. *)
Fixpoint le_bytes (w : nat) (x : N) : list N :=
  match w with
  | O => []
  | S w => x mod 256 :: le_bytes w (x / 256)
  end.
(** [from_le_bytes]. *)
Definition le_value (bytes : list N) : N := foldr (λ b x, b + 256 * x) 0 bytes.
(** [x.to_be_bytes()] and [from_be_bytes]. *)
Definition be_bytes (w : nat) (x : N) : list N := rev (le_bytes w x).
Definition be_value (bytes : list N) : N := le_value (rev bytes).

Definition is_byte (b : N) : Prop := b < 256.
Definition bytes_ok (bytes : list N) : Prop := Forall is_byte bytes.

Lemma le_bytes_len w x : length (le_bytes w x) = w.
Proof. revert x. by induction w as [|w IH]; intros x; cbn; rewrite ?IH. Qed.

Lemma le_bytes_ok w x : bytes_ok (le_bytes w x).
Proof.
  revert x. induction w as [|w IH]; intros x; constructor; [|apply IH].
  apply N.mod_lt. done.
Qed.

Lemma le_value_bytes w x : x < 256 ^ N.of_nat w → le_value (le_bytes w x) = x.
Proof.
  revert x. induction w as [|w IH]; intros x Hx.
  { cbn in *. lia. }
  cbn [le_bytes le_value foldr]. fold (le_value (le_bytes w (x / 256))).
  rewrite Nat2N.inj_succ, N.pow_succ_r' in Hx. rewrite IH.
  - rewrite (N.div_mod x 256) at 3 by done. lia.
  - apply N.Div0.div_lt_upper_bound. lia.
Qed.

Lemma le_value_lt bytes : bytes_ok bytes → le_value bytes < 256 ^ N.of_nat (length bytes).
Proof.
  induction 1 as [|b bytes Hb _ IH]; [done|]. cbn [le_value foldr length].
  fold (le_value bytes). rewrite Nat2N.inj_succ, N.pow_succ_r'. unfold is_byte in Hb. lia.
Qed.

Lemma le_bytes_value bytes : bytes_ok bytes → le_bytes (length bytes) (le_value bytes) = bytes.
Proof.
  induction 1 as [|b bytes Hb _ IH]; [done|]. cbn [le_value foldr length le_bytes].
  fold (le_value bytes). unfold is_byte in Hb. rewrite (N.mul_comm 256), N.Div0.mod_add, N.div_add by done.
  rewrite N.mod_small, N.div_small, N.add_0_l, IH by done. done.
Qed.

(** ** Slices *)

(** [bytes[from..from + len]], the range in bounds. *)
Definition slice (from len : nat) (bytes : list N) : list N := take len (drop from bytes).
(** [bytes[from..from + new.len()].copy_from_slice(new)], the range in bounds. *)
Definition splice (from : nat) (new bytes : list N) : list N :=
  take from bytes ++ new ++ drop (from + length new) bytes.

Global Arguments slice : simpl never.
Global Arguments splice : simpl never.

Lemma slice_len from len bytes : (from + len <= length bytes)%nat → length (slice from len bytes) = len.
Proof. intros H. unfold slice. rewrite length_take, length_drop. lia. Qed.

Lemma slice_ok from len bytes : bytes_ok bytes → bytes_ok (slice from len bytes).
Proof. intros H. by apply Forall_take, Forall_drop. Qed.

Lemma splice_len from new bytes :
  (from + length new <= length bytes)%nat → length (splice from new bytes) = length bytes.
Proof. intros H. unfold splice. rewrite !length_app, length_take, length_drop. lia. Qed.

Lemma slice_splice from new bytes :
  (from + length new <= length bytes)%nat → slice from (length new) (splice from new bytes) = new.
Proof.
  intros H. unfold slice, splice. rewrite drop_app_length' by (rewrite length_take; lia).
  by rewrite take_app_length.
Qed.

Lemma take_splice from new bytes :
  (from + length new <= length bytes)%nat →
  take (from + length new) (splice from new bytes) = take from bytes ++ new.
Proof.
  intros H. unfold splice. rewrite app_assoc. apply take_app_length'.
  rewrite length_app, length_take. lia.
Qed.

Lemma slice_app_l from len a b : (from + len <= length a)%nat → slice from len (a ++ b) = slice from len a.
Proof. intros H. unfold slice. rewrite drop_app_le by lia. rewrite take_app_le; [done|]. rewrite length_drop. lia. Qed.

Lemma slice_app_r from len a b :
  (length a <= from)%nat → slice from len (a ++ b) = slice (from - length a) len b.
Proof. intros H. unfold slice. by rewrite drop_app_ge. Qed.

Lemma slice_all bytes : slice 0 (length bytes) bytes = bytes.
Proof. unfold slice. by rewrite drop_0, firstn_all. Qed.

(** ** Codecs *)

(** How the values of a type lie in bytes: how many, which values fit, the bytes of
    a value and the value of bytes. The widths of the fields are kept for their
    offsets. *)
Record Codec (A : Type) := mkCodec {
  cd_size : nat;
  cd_widths : list nat;
  cd_fits : A → Prop;
  cd_bytes : A → list N;
  cd_value : list N → A
}.
Arguments mkCodec {A} _ _ _ _ _.
Arguments cd_size {A} _.
Arguments cd_widths {A} _.
Arguments cd_fits {A} _ _.
Arguments cd_bytes {A} _ _.
Arguments cd_value {A} _ _.

(** Every value that fits has [size] bytes that give it back, and every [size] bytes
    are the bytes of the value they give: the layout has no padding and no invalid
    bit pattern. *)
Class Layout {A} (c : Codec A) : Prop := {
  ly_len a : length (cd_bytes c a) = cd_size c;
  ly_ok a : cd_fits c a → bytes_ok (cd_bytes c a);
  ly_value a : cd_fits c a → cd_value c (cd_bytes c a) = a;
  ly_fits bytes : bytes_ok bytes → length bytes = cd_size c → cd_fits c (cd_value c bytes);
  ly_bytes bytes : bytes_ok bytes → length bytes = cd_size c → cd_bytes c (cd_value c bytes) = bytes
}.

(** A little-endian integer of [w] bytes. *)
Definition uint (w : nat) : Codec N :=
  mkCodec w [w] (λ x, x < 256 ^ N.of_nat w) (le_bytes w) le_value.
(** A byte array of length [n]; a shorter or longer list is cut or filled to it. *)
Definition raw (n : nat) : Codec (list N) :=
  mkCodec n [n] (λ l, length l = n ∧ bytes_ok l) (λ l, take n l ++ replicate (n - length l) 0) (λ l, l).
(** A signed little-endian integer of [w] bytes, two's complement. *)
Definition sint (w : nat) : Codec Z :=
  let m := (256 ^ Z.of_nat w)%Z in
  mkCodec w [w] (λ x, - m <= 2 * x < m)%Z (λ x, le_bytes w (Z.to_N (x mod m)))
    (λ l, let x := Z.of_N (le_value l) in if decide (2 * x < m)%Z then x else x - m)%Z.

(** An array of [n] structures; a shorter or longer list is cut or filled with zeros. *)
Fixpoint many_value {A} (c : Codec A) (n : nat) (l : list N) : list A :=
  match n with
  | O => []
  | S n => cd_value c (take (cd_size c) l) :: many_value c n (drop (cd_size c) l)
  end.
Definition many {A} (n : nat) (c : Codec A) : Codec (list A) :=
  let size := (n * cd_size c)%nat in
  mkCodec size [size] (λ l, length l = n ∧ Forall (cd_fits c) l)
    (λ l, take size (mjoin (cd_bytes c <$> l) ++ replicate size 0)) (many_value c n).
(** A structure as one field of another. *)
Definition whole {A} (c : Codec A) : Codec A :=
  mkCodec (cd_size c) [cd_size c] (cd_fits c) (cd_bytes c) (cd_value c).
(** One field after another. *)
Definition both {A B} (a : Codec A) (b : Codec B) : Codec (A * B) :=
  mkCodec (cd_size a + cd_size b) (cd_widths a ++ cd_widths b) (λ x, cd_fits a x.1 ∧ cd_fits b x.2)
    (λ x, cd_bytes a x.1 ++ cd_bytes b x.2)
    (λ l, (cd_value a (take (cd_size a) l), cd_value b (drop (cd_size a) l))).
Infix "⊗" := both (at level 50, left associativity).
(** A structure laid out as the tuple of its fields. *)
Definition via {A B} (f : B → A) (g : A → B) (a : Codec A) : Codec B :=
  mkCodec (cd_size a) (cd_widths a) (λ x, cd_fits a (f x)) (λ x, cd_bytes a (f x)) (λ l, g (cd_value a l)).

(** Where the fields of a structure start. *)
Definition offsets {A} (c : Codec A) : list nat :=
  (foldl (λ '(at_, starts) w, (at_ + w, starts ++ [at_])%nat) (0%nat, []) (cd_widths c)).2.

#[global] Instance uint_layout w : Layout (uint w).
Proof.
  split; cbn; intros.
  - apply le_bytes_len.
  - apply le_bytes_ok.
  - by apply le_value_bytes.
  - subst. by apply le_value_lt.
  - subst. by apply le_bytes_value.
Qed.

#[global] Instance raw_layout n : Layout (raw n).
Proof.
  assert (Hid : ∀ l : list N, length l = n → take n l ++ replicate (n - length l) 0 = l).
  { intros l <-. by rewrite firstn_all, Nat.sub_diag, app_nil_r. }
  split; cbn; intros.
  - rewrite length_app, length_take, length_replicate. lia.
  - destruct H. by rewrite Hid.
  - destruct H. by apply Hid.
  - done.
  - by apply Hid.
Qed.

Lemma pow_256_of_N w : Z.of_N (256 ^ N.of_nat w) = (256 ^ Z.of_nat w)%Z.
Proof. rewrite N2Z.inj_pow, nat_N_Z. done. Qed.

#[global] Instance sint_layout w : Layout (sint w).
Proof.
  assert (0 < 256 ^ Z.of_nat w)%Z as Hm by (apply Z.pow_pos_nonneg; lia). pose proof (pow_256_of_N w) as Hw.
  split; cbn; intros.
  - apply le_bytes_len.
  - apply le_bytes_ok.
  - pose proof (Z.mod_pos_bound a _ Hm) as Hb. rewrite le_value_bytes by lia. rewrite Z2N.id by lia.
    destruct (decide (0 <= a)%Z) as [Ha|Ha].
    + rewrite Z.mod_small by lia. by rewrite decide_True by lia.
    + rewrite <-(Z.mod_unique_pos a _ (-1) (a + 256 ^ Z.of_nat w)) by lia. rewrite decide_False by lia. lia.
  - pose proof (le_value_lt bytes H). subst. case_decide; lia.
  - pose proof (le_value_lt bytes H) as Hl. subst w.
    match goal with |- le_bytes _ ?x = _ => enough (x = le_value bytes) as -> by by apply le_bytes_value end. case_decide.
    + rewrite Z.mod_small by lia. by rewrite N2Z.id.
    + rewrite <-(Z.mod_unique_pos _ _ (-1) (Z.of_N (le_value bytes))) by lia. by rewrite N2Z.id.
Qed.

#[global] Instance many_layout {A} n (c : Codec A) : Layout c → Layout (many n c).
Proof.
  intros L.
  assert (∀ a l, mjoin (cd_bytes c <$> a :: l) = cd_bytes c a ++ mjoin (cd_bytes c <$> l)) as Hcons by done.
  assert (∀ l, length (mjoin (cd_bytes c <$> l)) = (length l * cd_size c)%nat) as Hlen.
  { induction l as [|a l IH]; [done|]. rewrite Hcons, length_app, ly_len, IH. cbn. lia. }
  assert (∀ l, length l = n → take (n * cd_size c) (mjoin (cd_bytes c <$> l) ++ replicate (n * cd_size c) 0) =
    mjoin (cd_bytes c <$> l)) as Hcut.
  { intros l <-. rewrite <-Hlen. apply take_app_length. }
  split; unfold many; cbn [cd_size cd_bytes cd_fits cd_value].
  - intros l. rewrite length_take, length_app, length_replicate, Hlen. lia.
  - intros l [Hl Hf]. rewrite Hcut by done. clear Hl Hcut Hlen. induction Hf as [|a l Ha _ IH]; [constructor|].
    rewrite Hcons. apply Forall_app. split; [by apply ly_ok|done].
  - intros l [Hl Hf]. rewrite Hcut by done. clear Hcut Hlen. revert n Hl.
    induction Hf as [|a l Ha _ IH]; intros [|n] Hl; try done. rewrite Hcons. cbn [many_value].
    rewrite take_app_length', drop_app_length' by by rewrite ly_len. rewrite ly_value by done. f_equal. apply IH. by injection Hl.
  - intros l. clear Hcut Hlen. revert l. induction n as [|n IH]; intros l Hok Hl; cbn; [done|].
    destruct (IH (drop (cd_size c) l)) as [H1 H2]; [by apply Forall_drop|rewrite length_drop; lia|].
    split; [by rewrite H1|]. constructor; [|done]. apply ly_fits; [by apply Forall_take|rewrite length_take; lia].
  - intros l Hok Hl. rewrite Hcut.
    + clear Hcut Hlen. revert l Hok Hl. induction n as [|n IH]; intros l Hok Hl; cbn [many_value]; [by destruct l|].
      rewrite Hcons, ly_bytes by (try apply Forall_take; rewrite ?length_take; try done; lia).
      rewrite IH; [apply take_drop|by apply Forall_drop|rewrite length_drop; lia].
    + clear. revert l. induction n as [|n IH]; intros l; cbn; by rewrite ?IH.
Qed.

#[global] Instance whole_layout {A} (c : Codec A) : Layout c → Layout (whole c).
Proof. intros [H1 H2 H3 H4 H5]. by split. Qed.

#[global] Instance both_layout {A B} (a : Codec A) (b : Codec B) :
  Layout a → Layout b → Layout (both a b).
Proof.
  intros La Lb. split; cbn.
  - intros [x y]. by rewrite length_app, !ly_len.
  - intros [x y] [Hx Hy]. apply Forall_app. split; by apply ly_ok.
  - intros [x y] [Hx Hy]. cbn in *. rewrite take_app_length', drop_app_length' by by rewrite ly_len.
    by rewrite !ly_value.
  - intros l Hok Hl. split; apply ly_fits; rewrite ?length_take, ?length_drop;
      [by apply Forall_take|lia|by apply Forall_drop|lia].
  - intros l Hok Hl. rewrite !ly_bytes; rewrite ?length_take, ?length_drop;
      [by rewrite take_drop|by apply Forall_drop|lia|by apply Forall_take|lia].
Qed.

Lemma via_layout {A B} (f : B → A) (g : A → B) (a : Codec A) :
  (∀ x, f (g x) = x) → (∀ y, g (f y) = y) → Layout a → Layout (via f g a).
Proof.
  intros Hfg Hgf La. split; cbn; intros.
  - apply ly_len.
  - by apply ly_ok.
  - by rewrite ly_value, Hgf.
  - rewrite Hfg. by apply ly_fits.
  - rewrite Hfg. by apply ly_bytes.
Qed.

(** Proves the layout of a structure given by [via]. *)
Ltac solve_layout :=
  apply via_layout;
    [by intros; repeat match goal with x : _ * _ |- _ => destruct x end|by intros []|apply _].
