(* ===== verification/AbiWire.v ===== *)
(** * The structures of the binary interface

    The structures of [abi/src/generated.rs] that cross the entry, each a record with
    the codec of its fields in order and the size and offsets the crate asserts. The
    fields of one structure share a prefix; the structures other files use already are
    the records of those files. *)

From S2P Require Import Prelude Bytes Abi Obj Scope Ctrl Frame Objects Machine CapOps Dispatch.

#[local] Open Scope N_scope.

(** abi/src/generated.rs:1294-1302 [DescriptorHeader, its size and offsets] *)
Definition DescriptorHeader_codec : Codec DescriptorHeader :=
  via
    (λ x, (h_major x, h_minor x, h_opcode x, h_flags x, h_total_len x, h_cookie x, h_reserved x))
    (λ '(major_, minor_, opcode_, flags_, total_len_, cookie_, reserved_),
      mkHeader major_ minor_ opcode_ flags_ total_len_ cookie_ reserved_)
    (uint 2 ⊗ uint 2 ⊗ uint 4 ⊗ uint 4 ⊗ uint 4 ⊗ uint 8 ⊗ uint 8).
#[global] Instance DescriptorHeader_layout : Layout DescriptorHeader_codec.
Proof. solve_layout. Qed.
Module DescriptorHeader.
(** abi/src/generated.rs:1306-1306 [DescriptorHeader::SIZE] *)
Definition SIZE : nat := 32.
(** abi/src/generated.rs:1308-1308 [DescriptorHeader::DESCRIPTOR_LEN] *)
Definition DESCRIPTOR_LEN : N := 64.
(** abi/src/generated.rs:1311-1315 [DescriptorHeader::zeroed] *)
Definition zeroed : DescriptorHeader :=
  mkHeader 0 0 0 0 0 0 0.
End DescriptorHeader.

(** abi/src/generated.rs:1321-1360 [Limits] *)
Record Limits := mkLimits {
  wal_major : N;
  wal_minor : N;
  wal_max_descriptor_len : N;
  wal_max_inline_payload : N;
  wal_max_caps_per_message : N;
  wal_max_scope_depth : N;
  wal_max_derive_depth : N;
  wal_max_handles_per_domain : N;
  wal_max_endpoint_queue : N;
  wal_max_memory_pages_per_object : N;
  wal_control_log_capacity : N;
  wal_control_log_reserved : N;
  wal_receipt_batch : N;
  wal_cpu_window_ns : N;
  wal_cpu_quantum_ns : N;
  wal_page_size : N;
  wal_boot_epoch : N;
  wal_cpus_online : N;
  wal_reserved0 : N
}.
#[global] Instance Limits_rebuild : Rebuild Limits := λ x,
  mkLimits (wal_major x) (wal_minor x) (wal_max_descriptor_len x) (wal_max_inline_payload x)
    (wal_max_caps_per_message x) (wal_max_scope_depth x) (wal_max_derive_depth x)
    (wal_max_handles_per_domain x) (wal_max_endpoint_queue x)
    (wal_max_memory_pages_per_object x) (wal_control_log_capacity x)
    (wal_control_log_reserved x) (wal_receipt_batch x) (wal_cpu_window_ns x)
    (wal_cpu_quantum_ns x) (wal_page_size x) (wal_boot_epoch x) (wal_cpus_online x)
    (wal_reserved0 x).
(** abi/src/generated.rs:1362-1382 [Limits, its size and offsets] *)
Definition Limits_codec : Codec Limits :=
  via
    (λ x, (wal_major x, wal_minor x, wal_max_descriptor_len x, wal_max_inline_payload x,
      wal_max_caps_per_message x, wal_max_scope_depth x, wal_max_derive_depth x,
      wal_max_handles_per_domain x, wal_max_endpoint_queue x, wal_max_memory_pages_per_object x,
      wal_control_log_capacity x, wal_control_log_reserved x, wal_receipt_batch x,
      wal_cpu_window_ns x, wal_cpu_quantum_ns x, wal_page_size x, wal_boot_epoch x,
      wal_cpus_online x, wal_reserved0 x))
    (λ '(major_, minor_, max_descriptor_len_, max_inline_payload_, max_caps_per_message_,
      max_scope_depth_, max_derive_depth_, max_handles_per_domain_, max_endpoint_queue_,
      max_memory_pages_per_object_, control_log_capacity_, control_log_reserved_,
      receipt_batch_, cpu_window_ns_, cpu_quantum_ns_, page_size_, boot_epoch_, cpus_online_,
      reserved0_),
      mkLimits major_ minor_ max_descriptor_len_ max_inline_payload_ max_caps_per_message_
        max_scope_depth_ max_derive_depth_ max_handles_per_domain_ max_endpoint_queue_
        max_memory_pages_per_object_ control_log_capacity_ control_log_reserved_ receipt_batch_
        cpu_window_ns_ cpu_quantum_ns_ page_size_ boot_epoch_ cpus_online_ reserved0_)
    (uint 2 ⊗ uint 2 ⊗ uint 4 ⊗ uint 4 ⊗ uint 4 ⊗ uint 4 ⊗ uint 4 ⊗ uint 4 ⊗ uint 4 ⊗ uint 4
      ⊗ uint 4 ⊗ uint 4 ⊗ uint 4 ⊗ uint 8 ⊗ uint 8 ⊗ uint 8 ⊗ uint 8 ⊗ uint 4 ⊗ uint 4).
#[global] Instance Limits_layout : Layout Limits_codec.
Proof. solve_layout. Qed.
Module Limits.
(** abi/src/generated.rs:1386-1386 [Limits::SIZE] *)
Definition SIZE : nat := 88.
(** abi/src/generated.rs:1388-1388 [Limits::DESCRIPTOR_LEN] *)
Definition DESCRIPTOR_LEN : N := 120.
(** abi/src/generated.rs:1391-1395 [Limits::zeroed] *)
Definition zeroed : Limits :=
  mkLimits 0 0 0 0 0 0 0 0 0 0 0 0 0 0 0 0 0 0 0.
End Limits.

(** abi/src/generated.rs:1424-1435 [CapInfo, its size and offsets] *)
Definition CapInfo_codec : Codec CapInfo :=
  via
    (λ x, (ci_object_type x, ci_rights x, ci_derive_depth x, ci_lineage_state x, ci_grant_id x,
      ci_parent_grant_id x, ci_deadline_ns x, ci_life_scope_id x, ci_object_id x, ci_facet x))
    (λ '(object_type_, rights_, derive_depth_, lineage_state_, grant_id_, parent_grant_id_,
      deadline_ns_, life_scope_id_, object_id_, facet_),
      mkCapInfo object_type_ rights_ derive_depth_ lineage_state_ grant_id_ parent_grant_id_
        deadline_ns_ life_scope_id_ object_id_ facet_)
    (uint 4 ⊗ uint 4 ⊗ uint 4 ⊗ uint 4 ⊗ uint 8 ⊗ uint 8 ⊗ uint 8 ⊗ uint 8 ⊗ uint 8 ⊗ uint 8).
#[global] Instance CapInfo_layout : Layout CapInfo_codec.
Proof. solve_layout. Qed.
Module CapInfo.
(** abi/src/generated.rs:1439-1439 [CapInfo::SIZE] *)
Definition SIZE : nat := 64.
(** abi/src/generated.rs:1441-1441 [CapInfo::DESCRIPTOR_LEN] *)
Definition DESCRIPTOR_LEN : N := 96.
(** abi/src/generated.rs:1444-1448 [CapInfo::zeroed] *)
Definition zeroed : CapInfo :=
  mkCapInfo 0 0 0 0 0 0 0 0 0 0.
End CapInfo.

(** abi/src/generated.rs:1465-1470 [DeriveRequest, its size and offsets] *)
Definition DeriveRequest_codec : Codec DeriveRequest :=
  via
    (λ x, (dr_rights_mask x, dr_reserved0 x, dr_deadline_ns x, dr_life_scope x))
    (λ '(rights_mask_, reserved0_, deadline_ns_, life_scope_),
      mkDeriveRequest rights_mask_ reserved0_ deadline_ns_ life_scope_)
    (uint 4 ⊗ uint 4 ⊗ uint 8 ⊗ uint 8).
#[global] Instance DeriveRequest_layout : Layout DeriveRequest_codec.
Proof. solve_layout. Qed.
Module DeriveRequest.
(** abi/src/generated.rs:1474-1474 [DeriveRequest::SIZE] *)
Definition SIZE : nat := 24.
(** abi/src/generated.rs:1476-1476 [DeriveRequest::DESCRIPTOR_LEN] *)
Definition DESCRIPTOR_LEN : N := 56.
(** abi/src/generated.rs:1479-1483 [DeriveRequest::zeroed] *)
Definition zeroed : DeriveRequest :=
  mkDeriveRequest 0 0 0 0.
End DeriveRequest.

(** abi/src/generated.rs:1489-1504 [ScopeLimits] *)
Record ScopeLimits := mkScopeLimits {
  wsl_memory_pages : N;
  wsl_metadata_objects : N;
  wsl_cpu_budget_ns : N;
  wsl_queue_bytes : N;
  wsl_closure_reserve_ns : N;
  wsl_parallelism : N;
  wsl_reserved0 : N
}.
#[global] Instance ScopeLimits_rebuild : Rebuild ScopeLimits := λ x,
  mkScopeLimits (wsl_memory_pages x) (wsl_metadata_objects x) (wsl_cpu_budget_ns x)
    (wsl_queue_bytes x) (wsl_closure_reserve_ns x) (wsl_parallelism x) (wsl_reserved0 x).
(** abi/src/generated.rs:1506-1514 [ScopeLimits, its size and offsets] *)
Definition ScopeLimits_codec : Codec ScopeLimits :=
  via
    (λ x, (wsl_memory_pages x, wsl_metadata_objects x, wsl_cpu_budget_ns x, wsl_queue_bytes x,
      wsl_closure_reserve_ns x, wsl_parallelism x, wsl_reserved0 x))
    (λ '(memory_pages_, metadata_objects_, cpu_budget_ns_, queue_bytes_, closure_reserve_ns_,
      parallelism_, reserved0_),
      mkScopeLimits memory_pages_ metadata_objects_ cpu_budget_ns_ queue_bytes_
        closure_reserve_ns_ parallelism_ reserved0_)
    (uint 8 ⊗ uint 8 ⊗ uint 8 ⊗ uint 8 ⊗ uint 8 ⊗ uint 4 ⊗ uint 4).
#[global] Instance ScopeLimits_layout : Layout ScopeLimits_codec.
Proof. solve_layout. Qed.
Module ScopeLimits.
(** abi/src/generated.rs:1518-1518 [ScopeLimits::SIZE] *)
Definition SIZE : nat := 48.
(** abi/src/generated.rs:1520-1520 [ScopeLimits::DESCRIPTOR_LEN] *)
Definition DESCRIPTOR_LEN : N := 80.
(** abi/src/generated.rs:1523-1527 [ScopeLimits::zeroed] *)
Definition zeroed : ScopeLimits :=
  mkScopeLimits 0 0 0 0 0 0 0.
End ScopeLimits.

(** abi/src/generated.rs:1533-1538 [ScopeCreateRequest] *)
Record ScopeCreateRequest := mkScopeCreateRequest {
  wsc_limits : ScopeLimits;
  wsc_label : list N
}.
#[global] Instance ScopeCreateRequest_rebuild : Rebuild ScopeCreateRequest := λ x,
  mkScopeCreateRequest (wsc_limits x) (wsc_label x).
(** abi/src/generated.rs:1540-1543 [ScopeCreateRequest, its size and offsets] *)
Definition ScopeCreateRequest_codec : Codec ScopeCreateRequest :=
  via
    (λ x, (wsc_limits x, wsc_label x))
    (λ '(limits_, label_),
      mkScopeCreateRequest limits_ label_)
    (whole ScopeLimits_codec ⊗ raw 16).
#[global] Instance ScopeCreateRequest_layout : Layout ScopeCreateRequest_codec.
Proof. solve_layout. Qed.
Module ScopeCreateRequest.
(** abi/src/generated.rs:1547-1547 [ScopeCreateRequest::SIZE] *)
Definition SIZE : nat := 64.
(** abi/src/generated.rs:1549-1549 [ScopeCreateRequest::DESCRIPTOR_LEN] *)
Definition DESCRIPTOR_LEN : N := 96.
(** abi/src/generated.rs:1552-1556 [ScopeCreateRequest::zeroed] *)
Definition zeroed : ScopeCreateRequest :=
  mkScopeCreateRequest ScopeLimits.zeroed (replicate 16 0).
End ScopeCreateRequest.

(** abi/src/generated.rs:1562-1593 [ScopeInfo] *)
Record ScopeInfo := mkScopeInfo {
  wsi_limits : ScopeLimits;
  wsi_state : N;
  wsi_depth : N;
  wsi_parallelism_used : N;
  wsi_threads : N;
  wsi_scope_id : N;
  wsi_parent_scope_id : N;
  wsi_memory_pages_used : N;
  wsi_metadata_used : N;
  wsi_queue_bytes_used : N;
  wsi_cpu_window_used_ns : N;
  wsi_cpu_total_ns : N;
  wsi_cpu_debt_ns : N;
  wsi_closure_used_ns : N;
  wsi_window_index : N
}.
#[global] Instance ScopeInfo_rebuild : Rebuild ScopeInfo := λ x,
  mkScopeInfo (wsi_limits x) (wsi_state x) (wsi_depth x) (wsi_parallelism_used x)
    (wsi_threads x) (wsi_scope_id x) (wsi_parent_scope_id x) (wsi_memory_pages_used x)
    (wsi_metadata_used x) (wsi_queue_bytes_used x) (wsi_cpu_window_used_ns x)
    (wsi_cpu_total_ns x) (wsi_cpu_debt_ns x) (wsi_closure_used_ns x) (wsi_window_index x).
(** abi/src/generated.rs:1595-1611 [ScopeInfo, its size and offsets] *)
Definition ScopeInfo_codec : Codec ScopeInfo :=
  via
    (λ x, (wsi_limits x, wsi_state x, wsi_depth x, wsi_parallelism_used x, wsi_threads x,
      wsi_scope_id x, wsi_parent_scope_id x, wsi_memory_pages_used x, wsi_metadata_used x,
      wsi_queue_bytes_used x, wsi_cpu_window_used_ns x, wsi_cpu_total_ns x, wsi_cpu_debt_ns x,
      wsi_closure_used_ns x, wsi_window_index x))
    (λ '(limits_, state_, depth_, parallelism_used_, threads_, scope_id_, parent_scope_id_,
      memory_pages_used_, metadata_used_, queue_bytes_used_, cpu_window_used_ns_, cpu_total_ns_,
      cpu_debt_ns_, closure_used_ns_, window_index_),
      mkScopeInfo limits_ state_ depth_ parallelism_used_ threads_ scope_id_ parent_scope_id_
        memory_pages_used_ metadata_used_ queue_bytes_used_ cpu_window_used_ns_ cpu_total_ns_
        cpu_debt_ns_ closure_used_ns_ window_index_)
    (whole ScopeLimits_codec ⊗ uint 4 ⊗ uint 4 ⊗ uint 4 ⊗ uint 4 ⊗ uint 8 ⊗ uint 8 ⊗ uint 8
      ⊗ uint 8 ⊗ uint 8 ⊗ uint 8 ⊗ uint 8 ⊗ uint 8 ⊗ uint 8 ⊗ uint 8).
#[global] Instance ScopeInfo_layout : Layout ScopeInfo_codec.
Proof. solve_layout. Qed.
Module ScopeInfo.
(** abi/src/generated.rs:1615-1615 [ScopeInfo::SIZE] *)
Definition SIZE : nat := 144.
(** abi/src/generated.rs:1617-1617 [ScopeInfo::DESCRIPTOR_LEN] *)
Definition DESCRIPTOR_LEN : N := 176.
(** abi/src/generated.rs:1620-1624 [ScopeInfo::zeroed] *)
Definition zeroed : ScopeInfo :=
  mkScopeInfo ScopeLimits.zeroed 0 0 0 0 0 0 0 0 0 0 0 0 0 0.
End ScopeInfo.

(** abi/src/generated.rs:1657-1670 [DrainReport, its size and offsets] *)
Definition DrainReport_codec : Codec DrainReport :=
  via
    (λ x, (rp_state x, rp_threads_running x, rp_invocations_pending x, rp_effects_pending x,
      rp_maps_pending x, rp_undelivered_cancelled x, rp_external_unknown x, rp_reserved0 x,
      rp_retained_pages x, rp_retained_metadata x, rp_last_progress_ns x, rp_token x))
    (λ '(state_, threads_running_, invocations_pending_, effects_pending_, maps_pending_,
      undelivered_cancelled_, external_unknown_, reserved0_, retained_pages_,
      retained_metadata_, last_progress_ns_, token_),
      mkDrainReport state_ threads_running_ invocations_pending_ effects_pending_ maps_pending_
        undelivered_cancelled_ external_unknown_ reserved0_ retained_pages_ retained_metadata_
        last_progress_ns_ token_)
    (uint 4 ⊗ uint 4 ⊗ uint 4 ⊗ uint 4 ⊗ uint 4 ⊗ uint 4 ⊗ uint 4 ⊗ uint 4 ⊗ uint 8 ⊗ uint 8
      ⊗ uint 8 ⊗ uint 8).
#[global] Instance DrainReport_layout : Layout DrainReport_codec.
Proof. solve_layout. Qed.
Module DrainReport.
(** abi/src/generated.rs:1674-1674 [DrainReport::SIZE] *)
Definition SIZE : nat := 64.
(** abi/src/generated.rs:1676-1676 [DrainReport::DESCRIPTOR_LEN] *)
Definition DESCRIPTOR_LEN : N := 96.
(** abi/src/generated.rs:1679-1683 [DrainReport::zeroed] *)
Definition zeroed : DrainReport :=
  mkDrainReport 0 0 0 0 0 0 0 0 0 0 0 0.
End DrainReport.

(** abi/src/generated.rs:1689-1694 [DomainCreateRequest] *)
Record DomainCreateRequest := mkDomainCreateRequest {
  wdc_image_handle : N;
  wdc_name : list N
}.
#[global] Instance DomainCreateRequest_rebuild : Rebuild DomainCreateRequest := λ x,
  mkDomainCreateRequest (wdc_image_handle x) (wdc_name x).
(** abi/src/generated.rs:1696-1699 [DomainCreateRequest, its size and offsets] *)
Definition DomainCreateRequest_codec : Codec DomainCreateRequest :=
  via
    (λ x, (wdc_image_handle x, wdc_name x))
    (λ '(image_handle_, name_),
      mkDomainCreateRequest image_handle_ name_)
    (uint 8 ⊗ raw 16).
#[global] Instance DomainCreateRequest_layout : Layout DomainCreateRequest_codec.
Proof. solve_layout. Qed.
Module DomainCreateRequest.
(** abi/src/generated.rs:1703-1703 [DomainCreateRequest::SIZE] *)
Definition SIZE : nat := 24.
(** abi/src/generated.rs:1705-1705 [DomainCreateRequest::DESCRIPTOR_LEN] *)
Definition DESCRIPTOR_LEN : N := 56.
(** abi/src/generated.rs:1708-1712 [DomainCreateRequest::zeroed] *)
Definition zeroed : DomainCreateRequest :=
  mkDomainCreateRequest 0 (replicate 16 0).
End DomainCreateRequest.

(** abi/src/generated.rs:1718-1731 [MapRequest] *)
Record MapRequest := mkMapRequest {
  wmr_memory_handle : N;
  wmr_vaddr : N;
  wmr_offset_pages : N;
  wmr_page_count : N;
  wmr_rights : N;
  wmr_reserved0 : N
}.
#[global] Instance MapRequest_rebuild : Rebuild MapRequest := λ x,
  mkMapRequest (wmr_memory_handle x) (wmr_vaddr x) (wmr_offset_pages x) (wmr_page_count x)
    (wmr_rights x) (wmr_reserved0 x).
(** abi/src/generated.rs:1733-1740 [MapRequest, its size and offsets] *)
Definition MapRequest_codec : Codec MapRequest :=
  via
    (λ x, (wmr_memory_handle x, wmr_vaddr x, wmr_offset_pages x, wmr_page_count x, wmr_rights x,
      wmr_reserved0 x))
    (λ '(memory_handle_, vaddr_, offset_pages_, page_count_, rights_, reserved0_),
      mkMapRequest memory_handle_ vaddr_ offset_pages_ page_count_ rights_ reserved0_)
    (uint 8 ⊗ uint 8 ⊗ uint 4 ⊗ uint 4 ⊗ uint 4 ⊗ uint 4).
#[global] Instance MapRequest_layout : Layout MapRequest_codec.
Proof. solve_layout. Qed.
Module MapRequest.
(** abi/src/generated.rs:1744-1744 [MapRequest::SIZE] *)
Definition SIZE : nat := 32.
(** abi/src/generated.rs:1746-1746 [MapRequest::DESCRIPTOR_LEN] *)
Definition DESCRIPTOR_LEN : N := 64.
(** abi/src/generated.rs:1749-1753 [MapRequest::zeroed] *)
Definition zeroed : MapRequest :=
  mkMapRequest 0 0 0 0 0 0.
End MapRequest.

(** abi/src/generated.rs:1759-1766 [UnmapRequest] *)
Record UnmapRequest := mkUnmapRequest {
  wum_vaddr : N;
  wum_page_count : N;
  wum_reserved0 : N
}.
#[global] Instance UnmapRequest_rebuild : Rebuild UnmapRequest := λ x,
  mkUnmapRequest (wum_vaddr x) (wum_page_count x) (wum_reserved0 x).
(** abi/src/generated.rs:1768-1772 [UnmapRequest, its size and offsets] *)
Definition UnmapRequest_codec : Codec UnmapRequest :=
  via
    (λ x, (wum_vaddr x, wum_page_count x, wum_reserved0 x))
    (λ '(vaddr_, page_count_, reserved0_),
      mkUnmapRequest vaddr_ page_count_ reserved0_)
    (uint 8 ⊗ uint 4 ⊗ uint 4).
#[global] Instance UnmapRequest_layout : Layout UnmapRequest_codec.
Proof. solve_layout. Qed.
Module UnmapRequest.
(** abi/src/generated.rs:1776-1776 [UnmapRequest::SIZE] *)
Definition SIZE : nat := 16.
(** abi/src/generated.rs:1778-1778 [UnmapRequest::DESCRIPTOR_LEN] *)
Definition DESCRIPTOR_LEN : N := 48.
(** abi/src/generated.rs:1781-1785 [UnmapRequest::zeroed] *)
Definition zeroed : UnmapRequest :=
  mkUnmapRequest 0 0 0.
End UnmapRequest.

(** abi/src/generated.rs:1791-1800 [InstallCapRequest] *)
Record InstallCapRequest := mkInstallCapRequest {
  wic_source_handle : N;
  wic_deadline_ns : N;
  wic_target_slot : N;
  wic_rights_mask : N
}.
#[global] Instance InstallCapRequest_rebuild : Rebuild InstallCapRequest := λ x,
  mkInstallCapRequest (wic_source_handle x) (wic_deadline_ns x) (wic_target_slot x)
    (wic_rights_mask x).
(** abi/src/generated.rs:1802-1807 [InstallCapRequest, its size and offsets] *)
Definition InstallCapRequest_codec : Codec InstallCapRequest :=
  via
    (λ x, (wic_source_handle x, wic_deadline_ns x, wic_target_slot x, wic_rights_mask x))
    (λ '(source_handle_, deadline_ns_, target_slot_, rights_mask_),
      mkInstallCapRequest source_handle_ deadline_ns_ target_slot_ rights_mask_)
    (uint 8 ⊗ uint 8 ⊗ uint 4 ⊗ uint 4).
#[global] Instance InstallCapRequest_layout : Layout InstallCapRequest_codec.
Proof. solve_layout. Qed.
Module InstallCapRequest.
(** abi/src/generated.rs:1811-1811 [InstallCapRequest::SIZE] *)
Definition SIZE : nat := 24.
(** abi/src/generated.rs:1813-1813 [InstallCapRequest::DESCRIPTOR_LEN] *)
Definition DESCRIPTOR_LEN : N := 56.
(** abi/src/generated.rs:1816-1820 [InstallCapRequest::zeroed] *)
Definition zeroed : InstallCapRequest :=
  mkInstallCapRequest 0 0 0 0.
End InstallCapRequest.

(** abi/src/generated.rs:1826-1835 [ThreadCreateRequest] *)
Record ThreadCreateRequest := mkThreadCreateRequest {
  wtc_entry : N;
  wtc_stack_top : N;
  wtc_argument : N;
  wtc_reserved0 : N
}.
#[global] Instance ThreadCreateRequest_rebuild : Rebuild ThreadCreateRequest := λ x,
  mkThreadCreateRequest (wtc_entry x) (wtc_stack_top x) (wtc_argument x) (wtc_reserved0 x).
(** abi/src/generated.rs:1837-1842 [ThreadCreateRequest, its size and offsets] *)
Definition ThreadCreateRequest_codec : Codec ThreadCreateRequest :=
  via
    (λ x, (wtc_entry x, wtc_stack_top x, wtc_argument x, wtc_reserved0 x))
    (λ '(entry_, stack_top_, argument_, reserved0_),
      mkThreadCreateRequest entry_ stack_top_ argument_ reserved0_)
    (uint 8 ⊗ uint 8 ⊗ uint 8 ⊗ uint 8).
#[global] Instance ThreadCreateRequest_layout : Layout ThreadCreateRequest_codec.
Proof. solve_layout. Qed.
Module ThreadCreateRequest.
(** abi/src/generated.rs:1846-1846 [ThreadCreateRequest::SIZE] *)
Definition SIZE : nat := 32.
(** abi/src/generated.rs:1848-1848 [ThreadCreateRequest::DESCRIPTOR_LEN] *)
Definition DESCRIPTOR_LEN : N := 64.
(** abi/src/generated.rs:1851-1855 [ThreadCreateRequest::zeroed] *)
Definition zeroed : ThreadCreateRequest :=
  mkThreadCreateRequest 0 0 0 0.
End ThreadCreateRequest.

(** abi/src/generated.rs:1861-1866 [FaultChannelRequest] *)
Record FaultChannelRequest := mkFaultChannelRequest {
  wfc_endpoint_handle : N;
  wfc_reserved0 : N
}.
#[global] Instance FaultChannelRequest_rebuild : Rebuild FaultChannelRequest := λ x,
  mkFaultChannelRequest (wfc_endpoint_handle x) (wfc_reserved0 x).
(** abi/src/generated.rs:1868-1871 [FaultChannelRequest, its size and offsets] *)
Definition FaultChannelRequest_codec : Codec FaultChannelRequest :=
  via
    (λ x, (wfc_endpoint_handle x, wfc_reserved0 x))
    (λ '(endpoint_handle_, reserved0_),
      mkFaultChannelRequest endpoint_handle_ reserved0_)
    (uint 8 ⊗ uint 8).
#[global] Instance FaultChannelRequest_layout : Layout FaultChannelRequest_codec.
Proof. solve_layout. Qed.
Module FaultChannelRequest.
(** abi/src/generated.rs:1875-1875 [FaultChannelRequest::SIZE] *)
Definition SIZE : nat := 16.
(** abi/src/generated.rs:1877-1877 [FaultChannelRequest::DESCRIPTOR_LEN] *)
Definition DESCRIPTOR_LEN : N := 48.
(** abi/src/generated.rs:1880-1884 [FaultChannelRequest::zeroed] *)
Definition zeroed : FaultChannelRequest :=
  mkFaultChannelRequest 0 0.
End FaultChannelRequest.

(** abi/src/generated.rs:1890-1913 [DomainInfo] *)
Record DomainInfo := mkDomainInfo {
  wdi_state : N;
  wdi_threads : N;
  wdi_faults : N;
  wdi_space_cpu_mask : N;
  wdi_domain_id : N;
  wdi_owner_scope_id : N;
  wdi_exit_code : N;
  wdi_fault_vector : N;
  wdi_fault_rip : N;
  wdi_charged_pages : N;
  wdi_entry_point : N
}.
#[global] Instance DomainInfo_rebuild : Rebuild DomainInfo := λ x,
  mkDomainInfo (wdi_state x) (wdi_threads x) (wdi_faults x) (wdi_space_cpu_mask x)
    (wdi_domain_id x) (wdi_owner_scope_id x) (wdi_exit_code x) (wdi_fault_vector x)
    (wdi_fault_rip x) (wdi_charged_pages x) (wdi_entry_point x).
(** abi/src/generated.rs:1915-1927 [DomainInfo, its size and offsets] *)
Definition DomainInfo_codec : Codec DomainInfo :=
  via
    (λ x, (wdi_state x, wdi_threads x, wdi_faults x, wdi_space_cpu_mask x, wdi_domain_id x,
      wdi_owner_scope_id x, wdi_exit_code x, wdi_fault_vector x, wdi_fault_rip x,
      wdi_charged_pages x, wdi_entry_point x))
    (λ '(state_, threads_, faults_, space_cpu_mask_, domain_id_, owner_scope_id_, exit_code_,
      fault_vector_, fault_rip_, charged_pages_, entry_point_),
      mkDomainInfo state_ threads_ faults_ space_cpu_mask_ domain_id_ owner_scope_id_ exit_code_
        fault_vector_ fault_rip_ charged_pages_ entry_point_)
    (uint 4 ⊗ uint 4 ⊗ uint 4 ⊗ uint 4 ⊗ uint 8 ⊗ uint 8 ⊗ uint 8 ⊗ uint 8 ⊗ uint 8 ⊗ uint 8
      ⊗ uint 8).
#[global] Instance DomainInfo_layout : Layout DomainInfo_codec.
Proof. solve_layout. Qed.
Module DomainInfo.
(** abi/src/generated.rs:1931-1931 [DomainInfo::SIZE] *)
Definition SIZE : nat := 72.
(** abi/src/generated.rs:1933-1933 [DomainInfo::DESCRIPTOR_LEN] *)
Definition DESCRIPTOR_LEN : N := 104.
(** abi/src/generated.rs:1936-1940 [DomainInfo::zeroed] *)
Definition zeroed : DomainInfo :=
  mkDomainInfo 0 0 0 0 0 0 0 0 0 0 0.
End DomainInfo.

(** abi/src/generated.rs:1946-1955 [MemoryCreateRequest] *)
Record MemoryCreateRequest := mkMemoryCreateRequest {
  wmc_pages : N;
  wmc_max_rights : N;
  wmc_reserved0 : N;
  wmc_label : list N
}.
#[global] Instance MemoryCreateRequest_rebuild : Rebuild MemoryCreateRequest := λ x,
  mkMemoryCreateRequest (wmc_pages x) (wmc_max_rights x) (wmc_reserved0 x) (wmc_label x).
(** abi/src/generated.rs:1957-1962 [MemoryCreateRequest, its size and offsets] *)
Definition MemoryCreateRequest_codec : Codec MemoryCreateRequest :=
  via
    (λ x, (wmc_pages x, wmc_max_rights x, wmc_reserved0 x, wmc_label x))
    (λ '(pages_, max_rights_, reserved0_, label_),
      mkMemoryCreateRequest pages_ max_rights_ reserved0_ label_)
    (uint 8 ⊗ uint 4 ⊗ uint 4 ⊗ raw 16).
#[global] Instance MemoryCreateRequest_layout : Layout MemoryCreateRequest_codec.
Proof. solve_layout. Qed.
Module MemoryCreateRequest.
(** abi/src/generated.rs:1966-1966 [MemoryCreateRequest::SIZE] *)
Definition SIZE : nat := 32.
(** abi/src/generated.rs:1968-1968 [MemoryCreateRequest::DESCRIPTOR_LEN] *)
Definition DESCRIPTOR_LEN : N := 64.
(** abi/src/generated.rs:1971-1975 [MemoryCreateRequest::zeroed] *)
Definition zeroed : MemoryCreateRequest :=
  mkMemoryCreateRequest 0 0 0 (replicate 16 0).
End MemoryCreateRequest.

(** abi/src/generated.rs:1981-1998 [MemoryInfo] *)
Record MemoryInfo := mkMemoryInfo {
  wmi_state : N;
  wmi_max_rights : N;
  wmi_map_count : N;
  wmi_writable_maps : N;
  wmi_pages : N;
  wmi_object_id : N;
  wmi_sponsor_scope_id : N;
  wmi_label : list N
}.
#[global] Instance MemoryInfo_rebuild : Rebuild MemoryInfo := λ x,
  mkMemoryInfo (wmi_state x) (wmi_max_rights x) (wmi_map_count x) (wmi_writable_maps x)
    (wmi_pages x) (wmi_object_id x) (wmi_sponsor_scope_id x) (wmi_label x).
(** abi/src/generated.rs:2000-2009 [MemoryInfo, its size and offsets] *)
Definition MemoryInfo_codec : Codec MemoryInfo :=
  via
    (λ x, (wmi_state x, wmi_max_rights x, wmi_map_count x, wmi_writable_maps x, wmi_pages x,
      wmi_object_id x, wmi_sponsor_scope_id x, wmi_label x))
    (λ '(state_, max_rights_, map_count_, writable_maps_, pages_, object_id_, sponsor_scope_id_,
      label_),
      mkMemoryInfo state_ max_rights_ map_count_ writable_maps_ pages_ object_id_
        sponsor_scope_id_ label_)
    (uint 4 ⊗ uint 4 ⊗ uint 4 ⊗ uint 4 ⊗ uint 8 ⊗ uint 8 ⊗ uint 8 ⊗ raw 16).
#[global] Instance MemoryInfo_layout : Layout MemoryInfo_codec.
Proof. solve_layout. Qed.
Module MemoryInfo.
(** abi/src/generated.rs:2013-2013 [MemoryInfo::SIZE] *)
Definition SIZE : nat := 56.
(** abi/src/generated.rs:2015-2015 [MemoryInfo::DESCRIPTOR_LEN] *)
Definition DESCRIPTOR_LEN : N := 88.
(** abi/src/generated.rs:2018-2022 [MemoryInfo::zeroed] *)
Definition zeroed : MemoryInfo :=
  mkMemoryInfo 0 0 0 0 0 0 0 (replicate 16 0).
End MemoryInfo.

(** abi/src/generated.rs:2028-2037 [MemoryCopyRequest] *)
Record MemoryCopyRequest := mkMemoryCopyRequest {
  wmp_source_handle : N;
  wmp_source_offset : N;
  wmp_dest_offset : N;
  wmp_length : N
}.
#[global] Instance MemoryCopyRequest_rebuild : Rebuild MemoryCopyRequest := λ x,
  mkMemoryCopyRequest (wmp_source_handle x) (wmp_source_offset x) (wmp_dest_offset x)
    (wmp_length x).
(** abi/src/generated.rs:2039-2044 [MemoryCopyRequest, its size and offsets] *)
Definition MemoryCopyRequest_codec : Codec MemoryCopyRequest :=
  via
    (λ x, (wmp_source_handle x, wmp_source_offset x, wmp_dest_offset x, wmp_length x))
    (λ '(source_handle_, source_offset_, dest_offset_, length_),
      mkMemoryCopyRequest source_handle_ source_offset_ dest_offset_ length_)
    (uint 8 ⊗ uint 8 ⊗ uint 8 ⊗ uint 8).
#[global] Instance MemoryCopyRequest_layout : Layout MemoryCopyRequest_codec.
Proof. solve_layout. Qed.
Module MemoryCopyRequest.
(** abi/src/generated.rs:2048-2048 [MemoryCopyRequest::SIZE] *)
Definition SIZE : nat := 32.
(** abi/src/generated.rs:2050-2050 [MemoryCopyRequest::DESCRIPTOR_LEN] *)
Definition DESCRIPTOR_LEN : N := 64.
(** abi/src/generated.rs:2053-2057 [MemoryCopyRequest::zeroed] *)
Definition zeroed : MemoryCopyRequest :=
  mkMemoryCopyRequest 0 0 0 0.
End MemoryCopyRequest.

(** abi/src/generated.rs:2063-2070 [MemoryBytes] *)
Record MemoryBytes := mkMemoryBytes {
  wmb_offset : N;
  wmb_length : N;
  wmb_bytes : list N
}.
#[global] Instance MemoryBytes_rebuild : Rebuild MemoryBytes := λ x,
  mkMemoryBytes (wmb_offset x) (wmb_length x) (wmb_bytes x).
(** abi/src/generated.rs:2072-2076 [MemoryBytes, its size and offsets] *)
Definition MemoryBytes_codec : Codec MemoryBytes :=
  via
    (λ x, (wmb_offset x, wmb_length x, wmb_bytes x))
    (λ '(offset_, length_, bytes_),
      mkMemoryBytes offset_ length_ bytes_)
    (uint 8 ⊗ uint 8 ⊗ raw 256).
#[global] Instance MemoryBytes_layout : Layout MemoryBytes_codec.
Proof. solve_layout. Qed.
Module MemoryBytes.
(** abi/src/generated.rs:2080-2080 [MemoryBytes::SIZE] *)
Definition SIZE : nat := 272.
(** abi/src/generated.rs:2082-2082 [MemoryBytes::DESCRIPTOR_LEN] *)
Definition DESCRIPTOR_LEN : N := 304.
(** abi/src/generated.rs:2085-2089 [MemoryBytes::zeroed] *)
Definition zeroed : MemoryBytes :=
  mkMemoryBytes 0 0 (replicate 256 0).
End MemoryBytes.

(** abi/src/generated.rs:2095-2102 [EndpointCreateRequest] *)
Record EndpointCreateRequest := mkEndpointCreateRequest {
  wec_queue_capacity : N;
  wec_reserved0 : N;
  wec_label : list N
}.
#[global] Instance EndpointCreateRequest_rebuild : Rebuild EndpointCreateRequest := λ x,
  mkEndpointCreateRequest (wec_queue_capacity x) (wec_reserved0 x) (wec_label x).
(** abi/src/generated.rs:2104-2108 [EndpointCreateRequest, its size and offsets] *)
Definition EndpointCreateRequest_codec : Codec EndpointCreateRequest :=
  via
    (λ x, (wec_queue_capacity x, wec_reserved0 x, wec_label x))
    (λ '(queue_capacity_, reserved0_, label_),
      mkEndpointCreateRequest queue_capacity_ reserved0_ label_)
    (uint 4 ⊗ uint 4 ⊗ raw 16).
#[global] Instance EndpointCreateRequest_layout : Layout EndpointCreateRequest_codec.
Proof. solve_layout. Qed.
Module EndpointCreateRequest.
(** abi/src/generated.rs:2112-2112 [EndpointCreateRequest::SIZE] *)
Definition SIZE : nat := 24.
(** abi/src/generated.rs:2114-2114 [EndpointCreateRequest::DESCRIPTOR_LEN] *)
Definition DESCRIPTOR_LEN : N := 56.
(** abi/src/generated.rs:2117-2121 [EndpointCreateRequest::zeroed] *)
Definition zeroed : EndpointCreateRequest :=
  mkEndpointCreateRequest 0 0 (replicate 16 0).
End EndpointCreateRequest.

(** abi/src/generated.rs:2127-2136 [BindFacetRequest] *)
Record BindFacetRequest := mkBindFacetRequest {
  wbf_facet : N;
  wbf_deadline_ns : N;
  wbf_rights_mask : N;
  wbf_reserved0 : N
}.
#[global] Instance BindFacetRequest_rebuild : Rebuild BindFacetRequest := λ x,
  mkBindFacetRequest (wbf_facet x) (wbf_deadline_ns x) (wbf_rights_mask x) (wbf_reserved0 x).
(** abi/src/generated.rs:2138-2143 [BindFacetRequest, its size and offsets] *)
Definition BindFacetRequest_codec : Codec BindFacetRequest :=
  via
    (λ x, (wbf_facet x, wbf_deadline_ns x, wbf_rights_mask x, wbf_reserved0 x))
    (λ '(facet_, deadline_ns_, rights_mask_, reserved0_),
      mkBindFacetRequest facet_ deadline_ns_ rights_mask_ reserved0_)
    (uint 8 ⊗ uint 8 ⊗ uint 4 ⊗ uint 4).
#[global] Instance BindFacetRequest_layout : Layout BindFacetRequest_codec.
Proof. solve_layout. Qed.
Module BindFacetRequest.
(** abi/src/generated.rs:2147-2147 [BindFacetRequest::SIZE] *)
Definition SIZE : nat := 24.
(** abi/src/generated.rs:2149-2149 [BindFacetRequest::DESCRIPTOR_LEN] *)
Definition DESCRIPTOR_LEN : N := 56.
(** abi/src/generated.rs:2152-2156 [BindFacetRequest::zeroed] *)
Definition zeroed : BindFacetRequest :=
  mkBindFacetRequest 0 0 0 0.
End BindFacetRequest.

(** abi/src/generated.rs:2162-2179 [EndpointInfo] *)
Record EndpointInfo := mkEndpointInfo {
  wei_queue_capacity : N;
  wei_queued : N;
  wei_reserved_cells : N;
  wei_facets : N;
  wei_epoch : N;
  wei_object_id : N;
  wei_admitted : N;
  wei_delivered : N
}.
#[global] Instance EndpointInfo_rebuild : Rebuild EndpointInfo := λ x,
  mkEndpointInfo (wei_queue_capacity x) (wei_queued x) (wei_reserved_cells x) (wei_facets x)
    (wei_epoch x) (wei_object_id x) (wei_admitted x) (wei_delivered x).
(** abi/src/generated.rs:2181-2190 [EndpointInfo, its size and offsets] *)
Definition EndpointInfo_codec : Codec EndpointInfo :=
  via
    (λ x, (wei_queue_capacity x, wei_queued x, wei_reserved_cells x, wei_facets x, wei_epoch x,
      wei_object_id x, wei_admitted x, wei_delivered x))
    (λ '(queue_capacity_, queued_, reserved_cells_, facets_, epoch_, object_id_, admitted_,
      delivered_),
      mkEndpointInfo queue_capacity_ queued_ reserved_cells_ facets_ epoch_ object_id_ admitted_
        delivered_)
    (uint 4 ⊗ uint 4 ⊗ uint 4 ⊗ uint 4 ⊗ uint 8 ⊗ uint 8 ⊗ uint 8 ⊗ uint 8).
#[global] Instance EndpointInfo_layout : Layout EndpointInfo_codec.
Proof. solve_layout. Qed.
Module EndpointInfo.
(** abi/src/generated.rs:2194-2194 [EndpointInfo::SIZE] *)
Definition SIZE : nat := 48.
(** abi/src/generated.rs:2196-2196 [EndpointInfo::DESCRIPTOR_LEN] *)
Definition DESCRIPTOR_LEN : N := 80.
(** abi/src/generated.rs:2199-2203 [EndpointInfo::zeroed] *)
Definition zeroed : EndpointInfo :=
  mkEndpointInfo 0 0 0 0 0 0 0 0.
End EndpointInfo.

(** abi/src/generated.rs:2209-2234 [MessageHeader] *)
Record MessageHeader := mkMessageHeader {
  wmh_epoch : N;
  wmh_invocation_id : N;
  wmh_sender_domain_id : N;
  wmh_sender_scope_id : N;
  wmh_parent_invocation_id : N;
  wmh_facet : N;
  wmh_grant_id : N;
  wmh_sent_ns : N;
  wmh_rights_transferred : N;
  wmh_cancel_state : N;
  wmh_kind : N;
  wmh_payload_len : N
}.
#[global] Instance MessageHeader_rebuild : Rebuild MessageHeader := λ x,
  mkMessageHeader (wmh_epoch x) (wmh_invocation_id x) (wmh_sender_domain_id x)
    (wmh_sender_scope_id x) (wmh_parent_invocation_id x) (wmh_facet x) (wmh_grant_id x)
    (wmh_sent_ns x) (wmh_rights_transferred x) (wmh_cancel_state x) (wmh_kind x)
    (wmh_payload_len x).
(** abi/src/generated.rs:2236-2249 [MessageHeader, its size and offsets] *)
Definition MessageHeader_codec : Codec MessageHeader :=
  via
    (λ x, (wmh_epoch x, wmh_invocation_id x, wmh_sender_domain_id x, wmh_sender_scope_id x,
      wmh_parent_invocation_id x, wmh_facet x, wmh_grant_id x, wmh_sent_ns x,
      wmh_rights_transferred x, wmh_cancel_state x, wmh_kind x, wmh_payload_len x))
    (λ '(epoch_, invocation_id_, sender_domain_id_, sender_scope_id_, parent_invocation_id_,
      facet_, grant_id_, sent_ns_, rights_transferred_, cancel_state_, kind_, payload_len_),
      mkMessageHeader epoch_ invocation_id_ sender_domain_id_ sender_scope_id_
        parent_invocation_id_ facet_ grant_id_ sent_ns_ rights_transferred_ cancel_state_ kind_
        payload_len_)
    (uint 8 ⊗ uint 8 ⊗ uint 8 ⊗ uint 8 ⊗ uint 8 ⊗ uint 8 ⊗ uint 8 ⊗ uint 8 ⊗ uint 4 ⊗ uint 4
      ⊗ uint 4 ⊗ uint 4).
#[global] Instance MessageHeader_layout : Layout MessageHeader_codec.
Proof. solve_layout. Qed.
Module MessageHeader.
(** abi/src/generated.rs:2253-2253 [MessageHeader::SIZE] *)
Definition SIZE : nat := 80.
(** abi/src/generated.rs:2255-2255 [MessageHeader::DESCRIPTOR_LEN] *)
Definition DESCRIPTOR_LEN : N := 112.
(** abi/src/generated.rs:2258-2262 [MessageHeader::zeroed] *)
Definition zeroed : MessageHeader :=
  mkMessageHeader 0 0 0 0 0 0 0 0 0 0 0 0.
End MessageHeader.

(** abi/src/generated.rs:2268-2279 [SendRequest] *)
Record SendRequest := mkSendRequest {
  wsr_payload_len : N;
  wsr_cap_count : N;
  wsr_caps : list N;
  wsr_cap_ops : list N;
  wsr_payload : list N
}.
#[global] Instance SendRequest_rebuild : Rebuild SendRequest := λ x,
  mkSendRequest (wsr_payload_len x) (wsr_cap_count x) (wsr_caps x) (wsr_cap_ops x)
    (wsr_payload x).
(** abi/src/generated.rs:2281-2287 [SendRequest, its size and offsets] *)
Definition SendRequest_codec : Codec SendRequest :=
  via
    (λ x, (wsr_payload_len x, wsr_cap_count x, wsr_caps x, wsr_cap_ops x, wsr_payload x))
    (λ '(payload_len_, cap_count_, caps_, cap_ops_, payload_),
      mkSendRequest payload_len_ cap_count_ caps_ cap_ops_ payload_)
    (uint 4 ⊗ uint 4 ⊗ many 4 (uint 8) ⊗ many 4 (uint 4) ⊗ raw 256).
#[global] Instance SendRequest_layout : Layout SendRequest_codec.
Proof. solve_layout. Qed.
Module SendRequest.
(** abi/src/generated.rs:2291-2291 [SendRequest::SIZE] *)
Definition SIZE : nat := 312.
(** abi/src/generated.rs:2293-2293 [SendRequest::DESCRIPTOR_LEN] *)
Definition DESCRIPTOR_LEN : N := 344.
(** abi/src/generated.rs:2296-2300 [SendRequest::zeroed] *)
Definition zeroed : SendRequest :=
  mkSendRequest 0 0 (replicate 4 0) (replicate 4 0) (replicate 256 0).
End SendRequest.

(** abi/src/generated.rs:2306-2319 [CallResult] *)
Record CallResult := mkCallResult {
  wcr_payload_len : N;
  wcr_cap_count : N;
  wcr_caps : list N;
  wcr_result : N;
  wcr_invocation_id : N;
  wcr_payload : list N
}.
#[global] Instance CallResult_rebuild : Rebuild CallResult := λ x,
  mkCallResult (wcr_payload_len x) (wcr_cap_count x) (wcr_caps x) (wcr_result x)
    (wcr_invocation_id x) (wcr_payload x).
(** abi/src/generated.rs:2321-2328 [CallResult, its size and offsets] *)
Definition CallResult_codec : Codec CallResult :=
  via
    (λ x, (wcr_payload_len x, wcr_cap_count x, wcr_caps x, wcr_result x, wcr_invocation_id x,
      wcr_payload x))
    (λ '(payload_len_, cap_count_, caps_, result_, invocation_id_, payload_),
      mkCallResult payload_len_ cap_count_ caps_ result_ invocation_id_ payload_)
    (uint 4 ⊗ uint 4 ⊗ many 4 (uint 8) ⊗ uint 8 ⊗ uint 8 ⊗ raw 256).
#[global] Instance CallResult_layout : Layout CallResult_codec.
Proof. solve_layout. Qed.
Module CallResult.
(** abi/src/generated.rs:2332-2332 [CallResult::SIZE] *)
Definition SIZE : nat := 312.
(** abi/src/generated.rs:2334-2334 [CallResult::DESCRIPTOR_LEN] *)
Definition DESCRIPTOR_LEN : N := 344.
(** abi/src/generated.rs:2337-2341 [CallResult::zeroed] *)
Definition zeroed : CallResult :=
  mkCallResult 0 0 (replicate 4 0) 0 0 (replicate 256 0).
End CallResult.

(** abi/src/generated.rs:2347-2358 [ReceiveResult] *)
Record ReceiveResult := mkReceiveResult {
  wrr_header : MessageHeader;
  wrr_cap_count : N;
  wrr_reserved0 : N;
  wrr_caps : list N;
  wrr_payload : list N
}.
#[global] Instance ReceiveResult_rebuild : Rebuild ReceiveResult := λ x,
  mkReceiveResult (wrr_header x) (wrr_cap_count x) (wrr_reserved0 x) (wrr_caps x)
    (wrr_payload x).
(** abi/src/generated.rs:2360-2366 [ReceiveResult, its size and offsets] *)
Definition ReceiveResult_codec : Codec ReceiveResult :=
  via
    (λ x, (wrr_header x, wrr_cap_count x, wrr_reserved0 x, wrr_caps x, wrr_payload x))
    (λ '(header_, cap_count_, reserved0_, caps_, payload_),
      mkReceiveResult header_ cap_count_ reserved0_ caps_ payload_)
    (whole MessageHeader_codec ⊗ uint 4 ⊗ uint 4 ⊗ many 4 (uint 8) ⊗ raw 256).
#[global] Instance ReceiveResult_layout : Layout ReceiveResult_codec.
Proof. solve_layout. Qed.
Module ReceiveResult.
(** abi/src/generated.rs:2370-2370 [ReceiveResult::SIZE] *)
Definition SIZE : nat := 376.
(** abi/src/generated.rs:2372-2372 [ReceiveResult::DESCRIPTOR_LEN] *)
Definition DESCRIPTOR_LEN : N := 408.
(** abi/src/generated.rs:2375-2379 [ReceiveResult::zeroed] *)
Definition zeroed : ReceiveResult :=
  mkReceiveResult MessageHeader.zeroed 0 0 (replicate 4 0) (replicate 256 0).
End ReceiveResult.

(** abi/src/generated.rs:2385-2398 [ReplyRequest] *)
Record ReplyRequest := mkReplyRequest {
  wrq_payload_len : N;
  wrq_cap_count : N;
  wrq_caps : list N;
  wrq_cap_ops : list N;
  wrq_result : N;
  wrq_payload : list N
}.
#[global] Instance ReplyRequest_rebuild : Rebuild ReplyRequest := λ x,
  mkReplyRequest (wrq_payload_len x) (wrq_cap_count x) (wrq_caps x) (wrq_cap_ops x)
    (wrq_result x) (wrq_payload x).
(** abi/src/generated.rs:2400-2407 [ReplyRequest, its size and offsets] *)
Definition ReplyRequest_codec : Codec ReplyRequest :=
  via
    (λ x, (wrq_payload_len x, wrq_cap_count x, wrq_caps x, wrq_cap_ops x, wrq_result x,
      wrq_payload x))
    (λ '(payload_len_, cap_count_, caps_, cap_ops_, result_, payload_),
      mkReplyRequest payload_len_ cap_count_ caps_ cap_ops_ result_ payload_)
    (uint 4 ⊗ uint 4 ⊗ many 4 (uint 8) ⊗ many 4 (uint 4) ⊗ uint 8 ⊗ raw 256).
#[global] Instance ReplyRequest_layout : Layout ReplyRequest_codec.
Proof. solve_layout. Qed.
Module ReplyRequest.
(** abi/src/generated.rs:2411-2411 [ReplyRequest::SIZE] *)
Definition SIZE : nat := 320.
(** abi/src/generated.rs:2413-2413 [ReplyRequest::DESCRIPTOR_LEN] *)
Definition DESCRIPTOR_LEN : N := 352.
(** abi/src/generated.rs:2416-2420 [ReplyRequest::zeroed] *)
Definition zeroed : ReplyRequest :=
  mkReplyRequest 0 0 (replicate 4 0) (replicate 4 0) 0 (replicate 256 0).
End ReplyRequest.

(** abi/src/generated.rs:2426-2433 [EffectRequest] *)
Record EffectRequest := mkEffectRequest {
  wer_closure_reserve_ns : N;
  wer_effect_kind : N;
  wer_reserved0 : N
}.
#[global] Instance EffectRequest_rebuild : Rebuild EffectRequest := λ x,
  mkEffectRequest (wer_closure_reserve_ns x) (wer_effect_kind x) (wer_reserved0 x).
(** abi/src/generated.rs:2435-2439 [EffectRequest, its size and offsets] *)
Definition EffectRequest_codec : Codec EffectRequest :=
  via
    (λ x, (wer_closure_reserve_ns x, wer_effect_kind x, wer_reserved0 x))
    (λ '(closure_reserve_ns_, effect_kind_, reserved0_),
      mkEffectRequest closure_reserve_ns_ effect_kind_ reserved0_)
    (uint 8 ⊗ uint 4 ⊗ uint 4).
#[global] Instance EffectRequest_layout : Layout EffectRequest_codec.
Proof. solve_layout. Qed.
Module EffectRequest.
(** abi/src/generated.rs:2443-2443 [EffectRequest::SIZE] *)
Definition SIZE : nat := 16.
(** abi/src/generated.rs:2445-2445 [EffectRequest::DESCRIPTOR_LEN] *)
Definition DESCRIPTOR_LEN : N := 48.
(** abi/src/generated.rs:2448-2452 [EffectRequest::zeroed] *)
Definition zeroed : EffectRequest :=
  mkEffectRequest 0 0 0.
End EffectRequest.

(** abi/src/generated.rs:2458-2465 [ResolveRequest] *)
Record ResolveRequest := mkResolveRequest {
  wrv_outcome : N;
  wrv_reserved0 : N;
  wrv_detail : N
}.
#[global] Instance ResolveRequest_rebuild : Rebuild ResolveRequest := λ x,
  mkResolveRequest (wrv_outcome x) (wrv_reserved0 x) (wrv_detail x).
(** abi/src/generated.rs:2467-2471 [ResolveRequest, its size and offsets] *)
Definition ResolveRequest_codec : Codec ResolveRequest :=
  via
    (λ x, (wrv_outcome x, wrv_reserved0 x, wrv_detail x))
    (λ '(outcome_, reserved0_, detail_),
      mkResolveRequest outcome_ reserved0_ detail_)
    (uint 4 ⊗ uint 4 ⊗ uint 8).
#[global] Instance ResolveRequest_layout : Layout ResolveRequest_codec.
Proof. solve_layout. Qed.
Module ResolveRequest.
(** abi/src/generated.rs:2475-2475 [ResolveRequest::SIZE] *)
Definition SIZE : nat := 16.
(** abi/src/generated.rs:2477-2477 [ResolveRequest::DESCRIPTOR_LEN] *)
Definition DESCRIPTOR_LEN : N := 48.
(** abi/src/generated.rs:2480-2484 [ResolveRequest::zeroed] *)
Definition zeroed : ResolveRequest :=
  mkResolveRequest 0 0 0.
End ResolveRequest.

(** abi/src/generated.rs:2490-2511 [InvocationInfo] *)
Record InvocationInfo := mkInvocationInfo {
  wii_state : N;
  wii_cancel_state : N;
  wii_effect_state : N;
  wii_reserved0 : N;
  wii_invocation_id : N;
  wii_origin_domain_id : N;
  wii_origin_scope_id : N;
  wii_facet : N;
  wii_grant_id : N;
  wii_admitted_ns : N
}.
#[global] Instance InvocationInfo_rebuild : Rebuild InvocationInfo := λ x,
  mkInvocationInfo (wii_state x) (wii_cancel_state x) (wii_effect_state x) (wii_reserved0 x)
    (wii_invocation_id x) (wii_origin_domain_id x) (wii_origin_scope_id x) (wii_facet x)
    (wii_grant_id x) (wii_admitted_ns x).
(** abi/src/generated.rs:2513-2524 [InvocationInfo, its size and offsets] *)
Definition InvocationInfo_codec : Codec InvocationInfo :=
  via
    (λ x, (wii_state x, wii_cancel_state x, wii_effect_state x, wii_reserved0 x,
      wii_invocation_id x, wii_origin_domain_id x, wii_origin_scope_id x, wii_facet x,
      wii_grant_id x, wii_admitted_ns x))
    (λ '(state_, cancel_state_, effect_state_, reserved0_, invocation_id_, origin_domain_id_,
      origin_scope_id_, facet_, grant_id_, admitted_ns_),
      mkInvocationInfo state_ cancel_state_ effect_state_ reserved0_ invocation_id_
        origin_domain_id_ origin_scope_id_ facet_ grant_id_ admitted_ns_)
    (uint 4 ⊗ uint 4 ⊗ uint 4 ⊗ uint 4 ⊗ uint 8 ⊗ uint 8 ⊗ uint 8 ⊗ uint 8 ⊗ uint 8 ⊗ uint 8).
#[global] Instance InvocationInfo_layout : Layout InvocationInfo_codec.
Proof. solve_layout. Qed.
Module InvocationInfo.
(** abi/src/generated.rs:2528-2528 [InvocationInfo::SIZE] *)
Definition SIZE : nat := 64.
(** abi/src/generated.rs:2530-2530 [InvocationInfo::DESCRIPTOR_LEN] *)
Definition DESCRIPTOR_LEN : N := 96.
(** abi/src/generated.rs:2533-2537 [InvocationInfo::zeroed] *)
Definition zeroed : InvocationInfo :=
  mkInvocationInfo 0 0 0 0 0 0 0 0 0 0.
End InvocationInfo.

(** abi/src/generated.rs:2543-2546 [SignalBits] *)
Record SignalBits := mkSignalBits {
  wsb_bits : N
}.
#[global] Instance SignalBits_rebuild : Rebuild SignalBits := λ x,
  mkSignalBits (wsb_bits x).
(** abi/src/generated.rs:2548-2550 [SignalBits, its size and offsets] *)
Definition SignalBits_codec : Codec SignalBits :=
  via
    (λ x, wsb_bits x)
    (λ bits_,
      mkSignalBits bits_)
    (uint 8).
#[global] Instance SignalBits_layout : Layout SignalBits_codec.
Proof. solve_layout. Qed.
Module SignalBits.
(** abi/src/generated.rs:2554-2554 [SignalBits::SIZE] *)
Definition SIZE : nat := 8.
(** abi/src/generated.rs:2556-2556 [SignalBits::DESCRIPTOR_LEN] *)
Definition DESCRIPTOR_LEN : N := 40.
(** abi/src/generated.rs:2559-2563 [SignalBits::zeroed] *)
Definition zeroed : SignalBits :=
  mkSignalBits 0.
End SignalBits.

(** abi/src/generated.rs:2569-2580 [SignalInfo] *)
Record SignalInfo := mkSignalInfo {
  wsg_bits : N;
  wsg_sequence : N;
  wsg_object_id : N;
  wsg_waiters : N;
  wsg_reserved0 : N
}.
#[global] Instance SignalInfo_rebuild : Rebuild SignalInfo := λ x,
  mkSignalInfo (wsg_bits x) (wsg_sequence x) (wsg_object_id x) (wsg_waiters x) (wsg_reserved0 x).
(** abi/src/generated.rs:2582-2588 [SignalInfo, its size and offsets] *)
Definition SignalInfo_codec : Codec SignalInfo :=
  via
    (λ x, (wsg_bits x, wsg_sequence x, wsg_object_id x, wsg_waiters x, wsg_reserved0 x))
    (λ '(bits_, sequence_, object_id_, waiters_, reserved0_),
      mkSignalInfo bits_ sequence_ object_id_ waiters_ reserved0_)
    (uint 8 ⊗ uint 8 ⊗ uint 8 ⊗ uint 4 ⊗ uint 4).
#[global] Instance SignalInfo_layout : Layout SignalInfo_codec.
Proof. solve_layout. Qed.
Module SignalInfo.
(** abi/src/generated.rs:2592-2592 [SignalInfo::SIZE] *)
Definition SIZE : nat := 32.
(** abi/src/generated.rs:2594-2594 [SignalInfo::DESCRIPTOR_LEN] *)
Definition DESCRIPTOR_LEN : N := 64.
(** abi/src/generated.rs:2597-2601 [SignalInfo::zeroed] *)
Definition zeroed : SignalInfo :=
  mkSignalInfo 0 0 0 0 0.
End SignalInfo.

(** abi/src/generated.rs:2607-2612 [TimerCreateRequest] *)
Record TimerCreateRequest := mkTimerCreateRequest {
  wtr_signal_handle : N;
  wtr_bits : N
}.
#[global] Instance TimerCreateRequest_rebuild : Rebuild TimerCreateRequest := λ x,
  mkTimerCreateRequest (wtr_signal_handle x) (wtr_bits x).
(** abi/src/generated.rs:2614-2617 [TimerCreateRequest, its size and offsets] *)
Definition TimerCreateRequest_codec : Codec TimerCreateRequest :=
  via
    (λ x, (wtr_signal_handle x, wtr_bits x))
    (λ '(signal_handle_, bits_),
      mkTimerCreateRequest signal_handle_ bits_)
    (uint 8 ⊗ uint 8).
#[global] Instance TimerCreateRequest_layout : Layout TimerCreateRequest_codec.
Proof. solve_layout. Qed.
Module TimerCreateRequest.
(** abi/src/generated.rs:2621-2621 [TimerCreateRequest::SIZE] *)
Definition SIZE : nat := 16.
(** abi/src/generated.rs:2623-2623 [TimerCreateRequest::DESCRIPTOR_LEN] *)
Definition DESCRIPTOR_LEN : N := 48.
(** abi/src/generated.rs:2626-2630 [TimerCreateRequest::zeroed] *)
Definition zeroed : TimerCreateRequest :=
  mkTimerCreateRequest 0 0.
End TimerCreateRequest.

(** abi/src/generated.rs:2636-2639 [TimerArmRequest] *)
Record TimerArmRequest := mkTimerArmRequest {
  wta_deadline_ns : N
}.
#[global] Instance TimerArmRequest_rebuild : Rebuild TimerArmRequest := λ x,
  mkTimerArmRequest (wta_deadline_ns x).
(** abi/src/generated.rs:2641-2643 [TimerArmRequest, its size and offsets] *)
Definition TimerArmRequest_codec : Codec TimerArmRequest :=
  via
    (λ x, wta_deadline_ns x)
    (λ deadline_ns_,
      mkTimerArmRequest deadline_ns_)
    (uint 8).
#[global] Instance TimerArmRequest_layout : Layout TimerArmRequest_codec.
Proof. solve_layout. Qed.
Module TimerArmRequest.
(** abi/src/generated.rs:2647-2647 [TimerArmRequest::SIZE] *)
Definition SIZE : nat := 8.
(** abi/src/generated.rs:2649-2649 [TimerArmRequest::DESCRIPTOR_LEN] *)
Definition DESCRIPTOR_LEN : N := 40.
(** abi/src/generated.rs:2652-2656 [TimerArmRequest::zeroed] *)
Definition zeroed : TimerArmRequest :=
  mkTimerArmRequest 0.
End TimerArmRequest.

(** abi/src/generated.rs:2662-2673 [TimerInfo] *)
Record TimerInfo := mkTimerInfo {
  wti_armed : N;
  wti_reserved0 : N;
  wti_deadline_ns : N;
  wti_fired : N;
  wti_object_id : N
}.
#[global] Instance TimerInfo_rebuild : Rebuild TimerInfo := λ x,
  mkTimerInfo (wti_armed x) (wti_reserved0 x) (wti_deadline_ns x) (wti_fired x)
    (wti_object_id x).
(** abi/src/generated.rs:2675-2681 [TimerInfo, its size and offsets] *)
Definition TimerInfo_codec : Codec TimerInfo :=
  via
    (λ x, (wti_armed x, wti_reserved0 x, wti_deadline_ns x, wti_fired x, wti_object_id x))
    (λ '(armed_, reserved0_, deadline_ns_, fired_, object_id_),
      mkTimerInfo armed_ reserved0_ deadline_ns_ fired_ object_id_)
    (uint 4 ⊗ uint 4 ⊗ uint 8 ⊗ uint 8 ⊗ uint 8).
#[global] Instance TimerInfo_layout : Layout TimerInfo_codec.
Proof. solve_layout. Qed.
Module TimerInfo.
(** abi/src/generated.rs:2685-2685 [TimerInfo::SIZE] *)
Definition SIZE : nat := 32.
(** abi/src/generated.rs:2687-2687 [TimerInfo::DESCRIPTOR_LEN] *)
Definition DESCRIPTOR_LEN : N := 64.
(** abi/src/generated.rs:2690-2694 [TimerInfo::zeroed] *)
Definition zeroed : TimerInfo :=
  mkTimerInfo 0 0 0 0 0.
End TimerInfo.

(** abi/src/generated.rs:2729-2743 [ReceiptRecord, its size and offsets] *)
Definition ReceiptRecord_codec : Codec ReceiptRecord :=
  via
    (λ x, (r_schema x, r_kind x, r_sequence x, r_epoch x, r_ns x, r_origin_domain_id x,
      r_origin_scope_id x, r_object_id x, r_grant_id x, r_parent_invocation_id x, r_result x,
      r_a x, r_b x))
    (λ '(schema_, kind_, sequence_, epoch_, ns_, origin_domain_id_, origin_scope_id_,
      object_id_, grant_id_, parent_invocation_id_, result_, a_, b_),
      mkReceipt schema_ kind_ sequence_ epoch_ ns_ origin_domain_id_ origin_scope_id_ object_id_
        grant_id_ parent_invocation_id_ result_ a_ b_)
    (uint 4 ⊗ uint 4 ⊗ uint 8 ⊗ uint 8 ⊗ uint 8 ⊗ uint 8 ⊗ uint 8 ⊗ uint 8 ⊗ uint 8 ⊗ uint 8
      ⊗ sint 8 ⊗ uint 8 ⊗ uint 8).
#[global] Instance ReceiptRecord_layout : Layout ReceiptRecord_codec.
Proof. solve_layout. Qed.
Module ReceiptRecord.
(** abi/src/generated.rs:2747-2747 [ReceiptRecord::SIZE] *)
Definition SIZE : nat := 96.
(** abi/src/generated.rs:2749-2749 [ReceiptRecord::DESCRIPTOR_LEN] *)
Definition DESCRIPTOR_LEN : N := 128.
(** abi/src/generated.rs:2752-2756 [ReceiptRecord::zeroed] *)
Definition zeroed : ReceiptRecord :=
  mkReceipt 0 0 0 0 0 0 0 0 0 0 0%Z 0 0.
End ReceiptRecord.

(** abi/src/generated.rs:2762-2771 [LogReadResult] *)
Record LogReadResult := mkLogReadResult {
  wlr_count : N;
  wlr_lost : N;
  wlr_next_sequence : N;
  wlr_records : list ReceiptRecord
}.
#[global] Instance LogReadResult_rebuild : Rebuild LogReadResult := λ x,
  mkLogReadResult (wlr_count x) (wlr_lost x) (wlr_next_sequence x) (wlr_records x).
(** abi/src/generated.rs:2773-2778 [LogReadResult, its size and offsets] *)
Definition LogReadResult_codec : Codec LogReadResult :=
  via
    (λ x, (wlr_count x, wlr_lost x, wlr_next_sequence x, wlr_records x))
    (λ '(count_, lost_, next_sequence_, records_),
      mkLogReadResult count_ lost_ next_sequence_ records_)
    (uint 4 ⊗ uint 4 ⊗ uint 8 ⊗ many 16 ReceiptRecord_codec).
#[global] Instance LogReadResult_layout : Layout LogReadResult_codec.
Proof. solve_layout. Qed.
Module LogReadResult.
(** abi/src/generated.rs:2782-2782 [LogReadResult::SIZE] *)
Definition SIZE : nat := 1552.
(** abi/src/generated.rs:2784-2784 [LogReadResult::DESCRIPTOR_LEN] *)
Definition DESCRIPTOR_LEN : N := 1584.
(** abi/src/generated.rs:2787-2791 [LogReadResult::zeroed] *)
Definition zeroed : LogReadResult :=
  mkLogReadResult 0 0 0 (replicate 16 ReceiptRecord.zeroed).
End LogReadResult.

(** abi/src/generated.rs:2797-2808 [LogAppendRequest] *)
Record LogAppendRequest := mkLogAppendRequest {
  wla_kind : N;
  wla_reserved0 : N;
  wla_a : N;
  wla_b : N;
  wla_claimed_origin_domain_id : N
}.
#[global] Instance LogAppendRequest_rebuild : Rebuild LogAppendRequest := λ x,
  mkLogAppendRequest (wla_kind x) (wla_reserved0 x) (wla_a x) (wla_b x)
    (wla_claimed_origin_domain_id x).
(** abi/src/generated.rs:2810-2816 [LogAppendRequest, its size and offsets] *)
Definition LogAppendRequest_codec : Codec LogAppendRequest :=
  via
    (λ x, (wla_kind x, wla_reserved0 x, wla_a x, wla_b x, wla_claimed_origin_domain_id x))
    (λ '(kind_, reserved0_, a_, b_, claimed_origin_domain_id_),
      mkLogAppendRequest kind_ reserved0_ a_ b_ claimed_origin_domain_id_)
    (uint 4 ⊗ uint 4 ⊗ uint 8 ⊗ uint 8 ⊗ uint 8).
#[global] Instance LogAppendRequest_layout : Layout LogAppendRequest_codec.
Proof. solve_layout. Qed.
Module LogAppendRequest.
(** abi/src/generated.rs:2820-2820 [LogAppendRequest::SIZE] *)
Definition SIZE : nat := 32.
(** abi/src/generated.rs:2822-2822 [LogAppendRequest::DESCRIPTOR_LEN] *)
Definition DESCRIPTOR_LEN : N := 64.
(** abi/src/generated.rs:2825-2829 [LogAppendRequest::zeroed] *)
Definition zeroed : LogAppendRequest :=
  mkLogAppendRequest 0 0 0 0 0.
End LogAppendRequest.

(** abi/src/generated.rs:2835-2838 [LogAckRequest] *)
Record LogAckRequest := mkLogAckRequest {
  wlk_through_sequence : N
}.
#[global] Instance LogAckRequest_rebuild : Rebuild LogAckRequest := λ x,
  mkLogAckRequest (wlk_through_sequence x).
(** abi/src/generated.rs:2840-2842 [LogAckRequest, its size and offsets] *)
Definition LogAckRequest_codec : Codec LogAckRequest :=
  via
    (λ x, wlk_through_sequence x)
    (λ through_sequence_,
      mkLogAckRequest through_sequence_)
    (uint 8).
#[global] Instance LogAckRequest_layout : Layout LogAckRequest_codec.
Proof. solve_layout. Qed.
Module LogAckRequest.
(** abi/src/generated.rs:2846-2846 [LogAckRequest::SIZE] *)
Definition SIZE : nat := 8.
(** abi/src/generated.rs:2848-2848 [LogAckRequest::DESCRIPTOR_LEN] *)
Definition DESCRIPTOR_LEN : N := 40.
(** abi/src/generated.rs:2851-2855 [LogAckRequest::zeroed] *)
Definition zeroed : LogAckRequest :=
  mkLogAckRequest 0.
End LogAckRequest.

(** abi/src/generated.rs:2861-2876 [LogInfo] *)
Record LogInfo := mkLogInfo {
  wlo_capacity : N;
  wlo_reserved_cells : N;
  wlo_used : N;
  wlo_lost : N;
  wlo_next_sequence : N;
  wlo_oldest_sequence : N;
  wlo_object_id : N
}.
#[global] Instance LogInfo_rebuild : Rebuild LogInfo := λ x,
  mkLogInfo (wlo_capacity x) (wlo_reserved_cells x) (wlo_used x) (wlo_lost x)
    (wlo_next_sequence x) (wlo_oldest_sequence x) (wlo_object_id x).
(** abi/src/generated.rs:2878-2886 [LogInfo, its size and offsets] *)
Definition LogInfo_codec : Codec LogInfo :=
  via
    (λ x, (wlo_capacity x, wlo_reserved_cells x, wlo_used x, wlo_lost x, wlo_next_sequence x,
      wlo_oldest_sequence x, wlo_object_id x))
    (λ '(capacity_, reserved_cells_, used_, lost_, next_sequence_, oldest_sequence_, object_id_),
      mkLogInfo capacity_ reserved_cells_ used_ lost_ next_sequence_ oldest_sequence_ object_id_)
    (uint 4 ⊗ uint 4 ⊗ uint 4 ⊗ uint 4 ⊗ uint 8 ⊗ uint 8 ⊗ uint 8).
#[global] Instance LogInfo_layout : Layout LogInfo_codec.
Proof. solve_layout. Qed.
Module LogInfo.
(** abi/src/generated.rs:2890-2890 [LogInfo::SIZE] *)
Definition SIZE : nat := 40.
(** abi/src/generated.rs:2892-2892 [LogInfo::DESCRIPTOR_LEN] *)
Definition DESCRIPTOR_LEN : N := 72.
(** abi/src/generated.rs:2895-2899 [LogInfo::zeroed] *)
Definition zeroed : LogInfo :=
  mkLogInfo 0 0 0 0 0 0 0.
End LogInfo.

(** abi/src/generated.rs:2905-2926 [FaultReport] *)
Record FaultReport := mkFaultReport {
  wfr_domain_id : N;
  wfr_thread_id : N;
  wfr_generation : N;
  wfr_vector : N;
  wfr_error_code : N;
  wfr_rip : N;
  wfr_rsp : N;
  wfr_address : N;
  wfr_class : N;
  wfr_reserved0 : N
}.
#[global] Instance FaultReport_rebuild : Rebuild FaultReport := λ x,
  mkFaultReport (wfr_domain_id x) (wfr_thread_id x) (wfr_generation x) (wfr_vector x)
    (wfr_error_code x) (wfr_rip x) (wfr_rsp x) (wfr_address x) (wfr_class x) (wfr_reserved0 x).
(** abi/src/generated.rs:2928-2939 [FaultReport, its size and offsets] *)
Definition FaultReport_codec : Codec FaultReport :=
  via
    (λ x, (wfr_domain_id x, wfr_thread_id x, wfr_generation x, wfr_vector x, wfr_error_code x,
      wfr_rip x, wfr_rsp x, wfr_address x, wfr_class x, wfr_reserved0 x))
    (λ '(domain_id_, thread_id_, generation_, vector_, error_code_, rip_, rsp_, address_,
      class_, reserved0_),
      mkFaultReport domain_id_ thread_id_ generation_ vector_ error_code_ rip_ rsp_ address_
        class_ reserved0_)
    (uint 8 ⊗ uint 8 ⊗ uint 8 ⊗ uint 8 ⊗ uint 8 ⊗ uint 8 ⊗ uint 8 ⊗ uint 8 ⊗ uint 4 ⊗ uint 4).
#[global] Instance FaultReport_layout : Layout FaultReport_codec.
Proof. solve_layout. Qed.
Module FaultReport.
(** abi/src/generated.rs:2943-2943 [FaultReport::SIZE] *)
Definition SIZE : nat := 72.
(** abi/src/generated.rs:2945-2945 [FaultReport::DESCRIPTOR_LEN] *)
Definition DESCRIPTOR_LEN : N := 104.
(** abi/src/generated.rs:2948-2952 [FaultReport::zeroed] *)
Definition zeroed : FaultReport :=
  mkFaultReport 0 0 0 0 0 0 0 0 0 0.
End FaultReport.

(** abi/src/generated.rs:2958-2971 [DeviceRegion] *)
Record DeviceRegion := mkDeviceRegion {
  wdg_kind : N;
  wdg_bar : N;
  wdg_offset : N;
  wdg_length : N;
  wdg_flags : N;
  wdg_notify_off_multiplier : N
}.
#[global] Instance DeviceRegion_rebuild : Rebuild DeviceRegion := λ x,
  mkDeviceRegion (wdg_kind x) (wdg_bar x) (wdg_offset x) (wdg_length x) (wdg_flags x)
    (wdg_notify_off_multiplier x).
(** abi/src/generated.rs:2973-2980 [DeviceRegion, its size and offsets] *)
Definition DeviceRegion_codec : Codec DeviceRegion :=
  via
    (λ x, (wdg_kind x, wdg_bar x, wdg_offset x, wdg_length x, wdg_flags x,
      wdg_notify_off_multiplier x))
    (λ '(kind_, bar_, offset_, length_, flags_, notify_off_multiplier_),
      mkDeviceRegion kind_ bar_ offset_ length_ flags_ notify_off_multiplier_)
    (uint 4 ⊗ uint 4 ⊗ uint 8 ⊗ uint 8 ⊗ uint 4 ⊗ uint 4).
#[global] Instance DeviceRegion_layout : Layout DeviceRegion_codec.
Proof. solve_layout. Qed.
Module DeviceRegion.
(** abi/src/generated.rs:2984-2984 [DeviceRegion::SIZE] *)
Definition SIZE : nat := 32.
(** abi/src/generated.rs:2986-2986 [DeviceRegion::DESCRIPTOR_LEN] *)
Definition DESCRIPTOR_LEN : N := 64.
(** abi/src/generated.rs:2989-2993 [DeviceRegion::zeroed] *)
Definition zeroed : DeviceRegion :=
  mkDeviceRegion 0 0 0 0 0 0.
End DeviceRegion.

(** abi/src/generated.rs:2999-3044 [DeviceInfo] *)
Record DeviceInfo := mkDeviceInfo {
  wdv_state : N;
  wdv_session : N;
  wdv_bdf : N;
  wdv_vendor_id : N;
  wdv_device_id : N;
  wdv_class_code : N;
  wdv_region_count : N;
  wdv_irq_bound : N;
  wdv_dma_grants : N;
  wdv_dma_profile : N;
  wdv_iommu_described : N;
  wdv_iommu_translating : N;
  wdv_access_platform : N;
  wdv_bus_master : N;
  wdv_dma_address_bits : N;
  wdv_isolation_group : N;
  wdv_group_members : N;
  wdv_reserved0 : N;
  wdv_object_id : N;
  wdv_sponsor_scope_id : N;
  wdv_label : list N;
  wdv_regions : list DeviceRegion
}.
#[global] Instance DeviceInfo_rebuild : Rebuild DeviceInfo := λ x,
  mkDeviceInfo (wdv_state x) (wdv_session x) (wdv_bdf x) (wdv_vendor_id x) (wdv_device_id x)
    (wdv_class_code x) (wdv_region_count x) (wdv_irq_bound x) (wdv_dma_grants x)
    (wdv_dma_profile x) (wdv_iommu_described x) (wdv_iommu_translating x)
    (wdv_access_platform x) (wdv_bus_master x) (wdv_dma_address_bits x) (wdv_isolation_group x)
    (wdv_group_members x) (wdv_reserved0 x) (wdv_object_id x) (wdv_sponsor_scope_id x)
    (wdv_label x) (wdv_regions x).
(** abi/src/generated.rs:3046-3069 [DeviceInfo, its size and offsets] *)
Definition DeviceInfo_codec : Codec DeviceInfo :=
  via
    (λ x, (wdv_state x, wdv_session x, wdv_bdf x, wdv_vendor_id x, wdv_device_id x,
      wdv_class_code x, wdv_region_count x, wdv_irq_bound x, wdv_dma_grants x,
      wdv_dma_profile x, wdv_iommu_described x, wdv_iommu_translating x, wdv_access_platform x,
      wdv_bus_master x, wdv_dma_address_bits x, wdv_isolation_group x, wdv_group_members x,
      wdv_reserved0 x, wdv_object_id x, wdv_sponsor_scope_id x, wdv_label x, wdv_regions x))
    (λ '(state_, session_, bdf_, vendor_id_, device_id_, class_code_, region_count_, irq_bound_,
      dma_grants_, dma_profile_, iommu_described_, iommu_translating_, access_platform_,
      bus_master_, dma_address_bits_, isolation_group_, group_members_, reserved0_, object_id_,
      sponsor_scope_id_, label_, regions_),
      mkDeviceInfo state_ session_ bdf_ vendor_id_ device_id_ class_code_ region_count_
        irq_bound_ dma_grants_ dma_profile_ iommu_described_ iommu_translating_ access_platform_
        bus_master_ dma_address_bits_ isolation_group_ group_members_ reserved0_ object_id_
        sponsor_scope_id_ label_ regions_)
    (uint 4 ⊗ uint 4 ⊗ uint 4 ⊗ uint 4 ⊗ uint 4 ⊗ uint 4 ⊗ uint 4 ⊗ uint 4 ⊗ uint 4 ⊗ uint 4
      ⊗ uint 4 ⊗ uint 4 ⊗ uint 4 ⊗ uint 4 ⊗ uint 4 ⊗ uint 4 ⊗ uint 4 ⊗ uint 4 ⊗ uint 8 ⊗ uint 8
      ⊗ raw 16 ⊗ many 4 DeviceRegion_codec).
#[global] Instance DeviceInfo_layout : Layout DeviceInfo_codec.
Proof. solve_layout. Qed.
Module DeviceInfo.
(** abi/src/generated.rs:3073-3073 [DeviceInfo::SIZE] *)
Definition SIZE : nat := 232.
(** abi/src/generated.rs:3075-3075 [DeviceInfo::DESCRIPTOR_LEN] *)
Definition DESCRIPTOR_LEN : N := 264.
(** abi/src/generated.rs:3078-3082 [DeviceInfo::zeroed] *)
Definition zeroed : DeviceInfo :=
  mkDeviceInfo 0 0 0 0 0 0 0 0 0 0 0 0 0 0 0 0 0 0 0 0 (replicate 16 0)
    (replicate 4 DeviceRegion.zeroed).
End DeviceInfo.

(** abi/src/generated.rs:3088-3097 [DeviceMapRequest] *)
Record DeviceMapRequest := mkDeviceMapRequest {
  wdm_domain_handle : N;
  wdm_vaddr : N;
  wdm_region_index : N;
  wdm_session : N
}.
#[global] Instance DeviceMapRequest_rebuild : Rebuild DeviceMapRequest := λ x,
  mkDeviceMapRequest (wdm_domain_handle x) (wdm_vaddr x) (wdm_region_index x) (wdm_session x).
(** abi/src/generated.rs:3099-3104 [DeviceMapRequest, its size and offsets] *)
Definition DeviceMapRequest_codec : Codec DeviceMapRequest :=
  via
    (λ x, (wdm_domain_handle x, wdm_vaddr x, wdm_region_index x, wdm_session x))
    (λ '(domain_handle_, vaddr_, region_index_, session_),
      mkDeviceMapRequest domain_handle_ vaddr_ region_index_ session_)
    (uint 8 ⊗ uint 8 ⊗ uint 4 ⊗ uint 4).
#[global] Instance DeviceMapRequest_layout : Layout DeviceMapRequest_codec.
Proof. solve_layout. Qed.
Module DeviceMapRequest.
(** abi/src/generated.rs:3108-3108 [DeviceMapRequest::SIZE] *)
Definition SIZE : nat := 24.
(** abi/src/generated.rs:3110-3110 [DeviceMapRequest::DESCRIPTOR_LEN] *)
Definition DESCRIPTOR_LEN : N := 56.
(** abi/src/generated.rs:3113-3117 [DeviceMapRequest::zeroed] *)
Definition zeroed : DeviceMapRequest :=
  mkDeviceMapRequest 0 0 0 0.
End DeviceMapRequest.

(** abi/src/generated.rs:3123-3132 [DeviceIrqRequest] *)
Record DeviceIrqRequest := mkDeviceIrqRequest {
  wdq_signal_handle : N;
  wdq_bits : N;
  wdq_vector_index : N;
  wdq_session : N
}.
#[global] Instance DeviceIrqRequest_rebuild : Rebuild DeviceIrqRequest := λ x,
  mkDeviceIrqRequest (wdq_signal_handle x) (wdq_bits x) (wdq_vector_index x) (wdq_session x).
(** abi/src/generated.rs:3134-3139 [DeviceIrqRequest, its size and offsets] *)
Definition DeviceIrqRequest_codec : Codec DeviceIrqRequest :=
  via
    (λ x, (wdq_signal_handle x, wdq_bits x, wdq_vector_index x, wdq_session x))
    (λ '(signal_handle_, bits_, vector_index_, session_),
      mkDeviceIrqRequest signal_handle_ bits_ vector_index_ session_)
    (uint 8 ⊗ uint 8 ⊗ uint 4 ⊗ uint 4).
#[global] Instance DeviceIrqRequest_layout : Layout DeviceIrqRequest_codec.
Proof. solve_layout. Qed.
Module DeviceIrqRequest.
(** abi/src/generated.rs:3143-3143 [DeviceIrqRequest::SIZE] *)
Definition SIZE : nat := 24.
(** abi/src/generated.rs:3145-3145 [DeviceIrqRequest::DESCRIPTOR_LEN] *)
Definition DESCRIPTOR_LEN : N := 56.
(** abi/src/generated.rs:3148-3152 [DeviceIrqRequest::zeroed] *)
Definition zeroed : DeviceIrqRequest :=
  mkDeviceIrqRequest 0 0 0 0.
End DeviceIrqRequest.

(** abi/src/generated.rs:3158-3163 [DeviceControlRequest] *)
Record DeviceControlRequest := mkDeviceControlRequest {
  wdl_enable : N;
  wdl_session : N
}.
#[global] Instance DeviceControlRequest_rebuild : Rebuild DeviceControlRequest := λ x,
  mkDeviceControlRequest (wdl_enable x) (wdl_session x).
(** abi/src/generated.rs:3165-3168 [DeviceControlRequest, its size and offsets] *)
Definition DeviceControlRequest_codec : Codec DeviceControlRequest :=
  via
    (λ x, (wdl_enable x, wdl_session x))
    (λ '(enable_, session_),
      mkDeviceControlRequest enable_ session_)
    (uint 4 ⊗ uint 4).
#[global] Instance DeviceControlRequest_layout : Layout DeviceControlRequest_codec.
Proof. solve_layout. Qed.
Module DeviceControlRequest.
(** abi/src/generated.rs:3172-3172 [DeviceControlRequest::SIZE] *)
Definition SIZE : nat := 8.
(** abi/src/generated.rs:3174-3174 [DeviceControlRequest::DESCRIPTOR_LEN] *)
Definition DESCRIPTOR_LEN : N := 40.
(** abi/src/generated.rs:3177-3181 [DeviceControlRequest::zeroed] *)
Definition zeroed : DeviceControlRequest :=
  mkDeviceControlRequest 0 0.
End DeviceControlRequest.

(** abi/src/generated.rs:3187-3202 [DmaMapRequest] *)
Record DmaMapRequest := mkDmaMapRequest {
  wdp_memory_handle : N;
  wdp_offset_pages : N;
  wdp_page_count : N;
  wdp_rights : N;
  wdp_required_profile : N;
  wdp_session : N;
  wdp_reserved0 : N
}.
#[global] Instance DmaMapRequest_rebuild : Rebuild DmaMapRequest := λ x,
  mkDmaMapRequest (wdp_memory_handle x) (wdp_offset_pages x) (wdp_page_count x) (wdp_rights x)
    (wdp_required_profile x) (wdp_session x) (wdp_reserved0 x).
(** abi/src/generated.rs:3204-3212 [DmaMapRequest, its size and offsets] *)
Definition DmaMapRequest_codec : Codec DmaMapRequest :=
  via
    (λ x, (wdp_memory_handle x, wdp_offset_pages x, wdp_page_count x, wdp_rights x,
      wdp_required_profile x, wdp_session x, wdp_reserved0 x))
    (λ '(memory_handle_, offset_pages_, page_count_, rights_, required_profile_, session_,
      reserved0_),
      mkDmaMapRequest memory_handle_ offset_pages_ page_count_ rights_ required_profile_
        session_ reserved0_)
    (uint 8 ⊗ uint 4 ⊗ uint 4 ⊗ uint 4 ⊗ uint 4 ⊗ uint 4 ⊗ uint 4).
#[global] Instance DmaMapRequest_layout : Layout DmaMapRequest_codec.
Proof. solve_layout. Qed.
Module DmaMapRequest.
(** abi/src/generated.rs:3216-3216 [DmaMapRequest::SIZE] *)
Definition SIZE : nat := 32.
(** abi/src/generated.rs:3218-3218 [DmaMapRequest::DESCRIPTOR_LEN] *)
Definition DESCRIPTOR_LEN : N := 64.
(** abi/src/generated.rs:3221-3225 [DmaMapRequest::zeroed] *)
Definition zeroed : DmaMapRequest :=
  mkDmaMapRequest 0 0 0 0 0 0 0.
End DmaMapRequest.

(** abi/src/generated.rs:3231-3246 [DmaGrantInfo] *)
Record DmaGrantInfo := mkDmaGrantInfo {
  wda_iova : N;
  wda_length : N;
  wda_rights : N;
  wda_profile : N;
  wda_session : N;
  wda_grant_index : N;
  wda_memory_object_id : N
}.
#[global] Instance DmaGrantInfo_rebuild : Rebuild DmaGrantInfo := λ x,
  mkDmaGrantInfo (wda_iova x) (wda_length x) (wda_rights x) (wda_profile x) (wda_session x)
    (wda_grant_index x) (wda_memory_object_id x).
(** abi/src/generated.rs:3248-3256 [DmaGrantInfo, its size and offsets] *)
Definition DmaGrantInfo_codec : Codec DmaGrantInfo :=
  via
    (λ x, (wda_iova x, wda_length x, wda_rights x, wda_profile x, wda_session x,
      wda_grant_index x, wda_memory_object_id x))
    (λ '(iova_, length_, rights_, profile_, session_, grant_index_, memory_object_id_),
      mkDmaGrantInfo iova_ length_ rights_ profile_ session_ grant_index_ memory_object_id_)
    (uint 8 ⊗ uint 8 ⊗ uint 4 ⊗ uint 4 ⊗ uint 4 ⊗ uint 4 ⊗ uint 8).
#[global] Instance DmaGrantInfo_layout : Layout DmaGrantInfo_codec.
Proof. solve_layout. Qed.
Module DmaGrantInfo.
(** abi/src/generated.rs:3260-3260 [DmaGrantInfo::SIZE] *)
Definition SIZE : nat := 40.
(** abi/src/generated.rs:3262-3262 [DmaGrantInfo::DESCRIPTOR_LEN] *)
Definition DESCRIPTOR_LEN : N := 72.
(** abi/src/generated.rs:3265-3269 [DmaGrantInfo::zeroed] *)
Definition zeroed : DmaGrantInfo :=
  mkDmaGrantInfo 0 0 0 0 0 0 0.
End DmaGrantInfo.

(** abi/src/generated.rs:3275-3284 [DmaUnmapRequest] *)
Record DmaUnmapRequest := mkDmaUnmapRequest {
  wdu_iova : N;
  wdu_length : N;
  wdu_session : N;
  wdu_reserved0 : N
}.
#[global] Instance DmaUnmapRequest_rebuild : Rebuild DmaUnmapRequest := λ x,
  mkDmaUnmapRequest (wdu_iova x) (wdu_length x) (wdu_session x) (wdu_reserved0 x).
(** abi/src/generated.rs:3286-3291 [DmaUnmapRequest, its size and offsets] *)
Definition DmaUnmapRequest_codec : Codec DmaUnmapRequest :=
  via
    (λ x, (wdu_iova x, wdu_length x, wdu_session x, wdu_reserved0 x))
    (λ '(iova_, length_, session_, reserved0_),
      mkDmaUnmapRequest iova_ length_ session_ reserved0_)
    (uint 8 ⊗ uint 8 ⊗ uint 4 ⊗ uint 4).
#[global] Instance DmaUnmapRequest_layout : Layout DmaUnmapRequest_codec.
Proof. solve_layout. Qed.
Module DmaUnmapRequest.
(** abi/src/generated.rs:3295-3295 [DmaUnmapRequest::SIZE] *)
Definition SIZE : nat := 24.
(** abi/src/generated.rs:3297-3297 [DmaUnmapRequest::DESCRIPTOR_LEN] *)
Definition DESCRIPTOR_LEN : N := 56.
(** abi/src/generated.rs:3300-3304 [DmaUnmapRequest::zeroed] *)
Definition zeroed : DmaUnmapRequest :=
  mkDmaUnmapRequest 0 0 0 0.
End DmaUnmapRequest.

(** ** Sizes and offsets *)

(** Every codec is as long as the size the crate asserts, and a descriptor is the header
    and the structure. *)
Definition sized (s : nat * nat * N) : Prop := s.1.1 = s.1.2 ∧ s.2 = N.of_nat (DescriptorHeader.SIZE + s.1.2).
Lemma wire_sizes_agree :
  Forall sized
    [(cd_size DescriptorHeader_codec, DescriptorHeader.SIZE, DescriptorHeader.DESCRIPTOR_LEN);
     (cd_size Limits_codec, Limits.SIZE, Limits.DESCRIPTOR_LEN);
     (cd_size CapInfo_codec, CapInfo.SIZE, CapInfo.DESCRIPTOR_LEN);
     (cd_size DeriveRequest_codec, DeriveRequest.SIZE, DeriveRequest.DESCRIPTOR_LEN);
     (cd_size ScopeLimits_codec, ScopeLimits.SIZE, ScopeLimits.DESCRIPTOR_LEN);
     (cd_size ScopeCreateRequest_codec, ScopeCreateRequest.SIZE, ScopeCreateRequest.DESCRIPTOR_LEN);
     (cd_size ScopeInfo_codec, ScopeInfo.SIZE, ScopeInfo.DESCRIPTOR_LEN);
     (cd_size DrainReport_codec, DrainReport.SIZE, DrainReport.DESCRIPTOR_LEN);
     (cd_size DomainCreateRequest_codec, DomainCreateRequest.SIZE, DomainCreateRequest.DESCRIPTOR_LEN);
     (cd_size MapRequest_codec, MapRequest.SIZE, MapRequest.DESCRIPTOR_LEN);
     (cd_size UnmapRequest_codec, UnmapRequest.SIZE, UnmapRequest.DESCRIPTOR_LEN);
     (cd_size InstallCapRequest_codec, InstallCapRequest.SIZE, InstallCapRequest.DESCRIPTOR_LEN);
     (cd_size ThreadCreateRequest_codec, ThreadCreateRequest.SIZE, ThreadCreateRequest.DESCRIPTOR_LEN);
     (cd_size FaultChannelRequest_codec, FaultChannelRequest.SIZE, FaultChannelRequest.DESCRIPTOR_LEN);
     (cd_size DomainInfo_codec, DomainInfo.SIZE, DomainInfo.DESCRIPTOR_LEN);
     (cd_size MemoryCreateRequest_codec, MemoryCreateRequest.SIZE, MemoryCreateRequest.DESCRIPTOR_LEN);
     (cd_size MemoryInfo_codec, MemoryInfo.SIZE, MemoryInfo.DESCRIPTOR_LEN);
     (cd_size MemoryCopyRequest_codec, MemoryCopyRequest.SIZE, MemoryCopyRequest.DESCRIPTOR_LEN);
     (cd_size MemoryBytes_codec, MemoryBytes.SIZE, MemoryBytes.DESCRIPTOR_LEN);
     (cd_size EndpointCreateRequest_codec, EndpointCreateRequest.SIZE, EndpointCreateRequest.DESCRIPTOR_LEN);
     (cd_size BindFacetRequest_codec, BindFacetRequest.SIZE, BindFacetRequest.DESCRIPTOR_LEN);
     (cd_size EndpointInfo_codec, EndpointInfo.SIZE, EndpointInfo.DESCRIPTOR_LEN);
     (cd_size MessageHeader_codec, MessageHeader.SIZE, MessageHeader.DESCRIPTOR_LEN);
     (cd_size SendRequest_codec, SendRequest.SIZE, SendRequest.DESCRIPTOR_LEN);
     (cd_size CallResult_codec, CallResult.SIZE, CallResult.DESCRIPTOR_LEN);
     (cd_size ReceiveResult_codec, ReceiveResult.SIZE, ReceiveResult.DESCRIPTOR_LEN);
     (cd_size ReplyRequest_codec, ReplyRequest.SIZE, ReplyRequest.DESCRIPTOR_LEN);
     (cd_size EffectRequest_codec, EffectRequest.SIZE, EffectRequest.DESCRIPTOR_LEN);
     (cd_size ResolveRequest_codec, ResolveRequest.SIZE, ResolveRequest.DESCRIPTOR_LEN);
     (cd_size InvocationInfo_codec, InvocationInfo.SIZE, InvocationInfo.DESCRIPTOR_LEN);
     (cd_size SignalBits_codec, SignalBits.SIZE, SignalBits.DESCRIPTOR_LEN);
     (cd_size SignalInfo_codec, SignalInfo.SIZE, SignalInfo.DESCRIPTOR_LEN);
     (cd_size TimerCreateRequest_codec, TimerCreateRequest.SIZE, TimerCreateRequest.DESCRIPTOR_LEN);
     (cd_size TimerArmRequest_codec, TimerArmRequest.SIZE, TimerArmRequest.DESCRIPTOR_LEN);
     (cd_size TimerInfo_codec, TimerInfo.SIZE, TimerInfo.DESCRIPTOR_LEN);
     (cd_size ReceiptRecord_codec, ReceiptRecord.SIZE, ReceiptRecord.DESCRIPTOR_LEN);
     (cd_size LogReadResult_codec, LogReadResult.SIZE, LogReadResult.DESCRIPTOR_LEN);
     (cd_size LogAppendRequest_codec, LogAppendRequest.SIZE, LogAppendRequest.DESCRIPTOR_LEN);
     (cd_size LogAckRequest_codec, LogAckRequest.SIZE, LogAckRequest.DESCRIPTOR_LEN);
     (cd_size LogInfo_codec, LogInfo.SIZE, LogInfo.DESCRIPTOR_LEN);
     (cd_size FaultReport_codec, FaultReport.SIZE, FaultReport.DESCRIPTOR_LEN);
     (cd_size DeviceRegion_codec, DeviceRegion.SIZE, DeviceRegion.DESCRIPTOR_LEN);
     (cd_size DeviceInfo_codec, DeviceInfo.SIZE, DeviceInfo.DESCRIPTOR_LEN);
     (cd_size DeviceMapRequest_codec, DeviceMapRequest.SIZE, DeviceMapRequest.DESCRIPTOR_LEN);
     (cd_size DeviceIrqRequest_codec, DeviceIrqRequest.SIZE, DeviceIrqRequest.DESCRIPTOR_LEN);
     (cd_size DeviceControlRequest_codec, DeviceControlRequest.SIZE, DeviceControlRequest.DESCRIPTOR_LEN);
     (cd_size DmaMapRequest_codec, DmaMapRequest.SIZE, DmaMapRequest.DESCRIPTOR_LEN);
     (cd_size DmaGrantInfo_codec, DmaGrantInfo.SIZE, DmaGrantInfo.DESCRIPTOR_LEN);
     (cd_size DmaUnmapRequest_codec, DmaUnmapRequest.SIZE, DmaUnmapRequest.DESCRIPTOR_LEN)].
Proof. repeat constructor. Qed.

(** The fields start at the offsets the crate asserts. *)
Lemma wire_offsets_agree :
  offsets DescriptorHeader_codec =
      [0; 2; 4; 8; 12; 16; 24]%nat ∧
  offsets Limits_codec =
      [0; 2; 4; 8; 12; 16; 20; 24; 28; 32; 36; 40; 44; 48; 56; 64; 72; 80; 84]%nat ∧
  offsets CapInfo_codec =
      [0; 4; 8; 12; 16; 24; 32; 40; 48; 56]%nat ∧
  offsets DeriveRequest_codec =
      [0; 4; 8; 16]%nat ∧
  offsets ScopeLimits_codec =
      [0; 8; 16; 24; 32; 40; 44]%nat ∧
  offsets ScopeCreateRequest_codec =
      [0; 48]%nat ∧
  offsets ScopeInfo_codec =
      [0; 48; 52; 56; 60; 64; 72; 80; 88; 96; 104; 112; 120; 128; 136]%nat ∧
  offsets DrainReport_codec =
      [0; 4; 8; 12; 16; 20; 24; 28; 32; 40; 48; 56]%nat ∧
  offsets DomainCreateRequest_codec =
      [0; 8]%nat ∧
  offsets MapRequest_codec =
      [0; 8; 16; 20; 24; 28]%nat ∧
  offsets UnmapRequest_codec =
      [0; 8; 12]%nat ∧
  offsets InstallCapRequest_codec =
      [0; 8; 16; 20]%nat ∧
  offsets ThreadCreateRequest_codec =
      [0; 8; 16; 24]%nat ∧
  offsets FaultChannelRequest_codec =
      [0; 8]%nat ∧
  offsets DomainInfo_codec =
      [0; 4; 8; 12; 16; 24; 32; 40; 48; 56; 64]%nat ∧
  offsets MemoryCreateRequest_codec =
      [0; 8; 12; 16]%nat ∧
  offsets MemoryInfo_codec =
      [0; 4; 8; 12; 16; 24; 32; 40]%nat ∧
  offsets MemoryCopyRequest_codec =
      [0; 8; 16; 24]%nat ∧
  offsets MemoryBytes_codec =
      [0; 8; 16]%nat ∧
  offsets EndpointCreateRequest_codec =
      [0; 4; 8]%nat ∧
  offsets BindFacetRequest_codec =
      [0; 8; 16; 20]%nat ∧
  offsets EndpointInfo_codec =
      [0; 4; 8; 12; 16; 24; 32; 40]%nat ∧
  offsets MessageHeader_codec =
      [0; 8; 16; 24; 32; 40; 48; 56; 64; 68; 72; 76]%nat ∧
  offsets SendRequest_codec =
      [0; 4; 8; 40; 56]%nat ∧
  offsets CallResult_codec =
      [0; 4; 8; 40; 48; 56]%nat ∧
  offsets ReceiveResult_codec =
      [0; 80; 84; 88; 120]%nat ∧
  offsets ReplyRequest_codec =
      [0; 4; 8; 40; 56; 64]%nat ∧
  offsets EffectRequest_codec =
      [0; 8; 12]%nat ∧
  offsets ResolveRequest_codec =
      [0; 4; 8]%nat ∧
  offsets InvocationInfo_codec =
      [0; 4; 8; 12; 16; 24; 32; 40; 48; 56]%nat ∧
  offsets SignalBits_codec =
      [0]%nat ∧
  offsets SignalInfo_codec =
      [0; 8; 16; 24; 28]%nat ∧
  offsets TimerCreateRequest_codec =
      [0; 8]%nat ∧
  offsets TimerArmRequest_codec =
      [0]%nat ∧
  offsets TimerInfo_codec =
      [0; 4; 8; 16; 24]%nat ∧
  offsets ReceiptRecord_codec =
      [0; 4; 8; 16; 24; 32; 40; 48; 56; 64; 72; 80; 88]%nat ∧
  offsets LogReadResult_codec =
      [0; 4; 8; 16]%nat ∧
  offsets LogAppendRequest_codec =
      [0; 4; 8; 16; 24]%nat ∧
  offsets LogAckRequest_codec =
      [0]%nat ∧
  offsets LogInfo_codec =
      [0; 4; 8; 12; 16; 24; 32]%nat ∧
  offsets FaultReport_codec =
      [0; 8; 16; 24; 32; 40; 48; 56; 64; 68]%nat ∧
  offsets DeviceRegion_codec =
      [0; 4; 8; 16; 24; 28]%nat ∧
  offsets DeviceInfo_codec =
      [0; 4; 8; 12; 16; 20; 24; 28; 32; 36; 40; 44; 48; 52; 56; 60; 64; 68; 72; 80; 88; 104]%nat ∧
  offsets DeviceMapRequest_codec =
      [0; 8; 16; 20]%nat ∧
  offsets DeviceIrqRequest_codec =
      [0; 8; 16; 20]%nat ∧
  offsets DeviceControlRequest_codec =
      [0; 4]%nat ∧
  offsets DmaMapRequest_codec =
      [0; 8; 12; 16; 20; 24; 28]%nat ∧
  offsets DmaGrantInfo_codec =
      [0; 8; 16; 20; 24; 28; 32]%nat ∧
  offsets DmaUnmapRequest_codec =
      [0; 8; 16; 20]%nat.
Proof. by split_and!. Qed.
