(* ===== verification/AbiFixture.v ===== *)
(** * The fixtures of the binary interface

    [abi/src/fixture.rs]: for fifteen structures, bytes written by the schema's own
    generator and the value of every field they must decode to; [verify] decodes and
    compares as the kernel does at boot. *)

From S2P Require Import Prelude Bytes Abi Obj Scope Ctrl Frame Objects Machine CapOps Dispatch AbiWire.

#[local] Open Scope N_scope.

(** abi/src/fixture.rs:23-26 [DESCRIPTOR_HEADER_BYTES] *)
Definition DESCRIPTOR_HEADER_BYTES : list N :=
  [17; 14; 26; 21; 35; 28; 24; 20; 44; 35; 30; 25; 53; 42; 36; 30; 62; 49; 42; 35; 28; 21; 14;
   7; 71; 56; 48; 40; 32; 24; 16; 8].

(** abi/src/fixture.rs:27-34 [LIMITS_BYTES] *)
Definition LIMITS_BYTES : list N :=
  [170; 133; 179; 140; 188; 147; 126; 105; 197; 154; 132; 110; 206; 161; 138; 115; 215; 168;
   144; 120; 224; 175; 150; 125; 233; 182; 156; 130; 242; 189; 162; 135; 251; 196; 168; 140;
   4; 204; 174; 145; 13; 211; 180; 150; 22; 218; 186; 155; 31; 225; 192; 160; 128; 96; 64; 32;
   40; 232; 198; 165; 132; 99; 66; 33; 49; 239; 204; 170; 136; 102; 68; 34; 58; 246; 210; 175;
   140; 105; 70; 35; 67; 253; 216; 180; 76; 4; 223; 185].

(** abi/src/fixture.rs:35-40 [CAP_INFO_BYTES] *)
Definition CAP_INFO_BYTES : list N :=
  [67; 253; 216; 180; 76; 4; 223; 185; 85; 11; 229; 190; 94; 18; 235; 195; 103; 25; 241; 200;
   160; 120; 80; 40; 112; 32; 247; 205; 164; 123; 82; 41; 121; 39; 253; 210; 168; 126; 84; 42;
   130; 46; 3; 216; 172; 129; 86; 43; 139; 53; 9; 221; 176; 132; 88; 44; 148; 60; 15; 226;
   180; 135; 90; 45].

(** abi/src/fixture.rs:41-44 [DERIVE_REQUEST_BYTES] *)
Definition DERIVE_REQUEST_BYTES : list N :=
  [220; 116; 63; 10; 229; 123; 69; 15; 238; 130; 75; 20; 221; 165; 110; 55; 247; 137; 81; 25;
   225; 168; 112; 56].

(** abi/src/fixture.rs:45-55 [SCOPE_INFO_BYTES] *)
Definition SCOPE_INFO_BYTES : list N :=
  [126; 243; 171; 100; 29; 214; 142; 71; 135; 250; 177; 105; 33; 217; 144; 72; 144; 1; 184;
   110; 37; 220; 146; 73; 153; 8; 190; 115; 41; 223; 148; 74; 162; 15; 196; 120; 45; 226; 150;
   75; 171; 22; 202; 125; 180; 29; 208; 130; 162; 15; 196; 120; 171; 22; 202; 125; 180; 29;
   208; 130; 189; 36; 214; 135; 198; 43; 220; 140; 61; 238; 158; 79; 207; 50; 226; 145; 65;
   241; 160; 80; 216; 57; 232; 150; 69; 244; 162; 81; 225; 64; 238; 155; 73; 247; 164; 82;
   234; 71; 244; 160; 77; 250; 166; 83; 243; 78; 250; 165; 81; 253; 168; 84; 252; 85; 0; 171;
   85; 0; 171; 85; 5; 93; 6; 176; 89; 3; 173; 86; 14; 100; 12; 181; 93; 6; 175; 87; 23; 107;
   18; 186; 97; 9; 177; 88].

(** abi/src/fixture.rs:56-61 [DRAIN_REPORT_BYTES] *)
Definition DRAIN_REPORT_BYTES : list N :=
  [14; 100; 12; 181; 23; 107; 18; 186; 32; 114; 24; 191; 41; 121; 30; 196; 50; 128; 36; 201;
   59; 135; 42; 206; 68; 142; 48; 211; 77; 149; 54; 216; 86; 156; 60; 221; 125; 30; 191; 95;
   95; 163; 66; 226; 129; 33; 193; 96; 104; 170; 72; 231; 133; 36; 195; 97; 113; 177; 78; 236;
   137; 39; 197; 98].

(** abi/src/fixture.rs:62-65 [MAP_REQUEST_BYTES] *)
Definition MAP_REQUEST_BYTES : list N :=
  [167; 219; 114; 10; 162; 57; 209; 104; 176; 226; 120; 15; 166; 60; 211; 105; 185; 233; 126;
   20; 194; 240; 132; 25; 203; 247; 138; 30; 212; 254; 144; 35].

(** abi/src/fixture.rs:66-71 [MEMORY_INFO_BYTES] *)
Definition MEMORY_INFO_BYTES : list N :=
  [64; 83; 217; 95; 73; 90; 223; 100; 82; 97; 229; 105; 91; 104; 235; 110; 100; 111; 241; 115;
   246; 120; 251; 125; 109; 118; 247; 120; 250; 123; 253; 126; 118; 125; 253; 125; 254; 126;
   255; 127; 127; 136; 145; 154; 163; 172; 181; 190; 199; 208; 217; 226; 235; 244; 253; 6].

(** abi/src/fixture.rs:72-93 [SEND_REQUEST_BYTES] *)
Definition SEND_REQUEST_BYTES : list N :=
  [217; 202; 63; 181; 226; 209; 69; 186; 235; 216; 75; 191; 50; 166; 25; 141; 244; 223; 81;
   196; 54; 169; 27; 142; 253; 230; 87; 201; 58; 172; 29; 143; 6; 238; 93; 206; 62; 175; 31;
   144; 15; 245; 99; 211; 24; 252; 105; 216; 33; 3; 112; 221; 42; 10; 118; 226; 51; 60; 69;
   78; 87; 96; 105; 114; 123; 132; 141; 150; 159; 168; 177; 186; 195; 204; 213; 222; 231; 240;
   249; 2; 11; 20; 29; 38; 47; 56; 65; 74; 83; 92; 101; 110; 119; 128; 137; 146; 155; 164;
   173; 182; 191; 200; 209; 218; 227; 236; 245; 254; 7; 16; 25; 34; 43; 52; 61; 70; 79; 88;
   97; 106; 115; 124; 133; 142; 151; 160; 169; 178; 187; 196; 205; 214; 223; 232; 241; 250; 3;
   12; 21; 30; 39; 48; 57; 66; 75; 84; 93; 102; 111; 120; 129; 138; 147; 156; 165; 174; 183;
   192; 201; 210; 219; 228; 237; 246; 255; 8; 17; 26; 35; 44; 53; 62; 71; 80; 89; 98; 107;
   116; 125; 134; 143; 152; 161; 170; 179; 188; 197; 206; 215; 224; 233; 242; 251; 4; 13; 22;
   31; 40; 49; 58; 67; 76; 85; 94; 103; 112; 121; 130; 139; 148; 157; 166; 175; 184; 193; 202;
   211; 220; 229; 238; 247; 0; 9; 18; 27; 36; 45; 54; 63; 72; 81; 90; 99; 108; 117; 126; 135;
   144; 153; 162; 171; 180; 189; 198; 207; 216; 225; 234; 243; 252; 5; 14; 23; 32; 41; 50; 59;
   68; 77; 86; 95; 104; 113; 122; 131; 140; 149; 158; 167; 176; 185; 194; 203; 212; 221; 230;
   239; 248; 1; 10; 19; 28; 37; 46; 55; 64; 73; 82; 91; 100; 109; 118; 127; 136; 145; 154;
   163; 172; 181; 190; 199; 208; 217; 226; 235; 244; 253; 6; 15; 24; 33; 42].

(** abi/src/fixture.rs:94-100 [MESSAGE_HEADER_BYTES] *)
Definition MESSAGE_HEADER_BYTES : list N :=
  [114; 66; 166; 10; 111; 211; 55; 156; 123; 73; 172; 15; 115; 214; 57; 157; 132; 80; 178; 20;
   119; 217; 59; 158; 141; 87; 184; 25; 123; 220; 61; 159; 150; 94; 190; 30; 127; 223; 63;
   160; 159; 101; 196; 35; 131; 226; 65; 161; 168; 108; 202; 40; 135; 229; 67; 162; 177; 115;
   208; 45; 139; 232; 69; 163; 186; 122; 214; 50; 195; 129; 220; 55; 204; 136; 226; 60; 213;
   143; 232; 65].

(** abi/src/fixture.rs:101-126 [RECEIVE_RESULT_BYTES] *)
Definition RECEIVE_RESULT_BYTES : list N :=
  [20; 193; 18; 101; 183; 9; 92; 174; 29; 200; 24; 106; 187; 12; 94; 175; 38; 207; 30; 111;
   191; 15; 96; 176; 47; 214; 36; 116; 195; 18; 98; 177; 56; 221; 42; 121; 199; 21; 100; 178;
   65; 228; 48; 126; 203; 24; 102; 179; 74; 235; 54; 131; 207; 27; 104; 180; 83; 242; 60; 136;
   211; 30; 106; 181; 92; 249; 66; 141; 101; 0; 73; 146; 110; 7; 79; 151; 119; 14; 85; 156;
   56; 221; 42; 121; 65; 228; 48; 126; 74; 235; 54; 131; 207; 27; 104; 180; 83; 242; 60; 136;
   211; 30; 106; 181; 92; 249; 66; 141; 215; 33; 108; 182; 101; 0; 73; 146; 219; 36; 110; 183;
   110; 119; 128; 137; 146; 155; 164; 173; 182; 191; 200; 209; 218; 227; 236; 245; 254; 7; 16;
   25; 34; 43; 52; 61; 70; 79; 88; 97; 106; 115; 124; 133; 142; 151; 160; 169; 178; 187; 196;
   205; 214; 223; 232; 241; 250; 3; 12; 21; 30; 39; 48; 57; 66; 75; 84; 93; 102; 111; 120;
   129; 138; 147; 156; 165; 174; 183; 192; 201; 210; 219; 228; 237; 246; 255; 8; 17; 26; 35;
   44; 53; 62; 71; 80; 89; 98; 107; 116; 125; 134; 143; 152; 161; 170; 179; 188; 197; 206;
   215; 224; 233; 242; 251; 4; 13; 22; 31; 40; 49; 58; 67; 76; 85; 94; 103; 112; 121; 130;
   139; 148; 157; 166; 175; 184; 193; 202; 211; 220; 229; 238; 247; 0; 9; 18; 27; 36; 45; 54;
   63; 72; 81; 90; 99; 108; 117; 126; 135; 144; 153; 162; 171; 180; 189; 198; 207; 216; 225;
   234; 243; 252; 5; 14; 23; 32; 41; 50; 59; 68; 77; 86; 95; 104; 113; 122; 131; 140; 149;
   158; 167; 176; 185; 194; 203; 212; 221; 230; 239; 248; 1; 10; 19; 28; 37; 46; 55; 64; 73;
   82; 91; 100; 109; 118; 127; 136; 145; 154; 163; 172; 181; 190; 199; 208; 217; 226; 235;
   244; 253; 6; 15; 24; 33; 42; 51; 60; 69; 78; 87; 96; 105; 114; 123; 132; 141; 150; 159;
   168; 177; 186; 195; 204; 213; 222; 231; 240; 249; 2; 11; 20; 29; 38; 47; 56; 65; 74; 83;
   92; 101].

(** abi/src/fixture.rs:127-132 [INVOCATION_INFO_BYTES] *)
Definition INVOCATION_INFO_BYTES : list N :=
  [164; 49; 115; 181; 173; 56; 121; 186; 182; 63; 127; 191; 191; 70; 133; 196; 200; 77; 139;
   201; 7; 70; 132; 194; 209; 84; 145; 206; 11; 73; 134; 195; 218; 91; 151; 211; 15; 76; 136;
   196; 227; 98; 157; 216; 19; 79; 138; 197; 236; 105; 163; 221; 23; 82; 140; 198; 245; 112;
   169; 226; 27; 85; 142; 199].

(** abi/src/fixture.rs:133-140 [RECEIPT_RECORD_BYTES] *)
Definition RECEIPT_RECORD_BYTES : list N :=
  [61; 169; 217; 10; 70; 176; 223; 15; 79; 183; 229; 20; 68; 115; 162; 209; 88; 190; 235; 25;
   72; 118; 164; 210; 97; 197; 241; 30; 76; 121; 166; 211; 106; 204; 247; 35; 80; 124; 168;
   212; 115; 211; 253; 40; 84; 127; 170; 213; 124; 218; 3; 46; 88; 130; 172; 214; 133; 225; 9;
   51; 92; 133; 174; 215; 142; 232; 15; 56; 96; 136; 176; 216; 28; 250; 255; 255; 255; 255;
   255; 255; 160; 246; 27; 66; 104; 142; 180; 218; 169; 253; 33; 71; 108; 145; 182; 219].

(** abi/src/fixture.rs:141-239 [LOG_READ_RESULT_BYTES] *)
Definition LOG_READ_RESULT_BYTES : list N :=
  [214; 32; 64; 96; 223; 39; 70; 101; 232; 46; 76; 106; 136; 166; 196; 226; 250; 60; 88; 116;
   3; 68; 94; 121; 12; 75; 100; 126; 152; 178; 204; 230; 21; 82; 106; 131; 156; 181; 206; 231;
   30; 89; 112; 136; 160; 184; 208; 232; 39; 96; 118; 141; 164; 187; 210; 233; 48; 103; 124;
   146; 168; 190; 212; 234; 57; 110; 130; 151; 172; 193; 214; 235; 66; 117; 136; 156; 176;
   196; 216; 236; 75; 124; 142; 161; 180; 199; 218; 237; 137; 249; 255; 255; 255; 255; 255;
   255; 93; 138; 154; 171; 188; 205; 222; 239; 102; 145; 160; 176; 192; 208; 224; 240; 21; 82;
   106; 131; 30; 89; 112; 136; 39; 96; 118; 141; 164; 187; 210; 233; 48; 103; 124; 146; 168;
   190; 212; 234; 57; 110; 130; 151; 172; 193; 214; 235; 66; 117; 136; 156; 176; 196; 216;
   236; 75; 124; 142; 161; 180; 199; 218; 237; 84; 131; 148; 166; 184; 202; 220; 238; 93; 138;
   154; 171; 188; 205; 222; 239; 102; 145; 160; 176; 192; 208; 224; 240; 116; 249; 255; 255;
   255; 255; 255; 255; 120; 159; 172; 186; 200; 214; 228; 242; 129; 166; 178; 191; 204; 217;
   230; 243; 48; 103; 124; 146; 57; 110; 130; 151; 66; 117; 136; 156; 176; 196; 216; 236; 75;
   124; 142; 161; 180; 199; 218; 237; 84; 131; 148; 166; 184; 202; 220; 238; 93; 138; 154;
   171; 188; 205; 222; 239; 102; 145; 160; 176; 192; 208; 224; 240; 111; 152; 166; 181; 196;
   211; 226; 241; 120; 159; 172; 186; 200; 214; 228; 242; 129; 166; 178; 191; 204; 217; 230;
   243; 95; 249; 255; 255; 255; 255; 255; 255; 147; 180; 190; 201; 212; 223; 234; 245; 156;
   187; 196; 206; 216; 226; 236; 246; 75; 124; 142; 161; 84; 131; 148; 166; 93; 138; 154; 171;
   188; 205; 222; 239; 102; 145; 160; 176; 192; 208; 224; 240; 111; 152; 166; 181; 196; 211;
   226; 241; 120; 159; 172; 186; 200; 214; 228; 242; 129; 166; 178; 191; 204; 217; 230; 243;
   138; 173; 184; 196; 208; 220; 232; 244; 147; 180; 190; 201; 212; 223; 234; 245; 156; 187;
   196; 206; 216; 226; 236; 246; 74; 249; 255; 255; 255; 255; 255; 255; 174; 201; 208; 216;
   224; 232; 240; 248; 183; 208; 214; 221; 228; 235; 242; 249; 102; 145; 160; 176; 111; 152;
   166; 181; 120; 159; 172; 186; 200; 214; 228; 242; 129; 166; 178; 191; 204; 217; 230; 243;
   138; 173; 184; 196; 208; 220; 232; 244; 147; 180; 190; 201; 212; 223; 234; 245; 156; 187;
   196; 206; 216; 226; 236; 246; 165; 194; 202; 211; 220; 229; 238; 247; 174; 201; 208; 216;
   224; 232; 240; 248; 183; 208; 214; 221; 228; 235; 242; 249; 53; 249; 255; 255; 255; 255;
   255; 255; 201; 222; 226; 231; 236; 241; 246; 251; 210; 229; 232; 236; 240; 244; 248; 252;
   129; 166; 178; 191; 138; 173; 184; 196; 147; 180; 190; 201; 212; 223; 234; 245; 156; 187;
   196; 206; 216; 226; 236; 246; 165; 194; 202; 211; 220; 229; 238; 247; 174; 201; 208; 216;
   224; 232; 240; 248; 183; 208; 214; 221; 228; 235; 242; 249; 192; 215; 220; 226; 232; 238;
   244; 250; 201; 222; 226; 231; 236; 241; 246; 251; 210; 229; 232; 236; 240; 244; 248; 252;
   32; 249; 255; 255; 255; 255; 255; 255; 228; 243; 244; 246; 248; 250; 252; 254; 237; 250;
   250; 251; 252; 253; 254; 255; 156; 187; 196; 206; 165; 194; 202; 211; 174; 201; 208; 216;
   224; 232; 240; 248; 183; 208; 214; 221; 228; 235; 242; 249; 192; 215; 220; 226; 232; 238;
   244; 250; 201; 222; 226; 231; 236; 241; 246; 251; 210; 229; 232; 236; 240; 244; 248; 252;
   219; 236; 238; 241; 244; 247; 250; 253; 228; 243; 244; 246; 248; 250; 252; 254; 237; 250;
   250; 251; 252; 253; 254; 255; 11; 249; 255; 255; 255; 255; 255; 255; 255; 8; 7; 6; 5; 4; 3;
   2; 8; 16; 13; 11; 9; 7; 5; 3; 183; 208; 214; 221; 192; 215; 220; 226; 201; 222; 226; 231;
   236; 241; 246; 251; 210; 229; 232; 236; 240; 244; 248; 252; 219; 236; 238; 241; 244; 247;
   250; 253; 228; 243; 244; 246; 248; 250; 252; 254; 237; 250; 250; 251; 252; 253; 254; 255;
   246; 1; 1; 1; 1; 1; 1; 1; 255; 8; 7; 6; 5; 4; 3; 2; 8; 16; 13; 11; 9; 7; 5; 3; 246; 248;
   255; 255; 255; 255; 255; 255; 26; 30; 25; 21; 17; 13; 9; 5; 35; 37; 31; 26; 21; 16; 11; 6;
   210; 229; 232; 236; 219; 236; 238; 241; 228; 243; 244; 246; 248; 250; 252; 254; 237; 250;
   250; 251; 252; 253; 254; 255; 246; 1; 1; 1; 1; 1; 1; 1; 255; 8; 7; 6; 5; 4; 3; 2; 8; 16;
   13; 11; 9; 7; 5; 3; 17; 23; 19; 16; 13; 10; 7; 4; 26; 30; 25; 21; 17; 13; 9; 5; 35; 37; 31;
   26; 21; 16; 11; 6; 225; 248; 255; 255; 255; 255; 255; 255; 53; 51; 43; 36; 29; 22; 15; 8;
   62; 58; 49; 41; 33; 25; 17; 9; 237; 250; 250; 251; 246; 1; 1; 1; 255; 8; 7; 6; 5; 4; 3; 2;
   8; 16; 13; 11; 9; 7; 5; 3; 17; 23; 19; 16; 13; 10; 7; 4; 26; 30; 25; 21; 17; 13; 9; 5; 35;
   37; 31; 26; 21; 16; 11; 6; 44; 44; 37; 31; 25; 19; 13; 7; 53; 51; 43; 36; 29; 22; 15; 8;
   62; 58; 49; 41; 33; 25; 17; 9; 204; 248; 255; 255; 255; 255; 255; 255; 80; 72; 61; 51; 41;
   31; 21; 11; 89; 79; 67; 56; 45; 34; 23; 12; 8; 16; 13; 11; 17; 23; 19; 16; 26; 30; 25; 21;
   17; 13; 9; 5; 35; 37; 31; 26; 21; 16; 11; 6; 44; 44; 37; 31; 25; 19; 13; 7; 53; 51; 43; 36;
   29; 22; 15; 8; 62; 58; 49; 41; 33; 25; 17; 9; 71; 65; 55; 46; 37; 28; 19; 10; 80; 72; 61;
   51; 41; 31; 21; 11; 89; 79; 67; 56; 45; 34; 23; 12; 183; 248; 255; 255; 255; 255; 255; 255;
   107; 93; 79; 66; 53; 40; 27; 14; 116; 100; 85; 71; 57; 43; 29; 15; 35; 37; 31; 26; 44; 44;
   37; 31; 53; 51; 43; 36; 29; 22; 15; 8; 62; 58; 49; 41; 33; 25; 17; 9; 71; 65; 55; 46; 37;
   28; 19; 10; 80; 72; 61; 51; 41; 31; 21; 11; 89; 79; 67; 56; 45; 34; 23; 12; 98; 86; 73; 61;
   49; 37; 25; 13; 107; 93; 79; 66; 53; 40; 27; 14; 116; 100; 85; 71; 57; 43; 29; 15; 162;
   248; 255; 255; 255; 255; 255; 255; 134; 114; 97; 81; 65; 49; 33; 17; 143; 121; 103; 86; 69;
   52; 35; 18; 62; 58; 49; 41; 71; 65; 55; 46; 80; 72; 61; 51; 41; 31; 21; 11; 89; 79; 67; 56;
   45; 34; 23; 12; 98; 86; 73; 61; 49; 37; 25; 13; 107; 93; 79; 66; 53; 40; 27; 14; 116; 100;
   85; 71; 57; 43; 29; 15; 125; 107; 91; 76; 61; 46; 31; 16; 134; 114; 97; 81; 65; 49; 33; 17;
   143; 121; 103; 86; 69; 52; 35; 18; 141; 248; 255; 255; 255; 255; 255; 255; 161; 135; 115;
   96; 77; 58; 39; 20; 170; 142; 121; 101; 81; 61; 41; 21; 89; 79; 67; 56; 98; 86; 73; 61;
   107; 93; 79; 66; 53; 40; 27; 14; 116; 100; 85; 71; 57; 43; 29; 15; 125; 107; 91; 76; 61;
   46; 31; 16; 134; 114; 97; 81; 65; 49; 33; 17; 143; 121; 103; 86; 69; 52; 35; 18; 152; 128;
   109; 91; 73; 55; 37; 19; 161; 135; 115; 96; 77; 58; 39; 20; 170; 142; 121; 101; 81; 61; 41;
   21; 120; 248; 255; 255; 255; 255; 255; 255; 188; 156; 133; 111; 89; 67; 45; 23; 197; 163;
   139; 116; 93; 70; 47; 24; 116; 100; 85; 71; 125; 107; 91; 76; 134; 114; 97; 81; 65; 49; 33;
   17; 143; 121; 103; 86; 69; 52; 35; 18; 152; 128; 109; 91; 73; 55; 37; 19; 161; 135; 115;
   96; 77; 58; 39; 20; 170; 142; 121; 101; 81; 61; 41; 21; 179; 149; 127; 106; 85; 64; 43; 22;
   188; 156; 133; 111; 89; 67; 45; 23; 197; 163; 139; 116; 93; 70; 47; 24; 99; 248; 255; 255;
   255; 255; 255; 255; 215; 177; 151; 126; 101; 76; 51; 26; 224; 184; 157; 131; 105; 79; 53;
   27; 143; 121; 103; 86; 152; 128; 109; 91; 161; 135; 115; 96; 77; 58; 39; 20; 170; 142; 121;
   101; 81; 61; 41; 21; 179; 149; 127; 106; 85; 64; 43; 22; 188; 156; 133; 111; 89; 67; 45;
   23; 197; 163; 139; 116; 93; 70; 47; 24; 206; 170; 145; 121; 97; 73; 49; 25; 215; 177; 151;
   126; 101; 76; 51; 26; 224; 184; 157; 131; 105; 79; 53; 27; 78; 248; 255; 255; 255; 255;
   255; 255; 242; 198; 169; 141; 113; 85; 57; 29; 251; 205; 175; 146; 117; 88; 59; 30].

(** abi/src/fixture.rs:240-246 [FAULT_REPORT_BYTES] *)
Definition FAULT_REPORT_BYTES : list N :=
  [111; 152; 166; 181; 196; 211; 226; 241; 120; 159; 172; 186; 200; 214; 228; 242; 129; 166;
   178; 191; 204; 217; 230; 243; 138; 173; 184; 196; 208; 220; 232; 244; 147; 180; 190; 201;
   212; 223; 234; 245; 156; 187; 196; 206; 216; 226; 236; 246; 165; 194; 202; 211; 220; 229;
   238; 247; 174; 201; 208; 216; 224; 232; 240; 248; 183; 208; 214; 221; 192; 215; 220; 226].

(** abi/src/fixture.rs:14-21 [Fixture]. The structure's name is its position. *)
Record Fixture := mkFixture { fx_bytes : list N; fx_size : N }.
(** abi/src/fixture.rs:249-325 [FIXTURES] *)
Definition FIXTURES : list Fixture :=
  [mkFixture DESCRIPTOR_HEADER_BYTES 32; mkFixture LIMITS_BYTES 88;
   mkFixture CAP_INFO_BYTES 64; mkFixture DERIVE_REQUEST_BYTES 24;
   mkFixture SCOPE_INFO_BYTES 144; mkFixture DRAIN_REPORT_BYTES 64;
   mkFixture MAP_REQUEST_BYTES 32; mkFixture MEMORY_INFO_BYTES 56;
   mkFixture SEND_REQUEST_BYTES 312; mkFixture MESSAGE_HEADER_BYTES 80;
   mkFixture RECEIVE_RESULT_BYTES 376; mkFixture INVOCATION_INFO_BYTES 64;
   mkFixture RECEIPT_RECORD_BYTES 96; mkFixture LOG_READ_RESULT_BYTES 1552;
   mkFixture FAULT_REPORT_BYTES 72].

(** abi/src/fixture.rs:335-371 [verify, DescriptorHeader] *)
Definition verify_descriptor_header : list bool :=
  let value := cd_value DescriptorHeader_codec DESCRIPTOR_HEADER_BYTES in
  [bool_decide (h_major value = 3601); bool_decide (h_minor value = 5402);
   bool_decide (h_opcode value = 337124387); bool_decide (h_flags value = 421405484);
   bool_decide (h_total_len value = 505686581);
   bool_decide (h_cookie value = 508367018532679998);
   bool_decide (h_reserved value = 580990878323062855)].

(** abi/src/fixture.rs:372-455 [verify, Limits] *)
Definition verify_limits : list bool :=
  let value := cd_value Limits_codec LIMITS_BYTES in
  [bool_decide (wal_major value = 34218); bool_decide (wal_minor value = 36019);
   bool_decide (wal_max_descriptor_len value = 1769903036);
   bool_decide (wal_max_inline_payload value = 1854184133);
   bool_decide (wal_max_caps_per_message value = 1938465230);
   bool_decide (wal_max_scope_depth value = 2022746327);
   bool_decide (wal_max_derive_depth value = 2107027424);
   bool_decide (wal_max_handles_per_domain value = 2191308521);
   bool_decide (wal_max_endpoint_queue value = 2275589618);
   bool_decide (wal_max_memory_pages_per_object value = 2359870715);
   bool_decide (wal_control_log_capacity value = 2444151812);
   bool_decide (wal_control_log_reserved value = 2528432909);
   bool_decide (wal_receipt_batch value = 2612714006);
   bool_decide (wal_cpu_window_ns value = 2323963513292251423);
   bool_decide (wal_cpu_quantum_ns value = 2396587373082634280);
   bool_decide (wal_page_size value = 2469211232873017137);
   bool_decide (wal_boot_epoch value = 2541835092663399994);
   bool_decide (wal_cpus_online value = 3034119491);
   bool_decide (wal_reserved0 value = 3118400588)].

(** abi/src/fixture.rs:456-503 [verify, CapInfo] *)
Definition verify_cap_info : list bool :=
  let value := cd_value CapInfo_codec CAP_INFO_BYTES in
  [bool_decide (ci_object_type value = 3034119491);
   bool_decide (ci_rights value = 3118400588);
   bool_decide (ci_derive_depth value = 3202681685);
   bool_decide (ci_lineage_state value = 3286962782);
   bool_decide (ci_grant_id value = 2904954391615314279);
   bool_decide (ci_parent_grant_id value = 2977578251405697136);
   bool_decide (ci_deadline_ns value = 3050202111196079993);
   bool_decide (ci_life_scope_id value = 3122825970986462850);
   bool_decide (ci_object_id value = 3195449830776845707);
   bool_decide (ci_facet value = 3268073690567228564)].

(** abi/src/fixture.rs:504-528 [verify, DeriveRequest] *)
Definition verify_derive_request : list bool :=
  let value := cd_value DeriveRequest_codec DERIVE_REQUEST_BYTES in
  [bool_decide (dr_rights_mask value = 171930844);
   bool_decide (dr_reserved0 value = 256211941);
   bool_decide (dr_deadline_ns value = 3994312288471057134);
   bool_decide (dr_life_scope value = 4066936148261439991)].

(** abi/src/fixture.rs:529-621 [verify, ScopeInfo] *)
Definition verify_scope_info : list bool :=
  let value := cd_value ScopeInfo_codec SCOPE_INFO_BYTES in
  [bool_decide (wsl_memory_pages (wsi_limits value) = 5156294045117182846);
   bool_decide (wsl_metadata_objects (wsi_limits value) = 5228917904907565703);
   bool_decide (wsl_cpu_budget_ns (wsi_limits value) = 5301541764697948560);
   bool_decide (wsl_queue_bytes (wsi_limits value) = 5374165624488331417);
   bool_decide (wsl_closure_reserve_ns (wsi_limits value) = 5446789484278714274);
   bool_decide (wsl_parallelism (wsi_limits value) = 2110396075);
   bool_decide (wsl_reserved0 (wsi_limits value) = 2194677172);
   bool_decide (wsi_state value = 2026114978); bool_decide (wsi_depth value = 2110396075);
   bool_decide (wsi_parallelism_used value = 2194677172);
   bool_decide (wsi_threads value = 2278958269);
   bool_decide (wsi_scope_id value = 5737284923440245702);
   bool_decide (wsi_parent_scope_id value = 5809908783230628559);
   bool_decide (wsi_memory_pages_used value = 5882532643021011416);
   bool_decide (wsi_metadata_used value = 5955156502811394273);
   bool_decide (wsi_queue_bytes_used value = 6027780362601777130);
   bool_decide (wsi_cpu_window_used_ns value = 6100404222392159987);
   bool_decide (wsi_cpu_total_ns value = 6173028082182542844);
   bool_decide (wsi_cpu_debt_ns value = 6245651941972925701);
   bool_decide (wsi_closure_used_ns value = 6318275801763308558);
   bool_decide (wsi_window_index value = 6390899661553691415)].

(** abi/src/fixture.rs:622-678 [verify, DrainReport] *)
Definition verify_drain_report : list bool :=
  let value := cd_value DrainReport_codec DRAIN_REPORT_BYTES in
  [bool_decide (rp_state value = 3037488142);
   bool_decide (rp_threads_running value = 3121769239);
   bool_decide (rp_invocations_pending value = 3206050336);
   bool_decide (rp_effects_pending value = 3290331433);
   bool_decide (rp_maps_pending value = 3374612530);
   bool_decide (rp_undelivered_cancelled value = 3458893627);
   bool_decide (rp_external_unknown value = 3543174724);
   bool_decide (rp_reserved0 value = 3627455821);
   bool_decide (rp_retained_pages value = 6899266680086371414);
   bool_decide (rp_retained_metadata value = 6971890539876754271);
   bool_decide (rp_last_progress_ns value = 7044514399667137128);
   bool_decide (rp_token value = 7117138259457519985)].

(** abi/src/fixture.rs:679-711 [verify, MapRequest] *)
Definition verify_map_request : list bool :=
  let value := cd_value MapRequest_codec MAP_REQUEST_BYTES in
  [bool_decide (wmr_memory_handle value = 7552881418199817127);
   bool_decide (wmr_vaddr value = 7625505277990199984);
   bool_decide (wmr_offset_pages value = 343861689);
   bool_decide (wmr_page_count value = 428142786); bool_decide (wmr_rights value = 512423883);
   bool_decide (wmr_reserved0 value = 596704980)].

(** abi/src/fixture.rs:712-812 [verify, MemoryInfo] *)
Definition verify_memory_info : list bool :=
  let value := cd_value MemoryInfo_codec MEMORY_INFO_BYTES in
  [bool_decide (wmi_state value = 1608078144);
   bool_decide (wmi_max_rights value = 1692359241);
   bool_decide (wmi_map_count value = 1776640338);
   bool_decide (wmi_writable_maps value = 1860921435);
   bool_decide (wmi_pages value = 9077982473797857124);
   bool_decide (wmi_object_id value = 9150606333588239981);
   bool_decide (wmi_sponsor_scope_id value = 9223230193378622838);
   bool_decide (wmi_label value !! 0%nat = Some 127);
   bool_decide (wmi_label value !! 1%nat = Some 136);
   bool_decide (wmi_label value !! 2%nat = Some 145);
   bool_decide (wmi_label value !! 3%nat = Some 154);
   bool_decide (wmi_label value !! 4%nat = Some 163);
   bool_decide (wmi_label value !! 5%nat = Some 172);
   bool_decide (wmi_label value !! 6%nat = Some 181);
   bool_decide (wmi_label value !! 7%nat = Some 190);
   bool_decide (wmi_label value !! 8%nat = Some 199);
   bool_decide (wmi_label value !! 9%nat = Some 208);
   bool_decide (wmi_label value !! 10%nat = Some 217);
   bool_decide (wmi_label value !! 11%nat = Some 226);
   bool_decide (wmi_label value !! 12%nat = Some 235);
   bool_decide (wmi_label value !! 13%nat = Some 244);
   bool_decide (wmi_label value !! 14%nat = Some 253);
   bool_decide (wmi_label value !! 15%nat = Some 6)].

(** abi/src/fixture.rs:813-1885 [verify, SendRequest] *)
Definition verify_send_request : list bool :=
  let value := cd_value SendRequest_codec SEND_REQUEST_BYTES in
  [bool_decide (wsr_payload_len value = 3040856793);
   bool_decide (wsr_cap_count value = 3125137890);
   bool_decide (wsr_caps value !! 0%nat = Some 10167340370653599979);
   bool_decide (wsr_caps value !! 1%nat = Some 10239964230443982836);
   bool_decide (wsr_caps value !! 2%nat = Some 10312588090234365693);
   bool_decide (wsr_caps value !! 3%nat = Some 10385211950024748550);
   bool_decide (wsr_cap_ops value !! 0%nat = Some 3546543375);
   bool_decide (wsr_cap_ops value !! 1%nat = Some 3630824472);
   bool_decide (wsr_cap_ops value !! 2%nat = Some 3715105569);
   bool_decide (wsr_cap_ops value !! 3%nat = Some 3799386666);
   bool_decide (wsr_payload value !! 0%nat = Some 51);
   bool_decide (wsr_payload value !! 1%nat = Some 60);
   bool_decide (wsr_payload value !! 2%nat = Some 69);
   bool_decide (wsr_payload value !! 3%nat = Some 78);
   bool_decide (wsr_payload value !! 4%nat = Some 87);
   bool_decide (wsr_payload value !! 5%nat = Some 96);
   bool_decide (wsr_payload value !! 6%nat = Some 105);
   bool_decide (wsr_payload value !! 7%nat = Some 114);
   bool_decide (wsr_payload value !! 8%nat = Some 123);
   bool_decide (wsr_payload value !! 9%nat = Some 132);
   bool_decide (wsr_payload value !! 10%nat = Some 141);
   bool_decide (wsr_payload value !! 11%nat = Some 150);
   bool_decide (wsr_payload value !! 12%nat = Some 159);
   bool_decide (wsr_payload value !! 13%nat = Some 168);
   bool_decide (wsr_payload value !! 14%nat = Some 177);
   bool_decide (wsr_payload value !! 15%nat = Some 186);
   bool_decide (wsr_payload value !! 16%nat = Some 195);
   bool_decide (wsr_payload value !! 17%nat = Some 204);
   bool_decide (wsr_payload value !! 18%nat = Some 213);
   bool_decide (wsr_payload value !! 19%nat = Some 222);
   bool_decide (wsr_payload value !! 20%nat = Some 231);
   bool_decide (wsr_payload value !! 21%nat = Some 240);
   bool_decide (wsr_payload value !! 22%nat = Some 249);
   bool_decide (wsr_payload value !! 23%nat = Some 2);
   bool_decide (wsr_payload value !! 24%nat = Some 11);
   bool_decide (wsr_payload value !! 25%nat = Some 20);
   bool_decide (wsr_payload value !! 26%nat = Some 29);
   bool_decide (wsr_payload value !! 27%nat = Some 38);
   bool_decide (wsr_payload value !! 28%nat = Some 47);
   bool_decide (wsr_payload value !! 29%nat = Some 56);
   bool_decide (wsr_payload value !! 30%nat = Some 65);
   bool_decide (wsr_payload value !! 31%nat = Some 74);
   bool_decide (wsr_payload value !! 32%nat = Some 83);
   bool_decide (wsr_payload value !! 33%nat = Some 92);
   bool_decide (wsr_payload value !! 34%nat = Some 101);
   bool_decide (wsr_payload value !! 35%nat = Some 110);
   bool_decide (wsr_payload value !! 36%nat = Some 119);
   bool_decide (wsr_payload value !! 37%nat = Some 128);
   bool_decide (wsr_payload value !! 38%nat = Some 137);
   bool_decide (wsr_payload value !! 39%nat = Some 146);
   bool_decide (wsr_payload value !! 40%nat = Some 155);
   bool_decide (wsr_payload value !! 41%nat = Some 164);
   bool_decide (wsr_payload value !! 42%nat = Some 173);
   bool_decide (wsr_payload value !! 43%nat = Some 182);
   bool_decide (wsr_payload value !! 44%nat = Some 191);
   bool_decide (wsr_payload value !! 45%nat = Some 200);
   bool_decide (wsr_payload value !! 46%nat = Some 209);
   bool_decide (wsr_payload value !! 47%nat = Some 218);
   bool_decide (wsr_payload value !! 48%nat = Some 227);
   bool_decide (wsr_payload value !! 49%nat = Some 236);
   bool_decide (wsr_payload value !! 50%nat = Some 245);
   bool_decide (wsr_payload value !! 51%nat = Some 254);
   bool_decide (wsr_payload value !! 52%nat = Some 7);
   bool_decide (wsr_payload value !! 53%nat = Some 16);
   bool_decide (wsr_payload value !! 54%nat = Some 25);
   bool_decide (wsr_payload value !! 55%nat = Some 34);
   bool_decide (wsr_payload value !! 56%nat = Some 43);
   bool_decide (wsr_payload value !! 57%nat = Some 52);
   bool_decide (wsr_payload value !! 58%nat = Some 61);
   bool_decide (wsr_payload value !! 59%nat = Some 70);
   bool_decide (wsr_payload value !! 60%nat = Some 79);
   bool_decide (wsr_payload value !! 61%nat = Some 88);
   bool_decide (wsr_payload value !! 62%nat = Some 97);
   bool_decide (wsr_payload value !! 63%nat = Some 106);
   bool_decide (wsr_payload value !! 64%nat = Some 115);
   bool_decide (wsr_payload value !! 65%nat = Some 124);
   bool_decide (wsr_payload value !! 66%nat = Some 133);
   bool_decide (wsr_payload value !! 67%nat = Some 142);
   bool_decide (wsr_payload value !! 68%nat = Some 151);
   bool_decide (wsr_payload value !! 69%nat = Some 160);
   bool_decide (wsr_payload value !! 70%nat = Some 169);
   bool_decide (wsr_payload value !! 71%nat = Some 178);
   bool_decide (wsr_payload value !! 72%nat = Some 187);
   bool_decide (wsr_payload value !! 73%nat = Some 196);
   bool_decide (wsr_payload value !! 74%nat = Some 205);
   bool_decide (wsr_payload value !! 75%nat = Some 214);
   bool_decide (wsr_payload value !! 76%nat = Some 223);
   bool_decide (wsr_payload value !! 77%nat = Some 232);
   bool_decide (wsr_payload value !! 78%nat = Some 241);
   bool_decide (wsr_payload value !! 79%nat = Some 250);
   bool_decide (wsr_payload value !! 80%nat = Some 3);
   bool_decide (wsr_payload value !! 81%nat = Some 12);
   bool_decide (wsr_payload value !! 82%nat = Some 21);
   bool_decide (wsr_payload value !! 83%nat = Some 30);
   bool_decide (wsr_payload value !! 84%nat = Some 39);
   bool_decide (wsr_payload value !! 85%nat = Some 48);
   bool_decide (wsr_payload value !! 86%nat = Some 57);
   bool_decide (wsr_payload value !! 87%nat = Some 66);
   bool_decide (wsr_payload value !! 88%nat = Some 75);
   bool_decide (wsr_payload value !! 89%nat = Some 84);
   bool_decide (wsr_payload value !! 90%nat = Some 93);
   bool_decide (wsr_payload value !! 91%nat = Some 102);
   bool_decide (wsr_payload value !! 92%nat = Some 111);
   bool_decide (wsr_payload value !! 93%nat = Some 120);
   bool_decide (wsr_payload value !! 94%nat = Some 129);
   bool_decide (wsr_payload value !! 95%nat = Some 138);
   bool_decide (wsr_payload value !! 96%nat = Some 147);
   bool_decide (wsr_payload value !! 97%nat = Some 156);
   bool_decide (wsr_payload value !! 98%nat = Some 165);
   bool_decide (wsr_payload value !! 99%nat = Some 174);
   bool_decide (wsr_payload value !! 100%nat = Some 183);
   bool_decide (wsr_payload value !! 101%nat = Some 192);
   bool_decide (wsr_payload value !! 102%nat = Some 201);
   bool_decide (wsr_payload value !! 103%nat = Some 210);
   bool_decide (wsr_payload value !! 104%nat = Some 219);
   bool_decide (wsr_payload value !! 105%nat = Some 228);
   bool_decide (wsr_payload value !! 106%nat = Some 237);
   bool_decide (wsr_payload value !! 107%nat = Some 246);
   bool_decide (wsr_payload value !! 108%nat = Some 255);
   bool_decide (wsr_payload value !! 109%nat = Some 8);
   bool_decide (wsr_payload value !! 110%nat = Some 17);
   bool_decide (wsr_payload value !! 111%nat = Some 26);
   bool_decide (wsr_payload value !! 112%nat = Some 35);
   bool_decide (wsr_payload value !! 113%nat = Some 44);
   bool_decide (wsr_payload value !! 114%nat = Some 53);
   bool_decide (wsr_payload value !! 115%nat = Some 62);
   bool_decide (wsr_payload value !! 116%nat = Some 71);
   bool_decide (wsr_payload value !! 117%nat = Some 80);
   bool_decide (wsr_payload value !! 118%nat = Some 89);
   bool_decide (wsr_payload value !! 119%nat = Some 98);
   bool_decide (wsr_payload value !! 120%nat = Some 107);
   bool_decide (wsr_payload value !! 121%nat = Some 116);
   bool_decide (wsr_payload value !! 122%nat = Some 125);
   bool_decide (wsr_payload value !! 123%nat = Some 134);
   bool_decide (wsr_payload value !! 124%nat = Some 143);
   bool_decide (wsr_payload value !! 125%nat = Some 152);
   bool_decide (wsr_payload value !! 126%nat = Some 161);
   bool_decide (wsr_payload value !! 127%nat = Some 170);
   bool_decide (wsr_payload value !! 128%nat = Some 179);
   bool_decide (wsr_payload value !! 129%nat = Some 188);
   bool_decide (wsr_payload value !! 130%nat = Some 197);
   bool_decide (wsr_payload value !! 131%nat = Some 206);
   bool_decide (wsr_payload value !! 132%nat = Some 215);
   bool_decide (wsr_payload value !! 133%nat = Some 224);
   bool_decide (wsr_payload value !! 134%nat = Some 233);
   bool_decide (wsr_payload value !! 135%nat = Some 242);
   bool_decide (wsr_payload value !! 136%nat = Some 251);
   bool_decide (wsr_payload value !! 137%nat = Some 4);
   bool_decide (wsr_payload value !! 138%nat = Some 13);
   bool_decide (wsr_payload value !! 139%nat = Some 22);
   bool_decide (wsr_payload value !! 140%nat = Some 31);
   bool_decide (wsr_payload value !! 141%nat = Some 40);
   bool_decide (wsr_payload value !! 142%nat = Some 49);
   bool_decide (wsr_payload value !! 143%nat = Some 58);
   bool_decide (wsr_payload value !! 144%nat = Some 67);
   bool_decide (wsr_payload value !! 145%nat = Some 76);
   bool_decide (wsr_payload value !! 146%nat = Some 85);
   bool_decide (wsr_payload value !! 147%nat = Some 94);
   bool_decide (wsr_payload value !! 148%nat = Some 103);
   bool_decide (wsr_payload value !! 149%nat = Some 112);
   bool_decide (wsr_payload value !! 150%nat = Some 121);
   bool_decide (wsr_payload value !! 151%nat = Some 130);
   bool_decide (wsr_payload value !! 152%nat = Some 139);
   bool_decide (wsr_payload value !! 153%nat = Some 148);
   bool_decide (wsr_payload value !! 154%nat = Some 157);
   bool_decide (wsr_payload value !! 155%nat = Some 166);
   bool_decide (wsr_payload value !! 156%nat = Some 175);
   bool_decide (wsr_payload value !! 157%nat = Some 184);
   bool_decide (wsr_payload value !! 158%nat = Some 193);
   bool_decide (wsr_payload value !! 159%nat = Some 202);
   bool_decide (wsr_payload value !! 160%nat = Some 211);
   bool_decide (wsr_payload value !! 161%nat = Some 220);
   bool_decide (wsr_payload value !! 162%nat = Some 229);
   bool_decide (wsr_payload value !! 163%nat = Some 238);
   bool_decide (wsr_payload value !! 164%nat = Some 247);
   bool_decide (wsr_payload value !! 165%nat = Some 0);
   bool_decide (wsr_payload value !! 166%nat = Some 9);
   bool_decide (wsr_payload value !! 167%nat = Some 18);
   bool_decide (wsr_payload value !! 168%nat = Some 27);
   bool_decide (wsr_payload value !! 169%nat = Some 36);
   bool_decide (wsr_payload value !! 170%nat = Some 45);
   bool_decide (wsr_payload value !! 171%nat = Some 54);
   bool_decide (wsr_payload value !! 172%nat = Some 63);
   bool_decide (wsr_payload value !! 173%nat = Some 72);
   bool_decide (wsr_payload value !! 174%nat = Some 81);
   bool_decide (wsr_payload value !! 175%nat = Some 90);
   bool_decide (wsr_payload value !! 176%nat = Some 99);
   bool_decide (wsr_payload value !! 177%nat = Some 108);
   bool_decide (wsr_payload value !! 178%nat = Some 117);
   bool_decide (wsr_payload value !! 179%nat = Some 126);
   bool_decide (wsr_payload value !! 180%nat = Some 135);
   bool_decide (wsr_payload value !! 181%nat = Some 144);
   bool_decide (wsr_payload value !! 182%nat = Some 153);
   bool_decide (wsr_payload value !! 183%nat = Some 162);
   bool_decide (wsr_payload value !! 184%nat = Some 171);
   bool_decide (wsr_payload value !! 185%nat = Some 180);
   bool_decide (wsr_payload value !! 186%nat = Some 189);
   bool_decide (wsr_payload value !! 187%nat = Some 198);
   bool_decide (wsr_payload value !! 188%nat = Some 207);
   bool_decide (wsr_payload value !! 189%nat = Some 216);
   bool_decide (wsr_payload value !! 190%nat = Some 225);
   bool_decide (wsr_payload value !! 191%nat = Some 234);
   bool_decide (wsr_payload value !! 192%nat = Some 243);
   bool_decide (wsr_payload value !! 193%nat = Some 252);
   bool_decide (wsr_payload value !! 194%nat = Some 5);
   bool_decide (wsr_payload value !! 195%nat = Some 14);
   bool_decide (wsr_payload value !! 196%nat = Some 23);
   bool_decide (wsr_payload value !! 197%nat = Some 32);
   bool_decide (wsr_payload value !! 198%nat = Some 41);
   bool_decide (wsr_payload value !! 199%nat = Some 50);
   bool_decide (wsr_payload value !! 200%nat = Some 59);
   bool_decide (wsr_payload value !! 201%nat = Some 68);
   bool_decide (wsr_payload value !! 202%nat = Some 77);
   bool_decide (wsr_payload value !! 203%nat = Some 86);
   bool_decide (wsr_payload value !! 204%nat = Some 95);
   bool_decide (wsr_payload value !! 205%nat = Some 104);
   bool_decide (wsr_payload value !! 206%nat = Some 113);
   bool_decide (wsr_payload value !! 207%nat = Some 122);
   bool_decide (wsr_payload value !! 208%nat = Some 131);
   bool_decide (wsr_payload value !! 209%nat = Some 140);
   bool_decide (wsr_payload value !! 210%nat = Some 149);
   bool_decide (wsr_payload value !! 211%nat = Some 158);
   bool_decide (wsr_payload value !! 212%nat = Some 167);
   bool_decide (wsr_payload value !! 213%nat = Some 176);
   bool_decide (wsr_payload value !! 214%nat = Some 185);
   bool_decide (wsr_payload value !! 215%nat = Some 194);
   bool_decide (wsr_payload value !! 216%nat = Some 203);
   bool_decide (wsr_payload value !! 217%nat = Some 212);
   bool_decide (wsr_payload value !! 218%nat = Some 221);
   bool_decide (wsr_payload value !! 219%nat = Some 230);
   bool_decide (wsr_payload value !! 220%nat = Some 239);
   bool_decide (wsr_payload value !! 221%nat = Some 248);
   bool_decide (wsr_payload value !! 222%nat = Some 1);
   bool_decide (wsr_payload value !! 223%nat = Some 10);
   bool_decide (wsr_payload value !! 224%nat = Some 19);
   bool_decide (wsr_payload value !! 225%nat = Some 28);
   bool_decide (wsr_payload value !! 226%nat = Some 37);
   bool_decide (wsr_payload value !! 227%nat = Some 46);
   bool_decide (wsr_payload value !! 228%nat = Some 55);
   bool_decide (wsr_payload value !! 229%nat = Some 64);
   bool_decide (wsr_payload value !! 230%nat = Some 73);
   bool_decide (wsr_payload value !! 231%nat = Some 82);
   bool_decide (wsr_payload value !! 232%nat = Some 91);
   bool_decide (wsr_payload value !! 233%nat = Some 100);
   bool_decide (wsr_payload value !! 234%nat = Some 109);
   bool_decide (wsr_payload value !! 235%nat = Some 118);
   bool_decide (wsr_payload value !! 236%nat = Some 127);
   bool_decide (wsr_payload value !! 237%nat = Some 136);
   bool_decide (wsr_payload value !! 238%nat = Some 145);
   bool_decide (wsr_payload value !! 239%nat = Some 154);
   bool_decide (wsr_payload value !! 240%nat = Some 163);
   bool_decide (wsr_payload value !! 241%nat = Some 172);
   bool_decide (wsr_payload value !! 242%nat = Some 181);
   bool_decide (wsr_payload value !! 243%nat = Some 190);
   bool_decide (wsr_payload value !! 244%nat = Some 199);
   bool_decide (wsr_payload value !! 245%nat = Some 208);
   bool_decide (wsr_payload value !! 246%nat = Some 217);
   bool_decide (wsr_payload value !! 247%nat = Some 226);
   bool_decide (wsr_payload value !! 248%nat = Some 235);
   bool_decide (wsr_payload value !! 249%nat = Some 244);
   bool_decide (wsr_payload value !! 250%nat = Some 253);
   bool_decide (wsr_payload value !! 251%nat = Some 6);
   bool_decide (wsr_payload value !! 252%nat = Some 15);
   bool_decide (wsr_payload value !! 253%nat = Some 24);
   bool_decide (wsr_payload value !! 254%nat = Some 33);
   bool_decide (wsr_payload value !! 255%nat = Some 42)].

(** abi/src/fixture.rs:1886-1942 [verify, MessageHeader] *)
Definition verify_message_header : list bool :=
  let value := cd_value MessageHeader_codec MESSAGE_HEADER_BYTES in
  [bool_decide (wmh_epoch value = 11256698267509342834);
   bool_decide (wmh_invocation_id value = 11329322127299725691);
   bool_decide (wmh_sender_domain_id value = 11401945987090108548);
   bool_decide (wmh_sender_scope_id value = 11474569846880491405);
   bool_decide (wmh_parent_invocation_id value = 11547193706670874262);
   bool_decide (wmh_facet value = 11619817566461257119);
   bool_decide (wmh_grant_id value = 11692441426251639976);
   bool_decide (wmh_sent_ns value = 11765065286042022833);
   bool_decide (wmh_rights_transferred value = 852916922);
   bool_decide (wmh_cancel_state value = 937198019);
   bool_decide (wmh_kind value = 1021479116);
   bool_decide (wmh_payload_len value = 1105760213)].

(** abi/src/fixture.rs:1943-3047 [verify, ReceiveResult] *)
Definition verify_receive_result : list bool :=
  let value := cd_value ReceiveResult_codec RECEIVE_RESULT_BYTES in
  [bool_decide (wmh_epoch (wrr_header value) = 12563927743736234260);
   bool_decide (wmh_invocation_id (wrr_header value) = 12636551603526617117);
   bool_decide (wmh_sender_domain_id (wrr_header value) = 12709175463316999974);
   bool_decide (wmh_sender_scope_id (wrr_header value) = 12781799323107382831);
   bool_decide (wmh_parent_invocation_id (wrr_header value) = 12854423182897765688);
   bool_decide (wmh_facet (wrr_header value) = 12927047042688148545);
   bool_decide (wmh_grant_id (wrr_header value) = 12999670902478531402);
   bool_decide (wmh_sent_ns (wrr_header value) = 13072294762268914259);
   bool_decide (wmh_rights_transferred (wrr_header value) = 2369976668);
   bool_decide (wmh_cancel_state (wrr_header value) = 2454257765);
   bool_decide (wmh_kind (wrr_header value) = 2538538862);
   bool_decide (wmh_payload_len (wrr_header value) = 2622819959);
   bool_decide (wrr_cap_count value = 2032852280);
   bool_decide (wrr_reserved0 value = 2117133377);
   bool_decide (wrr_caps value !! 0%nat = Some 12999670902478531402);
   bool_decide (wrr_caps value !! 1%nat = Some 13072294762268914259);
   bool_decide (wrr_caps value !! 2%nat = Some 13144918622059297116);
   bool_decide (wrr_caps value !! 3%nat = Some 13217542481849679973);
   bool_decide (wrr_payload value !! 0%nat = Some 110);
   bool_decide (wrr_payload value !! 1%nat = Some 119);
   bool_decide (wrr_payload value !! 2%nat = Some 128);
   bool_decide (wrr_payload value !! 3%nat = Some 137);
   bool_decide (wrr_payload value !! 4%nat = Some 146);
   bool_decide (wrr_payload value !! 5%nat = Some 155);
   bool_decide (wrr_payload value !! 6%nat = Some 164);
   bool_decide (wrr_payload value !! 7%nat = Some 173);
   bool_decide (wrr_payload value !! 8%nat = Some 182);
   bool_decide (wrr_payload value !! 9%nat = Some 191);
   bool_decide (wrr_payload value !! 10%nat = Some 200);
   bool_decide (wrr_payload value !! 11%nat = Some 209);
   bool_decide (wrr_payload value !! 12%nat = Some 218);
   bool_decide (wrr_payload value !! 13%nat = Some 227);
   bool_decide (wrr_payload value !! 14%nat = Some 236);
   bool_decide (wrr_payload value !! 15%nat = Some 245);
   bool_decide (wrr_payload value !! 16%nat = Some 254);
   bool_decide (wrr_payload value !! 17%nat = Some 7);
   bool_decide (wrr_payload value !! 18%nat = Some 16);
   bool_decide (wrr_payload value !! 19%nat = Some 25);
   bool_decide (wrr_payload value !! 20%nat = Some 34);
   bool_decide (wrr_payload value !! 21%nat = Some 43);
   bool_decide (wrr_payload value !! 22%nat = Some 52);
   bool_decide (wrr_payload value !! 23%nat = Some 61);
   bool_decide (wrr_payload value !! 24%nat = Some 70);
   bool_decide (wrr_payload value !! 25%nat = Some 79);
   bool_decide (wrr_payload value !! 26%nat = Some 88);
   bool_decide (wrr_payload value !! 27%nat = Some 97);
   bool_decide (wrr_payload value !! 28%nat = Some 106);
   bool_decide (wrr_payload value !! 29%nat = Some 115);
   bool_decide (wrr_payload value !! 30%nat = Some 124);
   bool_decide (wrr_payload value !! 31%nat = Some 133);
   bool_decide (wrr_payload value !! 32%nat = Some 142);
   bool_decide (wrr_payload value !! 33%nat = Some 151);
   bool_decide (wrr_payload value !! 34%nat = Some 160);
   bool_decide (wrr_payload value !! 35%nat = Some 169);
   bool_decide (wrr_payload value !! 36%nat = Some 178);
   bool_decide (wrr_payload value !! 37%nat = Some 187);
   bool_decide (wrr_payload value !! 38%nat = Some 196);
   bool_decide (wrr_payload value !! 39%nat = Some 205);
   bool_decide (wrr_payload value !! 40%nat = Some 214);
   bool_decide (wrr_payload value !! 41%nat = Some 223);
   bool_decide (wrr_payload value !! 42%nat = Some 232);
   bool_decide (wrr_payload value !! 43%nat = Some 241);
   bool_decide (wrr_payload value !! 44%nat = Some 250);
   bool_decide (wrr_payload value !! 45%nat = Some 3);
   bool_decide (wrr_payload value !! 46%nat = Some 12);
   bool_decide (wrr_payload value !! 47%nat = Some 21);
   bool_decide (wrr_payload value !! 48%nat = Some 30);
   bool_decide (wrr_payload value !! 49%nat = Some 39);
   bool_decide (wrr_payload value !! 50%nat = Some 48);
   bool_decide (wrr_payload value !! 51%nat = Some 57);
   bool_decide (wrr_payload value !! 52%nat = Some 66);
   bool_decide (wrr_payload value !! 53%nat = Some 75);
   bool_decide (wrr_payload value !! 54%nat = Some 84);
   bool_decide (wrr_payload value !! 55%nat = Some 93);
   bool_decide (wrr_payload value !! 56%nat = Some 102);
   bool_decide (wrr_payload value !! 57%nat = Some 111);
   bool_decide (wrr_payload value !! 58%nat = Some 120);
   bool_decide (wrr_payload value !! 59%nat = Some 129);
   bool_decide (wrr_payload value !! 60%nat = Some 138);
   bool_decide (wrr_payload value !! 61%nat = Some 147);
   bool_decide (wrr_payload value !! 62%nat = Some 156);
   bool_decide (wrr_payload value !! 63%nat = Some 165);
   bool_decide (wrr_payload value !! 64%nat = Some 174);
   bool_decide (wrr_payload value !! 65%nat = Some 183);
   bool_decide (wrr_payload value !! 66%nat = Some 192);
   bool_decide (wrr_payload value !! 67%nat = Some 201);
   bool_decide (wrr_payload value !! 68%nat = Some 210);
   bool_decide (wrr_payload value !! 69%nat = Some 219);
   bool_decide (wrr_payload value !! 70%nat = Some 228);
   bool_decide (wrr_payload value !! 71%nat = Some 237);
   bool_decide (wrr_payload value !! 72%nat = Some 246);
   bool_decide (wrr_payload value !! 73%nat = Some 255);
   bool_decide (wrr_payload value !! 74%nat = Some 8);
   bool_decide (wrr_payload value !! 75%nat = Some 17);
   bool_decide (wrr_payload value !! 76%nat = Some 26);
   bool_decide (wrr_payload value !! 77%nat = Some 35);
   bool_decide (wrr_payload value !! 78%nat = Some 44);
   bool_decide (wrr_payload value !! 79%nat = Some 53);
   bool_decide (wrr_payload value !! 80%nat = Some 62);
   bool_decide (wrr_payload value !! 81%nat = Some 71);
   bool_decide (wrr_payload value !! 82%nat = Some 80);
   bool_decide (wrr_payload value !! 83%nat = Some 89);
   bool_decide (wrr_payload value !! 84%nat = Some 98);
   bool_decide (wrr_payload value !! 85%nat = Some 107);
   bool_decide (wrr_payload value !! 86%nat = Some 116);
   bool_decide (wrr_payload value !! 87%nat = Some 125);
   bool_decide (wrr_payload value !! 88%nat = Some 134);
   bool_decide (wrr_payload value !! 89%nat = Some 143);
   bool_decide (wrr_payload value !! 90%nat = Some 152);
   bool_decide (wrr_payload value !! 91%nat = Some 161);
   bool_decide (wrr_payload value !! 92%nat = Some 170);
   bool_decide (wrr_payload value !! 93%nat = Some 179);
   bool_decide (wrr_payload value !! 94%nat = Some 188);
   bool_decide (wrr_payload value !! 95%nat = Some 197);
   bool_decide (wrr_payload value !! 96%nat = Some 206);
   bool_decide (wrr_payload value !! 97%nat = Some 215);
   bool_decide (wrr_payload value !! 98%nat = Some 224);
   bool_decide (wrr_payload value !! 99%nat = Some 233);
   bool_decide (wrr_payload value !! 100%nat = Some 242);
   bool_decide (wrr_payload value !! 101%nat = Some 251);
   bool_decide (wrr_payload value !! 102%nat = Some 4);
   bool_decide (wrr_payload value !! 103%nat = Some 13);
   bool_decide (wrr_payload value !! 104%nat = Some 22);
   bool_decide (wrr_payload value !! 105%nat = Some 31);
   bool_decide (wrr_payload value !! 106%nat = Some 40);
   bool_decide (wrr_payload value !! 107%nat = Some 49);
   bool_decide (wrr_payload value !! 108%nat = Some 58);
   bool_decide (wrr_payload value !! 109%nat = Some 67);
   bool_decide (wrr_payload value !! 110%nat = Some 76);
   bool_decide (wrr_payload value !! 111%nat = Some 85);
   bool_decide (wrr_payload value !! 112%nat = Some 94);
   bool_decide (wrr_payload value !! 113%nat = Some 103);
   bool_decide (wrr_payload value !! 114%nat = Some 112);
   bool_decide (wrr_payload value !! 115%nat = Some 121);
   bool_decide (wrr_payload value !! 116%nat = Some 130);
   bool_decide (wrr_payload value !! 117%nat = Some 139);
   bool_decide (wrr_payload value !! 118%nat = Some 148);
   bool_decide (wrr_payload value !! 119%nat = Some 157);
   bool_decide (wrr_payload value !! 120%nat = Some 166);
   bool_decide (wrr_payload value !! 121%nat = Some 175);
   bool_decide (wrr_payload value !! 122%nat = Some 184);
   bool_decide (wrr_payload value !! 123%nat = Some 193);
   bool_decide (wrr_payload value !! 124%nat = Some 202);
   bool_decide (wrr_payload value !! 125%nat = Some 211);
   bool_decide (wrr_payload value !! 126%nat = Some 220);
   bool_decide (wrr_payload value !! 127%nat = Some 229);
   bool_decide (wrr_payload value !! 128%nat = Some 238);
   bool_decide (wrr_payload value !! 129%nat = Some 247);
   bool_decide (wrr_payload value !! 130%nat = Some 0);
   bool_decide (wrr_payload value !! 131%nat = Some 9);
   bool_decide (wrr_payload value !! 132%nat = Some 18);
   bool_decide (wrr_payload value !! 133%nat = Some 27);
   bool_decide (wrr_payload value !! 134%nat = Some 36);
   bool_decide (wrr_payload value !! 135%nat = Some 45);
   bool_decide (wrr_payload value !! 136%nat = Some 54);
   bool_decide (wrr_payload value !! 137%nat = Some 63);
   bool_decide (wrr_payload value !! 138%nat = Some 72);
   bool_decide (wrr_payload value !! 139%nat = Some 81);
   bool_decide (wrr_payload value !! 140%nat = Some 90);
   bool_decide (wrr_payload value !! 141%nat = Some 99);
   bool_decide (wrr_payload value !! 142%nat = Some 108);
   bool_decide (wrr_payload value !! 143%nat = Some 117);
   bool_decide (wrr_payload value !! 144%nat = Some 126);
   bool_decide (wrr_payload value !! 145%nat = Some 135);
   bool_decide (wrr_payload value !! 146%nat = Some 144);
   bool_decide (wrr_payload value !! 147%nat = Some 153);
   bool_decide (wrr_payload value !! 148%nat = Some 162);
   bool_decide (wrr_payload value !! 149%nat = Some 171);
   bool_decide (wrr_payload value !! 150%nat = Some 180);
   bool_decide (wrr_payload value !! 151%nat = Some 189);
   bool_decide (wrr_payload value !! 152%nat = Some 198);
   bool_decide (wrr_payload value !! 153%nat = Some 207);
   bool_decide (wrr_payload value !! 154%nat = Some 216);
   bool_decide (wrr_payload value !! 155%nat = Some 225);
   bool_decide (wrr_payload value !! 156%nat = Some 234);
   bool_decide (wrr_payload value !! 157%nat = Some 243);
   bool_decide (wrr_payload value !! 158%nat = Some 252);
   bool_decide (wrr_payload value !! 159%nat = Some 5);
   bool_decide (wrr_payload value !! 160%nat = Some 14);
   bool_decide (wrr_payload value !! 161%nat = Some 23);
   bool_decide (wrr_payload value !! 162%nat = Some 32);
   bool_decide (wrr_payload value !! 163%nat = Some 41);
   bool_decide (wrr_payload value !! 164%nat = Some 50);
   bool_decide (wrr_payload value !! 165%nat = Some 59);
   bool_decide (wrr_payload value !! 166%nat = Some 68);
   bool_decide (wrr_payload value !! 167%nat = Some 77);
   bool_decide (wrr_payload value !! 168%nat = Some 86);
   bool_decide (wrr_payload value !! 169%nat = Some 95);
   bool_decide (wrr_payload value !! 170%nat = Some 104);
   bool_decide (wrr_payload value !! 171%nat = Some 113);
   bool_decide (wrr_payload value !! 172%nat = Some 122);
   bool_decide (wrr_payload value !! 173%nat = Some 131);
   bool_decide (wrr_payload value !! 174%nat = Some 140);
   bool_decide (wrr_payload value !! 175%nat = Some 149);
   bool_decide (wrr_payload value !! 176%nat = Some 158);
   bool_decide (wrr_payload value !! 177%nat = Some 167);
   bool_decide (wrr_payload value !! 178%nat = Some 176);
   bool_decide (wrr_payload value !! 179%nat = Some 185);
   bool_decide (wrr_payload value !! 180%nat = Some 194);
   bool_decide (wrr_payload value !! 181%nat = Some 203);
   bool_decide (wrr_payload value !! 182%nat = Some 212);
   bool_decide (wrr_payload value !! 183%nat = Some 221);
   bool_decide (wrr_payload value !! 184%nat = Some 230);
   bool_decide (wrr_payload value !! 185%nat = Some 239);
   bool_decide (wrr_payload value !! 186%nat = Some 248);
   bool_decide (wrr_payload value !! 187%nat = Some 1);
   bool_decide (wrr_payload value !! 188%nat = Some 10);
   bool_decide (wrr_payload value !! 189%nat = Some 19);
   bool_decide (wrr_payload value !! 190%nat = Some 28);
   bool_decide (wrr_payload value !! 191%nat = Some 37);
   bool_decide (wrr_payload value !! 192%nat = Some 46);
   bool_decide (wrr_payload value !! 193%nat = Some 55);
   bool_decide (wrr_payload value !! 194%nat = Some 64);
   bool_decide (wrr_payload value !! 195%nat = Some 73);
   bool_decide (wrr_payload value !! 196%nat = Some 82);
   bool_decide (wrr_payload value !! 197%nat = Some 91);
   bool_decide (wrr_payload value !! 198%nat = Some 100);
   bool_decide (wrr_payload value !! 199%nat = Some 109);
   bool_decide (wrr_payload value !! 200%nat = Some 118);
   bool_decide (wrr_payload value !! 201%nat = Some 127);
   bool_decide (wrr_payload value !! 202%nat = Some 136);
   bool_decide (wrr_payload value !! 203%nat = Some 145);
   bool_decide (wrr_payload value !! 204%nat = Some 154);
   bool_decide (wrr_payload value !! 205%nat = Some 163);
   bool_decide (wrr_payload value !! 206%nat = Some 172);
   bool_decide (wrr_payload value !! 207%nat = Some 181);
   bool_decide (wrr_payload value !! 208%nat = Some 190);
   bool_decide (wrr_payload value !! 209%nat = Some 199);
   bool_decide (wrr_payload value !! 210%nat = Some 208);
   bool_decide (wrr_payload value !! 211%nat = Some 217);
   bool_decide (wrr_payload value !! 212%nat = Some 226);
   bool_decide (wrr_payload value !! 213%nat = Some 235);
   bool_decide (wrr_payload value !! 214%nat = Some 244);
   bool_decide (wrr_payload value !! 215%nat = Some 253);
   bool_decide (wrr_payload value !! 216%nat = Some 6);
   bool_decide (wrr_payload value !! 217%nat = Some 15);
   bool_decide (wrr_payload value !! 218%nat = Some 24);
   bool_decide (wrr_payload value !! 219%nat = Some 33);
   bool_decide (wrr_payload value !! 220%nat = Some 42);
   bool_decide (wrr_payload value !! 221%nat = Some 51);
   bool_decide (wrr_payload value !! 222%nat = Some 60);
   bool_decide (wrr_payload value !! 223%nat = Some 69);
   bool_decide (wrr_payload value !! 224%nat = Some 78);
   bool_decide (wrr_payload value !! 225%nat = Some 87);
   bool_decide (wrr_payload value !! 226%nat = Some 96);
   bool_decide (wrr_payload value !! 227%nat = Some 105);
   bool_decide (wrr_payload value !! 228%nat = Some 114);
   bool_decide (wrr_payload value !! 229%nat = Some 123);
   bool_decide (wrr_payload value !! 230%nat = Some 132);
   bool_decide (wrr_payload value !! 231%nat = Some 141);
   bool_decide (wrr_payload value !! 232%nat = Some 150);
   bool_decide (wrr_payload value !! 233%nat = Some 159);
   bool_decide (wrr_payload value !! 234%nat = Some 168);
   bool_decide (wrr_payload value !! 235%nat = Some 177);
   bool_decide (wrr_payload value !! 236%nat = Some 186);
   bool_decide (wrr_payload value !! 237%nat = Some 195);
   bool_decide (wrr_payload value !! 238%nat = Some 204);
   bool_decide (wrr_payload value !! 239%nat = Some 213);
   bool_decide (wrr_payload value !! 240%nat = Some 222);
   bool_decide (wrr_payload value !! 241%nat = Some 231);
   bool_decide (wrr_payload value !! 242%nat = Some 240);
   bool_decide (wrr_payload value !! 243%nat = Some 249);
   bool_decide (wrr_payload value !! 244%nat = Some 2);
   bool_decide (wrr_payload value !! 245%nat = Some 11);
   bool_decide (wrr_payload value !! 246%nat = Some 20);
   bool_decide (wrr_payload value !! 247%nat = Some 29);
   bool_decide (wrr_payload value !! 248%nat = Some 38);
   bool_decide (wrr_payload value !! 249%nat = Some 47);
   bool_decide (wrr_payload value !! 250%nat = Some 56);
   bool_decide (wrr_payload value !! 251%nat = Some 65);
   bool_decide (wrr_payload value !! 252%nat = Some 74);
   bool_decide (wrr_payload value !! 253%nat = Some 83);
   bool_decide (wrr_payload value !! 254%nat = Some 92);
   bool_decide (wrr_payload value !! 255%nat = Some 101)].

(** abi/src/fixture.rs:3048-3096 [verify, InvocationInfo] *)
Definition verify_invocation_info : list bool :=
  let value := cd_value InvocationInfo_codec INVOCATION_INFO_BYTES in
  [bool_decide (wii_state value = 3044225444);
   bool_decide (wii_cancel_state value = 3128506541);
   bool_decide (wii_effect_state value = 3212787638);
   bool_decide (wii_reserved0 value = 3297068735);
   bool_decide (wii_invocation_id value = 14016404939543891400);
   bool_decide (wii_origin_domain_id value = 14089028799334274257);
   bool_decide (wii_origin_scope_id value = 14161652659124657114);
   bool_decide (wii_facet value = 14234276518915039971);
   bool_decide (wii_grant_id value = 14306900378705422828);
   bool_decide (wii_admitted_ns value = 14379524238495805685)].

(** abi/src/fixture.rs:3097-3157 [verify, ReceiptRecord] *)
Definition verify_receipt_record : list bool :=
  let value := cd_value ReceiptRecord_codec RECEIPT_RECORD_BYTES in
  [bool_decide (r_schema value = 182036797); bool_decide (r_kind value = 266317894);
   bool_decide (r_sequence value = 15105762836399634255);
   bool_decide (r_epoch value = 15178386696190017112);
   bool_decide (r_ns value = 15251010555980399969);
   bool_decide (r_origin_domain_id value = 15323634415770782826);
   bool_decide (r_origin_scope_id value = 15396258275561165683);
   bool_decide (r_object_id value = 15468882135351548540);
   bool_decide (r_grant_id value = 15541505995141931397);
   bool_decide (r_parent_invocation_id value = 15614129854932314254);
   bool_decide (r_result value = (-1508)%Z); bool_decide (r_a value = 15759377574513079968);
   bool_decide (r_b value = 15832001434303462825)].

(** abi/src/fixture.rs:3158-4010 [verify, LogReadResult] *)
Definition verify_log_read_result : list bool :=
  let value := cd_value LogReadResult_codec LOG_READ_RESULT_BYTES in
  [bool_decide (wlr_count value = 1614815446); bool_decide (wlr_lost value = 1699096543);
   bool_decide (wlr_next_sequence value = 16340368452836142824);
   bool_decide (r_schema <$> (wlr_records value !! 0%nat) = Some 1951939834);
   bool_decide (r_kind <$> (wlr_records value !! 0%nat) = Some 2036220931);
   bool_decide (r_sequence <$> (wlr_records value !! 0%nat) = Some 16630863891997674252);
   bool_decide (r_epoch <$> (wlr_records value !! 0%nat) = Some 16703487751788057109);
   bool_decide (r_ns <$> (wlr_records value !! 0%nat) = Some 16776111611578439966);
   bool_decide (r_origin_domain_id <$> (wlr_records value !! 0%nat) = Some 16848735471368822823);
   bool_decide (r_origin_scope_id <$> (wlr_records value !! 0%nat) = Some 16921359331159205680);
   bool_decide (r_object_id <$> (wlr_records value !! 0%nat) = Some 16993983190949588537);
   bool_decide (r_grant_id <$> (wlr_records value !! 0%nat) = Some 17066607050739971394);
   bool_decide (r_parent_invocation_id <$> (wlr_records value !! 0%nat) = Some 17139230910530354251);
   bool_decide (r_result <$> (wlr_records value !! 0%nat) = Some (-1655)%Z);
   bool_decide (r_a <$> (wlr_records value !! 0%nat) = Some 17284478630111119965);
   bool_decide (r_b <$> (wlr_records value !! 0%nat) = Some 17357102489901502822);
   bool_decide (r_schema <$> (wlr_records value !! 1%nat) = Some 2204783125);
   bool_decide (r_kind <$> (wlr_records value !! 1%nat) = Some 2289064222);
   bool_decide (r_sequence <$> (wlr_records value !! 1%nat) = Some 16848735471368822823);
   bool_decide (r_epoch <$> (wlr_records value !! 1%nat) = Some 16921359331159205680);
   bool_decide (r_ns <$> (wlr_records value !! 1%nat) = Some 16993983190949588537);
   bool_decide (r_origin_domain_id <$> (wlr_records value !! 1%nat) = Some 17066607050739971394);
   bool_decide (r_origin_scope_id <$> (wlr_records value !! 1%nat) = Some 17139230910530354251);
   bool_decide (r_object_id <$> (wlr_records value !! 1%nat) = Some 17211854770320737108);
   bool_decide (r_grant_id <$> (wlr_records value !! 1%nat) = Some 17284478630111119965);
   bool_decide (r_parent_invocation_id <$> (wlr_records value !! 1%nat) = Some 17357102489901502822);
   bool_decide (r_result <$> (wlr_records value !! 1%nat) = Some (-1676)%Z);
   bool_decide (r_a <$> (wlr_records value !! 1%nat) = Some 17502350209482268536);
   bool_decide (r_b <$> (wlr_records value !! 1%nat) = Some 17574974069272651393);
   bool_decide (r_schema <$> (wlr_records value !! 2%nat) = Some 2457626416);
   bool_decide (r_kind <$> (wlr_records value !! 2%nat) = Some 2541907513);
   bool_decide (r_sequence <$> (wlr_records value !! 2%nat) = Some 17066607050739971394);
   bool_decide (r_epoch <$> (wlr_records value !! 2%nat) = Some 17139230910530354251);
   bool_decide (r_ns <$> (wlr_records value !! 2%nat) = Some 17211854770320737108);
   bool_decide (r_origin_domain_id <$> (wlr_records value !! 2%nat) = Some 17284478630111119965);
   bool_decide (r_origin_scope_id <$> (wlr_records value !! 2%nat) = Some 17357102489901502822);
   bool_decide (r_object_id <$> (wlr_records value !! 2%nat) = Some 17429726349691885679);
   bool_decide (r_grant_id <$> (wlr_records value !! 2%nat) = Some 17502350209482268536);
   bool_decide (r_parent_invocation_id <$> (wlr_records value !! 2%nat) = Some 17574974069272651393);
   bool_decide (r_result <$> (wlr_records value !! 2%nat) = Some (-1697)%Z);
   bool_decide (r_a <$> (wlr_records value !! 2%nat) = Some 17720221788853417107);
   bool_decide (r_b <$> (wlr_records value !! 2%nat) = Some 17792845648643799964);
   bool_decide (r_schema <$> (wlr_records value !! 3%nat) = Some 2710469707);
   bool_decide (r_kind <$> (wlr_records value !! 3%nat) = Some 2794750804);
   bool_decide (r_sequence <$> (wlr_records value !! 3%nat) = Some 17284478630111119965);
   bool_decide (r_epoch <$> (wlr_records value !! 3%nat) = Some 17357102489901502822);
   bool_decide (r_ns <$> (wlr_records value !! 3%nat) = Some 17429726349691885679);
   bool_decide (r_origin_domain_id <$> (wlr_records value !! 3%nat) = Some 17502350209482268536);
   bool_decide (r_origin_scope_id <$> (wlr_records value !! 3%nat) = Some 17574974069272651393);
   bool_decide (r_object_id <$> (wlr_records value !! 3%nat) = Some 17647597929063034250);
   bool_decide (r_grant_id <$> (wlr_records value !! 3%nat) = Some 17720221788853417107);
   bool_decide (r_parent_invocation_id <$> (wlr_records value !! 3%nat) = Some 17792845648643799964);
   bool_decide (r_result <$> (wlr_records value !! 3%nat) = Some (-1718)%Z);
   bool_decide (r_a <$> (wlr_records value !! 3%nat) = Some 17938093368224565678);
   bool_decide (r_b <$> (wlr_records value !! 3%nat) = Some 18010717228014948535);
   bool_decide (r_schema <$> (wlr_records value !! 4%nat) = Some 2963312998);
   bool_decide (r_kind <$> (wlr_records value !! 4%nat) = Some 3047594095);
   bool_decide (r_sequence <$> (wlr_records value !! 4%nat) = Some 17502350209482268536);
   bool_decide (r_epoch <$> (wlr_records value !! 4%nat) = Some 17574974069272651393);
   bool_decide (r_ns <$> (wlr_records value !! 4%nat) = Some 17647597929063034250);
   bool_decide (r_origin_domain_id <$> (wlr_records value !! 4%nat) = Some 17720221788853417107);
   bool_decide (r_origin_scope_id <$> (wlr_records value !! 4%nat) = Some 17792845648643799964);
   bool_decide (r_object_id <$> (wlr_records value !! 4%nat) = Some 17865469508434182821);
   bool_decide (r_grant_id <$> (wlr_records value !! 4%nat) = Some 17938093368224565678);
   bool_decide (r_parent_invocation_id <$> (wlr_records value !! 4%nat) = Some 18010717228014948535);
   bool_decide (r_result <$> (wlr_records value !! 4%nat) = Some (-1739)%Z);
   bool_decide (r_a <$> (wlr_records value !! 4%nat) = Some 18155964947595714249);
   bool_decide (r_b <$> (wlr_records value !! 4%nat) = Some 18228588807386097106);
   bool_decide (r_schema <$> (wlr_records value !! 5%nat) = Some 3216156289);
   bool_decide (r_kind <$> (wlr_records value !! 5%nat) = Some 3300437386);
   bool_decide (r_sequence <$> (wlr_records value !! 5%nat) = Some 17720221788853417107);
   bool_decide (r_epoch <$> (wlr_records value !! 5%nat) = Some 17792845648643799964);
   bool_decide (r_ns <$> (wlr_records value !! 5%nat) = Some 17865469508434182821);
   bool_decide (r_origin_domain_id <$> (wlr_records value !! 5%nat) = Some 17938093368224565678);
   bool_decide (r_origin_scope_id <$> (wlr_records value !! 5%nat) = Some 18010717228014948535);
   bool_decide (r_object_id <$> (wlr_records value !! 5%nat) = Some 18083341087805331392);
   bool_decide (r_grant_id <$> (wlr_records value !! 5%nat) = Some 18155964947595714249);
   bool_decide (r_parent_invocation_id <$> (wlr_records value !! 5%nat) = Some 18228588807386097106);
   bool_decide (r_result <$> (wlr_records value !! 5%nat) = Some (-1760)%Z);
   bool_decide (r_a <$> (wlr_records value !! 5%nat) = Some 18373836526966862820);
   bool_decide (r_b <$> (wlr_records value !! 5%nat) = Some 18446460386757245677);
   bool_decide (r_schema <$> (wlr_records value !! 6%nat) = Some 3468999580);
   bool_decide (r_kind <$> (wlr_records value !! 6%nat) = Some 3553280677);
   bool_decide (r_sequence <$> (wlr_records value !! 6%nat) = Some 17938093368224565678);
   bool_decide (r_epoch <$> (wlr_records value !! 6%nat) = Some 18010717228014948535);
   bool_decide (r_ns <$> (wlr_records value !! 6%nat) = Some 18083341087805331392);
   bool_decide (r_origin_domain_id <$> (wlr_records value !! 6%nat) = Some 18155964947595714249);
   bool_decide (r_origin_scope_id <$> (wlr_records value !! 6%nat) = Some 18228588807386097106);
   bool_decide (r_object_id <$> (wlr_records value !! 6%nat) = Some 18301212667176479963);
   bool_decide (r_grant_id <$> (wlr_records value !! 6%nat) = Some 18373836526966862820);
   bool_decide (r_parent_invocation_id <$> (wlr_records value !! 6%nat) = Some 18446460386757245677);
   bool_decide (r_result <$> (wlr_records value !! 6%nat) = Some (-1781)%Z);
   bool_decide (r_a <$> (wlr_records value !! 6%nat) = Some 144964032628459775);
   bool_decide (r_b <$> (wlr_records value !! 6%nat) = Some 217587892418842632);
   bool_decide (r_schema <$> (wlr_records value !! 7%nat) = Some 3721842871);
   bool_decide (r_kind <$> (wlr_records value !! 7%nat) = Some 3806123968);
   bool_decide (r_sequence <$> (wlr_records value !! 7%nat) = Some 18155964947595714249);
   bool_decide (r_epoch <$> (wlr_records value !! 7%nat) = Some 18228588807386097106);
   bool_decide (r_ns <$> (wlr_records value !! 7%nat) = Some 18301212667176479963);
   bool_decide (r_origin_domain_id <$> (wlr_records value !! 7%nat) = Some 18373836526966862820);
   bool_decide (r_origin_scope_id <$> (wlr_records value !! 7%nat) = Some 18446460386757245677);
   bool_decide (r_object_id <$> (wlr_records value !! 7%nat) = Some 72340172838076918);
   bool_decide (r_grant_id <$> (wlr_records value !! 7%nat) = Some 144964032628459775);
   bool_decide (r_parent_invocation_id <$> (wlr_records value !! 7%nat) = Some 217587892418842632);
   bool_decide (r_result <$> (wlr_records value !! 7%nat) = Some (-1802)%Z);
   bool_decide (r_a <$> (wlr_records value !! 7%nat) = Some 362835611999608346);
   bool_decide (r_b <$> (wlr_records value !! 7%nat) = Some 435459471789991203);
   bool_decide (r_schema <$> (wlr_records value !! 8%nat) = Some 3974686162);
   bool_decide (r_kind <$> (wlr_records value !! 8%nat) = Some 4058967259);
   bool_decide (r_sequence <$> (wlr_records value !! 8%nat) = Some 18373836526966862820);
   bool_decide (r_epoch <$> (wlr_records value !! 8%nat) = Some 18446460386757245677);
   bool_decide (r_ns <$> (wlr_records value !! 8%nat) = Some 72340172838076918);
   bool_decide (r_origin_domain_id <$> (wlr_records value !! 8%nat) = Some 144964032628459775);
   bool_decide (r_origin_scope_id <$> (wlr_records value !! 8%nat) = Some 217587892418842632);
   bool_decide (r_object_id <$> (wlr_records value !! 8%nat) = Some 290211752209225489);
   bool_decide (r_grant_id <$> (wlr_records value !! 8%nat) = Some 362835611999608346);
   bool_decide (r_parent_invocation_id <$> (wlr_records value !! 8%nat) = Some 435459471789991203);
   bool_decide (r_result <$> (wlr_records value !! 8%nat) = Some (-1823)%Z);
   bool_decide (r_a <$> (wlr_records value !! 8%nat) = Some 580707191370756917);
   bool_decide (r_b <$> (wlr_records value !! 8%nat) = Some 653331051161139774);
   bool_decide (r_schema <$> (wlr_records value !! 9%nat) = Some 4227529453);
   bool_decide (r_kind <$> (wlr_records value !! 9%nat) = Some 16843254);
   bool_decide (r_sequence <$> (wlr_records value !! 9%nat) = Some 144964032628459775);
   bool_decide (r_epoch <$> (wlr_records value !! 9%nat) = Some 217587892418842632);
   bool_decide (r_ns <$> (wlr_records value !! 9%nat) = Some 290211752209225489);
   bool_decide (r_origin_domain_id <$> (wlr_records value !! 9%nat) = Some 362835611999608346);
   bool_decide (r_origin_scope_id <$> (wlr_records value !! 9%nat) = Some 435459471789991203);
   bool_decide (r_object_id <$> (wlr_records value !! 9%nat) = Some 508083331580374060);
   bool_decide (r_grant_id <$> (wlr_records value !! 9%nat) = Some 580707191370756917);
   bool_decide (r_parent_invocation_id <$> (wlr_records value !! 9%nat) = Some 653331051161139774);
   bool_decide (r_result <$> (wlr_records value !! 9%nat) = Some (-1844)%Z);
   bool_decide (r_a <$> (wlr_records value !! 9%nat) = Some 798578770741905488);
   bool_decide (r_b <$> (wlr_records value !! 9%nat) = Some 871202630532288345);
   bool_decide (r_schema <$> (wlr_records value !! 10%nat) = Some 185405448);
   bool_decide (r_kind <$> (wlr_records value !! 10%nat) = Some 269686545);
   bool_decide (r_sequence <$> (wlr_records value !! 10%nat) = Some 362835611999608346);
   bool_decide (r_epoch <$> (wlr_records value !! 10%nat) = Some 435459471789991203);
   bool_decide (r_ns <$> (wlr_records value !! 10%nat) = Some 508083331580374060);
   bool_decide (r_origin_domain_id <$> (wlr_records value !! 10%nat) = Some 580707191370756917);
   bool_decide (r_origin_scope_id <$> (wlr_records value !! 10%nat) = Some 653331051161139774);
   bool_decide (r_object_id <$> (wlr_records value !! 10%nat) = Some 725954910951522631);
   bool_decide (r_grant_id <$> (wlr_records value !! 10%nat) = Some 798578770741905488);
   bool_decide (r_parent_invocation_id <$> (wlr_records value !! 10%nat) = Some 871202630532288345);
   bool_decide (r_result <$> (wlr_records value !! 10%nat) = Some (-1865)%Z);
   bool_decide (r_a <$> (wlr_records value !! 10%nat) = Some 1016450350113054059);
   bool_decide (r_b <$> (wlr_records value !! 10%nat) = Some 1089074209903436916);
   bool_decide (r_schema <$> (wlr_records value !! 11%nat) = Some 438248739);
   bool_decide (r_kind <$> (wlr_records value !! 11%nat) = Some 522529836);
   bool_decide (r_sequence <$> (wlr_records value !! 11%nat) = Some 580707191370756917);
   bool_decide (r_epoch <$> (wlr_records value !! 11%nat) = Some 653331051161139774);
   bool_decide (r_ns <$> (wlr_records value !! 11%nat) = Some 725954910951522631);
   bool_decide (r_origin_domain_id <$> (wlr_records value !! 11%nat) = Some 798578770741905488);
   bool_decide (r_origin_scope_id <$> (wlr_records value !! 11%nat) = Some 871202630532288345);
   bool_decide (r_object_id <$> (wlr_records value !! 11%nat) = Some 943826490322671202);
   bool_decide (r_grant_id <$> (wlr_records value !! 11%nat) = Some 1016450350113054059);
   bool_decide (r_parent_invocation_id <$> (wlr_records value !! 11%nat) = Some 1089074209903436916);
   bool_decide (r_result <$> (wlr_records value !! 11%nat) = Some (-1886)%Z);
   bool_decide (r_a <$> (wlr_records value !! 11%nat) = Some 1234321929484202630);
   bool_decide (r_b <$> (wlr_records value !! 11%nat) = Some 1306945789274585487);
   bool_decide (r_schema <$> (wlr_records value !! 12%nat) = Some 691092030);
   bool_decide (r_kind <$> (wlr_records value !! 12%nat) = Some 775373127);
   bool_decide (r_sequence <$> (wlr_records value !! 12%nat) = Some 798578770741905488);
   bool_decide (r_epoch <$> (wlr_records value !! 12%nat) = Some 871202630532288345);
   bool_decide (r_ns <$> (wlr_records value !! 12%nat) = Some 943826490322671202);
   bool_decide (r_origin_domain_id <$> (wlr_records value !! 12%nat) = Some 1016450350113054059);
   bool_decide (r_origin_scope_id <$> (wlr_records value !! 12%nat) = Some 1089074209903436916);
   bool_decide (r_object_id <$> (wlr_records value !! 12%nat) = Some 1161698069693819773);
   bool_decide (r_grant_id <$> (wlr_records value !! 12%nat) = Some 1234321929484202630);
   bool_decide (r_parent_invocation_id <$> (wlr_records value !! 12%nat) = Some 1306945789274585487);
   bool_decide (r_result <$> (wlr_records value !! 12%nat) = Some (-1907)%Z);
   bool_decide (r_a <$> (wlr_records value !! 12%nat) = Some 1452193508855351201);
   bool_decide (r_b <$> (wlr_records value !! 12%nat) = Some 1524817368645734058);
   bool_decide (r_schema <$> (wlr_records value !! 13%nat) = Some 943935321);
   bool_decide (r_kind <$> (wlr_records value !! 13%nat) = Some 1028216418);
   bool_decide (r_sequence <$> (wlr_records value !! 13%nat) = Some 1016450350113054059);
   bool_decide (r_epoch <$> (wlr_records value !! 13%nat) = Some 1089074209903436916);
   bool_decide (r_ns <$> (wlr_records value !! 13%nat) = Some 1161698069693819773);
   bool_decide (r_origin_domain_id <$> (wlr_records value !! 13%nat) = Some 1234321929484202630);
   bool_decide (r_origin_scope_id <$> (wlr_records value !! 13%nat) = Some 1306945789274585487);
   bool_decide (r_object_id <$> (wlr_records value !! 13%nat) = Some 1379569649064968344);
   bool_decide (r_grant_id <$> (wlr_records value !! 13%nat) = Some 1452193508855351201);
   bool_decide (r_parent_invocation_id <$> (wlr_records value !! 13%nat) = Some 1524817368645734058);
   bool_decide (r_result <$> (wlr_records value !! 13%nat) = Some (-1928)%Z);
   bool_decide (r_a <$> (wlr_records value !! 13%nat) = Some 1670065088226499772);
   bool_decide (r_b <$> (wlr_records value !! 13%nat) = Some 1742688948016882629);
   bool_decide (r_schema <$> (wlr_records value !! 14%nat) = Some 1196778612);
   bool_decide (r_kind <$> (wlr_records value !! 14%nat) = Some 1281059709);
   bool_decide (r_sequence <$> (wlr_records value !! 14%nat) = Some 1234321929484202630);
   bool_decide (r_epoch <$> (wlr_records value !! 14%nat) = Some 1306945789274585487);
   bool_decide (r_ns <$> (wlr_records value !! 14%nat) = Some 1379569649064968344);
   bool_decide (r_origin_domain_id <$> (wlr_records value !! 14%nat) = Some 1452193508855351201);
   bool_decide (r_origin_scope_id <$> (wlr_records value !! 14%nat) = Some 1524817368645734058);
   bool_decide (r_object_id <$> (wlr_records value !! 14%nat) = Some 1597441228436116915);
   bool_decide (r_grant_id <$> (wlr_records value !! 14%nat) = Some 1670065088226499772);
   bool_decide (r_parent_invocation_id <$> (wlr_records value !! 14%nat) = Some 1742688948016882629);
   bool_decide (r_result <$> (wlr_records value !! 14%nat) = Some (-1949)%Z);
   bool_decide (r_a <$> (wlr_records value !! 14%nat) = Some 1887936667597648343);
   bool_decide (r_b <$> (wlr_records value !! 14%nat) = Some 1960560527388031200);
   bool_decide (r_schema <$> (wlr_records value !! 15%nat) = Some 1449621903);
   bool_decide (r_kind <$> (wlr_records value !! 15%nat) = Some 1533903000);
   bool_decide (r_sequence <$> (wlr_records value !! 15%nat) = Some 1452193508855351201);
   bool_decide (r_epoch <$> (wlr_records value !! 15%nat) = Some 1524817368645734058);
   bool_decide (r_ns <$> (wlr_records value !! 15%nat) = Some 1597441228436116915);
   bool_decide (r_origin_domain_id <$> (wlr_records value !! 15%nat) = Some 1670065088226499772);
   bool_decide (r_origin_scope_id <$> (wlr_records value !! 15%nat) = Some 1742688948016882629);
   bool_decide (r_object_id <$> (wlr_records value !! 15%nat) = Some 1815312807807265486);
   bool_decide (r_grant_id <$> (wlr_records value !! 15%nat) = Some 1887936667597648343);
   bool_decide (r_parent_invocation_id <$> (wlr_records value !! 15%nat) = Some 1960560527388031200);
   bool_decide (r_result <$> (wlr_records value !! 15%nat) = Some (-1970)%Z);
   bool_decide (r_a <$> (wlr_records value !! 15%nat) = Some 2105808246968796914);
   bool_decide (r_b <$> (wlr_records value !! 15%nat) = Some 2178432106759179771)].

(** abi/src/fixture.rs:4011-4059 [verify, FaultReport] *)
Definition verify_fault_report : list bool :=
  let value := cd_value FaultReport_codec FAULT_REPORT_BYTES in
  [bool_decide (wfr_domain_id value = 17429726349691885679);
   bool_decide (wfr_thread_id value = 17502350209482268536);
   bool_decide (wfr_generation value = 17574974069272651393);
   bool_decide (wfr_vector value = 17647597929063034250);
   bool_decide (wfr_error_code value = 17720221788853417107);
   bool_decide (wfr_rip value = 17792845648643799964);
   bool_decide (wfr_rsp value = 17865469508434182821);
   bool_decide (wfr_address value = 17938093368224565678);
   bool_decide (wfr_class value = 3721842871); bool_decide (wfr_reserved0 value = 3806123968)].

(** abi/src/fixture.rs:332-4061 [verify] *)
Definition verify : N * N :=
  let checks := mjoin
    [verify_descriptor_header; verify_limits; verify_cap_info; verify_derive_request;
     verify_scope_info; verify_drain_report; verify_map_request; verify_memory_info;
     verify_send_request; verify_message_header; verify_receive_result;
     verify_invocation_info; verify_receipt_record; verify_log_read_result;
     verify_fault_report] in
  (tlen checks, tlen (filter (λ c, c = false) checks)).

(** A value within the widths is given back by its bytes, as many as the size says, and
    bytes of that size are those of the value they give. *)
Definition faithful {A} (c : Codec A) : Prop :=
  (∀ a, cd_fits c a → length (cd_bytes c a) = cd_size c ∧ bytes_ok (cd_bytes c a) ∧ cd_value c (cd_bytes c a) = a) ∧
  (∀ bytes, bytes_ok bytes → length bytes = cd_size c →
     cd_fits c (cd_value c bytes) ∧ cd_bytes c (cd_value c bytes) = bytes).
Lemma layout_faithful {A} (c : Codec A) : Layout c → faithful c.
Proof.
  intros L. split; [intros a Ha|intros bytes Hok Hl].
  - split; [apply ly_len|]. split; [by apply ly_ok|by apply ly_value].
  - split; [by apply ly_fits|by apply ly_bytes].
Qed.

