(* ===== verification/Thread.v ===== *)
(** * Threads and their waits

    [kernel/src/thread.rs] and the part of [kernel/src/sched.rs] that ends a wait: what
    a thread waits for, the offer it leaves, the claim that consumes its wait, and the
    wakes a processor defers. Which run queue a woken thread joins, contexts and
    dispatch accounting are not part of the record.

    The machine, the thread table and the wakes this processor holds back are the state
    of the operations that block and wake. *)

From S2P Require Import Prelude Abi Obj Scope Ctrl Frame Objects Machine AbiWire.

#[local] Open Scope N_scope.

Module ThreadState.
(** kernel/src/thread.rs:39-58 [ThreadState] *)
Inductive ThreadState := Empty | Held | Ready | Running | Blocked | Dead.
#[global] Instance ThreadState_eq_dec : EqDecision ThreadState.
Proof. solve_decision. Defined.
End ThreadState.

Module Wait.
(** kernel/src/thread.rs:89-100 [Wait] *)
Inductive Wait :=
  | None
  | Reply (invocation generation : N)
  | Receive (endpoint generation : N)
  | Signal (signal generation bits : N)
  | Log (log generation : N).
#[global] Instance Wait_eq_dec : EqDecision Wait.
Proof. solve_decision. Defined.
End Wait.

(** What the response an entry returns holds: what was laid out in its staging buffer
    over a zeroed body. *)
Inductive Response := Received (r : ReceiveResult) | Answered (r : CallResult).

(** kernel/src/thread.rs:143-149 [Handoff]. The address of the buffer is the thread whose
    entry it belongs to. *)
Record Handoff := mkHandoff { hf_staging : option N; hf_handle : N }.
Module Handoff.
(** kernel/src/thread.rs:153-156 [Handoff::NONE] *)
Definition NONE : Handoff := mkHandoff None 0.
End Handoff.

(** kernel/src/thread.rs:104-115 [WaitRecord] *)
Record WaitRecord := mkWaitRecord {
  wt_wait : Wait.Wait;
  wt_deadline_ns : N;
  wt_wake_status : Z;
  wt_wake_aux : N;
  wt_handoff : Handoff
}.
#[global] Instance WaitRecord_rebuild : Rebuild WaitRecord := λ x,
  mkWaitRecord (wt_wait x) (wt_deadline_ns x) (wt_wake_status x) (wt_wake_aux x) (wt_handoff x).
Module WaitRecord.
(** kernel/src/thread.rs:118-126 [WaitRecord::empty] *)
Definition empty : WaitRecord := mkWaitRecord Wait.None 0 0 0 Handoff.NONE.
End WaitRecord.

(** The fields of a thread a blocking operation touches, and the response in the buffer
    of the entry it is in. *)
(** kernel/src/thread.rs:282-326 [ThreadCell] *)
Record ThreadCell := mkThreadCell {
  th_state : ThreadState.ThreadState;
  th_effective_scope : ScopeId;
  th_recovery : bool;
  th_parallelism_scope : ScopeId;
  th_bound : option (N * N);
  th_wait : WaitRecord;
  th_id : N;
  th_owner_scope : ScopeId;
  th_response : option Response
}.
#[global] Instance ThreadCell_rebuild : Rebuild ThreadCell := λ x,
  mkThreadCell (th_state x) (th_effective_scope x) (th_recovery x) (th_parallelism_scope x)
    (th_bound x) (th_wait x) (th_id x) (th_owner_scope x) (th_response x).
Module ThreadCell.
(** kernel/src/thread.rs:334-352 [ThreadCell::empty] *)
Definition empty : ThreadCell :=
  mkThreadCell ThreadState.Empty 0 false NO_SCOPE None WaitRecord.empty 0 0 None.
End ThreadCell.

(** kernel/src/sched.rs:95-95 [DEFERRED_WAKES] *)
Definition DEFERRED_WAKES : N := 4.
(** kernel/src/sched.rs:128-134 [WakeHint] *)
Inductive WakeHint := Any | Sync.

(** The machine, the threads, and the wakes this processor holds back. *)
Record Kernel := mkKernel {
  kn_machine : Machine;
  kn_threads : list ThreadCell;
  kn_deferred : list (N * WakeHint)
}.
#[global] Instance Kernel_rebuild : Rebuild Kernel := λ k,
  mkKernel (kn_machine k) (kn_threads k) (kn_deferred k).

(** An operation of the machine. *)
Definition on_machine {A} (m : K Machine A) : K Kernel A := λ k,
  match m (kn_machine k) with
  | Done a s => Done a (k <| kn_machine := s |>)
  | Fail e s => Fail e (k <| kn_machine := s |>)
  | Panic => Panic
  end.
Definition machine {A} (f : Machine → A) : K Kernel A := gets (λ k, f (kn_machine k)).
Definition change (f : Machine → Machine) : K Kernel () := modify (λ k, k <| kn_machine ::= f |>).

(** kernel/src/thread.rs:519-521 [get] *)
Definition thread_index (index : N) : N := N.min index (MAX_THREADS - 1).
Definition thread (index : N) : K Kernel ThreadCell :=
  threads ← gets kn_threads; expect (threads !! thread_index index).
Definition on_thread (index : N) (f : ThreadCell → ThreadCell) : K Kernel () :=
  modify (λ k, k <| kn_threads ::= alter f (thread_index index) |>).

(** ** Ending a wait *)

(** kernel/src/thread.rs:596-618 [claim_handoff]. One hold of the thread's lock. *)
Definition claim_handoff (index : N) (matches : WaitRecord → bool) (code : Z) (aux : N) :
    K Kernel (option Handoff) :=
  cell ← thread index;
  if negb (bool_decide (th_state cell = ThreadState.Blocked)) || negb (matches (th_wait cell)) then mret None else
  on_thread index (λ c, c <| th_wait := mkWaitRecord Wait.None 0 code aux Handoff.NONE |>);;
  mret (Some (wt_handoff (th_wait cell))).

(** kernel/src/thread.rs:626-628 [set_wake_aux] *)
Definition set_wake_aux (index aux : N) : K Kernel () :=
  on_thread index (λ c, c <| th_wait ::= λ w, w <| wt_wake_aux := aux |> |>).

(** kernel/src/sched.rs:1332-1350 [wake]. The queue the thread joins and the interrupt
    that tells another processor are not modelled. *)
Definition wake (index : N) : K Kernel () :=
  cell ← thread index;
  if bool_decide (th_state cell ∈ [ThreadState.Blocked; ThreadState.Held])
  then on_thread index (λ c, c <| th_state := ThreadState.Ready |>) else mret ().

(** kernel/src/sched.rs:1285-1298 [defer_wake] *)
Definition defer_wake (index : N) (hint : WakeHint) : K Kernel () :=
  deferred ← gets kn_deferred;
  if bool_decide (DEFERRED_WAKES <= tlen deferred) then wake index else
  modify (λ k, k <| kn_deferred ::= λ l, l ++ [(index, hint)] |>).
(** kernel/src/sched.rs:1306-1322 [flush_wakes] *)
Definition flush_wakes : K Kernel () :=
  deferred ← gets kn_deferred;
  modify (λ k, k <| kn_deferred := [] |>);;
  for_each deferred (λ w, wake w.1).

(** kernel/src/thread.rs:633-645 [defer_wake_if] *)
Definition defer_wake_if (index : N) (matches : WaitRecord → bool) (code : Z) (aux : N) (hint : WakeHint) :
    K Kernel bool :=
  claimed ← claim_handoff index matches code aux;
  match claimed with
  | None => mret false
  | Some _ => defer_wake index hint;; mret true
  end.

(** ** Beginning one *)

(** kernel/src/thread.rs:668-681 [prepare_wait_offering]. The earliest deadline the tick
    looks for is not modelled. *)
Definition prepare_wait_offering (index : N) (wait : Wait.Wait) (deadline_ns : N) (offer : Handoff) :
    K Kernel () :=
  _ ← thread index;
  on_thread index (λ c, c <| th_wait := mkWaitRecord wait deadline_ns status.OK 0 offer |>
                          <| th_state := ThreadState.Blocked |>).
(** kernel/src/thread.rs:686-691 [offer] *)
Definition offer (index handle : N) : Handoff := mkHandoff (Some index) handle.
(** kernel/src/thread.rs:695-703 [take_wake_status] *)
Definition take_wake_status (index : N) : K Kernel (Z * N) :=
  cell ← thread index;
  on_thread index (λ c, c <| th_wait ::= λ w, w <| wt_wake_status := status.OK |> <| wt_wake_aux := 0 |> |>);;
  mret (wt_wake_status (th_wait cell), wt_wake_aux (th_wait cell)).
