(* ===== verification/Ipc.v ===== *)
(** * Admission, delivery, reply, effects

    [kernel/src/api/ipcops.rs]. Each handler runs as one step: the locks it takes are
    held to its end or, where it blocks, to the point it blocks at, and an operation that
    blocks is two steps, before and after. A request arrives decoded, a response is what
    is laid out in the buffer of the entry it answers. The clock a receipt is stamped
    with is an argument. *)

From S2P Require Import Prelude Abi AbiWire Obj Scope Ctrl Frame Objects Machine Thread.

#[local] Open Scope N_scope.

(** kernel/src/api/ipcops.rs:39-39 [MESSAGE_OVERHEAD_BYTES] *)
Definition MESSAGE_OVERHEAD_BYTES : N := 64.
(** kernel/src/api/ipcops.rs:58-64 [TICKET_RIGHTS] *)
Definition TICKET_RIGHTS : N :=
  foldr N.lor 0 [right.INSPECT; right.TRANSFER; right.DESTROY; right.INVOCATION_REPLY; right.INVOCATION_EFFECT;
    right.INVOCATION_RESOLVE; right.INVOCATION_BIND].

(** kernel/src/api/ipcops.rs:49-55 [exhausted]. What it prints is not modelled. *)
Definition exhausted {S A} : K S A := err status.LIMIT_EXHAUSTED.

Definition on_endpoint (index : N) (f : Endpoint → Endpoint) (m : Machine) : Machine :=
  m <| m_endpoints ::= alter f index |>.
Definition on_message (index : N) (f : Message → Message) (m : Machine) : Machine :=
  m <| m_messages ::= alter f index |>.
Definition on_invocation (index : N) (f : Invocation → Invocation) (m : Machine) : Machine :=
  m <| m_invocations ::= alter f index |>.
Definition on_node (scope : ScopeId) (f : Scope.Scope → Scope.Scope) (m : Machine) : Machine :=
  m <| m_scopes ::= on_scope scope f |>.

(** ** Endpoints *)

(** kernel/src/api/ipcops.rs:67-147 [create_endpoint] *)
Definition create_endpoint (ctx : Ctx) (request : EndpointCreateRequest) : K Machine N :=
  err_if (negb (bool_decide (wec_reserved0 request = 0))) status.INVALID_ARGUMENT;;
  err_if (bool_decide (wec_queue_capacity request = 0) ||
          bool_decide (limit.MAX_ENDPOINT_QUEUE < wec_queue_capacity request)) status.INVALID_ARGUMENT;;
  let sponsor := obj_index (rs_object (cx_cap ctx)) in
  node ← at_index (λ m, scopes (m_scopes m)) sponsor;
  err_if (negb (bool_decide (sc_state node = Scope.Open))) status.SCOPE_CLOSED;;
  ids ← gets m_endpoint_ids;
  found ← ok_or status.LIMIT_EXHAUSTED (list_find (λ e, ei_used e = false) ids);
  let index := N.of_nat found.1 in
  ok ← on_scopes (Scope.reserve sponsor Metadata 1);
  if negb ok then err status.LIMIT_EXHAUSTED else
  id ← run next_id;
  match id with
  | None => release_metadata sponsor;; err status.LIMIT_EXHAUSTED
  | Some id =>
      let generation := saturating_add 32 (ei_generation found.2) 1 in
      modify (λ m, m <| m_endpoint_ids ::= alter (λ e, e <| ei_used := true |> <| ei_generation := generation |>
                                                        <| ei_refs := 0 |>) index |>);;
      modify (λ m, m <| m_endpoints ::= <[index :=
        mkEndpoint true id id sponsor U16_MAX 0 (wec_queue_capacity request) 0 0 0 NO_MESSAGE NO_MESSAGE 0 1 0 0
          (wec_label request) 0]> |>);;
      let object := mkObjRef Obj.Endpoint index generation in
      domain ← at_index m_domains (cx_domain ctx);
      allocated ← grant_alloc (dom_owner_scope domain) NO_GRANT object (rights_mask Obj.Endpoint) 0 None 0;
      grant ← ok_or status.LIMIT_EXHAUSTED allocated;
      handle ← cap_install (cx_domain ctx) object grant None;
      ok_or status.LIMIT_EXHAUSTED handle
  end.

(** kernel/src/api/ipcops.rs:154-210 [bind_facet] *)
Definition bind_facet (ctx : Ctx) (request : BindFacetRequest) : K Machine N :=
  err_if (negb (bool_decide (wbf_reserved0 request = 0)) || negb (bool_decide (wbf_facet request = 0)))
    status.INVALID_ARGUMENT;;
  let cap := cx_cap ctx in
  err_if (negb (bool_decide (andnot (wbf_rights_mask request) (rs_rights cap) = 0))) status.INSUFFICIENT_RIGHTS;;
  err_if (negb (bool_decide (andnot (wbf_rights_mask request) (rights_mask Obj.Endpoint) = 0))) status.INVALID_ARGUMENT;;
  let index := obj_index (rs_object cap) in
  parent ← at_index m_grants (rs_grant cap);
  deadline ←
    (if decide (wbf_deadline_ns request = 0) then mret (g_deadline_ns parent) else
     err_if (negb (bool_decide (g_deadline_ns parent = 0)) && bool_decide (g_deadline_ns parent < wbf_deadline_ns request))
       status.INVALID_ARGUMENT;;
     mret (wbf_deadline_ns request));
  channel ← at_index m_endpoints index;
  let facet := ep_next_facet channel in
  err_if (bool_decide (facet = U64_MAX)) status.LIMIT_EXHAUSTED;;
  facets ← expect (checked_add 32 (ep_facets channel) 1);
  modify (on_endpoint index (λ e, e <| ep_next_facet := facet + 1 |> <| ep_facets := facets |>));;
  domain ← at_index m_domains (cx_domain ctx);
  allocated ← grant_alloc (dom_owner_scope domain) (rs_grant cap) (rs_object cap) (wbf_rights_mask request) deadline
    (g_life_scope parent) facet;
  grant ← ok_or status.LIMIT_EXHAUSTED allocated;
  handle ← cap_install (cx_domain ctx) (rs_object cap) grant None;
  ok_or status.LIMIT_EXHAUSTED handle.

(** ** Admission *)

(** kernel/src/api/ipcops.rs:212-216 [Admitted] *)
Record Admission := mkAdmission { ad_invocation : N; ad_generation : N; ad_id : N }.

(** The receiver the channel admits for. *)
(** kernel/src/api/ipcops.rs:227-248 [admit, the peer] *)
Definition admit_peer (endpoint : N) : K Machine N :=
  channel ← at_index m_endpoints endpoint;
  err_if (negb (ep_open channel)) status.PEER_DEAD;;
  let receiver := ep_receiver_domain channel in
  err_if (bool_decide (receiver = U16_MAX)) status.PEER_DEAD;;
  d ← at_index m_domains receiver;
  err_if (negb (bool_decide (dom_generation d = ep_receiver_generation channel)) ||
          negb (bool_decide (dom_state d ∈ [DomainState.Building; DomainState.Runnable]))) status.PEER_DEAD;;
  mret receiver.

(** kernel/src/api/ipcops.rs:252-263 [admit, the request's lengths] *)
Definition admit_request (request : SendRequest) : K Machine () :=
  err_if (bool_decide (limit.MAX_INLINE_PAYLOAD < wsr_payload_len request)) status.INVALID_ARGUMENT;;
  err_if (bool_decide (limit.MAX_CAPS_PER_MESSAGE < wsr_cap_count request)) status.INVALID_ARGUMENT;;
  let unused := drop (N.to_nat (wsr_cap_count request)) (zip (wsr_caps request) (wsr_cap_ops request)) in
  err_if (existsb (λ c, negb (bool_decide (c.1 = 0)) || negb (bool_decide (c.2 = 0))) unused) status.INVALID_ARGUMENT.

(** A capability to be transferred: its slot, what it names, and whether it moves. *)
(** kernel/src/api/ipcops.rs:268-268 [admit, sources] *)
Record Source := mkSource { so_slot : N; so_object : ObjRef; so_grant : GrantId; so_moved : bool }.
(** kernel/src/api/ipcops.rs:268-290 [admit, the sources] *)
Fixpoint admit_sources (domain now : N) (entries : list (N * N)) (sources : list Source) : K Machine (list Source) :=
  match entries with
  | [] => mret sources
  | (handle, operation) :: entries =>
      err_if (negb (bool_decide (operation ∈ [cap_op.COPY; cap_op.MOVE]))) status.INVALID_ARGUMENT;;
      cap ← resolve domain handle object_type.NONE right.TRANSFER now;
      err_if (existsb (λ s, bool_decide (so_slot s = rs_slot cap)) sources) status.INVALID_ARGUMENT;;
      admit_sources domain now entries
        (sources ++ [mkSource (rs_slot cap) (rs_object cap) (rs_grant cap) (bool_decide (operation = cap_op.MOVE))])
  end.

(** kernel/src/api/ipcops.rs:292-306 [admit, the room] *)
Definition admit_room (endpoint receiver : N) (ordinary : bool) (count : N) : K Machine () :=
  channel ← at_index m_endpoints endpoint;
  err_if (ordinary && negb (has_ordinary_room channel)) status.QUEUE_FULL;;
  err_if (negb ordinary && bool_decide (ep_reserved_cells channel <= ep_reserved_used channel)) status.QUEUE_FULL;;
  d ← at_index m_domains receiver;
  if decide (CapTable.free_slots (dom_caps d) < count) then exhausted else mret ().

(** Gives back what an admission took. *)
(** kernel/src/api/ipcops.rs:345-350 [admit, the release of what was taken] *)
Definition unreserve (message_index invocation_index : N) (origin_scope : ScopeId) (charged : N) (m : Machine) : Machine :=
  let m := Machine.release_message message_index (Machine.release_invocation invocation_index m) in
  if decide (charged = 0) then m else m <| m_scopes ::= Scope.release origin_scope QueueBytes charged |>.

(** The message record, the invocation record and what was charged. *)
(** kernel/src/api/ipcops.rs:311-362 [admit, the reservations] *)
Definition admit_reserve (origin_scope : ScopeId) (ordinary : bool) (payload_len : N) : K Machine (N * N * N) :=
  claimed ← run claim_message;
  match claimed with
  | None => exhausted
  | Some message_index =>
      claimed ← run claim_invocation;
      match claimed with
      | None => modify (Machine.release_message message_index);; exhausted
      | Some invocation_index =>
          let charged := if ordinary then MESSAGE_OVERHEAD_BYTES + payload_len else 0 in
          ok ← (if ordinary then on_scopes (Scope.reserve origin_scope QueueBytes charged) else mret true);
          if negb ok then modify (unreserve message_index invocation_index origin_scope 0);; exhausted else
          ok ← reserve_receipt;
          if negb ok then modify (unreserve message_index invocation_index origin_scope charged);; exhausted else
          mret (message_index, invocation_index, charged)
      end
  end.

(** The capabilities installed, and whether all of them are. *)
(** kernel/src/api/ipcops.rs:366-389 [admit, the installation] *)
Fixpoint install_caps (receiver : N) (sources : list Source) (installed : list DeliveredCap) :
    K Machine (list DeliveredCap * bool) :=
  match sources with
  | [] => mret (installed, true)
  | source :: sources =>
      handle ← cap_install receiver (so_object source) (so_grant source) None;
      match handle with
      | Some handle =>
          install_caps receiver sources
            (installed ++ [mkDeliveredCap (handle_slot handle mod 2 ^ 16) handle (so_grant source)])
      | None => mret (installed, false)
      end
  end.
(** Withdraws capabilities a message carried. *)
(** kernel/src/api/ipcops.rs:391-393 [admit, the entries released] *)
Definition release_caps (receiver : N) (caps : list DeliveredCap) : K Machine () :=
  for_each caps (λ c, _ ← cap_release_slot receiver (dc_slot c); mret ()).
(** kernel/src/api/ipcops.rs:390-401 [admit, the rollback] *)
Definition admit_caps (receiver : N) (sources : list Source) (message_index invocation_index : N)
    (origin_scope : ScopeId) (charged : N) : K Machine (list DeliveredCap) :=
  installed ← install_caps receiver sources [];
  if (installed.2 : bool) then mret installed.1 else
  release_caps receiver installed.1;;
  release_receipt;;
  modify (unreserve message_index invocation_index origin_scope charged);;
  err status.LIMIT_EXHAUSTED.
(** kernel/src/api/ipcops.rs:404-409 [admit, the moves] *)
Definition consume_moves (domain : N) (sources : list Source) : K Machine () :=
  for_each sources (λ s, if so_moved s then _ ← cap_release_slot domain (so_slot s); mret () else mret ()).

(** The record of an admitted invocation over what the slot held. *)
(** kernel/src/api/ipcops.rs:428-463 [admit, the invocation record] *)
Definition admitted_record (generation id endpoint endpoint_generation epoch : N) (ctx : Ctx) (origin : Domain)
    (origin_scope : ScopeId) (origin_scope_id : N) (waiter : option N) (parent_id message_index receiver charged : N)
    (slot : Invocation) : Invocation :=
  slot <| inv_state := ipc.Admitted_ |> <| inv_generation := generation |> <| inv_id := id |>
    <| inv_endpoint := endpoint |> <| inv_endpoint_generation := endpoint_generation |> <| inv_epoch := epoch |>
    <| inv_origin_domain := cx_domain ctx |> <| inv_origin_domain_generation := dom_generation origin |>
    <| inv_origin_domain_id := dom_id origin |> <| inv_origin_scope := origin_scope |>
    <| inv_origin_scope_id := origin_scope_id |> <| inv_waiter := waiter |> <| inv_parent_id := parent_id |>
    <| inv_grant := rs_grant (cx_cap ctx) |> <| inv_facet := rs_facet (cx_cap ctx) |>
    <| inv_cancel := Cancel.Live |> <| inv_effect := Effect.None |> <| inv_closure_reserved_ns := 0 |>
    <| inv_closure_service := 0 |> <| inv_admitted_ns := cx_now ctx |> <| inv_message := message_index |>
    <| inv_receiver_domain := receiver |> <| inv_charged_bytes := charged |> <| inv_refs := 0 |>
    <| inv_replied := false |> <| inv_outcome := 0 |> <| inv_reply_len := 0 |> <| inv_reply_caps := [0; 0; 0; 0] |>
    <| inv_reply_cap_count := 0 |> <| inv_reply_result := 0 |>.

(** The identity of the admission, its generation and its parent. *)
(** kernel/src/api/ipcops.rs:411-468 [admit, the record and its accounts] *)
Definition admit_record (ctx : Ctx) (endpoint receiver origin_scope : N) (waiter bound : option N)
    (message_index invocation_index charged : N) : K Machine (N * N * N) :=
  claimed ← run next_id;
  id ← ok_or status.LIMIT_EXHAUSTED claimed;
  invocation ← at_index m_invocations invocation_index;
  generation ← expect (checked_add 32 (inv_generation invocation) 1);
  parent_id ← (match bound with
              | None => mret 0
              | Some index => (parent ← at_index m_invocations index; mret (inv_id parent) : K Machine N)
              end : K Machine N);
  name ← at_index m_endpoint_ids endpoint;
  channel ← at_index m_endpoints endpoint;
  origin ← at_index m_domains (cx_domain ctx);
  scope ← at_index (λ m, scopes (m_scopes m)) origin_scope;
  modify (on_invocation invocation_index
    (admitted_record generation id endpoint (ei_generation name) (ep_epoch channel) ctx origin origin_scope
       (sc_id scope) waiter parent_id message_index receiver charged));;
  node ← at_index m_grants (rs_grant (cx_cap ctx));
  refs ← expect (checked_add 32 (g_refs node) 1);
  modify (λ m, m <| m_grants ::= alter (λ n, n <| g_refs := refs |>) (rs_grant (cx_cap ctx)) |>);;
  modify (on_endpoint endpoint (λ e, e <| ep_admitted ::= N.succ |>));;
  modify (on_node origin_scope (λ n, n <| sc_invocations_pending ::= λ c, wrapping_add 32 c 1 |>));;
  mret (id, generation, parent_id).

(** A receiver that waits here, its bit cleared whether it still waits or not. *)
(** kernel/src/api/ipcops.rs:617-655 [take_receiver]. [turns] counts down the bits of the
    word. *)
Fixpoint take_receiver (turns : nat) (endpoint generation now waiting : N) : K Kernel (option (N * Handoff)) :=
  match turns with
  | O => mret None
  | S turns =>
      if decide (waiting = 0) then mret None else
      let index := trailing_zeros waiting in
      let waiting := N.land waiting (waiting - 1) in
      change (on_endpoint endpoint (λ e, e <| ep_receivers ::= λ w, andnot w (N.shiftl 1 index) |>));;
      claimed ← claim_handoff index (λ record, bool_decide (wt_wait record = Wait.Receive endpoint generation)) status.OK 0;
      match claimed with
      | None => take_receiver turns endpoint generation now waiting
      | Some offered =>
          channel ← on_machine (at_index m_endpoints endpoint);
          resolved ← catch (on_machine (resolve (ep_receiver_domain channel) (hf_handle offered) object_type.ENDPOINT
                                          right.ENDPOINT_RECEIVE now));
          match resolved with
          | inr cap => if decide (obj_index (rs_object cap) = endpoint) then mret (Some (index, offered))
                       else mret (Some (index, Handoff.NONE))
          | inl _ => mret (Some (index, Handoff.NONE))
          end
      end
  end.

(** kernel/src/api/ipcops.rs:660-684 [issue_ticket] *)
Definition issue_ticket (receiver invocation : N) : K Machine N :=
  record ← at_index m_invocations invocation;
  let object := mkObjRef Obj.Invocation invocation (inv_generation record) in
  d ← at_index m_domains receiver;
  allocated ← grant_alloc (dom_owner_scope d) NO_GRANT object TICKET_RIGHTS 0 None (inv_facet record);
  grant ← ok_or status.LIMIT_EXHAUSTED allocated;
  ticket ← cap_install receiver object grant None;
  match ticket with
  | None => collect_grant grant;; err status.LIMIT_EXHAUSTED
  | Some ticket =>
      modify (on_invocation invocation (λ i, i <| inv_receiver_domain := receiver |>));;
      mret ticket
  end.

(** [n] bytes, filled with zeros. *)
Definition filled (n : nat) (bytes : list N) : list N := bytes ++ replicate (n - length bytes) 0.

(** The rights the capabilities of a message carry. *)
Fixpoint carried_rights (caps : list DeliveredCap) (rights : N) : K Machine N :=
  match caps with
  | [] => mret rights
  | c :: caps => node ← at_index m_grants (dc_grant c); carried_rights caps (N.lor rights (g_rights node))
  end.
(** kernel/src/api/ipcops.rs:696-732 [lay_out_receive] *)
Definition lay_out_receive (buffer : N) (record : Invocation) (kind : N) (payload : list N) (caps : list DeliveredCap) :
    K Kernel () :=
  node ← on_machine (at_index m_grants (inv_grant record));
  rights ← on_machine (carried_rights caps 0);
  let header := mkMessageHeader (inv_epoch record) (inv_id record) (inv_origin_domain_id record)
    (inv_origin_scope_id record) (inv_parent_id record) (inv_facet record) (g_id node) (inv_admitted_ns record) rights
    (Cancel.abi (inv_cancel record)) kind (tlen payload) in
  on_thread buffer (λ c, c <| th_response := Some (Received
    (mkReceiveResult header (tlen caps) 0 (filled 4 (dc_handle <$> caps)) (filled 256 payload))) |>).

(** The message goes straight to a receiver that waits: the thread to wake, and whether
    it took the message. *)
(** kernel/src/api/ipcops.rs:482-529 [admit, the direct delivery] *)
Definition admit_direct (endpoint invocation_index kind : N) (now : N) (payload : list N) (caps : list DeliveredCap) :
    K Kernel (option N * bool) :=
  channel ← on_machine (at_index m_endpoints endpoint);
  name ← on_machine (at_index m_endpoint_ids endpoint);
  taken ← take_receiver 64 endpoint (ei_generation name) now (ep_receivers channel);
  match taken with
  | None => mret (None, false)
  | Some (thread_, offered) =>
      match hf_staging offered with
      | Some buffer =>
          if decide (ep_head channel = NO_MESSAGE) then
            ticket ← catch (on_machine (issue_ticket (ep_receiver_domain channel) invocation_index));
            match ticket with
            | inl _ => mret (Some thread_, false)
            | inr ticket =>
                change (on_invocation invocation_index (λ i, i <| inv_state := ipc.Delivered |> <| inv_message := NO_MESSAGE |>));;
                record ← on_machine (at_index m_invocations invocation_index);
                change (on_endpoint endpoint (λ e, e <| ep_delivered ::= N.succ |>));;
                lay_out_receive buffer record kind payload caps;;
                set_wake_aux thread_ ticket;;
                mret (Some thread_, true)
            end
          else mret (Some thread_, false)
      | None => mret (Some thread_, false)
      end
  end.

(** The message is linked behind the last one. *)
(** kernel/src/api/ipcops.rs:531-564 [admit, the queue] *)
Definition admit_queue (endpoint message_index invocation_index kind : N) (ordinary : bool) (payload : list N)
    (caps : list DeliveredCap) (charged : N) : K Machine () :=
  name ← at_index m_endpoint_ids endpoint;
  _ ← at_index m_messages message_index;
  modify (on_message message_index (λ slot,
    slot <| msg_used := true |> <| msg_next := NO_MESSAGE |> <| msg_endpoint := endpoint |>
      <| msg_endpoint_generation := ei_generation name |> <| msg_invocation := invocation_index |>
      <| msg_reserved_cell := negb ordinary |> <| msg_kind := kind |> <| msg_payload_len := tlen payload |>
      <| msg_payload := filled 256 payload |> <| msg_caps := caps ++ replicate (4 - length caps) DeliveredCap.empty |>
      <| msg_cap_count := tlen caps |> <| msg_charged_bytes := charged |>));;
  channel ← at_index m_endpoints endpoint;
  (if decide (ep_tail channel = NO_MESSAGE) then modify (on_endpoint endpoint (λ e, e <| ep_head := message_index |>)) else
   _ ← at_index m_messages (ep_tail channel);
   modify (on_message (ep_tail channel) (λ m, m <| msg_next := message_index |>)));;
  modify (on_endpoint endpoint (λ e, e <| ep_tail := message_index |> <| ep_queued ::= N.succ |>
    <| ep_reserved_used ::= λ n, if ordinary then n else n + 1 |>)).

(** kernel/src/api/ipcops.rs:220-604 [admit] *)
Definition admission (ctx : Ctx) (request : SendRequest) (kind : N) (waiter : option N) (receipt_ns : N) : K Kernel Admission :=
  let endpoint := obj_index (rs_object (cx_cap ctx)) in
  receiver ← on_machine (admit_peer endpoint);
  on_machine (admit_request request);;
  let count := wsr_cap_count request in
  sources ← on_machine (admit_sources (cx_domain ctx) (cx_now ctx)
    (take (N.to_nat count) (zip (wsr_caps request) (wsr_cap_ops request))) []);
  let ordinary := negb (bool_decide (kind = message_kind.FAULT)) in
  on_machine (admit_room endpoint receiver ordinary count);;
  cell ← thread (cx_thread ctx);
  let origin_scope := th_effective_scope cell in
  reserved ← on_machine (admit_reserve origin_scope ordinary (wsr_payload_len request));
  let '(message_index, invocation_index, charged) := reserved in
  caps ← on_machine (admit_caps receiver sources message_index invocation_index origin_scope charged);
  on_machine (consume_moves (cx_domain ctx) sources);;
  recorded ← on_machine (admit_record ctx endpoint receiver origin_scope waiter (fst <$> th_bound cell)
    message_index invocation_index charged);
  let '(id, generation, parent_id) := recorded in
  let payload := take (N.to_nat (wsr_payload_len request)) (wsr_payload request) in
  direct ← admit_direct endpoint invocation_index kind (cx_now ctx) payload caps;
  on_machine (if direct.2 : bool then modify (Machine.release_message message_index)
              else admit_queue endpoint message_index invocation_index kind ordinary payload caps charged);;
  channel ← on_machine (at_index m_endpoints endpoint);
  node ← on_machine (at_index m_grants (rs_grant (cx_cap ctx)));
  _ ← on_machine (receipt receipt_ns receipt_kind.ADMIT (cx_domain ctx) origin_scope (ep_id channel) (g_id node)
    parent_id status.OK id (rs_facet (cx_cap ctx)) true);
  match direct.1 with
  | Some thread_ => defer_wake thread_ (match waiter with Some _ => Sync | None => Any end)
  | None => mret ()
  end;;
  mret (mkAdmission invocation_index generation id).

(** ** Discharge *)

(** kernel/src/api/ipcops.rs:734-749 [wake_waiter] *)
Definition wake_waiter (invocation : N) (code : Z) (hint : WakeHint) : K Kernel () :=
  slot ← on_machine (at_index m_invocations invocation);
  match inv_waiter slot with
  | None => mret ()
  | Some waiter =>
      _ ← defer_wake_if waiter (λ record, bool_decide (wt_wait record = Wait.Reply invocation (inv_generation slot)))
            code 0 hint;
      mret ()
  end.

(** What is cleared as the obligation ends. *)
(** kernel/src/api/ipcops.rs:1072-1078 [release_invocation, the fields cleared] *)
Definition discharged (slot : Invocation) : Invocation :=
  let slot := slot <| inv_charged_bytes := 0 |> <| inv_grant := NO_GRANT |> <| inv_state := ipc.Resolved |> in
  if decide (inv_effect slot = Effect.Admitted_)
  then slot <| inv_closure_reserved_ns := 0 |> <| inv_effect := Effect.Resolved |> else slot.

(** kernel/src/api/ipcops.rs:1053-1108 [release_invocation] *)
Definition release_invocation (index now : N) : K Machine () :=
  slot ← at_index m_invocations index;
  if decide (inv_state slot = ipc.Empty) then mret () else
  modify (on_invocation index discharged);;
  let origin := inv_origin_scope slot in
  (if decide (inv_charged_bytes slot = 0) then mret ()
   else modify (λ m, m <| m_scopes ::= Scope.release origin QueueBytes (inv_charged_bytes slot) |>));;
  _ ← at_index (λ m, scopes (m_scopes m)) origin;
  modify (on_node origin (λ n, n <| sc_invocations_pending ::= decrement |>));;
  (if decide (inv_effect slot = Effect.Admitted_) then
     modify (on_node origin (λ n, n <| sc_effects_pending ::= decrement |>));;
     _ ← at_index (λ m, scopes (m_scopes m)) (inv_closure_service slot);
     modify (on_node (inv_closure_service slot)
       (λ n, n <| sc_closure_reserved_ns ::= λ c, subtract c (inv_closure_reserved_ns slot) |>))
   else mret ());;
  t ← gets m_scopes;
  t ← expect (note_progress origin now t);
  modify (λ m, m <| m_scopes := t |>);;
  (if decide (inv_grant slot = NO_GRANT) then mret () else
   _ ← at_index m_grants (inv_grant slot);
   modify (λ m, m <| m_grants ::= alter (λ n, n <| g_refs ::= λ r, saturating_sub r 1 |>) (inv_grant slot) |>);;
   collect_grant (inv_grant slot));;
  collect_invocation index.

(** ** Send and call *)

(** kernel/src/api/ipcops.rs:752-756 [send] *)
Definition send (ctx : Ctx) (request : SendRequest) (receipt_ns : N) : K Kernel N :=
  admitted ← admission ctx request message_kind.REQUEST None receipt_ns;
  mret (ad_id admitted).

(** Up to the point it blocks at: the invocation and its generation. [required] is the
    object type and the rights of the operation. *)
(** kernel/src/api/ipcops.rs:759-794 [call, to the switch] *)
Definition call_begin (ctx : Ctx) (required : N * N) (request : SendRequest) (receipt_ns : N) : K Kernel (N * N) :=
  err_if (negb (bool_decide (N.land (cx_flags ctx) flag.NONBLOCKING = 0))) status.INVALID_ARGUMENT;;
  cap ← on_machine (resolve (cx_domain ctx) (cx_handle ctx) required.1 required.2 (cx_now ctx));
  let full := mkCtx (cx_domain ctx) (cx_thread ctx) (cx_handle ctx) (cx_operation ctx) (cx_flags ctx) (cx_deadline ctx)
                (cx_now ctx) cap in
  admitted ← admission full request message_kind.REQUEST (Some (cx_thread ctx)) receipt_ns;
  prepare_wait_offering (cx_thread ctx) (Wait.Reply (ad_invocation admitted) (ad_generation admitted)) (cx_deadline ctx)
    (offer (cx_thread ctx) (cx_handle ctx));;
  flush_wakes;;
  mret (ad_invocation admitted, ad_generation admitted).

(** kernel/src/api/ipcops.rs:1255-1272 [lay_out_reply] *)
Definition lay_out_reply (buffer : N) (payload handles : list N) (result id : N) : K Kernel () :=
  on_thread buffer (λ c, c <| th_response := Some (Answered
    (mkCallResult (tlen payload) (tlen handles) (filled 4 handles) result id (filled 256 payload))) |>).

(** What the outcome of an obligation is to its caller. *)
(** kernel/src/api/ipcops.rs:842-846 [call, code] *)
Definition outcome_status (outcome_ : N) : Z :=
  if decide (outcome_ = outcome.COMMITTED) then status.OK
  else if decide (outcome_ = outcome.UNKNOWN) then status.PENDING else status.CANCELLED.

(** After the wait has ended. *)
(** kernel/src/api/ipcops.rs:796-853 [call, from the wait] *)
Definition call_finish (ctx : Ctx) (invocation generation now : N) : K Kernel N :=
  ended ← take_wake_status (cx_thread ctx);
  let '(woken, delivered) := ended in
  if bool_decide (woken = status.OK) && negb (bool_decide (delivered = 0)) then mret delivered else
  slot ← on_machine (at_index m_invocations invocation);
  err_if (negb (bool_decide (inv_generation slot = generation))) status.PEER_DEAD;;
  if inv_replied slot then
    lay_out_reply (cx_thread ctx) (take (N.to_nat (inv_reply_len slot)) (inv_reply_payload slot))
      (take (N.to_nat (inv_reply_cap_count slot)) (inv_reply_caps slot)) (inv_reply_result slot) (inv_id slot);;
    on_machine (release_invocation invocation now);;
    mret (inv_id slot)
  else if negb (bool_decide (inv_state slot = ipc.Resolved)) then
    change (on_invocation invocation (λ i, i <| inv_waiter := None |>));;
    err (if decide (woken = status.OK) then status.TIMED_OUT else woken)
  else
    let code := outcome_status (inv_outcome slot) in
    on_machine (release_invocation invocation now);;
    err_if (negb (bool_decide (code = status.OK))) code;;
    on_thread (cx_thread ctx) (λ c, c <| th_response := Some (Answered CallResult.zeroed) |>);;
    mret (inv_id slot).

(** ** Receive *)

(** kernel/src/api/ipcops.rs:940-1040 [deliver] *)
Definition deliver (receiver endpoint message_index buffer : N) : K Kernel N :=
  message ← on_machine (at_index m_messages message_index);
  let invocation_index := msg_invocation message in
  slot ← on_machine (at_index m_invocations invocation_index);
  name ← on_machine (at_index m_endpoint_ids endpoint);
  err_if (negb (bool_decide (inv_endpoint slot = endpoint)) ||
          negb (bool_decide (inv_endpoint_generation slot = ei_generation name))) status.STATE_CONFLICT;;
  ticket ← on_machine (issue_ticket receiver invocation_index);
  channel ← on_machine (at_index m_endpoints endpoint);
  queued ← expect (checked_sub (ep_queued channel) 1);
  change (on_endpoint endpoint (λ e, e <| ep_head := msg_next message |>
    <| ep_tail ::= λ t, if decide (msg_next message = NO_MESSAGE) then NO_MESSAGE else t |>
    <| ep_queued := queued |>
    <| ep_reserved_used ::= λ n, if msg_reserved_cell message then saturating_sub n 1 else n |>
    <| ep_delivered ::= N.succ |>));;
  change (on_invocation invocation_index (λ i, i <| inv_state := ipc.Delivered |> <| inv_message := NO_MESSAGE |>));;
  record ← on_machine (at_index m_invocations invocation_index);
  lay_out_receive buffer record (msg_kind message) (take (N.to_nat (msg_payload_len message)) (msg_payload message))
    (take (N.to_nat (msg_cap_count message)) (msg_caps message));;
  change (on_message message_index (λ m, m <| msg_used := false |> <| msg_next := NO_MESSAGE |> <| msg_cap_count := 0 |>
    <| msg_payload_len := 0 |>));;
  change (Machine.release_message message_index);;
  mret ticket.

(** The receive side is claimed by the first domain that receives. *)
(** kernel/src/api/ipcops.rs:880-893 [receive, the claim] *)
Definition claim_receiver (domain endpoint : N) : K Machine () :=
  channel ← at_index m_endpoints endpoint;
  if decide (ep_receiver_domain channel = U16_MAX) then
    d ← at_index m_domains domain;
    modify (on_endpoint endpoint (λ e, e <| ep_receiver_domain := domain |> <| ep_receiver_generation := dom_generation d |>))
  else err_if (negb (bool_decide (ep_receiver_domain channel = domain))) status.STATE_CONFLICT.

(** One turn up to the point it blocks at: the ticket, or nothing when it waits. *)
(** kernel/src/api/ipcops.rs:857-925 [receive, to the switch] *)
Definition receive_attempt (ctx : Ctx) (required : N * N) (now : N) : K Kernel (option N) :=
  cap ← on_machine (resolve (cx_domain ctx) (cx_handle ctx) required.1 required.2 now);
  let endpoint := obj_index (rs_object cap) in
  on_machine (claim_receiver (cx_domain ctx) endpoint);;
  channel ← on_machine (at_index m_endpoints endpoint);
  if negb (bool_decide (ep_head channel = NO_MESSAGE)) then
    delivered ← catch (deliver (cx_domain ctx) endpoint (ep_head channel) (cx_thread ctx));
    flush_wakes;;
    match delivered with inr ticket => mret (Some ticket) | inl code => err code end
  else
    err_if (negb (bool_decide (N.land (cx_flags ctx) flag.NONBLOCKING = 0))) status.WOULD_BLOCK;;
    name ← on_machine (at_index m_endpoint_ids endpoint);
    prepare_wait_offering (cx_thread ctx) (Wait.Receive endpoint (ei_generation name)) (cx_deadline ctx)
      (offer (cx_thread ctx) (cx_handle ctx));;
    change (on_endpoint endpoint (λ e, e <| ep_receivers ::= λ w, N.lor w (N.shiftl 1 (cx_thread ctx)) |>));;
    mret None.

(** After the wait: the ticket, or nothing when it looks again. *)
(** kernel/src/api/ipcops.rs:926-935 [receive, from the wait] *)
Definition receive_resume (ctx : Ctx) : K Kernel (option N) :=
  ended ← take_wake_status (cx_thread ctx);
  let '(woken, ticket) := ended in
  err_if (negb (bool_decide (woken = status.OK))) woken;;
  mret (if decide (ticket = 0) then None else Some ticket).

(** ** Reply *)

(** kernel/src/api/ipcops.rs:1134-1174 [reply, the capabilities] *)
Fixpoint reply_caps (domain caller now : N) (entries : list (N * N)) (installed : list N) : K Machine (list N) :=
  let withdraw := for_each installed (λ h, _ ← cap_release_slot caller (handle_slot h mod 2 ^ 16); mret ()) in
  match entries with
  | [] => mret installed
  | (handle, operation) :: entries =>
      err_if (negb (bool_decide (operation ∈ [cap_op.COPY; cap_op.MOVE]))) status.INVALID_ARGUMENT;;
      resolved ← catch (resolve domain handle object_type.NONE right.TRANSFER now);
      match resolved with
      | inl code => withdraw;; err code
      | inr cap =>
          placed ← cap_install caller (rs_object cap) (rs_grant cap) None;
          match placed with
          | None => withdraw;; err status.LIMIT_EXHAUSTED
          | Some new =>
              (if decide (operation = cap_op.MOVE) then _ ← cap_release_slot domain (rs_slot cap); mret () else mret ());;
              reply_caps domain caller now entries (installed ++ [new])
          end
      end
  end.

(** kernel/src/api/ipcops.rs:1275-1281 [store_reply] *)
Definition store_reply (request : ReplyRequest) (installed : list N) (slot : Invocation) : Invocation :=
  slot <| inv_reply_payload := wrq_payload request |> <| inv_reply_len := wrq_payload_len request |>
    <| inv_reply_caps := filled 4 installed |> <| inv_reply_cap_count := wrq_cap_count request |>
    <| inv_reply_result := wrq_result request |>.

(** The caller answered: who, and whether the reply is laid out in its buffer. *)
(** kernel/src/api/ipcops.rs:1192-1230 [reply, answered] *)
Definition reply_answer (index : N) (request : ReplyRequest) (installed : list N) : K Kernel (option (N * bool)) :=
  change (on_invocation index (λ i, i <| inv_replied := true |> <| inv_outcome := outcome.COMMITTED |>));;
  slot ← on_machine (at_index m_invocations index);
  taken ← (match inv_waiter slot with
           | None => mret None
           | Some waiter =>
               claimed ← claim_handoff waiter
                 (λ record, bool_decide (wt_wait record = Wait.Reply index (inv_generation slot))) status.OK 0;
               mret (pair waiter <$> claimed)
           end : K Kernel (option (N * Handoff)));
  match taken with
  | Some (waiter, offered) =>
      match hf_staging offered with
      | Some buffer =>
          lay_out_reply buffer (take (N.to_nat (wrq_payload_len request)) (wrq_payload request)) installed
            (wrq_result request) (inv_id slot);;
          mret (Some (waiter, true))
      | None => change (on_invocation index (store_reply request installed));; mret (Some (waiter, false))
      end
  | None => change (on_invocation index (store_reply request installed));; mret None
  end.

(** kernel/src/api/ipcops.rs:1111-1251 [reply] *)
Definition reply (ctx : Ctx) (request : ReplyRequest) (now : N) : K Kernel N :=
  let index := obj_index (rs_object (cx_cap ctx)) in
  err_if (bool_decide (limit.MAX_INLINE_PAYLOAD < wrq_payload_len request) ||
          bool_decide (limit.MAX_CAPS_PER_MESSAGE < wrq_cap_count request)) status.INVALID_ARGUMENT;;
  slot ← on_machine (at_index m_invocations index);
  err_if (bool_decide (inv_state slot = ipc.Resolved) || inv_replied slot) status.ALREADY_RESOLVED;;
  err_if (bool_decide (inv_waiter slot = None)) status.STATE_CONFLICT;;
  let caller := inv_origin_domain slot in
  d ← on_machine (at_index m_domains caller);
  err_if (negb (bool_decide (dom_generation d = inv_origin_domain_generation slot))) status.PEER_DEAD;;
  installed ← on_machine (reply_caps (cx_domain ctx) caller (cx_now ctx)
    (take (N.to_nat (wrq_cap_count request)) (zip (wrq_caps request) (wrq_cap_ops request))) []);
  now_slot ← on_machine (at_index m_invocations index);
  if bool_decide (inv_state now_slot = ipc.Resolved) || inv_replied now_slot then
    on_machine (for_each installed (λ h, _ ← cap_release_slot caller (handle_slot h mod 2 ^ 16); mret ()));;
    err status.ALREADY_RESOLVED
  else
    answered ← reply_answer index request installed;
    match answered with
    | Some (waiter, laid_out) =>
        (if (laid_out : bool) then on_machine (release_invocation index now);; set_wake_aux waiter (inv_id slot)
         else mret ());;
        defer_wake waiter Sync
    | None => mret ()
    end;;
    mret (inv_id slot).

(** ** Effects and outcomes *)

(** kernel/src/api/ipcops.rs:1290-1412 [begin_effect] *)
Definition begin_effect (ctx : Ctx) (request : EffectRequest) (receipt_ns : N) : K Machine N :=
  err_if (negb (bool_decide (wer_reserved0 request = 0))) status.INVALID_ARGUMENT;;
  let index := obj_index (rs_object (cx_cap ctx)) in
  slot ← at_index m_invocations index;
  err_if (bool_decide (inv_state slot = ipc.Resolved)) status.ALREADY_RESOLVED;;
  err_if (negb (bool_decide (inv_effect slot = Effect.None))) status.ALREADY_RESOLVED;;
  m ← getk;
  let lineage := walk_lineage m (inv_grant slot) (cx_now ctx) in
  let origin := inv_origin_scope slot in
  _ ← at_index (λ m, scopes (m_scopes m)) origin;
  if negb (bool_decide (lineage = status.OK)) || negb (is_open (m_scopes m) origin) then
    modify (on_invocation index (λ i, i <| inv_effect := Effect.Refused |>));;
    let code := if decide (lineage = status.OK) then status.SCOPE_CLOSED else lineage in
    node ← at_index m_grants (inv_grant slot);
    _ ← receipt receipt_ns receipt_kind.EFFECT (cx_domain ctx) origin (inv_id slot) (g_id node) (inv_parent_id slot) code 0 0 false;
    err code
  else
    d ← at_index m_domains (cx_domain ctx);
    let service := dom_owner_scope d in
    node ← at_index (λ m, scopes (m_scopes m)) service;
    wanted ← expect (s ← checked_add 64 (sc_closure_used_ns node) (sc_closure_reserved_ns node);
                     checked_add 64 s (wer_closure_reserve_ns request));
    err_if (bool_decide (l_closure_reserve_ns (sc_limits node) < wanted)) status.LIMIT_EXHAUSTED;;
    ok ← reserve_receipt;
    if negb ok then exhausted else
    modify (on_node service (λ n, n <| sc_closure_reserved_ns ::= λ c, wrapping_add 64 c (wer_closure_reserve_ns request) |>));;
    modify (on_invocation index (λ i, i <| inv_effect := Effect.Admitted_ |> <| inv_closure_service := service |>
      <| inv_closure_reserved_ns := wer_closure_reserve_ns request |>));;
    modify (on_node origin (λ n, n <| sc_effects_pending ::= λ c, wrapping_add 32 c 1 |>));;
    grant ← at_index m_grants (inv_grant slot);
    _ ← receipt receipt_ns receipt_kind.EFFECT (cx_domain ctx) origin (inv_id slot) (g_id grant) (inv_parent_id slot) status.OK
          (wer_effect_kind request) (wer_closure_reserve_ns request) true;
    mret (inv_id slot).

(** kernel/src/api/ipcops.rs:1415-1457 [resolve_invocation] *)
Definition resolve_invocation (ctx : Ctx) (request : ResolveRequest) (now : N) : K Kernel N :=
  err_if (negb (bool_decide (wrv_reserved0 request = 0))) status.INVALID_ARGUMENT;;
  err_if (negb (bool_decide (wrv_outcome request ∈ [outcome.COMMITTED; outcome.ABORTED; outcome.UNKNOWN])))
    status.INVALID_ARGUMENT;;
  let index := obj_index (rs_object (cx_cap ctx)) in
  slot ← on_machine (at_index m_invocations index);
  err_if (bool_decide (inv_state slot = ipc.Resolved)) status.ALREADY_RESOLVED;;
  change (on_invocation index (λ i, i <| inv_outcome := wrv_outcome request |>));;
  wake_waiter index (outcome_status (wrv_outcome request)) Sync;;
  on_machine (release_invocation index now);;
  mret (inv_id slot).

(** kernel/src/api/ipcops.rs:1460-1486 [query_invocation] *)
Definition query_invocation (ctx : Ctx) : K Machine (InvocationInfo * N) :=
  slot ← at_index m_invocations (obj_index (rs_object (cx_cap ctx)));
  grant_id ← (if decide (inv_grant slot = NO_GRANT) then mret 0
              else node ← at_index m_grants (inv_grant slot); mret (g_id node));
  mret (mkInvocationInfo (ipc.state_abi (inv_state slot)) (Cancel.abi (inv_cancel slot)) (Effect.abi (inv_effect slot)) 0
          (inv_id slot) (inv_origin_domain_id slot) (inv_origin_scope_id slot) (inv_facet slot) grant_id
          (inv_admitted_ns slot), Cancel.abi (inv_cancel slot)).

(** kernel/src/api/ipcops.rs:1489-1505 [query_endpoint] *)
Definition query_endpoint (ctx : Ctx) : K Machine (EndpointInfo * N) :=
  e ← at_index m_endpoints (obj_index (rs_object (cx_cap ctx)));
  mret (mkEndpointInfo (ep_capacity e) (ep_queued e) (ep_reserved_cells e) (ep_facets e) (ep_epoch e) (ep_id e)
          (ep_admitted e) (ep_delivered e), ep_queued e).

(** ** Workers *)

(** The slot the thread holds goes back. *)
(** kernel/src/api/ipcops.rs:1550-1552 [bind_worker, the slot held before] *)
Definition return_parallelism (thread_ : N) : K Kernel () :=
  cell ← thread thread_;
  on_thread thread_ (λ c, c <| th_parallelism_scope := NO_SCOPE |>);;
  if decide (th_parallelism_scope cell = NO_SCOPE) then mret ()
  else change (λ m, m <| m_scopes ::= drop_parallelism (th_parallelism_scope cell) |>).

(** kernel/src/api/ipcops.rs:1514-1577 [bind_worker] *)
Definition bind_worker (ctx : Ctx) : K Kernel N :=
  let index := obj_index (rs_object (cx_cap ctx)) in
  slot ← on_machine (at_index m_invocations index);
  err_if (bool_decide (inv_state slot = ipc.Resolved)) status.ALREADY_RESOLVED;;
  cell ← thread (cx_thread ctx);
  err_if (negb (bool_decide (th_bound cell = None))) status.STATE_CONFLICT;;
  _ ← on_machine (at_index (λ m, scopes (m_scopes m)) (inv_origin_scope slot));
  t ← machine m_scopes;
  let recovery := negb (is_open t (inv_origin_scope slot)) in
  d ← on_machine (at_index m_domains (cx_domain ctx));
  let charged := if recovery then dom_owner_scope d else inv_origin_scope slot in
  err_if (negb recovery && negb (has_parallelism t charged)) status.LIMIT_EXHAUSTED;;
  return_parallelism (cx_thread ctx);;
  on_thread (cx_thread ctx) (λ c, c <| th_effective_scope := charged |> <| th_recovery := recovery |>
    <| th_bound := Some (index, inv_generation slot) |>);;
  change (λ m, m <| m_scopes ::= take_parallelism charged |>);;
  on_thread (cx_thread ctx) (λ c, c <| th_parallelism_scope := charged |>);;
  bound ← on_machine (at_index m_invocations index);
  refs ← expect (checked_add 32 (inv_refs bound) 1);
  change (on_invocation index (λ i, i <| inv_refs := refs |>));;
  mret (inv_id slot).

(** kernel/src/api/ipcops.rs:1580-1603 [unbind_worker] *)
Definition unbind_worker (ctx : Ctx) : K Kernel N :=
  cell ← thread (cx_thread ctx);
  match th_bound cell with
  | None => err status.STATE_CONFLICT
  | Some (index, generation) =>
      on_thread (cx_thread ctx) (λ c, c <| th_bound := None |>);;
      slot ← on_machine (at_index m_invocations index);
      (if decide (inv_generation slot = generation)
       then change (on_invocation index (λ i, i <| inv_refs ::= λ r, saturating_sub r 1 |>)) else mret ());;
      return_parallelism (cx_thread ctx);;
      let owner := th_owner_scope cell in
      on_thread (cx_thread ctx) (λ c, c <| th_effective_scope := owner |> <| th_recovery := false |>);;
      change (λ m, m <| m_scopes ::= take_parallelism owner |>);;
      on_thread (cx_thread ctx) (λ c, c <| th_parallelism_scope := owner |>);;
      mret 0
  end.

(** ** Withdrawal *)

(** The message leaves the list it is linked in. *)
(** kernel/src/api/ipcops.rs:1628-1646 [withdraw_undelivered, the link] *)
Definition unlink (endpoint previous current : N) (message : Message) : K Machine () :=
  (if decide (previous = NO_MESSAGE) then modify (on_endpoint endpoint (λ e, e <| ep_head := msg_next message |>))
   else _ ← at_index m_messages previous; modify (on_message previous (λ m, m <| msg_next := msg_next message |>)));;
  modify (on_endpoint endpoint (λ e, e <| ep_tail ::= λ t, if decide (t = current) then previous else t |>
    <| ep_queued ::= λ n, saturating_sub n 1 |>
    <| ep_reserved_used ::= λ n, if msg_reserved_cell message then saturating_sub n 1 else n |>)).

(** A message nobody received is taken back: its link, its capabilities, its cell. *)
(** kernel/src/api/ipcops.rs:1628-1652 [withdraw_undelivered, the message] *)
Definition withdraw_message (endpoint previous current : N) (message : Message) : K Machine () :=
  unlink endpoint previous current message;;
  channel ← at_index m_endpoints endpoint;
  release_caps (ep_receiver_domain channel) (take (N.to_nat (msg_cap_count message)) (msg_caps message));;
  modify (on_message current (λ _, Message.empty));;
  modify (Machine.release_message current).

(** Walks one endpoint's queue; the messages [leaves] names go. [turns] bounds the walk:
    a queue longer than the table is the walk that never ends. *)
(** kernel/src/api/ipcops.rs:1618-1665 [withdraw_undelivered, one endpoint] *)
Fixpoint walk_queue (turns : nat) (leaves : Invocation → Machine → bool) (gone : N → Message → K Kernel ())
    (endpoint previous current withdrawn : N) : K Kernel N :=
  if decide (current = NO_MESSAGE) then mret withdrawn else
  match turns with
  | O => panic
  | S turns =>
      message ← on_machine (at_index m_messages current);
      slot ← on_machine (at_index m_invocations (msg_invocation message));
      m ← gets kn_machine;
      if leaves slot m then
        on_machine (withdraw_message endpoint previous current message);;
        gone (msg_invocation message) message;;
        walk_queue turns leaves gone endpoint previous (msg_next message) (withdrawn + 1)
      else walk_queue turns leaves gone endpoint current (msg_next message) withdrawn
  end.
(** The queues of all endpoints in use. *)
(** kernel/src/api/ipcops.rs:1614-1619 [withdraw_undelivered, the endpoints] *)
Fixpoint walk_endpoints (leaves : Invocation → Machine → bool) (gone : N → Message → K Kernel ())
    (endpoints : list N) (withdrawn : N) : K Kernel N :=
  match endpoints with
  | [] => mret withdrawn
  | endpoint :: endpoints =>
      name ← on_machine (at_index m_endpoint_ids endpoint);
      if ei_used name then
        channel ← on_machine (at_index m_endpoints endpoint);
        withdrawn ← walk_queue (N.to_nat MAX_MESSAGES) leaves gone endpoint NO_MESSAGE (ep_head channel) withdrawn;
        walk_endpoints leaves gone endpoints withdrawn
      else walk_endpoints leaves gone endpoints withdrawn
  end.

(** The invocation of a withdrawn message is aborted. *)
(** kernel/src/api/ipcops.rs:1653-1659 [withdraw_undelivered, the invocation] *)
Definition abort_withdrawn (now : N) (invocation : N) (message : Message) : K Kernel () :=
  slot ← on_machine (at_index m_invocations invocation);
  let origin := inv_origin_scope slot in
  change (on_invocation invocation (λ i, i <| inv_cancel := Cancel.OriginFenced |> <| inv_outcome := outcome.ABORTED |>));;
  wake_waiter invocation status.CANCELLED Any;;
  on_machine (release_invocation invocation now);;
  change (on_node origin (λ n, n <| sc_undelivered_cancelled ::= λ c, wrapping_add 32 c 1 |>)).
(** kernel/src/api/ipcops.rs:1612-1668 [withdraw_undelivered] *)
Definition withdraw_undelivered (root : ScopeId) (now : N) : K Kernel N :=
  endpoints ← machine m_endpoints;
  walk_endpoints (λ slot m, bool_decide (inv_state slot = ipc.Admitted_) && is_within (m_scopes m) root (inv_origin_scope slot))
    (abort_withdrawn now) (indices endpoints) 0.

(** kernel/src/api/ipcops.rs:1671-1681 [mark_cancelled] *)
Definition mark_cancelled (root : ScopeId) (m : Machine) : Machine :=
  m <| m_invocations ::= fmap (λ i,
    if bool_decide (inv_state i ∈ [ipc.Empty; ipc.Resolved]) then i
    else if is_within (m_scopes m) root (inv_origin_scope i) then i <| inv_cancel := Cancel.OriginFenced |> else i) |>.

(** ** The death of a domain *)

(** kernel/src/api/ipcops.rs:1731-1733 [on_domain_death, the invocation of a message] *)
Definition abort_orphaned (now : N) (invocation : N) (message : Message) : K Kernel () :=
  change (on_invocation invocation (λ i, i <| inv_cancel := Cancel.OriginDead |> <| inv_outcome := outcome.ABORTED |>));;
  on_machine (release_invocation invocation now).

(** kernel/src/api/ipcops.rs:1742-1758 [on_domain_death, one invocation] *)
Definition invocation_on_death (domain generation now index : N) : K Kernel () :=
  slot ← on_machine (at_index m_invocations index);
  if bool_decide (inv_state slot ∈ [ipc.Empty; ipc.Resolved]) then mret () else
  (if bool_decide (inv_origin_domain slot = domain) && bool_decide (inv_origin_domain_generation slot = generation)
   then change (on_invocation index (λ i, i <| inv_cancel := Cancel.OriginDead |> <| inv_waiter := None |>)) else mret ());;
  if bool_decide (inv_state slot = ipc.Delivered) && bool_decide (inv_receiver_domain slot = domain) then
    change (on_invocation index (λ i, i <| inv_outcome := outcome.UNKNOWN |>));;
    wake_waiter index status.PEER_DEAD Any;;
    on_machine (release_invocation index now)
  else mret ().

(** kernel/src/api/ipcops.rs:1763-1791 [on_domain_death, the endpoints and the fault channel] *)
Definition endpoints_on_death (domain generation : N) : K Machine () :=
  modify (λ m, m <| m_endpoints ::= imap (λ index e,
    if from_option ei_used false (m_endpoint_ids m !! N.of_nat index) && bool_decide (ep_receiver_domain e = domain) &&
       bool_decide (ep_receiver_generation e = generation)
    then e <| ep_open := false |> else e) |>);;
  d ← at_index m_domains domain;
  match dom_fault_endpoint d with
  | None => mret ()
  | Some object =>
      modify (λ m, m <| m_domains ::= alter (λ d, d <| dom_fault_endpoint := None |>) domain |>);;
      let index := obj_index object in
      name ← at_index m_endpoint_ids index;
      (if ei_used name && bool_decide (ei_generation name = obj_generation object)
       then modify (on_endpoint index (λ e, e <| ep_reserved_cells ::= λ n, saturating_sub n 1 |>)) else mret ());;
      (if decide (dom_fault_grant d = NO_GRANT) then mret () else
       _ ← at_index m_grants (dom_fault_grant d);
       modify (λ m, m <| m_grants ::= alter (λ n, n <| g_refs ::= λ r, saturating_sub r 1 |>) (dom_fault_grant d) |>));;
      modify (λ m, m <| m_domains ::= alter (λ d, d <| dom_fault_grant := NO_GRANT |> <| dom_fault_reserved := false |>) domain |>)
  end.

(** kernel/src/api/ipcops.rs:1684-1792 [on_domain_death] *)
Definition on_domain_death (domain now : N) : K Kernel () :=
  d ← on_machine (at_index m_domains domain);
  let generation := dom_generation d in
  endpoints ← machine m_endpoints;
  _ ← walk_endpoints (λ slot _, bool_decide (inv_origin_domain slot = domain) &&
                                bool_decide (inv_origin_domain_generation slot = generation))
        (abort_orphaned now) (indices endpoints) 0;
  invocations ← machine m_invocations;
  for_each (indices invocations) (invocation_on_death domain generation now);;
  on_machine (endpoints_on_death domain generation).

(** ** Faults *)

(** The message that reports a fault. *)
(** kernel/src/api/ipcops.rs:1813-1841 [deliver_fault, the request] *)
Definition fault_request (domain_id thread_id generation : N) (record : FaultRecord) : SendRequest :=
  let report := mkFaultReport domain_id thread_id generation (fr_vector record) (fr_error_code record)
    (fr_rip record) (fr_rsp record) (fr_cr2 record) 1 0 in
  mkSendRequest (N.of_nat FaultReport.SIZE) 0 [0; 0; 0; 0] [0; 0; 0; 0] (filled 256 (Bytes.cd_bytes FaultReport_codec report)).
(** kernel/src/api/ipcops.rs:1799-1880 [deliver_fault] *)
Definition deliver_fault (domain thread_ : N) (record : FaultRecord) (now receipt_ns : N) : K Kernel bool :=
  d ← on_machine (at_index m_domains domain);
  match dom_fault_endpoint d with
  | None => mret false
  | Some object =>
      m ← gets kn_machine;
      if negb (object_alive m object) then mret false else
      cell ← thread thread_;
      let ctx := mkCtx domain thread_ 0 op.ENDPOINT_SEND 0 0 now
        (mkResolved 0 object (dom_fault_grant d) right.ENDPOINT_SEND (dom_fault_facet d)) in
      admitted ← catch (admission ctx (fault_request (dom_id d) (th_id cell) (dom_generation d) record) message_kind.FAULT None
                          receipt_ns);
      mret (match admitted with inr _ => true | inl _ => false end)
  end.
