(* ===== verification/Hoare.v ===== *)
(** * What an operation keeps

    Partial correctness of kernel operations, panics allowed, and relations between the
    state before and after that every outcome keeps. *)

From S2P Require Import Prelude Abi Obj Objects Machine Thread.

(** [wlp m Q E s]: from [s], unless [m] panics, a returned value satisfies [Q] and a
    returned status [E], each with the state it leaves. *)
Definition wlp {S A} (m : K S A) (Q : A → S → Prop) (E : Z → S → Prop) (s : S) : Prop :=
  match m s with
  | Done a s' => Q a s'
  | Fail e s' => E e s'
  | Panic => True
  end.

Section wlp.
Context {S : Type}.
Implicit Types (s : S).

Lemma wlp_ret {A} (a : A) Q E s : Q a s → wlp (mret a) Q E s.
Proof. done. Qed.
Lemma wlp_err {A} code (Q : A → S → Prop) E s : E code s → wlp (err code) Q E s.
Proof. done. Qed.
Lemma wlp_panic {A} (Q : A → S → Prop) E s : wlp panic Q E s.
Proof. done. Qed.
Lemma wlp_bind {A B} (m : K S A) (k : A → K S B) Q E s :
  wlp m (λ a, wlp (k a) Q E) E s → wlp (m ≫= k) Q E s.
Proof. unfold wlp, mbind, K_bind. by destruct (m s). Qed.
Lemma wlp_gets {A} (f : S → A) Q E s : Q (f s) s → wlp (gets f) Q E s.
Proof. done. Qed.
Lemma wlp_modify f Q E s : Q () (f s) → wlp (modify f) Q E s.
Proof. done. Qed.
Lemma wlp_err_if b code Q E s :
  (b = true → E code s) → (b = false → Q () s) → wlp (err_if b code) Q E s.
Proof. destruct b; [intros H _; exact (H eq_refl)|intros _ H; exact (H eq_refl)]. Qed.
Lemma wlp_expect {A} (o : option A) Q E s : (∀ a, o = Some a → Q a s) → wlp (expect o) Q E s.
Proof. destruct o; [intros H; by apply H|done]. Qed.
Lemma wlp_ok_or {A} code (o : option A) Q E s :
  (∀ a, o = Some a → Q a s) → (o = None → E code s) → wlp (ok_or code o) Q E s.
Proof. destruct o as [a|]; intros H H'; [by apply H|by apply H']. Qed.
Lemma wlp_catch {A} (m : K S A) Q E s :
  wlp m (λ a, Q (inr a)) (λ e, Q (inl e)) s → wlp (catch m) Q E s.
Proof. unfold wlp, catch. by destruct (m s). Qed.
Lemma wlp_mono {A} (m : K S A) (Q Q' : A → S → Prop) (E E' : Z → S → Prop) s :
  wlp m Q E s → (∀ a s', Q a s' → Q' a s') → (∀ e s', E e s' → E' e s') → wlp m Q' E' s.
Proof. unfold wlp. destruct (m s); eauto. Qed.
Lemma wlp_and {A} (m : K S A) (Q Q' : A → S → Prop) (E E' : Z → S → Prop) s :
  wlp m Q E s → wlp m Q' E' s → wlp m (λ a s', Q a s' ∧ Q' a s') (λ e s', E e s' ∧ E' e s') s.
Proof. unfold wlp. by destruct (m s). Qed.
Lemma wlp_done {A} (m : K S A) Q E s a s' : wlp m Q E s → m s = Done a s' → Q a s'.
Proof. unfold wlp. intros H Hm. by rewrite Hm in H. Qed.
Lemma wlp_fail {A} (m : K S A) Q E s e s' : wlp m Q E s → m s = Fail e s' → E e s'.
Proof. unfold wlp. intros H Hm. by rewrite Hm in H. Qed.

(** ** Relations kept *)

(** Whatever [m] returns, the states before and after are related. *)
Definition keeps {A} (R : S → S → Prop) (m : K S A) : Prop := ∀ s, wlp m (λ _, R s) (λ _, R s) s.

Section keeps.
Context (R : S → S → Prop) `{!PreOrder R}.

Lemma keeps_ret {A} (a : A) : keeps R (mret a).
Proof. intros s. by apply wlp_ret. Qed.
Lemma keeps_err {A} code : keeps R (err code : K S A).
Proof. intros s. by apply wlp_err. Qed.
Lemma keeps_panic {A} : keeps R (panic : K S A).
Proof. done. Qed.
Lemma keeps_gets {A} (f : S → A) : keeps R (gets f).
Proof. intros s. by apply wlp_gets. Qed.
Lemma keeps_getk : keeps R getk.
Proof. intros s. by apply wlp_gets. Qed.
Lemma keeps_expect {A} (o : option A) : keeps R (expect o).
Proof. intros s. apply wlp_expect. by intros. Qed.
Lemma keeps_ok_or {A} code (o : option A) : keeps R (ok_or code o).
Proof. intros s. apply wlp_ok_or; by intros. Qed.
Lemma keeps_err_if b code : keeps R (err_if b code).
Proof. intros s. apply wlp_err_if; by intros. Qed.
Lemma keeps_modify f : (∀ s, R s (f s)) → keeps R (modify f).
Proof. intros Hf s. by apply wlp_modify. Qed.
Lemma keeps_bind {A B} (m : K S A) (k : A → K S B) :
  keeps R m → (∀ a, keeps R (k a)) → keeps R (m ≫= k).
Proof.
  intros Hm Hk s. apply wlp_bind. eapply wlp_mono; [apply Hm| |done].
  intros a s' Hs. eapply wlp_mono; [apply Hk|..]; intros ? s'' Hs'; exact (transitivity Hs Hs').
Qed.
Lemma keeps_catch {A} (m : K S A) : keeps R m → keeps R (catch m).
Proof. intros Hm s. apply wlp_catch, Hm. Qed.
Lemma keeps_for_each {A} (l : list A) body : (∀ x, keeps R (body x)) → keeps R (for_each l body).
Proof.
  intros Hb. induction l as [|x l IH]; [apply keeps_ret|]. apply keeps_bind; [apply Hb|by intros _].
Qed.

(** A kept relation joins the post-condition. *)
Lemma wlp_keeps {A} (m : K S A) (Q : A → S → Prop) (E : Z → S → Prop) s :
  keeps R m → (∀ a s', R s s' → Q a s') → (∀ e s', R s s' → E e s') → wlp m Q E s.
Proof. intros Hm HQ HE. eapply wlp_mono; [apply Hm|apply HQ|apply HE]. Qed.
End keeps.

Lemma keeps_mono {A} (R R' : S → S → Prop) (m : K S A) :
  (∀ s s', R s s' → R' s s') → keeps R m → keeps R' m.
Proof. intros HR Hm s. eapply wlp_mono; [apply Hm|intros; by apply HR..]. Qed.

(** The relation that a projection of the state stays as it is. *)
Definition same {T} (f : S → T) (s s' : S) : Prop := f s' = f s.
#[global] Instance same_preorder {T} (f : S → T) : PreOrder (same f).
Proof. split; [done|]. intros s1 s2 s3 H1 H2. unfold same in *. congruence. Qed.
End wlp.

(** Both of two relations. *)
Definition both {S} (R R' : S → S → Prop) (s s' : S) : Prop := R s s' ∧ R' s s'.
#[global] Instance both_preorder {S} (R R' : S → S → Prop) `{!PreOrder R, !PreOrder R'} : PreOrder (both R R').
Proof. split; [done|]. intros ??? [] []. split; by etrans. Qed.

(** [keeps]: the lemmas that say what an operation keeps, one per operation. [keep]
    takes an operation apart down to them. *)
Create HintDb keeps discriminated.
#[export] Hint Constants Opaque : keeps.
#[export] Hint Variables Opaque : keeps.
Ltac keep_step :=
  lazymatch goal with
  | |- keeps _ (mret _) => apply keeps_ret; apply _
  | |- keeps _ (err _) => apply keeps_err; apply _
  | |- keeps _ panic => apply keeps_panic
  | |- keeps _ (gets _) => apply keeps_gets; apply _
  | |- keeps _ getk => apply keeps_getk; apply _
  | |- keeps _ (expect _) => apply keeps_expect; apply _
  | |- keeps _ (ok_or _ _) => apply keeps_ok_or; apply _
  | |- keeps _ (err_if _ _) => apply keeps_err_if; apply _
  | |- keeps _ (mbind _ _) => apply keeps_bind; [apply _| |intros ?]
  | |- keeps _ (catch _) => apply keeps_catch; try apply _
  | |- keeps _ (for_each _ _) => apply keeps_for_each; [apply _|intros ?]
  | |- keeps _ (modify _) => apply keeps_modify; intros ?
  | |- keeps _ (match ?x with _ => _ end) => destruct x
  | |- keeps _ _ => solve [auto with keeps nocore typeclass_instances]
  end.
Ltac keep := repeat (cbv beta iota zeta; keep_step).

(** ** Operations on a part *)

Lemma wlp_at_index {A} (table : Machine → list A) i Q E m :
  (∀ x, table m !! i = Some x → Q x m) → wlp (at_index table i) Q E m.
Proof. intros H. apply wlp_bind, wlp_gets, wlp_expect, H. Qed.
Lemma wlp_run {A} (f : Machine → A * Machine) Q E m :
  Q (f m).1 (f m).2 → wlp (run f) Q E m.
Proof. unfold wlp, run. by destruct (f m). Qed.
Lemma wlp_on_scopes {A} f (Q : A → Machine → Prop) E m :
  Q (f (m_scopes m)).1 (m <| m_scopes := (f (m_scopes m)).2 |>) → wlp (on_scopes f) Q E m.
Proof. unfold wlp, on_scopes, zoom. by destruct (f (m_scopes m)). Qed.
Lemma keeps_at_index {A} (R : Machine → Machine → Prop) `{!PreOrder R} (table : Machine → list A) i :
  keeps R (at_index table i).
Proof. intros m. apply wlp_at_index. by intros. Qed.
#[export] Hint Resolve keeps_at_index : keeps.

Lemma wlp_on_machine {A} (m : K Machine A) Q E k :
  wlp m (λ a s, Q a (k <| kn_machine := s |>)) (λ e s, E e (k <| kn_machine := s |>)) (kn_machine k) →
  wlp (on_machine m) Q E k.
Proof. unfold wlp, on_machine. by destruct (m _). Qed.

Lemma with_own_machine k : k <| kn_machine := kn_machine k |> = k.
Proof. by destruct k. Qed.
Lemma wlp_read {A} (table : Machine → list A) i Q E k :
  (∀ x, table (kn_machine k) !! i = Some x → Q x k) → wlp (on_machine (at_index table i)) Q E k.
Proof. intros H. apply wlp_on_machine, wlp_at_index. intros x Hx. rewrite with_own_machine. by apply H. Qed.
Lemma wlp_change f Q E k : Q () (k <| kn_machine ::= f |>) → wlp (change f) Q E k.
Proof. done. Qed.
(** An operation of the machine of which only what it keeps matters. *)
Lemma wlp_beside {A} R (c : K Machine A) Q E k :
  keeps R c →
  (∀ a m, R (kn_machine k) m → Q a (k <| kn_machine := m |>)) →
  (∀ e m, R (kn_machine k) m → E e (k <| kn_machine := m |>)) → wlp (on_machine c) Q E k.
Proof. intros Hc HQ HE. apply wlp_on_machine. eapply wlp_mono; [apply Hc|apply HQ|apply HE]. Qed.

(** The machine of a kernel state, and the rest as it was. *)
Definition lift (R : Machine → Machine → Prop) (k k' : Kernel) : Prop := R (kn_machine k) (kn_machine k').
#[global] Instance lift_preorder R `{!PreOrder R} : PreOrder (lift R).
Proof.
  split; [intros k; unfold lift; reflexivity|]. unfold lift. intros k1 k2 k3 H1 H2. exact (transitivity H1 H2).
Qed.

Lemma keeps_on_machine {A} R `{!PreOrder R} (m : K Machine A) : keeps R m → keeps (lift R) (on_machine m).
Proof. intros Hm k. apply wlp_on_machine. eapply wlp_mono; [apply Hm|done..]. Qed.
#[export] Hint Resolve keeps_on_machine : keeps.

(** ** Operations that return no status *)

Definition unfailing {S A} (m : K S A) : Prop := ∀ s, wlp m (λ _ _, True) (λ _ _, False) s.

Section unfailing.
Context {S : Type}.

Lemma unfailing_bind {A B} (m : K S A) (k : A → K S B) :
  unfailing m → (∀ a, unfailing (k a)) → unfailing (m ≫= k).
Proof.
  intros Hm Hk s. apply wlp_bind. eapply wlp_mono; [apply Hm|intros a s' _; apply Hk|done].
Qed.
Lemma unfailing_catch {A} (m : K S A) : unfailing (catch m).
Proof. intros s. unfold wlp, catch. by destruct (m s). Qed.
Lemma unfailing_expect {A} (o : option A) : unfailing (expect o : K S A).
Proof. intros s. by destruct o. Qed.
Lemma unfailing_for_each {A} (l : list A) (body : A → K S ()) :
  (∀ x, unfailing (body x)) → unfailing (for_each l body).
Proof. intros Hb. induction l as [|x l IH]; [done|]. apply unfailing_bind; [apply Hb|by intros _]. Qed.

(** What an operation that returns no status keeps. *)
Lemma wlp_unfailing {A} R (m : K S A) (Q : A → S → Prop) E s :
  keeps R m → unfailing m → (∀ a s', R s s' → Q a s') → wlp m Q E s.
Proof.
  intros Hk Hu HQ. eapply wlp_mono; [apply wlp_and; [apply Hk|apply Hu]|..]; [intros a s' [? _]; by apply HQ|].
  by intros e s' [_ []].
Qed.
End unfailing.

Create HintDb unfailing discriminated.
#[export] Hint Constants Opaque : unfailing.
#[export] Hint Variables Opaque : unfailing.
Ltac smooth_step :=
  lazymatch goal with
  | |- unfailing (mret _) => done
  | |- unfailing panic => done
  | |- unfailing (gets _) => done
  | |- unfailing getk => done
  | |- unfailing (expect _) => apply unfailing_expect
  | |- unfailing (modify _) => done
  | |- unfailing (catch _) => apply unfailing_catch
  | |- unfailing (mbind _ _) => apply unfailing_bind; [|intros ?]
  | |- unfailing (for_each _ _) => apply unfailing_for_each; intros ?
  | |- unfailing (match ?x with _ => _ end) => destruct x
  | |- unfailing _ => solve [auto with unfailing nocore]
  end.
Ltac smooth := repeat (cbv beta iota zeta; smooth_step).

Lemma unfailing_at_index {A} (table : Machine → list A) i : unfailing (at_index table i).
Proof. intros m. apply wlp_at_index. done. Qed.
Lemma unfailing_on_machine {A} (c : K Machine A) : unfailing c → unfailing (on_machine c).
Proof. intros Hc k. apply wlp_on_machine. eapply wlp_mono; [apply Hc|done..]. Qed.
Lemma unfailing_change f : unfailing (change f).
Proof. done. Qed.
#[export] Hint Resolve unfailing_at_index unfailing_on_machine unfailing_change : unfailing.

(** ** Operations that only read *)

Lemma wlp_pure {A} (c : K Machine A) Q E k :
  keeps eq c → (∀ a, c (kn_machine k) = Done a (kn_machine k) → Q a k) → (∀ e, E e k) → wlp (on_machine c) Q E k.
Proof.
  intros Hc HQ HE. apply wlp_on_machine. specialize (Hc (kn_machine k)). unfold wlp in Hc |- *.
  destruct (c (kn_machine k)) as [a m|e m|]; [|subst m; rewrite with_own_machine; apply HE|done].
  subst m. rewrite with_own_machine. by apply HQ.
Qed.

(** What a handle resolves to is alive and of the type asked. *)
Lemma wlp_resolve domain handle type rights now m :
  wlp (resolve domain handle type rights now)
    (λ cap m', m' = m ∧ object_alive m (rs_object cap) = true ∧
               (type ≠ object_type.NONE → abi_type (obj_kind (rs_object cap)) = type)) (λ _ m', m' = m) m.
Proof.
  unfold resolve, resolve_entry. apply wlp_bind, wlp_at_index. intros d _.
  apply wlp_bind, wlp_ok_or; [intros entry _|done].
  apply wlp_bind, wlp_err_if; [done|intros Htype]. apply wlp_bind, wlp_gets.
  apply wlp_bind, wlp_ok_or; [intros node _|done].
  apply wlp_bind, wlp_err_if; [done|intros _].
  apply wlp_bind, wlp_err_if; [done|intros _].
  apply wlp_bind, wlp_err_if; [done|intros _].
  apply wlp_bind, wlp_err_if; [done|intros Halive]. apply wlp_ret. split; [done|].
  split; [by apply negb_false_iff|]. intros Hne. apply andb_false_iff in Htype.
  destruct Htype as [H|H]; apply negb_false_iff in H; by apply bool_decide_eq_true in H.
Qed.
