(* ===== verification/IpcFrames.v ===== *)
(** * What the channel operations leave alone

    The capability operations a channel uses write neither a queue nor a message, free
    no invocation record but whole, and touch neither the queue bytes of any scope nor a
    reserved receipt. The operations on threads, receipts and obligations keep every
    queue. *)

From S2P Require Import Prelude Abi AbiWire Obj Scope ScopeProofs Ctrl Frame Objects Machine AuthorityOps Thread Hoare Ipc.

#[local] Open Scope N_scope.

(** ** What queues are made of *)

(** The fields of a channel that say what is queued on it. *)
Definition link_fields (e : Endpoint) : N * N * N * N :=
  (ep_head e, ep_tail e, ep_queued e, ep_reserved_used e).
Definition lists (m : Machine) : list (N * N * N * N) * list Message * N :=
  (link_fields <$> m_endpoints m, m_messages m, m_message_free m).

(** What each scope is charged for queue bytes, and the tree. *)
Definition bytes (t : Scopes) : list (ScopeId * N) :=
  (λ n, (sc_parent n, account QueueBytes n)) <$> scopes t.

(** Invocation records that wane: none becomes admitted, none changes its origin. *)
Definition fades (l l' : list Invocation) : Prop :=
  ∀ i x', l' !! i = Some x' → ∃ x, l !! i = Some x ∧
    (inv_state x' = ipc.Admitted_ → inv_state x = ipc.Admitted_) ∧ inv_origin_scope x' = inv_origin_scope x ∧
    inv_origin_domain x' = inv_origin_domain x ∧ inv_origin_domain_generation x' = inv_origin_domain_generation x.
#[global] Instance fades_preorder : PreOrder fades.
Proof.
  split; [intros l i x Hx; by exists x|]. intros l1 l2 l3 H1 H2 i x3 H3.
  destruct (H2 i x3 H3) as (x2 & Hx2 & A2 & S2 & D2 & G2). destruct (H1 i x2 Hx2) as (x1 & Hx1 & A1 & S1 & D1 & G1).
  exists x1. split; [done|]. split; [auto|]. split_and!; congruence.
Qed.

Lemma fades_alter f i l :
  (∀ x, (inv_state (f x) = ipc.Admitted_ → inv_state x = ipc.Admitted_) ∧ inv_origin_scope (f x) = inv_origin_scope x ∧
    inv_origin_domain (f x) = inv_origin_domain x ∧ inv_origin_domain_generation (f x) = inv_origin_domain_generation x) →
  fades l (alter f i l).
Proof.
  intros Hf j x'. rewrite table_alter. case_decide; [|intros Hx; by exists x'].
  intros (x & Hx & ->)%fmap_Some. by exists x.
Qed.

(** Which channels are in use. *)
Definition used (m : Machine) : list bool := ei_used <$> m_endpoint_ids m.

(** What a capability operation leaves alone. *)
Record aside (m m' : Machine) : Prop := {
  as_endpoints : m_endpoints m' = m_endpoints m;
  as_messages : m_messages m' = m_messages m;
  as_free : m_message_free m' = m_message_free m;
  as_records i : N.testbit (m_invocation_free m) i = true → N.testbit (m_invocation_free m') i = true;
  as_bytes : bytes (m_scopes m') = bytes (m_scopes m);
  as_cells : cl_pending_reservations <$> m_logs m' = cl_pending_reservations <$> m_logs m;
  as_system : m_system_log m' = m_system_log m;
  as_fades : fades (m_invocations m) (m_invocations m');
  as_used : used m' = used m
}.
#[global] Instance aside_preorder : PreOrder aside.
Proof. split; [by split|]. intros m1 m2 m3 [] []. split; try congruence; [auto|by etrans]. Qed.

Lemma aside_lists m m' : aside m m' → same lists m m'.
Proof. intros []. unfold same, lists. congruence. Qed.

(** ** Scopes *)

Lemma fmap_insert_same {A B} (h : A → B) (l : list A) (i : N) (x y : A) :
  l !! i = Some y → h x = h y → h <$> <[i := x]> l = h <$> l.
Proof.
  intros Hy Hx. apply table_eq. intros j. rewrite !table_fmap, table_insert.
  case_decide as Hj; [destruct Hj as [<- _]|done]. rewrite Hy. cbn. by rewrite Hx.
Qed.

Lemma fmap_for_nodes {B} (h : Scope.Scope → B) f nodes tbl :
  (∀ n, h (f n) = h n) → h <$> for_nodes f nodes tbl = h <$> tbl.
Proof.
  intros Hf. unfold for_nodes. revert tbl. induction nodes as [|i nodes IH]; intros tbl; [done|].
  cbn [foldl]. rewrite IH. by apply fmap_alter_same.
Qed.

Lemma fmap_charge_chain {B} (h : Scope.Scope → B) charge nodes : ∀ tbl,
  (∀ n, h (charge n).2 = h n) → h <$> (charge_chain charge nodes tbl).2 = h <$> tbl.
Proof.
  induction nodes as [|i nodes IH]; intros tbl Hc; [done|]. cbn [charge_chain].
  destruct (tbl !! i) as [node|] eqn:Hi; [|done]. pose proof (Hc node) as Hn.
  destruct (charge node) as [refused node']. cbn [snd] in Hn.
  pose proof (fmap_insert_same h tbl i node' node Hi Hn) as Hins.
  destruct refused; [done|]. specialize (IH (<[i := node']> tbl) Hc).
  destruct (charge_chain charge nodes _) as [[? ?] ?]. cbn [snd] in *. by rewrite IH.
Qed.

Lemma bytes_set_account r f n :
  r ≠ QueueBytes →
  (sc_parent (set_account r f n), account QueueBytes (set_account r f n)) = (sc_parent n, account QueueBytes n).
Proof. by destruct r. Qed.

Lemma bytes_release s r a t : r ≠ QueueBytes → bytes (Scope.release s r a t) = bytes t.
Proof. intros Hr. apply fmap_for_nodes. intros n. by apply bytes_set_account. Qed.

Lemma bytes_reserve s r a t : r ≠ QueueBytes → bytes (Scope.reserve s r a t).2 = bytes t.
Proof.
  intros Hr. unfold Scope.reserve, bytes. set (h := λ n, (sc_parent n, account QueueBytes n)).
  pose proof (fmap_charge_chain h (reserve_level r a) (chain_of (scopes t) s) (scopes t)) as H.
  destruct (charge_chain _ _ _) as [[done refused] tbl]. cbn [snd] in H.
  assert (h <$> tbl = h <$> scopes t) as Ht.
  { apply H. intros n. unfold reserve_level. destruct (negb _); [done|].
    destruct (bounded_add _ _ _). by apply bytes_set_account. }
  destruct refused; cbn [snd]; [|exact Ht]. rewrite <-Ht. apply fmap_for_nodes.
  intros n. by apply bytes_set_account.
Qed.

Lemma bytes_on_scope s f t :
  (∀ n, sc_parent (f n) = sc_parent n ∧ account QueueBytes (f n) = account QueueBytes n) →
  bytes (on_scope s f t) = bytes t.
Proof. intros Hf. apply fmap_alter_same. intros n. destruct (Hf n). congruence. Qed.

(** ** The capability operations *)

Lemma aside_scopes m f : bytes (f (m_scopes m)) = bytes (m_scopes m) → aside m (m <| m_scopes ::= f |>).
Proof. by split. Qed.

Lemma aside_logs m f :
  cl_pending_reservations <$> f (m_logs m) = cl_pending_reservations <$> m_logs m → aside m (m <| m_logs ::= f |>).
Proof. by split. Qed.
(** Nothing it speaks of is written. *)
Ltac aside_step := split; intros; first [assumption | reflexivity | by apply fades_alter].

Lemma keeps_reserve owner : keeps aside (on_scopes (Scope.reserve owner Metadata 1)).
Proof.
  intros m. apply wlp_on_scopes.
  exact (aside_scopes m (λ t, (Scope.reserve owner Metadata 1 t).2) (bytes_reserve owner Metadata 1 _ ltac:(done))).
Qed.
Lemma keeps_release_metadata owner : keeps aside (release_metadata owner).
Proof.
  apply keeps_modify. intros m. exact (aside_scopes m (Scope.release owner Metadata 1) (bytes_release owner Metadata 1 (m_scopes m) ltac:(done))).
Qed.

Lemma testbit_set_mono w k i : N.testbit w i = true → N.testbit (N.lor w (N.shiftl 1 k)) i = true.
Proof. rewrite testbit_set. intros ->. apply orb_true_r. Qed.
#[export] Hint Resolve keeps_reserve keeps_release_metadata : keeps.

Lemma keeps_adjust o delta : keeps aside (adjust_object_refs o delta).
Proof.
  unfold adjust_object_refs. destruct (obj_kind o); keep.
  1: apply (aside_scopes _ (on_scope _ _)), bytes_on_scope; intros n; split; reflexivity.
  3: split; intros; first [assumption|reflexivity|by apply fmap_alter_same].
  3: split; intros; first [assumption|reflexivity|by apply fades_alter].
  5: apply aside_logs, fmap_alter_same; reflexivity.
  all: aside_step.
Qed.

Lemma keeps_collect_invocation i : keeps aside (collect_invocation i).
Proof.
  unfold collect_invocation. keep. split; try reflexivity; cbn -[alter].
  - intros. by apply testbit_set_mono.
  - by apply fades_alter.
Qed.

Lemma keeps_collect_from steps g : keeps aside (collect_from steps g).
Proof.
  revert g. induction steps as [|steps IH]; intros g; [apply keeps_ret, _|].
  cbn [collect_from]. keep; aside_step.
Qed.
Lemma keeps_collect_grant g : keeps aside (collect_grant g).
Proof. apply keeps_collect_from. Qed.
#[export] Hint Resolve keeps_adjust keeps_collect_invocation keeps_collect_grant : keeps.

Lemma keeps_next_id : keeps aside (run next_id).
Proof. intros m. apply wlp_run. unfold next_id. case_decide; aside_step. Qed.
#[export] Hint Resolve keeps_next_id : keeps.

Lemma keeps_grant_alloc sponsor parent object rights deadline life facet :
  keeps aside (grant_alloc sponsor parent object rights deadline life facet).
Proof. unfold grant_alloc. keep; aside_step. Qed.

Lemma keeps_cap_install domain object grant slot : keeps aside (cap_install domain object grant slot).
Proof.
  unfold cap_install. apply keeps_bind; [apply _|keep|intros d].
  apply keeps_bind; [apply _|keep|intros ok]. destruct (negb ok); [keep|].
  destruct (match slot with Some _ => _ | None => _ end) as [handle caps]. keep; aside_step.
Qed.

Lemma keeps_release_entry domain entry : keeps aside (release_entry domain entry).
Proof. unfold release_entry. keep; try aside_step. unfold defer_memory. case_decide; aside_step. Qed.
#[export] Hint Resolve keeps_grant_alloc keeps_cap_install keeps_release_entry : keeps.

Lemma keeps_release_slot domain slot : keeps aside (cap_release_slot domain slot).
Proof.
  unfold cap_release_slot, release_with. apply keeps_bind; [apply _|keep|intros d].
  destruct (CapTable.release_slot slot (dom_caps d)) as [[entry|] caps]; keep; aside_step.
Qed.
#[export] Hint Resolve keeps_release_slot : keeps.

(** A resolution reads. *)
Lemma keeps_resolve domain handle type rights now : keeps eq (resolve domain handle type rights now).
Proof. unfold resolve, resolve_entry. keep. Qed.
Lemma keeps_eq {S A} (R : S → S → Prop) `{!PreOrder R} (m : K S A) : keeps eq m → keeps R m.
Proof. apply keeps_mono. by intros s ? <-. Qed.

(** ** Receipts, tickets, obligations *)

Lemma keeps_aside_lists {A} (c : K Machine A) : keeps aside c → keeps (same lists) c.
Proof. apply keeps_mono, aside_lists. Qed.

#[export] Hint Extern 2 (keeps (same lists) _) =>
  apply keeps_aside_lists; solve [auto with keeps nocore typeclass_instances] : keeps.

Lemma keeps_reserve_receipt : keeps (same lists) reserve_receipt.
Proof.
  unfold reserve_receipt. keep. reflexivity.
Qed.
Lemma keeps_release_receipt : keeps (same lists) release_receipt.
Proof. unfold release_receipt. keep. reflexivity. Qed.
Lemma keeps_receipt now kind domain scope object grant parent result a b reserved :
  keeps (same lists) (receipt now kind domain scope object grant parent result a b reserved).
Proof.
  unfold receipt. keep; reflexivity.
Qed.

Lemma keeps_issue_ticket receiver invocation : keeps aside (issue_ticket receiver invocation).
Proof. unfold issue_ticket. keep; aside_step. Qed.
Lemma keeps_release_caps receiver caps : keeps aside (release_caps receiver caps).
Proof. unfold release_caps. keep. Qed.
#[export] Hint Resolve keeps_reserve_receipt keeps_release_receipt keeps_receipt keeps_issue_ticket
  keeps_release_caps : keeps.

Lemma keeps_release_invocation index now : keeps (same lists) (release_invocation index now).
Proof.
  unfold release_invocation. keep; reflexivity.
Qed.
#[export] Hint Resolve keeps_release_invocation : keeps.

(** ** Threads *)

(** Operations on threads leave the machine as it is. *)
Lemma keeps_thread i : keeps (same kn_machine) (thread i).
Proof. unfold thread. keep. Qed.
Lemma keeps_on_thread i f : keeps (same kn_machine) (on_thread i f).
Proof. unfold on_thread. keep. reflexivity. Qed.
#[export] Hint Resolve keeps_thread keeps_on_thread : keeps.
Lemma keeps_claim index matches code aux : keeps (same kn_machine) (claim_handoff index matches code aux).
Proof. unfold claim_handoff. keep. Qed.
Lemma keeps_set_wake_aux index aux : keeps (same kn_machine) (set_wake_aux index aux).
Proof. unfold set_wake_aux. keep. Qed.
Lemma keeps_wake index : keeps (same kn_machine) (wake index).
Proof. unfold wake. keep. Qed.
#[export] Hint Resolve keeps_claim keeps_set_wake_aux keeps_wake : keeps.
Lemma keeps_defer_wake index hint : keeps (same kn_machine) (defer_wake index hint).
Proof. unfold defer_wake. keep. reflexivity. Qed.
Lemma keeps_flush_wakes : keeps (same kn_machine) flush_wakes.
Proof. unfold flush_wakes. keep. reflexivity. Qed.
#[export] Hint Resolve keeps_defer_wake keeps_flush_wakes : keeps.
Lemma keeps_defer_wake_if index matches code aux hint :
  keeps (same kn_machine) (defer_wake_if index matches code aux hint).
Proof. unfold defer_wake_if. keep. Qed.
Lemma keeps_prepare_wait index wait deadline offer :
  keeps (same kn_machine) (prepare_wait_offering index wait deadline offer).
Proof. unfold prepare_wait_offering. keep. Qed.
Lemma keeps_take_wake_status index : keeps (same kn_machine) (take_wake_status index).
Proof. unfold take_wake_status. keep. Qed.
#[export] Hint Resolve keeps_defer_wake_if keeps_prepare_wait keeps_take_wake_status : keeps.

Lemma keeps_on_machine_eq {A} (c : K Machine A) : keeps eq c → keeps (same kn_machine) (on_machine c).
Proof.
  intros Hc. eapply keeps_mono; [|apply (keeps_on_machine eq), Hc]. intros k k' Hk. symmetry. exact Hk.
Qed.
#[export] Hint Extern 2 (keeps (same kn_machine) (on_machine _)) =>
  apply keeps_on_machine_eq; solve [auto with keeps nocore typeclass_instances] : keeps.

Lemma keeps_carried_rights caps : ∀ rights, keeps eq (carried_rights caps rights).
Proof. induction caps as [|c caps IH]; intros rights; cbn [carried_rights]; keep. Qed.
#[export] Hint Resolve keeps_carried_rights : keeps.
Lemma keeps_lay_out_receive buffer record kind payload caps :
  keeps (same kn_machine) (lay_out_receive buffer record kind payload caps).
Proof. unfold lay_out_receive. keep. Qed.
Lemma keeps_lay_out_reply buffer payload handles result id :
  keeps (same kn_machine) (lay_out_reply buffer payload handles result id).
Proof. unfold lay_out_reply. keep. Qed.
#[export] Hint Resolve keeps_lay_out_receive keeps_lay_out_reply : keeps.

Lemma keeps_threads {A} R `{!PreOrder R} (c : K Kernel A) : keeps (same kn_machine) c → keeps (lift R) c.
Proof. apply keeps_mono. intros k k' Hk. unfold same in Hk. unfold lift. rewrite Hk. reflexivity. Qed.
#[export] Hint Extern 3 (keeps (lift _) _) =>
  apply keeps_threads; [apply _|solve [auto with keeps nocore typeclass_instances]] : keeps.

Lemma keeps_wake_waiter invocation code hint : keeps (same kn_machine) (wake_waiter invocation code hint).
Proof. unfold wake_waiter. keep. Qed.
Lemma keeps_change R `{!PreOrder R} f : (∀ m, R m (f m)) → keeps (lift R) (change f).
Proof. intros Hf. unfold change. keep. apply Hf. Qed.
#[export] Hint Resolve keeps_wake_waiter : keeps.
