(* ===== verification/IpcQueue.v ===== *)
(** * The queue of a channel

    A channel's queue is a list linked through the message table. Here the link
    structure is related to the sequence of messages it stands for, and the three writes
    the kernel makes to it -- behind the tail, at the head, anywhere -- to what they do
    to that sequence. *)

From S2P Require Import Prelude Abi AbiWire Obj Scope Ctrl Frame Objects Machine Thread Hoare Ipc IpcFrames.

#[local] Open Scope N_scope.

(** ** Segments *)

(** From [head], the links run through the messages [l] and end at [stop]. *)
Fixpoint segment (ms : list Message) (head : N) (l : list N) (stop : N) : Prop :=
  match l with
  | [] => head = stop
  | i :: l => head = i ∧ i ≠ NO_MESSAGE ∧ ∃ x, ms !! i = Some x ∧ segment ms (msg_next x) l stop
  end.

(** What a queue reads of a message of the table. *)
Definition link (ms : list Message) (i : N) : option (N * bool) :=
  (λ x, (msg_next x, msg_reserved_cell x)) <$> ms !! i.

Lemma segment_ext ms ms' h l s :
  (∀ i, i ∈ l → link ms' i = link ms i) → segment ms h l s → segment ms' h l s.
Proof.
  revert h. induction l as [|i l IH]; intros h Hms; [done|]. intros (-> & Hi & x & Hx & Hl).
  split; [done|]. split; [done|]. pose proof (Hms i ltac:(left)) as Hlink. unfold link in Hlink.
  rewrite Hx in Hlink. destruct (ms' !! i) as [y|]; [|done]. injection Hlink as Hn _.
  exists y. split; [done|]. rewrite Hn. apply IH; [|done]. intros j Hj. apply Hms. by right.
Qed.

Lemma segment_app ms h l1 l2 s :
  segment ms h (l1 ++ l2) s ↔ ∃ mid, segment ms h l1 mid ∧ segment ms mid l2 s.
Proof.
  revert h. induction l1 as [|i l1 IH]; intros h; cbn [app segment].
  - split; [by eexists|]. by intros (? & -> & ?).
  - split.
    + intros (-> & Hi & x & Hx & (mid & H1 & H2)%IH). exists mid. split; [|done].
      split; [done|]. split; [done|]. by exists x.
    + intros (mid & (-> & Hi & x & Hx & H1) & H2). split; [done|]. split; [done|].
      exists x. split; [done|]. apply IH. by exists mid.
Qed.

Lemma segment_elem ms h l s i : segment ms h l s → i ∈ l → i ≠ NO_MESSAGE ∧ is_Some (ms !! i).
Proof.
  revert h. induction l as [|j l IH]; intros h; [by intros _ ?%not_elem_of_nil|].
  intros (-> & Hj & x & Hx & Hl) [->|Hi]%elem_of_cons; [by split; [|exists x]|]. by eapply IH.
Qed.

Lemma segment_head ms h l s : segment ms h l s → h = from_option id s (head l).
Proof. destruct l; [done|]. by intros [-> _]. Qed.

Lemma link_alter_ne ms f i j : i ≠ j → link (alter f i ms) j = link ms j.
Proof. intros. unfold link. by rewrite table_alter_ne. Qed.
Lemma link_alter ms f i j :
  (∀ x, (msg_next (f x), msg_reserved_cell (f x)) = (msg_next x, msg_reserved_cell x)) →
  link (alter f i ms) j = link ms j.
Proof.
  intros Hf. unfold link. rewrite table_alter. case_decide; [|done].
  destruct (ms !! j) as [x|]; [|done]. cbn. by rewrite Hf.
Qed.

(** The last message is linked elsewhere. *)
Definition relink (n : N) (x : Message) : Message := x <| msg_next := n |>.

Lemma segment_redirect ms h l p s s' :
  p ∉ l → segment ms h (l ++ [p]) s → segment (alter (relink s') p ms) h (l ++ [p]) s'.
Proof.
  intros Hp (mid & H1 & (-> & Hn & x & Hx & _))%segment_app. apply segment_app. exists p. split.
  - eapply segment_ext; [|done]. intros i Hi. apply link_alter_ne. by intros ->.
  - split; [done|]. split; [done|]. exists (relink s' x). split; [|done].
    by rewrite table_alter_eq, Hx.
Qed.

(** The sequence is determined by the links. *)
Lemma segment_unique ms h l l' :
  segment ms h l NO_MESSAGE → segment ms h l' NO_MESSAGE → l = l'.
Proof.
  revert h l'. induction l as [|i l IH]; intros h [|i' l']; [done|..].
  - by intros -> (<- & ? & _).
  - by intros (-> & ? & _) [=].
  - intros (-> & _ & x & Hx & Hl) (<- & _ & x' & Hx' & Hl'). f_equal.
    apply (IH (msg_next x)); [done|]. by replace (msg_next x) with (msg_next x') by congruence.
Qed.

(** ** A channel *)

Definition is_reserved (ms : list Message) (i : N) : bool := from_option msg_reserved_cell false (ms !! i).
Definition reserved_count (ms : list Message) (l : list N) : N := tlen (filter (is_reserved ms) l).

(** The channel [ch] queues the messages [l], in that order. *)
Record queues (ms : list Message) (ch : Endpoint) (l : list N) : Prop := {
  qu_links : segment ms (ep_head ch) l NO_MESSAGE;
  qu_tail : ep_tail ch = default NO_MESSAGE (last l);
  qu_count : ep_queued ch = tlen l;
  qu_reserved : ep_reserved_used ch = reserved_count ms l;
  qu_NoDup : NoDup l
}.

Lemma is_reserved_link ms ms' i : link ms' i = link ms i → is_reserved ms' i = is_reserved ms i.
Proof. unfold link, is_reserved. by destruct (ms !! i), (ms' !! i); intros [=]. Qed.

Lemma reserved_count_ext ms ms' l :
  (∀ i, i ∈ l → link ms' i = link ms i) → reserved_count ms' l = reserved_count ms l.
Proof.
  intros H. unfold reserved_count. f_equal. apply filter_agree. intros i Hi. by apply is_reserved_link, H.
Qed.

Lemma queues_ext ms ms' ch ch' l :
  (∀ i, i ∈ l → link ms' i = link ms i) → link_fields ch' = link_fields ch →
  queues ms ch l → queues ms' ch' l.
Proof.
  intros Hl [= Hh Ht Hq Hr] [Qs Qt Qc Qr Qn]. split; try congruence.
  - rewrite Hh. by apply (segment_ext ms).
  - rewrite Hr, Qr. symmetry. by apply reserved_count_ext.
Qed.

Lemma tlen_cons {A} (x : A) l : tlen (x :: l) = tlen l + 1.
Proof. unfold tlen. cbn [length]. lia. Qed.
Lemma reserved_count_app ms l1 l2 : reserved_count ms (l1 ++ l2) = reserved_count ms l1 + reserved_count ms l2.
Proof. unfold reserved_count. by rewrite filter_app, tlen_app. Qed.
Lemma reserved_count_cons ms i x l :
  ms !! i = Some x → reserved_count ms (i :: l) = reserved_count ms l + (if msg_reserved_cell x then 1 else 0).
Proof.
  intros Hx. unfold reserved_count. rewrite filter_cons.
  assert (is_reserved ms i = msg_reserved_cell x) as Hi by (unfold is_reserved; by rewrite Hx).
  destruct (msg_reserved_cell x).
  - rewrite decide_True by by rewrite Hi. apply tlen_cons.
  - rewrite decide_False by (rewrite Hi; by intros []). lia.
Qed.

Lemma last_not_none ms h l : segment ms h l NO_MESSAGE → default NO_MESSAGE (last l) = NO_MESSAGE → l = [].
Proof.
  intros Hs Ht. destruct l as [|i l _] using rev_ind; [done|]. rewrite last_snoc in Ht. cbn in Ht.
  by destruct (segment_elem _ _ _ _ i Hs ltac:(apply elem_of_app; right; left)).
Qed.

(** *** Behind the tail *)

Definition push_links (ms : list Message) (tail i : N) : list Message :=
  if decide (tail = NO_MESSAGE) then ms else alter (relink i) tail ms.
Definition push_channel (i : N) (reserved : bool) (ch : Endpoint) : Endpoint :=
  ch <| ep_head := if decide (ep_tail ch = NO_MESSAGE) then i else ep_head ch |>
     <| ep_tail := i |> <| ep_queued ::= N.succ |>
     <| ep_reserved_used ::= λ n, if reserved then n + 1 else n |>.

Lemma push_links_ne ms tail i j : tail ≠ j → link (push_links ms tail i) j = link ms j.
Proof. intros. unfold push_links. case_decide; [done|by apply link_alter_ne]. Qed.

Lemma queues_push ms ch l i x :
  queues ms ch l → i ∉ l → i ≠ NO_MESSAGE → ms !! i = Some x → msg_next x = NO_MESSAGE →
  queues (push_links ms (ep_tail ch) i) (push_channel i (msg_reserved_cell x) ch) (l ++ [i]).
Proof.
  intros [Qs Qt Qc Qr Qn] Hi Hne Hx Hnext. unfold push_links.
  assert (Hlast : ∀ ms', ms' !! i = Some x → segment ms' i [i] NO_MESSAGE).
  { intros ms' Hx'. split; [done|]. split; [done|]. by exists x. }
  assert (Hcount : ∀ ms', ms' !! i = Some x → (∀ j, j ∈ l → is_reserved ms' j = is_reserved ms j) →
    reserved_count ms' (l ++ [i]) = reserved_count ms l + (if msg_reserved_cell x then 1 else 0)).
  { intros ms' Hx' Hl. rewrite reserved_count_app, (reserved_count_cons _ _ x) by done.
    change (reserved_count ms' []) with 0. assert (reserved_count ms' l = reserved_count ms l) as ->; [|lia].
    unfold reserved_count. f_equal. by apply filter_agree. }
  destruct l as [|p l _] using rev_ind.
  - cbn in Qt, Qs. rewrite decide_True by done. split; cbn -[tlen].
    + rewrite decide_True by done. by apply Hlast.
    + done.
    + rewrite Qc. done.
    + change [i] with ([] ++ [i]). rewrite Qr, (Hcount ms) by done.
      change (reserved_count ms []) with 0. by destruct (msg_reserved_cell x).
    + apply NoDup_singleton.
  - rewrite last_snoc in Qt. cbn in Qt. apply NoDup_app in Qn as (Qn & Qp & _).
    destruct (segment_elem _ _ _ _ p Qs) as [Hp [y Hy]]; [apply elem_of_app; right; left|].
    assert (p ≠ i) as Hpi by (intros ->; apply Hi, elem_of_app; right; left).
    rewrite Qt, decide_False by done.
    assert (alter (relink i) p ms !! i = Some x) as Hx' by by rewrite table_alter_ne.
    split; cbn -[tlen].
    + rewrite Qt, decide_False by done. apply segment_app. exists i. split; [|by apply Hlast].
      apply (segment_redirect _ _ _ _ NO_MESSAGE); [|done].
      intros H. by apply (Qp p H), list_elem_of_singleton.
    + by rewrite last_snoc.
    + rewrite Qc, (tlen_app (l ++ [p])). unfold tlen. cbn. lia.
    + rewrite Qr, Hcount; [by destruct (msg_reserved_cell x); lia|done|].
      intros j _. unfold is_reserved. rewrite table_alter. case_decide; [|done]. by destruct (ms !! j).
    + apply NoDup_app. split; [|split; [|apply NoDup_singleton]].
      * apply NoDup_app. split; [done|]. split; [done|]. apply NoDup_singleton.
      * by intros j Hj ->%list_elem_of_singleton.
Qed.

(** *** At the head *)

Lemma queues_pop ms ch l i x ch' :
  queues ms ch (i :: l) → ms !! i = Some x →
  ep_head ch' = msg_next x →
  ep_tail ch' = (if decide (msg_next x = NO_MESSAGE) then NO_MESSAGE else ep_tail ch) →
  ep_queued ch' = ep_queued ch - 1 →
  ep_reserved_used ch' = ep_reserved_used ch - (if msg_reserved_cell x then 1 else 0) →
  queues ms ch' l.
Proof.
  intros [Qs Qt Qc Qr Qn] Hx Hh Ht Hq Hr. destruct Qs as (_ & _ & y & Hy & Qs).
  replace y with x in Qs by congruence. apply NoDup_cons in Qn as [_ Qn]. split.
  - by rewrite Hh.
  - rewrite Ht. apply segment_head in Qs as Hn. destruct l as [|j l].
    + by rewrite decide_True.
    + rewrite Hn. cbn [head from_option id]. destruct (segment_elem _ _ _ _ j Qs ltac:(left)) as [Hj _].
      rewrite decide_False by done. by rewrite Qt.
  - rewrite Hq, Qc, tlen_cons. lia.
  - rewrite Hr, Qr, (reserved_count_cons _ _ x) by done. destruct (msg_reserved_cell x); lia.
  - done.
Qed.

(** *** Anywhere *)

Definition cut_links (ms : list Message) (previous next : N) : list Message :=
  if decide (previous = NO_MESSAGE) then ms else alter (relink next) previous ms.

Lemma link_relink_ne ms n p j : p ≠ j → link (alter (relink n) p ms) j = link ms j.
Proof. apply link_alter_ne. Qed.

Lemma is_reserved_relink ms n p j : is_reserved (alter (relink n) p ms) j = is_reserved ms j.
Proof. unfold is_reserved. rewrite table_alter. case_decide; [|done]. by destruct (ms !! j). Qed.
Lemma is_reserved_cut ms p n j : is_reserved (cut_links ms p n) j = is_reserved ms j.
Proof. unfold cut_links. case_decide; [done|apply is_reserved_relink]. Qed.

(** The links around a message that leaves. *)
Lemma segment_cut ms h l1 c l2 x :
  segment ms h (l1 ++ c :: l2) NO_MESSAGE → NoDup (l1 ++ c :: l2) → ms !! c = Some x →
  let previous := default NO_MESSAGE (last l1) in
  segment (cut_links ms previous (msg_next x)) (if decide (previous = NO_MESSAGE) then msg_next x else h)
    (l1 ++ l2) NO_MESSAGE.
Proof.
  intros (mid & H1 & H2)%segment_app Hnd Hx previous. destruct H2 as (-> & Hc & y & Hy & H2).
  replace y with x in H2 by congruence. unfold cut_links. subst previous.
  destruct l1 as [|p l1 _] using rev_ind; [done|]. rewrite last_snoc. cbn [default from_option id].
  destruct (segment_elem _ _ _ _ p H1) as [Hp _]; [apply elem_of_app; right; left|].
  rewrite !decide_False by done. apply NoDup_app in Hnd as (Hnd & Hdis & _).
  apply NoDup_app in Hnd as (_ & Hpl & _). apply segment_app. exists (msg_next x). split.
  - eapply segment_redirect; [|exact H1]. intros H. by apply (Hpl p H), list_elem_of_singleton.
  - eapply segment_ext; [|exact H2]. intros j Hj. apply link_relink_ne. intros ->.
    apply (Hdis j); [apply elem_of_app; right; left|by right].
Qed.


(** The tail of a sequence without one of its members. *)
Lemma tail_cut (l1 : list N) c l2 d :
  NoDup (l1 ++ c :: l2) →
  default d (last (l1 ++ l2)) =
    (if decide (default d (last (l1 ++ c :: l2)) = c) then default d (last l1)
     else default d (last (l1 ++ c :: l2))).
Proof.
  intros Hnd. rewrite last_app_cons. destruct l2 as [|j l2 _] using rev_ind.
  - cbn. rewrite decide_True by done. by rewrite app_nil_r.
  - rewrite app_comm_cons, last_snoc, app_assoc, last_snoc. cbn. rewrite decide_False; [done|].
    intros ->. apply NoDup_app in Hnd as (_ & _ & [Hc _]%NoDup_cons).
    apply Hc, elem_of_app. right. left.
Qed.

Lemma queues_cut ms ch l1 c l2 x ch' :
  queues ms ch (l1 ++ c :: l2) → ms !! c = Some x →
  let previous := default NO_MESSAGE (last l1) in
  ep_head ch' = (if decide (previous = NO_MESSAGE) then msg_next x else ep_head ch) →
  ep_tail ch' = (if decide (ep_tail ch = c) then previous else ep_tail ch) →
  ep_queued ch' = ep_queued ch - 1 →
  ep_reserved_used ch' = ep_reserved_used ch - (if msg_reserved_cell x then 1 else 0) →
  queues (cut_links ms previous (msg_next x)) ch' (l1 ++ l2).
Proof.
  intros [Qs Qt Qc Qr Qn] Hx previous Hh Ht Hq Hr. split.
  - rewrite Hh. by apply (segment_cut _ _ _ c).
  - rewrite Ht, Qt. symmetry. apply (tail_cut l1 c l2 NO_MESSAGE Qn).
  - rewrite Hq, Qc, !tlen_app, tlen_cons. lia.
  - rewrite Hr, Qr, !reserved_count_app, (reserved_count_cons _ _ x) by done.
    assert (∀ l, reserved_count (cut_links ms previous (msg_next x)) l = reserved_count ms l) as Hl.
    { intros l. unfold reserved_count. f_equal. apply filter_agree. intros. apply is_reserved_cut. }
    rewrite !Hl. destruct (msg_reserved_cell x); lia.
  - apply NoDup_app in Qn as (N1 & Hd & [_ N2]%NoDup_cons). apply NoDup_app. split; [done|].
    split; [|done]. intros j Hj Hj'. apply (Hd j Hj). by right.
Qed.
