(* ===== verification/IpcChannels.v ===== *)
(** * The channels of the machine

    Every channel of the machine queues its own messages, in cells no other channel and
    no free slot shares. Over that invariant the admission and the delivery of a message
    are the two ends of a queue of entries, and withdrawal takes entries out of it. *)

From stdpp Require Import functions.
From S2P Require Import Prelude Abi AbiWire Obj Scope Ctrl Frame Objects Machine Thread Hoare Ipc IpcFrames IpcQueue.

#[local] Open Scope N_scope.

(** ** What a cell holds *)

Record Entry := mkEntry {
  en_invocation : N;
  en_kind : N;
  en_reserved : bool;
  en_payload : list N;
  en_caps : list DeliveredCap
}.

Definition entry (x : Message) : Entry :=
  mkEntry (msg_invocation x) (msg_kind x) (msg_reserved_cell x)
    (take (N.to_nat (msg_payload_len x)) (msg_payload x)) (take (N.to_nat (msg_cap_count x)) (msg_caps x)).
Definition contents (ms : list Message) (l : list N) : list Entry := entry <$> omap (λ i, ms !! i) l.

Lemma contents_cons ms i l :
  contents ms (i :: l) = from_option (λ x, [entry x]) [] (ms !! i) ++ contents ms l.
Proof. unfold contents. change (i :: l) with ([i] ++ l). rewrite omap_app, fmap_app. f_equal. cbn -[lookup]. by destruct (ms !! i). Qed.
Lemma contents_ext ms ms' l :
  (∀ i, i ∈ l → entry <$> ms' !! i = entry <$> ms !! i) → contents ms' l = contents ms l.
Proof.
  induction l as [|i l IH]; intros H; [done|]. rewrite !contents_cons, IH by (intros j Hj; apply H; by right).
  f_equal. pose proof (H i ltac:(left)) as Hi. destruct (ms !! i), (ms' !! i); try done. cbn in Hi |- *. congruence.
Qed.
Lemma contents_app ms l1 l2 : contents ms (l1 ++ l2) = contents ms l1 ++ contents ms l2.
Proof. unfold contents. by rewrite omap_app, fmap_app. Qed.

(** ** The invariant *)

(** [Q e] are the cells queued on channel [e]. *)
Record channels (m : Machine) (Q : N → list N) : Prop := {
  ch_queue e ch : m_endpoints m !! e = Some ch → queues (m_messages m) ch (Q e);
  ch_none e : m_endpoints m !! e = None → Q e = [];
  ch_apart e e' i : i ∈ Q e → i ∈ Q e' → e = e';
  ch_busy e i : i ∈ Q e → N.testbit (m_message_free m) i = false;
  ch_word i : N.testbit (m_message_free m) i = true → i < MAX_MESSAGES;
  ch_size : tlen (m_messages m) = MAX_MESSAGES
}.

(** The specification: what is queued on each channel, oldest first. *)
Definition holds (m : Machine) (A : N → list Entry) : Prop :=
  ∃ Q, channels m Q ∧ ∀ e, contents (m_messages m) (Q e) = A e.

Lemma lists_endpoint m m' e :
  same lists m m' → link_fields <$> m_endpoints m' !! e = link_fields <$> m_endpoints m !! e.
Proof. intros [= He _ _]. by rewrite <-!table_fmap, He. Qed.

Lemma channels_lists m m' Q : same lists m m' → channels m Q → channels m' Q.
Proof.
  intros Hs [Cq Cn Ca Cb Cw Cs]. pose proof (λ e, lists_endpoint m m' e Hs) as He.
  injection Hs as _ Hm Hf. split.
  - intros e ch' Hch'. specialize (He e). rewrite Hch' in He.
    destruct (m_endpoints m !! e) as [ch|] eqn:Hch; [|done]. injection He as H1 H2 H3 H4.
    eapply queues_ext; [by intros; rewrite Hm| |by apply Cq]. unfold link_fields. congruence.
  - intros e He'. apply Cn. specialize (He e). rewrite He' in He. by destruct (m_endpoints m !! e).
  - done.
  - rewrite Hf. done.
  - rewrite Hf. done.
  - by rewrite Hm.
Qed.

Lemma holds_lists m m' A : same lists m m' → holds m A → holds m' A.
Proof.
  intros Hs (Q & HQ & HA). exists Q. split; [by eapply channels_lists|]. injection Hs as _ Hm _.
  by rewrite Hm.
Qed.

(** A queue is never longer than the table. *)
Lemma channels_short m Q e : channels m Q → tlen (Q e) <= MAX_MESSAGES.
Proof.
  intros C. destruct (m_endpoints m !! e) as [ch|] eqn:He; [|rewrite (ch_none _ _ C e He); by vm_compute].
  pose proof (ch_queue _ _ C e ch He) as [Qs _ _ _ Qn].
  assert (Q e ⊆ indices (m_messages m)) as Hsub.
  { intros i Hi. apply indices_lookup, table_lookup_is_Some. by eapply segment_elem. }
  rewrite <-(ch_size _ _ C). unfold tlen. apply N2Z.inj_le, N2Z.inj_le.
  pose proof (submseteq_length _ _ (NoDup_submseteq _ _ Qn Hsub)) as Hl. unfold indices in Hl.
  rewrite length_fmap, length_seq in Hl. lia.
Qed.

Lemma cell_lt m Q e i : channels m Q → i ∈ Q e → i < MAX_MESSAGES.
Proof.
  intros C Hi. destruct (m_endpoints m !! e) as [ch|] eqn:He; [|rewrite (ch_none _ _ C e He) in Hi; by apply not_elem_of_nil in Hi].
  pose proof (ch_queue _ _ C e ch He) as [Qs _ _ _ _]. rewrite <-(ch_size _ _ C).
  apply table_lookup_is_Some. by eapply segment_elem.
Qed.

(** ** One channel changes *)

Lemma channels_set m m' Q e l ch' :
  channels m Q →
  m_endpoints m' !! e = Some ch' → queues (m_messages m') ch' l →
  (∀ e', e' ≠ e → link_fields <$> m_endpoints m' !! e' = link_fields <$> m_endpoints m !! e') →
  (∀ e' i, e' ≠ e → i ∈ Q e' → link (m_messages m') i = link (m_messages m) i) →
  (∀ e' i, e' ≠ e → i ∈ l → i ∉ Q e') →
  (∀ i, i ∈ l → N.testbit (m_message_free m') i = false) →
  (∀ e' i, e' ≠ e → i ∈ Q e' → N.testbit (m_message_free m') i = false) →
  (∀ i, N.testbit (m_message_free m') i = true → i < MAX_MESSAGES) →
  tlen (m_messages m') = MAX_MESSAGES →
  channels m' (<[e := l]> Q).
Proof.
  intros C He Hq Hothers Hlinks Hapart Hbusy Hbusy' Hword Hsize. split.
  - intros e' ch Hch. destruct (decide (e' = e)) as [->|Hne].
    + rewrite fn_lookup_insert. by replace ch with ch' by congruence.
    + rewrite fn_lookup_insert_ne by done. specialize (Hothers e' Hne). rewrite Hch in Hothers.
      destruct (m_endpoints m !! e') as [ch0|] eqn:Hch0; [|done]. injection Hothers as H1 H2 H3 H4.
      eapply queues_ext; [intros; by eapply Hlinks| |by apply (ch_queue _ _ C)].
      unfold link_fields. congruence.
  - intros e' He'. destruct (decide (e' = e)) as [->|Hne]; [congruence|].
    rewrite fn_lookup_insert_ne by done. apply (ch_none _ _ C). specialize (Hothers e' Hne).
    rewrite He' in Hothers. by destruct (m_endpoints m !! e').
  - intros e1 e2 i. destruct (decide (e1 = e)) as [->|H1], (decide (e2 = e)) as [->|H2];
      rewrite ?fn_lookup_insert, ?fn_lookup_insert_ne by done; intros Hi1 Hi2; try done.
    + by destruct (Hapart e2 i H2 Hi1).
    + by destruct (Hapart e1 i H1 Hi2).
    + by eapply (ch_apart _ _ C).
  - intros e' i. destruct (decide (e' = e)) as [->|Hne];
      rewrite ?fn_lookup_insert, ?fn_lookup_insert_ne by done; [apply Hbusy|by apply Hbusy'].
  - done.
  - done.
Qed.

(** ** Cells *)

(** A cell taken from the free word and not queued. *)
Record taken (m : Machine) (Q : N → list N) (i : N) : Prop := {
  tk_channels : channels m Q;
  tk_apart e : i ∉ Q e;
  tk_lt : i < MAX_MESSAGES;
  tk_bit : N.testbit (m_message_free m) i = false
}.

Lemma taken_lists m m' Q i : same lists m m' → taken m Q i → taken m' Q i.
Proof.
  intros Hs [C Ha Hl Hb]. split; [by eapply channels_lists|done..|]. injection Hs as _ _ Hf. by rewrite Hf.
Qed.

Lemma trailing_zeros_set w :
  w ≠ 0 → (∀ i, N.testbit w i = true → i < MAX_MESSAGES) → N.testbit w (trailing_zeros w) = true.
Proof.
  intros Hw Hb. unfold trailing_zeros. set (l := N.of_nat <$> seq 0 64).
  destruct (filter (λ i, N.testbit w i) l) as [|i k] eqn:Hl.
  - exfalso. apply Hw, N.bits_inj_0. intros i. destruct (N.testbit w i) eqn:Hi; [|done].
    assert (i ∈ filter (λ i, N.testbit w i) l) as H; [|rewrite Hl in H; by apply not_elem_of_nil in H].
    apply list_elem_of_filter. split; [by rewrite Hi|]. apply Hb in Hi. apply list_elem_of_fmap.
    exists (N.to_nat i). split; [lia|]. apply elem_of_seq. unfold MAX_MESSAGES in Hi. lia.
  - cbn. assert (i ∈ filter (λ i, N.testbit w i) l) as H by (rewrite Hl; left).
    apply list_elem_of_filter in H as [H _]. by destruct (N.testbit w i).
Qed.

Lemma claim_taken m Q i m' : channels m Q → claim_message m = (Some i, m') → taken m' Q i.
Proof.
  intros C. unfold claim_message, claim_bit. case_decide as Hf; [done|]. intros [= <- <-].
  pose proof (trailing_zeros_set _ Hf (ch_word _ _ C)) as Hbit. split; cbn.
  - destruct C as [Cq Cn Ca Cb Cw Cs]. split; cbn; try done.
    + intros e j Hj. rewrite testbit_clear, (Cb e j Hj). apply andb_false_r.
    + intros j. rewrite testbit_clear. intros [_ Hj]%andb_true_iff. by apply Cw.
  - intros e Hi. pose proof (ch_busy _ _ C e _ Hi). congruence.
  - by apply (ch_word _ _ C).
  - rewrite testbit_clear, bool_decide_true by done. done.
Qed.

(** The cell goes back unqueued. *)
Lemma taken_release m Q i : taken m Q i → channels (Machine.release_message i m) Q.
Proof.
  intros [[Cq Cn Ca Cb Cw Cs] Ha Hl Hb]. split; cbn; try done.
  - intros e j Hj. rewrite testbit_set, (Cb e j Hj), orb_false_r. apply bool_decide_false.
    intros ->. by apply (Ha e).
  - intros j. rewrite testbit_set. intros [->%bool_decide_eq_true|Hj]%orb_true_iff; [done|by apply Cw].
Qed.

(** Claimed and given back, the word is what it was. *)
Lemma claim_release m i m' :
  (∀ j, N.testbit (m_message_free m) j = true → j < MAX_MESSAGES) →
  claim_message m = (Some i, m') → Machine.release_message i m' = m.
Proof.
  intros Hw. unfold claim_message, claim_bit. case_decide as Hf; [done|]. intros [= <- <-].
  unfold Machine.release_message. destruct m. cbn in *. f_equal. apply N.bits_inj. intros j.
  rewrite testbit_set, testbit_clear. case_bool_decide as Hj; [|done]. subst j. cbn.
  symmetry. by apply trailing_zeros_set.
Qed.

(** ** Admission: behind the tail *)

Lemma filled_take {A} (l : list A) r : take (N.to_nat (tlen l)) (l ++ r) = l.
Proof. unfold tlen. by rewrite Nat2N.id, take_app_length. Qed.

Lemma endpoints_alter m m' e f ch :
  m_endpoints m' = alter f e (m_endpoints m) → m_endpoints m !! e = Some ch →
  m_endpoints m' !! e = Some (f ch) ∧
  ∀ e', e' ≠ e → link_fields <$> m_endpoints m' !! e' = link_fields <$> m_endpoints m !! e'.
Proof.
  intros -> Hch. rewrite table_alter_eq, Hch. split; [done|]. intros e' Hne. by rewrite table_alter_ne.
Qed.

(** The cell [i], written, is linked behind the last one of channel [e]. *)
Lemma channels_push m m' Q e i ch x :
  taken m Q i → m_endpoints m !! e = Some ch → m_messages m !! i = Some x → msg_next x = NO_MESSAGE →
  m_endpoints m' !! e = Some (push_channel i (msg_reserved_cell x) ch) →
  (∀ e', e' ≠ e → link_fields <$> m_endpoints m' !! e' = link_fields <$> m_endpoints m !! e') →
  m_messages m' = push_links (m_messages m) (ep_tail ch) i →
  m_message_free m' = m_message_free m →
  channels m' (<[e := Q e ++ [i]]> Q).
Proof.
  intros [C Ha Hl Hb] Hch Hx Hn He Hothers Hms Hf. pose proof (ch_queue _ _ C e ch Hch) as Hq.
  assert (Hne : ∀ e' j, e' ≠ e → j ∈ Q e' → link (m_messages m') j = link (m_messages m) j).
  { intros e' j Hee Hj. rewrite Hms. apply push_links_ne. rewrite (qu_tail _ _ _ Hq).
    destruct (last (Q e)) as [t|] eqn:Ht; cbn.
    - intros ->. apply Hee, (ch_apart _ _ C e' e j Hj). by eapply last_Some_elem_of.
    - intros <-. destruct (m_endpoints m !! e') as [ch'|] eqn:Hch'.
      + by destruct (segment_elem _ _ _ _ _ (qu_links _ _ _ (ch_queue _ _ C e' ch' Hch')) Hj).
      + rewrite (ch_none _ _ C e' Hch') in Hj. by apply not_elem_of_nil in Hj. }
  eapply (channels_set m); try done.
  - rewrite Hms. apply queues_push; [done|done| |done..]. unfold NO_MESSAGE, U16_MAX, MAX_MESSAGES in *. lia.
  - intros e' j Hee [Hj| ->%list_elem_of_singleton]%elem_of_app Hj'; [|by apply (Ha e')].
    by apply Hee, (ch_apart _ _ C e' e j).
  - intros j [Hj| ->%list_elem_of_singleton]%elem_of_app; rewrite Hf; [by apply (ch_busy _ _ C e)|done].
  - intros e' j _ Hj. rewrite Hf. by apply (ch_busy _ _ C e').
  - intros j. rewrite Hf. apply (ch_word _ _ C).
  - rewrite Hms. unfold push_links. case_decide; rewrite ?tlen_alter; apply (ch_size _ _ C).
Qed.

Lemma entry_relink n x : entry (relink n x) = entry x.
Proof. done. Qed.
Lemma entry_push ms tail i j : entry <$> push_links ms tail i !! j = entry <$> ms !! j.
Proof.
  unfold push_links. case_decide; [done|]. rewrite table_alter. case_decide; [|done]. by destruct (ms !! j).
Qed.

(** What a cell says before it is linked. *)
Definition written (endpoint generation invocation kind : N) (ordinary : bool) (payload : list N)
    (caps : list DeliveredCap) (charged : N) (slot : Message) : Message :=
  slot <| msg_used := true |> <| msg_next := NO_MESSAGE |> <| msg_endpoint := endpoint |>
    <| msg_endpoint_generation := generation |> <| msg_invocation := invocation |>
    <| msg_reserved_cell := negb ordinary |> <| msg_kind := kind |> <| msg_payload_len := tlen payload |>
    <| msg_payload := filled 256 payload |> <| msg_caps := caps ++ replicate (4 - length caps) DeliveredCap.empty |>
    <| msg_cap_count := tlen caps |> <| msg_charged_bytes := charged |>.
Lemma entry_written endpoint generation invocation kind ordinary payload caps charged slot :
  entry (written endpoint generation invocation kind ordinary payload caps charged slot) =
    mkEntry invocation kind (negb ordinary) payload caps.
Proof. unfold entry, written. cbn -[take tlen]. unfold filled. by rewrite !filled_take. Qed.

Lemma wlp_admit_queue e i invocation kind ordinary payload caps charged m Q :
  taken m Q i →
  wlp (admit_queue e i invocation kind ordinary payload caps charged)
    (λ _ m', channels m' (<[e := Q e ++ [i]]> Q) ∧
       entry <$> m_messages m' !! i = Some (mkEntry invocation kind (negb ordinary) payload caps) ∧
       (∀ j, j ≠ i → entry <$> m_messages m' !! j = entry <$> m_messages m !! j) ∧
       same m_invocations m m' ∧ same m_grants m m')
    (λ _ _, False) m.
Proof.
  intros Htk. unfold admit_queue. apply wlp_bind, wlp_at_index. intros name _.
  apply wlp_bind, wlp_at_index. intros x Hx. apply wlp_bind, wlp_modify.
  set (m1 := on_message i _ m). apply wlp_bind, wlp_at_index. intros ch Hch.
  set (y := written e (ei_generation name) invocation kind ordinary payload caps charged x).
  assert (Hy : m_messages m1 !! i = Some y) by (cbn; by rewrite table_alter_eq, Hx).
  assert (Htk1 : taken m1 Q i).
  { destruct Htk as [[Cq Cn Ca Cb Cw Cs] Ha Hl Hb]. split; [|done..]. split; try done.
    - intros e' ch' Hch'. eapply queues_ext; [|done|by apply Cq]. intros j Hj. apply link_alter_ne.
      intros ->. by apply (Ha e').
    - cbn. by rewrite tlen_alter. }
  apply wlp_bind. eapply (wlp_mono _ (λ _ m2, m_endpoints m2 = alter (λ c, c <| ep_head := if decide (ep_tail ch = NO_MESSAGE) then i else ep_head c |>) e (m_endpoints m1) ∧
      m_messages m2 = push_links (m_messages m1) (ep_tail ch) i ∧ m_message_free m2 = m_message_free m1 ∧
      m_invocations m2 = m_invocations m ∧ m_grants m2 = m_grants m) _ (λ _ _, False)); [| |done].
  - unfold push_links. case_decide.
    + by apply wlp_modify.
    + apply wlp_bind, wlp_at_index. intros _ _. apply wlp_modify. split; [|done]. cbn.
      symmetry. apply table_eq. intros j. rewrite table_alter. case_decide; [|done].
      by destruct (m_endpoints m !! j) as [[]|].
  - intros _ m2 (He & Hms & Hf & Hi & Hg). apply wlp_modify. set (m3 := on_endpoint _ _ _).
    destruct (endpoints_alter m1 m2 e _ ch He Hch) as [He2 Ho2].
    destruct (endpoints_alter m2 m3 e _ _ eq_refl He2) as [He3 Ho3].
    assert (Hms3 : m_messages m3 = push_links (m_messages m1) (ep_tail ch) i) by done.
    split; [|split; [|split; [|done]]].
    + eapply (channels_push m1 m3 Q e i ch y); try done.
      * rewrite He3. f_equal. unfold push_channel. by destruct ordinary.
      * intros e' Hne. by rewrite Ho3, Ho2.
    + rewrite Hms3, entry_push, Hy. cbn -[entry]. by rewrite <-(entry_written e (ei_generation name) invocation kind ordinary payload caps charged x).
    + intros j Hj. rewrite Hms3, entry_push. cbn. by rewrite table_alter_ne.
Qed.

(** The entry is behind the others. *)
Lemma contents_push ms ms' l i x :
  i ∉ l → entry <$> ms' !! i = Some x → (∀ j, j ≠ i → entry <$> ms' !! j = entry <$> ms !! j) →
  contents ms' (l ++ [i]) = contents ms l ++ [x].
Proof.
  intros Hi Hx Hj. rewrite contents_app. f_equal.
  - apply contents_ext. intros j Hjl. apply Hj. by intros ->.
  - rewrite contents_cons. by destruct (ms' !! i); [injection Hx as <-|].
Qed.

(** ** Delivery: at the head *)

(** A response is the entry, under the header the kernel states of its invocation. *)
Record states (r : ReceiveResult) (i : Invocation) (x : Entry) : Prop := {
  st_epoch : wmh_epoch (wrr_header r) = inv_epoch i;
  st_id : wmh_invocation_id (wrr_header r) = inv_id i;
  st_sender : wmh_sender_domain_id (wrr_header r) = inv_origin_domain_id i;
  st_scope : wmh_sender_scope_id (wrr_header r) = inv_origin_scope_id i;
  st_parent : wmh_parent_invocation_id (wrr_header r) = inv_parent_id i;
  st_facet : wmh_facet (wrr_header r) = inv_facet i;
  st_sent : wmh_sent_ns (wrr_header r) = inv_admitted_ns i;
  st_kind : wmh_kind (wrr_header r) = en_kind x;
  st_length : wmh_payload_len (wrr_header r) = tlen (en_payload x);
  st_payload : wrr_payload r = filled 256 (en_payload x);
  st_caps : wrr_cap_count r = tlen (en_caps x);
  st_handles : wrr_caps r = filled 4 (dc_handle <$> en_caps x)
}.

(** The buffer of a thread's entry shows [x]. *)
Definition shows (k : Kernel) (buffer : N) (x : Entry) : Prop :=
  ∀ c, kn_threads k !! thread_index buffer = Some c →
    ∃ r i, th_response c = Some (Received r) ∧
      m_invocations (kn_machine k) !! en_invocation x = Some i ∧ states r i x.

(** What is shown stays while responses and invocations do. *)
Definition responses (k : Kernel) : list (option Response) := th_response <$> kn_threads k.
Lemma shows_same k k' buffer x :
  same responses k k' → m_invocations (kn_machine k') = m_invocations (kn_machine k) →
  shows k buffer x → shows k' buffer x.
Proof.
  intros Hr Hi Hs c Hc. unfold same, responses in Hr.
  assert (th_response <$> kn_threads k !! thread_index buffer = Some (th_response c)) as Hk.
  { by rewrite <-table_fmap, <-Hr, table_fmap, Hc. }
  apply fmap_Some in Hk as (c0 & Hc0 & Heq). destruct (Hs c0 Hc0) as (r & i & H1 & H2 & H3).
  exists r, i. split; [congruence|]. by rewrite Hi.
Qed.

Lemma wlp_lay_out_receive buffer record invocation kind reserved payload caps k :
  m_invocations (kn_machine k) !! invocation = Some record →
  wlp (lay_out_receive buffer record kind payload caps)
    (λ _ k', kn_machine k' = kn_machine k ∧ shows k' buffer (mkEntry invocation kind reserved payload caps))
    (λ _ _, False) k.
Proof.
  intros Hrec. unfold lay_out_receive. apply wlp_bind, wlp_on_machine, wlp_at_index. intros node _.
  replace (k <| kn_machine := kn_machine k |>) with k by by destruct k.
  apply wlp_bind, wlp_on_machine. eapply wlp_mono.
  - apply wlp_and; [apply (keeps_carried_rights caps)|]. instantiate (1 := λ _ _, False). instantiate (1 := λ _ _, True).
    generalize 0. induction caps as [|c caps IH]; intros n; cbn [carried_rights]; [done|].
    apply wlp_bind, wlp_at_index. intros. apply IH.
  - intros rights m [<- _]. replace (k <| kn_machine := kn_machine k |>) with k by by destruct k.
    apply wlp_modify. split; [done|]. intros c Hc. cbn in Hc. rewrite table_alter_eq in Hc.
    apply fmap_Some in Hc as (c0 & _ & ->). cbn.
    exists (mkReceiveResult (mkMessageHeader (inv_epoch record) (inv_id record) (inv_origin_domain_id record)
      (inv_origin_scope_id record) (inv_parent_id record) (inv_facet record) (g_id node) (inv_admitted_ns record) rights
      (Cancel.abi (inv_cancel record)) kind (tlen payload)) (tlen caps) 0 (filled 4 (dc_handle <$> caps)) (filled 256 payload)), record.
    split; [done|]. split; [done|]. by split.
  - by intros e m [_ []].
Qed.

Lemma channels_pop m m' Q e i l ch x ch' :
  channels m Q → Q e = i :: l → m_endpoints m !! e = Some ch → m_messages m !! i = Some x →
  m_endpoints m' !! e = Some ch' →
  link_fields ch' = (msg_next x, (if decide (msg_next x = NO_MESSAGE) then NO_MESSAGE else ep_tail ch),
     ep_queued ch - 1, ep_reserved_used ch - (if msg_reserved_cell x then 1 else 0)) →
  (∀ e', e' ≠ e → link_fields <$> m_endpoints m' !! e' = link_fields <$> m_endpoints m !! e') →
  (∀ j, j ≠ i → m_messages m' !! j = m_messages m !! j) → tlen (m_messages m') = tlen (m_messages m) →
  m_message_free m' = N.lor (m_message_free m) (N.shiftl 1 i) →
  channels m' (<[e := l]> Q).
Proof.
  intros C Hl Hch Hx Hch' [= Hh Ht Hq Hr] Hothers Hms Hlen Hf.
  pose proof (ch_queue _ _ C e ch Hch) as Hqu. rewrite Hl in Hqu.
  pose proof (qu_NoDup _ _ _ Hqu) as [Hil Hnd]%NoDup_cons.
  pose proof (cell_lt m Q e i C ltac:(rewrite Hl; left)) as Hlt.
  assert (Hmem : ∀ j, j ∈ l → j ∈ Q e) by (intros; rewrite Hl; by right).
  assert (Hbits : ∀ j, j ≠ i → N.testbit (m_message_free m') j = N.testbit (m_message_free m) j).
  { intros j Hj. rewrite Hf, testbit_set. by rewrite bool_decide_false by congruence. }
  eapply (channels_set m); try done.
  - eapply (queues_ext (m_messages m)); [| |by eapply (queues_pop (m_messages m) ch l i x ch')].
    + intros j Hj. unfold link. rewrite Hms; [done|]. by intros ->.
    + done.
  - intros e' j Hne Hj. unfold link. rewrite Hms; [done|]. intros ->. apply Hne, (ch_apart _ _ C e' e i Hj).
    rewrite Hl. left.
  - intros e' j Hne Hj Hj'. apply Hne, (ch_apart _ _ C e' e j Hj'). by apply Hmem.
  - intros j Hj. rewrite Hbits by (intros ->; done). apply (ch_busy _ _ C e). by apply Hmem.
  - intros e' j Hne Hj. rewrite Hbits; [by apply (ch_busy _ _ C e')|]. intros ->.
    apply Hne, (ch_apart _ _ C e' e i Hj). rewrite Hl. left.
  - intros j Hj. destruct (decide (j = i)) as [->|Hji]; [done|]. rewrite Hbits in Hj by done.
    by apply (ch_word _ _ C).
  - rewrite Hlen. apply (ch_size _ _ C).
Qed.

Lemma wlp_deliver receiver e i buffer k Q l :
  channels (kn_machine k) Q → Q e = i :: l →
  wlp (deliver receiver e i buffer)
    (λ _ k', channels (kn_machine k') (<[e := l]> Q) ∧
       (∀ j, j ≠ i → m_messages (kn_machine k') !! j = m_messages (kn_machine k) !! j) ∧
       ∃ x, m_messages (kn_machine k) !! i = Some x ∧ shows k' buffer (entry x))
    (λ _ k', same lists (kn_machine k) (kn_machine k')) k.
Proof.
  intros C Hl. unfold deliver. apply wlp_bind, wlp_read. intros x Hx.
  apply wlp_bind, wlp_read. intros slot Hslot. apply wlp_bind, wlp_read. intros name _.
  apply wlp_bind, wlp_err_if; intros _; [done|]. apply wlp_bind.
  eapply wlp_beside; [apply keeps_issue_ticket| |by intros; apply aside_lists]. intros ticket m1 Ha.
  apply wlp_bind, wlp_read. intros ch Hch. apply wlp_bind, wlp_expect. intros queued Hqueued.
  apply wlp_bind, wlp_change, wlp_bind, wlp_change, wlp_bind, wlp_read. intros record Hrecord.
  apply wlp_bind. eapply wlp_mono; [by apply (wlp_lay_out_receive _ record (msg_invocation x) _ (msg_reserved_cell x))| |done].
  intros _ k2 [Hk2 Hshows]. apply wlp_bind, wlp_change, wlp_bind, wlp_change, wlp_ret.
  cbn in Hk2, Hch. pose proof (channels_lists _ _ _ (aside_lists _ _ Ha) C) as C1.
  assert (m_messages m1 = m_messages (kn_machine k)) as Hms by apply Ha.
  assert (queued = ep_queued ch - 1) as ->.
  { clear -Hqueued. unfold checked_sub in Hqueued. case_decide; congruence. }
  destruct (endpoints_alter m1 (on_endpoint e (λ c, c <| ep_head := msg_next x |>
    <| ep_tail ::= λ t, if decide (msg_next x = NO_MESSAGE) then NO_MESSAGE else t |>
    <| ep_queued := ep_queued ch - 1 |>
    <| ep_reserved_used ::= λ n, if msg_reserved_cell x then saturating_sub n 1 else n |>
    <| ep_delivered ::= N.succ |>) m1) e _ ch eq_refl Hch) as [He Ho].
  split; [|split].
  - eapply (channels_pop m1); [exact C1|exact Hl|exact Hch|by rewrite Hms|..]; cbn; rewrite ?Hk2.
    + exact He.
    + unfold link_fields. cbn. unfold saturating_sub. destruct (msg_reserved_cell x); repeat f_equal; lia.
    + exact Ho.
    + intros j Hj. cbn. by rewrite table_alter_ne.
    + by rewrite tlen_alter.
    + done.
  - intros j Hj. cbn. rewrite Hk2. cbn. by rewrite table_alter_ne, Hms.
  - exists x. split; [done|]. eapply shows_same; [done| |exact Hshows]. cbn. by rewrite Hk2.
Qed.
