(* ===== verification/IpcAdmit.v ===== *)
(** * What an admission reserves, it gives back

    Each reservation an admission makes is undone by its counterpart, whatever
    capability operations happen in between. *)

From S2P Require Import Prelude Abi AbiWire Obj Scope ScopeProofs Ctrl Frame Objects Machine AuthorityOps Thread Hoare.
From S2P Require Import Ipc IpcFrames IpcQueue IpcChannels.

#[local] Open Scope N_scope.

(** ** One reservation *)

Lemma aside_claim_message m i m1 m2 :
  (∀ j, N.testbit (m_message_free m) j = true → j < MAX_MESSAGES) →
  claim_message m = (Some i, m1) → aside m1 m2 → aside m (Machine.release_message i m2).
Proof.
  intros Hw Hc [He Hm Hf Hr Hb Hcl Hs Hfa Hu]. pose proof (claim_release m i m1 Hw Hc) as Hrel.
  assert (m_message_free m = N.lor (m_message_free m1) (N.shiftl 1 i)) as Hfree by (by rewrite <-Hrel).
  split; cbn; rewrite ?Hf; [by rewrite He, <-Hrel|by rewrite Hm, <-Hrel|done|
    by rewrite <-Hrel|by rewrite Hb, <-Hrel|by rewrite Hcl, <-Hrel|by rewrite Hs, <-Hrel|by rewrite <-Hrel|].
  unfold used in *. cbn. by rewrite Hu, <-Hrel.
Qed.

Lemma aside_claim_invocation m i m1 m2 :
  claim_invocation m = (Some i, m1) → aside m1 m2 → aside m (Machine.release_invocation i m2).
Proof.
  unfold claim_invocation, claim_bit. case_decide; [done|]. intros [= <- <-] [He Hm Hf Hr Hb Hcl Hs Hfa Hu].
  split; cbn in *; try done. intros j Hj. rewrite testbit_set. case_bool_decide as Hjj; [done|]. cbn.
  apply Hr. rewrite testbit_clear, Hj. by rewrite bool_decide_false.
Qed.

(** The charges of a scope's queue bytes, over the account alone. *)
Lemma bytes_for_nodes f nodes tbl :
  (λ n, (sc_parent n, account QueueBytes n)) <$> for_nodes (set_account QueueBytes f) nodes tbl =
  foldl (λ l i, alter (λ p : ScopeId * N, (p.1, f p.2)) i l)
    ((λ n, (sc_parent n, account QueueBytes n)) <$> tbl) nodes.
Proof.
  unfold for_nodes. revert tbl. induction nodes as [|i nodes IH]; intros tbl; [done|]. cbn [foldl].
  rewrite IH. f_equal. apply table_eq. intros j. rewrite table_fmap, !table_alter, table_fmap.
  case_decide; [|done]. by destruct (tbl !! j).
Qed.

Lemma chain_of_bytes t t' s : bytes t = bytes t' → chain_of (scopes t) s = chain_of (scopes t') s.
Proof.
  intros H. apply chain_ext. intros j. apply (f_equal (λ l, fst <$> l !! j)) in H. unfold bytes in H.
  rewrite !table_fmap in H. destruct (scopes t !! j), (scopes t' !! j); try done.
  cbn in H |- *. unfold parent. by injection H as ->.
Qed.

Lemma bytes_release_congr s a t t' :
  bytes t = bytes t' → bytes (Scope.release s QueueBytes a t) = bytes (Scope.release s QueueBytes a t').
Proof.
  intros H. unfold bytes, Scope.release. cbn [scopes set_field rebuild].
  rewrite !bytes_for_nodes, (chain_of_bytes t t' s H). by f_equal.
Qed.

Lemma aside_reserve_bytes s a m m2 :
  accounts_wf (m_scopes m) → live_scope (scopes (m_scopes m)) s → a <= U64_MAX →
  (Scope.reserve s QueueBytes a (m_scopes m)).1 = true →
  aside (m <| m_scopes := (Scope.reserve s QueueBytes a (m_scopes m)).2 |>) m2 →
  aside m (m2 <| m_scopes ::= Scope.release s QueueBytes a |>).
Proof.
  intros Hwf Hl Ha Hok [He Hm Hf Hr Hb Hcl Hs Hfa Hu].
  split; [exact He|exact Hm|exact Hf|exact Hr| |exact Hcl|exact Hs|exact Hfa|exact Hu].
  change (m_scopes (m2 <| m_scopes ::= Scope.release s QueueBytes a |>)) with (Scope.release s QueueBytes a (m_scopes m2)).
  rewrite (bytes_release_congr s a (m_scopes m2) _ Hb).
  change (m_scopes (m <| m_scopes := (Scope.reserve s QueueBytes a (m_scopes m)).2 |>))
    with (Scope.reserve s QueueBytes a (m_scopes m)).2.
  rewrite reserve_spec in Hok |- * by done. case_match; [|done]. cbn [snd].
  by rewrite release_reserve.
Qed.

Lemma aside_refused_bytes s a m :
  accounts_wf (m_scopes m) → live_scope (scopes (m_scopes m)) s → a <= U64_MAX →
  (Scope.reserve s QueueBytes a (m_scopes m)).1 = false →
  m <| m_scopes := (Scope.reserve s QueueBytes a (m_scopes m)).2 |> = m.
Proof.
  intros Hwf Hl Ha Hno. rewrite reserve_spec in Hno |- * by done. case_match; [done|]. by destruct m.
Qed.

(** The receipt's cell. *)
Lemma wlp_reserve_receipt m :
  wlp reserve_receipt
    (λ ok m1, if ok : bool then same lists m m1 ∧ ∀ m2, aside m1 m2 → wlp release_receipt (λ _ m3, aside m m3) (λ _ _, False) m2
              else m1 = m) (λ _ _, False) m.
Proof.
  unfold reserve_receipt. apply wlp_bind, wlp_gets. destruct (m_system_log m) as [index|] eqn:Hlog.
  - apply wlp_bind, wlp_at_index. intros log Hl. unfold ControlLog.reserve.
    destruct (ControlLog.can_reserve log); cbn [negb].
    + apply wlp_bind, wlp_modify, wlp_ret. split; [done|]. intros m2 [He Hm Hf Hr Hb Hcl Hs Hfa Hu]. cbn in *.
      unfold release_receipt. apply wlp_bind, wlp_gets. rewrite Hs, Hlog.
      apply wlp_bind, wlp_at_index. intros log2 Hl2. apply wlp_modify. split; cbn; try done.
      * apply table_eq. intros j. rewrite !table_fmap, table_insert.
        pose proof (f_equal (λ l, l !! j) Hcl) as Hj. cbn in Hj. rewrite !table_fmap, table_insert in Hj.
        apply table_lookup_lt in Hl2 as Hlt2. apply table_lookup_lt in Hl as Hlt.
        destruct (decide (index = j)) as [->|Hne].
        -- rewrite decide_True by done. rewrite decide_True in Hj by done. rewrite Hl2, Hl in *.
           cbn in *. injection Hj as Hj. unfold saturating_sub. f_equal. lia.
        -- rewrite decide_False by tauto. by rewrite decide_False in Hj by tauto.
    + apply wlp_bind, wlp_modify, wlp_ret. destruct m. cbn in *. f_equal. by apply table_insert_id.
  - apply wlp_ret. split; [done|]. intros m2 Ha. unfold release_receipt. apply wlp_bind, wlp_gets.
    rewrite (as_system _ _ Ha), Hlog. by apply wlp_ret.
Qed.

(** ** All of them *)

(** The operations that return no status. *)
Lemma unfailing_thread i : unfailing (thread i).
Proof. unfold thread. smooth. Qed.
Lemma unfailing_on_thread i f : unfailing (on_thread i f).
Proof. unfold on_thread. smooth. Qed.
Lemma unfailing_on_scopes {A} (f : Scopes → A * Scopes) : unfailing (on_scopes f).
Proof. intros m. by apply wlp_on_scopes. Qed.
Lemma unfailing_run {A} (f : Machine → A * Machine) : unfailing (run f).
Proof. intros m. by apply wlp_run. Qed.
#[export] Hint Resolve unfailing_thread unfailing_on_thread unfailing_on_scopes unfailing_run : unfailing.
Lemma unfailing_claim index matches code aux : unfailing (claim_handoff index matches code aux).
Proof. unfold claim_handoff. smooth. Qed.
Lemma unfailing_set_wake_aux index aux : unfailing (set_wake_aux index aux).
Proof. unfold set_wake_aux. smooth. Qed.
Lemma unfailing_wake index : unfailing (wake index).
Proof. unfold wake. smooth. Qed.
#[export] Hint Resolve unfailing_claim unfailing_set_wake_aux unfailing_wake : unfailing.
Lemma unfailing_defer_wake index hint : unfailing (defer_wake index hint).
Proof. unfold defer_wake. smooth. Qed.
Lemma unfailing_receipt now kind domain scope object grant parent result a b reserved :
  unfailing (receipt now kind domain scope object grant parent result a b reserved).
Proof. unfold receipt. smooth. Qed.
Lemma unfailing_adjust o delta : unfailing (adjust_object_refs o delta).
Proof. unfold adjust_object_refs. smooth. Qed.
Lemma unfailing_collect_invocation i : unfailing (collect_invocation i).
Proof. unfold collect_invocation. smooth. Qed.
Lemma unfailing_release_metadata owner : unfailing (release_metadata owner).
Proof. done. Qed.
#[export] Hint Resolve unfailing_defer_wake unfailing_receipt unfailing_adjust unfailing_collect_invocation
  unfailing_release_metadata : unfailing.
Lemma unfailing_collect_grant g : unfailing (collect_grant g).
Proof.
  unfold collect_grant. generalize (N.to_nat limit.MAX_DERIVE_DEPTH). intros steps. revert g.
  induction steps as [|steps IH]; intros g; cbn [collect_from]; smooth.
Qed.
#[export] Hint Resolve unfailing_collect_grant : unfailing.
Lemma unfailing_cap_install domain object grant slot : unfailing (cap_install domain object grant slot).
Proof. unfold cap_install. smooth. Qed.
Lemma unfailing_release_slot domain slot : unfailing (cap_release_slot domain slot).
Proof. unfold cap_release_slot, release_with, release_entry. smooth. Qed.
#[export] Hint Resolve unfailing_cap_install unfailing_release_slot : unfailing.

Lemma keeps_install_caps receiver sources : ∀ installed, keeps aside (install_caps receiver sources installed).
Proof. induction sources as [|s sources IH]; intros installed; cbn [install_caps]; keep. Qed.
Lemma unfailing_install_caps receiver sources : ∀ installed, unfailing (install_caps receiver sources installed).
Proof. induction sources as [|s sources IH]; intros installed; cbn [install_caps]; smooth. Qed.
Lemma keeps_consume_moves domain sources : keeps aside (consume_moves domain sources).
Proof. unfold consume_moves. keep. Qed.
Lemma unfailing_consume_moves domain sources : unfailing (consume_moves domain sources).
Proof. unfold consume_moves. smooth. Qed.
Lemma unfailing_release_caps domain caps : unfailing (release_caps domain caps).
Proof. unfold release_caps. smooth. Qed.

(** What undoes the reservations of an admission. *)
Definition undoes (m m1 : Machine) (mi ii scope charged : N) : Prop :=
  ∀ m2, aside m1 m2 →
    wlp release_receipt (λ _ m3, aside m (unreserve mi ii scope charged m3)) (λ _ _, False) m2.

Lemma unreserve_charged mi ii scope charged m :
  charged ≠ 0 → unreserve mi ii scope charged m =
    Machine.release_message mi (Machine.release_invocation ii (m <| m_scopes ::= Scope.release scope QueueBytes charged |>)).
Proof. intros H. unfold unreserve. by rewrite decide_False. Qed.
Lemma unreserve_free mi ii scope m :
  unreserve mi ii scope 0 m = Machine.release_message mi (Machine.release_invocation ii m).
Proof. done. Qed.

Lemma wlp_admit_reserve scope ordinary len m Q :
  channels m Q → accounts_wf (m_scopes m) → live_scope (scopes (m_scopes m)) scope →
  MESSAGE_OVERHEAD_BYTES + len <= U64_MAX →
  wlp (admit_reserve scope ordinary len)
    (λ r m1, taken m1 Q r.1.1 ∧ m_messages m1 = m_messages m ∧ undoes m m1 r.1.1 r.1.2 scope r.2)
    (λ code m1, code = status.LIMIT_EXHAUSTED ∧ aside m m1) m.
Proof.
  intros C Hwf Hlive Hlen. unfold admit_reserve. apply wlp_bind, wlp_run.
  destruct (claim_message m) as [[mi|] m1] eqn:H1; cbn [fst snd].
  2:{ apply wlp_err. split; [done|]. unfold claim_message, claim_bit in H1. case_decide; [|done]. injection H1 as <-. by destruct m. }
  assert (U1 : ∀ m2, aside m1 m2 → aside m (Machine.release_message mi m2)).
  { intros m2. eapply aside_claim_message; [apply (ch_word _ _ C)|done]. }
  pose proof (claim_taken _ _ _ _ C H1) as T1.
  assert (S1 : m_messages m1 = m_messages m ∧ m_scopes m1 = m_scopes m).
  { unfold claim_message, claim_bit in H1. case_decide; [done|]. by injection H1 as <- <-. }
  apply wlp_bind, wlp_run. destruct (claim_invocation m1) as [[ii|] m2] eqn:H2; cbn [fst snd].
  2:{ apply wlp_bind, wlp_modify, wlp_err. split; [done|]. apply U1. unfold claim_invocation, claim_bit in H2.
      case_decide; [|done]. injection H2 as <-. by destruct m1. }
  assert (U2 : ∀ m3, aside m2 m3 → aside m (Machine.release_message mi (Machine.release_invocation ii m3))).
  { intros m3 H3. eapply U1, aside_claim_invocation; done. }
  assert (S2 : same lists m1 m2 ∧ m_scopes m2 = m_scopes m1).
  { unfold claim_invocation, claim_bit in H2. case_decide; [done|]. by injection H2 as <- <-. }
  destruct S1 as [S1 S1'], S2 as [S2 S2']. rewrite <-S1', <-S2' in Hwf, Hlive.
  pose proof (taken_lists _ _ _ _ S2 T1) as T2.
  assert (M2 : m_messages m2 = m_messages m) by (injection S2; congruence). clear S1 S2 S1' S2' U1 T1.
  set (charged := if ordinary then MESSAGE_OVERHEAD_BYTES + len else 0).
  apply wlp_bind. eapply (wlp_mono _ (λ ok m3, if ok : bool then taken m3 Q mi ∧ m_messages m3 = m_messages m2 ∧
    ∀ m4, aside m3 m4 → aside m (unreserve mi ii scope charged m4) else m3 = m2) _ (λ _ _, False)); [| |done].
  { destruct ordinary; [|by apply wlp_ret]. apply wlp_on_scopes.
    destruct (Scope.reserve scope QueueBytes charged (m_scopes m2)).1 eqn:Hok.
    - split; [by eapply taken_lists; [|exact T2]|]. split; [done|]. intros m4 H4.
      rewrite unreserve_charged by (unfold charged, MESSAGE_OVERHEAD_BYTES; lia).
      apply U2. by eapply aside_reserve_bytes.
    - by apply aside_refused_bytes. }
  intros [|] m3; cbn [negb].
  2:{ intros ->. apply wlp_bind, wlp_modify, wlp_err. split; [done|]. rewrite unreserve_free. by apply U2. }
  intros (T3 & M3 & U3). apply wlp_bind. eapply wlp_mono; [apply wlp_reserve_receipt| |done].
  intros [|] m4; cbn [negb].
  - intros [S4 U4]. apply wlp_ret. cbn [fst snd]. split; [by eapply taken_lists|].
    split; [injection S4; congruence|]. intros m5 H5. eapply wlp_mono; [by apply U4| |done].
    intros u m6 H6. by apply U3.
  - intros ->. apply wlp_bind, wlp_modify, wlp_err. split; [done|]. by apply U3.
Qed.

Lemma wlp_admit_caps receiver sources mi ii scope charged m m1 Q :
  taken m1 Q mi → undoes m m1 mi ii scope charged →
  wlp (admit_caps receiver sources mi ii scope charged)
    (λ _ m2, aside m1 m2) (λ e m2, e = status.LIMIT_EXHAUSTED ∧ aside m m2) m1.
Proof.
  intros T U. unfold admit_caps. apply wlp_bind. eapply wlp_unfailing;
    [apply keeps_install_caps|apply unfailing_install_caps|]. intros [caps [|]] m2 H2; [by apply wlp_ret|].
  cbn [snd fst]. apply wlp_bind. eapply wlp_unfailing; [apply keeps_release_caps|apply unfailing_release_caps|].
  intros _ m3 H3. apply wlp_bind. eapply wlp_mono; [apply U; exact (transitivity H2 H3)| |done].
  intros u m4 H4. by apply wlp_bind, wlp_modify, wlp_err.
Qed.

(** ** The record *)

Lemma lists_endpoint_fields m e f :
  (∀ c, link_fields (f c) = link_fields c) → same lists m (on_endpoint e f m).
Proof.
  intros Hf. unfold same, lists. cbn -[alter].
  assert (link_fields <$> alter f e (m_endpoints m) = link_fields <$> m_endpoints m) as ->; [|done].
  by apply fmap_alter_same.
Qed.

(** The record is written after the identity is taken; only its absence is a refusal. *)
Lemma wlp_admit_record ctx e receiver scope waiter bound mi ii charged m :
  wlp (admit_record ctx e receiver scope waiter bound mi ii charged)
    (λ _ m', same lists m m') (λ e m', e = status.LIMIT_EXHAUSTED ∧ same lists m m' ∧ m_next_object_id m' = U64_MAX) m.
Proof.
  unfold admit_record. apply wlp_bind, wlp_run. unfold next_id. case_decide as Hid.
  { apply wlp_bind, wlp_ok_or; [done|]. done. }
  apply wlp_bind, wlp_ok_or; [|done]. intros id _.
  match goal with |- wlp ?c _ _ ?s => set (c0 := c); set (m1 := s) end.
  assert (same lists m m1) as S1 by done. clearbody m1.
  eapply (wlp_unfailing (same lists)); [| |intros a m2 S2; exact (transitivity S1 S2)].
  - unfold c0. keep; try reflexivity. by apply lists_endpoint_fields.
  - unfold c0. smooth.
Qed.

(** ** The direct route *)

Lemma keeps_take_receiver turns endpoint generation now : ∀ waiting,
  keeps (lift (same lists)) (take_receiver turns endpoint generation now waiting).
Proof.
  induction turns as [|turns IH]; intros waiting; cbn [take_receiver]; keep.
  - apply keeps_change; [apply _|]. intros m. by apply lists_endpoint_fields.
  - apply keeps_on_machine; [apply _|]. apply (keeps_eq _ _), keeps_resolve.
Qed.
Lemma unfailing_take_receiver turns endpoint generation now : ∀ waiting,
  unfailing (take_receiver turns endpoint generation now waiting).
Proof. induction turns as [|turns IH]; intros waiting; cbn [take_receiver]; smooth. Qed.
