(* ===== verification/IpcRefine.v ===== *)
(** * Channels are queues

    The handlers of a channel against their specification: what is queued on each
    channel, oldest first. *)

From stdpp Require Import functions.
From S2P Require Import Prelude Abi AbiWire Obj Scope ScopeProofs Ctrl Frame Objects Machine AuthorityOps Thread Hoare.
From S2P Require Import Ipc IpcFrames IpcQueue IpcChannels IpcAdmit.

#[local] Open Scope N_scope.

(** ** Responses *)

Lemma responses_alter i f k :
  (∀ c, th_response (f c) = th_response c) → same responses k (k <| kn_threads ::= alter f i |>).
Proof. intros Hf. unfold same, responses. cbn -[alter]. by apply fmap_alter_same. Qed.
Lemma keeps_on_thread_responses i f :
  (∀ c, th_response (f c) = th_response c) → keeps (same responses) (on_thread i f).
Proof. intros Hf. unfold on_thread. keep. by apply responses_alter. Qed.
Lemma keeps_wake_responses index : keeps (same responses) (wake index).
Proof.
  unfold wake, thread. keep. apply keeps_on_thread_responses. by intros ?.
Qed.
#[export] Hint Resolve keeps_wake_responses : keeps.
Lemma keeps_defer_responses index hint : keeps (same responses) (defer_wake index hint).
Proof. unfold defer_wake. keep. done. Qed.
Lemma keeps_flush_responses : keeps (same responses) flush_wakes.
Proof. unfold flush_wakes. keep. done. Qed.
Lemma keeps_aux_responses index aux : keeps (same responses) (set_wake_aux index aux).
Proof. unfold set_wake_aux. by apply keeps_on_thread_responses. Qed.

Lemma keeps_both {S A} (R R' : S → S → Prop) (c : K S A) : keeps R c → keeps R' c → keeps (both R R') c.
Proof. intros H H' s. eapply wlp_mono; [apply wlp_and; [apply H|apply H']|done..]. Qed.

(** What is shown survives what follows it. *)
Lemma wlp_shows {A} (c : K Kernel A) buffer x k (Q : A → Kernel → Prop) E :
  keeps (same kn_machine) c → keeps (same responses) c → unfailing c → shows k buffer x →
  (∀ a k', kn_machine k' = kn_machine k → shows k' buffer x → Q a k') → wlp c Q E k.
Proof.
  intros Hm Hr Hu Hs HQ. eapply wlp_unfailing; [apply keeps_both; [exact Hm|exact Hr]|exact Hu|].
  intros a k' [H1 H2]. apply HQ; [done|]. eapply shows_same; [done| |done]. by rewrite H1.
Qed.

(** ** Admission *)

Lemma queue_empty m Q e ch :
  channels m Q → m_endpoints m !! e = Some ch → ep_head ch = NO_MESSAGE → Q e = [].
Proof.
  intros C Hch Hh. pose proof (qu_links _ _ _ (ch_queue _ _ C e ch Hch)) as Hs. rewrite Hh in Hs.
  destruct (Q e) as [|i l]; [done|]. destruct Hs as (-> & Hn & _). done.
Qed.

Lemma wlp_admit_direct e ii kind reserved now payload caps k Q :
  channels (kn_machine k) Q →
  wlp (admit_direct e ii kind now payload caps)
    (λ r k', lift (same lists) k k' ∧
       (r.2 = true → Q e = [] ∧ ∃ buffer, shows k' buffer (mkEntry ii kind reserved payload caps)))
    (λ _ _, False) k.
Proof.
  intros C. unfold admit_direct. apply wlp_bind, wlp_read. intros ch Hch.
  apply wlp_bind, wlp_read. intros name _. apply wlp_bind.
  eapply wlp_unfailing; [apply keeps_take_receiver|apply unfailing_take_receiver|]. intros [[t offered]|] k1 H1.
  2:{ by apply wlp_ret. }
  destruct (hf_staging offered) as [buffer|]; [|by apply wlp_ret].
  case_decide as Hh; [|by apply wlp_ret]. pose proof (queue_empty _ _ _ _ C Hch Hh) as Hempty.
  apply wlp_bind, wlp_catch, (wlp_beside aside); [apply keeps_issue_ticket| |].
  2:{ intros code m Ha. apply wlp_ret. split; [|done]. etrans; [exact H1|]. exact (aside_lists _ _ Ha). }
  intros ticket m2 Ha. apply wlp_bind, wlp_change, wlp_bind, wlp_read. intros record Hrec.
  apply wlp_bind, wlp_change, wlp_bind.
  eapply wlp_mono; [by apply (wlp_lay_out_receive _ record ii _ reserved)| |done]. intros _ k3 [Hk3 Hshows].
  apply wlp_bind. eapply wlp_shows; [apply keeps_set_wake_aux|apply keeps_aux_responses|apply unfailing_set_wake_aux|exact Hshows|].
  intros u k4 Hk4 Hshows4. apply wlp_ret. split; [|by eauto].
  unfold lift. rewrite Hk4, Hk3. cbn. etrans; [exact H1|]. etrans; [exact (aside_lists _ _ Ha)|].
  etrans; [|by apply lists_endpoint_fields]. done.
Qed.

(** The accounts an admission charges. *)
Record solvent (ctx : Ctx) (k : Kernel) : Prop := {
  so_accounts : accounts_wf (m_scopes (kn_machine k));
  so_live cell : kn_threads k !! thread_index (cx_thread ctx) = Some cell →
    live_scope (scopes (m_scopes (kn_machine k))) (th_effective_scope cell)
}.

Lemma keeps_admit_sources domain now entries : ∀ sources, keeps eq (admit_sources domain now entries sources).
Proof.
  induction entries as [|[handle operation] entries IH]; intros sources; cbn [admit_sources]; keep.
  apply keeps_resolve.
Qed.
Lemma keeps_admit_peer e : keeps eq (admit_peer e).
Proof. unfold admit_peer. keep. Qed.
Lemma keeps_admit_room e receiver ordinary count : keeps eq (admit_room e receiver ordinary count).
Proof. unfold admit_room, exhausted. keep. Qed.
Lemma wlp_admit_request request m Q E :
  (wsr_payload_len request <= limit.MAX_INLINE_PAYLOAD → Q () m) → (∀ e, E e m) → wlp (admit_request request) Q E m.
Proof.
  intros HQ HE. unfold admit_request. apply wlp_bind, wlp_err_if; [done|]. intros Hlen%bool_decide_eq_false.
  apply wlp_bind, wlp_err_if; [done|]. intros _. apply wlp_err_if; [done|]. intros _. apply HQ. lia.
Qed.

(** What an admission does, on every branch. *)
Definition admitted_entry (request : SendRequest) (kind : N) (a : Admission) (caps : list DeliveredCap) : Entry :=
  mkEntry (ad_invocation a) kind (bool_decide (kind = message_kind.FAULT))
    (take (N.to_nat (wsr_payload_len request)) (wsr_payload request)) caps.

Definition admitted_to (e : N) (Q : N → list N) (k k' : Kernel) (x : Entry) : Prop :=
  (Q e = [] ∧ channels (kn_machine k') Q ∧ m_messages (kn_machine k') = m_messages (kn_machine k) ∧
     ∃ buffer, shows k' buffer x) ∨
  (∃ i, (i ∉ Q e) ∧ channels (kn_machine k') (<[e := Q e ++ [i]]> Q) ∧
    entry <$> m_messages (kn_machine k') !! i = Some x ∧
    ∀ j, j ≠ i → entry <$> m_messages (kn_machine k') !! j = entry <$> m_messages (kn_machine k) !! j).

Definition refused_with (Q : N → list N) (code : Z) (k k' : Kernel) : Prop :=
  kn_threads k' = kn_threads k ∧ kn_deferred k' = kn_deferred k ∧
  m_messages (kn_machine k') = m_messages (kn_machine k) ∧ channels (kn_machine k') Q ∧
  (code ≠ status.LIMIT_EXHAUSTED → k' = k) ∧
  (aside (kn_machine k) (kn_machine k') ∨ m_next_object_id (kn_machine k') = U64_MAX).

Lemma refused_unchanged Q code k : channels (kn_machine k) Q → refused_with Q code k k.
Proof. intros C. do 2 (split; [done|]). split; [done|]. split; [done|]. split; [done|]. by left. Qed.
Lemma refused_aside Q code k m :
  channels (kn_machine k) Q → code = status.LIMIT_EXHAUSTED → aside (kn_machine k) m →
  refused_with Q code k (k <| kn_machine := m |>).
Proof.
  intros C -> Ha. split; [done|]. split; [done|]. split; [apply Ha|].
  split; [by eapply channels_lists; [apply aside_lists|]|]. split; [done|by left].
Qed.

(** Neither a queue nor what a receiver was shown. *)
Record quiet (k k' : Kernel) : Prop := {
  qt_lists : same lists (kn_machine k) (kn_machine k');
  qt_invocations : m_invocations (kn_machine k') = m_invocations (kn_machine k);
  qt_responses : same responses k k'
}.
#[global] Instance quiet_preorder : PreOrder quiet.
Proof. split; [by split|]. intros k1 k2 k3 [] []. split; try congruence; by etrans. Qed.

Lemma quiet_shows k k' buffer x : quiet k k' → shows k buffer x → shows k' buffer x.
Proof. intros []. by apply shows_same. Qed.
Lemma keeps_quiet_machine {A} (c : K Machine A) :
  keeps (same lists) c → keeps (same m_invocations) c → keeps quiet (on_machine c).
Proof.
  intros Hl Hi k. apply wlp_on_machine. eapply wlp_mono; [apply wlp_and; [apply Hl|apply Hi]|..];
    intros ? m [H1 H2]; by split.
Qed.
Lemma keeps_quiet_threads {A} (c : K Kernel A) :
  keeps (same kn_machine) c → keeps (same responses) c → keeps quiet c.
Proof.
  intros Hm Hr k. eapply wlp_mono; [apply wlp_and; [apply Hm|apply Hr]|..]; intros ? k' [H1 H2];
    (split; [unfold same; by rewrite H1|by rewrite H1|done]).
Qed.
Lemma keeps_quiet_read {A} (table : Machine → list A) i : keeps quiet (on_machine (at_index table i)).
Proof. apply keeps_quiet_machine; keep. Qed.
Lemma keeps_quiet_receipt now kind domain scope object grant parent result a b reserved :
  keeps quiet (on_machine (receipt now kind domain scope object grant parent result a b reserved)).
Proof. apply keeps_quiet_machine; [keep|]. unfold receipt. keep; reflexivity. Qed.
Lemma keeps_quiet_defer index hint : keeps quiet (defer_wake index hint).
Proof. apply keeps_quiet_threads; [keep|apply keeps_defer_responses]. Qed.
#[export] Hint Resolve keeps_quiet_read keeps_quiet_receipt keeps_quiet_defer : keeps.

Lemma admitted_quiet e Q k k1 k2 x : quiet k1 k2 → admitted_to e Q k k1 x → admitted_to e Q k k2 x.
Proof.
  intros Hq [(He & C & Hm & buffer & Hs)|(i & Hi & C & Hx & Hj)]; pose proof (qt_lists _ _ Hq) as S;
    pose proof S as [= _ Hm' _]; [left|right].
  - split; [done|]. split; [by eapply channels_lists|]. split; [congruence|]. exists buffer. by eapply quiet_shows.
  - exists i. rewrite Hm'. split; [done|]. split; [by eapply channels_lists|]. by split.
Qed.

(** One quiet step after another. *)
Lemma wlp_quiet {A B} (c : K Kernel A) (f : A → K Kernel B) k k0 Q E :
  keeps quiet c → unfailing c → quiet k0 k → (∀ a k', quiet k0 k' → wlp (f a) Q E k') → wlp (c ≫= f) Q E k.
Proof.
  intros Hk Hu Hq Hf. apply wlp_bind. eapply wlp_unfailing; [exact Hk|exact Hu|]. intros a k' H. apply Hf. by etrans.
Qed.

Lemma wlp_admission ctx request kind waiter ns k Q :
  channels (kn_machine k) Q → solvent ctx k →
  wlp (admission ctx request kind waiter ns)
    (λ a k', ∃ caps, admitted_to (obj_index (rs_object (cx_cap ctx))) Q k k' (admitted_entry request kind a caps))
    (λ code k', refused_with Q code k k') k.
Proof.
  intros C [Hwf Hlive]. pose proof (λ code, refused_unchanged Q code k C) as Hsame.
  unfold admission. set (e := obj_index _).
  apply wlp_bind, wlp_pure; [apply keeps_admit_peer| |done]. intros receiver _.
  apply wlp_bind, wlp_on_machine, wlp_admit_request; rewrite with_own_machine; [|done]. intros Hlen.
  apply wlp_bind, wlp_pure; [apply keeps_admit_sources| |done]. intros sources _.
  set (ordinary := negb (bool_decide (kind = message_kind.FAULT))).
  apply wlp_bind, wlp_pure; [apply keeps_admit_room| |done]. intros _ _.
  apply wlp_bind, wlp_bind, wlp_gets, wlp_expect. intros cell Hcell. specialize (Hlive cell Hcell).
  apply wlp_bind, wlp_on_machine. eapply wlp_mono; [apply (wlp_admit_reserve _ _ _ _ Q); try done| |].
  { unfold MESSAGE_OVERHEAD_BYTES, U64_MAX. change limit.MAX_INLINE_PAYLOAD with 256 in Hlen. lia. }
  2:{ intros code m [-> Ha]. by apply refused_aside. }
  intros [[mi ii] charged] m1 (T1 & M1 & U1). cbn [fst snd] in T1, U1.
  apply wlp_bind, wlp_on_machine. eapply wlp_mono; [by eapply wlp_admit_caps| |].
  2:{ intros code m [-> Ha]. exact (refused_aside Q _ k m C eq_refl Ha). }
  intros caps m2 A2. cbn in A2.
  apply wlp_bind, wlp_on_machine. eapply wlp_unfailing; [apply keeps_consume_moves|apply unfailing_consume_moves|].
  intros u m3 A3. cbn in A3. pose proof (aside_lists _ _ (transitivity A2 A3)) as S3.
  pose proof (taken_lists _ _ _ _ S3 T1) as T3.
  apply wlp_bind, wlp_on_machine. eapply wlp_mono; [apply wlp_admit_record| |].
  2:{ intros code m (-> & S4 & Hid). cbn in S4. pose proof (taken_lists _ _ _ _ S4 T3) as T4.
      split; [done|]. split; [done|]. split; [injection S4; injection S3; cbn; congruence|].
      split; [apply T4|]. split; [done|by right]. }
  intros [[id generation] parent] m4 S4. cbn in S4. pose proof (taken_lists _ _ _ _ S4 T3) as T4.
  assert (M4 : m_messages m4 = m_messages (kn_machine k)) by (injection S4; injection S3; congruence).
  clear T1 T3 S3 S4 A2 A3 U1 M1. set (payload := take _ (wsr_payload request)).
  set (x := mkEntry ii kind (negb ordinary) payload caps).
  assert (Hx : admitted_entry request kind (mkAdmission ii generation id) caps = x).
  { unfold admitted_entry, x, ordinary. by rewrite negb_involutive. }
  apply wlp_bind. eapply wlp_mono; [eapply (wlp_admit_direct _ _ _ (negb ordinary)), (tk_channels _ _ _ T4)| |done].
  intros [woken direct] k5 [S5 Hdirect]. unfold lift in S5. cbn in S5, Hdirect.
  pose proof (taken_lists _ _ _ _ S5 T4) as T5.
  assert (M5 : m_messages (kn_machine k5) = m_messages (kn_machine k)) by (injection S5; congruence).
  apply wlp_bind. eapply (wlp_mono _ (λ _ k6, admitted_to e Q k k6 x) _ (λ _ _, False)); [| |done].
  - apply wlp_on_machine. cbn [snd]. destruct direct.
    + destruct (Hdirect eq_refl) as [Hempty [buffer Hshows]]. apply wlp_modify. left. split; [done|].
      split; [by apply taken_release|]. split; [done|]. exists buffer. by eapply shows_same; [| |exact Hshows].
    + eapply wlp_mono; [by apply wlp_admit_queue| |done]. intros _ m6 (C6 & Hi & Hj & _). right.
      exists mi. split; [apply T5|]. split; [done|]. split; [done|]. intros j Hne. cbn. rewrite Hj by done. by rewrite M5.
  - intros u6 k6 Hto. assert (Hk6 : quiet k6 k6) by done.
    apply (wlp_quiet _ _ _ k6); [keep|smooth|done|]. intros channel k7 H7.
    apply (wlp_quiet _ _ _ k6); [keep|smooth|done|]. intros node k8 H8.
    apply (wlp_quiet _ _ _ k6); [keep|smooth|done|]. intros sequence k9 H9.
    apply (wlp_quiet _ _ _ k6); [destruct woken; keep|destruct woken; smooth|done|]. intros u10 k10 H10.
    apply wlp_ret. exists caps. rewrite Hx. by eapply admitted_quiet.
Qed.

(** ** Receive *)

Lemma keeps_claim_receiver domain e : keeps (same lists) (claim_receiver domain e).
Proof. unfold claim_receiver. keep. by apply lists_endpoint_fields. Qed.

(** One turn of a receive. *)
Definition received_from (e : N) (Q : N → list N) (buffer : N) (k k' : Kernel) : Prop :=
  ∃ i l x, Q e = i :: l ∧ m_messages (kn_machine k) !! i = Some x ∧ channels (kn_machine k') (<[e := l]> Q) ∧
    (∀ j, j ≠ i → m_messages (kn_machine k') !! j = m_messages (kn_machine k) !! j) ∧ shows k' buffer (entry x).

Lemma wlp_receive ctx required now k Q :
  channels (kn_machine k) Q →
  wlp (receive_attempt ctx required now)
    (λ r k', ∃ cap, resolve (cx_domain ctx) (cx_handle ctx) required.1 required.2 now (kn_machine k) = Done cap (kn_machine k) ∧
       let e := obj_index (rs_object cap) in
       match r with
       | Some _ => received_from e Q (cx_thread ctx) k k'
       | None => Q e = [] ∧ lift (same lists) k k'
       end)
    (λ _ k', lift (same lists) k k') k.
Proof.
  intros C. unfold receive_attempt.
  apply wlp_bind, wlp_pure; [apply keeps_resolve| |done]. intros cap Hcap. set (e := obj_index _).
  apply wlp_bind, (wlp_beside (same lists)); [apply keeps_claim_receiver| |by intros]. intros _ m1 S1.
  pose proof (channels_lists _ _ _ S1 C) as C1.
  apply wlp_bind, wlp_read. intros ch Hch. cbn in Hch.
  case_bool_decide as Hh; cbn [negb].
  - apply wlp_bind, wlp_err_if; intros _; [exact S1|]. apply wlp_bind, wlp_read. intros name _.
    pose proof (queue_empty _ _ _ _ C1 Hch Hh) as Hempty.
    set (k1 := k <| kn_machine := m1 |>). apply wlp_bind. eapply wlp_unfailing; [apply keeps_prepare_wait| |].
    { unfold prepare_wait_offering. smooth. }
    intros u k2 H2. apply wlp_bind, wlp_change, wlp_ret. exists cap. split; [done|]. split; [done|].
    unfold lift. unfold same in H2. cbn. rewrite H2. etrans; [exact S1|]. by apply lists_endpoint_fields.
  - destruct (Q e) as [|i l] eqn:HQ.
    { exfalso. apply Hh. pose proof (qu_links _ _ _ (ch_queue _ _ C1 e ch Hch)) as Hl. by rewrite HQ in Hl. }
    assert (ep_head ch = i) as ->.
    { pose proof (qu_links _ _ _ (ch_queue _ _ C1 e ch Hch)) as Hl. rewrite HQ in Hl. by destruct Hl. }
    apply wlp_bind, wlp_catch. eapply wlp_mono; [by apply (wlp_deliver _ _ _ _ (k <| kn_machine := m1 |>) Q l)|..].
    + intros ticket k2 (C2 & Hj & x & Hx & Hs). cbn in Hx, Hj. injection S1 as _ Hm _.
      apply wlp_bind. eapply (wlp_shows _ (cx_thread ctx)); [apply keeps_flush_wakes|apply keeps_flush_responses| |exact Hs|].
      { unfold flush_wakes. smooth. }
      intros u k3 H3 Hs3. apply wlp_ret. exists cap. split; [done|]. exists i, l, x.
      split; [done|]. split; [by rewrite <-Hm|]. rewrite H3. split; [done|]. split; [|done].
      intros j Hne. by rewrite Hj, Hm.
    + intros code k2 S2. apply wlp_bind. eapply wlp_unfailing; [apply keeps_flush_wakes| |].
      { unfold flush_wakes. smooth. }
      intros u k3 H3. apply wlp_err. unfold lift, same in *. rewrite H3. cbn in S2. congruence.
Qed.

(** ** The specification *)

(** Contents of the channels when one of them changes. *)
Lemma contents_insert ms ms' (Q : N → list N) (A : N → list Entry) e l x :
  (∀ e', contents ms (Q e') = A e') → contents ms' l = x →
  (∀ e' i, e' ≠ e → i ∈ Q e' → entry <$> ms' !! i = entry <$> ms !! i) →
  ∀ e', contents ms' (<[e := l]> Q e') = <[e := x]> A e'.
Proof.
  intros HA Hx Hms e'. destruct (decide (e = e')) as [<-|Hne].
  - by rewrite !fn_lookup_insert.
  - rewrite !fn_lookup_insert_ne by done. rewrite <-HA. apply contents_ext. intros i Hi. by eapply Hms.
Qed.

Lemma admitted_holds e Q A k k' x :
  channels (kn_machine k) Q → (∀ e, contents (m_messages (kn_machine k)) (Q e) = A e) → admitted_to e Q k k' x →
  (A e = [] ∧ holds (kn_machine k') A ∧ ∃ buffer, shows k' buffer x) ∨
  holds (kn_machine k') (<[e := A e ++ [x]]> A).
Proof.
  intros C HA [(Hempty & C' & Hm & Hs)|(i & Hi & C' & Hx & Hj)].
  - left. split; [by rewrite <-HA, Hempty|]. split; [|done]. exists Q. split; [done|]. by rewrite Hm.
  - right. exists (<[e := Q e ++ [i]]> Q). split; [done|]. apply (contents_insert (m_messages (kn_machine k))); [done| |].
    + rewrite <-HA. by apply (contents_push (m_messages (kn_machine k))).
    + intros e' j Hne Hjq. apply Hj. intros ->. 
      assert (i ∈ <[e := Q e ++ [i]]> Q e) as H1 by (rewrite fn_lookup_insert; apply elem_of_app; right; left).
      assert (i ∈ <[e := Q e ++ [i]]> Q e') as H2 by (by rewrite fn_lookup_insert_ne).
      apply Hne. by apply (ch_apart _ _ C' e' e i).
Qed.

Lemma received_holds e Q A buffer k k' :
  channels (kn_machine k) Q → (∀ e, contents (m_messages (kn_machine k)) (Q e) = A e) → received_from e Q buffer k k' →
  ∃ x rest, A e = x :: rest ∧ holds (kn_machine k') (<[e := rest]> A) ∧ shows k' buffer x.
Proof.
  intros C HA (i & l & x & HQ & Hx & C' & Hj & Hs). exists (entry x), (contents (m_messages (kn_machine k)) l).
  split; [by rewrite <-HA, HQ, contents_cons, Hx|]. split; [|done].
  assert (Hil : i ∉ l).
  { destruct (m_endpoints (kn_machine k) !! e) as [ch|] eqn:Hch; [|by rewrite (ch_none _ _ C e Hch) in HQ].
    pose proof (qu_NoDup _ _ _ (ch_queue _ _ C e ch Hch)) as Hnd. rewrite HQ in Hnd. by apply NoDup_cons in Hnd as []. }
  exists (<[e := l]> Q). split; [done|]. apply (contents_insert (m_messages (kn_machine k))); [done| |].
  - apply contents_ext. intros j Hjl. rewrite Hj; [done|]. by intros ->.
  - intros e' j Hne Hjq. rewrite Hj; [done|]. intros ->. apply Hne, (ch_apart _ _ C e' e i Hjq). rewrite HQ. left.
Qed.


(** C38. A refused admission takes nothing. Whatever code it refuses with, no thread, no
    wake and no message is touched, and the channels, the free messages, the queue bytes
    of every scope and the receipt cells are what they were, with no invocation record
    lost; any code but LIMIT_EXHAUSTED leaves the whole state as it was. The one
    exception is a kernel out of identities. *)
Theorem refused_admission_takes_nothing ctx request kind waiter ns k A code k' :
  holds (kn_machine k) A → solvent ctx k → admission ctx request kind waiter ns k = Fail code k' →
  kn_threads k' = kn_threads k ∧ kn_deferred k' = kn_deferred k ∧
  m_messages (kn_machine k') = m_messages (kn_machine k) ∧ holds (kn_machine k') A ∧
  (code ≠ status.LIMIT_EXHAUSTED → k' = k) ∧
  (aside (kn_machine k) (kn_machine k') ∨ m_next_object_id (kn_machine k') = U64_MAX).
Proof.
  intros (Q & C & HA) Hs Hfail. pose proof (wlp_fail _ _ _ _ _ _ (wlp_admission ctx request kind waiter ns k Q C Hs) Hfail)
    as (H1 & H2 & H3 & H4 & H5 & H6).
  repeat (split; [done|]). split; [exists Q; by rewrite H3|]. by split.
Qed.
