(* ===== verification/IpcWithdraw.v ===== *)
(** * Withdrawal

    The walk that takes messages back out of the queues: it ends, having visited every
    queued message once, and nothing it was to take is left behind. *)

From stdpp Require Import functions.
From S2P Require Import Prelude Abi AbiWire Obj Scope ScopeProofs Ctrl Frame Objects Machine AuthorityOps Thread Hoare.
From S2P Require Import Ipc IpcFrames IpcQueue IpcChannels IpcAdmit.

#[local] Open Scope N_scope.

(** ** What ending obligations changes *)

(** No queue, no new obligation, not the tree. *)
Record wanes (m m' : Machine) : Prop := {
  wn_lists : same lists m m';
  wn_fades : fades (m_invocations m) (m_invocations m');
  wn_tree : sc_parent <$> scopes (m_scopes m') = sc_parent <$> scopes (m_scopes m);
  wn_used : used m' = used m
}.
#[global] Instance wanes_preorder : PreOrder wanes.
Proof. split; [by split|]. intros m1 m2 m3 [] []. split; try congruence; by etrans. Qed.

Lemma tree_of_bytes t t' : bytes t' = bytes t → sc_parent <$> scopes t' = sc_parent <$> scopes t.
Proof.
  intros H. apply (f_equal (fmap fst)) in H. unfold bytes in H. rewrite <-!list_fmap_compose in H. exact H.
Qed.
Lemma aside_wanes m m' : aside m m' → wanes m m'.
Proof. intros H. split; [by apply aside_lists|apply H|apply tree_of_bytes, H|apply H]. Qed.
Lemma keeps_aside_wanes {A} (c : K Machine A) : keeps aside c → keeps wanes c.
Proof. apply keeps_mono, aside_wanes. Qed.
#[export] Hint Extern 2 (keeps wanes _) =>
  apply keeps_aside_wanes; solve [auto with keeps nocore typeclass_instances] : keeps.

Lemma wanes_invocation i f m :
  (∀ x, (inv_state (f x) = ipc.Admitted_ → inv_state x = ipc.Admitted_) ∧ inv_origin_scope (f x) = inv_origin_scope x ∧
    inv_origin_domain (f x) = inv_origin_domain x ∧ inv_origin_domain_generation (f x) = inv_origin_domain_generation x) →
  wanes m (on_invocation i f m).
Proof. intros Hf. split; try reflexivity. by apply fades_alter. Qed.
Lemma wanes_scopes m f :
  sc_parent <$> scopes (f (m_scopes m)) = sc_parent <$> scopes (m_scopes m) → wanes m (m <| m_scopes ::= f |>).
Proof. intros Hf. split; [reflexivity..|exact Hf|reflexivity]. Qed.
Lemma wanes_node s f m : (∀ n, sc_parent (f n) = sc_parent n) → wanes m (on_node s f m).
Proof. intros Hf. apply (wanes_scopes m (on_scope s f)). by apply fmap_alter_same. Qed.
Lemma wanes_release s r a m : wanes m (m <| m_scopes ::= Scope.release s r a |>).
Proof. apply wanes_scopes. apply fmap_for_nodes. by destruct r. Qed.

Lemma keeps_progress {A} scope now (k : K Machine A) :
  keeps wanes k →
  keeps wanes (t ← gets m_scopes; t ← expect (note_progress scope now t); modify (λ m, m <| m_scopes := t |>);; k).
Proof.
  intros Hk m. apply wlp_bind, wlp_gets, wlp_bind, wlp_expect. intros t Ht. apply wlp_bind, wlp_modify.
  assert (wanes m (m <| m_scopes := t |>)) as Hw.
  { unfold note_progress in Ht. destruct (scopes (m_scopes m) !! scope); [|done]. injection Ht as <-.
    by apply (wanes_node scope). }
  eapply wlp_keeps; [exact Hk|intros ?? H; exact (transitivity Hw H)..].
Qed.

Lemma discharged_state x :
  (inv_state (discharged x) = ipc.Admitted_ → inv_state x = ipc.Admitted_) ∧ inv_origin_scope (discharged x) = inv_origin_scope x ∧
    inv_origin_domain (discharged x) = inv_origin_domain x ∧ inv_origin_domain_generation (discharged x) = inv_origin_domain_generation x.
Proof. unfold discharged. cbv zeta. case_decide; by split_and!. Qed.

Lemma keeps_release_wanes index now : keeps wanes (release_invocation index now).
Proof.
  unfold release_invocation. apply keeps_bind; [apply _|keep|intros slot]. case_decide; [keep|].
  repeat match goal with
  | |- keeps _ (gets m_scopes ≫= _) => apply keeps_progress
  | |- keeps _ (_ ≫= _) => apply keeps_bind; [apply _| |intros ?]
  end; keep.
  - apply wanes_invocation, discharged_state.
  - apply wanes_release.
  - by apply wanes_node.
  - by apply wanes_node.
  - by apply wanes_node.
  - split; reflexivity.
Qed.
Lemma unfailing_release_invocation index now : unfailing (release_invocation index now).
Proof. unfold release_invocation. smooth. Qed.

Lemma unfailing_wake_waiter invocation code hint : unfailing (wake_waiter invocation code hint).
Proof. unfold wake_waiter, defer_wake_if. smooth. Qed.
#[export] Hint Resolve keeps_release_wanes : keeps.
#[export] Hint Resolve unfailing_release_invocation unfailing_wake_waiter unfailing_release_caps : unfailing.

Lemma keeps_abort_withdrawn now i x : keeps (lift wanes) (abort_withdrawn now i x).
Proof.
  unfold abort_withdrawn. keep; apply keeps_change; try apply _; intros m.
  - by apply wanes_invocation.
  - by apply wanes_node.
Qed.
Lemma unfailing_abort_withdrawn now i x : unfailing (abort_withdrawn now i x).
Proof. unfold abort_withdrawn. smooth. Qed.

Lemma keeps_abort_orphaned now i x : keeps (lift wanes) (abort_orphaned now i x).
Proof. unfold abort_orphaned. keep. apply keeps_change; [apply _|]. intros m. by apply wanes_invocation. Qed.
Lemma unfailing_abort_orphaned now i x : unfailing (abort_orphaned now i x).
Proof. unfold abort_orphaned. smooth. Qed.

(** ** One message *)

(** A queued cell is cut out of its queue. *)
Lemma channels_cut m m' Q e d c l x ch ch' :
  channels m Q → Q e = d ++ c :: l → m_endpoints m !! e = Some ch → m_messages m !! c = Some x →
  let previous := default NO_MESSAGE (last d) in
  m_endpoints m' !! e = Some ch' →
  link_fields ch' = ((if decide (previous = NO_MESSAGE) then msg_next x else ep_head ch),
     (if decide (ep_tail ch = c) then previous else ep_tail ch),
     ep_queued ch - 1, ep_reserved_used ch - (if msg_reserved_cell x then 1 else 0)) →
  (∀ e', e' ≠ e → link_fields <$> m_endpoints m' !! e' = link_fields <$> m_endpoints m !! e') →
  m_messages m' = cut_links (m_messages m) previous (msg_next x) →
  m_message_free m' = m_message_free m →
  taken m' (<[e := d ++ l]> Q) c.
Proof.
  intros C HQ Hch Hx previous Hch' [= Hh Ht Hq Hr] Hothers Hms Hf.
  pose proof (ch_queue _ _ C e ch Hch) as Hqu. rewrite HQ in Hqu.
  pose proof (qu_NoDup _ _ _ Hqu) as Hnd.
  assert (Hmem : ∀ i, i ∈ d ++ l → i ∈ Q e).
  { intros i [Hi|Hi]%elem_of_app; rewrite HQ; apply elem_of_app; [by left|right; by right]. }
  assert (Hc : c ∈ Q e) by (rewrite HQ; apply elem_of_app; right; left).
  assert (Hlink : ∀ e' i, e' ≠ e → i ∈ Q e' → link (m_messages m') i = link (m_messages m) i).
  { intros e' i Hne Hi. rewrite Hms. unfold cut_links. destruct (decide (previous = NO_MESSAGE)) as [Hp|Hp]; [done|]. apply link_alter_ne.
    intros Heq. apply Hne, (ch_apart _ _ C e' e i Hi), Hmem, elem_of_app. left. rewrite <-Heq.
    subst previous. destruct (last d) as [p|] eqn:Hl; [by eapply last_Some_elem_of|by destruct Hp]. }
  split.
  - eapply (channels_set m); try done.
    + rewrite Hms. by eapply (queues_cut _ ch d c l x ch').
    + intros e' i Hne Hi Hi'. apply Hne, (ch_apart _ _ C e' e i Hi'). by apply Hmem.
    + intros i Hi. rewrite Hf. by apply (ch_busy _ _ C e), Hmem.
    + intros e' i _ Hi. rewrite Hf. by apply (ch_busy _ _ C e').
    + intros i. rewrite Hf. apply (ch_word _ _ C).
    + rewrite Hms. unfold cut_links. destruct (decide (previous = NO_MESSAGE)); rewrite ?tlen_alter; apply (ch_size _ _ C).
  - intros e' Hi. destruct (decide (e' = e)) as [->|Hne].
    + rewrite fn_lookup_insert in Hi. apply NoDup_app in Hnd as (_ & Hd & [Hl _]%NoDup_cons).
      apply elem_of_app in Hi as [Hi|Hi]; [|done]. apply (Hd c Hi). left.
    + rewrite fn_lookup_insert_ne in Hi by done. by apply Hne, (ch_apart _ _ C e' e c).
  - by eapply cell_lt.
  - rewrite Hf. by apply (ch_busy _ _ C e).
Qed.

Lemma wlp_unlink e d c l x m Q :
  channels m Q → Q e = d ++ c :: l → m_messages m !! c = Some x →
  wlp (unlink e (default NO_MESSAGE (last d)) c x)
    (λ _ m', taken m' (<[e := d ++ l]> Q) c ∧ m_messages m' = cut_links (m_messages m) (default NO_MESSAGE (last d)) (msg_next x) ∧
       m_invocations m' = m_invocations m ∧ m_scopes m' = m_scopes m ∧ used m' = used m)
    (λ _ _, False) m.
Proof.
  intros C HQ Hx. unfold unlink. set (previous := default NO_MESSAGE (last d)).
  assert (∃ ch, m_endpoints m !! e = Some ch) as [ch Hch].
  { destruct (m_endpoints m !! e) as [ch|] eqn:Hch; [by exists ch|]. rewrite (ch_none _ _ C e Hch) in HQ. by destruct d. }
  apply wlp_bind. eapply (wlp_mono _ (λ _ m1, m_endpoints m1 = alter (λ k, k <| ep_head := if decide (previous = NO_MESSAGE) then msg_next x else ep_head ch |>) e (m_endpoints m) ∧
    m_messages m1 = cut_links (m_messages m) previous (msg_next x) ∧ m_message_free m1 = m_message_free m ∧
    m_invocations m1 = m_invocations m ∧ m_scopes m1 = m_scopes m ∧ used m1 = used m) _ (λ _ _, False)); [| |done].
  - unfold cut_links. case_decide.
    + by apply wlp_modify.
    + apply wlp_bind, wlp_at_index. intros y _. apply wlp_modify. split; [|done]. cbn.
      symmetry. apply table_eq. intros j. rewrite table_alter. case_decide as Hj; [|done]. subst j.
      rewrite Hch. by destruct ch.
  - intros u m1 (He & Hms & Hf & Hi & Hs & Hu). apply wlp_modify. set (m2 := on_endpoint _ _ _).
    destruct (endpoints_alter m m1 e _ ch He Hch) as [He1 Ho1].
    destruct (endpoints_alter m1 m2 e _ _ eq_refl He1) as [He2 Ho2].
    split; [|done]. eapply (channels_cut m m2 Q e d c l x ch); try done.
    + unfold link_fields. cbn. unfold saturating_sub. destruct (msg_reserved_cell x); repeat f_equal; lia.
    + intros e' Hne. by rewrite Ho2, Ho1.
Qed.

Lemma entry_cut ms p n j : entry <$> cut_links ms p n !! j = entry <$> ms !! j.
Proof.
  unfold cut_links. case_decide; [done|]. rewrite table_alter. case_decide; [|done]. by destruct (ms !! j).
Qed.
Lemma cut_links_ne ms p n j : j ≠ p → cut_links ms p n !! j = ms !! j.
Proof. intros. unfold cut_links. case_decide; [done|]. by rewrite table_alter_ne. Qed.

(** What a withdrawal does to the rest. *)
Record loses (c : N) (m m' : Machine) : Prop := {
  ls_entries j : j ≠ c → entry <$> m_messages m' !! j = entry <$> m_messages m !! j;
  ls_fades : fades (m_invocations m) (m_invocations m');
  ls_tree : sc_parent <$> scopes (m_scopes m') = sc_parent <$> scopes (m_scopes m);
  ls_used : used m' = used m
}.

Lemma taken_empty m Q c : taken m Q c → taken (on_message c (λ _, Message.empty) m) Q c.
Proof.
  intros [[Cq Cn Ca Cb Cw Cs] Ha Hl Hb]. split; [|done..]. split; try done.
  - intros e ch Hch. eapply queues_ext; [|done|by apply Cq]. intros j Hj. apply link_alter_ne. intros ->. by apply (Ha e).
  - cbn. by rewrite tlen_alter.
Qed.

Lemma wlp_withdraw_message e d c l x m Q :
  channels m Q → Q e = d ++ c :: l → m_messages m !! c = Some x →
  wlp (withdraw_message e (default NO_MESSAGE (last d)) c x)
    (λ _ m', channels m' (<[e := d ++ l]> Q) ∧ loses c m m') (λ _ _, False) m.
Proof.
  intros C HQ Hx. unfold withdraw_message. apply wlp_bind.
  eapply wlp_mono; [by eapply wlp_unlink| |done]. intros u m1 (T1 & M1 & I1 & S1 & U1).
  apply wlp_bind, wlp_at_index. intros ch _. apply wlp_bind.
  eapply wlp_unfailing; [apply keeps_release_caps|apply unfailing_release_caps|]. intros u2 m2 A2.
  pose proof (taken_lists _ _ _ _ (aside_lists _ _ A2) T1) as T2.
  apply wlp_bind, wlp_modify, wlp_modify. split; [by apply taken_release, taken_empty|].
  destruct (aside_wanes _ _ A2) as [Sl F2 Tr2 U2]. injection Sl as _ Hm _. split; cbn.
  - intros j Hj. rewrite table_alter_ne by done. by rewrite Hm, M1, entry_cut.
  - by rewrite <-I1.
  - by rewrite Tr2, S1.
  - unfold used in *. cbn. by rewrite U2, U1.
Qed.

(** The messages it rewrites: the one withdrawn and the one before it. *)
Definition except (p c : N) (m m' : Machine) : Prop :=
  ∀ j, j ≠ p → j ≠ c → m_messages m' !! j = m_messages m !! j.
#[global] Instance except_preorder p c : PreOrder (except p c).
Proof. split; [by intros m j|]. intros m1 m2 m3 H1 H2 j Hp Hc. by rewrite H2, H1. Qed.

Lemma keeps_withdraw_except e p c x : keeps (except p c) (withdraw_message e p c x).
Proof.
  assert (Ha : ∀ r caps, keeps (except p c) (release_caps r caps)).
  { intros r caps. eapply keeps_mono; [|apply keeps_release_caps]. intros m m' Has j _ _. by rewrite (as_messages _ _ Has). }
  unfold withdraw_message, unlink. keep; try done.
  - intros j Hp Hc. cbn. by rewrite table_alter_ne.
  - intros j Hp Hc. cbn. by rewrite table_alter_ne.
Qed.

(** ** The walk *)

Section walk.
Context (leaves : Invocation → Machine → bool) (gone : N → Message → K Kernel ()).

(** One pass over the cells [l]: by recursion on the list, not on a bound. *)
Fixpoint withdraw_each (e previous : N) (l : list N) (withdrawn : N) : K Kernel N :=
  match l with
  | [] => mret withdrawn
  | current :: l =>
      message ← on_machine (at_index m_messages current);
      slot ← on_machine (at_index m_invocations (msg_invocation message));
      m ← gets kn_machine;
      if leaves slot m then
        on_machine (withdraw_message e previous current message);;
        gone (msg_invocation message) message;;
        withdraw_each e previous l (withdrawn + 1)
      else withdraw_each e current l withdrawn
  end.
Fixpoint withdraw_all (Q : N → list N) (endpoints : list N) (withdrawn : N) : K Kernel N :=
  match endpoints with
  | [] => mret withdrawn
  | e :: endpoints =>
      name ← on_machine (at_index m_endpoint_ids e);
      if ei_used name then
        _ ← on_machine (at_index m_endpoints e);
        withdrawn ← withdraw_each e NO_MESSAGE (Q e) withdrawn;
        withdraw_all Q endpoints withdrawn
      else withdraw_all Q endpoints withdrawn
  end.

(** What [leaves] takes does not come back. *)
Definition steady : Prop := ∀ m m' i x x',
  sc_parent <$> scopes (m_scopes m') = sc_parent <$> scopes (m_scopes m) →
  fades (m_invocations m) (m_invocations m') → m_invocations m !! i = Some x → m_invocations m' !! i = Some x' →
  leaves x m = false → leaves x' m' = false.

Context (Hgone : ∀ i x, keeps (lift wanes) (gone i x)) (Hquiet : ∀ i x, unfailing (gone i x)) (Hsteady : steady).

Lemma bind_ext {S A B} (c : K S A) (f g : A → K S B) s :
  wlp c (λ a s', f a s' = g a s') (λ _ _, True) s → (c ≫= f) s = (c ≫= g) s.
Proof. unfold wlp, mbind, K_bind. by destruct (c s). Qed.

(** The links of the rest stay while a message before it goes. *)
Lemma segment_except p c m m' h l :
  except p c m m' → p ∉ l → c ∉ l → segment (m_messages m) h l NO_MESSAGE → segment (m_messages m') h l NO_MESSAGE.
Proof.
  intros He Hp Hc. apply segment_ext. intros j Hj. unfold link. rewrite He; [done|..]; by intros ->.
Qed.

(** With as many turns as the queue is long the walk never runs out. *)
Lemma walk_is_each e l : ∀ turns previous current withdrawn k,
  segment (m_messages (kn_machine k)) current l NO_MESSAGE → NoDup l → previous ∉ l → (length l <= turns)%nat →
  walk_queue turns leaves gone e previous current withdrawn k = withdraw_each e previous l withdrawn k.
Proof.
  induction l as [|c l IH]; intros turns previous current withdrawn k Hs Hnd Hp Ht.
  { cbn in Hs. subst. by destruct turns. }
  destruct turns as [|turns]; [cbn in Ht; lia|]. destruct Hs as (-> & Hc & x & Hx & Hs).
  apply NoDup_cons in Hnd as [Hcl Hnd]. apply not_elem_of_cons in Hp as [Hpc Hp].
  cbn [walk_queue withdraw_each]. rewrite decide_False by done.
  apply bind_ext, wlp_read. intros y Hy. replace y with x by congruence.
  apply bind_ext, wlp_read. intros slot _. apply bind_ext, wlp_gets.
  destruct (leaves slot (kn_machine k)).
  - apply bind_ext, (wlp_beside (except previous c)); [apply keeps_withdraw_except| |done]. intros u m1 H1.
    apply bind_ext. eapply wlp_keeps; [apply Hgone| |done]. intros u2 k2 H2. apply IH; [|done|done|cbn in Ht; lia].
    apply (segment_except previous c (kn_machine k)); [|done..]. intros j Hj Hj'.
    destruct H2 as [Hl _ _ _]. injection Hl as _ Hm _. rewrite Hm. by apply H1.
  - apply IH; [done|done|done|cbn in Ht; lia].
Qed.

(** ** What the pass leaves *)

(** From [k] to [k'] the cells of [kept] stayed on channel [e], what they hold with them. *)
Record passed (e : N) (Q : N → list N) (kept : list N) (k k' : Kernel) : Prop := {
  ps_channels : channels (kn_machine k') (<[e := kept]> Q);
  ps_entries e' j : j ∈ <[e := kept]> Q e' → entry <$> m_messages (kn_machine k') !! j = entry <$> m_messages (kn_machine k) !! j;
  ps_fades : fades (m_invocations (kn_machine k)) (m_invocations (kn_machine k'));
  ps_tree : sc_parent <$> scopes (m_scopes (kn_machine k')) = sc_parent <$> scopes (m_scopes (kn_machine k));
  ps_used : used (kn_machine k') = used (kn_machine k)
}.

(** Nothing among [l] is to leave. *)
Definition settled (m : Machine) (l : list N) : Prop :=
  ∀ i x slot, i ∈ l → m_messages m !! i = Some x → m_invocations m !! msg_invocation x = Some slot → leaves slot m = false.

Lemma settled_later m m' l :
  (∀ j, j ∈ l → entry <$> m_messages m' !! j = entry <$> m_messages m !! j) →
  fades (m_invocations m) (m_invocations m') → sc_parent <$> scopes (m_scopes m') = sc_parent <$> scopes (m_scopes m) →
  settled m l → settled m' l.
Proof.
  intros He Hf Ht Hs i x' slot' Hi Hx' Hslot'. specialize (He i Hi). rewrite Hx' in He.
  destruct (m_messages m !! i) as [x|] eqn:Hx; [|done]. injection He as Hinv _ _ _ _.
  destruct (Hf _ _ Hslot') as (slot & Hslot & _). eapply (Hsteady m m'); [done|done|done|done|].
  eapply Hs; [done|done|]. by rewrite <-Hinv.
Qed.

Lemma fn_insert_twice (Q : N → list N) e l l' e' : <[e := l]> (<[e := l']> Q) e' = <[e := l]> Q e'.
Proof. unfold insert, fn_insert. by destruct (decide (e = e')). Qed.
Lemma channels_same m Q Q' : (∀ e, Q e = Q' e) → channels m Q → channels m Q'.
Proof.
  intros H [Cq Cn Ca Cb Cw Cs]. split; try done; intros *; rewrite <-?H; [apply Cq|apply Cn|apply Ca|apply Cb].
Qed.

Lemma passed_refl e Q l k : channels (kn_machine k) Q → Q e = l → passed e Q l k k.
Proof.
  intros C <-. split; try done. eapply channels_same; [|done]. intros e'. unfold insert, fn_insert.
  by case_decide; [subst|].
Qed.

(** A message is withdrawn and then the pass goes on. *)
Lemma passed_loses e Q c l kept k k1 k' :
  c ∉ kept → (∀ e', e' ≠ e → c ∉ Q e') → loses c (kn_machine k) (kn_machine k1) →
  passed e (<[e := l]> Q) kept k1 k' → passed e Q kept k k'.
Proof.
  intros Hc Ho [Le Lf Lt Lu] [Pc Pe Pf Pt Pu]. split; [|intros e' j Hj|by etrans|congruence..].
  - eapply channels_same; [|exact Pc]. intros e'. apply fn_insert_twice.
  - rewrite Pe with e' j by by rewrite fn_insert_twice. apply Le. intros ->.
    destruct (decide (e' = e)) as [->|Hne]; [by rewrite fn_lookup_insert in Hj|].
    rewrite fn_lookup_insert_ne in Hj by done. by apply (Ho e').
Qed.

Lemma loses_wanes c m m1 m2 : loses c m m1 → wanes m1 m2 → loses c m m2.
Proof.
  intros [Le Lf Lt Lu] [[= _ Hm _] Wf Wt Wu]. split; [|by etrans|congruence..]. intros j Hj. rewrite Hm. by apply Le.
Qed.

Lemma wlp_withdraw_each e : ∀ l d withdrawn Q k,
  channels (kn_machine k) Q → Q e = d ++ l → settled (kn_machine k) d →
  wlp (withdraw_each e (default NO_MESSAGE (last d)) l withdrawn)
    (λ n k', ∃ l', l' `sublist_of` l ∧ passed e Q (d ++ l') k k' ∧ settled (kn_machine k') (d ++ l') ∧
       n + tlen l' = withdrawn + tlen l) (λ _ _, False) k.
Proof.
  induction l as [|c l IH]; intros d withdrawn Q k C HQ Hd; cbn [withdraw_each].
  { apply wlp_ret. exists []. rewrite app_nil_r in *. split; [done|]. by split; [apply passed_refl|]. }
  apply wlp_bind, wlp_read. intros x Hx. apply wlp_bind, wlp_read. intros slot Hslot. apply wlp_bind, wlp_gets.
  assert (Hnd : NoDup (d ++ c :: l)).
  { destruct (m_endpoints (kn_machine k) !! e) as [ch|] eqn:Hch; [|by rewrite (ch_none _ _ C e Hch) in HQ; destruct d].
    rewrite <-HQ. apply (qu_NoDup _ _ _ (ch_queue _ _ C e ch Hch)). }
  destruct (leaves slot (kn_machine k)) eqn:Hl.
  - apply wlp_bind, wlp_on_machine. eapply wlp_mono; [by eapply wlp_withdraw_message| |done].
    intros u m1 (C1 & L1). apply wlp_bind. eapply wlp_unfailing; [apply Hgone|apply Hquiet|]. intros u2 k2 H2.
    unfold lift in H2. cbn in H2. pose proof (channels_lists _ _ _ (wn_lists _ _ H2) C1) as C2.
    pose proof (loses_wanes _ _ _ _ L1 H2) as L2.
    pose proof Hnd as (_ & Hdc & [Hcl _]%NoDup_cons)%NoDup_app.
    assert (Hcd : c ∉ d) by (intros Hc; apply (Hdc c Hc); left).
    eapply wlp_mono; [apply (IH d _ (<[e := d ++ l]> Q)); [exact C2|apply fn_lookup_insert|]| |done].
    + eapply settled_later; [|apply L2|apply L2|exact Hd]. intros j Hj. apply L2. by intros ->.
    + intros n k' (l' & Hsub & Hp & Hset & Hn). exists l'. split; [by apply sublist_cons|]. split; [|split; [done|rewrite tlen_cons; lia]].
      eapply passed_loses; [| |exact L2|exact Hp].
      * intros [Hc|Hc]%elem_of_app; [done|]. apply Hcl. by eapply elem_of_submseteq; [|apply sublist_submseteq].
      * intros e' Hne Hc. apply Hne, (ch_apart _ _ C e' e c Hc). rewrite HQ. apply elem_of_app. right. left.
  - assert (default NO_MESSAGE (last (d ++ [c])) = c) as Hlast by by rewrite last_snoc.
    rewrite <-Hlast at 1. eapply wlp_mono; [apply (IH (d ++ [c]) _ Q); [done|by rewrite <-app_assoc|]| |done].
    + intros i y s [Hi| ->%list_elem_of_singleton]%elem_of_app Hy Hs; [by eapply Hd|].
      replace y with x in Hs by congruence. congruence.
    + intros n k' (l' & Hsub & Hp & Hset & Hn). exists (c :: l'). rewrite <-app_assoc in Hp, Hset.
      split; [by apply sublist_skip|]. split; [done|]. split; [done|]. rewrite !tlen_cons. lia.
Qed.

(** ** Every channel *)

Lemma bind_cong {S A B} (c c' : K S A) (f g : A → K S B) s :
  c s = c' s → wlp c' (λ a s', f a s' = g a s') (λ _ _, True) s → (c ≫= f) s = (c' ≫= g) s.
Proof. intros Hc. unfold wlp, mbind, K_bind. rewrite Hc. by destruct (c' s). Qed.

Lemma none_unqueued m Q e : channels m Q → NO_MESSAGE ∉ Q e.
Proof. intros C Hi. pose proof (cell_lt m Q e _ C Hi) as H. by vm_compute in H. Qed.

(** A pass over one channel leaves the other queues where they were. *)
Lemma wlp_withdraw_queue e withdrawn Q k :
  channels (kn_machine k) Q →
  wlp (withdraw_each e NO_MESSAGE (Q e) withdrawn)
    (λ n k', ∃ l, l `sublist_of` Q e ∧ passed e Q l k k' ∧ settled (kn_machine k') l ∧
       n + tlen l = withdrawn + tlen (Q e)) (λ _ _, False) k.
Proof.
  intros C. apply (wlp_withdraw_each e (Q e) [] withdrawn Q k C); [done|]. by intros i x s Hi%not_elem_of_nil.
Qed.

Lemma walk_is_all Q : ∀ endpoints withdrawn k Q',
  channels (kn_machine k) Q' → NoDup endpoints → (∀ e, e ∈ endpoints → Q' e = Q e) →
  walk_endpoints leaves gone endpoints withdrawn k = withdraw_all Q endpoints withdrawn k.
Proof.
  induction endpoints as [|e endpoints IH]; intros withdrawn k Q' C Hnd HQ; [done|].
  apply NoDup_cons in Hnd as [He Hnd]. cbn [walk_endpoints withdraw_all].
  apply bind_ext, wlp_read. intros name _.
  assert (Hrest : ∀ e', e' ∈ endpoints → Q' e' = Q e') by (intros; apply HQ; by right).
  destruct (ei_used name); [|by eapply IH].
  apply bind_ext, wlp_read. intros ch Hch. rewrite <-(HQ e ltac:(left)).
  pose proof (ch_queue _ _ C e ch Hch) as Hq. apply bind_cong.
  - apply walk_is_each; [apply Hq|apply Hq|by eapply none_unqueued|].
    pose proof (channels_short _ _ e C) as Hs. unfold tlen in Hs. lia.
  - eapply wlp_mono; [by apply wlp_withdraw_queue| |done]. intros n k' (l & _ & Hp & _).
    apply (IH n k' (<[e := l]> Q')); [apply Hp|done|]. intros e' He'. rewrite fn_lookup_insert_ne; [by apply Hrest|].
    by intros ->.
Qed.

Definition total (Q : N → list N) (endpoints : list N) : N := tsum (λ e, tlen (Q e)) endpoints.

(** What is left when the walk is over. *)
Record withdrew (endpoints : list N) (Q Q' : N → list N) (k k' : Kernel) : Prop := {
  wd_channels : channels (kn_machine k') Q';
  wd_sublist e : Q' e `sublist_of` Q e;
  wd_others e : e ∉ endpoints → Q' e = Q e;
  wd_entries e j : j ∈ Q' e → entry <$> m_messages (kn_machine k') !! j = entry <$> m_messages (kn_machine k) !! j;
  wd_fades : fades (m_invocations (kn_machine k)) (m_invocations (kn_machine k'));
  wd_tree : sc_parent <$> scopes (m_scopes (kn_machine k')) = sc_parent <$> scopes (m_scopes (kn_machine k));
  wd_used : used (kn_machine k') = used (kn_machine k);
  wd_settled e : e ∈ endpoints → used (kn_machine k) !! e = Some true → settled (kn_machine k') (Q' e)
}.

Lemma withdrew_step e endpoints l Q Q2 k k1 k2 :
  e ∉ endpoints → l `sublist_of` Q e → passed e Q l k k1 → settled (kn_machine k1) l →
  withdrew endpoints (<[e := l]> Q) Q2 k1 k2 → withdrew (e :: endpoints) Q Q2 k k2.
Proof.
  intros He Hl [Pc Pe Pf Pt Pu] Hs [Wc Ws Wo We Wf Wt Wu Wse].
  assert (Hsub : ∀ e', Q2 e' `sublist_of` <[e := l]> Q e') by done. 
  assert (HQ2 : Q2 e = l) by (rewrite Wo by done; apply fn_lookup_insert).
  split; [done| | | |by etrans|congruence..|].
  - intros e'. destruct (decide (e' = e)) as [->|Hne]; [by rewrite HQ2|]. specialize (Ws e').
    by rewrite fn_lookup_insert_ne in Ws.
  - intros e' [Hne Hni]%not_elem_of_cons. by rewrite Wo, fn_lookup_insert_ne.
  - intros e' j Hj. rewrite We with e' j by done. apply Pe with e'. by eapply elem_of_sublist.
  - intros e' [->|He']%elem_of_cons Hu.
    + rewrite HQ2. eapply settled_later; [|exact Wf|exact Wt|exact Hs]. intros j Hj. apply We with e. by rewrite HQ2.
    + apply Wse; [done|]. by rewrite Pu.
Qed.

Lemma withdrew_skip e endpoints Q Q2 k k2 :
  e ∉ endpoints → used (kn_machine k) !! e = Some false →
  withdrew endpoints Q Q2 k k2 → withdrew (e :: endpoints) Q Q2 k k2.
Proof.
  intros He Hu [Wc Ws Wo We Wf Wt Wu Wse]. split; try done.
  - intros e' [_ Hni]%not_elem_of_cons. by apply Wo.
  - intros e' [->|He']%elem_of_cons Hu'; [congruence|by apply Wse].
Qed.

Lemma used_lookup m e name : m_endpoint_ids m !! e = Some name → used m !! e = Some (ei_used name).
Proof. intros H. unfold used. by rewrite table_fmap, H. Qed.

Lemma wlp_withdraw_all : ∀ endpoints withdrawn k Q,
  channels (kn_machine k) Q → NoDup endpoints →
  wlp (withdraw_all Q endpoints withdrawn)
    (λ n k', ∃ Q', withdrew endpoints Q Q' k k' ∧ n + total Q' endpoints = withdrawn + total Q endpoints)
    (λ _ _, False) k.
Proof.
  enough (H : ∀ endpoints withdrawn k Q Q0,
    channels (kn_machine k) Q → NoDup endpoints → (∀ e, e ∈ endpoints → Q e = Q0 e) →
    wlp (withdraw_all Q0 endpoints withdrawn)
      (λ n k', ∃ Q', withdrew endpoints Q Q' k k' ∧ n + total Q' endpoints = withdrawn + total Q endpoints)
      (λ _ _, False) k) by (intros; by eapply H).
  induction endpoints as [|e endpoints IH]; intros withdrawn k Q Q0 C Hnd HQ.
  { apply wlp_ret. exists Q. split; [|done]. split; try done. by intros e' He'%not_elem_of_nil. }
  apply NoDup_cons in Hnd as [He Hnd]. cbn [withdraw_all].
  assert (Htotal : ∀ Q : N → list N, total Q (e :: endpoints) = tlen (Q e) + total Q endpoints) by done.
  apply wlp_bind, wlp_read. intros name Hname. pose proof (used_lookup _ _ _ Hname) as Hu.
  destruct (ei_used name).
  - apply wlp_bind, wlp_read. intros ch Hch. rewrite <-(HQ e ltac:(left)). apply wlp_bind.
    eapply wlp_mono; [by apply wlp_withdraw_queue| |done]. intros n k1 (l & Hl & Hp & Hs & Hn).
    eapply wlp_mono; [apply (IH n k1 (<[e := l]> Q) Q0); [apply Hp|done|]| |done].
    { intros e' He'. rewrite fn_lookup_insert_ne; [apply HQ; by right|]. by intros ->. }
    intros n2 k2 (Q2 & HW & Hn2). exists Q2. split; [by eapply withdrew_step|].
    rewrite !Htotal. assert (Q2 e = l) as -> by (rewrite (wd_others _ _ _ _ _ HW) by done; apply fn_lookup_insert).
    assert (total (<[e := l]> Q) endpoints = total Q endpoints) as Ht; [|lia].
    { clear -He. induction endpoints as [|e' es IH]; [done|]. apply not_elem_of_cons in He as [Hne He].
      change (total (<[e := l]> Q) (e' :: es)) with (tlen (<[e := l]> Q e') + total (<[e := l]> Q) es).
      rewrite fn_lookup_insert_ne by done. by rewrite (IH He). }
  - eapply wlp_mono; [apply (IH withdrawn k Q Q0); [done|done|intros; apply HQ; by right]| |done].
    intros n k' (Q2 & HW & Hn). exists Q2. split; [by apply withdrew_skip|]. rewrite !Htotal.
    rewrite (wd_others _ _ _ _ _ HW e He). lia.
Qed.
End walk.

(** ** A barrier's withdrawal *)

(** The messages a barrier on [root] takes back: admitted from inside the perimeter. *)
Definition undelivered_within (root : ScopeId) (slot : Invocation) (m : Machine) : bool :=
  bool_decide (inv_state slot = ipc.Admitted_) && is_within (m_scopes m) root (inv_origin_scope slot).

Lemma undelivered_steady root : steady (undelivered_within root).
Proof.
  intros m m' i x x' Ht Hf Hx Hx'. destruct (Hf i x' Hx') as (y & Hy & Ha & Hs & _).
  replace y with x in * by congruence. unfold undelivered_within.
  rewrite Hs, (is_within_ext (m_scopes m') (m_scopes m)).
  2:{ intros j. pose proof (f_equal (λ l, l !! j) Ht) as Hj. cbn in Hj. rewrite !table_fmap in Hj.
      destruct (scopes (m_scopes m) !! j), (scopes (m_scopes m') !! j); try done. cbn in Hj |- *.
      unfold parent. by injection Hj as ->. }
  destruct (is_within _ _ _); [|by rewrite !andb_false_r]. rewrite !andb_true_r.
  intros H%bool_decide_eq_false. apply bool_decide_eq_false. auto.
Qed.
