(* ===== verification/IpcTotal.v ===== *)
(** * No withdrawal panics

    The indices the withdrawal of a message follows -- its capabilities, their grants,
    its invocation, the scopes that answer for it -- are in range and stay so, so none of
    its steps panics. *)

From stdpp Require Import functions.
From S2P Require Import Prelude Abi AbiWire Obj Scope ScopeProofs Ctrl Frame Objects Machine AuthorityOps Thread Hoare.
From S2P Require Import Ipc IpcFrames IpcQueue IpcChannels IpcAdmit IpcWithdraw.

#[local] Open Scope N_scope.

(** ** Indices in range *)

Definition node_in (m : Machine) (g : GrantId) : Prop := g = NO_GRANT ∨ g < tlen (m_grants m).
Definition scope_in (m : Machine) (s : ScopeId) : Prop := s < tlen (scopes (m_scopes m)).

Record ranged (m : Machine) : Prop := {
  rg_caps d D s e : m_domains m !! d = Some D → slots (dom_caps D) !! s = Some e → cap_live e = true →
    node_in m (cap_grant e) ∧ obj_index (cap_object e) < table_size m (obj_kind (cap_object e));
  rg_grants i n : m_grants m !! i = Some n → node_in m (g_parent n);
  rg_invocations i x : m_invocations m !! i = Some x →
    scope_in m (inv_origin_scope x) ∧ scope_in m (inv_closure_service x) ∧ node_in m (inv_grant x)
}.

(** The tables keep their sizes, the channels their receivers, every index its range. *)
Record sturdy (m m' : Machine) : Prop := {
  sd_sizes k : table_size m' k = table_size m k;
  sd_grants : tlen (m_grants m') = tlen (m_grants m);
  sd_receivers : ep_receiver_domain <$> m_endpoints m' = ep_receiver_domain <$> m_endpoints m;
  sd_ranged : ranged m → ranged m'
}.
#[global] Instance sturdy_preorder : PreOrder sturdy.
Proof. split; [by split|]. intros m1 m2 m3 [] []. split; try congruence; auto. Qed.

(** An operation that, from indices in range, neither panics nor fails and is sturdy. *)
Definition firm {A} (c : K Machine A) (m : Machine) : Prop :=
  ranged m → wp c (λ _, sturdy m) (λ _ _, False) m.

Lemma firm_bind {A B} (c : K Machine A) (f : A → K Machine B) m :
  firm c m → (∀ a m', sturdy m m' → firm (f a) m') → firm (c ≫= f) m.
Proof.
  intros Hc Hf Hr. apply wp_bind. eapply wp_mono; [by apply Hc| |done]. intros a m' Hs.
  eapply wp_mono; [by apply Hf, (sd_ranged _ _ Hs)| |done]. intros b m2 Hs2. exact (transitivity Hs Hs2).
Qed.
Lemma firm_ret {A} (a : A) m : firm (mret a) m.
Proof. intros _. by apply wp_ret. Qed.
Lemma firm_gets {A} (f : Machine → A) m : firm (gets f) m.
Proof. intros _. by apply wp_gets. Qed.
Lemma firm_modify f m : (ranged m → sturdy m (f m)) → firm (modify f) m.
Proof. intros Hf Hr. apply wp_modify. by apply Hf. Qed.
(** A table read in range. *)
Lemma firm_at {A B} (table : Machine → list A) i (f : A → K Machine B) m :
  (ranged m → i < tlen (table m)) → (∀ x, table m !! i = Some x → firm (f x) m) → firm (at_index table i ≫= f) m.
Proof.
  intros Hi Hf Hr. destruct (proj1 (table_lookup_is_Some _ _) (Hi Hr)) as [x Hx].
  apply wp_bind. eapply wp_at_index; [exact Hx|]. by apply Hf.
Qed.
Lemma firm_for_each {A} (l : list A) (body : A → K Machine ()) m :
  (∀ x m', x ∈ l → sturdy m m' → firm (body x) m') → firm (for_each l body) m.
Proof.
  revert m. induction l as [|x l IH]; intros m Hb; [apply firm_ret|].
  apply firm_bind; [by apply Hb; [left|]|]. intros _ m' Hs. apply IH. intros y m2 Hy Hs2.
  apply Hb; [by right|exact (transitivity Hs Hs2)].
Qed.

(** ** Writes that keep ranges *)

Lemma tlen_fmap {A B} (f : A → B) l : tlen (f <$> l) = tlen l.
Proof. unfold tlen. by rewrite length_fmap. Qed.

(** Ranges and sizes are untouched by what they do not mention. *)
Lemma sturdy_intro m m' :
  (∀ k, table_size m' k = table_size m k) → tlen (m_grants m') = tlen (m_grants m) →
  ep_receiver_domain <$> m_endpoints m' = ep_receiver_domain <$> m_endpoints m →
  dom_caps <$> m_domains m' = dom_caps <$> m_domains m →
  (ranged m → ∀ i n, m_grants m' !! i = Some n → node_in m (g_parent n)) →
  (ranged m → ∀ i x, m_invocations m' !! i = Some x →
     scope_in m (inv_origin_scope x) ∧ scope_in m (inv_closure_service x) ∧ node_in m (inv_grant x)) →
  sturdy m m'.
Proof.
  intros Hk Hg Hrc Hd Hn Hi. split; [done..|]. intros Hr.
  assert (Hnode : ∀ g, node_in m g → node_in m' g) by (unfold node_in; by rewrite Hg).
  assert (Hscope : ∀ s, scope_in m s → scope_in m' s).
  { pose proof (Hk Obj.Scope) as Hs. cbn in Hs. unfold scope_in. by rewrite Hs. }
  split.
  - intros d D s e HD He Hl. assert (dom_caps <$> m_domains m !! d = Some (dom_caps D)) as Hdd.
    { by rewrite <-table_fmap, <-Hd, table_fmap, HD. }
    apply fmap_Some in Hdd as (D0 & HD0 & Heq). rewrite Heq in He.
    destruct (rg_caps _ Hr d D0 s e HD0 He Hl) as [H1 H2]. split; [by apply Hnode|by rewrite Hk].
  - intros i n Hin. by apply Hnode, (Hn Hr i).
  - intros i x Hix. destruct (Hi Hr i x Hix) as (H1 & H2 & H3). split_and!; auto.
Qed.

Lemma sizes_of m m' :
  tlen (scopes (m_scopes m')) = tlen (scopes (m_scopes m)) → tlen (m_domains m') = tlen (m_domains m) →
  tlen (m_memories m') = tlen (m_memories m) → tlen (m_endpoint_ids m') = tlen (m_endpoint_ids m) →
  tlen (m_endpoints m') = tlen (m_endpoints m) → tlen (m_invocations m') = tlen (m_invocations m) →
  tlen (m_signals m') = tlen (m_signals m) → tlen (m_timers m') = tlen (m_timers m) →
  tlen (m_logs m') = tlen (m_logs m) → tlen (m_devices m') = tlen (m_devices m) →
  ∀ k, table_size m' k = table_size m k.
Proof. intros. destruct k; cbn; congruence. Qed.

(** The tables whose entries carry no index. *)
Ltac sturdy_step :=
  apply sturdy_intro; [apply sizes_of; cbn -[alter]; rewrite ?tlen_alter, ?tlen_insert; reflexivity
    |cbn -[alter]; rewrite ?tlen_alter, ?tlen_insert; reflexivity
    |first [reflexivity|by apply fmap_alter_same]|first [reflexivity|by apply fmap_alter_same]
    |first [by intros Hr; apply (rg_grants _ Hr)|idtac]|first [by intros Hr; apply (rg_invocations _ Hr)|idtac]].

Lemma sturdy_scopes m f :
  tlen (scopes (f (m_scopes m))) = tlen (scopes (m_scopes m)) → sturdy m (m <| m_scopes ::= f |>).
Proof.
  intros Hf. apply sturdy_intro; try done; [by apply sizes_of|intros Hr; apply (rg_grants _ Hr)|intros Hr; apply (rg_invocations _ Hr)].
Qed.
Lemma tlen_release s r a t : tlen (scopes (Scope.release s r a t)) = tlen (scopes t).
Proof. apply tlen_for_nodes. Qed.
Lemma sturdy_node s f m : sturdy m (on_node s f m).
Proof. apply (sturdy_scopes m (on_scope s f)). cbn. apply tlen_alter. Qed.

Lemma sturdy_grant_alter f g m : (∀ n, g_parent (f n) = g_parent n) → sturdy m (m <| m_grants ::= alter f g |>).
Proof.
  intros Hf. sturdy_step. intros Hr i n. cbn -[alter]. rewrite table_alter. case_decide; [|apply (rg_grants _ Hr)].
  intros (n0 & Hn0 & ->)%fmap_Some. rewrite Hf. by eapply (rg_grants _ Hr).
Qed.
Lemma sturdy_grant_empty g m : sturdy m (m <| m_grants ::= <[g := Grant.empty]> |>).
Proof.
  sturdy_step. intros Hr i n. cbn -[insert]. rewrite table_insert. case_decide; [|apply (rg_grants _ Hr)].
  intros [= <-]. by left.
Qed.
Lemma sturdy_invocation i f m :
  (∀ x, (inv_origin_scope (f x), inv_closure_service (f x)) = (inv_origin_scope x, inv_closure_service x) ∧
     (inv_grant (f x) = inv_grant x ∨ inv_grant (f x) = NO_GRANT)) →
  sturdy m (on_invocation i f m).
Proof.
  intros Hf. unfold on_invocation. sturdy_step. intros Hr j x. cbn -[alter]. rewrite table_alter.
  case_decide; [|apply (rg_invocations _ Hr)]. intros (x0 & Hx0 & ->)%fmap_Some.
  destruct (rg_invocations _ Hr j x0 Hx0) as (H1 & H2 & H3). destruct (Hf x0) as [[= -> ->] [Hg|Hg]];
    rewrite Hg; split_and!; try done. by left.
Qed.
Lemma sturdy_word i m : sturdy m (Machine.release_invocation i m).
Proof. sturdy_step. Qed.

(** ** The operations *)

Lemma firm_release_metadata owner m : firm (release_metadata owner) m.
Proof. apply firm_modify. intros _. apply sturdy_scopes, tlen_release. Qed.

Lemma firm_adjust o delta m : obj_index o < table_size m (obj_kind o) → firm (adjust_object_refs o delta) m.
Proof.
  intros Hi. unfold adjust_object_refs. destruct (obj_kind o) eqn:Hk; cbn in Hi; rewrite ?N.min_glb_lt_iff in Hi;
    (apply firm_at; [intros _; lia|intros x _; apply firm_modify; intros _]).
  - apply (sturdy_scopes m (on_scope _ _)). apply tlen_alter.
  - sturdy_step.
  - sturdy_step.
  - sturdy_step.
  - by apply sturdy_invocation; split; [|left].
  - sturdy_step.
  - sturdy_step.
  - sturdy_step.
  - sturdy_step.
Qed.

Lemma firm_collect_invocation i m : firm (collect_invocation i) m.
Proof.
  intros Hr. unfold collect_invocation. apply wp_bind, wp_gets. destruct (m_invocations m !! i) as [x|]; [|by apply wp_ret].
  destruct (negb _ || _); [by apply wp_ret|]. apply wp_modify.
  etrans; [|apply sturdy_word]. apply sturdy_invocation. intros y. split; [done|by left].
Qed.

Lemma firm_collect_from steps : ∀ g m, node_in m g → firm (collect_from steps g) m.
Proof.
  induction steps as [|steps IH]; intros g m Hg; cbn [collect_from]; [apply firm_ret|].
  case_decide as Hno; [apply firm_ret|]. destruct Hg as [?|Hg]; [done|].
  apply firm_at; [done|]. intros n Hn. destruct (_ || _); [apply firm_ret|].
  intros Hr. pose proof (rg_grants _ Hr g n Hn) as Hp. revert Hr. apply firm_bind.
  { apply firm_modify. intros _. etrans; [apply (sturdy_grant_empty g)|]. sturdy_step. }
  intros _ m1 S1. assert (Hp1 : node_in m1 (g_parent n)) by (unfold node_in in *; by rewrite (sd_grants _ _ S1)).
  apply firm_bind.
  { case_decide as Hpn; [apply firm_ret|]. destruct Hp1 as [?|Hp1]; [done|]. apply firm_at; [done|]. intros p _.
    apply firm_modify. intros _. by apply sturdy_grant_alter. }
  intros _ m2 S2. apply firm_bind; [apply firm_release_metadata|]. intros _ m3 S3. apply IH.
  unfold node_in in *. by rewrite (sd_grants _ _ S3), (sd_grants _ _ S2).
Qed.
Lemma firm_collect_grant g m : node_in m g → firm (collect_grant g) m.
Proof. apply firm_collect_from. Qed.

Lemma node_in_sturdy m m' g : sturdy m m' → node_in m g → node_in m' g.
Proof. intros S. unfold node_in. by rewrite (sd_grants _ _ S). Qed.

Lemma firm_release_entry domain e m :
  domain < tlen (m_domains m) → node_in m (cap_grant e) →
  obj_index (cap_object e) < table_size m (obj_kind (cap_object e)) → firm (release_entry domain e) m.
Proof.
  intros Hd Hg Ho. unfold release_entry. apply firm_at; [done|]. intros D _.
  apply firm_bind; [apply firm_release_metadata|]. intros _ m1 S1. apply firm_bind.
  { case_decide as Hno; [apply firm_ret|]. pose proof (node_in_sturdy _ _ _ S1 Hg) as [?|Hg1]; [done|].
    apply firm_at; [done|]. intros n _. apply firm_modify. intros _. by apply sturdy_grant_alter. }
  intros _ m2 S2. pose proof (transitivity S1 S2) as S02. apply firm_bind.
  { apply firm_adjust. by rewrite (sd_sizes _ _ S02). }
  intros _ m3 S3. apply firm_bind; [case_decide; [apply firm_collect_invocation|apply firm_ret]|]. intros _ m4 S4.
  apply firm_bind; [apply firm_gets|]. intros memories m5 S5. apply firm_bind.
  { destruct (_ && _); [|apply firm_ret]. apply firm_modify. intros _. unfold defer_memory. case_decide; [done|]. sturdy_step. }
  intros _ m6 S6. apply firm_collect_grant.
  by eapply node_in_sturdy, Hg; exact (transitivity S02 (transitivity S3 (transitivity S4 (transitivity S5 S6)))).
Qed.

(** A table with one entry less. *)
Lemma sturdy_vacate d D s e m :
  m_domains m !! d = Some D → slots (dom_caps D) !! s = Some e →
  sturdy m (m <| m_domains ::= alter (λ D', D' <| dom_caps := (dom_caps D) <| slots ::= <[s := CapTable.vacate e]> |> |>) d |>).
Proof.
  intros HD He. set (m' := _ <| _ ::= _ |>).
  assert (Hk : ∀ k, table_size m' k = table_size m k) by (apply sizes_of; cbn -[alter]; by rewrite ?tlen_alter).
  split; [done..|]. intros Hr. split; [|apply (rg_grants _ Hr)|apply (rg_invocations _ Hr)].
  intros d' D' s' e' HD' He' Hl'. cbn -[alter] in HD'. rewrite table_alter in HD'. rewrite Hk.
  case_decide as Hdd; [|by eapply (rg_caps _ Hr)]. subst d'. rewrite HD in HD'. injection HD' as <-. cbn in He'.
  rewrite table_insert in He'. case_decide as Hss; [|by eapply (rg_caps _ Hr)].
  injection He' as <-. by cbn in Hl'.
Qed.

Lemma firm_release_slot domain slot m : domain < tlen (m_domains m) → firm (cap_release_slot domain slot) m.
Proof.
  intros Hd. unfold cap_release_slot, release_with. apply firm_at; [done|]. intros D HD.
  pose proof (release_slot_vacates slot (dom_caps D)) as Hv. destruct (CapTable.release_slot slot (dom_caps D)) as [[e|] t].
  - destruct Hv as (s & Hs & Hl & ->). intros Hr. destruct (rg_caps _ Hr domain D s e HD Hs Hl) as [Hg Ho]. revert Hr.
    apply firm_bind; [apply firm_modify; intros _; by apply sturdy_vacate|]. intros _ m1 S1.
    apply firm_bind; [|intros _ m2 _; apply firm_ret]. apply firm_release_entry.
    + pose proof (sd_sizes _ _ S1 Obj.Domain) as Hs1. cbn in Hs1. by rewrite Hs1.
    + by eapply node_in_sturdy.
    + by rewrite (sd_sizes _ _ S1).
  - apply firm_ret.
Qed.

Lemma firm_release_caps receiver caps m : (caps ≠ [] → receiver < tlen (m_domains m)) → firm (release_caps receiver caps) m.
Proof.
  intros Hr. unfold release_caps. apply firm_for_each. intros c m' Hc S. apply firm_bind; [|intros; apply firm_ret].
  apply firm_release_slot. pose proof (sd_sizes _ _ S Obj.Domain) as Hs. cbn in Hs. rewrite Hs. apply Hr.
  intros ->. by apply not_elem_of_nil in Hc.
Qed.

Lemma firm_release_invocation index now m : index < tlen (m_invocations m) → firm (release_invocation index now) m.
Proof.
  intros Hi. unfold release_invocation. apply firm_at; [done|]. intros x Hx. case_decide; [apply firm_ret|].
  intros Hr. destruct (rg_invocations _ Hr index x Hx) as (Ho & Hc & Hg). revert Hr.
  assert (Hscope : ∀ m' s, sturdy m m' → scope_in m s → scope_in m' s).
  { intros m' s S. pose proof (sd_sizes _ _ S Obj.Scope) as Hs. cbn in Hs. unfold scope_in. by rewrite Hs. }
  apply firm_bind.
  { apply firm_modify. intros _. apply sturdy_invocation. intros y. unfold discharged. cbv zeta.
    case_decide; (split; [done|by right]). }
  intros _ m1 S1. apply firm_bind; [case_decide; [apply firm_ret|apply firm_modify; intros _; apply sturdy_scopes, tlen_release]|].
  intros _ m2 S2. pose proof (transitivity S1 S2) as S02.
  apply firm_at; [intros _; by apply Hscope|]. intros _ _.
  apply firm_bind; [apply firm_modify; intros _; apply sturdy_node|]. intros _ m3 S3. pose proof (transitivity S02 S3) as S03.
  apply firm_bind.
  { case_decide; [|apply firm_ret]. apply firm_bind; [apply firm_modify; intros _; apply sturdy_node|]. intros _ m4 S4.
    apply firm_at; [intros _; apply Hscope; [exact (transitivity S03 S4)|done]|]. intros _ _. apply firm_modify. intros _. apply sturdy_node. }
  intros _ m4 S4. pose proof (transitivity S03 S4) as S04. intros Hr4. apply wp_bind, wp_gets, wp_bind, wp_expect.
  destruct (proj1 (table_lookup_is_Some (scopes (m_scopes m4)) (inv_origin_scope x)) (Hscope m4 _ S04 Ho)) as [n Hn].
  unfold note_progress. rewrite Hn. eexists. split; [reflexivity|]. apply wp_bind, wp_modify.
  set (m5 := _ <| m_scopes := _ |>). assert (S5 : sturdy m4 m5) by apply sturdy_node. pose proof (transitivity S04 S5) as S05.
  eapply (wp_mono _ (λ _, sturdy m5) _ (λ _ _, False)); [|intros a m' S'; exact (transitivity S5 S')|done].
  enough (Hf : firm ((if decide (inv_grant x = NO_GRANT) then mret () else
     _ ← at_index m_grants (inv_grant x);
     modify (λ m, m <| m_grants ::= alter (λ n, n <| g_refs ::= λ r, saturating_sub r 1 |>) (inv_grant x) |>);;
     collect_grant (inv_grant x));; collect_invocation index) m5) by apply Hf, (sd_ranged _ _ S5), Hr4.
  apply firm_bind; [|intros; apply firm_collect_invocation]. case_decide as Hno; [apply firm_ret|].
  pose proof (node_in_sturdy _ _ _ S05 Hg) as Hg5. pose proof Hg5 as [?|Hlt]; [done|]. apply firm_at; [done|]. intros _ _.
  apply firm_bind; [apply firm_modify; intros _; by apply sturdy_grant_alter|]. intros _ m6 S6.
  apply firm_collect_grant. by eapply node_in_sturdy.
Qed.

(** ** With the threads *)

Definition threaded (k : Kernel) : Prop := tlen (kn_threads k) = MAX_THREADS.
Definition firm_kernel {A} (c : K Kernel A) (k : Kernel) : Prop :=
  ranged (kn_machine k) → threaded k →
  wp c (λ _ k', sturdy (kn_machine k) (kn_machine k') ∧ threaded k') (λ _ _, False) k.

Lemma firm_kernel_bind {A B} (c : K Kernel A) (f : A → K Kernel B) k :
  firm_kernel c k → (∀ a k', sturdy (kn_machine k) (kn_machine k') → firm_kernel (f a) k') → firm_kernel (c ≫= f) k.
Proof.
  intros Hc Hf Hr Ht. apply wp_bind. eapply wp_mono; [by apply Hc| |done]. intros a k' [Hs Ht'].
  eapply wp_mono; [by apply Hf; [..|apply (sd_ranged _ _ Hs)|]| |done]. intros b k2 [Hs2 Ht2]. split; [|done].
  exact (transitivity Hs Hs2).
Qed.
Lemma firm_kernel_ret {A} (a : A) k : firm_kernel (mret a) k.
Proof. intros _ Ht. by apply wp_ret. Qed.
Lemma wp_on_machine {A} (c : K Machine A) Q E k :
  wp c (λ a s, Q a (k <| kn_machine := s |>)) (λ e s, E e (k <| kn_machine := s |>)) (kn_machine k) →
  wp (on_machine c) Q E k.
Proof. unfold wp, on_machine. by destruct (c _). Qed.
Lemma firm_kernel_machine {A} (c : K Machine A) k : firm c (kn_machine k) → firm_kernel (on_machine c) k.
Proof.
  intros Hc Hr Ht. apply wp_on_machine. eapply wp_mono; [by apply Hc|..|done]. intros a m Hs. by split.
Qed.
Lemma firm_kernel_change f k : sturdy (kn_machine k) (f (kn_machine k)) → firm_kernel (change f) k.
Proof. intros Hf _ Ht. apply wp_modify. by split. Qed.
Lemma firm_kernel_read {A B} (table : Machine → list A) i (f : A → K Kernel B) k :
  i < tlen (table (kn_machine k)) → (∀ x, table (kn_machine k) !! i = Some x → firm_kernel (f x) k) →
  firm_kernel (on_machine (at_index table i) ≫= f) k.
Proof.
  intros Hi Hf Hr Ht. destruct (proj1 (table_lookup_is_Some _ _) Hi) as [x Hx].
  apply wp_bind, wp_on_machine. eapply wp_at_index; [exact Hx|]. rewrite with_own_machine. by apply Hf.
Qed.
Lemma firm_kernel_thread {B} i (f : ThreadCell → K Kernel B) k :
  (∀ c, firm_kernel (f c) k) → firm_kernel (thread i ≫= f) k.
Proof.
  intros Hf Hr Ht. apply wp_bind. unfold thread. apply wp_bind, wp_gets, wp_expect.
  destruct (proj1 (table_lookup_is_Some (kn_threads k) (thread_index i))) as [c Hc].
  { rewrite Ht. unfold thread_index, MAX_THREADS. lia. }
  exists c. split; [done|]. by apply Hf.
Qed.
Lemma firm_kernel_on_thread i f k : firm_kernel (on_thread i f) k.
Proof.
  intros _ Ht. apply wp_modify. split; [done|]. unfold threaded. cbn -[alter]. by rewrite tlen_alter.
Qed.

Lemma firm_kernel_wake i k : firm_kernel (wake i) k.
Proof.
  apply firm_kernel_thread. intros c. case_bool_decide; [apply firm_kernel_on_thread|apply firm_kernel_ret].
Qed.
Lemma firm_kernel_defer i hint k : firm_kernel (defer_wake i hint) k.
Proof.
  intros Hr Ht. unfold defer_wake. apply wp_bind, wp_gets. case_bool_decide; [by apply firm_kernel_wake|].
  by apply wp_modify.
Qed.
Lemma firm_kernel_wake_waiter i code hint k : i < tlen (m_invocations (kn_machine k)) → firm_kernel (wake_waiter i code hint) k.
Proof.
  intros Hi. apply firm_kernel_read; [done|]. intros x _. destruct (inv_waiter x) as [w|]; [|apply firm_kernel_ret].
  apply firm_kernel_bind; [|intros; apply firm_kernel_ret]. unfold defer_wake_if, claim_handoff.
  apply firm_kernel_bind.
  - apply firm_kernel_thread. intros c. destruct (_ || _); [apply firm_kernel_ret|].
    apply firm_kernel_bind; [apply firm_kernel_on_thread|intros; apply firm_kernel_ret].
  - intros [h|] k' _; [|apply firm_kernel_ret]. apply firm_kernel_bind; [apply firm_kernel_defer|intros; apply firm_kernel_ret].
Qed.

Lemma invocations_sturdy m m' i : sturdy m m' → i < tlen (m_invocations m) → i < tlen (m_invocations m').
Proof. intros S Hi. pose proof (sd_sizes _ _ S Obj.Invocation) as H. cbn in H. by rewrite H. Qed.

Lemma firm_abort_withdrawn now i x k :
  i < tlen (m_invocations (kn_machine k)) → firm_kernel (abort_withdrawn now i x) k.
Proof.
  intros Hi. apply firm_kernel_read; [done|]. intros slot _. apply firm_kernel_bind.
  { apply firm_kernel_change, sturdy_invocation. intros y. by split; [|left]. }
  intros _ k1 S1. pose proof (invocations_sturdy _ _ _ S1 Hi) as Hi1. apply firm_kernel_bind; [by apply firm_kernel_wake_waiter|].
  intros _ k2 S2. pose proof (invocations_sturdy _ _ _ S2 Hi1) as Hi2. apply firm_kernel_bind.
  { by apply firm_kernel_machine, firm_release_invocation. }
  intros _ k3 S3. apply firm_kernel_change, sturdy_node.
Qed.

(** ** The walk *)

(** What the walk follows from the queued messages. *)
Record fit (k : Kernel) (Q : N → list N) : Prop := {
  ft_ranged : ranged (kn_machine k);
  ft_threads : threaded k;
  ft_invocations e i x : i ∈ Q e → m_messages (kn_machine k) !! i = Some x →
    msg_invocation x < tlen (m_invocations (kn_machine k));
  ft_receivers e ch : Q e ≠ [] → m_endpoints (kn_machine k) !! e = Some ch →
    ep_receiver_domain ch < tlen (m_domains (kn_machine k));
  ft_names : tlen (m_endpoints (kn_machine k)) <= tlen (m_endpoint_ids (kn_machine k))
}.

Lemma fit_later k k' Q Q' :
  fit k Q → sturdy (kn_machine k) (kn_machine k') → threaded k' → (∀ e, Q' e `sublist_of` Q e) →
  (∀ e j, j ∈ Q' e → entry <$> m_messages (kn_machine k') !! j = entry <$> m_messages (kn_machine k) !! j) → fit k' Q'.
Proof.
  intros [Fr Ft Fi Fc Fn] S Ht Hs He. split; [by apply (sd_ranged _ _ S)|done|..].
  - intros e i x' Hi Hx'. apply (invocations_sturdy _ _ _ S). specialize (He e i Hi). rewrite Hx' in He.
    destruct (m_messages (kn_machine k) !! i) as [x|] eqn:Hx; [|done]. injection He as -> _ _ _ _.
    eapply Fi; [|exact Hx]. by eapply elem_of_sublist.
  - intros e ch' HQ Hch'. pose proof (sd_sizes _ _ S Obj.Domain) as Hd. cbn in Hd. rewrite Hd.
    pose proof (f_equal (λ l, l !! e) (sd_receivers _ _ S)) as Hrec. cbn in Hrec. rewrite !table_fmap, Hch' in Hrec.
    destruct (m_endpoints (kn_machine k) !! e) as [ch|] eqn:Hch; [|done]. injection Hrec as ->. eapply Fc; [|exact Hch].
    intros HQe. apply HQ. specialize (Hs e). rewrite HQe in Hs. by apply sublist_nil_r in Hs.
  - pose proof (sd_sizes _ _ S Obj.Endpoint) as Hk. cbn in Hk.
    pose proof (f_equal tlen (sd_receivers _ _ S)) as Hr. rewrite !tlen_fmap in Hr. lia.
Qed.

Lemma firm_unlink e d c l x m Q :
  channels m Q → Q e = d ++ c :: l → firm (unlink e (default NO_MESSAGE (last d)) c x) m.
Proof.
  intros C HQ. unfold unlink. apply firm_bind.
  - case_decide as Hp; [apply firm_modify; intros _; sturdy_step|].
    apply firm_at; [|intros y _; apply firm_modify; intros _; sturdy_step]. intros _. rewrite (ch_size _ _ C).
    apply (cell_lt m Q e); [done|]. rewrite HQ. apply elem_of_app. left.
    destruct (last d) as [p|] eqn:Hl; [by eapply last_Some_elem_of|done].
  - intros _ m1 _. apply firm_modify. intros _. sturdy_step.
Qed.

Lemma firm_withdraw_message e d c l x m Q ch :
  channels m Q → Q e = d ++ c :: l → m_endpoints m !! e = Some ch → ep_receiver_domain ch < tlen (m_domains m) →
  firm (withdraw_message e (default NO_MESSAGE (last d)) c x) m.
Proof.
  intros C HQ Hch Hd. unfold withdraw_message. apply firm_bind; [by eapply firm_unlink|]. intros _ m1 S1.
  pose proof (f_equal (λ l, l !! e) (sd_receivers _ _ S1)) as Hrec. cbn in Hrec. rewrite !table_fmap, Hch in Hrec.
  apply fmap_Some in Hrec as (ch1 & Hch1 & Heq). apply firm_at; [intros _; by eapply table_lookup_lt|].
  intros ch' Hch'. replace ch' with ch1 in * by congruence.
  apply firm_bind; [apply firm_release_caps; intros _|].
  { pose proof (sd_sizes _ _ S1 Obj.Domain) as Hs. cbn in Hs. rewrite Hs. by rewrite <-Heq. }
  intros _ m2 _. apply firm_bind; [apply firm_modify; intros _; sturdy_step|].
  intros _ m3 _. apply firm_modify. intros _. sturdy_step.
Qed.

(** A step that is both sound and without a panic. *)
Lemma wp_wlp {S A} (c : K S A) (Q Q' : A → S → Prop) (E E' : Z → S → Prop) s :
  wp c Q E s → wlp c Q' E' s → wp c (λ a s', Q a s' ∧ Q' a s') (λ e s', E e s' ∧ E' e s') s.
Proof. unfold wp, wlp. by destruct (c s). Qed.

Section total.
Context (leaves : Invocation → Machine → bool) (gone : N → Message → K Kernel ()).
Context (Hgone : ∀ i x, keeps (lift wanes) (gone i x)) (Hquiet : ∀ i x, unfailing (gone i x)) (Hsteady : steady leaves).
Context (Hfirm : ∀ i x k, i < tlen (m_invocations (kn_machine k)) → firm_kernel (gone i x) k).

Lemma insert_sublist (Q : N → list N) e l e' : l `sublist_of` Q e → <[e := l]> Q e' `sublist_of` Q e'.
Proof. intros H. unfold insert, fn_insert. by case_decide; [subst|]. Qed.

(** The cell cut out is on no queue. *)
Lemma cut_absent m Q e d c l e' : channels m Q → Q e = d ++ c :: l → c ∉ <[e := d ++ l]> Q e'.
Proof.
  intros C HQ. assert (Hc : c ∈ Q e) by (rewrite HQ; apply elem_of_app; right; left).
  destruct (decide (e' = e)) as [->|Hne].
  - rewrite fn_lookup_insert. destruct (m_endpoints m !! e) as [ch|] eqn:Hch; [|by rewrite (ch_none _ _ C e Hch) in HQ; destruct d].
    pose proof (qu_NoDup _ _ _ (ch_queue _ _ C e ch Hch)) as Hnd. rewrite HQ in Hnd.
    apply NoDup_app in Hnd as (_ & Hd & [Hl _]%NoDup_cons). intros [Hi|Hi]%elem_of_app; [|done]. apply (Hd c Hi). left.
  - rewrite fn_lookup_insert_ne by done. intros Hi. by apply Hne, (ch_apart _ _ C e' e c).
Qed.

Lemma total_withdraw_each e : ∀ l d withdrawn Q k,
  channels (kn_machine k) Q → Q e = d ++ l → fit k Q →
  wp (withdraw_each leaves gone e (default NO_MESSAGE (last d)) l withdrawn)
    (λ _ k', sturdy (kn_machine k) (kn_machine k') ∧ threaded k') (λ _ _, False) k.
Proof.
  induction l as [|c l IH]; intros d withdrawn Q k C HQ F; cbn [withdraw_each].
  { apply wp_ret. split; [done|apply F]. }
  assert (Hc : c ∈ Q e) by (rewrite HQ; apply elem_of_app; right; left).
  destruct (proj1 (table_lookup_is_Some (m_messages (kn_machine k)) c)) as [x Hx].
  { rewrite (ch_size _ _ C). by eapply cell_lt. }
  destruct (proj1 (table_lookup_is_Some _ _) (ft_invocations _ _ F e c x Hc Hx)) as [slot Hslot].
  apply wp_bind, wp_on_machine. eapply wp_at_index; [exact Hx|]. rewrite with_own_machine.
  apply wp_bind, wp_on_machine. eapply wp_at_index; [exact Hslot|]. rewrite with_own_machine.
  apply wp_bind, wp_gets. destruct (leaves slot (kn_machine k)).
  - destruct (m_endpoints (kn_machine k) !! e) as [ch|] eqn:Hch; [|rewrite (ch_none _ _ C e Hch) in HQ; by destruct d].
    assert (Hd : ep_receiver_domain ch < tlen (m_domains (kn_machine k))).
    { eapply (ft_receivers _ _ F e); [|done]. rewrite HQ. by destruct d. }
    apply wp_bind, wp_on_machine. eapply wp_mono; [apply wp_wlp;
      [by eapply firm_withdraw_message; [exact C|exact HQ|exact Hch|exact Hd|apply F]|by eapply (wlp_withdraw_message e d c l x _ Q)]| |by intros ?? []].
    intros u m1 (S1 & C1 & L1). set (k1 := k <| kn_machine := m1 |>).
    assert (Hi1 : msg_invocation x < tlen (m_invocations m1)).
    { apply (invocations_sturdy _ _ _ S1). by eapply (ft_invocations _ _ F e). }
    apply wp_bind. eapply wp_mono; [apply wp_wlp; [apply (Hfirm _ x k1 Hi1); [apply (sd_ranged _ _ S1), F|apply F]|apply Hgone]| |by intros ?? []].
    intros u2 k2 [[S2 T2] W2]. pose proof (transitivity S1 S2) as S02.
    eapply wp_mono; [apply (IH d _ (<[e := d ++ l]> Q))| |done].
    + eapply channels_lists; [apply W2|exact C1].
    + apply fn_lookup_insert.
    + eapply (fit_later k); [exact F|exact S02|exact T2| |].
      * intros e'. apply insert_sublist. rewrite HQ. apply sublist_app; [done|by apply sublist_cons].
      * intros e' j Hj. apply (loses_wanes _ _ _ _ L1 W2). intros ->. exact (cut_absent _ _ _ _ _ _ _ C HQ Hj).
    + intros n k' [S3 T3]. split; [exact (transitivity S02 S3)|done].
  - assert (default NO_MESSAGE (last (d ++ [c])) = c) as Hlast by by rewrite last_snoc.
    rewrite <-Hlast at 1. eapply wp_mono; [apply (IH (d ++ [c]) _ Q); [done|by rewrite <-app_assoc|done]|done..].
Qed.

Lemma total_withdraw_all : ∀ endpoints withdrawn k Q Q0,
  channels (kn_machine k) Q → NoDup endpoints → (∀ e, e ∈ endpoints → Q e = Q0 e) → fit k Q →
  (∀ e, e ∈ endpoints → e < tlen (m_endpoints (kn_machine k))) →
  wp (withdraw_all leaves gone Q0 endpoints withdrawn) (λ _ _, True) (λ _ _, False) k.
Proof.
  induction endpoints as [|e endpoints IH]; intros withdrawn k Q Q0 C Hnd HQ F He; [done|].
  apply NoDup_cons in Hnd as [Hni Hnd]. pose proof (He e ltac:(left)) as Hlt. cbn [withdraw_all].
  destruct (proj1 (table_lookup_is_Some (m_endpoint_ids (kn_machine k)) e)) as [name Hname].
  { pose proof (ft_names _ _ F). lia. }
  destruct (proj1 (table_lookup_is_Some _ _) Hlt) as [ch Hch].
  apply wp_bind, wp_on_machine. eapply wp_at_index; [exact Hname|]. rewrite with_own_machine.
  destruct (ei_used name).
  - apply wp_bind, wp_on_machine. eapply wp_at_index; [exact Hch|]. rewrite with_own_machine, <-(HQ e ltac:(left)).
    apply wp_bind. eapply wp_mono; [apply wp_wlp;
      [by apply (total_withdraw_each e (Q e) [] withdrawn Q k)|by apply (wlp_withdraw_queue leaves gone)]| |by intros ?? []].
    intros n k1 [[S1 T1] (l & Hl & P1 & _)]. apply (IH n k1 (<[e := l]> Q)); [apply P1|done| | |].
    + intros e' He'. rewrite fn_lookup_insert_ne; [apply HQ; by right|]. by intros ->.
    + eapply (fit_later k); [exact F|exact S1|exact T1|intros; by apply insert_sublist|apply P1].
    + intros e' He'. pose proof (f_equal tlen (sd_receivers _ _ S1)) as Hr. rewrite !tlen_fmap in Hr. rewrite Hr.
      apply He. by right.
  - apply (IH withdrawn k Q); [done|done| |done|]; intros; [apply HQ|apply He]; by right.
Qed.
End total.

(** C39. A barrier's withdrawal ends, and is complete. From channels in order and indices
    in range it neither panics nor runs into its bound: the walk over the links is the
    recursion over what is queued. It returns how many messages it took; what stays
    queued keeps its place and its bytes; and no queue of a channel in use still holds a
    message admitted from inside the perimeter that nobody received. *)
Theorem withdrawal_ends root now k Q :
  channels (kn_machine k) Q → fit k Q →
  let endpoints := indices (m_endpoints (kn_machine k)) in
  ∃ n k' Q',
    withdraw_undelivered root now k = Done n k' ∧
    withdraw_all (undelivered_within root) (abort_withdrawn now) Q endpoints 0 k = Done n k' ∧
    withdrew (undelivered_within root) endpoints Q Q' k k' ∧
    n + total Q' endpoints = total Q endpoints.
Proof.
  intros C F endpoints.
  assert (Hwalk : withdraw_undelivered root now k =
    withdraw_all (undelivered_within root) (abort_withdrawn now) Q endpoints 0 k).
  { change (withdraw_undelivered root now k) with
      (walk_endpoints (undelivered_within root) (abort_withdrawn now) endpoints 0 k).
    eapply (walk_is_all (undelivered_within root)); [apply keeps_abort_withdrawn|apply unfailing_abort_withdrawn|
      apply undelivered_steady|exact C|apply NoDup_indices|done]. }
  rewrite Hwalk.
  pose proof (wlp_withdraw_all (undelivered_within root) (abort_withdrawn now) (keeps_abort_withdrawn now)
    (unfailing_abort_withdrawn now) (undelivered_steady root) endpoints 0 k Q C (NoDup_indices _)) as H.
  pose proof (total_withdraw_all (undelivered_within root) (abort_withdrawn now) (keeps_abort_withdrawn now)
    (unfailing_abort_withdrawn now) (undelivered_steady root) (firm_abort_withdrawn now) endpoints 0 k Q Q C
    (NoDup_indices _) (λ _ _, eq_refl) F (λ e, proj1 (indices_lookup _ e))) as H'.
  unfold wlp, wp in *. destruct (withdraw_all _ _ _ _ _ k) as [n k'|code k'|]; [|done..].
  destruct H as (Q' & HW & Hn). by exists n, k', Q'.
Qed.
