(* ===== verification/IpcSample.v ===== *)
(** * A channel at work

    A kernel with one domain, which creates a channel, claims its receive side and sends
    on it: the theorems on channels at that state. *)

From stdpp Require Import functions.
From S2P Require Import Prelude Abi AbiWire Obj Scope ScopeProofs Ctrl Frame Objects Machine AuthorityOps Thread Hoare.
From S2P Require Import Ipc IpcFrames IpcQueue IpcChannels IpcAdmit IpcRefine IpcWithdraw IpcTotal.

#[local] Open Scope N_scope.

(** ** In good order *)

(** A machine none of whose channels queues anything. *)
Definition emptyb (m : Machine) : bool :=
  forallb (λ ch, bool_decide (link_fields ch = (NO_MESSAGE, NO_MESSAGE, 0, 0))) (m_endpoints m) &&
  bool_decide (m_message_free m = N.ones MAX_MESSAGES) && bool_decide (tlen (m_messages m) = MAX_MESSAGES).

Lemma empty_channels m : emptyb m = true → channels m (λ _, []).
Proof.
  unfold emptyb. intros [[He Hf%bool_decide_eq_true]%andb_true_iff Hs%bool_decide_eq_true]%andb_true_iff.
  split; try done.
  - intros e ch Hch. assert (ch ∈ m_endpoints m) as Hin by by eapply list_elem_of_lookup_2.
    pose proof (forallb_elem _ _ He ch Hin) as H%bool_decide_eq_true. injection H as H1 H2 H3 H4.
    split; [exact H1|exact H2|by rewrite H3|by rewrite H4|constructor].
  - by intros e e' i Hi%not_elem_of_nil.
  - by intros e i Hi%not_elem_of_nil.
  - intros i. rewrite Hf. destruct (N.lt_ge_cases i MAX_MESSAGES) as [|Hi]; [done|].
    by rewrite N.ones_spec_high.
Qed.

(** Indices in range, checked. *)
Definition rangedb (m : Machine) : bool :=
  let node g := bool_decide (g = NO_GRANT) || bool_decide (g < tlen (m_grants m)) in
  let scope s := bool_decide (s < tlen (scopes (m_scopes m))) in
  forallb (λ D, forallb (λ e, negb (cap_live e) || (node (cap_grant e) &&
    bool_decide (obj_index (cap_object e) < table_size m (obj_kind (cap_object e))))) (slots (dom_caps D))) (m_domains m) &&
  forallb (λ n, node (g_parent n)) (m_grants m) &&
  forallb (λ x, scope (inv_origin_scope x) && scope (inv_closure_service x) && node (inv_grant x)) (m_invocations m).

Lemma rangedb_ok m : rangedb m = true → ranged m.
Proof.
  unfold rangedb. cbv zeta. intros [[Hd Hg]%andb_true_iff Hi]%andb_true_iff.
  assert (Hnode : ∀ g, bool_decide (g = NO_GRANT) || bool_decide (g < tlen (m_grants m)) = true → node_in m g).
  { intros g [H%bool_decide_eq_true|H%bool_decide_eq_true]%orb_true_iff; [by left|by right]. }
  split.
  - intros d D s e HD He Hl. apply list_elem_of_lookup_2 in HD, He.
    pose proof (forallb_elem _ _ (forallb_elem _ _ Hd D HD) e He) as H. cbv beta in H. rewrite Hl in H. cbn [negb orb] in H.
    apply andb_true_iff in H as [H1 H2%bool_decide_eq_true]. split; [by apply Hnode|done].
  - intros i n Hn. apply list_elem_of_lookup_2 in Hn. apply Hnode, (forallb_elem _ _ Hg n Hn).
  - intros i x Hx. apply list_elem_of_lookup_2 in Hx. pose proof (forallb_elem _ _ Hi x Hx) as H.
    apply andb_true_iff in H as [[H1%bool_decide_eq_true H2%bool_decide_eq_true]%andb_true_iff H3].
    split; [done|]. split; [done|by apply Hnode].
Qed.

(** What a queue's messages name, checked on the whole tables. *)
Definition fitb (k : Kernel) : bool :=
  let m := kn_machine k in
  rangedb m && bool_decide (tlen (kn_threads k) = MAX_THREADS) &&
  forallb (λ x, bool_decide (msg_invocation x < tlen (m_invocations m))) (m_messages m) &&
  forallb (λ ch, bool_decide (ep_head ch = NO_MESSAGE) || bool_decide (ep_receiver_domain ch < tlen (m_domains m))) (m_endpoints m) &&
  bool_decide (tlen (m_endpoints m) <= tlen (m_endpoint_ids m)).

Lemma fitb_ok k Q : channels (kn_machine k) Q → fitb k = true → fit k Q.
Proof.
  intros C. unfold fitb. cbv zeta.
  intros [[[[Hr Ht%bool_decide_eq_true]%andb_true_iff Hm]%andb_true_iff He]%andb_true_iff Hn%bool_decide_eq_true]%andb_true_iff.
  split; [by apply rangedb_ok|done| | |done].
  - intros e i x _ Hx. apply list_elem_of_lookup_2 in Hx. by apply (forallb_elem _ _ Hm x), bool_decide_eq_true in Hx.
  - intros e ch HQ Hch. pose proof (qu_links _ _ _ (ch_queue _ _ C e ch Hch)) as Hl.
    apply list_elem_of_lookup_2 in Hch. pose proof (forallb_elem _ _ He ch Hch) as H.
    apply orb_true_iff in H as [H%bool_decide_eq_true|H%bool_decide_eq_true]; [|done].
    rewrite H in Hl. destruct (Q e); [done|]. by destruct Hl as (<- & Hne & _).
Qed.

(** ** The run *)

Definition state_of {A} (k : Kernel) (o : out Kernel A) : Kernel :=
  match o with Done _ k' => k' | Fail _ k' => k' | Panic => k end.

(** Room for three messages of a few bytes. *)
Definition roomy_scopes : Scopes :=
  sample_scopes <| scopes ::= <[0 := sample_scope NO_SCOPE 0 (sample_limits 200)]> |>.
Lemma roomy_scopes_inv : scopes_inv roomy_scopes.
Proof. apply scopes_inv_compute; by vm_compute. Qed.

Definition sample_domain : Domain := Domain.empty <| dom_state := DomainState.Runnable |> <| dom_id := 9 |>.
Definition sample_kernel : Kernel :=
  mkKernel ((Machine.new roomy_scopes) <| m_domains ::= <[0 := sample_domain]> |>)
    (replicate (N.to_nat MAX_THREADS) (ThreadCell.empty <| th_effective_scope := 0 |>)) [].
Definition sample_ctx (handle operation : N) (object : ObjRef) (grant : N) : Ctx :=
  mkCtx 0 0 handle operation flag.NONBLOCKING 0 5 (mkResolved 0 object grant (rights_mask (obj_kind object)) 0).

(** The channel is created and its receive side claimed. *)
Definition sample_created : Kernel :=
  state_of sample_kernel (on_machine (create_endpoint (sample_ctx 0 op.SCOPE_CREATE_ENDPOINT (mkObjRef Obj.Scope 0 0) NO_GRANT)
    (mkEndpointCreateRequest 4 0 (replicate 16 0))) sample_kernel).
Definition sample_handle : N := handle 0 1.
Definition sample_receive (k : Kernel) : out Kernel (option N) :=
  receive_attempt (sample_ctx sample_handle op.ENDPOINT_RECEIVE (mkObjRef Obj.Endpoint 0 1) 0)
    (object_type.ENDPOINT, right.ENDPOINT_RECEIVE) 5 k.
Definition sample_claimed : Kernel := state_of sample_created (sample_receive sample_created).

(** Two messages are sent on it. *)
Definition sample_send_request (n : N) : SendRequest :=
  mkSendRequest 2 0 [0; 0; 0; 0] [0; 0; 0; 0] ([n; n] ++ replicate 254 0).
Definition sample_send_ctx : Ctx := sample_ctx sample_handle op.ENDPOINT_SEND (mkObjRef Obj.Endpoint 0 1) 0.
Definition sample_send (n : N) (k : Kernel) : out Kernel Admission :=
  admission sample_send_ctx (sample_send_request n) message_kind.REQUEST None 7 k.
Definition sample_sent : Kernel := state_of sample_claimed (sample_send 3 sample_claimed).
Definition sample_queued : Kernel := state_of sample_sent (sample_send 4 sample_sent).

Definition succeeds {A} (o : out Kernel A) : bool := match o with Done _ _ => true | _ => false end.

Lemma sample_claimed_empty : channels (kn_machine sample_claimed) (λ _, []).
Proof. apply empty_channels. by vm_compute. Qed.

(** The scopes of a kernel, checked. *)
Lemma solvent_compute ctx k :
  scopes_inv (m_scopes (kn_machine k)) →
  from_option (λ c, from_option (λ s, negb (bool_decide (sc_state s = Scope.Empty))) false
    (scopes (m_scopes (kn_machine k)) !! th_effective_scope c)) true (kn_threads k !! thread_index (cx_thread ctx)) = true →
  solvent ctx k.
Proof.
  intros Hinv Hb. split; [apply Hinv|]. intros cell Hc. rewrite Hc in Hb. cbn [from_option] in Hb.
  destruct (scopes (m_scopes (kn_machine k)) !! th_effective_scope cell) as [s|] eqn:Hs; [|done].
  exists s. split; [done|]. by apply negb_true_iff, bool_decide_eq_false in Hb.
Qed.
Lemma sample_claimed_solvent : solvent sample_send_ctx sample_claimed.
Proof. apply solvent_compute; [apply scopes_inv_compute|]; by vm_compute. Qed.
Lemma sample_sent_solvent : solvent sample_send_ctx sample_sent.
Proof. apply solvent_compute; [apply scopes_inv_compute|]; by vm_compute. Qed.

Lemma holds_head m A e :
  holds m A → from_option (λ ch, negb (bool_decide (ep_head ch = NO_MESSAGE))) false (m_endpoints m !! e) = true → A e ≠ [].
Proof.
  intros (Q & C & HA) Hb Hnil. destruct (m_endpoints m !! e) as [ch|] eqn:Hch; [|done]. cbn in Hb.
  apply negb_true_iff, bool_decide_eq_false in Hb. pose proof (qu_links _ _ _ (ch_queue _ _ C e ch Hch)) as Hl.
  rewrite <-HA in Hnil. destruct (Q e) as [|i l]; [done|]. destruct Hl as (_ & _ & x & Hx & _).
  by rewrite contents_cons, Hx in Hnil.
Qed.

(** What one send makes of a queue, by the theorem. *)
Lemma sent_holds n k A x :
  succeeds (sample_send n k) = true →
  from_option (λ ch, negb (bool_decide (ep_head ch = NO_MESSAGE))) false
    (m_endpoints (kn_machine (state_of k (sample_send n k))) !! 0) = true →
  x = [n; n] →
  match sample_send n k with
  | Done a k' => ∃ caps, let x := admitted_entry (sample_send_request n) message_kind.REQUEST a caps in
      (A 0 = [] ∧ holds (kn_machine k') A ∧ ∃ buffer, shows k' buffer x) ∨
      holds (kn_machine k') (<[0 := A 0 ++ [x]]> A)
  | Fail _ k' => holds (kn_machine k') A
  | Panic => True
  end →
  ∃ e, en_payload e = x ∧ holds (kn_machine (state_of k (sample_send n k))) (<[0 := A 0 ++ [e]]> A).
Proof.
  intros Hs Hh -> H. destruct (sample_send n k) as [a k'| |]; [|done..]. cbn [state_of] in *.
  destruct H as [caps [(Hnil & Hk & _)|Hk]].
  - by destruct (holds_head _ _ _ Hk Hh).
  - eexists. split; [|exact Hk]. done.
Qed.

Definition sample_receive_ctx : Ctx := sample_ctx sample_handle op.ENDPOINT_RECEIVE (mkObjRef Obj.Endpoint 0 1) 0.
(** And of a receive. *)
Lemma received_one k A x y :
  A 0 = [x; y] →
  match sample_receive k with Done (Some _) _ => true | _ => false end = true →
  match resolve 0 sample_handle object_type.ENDPOINT right.ENDPOINT_RECEIVE 5 (kn_machine k) with
    | Done cap _ => bool_decide (obj_index (rs_object cap) = 0) | _ => false end = true →
  match sample_receive k with
  | Done (Some _) k' => ∃ cap x rest,
      resolve 0 sample_handle object_type.ENDPOINT right.ENDPOINT_RECEIVE 5 (kn_machine k) = Done cap (kn_machine k) ∧
      let e := obj_index (rs_object cap) in
      A e = x :: rest ∧ holds (kn_machine k') (<[e := rest]> A) ∧ shows k' 0 x
  | Done None k' => holds (kn_machine k') A
  | Fail _ k' => holds (kn_machine k') A
  | Panic => True
  end →
  holds (kn_machine (state_of k (sample_receive k))) (<[0 := [y]]> A) ∧ shows (state_of k (sample_receive k)) 0 x.
Proof.
  intros HA Hr Hcap H. destruct (sample_receive k) as [[t|] k'| |]; [|done..]. cbn [state_of].
  destruct H as (cap & z & rest & Hres & Hrest & Hk & Hsh). rewrite Hres in Hcap. apply bool_decide_eq_true in Hcap.
  cbv zeta in Hrest, Hk. rewrite Hcap in Hrest, Hk. rewrite HA in Hrest. injection Hrest as <- <-. by split.
Qed.


(** A send with more bytes than its scope may queue: refused after the message and the
    invocation were claimed. *)
Definition sample_wide : SendRequest := (sample_send_request 3) <| wsr_payload_len := 200 |>.

Lemma fails_with {A} (o : out Kernel A) (code : Z) :
  match o with Fail c _ => bool_decide (c = code) | _ => false end = true → ∃ k', o = Fail code k'.
Proof. destruct o as [|c k'|]; [done| |done]. intros ->%bool_decide_eq_true. by exists k'. Qed.

Lemma refused_admission_takes_nothing_witness :
  ∃ k', admission sample_send_ctx sample_wide message_kind.REQUEST None 7 sample_claimed = Fail status.LIMIT_EXHAUSTED k' ∧
    kn_threads k' = kn_threads sample_claimed ∧ holds (kn_machine k') (λ _, []) ∧
    (aside (kn_machine sample_claimed) (kn_machine k') ∨ m_next_object_id (kn_machine k') = U64_MAX).
Proof.
  destruct (fails_with (admission sample_send_ctx sample_wide message_kind.REQUEST None 7 sample_claimed) status.LIMIT_EXHAUSTED) as [k' Hk']; [by vm_compute|]. exists k'. split; [exact Hk'|].
  assert (H0 : holds (kn_machine sample_claimed) (λ _, [])) by (exists (λ _, []); split; [apply sample_claimed_empty|done]).
  destruct (refused_admission_takes_nothing sample_send_ctx sample_wide
    message_kind.REQUEST None 7 sample_claimed (λ _, []) status.LIMIT_EXHAUSTED k' H0 sample_claimed_solvent Hk')
    as (H1 & _ & _ & H2 & _ & H3).
  split; [exact H1|]. split; [exact H2|exact H3].
Defined.

(** The queue after two sends. *)
Lemma sample_step Q n k :
  channels (kn_machine k) Q → solvent sample_send_ctx k → succeeds (sample_send n k) = true →
  ∃ Q', channels (kn_machine (state_of k (sample_send n k))) Q'.
Proof.
  intros C Hs Hok. pose proof (wlp_admission sample_send_ctx (sample_send_request n) message_kind.REQUEST None 7 k Q C Hs) as H.
  unfold wlp in H. fold (sample_send n k) in H. destruct (sample_send n k) as [a k'| |]; [|done..]. cbn [state_of].
  destruct H as [caps [(_ & C' & _)|(i & _ & C' & _)]]; eauto.
Qed.
Lemma sample_queued_channels : ∃ Q, channels (kn_machine sample_queued) Q.
Proof.
  destruct (sample_step (λ _, []) 3 sample_claimed) as [Q1 H1]; [apply sample_claimed_empty|apply sample_claimed_solvent|by vm_compute|].
  exact (sample_step Q1 4 sample_sent H1 sample_sent_solvent ltac:(by vm_compute)).
Qed.

Definition withdrawn_count (o : out Kernel N) : option N := match o with Done n _ => Some n | _ => None end.

Lemma withdrawal_ends_witness :
  ∃ k' Q Q', withdraw_undelivered 0 9 sample_queued = Done 2 k' ∧
    withdrew (undelivered_within 0) (indices (m_endpoints (kn_machine sample_queued))) Q Q' sample_queued k'.
Proof.
  destruct sample_queued_channels as [Q C].
  destruct (withdrawal_ends 0 9 sample_queued Q C (fitb_ok _ _ C ltac:(by vm_compute))) as (n & k' & Q' & Hw & _ & HW & _).
  exists k', Q, Q'. split; [|exact HW].
  assert (Hn : withdrawn_count (withdraw_undelivered 0 9 sample_queued) = Some 2) by by vm_compute.
  rewrite Hw in Hn. injection Hn as ->. exact Hw.
Defined.
