(* ===== verification/Sha256.v ===== *)
(** * SHA-256

    [user/k4fmt/src/sha256.rs]: the incremental computation as written - a
    block being filled, full blocks compressed as they come, the padding fed byte by
    byte - and FIPS 180-4's definition of the digest it computes. *)

From S2P Require Import Prelude Bytes.

#[local] Open Scope N_scope.

(** ** 32-bit words *)

(** [x.wrapping_add(y)] on [u32]. *)
Definition add32 (x y : N) : N := wrapping_add 32 x y.
(** [x.rotate_right(n)] on [u32], for [0 < n < 32]. *)
Definition rotate_right (x n : N) : N :=
  N.lor (N.shiftr x n) (N.land (N.shiftl x (32 - n)) U32_MAX).
(** [!x] on [u32]. *)
Definition not32 (x : N) : N := N.lxor x U32_MAX.

(** Eight words written as one number, a row of the table below. *)
Definition row_words (row : N) : list N := (λ i, N.shiftr row (32 * (7 - N.of_nat i)) mod 2 ^ 32) <$> seq 0 8.

(** user/k4fmt/src/sha256.rs:12-21 [K] *)
Definition K256 : list N := concat (row_words <$> [
  0x428a2f98_71374491_b5c0fbcf_e9b5dba5_3956c25b_59f111f1_923f82a4_ab1c5ed5;
  0xd807aa98_12835b01_243185be_550c7dc3_72be5d74_80deb1fe_9bdc06a7_c19bf174;
  0xe49b69c1_efbe4786_0fc19dc6_240ca1cc_2de92c6f_4a7484aa_5cb0a9dc_76f988da;
  0x983e5152_a831c66d_b00327c8_bf597fc7_c6e00bf3_d5a79147_06ca6351_14292967;
  0x27b70a85_2e1b2138_4d2c6dfc_53380d13_650a7354_766a0abb_81c2c92e_92722c85;
  0xa2bfe8a1_a81a664b_c24b8b70_c76c51a3_d192e819_d6990624_f40e3585_106aa070;
  0x19a4c116_1e376c08_2748774c_34b0bcb5_391c0cb3_4ed8aa4a_5b9cca4f_682e6ff3;
  0x748f82ee_78a5636f_84c87814_8cc70208_90befffa_a4506ceb_bef9a3f7_c67178f2
]).

(** user/k4fmt/src/sha256.rs:25-27 [H0] *)
Definition H0 : list N := [
  0x6a09e667; 0xbb67ae85; 0x3c6ef372; 0xa54ff53a; 0x510e527f; 0x9b05688c; 0x1f83d9ab; 0x5be0cd19
].

(** ** One block *)

(** user/k4fmt/src/sha256.rs:117-125 [Sha256::compress, the first words] *)
Definition first_words (block : list N) : list N :=
  (λ i, be_value (slice (4 * i) 4 block)) <$> seq 0 16.

(** The next word of the schedule. *)
(** user/k4fmt/src/sha256.rs:126-137 [Sha256::compress, the extension] *)
Definition next_word (w : list N) : N :=
  let index := length w in
  let at_ i := nth i w 0 in
  let s0 := N.lxor (N.lxor (rotate_right (at_ (index - 15)%nat) 7) (rotate_right (at_ (index - 15)%nat) 18))
              (N.shiftr (at_ (index - 15)%nat) 3) in
  let s1 := N.lxor (N.lxor (rotate_right (at_ (index - 2)%nat) 17) (rotate_right (at_ (index - 2)%nat) 19))
              (N.shiftr (at_ (index - 2)%nat) 10) in
  add32 (add32 (add32 (at_ (index - 16)%nat) s0) (at_ (index - 7)%nat)) s1.
(** user/k4fmt/src/sha256.rs:117-137 [Sha256::compress, the schedule] *)
Definition schedule (block : list N) : list N :=
  Nat.iter 48 (λ w, w ++ [next_word w]) (first_words block).

(** The eight working variables. *)
Inductive Working := mkWorking (a b c d e f g h : N).

(** user/k4fmt/src/sha256.rs:139-157 [Sha256::compress, one round] *)
Definition round (x : Working) (kw : N * N) : Working :=
  let '(mkWorking a b c d e f g h) := x in
  let '(k, w) := kw in
  let s1 := N.lxor (N.lxor (rotate_right e 6) (rotate_right e 11)) (rotate_right e 25) in
  let ch := N.lxor (N.land e f) (N.land (not32 e) g) in
  let t1 := add32 (add32 (add32 (add32 h s1) ch) k) w in
  let s0 := N.lxor (N.lxor (rotate_right a 2) (rotate_right a 13)) (rotate_right a 22) in
  let maj := N.lxor (N.lxor (N.land a b) (N.land a c)) (N.land b c) in
  let t2 := add32 s0 maj in
  mkWorking (add32 t1 t2) a b c (add32 d t1) e f g.

Definition working (state : list N) : Working :=
  let s i := nth i state 0 in
  mkWorking (s 0%nat) (s 1%nat) (s 2%nat) (s 3%nat) (s 4%nat) (s 5%nat) (s 6%nat) (s 7%nat).
Definition words (x : Working) : list N :=
  let '(mkWorking a b c d e f g h) := x in [a; b; c; d; e; f; g; h].

(** user/k4fmt/src/sha256.rs:116-163 [Sha256::compress] *)
Definition compress (state block : list N) : list N :=
  zip_with add32 state
    (words (foldl round (working state) (zip K256 (schedule block)))).

(** ** The incremental computation *)

(** user/k4fmt/src/sha256.rs:35-40 [Sha256] *)
Record Sha256 := mkSha256 {
  sh_state : list N;
  sh_block : list N;
  sh_filled : nat;
  sh_length : N
}.
#[global] Instance Sha256_rebuild : Rebuild Sha256 := λ h,
  mkSha256 (sh_state h) (sh_block h) (sh_filled h) (sh_length h).

(** user/k4fmt/src/sha256.rs:50-57 [Sha256::new] *)
Definition sha_new : Sha256 := mkSha256 H0 (replicate 64 0) 0 0.

(** The full blocks of the data. A fuel of its length is enough: every turn takes 64
    bytes. *)
(** user/k4fmt/src/sha256.rs:75-80 [Sha256::update, the loop] *)
Fixpoint full_blocks (fuel : nat) (state rest : list N) : list N * list N :=
  match fuel with
  | O => (state, rest)
  | S fuel =>
      if decide (length rest < 64)%nat then (state, rest)
      else full_blocks fuel (compress state (take 64 rest)) (drop 64 rest)
  end.

(** A block that is full is compressed. *)
(** user/k4fmt/src/sha256.rs:69-73 [Sha256::update, the full block]; lines 108-112 of
    [update_raw] *)
Definition flush_block (h : Sha256) : Sha256 :=
  if decide (sh_filled h = 64%nat)
  then h <| sh_state ::= λ s, compress s (sh_block h) |> <| sh_filled := 0%nat |> else h.

(** Bytes into the block being filled. *)
Definition put_bytes (bytes : list N) (h : Sha256) : Sha256 :=
  flush_block (h <| sh_block ::= splice (sh_filled h) bytes |>
                 <| sh_filled ::= λ n, (n + length bytes)%nat |>).

(** What is left of the data after the block begun has what it wants. *)
(** user/k4fmt/src/sha256.rs:63-74 [Sha256::update, the block begun] *)
Definition top_up (data : list N) (h : Sha256) : Sha256 * list N :=
  if decide (0 < sh_filled h)%nat then
    let want := (64 - sh_filled h)%nat in
    let taken := Nat.min (length data) want in
    (put_bytes (take taken data) h, drop taken data)
  else (h, data).

(** user/k4fmt/src/sha256.rs:60-85 [Sha256::update] *)
Definition update (data : list N) (h : Sha256) : Sha256 :=
  let h := h <| sh_length ::= λ l, wrapping_add 64 l (N.of_nat (length data)) |> in
  let '(h, rest) := top_up data h in
  let '(state, rest) := full_blocks (length rest) (sh_state h) rest in
  let h := h <| sh_state := state |> in
  if decide (rest = []) then h
  else h <| sh_block ::= splice 0 rest |> <| sh_filled := length rest |>.

(** Padding bytes, one at a time. *)
(** user/k4fmt/src/sha256.rs:104-114 [Sha256::update_raw] *)
Definition update_raw (data : list N) (h : Sha256) : Sha256 :=
  foldl (λ h byte, put_bytes [byte] h) h data.

(** The loop that pads with zero bytes; [None] is a fuel that did not last. *)
(** user/k4fmt/src/sha256.rs:91-93 [Sha256::finish, the loop] *)
Fixpoint pad_zeros (fuel : nat) (h : Sha256) : option Sha256 :=
  if decide (sh_filled h = 56%nat) then Some h else
  match fuel with
  | O => None
  | S fuel => pad_zeros fuel (update_raw [0] h)
  end.

(** user/k4fmt/src/sha256.rs:88-101 [Sha256::finish] *)
Definition finish (h : Sha256) : option (list N) :=
  let bits := (sh_length h * 8) mod 2 ^ 64 in
  h ← pad_zeros 64 (update_raw [0x80] h);
  let h := update_raw (be_bytes 8 bits) h in
  Some (sh_state h ≫= be_bytes 4).

(** user/k4fmt/src/sha256.rs:167-171 [digest] *)
Definition digest (data : list N) : option (list N) := finish (update data sha_new).

(** ** FIPS 180-4 *)

(** The message with its padding (section 5.1.1): a one bit, zeros up to 56 bytes
    past a block, the length in bits as a 64-bit integer. *)
Definition pad_count (len : nat) : nat := ((119 - len mod 64) mod 64)%nat.
Definition padded (message : list N) : list N :=
  message ++ [0x80] ++ replicate (pad_count (length message)) 0 ++
  be_bytes 8 ((N.of_nat (length message) * 8) mod 2 ^ 64).

(** The blocks of the padded message, one after another (section 6.2.2). *)
Fixpoint fold_blocks (n : nat) (state bytes : list N) : list N :=
  match n with
  | O => state
  | S n => fold_blocks n (compress state (take 64 bytes)) (drop 64 bytes)
  end.

Definition sha256 (message : list N) : list N :=
  fold_blocks (length (padded message) / 64) H0 (padded message) ≫= be_bytes 4.

(** ** Byte by byte

    A computation is its state and the bytes of the block begun; [feed] adds one
    byte. Both the code and the definition of the digest are folds of it. *)

Definition feed (x : list N * list N) (byte : N) : list N * list N :=
  let '(state, pending) := x in
  if decide (length pending = 63%nat) then (compress state (pending ++ [byte]), [])
  else (state, pending ++ [byte]).
Abbreviation feeds := (foldl feed).

Lemma feeds_partial data state pending :
  (length pending + length data < 64)%nat → feeds (state, pending) data = (state, pending ++ data).
Proof.
  revert pending. induction data as [|b data IH]; intros pending Hlen; cbn [length] in Hlen.
  { by rewrite app_nil_r. }
  cbn [foldl feed]. rewrite decide_False by lia. rewrite IH by (rewrite length_app; cbn; lia).
  by rewrite <-app_assoc.
Qed.

Lemma feeds_full data state pending :
  (length pending < 64)%nat → (length pending + length data = 64)%nat →
  feeds (state, pending) data = (compress state (pending ++ data), []).
Proof.
  intros Hp Hlen. destruct (exists_last (l := data)) as (data' & b & ->); [by intros ->; cbn in *; lia|].
  rewrite length_app in Hlen. cbn in Hlen. rewrite foldl_app, feeds_partial by lia. cbn [foldl feed].
  rewrite decide_True by (rewrite length_app; lia). by rewrite <-app_assoc.
Qed.

Lemma feeds_blocks n state data :
  length data = (64 * n)%nat → feeds (state, []) data = (fold_blocks n state data, []).
Proof.
  revert state data. induction n as [|n IH]; intros state data Hlen.
  { apply nil_length_inv in Hlen. by subst. }
  rewrite <-(take_drop 64 data) at 1. rewrite foldl_app, feeds_full; rewrite ?length_take; cbn [length]; try lia.
  rewrite app_nil_l. apply IH. rewrite length_drop. lia.
Qed.

Lemma full_blocks_feeds fuel state data :
  (length data <= fuel)%nat →
  feeds (state, []) data = full_blocks fuel state data ∧ (length (full_blocks fuel state data).2 < 64)%nat.
Proof.
  revert state data. induction fuel as [|fuel IH]; intros state data Hlen; cbn [full_blocks].
  { assert (data = []) as -> by (apply nil_length_inv; lia). cbn. split; [done|lia]. }
  case_decide as Hd; [split; [by apply feeds_partial|done]|].
  destruct (IH (compress state (take 64 data)) (drop 64 data)) as [IH1 IH2].
  { rewrite length_drop. lia. }
  split; [|done]. rewrite <-IH1. rewrite <-(take_drop 64 data) at 1.
  rewrite foldl_app, feeds_full; rewrite ?length_take; cbn [length]; try lia. done.
Qed.

(** The bytes pending count modulo a block. *)
Lemma feeds_pending data state pending :
  (length pending < 64)%nat →
  length (feeds (state, pending) data).2 = ((length pending + length data) mod 64)%nat.
Proof.
  revert state pending. induction data as [|b data IH]; intros state pending Hp; cbn [foldl length].
  { rewrite Nat.add_0_r, Nat.mod_small by done. done. }
  unfold feed at 2. case_decide as Hd.
  - rewrite IH by (cbn; lia). rewrite Hd. cbn [length]. 
    replace (63 + S (length data))%nat with (0 + length data + 1 * 64)%nat by lia.
    by rewrite Nat.Div0.mod_add.
  - rewrite IH; rewrite ?length_app; cbn [length]; [|lia]. f_equal. lia.
Qed.

(** *** The code is such a fold *)

Record hashing (h : Sha256) : Prop := {
  hs_block : length (sh_block h) = 64%nat;
  hs_filled : (sh_filled h < 64)%nat
}.
Definition fed (h : Sha256) : list N * list N := (sh_state h, take (sh_filled h) (sh_block h)).

(** Bytes that fit the block begun. *)
Lemma put_fed data h :
  hashing h → (sh_filled h + length data <= 64)%nat → data ≠ [] →
  hashing (put_bytes data h) ∧ fed (put_bytes data h) = feeds (fed h) data ∧
  sh_length (put_bytes data h) = sh_length h ∧
  sh_filled (put_bytes data h) = ((sh_filled h + length data) mod 64)%nat.
Proof.
  intros [Hb Hf] Hlen Hne. unfold put_bytes, flush_block.
  assert (Hspl : length (splice (sh_filled h) data (sh_block h)) = 64%nat) by (rewrite splice_len; lia).
  assert (Hts : take (sh_filled h + length data) (splice (sh_filled h) data (sh_block h)) =
    take (sh_filled h) (sh_block h) ++ data) by (apply take_splice; lia).
  cbn [sh_filled sh_block sh_state sh_length set_field].
  assert (0 < length data)%nat as Hpos by (destruct data; [done|cbn; lia]).
  case_decide as Hfull; cbn in Hfull |- *.
  - rewrite Hfull. split_and!; [split; cbn; [done|lia]| |done|done]. unfold fed. cbn.
    rewrite feeds_full; rewrite ?length_take; try lia.
    rewrite <-Hts, Hfull, (firstn_all2 (n := 64) (splice _ _ _)) by lia. done.
  - split_and!; [split; cbn; [done|lia]| |done|exact (eq_sym (Nat.mod_small (sh_filled h + length data) 64 ltac:(lia)))]. unfold fed. cbn.
    rewrite Hts. symmetry. apply feeds_partial. rewrite length_take. lia.
Qed.

Lemma put_nothing h : hashing h → put_bytes [] h = h.
Proof.
  intros [_ Hf]. destruct h as [s b f l]. unfold put_bytes, flush_block, set_field, splice.
  cbn [sh_filled sh_block sh_state sh_length length app] in Hf |- *.
  rewrite Nat.add_0_r, take_drop. rewrite decide_False; [done|lia].
Qed.

Lemma top_up_fed data h :
  hashing h → let '(h', rest) := top_up data h in
  hashing h' ∧ feeds (fed h) data = feeds (fed h') rest ∧ (sh_filled h' = 0%nat ∨ rest = []) ∧
  sh_length h' = sh_length h.
Proof.
  intros Hh. pose proof Hh as [Hb Hf]. unfold top_up. case_decide as Hpos.
  2:{ split_and!; [done|done| |done]. left. lia. }
  cbv zeta. destruct (decide (data = [])) as [->|Hne].
  { rewrite take_nil, drop_nil, (put_nothing h Hh). split_and!; [done|done|by right|done]. }
  set (taken := Nat.min (length data) (64 - sh_filled h)).
  assert (length (take taken data) = taken) as Hlt by (rewrite length_take; lia).
  assert (0 < length data)%nat by (destruct data; [done|cbn; lia]).
  destruct (put_fed (take taken data) h) as (Hh' & Hfed & Hl & Hfi);
    [done|rewrite Hlt; lia|intros Hz; rewrite Hz in Hlt; cbn in Hlt; lia|].
  split_and!; [done| | |done].
  - rewrite Hfed, <-foldl_app, take_drop. done.
  - rewrite Hfi, Hlt. destruct (decide (taken = length data)) as [->|Hd]; [right; by rewrite drop_all|].
    left. replace (sh_filled h + taken)%nat with 64%nat by lia. done.
Qed.

Lemma update_fed data h :
  hashing h → hashing (update data h) ∧ fed (update data h) = feeds (fed h) data ∧
  sh_length (update data h) = wrapping_add 64 (sh_length h) (N.of_nat (length data)).
Proof.
  intros Hh. unfold update. set (h0 := h <| sh_length ::= _ |>).
  assert (Hh0 : hashing h0) by (destruct Hh; by split). change (fed h) with (fed h0).
  pose proof (top_up_fed data h0 Hh0) as Htop. destruct (top_up data h0) as [h1 rest].
  destruct Htop as ([Hb1 Hf1] & -> & Hor & Hl1).
  destruct (full_blocks (length rest) (sh_state h1) rest) as [state' rest'] eqn:Hfb.
  destruct (decide (rest = [])) as [->|Hne].
  { injection Hfb as <- <-. cbn. case_decide; [|done]. by split_and!; [split| |]. }
  assert (sh_filled h1 = 0%nat) as Hz by by destruct Hor.
  destruct (full_blocks_feeds (length rest) (sh_state h1) rest) as [Hfeed Hlt]; [done|].
  rewrite Hfb in Hfeed, Hlt. cbn [snd] in Hlt.
  assert (fed h1 = (sh_state h1, [])) as -> by (unfold fed; by rewrite Hz). rewrite Hfeed.
  case_decide as Hr; [subst rest'|]; cbn.
  - split_and!; [by split| |done]. unfold fed. cbn. by rewrite Hz.
  - split_and!; [split; cbn; [rewrite splice_len; cbn; lia|done]| |done]. unfold fed. cbn.
    f_equal. pose proof (take_splice 0 rest' (sh_block h1)) as Ht. cbn in Ht. apply Ht. lia.
Qed.

Lemma updates_fed parts h :
  hashing h →
  let h' := foldl (λ h data, update data h) h parts in
  hashing h' ∧ fed h' = feeds (fed h) (concat parts) ∧
  (∀ n, sh_length h = N.of_nat n mod 2 ^ 64 →
     sh_length h' = N.of_nat (n + length (concat parts)) mod 2 ^ 64).
Proof.
  revert h. induction parts as [|data parts IH]; intros h Hh; cbn [foldl concat].
  { split_and!; [done..|]. intros n. by rewrite Nat.add_0_r. }
  destruct (update_fed data h Hh) as (Hh1 & Hf1 & Hl1). destruct (IH _ Hh1) as (Hh2 & Hf2 & Hl2).
  split_and!; [done| |].
  - by rewrite Hf2, Hf1, <-foldl_app.
  - intros n Hn. rewrite (Hl2 (n + length data)%nat).
    + do 2 f_equal. rewrite length_app. lia.
    + rewrite Hl1, Hn. unfold wrapping_add. rewrite N.Div0.add_mod_idemp_l. f_equal. lia.
Qed.

Lemma update_raw_fed data h :
  hashing h → hashing (update_raw data h) ∧ fed (update_raw data h) = feeds (fed h) data ∧
  sh_length (update_raw data h) = sh_length h ∧
  sh_filled (update_raw data h) = ((sh_filled h + length data) mod 64)%nat.
Proof.
  revert h. induction data as [|b data IH]; intros h Hh; cbn [update_raw foldl length].
  { destruct Hh. rewrite Nat.add_0_r, Nat.mod_small by done. done. }
  destruct (put_fed [b] h Hh) as (Hh1 & Hf1 & Hl1 & Hi1); [destruct Hh; cbn; lia|done|].
  destruct (IH _ Hh1) as (Hh2 & Hf2 & Hl2 & Hi2). unfold update_raw in *. split_and!; [done| | |].
  - rewrite Hf2, Hf1. done.
  - by rewrite Hl2.
  - rewrite Hi2, Hi1, Nat.Div0.add_mod_idemp_l. cbn [length]. f_equal. lia.
Qed.

(** The padding loop stops at the first count of zeros that leaves room for the
    length. *)
Lemma pad_zeros_fed k fuel h :
  hashing h → (k <= fuel)%nat → ((sh_filled h + k) mod 64 = 56)%nat →
  (∀ j, (j < k)%nat → ((sh_filled h + j) mod 64 ≠ 56)%nat) →
  pad_zeros fuel h = Some (update_raw (replicate k 0) h).
Proof.
  revert fuel h. induction k as [|k IH]; intros fuel h Hh Hk H56 Hmin.
  { destruct Hh as [_ Hf]. rewrite Nat.add_0_r, Nat.mod_small in H56 by done.
    destruct fuel; cbn [pad_zeros]; by rewrite decide_True. }
  destruct fuel as [|fuel]; [lia|]. cbn [pad_zeros].
  pose proof (Hmin 0%nat ltac:(lia)) as H0. destruct Hh as [Hb Hf].
  rewrite Nat.add_0_r, Nat.mod_small in H0 by done. rewrite decide_False by done.
  destruct (update_raw_fed [0] h (Build_hashing h Hb Hf)) as (Hh1 & _ & _ & Hi1). cbn [length] in Hi1.
  rewrite (IH fuel (update_raw [0] h) Hh1); [done|lia|..].
  - rewrite Hi1, Nat.Div0.add_mod_idemp_l.
    by replace (sh_filled h + 1 + k)%nat with (sh_filled h + S k)%nat by lia.
  - intros j Hj. rewrite Hi1, Nat.Div0.add_mod_idemp_l.
    replace (sh_filled h + 1 + j)%nat with (sh_filled h + S j)%nat by lia. apply Hmin. lia.
Qed.

(** *** The digest *)

Lemma sha_new_hashing : hashing sha_new.
Proof. split; [done|cbn; lia]. Qed.

Lemma be_bytes_len w x : length (be_bytes w x) = w.
Proof. unfold be_bytes. by rewrite length_rev, le_bytes_len. Qed.

(** The counts for every fill of a block. *)
Definition pad_check (m : nat) : bool :=
  let f := ((1 + m) mod 64)%nat in
  let count := ((119 - m) mod 64)%nat in
  bool_decide ((f + count) mod 64 = 56)%nat && bool_decide (count <= 63)%nat &&
  forallb (λ j, negb (bool_decide ((f + j) mod 64 = 56)%nat)) (seq 0 count).

Lemma pad_count_least f len :
  (f = S len mod 64)%nat →
  ((f + pad_count len) mod 64 = 56)%nat ∧ (pad_count len <= 63)%nat ∧
  ∀ j, (j < pad_count len)%nat → ((f + j) mod 64 ≠ 56)%nat.
Proof.
  intros ->. unfold pad_count. pose proof (Nat.mod_upper_bound len 64 ltac:(lia)) as Hm.
  rewrite <-Nat.add_1_l, <-(Nat.Div0.add_mod_idemp_r 1 len 64). generalize dependent (len mod 64)%nat.
  intros m Hm. assert (forallb pad_check (seq 0 64) = true) as Hall by by vm_compute.
  pose proof (forallb_elem _ _ Hall m ltac:(apply elem_of_seq; lia)) as H. cbv beta in H.
  apply andb_true_iff in H as [[H1%bool_decide_eq_true H2%bool_decide_eq_true]%andb_true_iff H3].
  split_and!; [exact H1|exact H2|]. intros j Hj.
  pose proof (forallb_elem _ _ H3 j ltac:(apply elem_of_seq; lia)) as H. cbv beta in H.
  by apply negb_true_iff, bool_decide_eq_false in H.
Qed.

Lemma finish_updates parts :
  finish (foldl (λ h data, update data h) sha_new parts) = Some (sha256 (concat parts)).
Proof.
  destruct (updates_fed parts sha_new sha_new_hashing) as (Hh & Hf & Hl).
  specialize (Hl 0%nat eq_refl). set (h := foldl _ _ _) in *. set (m := concat parts) in *.
  cbn [Nat.add] in Hl. unfold finish.
  destruct (update_raw_fed [0x80] h Hh) as (Hh1 & Hf1 & _ & Hi1). set (h1 := update_raw [0x80] h) in *.
  assert (Hi : sh_filled h = (length m mod 64)%nat).
  { pose proof (feeds_pending m H0 [] ltac:(cbn; lia)) as Hp. change (H0, []) with (fed sha_new) in Hp.
    rewrite <-Hf in Hp. unfold fed in Hp. cbn [snd length] in Hp. destruct Hh as [Hb Hlt].
    rewrite length_take in Hp. cbn [Nat.add] in Hp. rewrite <-Hp. lia. }
  assert (sh_filled h1 = (S (length m) mod 64)%nat) as Hi1'.
  { rewrite Hi1, Hi, Nat.Div0.add_mod_idemp_l. cbn [length]. f_equal. lia. }
  destruct (pad_count_least _ _ Hi1') as (H56 & H63 & Hmin).
  rewrite (pad_zeros_fed (pad_count (length m)) 64 h1 Hh1); [|lia|done|done]. cbn [mbind option_bind].
  destruct (update_raw_fed (replicate (pad_count (length m)) 0) h1 Hh1) as (Hh2 & Hf2 & _ & _).
  set (h2 := update_raw (replicate _ 0) h1) in *.
  destruct (update_raw_fed (be_bytes 8 ((sh_length h * 8) mod 2 ^ 64)) h2 Hh2) as (Hh3 & Hf3 & _ & _).
  set (h3 := update_raw (be_bytes 8 _) h2) in *. clearbody h3 h2 h1 h m.
  assert (Hbits : (sh_length h * 8) mod 2 ^ 64 = (N.of_nat (length m) * 8) mod 2 ^ 64).
  { by rewrite Hl, N.Div0.mul_mod_idemp_l. }
  assert (Hall : fed h3 = feeds (H0, []) (padded m)).
  { rewrite Hf3, Hf2, Hf1, Hf, Hbits. unfold padded. by rewrite !foldl_app. }
  assert (Hlen : ∃ n, length (padded m) = (64 * n)%nat).
  { exists (length (padded m) / 64)%nat. apply Nat.Div0.div_exact. unfold padded. rewrite !length_app, length_replicate, be_bytes_len.
    cbn [length]. rewrite Hi1' in H56. 
    replace (length m + (1 + (pad_count (length m) + 8)))%nat with
      (S (length m) + pad_count (length m) + 8)%nat by lia.
    rewrite <-Nat.Div0.add_mod_idemp_l. rewrite <-(Nat.Div0.add_mod_idemp_l (S (length m))), H56. done. }
  destruct Hlen as [n Hn]. rewrite (feeds_blocks n) in Hall by done. unfold sha256.
  assert (length (padded m) / 64 = n)%nat as ->.
  { rewrite Hn, Nat.mul_comm. by apply Nat.div_mul. }
  unfold fed in Hall. by injection Hall as ->.
Qed.

(** ** The constants *)

(** The greatest [r < 2 ^ bits] with [r ^ e <= n]. *)
Fixpoint integer_root (e n : N) (bits : nat) (r : N) : N :=
  match bits with
  | O => r
  | S b => let r' := r + 2 ^ N.of_nat b in integer_root e n b (if bool_decide (r' ^ e <= n) then r' else r)
  end.
(** The first 32 bits of the fraction of the [e]th root of [n]. *)
Definition root_fraction (e n : N) : N := integer_root e (n * 2 ^ (32 * e)) 40 0 mod 2 ^ 32.
Definition is_prime (n : N) : bool :=
  bool_decide (2 <= n) && forallb (λ d, negb (bool_decide (n mod N.of_nat d = 0))) (seq 2 (N.to_nat n - 2)).
Definition primes : list N := filter (λ n, is_prime n) (N.of_nat <$> seq 0 312).


(** The digest of "abc" (FIPS 180-4, appendix). *)
Lemma sha256_abc : digest [97; 98; 99] = Some [
  186; 120; 22; 191; 143; 1; 207; 234; 65; 65; 64; 222; 93; 174; 34; 35;
  176; 3; 97; 163; 150; 23; 122; 156; 180; 16; 255; 97; 242; 0; 21; 173].
Proof. by vm_compute. Qed.

(** A digest is thirty-two bytes. *)
Lemma fold_blocks_len n state bytes : length state = 8%nat → length (fold_blocks n state bytes) = 8%nat.
Proof.
  revert state bytes. induction n as [|n IH]; intros state bytes Hs; [done|]. cbn [fold_blocks]. apply IH.
  unfold compress. rewrite length_zip_with, Hs. by destruct (foldl _ _ _).
Qed.

Lemma be_bytes_ok w x : bytes_ok (be_bytes w x).
Proof. apply Forall_rev, le_bytes_ok. Qed.

Lemma sha256_len m : length (sha256 m) = 32%nat.
Proof.
  unfold sha256. pose proof (fold_blocks_len (length (padded m) / 64) H0 (padded m) eq_refl) as H.
  destruct (fold_blocks _ _ _) as [|? [|? [|? [|? [|? [|? [|? [|? [|]]]]]]]]]; try done.
Qed.

Lemma sha256_ok m : bytes_ok (sha256 m).
Proof. apply Forall_bind, Forall_true. intros x. apply be_bytes_ok. Qed.
