(* ===== verification/K4Layout.v ===== *)
(** * The layout of the durable store

    [user/k4fmt/src/generated.rs] up to its golden vectors: the geometry of the store,
    its kinds and codes, and the structures on the medium, each a record with the
    codec of its fields in order. The fields of one structure share a prefix. *)

From S2P Require Import Prelude Bytes.

#[local] Open Scope N_scope.

(** user/k4fmt/src/generated.rs:12-12 [FORMAT_MAJOR] *)
Definition FORMAT_MAJOR : N := 1.
(** user/k4fmt/src/generated.rs:14-14 [FORMAT_MINOR] *)
Definition FORMAT_MINOR : N := 0.

Module geometry.
(** user/k4fmt/src/generated.rs:19-19 [geometry::BLOCK_SIZE] *)
Definition BLOCK_SIZE : N := 4096.
(** user/k4fmt/src/generated.rs:21-21 [geometry::SECTOR_SIZE] *)
Definition SECTOR_SIZE : N := 512.
(** user/k4fmt/src/generated.rs:23-23 [geometry::STORE_BASE_BLOCK] *)
Definition STORE_BASE_BLOCK : N := 64.
(** user/k4fmt/src/generated.rs:25-25 [geometry::SUPERBLOCK_A_BLOCK] *)
Definition SUPERBLOCK_A_BLOCK : N := 0.
(** user/k4fmt/src/generated.rs:27-27 [geometry::SUPERBLOCK_B_BLOCK] *)
Definition SUPERBLOCK_B_BLOCK : N := 1.
(** user/k4fmt/src/generated.rs:29-29 [geometry::ARENA0_START_BLOCK] *)
Definition ARENA0_START_BLOCK : N := 2.
(** user/k4fmt/src/generated.rs:31-31 [geometry::ARENA_BLOCK_COUNT] *)
Definition ARENA_BLOCK_COUNT : N := 256.
(** user/k4fmt/src/generated.rs:33-33 [geometry::ARENA1_START_BLOCK] *)
Definition ARENA1_START_BLOCK : N := 258.
(** user/k4fmt/src/generated.rs:35-35 [geometry::STORE_BLOCK_COUNT] *)
Definition STORE_BLOCK_COUNT : N := 514.
(** user/k4fmt/src/generated.rs:37-37 [geometry::HARNESS_DIRECTIVE_BLOCK] *)
Definition HARNESS_DIRECTIVE_BLOCK : N := 0.
(** user/k4fmt/src/generated.rs:39-39 [geometry::OBJECT_MAX_BYTES] *)
Definition OBJECT_MAX_BYTES : N := 3072.
(** user/k4fmt/src/generated.rs:41-41 [geometry::RECORD_MAX_BLOCKS] *)
Definition RECORD_MAX_BLOCKS : N := 1.
(** user/k4fmt/src/generated.rs:43-43 [geometry::MAX_TREE_ENTRIES] *)
Definition MAX_TREE_ENTRIES : N := 12.
(** user/k4fmt/src/generated.rs:45-45 [geometry::MAX_PRINCIPALS] *)
Definition MAX_PRINCIPALS : N := 4.
(** user/k4fmt/src/generated.rs:47-47 [geometry::MAX_RESULTS] *)
Definition MAX_RESULTS : N := 8.
(** user/k4fmt/src/generated.rs:49-49 [geometry::MAX_RETAINED] *)
Definition MAX_RETAINED : N := 4.
(** user/k4fmt/src/generated.rs:51-51 [geometry::CLOSURE_RESERVE_BLOCKS] *)
Definition CLOSURE_RESERVE_BLOCKS : N := 4.
(** user/k4fmt/src/generated.rs:53-53 [geometry::COMPACTION_RESERVE_BLOCKS] *)
Definition COMPACTION_RESERVE_BLOCKS : N := 8.
End geometry.

Module prefix.
(** user/k4fmt/src/generated.rs:60-60 [prefix::OBJECT] *)
Definition OBJECT : list N := [116; 104; 97; 108; 121; 120; 45; 107; 52; 47; 111; 98; 106; 101; 99; 116; 47; 118; 49; 0].
(** user/k4fmt/src/generated.rs:62-62 [prefix::REQUEST] *)
Definition REQUEST : list N := [116; 104; 97; 108; 121; 120; 45; 107; 52; 47; 114; 101; 113; 117; 101; 115; 116; 47; 118; 49; 0].
(** user/k4fmt/src/generated.rs:64-64 [prefix::STORE_UUID] *)
Definition STORE_UUID : list N := [116; 104; 97; 108; 121; 120; 45; 107; 52; 47; 115; 116; 111; 114; 101; 47; 118; 49; 0].
End prefix.

Module magic.
(** user/k4fmt/src/generated.rs:70-70 [magic::SUPERBLOCK] *)
Definition SUPERBLOCK : list N := [84; 72; 76; 88; 83; 66; 48; 49].
(** user/k4fmt/src/generated.rs:72-72 [magic::RECORD] *)
Definition RECORD : list N := [84; 72; 76; 88; 82; 67; 48; 49].
(** user/k4fmt/src/generated.rs:74-74 [magic::HARNESS] *)
Definition HARNESS : list N := [84; 72; 76; 88; 70; 76; 84; 49].
End magic.

Module record_kind.
(** user/k4fmt/src/generated.rs:80-80 [record_kind::CHECKPOINT] *)
Definition CHECKPOINT : N := 1.
(** user/k4fmt/src/generated.rs:82-82 [record_kind::OBJECT] *)
Definition OBJECT : N := 2.
(** user/k4fmt/src/generated.rs:84-84 [record_kind::PREPARE] *)
Definition PREPARE : N := 3.
(** user/k4fmt/src/generated.rs:86-86 [record_kind::COMMIT] *)
Definition COMMIT : N := 4.
(** user/k4fmt/src/generated.rs:88-88 [record_kind::ABORT] *)
Definition ABORT : N := 5.
(** user/k4fmt/src/generated.rs:90-90 [record_kind::OUTBOX] *)
Definition OUTBOX : N := 6.
End record_kind.

Module object_type.
(** user/k4fmt/src/generated.rs:96-96 [object_type::BYTES] *)
Definition BYTES : N := 1.
(** user/k4fmt/src/generated.rs:98-98 [object_type::TREE] *)
Definition TREE : N := 2.
(** user/k4fmt/src/generated.rs:100-100 [object_type::MANIFEST] *)
Definition MANIFEST : N := 3.
(** user/k4fmt/src/generated.rs:102-102 [object_type::POLICY] *)
Definition POLICY : N := 4.
(** user/k4fmt/src/generated.rs:104-104 [object_type::VALIDATION] *)
Definition VALIDATION : N := 5.
(** user/k4fmt/src/generated.rs:106-106 [object_type::RECEIPT] *)
Definition RECEIPT : N := 6.
End object_type.

Module store_op.
(** user/k4fmt/src/generated.rs:112-112 [store_op::QUERY] *)
Definition QUERY : N := 1.
(** user/k4fmt/src/generated.rs:114-114 [store_op::READ] *)
Definition READ : N := 2.
(** user/k4fmt/src/generated.rs:116-116 [store_op::FORK] *)
Definition FORK : N := 3.
(** user/k4fmt/src/generated.rs:118-118 [store_op::WRITE] *)
Definition WRITE : N := 4.
(** user/k4fmt/src/generated.rs:120-120 [store_op::FREEZE] *)
Definition FREEZE : N := 5.
(** user/k4fmt/src/generated.rs:122-122 [store_op::PUBLISH] *)
Definition PUBLISH : N := 6.
(** user/k4fmt/src/generated.rs:124-124 [store_op::RESULT] *)
Definition RESULT : N := 7.
(** user/k4fmt/src/generated.rs:126-126 [store_op::DISCARD] *)
Definition DISCARD : N := 8.
(** user/k4fmt/src/generated.rs:128-128 [store_op::PUT_OBJECT] *)
Definition PUT_OBJECT : N := 9.
(** user/k4fmt/src/generated.rs:130-130 [store_op::RETAIN] *)
Definition RETAIN : N := 10.
(** user/k4fmt/src/generated.rs:132-132 [store_op::RELEASE] *)
Definition RELEASE : N := 11.
(** user/k4fmt/src/generated.rs:134-134 [store_op::COMPACT] *)
Definition COMPACT : N := 12.
(** user/k4fmt/src/generated.rs:136-136 [store_op::HARNESS] *)
Definition HARNESS : N := 13.
(** user/k4fmt/src/generated.rs:138-138 [store_op::STATS] *)
Definition STATS : N := 14.
End store_op.

Module store_status.
(** user/k4fmt/src/generated.rs:144-144 [store_status::OK] *)
Definition OK : N := 0.
(** user/k4fmt/src/generated.rs:146-146 [store_status::INVALID_REQUEST] *)
Definition INVALID_REQUEST : N := 1.
(** user/k4fmt/src/generated.rs:148-148 [store_status::FORBIDDEN] *)
Definition FORBIDDEN : N := 2.
(** user/k4fmt/src/generated.rs:150-150 [store_status::NOT_FOUND] *)
Definition NOT_FOUND : N := 3.
(** user/k4fmt/src/generated.rs:152-152 [store_status::GENERATION_STALE] *)
Definition GENERATION_STALE : N := 4.
(** user/k4fmt/src/generated.rs:154-154 [store_status::VALIDATION_MISMATCH] *)
Definition VALIDATION_MISMATCH : N := 5.
(** user/k4fmt/src/generated.rs:156-156 [store_status::POLICY_REFUSED] *)
Definition POLICY_REFUSED : N := 6.
(** user/k4fmt/src/generated.rs:158-158 [store_status::CONFLICT] *)
Definition CONFLICT : N := 7.
(** user/k4fmt/src/generated.rs:160-160 [store_status::SEQUENCE_GAP] *)
Definition SEQUENCE_GAP : N := 8.
(** user/k4fmt/src/generated.rs:162-162 [store_status::RESULT_EXPIRED] *)
Definition RESULT_EXPIRED : N := 9.
(** user/k4fmt/src/generated.rs:164-164 [store_status::EXHAUSTED] *)
Definition EXHAUSTED : N := 10.
(** user/k4fmt/src/generated.rs:166-166 [store_status::UNAVAILABLE] *)
Definition UNAVAILABLE : N := 11.
(** user/k4fmt/src/generated.rs:168-168 [store_status::EFFECT_REFUSED] *)
Definition EFFECT_REFUSED : N := 12.
(** user/k4fmt/src/generated.rs:170-170 [store_status::INTEGRITY_FAILED] *)
Definition INTEGRITY_FAILED : N := 13.
(** user/k4fmt/src/generated.rs:172-172 [store_status::RETAINED] *)
Definition RETAINED : N := 14.
(** user/k4fmt/src/generated.rs:174-174 [store_status::TOO_LARGE] *)
Definition TOO_LARGE : N := 15.
End store_status.

Module result_outcome.
(** user/k4fmt/src/generated.rs:180-180 [result_outcome::NEVER_SEEN] *)
Definition NEVER_SEEN : N := 0.
(** user/k4fmt/src/generated.rs:182-182 [result_outcome::COMMITTED] *)
Definition COMMITTED : N := 1.
(** user/k4fmt/src/generated.rs:184-184 [result_outcome::ABORTED] *)
Definition ABORTED : N := 2.
(** user/k4fmt/src/generated.rs:186-186 [result_outcome::UNKNOWN] *)
Definition UNKNOWN : N := 3.
(** user/k4fmt/src/generated.rs:188-188 [result_outcome::RESULT_EXPIRED] *)
Definition RESULT_EXPIRED : N := 4.
(** user/k4fmt/src/generated.rs:190-190 [result_outcome::PENDING] *)
Definition PENDING : N := 5.
End result_outcome.

Module outbox_status.
(** user/k4fmt/src/generated.rs:196-196 [outbox_status::NONE] *)
Definition NONE : N := 0.
(** user/k4fmt/src/generated.rs:198-198 [outbox_status::PENDING] *)
Definition PENDING : N := 1.
(** user/k4fmt/src/generated.rs:200-200 [outbox_status::DELIVERED] *)
Definition DELIVERED : N := 2.
(** user/k4fmt/src/generated.rs:202-202 [outbox_status::UNKNOWN] *)
Definition UNKNOWN : N := 3.
(** user/k4fmt/src/generated.rs:204-204 [outbox_status::REFUSED] *)
Definition REFUSED : N := 4.
End outbox_status.

Module abort_reason.
(** user/k4fmt/src/generated.rs:210-210 [abort_reason::NONE] *)
Definition NONE : N := 0.
(** user/k4fmt/src/generated.rs:212-212 [abort_reason::RECOVERED_UNRESOLVED] *)
Definition RECOVERED_UNRESOLVED : N := 1.
(** user/k4fmt/src/generated.rs:214-214 [abort_reason::DEPENDENCY_MISSING] *)
Definition DEPENDENCY_MISSING : N := 2.
(** user/k4fmt/src/generated.rs:216-216 [abort_reason::SERVICE_REFUSED] *)
Definition SERVICE_REFUSED : N := 3.
(** user/k4fmt/src/generated.rs:218-218 [abort_reason::EXHAUSTED] *)
Definition EXHAUSTED : N := 4.
End abort_reason.

Module fault_mode.
(** user/k4fmt/src/generated.rs:224-224 [fault_mode::NONE] *)
Definition NONE : N := 0.
(** user/k4fmt/src/generated.rs:226-226 [fault_mode::STOP] *)
Definition STOP : N := 1.
(** user/k4fmt/src/generated.rs:228-228 [fault_mode::DROP_WRITE] *)
Definition DROP_WRITE : N := 2.
(** user/k4fmt/src/generated.rs:230-230 [fault_mode::TEAR_WRITE] *)
Definition TEAR_WRITE : N := 3.
(** user/k4fmt/src/generated.rs:232-232 [fault_mode::LOSE_RESPONSE] *)
Definition LOSE_RESPONSE : N := 4.
(** user/k4fmt/src/generated.rs:234-234 [fault_mode::KILL_SERVICE] *)
Definition KILL_SERVICE : N := 5.
(** user/k4fmt/src/generated.rs:236-236 [fault_mode::IO_ERROR] *)
Definition IO_ERROR : N := 6.
(** user/k4fmt/src/generated.rs:238-238 [fault_mode::REORDER] *)
Definition REORDER : N := 7.
(** user/k4fmt/src/generated.rs:240-240 [fault_mode::LOSE_CONTROL] *)
Definition LOSE_CONTROL : N := 8.
End fault_mode.

Module fault_point.
(** user/k4fmt/src/generated.rs:246-246 [fault_point::NONE] *)
Definition NONE : N := 0.
(** user/k4fmt/src/generated.rs:248-248 [fault_point::BEFORE_PREPARE] *)
Definition BEFORE_PREPARE : N := 1.
(** user/k4fmt/src/generated.rs:250-250 [fault_point::AFTER_PREPARE] *)
Definition AFTER_PREPARE : N := 2.
(** user/k4fmt/src/generated.rs:252-252 [fault_point::BEFORE_OBJECT] *)
Definition BEFORE_OBJECT : N := 3.
(** user/k4fmt/src/generated.rs:254-254 [fault_point::AFTER_OBJECTS] *)
Definition AFTER_OBJECTS : N := 4.
(** user/k4fmt/src/generated.rs:256-256 [fault_point::BEFORE_COMMIT] *)
Definition BEFORE_COMMIT : N := 5.
(** user/k4fmt/src/generated.rs:258-258 [fault_point::AFTER_COMMIT] *)
Definition AFTER_COMMIT : N := 6.
(** user/k4fmt/src/generated.rs:260-260 [fault_point::BEFORE_ABORT] *)
Definition BEFORE_ABORT : N := 7.
(** user/k4fmt/src/generated.rs:262-262 [fault_point::AFTER_CHECKPOINT] *)
Definition AFTER_CHECKPOINT : N := 8.
(** user/k4fmt/src/generated.rs:264-264 [fault_point::AFTER_SUPERBLOCK] *)
Definition AFTER_SUPERBLOCK : N := 9.
(** user/k4fmt/src/generated.rs:266-266 [fault_point::AFTER_OUTBOX_SEND] *)
Definition AFTER_OUTBOX_SEND : N := 10.
End fault_point.

(** user/k4fmt/src/generated.rs:272-311 [StoreSuperblock] *)
Record StoreSuperblock := mkStoreSuperblock {
  sb_magic : list N;
  sb_format_major : N;
  sb_format_minor : N;
  sb_flags : N;
  sb_store_uuid : list N;
  sb_store_epoch : N;
  sb_superblock_generation : N;
  sb_active_arena : N;
  sb_arena0_start_block : N;
  sb_arena0_block_count : N;
  sb_arena1_start_block : N;
  sb_arena1_block_count : N;
  sb_block_size : N;
  sb_checkpoint_sequence : N;
  sb_durable_through_sequence : N;
  sb_published_generation : N;
  sb_published_root : list N;
  sb_reserved0 : N;
  sb_digest : list N
}.
#[global] Instance StoreSuperblock_rebuild : Rebuild StoreSuperblock := λ x,
  mkStoreSuperblock (sb_magic x) (sb_format_major x) (sb_format_minor x) (sb_flags x)
    (sb_store_uuid x) (sb_store_epoch x) (sb_superblock_generation x) (sb_active_arena x)
    (sb_arena0_start_block x) (sb_arena0_block_count x) (sb_arena1_start_block x)
    (sb_arena1_block_count x) (sb_block_size x) (sb_checkpoint_sequence x)
    (sb_durable_through_sequence x) (sb_published_generation x) (sb_published_root x)
    (sb_reserved0 x) (sb_digest x).
(** user/k4fmt/src/generated.rs:313-377 [StoreSuperblock, its size and offsets] *)
Definition StoreSuperblock_codec : Codec StoreSuperblock :=
  via
    (λ x, (sb_magic x, sb_format_major x, sb_format_minor x, sb_flags x, sb_store_uuid x,
      sb_store_epoch x, sb_superblock_generation x, sb_active_arena x, sb_arena0_start_block x,
      sb_arena0_block_count x, sb_arena1_start_block x, sb_arena1_block_count x,
      sb_block_size x, sb_checkpoint_sequence x, sb_durable_through_sequence x,
      sb_published_generation x, sb_published_root x, sb_reserved0 x, sb_digest x))
    (λ '(magic_, format_major_, format_minor_, flags_, store_uuid_, store_epoch_,
      superblock_generation_, active_arena_, arena0_start_block_, arena0_block_count_,
      arena1_start_block_, arena1_block_count_, block_size_, checkpoint_sequence_,
      durable_through_sequence_, published_generation_, published_root_, reserved0_, digest_),
      mkStoreSuperblock magic_ format_major_ format_minor_ flags_ store_uuid_ store_epoch_
        superblock_generation_ active_arena_ arena0_start_block_ arena0_block_count_
        arena1_start_block_ arena1_block_count_ block_size_ checkpoint_sequence_
        durable_through_sequence_ published_generation_ published_root_ reserved0_ digest_)
    (raw 8 ⊗ uint 2 ⊗ uint 2 ⊗ uint 4 ⊗ raw 16 ⊗ uint 8 ⊗ uint 8 ⊗ uint 8 ⊗ uint 8 ⊗ uint 8
      ⊗ uint 8 ⊗ uint 8 ⊗ uint 8 ⊗ uint 8 ⊗ uint 8 ⊗ uint 8 ⊗ raw 32 ⊗ uint 8 ⊗ raw 32).
#[global] Instance StoreSuperblock_layout : Layout StoreSuperblock_codec.
Proof. solve_layout. Qed.
Module StoreSuperblock.
(** user/k4fmt/src/generated.rs:315-315 [StoreSuperblock::SIZE] *)
Definition SIZE : nat := 192.
(** user/k4fmt/src/generated.rs:353-353 [StoreSuperblock::OFFSET_DIGEST] *)
Definition OFFSET_DIGEST : nat := 160.
(** This structure with every byte zero. *)
Definition zeroed : StoreSuperblock :=
  mkStoreSuperblock (replicate 8 0) 0 0 0 (replicate 16 0) 0 0 0 0 0 0 0 0 0 0 0
    (replicate 32 0) 0 (replicate 32 0).
End StoreSuperblock.

(** user/k4fmt/src/generated.rs:381-408 [RecordHeader] *)
Record RecordHeader := mkRecordHeader {
  rh_magic : list N;
  rh_format_major : N;
  rh_format_minor : N;
  rh_kind : N;
  rh_sequence : N;
  rh_store_epoch : N;
  rh_payload_len : N;
  rh_block_count : N;
  rh_arena : N;
  rh_reserved0 : N;
  rh_reserved1 : N;
  rh_prev_digest : list N;
  rh_digest : list N
}.
#[global] Instance RecordHeader_rebuild : Rebuild RecordHeader := λ x,
  mkRecordHeader (rh_magic x) (rh_format_major x) (rh_format_minor x) (rh_kind x)
    (rh_sequence x) (rh_store_epoch x) (rh_payload_len x) (rh_block_count x) (rh_arena x)
    (rh_reserved0 x) (rh_reserved1 x) (rh_prev_digest x) (rh_digest x).
(** user/k4fmt/src/generated.rs:410-456 [RecordHeader, its size and offsets] *)
Definition RecordHeader_codec : Codec RecordHeader :=
  via
    (λ x, (rh_magic x, rh_format_major x, rh_format_minor x, rh_kind x, rh_sequence x,
      rh_store_epoch x, rh_payload_len x, rh_block_count x, rh_arena x, rh_reserved0 x,
      rh_reserved1 x, rh_prev_digest x, rh_digest x))
    (λ '(magic_, format_major_, format_minor_, kind_, sequence_, store_epoch_, payload_len_,
      block_count_, arena_, reserved0_, reserved1_, prev_digest_, digest_),
      mkRecordHeader magic_ format_major_ format_minor_ kind_ sequence_ store_epoch_
        payload_len_ block_count_ arena_ reserved0_ reserved1_ prev_digest_ digest_)
    (raw 8 ⊗ uint 2 ⊗ uint 2 ⊗ uint 4 ⊗ uint 8 ⊗ uint 8 ⊗ uint 8 ⊗ uint 8 ⊗ uint 4 ⊗ uint 4
      ⊗ uint 8 ⊗ raw 32 ⊗ raw 32).
#[global] Instance RecordHeader_layout : Layout RecordHeader_codec.
Proof. solve_layout. Qed.
Module RecordHeader.
(** user/k4fmt/src/generated.rs:412-412 [RecordHeader::SIZE] *)
Definition SIZE : nat := 128.
(** user/k4fmt/src/generated.rs:438-438 [RecordHeader::OFFSET_DIGEST] *)
Definition OFFSET_DIGEST : nat := 96.
(** This structure with every byte zero. *)
Definition zeroed : RecordHeader :=
  mkRecordHeader (replicate 8 0) 0 0 0 0 0 0 0 0 0 0 (replicate 32 0) (replicate 32 0).
End RecordHeader.

(** user/k4fmt/src/generated.rs:460-469 [ObjectRecordHeader] *)
Record ObjectRecordHeader := mkObjectRecordHeader {
  oh_object_type : N;
  oh_reserved0 : N;
  oh_length : N;
  oh_content_digest : list N
}.
#[global] Instance ObjectRecordHeader_rebuild : Rebuild ObjectRecordHeader := λ x,
  mkObjectRecordHeader (oh_object_type x) (oh_reserved0 x) (oh_length x) (oh_content_digest x).
(** user/k4fmt/src/generated.rs:471-490 [ObjectRecordHeader, its size and offsets] *)
Definition ObjectRecordHeader_codec : Codec ObjectRecordHeader :=
  via
    (λ x, (oh_object_type x, oh_reserved0 x, oh_length x, oh_content_digest x))
    (λ '(object_type_, reserved0_, length_, content_digest_),
      mkObjectRecordHeader object_type_ reserved0_ length_ content_digest_)
    (uint 4 ⊗ uint 4 ⊗ uint 8 ⊗ raw 32).
#[global] Instance ObjectRecordHeader_layout : Layout ObjectRecordHeader_codec.
Proof. solve_layout. Qed.
Module ObjectRecordHeader.
(** user/k4fmt/src/generated.rs:473-473 [ObjectRecordHeader::SIZE] *)
Definition SIZE : nat := 48.
(** This structure with every byte zero. *)
Definition zeroed : ObjectRecordHeader :=
  mkObjectRecordHeader 0 0 0 (replicate 32 0).
End ObjectRecordHeader.

(** user/k4fmt/src/generated.rs:494-519 [PrepareRecord] *)
Record PrepareRecord := mkPrepareRecord {
  pr_principal : N;
  pr_request_sequence : N;
  pr_request_digest : list N;
  pr_expected_generation : N;
  pr_candidate_root : list N;
  pr_policy_digest : list N;
  pr_validation_digest : list N;
  pr_flags : N;
  pr_outbox_target : N;
  pr_outbox_payload_digest : list N;
  pr_admitted_ns : N;
  pr_invocation_id : N
}.
#[global] Instance PrepareRecord_rebuild : Rebuild PrepareRecord := λ x,
  mkPrepareRecord (pr_principal x) (pr_request_sequence x) (pr_request_digest x)
    (pr_expected_generation x) (pr_candidate_root x) (pr_policy_digest x)
    (pr_validation_digest x) (pr_flags x) (pr_outbox_target x) (pr_outbox_payload_digest x)
    (pr_admitted_ns x) (pr_invocation_id x).
(** user/k4fmt/src/generated.rs:521-564 [PrepareRecord, its size and offsets] *)
Definition PrepareRecord_codec : Codec PrepareRecord :=
  via
    (λ x, (pr_principal x, pr_request_sequence x, pr_request_digest x, pr_expected_generation x,
      pr_candidate_root x, pr_policy_digest x, pr_validation_digest x, pr_flags x,
      pr_outbox_target x, pr_outbox_payload_digest x, pr_admitted_ns x, pr_invocation_id x))
    (λ '(principal_, request_sequence_, request_digest_, expected_generation_, candidate_root_,
      policy_digest_, validation_digest_, flags_, outbox_target_, outbox_payload_digest_,
      admitted_ns_, invocation_id_),
      mkPrepareRecord principal_ request_sequence_ request_digest_ expected_generation_
        candidate_root_ policy_digest_ validation_digest_ flags_ outbox_target_
        outbox_payload_digest_ admitted_ns_ invocation_id_)
    (uint 8 ⊗ uint 8 ⊗ raw 32 ⊗ uint 8 ⊗ raw 32 ⊗ raw 32 ⊗ raw 32 ⊗ uint 8 ⊗ uint 8 ⊗ raw 32
      ⊗ uint 8 ⊗ uint 8).
#[global] Instance PrepareRecord_layout : Layout PrepareRecord_codec.
Proof. solve_layout. Qed.
Module PrepareRecord.
(** user/k4fmt/src/generated.rs:523-523 [PrepareRecord::SIZE] *)
Definition SIZE : nat := 216.
(** This structure with every byte zero. *)
Definition zeroed : PrepareRecord :=
  mkPrepareRecord 0 0 (replicate 32 0) 0 (replicate 32 0) (replicate 32 0) (replicate 32 0) 0 0
    (replicate 32 0) 0 0.
End PrepareRecord.

(** user/k4fmt/src/generated.rs:568-589 [CommitRecord] *)
Record CommitRecord := mkCommitRecord {
  cr_prepare_sequence : N;
  cr_prepare_digest : list N;
  cr_new_generation : N;
  cr_root_digest : list N;
  cr_policy_digest : list N;
  cr_receipt_digest : list N;
  cr_principal : N;
  cr_request_sequence : N;
  cr_committed_ns : N;
  cr_object_count : N
}.
#[global] Instance CommitRecord_rebuild : Rebuild CommitRecord := λ x,
  mkCommitRecord (cr_prepare_sequence x) (cr_prepare_digest x) (cr_new_generation x)
    (cr_root_digest x) (cr_policy_digest x) (cr_receipt_digest x) (cr_principal x)
    (cr_request_sequence x) (cr_committed_ns x) (cr_object_count x).
(** user/k4fmt/src/generated.rs:591-628 [CommitRecord, its size and offsets] *)
Definition CommitRecord_codec : Codec CommitRecord :=
  via
    (λ x, (cr_prepare_sequence x, cr_prepare_digest x, cr_new_generation x, cr_root_digest x,
      cr_policy_digest x, cr_receipt_digest x, cr_principal x, cr_request_sequence x,
      cr_committed_ns x, cr_object_count x))
    (λ '(prepare_sequence_, prepare_digest_, new_generation_, root_digest_, policy_digest_,
      receipt_digest_, principal_, request_sequence_, committed_ns_, object_count_),
      mkCommitRecord prepare_sequence_ prepare_digest_ new_generation_ root_digest_
        policy_digest_ receipt_digest_ principal_ request_sequence_ committed_ns_ object_count_)
    (uint 8 ⊗ raw 32 ⊗ uint 8 ⊗ raw 32 ⊗ raw 32 ⊗ raw 32 ⊗ uint 8 ⊗ uint 8 ⊗ uint 8 ⊗ uint 8).
#[global] Instance CommitRecord_layout : Layout CommitRecord_codec.
Proof. solve_layout. Qed.
Module CommitRecord.
(** user/k4fmt/src/generated.rs:593-593 [CommitRecord::SIZE] *)
Definition SIZE : nat := 176.
(** This structure with every byte zero. *)
Definition zeroed : CommitRecord :=
  mkCommitRecord 0 (replicate 32 0) 0 (replicate 32 0) (replicate 32 0) (replicate 32 0) 0 0 0 0.
End CommitRecord.

(** user/k4fmt/src/generated.rs:632-647 [AbortRecord] *)
Record AbortRecord := mkAbortRecord {
  ab_prepare_sequence : N;
  ab_prepare_digest : list N;
  ab_reason : N;
  ab_reserved0 : N;
  ab_principal : N;
  ab_request_sequence : N;
  ab_aborted_ns : N
}.
#[global] Instance AbortRecord_rebuild : Rebuild AbortRecord := λ x,
  mkAbortRecord (ab_prepare_sequence x) (ab_prepare_digest x) (ab_reason x) (ab_reserved0 x)
    (ab_principal x) (ab_request_sequence x) (ab_aborted_ns x).
(** user/k4fmt/src/generated.rs:649-677 [AbortRecord, its size and offsets] *)
Definition AbortRecord_codec : Codec AbortRecord :=
  via
    (λ x, (ab_prepare_sequence x, ab_prepare_digest x, ab_reason x, ab_reserved0 x,
      ab_principal x, ab_request_sequence x, ab_aborted_ns x))
    (λ '(prepare_sequence_, prepare_digest_, reason_, reserved0_, principal_, request_sequence_,
      aborted_ns_),
      mkAbortRecord prepare_sequence_ prepare_digest_ reason_ reserved0_ principal_
        request_sequence_ aborted_ns_)
    (uint 8 ⊗ raw 32 ⊗ uint 4 ⊗ uint 4 ⊗ uint 8 ⊗ uint 8 ⊗ uint 8).
#[global] Instance AbortRecord_layout : Layout AbortRecord_codec.
Proof. solve_layout. Qed.
Module AbortRecord.
(** user/k4fmt/src/generated.rs:651-651 [AbortRecord::SIZE] *)
Definition SIZE : nat := 72.
(** This structure with every byte zero. *)
Definition zeroed : AbortRecord :=
  mkAbortRecord 0 (replicate 32 0) 0 0 0 0 0.
End AbortRecord.

(** user/k4fmt/src/generated.rs:681-704 [CheckpointRecord] *)
Record CheckpointRecord := mkCheckpointRecord {
  ck_published_generation : N;
  ck_published_root : list N;
  ck_published_policy : list N;
  ck_published_receipt : list N;
  ck_principal_count : N;
  ck_result_count : N;
  ck_retained_count : N;
  ck_object_count : N;
  ck_created_ns : N;
  ck_source_arena : N;
  ck_compaction_generation : N
}.
#[global] Instance CheckpointRecord_rebuild : Rebuild CheckpointRecord := λ x,
  mkCheckpointRecord (ck_published_generation x) (ck_published_root x) (ck_published_policy x)
    (ck_published_receipt x) (ck_principal_count x) (ck_result_count x) (ck_retained_count x)
    (ck_object_count x) (ck_created_ns x) (ck_source_arena x) (ck_compaction_generation x).
(** user/k4fmt/src/generated.rs:706-746 [CheckpointRecord, its size and offsets] *)
Definition CheckpointRecord_codec : Codec CheckpointRecord :=
  via
    (λ x, (ck_published_generation x, ck_published_root x, ck_published_policy x,
      ck_published_receipt x, ck_principal_count x, ck_result_count x, ck_retained_count x,
      ck_object_count x, ck_created_ns x, ck_source_arena x, ck_compaction_generation x))
    (λ '(published_generation_, published_root_, published_policy_, published_receipt_,
      principal_count_, result_count_, retained_count_, object_count_, created_ns_,
      source_arena_, compaction_generation_),
      mkCheckpointRecord published_generation_ published_root_ published_policy_
        published_receipt_ principal_count_ result_count_ retained_count_ object_count_
        created_ns_ source_arena_ compaction_generation_)
    (uint 8 ⊗ raw 32 ⊗ raw 32 ⊗ raw 32 ⊗ uint 8 ⊗ uint 8 ⊗ uint 8 ⊗ uint 8 ⊗ uint 8 ⊗ uint 8
      ⊗ uint 8).
#[global] Instance CheckpointRecord_layout : Layout CheckpointRecord_codec.
Proof. solve_layout. Qed.
Module CheckpointRecord.
(** user/k4fmt/src/generated.rs:708-708 [CheckpointRecord::SIZE] *)
Definition SIZE : nat := 160.
(** This structure with every byte zero. *)
Definition zeroed : CheckpointRecord :=
  mkCheckpointRecord 0 (replicate 32 0) (replicate 32 0) (replicate 32 0) 0 0 0 0 0 0 0.
End CheckpointRecord.

(** user/k4fmt/src/generated.rs:750-757 [PrincipalEntry] *)
Record PrincipalEntry := mkPrincipalEntry {
  pe_principal : N;
  pe_high_water : N;
  pe_pending_sequence : N
}.
#[global] Instance PrincipalEntry_rebuild : Rebuild PrincipalEntry := λ x,
  mkPrincipalEntry (pe_principal x) (pe_high_water x) (pe_pending_sequence x).
(** user/k4fmt/src/generated.rs:759-775 [PrincipalEntry, its size and offsets] *)
Definition PrincipalEntry_codec : Codec PrincipalEntry :=
  via
    (λ x, (pe_principal x, pe_high_water x, pe_pending_sequence x))
    (λ '(principal_, high_water_, pending_sequence_),
      mkPrincipalEntry principal_ high_water_ pending_sequence_)
    (uint 8 ⊗ uint 8 ⊗ uint 8).
#[global] Instance PrincipalEntry_layout : Layout PrincipalEntry_codec.
Proof. solve_layout. Qed.
Module PrincipalEntry.
(** user/k4fmt/src/generated.rs:761-761 [PrincipalEntry::SIZE] *)
Definition SIZE : nat := 24.
(** This structure with every byte zero. *)
Definition zeroed : PrincipalEntry :=
  mkPrincipalEntry 0 0 0.
End PrincipalEntry.

(** user/k4fmt/src/generated.rs:779-794 [ResultEntry] *)
Record ResultEntry := mkResultEntry {
  re_principal : N;
  re_request_sequence : N;
  re_outcome : N;
  re_outbox_status : N;
  re_generation : N;
  re_root_digest : list N;
  re_request_digest : list N
}.
#[global] Instance ResultEntry_rebuild : Rebuild ResultEntry := λ x,
  mkResultEntry (re_principal x) (re_request_sequence x) (re_outcome x) (re_outbox_status x)
    (re_generation x) (re_root_digest x) (re_request_digest x).
(** user/k4fmt/src/generated.rs:796-824 [ResultEntry, its size and offsets] *)
Definition ResultEntry_codec : Codec ResultEntry :=
  via
    (λ x, (re_principal x, re_request_sequence x, re_outcome x, re_outbox_status x,
      re_generation x, re_root_digest x, re_request_digest x))
    (λ '(principal_, request_sequence_, outcome_, outbox_status_, generation_, root_digest_,
      request_digest_),
      mkResultEntry principal_ request_sequence_ outcome_ outbox_status_ generation_
        root_digest_ request_digest_)
    (uint 8 ⊗ uint 8 ⊗ uint 4 ⊗ uint 4 ⊗ uint 8 ⊗ raw 32 ⊗ raw 32).
#[global] Instance ResultEntry_layout : Layout ResultEntry_codec.
Proof. solve_layout. Qed.
Module ResultEntry.
(** user/k4fmt/src/generated.rs:798-798 [ResultEntry::SIZE] *)
Definition SIZE : nat := 96.
(** This structure with every byte zero. *)
Definition zeroed : ResultEntry :=
  mkResultEntry 0 0 0 0 0 (replicate 32 0) (replicate 32 0).
End ResultEntry.

(** user/k4fmt/src/generated.rs:828-833 [RetainedEntry] *)
Record RetainedEntry := mkRetainedEntry {
  rt_root_digest : list N;
  rt_expiry_ns : N
}.
#[global] Instance RetainedEntry_rebuild : Rebuild RetainedEntry := λ x,
  mkRetainedEntry (rt_root_digest x) (rt_expiry_ns x).
(** user/k4fmt/src/generated.rs:835-848 [RetainedEntry, its size and offsets] *)
Definition RetainedEntry_codec : Codec RetainedEntry :=
  via
    (λ x, (rt_root_digest x, rt_expiry_ns x))
    (λ '(root_digest_, expiry_ns_),
      mkRetainedEntry root_digest_ expiry_ns_)
    (raw 32 ⊗ uint 8).
#[global] Instance RetainedEntry_layout : Layout RetainedEntry_codec.
Proof. solve_layout. Qed.
Module RetainedEntry.
(** user/k4fmt/src/generated.rs:837-837 [RetainedEntry::SIZE] *)
Definition SIZE : nat := 40.
(** This structure with every byte zero. *)
Definition zeroed : RetainedEntry :=
  mkRetainedEntry (replicate 32 0) 0.
End RetainedEntry.

(** user/k4fmt/src/generated.rs:852-869 [OutboxRecord] *)
Record OutboxRecord := mkOutboxRecord {
  ob_commit_sequence : N;
  ob_request_digest : list N;
  ob_principal : N;
  ob_request_sequence : N;
  ob_status : N;
  ob_attempts : N;
  ob_target : N;
  ob_recorded_ns : N
}.
#[global] Instance OutboxRecord_rebuild : Rebuild OutboxRecord := λ x,
  mkOutboxRecord (ob_commit_sequence x) (ob_request_digest x) (ob_principal x)
    (ob_request_sequence x) (ob_status x) (ob_attempts x) (ob_target x) (ob_recorded_ns x).
(** user/k4fmt/src/generated.rs:871-902 [OutboxRecord, its size and offsets] *)
Definition OutboxRecord_codec : Codec OutboxRecord :=
  via
    (λ x, (ob_commit_sequence x, ob_request_digest x, ob_principal x, ob_request_sequence x,
      ob_status x, ob_attempts x, ob_target x, ob_recorded_ns x))
    (λ '(commit_sequence_, request_digest_, principal_, request_sequence_, status_, attempts_,
      target_, recorded_ns_),
      mkOutboxRecord commit_sequence_ request_digest_ principal_ request_sequence_ status_
        attempts_ target_ recorded_ns_)
    (uint 8 ⊗ raw 32 ⊗ uint 8 ⊗ uint 8 ⊗ uint 4 ⊗ uint 4 ⊗ uint 8 ⊗ uint 8).
#[global] Instance OutboxRecord_layout : Layout OutboxRecord_codec.
Proof. solve_layout. Qed.
Module OutboxRecord.
(** user/k4fmt/src/generated.rs:873-873 [OutboxRecord::SIZE] *)
Definition SIZE : nat := 80.
(** This structure with every byte zero. *)
Definition zeroed : OutboxRecord :=
  mkOutboxRecord 0 (replicate 32 0) 0 0 0 0 0 0.
End OutboxRecord.

(** user/k4fmt/src/generated.rs:906-927 [HarnessDirective] *)
Record HarnessDirective := mkHarnessDirective {
  hd_magic : list N;
  hd_version : N;
  hd_fault_point : N;
  hd_fault_arg : N;
  hd_fault_mode : N;
  hd_leg : N;
  hd_scenario : N;
  hd_seed : N;
  hd_stop_at_next_flush : N;
  hd_digest : list N
}.
#[global] Instance HarnessDirective_rebuild : Rebuild HarnessDirective := λ x,
  mkHarnessDirective (hd_magic x) (hd_version x) (hd_fault_point x) (hd_fault_arg x)
    (hd_fault_mode x) (hd_leg x) (hd_scenario x) (hd_seed x) (hd_stop_at_next_flush x)
    (hd_digest x).
(** user/k4fmt/src/generated.rs:929-966 [HarnessDirective, its size and offsets] *)
Definition HarnessDirective_codec : Codec HarnessDirective :=
  via
    (λ x, (hd_magic x, hd_version x, hd_fault_point x, hd_fault_arg x, hd_fault_mode x,
      hd_leg x, hd_scenario x, hd_seed x, hd_stop_at_next_flush x, hd_digest x))
    (λ '(magic_, version_, fault_point_, fault_arg_, fault_mode_, leg_, scenario_, seed_,
      stop_at_next_flush_, digest_),
      mkHarnessDirective magic_ version_ fault_point_ fault_arg_ fault_mode_ leg_ scenario_
        seed_ stop_at_next_flush_ digest_)
    (raw 8 ⊗ uint 4 ⊗ uint 4 ⊗ uint 8 ⊗ uint 4 ⊗ uint 4 ⊗ uint 8 ⊗ uint 8 ⊗ uint 8 ⊗ raw 32).
#[global] Instance HarnessDirective_layout : Layout HarnessDirective_codec.
Proof. solve_layout. Qed.
Module HarnessDirective.
(** user/k4fmt/src/generated.rs:931-931 [HarnessDirective::SIZE] *)
Definition SIZE : nat := 88.
(** user/k4fmt/src/generated.rs:951-951 [HarnessDirective::OFFSET_DIGEST] *)
Definition OFFSET_DIGEST : nat := 56.
(** This structure with every byte zero. *)
Definition zeroed : HarnessDirective :=
  mkHarnessDirective (replicate 8 0) 0 0 0 0 0 0 0 0 (replicate 32 0).
End HarnessDirective.

(** user/k4fmt/src/generated.rs:970-975 [TreeHeader] *)
Record TreeHeader := mkTreeHeader {
  th_entry_count : N;
  th_reserved0 : N
}.
#[global] Instance TreeHeader_rebuild : Rebuild TreeHeader := λ x,
  mkTreeHeader (th_entry_count x) (th_reserved0 x).
(** user/k4fmt/src/generated.rs:977-990 [TreeHeader, its size and offsets] *)
Definition TreeHeader_codec : Codec TreeHeader :=
  via
    (λ x, (th_entry_count x, th_reserved0 x))
    (λ '(entry_count_, reserved0_),
      mkTreeHeader entry_count_ reserved0_)
    (uint 4 ⊗ uint 4).
#[global] Instance TreeHeader_layout : Layout TreeHeader_codec.
Proof. solve_layout. Qed.
Module TreeHeader.
(** user/k4fmt/src/generated.rs:979-979 [TreeHeader::SIZE] *)
Definition SIZE : nat := 8.
(** This structure with every byte zero. *)
Definition zeroed : TreeHeader :=
  mkTreeHeader 0 0.
End TreeHeader.

(** user/k4fmt/src/generated.rs:994-1009 [TreeEntry] *)
Record TreeEntry := mkTreeEntry {
  te_child_type : N;
  te_flags : N;
  te_length : N;
  te_digest : list N;
  te_name_len : N;
  te_reserved0 : N;
  te_name : list N
}.
#[global] Instance TreeEntry_rebuild : Rebuild TreeEntry := λ x,
  mkTreeEntry (te_child_type x) (te_flags x) (te_length x) (te_digest x) (te_name_len x)
    (te_reserved0 x) (te_name x).
(** user/k4fmt/src/generated.rs:1011-1039 [TreeEntry, its size and offsets] *)
Definition TreeEntry_codec : Codec TreeEntry :=
  via
    (λ x, (te_child_type x, te_flags x, te_length x, te_digest x, te_name_len x, te_reserved0 x,
      te_name x))
    (λ '(child_type_, flags_, length_, digest_, name_len_, reserved0_, name_),
      mkTreeEntry child_type_ flags_ length_ digest_ name_len_ reserved0_ name_)
    (uint 4 ⊗ uint 4 ⊗ uint 8 ⊗ raw 32 ⊗ uint 4 ⊗ uint 4 ⊗ raw 32).
#[global] Instance TreeEntry_layout : Layout TreeEntry_codec.
Proof. solve_layout. Qed.
Module TreeEntry.
(** user/k4fmt/src/generated.rs:1013-1013 [TreeEntry::SIZE] *)
Definition SIZE : nat := 88.
(** user/k4fmt/src/generated.rs:1021-1021 [TreeEntry::OFFSET_DIGEST] *)
Definition OFFSET_DIGEST : nat := 16.
(** This structure with every byte zero. *)
Definition zeroed : TreeEntry :=
  mkTreeEntry 0 0 0 (replicate 32 0) 0 0 (replicate 32 0).
End TreeEntry.

(** user/k4fmt/src/generated.rs:1043-1058 [Manifest] *)
Record Manifest := mkManifest {
  mf_format : N;
  mf_reserved0 : N;
  mf_tree_digest : list N;
  mf_policy_digest : list N;
  mf_validation_digest : list N;
  mf_entry_count : N;
  mf_total_bytes : N
}.
#[global] Instance Manifest_rebuild : Rebuild Manifest := λ x,
  mkManifest (mf_format x) (mf_reserved0 x) (mf_tree_digest x) (mf_policy_digest x)
    (mf_validation_digest x) (mf_entry_count x) (mf_total_bytes x).
(** user/k4fmt/src/generated.rs:1060-1088 [Manifest, its size and offsets] *)
Definition Manifest_codec : Codec Manifest :=
  via
    (λ x, (mf_format x, mf_reserved0 x, mf_tree_digest x, mf_policy_digest x,
      mf_validation_digest x, mf_entry_count x, mf_total_bytes x))
    (λ '(format_, reserved0_, tree_digest_, policy_digest_, validation_digest_, entry_count_,
      total_bytes_),
      mkManifest format_ reserved0_ tree_digest_ policy_digest_ validation_digest_ entry_count_
        total_bytes_)
    (uint 4 ⊗ uint 4 ⊗ raw 32 ⊗ raw 32 ⊗ raw 32 ⊗ uint 8 ⊗ uint 8).
#[global] Instance Manifest_layout : Layout Manifest_codec.
Proof. solve_layout. Qed.
Module Manifest.
(** user/k4fmt/src/generated.rs:1062-1062 [Manifest::SIZE] *)
Definition SIZE : nat := 120.
(** This structure with every byte zero. *)
Definition zeroed : Manifest :=
  mkManifest 0 0 (replicate 32 0) (replicate 32 0) (replicate 32 0) 0 0.
End Manifest.

(** user/k4fmt/src/generated.rs:1092-1105 [Policy] *)
Record Policy := mkPolicy {
  po_format : N;
  po_requires_validation : N;
  po_publish_principals : N;
  po_validation_tool_id : N;
  po_min_coverage_ppm : N;
  po_tool_config_digest : list N
}.
#[global] Instance Policy_rebuild : Rebuild Policy := λ x,
  mkPolicy (po_format x) (po_requires_validation x) (po_publish_principals x)
    (po_validation_tool_id x) (po_min_coverage_ppm x) (po_tool_config_digest x).
(** user/k4fmt/src/generated.rs:1107-1132 [Policy, its size and offsets] *)
Definition Policy_codec : Codec Policy :=
  via
    (λ x, (po_format x, po_requires_validation x, po_publish_principals x,
      po_validation_tool_id x, po_min_coverage_ppm x, po_tool_config_digest x))
    (λ '(format_, requires_validation_, publish_principals_, validation_tool_id_,
      min_coverage_ppm_, tool_config_digest_),
      mkPolicy format_ requires_validation_ publish_principals_ validation_tool_id_
        min_coverage_ppm_ tool_config_digest_)
    (uint 4 ⊗ uint 4 ⊗ uint 8 ⊗ uint 8 ⊗ uint 8 ⊗ raw 32).
#[global] Instance Policy_layout : Layout Policy_codec.
Proof. solve_layout. Qed.
Module Policy.
(** user/k4fmt/src/generated.rs:1109-1109 [Policy::SIZE] *)
Definition SIZE : nat := 64.
(** This structure with every byte zero. *)
Definition zeroed : Policy :=
  mkPolicy 0 0 0 0 0 (replicate 32 0).
End Policy.

(** user/k4fmt/src/generated.rs:1136-1153 [Validation] *)
Record Validation := mkValidation {
  va_format : N;
  va_result : N;
  va_input_tree_digest : list N;
  va_base_generation : N;
  va_tool_id : N;
  va_tool_config_digest : list N;
  va_coverage_ppm : N;
  va_produced_ns : N
}.
#[global] Instance Validation_rebuild : Rebuild Validation := λ x,
  mkValidation (va_format x) (va_result x) (va_input_tree_digest x) (va_base_generation x)
    (va_tool_id x) (va_tool_config_digest x) (va_coverage_ppm x) (va_produced_ns x).
(** user/k4fmt/src/generated.rs:1155-1186 [Validation, its size and offsets] *)
Definition Validation_codec : Codec Validation :=
  via
    (λ x, (va_format x, va_result x, va_input_tree_digest x, va_base_generation x, va_tool_id x,
      va_tool_config_digest x, va_coverage_ppm x, va_produced_ns x))
    (λ '(format_, result_, input_tree_digest_, base_generation_, tool_id_, tool_config_digest_,
      coverage_ppm_, produced_ns_),
      mkValidation format_ result_ input_tree_digest_ base_generation_ tool_id_
        tool_config_digest_ coverage_ppm_ produced_ns_)
    (uint 4 ⊗ uint 4 ⊗ raw 32 ⊗ uint 8 ⊗ uint 8 ⊗ raw 32 ⊗ uint 8 ⊗ uint 8).
#[global] Instance Validation_layout : Layout Validation_codec.
Proof. solve_layout. Qed.
Module Validation.
(** user/k4fmt/src/generated.rs:1157-1157 [Validation::SIZE] *)
Definition SIZE : nat := 104.
(** This structure with every byte zero. *)
Definition zeroed : Validation :=
  mkValidation 0 0 (replicate 32 0) 0 0 (replicate 32 0) 0 0.
End Validation.

(** user/k4fmt/src/generated.rs:1190-1215 [Receipt] *)
Record Receipt := mkReceipt {
  rc_format : N;
  rc_reserved0 : N;
  rc_principal : N;
  rc_request_sequence : N;
  rc_request_digest : list N;
  rc_expected_generation : N;
  rc_new_generation : N;
  rc_root_digest : list N;
  rc_policy_digest : list N;
  rc_validation_digest : list N;
  rc_committed_ns : N;
  rc_outbox_target : N
}.
#[global] Instance Receipt_rebuild : Rebuild Receipt := λ x,
  mkReceipt (rc_format x) (rc_reserved0 x) (rc_principal x) (rc_request_sequence x)
    (rc_request_digest x) (rc_expected_generation x) (rc_new_generation x) (rc_root_digest x)
    (rc_policy_digest x) (rc_validation_digest x) (rc_committed_ns x) (rc_outbox_target x).
(** user/k4fmt/src/generated.rs:1217-1260 [Receipt, its size and offsets] *)
Definition Receipt_codec : Codec Receipt :=
  via
    (λ x, (rc_format x, rc_reserved0 x, rc_principal x, rc_request_sequence x,
      rc_request_digest x, rc_expected_generation x, rc_new_generation x, rc_root_digest x,
      rc_policy_digest x, rc_validation_digest x, rc_committed_ns x, rc_outbox_target x))
    (λ '(format_, reserved0_, principal_, request_sequence_, request_digest_,
      expected_generation_, new_generation_, root_digest_, policy_digest_, validation_digest_,
      committed_ns_, outbox_target_),
      mkReceipt format_ reserved0_ principal_ request_sequence_ request_digest_
        expected_generation_ new_generation_ root_digest_ policy_digest_ validation_digest_
        committed_ns_ outbox_target_)
    (uint 4 ⊗ uint 4 ⊗ uint 8 ⊗ uint 8 ⊗ raw 32 ⊗ uint 8 ⊗ uint 8 ⊗ raw 32 ⊗ raw 32 ⊗ raw 32
      ⊗ uint 8 ⊗ uint 8).
#[global] Instance Receipt_layout : Layout Receipt_codec.
Proof. solve_layout. Qed.
Module Receipt.
(** user/k4fmt/src/generated.rs:1219-1219 [Receipt::SIZE] *)
Definition SIZE : nat := 184.
(** This structure with every byte zero. *)
Definition zeroed : Receipt :=
  mkReceipt 0 0 0 0 (replicate 32 0) 0 0 (replicate 32 0) (replicate 32 0) (replicate 32 0) 0 0.
End Receipt.

(** user/k4fmt/src/generated.rs:1264-1287 [StoreRequest] *)
Record StoreRequest := mkStoreRequest {
  sq_op : N;
  sq_flags : N;
  sq_request_sequence : N;
  sq_arg0 : N;
  sq_arg1 : N;
  sq_arg2 : N;
  sq_digest0 : list N;
  sq_digest1 : list N;
  sq_digest2 : list N;
  sq_name : list N;
  sq_reserved0 : N
}.
#[global] Instance StoreRequest_rebuild : Rebuild StoreRequest := λ x,
  mkStoreRequest (sq_op x) (sq_flags x) (sq_request_sequence x) (sq_arg0 x) (sq_arg1 x)
    (sq_arg2 x) (sq_digest0 x) (sq_digest1 x) (sq_digest2 x) (sq_name x) (sq_reserved0 x).
(** user/k4fmt/src/generated.rs:1289-1329 [StoreRequest, its size and offsets] *)
Definition StoreRequest_codec : Codec StoreRequest :=
  via
    (λ x, (sq_op x, sq_flags x, sq_request_sequence x, sq_arg0 x, sq_arg1 x, sq_arg2 x,
      sq_digest0 x, sq_digest1 x, sq_digest2 x, sq_name x, sq_reserved0 x))
    (λ '(op_, flags_, request_sequence_, arg0_, arg1_, arg2_, digest0_, digest1_, digest2_,
      name_, reserved0_),
      mkStoreRequest op_ flags_ request_sequence_ arg0_ arg1_ arg2_ digest0_ digest1_ digest2_
        name_ reserved0_)
    (uint 4 ⊗ uint 4 ⊗ uint 8 ⊗ uint 8 ⊗ uint 8 ⊗ uint 8 ⊗ raw 32 ⊗ raw 32 ⊗ raw 32 ⊗ raw 32
      ⊗ uint 8).
#[global] Instance StoreRequest_layout : Layout StoreRequest_codec.
Proof. solve_layout. Qed.
Module StoreRequest.
(** user/k4fmt/src/generated.rs:1291-1291 [StoreRequest::SIZE] *)
Definition SIZE : nat := 176.
(** This structure with every byte zero. *)
Definition zeroed : StoreRequest :=
  mkStoreRequest 0 0 0 0 0 0 (replicate 32 0) (replicate 32 0) (replicate 32 0) (replicate 32 0)
    0.
End StoreRequest.

(** user/k4fmt/src/generated.rs:1333-1358 [StoreReply] *)
Record StoreReply := mkStoreReply {
  sr_status : N;
  sr_detail : N;
  sr_generation : N;
  sr_value : N;
  sr_digest0 : list N;
  sr_digest1 : list N;
  sr_outcome : N;
  sr_outbox_status : N;
  sr_sequence : N;
  sr_durable_through : N;
  sr_free_blocks : N;
  sr_reserved0 : N
}.
#[global] Instance StoreReply_rebuild : Rebuild StoreReply := λ x,
  mkStoreReply (sr_status x) (sr_detail x) (sr_generation x) (sr_value x) (sr_digest0 x)
    (sr_digest1 x) (sr_outcome x) (sr_outbox_status x) (sr_sequence x) (sr_durable_through x)
    (sr_free_blocks x) (sr_reserved0 x).
(** user/k4fmt/src/generated.rs:1360-1403 [StoreReply, its size and offsets] *)
Definition StoreReply_codec : Codec StoreReply :=
  via
    (λ x, (sr_status x, sr_detail x, sr_generation x, sr_value x, sr_digest0 x, sr_digest1 x,
      sr_outcome x, sr_outbox_status x, sr_sequence x, sr_durable_through x, sr_free_blocks x,
      sr_reserved0 x))
    (λ '(status_, detail_, generation_, value_, digest0_, digest1_, outcome_, outbox_status_,
      sequence_, durable_through_, free_blocks_, reserved0_),
      mkStoreReply status_ detail_ generation_ value_ digest0_ digest1_ outcome_ outbox_status_
        sequence_ durable_through_ free_blocks_ reserved0_)
    (uint 4 ⊗ uint 4 ⊗ uint 8 ⊗ uint 8 ⊗ raw 32 ⊗ raw 32 ⊗ uint 4 ⊗ uint 4 ⊗ uint 8 ⊗ uint 8
      ⊗ uint 8 ⊗ uint 8).
#[global] Instance StoreReply_layout : Layout StoreReply_codec.
Proof. solve_layout. Qed.
Module StoreReply.
(** user/k4fmt/src/generated.rs:1362-1362 [StoreReply::SIZE] *)
Definition SIZE : nat := 128.
(** This structure with every byte zero. *)
Definition zeroed : StoreReply :=
  mkStoreReply 0 0 0 0 (replicate 32 0) (replicate 32 0) 0 0 0 0 0 0.
End StoreReply.

(** ** Sizes

    Every codec is as long as the size the crate asserts, and its fields start at the
    offsets it asserts. *)

Lemma sizes_agree :
  cd_size StoreSuperblock_codec = StoreSuperblock.SIZE ∧
  cd_size RecordHeader_codec = RecordHeader.SIZE ∧
  cd_size ObjectRecordHeader_codec = ObjectRecordHeader.SIZE ∧
  cd_size PrepareRecord_codec = PrepareRecord.SIZE ∧
  cd_size CommitRecord_codec = CommitRecord.SIZE ∧
  cd_size AbortRecord_codec = AbortRecord.SIZE ∧
  cd_size CheckpointRecord_codec = CheckpointRecord.SIZE ∧
  cd_size PrincipalEntry_codec = PrincipalEntry.SIZE ∧
  cd_size ResultEntry_codec = ResultEntry.SIZE ∧
  cd_size RetainedEntry_codec = RetainedEntry.SIZE ∧
  cd_size OutboxRecord_codec = OutboxRecord.SIZE ∧
  cd_size HarnessDirective_codec = HarnessDirective.SIZE ∧
  cd_size TreeHeader_codec = TreeHeader.SIZE ∧
  cd_size TreeEntry_codec = TreeEntry.SIZE ∧
  cd_size Manifest_codec = Manifest.SIZE ∧
  cd_size Policy_codec = Policy.SIZE ∧
  cd_size Validation_codec = Validation.SIZE ∧
  cd_size Receipt_codec = Receipt.SIZE ∧
  cd_size StoreRequest_codec = StoreRequest.SIZE ∧
  cd_size StoreReply_codec = StoreReply.SIZE.
Proof. by split_and!. Qed.

Lemma offsets_agree :
  offsets StoreSuperblock_codec =
      [0; 8; 10; 12; 16; 32; 40; 48; 56; 64; 72; 80; 88; 96; 104; 112; 120; 152; 160]%nat ∧
  offsets RecordHeader_codec =
      [0; 8; 10; 12; 16; 24; 32; 40; 48; 52; 56; 64; 96]%nat ∧
  offsets ObjectRecordHeader_codec =
      [0; 4; 8; 16]%nat ∧
  offsets PrepareRecord_codec =
      [0; 8; 16; 48; 56; 88; 120; 152; 160; 168; 200; 208]%nat ∧
  offsets CommitRecord_codec =
      [0; 8; 40; 48; 80; 112; 144; 152; 160; 168]%nat ∧
  offsets AbortRecord_codec =
      [0; 8; 40; 44; 48; 56; 64]%nat ∧
  offsets CheckpointRecord_codec =
      [0; 8; 40; 72; 104; 112; 120; 128; 136; 144; 152]%nat ∧
  offsets PrincipalEntry_codec =
      [0; 8; 16]%nat ∧
  offsets ResultEntry_codec =
      [0; 8; 16; 20; 24; 32; 64]%nat ∧
  offsets RetainedEntry_codec =
      [0; 32]%nat ∧
  offsets OutboxRecord_codec =
      [0; 8; 40; 48; 56; 60; 64; 72]%nat ∧
  offsets HarnessDirective_codec =
      [0; 8; 12; 16; 24; 28; 32; 40; 48; 56]%nat ∧
  offsets TreeHeader_codec =
      [0; 4]%nat ∧
  offsets TreeEntry_codec =
      [0; 4; 8; 16; 48; 52; 56]%nat ∧
  offsets Manifest_codec =
      [0; 4; 8; 40; 72; 104; 112]%nat ∧
  offsets Policy_codec =
      [0; 4; 8; 16; 24; 32]%nat ∧
  offsets Validation_codec =
      [0; 4; 8; 40; 48; 56; 88; 96]%nat ∧
  offsets Receipt_codec =
      [0; 4; 8; 16; 24; 56; 64; 72; 104; 136; 168; 176]%nat ∧
  offsets StoreRequest_codec =
      [0; 4; 8; 16; 24; 32; 40; 72; 104; 136; 168]%nat ∧
  offsets StoreReply_codec =
      [0; 4; 8; 16; 24; 56; 88; 92; 96; 104; 112; 120]%nat.
Proof. by split_and!. Qed.
