(* ===== verification/K4Golden.v ===== *)
(** * The golden vectors of the durable store

    The bytes and digests [user/k4fmt/src/generated.rs] pins the format to, as the
    host computed them. A block's zero tail is written as a repetition. *)

From S2P Require Import Prelude.

#[local] Open Scope N_scope.

Module golden.
(** user/k4fmt/src/generated.rs:1411-1411 [golden::OBJECT_EMPTY] *)
Definition OBJECT_EMPTY : list N :=
  [].
(** user/k4fmt/src/generated.rs:1413-1417 [golden::OBJECT_EMPTY_DIGEST] *)
Definition OBJECT_EMPTY_DIGEST : list N :=
  [165; 129; 189; 129; 107; 85; 228; 65; 166; 28; 246; 196; 220; 56; 195; 215; 209; 223; 139;
   69; 253; 151; 49; 96; 189; 89; 196; 14; 127; 102; 35; 241].
(** user/k4fmt/src/generated.rs:1419-1423 [golden::OBJECT_ALPHA] *)
Definition OBJECT_ALPHA : list N :=
  [97; 108; 112; 104; 97; 32; 98; 121; 116; 101; 115; 32; 102; 111; 114; 32; 116; 104; 101; 32;
   107; 52; 32; 103; 111; 108; 100; 101; 110; 32; 118; 101; 99; 116; 111; 114; 115; 10].
(** user/k4fmt/src/generated.rs:1425-1429 [golden::OBJECT_ALPHA_DIGEST] *)
Definition OBJECT_ALPHA_DIGEST : list N :=
  [16; 61; 244; 56; 13; 86; 127; 188; 85; 168; 99; 11; 19; 39; 131; 175; 4; 4; 162; 199; 115;
   68; 132; 138; 103; 185; 96; 24; 160; 127; 254; 222].
(** user/k4fmt/src/generated.rs:1431-1431 [golden::OBJECT_BETA] *)
Definition OBJECT_BETA : list N :=
  [98; 101; 116; 97].
(** user/k4fmt/src/generated.rs:1433-1437 [golden::OBJECT_BETA_DIGEST] *)
Definition OBJECT_BETA_DIGEST : list N :=
  [246; 92; 173; 126; 105; 89; 240; 244; 55; 85; 39; 206; 42; 200; 136; 220; 133; 88; 121; 222;
   209; 106; 179; 54; 139; 254; 11; 231; 227; 111; 234; 174].
(** user/k4fmt/src/generated.rs:1439-1509 [golden::OBJECT_WIDE] *)
Definition OBJECT_WIDE : list N :=
  [116; 104; 97; 108; 121; 120; 45; 107; 52; 32; 100; 117; 114; 97; 98; 108; 101; 32; 116; 104;
   97; 108; 121; 120; 45; 107; 52; 32; 100; 117; 114; 97; 98; 108; 101; 32; 116; 104; 97; 108;
   121; 120; 45; 107; 52; 32; 100; 117; 114; 97; 98; 108; 101; 32; 116; 104; 97; 108; 121; 120;
   45; 107; 52; 32; 100; 117; 114; 97; 98; 108; 101; 32; 116; 104; 97; 108; 121; 120; 45; 107;
   52; 32; 100; 117; 114; 97; 98; 108; 101; 32; 116; 104; 97; 108; 121; 120; 45; 107; 52; 32;
   100; 117; 114; 97; 98; 108; 101; 32; 116; 104; 97; 108; 121; 120; 45; 107; 52; 32; 100; 117;
   114; 97; 98; 108; 101; 32; 116; 104; 97; 108; 121; 120; 45; 107; 52; 32; 100; 117; 114; 97;
   98; 108; 101; 32; 116; 104; 97; 108; 121; 120; 45; 107; 52; 32; 100; 117; 114; 97; 98; 108;
   101; 32; 116; 104; 97; 108; 121; 120; 45; 107; 52; 32; 100; 117; 114; 97; 98; 108; 101; 32;
   116; 104; 97; 108; 121; 120; 45; 107; 52; 32; 100; 117; 114; 97; 98; 108; 101; 32; 116; 104;
   97; 108; 121; 120; 45; 107; 52; 32; 100; 117; 114; 97; 98; 108; 101; 32; 116; 104; 97; 108;
   121; 120; 45; 107; 52; 32; 100; 117; 114; 97; 98; 108; 101; 32; 116; 104; 97; 108; 121; 120;
   45; 107; 52; 32; 100; 117; 114; 97; 98; 108; 101; 32; 116; 104; 97; 108; 121; 120; 45; 107;
   52; 32; 100; 117; 114; 97; 98; 108; 101; 32; 116; 104; 97; 108; 121; 120; 45; 107; 52; 32;
   100; 117; 114; 97; 98; 108; 101; 32; 116; 104; 97; 108; 121; 120; 45; 107; 52; 32; 100; 117;
   114; 97; 98; 108; 101; 32; 116; 104; 97; 108; 121; 120; 45; 107; 52; 32; 100; 117; 114; 97;
   98; 108; 101; 32; 116; 104; 97; 108; 121; 120; 45; 107; 52; 32; 100; 117; 114; 97; 98; 108;
   101; 32; 116; 104; 97; 108; 121; 120; 45; 107; 52; 32; 100; 117; 114; 97; 98; 108; 101; 32;
   116; 104; 97; 108; 121; 120; 45; 107; 52; 32; 100; 117; 114; 97; 98; 108; 101; 32; 116; 104;
   97; 108; 121; 120; 45; 107; 52; 32; 100; 117; 114; 97; 98; 108; 101; 32; 116; 104; 97; 108;
   121; 120; 45; 107; 52; 32; 100; 117; 114; 97; 98; 108; 101; 32; 116; 104; 97; 108; 121; 120;
   45; 107; 52; 32; 100; 117; 114; 97; 98; 108; 101; 32; 116; 104; 97; 108; 121; 120; 45; 107;
   52; 32; 100; 117; 114; 97; 98; 108; 101; 32; 116; 104; 97; 108; 121; 120; 45; 107; 52; 32;
   100; 117; 114; 97; 98; 108; 101; 32; 116; 104; 97; 108; 121; 120; 45; 107; 52; 32; 100; 117;
   114; 97; 98; 108; 101; 32; 116; 104; 97; 108; 121; 120; 45; 107; 52; 32; 100; 117; 114; 97;
   98; 108; 101; 32; 116; 104; 97; 108; 121; 120; 45; 107; 52; 32; 100; 117; 114; 97; 98; 108;
   101; 32; 116; 104; 97; 108; 121; 120; 45; 107; 52; 32; 100; 117; 114; 97; 98; 108; 101; 32;
   116; 104; 97; 108; 121; 120; 45; 107; 52; 32; 100; 117; 114; 97; 98; 108; 101; 32; 116; 104;
   97; 108; 121; 120; 45; 107; 52; 32; 100; 117; 114; 97; 98; 108; 101; 32; 116; 104; 97; 108;
   121; 120; 45; 107; 52; 32; 100; 117; 114; 97; 98; 108; 101; 32; 116; 104; 97; 108; 121; 120;
   45; 107; 52; 32; 100; 117; 114; 97; 98; 108; 101; 32; 116; 104; 97; 108; 121; 120; 45; 107;
   52; 32; 100; 117; 114; 97; 98; 108; 101; 32; 116; 104; 97; 108; 121; 120; 45; 107; 52; 32;
   100; 117; 114; 97; 98; 108; 101; 32; 116; 104; 97; 108; 121; 120; 45; 107; 52; 32; 100; 117;
   114; 97; 98; 108; 101; 32; 116; 104; 97; 108; 121; 120; 45; 107; 52; 32; 100; 117; 114; 97;
   98; 108; 101; 32; 116; 104; 97; 108; 121; 120; 45; 107; 52; 32; 100; 117; 114; 97; 98; 108;
   101; 32; 116; 104; 97; 108; 121; 120; 45; 107; 52; 32; 100; 117; 114; 97; 98; 108; 101; 32;
   116; 104; 97; 108; 121; 120; 45; 107; 52; 32; 100; 117; 114; 97; 98; 108; 101; 32; 116; 104;
   97; 108; 121; 120; 45; 107; 52; 32; 100; 117; 114; 97; 98; 108; 101; 32; 116; 104; 97; 108;
   121; 120; 45; 107; 52; 32; 100; 117; 114; 97; 98; 108; 101; 32; 116; 104; 97; 108; 121; 120;
   45; 107; 52; 32; 100; 117; 114; 97; 98; 108; 101; 32; 116; 104; 97; 108; 121; 120; 45; 107;
   52; 32; 100; 117; 114; 97; 98; 108; 101; 32; 116; 104; 97; 108; 121; 120; 45; 107; 52; 32;
   100; 117; 114; 97; 98; 108; 101; 32; 116; 104; 97; 108; 121; 120; 45; 107; 52; 32; 100; 117;
   114; 97; 98; 108; 101; 32; 116; 104; 97; 108; 121; 120; 45; 107; 52; 32; 100; 117; 114; 97;
   98; 108; 101; 32; 116; 104; 97; 108; 121; 120; 45; 107; 52; 32; 100; 117; 114; 97; 98; 108;
   101; 32; 116; 104; 97; 108; 121; 120; 45; 107; 52; 32; 100; 117; 114; 97; 98; 108; 101; 32;
   116; 104; 97; 108; 121; 120; 45; 107; 52; 32; 100; 117; 114; 97; 98; 108; 101; 32; 116; 104;
   97; 108; 121; 120; 45; 107; 52; 32; 100; 117; 114; 97; 98; 108; 101; 32; 116; 104; 97; 108;
   121; 120; 45; 107; 52; 32; 100; 117; 114; 97; 98; 108; 101; 32; 116; 104; 97; 108; 121; 120;
   45; 107; 52; 32; 100; 117; 114; 97; 98; 108; 101; 32; 116; 104; 97; 108; 121; 120; 45; 107;
   52; 32; 100; 117; 114; 97; 98; 108; 101; 32; 116; 104; 97; 108; 121; 120; 45; 107; 52; 32;
   100; 117; 114; 97; 98; 108; 101; 32; 116; 104; 97; 108; 121; 120; 45; 107; 52; 32; 100; 117;
   114; 97; 98; 108].
(** user/k4fmt/src/generated.rs:1511-1515 [golden::OBJECT_WIDE_DIGEST] *)
Definition OBJECT_WIDE_DIGEST : list N :=
  [93; 162; 127; 77; 225; 217; 97; 236; 239; 179; 1; 204; 63; 78; 230; 44; 213; 92; 122; 190;
   102; 40; 14; 191; 227; 94; 224; 74; 200; 162; 90; 126].
(** user/k4fmt/src/generated.rs:1517-1537 [golden::TREE_LEAF] *)
Definition TREE_LEAF : list N :=
  [3; 0; 0; 0; 0; 0; 0; 0; 1; 0; 0; 0; 0; 0; 0; 0; 38; 0; 0; 0; 0; 0; 0; 0; 16; 61; 244; 56; 13;
   86; 127; 188; 85; 168; 99; 11; 19; 39; 131; 175; 4; 4; 162; 199; 115; 68; 132; 138; 103; 185;
   96; 24; 160; 127; 254; 222; 5; 0; 0; 0; 0; 0; 0; 0; 97; 108; 112; 104; 97; 0; 0; 0; 0; 0; 0;
   0; 0; 0; 0; 0; 0; 0; 0; 0; 0; 0; 0; 0; 0; 0; 0; 0; 0; 0; 0; 0; 1; 0; 0; 0; 0; 0; 0; 0; 4; 0;
   0; 0; 0; 0; 0; 0; 246; 92; 173; 126; 105; 89; 240; 244; 55; 85; 39; 206; 42; 200; 136; 220;
   133; 88; 121; 222; 209; 106; 179; 54; 139; 254; 11; 231; 227; 111; 234; 174; 4; 0; 0; 0; 0;
   0; 0; 0; 98; 101; 116; 97; 0; 0; 0; 0; 0; 0; 0; 0; 0; 0; 0; 0; 0; 0; 0; 0; 0; 0; 0; 0; 0; 0;
   0; 0; 0; 0; 0; 0; 1; 0; 0; 0; 0; 0; 0; 0; 0; 0; 0; 0; 0; 0; 0; 0; 165; 129; 189; 129; 107;
   85; 228; 65; 166; 28; 246; 196; 220; 56; 195; 215; 209; 223; 139; 69; 253; 151; 49; 96; 189;
   89; 196; 14; 127; 102; 35; 241; 5; 0; 0; 0; 0; 0; 0; 0; 101; 109; 112; 116; 121; 0; 0; 0; 0;
   0; 0; 0; 0; 0; 0; 0; 0; 0; 0; 0; 0; 0; 0; 0; 0; 0; 0; 0; 0; 0; 0; 0].
(** user/k4fmt/src/generated.rs:1539-1543 [golden::TREE_LEAF_DIGEST] *)
Definition TREE_LEAF_DIGEST : list N :=
  [16; 182; 0; 5; 136; 247; 189; 126; 179; 247; 56; 219; 249; 123; 88; 226; 218; 149; 128; 204;
   183; 29; 85; 212; 39; 196; 224; 39; 94; 128; 219; 13].
(** user/k4fmt/src/generated.rs:1545-1559 [golden::TREE_ROOT] *)
Definition TREE_ROOT : list N :=
  [2; 0; 0; 0; 0; 0; 0; 0; 2; 0; 0; 0; 0; 0; 0; 0; 16; 1; 0; 0; 0; 0; 0; 0; 16; 182; 0; 5; 136;
   247; 189; 126; 179; 247; 56; 219; 249; 123; 88; 226; 218; 149; 128; 204; 183; 29; 85; 212;
   39; 196; 224; 39; 94; 128; 219; 13; 4; 0; 0; 0; 0; 0; 0; 0; 100; 97; 116; 97; 0; 0; 0; 0; 0;
   0; 0; 0; 0; 0; 0; 0; 0; 0; 0; 0; 0; 0; 0; 0; 0; 0; 0; 0; 0; 0; 0; 0; 1; 0; 0; 0; 1; 0; 0; 0;
   38; 0; 0; 0; 0; 0; 0; 0; 16; 61; 244; 56; 13; 86; 127; 188; 85; 168; 99; 11; 19; 39; 131;
   175; 4; 4; 162; 199; 115; 68; 132; 138; 103; 185; 96; 24; 160; 127; 254; 222; 5; 0; 0; 0; 0;
   0; 0; 0; 110; 111; 116; 101; 115; 0; 0; 0; 0; 0; 0; 0; 0; 0; 0; 0; 0; 0; 0; 0; 0; 0; 0; 0; 0;
   0; 0; 0; 0; 0; 0; 0].
(** user/k4fmt/src/generated.rs:1561-1565 [golden::TREE_ROOT_DIGEST] *)
Definition TREE_ROOT_DIGEST : list N :=
  [184; 226; 163; 48; 228; 114; 185; 37; 188; 243; 160; 141; 157; 53; 28; 30; 233; 52; 242; 212;
   55; 57; 141; 43; 172; 198; 62; 137; 170; 61; 4; 95].
(** user/k4fmt/src/generated.rs:1567-1573 [golden::POLICY_SIGNED] *)
Definition POLICY_SIGNED : list N :=
  [1; 0; 0; 0; 1; 0; 0; 0; 6; 0; 0; 0; 0; 0; 0; 0; 1; 0; 145; 217; 142; 111; 79; 75; 176; 113;
   11; 0; 0; 0; 0; 0; 246; 92; 173; 126; 105; 89; 240; 244; 55; 85; 39; 206; 42; 200; 136; 220;
   133; 88; 121; 222; 209; 106; 179; 54; 139; 254; 11; 231; 227; 111; 234; 174].
(** user/k4fmt/src/generated.rs:1575-1579 [golden::POLICY_SIGNED_DIGEST] *)
Definition POLICY_SIGNED_DIGEST : list N :=
  [195; 74; 70; 46; 156; 157; 170; 195; 182; 123; 162; 84; 184; 105; 216; 170; 242; 175; 127;
   211; 215; 111; 250; 237; 228; 215; 236; 60; 141; 203; 71; 83].
(** user/k4fmt/src/generated.rs:1581-1589 [golden::VALIDATION_PASS] *)
Definition VALIDATION_PASS : list N :=
  [1; 0; 0; 0; 1; 0; 0; 0; 184; 226; 163; 48; 228; 114; 185; 37; 188; 243; 160; 141; 157; 53;
   28; 30; 233; 52; 242; 212; 55; 57; 141; 43; 172; 198; 62; 137; 170; 61; 4; 95; 7; 0; 0; 0; 0;
   0; 0; 0; 1; 0; 145; 217; 142; 111; 79; 75; 246; 92; 173; 126; 105; 89; 240; 244; 55; 85; 39;
   206; 42; 200; 136; 220; 133; 88; 121; 222; 209; 106; 179; 54; 139; 254; 11; 231; 227; 111;
   234; 174; 57; 101; 12; 0; 0; 0; 0; 0; 210; 2; 150; 73; 0; 0; 0; 0].
(** user/k4fmt/src/generated.rs:1591-1595 [golden::VALIDATION_PASS_DIGEST] *)
Definition VALIDATION_PASS_DIGEST : list N :=
  [41; 105; 111; 85; 218; 165; 135; 187; 120; 254; 71; 207; 5; 144; 62; 158; 212; 152; 136; 118;
   82; 23; 95; 150; 220; 133; 25; 242; 204; 85; 157; 97].
(** user/k4fmt/src/generated.rs:1597-1606 [golden::MANIFEST_V8] *)
Definition MANIFEST_V8 : list N :=
  [1; 0; 0; 0; 0; 0; 0; 0; 184; 226; 163; 48; 228; 114; 185; 37; 188; 243; 160; 141; 157; 53;
   28; 30; 233; 52; 242; 212; 55; 57; 141; 43; 172; 198; 62; 137; 170; 61; 4; 95; 195; 74; 70;
   46; 156; 157; 170; 195; 182; 123; 162; 84; 184; 105; 216; 170; 242; 175; 127; 211; 215; 111;
   250; 237; 228; 215; 236; 60; 141; 203; 71; 83; 41; 105; 111; 85; 218; 165; 135; 187; 120;
   254; 71; 207; 5; 144; 62; 158; 212; 152; 136; 118; 82; 23; 95; 150; 220; 133; 25; 242; 204;
   85; 157; 97; 2; 0; 0; 0; 0; 0; 0; 0; 42; 0; 0; 0; 0; 0; 0; 0].
(** user/k4fmt/src/generated.rs:1608-1612 [golden::MANIFEST_V8_DIGEST] *)
Definition MANIFEST_V8_DIGEST : list N :=
  [45; 34; 206; 232; 112; 42; 219; 162; 203; 68; 124; 164; 43; 217; 33; 63; 67; 61; 190; 77;
   250; 170; 106; 150; 236; 109; 83; 125; 250; 190; 157; 106].
(** user/k4fmt/src/generated.rs:1614-1628 [golden::REQUEST_V8] *)
Definition REQUEST_V8 : list N :=
  [116; 104; 97; 108; 121; 120; 45; 107; 52; 47; 114; 101; 113; 117; 101; 115; 116; 47; 118; 49;
   0; 2; 0; 0; 0; 0; 0; 0; 0; 5; 0; 0; 0; 0; 0; 0; 0; 6; 0; 0; 0; 0; 0; 0; 0; 7; 0; 0; 0; 0; 0;
   0; 0; 45; 34; 206; 232; 112; 42; 219; 162; 203; 68; 124; 164; 43; 217; 33; 63; 67; 61; 190;
   77; 250; 170; 106; 150; 236; 109; 83; 125; 250; 190; 157; 106; 195; 74; 70; 46; 156; 157;
   170; 195; 182; 123; 162; 84; 184; 105; 216; 170; 242; 175; 127; 211; 215; 111; 250; 237; 228;
   215; 236; 60; 141; 203; 71; 83; 41; 105; 111; 85; 218; 165; 135; 187; 120; 254; 71; 207; 5;
   144; 62; 158; 212; 152; 136; 118; 82; 23; 95; 150; 220; 133; 25; 242; 204; 85; 157; 97; 17;
   153; 0; 0; 0; 0; 0; 0; 246; 92; 173; 126; 105; 89; 240; 244; 55; 85; 39; 206; 42; 200; 136;
   220; 133; 88; 121; 222; 209; 106; 179; 54; 139; 254; 11; 231; 227; 111; 234; 174].
(** user/k4fmt/src/generated.rs:1630-1634 [golden::REQUEST_V8_DIGEST] *)
Definition REQUEST_V8_DIGEST : list N :=
  [49; 245; 232; 23; 26; 66; 89; 48; 198; 50; 248; 77; 193; 225; 232; 24; 127; 72; 2; 58; 33;
   109; 84; 254; 246; 139; 30; 143; 6; 85; 47; 165].
(** user/k4fmt/src/generated.rs:1636-1650 [golden::RECEIPT_V8] *)
Definition RECEIPT_V8 : list N :=
  [1; 0; 0; 0; 0; 0; 0; 0; 2; 0; 0; 0; 0; 0; 0; 0; 5; 0; 0; 0; 0; 0; 0; 0; 49; 245; 232; 23; 26;
   66; 89; 48; 198; 50; 248; 77; 193; 225; 232; 24; 127; 72; 2; 58; 33; 109; 84; 254; 246; 139;
   30; 143; 6; 85; 47; 165; 7; 0; 0; 0; 0; 0; 0; 0; 8; 0; 0; 0; 0; 0; 0; 0; 45; 34; 206; 232;
   112; 42; 219; 162; 203; 68; 124; 164; 43; 217; 33; 63; 67; 61; 190; 77; 250; 170; 106; 150;
   236; 109; 83; 125; 250; 190; 157; 106; 195; 74; 70; 46; 156; 157; 170; 195; 182; 123; 162;
   84; 184; 105; 216; 170; 242; 175; 127; 211; 215; 111; 250; 237; 228; 215; 236; 60; 141; 203;
   71; 83; 41; 105; 111; 85; 218; 165; 135; 187; 120; 254; 71; 207; 5; 144; 62; 158; 212; 152;
   136; 118; 82; 23; 95; 150; 220; 133; 25; 242; 204; 85; 157; 97; 63; 128; 150; 73; 0; 0; 0; 0;
   17; 153; 0; 0; 0; 0; 0; 0].
(** user/k4fmt/src/generated.rs:1652-1656 [golden::RECEIPT_V8_DIGEST] *)
Definition RECEIPT_V8_DIGEST : list N :=
  [141; 42; 185; 229; 135; 23; 4; 238; 137; 42; 206; 250; 8; 195; 123; 16; 102; 72; 4; 7; 136;
   205; 164; 23; 76; 78; 67; 72; 189; 224; 176; 183].
(** user/k4fmt/src/generated.rs:1658-1661 [golden::STORE_UUID_A] *)
Definition STORE_UUID_A : list N :=
  [131; 137; 8; 82; 50; 3; 139; 64; 213; 157; 182; 87; 49; 13; 179; 173].
(** user/k4fmt/src/generated.rs:1663-1667 [golden::STORE_UUID_A_DIGEST] *)
Definition STORE_UUID_A_DIGEST : list N :=
  [131; 137; 8; 82; 50; 3; 139; 64; 213; 157; 182; 87; 49; 13; 179; 173; 0; 0; 0; 0; 0; 0; 0; 0;
   0; 0; 0; 0; 0; 0; 0; 0].
(** user/k4fmt/src/generated.rs:1669-1944 [golden::RECORD_CHECKPOINT] *)
Definition RECORD_CHECKPOINT : list N :=
  [84; 72; 76; 88; 82; 67; 48; 49; 1; 0; 0; 0; 1; 0; 0; 0; 1; 0; 0; 0; 0; 0; 0; 0; 1; 0; 0; 0;
   0; 0; 0; 0; 88; 1; 0; 0; 0; 0; 0; 0; 1; 0; 0; 0; 0; 0; 0; 0; 0; 0; 0; 0; 0; 0; 0; 0; 0; 0; 0;
   0; 0; 0; 0; 0; 0; 0; 0; 0; 0; 0; 0; 0; 0; 0; 0; 0; 0; 0; 0; 0; 0; 0; 0; 0; 0; 0; 0; 0; 0; 0;
   0; 0; 0; 0; 0; 0; 41; 247; 47; 174; 14; 223; 255; 5; 73; 185; 140; 201; 113; 117; 113; 161;
   211; 142; 114; 36; 85; 237; 84; 24; 82; 48; 23; 134; 64; 25; 192; 134; 7; 0; 0; 0; 0; 0; 0;
   0; 184; 226; 163; 48; 228; 114; 185; 37; 188; 243; 160; 141; 157; 53; 28; 30; 233; 52; 242;
   212; 55; 57; 141; 43; 172; 198; 62; 137; 170; 61; 4; 95; 195; 74; 70; 46; 156; 157; 170; 195;
   182; 123; 162; 84; 184; 105; 216; 170; 242; 175; 127; 211; 215; 111; 250; 237; 228; 215; 236;
   60; 141; 203; 71; 83; 246; 92; 173; 126; 105; 89; 240; 244; 55; 85; 39; 206; 42; 200; 136;
   220; 133; 88; 121; 222; 209; 106; 179; 54; 139; 254; 11; 231; 227; 111; 234; 174; 2; 0; 0; 0;
   0; 0; 0; 0; 1; 0; 0; 0; 0; 0; 0; 0; 1; 0; 0; 0; 0; 0; 0; 0; 0; 0; 0; 0; 0; 0; 0; 0; 160; 249;
   148; 73; 0; 0; 0; 0; 1; 0; 0; 0; 0; 0; 0; 0; 2; 0; 0; 0; 0; 0; 0; 0; 1; 0; 0; 0; 0; 0; 0; 0;
   3; 0; 0; 0; 0; 0; 0; 0; 0; 0; 0; 0; 0; 0; 0; 0; 2; 0; 0; 0; 0; 0; 0; 0; 4; 0; 0; 0; 0; 0; 0;
   0; 0; 0; 0; 0; 0; 0; 0; 0; 2; 0; 0; 0; 0; 0; 0; 0; 4; 0; 0; 0; 0; 0; 0; 0; 1; 0; 0; 0; 2; 0;
   0; 0; 7; 0; 0; 0; 0; 0; 0; 0; 184; 226; 163; 48; 228; 114; 185; 37; 188; 243; 160; 141; 157;
   53; 28; 30; 233; 52; 242; 212; 55; 57; 141; 43; 172; 198; 62; 137; 170; 61; 4; 95; 246; 92;
   173; 126; 105; 89; 240; 244; 55; 85; 39; 206; 42; 200; 136; 220; 133; 88; 121; 222; 209; 106;
   179; 54; 139; 254; 11; 231; 227; 111; 234; 174; 184; 226; 163; 48; 228; 114; 185; 37; 188;
   243; 160; 141; 157; 53; 28; 30; 233; 52; 242; 212; 55; 57; 141; 43; 172; 198; 62; 137; 170;
   61; 4; 95; 0; 26; 113; 24; 2] ++ replicate 3627 0.
(** user/k4fmt/src/generated.rs:1946-1950 [golden::RECORD_CHECKPOINT_DIGEST] *)
Definition RECORD_CHECKPOINT_DIGEST : list N :=
  [41; 247; 47; 174; 14; 223; 255; 5; 73; 185; 140; 201; 113; 117; 113; 161; 211; 142; 114; 36;
   85; 237; 84; 24; 82; 48; 23; 134; 64; 25; 192; 134].
(** user/k4fmt/src/generated.rs:1952-2227 [golden::RECORD_OBJECT] *)
Definition RECORD_OBJECT : list N :=
  [84; 72; 76; 88; 82; 67; 48; 49; 1; 0; 0; 0; 2; 0; 0; 0; 2; 0; 0; 0; 0; 0; 0; 0; 1; 0; 0; 0;
   0; 0; 0; 0; 168; 0; 0; 0; 0; 0; 0; 0; 1; 0; 0; 0; 0; 0; 0; 0; 0; 0; 0; 0; 0; 0; 0; 0; 0; 0;
   0; 0; 0; 0; 0; 0; 41; 247; 47; 174; 14; 223; 255; 5; 73; 185; 140; 201; 113; 117; 113; 161;
   211; 142; 114; 36; 85; 237; 84; 24; 82; 48; 23; 134; 64; 25; 192; 134; 59; 145; 122; 214;
   165; 230; 53; 148; 250; 18; 0; 23; 89; 215; 196; 43; 171; 150; 63; 160; 95; 62; 95; 32; 39;
   0; 228; 28; 216; 51; 193; 163; 3; 0; 0; 0; 0; 0; 0; 0; 120; 0; 0; 0; 0; 0; 0; 0; 45; 34; 206;
   232; 112; 42; 219; 162; 203; 68; 124; 164; 43; 217; 33; 63; 67; 61; 190; 77; 250; 170; 106;
   150; 236; 109; 83; 125; 250; 190; 157; 106; 1; 0; 0; 0; 0; 0; 0; 0; 184; 226; 163; 48; 228;
   114; 185; 37; 188; 243; 160; 141; 157; 53; 28; 30; 233; 52; 242; 212; 55; 57; 141; 43; 172;
   198; 62; 137; 170; 61; 4; 95; 195; 74; 70; 46; 156; 157; 170; 195; 182; 123; 162; 84; 184;
   105; 216; 170; 242; 175; 127; 211; 215; 111; 250; 237; 228; 215; 236; 60; 141; 203; 71; 83;
   41; 105; 111; 85; 218; 165; 135; 187; 120; 254; 71; 207; 5; 144; 62; 158; 212; 152; 136; 118;
   82; 23; 95; 150; 220; 133; 25; 242; 204; 85; 157; 97; 2; 0; 0; 0; 0; 0; 0; 0; 42] ++ replicate 3807 0.
(** user/k4fmt/src/generated.rs:2229-2233 [golden::RECORD_OBJECT_DIGEST] *)
Definition RECORD_OBJECT_DIGEST : list N :=
  [59; 145; 122; 214; 165; 230; 53; 148; 250; 18; 0; 23; 89; 215; 196; 43; 171; 150; 63; 160;
   95; 62; 95; 32; 39; 0; 228; 28; 216; 51; 193; 163].
(** user/k4fmt/src/generated.rs:2235-2510 [golden::RECORD_PREPARE] *)
Definition RECORD_PREPARE : list N :=
  [84; 72; 76; 88; 82; 67; 48; 49; 1; 0; 0; 0; 3; 0; 0; 0; 3; 0; 0; 0; 0; 0; 0; 0; 1; 0; 0; 0;
   0; 0; 0; 0; 216; 0; 0; 0; 0; 0; 0; 0; 1; 0; 0; 0; 0; 0; 0; 0; 0; 0; 0; 0; 0; 0; 0; 0; 0; 0;
   0; 0; 0; 0; 0; 0; 59; 145; 122; 214; 165; 230; 53; 148; 250; 18; 0; 23; 89; 215; 196; 43;
   171; 150; 63; 160; 95; 62; 95; 32; 39; 0; 228; 28; 216; 51; 193; 163; 49; 250; 70; 185; 88;
   74; 247; 214; 185; 174; 249; 196; 248; 63; 88; 73; 163; 84; 186; 201; 166; 130; 7; 4; 214;
   193; 70; 250; 161; 182; 2; 105; 2; 0; 0; 0; 0; 0; 0; 0; 5; 0; 0; 0; 0; 0; 0; 0; 49; 245; 232;
   23; 26; 66; 89; 48; 198; 50; 248; 77; 193; 225; 232; 24; 127; 72; 2; 58; 33; 109; 84; 254;
   246; 139; 30; 143; 6; 85; 47; 165; 7; 0; 0; 0; 0; 0; 0; 0; 45; 34; 206; 232; 112; 42; 219;
   162; 203; 68; 124; 164; 43; 217; 33; 63; 67; 61; 190; 77; 250; 170; 106; 150; 236; 109; 83;
   125; 250; 190; 157; 106; 195; 74; 70; 46; 156; 157; 170; 195; 182; 123; 162; 84; 184; 105;
   216; 170; 242; 175; 127; 211; 215; 111; 250; 237; 228; 215; 236; 60; 141; 203; 71; 83; 41;
   105; 111; 85; 218; 165; 135; 187; 120; 254; 71; 207; 5; 144; 62; 158; 212; 152; 136; 118; 82;
   23; 95; 150; 220; 133; 25; 242; 204; 85; 157; 97; 1; 0; 0; 0; 0; 0; 0; 0; 17; 153; 0; 0; 0;
   0; 0; 0; 246; 92; 173; 126; 105; 89; 240; 244; 55; 85; 39; 206; 42; 200; 136; 220; 133; 88;
   121; 222; 209; 106; 179; 54; 139; 254; 11; 231; 227; 111; 234; 174; 240; 188; 149; 73; 0; 0;
   0; 0; 77] ++ replicate 3759 0.
(** user/k4fmt/src/generated.rs:2512-2516 [golden::RECORD_PREPARE_DIGEST] *)
Definition RECORD_PREPARE_DIGEST : list N :=
  [49; 250; 70; 185; 88; 74; 247; 214; 185; 174; 249; 196; 248; 63; 88; 73; 163; 84; 186; 201;
   166; 130; 7; 4; 214; 193; 70; 250; 161; 182; 2; 105].
(** user/k4fmt/src/generated.rs:2518-2793 [golden::RECORD_COMMIT] *)
Definition RECORD_COMMIT : list N :=
  [84; 72; 76; 88; 82; 67; 48; 49; 1; 0; 0; 0; 4; 0; 0; 0; 4; 0; 0; 0; 0; 0; 0; 0; 1; 0; 0; 0;
   0; 0; 0; 0; 176; 0; 0; 0; 0; 0; 0; 0; 1; 0; 0; 0; 0; 0; 0; 0; 0; 0; 0; 0; 0; 0; 0; 0; 0; 0;
   0; 0; 0; 0; 0; 0; 49; 250; 70; 185; 88; 74; 247; 214; 185; 174; 249; 196; 248; 63; 88; 73;
   163; 84; 186; 201; 166; 130; 7; 4; 214; 193; 70; 250; 161; 182; 2; 105; 8; 119; 68; 167; 203;
   82; 183; 107; 60; 22; 33; 19; 207; 66; 60; 50; 105; 179; 197; 108; 238; 101; 179; 211; 88;
   184; 37; 215; 239; 234; 195; 7; 3; 0; 0; 0; 0; 0; 0; 0; 49; 250; 70; 185; 88; 74; 247; 214;
   185; 174; 249; 196; 248; 63; 88; 73; 163; 84; 186; 201; 166; 130; 7; 4; 214; 193; 70; 250;
   161; 182; 2; 105; 8; 0; 0; 0; 0; 0; 0; 0; 45; 34; 206; 232; 112; 42; 219; 162; 203; 68; 124;
   164; 43; 217; 33; 63; 67; 61; 190; 77; 250; 170; 106; 150; 236; 109; 83; 125; 250; 190; 157;
   106; 195; 74; 70; 46; 156; 157; 170; 195; 182; 123; 162; 84; 184; 105; 216; 170; 242; 175;
   127; 211; 215; 111; 250; 237; 228; 215; 236; 60; 141; 203; 71; 83; 141; 42; 185; 229; 135;
   23; 4; 238; 137; 42; 206; 250; 8; 195; 123; 16; 102; 72; 4; 7; 136; 205; 164; 23; 76; 78; 67;
   72; 189; 224; 176; 183; 2; 0; 0; 0; 0; 0; 0; 0; 5; 0; 0; 0; 0; 0; 0; 0; 63; 128; 150; 73; 0;
   0; 0; 0; 6] ++ replicate 3799 0.
(** user/k4fmt/src/generated.rs:2795-2799 [golden::RECORD_COMMIT_DIGEST] *)
Definition RECORD_COMMIT_DIGEST : list N :=
  [8; 119; 68; 167; 203; 82; 183; 107; 60; 22; 33; 19; 207; 66; 60; 50; 105; 179; 197; 108; 238;
   101; 179; 211; 88; 184; 37; 215; 239; 234; 195; 7].
(** user/k4fmt/src/generated.rs:2801-3076 [golden::RECORD_ABORT] *)
Definition RECORD_ABORT : list N :=
  [84; 72; 76; 88; 82; 67; 48; 49; 1; 0; 0; 0; 5; 0; 0; 0; 5; 0; 0; 0; 0; 0; 0; 0; 1; 0; 0; 0;
   0; 0; 0; 0; 72; 0; 0; 0; 0; 0; 0; 0; 1; 0; 0; 0; 0; 0; 0; 0; 0; 0; 0; 0; 0; 0; 0; 0; 0; 0; 0;
   0; 0; 0; 0; 0; 8; 119; 68; 167; 203; 82; 183; 107; 60; 22; 33; 19; 207; 66; 60; 50; 105; 179;
   197; 108; 238; 101; 179; 211; 88; 184; 37; 215; 239; 234; 195; 7; 29; 164; 201; 219; 110;
   170; 149; 124; 31; 143; 15; 18; 14; 40; 185; 76; 59; 230; 24; 223; 121; 229; 200; 238; 114;
   9; 148; 135; 199; 124; 136; 254; 3; 0; 0; 0; 0; 0; 0; 0; 49; 250; 70; 185; 88; 74; 247; 214;
   185; 174; 249; 196; 248; 63; 88; 73; 163; 84; 186; 201; 166; 130; 7; 4; 214; 193; 70; 250;
   161; 182; 2; 105; 1; 0; 0; 0; 0; 0; 0; 0; 1; 0; 0; 0; 0; 0; 0; 0; 4; 0; 0; 0; 0; 0; 0; 0;
   224; 6; 152; 73] ++ replicate 3900 0.
(** user/k4fmt/src/generated.rs:3078-3082 [golden::RECORD_ABORT_DIGEST] *)
Definition RECORD_ABORT_DIGEST : list N :=
  [29; 164; 201; 219; 110; 170; 149; 124; 31; 143; 15; 18; 14; 40; 185; 76; 59; 230; 24; 223;
   121; 229; 200; 238; 114; 9; 148; 135; 199; 124; 136; 254].
(** user/k4fmt/src/generated.rs:3084-3359 [golden::RECORD_OUTBOX] *)
Definition RECORD_OUTBOX : list N :=
  [84; 72; 76; 88; 82; 67; 48; 49; 1; 0; 0; 0; 6; 0; 0; 0; 6; 0; 0; 0; 0; 0; 0; 0; 1; 0; 0; 0;
   0; 0; 0; 0; 80; 0; 0; 0; 0; 0; 0; 0; 1; 0; 0; 0; 0; 0; 0; 0; 0; 0; 0; 0; 0; 0; 0; 0; 0; 0; 0;
   0; 0; 0; 0; 0; 29; 164; 201; 219; 110; 170; 149; 124; 31; 143; 15; 18; 14; 40; 185; 76; 59;
   230; 24; 223; 121; 229; 200; 238; 114; 9; 148; 135; 199; 124; 136; 254; 115; 35; 48; 163;
   245; 75; 227; 233; 255; 71; 20; 61; 152; 121; 192; 51; 98; 239; 175; 10; 255; 44; 187; 38;
   201; 54; 171; 116; 29; 83; 247; 195; 4; 0; 0; 0; 0; 0; 0; 0; 49; 245; 232; 23; 26; 66; 89;
   48; 198; 50; 248; 77; 193; 225; 232; 24; 127; 72; 2; 58; 33; 109; 84; 254; 246; 139; 30; 143;
   6; 85; 47; 165; 2; 0; 0; 0; 0; 0; 0; 0; 5; 0; 0; 0; 0; 0; 0; 0; 3; 0; 0; 0; 2; 0; 0; 0; 17;
   153; 0; 0; 0; 0; 0; 0; 128; 141; 153; 73] ++ replicate 3892 0.
(** user/k4fmt/src/generated.rs:3361-3365 [golden::RECORD_OUTBOX_DIGEST] *)
Definition RECORD_OUTBOX_DIGEST : list N :=
  [115; 35; 48; 163; 245; 75; 227; 233; 255; 71; 20; 61; 152; 121; 192; 51; 98; 239; 175; 10;
   255; 44; 187; 38; 201; 54; 171; 116; 29; 83; 247; 195].
(** user/k4fmt/src/generated.rs:3367-3642 [golden::RECORD_OBJECT_WIDE] *)
Definition RECORD_OBJECT_WIDE : list N :=
  [84; 72; 76; 88; 82; 67; 48; 49; 1; 0; 0; 0; 2; 0; 0; 0; 7; 0; 0; 0; 0; 0; 0; 0; 1; 0; 0; 0;
   0; 0; 0; 0; 48; 4; 0; 0; 0; 0; 0; 0; 1; 0; 0; 0; 0; 0; 0; 0; 0; 0; 0; 0; 0; 0; 0; 0; 0; 0; 0;
   0; 0; 0; 0; 0; 115; 35; 48; 163; 245; 75; 227; 233; 255; 71; 20; 61; 152; 121; 192; 51; 98;
   239; 175; 10; 255; 44; 187; 38; 201; 54; 171; 116; 29; 83; 247; 195; 36; 109; 219; 167; 216;
   153; 45; 61; 146; 81; 146; 110; 67; 22; 224; 33; 238; 181; 153; 236; 248; 217; 151; 244; 139;
   128; 119; 26; 181; 227; 124; 164; 1; 0; 0; 0; 0; 0; 0; 0; 0; 4; 0; 0; 0; 0; 0; 0; 93; 162;
   127; 77; 225; 217; 97; 236; 239; 179; 1; 204; 63; 78; 230; 44; 213; 92; 122; 190; 102; 40;
   14; 191; 227; 94; 224; 74; 200; 162; 90; 126; 116; 104; 97; 108; 121; 120; 45; 107; 52; 32;
   100; 117; 114; 97; 98; 108; 101; 32; 116; 104; 97; 108; 121; 120; 45; 107; 52; 32; 100; 117;
   114; 97; 98; 108; 101; 32; 116; 104; 97; 108; 121; 120; 45; 107; 52; 32; 100; 117; 114; 97;
   98; 108; 101; 32; 116; 104; 97; 108; 121; 120; 45; 107; 52; 32; 100; 117; 114; 97; 98; 108;
   101; 32; 116; 104; 97; 108; 121; 120; 45; 107; 52; 32; 100; 117; 114; 97; 98; 108; 101; 32;
   116; 104; 97; 108; 121; 120; 45; 107; 52; 32; 100; 117; 114; 97; 98; 108; 101; 32; 116; 104;
   97; 108; 121; 120; 45; 107; 52; 32; 100; 117; 114; 97; 98; 108; 101; 32; 116; 104; 97; 108;
   121; 120; 45; 107; 52; 32; 100; 117; 114; 97; 98; 108; 101; 32; 116; 104; 97; 108; 121; 120;
   45; 107; 52; 32; 100; 117; 114; 97; 98; 108; 101; 32; 116; 104; 97; 108; 121; 120; 45; 107;
   52; 32; 100; 117; 114; 97; 98; 108; 101; 32; 116; 104; 97; 108; 121; 120; 45; 107; 52; 32;
   100; 117; 114; 97; 98; 108; 101; 32; 116; 104; 97; 108; 121; 120; 45; 107; 52; 32; 100; 117;
   114; 97; 98; 108; 101; 32; 116; 104; 97; 108; 121; 120; 45; 107; 52; 32; 100; 117; 114; 97;
   98; 108; 101; 32; 116; 104; 97; 108; 121; 120; 45; 107; 52; 32; 100; 117; 114; 97; 98; 108;
   101; 32; 116; 104; 97; 108; 121; 120; 45; 107; 52; 32; 100; 117; 114; 97; 98; 108; 101; 32;
   116; 104; 97; 108; 121; 120; 45; 107; 52; 32; 100; 117; 114; 97; 98; 108; 101; 32; 116; 104;
   97; 108; 121; 120; 45; 107; 52; 32; 100; 117; 114; 97; 98; 108; 101; 32; 116; 104; 97; 108;
   121; 120; 45; 107; 52; 32; 100; 117; 114; 97; 98; 108; 101; 32; 116; 104; 97; 108; 121; 120;
   45; 107; 52; 32; 100; 117; 114; 97; 98; 108; 101; 32; 116; 104; 97; 108; 121; 120; 45; 107;
   52; 32; 100; 117; 114; 97; 98; 108; 101; 32; 116; 104; 97; 108; 121; 120; 45; 107; 52; 32;
   100; 117; 114; 97; 98; 108; 101; 32; 116; 104; 97; 108; 121; 120; 45; 107; 52; 32; 100; 117;
   114; 97; 98; 108; 101; 32; 116; 104; 97; 108; 121; 120; 45; 107; 52; 32; 100; 117; 114; 97;
   98; 108; 101; 32; 116; 104; 97; 108; 121; 120; 45; 107; 52; 32; 100; 117; 114; 97; 98; 108;
   101; 32; 116; 104; 97; 108; 121; 120; 45; 107; 52; 32; 100; 117; 114; 97; 98; 108; 101; 32;
   116; 104; 97; 108; 121; 120; 45; 107; 52; 32; 100; 117; 114; 97; 98; 108; 101; 32; 116; 104;
   97; 108; 121; 120; 45; 107; 52; 32; 100; 117; 114; 97; 98; 108; 101; 32; 116; 104; 97; 108;
   121; 120; 45; 107; 52; 32; 100; 117; 114; 97; 98; 108; 101; 32; 116; 104; 97; 108; 121; 120;
   45; 107; 52; 32; 100; 117; 114; 97; 98; 108; 101; 32; 116; 104; 97; 108; 121; 120; 45; 107;
   52; 32; 100; 117; 114; 97; 98; 108; 101; 32; 116; 104; 97; 108; 121; 120; 45; 107; 52; 32;
   100; 117; 114; 97; 98; 108; 101; 32; 116; 104; 97; 108; 121; 120; 45; 107; 52; 32; 100; 117;
   114; 97; 98; 108; 101; 32; 116; 104; 97; 108; 121; 120; 45; 107; 52; 32; 100; 117; 114; 97;
   98; 108; 101; 32; 116; 104; 97; 108; 121; 120; 45; 107; 52; 32; 100; 117; 114; 97; 98; 108;
   101; 32; 116; 104; 97; 108; 121; 120; 45; 107; 52; 32; 100; 117; 114; 97; 98; 108; 101; 32;
   116; 104; 97; 108; 121; 120; 45; 107; 52; 32; 100; 117; 114; 97; 98; 108; 101; 32; 116; 104;
   97; 108; 121; 120; 45; 107; 52; 32; 100; 117; 114; 97; 98; 108; 101; 32; 116; 104; 97; 108;
   121; 120; 45; 107; 52; 32; 100; 117; 114; 97; 98; 108; 101; 32; 116; 104; 97; 108; 121; 120;
   45; 107; 52; 32; 100; 117; 114; 97; 98; 108; 101; 32; 116; 104; 97; 108; 121; 120; 45; 107;
   52; 32; 100; 117; 114; 97; 98; 108; 101; 32; 116; 104; 97; 108; 121; 120; 45; 107; 52; 32;
   100; 117; 114; 97; 98; 108; 101; 32; 116; 104; 97; 108; 121; 120; 45; 107; 52; 32; 100; 117;
   114; 97; 98; 108; 101; 32; 116; 104; 97; 108; 121; 120; 45; 107; 52; 32; 100; 117; 114; 97;
   98; 108; 101; 32; 116; 104; 97; 108; 121; 120; 45; 107; 52; 32; 100; 117; 114; 97; 98; 108;
   101; 32; 116; 104; 97; 108; 121; 120; 45; 107; 52; 32; 100; 117; 114; 97; 98; 108; 101; 32;
   116; 104; 97; 108; 121; 120; 45; 107; 52; 32; 100; 117; 114; 97; 98; 108; 101; 32; 116; 104;
   97; 108; 121; 120; 45; 107; 52; 32; 100; 117; 114; 97; 98; 108; 101; 32; 116; 104; 97; 108;
   121; 120; 45; 107; 52; 32; 100; 117; 114; 97; 98; 108; 101; 32; 116; 104; 97; 108; 121; 120;
   45; 107; 52; 32; 100; 117; 114; 97; 98; 108; 101; 32; 116; 104; 97; 108; 121; 120; 45; 107;
   52; 32; 100; 117; 114; 97; 98; 108; 101; 32; 116; 104; 97; 108; 121; 120; 45; 107; 52; 32;
   100; 117; 114; 97; 98; 108; 101; 32; 116; 104; 97; 108; 121; 120; 45; 107; 52; 32; 100; 117;
   114; 97; 98; 108; 101; 32; 116; 104; 97; 108; 121; 120; 45; 107; 52; 32; 100; 117; 114; 97;
   98; 108; 101; 32; 116; 104; 97; 108; 121; 120; 45; 107; 52; 32; 100; 117; 114; 97; 98; 108;
   101; 32; 116; 104; 97; 108; 121; 120; 45; 107; 52; 32; 100; 117; 114; 97; 98; 108; 101; 32;
   116; 104; 97; 108; 121; 120; 45; 107; 52; 32; 100; 117; 114; 97; 98; 108; 101; 32; 116; 104;
   97; 108; 121; 120; 45; 107; 52; 32; 100; 117; 114; 97; 98; 108] ++ replicate 2896 0.
(** user/k4fmt/src/generated.rs:3644-3648 [golden::RECORD_OBJECT_WIDE_DIGEST] *)
Definition RECORD_OBJECT_WIDE_DIGEST : list N :=
  [36; 109; 219; 167; 216; 153; 45; 61; 146; 81; 146; 110; 67; 22; 224; 33; 238; 181; 153; 236;
   248; 217; 151; 244; 139; 128; 119; 26; 181; 227; 124; 164].
(** user/k4fmt/src/generated.rs:3650-3925 [golden::SUPERBLOCK_LIVE] *)
Definition SUPERBLOCK_LIVE : list N :=
  [84; 72; 76; 88; 83; 66; 48; 49; 1; 0; 0; 0; 0; 0; 0; 0; 131; 137; 8; 82; 50; 3; 139; 64; 213;
   157; 182; 87; 49; 13; 179; 173; 1; 0; 0; 0; 0; 0; 0; 0; 4; 0; 0; 0; 0; 0; 0; 0; 0; 0; 0; 0;
   0; 0; 0; 0; 2; 0; 0; 0; 0; 0; 0; 0; 0; 1; 0; 0; 0; 0; 0; 0; 2; 1; 0; 0; 0; 0; 0; 0; 0; 1; 0;
   0; 0; 0; 0; 0; 0; 16; 0; 0; 0; 0; 0; 0; 1; 0; 0; 0; 0; 0; 0; 0; 6; 0; 0; 0; 0; 0; 0; 0; 8; 0;
   0; 0; 0; 0; 0; 0; 45; 34; 206; 232; 112; 42; 219; 162; 203; 68; 124; 164; 43; 217; 33; 63;
   67; 61; 190; 77; 250; 170; 106; 150; 236; 109; 83; 125; 250; 190; 157; 106; 0; 0; 0; 0; 0; 0;
   0; 0; 181; 24; 12; 40; 242; 1; 156; 145; 219; 246; 155; 146; 167; 157; 25; 59; 99; 55; 91;
   171; 169; 125; 8; 144; 55; 205; 74; 241; 35; 174; 158; 147] ++ replicate 3904 0.
(** user/k4fmt/src/generated.rs:3927-3931 [golden::SUPERBLOCK_LIVE_DIGEST] *)
Definition SUPERBLOCK_LIVE_DIGEST : list N :=
  [181; 24; 12; 40; 242; 1; 156; 145; 219; 246; 155; 146; 167; 157; 25; 59; 99; 55; 91; 171;
   169; 125; 8; 144; 55; 205; 74; 241; 35; 174; 158; 147].
(** user/k4fmt/src/generated.rs:3933-4208 [golden::SUPERBLOCK_STALE] *)
Definition SUPERBLOCK_STALE : list N :=
  [84; 72; 76; 88; 83; 66; 48; 49; 1; 0; 0; 0; 0; 0; 0; 0; 131; 137; 8; 82; 50; 3; 139; 64; 213;
   157; 182; 87; 49; 13; 179; 173; 1; 0; 0; 0; 0; 0; 0; 0; 3; 0; 0; 0; 0; 0; 0; 0; 1; 0; 0; 0;
   0; 0; 0; 0; 2; 0; 0; 0; 0; 0; 0; 0; 0; 1; 0; 0; 0; 0; 0; 0; 2; 1; 0; 0; 0; 0; 0; 0; 0; 1; 0;
   0; 0; 0; 0; 0; 0; 16; 0; 0; 0; 0; 0; 0; 1; 0; 0; 0; 0; 0; 0; 0; 4; 0; 0; 0; 0; 0; 0; 0; 7; 0;
   0; 0; 0; 0; 0; 0; 184; 226; 163; 48; 228; 114; 185; 37; 188; 243; 160; 141; 157; 53; 28; 30;
   233; 52; 242; 212; 55; 57; 141; 43; 172; 198; 62; 137; 170; 61; 4; 95; 0; 0; 0; 0; 0; 0; 0;
   0; 76; 195; 233; 66; 206; 110; 104; 63; 237; 216; 240; 14; 219; 112; 5; 67; 94; 29; 137; 145;
   200; 67; 82; 23; 253; 118; 143; 9; 164; 26; 231; 139] ++ replicate 3904 0.
(** user/k4fmt/src/generated.rs:4210-4214 [golden::SUPERBLOCK_STALE_DIGEST] *)
Definition SUPERBLOCK_STALE_DIGEST : list N :=
  [76; 195; 233; 66; 206; 110; 104; 63; 237; 216; 240; 14; 219; 112; 5; 67; 94; 29; 137; 145;
   200; 67; 82; 23; 253; 118; 143; 9; 164; 26; 231; 139].
(** user/k4fmt/src/generated.rs:4216-4491 [golden::HARNESS_STOP_AFTER_COMMIT] *)
Definition HARNESS_STOP_AFTER_COMMIT : list N :=
  [84; 72; 76; 88; 70; 76; 84; 49; 1; 0; 0; 0; 6; 0; 0; 0; 0; 0; 0; 0; 0; 0; 0; 0; 1; 0; 0; 0;
   1; 0; 0; 0; 8; 0; 0; 0; 0; 0; 0; 0; 45; 40; 53; 1; 0; 0; 0; 0; 0; 0; 0; 0; 0; 0; 0; 0; 153;
   242; 227; 38; 219; 222; 222; 123; 166; 86; 104; 244; 170; 226; 148; 7; 100; 110; 127; 213;
   95; 21; 209; 87; 225; 168; 189; 70; 27; 82; 165; 102] ++ replicate 4008 0.
(** user/k4fmt/src/generated.rs:4493-4497 [golden::HARNESS_STOP_AFTER_COMMIT_DIGEST] *)
Definition HARNESS_STOP_AFTER_COMMIT_DIGEST : list N :=
  [153; 242; 227; 38; 219; 222; 222; 123; 166; 86; 104; 244; 170; 226; 148; 7; 100; 110; 127;
   213; 95; 21; 209; 87; 225; 168; 189; 70; 27; 82; 165; 102].
End golden.
