(* ===== verification/K4Format.v ===== *)
(** * The canonical encoders of the durable store

    [user/k4fmt/src/lib.rs]: digests, names, trees, framed records, superblocks, the
    harness directive and the check of the golden vectors. A buffer is the list of
    its bytes; a function that writes into one returns it. *)

From S2P Require Import Prelude Bytes Sha256 K4Layout K4Golden.

#[local] Open Scope N_scope.

(** user/k4fmt/src/lib.rs:36-45 [FormatError] *)
Inductive FormatError := TooSmall | OutOfRange | BadName | NotCanonical.

(** A computation that may refuse, and may panic: [None] is the panic. *)
Definition Res (A : Type) : Type := option (FormatError + A).
Definition ok {A} (a : A) : Res A := Some (inr a).
Definition refuse {A} (e : FormatError) : Res A := Some (inl e).
(** [r?] and what follows. *)
Definition andthen {A B} (r : Res A) (k : A → Res B) : Res B :=
  match r with
  | Some (inr a) => k a
  | Some (inl e) => Some (inl e)
  | None => None
  end.
Notation "x '<~' r ';;' k" := (andthen r (λ x, k))
  (at level 100, r at next level, k at level 200, right associativity).

(** ** Plain structures in a buffer *)

(** user/k4fmt/src/lib.rs:72-88 [Pod::read_from] *)
Definition read_from {A} (c : Codec A) (bytes : list N) (offset : nat) : option A :=
  let last := (offset + cd_size c)%nat in
  if decide (length bytes < last)%nat then None else Some (cd_value c (slice offset (cd_size c) bytes)).

(** user/k4fmt/src/lib.rs:91-100 [Pod::write_to] *)
Definition write_to {A} (c : Codec A) (a : A) (out : list N) (offset : nat) : Res (list N) :=
  let last := (offset + cd_size c)%nat in
  if decide (U64_MAX < N.of_nat last) then refuse OutOfRange else
  if decide (length out < last)%nat then refuse TooSmall else
  ok (splice offset (cd_bytes c a) out).

(** user/k4fmt/src/lib.rs:137-137 [BLOCK] *)
Definition BLOCK : nat := N.to_nat geometry.BLOCK_SIZE.

(** ** Digests *)

(** A computation fed these pieces. [finish] always ends. *)
Definition hash (parts : list (list N)) : list N :=
  default [] (finish (foldl (λ h data, update data h) sha_new parts)).

(** user/k4fmt/src/lib.rs:149-157 [object_digest, prefixed] *)
Definition object_digest (object_type : N) (content : list N) : list N :=
  hash [prefix.OBJECT; le_bytes 4 object_type; le_bytes 4 0;
        le_bytes 8 (N.of_nat (length content)); content].

(** user/k4fmt/src/lib.rs:164-188 [request_digest] *)
Definition request_digest (principal sequence op expected_generation : N)
    (candidate_root policy_digest validation_digest : list N) (outbox_target : N)
    (outbox_payload_digest : list N) : list N :=
  hash [prefix.REQUEST; le_bytes 8 principal; le_bytes 8 sequence; le_bytes 4 op; le_bytes 4 0;
        le_bytes 8 expected_generation; candidate_root; policy_digest; validation_digest;
        le_bytes 8 outbox_target; outbox_payload_digest].

(** user/k4fmt/src/lib.rs:191-200 [store_uuid] *)
Definition store_uuid (seed store_epoch : N) : list N :=
  take 16 (hash [prefix.STORE_UUID; le_bytes 8 seed; le_bytes 8 store_epoch]).

(** user/k4fmt/src/lib.rs:203-208 [record_digest] *)
Definition record_digest (header : RecordHeader) (payload : list N) : list N :=
  hash [take RecordHeader.OFFSET_DIGEST (cd_bytes RecordHeader_codec header); payload].

(** user/k4fmt/src/lib.rs:211-213 [superblock_digest] *)
Definition superblock_digest (block : StoreSuperblock) : list N :=
  hash [take StoreSuperblock.OFFSET_DIGEST (cd_bytes StoreSuperblock_codec block)].

(** user/k4fmt/src/lib.rs:216-218 [harness_digest] *)
Definition harness_digest (directive : HarnessDirective) : list N :=
  hash [take HarnessDirective.OFFSET_DIGEST (cd_bytes HarnessDirective_codec directive)].

(** ** Names and trees *)

(** user/k4fmt/src/lib.rs:225-233 [legal_name] *)
Definition legal_name (name : list N) : bool :=
  if bool_decide (name = []) || bool_decide (32 < length name)%nat then false
  else if bool_decide (name = [46]) || bool_decide (name = [46; 46]) then false
  else negb (existsb (λ byte, bool_decide (byte = 0) || bool_decide (byte = 47)) name).

(** user/k4fmt/src/lib.rs:237-250 [Binding] *)
Record Binding := mkBinding {
  bd_name : list N;
  bd_name_len : nat;
  bd_child_type : N;
  bd_flags : N;
  bd_length : N;
  bd_digest : list N
}.

Module Binding.
(** user/k4fmt/src/lib.rs:254-274 [Binding::new] *)
Definition new (name : list N) (child_type flags length_ : N) (digest : list N) :
    FormatError + Binding :=
  if negb (legal_name name) then inl BadName else
  inr (mkBinding (splice 0 name (replicate 32 0)) (length name) child_type flags length_ digest).
(** user/k4fmt/src/lib.rs:277-279 [Binding::name]. [None] is the panic of a length past
    the array. *)
Definition name (b : Binding) : option (list N) :=
  if decide (bd_name_len b <= length (bd_name b))%nat then Some (take (bd_name_len b) (bd_name b))
  else None.
End Binding.

(** [a < b] on byte slices. *)
Fixpoint bytes_lt (a b : list N) : bool :=
  match a, b with
  | _, [] => false
  | [], _ :: _ => true
  | x :: a, y :: b => bool_decide (x < y) || bool_decide (x = y) && bytes_lt a b
  end.

(** user/k4fmt/src/lib.rs:291-295 [encode_tree, the order] *)
Fixpoint check_order (entries : list Binding) : Res () :=
  match entries with
  | a :: (b :: _) as rest =>
      match Binding.name a, Binding.name b with
      | Some na, Some nb => if negb (bytes_lt na nb) then refuse NotCanonical else check_order rest
      | _, _ => None
      end
  | _ => ok ()
  end.

(** user/k4fmt/src/lib.rs:296-300 [encode_tree, the names] *)
Fixpoint check_names (entries : list Binding) : Res () :=
  match entries with
  | [] => ok ()
  | a :: rest =>
      match Binding.name a with
      | Some na => if negb (legal_name na) then refuse BadName else check_names rest
      | None => None
      end
  end.

(** user/k4fmt/src/lib.rs:311-319 [encode_tree, an entry] *)
Definition tree_entry (e : Binding) : TreeEntry :=
  mkTreeEntry (bd_child_type e) (bd_flags e) (bd_length e) (bd_digest e)
    (N.of_nat (bd_name_len e)) 0 (bd_name e).

(** user/k4fmt/src/lib.rs:310-321 [encode_tree, the loop] *)
Fixpoint write_entries (index : nat) (entries : list Binding) (out : list N) : Res (list N) :=
  match entries with
  | [] => ok out
  | e :: entries =>
      out <~ write_to TreeEntry_codec (tree_entry e) out (TreeHeader.SIZE + index * TreeEntry.SIZE);;
      write_entries (S index) entries out
  end.

(** user/k4fmt/src/lib.rs:287-323 [encode_tree]. The buffer, and how much of it was
    written. *)
Definition encode_tree (out : list N) (entries : list Binding) : Res (list N * nat) :=
  if decide (geometry.MAX_TREE_ENTRIES < N.of_nat (length entries)) then refuse OutOfRange else
  _ <~ check_order entries;;
  _ <~ check_names entries;;
  let total := (TreeHeader.SIZE + length entries * TreeEntry.SIZE)%nat in
  if decide (length out < total)%nat then refuse TooSmall else
  out <~ write_to TreeHeader_codec (mkTreeHeader (N.of_nat (length entries)) 0) out 0;;
  out <~ write_entries 0 entries out;;
  ok (out, total).

(** One entry of the bytes, with the rules on it; [before] is the entry before it. *)
(** user/k4fmt/src/lib.rs:340-362 [decode_tree, the loop body] *)
Definition decode_entry (bytes : list N) (index : nat) (before : option Binding) :
    FormatError + Binding :=
  match read_from TreeEntry_codec bytes (TreeHeader.SIZE + index * TreeEntry.SIZE) with
  | None => inl TooSmall
  | Some raw =>
      let name_len := N.to_nat (te_name_len raw) in
      if bool_decide (32 < name_len)%nat || negb (bool_decide (te_reserved0 raw = 0)) then inl OutOfRange
      else if existsb (λ byte, negb (bool_decide (byte = 0))) (drop name_len (te_name raw))
      then inl BadName
      else if negb (legal_name (take name_len (te_name raw))) then inl BadName
      else
        let b := mkBinding (te_name raw) name_len (te_child_type raw) (te_flags raw)
                   (te_length raw) (te_digest raw) in
        match before with
        | Some p =>
            if negb (bytes_lt (take (bd_name_len p) (bd_name p)) (take name_len (te_name raw)))
            then inl NotCanonical else inr b
        | None => inr b
        end
  end.

(** user/k4fmt/src/lib.rs:339-363 [decode_tree, the loop] *)
Fixpoint decode_entries (bytes : list N) (count index : nat) (before : option Binding) :
    FormatError + list Binding :=
  match count with
  | O => inr []
  | S count =>
      match decode_entry bytes index before with
      | inl e => inl e
      | inr b =>
          match decode_entries bytes count (S index) (Some b) with
          | inl e => inl e
          | inr rest => inr (b :: rest)
          end
      end
  end.

(** The entries written to the front of the output, which holds [room]. *)
(** user/k4fmt/src/lib.rs:330-365 [decode_tree] *)
Definition decode_tree (bytes : list N) (room : nat) : FormatError + list Binding :=
  match read_from TreeHeader_codec bytes 0 with
  | None => inl TooSmall
  | Some header =>
      let count := th_entry_count header in
      if negb (bool_decide (th_reserved0 header = 0)) ||
         bool_decide (geometry.MAX_TREE_ENTRIES < count) || bool_decide (N.of_nat room < count)
      then inl OutOfRange
      else if negb (bool_decide (length bytes = TreeHeader.SIZE + N.to_nat count * TreeEntry.SIZE)%nat)
      then inl OutOfRange
      else decode_entries bytes (N.to_nat count) 0 None
  end.

(** ** Records *)

(** user/k4fmt/src/lib.rs:369-380 [RecordFrame] *)
Record RecordFrame := mkRecordFrame {
  rf_kind : N;
  rf_sequence : N;
  rf_store_epoch : N;
  rf_arena : N;
  rf_prev_digest : list N
}.

(** user/k4fmt/src/lib.rs:400-415 [frame_record, the header] *)
Definition frame_header (frame : RecordFrame) (payload : list N) (blocks : nat) : RecordHeader :=
  let header := mkRecordHeader magic.RECORD FORMAT_MAJOR FORMAT_MINOR (rf_kind frame)
    (rf_sequence frame) (rf_store_epoch frame) (N.of_nat (length payload)) (N.of_nat blocks)
    (rf_arena frame) 0 0 (rf_prev_digest frame) (replicate 32 0) in
  header <| rh_digest := record_digest header payload |>.

(** user/k4fmt/src/lib.rs:387-420 [frame_record]. The buffer, the blocks written and the
    digest. *)
Definition frame_record (out : list N) (frame : RecordFrame) (payload : list N) :
    Res (list N * (nat * list N)) :=
  let total := (RecordHeader.SIZE + length payload)%nat in
  let blocks := N.to_nat (div_ceil (N.of_nat total) geometry.BLOCK_SIZE) in
  if decide (geometry.RECORD_MAX_BLOCKS < N.of_nat blocks) then refuse OutOfRange else
  if decide (length out < blocks * BLOCK)%nat then refuse TooSmall else
  let header := frame_header frame payload blocks in
  let out := splice 0 (replicate (blocks * BLOCK) 0) out in
  out <~ write_to RecordHeader_codec header out 0;;
  ok (splice RecordHeader.SIZE payload out, (blocks, rh_digest header)).

(** user/k4fmt/src/lib.rs:424-431 [ParsedRecord] *)
Record ParsedRecord := mkParsedRecord {
  pr_header : RecordHeader;
  pr_payload_offset : nat;
  pr_payload_len : nat
}.
(** user/k4fmt/src/lib.rs:435-437 [ParsedRecord::payload], its range in the span *)
Definition record_payload (r : ParsedRecord) (span : list N) : list N :=
  slice (pr_payload_offset r) (pr_payload_len r) span.

(** user/k4fmt/src/lib.rs:446-472 [parse_record] *)
Definition parse_record (span : list N) : option ParsedRecord :=
  header ← read_from RecordHeader_codec span 0;
  if negb (bool_decide (rh_magic header = magic.RECORD)) ||
     negb (bool_decide (rh_format_major header = FORMAT_MAJOR)) then None else
  let blocks := rh_block_count header in
  if bool_decide (blocks = 0) || bool_decide (geometry.RECORD_MAX_BLOCKS < blocks) then None else
  extent ← checked_mul 64 blocks geometry.BLOCK_SIZE;
  if bool_decide (N.of_nat (length span) < extent) then None else
  let payload_len := rh_payload_len header in
  last ← checked_add 64 (N.of_nat RecordHeader.SIZE) payload_len;
  if bool_decide (extent < last) then None else
  let payload := slice RecordHeader.SIZE (N.to_nat payload_len) span in
  if negb (bool_decide (rh_digest header = record_digest header payload)) then None else
  Some (mkParsedRecord header RecordHeader.SIZE (N.to_nat payload_len)).

(** user/k4fmt/src/lib.rs:475-484 [parse_superblock] *)
Definition parse_superblock (block : list N) : option StoreSuperblock :=
  decoded ← read_from StoreSuperblock_codec block 0;
  if negb (bool_decide (sb_magic decoded = magic.SUPERBLOCK)) ||
     negb (bool_decide (sb_format_major decoded = FORMAT_MAJOR)) then None else
  if negb (bool_decide (sb_digest decoded = superblock_digest decoded)) then None else
  Some decoded.

(** user/k4fmt/src/lib.rs:487-496 [parse_harness] *)
Definition parse_harness (block : list N) : option HarnessDirective :=
  decoded ← read_from HarnessDirective_codec block 0;
  if negb (bool_decide (hd_magic decoded = magic.HARNESS)) then None else
  if negb (bool_decide (hd_digest decoded = harness_digest decoded)) then None else
  Some decoded.
