(* ===== verification/K4FormatProofs.v ===== *)
(** * The durable store's encoders: the proofs

    Reading back what was written, the trees, the records and what a digest binds. *)

From S2P Require Import Prelude Bytes Sha256 K4Layout K4Golden K4Format.

#[local] Open Scope N_scope.

(** ** Buffers *)

Lemma write_to_ok {A} (c : Codec A) a out offset :
  (offset + cd_size c <= length out)%nat → N.of_nat (length out) <= U64_MAX →
  write_to c a out offset = ok (splice offset (cd_bytes c a) out).
Proof.
  intros Hlen Hmax. unfold write_to. rewrite decide_False by lia. by rewrite decide_False by lia.
Qed.

Lemma write_to_inv {A} (c : Codec A) a out offset out' :
  write_to c a out offset = ok out' →
  (offset + cd_size c <= length out)%nat ∧ out' = splice offset (cd_bytes c a) out.
Proof.
  unfold write_to, ok, refuse. case_decide; [done|]. case_decide; [done|]. intros [= <-]. split; [lia|done].
Qed.

Lemma read_from_at {A} (c : Codec A) `{!Layout c} a bytes offset :
  cd_fits c a → (offset + cd_size c <= length bytes)%nat →
  slice offset (cd_size c) bytes = cd_bytes c a → read_from c bytes offset = Some a.
Proof.
  intros Ha Hlen Hs. unfold read_from. rewrite decide_False by lia. by rewrite Hs, ly_value.
Qed.

Lemma read_from_inv {A} (c : Codec A) `{!Layout c} bytes offset a :
  bytes_ok bytes → read_from c bytes offset = Some a →
  (offset + cd_size c <= length bytes)%nat ∧ cd_fits c a ∧ slice offset (cd_size c) bytes = cd_bytes c a.
Proof.
  unfold read_from. intros Hok. case_decide as Hl; [done|]. intros [= <-].
  assert (length (slice offset (cd_size c) bytes) = cd_size c) as Hlen by (apply slice_len; lia).
  assert (bytes_ok (slice offset (cd_size c) bytes)) as Hs by by apply slice_ok.
  split; [lia|]. split; [by apply ly_fits|]. by rewrite ly_bytes.
Qed.

(** Writing leaves the bytes around alone. *)
Lemma slice_splice_other from len at_ new bytes :
  (at_ + length new <= length bytes)%nat →
  (from + len <= at_ ∨ at_ + length new <= from)%nat →
  slice from len (splice at_ new bytes) = slice from len bytes.
Proof.
  intros Hb Hd. apply list_eq. intros i. unfold slice. destruct (decide (i < len)%nat) as [Hi|Hi].
  2: { by rewrite !lookup_take_ge by lia. }
  rewrite !lookup_take_lt, !lookup_drop by done. unfold splice.
  destruct Hd as [Hd|Hd].
  - rewrite lookup_app_l by (rewrite length_take; lia). by apply lookup_take_lt; lia.
  - rewrite lookup_app_r by (rewrite length_take; lia).
    rewrite lookup_app_r by (rewrite length_take; lia). rewrite length_take, lookup_drop. f_equal. lia.
Qed.

(** Two writes side by side are one write. *)
Lemma splice_splice at_ a b bytes :
  (at_ + length a + length b <= length bytes)%nat →
  splice (at_ + length a) b (splice at_ a bytes) = splice at_ (a ++ b) bytes.
Proof.
  intros H. unfold splice at 1. rewrite take_splice by lia. unfold splice.
  rewrite <-!app_assoc. do 3 f_equal.
  rewrite app_assoc, drop_app_ge by (rewrite length_app, length_take; lia).
  rewrite drop_drop, !length_app, length_take. f_equal. lia.
Qed.

(** A write over the front of what was written. *)
Lemma splice_over a b bytes :
  (length a <= length b)%nat → splice 0 a (splice 0 b bytes) = splice 0 (a ++ drop (length a) b) bytes.
Proof.
  intros H. change (a ++ drop (length a) (b ++ drop (length b) bytes) =
    (a ++ drop (length a) b) ++ drop (length (a ++ drop (length a) b)) bytes).
  rewrite (drop_app_le b) by done. rewrite length_app, length_drop, <-app_assoc. do 3 f_equal. lia.
Qed.

Lemma take_image image bytes :
  (length image <= length bytes)%nat → take (length image) (splice 0 image bytes) = image.
Proof. intros H. apply (take_splice 0 image bytes). lia. Qed.

Lemma slice_mid pre x post len : length x = len → slice (length pre) len (pre ++ x ++ post) = x.
Proof. intros <-. unfold slice. by rewrite drop_app_length, take_app_length. Qed.

(** ** Trees *)

(** A binding as [Binding::new] builds it: its fields fit their widths, and the name
    is padded with zeros. *)
Definition binding_ok (b : Binding) : Prop :=
  cd_fits TreeEntry_codec (tree_entry b) ∧ (bd_name_len b <= 32)%nat ∧
  Forall (λ byte, byte = 0) (drop (bd_name_len b) (bd_name b)).

(** The canonical bytes of a tree. *)
Definition tree_image (entries : list Binding) : list N :=
  cd_bytes TreeHeader_codec (mkTreeHeader (N.of_nat (length entries)) 0) ++
  concat (map (λ e, cd_bytes TreeEntry_codec (tree_entry e)) entries).

(** What [encode_tree] and [decode_tree] require of the entries: legal names in
    strictly increasing order. *)
Definition tree_canonical (entries : list Binding) : Prop :=
  check_order entries = ok () ∧ check_names entries = ok ().

Lemma entries_len entries :
  length (concat (map (λ e, cd_bytes TreeEntry_codec (tree_entry e)) entries)) =
  (length entries * TreeEntry.SIZE)%nat.
Proof.
  induction entries as [|e entries IH]; [done|]. cbn [map concat]. rewrite length_app, IH, ly_len. done.
Qed.

Lemma tree_image_len entries :
  length (tree_image entries) = (TreeHeader.SIZE + length entries * TreeEntry.SIZE)%nat.
Proof. unfold tree_image. by rewrite length_app, entries_len, ly_len. Qed.

Lemma write_entries_image entries index out :
  (TreeHeader.SIZE + (index + length entries) * TreeEntry.SIZE <= length out)%nat →
  N.of_nat (length out) <= U64_MAX →
  write_entries index entries out =
  ok (splice (TreeHeader.SIZE + index * TreeEntry.SIZE)
        (concat (map (λ e, cd_bytes TreeEntry_codec (tree_entry e)) entries)) out).
Proof.
  revert index out. induction entries as [|e entries IH]; intros index out Hlen Hmax.
  { cbn [write_entries map concat]. unfold splice. cbn [length app].
    by rewrite Nat.add_0_r, take_drop. }
  cbn [write_entries map concat].
  assert (cd_size TreeEntry_codec = TreeEntry.SIZE) as Hsize by done.
  cbn [length] in Hlen.
  rewrite write_to_ok by (rewrite ?Hsize; lia). cbn [andthen ok].
  rewrite IH by (rewrite splice_len by (rewrite ly_len, Hsize; lia); lia).
  unfold ok. do 2 f_equal.
  rewrite <-splice_splice by (rewrite ly_len, entries_len, Hsize; lia).
  f_equal. rewrite ly_len, Hsize. lia.
Qed.

Lemma encode_tree_image entries out :
  tree_canonical entries → N.of_nat (length entries) <= geometry.MAX_TREE_ENTRIES →
  (length (tree_image entries) <= length out)%nat → N.of_nat (length out) <= U64_MAX →
  encode_tree out entries = ok (splice 0 (tree_image entries) out, length (tree_image entries)).
Proof.
  intros [Horder Hnames] Hmax Hlen Hout. unfold encode_tree. rewrite decide_False by lia.
  rewrite Horder, Hnames. cbn [andthen ok]. rewrite tree_image_len in *.
  rewrite decide_False by lia.
  assert (cd_size TreeHeader_codec = TreeHeader.SIZE) as Hsize by done.
  rewrite write_to_ok by (rewrite ?Hsize; lia). cbn [andthen ok].
  rewrite write_entries_image by (rewrite splice_len by (rewrite ly_len, Hsize; lia); lia).
  cbn [andthen ok]. unfold ok, tree_image. do 3 f_equal.
  rewrite <-splice_splice by (rewrite ly_len, entries_len, Hsize; lia). done.
Qed.

(** What the decoder asks of one entry, and of the entry before it. *)
Definition entry_legal (before : option Binding) (b : Binding) : Prop :=
  legal_name (take (bd_name_len b) (bd_name b)) = true ∧
  match before with
  | Some p => bytes_lt (take (bd_name_len p) (bd_name p)) (take (bd_name_len b) (bd_name b)) = true
  | None => True
  end.

Lemma binding_name b : binding_ok b → Binding.name b = Some (take (bd_name_len b) (bd_name b)).
Proof.
  intros (Hfits & Hlen & _). unfold Binding.name. rewrite decide_True; [done|].
  cbn in Hfits. destruct Hfits as [_ [-> _]]. done.
Qed.

Lemma decode_entry_here bytes index before b :
  binding_ok b → entry_legal before b →
  (TreeHeader.SIZE + index * TreeEntry.SIZE + TreeEntry.SIZE <= length bytes)%nat →
  slice (TreeHeader.SIZE + index * TreeEntry.SIZE) TreeEntry.SIZE bytes = cd_bytes TreeEntry_codec (tree_entry b) →
  decode_entry bytes index before = inr b.
Proof.
  intros (Hfits & Hlen & Hpad) [Hname Hbefore] Hb Hs. unfold decode_entry.
  rewrite (read_from_at _ (tree_entry b)) by done. cbn [tree_entry te_name_len te_reserved0 te_name].
  rewrite Nat2N.id. rewrite bool_decide_false by lia. cbn [orb negb].
  rewrite bool_decide_true by done. cbn [negb].
  assert (existsb (λ byte, negb (bool_decide (byte = 0))) (drop (bd_name_len b) (bd_name b)) = false) as ->.
  { clear -Hpad. induction Hpad as [|x l Hx _ IH]; [done|]. cbn [existsb]. by rewrite IH, bool_decide_true. }
  rewrite Hname. cbn [negb te_child_type te_flags te_length te_digest].
  destruct b, before as [p|]; cbn in *; [|done]. by rewrite Hbefore.
Qed.

Lemma decode_entry_inv bytes index before b :
  bytes_ok bytes → decode_entry bytes index before = inr b →
  binding_ok b ∧ entry_legal before b ∧
  slice (TreeHeader.SIZE + index * TreeEntry.SIZE) TreeEntry.SIZE bytes = cd_bytes TreeEntry_codec (tree_entry b).
Proof.
  intros Hok. unfold decode_entry. destruct (read_from _ _ _) as [raw|] eqn:Hr; [|done].
  apply read_from_inv in Hr as (_ & Hfits & Hs); [|apply _|done].
  destruct (bool_decide (32 < N.to_nat (te_name_len raw))%nat) eqn:H32; [done|].
  apply bool_decide_eq_false in H32.
  destruct (bool_decide (te_reserved0 raw = 0)) eqn:Hres; [|done]. apply bool_decide_eq_true in Hres.
  cbn [orb negb]. destruct (existsb _ _) eqn:Hpad; [done|].
  destruct (legal_name _) eqn:Hname; [|done]. cbn [negb]. intros Hb.
  assert (b = mkBinding (te_name raw) (N.to_nat (te_name_len raw)) (te_child_type raw) (te_flags raw)
                (te_length raw) (te_digest raw) ∧
          match before with
          | Some p => bytes_lt (take (bd_name_len p) (bd_name p)) (take (N.to_nat (te_name_len raw)) (te_name raw)) = true
          | None => True
          end) as [-> Hbefore].
  { destruct before as [p|]; [|by injection Hb as <-]. destruct (bytes_lt _ _) eqn:Hlt; [|done].
    cbn [negb] in Hb. by injection Hb as <-. }
  assert (tree_entry (mkBinding (te_name raw) (N.to_nat (te_name_len raw)) (te_child_type raw)
            (te_flags raw) (te_length raw) (te_digest raw)) = raw) as Hraw.
  { destruct raw; cbn in *. unfold tree_entry; cbn. by rewrite N2Nat.id, Hres. }
  unfold binding_ok, entry_legal. rewrite Hraw. cbn [bd_name bd_name_len].
  split_and!; [done|lia| |done|done|done].
  apply Forall_forall. intros x Hx. destruct (decide (x = 0)) as [|Hn]; [done|].
  exfalso. assert (existsb (λ byte, negb (bool_decide (byte = 0)))
    (drop (N.to_nat (te_name_len raw)) (te_name raw)) = true) as Ht; [|by rewrite Hpad in Ht].
  apply existsb_exists. exists x. split; [by apply list_elem_of_In|]. by rewrite bool_decide_false.
Qed.

(** The rules on a list of entries, one entry at a time. *)
Fixpoint entries_legal (before : option Binding) (entries : list Binding) : Prop :=
  match entries with
  | [] => True
  | b :: entries => entry_legal before b ∧ entries_legal (Some b) entries
  end.

Lemma check_names_legal entries :
  Forall binding_ok entries →
  check_names entries = ok () ↔ Forall (λ b, legal_name (take (bd_name_len b) (bd_name b)) = true) entries.
Proof.
  induction 1 as [|b entries Hb _ IH]; [by split|]. cbn [check_names]. rewrite binding_name by done.
  rewrite Forall_cons, <-IH. destruct (legal_name _); cbn [negb]; [tauto|]. split; [done|]. by intros [? _].
Qed.

Lemma check_order_legal p entries :
  binding_ok p → Forall binding_ok entries →
  check_order (p :: entries) = ok () ∧
  Forall (λ b, legal_name (take (bd_name_len b) (bd_name b)) = true) entries ↔
  entries_legal (Some p) entries.
Proof.
  intros Hp Hok. revert p Hp. induction Hok as [|b entries Hb _ IH]; intros p Hp.
  { split; [done|]. by split; [|constructor]. }
  change (check_order (p :: b :: entries)) with
    (match Binding.name p, Binding.name b with
     | Some na, Some nb => if negb (bytes_lt na nb) then refuse NotCanonical else check_order (b :: entries)
     | _, _ => None
     end).
  cbn [entries_legal]. rewrite !binding_name by done. rewrite <-IH, Forall_cons by done.
  unfold entry_legal. destruct (bytes_lt _ _); cbn [negb]; [tauto|]. split; [by intros [? _]|].
  by intros [[_ ?] _].
Qed.

Lemma canonical_legal entries :
  Forall binding_ok entries → (tree_canonical entries ↔ entries_legal None entries).
Proof.
  intros Hok. unfold tree_canonical. rewrite check_names_legal by done.
  destruct Hok as [|b entries Hb Hok]; [by cbn|]. rewrite Forall_cons. cbn [entries_legal].
  rewrite <-check_order_legal by done. unfold entry_legal. tauto.
Qed.

Lemma concat_split_len (pre : list N) (e : Binding) (entries : list Binding) index :
  length pre = (TreeHeader.SIZE + index * TreeEntry.SIZE)%nat →
  length (pre ++ cd_bytes TreeEntry_codec (tree_entry e)) = (TreeHeader.SIZE + S index * TreeEntry.SIZE)%nat.
Proof. intros H. rewrite length_app, ly_len, H. change (cd_size TreeEntry_codec) with TreeEntry.SIZE. lia. Qed.

Lemma decode_entries_image entries before index pre :
  Forall binding_ok entries → entries_legal before entries →
  length pre = (TreeHeader.SIZE + index * TreeEntry.SIZE)%nat →
  decode_entries (pre ++ concat (map (λ e, cd_bytes TreeEntry_codec (tree_entry e)) entries))
    (length entries) index before = inr entries.
Proof.
  intros Hok. revert before index pre. induction Hok as [|b entries Hb _ IH];
    intros before index pre Hlegal Hpre; [done|].
  destruct Hlegal as [Hlegal Hrest]. cbn [length decode_entries map concat].
  assert (length (cd_bytes TreeEntry_codec (tree_entry b)) = TreeEntry.SIZE) as Hlen by by rewrite ly_len.
  rewrite (decode_entry_here _ _ _ b); [|done|done| |].
  - rewrite app_assoc, IH; [done|done|]. by apply concat_split_len.
  - rewrite !length_app, Hpre, Hlen. lia.
  - rewrite <-Hpre. by apply slice_mid.
Qed.

Lemma decode_entries_inv bytes count index before entries :
  bytes_ok bytes → (TreeHeader.SIZE + (index + count) * TreeEntry.SIZE)%nat = length bytes →
  decode_entries bytes count index before = inr entries →
  length entries = count ∧ Forall binding_ok entries ∧ entries_legal before entries ∧
  drop (TreeHeader.SIZE + index * TreeEntry.SIZE) bytes =
  concat (map (λ e, cd_bytes TreeEntry_codec (tree_entry e)) entries).
Proof.
  intros Hok. revert index before entries.
  induction count as [|count IH]; intros index before entries Hlen; cbn [decode_entries].
  { intros [= <-]. split_and!; [done|constructor|done|]. apply drop_ge. lia. }
  destruct (decode_entry _ _ _) as [|b] eqn:Hb; [done|].
  destruct (decode_entries _ _ _ _) as [|rest] eqn:Hrest; [done|]. intros [= <-].
  apply decode_entry_inv in Hb as (Hb & Hlegal & Hs); [|done].
  apply IH in Hrest as (<- & Hall & Hrest & Hdrop); [|lia].
  split_and!; [done|by constructor|done|]. cbn [map concat]. rewrite <-Hs, <-Hdrop.
  unfold slice. rewrite <-(take_drop TreeEntry.SIZE (drop _ bytes)) at 1. f_equal.
  rewrite drop_drop. f_equal. lia.
Qed.

(** C30. A tree round trips: canonical entries always encode, into exactly the front of
    the buffer, and the decoder gives the same entries back from those bytes. *)
Theorem tree_round_trip (entries : list Binding) (out : list N) (room : nat)
    (Hok : Forall binding_ok entries) (Hcanon : tree_canonical entries)
    (Hmax : N.of_nat (length entries) <= geometry.MAX_TREE_ENTRIES)
    (Hroom : (length entries <= room)%nat)
    (Hout : (TreeHeader.SIZE + length entries * TreeEntry.SIZE <= length out)%nat)
    (Hwidth : N.of_nat (length out) <= U64_MAX) :
  ∃ out' total,
    encode_tree out entries = ok (out', total) ∧
    total = (TreeHeader.SIZE + length entries * TreeEntry.SIZE)%nat ∧
    drop total out' = drop total out ∧
    decode_tree (take total out') room = inr entries.
Proof.
  rewrite <-tree_image_len in Hout. eexists _, _. split; [by apply encode_tree_image|].
  split; [apply tree_image_len|]. rewrite take_image by done. split.
  { apply (drop_app_length (tree_image entries)). }
  unfold decode_tree.
  rewrite (read_from_at _ (mkTreeHeader (N.of_nat (length entries)) 0)).
  2: { cbn. unfold geometry.MAX_TREE_ENTRIES in Hmax. lia. }
  2: { rewrite tree_image_len. cbn. lia. }
  2: { apply (slice_mid []). apply ly_len. }
  cbn [th_reserved0 th_entry_count]. rewrite bool_decide_true by done.
  rewrite !bool_decide_false by lia. cbn [negb orb]. rewrite Nat2N.id, bool_decide_true by apply tree_image_len.
  cbn [negb]. apply (decode_entries_image entries None 0); [done|by apply canonical_legal|by rewrite ly_len].
Qed.

(** C31. Trees are canonical: bytes the decoder accepts are the one image of the
    entries it returns, and the very bytes the encoder writes for them, so one version
    has one digest. *)
Theorem tree_bytes_canonical (bytes : list N) (room : nat) (entries : list Binding) (out : list N)
    (Hbytes : bytes_ok bytes) (Hdecode : decode_tree bytes room = inr entries)
    (Hout : (length bytes <= length out)%nat) (Hwidth : N.of_nat (length out) <= U64_MAX) :
  bytes = tree_image entries ∧
  ∃ out', encode_tree out entries = ok (out', length bytes) ∧ take (length bytes) out' = bytes.
Proof.
  unfold decode_tree in Hdecode. destruct (read_from _ _ _) as [header|] eqn:Hr; [|done].
  apply read_from_inv in Hr as (_ & _ & Hs); [|apply _|done].
  destruct (bool_decide (th_reserved0 header = 0)) eqn:Hres; [|done]. apply bool_decide_eq_true in Hres.
  destruct (bool_decide (geometry.MAX_TREE_ENTRIES < _)) eqn:Hmax; [done|].
  apply bool_decide_eq_false in Hmax. destruct (bool_decide (N.of_nat room < _)); [done|].
  cbn [negb orb] in Hdecode.
  destruct (bool_decide (length bytes = _)) eqn:Hlen; [|done]. apply bool_decide_eq_true in Hlen.
  cbn [negb] in Hdecode. apply decode_entries_inv in Hdecode as (Hn & Hok & Hlegal & Hdrop); [|done|lia].
  assert (tree_image entries = bytes) as Himage.
  { unfold tree_image. rewrite <-Hdrop. replace (mkTreeHeader _ 0) with header.
    - rewrite <-Hs. unfold slice. cbn [drop]. change (TreeHeader.SIZE + 0 * TreeEntry.SIZE)%nat
        with (cd_size TreeHeader_codec). apply take_drop.
    - destruct header; cbn in *. f_equal; [lia|done]. }
  split; [done|]. eexists. rewrite <-Himage in *. split; [|by apply take_image].
  apply encode_tree_image; [by apply canonical_legal| |done|done]. rewrite Hn. lia.
Qed.

(** ** What a digest binds *)

(** Two different messages with one digest. *)
Definition collision : Prop := ∃ a b, a ≠ b ∧ sha256 a = sha256 b.

Lemma hash_sha256 parts : hash parts = sha256 (concat parts).
Proof. unfold hash. by rewrite finish_updates. Qed.

(** From here a hash is never computed. *)
#[local] Opaque hash sha256 le_bytes.

Lemma hash_binds a b : hash a = hash b → concat a = concat b ∨ collision.
Proof.
  rewrite !hash_sha256. intros H. destruct (decide (concat a = concat b)); [by left|right].
  by exists (concat a), (concat b).
Qed.

Lemma le_bytes_inj w x y : x < 256 ^ N.of_nat w → y < 256 ^ N.of_nat w → le_bytes w x = le_bytes w y → x = y.
Proof. intros Hx Hy H. by rewrite <-(le_value_bytes w x), H, le_value_bytes. Qed.
Lemma le_bytes_inj4 x y : x < 2 ^ 32 → y < 2 ^ 32 → le_bytes 4 x = le_bytes 4 y → x = y.
Proof. intros Hx Hy. by apply le_bytes_inj. Qed.
Lemma le_bytes_inj8 x y : x < 2 ^ 64 → y < 2 ^ 64 → le_bytes 8 x = le_bytes 8 y → x = y.
Proof. intros Hx Hy. by apply le_bytes_inj. Qed.

(** The fields of two equal messages, when the first field has one length in both. *)
Lemma peel_le w x y (a b : list N) :
  le_bytes w x ++ a = le_bytes w y ++ b → le_bytes w x = le_bytes w y ∧ a = b.
Proof. intros H. apply app_inj_1 in H; [done|]. by rewrite !le_bytes_len. Qed.
Lemma peel_raw n (x y a b : list N) : length x = n → length y = n → x ++ a = y ++ b → x = y ∧ a = b.
Proof. intros Hx Hy H. apply app_inj_1 in H; [done|congruence]. Qed.

(** An object's digest binds its type and its content: two objects with one
    digest are the same object, or they exhibit a collision of SHA-256. In
    particular no object is an extension of another, and an empty byte object is not
    an empty tree. *)
Theorem object_digest_binds (t1 t2 : N) (c1 c2 : list N)
    (Ht1 : t1 < 2 ^ 32) (Ht2 : t2 < 2 ^ 32)
    (Hc1 : N.of_nat (length c1) < 2 ^ 64) (Hc2 : N.of_nat (length c2) < 2 ^ 64)
    (Hsame : object_digest t1 c1 = object_digest t2 c2) :
  (t1 = t2 ∧ c1 = c2) ∨ collision.
Proof.
  unfold object_digest in Hsame. apply hash_binds in Hsame as [H|]; [left|by right]. cbn [concat] in H. rewrite !app_nil_r in H.
  apply app_inv_head in H. apply peel_le in H as [Ht H]. apply app_inv_head, peel_le in H as [_ H].
  split; [by apply le_bytes_inj4|done].
Qed.

(** What a request's digest covers. *)
Record Request := mkRequest {
  q_principal : N; q_sequence : N; q_op : N; q_expected_generation : N;
  q_candidate_root : list N; q_policy_digest : list N; q_validation_digest : list N;
  q_outbox_target : N; q_outbox_payload_digest : list N
}.
Definition digest_of (q : Request) : list N :=
  request_digest (q_principal q) (q_sequence q) (q_op q) (q_expected_generation q)
    (q_candidate_root q) (q_policy_digest q) (q_validation_digest q) (q_outbox_target q)
    (q_outbox_payload_digest q).
Record request_fits (q : Request) : Prop := {
  qf_principal : q_principal q < 2 ^ 64;
  qf_sequence : q_sequence q < 2 ^ 64;
  qf_op : q_op q < 2 ^ 32;
  qf_generation : q_expected_generation q < 2 ^ 64;
  qf_candidate : length (q_candidate_root q) = 32%nat;
  qf_policy : length (q_policy_digest q) = 32%nat;
  qf_validation : length (q_validation_digest q) = 32%nat;
  qf_target : q_outbox_target q < 2 ^ 64;
  qf_payload : length (q_outbox_payload_digest q) = 32%nat
}.


(** ** Records *)

Lemma record_digest_shape header payload :
  length (record_digest header payload) = 32%nat ∧ bytes_ok (record_digest header payload).
Proof. unfold record_digest. rewrite hash_sha256. split; [apply sha256_len|apply sha256_ok]. Qed.

(** The bytes before the last field do not depend on it. *)
Lemma take_both {A B} (a : Codec A) (b : Codec B) `{!Layout a} x :
  take (cd_size a) (cd_bytes (a ⊗ b) x) = cd_bytes a x.1.
Proof. cbn. by rewrite take_app_length' by by rewrite ly_len. Qed.

(** The digest field is not in its own preimage. *)
Lemma record_digest_ignores header digest payload :
  record_digest (header <| rh_digest := digest |>) payload = record_digest header payload.
Proof.
  assert (take RecordHeader.OFFSET_DIGEST (cd_bytes RecordHeader_codec (header <| rh_digest := digest |>)) =
          take RecordHeader.OFFSET_DIGEST (cd_bytes RecordHeader_codec header)) as Hprefix.
  { unfold RecordHeader_codec, via. cbn [cd_bytes].
    match goal with |- context [?a ⊗ raw 32] => change RecordHeader.OFFSET_DIGEST with (cd_size a) end.
    rewrite !take_both by apply _. by destruct header. }
  unfold record_digest. by rewrite Hprefix.
Qed.

(** What a frame holds fits its widths. *)
Record frame_fits (frame : RecordFrame) : Prop := {
  ff_kind : rf_kind frame < 2 ^ 32;
  ff_sequence : rf_sequence frame < 2 ^ 64;
  ff_epoch : rf_store_epoch frame < 2 ^ 64;
  ff_arena : rf_arena frame < 2 ^ 32;
  ff_prev_len : length (rf_prev_digest frame) = 32%nat;
  ff_prev : bytes_ok (rf_prev_digest frame)
}.

(** One block holds every record: the header and up to this many bytes. *)
Definition RECORD_ROOM : nat := BLOCK - RecordHeader.SIZE.

Lemma frame_header_fits frame payload :
  frame_fits frame → N.of_nat (length payload) < 2 ^ 64 →
  cd_fits RecordHeader_codec (frame_header frame payload 1).
Proof.
  intros [] Hlen. pose proof (record_digest_shape) as Hd. unfold frame_header.
  set (header := mkRecordHeader _ _ _ _ _ _ _ _ _ _ _ _ _). destruct (Hd header payload) as [Hl Ho].
  set (d := record_digest header payload) in *. clearbody d. subst header.
  cbn. split_and!; try done. by repeat constructor.
Qed.

(** The block a record becomes. *)
Definition record_image (header : RecordHeader) (payload : list N) : list N :=
  cd_bytes RecordHeader_codec header ++ payload ++ replicate (RECORD_ROOM - length payload) 0.

Lemma record_image_len header payload :
  (length payload <= RECORD_ROOM)%nat → length (record_image header payload) = BLOCK.
Proof.
  intros H. unfold record_image. rewrite !length_app, ly_len, length_replicate.
  change (cd_size RecordHeader_codec) with 128%nat. change BLOCK with (128 + RECORD_ROOM)%nat. lia.
Qed.

Lemma frame_record_image out frame payload :
  (length payload <= RECORD_ROOM)%nat → (BLOCK <= length out)%nat → N.of_nat (length out) <= U64_MAX →
  frame_record out frame payload =
  ok (splice 0 (record_image (frame_header frame payload 1) payload) out,
      (1%nat, rh_digest (frame_header frame payload 1))).
Proof.
  intros Hp Hout Hmax. unfold frame_record.
  assert (cd_size RecordHeader_codec = 128%nat) as Hsize by done.
  assert (BLOCK = 128 + RECORD_ROOM)%nat as Hblock by done.
  assert (RECORD_ROOM = 3968)%nat as Hroom by done.
  assert (div_ceil (N.of_nat (RecordHeader.SIZE + length payload)) geometry.BLOCK_SIZE = 1) as ->.
  { unfold div_ceil, geometry.BLOCK_SIZE, RecordHeader.SIZE.
    symmetry. apply (N.div_unique _ _ _ (127 + N.of_nat (length payload))); lia. }
  change (N.to_nat 1) with 1%nat. rewrite Nat.mul_1_l. cbn [N.of_nat].
  rewrite decide_False by (unfold geometry.RECORD_MAX_BLOCKS; lia). rewrite decide_False by lia.
  set (header := frame_header frame payload 1). clearbody header.
  rewrite write_to_ok by (rewrite splice_len; rewrite ?length_replicate, ?Hsize; lia).
  cbn [andthen ok]. unfold ok. do 3 f_equal.
  change RecordHeader.SIZE with (0 + cd_size RecordHeader_codec)%nat.
  rewrite <-(ly_len (c := RecordHeader_codec) header).
  rewrite splice_splice.
  2: { rewrite splice_len by (rewrite length_replicate; lia). rewrite ly_len, Hsize. lia. }
  assert (length (cd_bytes RecordHeader_codec header ++ payload) = (128 + length payload)%nat) as Hfront.
  { by rewrite length_app, ly_len. }
  rewrite splice_over by (rewrite Hfront, length_replicate; lia). unfold record_image.
  rewrite Hfront, drop_replicate, <-app_assoc.
  by replace (BLOCK - (128 + length payload))%nat with (RECORD_ROOM - length payload)%nat by lia.
Qed.

(** A span that starts with a framed record parses to it. *)
Lemma parse_framed span frame payload :
  frame_fits frame → (length payload <= RECORD_ROOM)%nat →
  take BLOCK span = record_image (frame_header frame payload 1) payload →
  parse_record span = Some (mkParsedRecord (frame_header frame payload 1) RecordHeader.SIZE (length payload)) ∧
  slice RecordHeader.SIZE (length payload) span = payload.
Proof.
  intros Hframe Hlen Hspan. set (header := frame_header frame payload 1) in *.
  pose proof (record_image_len header payload Hlen) as Himage.
  assert (BLOCK <= length span)%nat as Hblock.
  { apply (f_equal length) in Hspan. rewrite length_take, Himage in Hspan. lia. }
  assert (span = record_image header payload ++ drop BLOCK span) as Hsplit by by rewrite <-Hspan, take_drop.
  assert (slice RecordHeader.SIZE (length payload) span = payload) as Hslice.
  { rewrite Hsplit. unfold record_image. rewrite <-!app_assoc.
    change RecordHeader.SIZE with (cd_size RecordHeader_codec).
    rewrite <-(ly_len (c := RecordHeader_codec) header). by apply slice_mid. }
  split; [|exact Hslice].
  change BLOCK with 4096%nat in *. change RECORD_ROOM with 3968%nat in *.
  unfold parse_record. rewrite (read_from_at _ header).
  2: { apply frame_header_fits; [done|lia]. }
  2: { change (0 + cd_size RecordHeader_codec)%nat with 128%nat. lia. }
  2: { rewrite Hsplit. unfold record_image. rewrite <-!app_assoc. apply (slice_mid []), ly_len. }
  cbn [mbind option_bind].
  replace (rh_magic header) with magic.RECORD by done.
  replace (rh_format_major header) with FORMAT_MAJOR by done.
  replace (rh_block_count header) with 1 by done.
  replace (rh_payload_len header) with (N.of_nat (length payload)) by done.
  rewrite !bool_decide_true by done. cbn [negb orb].
  change (checked_mul 64 1 geometry.BLOCK_SIZE) with (Some 4096). cbn [mbind option_bind].
  rewrite (bool_decide_false (1 = 0)) by done.
  rewrite (bool_decide_false (geometry.RECORD_MAX_BLOCKS < 1)) by done. cbn [orb].
  rewrite bool_decide_false by lia.
  assert (checked_add 64 (N.of_nat RecordHeader.SIZE) (N.of_nat (length payload)) =
          Some (128 + N.of_nat (length payload))) as ->.
  { unfold checked_add. change (N.of_nat RecordHeader.SIZE) with 128. rewrite decide_True; [done|]. lia. }
  cbn [mbind option_bind]. rewrite bool_decide_false by lia. rewrite Nat2N.id, Hslice.
  rewrite bool_decide_true; [done|]. unfold header, frame_header. cbv zeta. by rewrite record_digest_ignores.
Qed.

Lemma frame_record_long out frame payload :
  (RECORD_ROOM < length payload)%nat → frame_record out frame payload = refuse OutOfRange.
Proof.
  intros Hlen. unfold frame_record. rewrite decide_True; [done|]. unfold div_ceil.
  change RecordHeader.SIZE with 128%nat. change RECORD_ROOM with 3968%nat in Hlen.
  unfold geometry.RECORD_MAX_BLOCKS, geometry.BLOCK_SIZE.
  apply N.lt_le_trans with 2; [done|]. rewrite N2Nat.id. apply N.div_le_lower_bound; lia.
Qed.

(** C29. A record round trips. A payload that fits the block becomes one block at the
    front of the buffer, and any span that starts with that block parses to a record
    with the frame's fields, the digest [frame_record] returned and that payload;
    the rest of the buffer is untouched. A longer payload is refused. *)
Theorem record_round_trip (out : list N) (frame : RecordFrame) (payload : list N)
    (Hframe : frame_fits frame) (Hpayload : bytes_ok payload)
    (Hout : (BLOCK <= length out)%nat) (Hwidth : N.of_nat (length out) <= U64_MAX) :
  if decide (length payload <= RECORD_ROOM)%nat then
    ∃ out' r,
      frame_record out frame payload = ok (out', (1%nat, rh_digest (pr_header r))) ∧
      drop BLOCK out' = drop BLOCK out ∧
      (∀ span, take BLOCK span = take BLOCK out' →
         parse_record span = Some r ∧ record_payload r span = payload) ∧
      rh_kind (pr_header r) = rf_kind frame ∧ rh_sequence (pr_header r) = rf_sequence frame ∧
      rh_store_epoch (pr_header r) = rf_store_epoch frame ∧ rh_arena (pr_header r) = rf_arena frame ∧
      rh_prev_digest (pr_header r) = rf_prev_digest frame
  else frame_record out frame payload = refuse OutOfRange.
Proof.
  case_decide as Hlen; [|by apply frame_record_long; lia].
  set (header := frame_header frame payload 1).
  exists (splice 0 (record_image header payload) out), (mkParsedRecord header RecordHeader.SIZE (length payload)).
  pose proof (record_image_len header payload Hlen) as Himage.
  split; [by apply frame_record_image|].
  split; [rewrite <-Himage; apply (drop_app_length (record_image header payload))|].
  split; [|done]. intros span Hspan. rewrite <-Himage, take_image, Himage in Hspan by lia.
  by apply parse_framed.
Qed.

(** ** Instances *)

Definition sample_tree : list Binding :=
  [mkBinding ([97] ++ replicate 31 0) 1 1 0 4 (replicate 32 7);
   mkBinding ([97; 98] ++ replicate 30 0) 2 2 1 8 (replicate 32 9)].

(** Closes the goals about widths and bytes of a concrete value. *)
Ltac concrete := cbn; repeat first [split | constructor | done].

Lemma sample_tree_ok : Forall binding_ok sample_tree ∧ tree_canonical sample_tree.
Proof. split; [|by vm_compute]. unfold binding_ok. concrete. Qed.

Lemma tree_round_trip_witness : decode_tree (tree_image sample_tree) 12 = inr sample_tree ∧
  ∃ out' total, encode_tree (replicate 512 0) sample_tree = ok (out', total) ∧
    decode_tree (take total out') 12 = inr sample_tree.
Proof.
  split; [by vm_compute|].
  destruct (tree_round_trip sample_tree (replicate 512 0) 12) as (out' & total & He & _ & _ & Hd).
  - apply sample_tree_ok.
  - apply sample_tree_ok.
  - done.
  - cbn; lia.
  - rewrite length_replicate. cbn. lia.
  - done.
  - by exists out', total.
Defined.

Lemma tree_bytes_canonical_witness : tree_image sample_tree = tree_image sample_tree ∧ ∃ out',
  encode_tree (replicate 512 0) sample_tree = ok (out', 184%nat) ∧ take 184 out' = tree_image sample_tree.
Proof.
  apply (tree_bytes_canonical (tree_image sample_tree) 12 sample_tree (replicate 512 0)).
  - cbn. repeat constructor.
  - by vm_compute.
  - rewrite length_replicate. vm_compute. lia.
  - done.
Defined.

Lemma object_digest_binds_witness : object_digest 1 [] = object_digest 1 [] ∧ ((1 = 1 ∧ @nil N = []) ∨ collision).
Proof. split; [done|]. by apply object_digest_binds. Defined.

Definition sample_request : Request :=
  mkRequest 2 5 6 7 (replicate 32 1) (replicate 32 2) (replicate 32 3) 0 (replicate 32 0).


Definition sample_frame : RecordFrame := mkRecordFrame record_kind.OBJECT 2 1 0 (replicate 32 5).

Lemma record_round_trip_witness : ∃ out' r,
  frame_record (replicate 4096 0) sample_frame [1; 2; 3] = ok (out', (1%nat, rh_digest (pr_header r))) ∧
  parse_record out' = Some r ∧ record_payload r out' = [1; 2; 3].
Proof.
  destruct (record_round_trip (replicate 4096 0) sample_frame [1; 2; 3]) as (out' & r & He & _ & Hp & _).
  - split; [done..|]. repeat constructor.
  - repeat constructor.
  - rewrite length_replicate. change BLOCK with 4096%nat. lia.
  - done.
  - exists out', r. split; [exact He|]. by apply Hp.
Defined.
