(* ===== verification/K4Verify.v ===== *)
(** * The check of the golden vectors

    [verify_golden] of [user/k4fmt/src/lib.rs]: the guest rebuilds every vector the
    host pinned with its own encoders and counts the disagreements. Run here, with
    the encoders of K4Format, against the bytes of K4Golden. *)

From S2P Require Import Prelude Bytes Sha256 K4Layout K4Golden K4Format K4FormatProofs.
From stdpp Require Import strings.

#[local] Open Scope N_scope.

(** user/k4fmt/src/lib.rs:500-507 [GoldenReport] *)
Record GoldenReport := mkGoldenReport {
  checked : N;
  failed : N;
  first_failure : N
}.

(** user/k4fmt/src/lib.rs:515-515 [GOLDEN_SCRATCH_BLOCKS] *)
Definition GOLDEN_SCRATCH_BLOCKS : nat := 4.

(** user/k4fmt/src/lib.rs:517-521 [Golden] *)
Record Golden := mkGolden {
  gd_framing : list N;
  gd_block : list N;
  gd_report : GoldenReport
}.

(** The three lines every comparison shares: one more checked, and one more failed
    when the vector disagrees. *)
(** user/k4fmt/src/lib.rs:525-531 [Golden::compare, the counting] *)
Definition count (agrees : bool) (r : GoldenReport) : GoldenReport :=
  let checked := checked r + 1 in
  if agrees then mkGoldenReport checked (failed r) (first_failure r)
  else mkGoldenReport checked (failed r + 1)
         (if bool_decide (first_failure r = 0) then checked else first_failure r).

(** A step of the check: the state it leaves and its result, [None] for a panic. *)
Definition G (A : Type) : Type := Golden → option (Golden * A).
Definition gret {A} (a : A) : G A := λ s, Some (s, a).
Definition gbind {A B} (m : G A) (k : A → G B) : G B :=
  λ s, match m s with Some (s, a) => k a s | None => None end.
Notation "x '<-g' m ';;' k" := (gbind m (λ x, k))
  (at level 100, m at next level, k at level 200, right associativity).
(** A step that cannot be refused. *)
Definition glift {A} (r : option A) : G A := λ s, option_map (λ a, (s, a)) r.
(** [let _ = value.write_to(out, at)]: the buffer as it is left. *)
Definition written {A} (c : Codec A) (a : A) (out : list N) (offset : nat) : option (list N) :=
  match write_to c a out offset with
  | Some (inr out) => Some out
  | Some (inl _) => Some out
  | None => None
  end.

Module Golden.
(** user/k4fmt/src/lib.rs:524-532 [Golden::compare] *)
Definition compare (produced expected digest want : list N) : G () :=
  λ s, Some (mkGolden (gd_framing s) (gd_block s)
    (count (bool_decide (produced = expected) && bool_decide (digest = want)) (gd_report s)), ()).
(** user/k4fmt/src/lib.rs:534-537 [Golden::object] *)
Definition object (object_type : N) (content bytes want : list N) : G () :=
  compare content bytes (object_digest object_type content) want.
(** user/k4fmt/src/lib.rs:539-545 [Golden::fail] *)
Definition fail : G () :=
  λ s, Some (mkGolden (gd_framing s) (gd_block s) (count false (gd_report s)), ()).
(** user/k4fmt/src/lib.rs:547-570 [Golden::record] *)
Definition record (frame : RecordFrame) (payload bytes want : list N) : G (list N) :=
  λ s, match frame_record (gd_framing s) frame payload with
  | Some (inr (framing, (blocks, digest))) =>
      let agrees := bool_decide (take (blocks * BLOCK) framing = bytes) && bool_decide (digest = want) in
      Some (mkGolden framing (gd_block s) (count agrees (gd_report s)), digest)
  | Some (inl _) => gbind fail (λ _, gret (replicate 32 0)) s
  | None => None
  end.
(** user/k4fmt/src/lib.rs:572-588 [Golden::superblock] *)
Definition superblock (block : StoreSuperblock) (bytes want : list N) : G () :=
  λ s,
    let block := block <| sb_magic := magic.SUPERBLOCK |> <| sb_format_major := FORMAT_MAJOR |>
                       <| sb_format_minor := FORMAT_MINOR |> <| sb_block_size := geometry.BLOCK_SIZE |> in
    let block := block <| sb_digest := superblock_digest block |> in
    match written StoreSuperblock_codec block (replicate (length (gd_block s)) 0) 0 with
    | None => None
    | Some out =>
        let agrees := bool_decide (out = bytes) && bool_decide (sb_digest block = want) in
        Some (mkGolden (gd_framing s) out (count agrees (gd_report s)), ())
    end.
End Golden.

(** ** What the vectors are built from *)

(** A byte string literal. *)
Definition literal (s : string) : list N := map Ascii.N_of_ascii (String.list_ascii_of_string s).

(** user/k4fmt/src/lib.rs:620-620 [verify_golden, alpha] *)
Definition alpha : list N := literal "alpha bytes for the k4 golden vectors" ++ [10].
Definition beta : list N := literal "beta".
(** user/k4fmt/src/lib.rs:634-639 [verify_golden, wide] *)
Definition WIDE_PATTERN : list N := literal "thalyx-k4 durable ".
Definition WIDE_LEN : nat := 1024.
Definition wide : list N := map (λ i, nth (i `mod` length WIDE_PATTERN)%nat WIDE_PATTERN 0) (seq 0 WIDE_LEN).
(** user/k4fmt/src/lib.rs:646-650 [verify_golden, the digests] *)
Definition wide_digest : list N := object_digest object_type.BYTES wide.
Definition empty_digest : list N := object_digest object_type.BYTES [].
Definition alpha_digest : list N := object_digest object_type.BYTES alpha.
Definition beta_digest : list N := object_digest object_type.BYTES beta.

(** [encode_tree(&mut buffer, entries).unwrap_or(0)] and the bytes written; a tree of
    which an entry was refused is empty. *)
Definition tree_bytes (entries : list (FormatError + Binding)) : list N :=
  match mapM (λ e, match e with inr b => Some b | inl _ => None end) entries with
  | None => []
  | Some entries =>
      match encode_tree (replicate 512 0) entries with
      | Some (inr (out, len)) => take len out
      | _ => []
      end
  end.

(** user/k4fmt/src/lib.rs:652-668 [verify_golden, leaf] *)
Definition leaf : list N :=
  tree_bytes [Binding.new (literal "alpha") object_type.BYTES 0 (N.of_nat (length alpha)) alpha_digest;
              Binding.new beta object_type.BYTES 0 4 beta_digest;
              Binding.new (literal "empty") object_type.BYTES 0 0 empty_digest].
Definition leaf_digest : list N := object_digest object_type.TREE leaf.
(** user/k4fmt/src/lib.rs:676-691 [verify_golden, root] *)
Definition root : list N :=
  tree_bytes [Binding.new (literal "data") object_type.TREE 0 (N.of_nat (length leaf)) leaf_digest;
              Binding.new (literal "notes") object_type.BYTES 1 (N.of_nat (length alpha)) alpha_digest].
Definition root_digest : list N := object_digest object_type.TREE root.
(** user/k4fmt/src/lib.rs:699-707 [verify_golden, policy] *)
Definition policy : list N :=
  cd_bytes Policy_codec (mkPolicy 1 1 6 5426678735330934785 750000 beta_digest).
Definition policy_digest : list N := object_digest object_type.POLICY policy.
(** user/k4fmt/src/lib.rs:715-725 [verify_golden, validation] *)
Definition validation : list N :=
  cd_bytes Validation_codec
    (mkValidation 1 1 root_digest 7 5426678735330934785 beta_digest 812345 1234567890).
Definition validation_digest : list N := object_digest object_type.VALIDATION validation.
(** user/k4fmt/src/lib.rs:733-742 [verify_golden, manifest] *)
Definition manifest : list N :=
  cd_bytes Manifest_codec (mkManifest 1 0 root_digest policy_digest validation_digest 2 42).
Definition manifest_digest : list N := object_digest object_type.MANIFEST manifest.
(** user/k4fmt/src/lib.rs:750-760 [verify_golden, request] *)
Definition request : list N :=
  request_digest 2 5 store_op.PUBLISH 7 manifest_digest policy_digest validation_digest 39185
    beta_digest.
(** user/k4fmt/src/lib.rs:769-783 [verify_golden, receipt] *)
Definition receipt : list N :=
  cd_bytes Receipt_codec
    (mkReceipt 1 0 2 5 request 7 8 manifest_digest policy_digest validation_digest 1234599999 39185).
Definition receipt_digest : list N := object_digest object_type.RECEIPT receipt.
(** user/k4fmt/src/lib.rs:791-791 [verify_golden, uuid] *)
Definition uuid : list N := store_uuid 6072076158938251265 1.

(** ** The check *)

(** user/k4fmt/src/lib.rs:614-645 [verify_golden, the bytes] *)
Definition verify_bytes : G () :=
  _ <-g Golden.object object_type.BYTES [] golden.OBJECT_EMPTY golden.OBJECT_EMPTY_DIGEST;;
  _ <-g Golden.object object_type.BYTES alpha golden.OBJECT_ALPHA golden.OBJECT_ALPHA_DIGEST;;
  _ <-g Golden.object object_type.BYTES beta golden.OBJECT_BETA golden.OBJECT_BETA_DIGEST;;
  Golden.object object_type.BYTES wide golden.OBJECT_WIDE golden.OBJECT_WIDE_DIGEST.
(** user/k4fmt/src/lib.rs:669-798 [verify_golden, the objects of a version] *)
Definition verify_version : G () :=
  _ <-g Golden.compare leaf golden.TREE_LEAF leaf_digest golden.TREE_LEAF_DIGEST;;
  _ <-g Golden.compare root golden.TREE_ROOT root_digest golden.TREE_ROOT_DIGEST;;
  _ <-g Golden.object object_type.POLICY policy golden.POLICY_SIGNED golden.POLICY_SIGNED_DIGEST;;
  _ <-g Golden.object object_type.VALIDATION validation golden.VALIDATION_PASS golden.VALIDATION_PASS_DIGEST;;
  _ <-g Golden.object object_type.MANIFEST manifest golden.MANIFEST_V8 golden.MANIFEST_V8_DIGEST;;
  _ <-g Golden.compare [] [] request golden.REQUEST_V8_DIGEST;;
  _ <-g Golden.object object_type.RECEIPT receipt golden.RECEIPT_V8 golden.RECEIPT_V8_DIGEST;;
  Golden.compare [] [] uuid golden.STORE_UUID_A.
(** user/k4fmt/src/lib.rs:800-846 [verify_golden, the checkpoint's payload] *)
Definition checkpoint_payload (payload : list N) : option (list N * nat) :=
  let at_ := 0%nat in
  payload ← written CheckpointRecord_codec
    (mkCheckpointRecord 7 root_digest policy_digest beta_digest 2 1 1 0 1234500000 1 2) payload at_;
  let at_ := (at_ + CheckpointRecord.SIZE)%nat in
  payload ← written PrincipalEntry_codec (mkPrincipalEntry 1 3 0) payload at_;
  let at_ := (at_ + PrincipalEntry.SIZE)%nat in
  payload ← written PrincipalEntry_codec (mkPrincipalEntry 2 4 0) payload at_;
  let at_ := (at_ + PrincipalEntry.SIZE)%nat in
  payload ← written ResultEntry_codec
    (mkResultEntry 2 4 result_outcome.COMMITTED outbox_status.DELIVERED 7 root_digest beta_digest)
    payload at_;
  let at_ := (at_ + ResultEntry.SIZE)%nat in
  payload ← written RetainedEntry_codec (mkRetainedEntry root_digest 9000000000) payload at_;
  let at_ := (at_ + RetainedEntry.SIZE)%nat in
  Some (payload, at_).
(** [head.write_to(payload, 0)] and the content after it. *)
(** user/k4fmt/src/lib.rs:860-868 [verify_golden, an object record's payload] *)
Definition object_payload (head : ObjectRecordHeader) (content payload : list N) : option (list N) :=
  payload ← written ObjectRecordHeader_codec head payload 0;
  if decide (length payload < ObjectRecordHeader.SIZE + length content)%nat then None
  else Some (splice ObjectRecordHeader.SIZE content payload).
(** user/k4fmt/src/lib.rs:847-998 [verify_golden, the records] *)
Definition verify_records (payload : list N) : G () :=
  let frame kind sequence prev_digest := mkRecordFrame kind sequence 1 0 prev_digest in
  wrote <-g glift (checkpoint_payload payload);;
  let (payload, at_) := wrote : list N * nat in
  checkpoint_digest <-g Golden.record (frame record_kind.CHECKPOINT 1 (replicate 32 0))
    (take at_ payload) golden.RECORD_CHECKPOINT golden.RECORD_CHECKPOINT_DIGEST;;
  payload <-g glift (object_payload
    (mkObjectRecordHeader object_type.MANIFEST 0 (N.of_nat Manifest.SIZE) manifest_digest) manifest payload);;
  object_record_digest <-g Golden.record (frame record_kind.OBJECT 2 checkpoint_digest)
    (take (ObjectRecordHeader.SIZE + Manifest.SIZE) payload)
    golden.RECORD_OBJECT golden.RECORD_OBJECT_DIGEST;;
  prepare_digest <-g Golden.record (frame record_kind.PREPARE 3 object_record_digest)
    (cd_bytes PrepareRecord_codec
      (mkPrepareRecord 2 5 request 7 manifest_digest policy_digest validation_digest 1 39185
         beta_digest 1234550000 77))
    golden.RECORD_PREPARE golden.RECORD_PREPARE_DIGEST;;
  commit_digest <-g Golden.record (frame record_kind.COMMIT 4 prepare_digest)
    (cd_bytes CommitRecord_codec
      (mkCommitRecord 3 prepare_digest 8 manifest_digest policy_digest receipt_digest 2 5 1234599999 6))
    golden.RECORD_COMMIT golden.RECORD_COMMIT_DIGEST;;
  abort_digest <-g Golden.record (frame record_kind.ABORT 5 commit_digest)
    (cd_bytes AbortRecord_codec
      (mkAbortRecord 3 prepare_digest abort_reason.RECOVERED_UNRESOLVED 0 1 4 1234700000))
    golden.RECORD_ABORT golden.RECORD_ABORT_DIGEST;;
  outbox_digest <-g Golden.record (frame record_kind.OUTBOX 6 abort_digest)
    (cd_bytes OutboxRecord_codec
      (mkOutboxRecord 4 request 2 5 outbox_status.UNKNOWN 2 39185 1234800000))
    golden.RECORD_OUTBOX golden.RECORD_OUTBOX_DIGEST;;
  payload <-g glift (object_payload
    (mkObjectRecordHeader object_type.BYTES 0 (N.of_nat WIDE_LEN) wide_digest) wide payload);;
  _ <-g Golden.record (frame record_kind.OBJECT 7 outbox_digest)
    (take (ObjectRecordHeader.SIZE + WIDE_LEN) payload)
    golden.RECORD_OBJECT_WIDE golden.RECORD_OBJECT_WIDE_DIGEST;;
  gret ().
(** user/k4fmt/src/lib.rs:1000-1012 [verify_golden, live] *)
Definition live : StoreSuperblock :=
  StoreSuperblock.zeroed <| sb_store_uuid := uuid |> <| sb_store_epoch := 1 |>
    <| sb_superblock_generation := 4 |> <| sb_active_arena := 0 |>
    <| sb_arena0_start_block := geometry.ARENA0_START_BLOCK |>
    <| sb_arena0_block_count := geometry.ARENA_BLOCK_COUNT |>
    <| sb_arena1_start_block := geometry.ARENA1_START_BLOCK |>
    <| sb_arena1_block_count := geometry.ARENA_BLOCK_COUNT |>
    <| sb_checkpoint_sequence := 1 |> <| sb_durable_through_sequence := 6 |>
    <| sb_published_generation := 8 |> <| sb_published_root := manifest_digest |>.
(** user/k4fmt/src/lib.rs:1019-1024 [verify_golden, stale] *)
Definition stale : StoreSuperblock :=
  live <| sb_superblock_generation := 3 |> <| sb_active_arena := 1 |>
    <| sb_durable_through_sequence := 4 |> <| sb_published_generation := 7 |>
    <| sb_published_root := root_digest |>.
(** user/k4fmt/src/lib.rs:1031-1039 [verify_golden, directive] *)
Definition directive : HarnessDirective :=
  let directive := HarnessDirective.zeroed <| hd_magic := magic.HARNESS |>
    <| hd_version := FORMAT_MAJOR |> <| hd_fault_point := fault_point.AFTER_COMMIT |>
    <| hd_fault_mode := fault_mode.STOP |> <| hd_leg := 1 |> <| hd_scenario := 8 |>
    <| hd_seed := 20260909 |> in
  directive <| hd_digest := harness_digest directive |>.
(** user/k4fmt/src/lib.rs:1040-1050 [verify_golden, the directive] *)
Definition verify_directive : G () :=
  λ s, match written HarnessDirective_codec directive (replicate (length (gd_block s)) 0) 0 with
  | None => None
  | Some block =>
      Golden.compare block golden.HARNESS_STOP_AFTER_COMMIT
        (hd_digest directive) golden.HARNESS_STOP_AFTER_COMMIT_DIGEST
        (mkGolden (gd_framing s) block (gd_report s))
  end.

(** user/k4fmt/src/lib.rs:614-1050 [verify_golden, every vector in turn] *)
Definition verify_vectors (payload : list N) : G () :=
  _ <-g verify_bytes;;
  _ <-g verify_version;;
  _ <-g verify_records payload;;
  _ <-g Golden.superblock live golden.SUPERBLOCK_LIVE golden.SUPERBLOCK_LIVE_DIGEST;;
  _ <-g Golden.superblock stale golden.SUPERBLOCK_STALE golden.SUPERBLOCK_STALE_DIGEST;;
  verify_directive.

(** user/k4fmt/src/lib.rs:597-1053 [verify_golden] *)
Definition verify_golden (scratch : list N) : option GoldenReport :=
  if decide (length scratch < GOLDEN_SCRATCH_BLOCKS * BLOCK)%nat then Some (mkGoldenReport 0 1 1) else
  let state := mkGolden (slice 0 BLOCK scratch) (slice BLOCK BLOCK scratch) (mkGoldenReport 0 0 0) in
  let payload := slice (2 * BLOCK) BLOCK scratch in
  match verify_vectors payload state with
  | Some (s, _) => Some (gd_report s)
  | None => None
  end.

(** ** The vectors agree *)

(** Two states of the check that differ in what their buffers hold. *)
Definition alike (s1 s2 : Golden) : Prop :=
  length (gd_framing s1) = BLOCK ∧ length (gd_framing s2) = BLOCK ∧
  length (gd_block s1) = length (gd_block s2) ∧ gd_report s1 = gd_report s2.
(** Two steps that do the same to alike states. *)
Definition agree {A} (m1 m2 : G A) : Prop := ∀ s1 s2, alike s1 s2 →
  match m1 s1, m2 s2 with
  | Some (s1, a1), Some (s2, a2) => alike s1 s2 ∧ a1 = a2
  | None, None => True
  | _, _ => False
  end.

Lemma agree_bind {A B} (m1 m2 : G A) (k1 k2 : A → G B) :
  agree m1 m2 → (∀ a, agree (k1 a) (k2 a)) → agree (gbind m1 k1) (gbind m2 k2).
Proof.
  intros Hm Hk s1 s2 Hs. specialize (Hm s1 s2 Hs). unfold gbind.
  destruct (m1 s1) as [[s1' a1]|], (m2 s2) as [[s2' a2]|]; try done.
  destruct Hm as [Hs' <-]. by apply Hk.
Qed.

Lemma agree_compare a b c d : agree (Golden.compare a b c d) (Golden.compare a b c d).
Proof. intros s1 s2 (Hf1 & Hf2 & Hb & Hr). cbn. rewrite Hr. by split. Qed.

Lemma block_width : N.of_nat BLOCK <= U64_MAX.
Proof. by vm_compute. Qed.
Lemma ok_inj {A} (a b : A) : ok a = ok b → a = b.
Proof. by intros [= ->]. Qed.

(** A buffer of one block is filled whole. *)
Lemma frame_record_whole out1 out2 frame payload :
  length out1 = BLOCK → length out2 = BLOCK → frame_record out1 frame payload = frame_record out2 frame payload.
Proof.
  intros H1 H2. destruct (decide (length payload <= RECORD_ROOM)%nat) as [Hp|Hp].
  - rewrite !frame_record_image by (rewrite ?H1, ?H2; first [exact block_width|exact Hp|apply Nat.le_refl]).
    pose proof (record_image_len (frame_header frame payload 1) payload Hp) as Hi.
    unfold splice. cbn [take app Nat.add]. by rewrite !drop_ge by (rewrite Hi; lia).
  - by rewrite !frame_record_long by lia.
Qed.

Lemma frame_record_keeps out frame payload out' blocks digest :
  length out = BLOCK → frame_record out frame payload = ok (out', (blocks, digest)) → length out' = BLOCK.
Proof.
  intros H. destruct (decide (length payload <= RECORD_ROOM)%nat) as [Hp|Hp].
  - rewrite frame_record_image by (rewrite ?H; first [exact block_width|exact Hp|apply Nat.le_refl]).
    intros Heq. apply ok_inj, (f_equal fst) in Heq. cbn [fst] in Heq. rewrite <-Heq.
    rewrite splice_len; [exact H|]. rewrite record_image_len, H by exact Hp. apply Nat.le_refl.
  - by rewrite frame_record_long by lia.
Qed.

Lemma agree_record frame payload bytes want :
  agree (Golden.record frame payload bytes want) (Golden.record frame payload bytes want).
Proof.
  intros s1 s2 (Hf1 & Hf2 & Hb & Hr). unfold Golden.record.
  rewrite (frame_record_whole (gd_framing s2) (gd_framing s1)), Hr by done.
  destruct (frame_record _ _ _) as [[e|[out' [blocks digest]]]|] eqn:He; [| |done].
  - by cbn; rewrite Hr.
  - apply frame_record_keeps in He; [|done]. by split.
Qed.

Lemma written_at {A} (c : Codec A) `{!Layout c} a out offset :
  (offset + cd_size c <= length out)%nat → length out = BLOCK →
  ∃ out', written c a out offset = Some out' ∧ length out' = BLOCK ∧
    take (offset + cd_size c) out' = take offset out ++ cd_bytes c a.
Proof.
  intros Hlen Hout. unfold written. rewrite write_to_ok by (rewrite ?Hout in *; first [exact block_width|lia]). cbn [ok].
  eexists. split; [done|]. rewrite <-(ly_len a). split.
  - rewrite splice_len; [done|]. rewrite ly_len. lia.
  - apply take_splice. rewrite ly_len. lia.
Qed.

#[local] Opaque root_digest policy_digest beta_digest manifest_digest wide_digest request cd_bytes.

(** One more structure into a payload buffer of the length [Hlen] says. *)
Ltac advance Hlen := match goal with |- context [written ?c ?a ?out ?at_] =>
  let out' := fresh "out" in let H := fresh "H" in let Ht := fresh "Ht" in
  destruct (written_at c a out at_) as (out' & -> & H & Ht);
    [rewrite Hlen; apply Nat.leb_le; vm_compute; reflexivity|exact Hlen|];
  cbn [mbind option_bind] end.

(** What the check reads back of the payload buffer is what it wrote there. *)
Lemma checkpoint_payload_fixed p1 p2 :
  length p1 = BLOCK → length p2 = BLOCK →
  ∃ q1 q2 n, checkpoint_payload p1 = Some (q1, n) ∧ checkpoint_payload p2 = Some (q2, n) ∧
    length q1 = BLOCK ∧ length q2 = BLOCK ∧ take n q1 = take n q2.
Proof.
  assert (∀ p, length p = BLOCK → ∃ q, checkpoint_payload p = Some (q, 344%nat) ∧ length q = BLOCK ∧
    take 344 q = ((((cd_bytes CheckpointRecord_codec (mkCheckpointRecord 7 root_digest policy_digest
      beta_digest 2 1 1 0 1234500000 1 2) ++ cd_bytes PrincipalEntry_codec (mkPrincipalEntry 1 3 0)) ++
      cd_bytes PrincipalEntry_codec (mkPrincipalEntry 2 4 0)) ++
      cd_bytes ResultEntry_codec (mkResultEntry 2 4 result_outcome.COMMITTED outbox_status.DELIVERED 7
        root_digest beta_digest)) ++
      cd_bytes RetainedEntry_codec (mkRetainedEntry root_digest 9000000000))) as Hone.
  { intros p Hp. unfold checkpoint_payload. cbv zeta.
    advance Hp. advance H. advance H0. advance H1. advance H2.
    eexists. split; [reflexivity|]. split; [done|].
    refine (eq_trans Ht3 (f_equal (λ l, l ++ _) _)). refine (eq_trans Ht2 (f_equal (λ l, l ++ _) _)).
    refine (eq_trans Ht1 (f_equal (λ l, l ++ _) _)). refine (eq_trans Ht0 (f_equal (λ l, l ++ _) _)).
    exact Ht. }
  intros H1 H2. destruct (Hone p1 H1) as (q1 & E1 & L1 & T1), (Hone p2 H2) as (q2 & E2 & L2 & T2).
  exists q1, q2, 344%nat. by rewrite T1, T2.
Qed.

Lemma object_payload_fixed head content p1 p2 :
  length p1 = BLOCK → length p2 = BLOCK → (ObjectRecordHeader.SIZE + length content <= BLOCK)%nat →
  ∃ q1 q2, object_payload head content p1 = Some q1 ∧ object_payload head content p2 = Some q2 ∧
    length q1 = BLOCK ∧ length q2 = BLOCK ∧
    take (ObjectRecordHeader.SIZE + length content) q1 = take (ObjectRecordHeader.SIZE + length content) q2.
Proof.
  intros H1 H2 Hc.
  assert (∀ p, length p = BLOCK → ∃ q, object_payload head content p = Some q ∧ length q = BLOCK ∧
    take (ObjectRecordHeader.SIZE + length content) q = cd_bytes ObjectRecordHeader_codec head ++ content) as Hone.
  { intros p Hp. unfold object_payload.
    destruct (written_at ObjectRecordHeader_codec head p 0) as (q & -> & Hq & Ht);
      [rewrite Hp; apply Nat.leb_le; vm_compute; reflexivity|exact Hp|]. cbn [mbind option_bind].
    rewrite decide_False by (rewrite Hq; lia). eexists. split; [reflexivity|].
    split; [rewrite splice_len; rewrite Hq; [done|exact Hc]|].
    rewrite take_splice by (rewrite Hq; exact Hc). exact (f_equal (λ l, l ++ content) Ht). }
  destruct (Hone p1 H1) as (q1 & E1 & L1 & T1), (Hone p2 H2) as (q2 & E2 & L2 & T2).
  exists q1, q2. by rewrite T1, T2.
Qed.

Lemma agree_superblock block bytes want :
  agree (Golden.superblock block bytes want) (Golden.superblock block bytes want).
Proof.
  intros s1 s2 (Hf1 & Hf2 & Hb & Hr). unfold Golden.superblock. cbv zeta. rewrite Hb, Hr.
  destruct (written _ _ _ _); [|done]. by split.
Qed.

Lemma agree_directive : agree verify_directive verify_directive.
Proof.
  intros s1 s2 (Hf1 & Hf2 & Hb & Hr). unfold verify_directive. rewrite Hb, Hr.
  destruct (written _ _ _ _); [|done]. by apply agree_compare.
Qed.

(** A step that fetches a payload, and goes on alike with either. *)
Lemma agree_lift {A B} (r1 r2 : option A) (k1 k2 : A → G B) a1 a2 :
  r1 = Some a1 → r2 = Some a2 → agree (k1 a1) (k2 a2) → agree (gbind (glift r1) k1) (gbind (glift r2) k2).
Proof. intros -> -> Hk s1 s2 Hs. by apply Hk. Qed.

Lemma agree_record_payload frame p1 p2 bytes want :
  p1 = p2 → agree (Golden.record frame p1 bytes want) (Golden.record frame p2 bytes want).
Proof. intros ->. apply agree_record. Qed.

Lemma manifest_len : length manifest = Manifest.SIZE.
Proof. unfold manifest. by rewrite ly_len. Qed.
Lemma wide_len : length wide = WIDE_LEN.
Proof. by vm_compute. Qed.

Lemma agree_records p1 p2 : length p1 = BLOCK → length p2 = BLOCK → agree (verify_records p1) (verify_records p2).
Proof.
  intros H1 H2. unfold verify_records. cbv zeta.
  destruct (checkpoint_payload_fixed p1 p2 H1 H2) as (q1 & q2 & n & E1 & E2 & L1 & L2 & T).
  apply (agree_lift _ _ _ _ (q1, n) (q2, n) E1 E2). apply agree_bind; [by apply agree_record_payload|].
  intros checkpoint_digest.
  destruct (object_payload_fixed (mkObjectRecordHeader object_type.MANIFEST 0 (N.of_nat Manifest.SIZE) manifest_digest)
    manifest q1 q2 L1 L2) as (r1 & r2 & F1 & F2 & M1 & M2 & U).
  { rewrite manifest_len. apply Nat.leb_le. by vm_compute. }
  apply (agree_lift _ _ _ _ r1 r2 F1 F2). apply agree_bind.
  { apply agree_record_payload. rewrite <-manifest_len. exact U. }
  do 4 (intros ?; apply agree_bind; [apply agree_record|]). intros ?.
  destruct (object_payload_fixed (mkObjectRecordHeader object_type.BYTES 0 (N.of_nat WIDE_LEN) wide_digest)
    wide r1 r2 M1 M2) as (w1 & w2 & W1 & W2 & _ & _ & V).
  { rewrite wide_len. apply Nat.leb_le. by vm_compute. }
  apply (agree_lift _ _ _ _ w1 w2 W1 W2). apply agree_bind.
  { apply agree_record_payload. rewrite <-wide_len. exact V. }
  intros ? s1 s2 Hs. by split.
Qed.

Lemma agree_vectors p1 p2 :
  length p1 = BLOCK → length p2 = BLOCK → agree (verify_vectors p1) (verify_vectors p2).
Proof.
  intros H1 H2. unfold verify_vectors.
  apply agree_bind. { repeat (apply agree_bind; [apply agree_compare|intros ?]). apply agree_compare. }
  intros ?. apply agree_bind. { repeat (apply agree_bind; [apply agree_compare|intros ?]). apply agree_compare. }
  intros ?. apply agree_bind; [by apply agree_records|].
  do 2 (intros ?; apply agree_bind; [apply agree_superblock|]). intros ?. apply agree_directive.
Qed.

Lemma vectors_blank :
  match verify_vectors (replicate BLOCK 0)
    (mkGolden (replicate BLOCK 0) (replicate BLOCK 0) (mkGoldenReport 0 0 0)) with
  | Some (s, _) => Some (gd_report s)
  | None => None
  end = Some (mkGoldenReport 22 0 0).
Proof. by vm_compute. Qed.

(** C34. The host's vectors and this crate's encoders agree. In any scratch memory of
    at least four blocks, whatever it holds, the check rebuilds all twenty-two
    vectors - objects, trees, the objects of a version, a request, records,
    superblocks, the harness directive - and finds every byte and every digest equal;
    with less memory it reports a failure. *)
Theorem golden_vectors_agree (scratch : list N) :
  verify_golden scratch =
  Some (if decide (length scratch < GOLDEN_SCRATCH_BLOCKS * BLOCK)%nat then mkGoldenReport 0 1 1
        else mkGoldenReport 22 0 0).
Proof.
  unfold verify_golden. case_decide as Hlen; [done|]. cbv zeta. unfold GOLDEN_SCRATCH_BLOCKS in Hlen.
  pose proof (agree_vectors (slice (2 * BLOCK) BLOCK scratch) (replicate BLOCK 0)) as Hagree.
  pose proof vectors_blank as Hblank.
  set (blank := mkGolden (replicate BLOCK 0) (replicate BLOCK 0) (mkGoldenReport 0 0 0)) in *.
  set (s := mkGolden _ _ _). specialize (Hagree ltac:(apply slice_len; lia) ltac:(apply length_replicate) s blank).
  destruct (verify_vectors (replicate BLOCK 0) blank) as [[s2 []]|]; [|done].
  assert (alike s blank) as Halike.
  { subst s blank. unfold alike. cbn [gd_framing gd_block gd_report]. rewrite !length_replicate.
    split_and!; try reflexivity; apply slice_len; lia. }
  specialize (Hagree Halike).
  destruct (verify_vectors _ s) as [[s1 []]|]; [|done]. destruct Hagree as ((_ & _ & _ & ->) & _). exact Hblank.
Qed.
