(* ===== verification/Effects.v ===== *)
(** * Effects

    What the service programs' functions do: a step over the program's state that goes
    on with a value, returns early from the function it is in, or panics. A panic keeps
    the state it happened in, for what it leaves behind outside the program. *)

From S2P Require Import Prelude.

Inductive Step (S R A : Type) :=
  | Go (a : A) (s : S)
  | Early (r : R) (s : S)
  | Bad (s : S).
Arguments Go {S R A} _ _.
Arguments Early {S R A} _ _.
Arguments Bad {S R A} _.

(** A statement of a function that returns [R], with the value [A] it binds. *)
Definition Act (S R A : Type) : Type := S → Step S R A.

Definition go {S R A} (a : A) : Act S R A := λ s, Go a s.
(** [return r;] *)
Definition early {S R A} (r : R) : Act S R A := λ s, Early r s.
Definition bad {S R A} : Act S R A := λ s, Bad s.
Definition bind_act {S R A B} (m : Act S R A) (k : A → Act S R B) : Act S R B :=
  λ s, match m s with
  | Go a s => k a s
  | Early r s => Early r s
  | Bad s => Bad s
  end.

Declare Scope act_scope.
Delimit Scope act_scope with act.
Notation "x <- m ;; k" := (bind_act m (λ x, k))
  (at level 100, m at next level, k at level 200, right associativity) : act_scope.
Notation "m ;;; k" := (bind_act m (λ _, k))
  (at level 100, k at level 200, right associativity) : act_scope.

(** A call: the body's early returns end the call only. *)
Definition call {S R Q} (body : Act S R R) : Act S Q R :=
  λ s, match body s with
  | Go r s => Go r s
  | Early r s => Go r s
  | Bad s => Bad s
  end.

Lemma call_no_early {S R Q} (body : Act S R R) s (q : Q) s' : call body s ≠ Early q s'.
Proof. unfold call. by destruct (body s). Qed.

(** A call is the same wherever it is made. *)
Lemma call_anywhere {S R Q1 Q2} (body : Act S R R) s :
  (∃ r s', call (Q := Q1) body s = Go r s' ∧ call (Q := Q2) body s = Go r s') ∨
  (∃ s', call (Q := Q1) body s = Bad s' ∧ call (Q := Q2) body s = Bad s').
Proof. unfold call. destruct (body s); [left|left|right]; eauto. Qed.

(** [if b { return r; }] *)
Definition return_if {S R} (b : bool) (r : R) : Act S R () := if b then early r else go ().
(** [let Some(x) = o else { return r; }] and [o.ok_or(r)?] *)
Definition or_return {S R A} (o : option A) (r : R) : Act S R A :=
  match o with Some a => go a | None => early r end.
(** An index or a slice that must be in bounds. *)
Definition or_panic {S R A} (o : option A) : Act S R A :=
  match o with Some a => go a | None => bad end.

Definition ask {S R A} (f : S → A) : Act S R A := λ s, Go (f s) s.
Definition change {S R} (f : S → S) : Act S R () := λ s, Go () (f s).
(** [if b { m }] *)
Definition when {S R} (b : bool) (m : Act S R ()) : Act S R () := if b then m else go ().

(** [for x in xs { body }] *)
Fixpoint for_each {S R A} (xs : list A) (body : A → Act S R ()) : Act S R () :=
  match xs with
  | [] => go ()
  | x :: xs => bind_act (body x) (λ _, for_each xs body)
  end.
(** The same with a value carried along. *)
Fixpoint for_fold {S R A B} (xs : list A) (b : B) (body : B → A → Act S R B) : Act S R B :=
  match xs with
  | [] => go b
  | x :: xs => bind_act (body b x) (λ b, for_fold xs b body)
  end.

(** ** Reasoning *)

(** A step run from a state, statement by statement. *)
Section run.
Context {S R A B : Type}.
Lemma run_bind (m : Act S R A) (k : A → Act S R B) (s : S) :
  bind_act m k s = match m s with Go a s => k a s | Early r s => Early r s | Bad s => Bad s end.
Proof. done. Qed.
Lemma run_go (a : A) (s : S) : go (R := R) a s = Go a s.
Proof. done. Qed.
Lemma run_early (r : R) (s : S) : early (A := A) r s = Early r s.
Proof. done. Qed.
Lemma run_ask (f : S → A) (s : S) : ask (R := R) f s = Go (f s) s.
Proof. done. Qed.
Lemma run_change (f : S → S) (s : S) : change (R := R) f s = Go () (f s).
Proof. done. Qed.
Lemma run_return_true (r : R) (s : S) : return_if true r s = Early r s.
Proof. done. Qed.
Lemma run_return_false (r : R) (s : S) : return_if false r s = Go () s.
Proof. done. Qed.
Lemma run_return_some (a : A) (r : R) (s : S) : or_return (Some a) r s = Go a s.
Proof. done. Qed.
Lemma run_return_none (r : R) (s : S) : or_return (A := A) None r s = Early r s.
Proof. done. Qed.
Lemma run_panic_some (a : A) (s : S) : or_panic (R := R) (Some a) s = Go a s.
Proof. done. Qed.
Lemma run_panic_none (s : S) : or_panic (R := R) (A := A) None s = Bad s.
Proof. done. Qed.
Lemma run_when_true (m : Act S R ()) s : when true m s = m s.
Proof. done. Qed.
Lemma run_when_false (m : Act S R ()) s : when false m s = Go () s.
Proof. done. Qed.
End run.
Lemma run_call {S R Q} (body : Act S R R) s :
  call (Q := Q) body s = match body s with Go r s => Go r s | Early r s => Go r s | Bad s => Bad s end.
Proof. done. Qed.

(** Runs what can be run; [more] runs a component's own statements. *)
Ltac run_with more :=
  repeat first
    [ progress cbv beta iota zeta
    | rewrite run_bind | rewrite run_go | rewrite run_early | rewrite run_ask | rewrite run_change
    | rewrite run_return_true | rewrite run_return_false | rewrite run_return_some | rewrite run_return_none
    | rewrite run_panic_some | rewrite run_panic_none | rewrite run_when_true | rewrite run_when_false
    | more ].

(** Both cases of the option the next statement looks at. *)
Ltac case_option :=
  match goal with
  | |- context [or_return ?o] => destruct o
  | |- context [or_panic ?o] => destruct o
  end.

(** The state a step ends in, however it ends. *)
Definition final {S R A} (r : Step S R A) : S :=
  match r with Go _ s => s | Early _ s => s | Bad s => s end.

(** A relation every step of [m] is in, from where it starts to where it ends. *)
Definition within {S R A} (rel : S → S → Prop) (m : Act S R A) : Prop := ∀ s, rel s (final (m s)).

Section within.
Context {S : Type} (rel : S → S → Prop) `{!PreOrder rel}.

Lemma within_go {R A} (a : A) : within rel (go (R := R) a).
Proof. intros s. cbn. reflexivity. Qed.
Lemma within_early {R A} (r : R) : within rel (early (A := A) r).
Proof. intros s. cbn. reflexivity. Qed.
Lemma within_bad {R A} : within rel (bad (R := R) (A := A)).
Proof. intros s. cbn. reflexivity. Qed.
Lemma within_bind {R A B} (m : Act S R A) (k : A → Act S R B) :
  within rel m → (∀ a, within rel (k a)) → within rel (bind_act m k).
Proof.
  intros Hm Hk s. specialize (Hm s). unfold bind_act. destruct (m s) as [a s'|r s'|s']; cbn in *; [|done..].
  etransitivity; [exact Hm|apply Hk].
Qed.
Lemma within_call {R Q} (body : Act S R R) : within rel body → within rel (call (Q := Q) body).
Proof. intros Hm s. specialize (Hm s). unfold call. by destruct (body s). Qed.
Lemma within_return_if {R} b (r : R) : within rel (return_if b r).
Proof. destruct b; [apply within_early|apply within_go]. Qed.
Lemma within_or_return {R A} (o : option A) (r : R) : within rel (or_return o r).
Proof. destruct o; [apply within_go|apply within_early]. Qed.
Lemma within_or_panic {R A} (o : option A) : within rel (or_panic (R := R) o).
Proof. destruct o; [apply within_go|apply within_bad]. Qed.
Lemma within_ask {R A} (f : S → A) : within rel (ask (R := R) f).
Proof. intros s. cbn. reflexivity. Qed.
Lemma within_when {R} b (m : Act S R ()) : within rel m → within rel (when b m).
Proof. intros Hm. destruct b; [done|apply within_go]. Qed.
Lemma within_for_each {R A} (xs : list A) (body : A → Act S R ()) :
  (∀ x, within rel (body x)) → within rel (for_each xs body).
Proof. intros Hb. induction xs; [apply within_go|by apply within_bind]. Qed.
Lemma within_for_fold {R A B} (xs : list A) (b : B) (body : B → A → Act S R B) :
  (∀ b x, within rel (body b x)) → within rel (for_fold xs b body).
Proof. intros Hb. revert b. induction xs; intros b; [apply within_go|by apply within_bind]. Qed.
End within.

(** Walks a step's structure under [within rel]; [leaf] proves the calls, and what it
    cannot is left. *)
Ltac walk_step leaf :=
  lazymatch goal with
  | |- within _ (bind_act _ _) => apply within_bind; [apply _| |intros ?]
  | |- within _ (call _) => apply within_call
  | |- within _ (when _ _) => apply within_when; [apply _|]
  | |- within _ (for_each _ _) => apply within_for_each; [apply _|intros ?]
  | |- within _ (for_fold _ _ _) => apply within_for_fold; [apply _|intros ? ?]
  | |- within _ (go _) => apply within_go, _
  | |- within _ (early _) => apply within_early, _
  | |- within _ bad => apply within_bad, _
  | |- within _ (return_if _ _) => apply within_return_if, _
  | |- within _ (or_return _ _) => apply within_or_return, _
  | |- within _ (or_panic _) => apply within_or_panic, _
  | |- within _ (ask _) => apply within_ask, _
  | |- within _ (match ?x with _ => _ end) => destruct x
  | |- within _ (let _ := _ in _) => cbv zeta
  | |- within _ ((fun _ => _) _) => cbv beta
  | |- within _ _ => leaf
  end.

(** From [P], a step that goes on leaves [Q], and one that does not leaves [E] of what
    it returns; a panic returns nothing. *)
Definition hoare {S R A} (P : S → Prop) (m : Act S R A) (Q : A → S → Prop) (E : option R → S → Prop) : Prop :=
  ∀ s, P s → match m s with Go a s => Q a s | Early r s => E (Some r) s | Bad s => E None s end.

(** A step that goes on or panics. *)
Definition stays {S R A} (m : Act S R A) : Prop := ∀ s r s', m s ≠ Early r s'.

Section stays.
Context {S R : Type}.
Lemma stays_call {Q} (body : Act S R R) : stays (call (Q := Q) body).
Proof. intros s r s'. apply call_no_early. Qed.
Lemma stays_go {A} (a : A) : stays (go (S := S) (R := R) a).
Proof. done. Qed.
Lemma stays_ask {A} (f : S → A) : stays (ask (R := R) f).
Proof. done. Qed.
Lemma stays_change f : stays (change (S := S) (R := R) f).
Proof. done. Qed.
Lemma stays_or_panic {A} (o : option A) : stays (or_panic (S := S) (R := R) o).
Proof. by destruct o. Qed.
Lemma stays_bind {A B} (m : Act S R A) (k : A → Act S R B) : stays m → (∀ a, stays (k a)) → stays (bind_act m k).
Proof. intros Hm Hk s r s'. rewrite run_bind. destruct (m s) eqn:E; [apply Hk|by apply Hm in E|done]. Qed.
Lemma stays_when b (m : Act S R ()) : stays m → stays (when b m).
Proof. by destruct b. Qed.
End stays.

Ltac walk_stays :=
  repeat first
    [ apply stays_call | apply stays_go | apply stays_ask | apply stays_change | apply stays_or_panic
    | apply stays_bind; [|intros ?] | apply stays_when | by intros ? ? ?
    | match goal with |- stays (match ?x with _ => _ end) => destruct x end ].

Section hoare.
Context {S R : Type}.
Lemma hoare_bind {A B} P (m : Act S R A) Q (k : A → Act S R B) Q' E :
  hoare P m Q E → (∀ a, hoare (Q a) (k a) Q' E) → hoare P (bind_act m k) Q' E.
Proof. intros Hm Hk s Hs. specialize (Hm s Hs). rewrite run_bind. destruct (m s); [by apply Hk|done..]. Qed.
Lemma hoare_weaken {A} (P P' : S → Prop) (m : Act S R A) (Q Q' : A → S → Prop) (E E' : option R → S → Prop) :
  (∀ s, P' s → P s) → (∀ a s, Q a s → Q' a s) → (∀ o s, E o s → E' o s) → hoare P m Q E → hoare P' m Q' E'.
Proof. intros HP HQ HE Hm s Hs. specialize (Hm s (HP s Hs)). destruct (m s); auto. Qed.
Lemma hoare_pre {A} (P P' : S → Prop) (m : Act S R A) Q E : (∀ s, P' s → P s) → hoare P m Q E → hoare P' m Q E.
Proof. intros HP Hm s Hs. exact (Hm s (HP s Hs)). Qed.
(** A fact about no state. *)
Lemma hoare_fact {A} (F : Prop) (P : S → Prop) (m : Act S R A) Q E :
  (F → hoare P m Q E) → hoare (λ s, F ∧ P s) m Q E.
Proof. intros Hm s [HF Hs]. exact (Hm HF s Hs). Qed.
Lemma hoare_exists {X A} (P : X → S → Prop) (m : Act S R A) Q E :
  (∀ x, hoare (P x) m Q E) → hoare (λ s, ∃ x, P x s) m Q E.
Proof. intros Hm s [x Hs]. exact (Hm x s Hs). Qed.
(** What a step's value always is. *)
Definition gives {A} (m : Act S R A) (F : A → Prop) : Prop := ∀ s a s', m s = Go a s' → F a.
Lemma hoare_gives {A} (F : A → Prop) (P : S → Prop) (m : Act S R A) Q E :
  gives m F → hoare P m Q E → hoare P m (λ a s, F a ∧ Q a s) E.
Proof. intros HF Hm s Hs. specialize (Hm s Hs). specialize (HF s). destruct (m s); [split; [by eapply HF|done]|done..]. Qed.
(** Steps of a relation that keeps [P]. *)
Lemma hoare_within {A} rel (P : S → Prop) (m : Act S R A) (E : option R → S → Prop) :
  within rel m → stays m → (∀ s s', P s → rel s s' → P s') → (∀ s, P s → E None s) → hoare P m (λ _, P) E.
Proof.
  intros Hm Hst HP HE s Hs. specialize (Hm s). destruct (m s) as [a s'|r s'|s'] eqn:Es; cbn in Hm;
    [by eapply HP|by apply Hst in Es|by eapply HE, HP].
Qed.
Lemma hoare_go {A} (P : S → Prop) (a : A) E : hoare (R := R) P (go a) (λ b s, b = a ∧ P s) E.
Proof. by intros s Hs. Qed.
Lemma hoare_ask {A} (P : S → Prop) (f : S → A) E : hoare (R := R) P (ask f) (λ a s, a = f s ∧ P s) E.
Proof. by intros s Hs. Qed.
Lemma hoare_early {A} (P : S → Prop) (r : R) (Q : A → S → Prop) (E : option R → S → Prop) :
  (∀ s, P s → E (Some r) s) → hoare P (early r) Q E.
Proof. intros HE s Hs. by apply HE. Qed.
Lemma hoare_return_if (P : S → Prop) b (r : R) (E : option R → S → Prop) :
  (∀ s, P s → E (Some r) s) → hoare P (return_if b r) (λ _ s, b = false ∧ P s) E.
Proof. intros HE s Hs. destruct b; cbn; auto. Qed.
Lemma hoare_or_return {A} (P : S → Prop) (o : option A) (r : R) (E : option R → S → Prop) :
  (∀ s, P s → E (Some r) s) → hoare P (or_return o r) (λ a s, o = Some a ∧ P s) E.
Proof. intros HE s Hs. destruct o; cbn; auto. Qed.
Lemma hoare_call {Q'} (P : S → Prop) (body : Act S R R) Q (E : option Q' → S → Prop) :
  hoare P body Q (λ o s, match o with Some r => Q r s | None => E None s end) →
  hoare P (call (Q := Q') body) Q E.
Proof. intros Hb s Hs. specialize (Hb s Hs). rewrite run_call. by destruct (body s). Qed.
End hoare.

(** Two runs from related states: they end the same way, in related states. *)
Definition alike_steps {S R A} (rel : S → S → Prop) (r1 r2 : Step S R A) : Prop :=
  match r1, r2 with
  | Go a1 s1, Go a2 s2 => a1 = a2 ∧ rel s1 s2
  | Early e1 s1, Early e2 s2 => e1 = e2 ∧ rel s1 s2
  | Bad s1, Bad s2 => rel s1 s2
  | _, _ => False
  end.
Definition alike_from {S R A} (rel : S → S → Prop) (m : Act S R A) : Prop :=
  ∀ s1 s2, rel s1 s2 → alike_steps rel (m s1) (m s2).

Section alike.
Context {S : Type} (rel : S → S → Prop).

Lemma alike_go {R A} (a : A) : alike_from rel (go (R := R) a).
Proof. by intros s1 s2 Hs. Qed.
Lemma alike_early {R A} (r : R) : alike_from rel (early (A := A) r).
Proof. by intros s1 s2 Hs. Qed.
Lemma alike_bad {R A} : alike_from rel (bad (R := R) (A := A)).
Proof. by intros s1 s2 Hs. Qed.
Lemma alike_bind {R A B} (m : Act S R A) (k : A → Act S R B) :
  alike_from rel m → (∀ a, alike_from rel (k a)) → alike_from rel (bind_act m k).
Proof.
  intros Hm Hk s1 s2 Hs. specialize (Hm s1 s2 Hs). unfold bind_act.
  destruct (m s1), (m s2); try done. cbn in Hm. destruct Hm as [<- Hs']. by apply Hk.
Qed.
Lemma alike_call {R Q} (body : Act S R R) : alike_from rel body → alike_from rel (call (Q := Q) body).
Proof. intros Hm s1 s2 Hs. specialize (Hm s1 s2 Hs). unfold call. by destruct (body s1), (body s2). Qed.
Lemma alike_return_if {R} b (r : R) : alike_from rel (return_if b r).
Proof. destruct b; [apply alike_early|apply alike_go]. Qed.
Lemma alike_or_return {R A} (o : option A) (r : R) : alike_from rel (or_return o r).
Proof. destruct o; [apply alike_go|apply alike_early]. Qed.
Lemma alike_or_panic {R A} (o : option A) : alike_from rel (or_panic (R := R) o).
Proof. destruct o; [apply alike_go|apply alike_bad]. Qed.
Lemma alike_ask {R A} (f : S → A) : (∀ s1 s2, rel s1 s2 → f s1 = f s2) → alike_from rel (ask (R := R) f).
Proof. intros Hf s1 s2 Hs. cbn. split; [by apply Hf|done]. Qed.
Lemma alike_change {R} (f : S → S) :
  (∀ s1 s2, rel s1 s2 → rel (f s1) (f s2)) → alike_from rel (change (R := R) f).
Proof. intros Hf s1 s2 Hs. split; [done|by apply Hf]. Qed.
Lemma alike_when {R} b (m : Act S R ()) : alike_from rel m → alike_from rel (when b m).
Proof. intros Hm. destruct b; [done|apply alike_go]. Qed.
End alike.

(** Walks a step's structure under [alike_from]; [leaf] as before. *)
Ltac walk_alike leaf :=
  lazymatch goal with
  | |- alike_from _ (bind_act _ _) => apply alike_bind; [|intros ?]
  | |- alike_from _ (call _) => apply alike_call
  | |- alike_from _ (when _ _) => apply alike_when
  | |- alike_from _ (go _) => apply alike_go
  | |- alike_from _ (early _) => apply alike_early
  | |- alike_from _ bad => apply alike_bad
  | |- alike_from _ (return_if _ _) => apply alike_return_if
  | |- alike_from _ (or_return _ _) => apply alike_or_return
  | |- alike_from _ (or_panic _) => apply alike_or_panic
  | |- alike_from _ (match ?x with _ => _ end) => destruct x
  | |- alike_from _ (let _ := _ in _) => cbv zeta
  | |- alike_from _ ((fun _ => _) _) => cbv beta
  | |- alike_from _ _ => leaf
  end.
