(* ===== verification/K4Disk.v ===== *)
(** * The block driver and the service's side of its protocol

    [serve] of [user/k4disk/src/main.rs] with its fault engine, over a device with a
    write cache, and [user/k4store/src/disk.rs]. What the device answers to a
    transfer, whether a call gets through the kernel, what the clock reads and what
    room the control log reports are the [Outside]: functions of how many times it
    was asked, about which nothing is assumed. *)

From stdpp Require Import gmap.
From S2P Require Import Prelude Bytes K4Layout K4Format Effects.

#[local] Open Scope N_scope.

(** ** The medium *)

(** What a device holds: the blocks that survive a power cut, and the writes it has
    acknowledged and not yet made durable, oldest first. A block never written reads
    as zeros. *)
Record Medium := mkMedium {
  md_durable : gmap N (list N);
  md_cache : list (N * list N)
}.
Definition zero_block : list N := replicate BLOCK 0.
Definition apply_writes (writes : list (N * list N)) (durable : gmap N (list N)) : gmap N (list N) :=
  foldl (λ d w, <[w.1 := w.2]> d) durable writes.
Definition md_read (m : Medium) (block : N) : list N :=
  default zero_block (apply_writes (md_cache m) (md_durable m) !! block).
Definition md_write (block : N) (data : list N) (m : Medium) : Medium :=
  mkMedium (md_durable m) (md_cache m ++ [(block, data)]).
Definition md_flush (m : Medium) : Medium :=
  mkMedium (apply_writes (md_cache m) (md_durable m)) [].

(** ** The outside *)

(** What becomes of a transfer: done, refused, or done and reported as refused. *)
Inductive Fate := Moved | Refused | MovedRefused.
(** user/k4store/src/state.rs:1672-1676 [room, the fields of LogInfo it reads] *)
Record LogInfo := mkLogInfo { li_capacity : N; li_reserved_cells : N; li_used : N }.
Class Outside := mkOutsideOf {
  ou_reaches : nat → bool;
  ou_fate : nat → Fate;
  ou_now : nat → N;
  ou_log : nat → option LogInfo;
  ou_append : nat → bool
}.

(** user/k4disk/src/main.rs:306-315 [Faults]; a held write is kept with the block
    copied for it. *)
Record Faults := mkFaults {
  ft_latched : bool;
  ft_held : option (N * list N);
  ft_writes_issued : N;
  ft_writes_suppressed : N;
  ft_sectors_written : N;
  ft_flushes : N
}.
#[global] Instance Faults_rebuild : Rebuild Faults := λ f,
  mkFaults (ft_latched f) (ft_held f) (ft_writes_issued f) (ft_writes_suppressed f)
    (ft_sectors_written f) (ft_flushes f).

(** user/k4fmt/src/pkg.rs:92-92 [IOBUF_PAGES] *)
Definition IOBUF_PAGES : N := 4.

(** Everything outside the service: the medium, the driver's faults, the shared
    buffer, how often the outside was asked, and - for the theorems - every medium
    there has been, latest first. *)
Record World := mkWorld {
  w_medium : Medium;
  w_faults : Faults;
  w_iobuf : list (list N);
  w_turn : nat;
  w_past : list Medium
}.
#[global] Instance World_rebuild : Rebuild World := λ w,
  mkWorld (w_medium w) (w_faults w) (w_iobuf w) (w_turn w) (w_past w).

Definition no_faults : Faults := mkFaults false None 0 0 0 0.
(** A driver just started on a medium. *)
Definition power_on (m : Medium) : World := mkWorld m no_faults (replicate 4 zero_block) 0 [].

(** ** Requests and replies *)

Module disk_op.
(** user/k4fmt/src/pkg.rs:134-134 [disk_op::READ] *)
Definition READ : N := 1.
(** user/k4fmt/src/pkg.rs:136-136 [disk_op::WRITE] *)
Definition WRITE : N := 2.
(** user/k4fmt/src/pkg.rs:138-138 [disk_op::FLUSH] *)
Definition FLUSH : N := 3.
(** user/k4fmt/src/pkg.rs:140-140 [disk_op::LATCH] *)
Definition LATCH : N := 4.
(** user/k4fmt/src/pkg.rs:142-142 [disk_op::STATS] *)
Definition STATS : N := 5.
End disk_op.

Module disk_status.
(** user/k4fmt/src/pkg.rs:148-148 [disk_status::OK] *)
Definition OK : N := 0.
(** user/k4fmt/src/pkg.rs:150-150 [disk_status::INVALID] *)
Definition INVALID : N := 1.
(** user/k4fmt/src/pkg.rs:152-152 [disk_status::IO_ERROR] *)
Definition IO_ERROR : N := 2.
(** user/k4fmt/src/pkg.rs:154-154 [disk_status::LATCHED] *)
Definition LATCHED : N := 3.
(** user/k4fmt/src/pkg.rs:156-156 [disk_status::TIMED_OUT] *)
Definition TIMED_OUT : N := 4.
End disk_status.

(** user/k4fmt/src/pkg.rs:162-175 [DiskRequest] *)
Record DiskRequest := mkDiskRequest {
  dq_op : N;
  dq_fault_mode : N;
  dq_block : N;
  dq_count : N;
  dq_buffer_block : N;
  dq_fault_arg : N
}.
(** user/k4fmt/src/pkg.rs:180-195 [DiskReply] *)
Record DiskReply := mkDiskReply {
  dr_status : N;
  dr_applied : N;
  dr_transferred : N;
  dr_writes_issued : N;
  dr_writes_suppressed : N;
  dr_flushes : N;
  dr_sectors_written : N
}.
#[global] Instance DiskReply_rebuild : Rebuild DiskReply := λ r,
  mkDiskReply (dr_status r) (dr_applied r) (dr_transferred r) (dr_writes_issued r)
    (dr_writes_suppressed r) (dr_flushes r) (dr_sectors_written r).

(** ** The driver *)

Section driver.
Context `{Outside}.

(** One transfer: the device does it, or not, and the driver is told. The queue, its
    rings and its registers are the transport's. *)
(** user/k4disk/src/main.rs:411-421 [transfer] *)
Definition transfer (effect : World → World) (w : World) : bool * World :=
  let fate := ou_fate (w_turn w) in
  let w := w <| w_turn ::= S |> in
  let moved := effect w in
  let moved := moved <| w_past ::= cons (w_medium moved) |> in
  match fate with
  | Moved => (true, moved)
  | Refused => (false, w)
  | MovedRefused => (false, moved)
  end.

(** The blocks [block], [block + 1], … *)
Definition blocks_from (block : N) (data : list (list N)) : list (N * list N) :=
  imap (λ i b, (block + N.of_nat i, b)) data.
Definition read_in (block : N) (slot count : nat) (w : World) : World :=
  w <| w_iobuf ::= λ slots,
    take slot slots ++ map (λ i, md_read (w_medium w) (block + N.of_nat i)) (seq 0 count) ++
    drop (slot + count) slots |>.
Definition write_out (writes : list (N * list N)) (w : World) : World :=
  w <| w_medium ::= λ m, foldl (λ m x, md_write x.1 x.2 m) m writes |>.

(** A held write is issued. *)
(** user/k4disk/src/main.rs:587-606 [release_held] *)
Definition release_held (w : World) : bool * World :=
  match ft_held (w_faults w) with
  | None => (true, w)
  | Some held =>
      let w := w <| w_faults ::= λ f, f <| ft_held := None |> |> in
      let '(moved, w) := transfer (write_out [held]) w in
      if negb moved then (false, w) else
      (true, w <| w_faults ::= λ f, f <| ft_writes_issued ::= N.succ |>
                                      <| ft_sectors_written ::= N.add (geometry.BLOCK_SIZE / geometry.SECTOR_SIZE) |> |>)
  end.

Definition blank_reply (status applied : N) : DiskReply := mkDiskReply status applied 0 0 0 0 0.

(** user/k4disk/src/main.rs:497-584 [write_with_faults] *)
Definition write_with_faults (request : DiskRequest) (w : World) : DiskReply * World :=
  let data := take (N.to_nat (dq_count request)) (drop (N.to_nat (dq_buffer_block request)) (w_iobuf w)) in
  let mode := dq_fault_mode request in
  let reply := blank_reply disk_status.OK mode in
  let suppressed w := w <| w_faults ::= λ f, f <| ft_writes_suppressed ::= N.succ |> |> in
  if decide (mode = fault_mode.DROP_WRITE) then (reply, suppressed w) else
  if decide (mode = fault_mode.IO_ERROR) then
    (reply <| dr_status := disk_status.IO_ERROR |>, suppressed w) else
  if decide (mode = fault_mode.REORDER) then
    match ft_held (w_faults w), bool_decide (dq_count request = 1) with
    | None, true =>
        (reply, w <| w_faults ::= λ f, f <| ft_held := Some (dq_block request, default zero_block (data !! 0%nat)) |> |>)
    | _, _ => (reply <| dr_status := disk_status.INVALID |>, w)
    end else
  let torn := bool_decide (mode = fault_mode.TEAR_WRITE) in
  let issue := if torn then geometry.SECTOR_SIZE else dq_count request * geometry.BLOCK_SIZE in
  let writes :=
    if torn then
      [(dq_block request,
        splice 0 (take (N.to_nat geometry.SECTOR_SIZE) (default zero_block (data !! 0%nat)))
          (md_read (w_medium w) (dq_block request)))]
    else blocks_from (dq_block request) data in
  let '(moved, w) := transfer (write_out writes) w in
  if negb moved then (reply <| dr_status := disk_status.IO_ERROR |>, w) else
  let w := w <| w_faults ::= λ f, f <| ft_writes_issued ::= N.succ |>
                                    <| ft_sectors_written ::= N.add (issue / geometry.SECTOR_SIZE) |> |> in
  if torn then
    (reply, w <| w_faults ::= λ f, f <| ft_writes_suppressed ::= N.succ |> <| ft_latched := true |> |>)
  else (reply <| dr_transferred := dq_count request |>, w).

(** The request's range is inside the shared buffer. *)
(** user/k4disk/src/main.rs:431-434 [serve, bounded] *)
Definition bounded (request : DiskRequest) : bool :=
  negb (bool_decide (dq_count request = 0)) && bool_decide (dq_count request <= IOBUF_PAGES) &&
  bool_decide (dq_buffer_block request < IOBUF_PAGES) &&
  bool_decide (dq_buffer_block request + dq_count request <= IOBUF_PAGES).

(** user/k4disk/src/main.rs:424-494 [serve] *)
Definition serve (request : DiskRequest) (w : World) : DiskReply * World :=
  let reply := blank_reply disk_status.OK fault_mode.NONE in
  let status s := reply <| dr_status := s |> in
  let '(reply, w) :=
    if decide (dq_op request = disk_op.READ) then
      if negb (bounded request) then (status disk_status.INVALID, w) else
      let '(moved, w) := transfer
        (read_in (dq_block request) (N.to_nat (dq_buffer_block request)) (N.to_nat (dq_count request))) w in
      if negb moved then (status disk_status.IO_ERROR, w)
      else (reply <| dr_transferred := dq_count request |>, w)
    else if decide (dq_op request = disk_op.WRITE) then
      if negb (bounded request) then (status disk_status.INVALID, w)
      else if ft_latched (w_faults w) then
        (status disk_status.LATCHED, w <| w_faults ::= λ f, f <| ft_writes_suppressed ::= N.succ |> |>)
      else write_with_faults request w
    else if decide (dq_op request = disk_op.FLUSH) then
      if ft_latched (w_faults w) then (status disk_status.LATCHED, w) else
      let '(released, w) := release_held w in
      if negb released then (status disk_status.IO_ERROR, w) else
      let '(flushed, w) := transfer (λ w, w <| w_medium ::= md_flush |>) w in
      if negb flushed then (status disk_status.IO_ERROR, w)
      else (reply, w <| w_faults ::= λ f, f <| ft_flushes ::= N.succ |> |>)
    else if decide (dq_op request = disk_op.LATCH) then
      let w := w <| w_faults ::= λ f, f <| ft_latched := true |> |> in
      (reply, match ft_held (w_faults w) with
              | Some _ => w <| w_faults ::= λ f, f <| ft_held := None |> <| ft_writes_suppressed ::= N.succ |> |>
              | None => w
              end)
    else if decide (dq_op request = disk_op.STATS) then (reply, w)
    else (status disk_status.INVALID, w) in
  (reply <| dr_writes_issued := ft_writes_issued (w_faults w) |>
         <| dr_writes_suppressed := ft_writes_suppressed (w_faults w) |>
         <| dr_flushes := ft_flushes (w_faults w) |>
         <| dr_sectors_written := ft_sectors_written (w_faults w) |>, w).

End driver.

(** ** The service's side *)

(** user/k4store/src/disk.rs:26-44 [Disk]; the endpoint it holds is the driver's *)
Record Disk := mkDisk {
  dk_failed : bool;
  dk_latched : bool;
  dk_unreachable : bool;
  dk_writes_issued : N;
  dk_writes_suppressed : N;
  dk_flushes : N;
  dk_reads : N
}.
#[global] Instance Disk_rebuild : Rebuild Disk := λ d,
  mkDisk (dk_failed d) (dk_latched d) (dk_unreachable d) (dk_writes_issued d)
    (dk_writes_suppressed d) (dk_flushes d) (dk_reads d).

Module Disk.
Section disk.
Context `{Outside}.

(** user/k4store/src/disk.rs:46-57 [Disk::new] *)
Definition new : Disk := mkDisk false false false 0 0 0 0.

(** The call through the kernel either reaches the driver, which serves it, or is not
    made. The deadline it carries is the kernel's business. *)
(** user/k4store/src/disk.rs:59-89 [Disk::call] *)
Definition call (request : DiskRequest) (d : Disk) (w : World) : option DiskReply * Disk * World :=
  let reached := ou_reaches (w_turn w) in
  let w := w <| w_turn ::= S |> in
  if negb reached then (None, d <| dk_unreachable := true |>, w) else
  let '(reply, w) := serve request w in
  let d := d <| dk_writes_issued := dr_writes_issued reply |>
             <| dk_writes_suppressed := dr_writes_suppressed reply |>
             <| dk_flushes := dr_flushes reply |> in
  let d := if decide (dr_status reply = disk_status.LATCHED) then d <| dk_latched := true |> else d in
  let d := if decide (dr_status reply = disk_status.IO_ERROR) then d <| dk_failed := true |> else d in
  (Some reply, d, w).

Definition status_ok (reply : option DiskReply) : bool :=
  match reply with
  | Some reply => bool_decide (dr_status reply = disk_status.OK)
  | None => false
  end.

(** user/k4store/src/disk.rs:92-108 [Disk::read] *)
Definition read (block slot : N) (d : Disk) (w : World) : bool * Disk * World :=
  let '(reply, d, w) := call (mkDiskRequest disk_op.READ fault_mode.NONE block 1 slot 0) d w in
  if status_ok reply then (true, d <| dk_reads ::= N.succ |>, w) else (false, d, w).

(** user/k4store/src/disk.rs:115-128 [Disk::write] *)
Definition write (block slot mode : N) (d : Disk) (w : World) : bool * Disk * World :=
  let '(reply, d, w) := call (mkDiskRequest disk_op.WRITE mode block 1 slot 0) d w in
  (status_ok reply, d, w).

(** user/k4store/src/disk.rs:131-140 [Disk::flush] *)
Definition flush (d : Disk) (w : World) : bool * Disk * World :=
  let '(reply, d, w) := call (mkDiskRequest disk_op.FLUSH 0 0 0 0 0) d w in
  (status_ok reply, d, w).

(** user/k4store/src/disk.rs:146-153 [Disk::latch] *)
Definition latch (d : Disk) (w : World) : Disk * World :=
  let '(_, d, w) := call (mkDiskRequest disk_op.LATCH 0 0 0 0 0) d w in
  (d <| dk_latched := true |>, w).

(** user/k4store/src/disk.rs:156-162 [Disk::stats] *)
Definition stats (d : Disk) (w : World) : option DiskReply * Disk * World :=
  call (mkDiskRequest disk_op.STATS 0 0 0 0 0) d w.

End disk.
End Disk.

(** user/k4store/src/disk.rs:183-194 [slot_bytes]; [None] is the failed assertion. *)
Definition slot_bytes (slot : N) (w : World) : option (list N) := w_iobuf w !! N.to_nat slot.
(** The bytes of a slot as they are left. *)
Definition put_slot (slot : N) (bytes : list N) (w : World) : World :=
  w <| w_iobuf ::= <[N.to_nat slot := bytes]> |>.
