(* ===== verification/K4Store.v ===== *)
(** * The durable store: its state and its object index

    [user/k4store/src/state.rs] up to the closure of a root: the whole state of the
    service, the harness's faults, the log's tail, staging and the object index. The
    four static buffers are one list of staging slots and the results of the functions
    that fill the others; notes to the console are left out. A counter a step adds one
    to is unbounded, except where the medium decides its value. *)

From stdpp Require Import gmap.
From S2P Require Import Prelude Bytes Sha256 K4Layout K4Format Effects K4Disk.

#[local] Open Scope N_scope.
#[local] Open Scope act_scope.

(** user/k4store/src/state.rs:36-36 [MAX_OBJECTS] *)
Definition MAX_OBJECTS : nat := 40.
(** user/k4store/src/state.rs:42-42 [MAX_STAGED] *)
Definition MAX_STAGED : nat := 24.
(** user/k4store/src/state.rs:47-47 [MAX_PROTECTED] *)
Definition MAX_PROTECTED : nat := 40.
(** user/k4store/src/state.rs:51-51 [OBJECT_MAX] *)
Definition OBJECT_MAX : nat := N.to_nat geometry.OBJECT_MAX_BYTES.
(** user/k4store/src/state.rs:53-53 [MAX_PRINCIPALS] *)
Definition MAX_PRINCIPALS : nat := N.to_nat geometry.MAX_PRINCIPALS.
(** user/k4store/src/state.rs:55-55 [MAX_RESULTS] *)
Definition MAX_RESULTS : nat := N.to_nat geometry.MAX_RESULTS.
(** user/k4store/src/state.rs:57-57 [MAX_RETAINED] *)
Definition MAX_RETAINED : nat := N.to_nat geometry.MAX_RETAINED.
(** user/k4store/src/state.rs:59-59 [MAX_BINDINGS] *)
Definition MAX_BINDINGS : nat := N.to_nat geometry.MAX_TREE_ENTRIES.
(** user/k4store/src/state.rs:62-62 [READ_SLOT] *)
Definition READ_SLOT : N := 0.
(** user/k4store/src/state.rs:64-64 [WRITE_SLOT] *)
Definition WRITE_SLOT : N := 1.
(** The length of [PAYLOAD] and [REPLAYED]. *)
(** user/k4store/src/state.rs:70-72 [PAYLOAD, REPLAYED] *)
Definition PAYLOAD_MAX : nat := OBJECT_MAX + 256.

Definition no_digest : list N := replicate 32 0.

(** user/k4store/src/state.rs:118-134 [ObjectEntry] *)
Record ObjectEntry := mkObjectEntry {
  oe_digest : list N;
  oe_object_type : N;
  oe_length : N;
  oe_block : N;
  oe_durable : bool;
  oe_stage : N;
  oe_live : bool;
  oe_pinned : bool
}.
#[global] Instance ObjectEntry_rebuild : Rebuild ObjectEntry := λ e,
  mkObjectEntry (oe_digest e) (oe_object_type e) (oe_length e) (oe_block e) (oe_durable e)
    (oe_stage e) (oe_live e) (oe_pinned e).
Module ObjectEntry.
(** user/k4store/src/state.rs:136-149 [ObjectEntry::default] *)
Definition default : ObjectEntry := mkObjectEntry no_digest 0 0 0 false U32_MAX false false.
End ObjectEntry.

(** user/k4store/src/state.rs:153-162 [Pending] *)
Record Pending := mkPending {
  pd_live : bool;
  pd_principal : N;
  pd_request_sequence : N;
  pd_prepare_sequence : N;
  pd_prepare_digest : list N;
  pd_request_digest : list N;
  pd_candidate_root : list N;
  pd_reason : N
}.
#[global] Instance Pending_rebuild : Rebuild Pending := λ p,
  mkPending (pd_live p) (pd_principal p) (pd_request_sequence p) (pd_prepare_sequence p)
    (pd_prepare_digest p) (pd_request_digest p) (pd_candidate_root p) (pd_reason p).
Module Pending.
Definition default : Pending := mkPending false 0 0 0 no_digest no_digest no_digest 0.
End Pending.

(** user/k4store/src/state.rs:166-179 [Harness] *)
Record Harness := mkHarness {
  hs_present : bool;
  hs_point : N;
  hs_mode : N;
  hs_arg : N;
  hs_leg : N;
  hs_scenario : N;
  hs_seed : N;
  hs_stop_at_next_flush : N;
  hs_applied : bool;
  hs_armed : bool
}.
#[global] Instance Harness_rebuild : Rebuild Harness := λ h,
  mkHarness (hs_present h) (hs_point h) (hs_mode h) (hs_arg h) (hs_leg h) (hs_scenario h)
    (hs_seed h) (hs_stop_at_next_flush h) (hs_applied h) (hs_armed h).
Module Harness.
Definition default : Harness := mkHarness false 0 0 0 0 0 0 0 false false.
End Harness.

Module Fault.
(** user/k4store/src/state.rs:183-194 [Fault] *)
Inductive Fault := None_ | Write (mode : N) | Stop | Kill | LoseResponse.
End Fault.
Abbreviation Fault := Fault.Fault.

(** The staging area's bytes are [st_staged]. *)
(** user/k4store/src/state.rs:197-269 [Store] *)
Record Store := mkStore {
  st_disk : Disk;
  st_harness : Harness;
  st_demanded : option Fault;
  st_control_log : N;
  st_uuid : list N;
  st_store_epoch : N;
  st_superblock_generation : N;
  st_superblock_slot : N;
  st_arena : N;
  st_arena_start : N;
  st_arena_blocks : N;
  st_next_block : N;
  st_next_sequence : N;
  st_prev_digest : list N;
  st_checkpoint_sequence : N;
  st_durable_through : N;
  st_compaction_generation : N;
  st_published_generation : N;
  st_published_root : list N;
  st_published_policy : list N;
  st_published_receipt : list N;
  st_closure_incomplete : bool;
  st_objects : list ObjectEntry;
  st_stage_used : list bool;
  st_stage_len : list N;
  st_staged : list (list N);
  st_protected : list (list N);
  st_protected_count : nat;
  st_staged_reclaimed : N;
  st_principals : list PrincipalEntry;
  st_results : list ResultEntry;
  st_result_count : nat;
  st_result_next : nat;
  st_results_evicted : N;
  st_retained : list RetainedEntry;
  st_retained_count : nat;
  st_pending : Pending;
  st_ready : bool;
  st_integrity_failed : bool;
  st_scanned : N;
  st_recovery_aborts : N;
  st_dependency_missing : N;
  st_compactions : N;
  st_publications : N;
  st_refusals : N
}.
#[global] Instance Store_rebuild : Rebuild Store := λ s,
  mkStore (st_disk s) (st_harness s) (st_demanded s) (st_control_log s) (st_uuid s)
    (st_store_epoch s) (st_superblock_generation s) (st_superblock_slot s) (st_arena s)
    (st_arena_start s) (st_arena_blocks s) (st_next_block s) (st_next_sequence s)
    (st_prev_digest s) (st_checkpoint_sequence s) (st_durable_through s)
    (st_compaction_generation s) (st_published_generation s) (st_published_root s)
    (st_published_policy s) (st_published_receipt s) (st_closure_incomplete s)
    (st_objects s) (st_stage_used s) (st_stage_len s) (st_staged s) (st_protected s)
    (st_protected_count s) (st_staged_reclaimed s) (st_principals s) (st_results s)
    (st_result_count s) (st_result_next s) (st_results_evicted s) (st_retained s)
    (st_retained_count s) (st_pending s) (st_ready s) (st_integrity_failed s)
    (st_scanned s) (st_recovery_aborts s) (st_dependency_missing s) (st_compactions s)
    (st_publications s) (st_refusals s).

(** user/k4store/src/state.rs:272-274 [absolute]; [None] is the overflow. *)
Definition absolute (index : N) : option N := checked_add 64 geometry.STORE_BASE_BLOCK index.
(** user/k4store/src/state.rs:278-278 [COMMIT_CELLS] *)
Definition COMMIT_CELLS : N := 2.

(** The store's blocks, at their place on the device. *)
Definition at_block (index : N) : N := geometry.STORE_BASE_BLOCK + index.

Module Store.
(** user/k4store/src/state.rs:281-328 [Store::new] *)
Definition new (disk : Disk) : Store :=
  mkStore disk Harness.default None 0
    (replicate 16 0) 0 0 geometry.SUPERBLOCK_A_BLOCK 0 (at_block geometry.ARENA0_START_BLOCK)
    geometry.ARENA_BLOCK_COUNT (at_block geometry.ARENA0_START_BLOCK) 1 no_digest 0 0 0
    0 no_digest no_digest no_digest
    false (replicate MAX_OBJECTS ObjectEntry.default) (replicate MAX_STAGED false)
    (replicate MAX_STAGED 0) (replicate MAX_STAGED (replicate OBJECT_MAX 0))
    (replicate MAX_PROTECTED no_digest) 0 0
    (replicate MAX_PRINCIPALS PrincipalEntry.zeroed) (replicate MAX_RESULTS ResultEntry.zeroed) 0 0 0
    (replicate MAX_RETAINED RetainedEntry.zeroed) 0 Pending.default
    false false 0 0 0 0 0 0.
End Store.

(** ** The service and its outside *)

Record Sys := mkSys { sy_store : Store; sy_world : World }.
#[global] Instance Sys_rebuild : Rebuild Sys := λ s, mkSys (sy_store s) (sy_world s).

Section store.
Context `{Outside}.
(** How many cells the control log can have; a fill longer than that has not ended. *)
Context (log_cells : nat).

Definition self {R A} (f : Store → A) : Act Sys R A := ask (λ s, f (sy_store s)).
Definition update {R} (f : Store → Store) : Act Sys R () := change (λ s, s <| sy_store ::= f |>).
(** The outside is asked something; it is one turn later. *)
Definition outside {R A} (f : nat → A) : Act Sys R A :=
  λ s, Go (f (w_turn (sy_world s))) (s <| sy_world ::= λ w, w <| w_turn ::= S |> |>).
(** [k2::now_ns()] and [k2::log_query(log)]. *)
Definition now_ns {R} : Act Sys R N := outside (λ turn, ou_now turn mod 2 ^ 64).
Definition log_query {R} : Act Sys R (option LogInfo) := outside ou_log.

Definition on_disk {R A} (f : Disk → World → A * Disk * World) : Act Sys R A :=
  λ s, let '(a, d, w) := f (st_disk (sy_store s)) (sy_world s) in
       Go a (mkSys ((sy_store s) <| st_disk := d |>) w).
Definition disk_read {R} (block slot : N) : Act Sys R bool := on_disk (Disk.read block slot).
Definition disk_write {R} (block slot mode : N) : Act Sys R bool := on_disk (Disk.write block slot mode).
Definition disk_flush {R} : Act Sys R bool := on_disk Disk.flush.
Definition disk_latch {R} : Act Sys R () :=
  on_disk (λ d w, let '(d, w) := Disk.latch d w in ((), d, w)).
Definition slot {R} (i : N) : Act Sys R (list N) :=
  b <- ask (λ s, slot_bytes i (sy_world s));; or_panic b.
Definition set_slot {R} (i : N) (bytes : list N) : Act Sys R () :=
  change (λ s, s <| sy_world ::= put_slot i bytes |>).

(** [x + y] of values the medium decides. *)
Definition plus {R} (x y : N) : Act Sys R N := or_panic (checked_add 64 x y).

(** The first index of an element that satisfies the test. *)
Fixpoint position {A} (p : A → bool) (l : list A) : option nat :=
  match l with
  | [] => None
  | a :: l => if p a then Some 0%nat else S <$> position p l
  end.

(** ** The harness *)

(** user/k4store/src/state.rs:337-363 [Store::read_directive] *)
Definition read_directive : Act Sys () () := call (
  ok <- disk_read geometry.HARNESS_DIRECTIVE_BLOCK READ_SLOT;;
  return_if (negb ok) ();;;
  block <- slot READ_SLOT;;
  directive <- or_return (parse_harness block) ();;
  update (λ st, st <| st_harness :=
    mkHarness true (hd_fault_point directive) (hd_fault_mode directive) (hd_fault_arg directive)
      (hd_leg directive) (hd_scenario directive) (hd_seed directive)
      (hd_stop_at_next_flush directive) false false |>)).

(** The loop that fills the control log; each turn appends one note. *)
(** user/k4store/src/state.rs:434-454 [Store::lose_control_plane, the loop] *)
Fixpoint fill_plane {R} (fuel : nat) : Act Sys R () :=
  match fuel with
  | O => bad
  | S fuel =>
      info <- log_query;;
      match info with
      | None => go ()
      | Some info =>
          let room := saturating_sub (saturating_sub (li_capacity info) (li_reserved_cells info)) (li_used info) in
          if decide (room = 0) then go () else
          appended <- outside ou_append;;
          if negb appended then go () else fill_plane fuel
      end
  end.
(** user/k4store/src/state.rs:429-456 [Store::lose_control_plane] *)
Definition lose_control_plane {R} : Act Sys R () :=
  log <- self st_control_log;;
  if decide (log = 0) then go () else fill_plane log_cells.

(** user/k4store/src/state.rs:372-409 [Store::fault_at] *)
Definition fault_at {Q} (point ordinal : N) : Act Sys Q Fault := call (
  h <- self st_harness;;
  return_if (negb (hs_present h) || hs_applied h || negb (bool_decide (hs_point h = point))) Fault.None_;;;
  return_if (bool_decide (point = fault_point.BEFORE_OBJECT) && negb (bool_decide (hs_arg h = ordinal)))
    Fault.None_;;;
  (if negb (bool_decide (point = fault_point.BEFORE_OBJECT)) && bool_decide (0 < hs_arg h) then
     update (λ st, st <| st_harness ::= λ h, h <| hs_arg ::= N.pred |> |>);;; early Fault.None_
   else go ());;;
  update (λ st, st <| st_harness ::= λ h, h <| hs_applied := true |> |>);;;
  when (negb (bool_decide (hs_stop_at_next_flush h = 0)))
    (update (λ st, st <| st_harness ::= λ h, h <| hs_armed := true |> |>));;;
  let mode := hs_mode h in
  decided <-
    (if decide (mode = fault_mode.STOP) then go Fault.Stop
     else if decide (mode = fault_mode.KILL_SERVICE) then go Fault.Kill
     else if decide (mode = fault_mode.LOSE_RESPONSE) then go Fault.LoseResponse
     else if bool_decide (mode = fault_mode.DROP_WRITE) || bool_decide (mode = fault_mode.TEAR_WRITE) ||
             bool_decide (mode = fault_mode.IO_ERROR) || bool_decide (mode = fault_mode.REORDER)
     then go (Fault.Write mode)
     else if decide (mode = fault_mode.LOSE_CONTROL) then lose_control_plane;;; go Fault.None_
     else go Fault.None_);;
  match decided with
  | Fault.Stop | Fault.Kill | Fault.LoseResponse => update (λ st, st <| st_demanded := Some decided |>)
  | _ => go ()
  end;;;
  go decided).

(** ** The medium *)

(** user/k4store/src/state.rs:464-471 [Store::flush] *)
Definition flush {Q} : Act Sys Q bool := call (
  h <- self st_harness;;
  if hs_armed h then
    update (λ st, st <| st_harness ::= λ h, h <| hs_armed := false |> |>);;;
    disk_latch;;;
    early false
  else disk_flush).

(** One past the active arena's last block. *)
Definition arena_end {R} : Act Sys R N :=
  start <- self st_arena_start;;
  blocks <- self st_arena_blocks;;
  plus start blocks.

(** user/k4store/src/state.rs:474-501 [Store::append] *)
Definition append {Q} (kind : N) (body : list N) (mode : N) : Act Sys Q (option (list N)) := call (
  last <- arena_end;;
  st <- self id;;
  return_if (bool_decide (last <= st_next_block st)) None;;;
  let frame := mkRecordFrame kind (st_next_sequence st) (st_store_epoch st)
                 (st_arena st mod 2 ^ 32) (st_prev_digest st) in
  out <- slot WRITE_SLOT;;
  framed <- or_panic (frame_record out frame body);;
  match framed with
  | inl _ => early None
  | inr (out, (blocks, digest)) =>
      set_slot WRITE_SLOT out;;;
      return_if (negb (bool_decide (blocks = 1%nat))) None;;;
      let block := st_next_block st in
      written <- disk_write block WRITE_SLOT mode;;
      return_if (negb written) None;;;
      next_block <- plus (st_next_block st) 1;;
      next_sequence <- plus (st_next_sequence st) 1;;
      update (λ st, st <| st_next_block := next_block |> <| st_next_sequence := next_sequence |>
                       <| st_prev_digest := digest |>);;;
      go (Some digest)
  end).

(** user/k4store/src/state.rs:509-515 [Store::write_failure] *)
Definition write_failure (st : Store) : N :=
  if dk_unreachable (st_disk st) then store_status.UNAVAILABLE else store_status.INTEGRITY_FAILED.

(** user/k4store/src/state.rs:518-520 [Store::free_blocks] *)
Definition free_blocks {R} : Act Sys R N :=
  last <- arena_end;;
  next <- self st_next_block;;
  go (saturating_sub last next).

(** ** The object index *)

(** user/k4store/src/state.rs:524-528 [Store::find] *)
Definition find (digest : list N) (st : Store) : option nat :=
  position (λ e, oe_live e && bool_decide (oe_digest e = digest)) (st_objects st).
(** user/k4store/src/state.rs:530-532 [Store::free_object_slot] *)
Definition free_object_slot (st : Store) : option nat := position (λ e, negb (oe_live e)) (st_objects st).
(** user/k4store/src/state.rs:534-536 [Store::free_stage_slot] *)
Definition free_stage_slot (st : Store) : option nat := position negb (st_stage_used st).

(** [self.objects[index]] *)
Definition object {R} (index : nat) : Act Sys R ObjectEntry :=
  objects <- self st_objects;; or_panic (objects !! index).
Definition set_object {R} (index : nat) (f : ObjectEntry → ObjectEntry) : Act Sys R () :=
  update (λ st, st <| st_objects ::= alter f index |>).
(** A staging slot is given back. *)
Definition free_stage {R} (stage : N) : Act Sys R () :=
  used <- self st_stage_used;;
  _ <- or_panic (used !! N.to_nat stage);;
  update (λ st, st <| st_stage_used ::= <[N.to_nat stage := false]> |>).

(** The length of the content buffer bounds what is copied into it. *)
Definition into_content {R} (bytes : list N) : Act Sys R (list N) :=
  or_panic (if decide (length bytes <= OBJECT_MAX)%nat then Some bytes else None).

(** The object's bytes, which the code leaves at the front of [content()]. *)
(** user/k4store/src/state.rs:606-637 [Store::load] *)
Definition load {Q} (index : nat) : Act Sys Q (option (list N)) := call (
  entry <- object index;;
  return_if (negb (oe_live entry)) None;;;
  let len := N.to_nat (oe_length entry) in
  if negb (bool_decide (oe_stage entry = U32_MAX)) then
    staged <- self st_staged;;
    bytes <- or_panic (staged !! N.to_nat (oe_stage entry));;
    bytes <- into_content (take len bytes);;
    (if decide (length bytes < len)%nat then bad else early (Some bytes))
  else
  return_if (negb (oe_durable entry)) None;;;
  ok <- disk_read (oe_block entry) READ_SLOT;;
  return_if (negb ok) None;;;
  span <- slot READ_SLOT;;
  record <- or_return (parse_record span) None;;
  return_if (negb (bool_decide (rh_kind (pr_header record) = record_kind.OBJECT))) None;;;
  let body := record_payload record span in
  head <- or_return (read_from ObjectRecordHeader_codec body 0) None;;
  let start := ObjectRecordHeader.SIZE in
  return_if (negb (bool_decide (oh_length head = oe_length entry)) || bool_decide (length body < start + len)%nat) None;;;
  let bytes := slice start len body in
  return_if (negb (bool_decide (object_digest (oh_object_type head) bytes = oe_digest entry))) None;;;
  bytes <- into_content bytes;;
  go (Some bytes)).

(** Both the type and the bytes; the output buffer holds [room]. *)
(** user/k4store/src/state.rs:644-652 [Store::read_object] *)
Definition read_object {Q} (digest : list N) (room : nat) : Act Sys Q (option (N * list N)) := call (
  found <- self (find digest);;
  index <- or_return found None;;
  loaded <- load index;;
  bytes <- or_return loaded None;;
  return_if (bool_decide (room < length bytes)%nat) None;;;
  entry <- object index;;
  go (Some (oe_object_type entry, bytes))).

(** ** Closures *)

(** The digests an object names; [None] when the walk must stop. *)
(** user/k4store/src/state.rs:806-838 [Store::closure, the children] *)
Definition children {Q} (index : nat) : Act Sys Q (option (list (list N))) := call (
  entry <- object index;;
  if decide (oe_object_type entry = object_type.MANIFEST) then
    loaded <- load index;;
    match loaded with
    | None => update (λ st, st <| st_closure_incomplete := true |>);;; early None
    | Some bytes =>
        manifest <- or_return (read_from Manifest_codec bytes 0) None;;
        go (Some [mf_tree_digest manifest; mf_policy_digest manifest; mf_validation_digest manifest])
    end
  else if decide (oe_object_type entry = object_type.TREE) then
    loaded <- load index;;
    match loaded with
    | None => update (λ st, st <| st_closure_incomplete := true |>);;; early None
    | Some bytes =>
        match decode_tree bytes MAX_BINDINGS with
        | inl _ => early None
        | inr bindings => go (Some (map bd_digest bindings))
        end
    end
  else go (Some [])).

(** The children behind the queue, of which [tail] entries have been used. *)
(** user/k4store/src/state.rs:839-851 [Store::closure, the queue] *)
Fixpoint enqueue (digests : list (list N)) (queue : list nat) (tail : nat) (st : Store) :
    option (list nat * nat) :=
  match digests with
  | [] => Some (queue, tail)
  | digest :: digests =>
      if bool_decide (digest = no_digest) then enqueue digests queue tail st else
      match find digest st with
      | None => None
      | Some child =>
          if decide (tail = MAX_OBJECTS) then None
          else enqueue digests (queue ++ [child]) (S tail) st
      end
  end.

(** The walk: [queue] is what is between head and tail, [out] what has been visited.
    The guard on the number of turns is the recursion's measure. *)
(** user/k4store/src/state.rs:789-852 [Store::closure, the loop] *)
Fixpoint closure_walk {R} (turns : nat) (queue : list nat) (tail : nat) (out : list nat) :
    Act Sys R (bool * list nat) :=
  match queue with
  | [] => go (true, out)
  | index :: queue =>
      match turns with
      | O => go (false, out)
      | S turns =>
          if bool_decide (index ∈ out) then closure_walk turns queue tail out else
          if decide (length out = MAX_OBJECTS) then go (false, out) else
          let out := out ++ [index] in
          named <- children index;;
          match named with
          | None => go (false, out)
          | Some digests =>
              queued <- self (enqueue digests queue tail);;
              match queued with
              | None => go (false, out)
              | Some (queue, tail) => closure_walk turns queue tail out
              end
          end
      end
  end.

(** Whether everything the root names is there, and the indices visited. *)
(** user/k4store/src/state.rs:778-854 [Store::closure] *)
Definition closure {Q} (root : list N) : Act Sys Q (bool * list nat) := call (
  update (λ st, st <| st_closure_incomplete := false |>);;;
  found <- self (find root);;
  index <- or_return found (false, []);;
  closure_walk (MAX_OBJECTS * 2) [index] 1 []).

(** ** Staging *)

(** user/k4store/src/state.rs:698-702 [Store::unpin] *)
Definition unpin {R} : Act Sys R () :=
  update (λ st, st <| st_objects ::= map (λ e, e <| oe_pinned := false |>) |>).

(** One root's objects are kept. *)
(** user/k4store/src/state.rs:724-739 [Store::reclaim_staged, mark] *)
Definition mark {Q} (keep : list bool) (root : list N) : Act Sys Q (list bool) := call (
  return_if (bool_decide (root = no_digest)) keep;;;
  walked <- closure root;;
  if walked.1 : bool then
    go (foldl (λ keep index, <[index := true]> keep) keep walked.2)
  else
    found <- self (find root);;
    go match found with Some index => <[index := true]> keep | None => keep end).

(** user/k4store/src/state.rs:755-764 [Store::reclaim_staged, the sweep] *)
Definition sweep_one {R} (freed : nat) (index : nat) (kept : bool) : Act Sys R nat :=
  entry <- object index;;
  if negb (oe_live entry) || oe_durable entry || oe_pinned entry || kept then go freed else
  when (negb (bool_decide (oe_stage entry = U32_MAX)))
    (free_stage (oe_stage entry);;;
     update (λ st, st <| st_stage_len ::= <[N.to_nat (oe_stage entry) := 0]> |>));;;
  set_object index (λ _, ObjectEntry.default);;;
  go (S freed).

(** user/k4store/src/state.rs:719-771 [Store::reclaim_staged] *)
Definition reclaim_staged {Q} : Act Sys Q nat := call (
  published <- self st_published_root;;
  keep <- mark (replicate MAX_OBJECTS false) published;;
  retained <- self (λ st, take (st_retained_count st `min` MAX_RETAINED) (st_retained st));;
  keep <- for_fold retained keep (λ keep entry, mark keep (rt_root_digest entry));;
  protected <- self (λ st, take (st_protected_count st `min` MAX_PROTECTED) (st_protected st));;
  keep <- for_fold protected keep mark;;
  freed <- for_fold (imap pair keep) 0%nat (λ freed x, sweep_one freed x.1 x.2);;
  update (λ st, st <| st_staged_reclaimed ::= N.add (N.of_nat freed) |>);;;
  go freed).

(** Into a free staging slot, under a free index entry. *)
(** user/k4store/src/state.rs:553-576 [Store::stage, the placing] *)
Definition place (object_type : N) (bytes digest : list N) : Act Sys (N + list N) (N + list N) :=
  free <- self free_stage_slot;;
  slot <- or_return free (inl store_status.EXHAUSTED);;
  free <- self free_object_slot;;
  index <- or_return free (inl store_status.EXHAUSTED);;
  update (λ st, st
    <| st_staged ::= alter (splice 0 bytes) slot |>
    <| st_stage_used ::= <[slot := true]> |>
    <| st_stage_len ::= <[slot := N.of_nat (length bytes)]> |>
    <| st_objects ::= <[index := mkObjectEntry digest object_type (N.of_nat (length bytes)) 0 false
                                   (N.of_nat slot) true true]> |>);;;
  go (inr digest).

(** user/k4store/src/state.rs:539-577 [Store::stage] *)
Definition stage {Q} (object_type : N) (bytes : list N) : Act Sys Q (N + list N) := call (
  return_if (bool_decide (OBJECT_MAX < length bytes)%nat) (inl store_status.TOO_LARGE);;;
  let digest := object_digest object_type bytes in
  found <- self (find digest);;
  return_if (bool_decide (found ≠ None)) (inr digest);;;
  full <- self (λ st, bool_decide (free_stage_slot st = None) || bool_decide (free_object_slot st = None));;
  when full (_ <- reclaim_staged;; go ());;;
  place object_type bytes digest).

(** user/k4store/src/state.rs:580-599 [Store::adopt] *)
Definition adopt {Q} (digest : list N) (object_type length block : N) : Act Sys Q () := call (
  found <- self (find digest);;
  match found with
  | Some index => set_object index (λ e, e <| oe_durable := true |> <| oe_block := block |>);;; early ()
  | None => go ()
  end;;;
  free <- self free_object_slot;;
  index <- or_return free ();;
  set_object index (λ _, mkObjectEntry digest object_type length block true U32_MAX true false)).

(** A record's payload: a head and the object's bytes. *)
Definition object_body (object_type length : N) (digest bytes : list N) : list N :=
  cd_bytes ObjectRecordHeader_codec (mkObjectRecordHeader object_type 0 length digest) ++ bytes.

(** user/k4store/src/state.rs:655-691 [Store::write_object] *)
Definition write_object {Q} (index : nat) (mode : N) : Act Sys Q bool := call (
  entry <- object index;;
  loaded <- load index;;
  bytes <- or_return loaded false;;
  return_if (negb (bool_decide (N.of_nat (length bytes) = oe_length entry))) false;;;
  block <- self st_next_block;;
  appended <- append record_kind.OBJECT
    (object_body (oe_object_type entry) (oe_length entry) (oe_digest entry) bytes) mode;;
  return_if (bool_decide (appended = None)) false;;;
  set_object index (λ e, e <| oe_durable := true |> <| oe_block := block |>);;;
  when (negb (bool_decide (oe_stage entry = U32_MAX)))
    (free_stage (oe_stage entry);;; set_object index (λ e, e <| oe_stage := U32_MAX |>));;;
  go true).

(** ** Principals and results *)

(** user/k4store/src/state.rs:858-872 [Store::principal_slot] *)
Definition principal_slot {Q} (principal : N) : Act Sys Q (option nat) := call (
  principals <- self st_principals;;
  match position (λ e, bool_decide (pe_principal e = principal)) principals with
  | Some index => early (Some index)
  | None => go ()
  end;;;
  index <- or_return (position (λ e, bool_decide (pe_principal e = 0)) principals) None;;
  update (λ st, st <| st_principals ::= alter (λ e, e <| pe_principal := principal |>) index |>);;;
  go (Some index)).

Definition held_by (principal sequence : N) (e : ResultEntry) : bool :=
  bool_decide (re_principal e = principal) && bool_decide (re_request_sequence e = sequence).
(** The results in use. *)
Definition results_in_use (st : Store) : list ResultEntry := take (st_result_count st) (st_results st).
(** user/k4store/src/state.rs:874-880 [Store::result_for] *)
Definition result_for (principal sequence : N) (st : Store) : option ResultEntry :=
  index ← position (held_by principal sequence) (results_in_use st);
  results_in_use st !! index.

(** user/k4store/src/state.rs:882-905 [Store::record_result] *)
Definition record_result (entry : ResultEntry) (st : Store) : Store :=
  match position (held_by (re_principal entry) (re_request_sequence entry)) (results_in_use st) with
  | Some index => st <| st_results ::= <[index := entry]> |>
  | None =>
      if decide (st_result_count st < MAX_RESULTS)%nat then
        st <| st_results ::= <[st_result_count st := entry]> |> <| st_result_count ::= S |>
      else
        st <| st_results ::= <[st_result_next st := entry]> |>
           <| st_result_next ::= λ n, (S n `mod` MAX_RESULTS)%nat |>
           <| st_results_evicted ::= N.succ |>
  end.

End store.

(** The store's own statements, run. *)
Section run_store.
Context `{Outside} {R : Type}.
Lemma run_self {A} (f : Store → A) s : self (R := R) f s = Go (f (sy_store s)) s.
Proof. done. Qed.
Lemma run_update f s : update (R := R) f s = Go () (s <| sy_store ::= f |>).
Proof. done. Qed.
Lemma run_object (index : nat) s :
  object (R := R) index s = match st_objects (sy_store s) !! index with Some e => Go e s | None => Bad s end.
Proof. unfold object, self, ask, bind_act, or_panic. by destruct (_ !! index). Qed.
End run_store.

Ltac runs := run_with ltac:(first [rewrite run_self | rewrite run_update]).
