(* ===== verification/K4StoreLog.v ===== *)
(** * The durable store: formatting and recovery

    [user/k4store/src/state.rs]: the checkpoint and the superblocks, the replay of the
    valid prefix of the active arena, and the resolution of what it left pending. *)

From stdpp Require Import gmap.
From S2P Require Import Prelude Bytes Sha256 K4Layout K4Format Effects K4Disk K4Store.

#[local] Open Scope N_scope.
#[local] Open Scope act_scope.

Section recovery.
Context `{Outside}.

(** The principals a slot is used for. *)
Definition principals_in_use (st : Store) : list PrincipalEntry :=
  filter (λ e, pe_principal e ≠ 0) (st_principals st).

(** Structures one after another into a buffer. *)
Fixpoint write_all {A} (c : Codec A) (entries : list A) (body : list N) (at_ : nat) :
    Res (list N * nat) :=
  match entries with
  | [] => ok (body, at_)
  | e :: entries =>
      andthen (write_to c e body at_) (λ body, write_all c entries body (at_ + cd_size c))
  end.

(** The buffer and how much of it is used. *)
(** user/k4store/src/state.rs:959-982 [Store::write_checkpoint, the body] *)
Definition checkpoint_body (head : CheckpointRecord) (st : Store) : Res (list N * nat) :=
  andthen (write_to CheckpointRecord_codec head (replicate 1024 0) 0) (λ body,
  andthen (write_all PrincipalEntry_codec (principals_in_use st) body CheckpointRecord.SIZE) (λ '(body, at_),
  andthen (write_all ResultEntry_codec (results_in_use st) body at_) (λ '(body, at_),
  write_all RetainedEntry_codec (take (st_retained_count st) (st_retained st)) body at_))).

(** user/k4store/src/state.rs:940-995 [Store::write_checkpoint] *)
Definition write_checkpoint {Q} (source_arena : N) : Act Sys Q bool := call (
  created <- now_ns;;
  st <- self id;;
  let head := mkCheckpointRecord (st_published_generation st) (st_published_root st)
    (st_published_policy st) (st_published_receipt st) (N.of_nat (length (principals_in_use st)))
    (N.of_nat (st_result_count st)) (N.of_nat (st_retained_count st)) 0 created source_arena
    (st_compaction_generation st) in
  body <- or_panic (checkpoint_body head st);;
  match body with
  | inl _ => early false
  | inr (body, at_) =>
      let sequence := st_next_sequence st in
      update (λ st, st <| st_prev_digest := no_digest |>);;;
      appended <- append record_kind.CHECKPOINT (take at_ body) fault_mode.NONE;;
      return_if (bool_decide (appended = None)) false;;;
      update (λ st, st <| st_checkpoint_sequence := sequence |>);;;
      go true
  end).

(** user/k4store/src/state.rs:999-1015 [Store::write_superblock, the block] *)
Definition superblock_of (st : Store) (generation durable_through : N) : StoreSuperblock :=
  let block := StoreSuperblock.zeroed <| sb_magic := magic.SUPERBLOCK |>
    <| sb_format_major := FORMAT_MAJOR |> <| sb_format_minor := FORMAT_MINOR |>
    <| sb_store_uuid := st_uuid st |> <| sb_store_epoch := st_store_epoch st |>
    <| sb_superblock_generation := generation |> <| sb_active_arena := st_arena st |>
    <| sb_arena0_start_block := geometry.ARENA0_START_BLOCK |>
    <| sb_arena0_block_count := geometry.ARENA_BLOCK_COUNT |>
    <| sb_arena1_start_block := geometry.ARENA1_START_BLOCK |>
    <| sb_arena1_block_count := geometry.ARENA_BLOCK_COUNT |>
    <| sb_block_size := geometry.BLOCK_SIZE |>
    <| sb_checkpoint_sequence := st_checkpoint_sequence st |>
    <| sb_durable_through_sequence := durable_through |>
    <| sb_published_generation := st_published_generation st |>
    <| sb_published_root := st_published_root st |> in
  block <| sb_digest := superblock_digest block |>.

(** user/k4store/src/state.rs:998-1032 [Store::write_superblock] *)
Definition write_superblock {Q} (slot generation : N) : Act Sys Q bool := call (
  st <- self id;;
  durable_through <- or_panic (checked_sub (st_next_sequence st) 1);;
  let block := superblock_of st generation durable_through in
  written <- or_panic (write_to StoreSuperblock_codec block zero_block 0);;
  match written with
  | inl _ => early false
  | inr span =>
      set_slot WRITE_SLOT span;;;
      target <- or_panic (absolute slot);;
      ok <- disk_write target WRITE_SLOT fault_mode.NONE;;
      return_if (negb ok) false;;;
      update (λ st, st <| st_durable_through := durable_through |>);;;
      go true
  end).

(** user/k4store/src/state.rs:1035-1040 [Store::read_superblock] *)
Definition read_superblock {Q} (slot_ : N) : Act Sys Q (option StoreSuperblock) := call (
  target <- or_panic (absolute slot_);;
  ok <- disk_read target READ_SLOT;;
  return_if (negb ok) None;;;
  block <- slot READ_SLOT;;
  go (parse_superblock block)).

(** user/k4store/src/state.rs:910-937 [Store::format] *)
Definition format {Q} (seed : N) : Act Sys Q bool := call (
  start <- or_panic (absolute geometry.ARENA0_START_BLOCK);;
  update (λ st, st <| st_store_epoch := 1 |> <| st_uuid := store_uuid seed 1 |> <| st_arena := 0 |>
    <| st_arena_start := start |> <| st_arena_blocks := geometry.ARENA_BLOCK_COUNT |>
    <| st_next_block := start |> <| st_next_sequence := 1 |> <| st_prev_digest := no_digest |>
    <| st_published_generation := 0 |> <| st_published_root := no_digest |>);;;
  ok <- write_checkpoint 0;;
  return_if (negb ok) false;;;
  ok <- flush;;
  return_if (negb ok) false;;;
  update (λ st, st <| st_superblock_generation := 1 |>
                   <| st_superblock_slot := geometry.SUPERBLOCK_A_BLOCK |>);;;
  ok <- write_superblock geometry.SUPERBLOCK_A_BLOCK 1;;
  return_if (negb ok) false;;;
  ok <- flush;;
  return_if (negb ok) false;;;
  go true).

(** ** Replay *)

(** [count] structures from a body; [None] when it is too short. *)
Fixpoint read_all {A} (c : Codec A) (count : nat) (body : list N) (at_ : nat) : option (list A * nat) :=
  match count with
  | O => Some ([], at_)
  | S count =>
      entry ← read_from c body at_;
      '(entries, at_) ← read_all c count body (at_ + cd_size c);
      Some (entry :: entries, at_)
  end.
(** The front of a table replaced. *)
Definition overwrite {A} (new old : list A) : list A := new ++ drop (length new) old.

(** The tables as a body that is too short leaves them are never read again. *)
(** user/k4store/src/state.rs:1182-1222 [Store::load_checkpoint] *)
Definition load_checkpoint {Q} (body : list N) : Act Sys Q bool := call (
  head <- or_return (read_from CheckpointRecord_codec body 0) false;;
  update (λ st, st
    <| st_published_generation := ck_published_generation head |>
    <| st_published_root := ck_published_root head |>
    <| st_published_policy := ck_published_policy head |>
    <| st_published_receipt := ck_published_receipt head |>
    <| st_compaction_generation := ck_compaction_generation head |>);;;
  return_if (bool_decide (geometry.MAX_PRINCIPALS < ck_principal_count head) ||
             bool_decide (geometry.MAX_RESULTS < ck_result_count head) ||
             bool_decide (geometry.MAX_RETAINED < ck_retained_count head)) false;;;
  principals <- or_return
    (read_all PrincipalEntry_codec (N.to_nat (ck_principal_count head)) body CheckpointRecord.SIZE) false;;
  update (λ st, st <| st_principals ::= overwrite principals.1 |>
                   <| st_result_count := N.to_nat (ck_result_count head) |>);;;
  results <- or_return
    (read_all ResultEntry_codec (N.to_nat (ck_result_count head)) body principals.2) false;;
  update (λ st, st <| st_results ::= overwrite results.1 |>
                   <| st_retained_count := N.to_nat (ck_retained_count head) |>);;;
  retained <- or_return
    (read_all RetainedEntry_codec (N.to_nat (ck_retained_count head)) body results.2) false;;
  update (λ st, st <| st_retained ::= overwrite retained.1 |>);;;
  go true).

(** user/k4store/src/state.rs:1232-1249 [Store::replay_record, OBJECT] *)
Definition replay_object {Q} (body : list N) (block : N) : Act Sys Q bool := call (
  head <- or_return (read_from ObjectRecordHeader_codec body 0) false;;
  let start := ObjectRecordHeader.SIZE in
  let len := N.to_nat (oh_length head) in
  return_if (bool_decide (geometry.OBJECT_MAX_BYTES < oh_length head) ||
             bool_decide (length body < start + len)%nat) false;;;
  return_if (negb (bool_decide (object_digest (oh_object_type head) (slice start len body) = oh_content_digest head)))
    false;;;
  adopt (oh_content_digest head) (oh_object_type head) (oh_length head) block;;;
  go true).

(** A principal's slot takes what a record says of it. *)
Definition with_principal {Q} (principal : N) (f : PrincipalEntry → PrincipalEntry) : Act Sys Q () :=
  found <- principal_slot principal;;
  match found with
  | Some index => update (λ st, st <| st_principals ::= alter f index |>)
  | None => go ()
  end.
Definition settled (sequence : N) (e : PrincipalEntry) : PrincipalEntry :=
  e <| pe_high_water := sequence |> <| pe_pending_sequence := 0 |>.

(** user/k4store/src/state.rs:1250-1267 [Store::replay_record, PREPARE] *)
Definition replay_prepare {Q} (body : list N) : Act Sys Q bool := call (
  record <- or_return (read_from PrepareRecord_codec body 0) false;;
  st <- self id;;
  sequence <- or_panic (checked_sub (st_next_sequence st) 1);;
  update (λ st, st <| st_pending :=
    mkPending true (pr_principal record) (pr_request_sequence record) sequence (st_prev_digest st)
      (pr_request_digest record) (pr_candidate_root record) abort_reason.RECOVERED_UNRESOLVED |>);;;
  with_principal (pr_principal record) (λ e, e <| pe_pending_sequence := pr_request_sequence record |>);;;
  go true).

(** The commit whose dependency is missing. *)
(** user/k4store/src/state.rs:1293-1306 [Store::replay_record, a dependency missing] *)
Definition dependency_missing {R} : Act Sys R () :=
  update (λ st, st <| st_pending ::= λ p, p <| pd_reason := abort_reason.DEPENDENCY_MISSING |> |>
                   <| st_dependency_missing ::= N.succ |>).

(** user/k4store/src/state.rs:1268-1327 [Store::replay_record, COMMIT] *)
Definition replay_commit {Q} (body : list N) : Act Sys Q bool := call (
  record <- or_return (read_from CommitRecord_codec body 0) false;;
  pending <- self st_pending;;
  return_if (negb (pd_live pending) ||
             negb (bool_decide (pd_prepare_sequence pending = cr_prepare_sequence record)) ||
             negb (bool_decide (pd_prepare_digest pending = cr_prepare_digest record))) false;;;
  return_if (negb (bool_decide (pd_candidate_root pending = cr_root_digest record))) false;;;
  walked <- closure (cr_root_digest record);;
  (if negb walked.1 then dependency_missing;;; early true else go ());;;
  objects <- self st_objects;;
  entries <- or_panic (mapM (λ index, objects !! index) walked.2);;
  (if existsb (λ e, negb (oe_durable e)) entries then dependency_missing;;; early true else go ());;;
  update (λ st, record_result
    (mkResultEntry (cr_principal record) (cr_request_sequence record) result_outcome.COMMITTED
       outbox_status.NONE (cr_new_generation record) (cr_root_digest record) (pd_request_digest pending))
    (st <| st_published_generation := cr_new_generation record |>
        <| st_published_root := cr_root_digest record |>
        <| st_published_policy := cr_policy_digest record |>
        <| st_published_receipt := cr_receipt_digest record |>));;;
  with_principal (cr_principal record) (settled (cr_request_sequence record));;;
  update (λ st, st <| st_pending := Pending.default |>);;;
  go true).

(** An aborted request's result. *)
Definition aborted (principal sequence : N) (request : list N) : ResultEntry :=
  mkResultEntry principal sequence result_outcome.ABORTED outbox_status.NONE 0 no_digest request.

(** user/k4store/src/state.rs:1328-1347 [Store::replay_record, ABORT] *)
Definition replay_abort {Q} (body : list N) : Act Sys Q bool := call (
  record <- or_return (read_from AbortRecord_codec body 0) false;;
  pending <- self st_pending;;
  update (record_result (aborted (ab_principal record) (ab_request_sequence record) (pd_request_digest pending)));;;
  with_principal (ab_principal record) (settled (ab_request_sequence record));;;
  update (λ st, st <| st_pending := Pending.default |>);;;
  go true).

(** The outbox status of a recorded result. *)
(** user/k4store/src/state.rs:1348-1363 [Store::replay_record, OUTBOX]; the same lines
    end [record_outbox]. *)
Definition set_outbox (principal sequence status : N) (st : Store) : Store :=
  match position (held_by principal sequence) (results_in_use st) with
  | Some index => st <| st_results ::= alter (λ e, e <| re_outbox_status := status |>) index |>
  | None => st
  end.
Definition replay_outbox {Q} (body : list N) : Act Sys Q bool := call (
  record <- or_return (read_from OutboxRecord_codec body 0) false;;
  update (set_outbox (ob_principal record) (ob_request_sequence record) (ob_status record));;;
  go true).

(** user/k4store/src/state.rs:1224-1368 [Store::replay_record] *)
Definition replay_record {Q} (kind : N) (body : list N) (block : N) : Act Sys Q bool :=
  if decide (kind = record_kind.OBJECT) then replay_object body block
  else if decide (kind = record_kind.PREPARE) then replay_prepare body
  else if decide (kind = record_kind.COMMIT) then replay_commit body
  else if decide (kind = record_kind.ABORT) then replay_abort body
  else if decide (kind = record_kind.OUTBOX) then replay_outbox body
  else go false.

(** A record's payload is copied to a buffer shorter than a block can hold. *)
(** user/k4store/src/state.rs:1152-1153 [Store::replay, the copy] *)
Definition replayed {R} (payload : list N) : Act Sys R (list N) :=
  or_panic (if decide (length payload <= PAYLOAD_MAX)%nat then Some payload else None).

(** The header is of the record the chain says comes next. *)
(** user/k4store/src/state.rs:1142-1148 [Store::replay, the link] *)
Definition links (header : RecordHeader) (st : Store) : bool :=
  bool_decide (rh_sequence header = st_next_sequence st) &&
  bool_decide (rh_store_epoch header = st_store_epoch st) &&
  bool_decide (rh_arena header = st_arena st) &&
  bool_decide (rh_prev_digest header = st_prev_digest st).

(** The forward scan; false when a record that links is refused. Every turn moves one
    block on, so the arena's length is fuel enough. *)
(** user/k4store/src/state.rs:1131-1167 [Store::replay, the loop] *)
Fixpoint replay_scan {R} (fuel : nat) : Act Sys R bool :=
  last <- arena_end;;
  st <- self id;;
  if decide (last <= st_next_block st) then go true else
  match fuel with
  | O => bad
  | S fuel =>
      ok <- disk_read (st_next_block st) READ_SLOT;;
      if negb ok then go true else
      span <- slot READ_SLOT;;
      match parse_record span with
      | None => go true
      | Some record =>
          let header := pr_header record in
          if negb (links header st) then go true else
          body <- replayed (record_payload record span);;
          next_block <- plus (st_next_block st) (rh_block_count header);;
          next_sequence <- plus (st_next_sequence st) 1;;
          update (λ st, st <| st_next_block := next_block |> <| st_next_sequence := next_sequence |>
                           <| st_prev_digest := rh_digest header |> <| st_scanned ::= N.succ |>);;;
          replayed_ok <- replay_record (rh_kind header) body (st_next_block st);;
          if negb replayed_ok then go false else replay_scan fuel
      end
  end.

(** The checkpoint that opens the arena. *)
(** user/k4store/src/state.rs:1106-1126 [Store::replay, the checkpoint] *)
Definition replay_open {Q} (superblock : StoreSuperblock) : Act Sys Q bool := call (
  start <- self st_arena_start;;
  ok <- disk_read start READ_SLOT;;
  return_if (negb ok) false;;;
  span <- slot READ_SLOT;;
  record <- or_return (parse_record span) false;;
  arena <- self st_arena;;
  let header := pr_header record in
  return_if (negb (bool_decide (rh_kind header = record_kind.CHECKPOINT)) ||
             negb (bool_decide (rh_sequence header = sb_checkpoint_sequence superblock)) ||
             negb (bool_decide (rh_store_epoch header = sb_store_epoch superblock)) ||
             negb (bool_decide (rh_arena header = arena))) false;;;
  loaded <- load_checkpoint (record_payload record span);;
  return_if (negb loaded) false;;;
  next_sequence <- plus (rh_sequence header) 1;;
  next_block <- plus start (rh_block_count header);;
  update (λ st, st <| st_next_sequence := next_sequence |> <| st_next_block := next_block |>
                   <| st_prev_digest := rh_digest header |> <| st_scanned := 1 |>);;;
  go true).

(** user/k4store/src/state.rs:1105-1180 [Store::replay] *)
Definition replay {Q} (superblock : StoreSuperblock) : Act Sys Q bool := call (
  opened <- replay_open superblock;;
  return_if (negb opened) false;;;
  blocks <- self st_arena_blocks;;
  scanned <- replay_scan (N.to_nat blocks);;
  return_if (negb scanned) false;;;
  next_sequence <- self st_next_sequence;;
  last <- or_panic (checked_sub next_sequence 1);;
  return_if (bool_decide (last < sb_durable_through_sequence superblock)) false;;;
  go true).

(** user/k4store/src/state.rs:1371-1412 [Store::resolve_pending] *)
Definition resolve_pending {Q} : Act Sys Q bool := call (
  pending <- self st_pending;;
  return_if (negb (pd_live pending)) true;;;
  now <- now_ns;;
  let record := mkAbortRecord (pd_prepare_sequence pending) (pd_prepare_digest pending) (pd_reason pending) 0
    (pd_principal pending) (pd_request_sequence pending) now in
  appended <- append record_kind.ABORT (cd_bytes AbortRecord_codec record) fault_mode.NONE;;
  return_if (bool_decide (appended = None)) false;;;
  ok <- flush;;
  return_if (negb ok) false;;;
  update (λ st, record_result (aborted (pd_principal pending) (pd_request_sequence pending) (pd_request_digest pending))
    (st <| st_recovery_aborts ::= N.succ |>));;;
  with_principal (pd_principal pending) (settled (pd_request_sequence pending));;;
  update (λ st, st <| st_pending := Pending.default |>);;;
  go true).

(** The newest superblock and where it is. *)
(** user/k4store/src/state.rs:1046-1064 [Store::recover, chosen] *)
Definition choose (a b : option StoreSuperblock) : option (StoreSuperblock * N) :=
  match a, b with
  | None, None => None
  | Some one, None => Some (one, geometry.SUPERBLOCK_A_BLOCK)
  | None, Some two => Some (two, geometry.SUPERBLOCK_B_BLOCK)
  | Some one, Some two =>
      if decide (sb_superblock_generation two <= sb_superblock_generation one)
      then Some (one, geometry.SUPERBLOCK_A_BLOCK) else Some (two, geometry.SUPERBLOCK_B_BLOCK)
  end.

(** user/k4store/src/state.rs:1066-1083 [Store::recover, the superblock's fields] *)
Definition adopt_superblock {R} (superblock : StoreSuperblock) (slot : N) : Act Sys R () :=
  let arena := sb_active_arena superblock in
  start <- or_panic (absolute (if decide (arena = 0) then sb_arena0_start_block superblock
                               else sb_arena1_start_block superblock));;
  update (λ st, st <| st_uuid := sb_store_uuid superblock |> <| st_store_epoch := sb_store_epoch superblock |>
    <| st_superblock_generation := sb_superblock_generation superblock |> <| st_superblock_slot := slot |>
    <| st_arena := arena |> <| st_arena_start := start |>
    <| st_arena_blocks := (if decide (arena = 0) then sb_arena0_block_count superblock
                           else sb_arena1_block_count superblock) |>
    <| st_checkpoint_sequence := sb_checkpoint_sequence superblock |>
    <| st_durable_through := sb_durable_through_sequence superblock |>).

(** user/k4store/src/state.rs:1043-1102 [Store::recover] *)
Definition recover {Q} (seed : N) : Act Sys Q bool := call (
  a <- read_superblock geometry.SUPERBLOCK_A_BLOCK;;
  b <- read_superblock geometry.SUPERBLOCK_B_BLOCK;;
  match choose a b with
  | None =>
      ok <- format seed;;
      return_if (negb ok) false;;;
      update (λ st, st <| st_ready := true |>);;;
      early true
  | Some (superblock, slot) =>
      adopt_superblock superblock slot;;;
      replayed <- replay superblock;;
      (if negb replayed then update (λ st, st <| st_integrity_failed := true |>);;; early false else go ());;;
      resolved <- resolve_pending;;
      return_if (negb resolved) false;;;
      update (λ st, st <| st_ready := true |>);;;
      go true
  end).

End recovery.
