(* ===== verification/K4StorePub.v ===== *)
(** * The durable store: publication and maintenance

    [user/k4store/src/state.rs]: what decides a publication, how it is carried out,
    the outbox, compaction, retention. *)

From stdpp Require Import gmap.
From S2P Require Import Prelude Bytes Sha256 K4Layout K4Format Effects K4Disk K4Store K4StoreLog.

#[local] Open Scope N_scope.
#[local] Open Scope act_scope.

(** What a caller asks to publish. *)
(** user/k4store/src/state.rs:1418-1428 [Store::admit, the arguments] *)
Record Publication := mkPublication {
  pb_principal : N;
  pb_sequence : N;
  pb_expected_generation : N;
  pb_candidate_root : list N;
  pb_policy_digest : list N;
  pb_validation_digest : list N;
  pb_outbox_target : N;
  pb_outbox_payload : list N
}.
(** user/k4store/src/state.rs:1432-1442 [Store::admit, request] *)
Definition request_of (p : Publication) : list N :=
  request_digest (pb_principal p) (pb_sequence p) store_op.PUBLISH (pb_expected_generation p)
    (pb_candidate_root p) (pb_policy_digest p) (pb_validation_digest p) (pb_outbox_target p)
    (pb_outbox_payload p).

Section publication.
Context `{Outside}.
Context (log_cells : nat).

(** Objects the closure names that are not durable yet. *)
Definition missing (objects : list ObjectEntry) (reachable : list nat) : nat :=
  length (List.filter (λ index, match objects !! index with Some e => negb (oe_durable e) | None => false end)
    reachable).

(** The evidence speaks of these inputs and of this version. *)
(** user/k4store/src/state.rs:1504-1512 [Store::admit, the evidence] *)
Definition evidence (p : Publication) (manifest : Manifest) (policy : Policy) (validation : Validation) : bool :=
  bool_decide (va_result validation = 1) &&
  bool_decide (va_input_tree_digest validation = mf_tree_digest manifest) &&
  bool_decide (va_base_generation validation = pb_expected_generation p) &&
  bool_decide (va_tool_id validation = po_validation_tool_id policy) &&
  bool_decide (va_tool_config_digest validation = po_tool_config_digest policy) &&
  bool_decide (po_min_coverage_ppm policy <= va_coverage_ppm validation).

(** Where the request stands in its principal's sequence. *)
(** user/k4store/src/state.rs:1443-1461 [Store::admit, the sequence] *)
Definition admit_sequence {Q} (p : Publication) : Act Sys Q (option N) := call (
  found <- principal_slot (pb_principal p);;
  slot <- or_return found (Some store_status.FORBIDDEN);;
  principals <- self st_principals;;
  entry <- or_panic (principals !! slot);;
  let high_water := pe_high_water entry in
  let pending := pe_pending_sequence entry in
  return_if (negb (bool_decide (pending = 0)) && negb (bool_decide (pending = pb_sequence p)))
    (Some store_status.SEQUENCE_GAP);;;
  (if decide (pb_sequence p <= high_water) then
     held <- self (result_for (pb_principal p) (pb_sequence p));;
     early (Some match held with
                 | Some entry => if decide (re_request_digest entry = request_of p) then store_status.OK
                                 else store_status.CONFLICT
                 | None => store_status.RESULT_EXPIRED
                 end)
   else go ());;;
  next <- plus high_water 1;;
  return_if (negb (bool_decide (pb_sequence p = next))) (Some store_status.SEQUENCE_GAP);;;
  go None).

(** user/k4store/src/state.rs:1418-1532 [Store::admit] *)
Definition store_admit {Q} (p : Publication) : Act Sys Q (N + list N) := call (
  ready <- self st_ready;;
  return_if (negb ready) (inl store_status.UNAVAILABLE);;;
  refused <- admit_sequence p;;
  match refused with Some status => early (inl status) | None => go () end;;;
  found <- self (find (pb_candidate_root p));;
  root_index <- or_return found (inl store_status.NOT_FOUND);;
  root <- object root_index;;
  return_if (negb (bool_decide (oe_object_type root = object_type.MANIFEST))) (inl store_status.INVALID_REQUEST);;;
  loaded <- load root_index;;
  bytes <- or_return loaded (inl store_status.INTEGRITY_FAILED);;
  manifest <- or_return (read_from Manifest_codec bytes 0) (inl store_status.INVALID_REQUEST);;
  return_if (negb (bool_decide (mf_policy_digest manifest = pb_policy_digest p)) ||
             negb (bool_decide (mf_validation_digest manifest = pb_validation_digest p)))
    (inl store_status.INVALID_REQUEST);;;
  walked <- closure (pb_candidate_root p);;
  return_if (negb walked.1) (inl store_status.NOT_FOUND);;;
  found <- self (find (pb_policy_digest p));;
  policy_index <- or_return found (inl store_status.NOT_FOUND);;
  loaded <- load policy_index;;
  bytes <- or_return loaded (inl store_status.INTEGRITY_FAILED);;
  policy <- or_return (read_from Policy_codec bytes 0) (inl store_status.INVALID_REQUEST);;
  return_if (bool_decide (64 <= pb_principal p) ||
             bool_decide (N.land (po_publish_principals policy) (N.shiftl 1 (pb_principal p)) = 0))
    (inl store_status.FORBIDDEN);;;
  when (negb (bool_decide (po_requires_validation policy = 0))) (
    found <- self (find (pb_validation_digest p));;
    index <- or_return found (inl store_status.VALIDATION_MISMATCH);;
    loaded <- load index;;
    bytes <- or_return loaded (inl store_status.INTEGRITY_FAILED);;
    validation <- or_return (read_from Validation_codec bytes 0) (inl store_status.VALIDATION_MISMATCH);;
    return_if (negb (evidence p manifest policy validation)) (inl store_status.VALIDATION_MISMATCH));;;
  published <- self st_published_generation;;
  return_if (negb (bool_decide (pb_expected_generation p = published))) (inl store_status.GENERATION_STALE);;;
  objects <- self st_objects;;
  let needed := N.of_nat (missing objects walked.2) + 3 + (if decide (pb_outbox_target p = 0) then 0 else 1) in
  free <- free_blocks;;
  return_if (bool_decide (free < needed + (geometry.CLOSURE_RESERVE_BLOCKS + geometry.COMPACTION_RESERVE_BLOCKS)))
    (inl store_status.EXHAUSTED);;;
  go (inr (request_of p))).

(** A fault point before a write: the mode the write is issued with, or the end. *)
(** user/k4store/src/state.rs:1572-1576 [Store::publish, prepare_mode]; the same lines
    before an object (1630-1634, 1642-1646) and the commit (1658-1662) *)
Definition write_mode {R} (point ordinal : N) (stopped : R) : Act Sys R N :=
  fault <- fault_at log_cells point ordinal;;
  match fault with
  | Fault.Write mode => go mode
  | Fault.Stop | Fault.Kill => early stopped
  | _ => go fault_mode.NONE
  end.
(** A fault point where only an end matters. *)
(** user/k4store/src/state.rs:1614-1616 [Store::publish, AFTER_PREPARE]; the same lines
    after the objects (1654-1656) and in [compact] (1881-1883, 1914-1916) *)
Definition stop_at {R} (point : N) (stopped : R) : Act Sys R () :=
  fault <- fault_at log_cells point 0;;
  match fault with
  | Fault.Stop | Fault.Kill => early stopped
  | _ => go ()
  end.

(** One object not yet durable. *)
(** user/k4store/src/state.rs:1625-1638 [Store::publish, an object] *)
Definition publish_object {A} (index : nat) (ordinal : N) : Act Sys (N + A) N :=
  entry <- object index;;
  if oe_durable entry then go ordinal else
  let ordinal := ordinal + 1 in
  mode <- write_mode fault_point.BEFORE_OBJECT ordinal (inl store_status.UNAVAILABLE);;
  written <- write_object index mode;;
  failure <- self write_failure;;
  return_if (negb written) (inl failure);;;
  go ordinal.

(** The room the control log reports covers the commit and its flush. *)
(** user/k4store/src/state.rs:1671-1680 [Store::publish, the room] *)
Definition commit_covered {A} : Act Sys (N + A) () :=
  log <- self st_control_log;;
  if decide (log = 0) then go () else
  info <- log_query;;
  let room := match info with
              | Some info => saturating_sub (saturating_sub (li_capacity info) (li_reserved_cells info)) (li_used info)
              | None => 0
              end in
  return_if (bool_decide (room < COMMIT_CELLS)) (inl store_status.UNAVAILABLE).

(** What a publication writes. *)
(** user/k4store/src/state.rs:1551-1564 [Store::publish, receipt] *)
Definition receipt_of (p : Publication) (request : list N) (published now : N) : Receipt :=
  mkReceipt 1 0 (pb_principal p) (pb_sequence p) request (pb_expected_generation p) (published + 1)
    (pb_candidate_root p) (pb_policy_digest p) (pb_validation_digest p) now (pb_outbox_target p).
(** user/k4store/src/state.rs:1578-1591 [Store::publish, prepare] *)
Definition prepare_of (p : Publication) (request : list N) (now invocation_id : N) : PrepareRecord :=
  mkPrepareRecord (pb_principal p) (pb_sequence p) request (pb_expected_generation p) (pb_candidate_root p)
    (pb_policy_digest p) (pb_validation_digest p) (if decide (pb_outbox_target p = 0) then 0 else 1)
    (pb_outbox_target p) (pb_outbox_payload p) now invocation_id.
(** user/k4store/src/state.rs:1682-1693 [Store::publish, commit] *)
Definition commit_of (p : Publication) (prepare_sequence : N) (prepare_digest : list N) (new_generation : N)
    (receipt_digest : list N) (now objects : N) : CommitRecord :=
  mkCommitRecord prepare_sequence prepare_digest new_generation (pb_candidate_root p) (pb_policy_digest p)
    receipt_digest (pb_principal p) (pb_sequence p) now objects.

(** What a commit that is durable changes. *)
(** user/k4store/src/state.rs:1709-1723 [Store::publish, committed] *)
Definition published (p : Publication) (request : list N) (new_generation : N) (receipt_digest : list N)
    (st : Store) : Store :=
  record_result
    (mkResultEntry (pb_principal p) (pb_sequence p) result_outcome.COMMITTED outbox_status.NONE new_generation
       (pb_candidate_root p) request)
    (st <| st_published_generation := new_generation |> <| st_published_root := pb_candidate_root p |>
        <| st_published_policy := pb_policy_digest p |> <| st_published_receipt := receipt_digest |>
        <| st_publications ::= N.succ |>).

(** Everything the new root needs and the receipt, made durable; how many were written. *)
(** user/k4store/src/state.rs:1618-1656 [Store::publish, the objects] *)
Definition publish_objects {A} (root receipt_digest : list N) : Act Sys (N + A) N :=
  walked <- closure root;;
  return_if (negb walked.1) (inl store_status.NOT_FOUND);;;
  ordinal <- for_fold walked.2 0 (λ ordinal index, publish_object index ordinal);;
  found <- self (find receipt_digest);;
  receipt_index <- or_return found (inl store_status.NOT_FOUND);;
  ordinal <- publish_object receipt_index ordinal;;
  ok <- flush;;
  return_if (negb ok) (inl store_status.UNAVAILABLE);;;
  stop_at fault_point.AFTER_OBJECTS (inl store_status.UNAVAILABLE);;;
  go ordinal.

(** The commit, and what it changes once it is durable. *)
(** user/k4store/src/state.rs:1658-1734 [Store::publish, the commit] *)
Definition publish_commit (p : Publication) (request : list N) (new_generation : N) (receipt_digest : list N)
    (prepare_sequence : N) (prepare_digest : list N) (ordinal : N) :
    Act Sys (N + N * Fault) (N + N * Fault) :=
  commit_mode <- write_mode fault_point.BEFORE_COMMIT 0 (inl store_status.UNAVAILABLE);;
  commit_covered;;;
  now <- now_ns;;
  appended <- append record_kind.COMMIT
    (cd_bytes CommitRecord_codec
       (commit_of p prepare_sequence prepare_digest new_generation receipt_digest now ordinal)) commit_mode;;
  failure <- self write_failure;;
  return_if (bool_decide (appended = None)) (inl failure);;;
  ok <- flush;;
  return_if (negb ok) (inl store_status.UNAVAILABLE);;;
  update (published p request new_generation receipt_digest);;;
  with_principal (pb_principal p) (settled (pb_sequence p));;;
  update (λ st, st <| st_pending := Pending.default |>);;;
  after <- fault_at log_cells fault_point.AFTER_COMMIT 0;;
  go (inr (new_generation, after)).

(** user/k4store/src/state.rs:1536-1734 [Store::publish] *)
Definition publish {Q} (p : Publication) (request : list N) (invocation_id : N) :
    Act Sys Q (N + N * Fault) := call (
  generation <- self st_published_generation;;
  new_generation <- plus generation 1;;
  now <- now_ns;;
  staged <- stage object_type.RECEIPT (cd_bytes Receipt_codec (receipt_of p request generation now));;
  match staged with inl _ => early (inl store_status.EXHAUSTED) | inr _ => go () end;;;
  let receipt_digest := match staged with inr digest => digest | inl _ => no_digest end in
  prepare_mode <- write_mode fault_point.BEFORE_PREPARE 0 (inl store_status.UNAVAILABLE);;
  now <- now_ns;;
  prepare_sequence <- self st_next_sequence;;
  appended <- append record_kind.PREPARE (cd_bytes PrepareRecord_codec (prepare_of p request now invocation_id))
    prepare_mode;;
  failure <- self write_failure;;
  prepare_digest <- or_return appended (inl failure);;
  ok <- flush;;
  return_if (negb ok) (inl store_status.UNAVAILABLE);;;
  update (λ st, st <| st_pending := mkPending true (pb_principal p) (pb_sequence p) prepare_sequence prepare_digest
    request (pb_candidate_root p) abort_reason.RECOVERED_UNRESOLVED |>);;;
  with_principal (pb_principal p) (λ e, e <| pe_pending_sequence := pb_sequence p |>);;;
  stop_at fault_point.AFTER_PREPARE (inl store_status.UNAVAILABLE);;;
  ordinal <- publish_objects (pb_candidate_root p) receipt_digest;;
  publish_commit p request new_generation receipt_digest prepare_sequence prepare_digest ordinal).

(** user/k4store/src/state.rs:1737-1775 [Store::record_outbox] *)
Definition record_outbox {Q} (principal sequence : N) (request : list N) (target status attempts : N) :
    Act Sys Q bool := call (
  next <- self st_next_sequence;;
  commit_sequence <- or_panic (checked_sub next 1);;
  now <- now_ns;;
  appended <- append record_kind.OUTBOX
    (cd_bytes OutboxRecord_codec
       (mkOutboxRecord commit_sequence request principal sequence status attempts target now)) fault_mode.NONE;;
  return_if (bool_decide (appended = None)) false;;;
  ok <- flush;;
  return_if (negb ok) false;;;
  update (set_outbox principal sequence status);;;
  go true).

(** ** Maintenance *)

(** A retained root's objects behind what is reachable already. *)
(** user/k4store/src/state.rs:1801-1806 [Store::compact, a retained root] *)
Definition also_reachable (reachable held : list nat) : list nat :=
  foldl (λ reachable index,
    if negb (bool_decide (index ∈ reachable)) && bool_decide (length reachable < MAX_OBJECTS)%nat
    then reachable ++ [index] else reachable) reachable held.

(** One object into the other arena. *)
(** user/k4store/src/state.rs:1844-1877 [Store::compact, an object] *)
Definition copy_object {A} (copied : list N * N) : Act Sys (N + A) () :=
  let '(digest, type) := copied in
  found <- self (find digest);;
  index <- or_return found (inl store_status.INTEGRITY_FAILED);;
  loaded <- load index;;
  bytes <- or_return loaded (inl store_status.INTEGRITY_FAILED);;
  block <- self st_next_block;;
  appended <- append record_kind.OBJECT (object_body type (N.of_nat (length bytes)) digest bytes) fault_mode.NONE;;
  return_if (bool_decide (appended = None)) (inl store_status.INTEGRITY_FAILED);;;
  set_object index (λ e, e <| oe_block := block |> <| oe_durable := true |>).

(** user/k4store/src/state.rs:1904-1911 [Store::compact, what was not copied] *)
Definition forget_arena (first blocks : N) (e : ObjectEntry) : ObjectEntry :=
  if oe_live e && oe_durable e && bool_decide (first <= oe_block e) && bool_decide (oe_block e < first + blocks)
  then ObjectEntry.default else e.

(** user/k4store/src/state.rs:1780-1918 [Store::compact] *)
Definition compact {Q} : Act Sys Q (N + N) := call (
  st <- self id;;
  return_if (negb (st_ready st)) (inl store_status.UNAVAILABLE);;;
  return_if (pd_live (st_pending st)) (inl store_status.CONFLICT);;;
  reachable <-
    (if decide (st_published_generation st = 0) then go []
     else walked <- closure (st_published_root st);;
          if walked.1 : bool then go walked.2 else early (inl store_status.INTEGRITY_FAILED));;
  reachable <- for_fold (take (st_retained_count st) (st_retained st)) reachable (λ reachable entry,
    walked <- closure (rt_root_digest entry);;
    go (if walked.1 : bool then also_reachable reachable walked.2 else reachable));;
  target <- or_panic (checked_sub 1 (st_arena st));;
  target_start <- or_panic (absolute (if decide (target = 0) then geometry.ARENA0_START_BLOCK
                                      else geometry.ARENA1_START_BLOCK));;
  return_if (bool_decide (geometry.ARENA_BLOCK_COUNT < N.of_nat (length reachable) + 1))
    (inl store_status.EXHAUSTED);;;
  objects <- self st_objects;;
  entries <- or_panic (mapM (λ index, objects !! index) reachable);;
  let source := st_arena st in
  let old_start := st_arena_start st in
  let old_blocks := st_arena_blocks st in
  update (λ st, st <| st_compaction_generation ::= N.succ |> <| st_arena := target |>
    <| st_arena_start := target_start |> <| st_arena_blocks := geometry.ARENA_BLOCK_COUNT |>
    <| st_next_block := target_start |>);;;
  opened <- write_checkpoint source;;
  (if negb opened then
     update (λ st, st <| st_arena := source |> <| st_arena_start := old_start |> <| st_arena_blocks := old_blocks |>);;;
     early (inl store_status.INTEGRITY_FAILED)
   else go ());;;
  for_each (map (λ e, (oe_digest e, oe_object_type e)) entries) copy_object;;;
  ok <- flush;;
  return_if (negb ok) (inl store_status.UNAVAILABLE);;;
  stop_at fault_point.AFTER_CHECKPOINT (inl store_status.UNAVAILABLE);;;
  let slot := if decide (st_superblock_slot st = geometry.SUPERBLOCK_A_BLOCK)
              then geometry.SUPERBLOCK_B_BLOCK else geometry.SUPERBLOCK_A_BLOCK in
  generation <- plus (st_superblock_generation st) 1;;
  ok <- write_superblock slot generation;;
  return_if (negb ok) (inl store_status.INTEGRITY_FAILED);;;
  ok <- flush;;
  return_if (negb ok) (inl store_status.UNAVAILABLE);;;
  update (λ st, st <| st_superblock_slot := slot |> <| st_superblock_generation := generation |>
                   <| st_compactions ::= N.succ |>
                   <| st_objects ::= map (forget_arena old_start old_blocks) |>);;;
  stop_at fault_point.AFTER_SUPERBLOCK (inl store_status.UNAVAILABLE);;;
  go (inr (N.of_nat (length reachable)))).

(** The retained roots in use. *)
Definition retained_in_use (st : Store) : list RetainedEntry := take (st_retained_count st) (st_retained st).
Definition retains (root : list N) (e : RetainedEntry) : bool := bool_decide (rt_root_digest e = root).

(** user/k4store/src/state.rs:1925-1947 [Store::retain] *)
Definition retain {Q} (root : list N) (expiry_ns : N) : Act Sys Q (N + N) := call (
  found <- self (find root);;
  return_if (bool_decide (found = None)) (inl store_status.NOT_FOUND);;;
  st <- self id;;
  match position (retains root) (retained_in_use st) with
  | Some index =>
      update (λ st, st <| st_retained ::= alter (λ e, e <| rt_expiry_ns := expiry_ns |>) index |>);;;
      early (inr (N.of_nat (st_retained_count st)))
  | None => go ()
  end;;;
  return_if (bool_decide (st_retained_count st = MAX_RETAINED)) (inl store_status.EXHAUSTED);;;
  update (λ st, st <| st_retained ::= <[st_retained_count st := mkRetainedEntry root expiry_ns]> |>
                   <| st_retained_count ::= S |>);;;
  go (inr (N.of_nat (S (st_retained_count st))))).

(** The entries behind [index] move one to the front. *)
(** user/k4store/src/state.rs:1959-1961 [Store::release, the loop] *)
Definition shift_down {A} (index count : nat) (l : list A) : list A :=
  take index l ++ take (count - 1 - index) (drop (S index) l) ++ drop (count - 1) l.
(** user/k4store/src/state.rs:1950-1964 [Store::release] *)
Definition release {Q} (root : list N) : Act Sys Q (N + N) := call (
  st <- self id;;
  index <- or_return (position (retains root) (retained_in_use st)) (inl store_status.NOT_FOUND);;
  update (λ st, st <| st_retained ::= shift_down index (st_retained_count st) |>
                   <| st_retained_count ::= Nat.pred |>);;;
  go (inr (N.of_nat (Nat.pred (st_retained_count st))))).

End publication.

(** user/k4store/src/state.rs:1972-1978 [root_head] *)
Definition root_head (digest : list N) : N :=
  foldl (λ value byte, N.lor (N.shiftl value 8 mod 2 ^ 64) byte) 0 (rev (take 8 digest)).
