(* ===== verification/K4StoreProofs.v ===== *)
(** * The durable store: what leaves the log alone

    Loading, walking closures, staging and the tables touch neither the medium nor the
    log's tail; and two runs that see the same blocks do the same. *)

From stdpp Require Import gmap.
From S2P Require Import Prelude Bytes Sha256 K4Layout K4Format Effects K4Disk K4Store K4StoreLog K4StorePub.

#[local] Open Scope N_scope.

(** ** Quiet steps *)

(** Where the log ends. *)
Record Tail := mkTail {
  tl_epoch : N; tl_arena : N; tl_start : N; tl_blocks : N;
  tl_block : N; tl_sequence : N; tl_prev : list N
}.
Definition tail (st : Store) : Tail :=
  mkTail (st_store_epoch st) (st_arena st) (st_arena_start st) (st_arena_blocks st)
    (st_next_block st) (st_next_sequence st) (st_prev_digest st).
(** What is published. *)
Definition version (st : Store) : N * list N := (st_published_generation st, st_published_root st).

(** No harness is at work, on either side, and the slot records are framed in is a
    block. *)
Record unharmed (s : Sys) : Prop := {
  uh_present : hs_present (st_harness (sy_store s)) = false;
  uh_armed : hs_armed (st_harness (sy_store s)) = false;
  uh_latched : ft_latched (w_faults (sy_world s)) = false;
  uh_held : ft_held (w_faults (sy_world s)) = None;
  uh_slots : ∃ b0 b1 rest, w_iobuf (sy_world s) = b0 :: b1 :: rest ∧ length b1 = BLOCK
}.

(** A step that changes neither the medium nor the log's tail: every medium there has
    been since is the one there was. *)
Record quiet_to (s s' : Sys) : Prop := {
  qt_tail : tail (sy_store s') = tail (sy_store s);
  qt_medium : w_medium (sy_world s') = w_medium (sy_world s);
  qt_unharmed : unharmed s';
  qt_past : ∃ k, w_past (sy_world s') = replicate k (w_medium (sy_world s)) ++ w_past (sy_world s)
}.
Definition quiet (s s' : Sys) : Prop := unharmed s → quiet_to s s'.

#[global] Instance quiet_preorder : PreOrder quiet.
Proof.
  split.
  - intros s Hs. split; [done..|]. by exists 0%nat.
  - intros s1 s2 s3 H12 H23 H1. destruct (H12 H1) as [Ht Hm Hu [k Hk]]. destruct (H23 Hu) as [Ht' Hm' Hu' [k' Hk']].
    split; [congruence|congruence|done|]. exists (k' + k)%nat. rewrite Hk', Hm, Hk, app_assoc. by rewrite replicate_add.
Qed.

Section quiet.
Context `{Outside} (log_cells : nat).

Lemma quiet_self {R A} (f : Store → A) : within quiet (self (R := R) f).
Proof. apply within_ask; apply _. Qed.
Lemma quiet_update {R} f :
  (∀ st, tail (f st) = tail st) → (∀ st, st_harness (f st) = st_harness st) → within quiet (update (R := R) f).
Proof.
  intros Ht Hh s []. split; cbn.
  - apply Ht.
  - done.
  - split; cbn; rewrite ?Hh; done.
  - by exists 0%nat.
Qed.
Lemma quiet_outside {R A} (f : nat → A) : within quiet (outside (R := R) f).
Proof. intros s []. split; cbn; [done..| |by exists 0%nat]. by split. Qed.
Lemma quiet_slot {R} i : within quiet (slot (R := R) i).
Proof. apply within_bind; [apply _|apply within_ask; apply _|]. intros. apply within_or_panic; apply _. Qed.

Lemma quiet_disk_read {R} block : within quiet (disk_read (R := R) block READ_SLOT).
Proof.
  intros [st w] [Hp Ha Hl Hd (b0 & b1 & rest & Hs & Hb)]. unfold disk_read, on_disk, Disk.read, Disk.call, serve.
  cbn in *. destruct (ou_reaches (w_turn w)); cbn.
  2: { split; cbn; [done..| |by exists 0%nat]. split; cbn; try done. by exists b0, b1, rest. }
  unfold transfer, read_in. destruct (ou_fate _); cbn; (split; cbn; [done..| |]).
  all: try (split; cbn; try done; rewrite Hs; cbn; by eexists _, b1, rest).
  - by exists 1%nat.
  - by exists 0%nat.
  - by exists 1%nat.
Qed.

(** Without a harness no fault point does anything. *)
Lemma fault_at_nothing {Q} point ordinal s :
  hs_present (st_harness (sy_store s)) = false → fault_at (Q := Q) log_cells point ordinal s = Go Fault.None_ s.
Proof. intros Hp. unfold fault_at, call, self, ask, bind_act, return_if. by rewrite Hp. Qed.

Lemma quiet_fault_at {Q} point ordinal : within quiet (fault_at (Q := Q) log_cells point ordinal).
Proof. intros s Hs. rewrite fault_at_nothing by apply Hs. by apply (PreOrder_Reflexive (R := quiet) s). Qed.

End quiet.

Create HintDb quiet.
#[export] Hint Resolve quiet_self quiet_outside quiet_slot quiet_disk_read quiet_fault_at : quiet.

Ltac quiet_step :=
  walk_step ltac:(first [apply quiet_update; intros; reflexivity | solve [auto 1 with quiet nocore]]).
Ltac quiets := repeat quiet_step.

Section quiet_store.
Context `{Outside} (log_cells : nat).

Lemma quiet_now_ns {R} : within quiet (now_ns (R := R)).
Proof. apply quiet_outside. Qed.
Lemma quiet_log_query {R} : within quiet (log_query (R := R)).
Proof. apply quiet_outside. Qed.
Lemma quiet_object {R} index : within quiet (object (R := R) index).
Proof. unfold object. quiets. Qed.
Lemma quiet_set_object {R} index f : within quiet (set_object (R := R) index f).
Proof. unfold set_object. quiets. Qed.
Lemma quiet_free_stage {R} stage : within quiet (free_stage (R := R) stage).
Proof. unfold free_stage. quiets. Qed.
Lemma quiet_into_content {R} bytes : within quiet (into_content (R := R) bytes).
Proof. unfold into_content. quiets. Qed.
Lemma quiet_plus {R} x y : within quiet (plus (R := R) x y).
Proof. unfold plus. quiets. Qed.
End quiet_store.
#[export] Hint Resolve quiet_now_ns quiet_log_query quiet_object quiet_set_object quiet_free_stage quiet_into_content quiet_plus : quiet.

Section quiet_walks.
Context `{Outside} (log_cells : nat).

Lemma quiet_arena_end {R} : within quiet (arena_end (R := R)).
Proof. unfold arena_end. quiets. Qed.
Lemma quiet_load {Q} index : within quiet (load (Q := Q) index).
Proof. unfold load. quiets. Qed.
End quiet_walks.
#[export] Hint Resolve quiet_load quiet_arena_end : quiet.

Section quiet_ops.
Context `{Outside} (log_cells : nat).

Lemma quiet_children {Q} index : within quiet (children (Q := Q) index).
Proof. unfold children. quiets. Qed.
End quiet_ops.
#[export] Hint Resolve quiet_children : quiet.

Section quiet_closures.
Context `{Outside} (log_cells : nat).

Lemma quiet_closure_walk {R} turns queue tail out : within quiet (closure_walk (R := R) turns queue tail out).
Proof.
  revert queue tail out. induction turns as [|turns IH]; intros [|index queue] tail out; cbn [closure_walk]; quiets.
  all: apply IH.
Qed.
Lemma quiet_closure {Q} root : within quiet (closure (Q := Q) root).
Proof. unfold closure. quiets. all: apply quiet_closure_walk. Qed.
End quiet_closures.
#[export] Hint Resolve quiet_closure : quiet.

Section quiet_staging.
Context `{Outside} (log_cells : nat).

Lemma quiet_mark {Q} keep root : within quiet (mark (Q := Q) keep root).
Proof. unfold mark. quiets. Qed.
Lemma quiet_sweep_one {R} freed index kept : within quiet (sweep_one (R := R) freed index kept).
Proof. unfold sweep_one. quiets. Qed.
Lemma quiet_reclaim_staged {Q} : within quiet (reclaim_staged (Q := Q)).
Proof. unfold reclaim_staged. quiets. all: first [apply quiet_mark|apply quiet_sweep_one]. Qed.
Lemma quiet_stage {Q} type bytes : within quiet (stage (Q := Q) type bytes).
Proof. unfold stage, place. quiets. all: apply quiet_reclaim_staged. Qed.
Lemma quiet_principal_slot {Q} principal : within quiet (principal_slot (Q := Q) principal).
Proof. unfold principal_slot. quiets. Qed.
Lemma quiet_adopt {Q} digest type len block : within quiet (adopt (Q := Q) digest type len block).
Proof. unfold adopt. quiets. Qed.
Lemma quiet_read_object {Q} digest room : within quiet (read_object (Q := Q) digest room).
Proof. unfold read_object. quiets. Qed.
End quiet_staging.
#[export] Hint Resolve quiet_stage quiet_principal_slot quiet_adopt : quiet.

Section quiet_admission.
Context `{Outside} (log_cells : nat).

Lemma tail_record_result entry st : tail (record_result entry st) = tail st.
Proof. unfold record_result. destruct (position _ _); [done|]. by case_decide. Qed.
Lemma harness_record_result entry st : st_harness (record_result entry st) = st_harness st.
Proof. unfold record_result. destruct (position _ _); [done|]. by case_decide. Qed.

Lemma quiet_with_principal {Q} principal f : within quiet (with_principal (Q := Q) principal f).
Proof. unfold with_principal. quiets. Qed.
Lemma quiet_admit_sequence {Q} p : within quiet (admit_sequence (Q := Q) p).
Proof. unfold admit_sequence. quiets. Qed.
Lemma quiet_free_blocks {R} : within quiet (free_blocks (R := R)).
Proof. unfold free_blocks. quiets. Qed.
Lemma quiet_commit_covered {A} : within quiet (commit_covered (A := A)).
Proof. unfold commit_covered. quiets. Qed.
Lemma quiet_write_mode {R} point ordinal (stopped : R) : within quiet (write_mode log_cells point ordinal stopped).
Proof. unfold write_mode. quiets. Qed.
Lemma quiet_stop_at {R} point (stopped : R) : within quiet (stop_at log_cells point stopped).
Proof. unfold stop_at. quiets. Qed.
Lemma quiet_admit {Q} p : within quiet (store_admit (Q := Q) p).
Proof. unfold store_admit. quiets. all: first [apply quiet_admit_sequence|apply quiet_free_blocks]. Qed.
End quiet_admission.
#[export] Hint Resolve quiet_with_principal quiet_commit_covered quiet_write_mode quiet_stop_at quiet_admit : quiet.

Section quiet_replay.
Context `{Outside}.

Lemma quiet_record_result {R} entry f :
  (∀ st, tail (f st) = tail st) → (∀ st, st_harness (f st) = st_harness st) →
  within quiet (update (R := R) (λ st, record_result entry (f st))).
Proof.
  intros Ht Hh. apply quiet_update; intros; [by rewrite tail_record_result|by rewrite harness_record_result].
Qed.
Lemma quiet_set_outbox {R} principal sequence status : within quiet (update (R := R) (set_outbox principal sequence status)).
Proof. apply quiet_update; intros st; unfold set_outbox; by destruct (position _ _). Qed.
Lemma quiet_dependency_missing {R} : within quiet (dependency_missing (R := R)).
Proof. unfold dependency_missing. quiets. Qed.
End quiet_replay.
#[export] Hint Resolve quiet_record_result quiet_set_outbox quiet_dependency_missing : quiet.
Ltac quiet_results := quiets; try (apply quiet_record_result; reflexivity); quiets.

Section quiet_recovery.
Context `{Outside}.

Lemma quiet_replay_record {Q} kind body block : within quiet (replay_record (Q := Q) kind body block).
Proof.
  unfold replay_record, replay_object, replay_prepare, replay_commit, replay_abort, replay_outbox.
  repeat case_decide; quiet_results.
Qed.
Lemma quiet_load_checkpoint {Q} body : within quiet (load_checkpoint (Q := Q) body).
Proof. unfold load_checkpoint. quiets. Qed.
Lemma quiet_read_superblock {Q} slot_ : within quiet (read_superblock (Q := Q) slot_).
Proof. unfold read_superblock. quiets. all: apply quiet_disk_read. Qed.
End quiet_recovery.
#[export] Hint Resolve quiet_replay_record quiet_load_checkpoint quiet_read_superblock : quiet.
