(* ===== verification/K4Staging.v ===== *)
(** * The durable store: staging keeps what it was handed

    An object that is staged has a slot of its own whose bytes hash to its digest;
    every operation on the object index keeps it so. What is written down is then the
    object its digest names. *)

From stdpp Require Import gmap.
From S2P Require Import Prelude Bytes Sha256 K4Layout K4Format Effects K4Disk K4Store K4StoreLog K4StorePub.

#[local] Open Scope N_scope.
#[local] Opaque object_digest OBJECT_MAX.

(** The entry's slot is in use and holds its content. *)
Definition staged_entry (st : Store) (e : ObjectEntry) : Prop :=
  ∃ bytes, st_staged st !! N.to_nat (oe_stage e) = Some bytes ∧
    st_stage_used st !! N.to_nat (oe_stage e) = Some true ∧
    (N.to_nat (oe_length e) <= OBJECT_MAX)%nat ∧ oe_object_type e < 2 ^ 32 ∧
    object_digest (oe_object_type e) (take (N.to_nat (oe_length e)) bytes) = oe_digest e.

Definition is_staged (e : ObjectEntry) : Prop := oe_live e = true ∧ oe_stage e ≠ U32_MAX.

Record staging_wf (st : Store) : Prop := {
  sg_used : length (st_stage_used st) = MAX_STAGED;
  sg_staged : length (st_staged st) = MAX_STAGED;
  sg_buffers : Forall (λ b, length b = OBJECT_MAX) (st_staged st);
  sg_entry (i : nat) e : st_objects st !! i = Some e → is_staged e → staged_entry st e;
  sg_distinct (i j : nat) e f : st_objects st !! i = Some e → st_objects st !! j = Some f →
    is_staged e → is_staged f → oe_stage e = oe_stage f → i = j;
  sg_volatile (i : nat) e : st_objects st !! i = Some e → oe_live e = true → oe_durable e = false → oe_stage e ≠ U32_MAX
}.

Definition stages (s s' : Sys) : Prop := staging_wf (sy_store s) → staging_wf (sy_store s').
#[global] Instance stages_preorder : PreOrder stages.
Proof. split; [intros s Hs; exact Hs|]. intros s1 s2 s3 H12 H23 H1. exact (H23 (H12 H1)). Qed.

(** An entry is replaced by one that is not staged: its slot may be given back. *)
Lemma unstage_wf st st' (index : nat) e e' :
  staging_wf st → st_objects st !! index = Some e → ¬ is_staged e' →
  (oe_live e' = true → oe_durable e' = true) →
  st_objects st' = <[index := e']> (st_objects st) → st_staged st' = st_staged st →
  (st_stage_used st' = st_stage_used st ∨
   is_staged e ∧ st_stage_used st' = <[N.to_nat (oe_stage e) := false]> (st_stage_used st)) →
  staging_wf st'.
Proof.
  intros [Hu Hs Hb He Hd Hv] Hi Hn Hdur Hobjs Hstaged Hused.
  assert (∀ (j : nat) f, <[index := e']> (st_objects st) !! j = Some f → is_staged f →
    j ≠ index ∧ st_objects st !! j = Some f) as Hother.
  { intros j f Hj Hf. destruct (decide (j = index)) as [->|Hne].
    - rewrite list_lookup_insert_eq in Hj by (by eapply lookup_lt_Some). by injection Hj as <-.
    - by rewrite list_lookup_insert_ne in Hj by done. }
  split; rewrite ?Hobjs, ?Hstaged.
  - destruct Hused as [->|[_ ->]]; by rewrite ?length_insert.
  - done.
  - done.
  - intros j f Hj Hf. destruct (Hother j f Hj Hf) as [Hne Hj'].
    destruct (He j f Hj' Hf) as (bytes & H1 & H2 & H3 & H4 & H5). exists bytes. rewrite Hstaged. split_and!; try done.
    destruct Hused as [->|[Hst ->]]; [done|]. rewrite list_lookup_insert_ne; [done|].
    intros Heq. apply Hne. symmetry. apply (Hd index j e f Hi Hj' Hst Hf). lia.
  - intros i j f g Hfi Hgj Hf Hg Heq. apply Hother in Hfi as [_ Hfi]; [|done].
    apply Hother in Hgj as [_ Hgj]; [|done]. by eapply Hd.
  - intros j f Hj Hlive Hdf. destruct (decide (j = index)) as [->|Hne].
    + rewrite list_lookup_insert_eq in Hj by (by eapply lookup_lt_Some). injection Hj as <-.
      rewrite Hdur in Hdf by done. done.
    + rewrite list_lookup_insert_ne in Hj by done. by eapply Hv.
Qed.

(** An entry changes in what staging does not look at. *)
Lemma retag_wf st (index : nat) f :
  staging_wf st →
  (∀ e, oe_live (f e) = oe_live e ∧ oe_stage (f e) = oe_stage e ∧ oe_length (f e) = oe_length e ∧
        oe_object_type (f e) = oe_object_type e ∧ oe_digest (f e) = oe_digest e ∧
        (oe_durable (f e) = false → oe_durable e = false)) →
  staging_wf (st <| st_objects ::= alter f index |>).
Proof.
  intros [Hu Hs Hb He Hd Hv] Hf.
  assert (∀ (j : nat) g, alter f index (st_objects st) !! j = Some g → ∃ e, st_objects st !! j = Some e ∧
    oe_live g = oe_live e ∧ oe_stage g = oe_stage e ∧ oe_length g = oe_length e ∧
    oe_object_type g = oe_object_type e ∧ oe_digest g = oe_digest e ∧ (oe_durable g = false → oe_durable e = false)) as Hold.
  { intros j g Hj. destruct (decide (j = index)) as [->|Hne].
    - rewrite list_lookup_alter_eq in Hj. destruct (st_objects st !! index) as [e|]; [|done].
      injection Hj as <-. exists e. split; [done|]. apply Hf.
    - rewrite list_lookup_alter_ne in Hj by done. by exists g. }
  split; cbn; try done.
  - intros j g Hj [Hl Hst]. destruct (Hold j g Hj) as (e & Hj' & E1 & E2 & E3 & E4 & E5 & _).
    destruct (He j e Hj') as (bytes & H1 & H2 & H3 & H4 & H5); [by split; congruence|].
    exists bytes. cbn. by rewrite E2, E3, E4, E5.
  - intros i j g h Hg Hh [Hl Hst] [Hl' Hst'] Heq. destruct (Hold i g Hg) as (e & Hi' & E1 & E2 & _).
    destruct (Hold j h Hh) as (e' & Hj' & E1' & E2' & _). apply (Hd i j e e'); try done; try split; congruence.
  - intros j g Hj Hl Hdg. destruct (Hold j g Hj) as (e & Hj' & E1 & E2 & _ & _ & _ & E6).
    rewrite E2. apply (Hv j); [done|congruence|by apply E6].
Qed.

(** Steps that leave the index and the staging area as they are. *)
Definition shelf_of (st : Store) : list ObjectEntry * list bool * list (list N) :=
  (st_objects st, st_stage_used st, st_staged st).
Definition shelved (s s' : Sys) : Prop := shelf_of (sy_store s') = shelf_of (sy_store s).
#[global] Instance shelved_preorder : PreOrder shelved.
Proof. split; [by intros s|]. intros s1 s2 s3 H12 H23. unfold shelved in *. congruence. Qed.

Lemma shelf_wf st st' : shelf_of st' = shelf_of st → staging_wf st → staging_wf st'.
Proof.
  intros Hf [Hu Hs Hb He Hd Hv]. injection Hf as H1 H2 H3.
  split; rewrite ?H1, ?H2, ?H3; try done. intros i e Hi Hst. destruct (He i e Hi Hst) as (b & Hrest).
  exists b. by rewrite H2, H3.
Qed.

Section shelving.
Context `{Outside} (log_cells : nat).

Lemma shelf_self {R A} (f : Store → A) : within shelved (self (R := R) f).
Proof. apply within_ask, _. Qed.
(** The staging area is not what the update is about. *)
Lemma shelf_update {R} f : (∀ st, shelf_of (f st) = shelf_of st) → within shelved (update (R := R) f).
Proof. intros Hf s. apply Hf. Qed.
Lemma shelf_outside {R A} (f : nat → A) : within shelved (outside (R := R) f).
Proof. by intros s. Qed.
Lemma shelf_world {R} f : within shelved (change (R := R) (λ s, s <| sy_world ::= f |>)).
Proof. by intros s. Qed.
Lemma shelf_on_disk {R A} (f : Disk → World → A * Disk * World) : within shelved (on_disk (R := R) f).
Proof. intros s. unfold on_disk. by destruct (f _ _) as [[a d] w]. Qed.
End shelving.

Create HintDb shelving.
#[export] Hint Resolve shelf_self shelf_outside shelf_world shelf_on_disk : shelving.
Ltac shelf_step :=
  walk_step ltac:(first [apply shelf_update; intros; reflexivity | solve [auto 1 with shelving nocore]]).
Ltac shelving := repeat shelf_step.

Section staging_calls.
Context `{Outside} (log_cells : nat).

Lemma shelf_now_ns {R} : within shelved (now_ns (R := R)).
Proof. apply shelf_outside. Qed.
Lemma shelf_log_query {R} : within shelved (log_query (R := R)).
Proof. apply shelf_outside. Qed.
Lemma shelf_disk_read {R} block i : within shelved (disk_read (R := R) block i).
Proof. apply shelf_on_disk. Qed.
Lemma shelf_disk_write {R} block i mode : within shelved (disk_write (R := R) block i mode).
Proof. apply shelf_on_disk. Qed.
Lemma shelf_disk_flush {R} : within shelved (disk_flush (R := R)).
Proof. apply shelf_on_disk. Qed.
Lemma shelf_disk_latch {R} : within shelved (disk_latch (R := R)).
Proof. apply shelf_on_disk. Qed.
Lemma shelf_slot {R} i : within shelved (slot (R := R) i).
Proof. unfold slot. shelving. Qed.
Lemma shelf_set_slot {R} i bytes : within shelved (set_slot (R := R) i bytes).
Proof. apply shelf_world. Qed.
Lemma shelf_plus {R} x y : within shelved (plus (R := R) x y).
Proof. unfold plus. shelving. Qed.
Lemma shelf_object {R} index : within shelved (object (R := R) index).
Proof. unfold object. shelving. Qed.
Lemma shelf_into_content {R} bytes : within shelved (into_content (R := R) bytes).
Proof. unfold into_content. shelving. Qed.
Lemma shelf_arena_end {R} : within shelved (arena_end (R := R)).
Proof. unfold arena_end. shelving. all: apply shelf_plus. Qed.
Lemma shelf_fill_plane {R} fuel : within shelved (fill_plane (R := R) fuel).
Proof.
  induction fuel as [|fuel IH]; cbn [fill_plane]; shelving; first [apply shelf_log_query|apply IH].
Qed.
End staging_calls.
#[export] Hint Resolve shelf_now_ns shelf_log_query shelf_disk_read shelf_disk_write shelf_disk_flush
  shelf_disk_latch shelf_slot shelf_set_slot shelf_plus shelf_object shelf_into_content
  shelf_arena_end : shelving.

Section staging_ops.
Context `{Outside} (log_cells : nat).

Lemma shelf_fault_at {Q} point ordinal : within shelved (fault_at (Q := Q) log_cells point ordinal).
Proof. unfold fault_at, lose_control_plane. shelving. all: apply shelf_fill_plane. Qed.
Lemma shelf_flush {Q} : within shelved (flush (Q := Q)).
Proof. unfold flush. shelving. Qed.
Lemma shelf_append {Q} kind body mode : within shelved (append (Q := Q) kind body mode).
Proof. unfold append. shelving. Qed.
Lemma shelf_load {Q} index : within shelved (load (Q := Q) index).
Proof. unfold load. shelving. Qed.
Lemma shelf_principal_slot {Q} principal : within shelved (principal_slot (Q := Q) principal).
Proof. unfold principal_slot. shelving. Qed.
Lemma shelf_write_mode {R} point ordinal (stopped : R) : within shelved (write_mode log_cells point ordinal stopped).
Proof. unfold write_mode. shelving. all: apply shelf_fault_at. Qed.
End staging_ops.
#[export] Hint Resolve shelf_flush shelf_append shelf_load shelf_principal_slot shelf_write_mode : shelving.

Section staging_walks.
Context `{Outside} (log_cells : nat).

Lemma shelf_children {Q} index : within shelved (children (Q := Q) index).
Proof. unfold children. shelving. Qed.
Lemma shelf_closure_walk {R} turns queue tail out : within shelved (closure_walk (R := R) turns queue tail out).
Proof.
  revert queue tail out. induction turns as [|turns IH]; intros [|index queue] tail out; cbn [closure_walk]; shelving.
  all: first [apply shelf_children|apply IH].
Qed.
Lemma shelf_closure {Q} root : within shelved (closure (Q := Q) root).
Proof. unfold closure. shelving. all: apply shelf_closure_walk. Qed.
Lemma shelf_with_principal {Q} principal f : within shelved (with_principal (Q := Q) principal f).
Proof. unfold with_principal. shelving. Qed.
Lemma shelf_commit_covered {A} : within shelved (commit_covered (A := A)).
Proof. unfold commit_covered. shelving. Qed.
End staging_walks.
#[export] Hint Resolve shelf_closure shelf_with_principal shelf_commit_covered : shelving.


(** Such a step keeps the staging area well formed. *)
Lemma shelved_stages {R A} (m : Act Sys R A) : within shelved m → within stages m.
Proof. intros Hm s Hwf. exact (shelf_wf _ _ (Hm s) Hwf). Qed.
Lemma stages_update {R} f :
  (∀ st, shelf_of (f st) = shelf_of st) → within stages (update (R := R) f).
Proof. intros Hf. apply shelved_stages. intros s. apply Hf. Qed.

Create HintDb staging.
#[export] Hint Extern 1 (within stages _) => apply shelved_stages; solve [auto 1 with shelving nocore] : staging.
Ltac stage_step :=
  walk_step ltac:(first [apply stages_update; intros; reflexivity | solve [auto 2 with staging nocore]]).
Ltac staging := repeat stage_step.

(** ** Objects come and go *)

Section staging_objects.
Context `{Outside} (log_cells : nat).

Lemma object_eq {R} (index : nat) s :
  object (R := R) index s = match st_objects (sy_store s) !! index with Some e => Go e s | None => Bad s end.
Proof. unfold object, self, ask, bind_act, or_panic. by destruct (_ !! index). Qed.

Lemma stages_mark {Q} keep root : within stages (mark (Q := Q) keep root).
Proof. unfold mark. staging. Qed.

Lemma stages_sweep_one {R} freed (index : nat) kept : within stages (sweep_one (R := R) freed index kept).
Proof.
  intros s Hwf. unfold sweep_one, bind_act at 1. rewrite object_eq.
  destruct (st_objects (sy_store s) !! index) as [e|] eqn:Hi; [|done].
  destruct (negb (oe_live e) || oe_durable e || oe_pinned e || kept) eqn:Hkeep; [done|].
  apply orb_false_iff in Hkeep as [[[Hlive Hdur]%orb_false_iff _]%orb_false_iff _].
  apply negb_false_iff in Hlive. pose proof (sg_volatile _ Hwf index e Hi Hlive Hdur) as Hst.
  destruct (sg_entry _ Hwf index e Hi (conj Hlive Hst)) as (bytes & _ & Hused & _).
  rewrite bool_decide_false by done. cbn [negb when].
  unfold free_stage, self, ask, bind_act, or_panic, update, change, set_object. cbn [sy_store]. rewrite Hused.
  eapply (unstage_wf _ _ index e ObjectEntry.default Hwf Hi); cbn.
  - by intros [? _].
  - done.
  - by rewrite list_insert_alter.
  - done.
  - right. split; [by split|done].
Qed.

Lemma stages_reclaim_staged {Q} : within stages (reclaim_staged (Q := Q)).
Proof. unfold reclaim_staged. staging. all: first [apply stages_mark|apply stages_sweep_one]. Qed.

Lemma stages_unpin {R} : within stages (unpin (R := R)).
Proof.
  intros s Hwf. cbn. destruct Hwf as [Hu Hs Hb He Hd Hv]. split; cbn; try done.
  - intros i e. rewrite list_lookup_fmap. destruct (_ !! i) as [f|] eqn:Hf; [|done]. intros [= <-] Hst.
    destruct (He i f Hf Hst) as (bytes & Hrest). by exists bytes.
  - intros i j e f. rewrite !list_lookup_fmap. destruct (_ !! i) as [e'|] eqn:Hi; [|done].
    destruct (_ !! j) as [f'|] eqn:Hj; [|done]. intros [= <-] [= <-]. apply (Hd i j e' f' Hi Hj).
  - intros i e. rewrite list_lookup_fmap. destruct (_ !! i) as [f|] eqn:Hf; [|done]. intros [= <-]. apply (Hv i f Hf).
Qed.


(** ** Staging an object *)

Lemma position_spec {A} (p : A → bool) l i : position p l = Some i → ∃ x, l !! i = Some x ∧ p x = true.
Proof.
  revert i. induction l as [|a l IH]; intros i; cbn [position]; [done|].
  destruct (p a) eqn:Ha; [intros [= <-]; by exists a|].
  destruct (position p l) as [j|]; [|done]. intros [= <-]. exact (IH j eq_refl).
Qed.

Lemma stage_slot_wf st (slot index : nat) type bytes pinned st' :
  type < 2 ^ 32 → staging_wf st → free_stage_slot st = Some slot → (index < length (st_objects st))%nat →
  (length bytes <= OBJECT_MAX)%nat →
  st_staged st' = alter (splice 0 bytes) slot (st_staged st) →
  st_stage_used st' = <[slot := true]> (st_stage_used st) →
  st_objects st' = <[index := mkObjectEntry (object_digest type bytes) type (N.of_nat (length bytes)) 0 false
                                (N.of_nat slot) true pinned]> (st_objects st) →
  staging_wf st'.
Proof.
  intros Htype [Hu Hs Hb He Hd Hv] Hslot Hindex Hlen Est Eused Eobj.
  apply position_spec in Hslot as (used & Hfree & Hnot). apply negb_true_iff in Hnot as ->.
  assert (slot < MAX_STAGED)%nat as Hlt by (rewrite <-Hu; by eapply lookup_lt_Some).
  assert (∀ (j : nat) f, st_objects st !! j = Some f → is_staged f → N.to_nat (oe_stage f) ≠ slot) as Hother.
  { intros j f Hj Hf Heq. destruct (He j f Hj Hf) as (b & _ & Hused & _). rewrite Heq in Hused. congruence. }
  assert (∀ (j : nat) f, st_objects st' !! j = Some f →
    j = index ∧ f = mkObjectEntry (object_digest type bytes) type (N.of_nat (length bytes)) 0 false
      (N.of_nat slot) true pinned ∨ j ≠ index ∧ st_objects st !! j = Some f) as Hnew.
  { intros j f. rewrite Eobj. destruct (decide (j = index)) as [->|Hne].
    - rewrite list_lookup_insert_eq by done. intros [= <-]. by left.
    - rewrite list_lookup_insert_ne by done. by right. }
  split.
  - by rewrite Eused, length_insert.
  - by rewrite Est, length_alter.
  - rewrite Est. apply Forall_alter; [done|]. intros old Hold Hl. rewrite splice_len; [done|]. lia.
  - intros j f Hj Hf. destruct (Hnew j f Hj) as [[-> ->]|[Hne Hj']].
    + destruct (lookup_lt_is_Some_2 (st_staged st) slot) as [old Hold]; [by rewrite Hs|].
      rewrite Forall_lookup in Hb. pose proof (Hb slot old Hold) as Hl. cbn in Hl.
      exists (splice 0 bytes old). rewrite Est, Eused. cbn. rewrite !Nat2N.id, list_lookup_alter_eq, Hold.
      rewrite list_lookup_insert_eq by by rewrite Hu. split_and!; [done|done|done|done|].
      pose proof (take_splice 0 bytes old ltac:(lia)) as Ht. cbn in Ht. by rewrite Ht.
    + destruct (He j f Hj' Hf) as (b & H1 & H2 & H3 & H4 & H5). exists b. rewrite Est, Eused.
      pose proof (Hother j f Hj' Hf). by rewrite list_lookup_alter_ne, list_lookup_insert_ne.
  - intros i j f g Hi Hj Hf Hg Heq. destruct (Hnew i f Hi) as [[-> ->]|[_ Hi']], (Hnew j g Hj) as [[-> ->]|[_ Hj']].
    + done.
    + exfalso. apply (Hother j g Hj' Hg). cbn in Heq. lia.
    + exfalso. apply (Hother i f Hi' Hf). cbn in Heq. lia.
    + by eapply Hd.
  - intros j f Hj Hl Hdur. destruct (Hnew j f Hj) as [[-> ->]|[_ Hj']]; [|by eapply Hv].
    cbn. unfold MAX_STAGED in Hlt. unfold U32_MAX. lia.
Qed.

Lemma stages_place type bytes :
  type < 2 ^ 32 → (length bytes <= OBJECT_MAX)%nat → within stages (place type bytes (object_digest type bytes)).
Proof.
  intros Htype Hlen s Hwf. unfold place, self, ask, or_return, bind_act.
  destruct (free_stage_slot (sy_store s)) as [slot|] eqn:Hslot; cbn [early go final]; [|done].
  destruct (free_object_slot (sy_store s)) as [index|] eqn:Hindex; cbn [early go final]; [|done].
  apply position_spec in Hindex as (e & He & _).
  by apply (stage_slot_wf (sy_store s) slot index type bytes true _ Htype Hwf Hslot); [by eapply lookup_lt_Some| | | |].
Qed.

Lemma stages_stage {Q} type bytes : type < 2 ^ 32 → within stages (stage (Q := Q) type bytes).
Proof.
  intros Htype. apply within_call. destruct (decide (OBJECT_MAX < length bytes)%nat) as [Hlong|Hlen].
  { intros s Hwf. unfold bind_act, return_if. by rewrite bool_decide_true. }
  rewrite bool_decide_false by done. staging; [apply stages_reclaim_staged|]. apply stages_place; [done|lia].
Qed.

(** An object of the log takes over an entry. *)
Lemma stages_adopt {Q} digest type len block : within stages (adopt (Q := Q) digest type len block).
Proof.
  unfold adopt. apply within_call, within_bind; [apply _|staging|intros found].
  apply within_bind; [apply _| |intros []].
  - destruct found as [index|]; staging. intros s Hwf. by apply (retag_wf _ index).
  - intros s Hwf. unfold self, ask, or_return, bind_act.
    destruct (free_object_slot (sy_store s)) as [index|] eqn:Hindex; cbn [early go final]; [|done].
    apply position_spec in Hindex as (e & He & _).
    apply (unstage_wf (sy_store s) _ index e (mkObjectEntry digest type len block true U32_MAX true false) Hwf He).
    + by intros [_ Hn].
    + done.
    + cbn. by rewrite list_insert_alter.
    + done.
    + by left.
Qed.

(** ** Writing an object down *)

(** What [load] gives of a staged entry is what its digest names. *)
Lemma load_staged {Q} (index : nat) s e :
  staging_wf (sy_store s) → st_objects (sy_store s) !! index = Some e → is_staged e →
  ∃ bytes, load (Q := Q) index s = Go (Some bytes) s ∧ oe_object_type e < 2 ^ 32 ∧
    object_digest (oe_object_type e) bytes = oe_digest e ∧ length bytes = N.to_nat (oe_length e) ∧ (length bytes <= OBJECT_MAX)%nat.
Proof.
  intros Hwf Hi Hst. destruct (sg_entry _ Hwf index e Hi Hst) as (buffer & Hb & _ & Hlen & Htype & Hd).
  pose proof (sg_buffers _ Hwf) as Hbuf. rewrite Forall_lookup in Hbuf. specialize (Hbuf _ _ Hb). cbn in Hbuf.
  assert (length (take (N.to_nat (oe_length e)) buffer) = N.to_nat (oe_length e)) as Htake.
  { rewrite length_take. lia. }
  exists (take (N.to_nat (oe_length e)) buffer). split_and!; [|done|done|done|lia].
  destruct Hst as [Hlive Hst]. unfold load, call, bind_act. rewrite object_eq, Hi. rewrite Hlive. cbn [negb return_if].
  rewrite bool_decide_false by done. cbn [negb]. unfold self, ask, or_panic, into_content, go. cbv beta iota. rewrite Hb.
  rewrite Htake, decide_True by done. unfold or_panic, go. rewrite Htake, decide_False by lia. done.
Qed.

(** The entry is in the log now, and its slot is free again. *)
Lemma written_wf st st' (index : nat) e block :
  staging_wf st → st_objects st !! index = Some e → is_staged e →
  st_objects st' = <[index := e <| oe_durable := true |> <| oe_block := block |> <| oe_stage := U32_MAX |>]> (st_objects st) →
  st_staged st' = st_staged st →
  st_stage_used st' = <[N.to_nat (oe_stage e) := false]> (st_stage_used st) →
  staging_wf st'.
Proof.
  intros Hwf Hi Hst Ho Hs Hu.
  apply (unstage_wf st st' index e (e <| oe_durable := true |> <| oe_block := block |> <| oe_stage := U32_MAX |>));
    try done; [by intros [_ Hn]|by right].
Qed.

Lemma load_dead {Q} (index : nat) s e :
  st_objects (sy_store s) !! index = Some e → oe_live e = false → load (Q := Q) index s = Go None s.
Proof. intros Hi Hl. unfold load, call, bind_act. rewrite object_eq, Hi. by rewrite Hl. Qed.

(** The two changes after the record is in the log. *)
Lemma stages_settle {R} (index : nat) e block s :
  staging_wf (sy_store s) → st_objects (sy_store s) !! index = Some e → oe_live e = true →
  staging_wf (sy_store (final (bind_act (set_object (R := R) index (λ e, e <| oe_durable := true |> <| oe_block := block |>))
    (λ _, bind_act (when (negb (bool_decide (oe_stage e = U32_MAX)))
       (bind_act (free_stage (oe_stage e)) (λ _, set_object index (λ e, e <| oe_stage := U32_MAX |>))))
       (λ _, go true)) s))).
Proof.
  intros Hwf Hi Hl. unfold bind_act at 1. unfold set_object at 1, update, change. cbv beta iota.
  destruct (decide (oe_stage e = U32_MAX)) as [Hst|Hst].
  { rewrite bool_decide_true by done. by apply (retag_wf _ index). }
  rewrite bool_decide_false by done. cbn [negb when].
  destruct (sg_entry _ Hwf index e Hi (conj Hl Hst)) as (bytes & _ & Hused & _).
  unfold free_stage, self, ask, bind_act, or_panic, update, change, set_object, go. cbn [sy_store]. cbv beta iota. cbn [set_field rebuild Store_rebuild Sys_rebuild sy_store st_stage_used]. rewrite Hused.
  eapply (written_wf (sy_store s) _ index e block Hwf Hi (conj Hl Hst)); cbn.
  - rewrite list_alter_alter_eq, list_insert_alter. apply list_alter_ext; [|done].
    intros x Hx. rewrite Hi in Hx. by injection Hx as <-.
  - done.
  - done.
Qed.

Lemma stages_write_object {Q} index mode : within stages (write_object (Q := Q) index mode).
Proof.
  unfold write_object. apply within_call. intros s Hwf. unfold bind_act at 1. rewrite object_eq.
  destruct (st_objects (sy_store s) !! index) as [e|] eqn:Hi; [|done].
  unfold bind_act at 1. pose proof (shelf_load (Q := bool) index s) as Hs1.
  destruct (oe_live e) eqn:Hl; [|by rewrite (load_dead index s e)].
  destruct (load index s) as [loaded s1|r s1|s1]; cbn [final] in Hs1; try (cbn; by apply (shelf_wf _ _ Hs1)).
  unfold bind_act at 1.
  destruct loaded as [bytes|]; cbn [or_return]; [|cbn; by apply (shelf_wf _ _ Hs1)].
  unfold go at 1. cbv beta iota.
  destruct (bool_decide (N.of_nat (length bytes) = oe_length e)); cbn [negb];
    [|cbn; by apply (shelf_wf _ _ Hs1)].
  unfold bind_act at 1. cbn [return_if]. unfold go at 1. cbv beta iota.
  unfold bind_act at 1. unfold self at 1, ask. cbv beta iota.
  unfold bind_act at 1. set (body := object_body _ _ _ _).
  pose proof (shelf_append (Q := bool) record_kind.OBJECT body mode s1) as Hs2.
  assert (shelf_of (sy_store (final (append (Q := bool) record_kind.OBJECT body mode s1))) = shelf_of (sy_store s)) as Hs.
  { unfold shelved in *. congruence. }
  clear Hs1 Hs2. destruct (append _ _ _ s1) as [appended s2|r s2|s2]; cbn [final] in Hs;
    try (cbn; by apply (shelf_wf _ _ Hs)).
  destruct appended as [digest|]; cbn [option_map]; [|cbn; by apply (shelf_wf _ _ Hs)].
  rewrite bool_decide_false by done. unfold bind_act at 1. cbn [return_if]. unfold go at 1. cbv beta iota.
  apply (stages_settle index e _ s2); [by apply (shelf_wf _ _ Hs)| |done].
  injection Hs as Ho _ _. by rewrite Ho.
Qed.

Lemma stages_forget_arena {R} f :
  (∀ st, ∃ first blocks, st_objects (f st) = map (forget_arena first blocks) (st_objects st) ∧
     st_stage_used (f st) = st_stage_used st ∧ st_staged (f st) = st_staged st) →
  within stages (update (R := R) f).
Proof.
  intros Hf s [Hu Hs Hb He Hd Hv]. destruct (Hf (sy_store s)) as (first & blocks & Ho & Eu & Es). cbn.
  assert (∀ (i : nat) e, st_objects (f (sy_store s)) !! i = Some e → oe_live e = true →
    st_objects (sy_store s) !! i = Some e) as Hold.
  { intros i e. rewrite Ho, list_lookup_fmap. destruct (_ !! i) as [x|]; [|done]. intros [= <-].
    unfold forget_arena. by destruct (oe_live x && _ && _ && _). }
  split; rewrite ?Eu, ?Es; try done.
  - intros i e Hi Hst. destruct (He i e (Hold i e Hi (proj1 Hst)) Hst) as (bytes & Hrest).
    exists bytes. by rewrite Eu, Es.
  - intros i j e g Hi Hj Hst Hst'. apply (Hd i j e g (Hold i e Hi (proj1 Hst)) (Hold j g Hj (proj1 Hst')) Hst Hst').
  - intros i e Hi Hl. by apply (Hv i e (Hold i e Hi Hl)).
Qed.

End staging_objects.
#[export] Hint Resolve stages_reclaim_staged stages_stage stages_adopt stages_write_object stages_unpin : staging.

Section staging_service.
Context `{Outside} (log_cells : nat).

Lemma stages_publish_object {A} index ordinal : within stages (publish_object (A := A) log_cells index ordinal).
Proof. unfold publish_object. staging. Qed.
Lemma shelf_stop_at {R} point (stopped : R) : within shelved (stop_at log_cells point stopped).
Proof. unfold stop_at. shelving. all: apply shelf_fault_at. Qed.
Lemma shelf_record_result entry st : shelf_of (record_result entry st) = shelf_of st.
Proof. unfold record_result. destruct (position _ _); [done|]. by case_decide. Qed.
Lemma shelf_set_outbox principal sequence status st : shelf_of (set_outbox principal sequence status st) = shelf_of st.
Proof. unfold set_outbox. by destruct (position _ _). Qed.
Lemma shelf_admit_sequence {Q} p : within shelved (admit_sequence (Q := Q) p).
Proof. unfold admit_sequence. shelving. Qed.
Lemma shelf_free_blocks {R} : within shelved (free_blocks (R := R)).
Proof. unfold free_blocks. shelving. Qed.
Lemma shelf_admit {Q} p : within shelved (store_admit (Q := Q) p).
Proof. unfold store_admit. shelving. all: first [apply shelf_admit_sequence|apply shelf_free_blocks]. Qed.
Lemma shelf_write_checkpoint {Q} arena : within shelved (write_checkpoint (Q := Q) arena).
Proof. unfold write_checkpoint. shelving. Qed.
Lemma shelf_write_superblock {Q} slot generation : within shelved (write_superblock (Q := Q) slot generation).
Proof. unfold write_superblock. shelving. Qed.
Lemma shelf_record_outbox {Q} principal sequence request target status attempts :
  within shelved (record_outbox (Q := Q) principal sequence request target status attempts).
Proof. unfold record_outbox. shelving. all: apply shelf_update, shelf_set_outbox. Qed.
Lemma shelf_read_object {Q} digest room : within shelved (read_object (Q := Q) digest room).
Proof. unfold read_object. shelving. Qed.
Lemma shelf_retain {Q} root expiry : within shelved (retain (Q := Q) root expiry).
Proof. unfold retain. shelving. Qed.
Lemma shelf_release {Q} root : within shelved (release (Q := Q) root).
Proof. unfold release. shelving. Qed.
End staging_service.
#[export] Hint Resolve shelf_stop_at shelf_write_checkpoint shelf_write_superblock : shelving.
#[export] Hint Resolve stages_publish_object : staging.

Section staging_top.
Context `{Outside} (log_cells : nat).

Lemma stages_copy_object {A} copied : within stages (copy_object (A := A) copied).
Proof.
  destruct copied as [digest type]. unfold copy_object. staging. unfold set_object, update, change.
  intros s Hwf. cbn. by apply (retag_wf _ a0).
Qed.
Lemma stages_publish {Q} p request invocation : within stages (publish (Q := Q) log_cells p request invocation).
Proof.
  unfold publish, publish_objects, publish_commit. staging.
  - by apply stages_stage.
  - apply stages_update. intros st. etransitivity; [apply shelf_record_result|reflexivity].
  - apply shelved_stages, shelf_fault_at.
Qed.
Lemma stages_compact {Q} : within stages (compact (Q := Q) log_cells).
Proof.
  unfold compact. staging.
  - apply stages_copy_object.
  - apply stages_forget_arena. intros st. by eexists _, _.
Qed.
Lemma stages_replay_record {Q} kind body block : within stages (replay_record (Q := Q) kind body block).
Proof.
  unfold replay_record, replay_object, replay_prepare, replay_commit, replay_abort, replay_outbox, dependency_missing.
  staging.
  all: apply stages_update; intros st; (etransitivity; [first [apply shelf_record_result|apply shelf_set_outbox]|reflexivity]).
Qed.
Lemma stages_replay_scan {R} fuel : within stages (replay_scan (R := R) fuel).
Proof.
  induction fuel as [|fuel IH]; cbn [replay_scan]; unfold replayed; staging.
  all: first [apply stages_replay_record|apply IH].
Qed.
Lemma stages_load_checkpoint {Q} body : within stages (load_checkpoint (Q := Q) body).
Proof. unfold load_checkpoint. staging. Qed.
Lemma stages_recover {Q} seed : within stages (recover (Q := Q) seed).
Proof.
  unfold recover, read_superblock, format, adopt_superblock, replay, replay_open, resolve_pending. staging.
  all: first [apply stages_load_checkpoint|apply stages_replay_scan
    |apply stages_update; intros st; etransitivity; [apply shelf_record_result|reflexivity]].
Qed.
End staging_top.

(** ** The service's operations in any order *)

(** What the service's loop asks of the store. An object's type is a [u32]. *)
Inductive StoreOp :=
  | Recover (seed : N)
  | Stage (object_type : N) (bytes : list N)
  | ReadObject (digest : list N) (room : nat)
  | Admit (p : Publication)
  | Publish (p : Publication) (request : list N) (invocation_id : N)
  | RecordOutbox (principal sequence : N) (request : list N) (target status attempts : N)
  | Compact
  | Retain (root : list N) (expiry_ns : N)
  | Release (root : list N)
  | Unpin
  | ReclaimStaged.

Section service.
Context `{Outside} (log_cells : nat).

Definition run {R A} (m : Act Sys R A) : Sys → Sys := λ s, final (m s).
Definition perform_op (o : StoreOp) : Sys → Sys :=
  match o with
  | Recover seed => run (recover (Q := ()) seed)
  | Stage type bytes => run (stage (Q := ()) (type mod 2 ^ 32) bytes)
  | ReadObject digest room => run (read_object (Q := ()) digest room)
  | Admit p => run (store_admit (Q := ()) p)
  | Publish p request invocation => run (publish (Q := ()) log_cells p request invocation)
  | RecordOutbox principal sequence request target status attempts =>
      run (record_outbox (Q := ()) principal sequence request target status attempts)
  | Compact => run (compact (Q := ()) log_cells)
  | Retain root expiry => run (retain (Q := ()) root expiry)
  | Release root => run (release (Q := ()) root)
  | Unpin => run (unpin (R := ()))
  | ReclaimStaged => run (reclaim_staged (Q := ()))
  end.
Definition perform_ops (ops : list StoreOp) (s : Sys) : Sys := foldl (λ s o, perform_op o s) s ops.

Lemma perform_op_stages o s : stages s (perform_op o s).
Proof.
  destruct o; [apply stages_recover|by apply stages_stage, N.mod_lt|apply shelved_stages, shelf_read_object
    |apply shelved_stages, shelf_admit|apply stages_publish|apply shelved_stages, shelf_record_outbox|apply stages_compact
    |apply shelved_stages, shelf_retain|apply shelved_stages, shelf_release|apply (stages_unpin (R := ()))|apply stages_reclaim_staged].
Qed.

Lemma store_new_staging d : staging_wf (Store.new d).
Proof.
  assert (∀ (i : nat) e, replicate MAX_OBJECTS ObjectEntry.default !! i = Some e → oe_live e = false) as Hdead.
  { intros i e He. apply lookup_replicate in He as [-> _]. done. }
  split; unfold Store.new; cbn [st_stage_used st_staged st_objects].
  - apply length_replicate.
  - apply length_replicate.
  - apply Forall_replicate, length_replicate.
  - intros i e Hi [Hl _]. by rewrite (Hdead i e Hi) in Hl.
  - intros i j e f Hi _ [Hl _]. by rewrite (Hdead i e Hi) in Hl.
  - intros i e Hi Hl. by rewrite (Hdead i e Hi) in Hl.
Qed.

Lemma perform_ops_stages ops s : stages s (perform_ops ops s).
Proof.
  revert s. induction ops as [|o ops IH]; intros s; [intros Hs; exact Hs|].
  intros Hs. apply IH, perform_op_stages, Hs.
Qed.

(** The bytes a load gives hash to the entry's digest. *)
Lemma load_verified {Q} (index : nat) s bytes s' e :
  staging_wf (sy_store s) → st_objects (sy_store s) !! index = Some e →
  load (Q := Q) index s = Go (Some bytes) s' → ∃ type, object_digest type bytes = oe_digest e.
Proof.
  intros Hwf Hi Hload. destruct (oe_live e) eqn:Hl; [|by rewrite (load_dead index s e) in Hload].
  destruct (decide (oe_stage e = U32_MAX)) as [Hst|Hst].
  2: { destruct (load_staged (Q := Q) index s e Hwf Hi (conj Hl Hst)) as (b & E & _ & Hd & _).
       rewrite E in Hload. injection Hload as <- _. by eexists. }
  revert Hload. unfold load, call, bind_act. rewrite object_eq, Hi, Hl. cbn [negb return_if go].
  rewrite bool_decide_true by done. cbn [negb]. destruct (oe_durable e); [|done]. cbn [negb return_if go].
  unfold disk_read, on_disk. destruct (Disk.read _ _ _ _) as [[[] d] w]; cbn [negb return_if go early]; [|done].
  unfold slot, ask, bind_act, or_panic. destruct (slot_bytes _ _) as [span|]; cbn [go]; [|done].
  destruct (parse_record span) as [record|]; cbn [or_return go early]; [|done].
  destruct (bool_decide _); cbn [negb return_if go early]; [|done].
  destruct (read_from _ _ _) as [head|]; cbn [or_return go early]; [|done].
  destruct (_ || _); cbn [return_if go early]; [done|].
  destruct (bool_decide (object_digest _ _ = _)) eqn:Hd; cbn [negb return_if go early]; [|done].
  apply bool_decide_eq_true in Hd. unfold into_content, or_panic. case_decide; [|done]. cbn [go].
  intros [= <- _]. by eexists.
Qed.

End service.
