(* ===== verification/K4Crash.v ===== *)
(** * The durable store: what a publication writes

    What is on the medium at every moment of a publication, for any behaviour of the
    device: the records of the log as far as it got, each whole or not there. *)

From stdpp Require Import gmap.
From S2P Require Import Prelude Bytes Sha256 K4Layout K4Format K4FormatProofs.
From S2P Require Import Effects K4Disk K4Store K4StoreLog K4StorePub.
From S2P Require Import K4StoreProofs K4Staging.

#[local] Open Scope N_scope.
#[local] Opaque hash object_digest record_digest BLOCK OBJECT_MAX.

(** ** What is on the medium *)

(** Every block is as it was before the writes, or holds one of them. *)
Definition covered (base : gmap N (list N)) (writes : list (N * list N)) (m : Medium) : Prop :=
  (∀ b, md_durable m !! b = base !! b ∨ ∃ data, md_durable m !! b = Some data ∧ (b, data) ∈ writes) ∧
  (∀ x, x ∈ md_cache m → x ∈ writes).

(** The power is cut: of the writes not yet durable each may have reached the medium,
    or not, or have left a block that is no record. *)
Definition power_cut (m : Medium) (d : gmap N (list N)) : Prop :=
  ∀ b, d !! b = md_durable m !! b ∨
    ∃ data, (b, data) ∈ md_cache m ∧
      (d !! b = Some data ∨ ∃ torn, d !! b = Some torn ∧ parse_record torn = None).

Lemma covered_mono base writes writes' m :
  (∀ x, x ∈ writes → x ∈ writes') → covered base writes m → covered base writes' m.
Proof.
  intros Hsub [Hd Hc]. split; [|by auto]. intros b. destruct (Hd b) as [H|(data & H1 & H2)]; [by left|right].
  exists data. by auto.
Qed.

Lemma covered_write base writes m b data :
  covered base writes m → covered base (writes ++ [(b, data)]) (md_write b data m).
Proof.
  intros [Hd Hc]. split; cbn.
  - intros b'. destruct (Hd b') as [H|(data' & H1 & H2)]; [by left|right].
    exists data'. split; [done|]. apply elem_of_app. by left.
  - intros x [Hx|Hx]%elem_of_app; apply elem_of_app; [left; by apply Hc|by right].
Qed.

Lemma apply_writes_lookup writes d b :
  apply_writes writes d !! b = d !! b ∨ ∃ data, apply_writes writes d !! b = Some data ∧ (b, data) ∈ writes.
Proof.
  revert d. induction writes as [|[c data] writes IH]; intros d; [by left|]. cbn.
  destruct (IH (<[c := data]> d)) as [H|(data' & H1 & H2)].
  - fold (apply_writes writes (<[c := data]> d)). rewrite H. destruct (decide (b = c)) as [->|Hne].
    + right. exists data. rewrite lookup_insert_eq. split; [done|]. by left.
    + left. by rewrite lookup_insert_ne.
  - right. exists data'. split; [done|]. by right.
Qed.

Lemma covered_flush base writes m : covered base writes m → covered base writes (md_flush m).
Proof.
  intros [Hd Hc]. split; cbn; [|by intros x Hx%elem_of_nil].
  intros b. destruct (apply_writes_lookup (md_cache m) (md_durable m) b) as [H|(data & H1 & H2)].
  - rewrite H. apply Hd.
  - right. exists data. by auto.
Qed.

(** What a read finds. *)
Definition view (m : Medium) : gmap N (list N) := apply_writes (md_cache m) (md_durable m).
Lemma view_write block data m : view (md_write block data m) = <[block := data]> (view m).
Proof. unfold view, md_write, apply_writes. cbn. by rewrite foldl_app. Qed.
Lemma apply_writes_app w1 w2 d : apply_writes (w1 ++ w2) d = apply_writes w2 (apply_writes w1 d).
Proof. unfold apply_writes. by rewrite foldl_app. Qed.

(** ** The log grows *)

(** The records a sequence of appends makes of these kinds and payloads. *)
Definition frame_of (t : Tail) (kind : N) : RecordFrame :=
  mkRecordFrame kind (tl_sequence t) (tl_epoch t) (tl_arena t mod 2 ^ 32) (tl_prev t).
Definition header_of (t : Tail) (kind : N) (body : list N) : RecordHeader := frame_header (frame_of t kind) body 1.
Definition image_of (t : Tail) (kind : N) (body : list N) : list N := record_image (header_of t kind body) body.
(** The tail one record further. *)
Definition grown (t : Tail) (kind : N) (body : list N) : Tail :=
  mkTail (tl_epoch t) (tl_arena t) (tl_start t) (tl_blocks t) (tl_block t + 1) (tl_sequence t + 1)
    (rh_digest (header_of t kind body)).
Fixpoint writes_of (t : Tail) (records : list (N * list N)) : list (N * list N) :=
  match records with
  | [] => []
  | (kind, body) :: records => (tl_block t, image_of t kind body) :: writes_of (grown t kind body) records
  end.
Fixpoint grown_by (t : Tail) (records : list (N * list N)) : Tail :=
  match records with
  | [] => t
  | (kind, body) :: records => grown_by (grown t kind body) records
  end.

Lemma writes_of_app t r1 r2 : writes_of t (r1 ++ r2) = writes_of t r1 ++ writes_of (grown_by t r1) r2.
Proof. revert t. induction r1 as [|[k b] r1 IH]; intros t; cbn; [done|]. by rewrite IH. Qed.
Lemma grown_by_app t r1 r2 : grown_by t (r1 ++ r2) = grown_by (grown_by t r1) r2.
Proof. revert t. induction r1 as [|[k b] r1 IH]; intros t; cbn; [done|]. by rewrite IH. Qed.

(** Since [s0] the medium has been, at every moment, [base] and some of these writes. *)
Record logging (s0 : Sys) (base : gmap N (list N)) (writes : list (N * list N)) (s : Sys) : Prop := {
  lg_unharmed : unharmed s;
  lg_medium : covered base writes (w_medium (sy_world s));
  lg_past : ∃ since, w_past (sy_world s) = since ++ w_past (sy_world s0) ∧ Forall (covered base writes) since
}.

Lemma logging_mono s0 base writes writes' s :
  (∀ x, x ∈ writes → x ∈ writes') → logging s0 base writes s → logging s0 base writes' s.
Proof.
  intros Hsub [Hu Hm (since & Hs & Hf)]. split; [done|by eapply covered_mono|]. exists since. split; [done|].
  eapply Forall_impl; [done|]. intros m. by apply covered_mono.
Qed.

Lemma logging_quiet s0 base writes s s' : quiet s s' → logging s0 base writes s → logging s0 base writes s'.
Proof.
  intros Hq [Hu Hm (since & Hs & Hf)]. destruct (Hq Hu) as [_ Hm' Hu' [k Hk]]. split; [done|by rewrite Hm'|].
  exists (replicate k (w_medium (sy_world s)) ++ since). split; [by rewrite Hk, Hs, app_assoc|].
  apply Forall_app. split; [|done]. by apply Forall_replicate.
Qed.

Section appending.
Context `{Outside}.

Lemma frame_record_block out frame body :
  length out = BLOCK → (length body <= RECORD_ROOM)%nat →
  frame_record out frame body =
  ok (record_image (frame_header frame body 1) body, (1%nat, rh_digest (frame_header frame body 1))).
Proof.
  intros Hout Hb. rewrite frame_record_image; [|done|lia|].
  2: { rewrite Hout. by vm_compute. }
  pose proof (record_image_len (frame_header frame body 1) body Hb) as Hi.
  unfold splice. change (take 0 out) with (@nil N). cbn [app Nat.add].
  by rewrite Hi, <-Hout, drop_all, app_nil_r.
Qed.

(** The driver, asked for one plain block. *)
Lemma write_with_faults_plain block w b0 image rest :
  w_iobuf w = b0 :: image :: rest →
  write_with_faults (mkDiskRequest disk_op.WRITE fault_mode.NONE block 1 WRITE_SLOT 0) w =
  let '(moved, w) := transfer (write_out [(block, image)]) w in
  if negb moved then (blank_reply disk_status.IO_ERROR fault_mode.NONE, w) else
  ((blank_reply disk_status.OK fault_mode.NONE) <| dr_transferred := 1 |>,
   w <| w_faults ::= λ f, f <| ft_writes_issued ::= N.succ |>
                            <| ft_sectors_written ::= N.add (1 * geometry.BLOCK_SIZE / geometry.SECTOR_SIZE) |> |>).
Proof.
  intros Hio. unfold write_with_faults. cbn [dq_fault_mode dq_count dq_buffer_block dq_block].
  rewrite !decide_False by done. rewrite Hio. change (bool_decide (fault_mode.NONE = fault_mode.TEAR_WRITE)) with false.
  cbv beta iota zeta. change (N.to_nat 1) with 1%nat. change (N.to_nat WRITE_SLOT) with 1%nat.
  cbn [drop take].
  assert (blocks_from block (image :: take 0 rest) = [(block, image)]) as -> by (cbn; by rewrite N.add_0_r). reflexivity.
Qed.

(** What a plain write leaves of the world. *)
Record wrote (block : N) (image : list N) (w : World) (ok : bool) (w' : World) : Prop := {
  wr_latched : ft_latched (w_faults w') = ft_latched (w_faults w);
  wr_held : ft_held (w_faults w') = ft_held (w_faults w);
  wr_iobuf : w_iobuf w' = w_iobuf w;
  wr_medium : (w_medium w' = w_medium w ∧ w_past w' = w_past w ∧ ok = false) ∨
              (w_medium w' = md_write block image (w_medium w) ∧ w_past w' = w_medium w' :: w_past w)
}.

Lemma disk_write_wrote block d w b0 image rest :
  ft_latched (w_faults w) = false → w_iobuf w = b0 :: image :: rest →
  match Disk.write block WRITE_SLOT fault_mode.NONE d w with (ok, _, w') => wrote block image w ok w' end.
Proof.
  intros Hl Hio. unfold Disk.write, Disk.call. destruct (ou_reaches (w_turn w)); cbn [negb].
  2: { split; [done..|]. by left. }
  unfold serve. cbn [dq_op]. rewrite decide_False, decide_True by done.
  change (bounded _) with true. cbn [negb w_faults]. cbn [set_field rebuild World_rebuild w_faults]. rewrite Hl.
  rewrite (write_with_faults_plain block _ b0 image rest) by done.
  unfold transfer. cbn [w_turn]. destruct (ou_fate _); cbn; split; cbn; auto.
Qed.

Lemma unharmed_wrote block image st st' w ok w' :
  unharmed (mkSys st w) → wrote block image w ok w' → st_harness st' = st_harness st → unharmed (mkSys st' w').
Proof.
  intros [Hp Ha Hl Hh Hio] [H1 H2 H3 _] Hst. cbn in *.
  split; cbn; rewrite ?Hst, ?H1, ?H2, ?H3; done.
Qed.

(** A record is appended whole, or the log's tail stays; either way the medium has at
    most that record more. *)
Lemma append_logs {Q} s0 base writes kind body s :
  logging s0 base writes s →
  let t := tail (sy_store s) in
  let more := writes ++ [(tl_block t, image_of t kind body)] in
  match append (Q := Q) kind body fault_mode.NONE s with
  | Go (Some d) s' =>
      logging s0 base more s' ∧ tail (sy_store s') = grown t kind body ∧
      d = rh_digest (header_of t kind body) ∧ (length body <= RECORD_ROOM)%nat ∧
      view (w_medium (sy_world s')) = <[tl_block t := image_of t kind body]> (view (w_medium (sy_world s)))
  | Go None s' => logging s0 base more s'
  | Early _ _ => False
  | Bad s' => logging s0 base more s'
  end.
Proof.
  intros Hlog. cbv zeta. set (t := tail (sy_store s)). set (more := writes ++ _).
  assert (logging s0 base more s) as Hmore.
  { eapply logging_mono; [|exact Hlog]. intros x Hx. apply elem_of_app. by left. }
  destruct s as [st w]. pose proof (lg_unharmed _ _ _ _ Hlog) as Hu.
  destruct (uh_slots _ Hu) as (b0 & b1 & rest & Hio & Hb1). cbn in Hio.
  unfold append. rewrite run_call. unfold arena_end. runs. unfold plus.
  destruct (checked_add 64 _ _) as [last|]; runs; [|done].
  destruct (bool_decide (last <= _)); runs; [done|].
  unfold slot. runs. cbn [sy_world]. unfold slot_bytes. rewrite Hio. change (N.to_nat WRITE_SLOT) with 1%nat.
  cbn [lookup list_lookup]. runs.
  match goal with |- context [frame_record b1 ?f body] => change f with (frame_of t kind) end.
  destruct (decide (length body <= RECORD_ROOM)%nat) as [Hlen|Hlen].
  2: { rewrite frame_record_long by lia. unfold refuse. by runs. }
  rewrite frame_record_block by done. unfold ok. runs. unfold set_slot. runs.
  fold (header_of t kind body). fold (image_of t kind body).
  unfold disk_write, on_disk. change (st_next_block (id _)) with (tl_block t).
  change (st_next_sequence (id _)) with (tl_sequence t).
  set (image := image_of t kind body) in *. cbn [set_field rebuild Sys_rebuild sy_store sy_world].
  assert (length image = BLOCK) as Himage by by apply record_image_len.
  assert (w_iobuf (put_slot WRITE_SLOT image w) = b0 :: image :: rest) as Hio'.
  { unfold put_slot. cbn [set_field rebuild World_rebuild w_iobuf]. by rewrite Hio. }
  pose proof (disk_write_wrote (tl_block t) (st_disk st) (put_slot WRITE_SLOT image w) b0 image rest
    (uh_latched _ Hu) Hio') as Hw.
  destruct (Disk.write (tl_block t) WRITE_SLOT fault_mode.NONE (st_disk st) _) as [[wok d] w'].
  assert (∀ st', st_harness st' = st_harness st → logging s0 base more (mkSys st' w')) as Hafter.
  { intros st' Hst. destruct Hmore as [_ Hm (since & Hs & Hf)]. cbn in Hm, Hs.
    assert (covered base more (w_medium w')) as Hcov.
    { destruct (wr_medium _ _ _ _ _ Hw) as [(-> & _)|[-> _]]; [done|]. apply covered_write, (lg_medium _ _ _ _ Hlog). }
    split; [|done|].
    - destruct Hu as [Hp Ha Hl Hh _], Hw as [W1 W2 W3 _]. cbn in *.
      split; cbn; rewrite ?Hst, ?W1, ?W2, ?W3; try done. by exists b0, image, rest.
    - cbn [sy_world]. destruct (wr_medium _ _ _ _ _ Hw) as [(Em & -> & _)|[_ ->]]; [by exists since|].
      exists (w_medium w' :: since). split; [by cbn; rewrite Hs|by constructor]. }
  destruct wok; cbn [negb]; runs; [|by apply Hafter].
  destruct (checked_add 64 (tl_block t) 1) as [next_block|] eqn:Hnb; runs; [|by apply Hafter].
  destruct (checked_add 64 (tl_sequence t) 1) as [next_sequence|] eqn:Hns; runs; [|by apply Hafter].
  unfold checked_add in Hnb, Hns. case_decide; [|done]. case_decide; [|done].
  injection Hnb as <-. injection Hns as <-.
  split; [by apply Hafter|]. split; [done|]. split; [done|]. split; [done|].
  destruct (wr_medium _ _ _ _ _ Hw) as [(_ & _ & [=])|[Hm _]]. change (view (w_medium w') = <[tl_block t := image]> (view (w_medium w))).
  rewrite Hm. apply view_write.
Qed.

(** What a flush leaves of the world. *)
Record flushed (w : World) (ok : bool) (w' : World) : Prop := {
  fl_latched : ft_latched (w_faults w') = ft_latched (w_faults w);
  fl_held : ft_held (w_faults w') = ft_held (w_faults w);
  fl_iobuf : w_iobuf w' = w_iobuf w;
  fl_medium : (w_medium w' = w_medium w ∧ w_past w' = w_past w ∧ ok = false) ∨
              (w_medium w' = md_flush (w_medium w) ∧ w_past w' = w_medium w' :: w_past w)
}.

Lemma disk_flush_flushed d w :
  ft_latched (w_faults w) = false → ft_held (w_faults w) = None →
  match Disk.flush d w with (ok, _, w') => flushed w ok w' end.
Proof.
  intros Hl Hh. unfold Disk.flush, Disk.call. destruct (ou_reaches (w_turn w)); cbn [negb].
  2: { split; [done..|]. by left. }
  unfold serve. cbn [dq_op]. rewrite !decide_False by done. rewrite decide_True by done.
  cbn [set_field rebuild World_rebuild w_faults]. rewrite Hl. unfold release_held.
  cbn [set_field rebuild World_rebuild w_faults]. rewrite Hh. unfold transfer.
  destruct (ou_fate _); cbn -[md_flush]; (split; [done|done|done|]); cbn -[md_flush]; auto.
Qed.

Lemma view_flush m : view (md_flush m) = view m.
Proof. done. Qed.

Lemma flush_logs {Q} s0 base writes s :
  logging s0 base writes s →
  match flush (Q := Q) s with
  | Go ok s' =>
      logging s0 base writes s' ∧ tail (sy_store s') = tail (sy_store s) ∧
      view (w_medium (sy_world s')) = view (w_medium (sy_world s)) ∧
      (ok = true → md_cache (w_medium (sy_world s')) = [])
  | _ => False
  end.
Proof.
  intros [[Hp Ha Hl Hh (b0 & b1 & rest & Hio & Hb1)] Hm (since & Hs & Hf)]. destruct s as [st w]. cbn in *.
  unfold flush. rewrite run_call. runs. cbn [sy_store]. rewrite Ha. unfold disk_flush, on_disk.
  cbn [sy_store sy_world]. pose proof (disk_flush_flushed (st_disk st) w Hl Hh) as Hd.
  destruct (Disk.flush (st_disk st) w) as [[ok d] w'] eqn:E. clear E. destruct Hd as [F1 F2 F3 F4]. cbn [sy_store sy_world].
  assert (covered base writes (w_medium w')) as Hcov.
  { destruct F4 as [(-> & _)|[-> _]]; [done|by apply covered_flush]. }
  split; [split; [|done|]|split; [done|]].
  - split; cbn; rewrite ?F1, ?F2, ?F3; try done. by exists b0, b1, rest.
  - destruct F4 as [(_ & Hpast & _)|[_ Hpast]]; cbn [sy_world]; rewrite Hpast; [by exists since|].
    exists (w_medium w' :: since). split; [by rewrite Hs|by constructor].
  - destruct F4 as [(-> & _ & ->)|[-> _]]; [done|]. by rewrite view_flush.
Qed.

(** ** The log of a publication *)

(** The log is where these records leave it, on the medium too. *)
Record log_at (s0 : Sys) (base : gmap N (list N)) (t0 : Tail) (records : list (N * list N)) (s : Sys) : Prop := {
  la_logging : logging s0 base (writes_of t0 records) s;
  la_tail : tail (sy_store s) = grown_by t0 records;
  la_view : view (w_medium (sy_world s)) = apply_writes (writes_of t0 records) base
}.
(** Something of these records is on the medium at the most. *)
Definition logged (s0 : Sys) (base : gmap N (list N)) (t0 : Tail) (records : list (N * list N)) : Sys → Prop :=
  logging s0 base (writes_of t0 records).

Lemma log_at_quiet s0 base t0 records s s' : quiet s s' → log_at s0 base t0 records s → log_at s0 base t0 records s'.
Proof.
  intros Hq [Hl Ht Hv]. pose proof (Hq (lg_unharmed _ _ _ _ Hl)) as [Ht' Hm' _ _].
  split; [by eapply logging_quiet|by rewrite Ht'|by rewrite Hm'].
Qed.

Lemma logged_more s0 base t0 records more s : logged s0 base t0 records s → logged s0 base t0 (records ++ more) s.
Proof. apply logging_mono. intros x Hx. rewrite writes_of_app. apply elem_of_app. by left. Qed.

Lemma append_at {Q} s0 base t0 records kind body s :
  log_at s0 base t0 records s →
  match append (Q := Q) kind body fault_mode.NONE s with
  | Go (Some d) s' =>
      log_at s0 base t0 (records ++ [(kind, body)]) s' ∧ d = rh_digest (header_of (grown_by t0 records) kind body)
  | Go None s' | Bad s' => logged s0 base t0 (records ++ [(kind, body)]) s'
  | Early _ _ => False
  end.
Proof.
  intros [Hl Ht Hv]. pose proof (append_logs (Q := Q) s0 base _ kind body s Hl) as Ha. cbv zeta in Ha.
  rewrite Ht in Ha. unfold logged. rewrite writes_of_app. cbn [writes_of].
  destruct (append _ _ _ s) as [[d|] s'|r s'|s']; try done.
  destruct Ha as (Hl' & Ht' & -> & _ & Hv'). split; [|done]. split.
  - by rewrite writes_of_app.
  - by rewrite Ht', grown_by_app.
  - rewrite Hv', Hv, writes_of_app, apply_writes_app. done.
Qed.

(** A record of an object, whole. *)
Definition object_record (r : N * list N) : Prop := ∃ type bytes,
  r = (record_kind.OBJECT, object_body type (N.of_nat (length bytes)) (object_digest type bytes) bytes) ∧
  type < 2 ^ 32 ∧ (length bytes <= OBJECT_MAX)%nat.
(** The records, or one object more. *)
Definition logged_object (s0 : Sys) (base : gmap N (list N)) (t0 : Tail) (records : list (N * list N)) (s : Sys) : Prop :=
  ∃ more, Forall object_record more ∧ (length more <= 1)%nat ∧ logged s0 base t0 (records ++ more) s.
Lemma logged_none s0 base t0 records s : logged s0 base t0 records s → logged_object s0 base t0 records s.
Proof. intros Hl. exists []. rewrite app_nil_r. split; [done|]. split; [cbn; lia|done]. Qed.

Lemma write_object_at {Q} s0 base t0 records (index : nat) e s :
  log_at s0 base t0 records s → staging_wf (sy_store s) → st_objects (sy_store s) !! index = Some e →
  oe_durable e = false →
  match write_object (Q := Q) index fault_mode.NONE s with
  | Go true s' => ∃ r, object_record r ∧ log_at s0 base t0 (records ++ [r]) s'
  | Go false s' | Bad s' => logged_object s0 base t0 records s'
  | Early _ _ => False
  end.
Proof.
  intros Hat Hwf Hi Hd. unfold write_object. rewrite run_call, run_bind, object_eq, Hi.
  destruct (oe_live e) eqn:Hlive.
  2: { rewrite run_bind, (load_dead index s e) by done. runs. by apply logged_none, Hat. }
  destruct (load_staged (Q := bool) index s e Hwf Hi (conj Hlive (sg_volatile _ Hwf index e Hi Hlive Hd)))
    as (bytes & Hload & Htype & Hdigest & Hlen & Hmax).
  rewrite run_bind, Hload. runs. destruct (bool_decide (N.of_nat (length bytes) = oe_length e)); cbn [negb]; runs.
  2: { by apply logged_none, Hat. }
  assert (oe_length e = N.of_nat (length bytes)) as -> by by rewrite Hlen, N2Nat.id.
  rewrite <-Hdigest.
  set (r := (record_kind.OBJECT, object_body (oe_object_type e) (N.of_nat (length bytes))
               (object_digest (oe_object_type e) bytes) bytes)).
  assert (object_record r) as Hr by by exists (oe_object_type e), bytes.
  pose proof (append_at (Q := bool) s0 base t0 records r.1 r.2 s Hat) as Ha. cbn [fst snd r] in Ha.
  assert (∀ s', logged s0 base t0 (records ++ [r]) s' → logged_object s0 base t0 records s') as Hone.
  { intros s' Hs'. exists [r]. split; [by repeat constructor|]. split; [cbn; lia|done]. }
  destruct (append _ _ _ s) as [[d|] s'|r' s'|s']; try done; [|by apply Hone..].
  destruct Ha as [Hat' _]. rewrite bool_decide_false by done. rewrite run_bind, run_return_false.
  match goal with |- context [bind_act ?m ?k s'] => assert (within quiet (bind_act m k)) as Hq by quiets; specialize (Hq s');
    assert (match bind_act m k s' with Go true _ | Bad _ => True | _ => False end) as Hok end.
  { unfold set_object, free_stage. runs. destruct (negb _); runs; [|done].
    match goal with |- context [or_panic ?o] => destruct o end; runs; done. }
  destruct (bind_act _ _ s') as [[] s2|r2 s2|s2]; cbn [final] in Hq.
  - exists r. split; [done|]. by eapply log_at_quiet.
  - done.
  - done.
  - apply Hone. by apply (log_at_quiet _ _ _ _ _ _ Hq Hat').
Qed.

End appending.
