(* ===== verification/K4PubLog.v ===== *)
(** * The durable store: the log of a publication

    However a publication ends, what it may have written is the front of one sequence:
    the prepare, the objects not durable yet, the commit. *)

From stdpp Require Import gmap.
From S2P Require Import Prelude Bytes Sha256 K4Layout K4Format K4FormatProofs.
From S2P Require Import Effects K4Disk K4Store K4StoreLog K4StorePub.
From S2P Require Import K4StoreProofs K4Staging K4Crash.

#[local] Open Scope N_scope.
#[local] Opaque hash object_digest record_digest BLOCK OBJECT_MAX.

Section publishing.
Context `{Outside} (log_cells : nat).

(** ** Calls without a harness *)

Lemma write_mode_plain {R} point ordinal (stopped : R) s :
  unharmed s → write_mode log_cells point ordinal stopped s = Go fault_mode.NONE s.
Proof. intros [Hp _ _ _ _]. unfold write_mode. rewrite run_bind, fault_at_nothing by done. by runs. Qed.
Lemma stop_at_plain {R} point (stopped : R) s :
  unharmed s → stop_at log_cells point stopped s = Go () s.
Proof. intros [Hp _ _ _ _]. unfold stop_at. rewrite run_bind, fault_at_nothing by done. by runs. Qed.

(** A closure has at most as many members as the index has entries. *)
Lemma closure_walk_len {R} turns queue tail out :
  (length out <= MAX_OBJECTS)%nat →
  hoare (R := R) (λ _, True) (closure_walk turns queue tail out) (λ r _, (length r.2 <= MAX_OBJECTS)%nat) (λ _ _, True).
Proof.
  revert queue tail out. induction turns as [|turns IH]; intros [|index queue] tail out Hlen s _; cbn [closure_walk]; try done.
  destruct (bool_decide _); [by apply IH|]. case_decide as Hmax; [done|]. rewrite run_bind.
  assert (length (out ++ [index]) <= MAX_OBJECTS)%nat as Hout by (rewrite length_app; cbn; lia).
  destruct (children index s) as [[digests|] s'|r s'|s']; try done.
  runs. destruct (enqueue _ _ _ _) as [[queue' tail']|]; [by apply IH|done].
Qed.
Lemma stays_closure_walk {R} turns queue tail out : stays (closure_walk (R := R) turns queue tail out).
Proof.
  revert queue tail out. induction turns as [|turns IH]; intros [|index queue] tail out; cbn [closure_walk]; try done.
  destruct (bool_decide _); [apply IH|]. case_decide; [done|]. apply stays_bind; [apply stays_call|].
  intros [digests|]; [|done]. apply stays_bind; [done|]. intros [[queue' tail']|]; [apply IH|done].
Qed.
Lemma gives_closure {Q} root : gives (R := Q) (closure root) (λ r, (length r.2 <= MAX_OBJECTS)%nat).
Proof.
  intros s a s'. unfold closure. rewrite run_call. runs. case_option; runs; [|intros [= <- _]; cbn; lia].
  match goal with |- context [closure_walk ?t ?q ?l ?o ?s] =>
    pose proof (closure_walk_len (R := bool * list nat) t q l o ltac:(cbn; lia) s I) as Hw;
    pose proof (stays_closure_walk (R := bool * list nat) t q l o s) as Hs;
    destruct (closure_walk t q l o s) as [r s2|r s2|s2] end; [by intros [= <- _]| |done].
  by destruct (Hs r s2).
Qed.

(** What is staged is found under its digest. *)
Lemma stage_digest {Q} type bytes :
  gives (R := Q) (stage type bytes) (λ r, match r with inr d => d = object_digest type bytes | inl _ => True end).
Proof.
  intros s a s'. enough (match stage (Q := Q) type bytes s with
    Go (inr d) _ => d = object_digest type bytes | _ => True end) as H' by (intros E; by rewrite E in H').
  unfold stage. rewrite run_call. runs. destruct (bool_decide _); [by runs|]. runs.
  destruct (bool_decide (find _ _ ≠ None)); [by runs|]. runs.
  match goal with |- context [when ?b ?m ?s] => pose proof (stays_when (R := N + list N) b m) as Hs;
    destruct (when b m s) as [[] s2|r s2|s2] eqn:E end; [|exfalso|done].
  2: { apply (Hs (stays_bind _ _ (stays_call _) (λ _, stays_go _))) in E as []. }
  unfold place. runs. case_option; [|by runs]. runs. case_option; by runs.
Qed.

(** ** The records of one publication *)

Variable (s0 : Sys) (base : gmap N (list N)) (t0 : Tail) (p : Publication) (request : list N)
  (invocation generation : N).

Definition prepare_record (r : N * list N) : Prop := ∃ now,
  now < 2 ^ 64 ∧ r = (record_kind.PREPARE, cd_bytes PrepareRecord_codec (prepare_of p request now invocation)).
Definition digest_ok (d : list N) : Prop := length d = 32%nat ∧ bytes_ok d.
Definition commit_record (prepare r : N * list N) : Prop := ∃ receipt now objects,
  digest_ok receipt ∧ now < 2 ^ 64 ∧ objects < 2 ^ 64 ∧
  r = (record_kind.COMMIT, cd_bytes CommitRecord_codec
    (commit_of p (tl_sequence t0) (rh_digest (header_of t0 prepare.1 prepare.2)) (generation + 1) receipt now objects)).

(** The prepare and at most so many objects. *)
Definition prepared (n : nat) (records : list (N * list N)) : Prop := ∃ prepare objects,
  prepare_record prepare ∧ Forall object_record objects ∧ (length objects <= n)%nat ∧ records = prepare :: objects.
Definition committed (records : list (N * list N)) : Prop := ∃ prepare objects commit,
  prepare_record prepare ∧ Forall object_record objects ∧ (length objects <= S MAX_OBJECTS)%nat ∧
  commit_record prepare commit ∧ records = prepare :: objects ++ [commit].
(** As far as a publication gets. *)
Definition publication_log (records : list (N * list N)) : Prop :=
  records = [] ∨ prepared (S MAX_OBJECTS) records ∨ committed records.

(** The medium holds some front of such a log at the most. *)
Definition partly (s : Sys) : Prop := ∃ records, publication_log records ∧ logged s0 base t0 records s.
(** The log is there and the store goes on. *)
Definition at_point (records : list (N * list N)) (s : Sys) : Prop :=
  log_at s0 base t0 records s ∧ staging_wf (sy_store s).

(** What quiet steps keep. *)
Definition kept (P : Sys → Prop) : Prop :=
  (∀ s s', quiet s s' → stages s s' → P s → P s') ∧ (∀ s, P s → partly s).

Lemma at_point_partly records s : publication_log records → at_point records s → partly s.
Proof. intros Hlog [Hl _]. exists records. split; [done|apply Hl]. Qed.

(** A publication that ends early is refused, and leaves some front of its log. *)
Definition stopped (o : option (N + N * Fault)) (s : Sys) : Prop :=
  match o with Some (inr _) => False | _ => partly s end.

Lemma hoare_kept {A} P (m : Act Sys (N + N * Fault) A) :
  kept P → within quiet m → within stages m → stays m → hoare P m (λ _, P) stopped.
Proof.
  intros [HP Hleft] Hq Hs Hst. apply (hoare_within (λ s s', quiet s s' ∧ stages s s')).
  - intros s. split; [apply Hq|apply Hs].
  - done.
  - intros s s' HPs [Hq' Hs']. by eapply HP.
  - done.
Qed.

Lemma kept_point records : publication_log records → kept (at_point records).
Proof.
  intros Hlog. split; [|intros s; by apply at_point_partly].
  intros s s' Hq Hs [Hl Hwf]. split; [by eapply log_at_quiet|by apply Hs].
Qed.
Lemma kept_partly : kept partly.
Proof. split; [|done]. intros s s' Hq _ (records & Hlog & Hl). exists records. split; [done|by eapply logging_quiet]. Qed.
(** All of it is durable. *)
Definition durable_at (records : list (N * list N)) (s : Sys) : Prop :=
  at_point records s ∧ md_cache (w_medium (sy_world s)) = [].
Lemma kept_durable records : publication_log records → kept (durable_at records).
Proof.
  intros Hlog. split; [|intros s [Hs _]; by apply (at_point_partly records)].
  intros s s' Hq Hs [Hat Hc]. split; [by eapply (kept_point records)|].
  destruct (Hq (lg_unharmed _ _ _ _ (la_logging _ _ _ _ _ (proj1 Hat)))) as [_ -> _ _]. done.
Qed.

(** The prepare and at most so many objects are in the log. *)
Definition objects_at (prepare : N * list N) (n : nat) (s : Sys) : Prop := ∃ objects,
  Forall object_record objects ∧ (length objects <= n)%nat ∧ at_point (prepare :: objects) s.

Lemma objects_at_mono prepare n m s : (n <= m)%nat → objects_at prepare n s → objects_at prepare m s.
Proof. intros Hnm (objects & H1 & H2 & H3). exists objects. split_and!; [done|lia|done]. Qed.

Lemma objects_logged prepare n objects s :
  prepare_record prepare → (n <= S MAX_OBJECTS)%nat → Forall object_record objects → (length objects <= n)%nat →
  logged s0 base t0 (prepare :: objects) s → partly s.
Proof.
  intros Hp Hn Ho Hlen Hl. exists (prepare :: objects). split; [|done]. right. left. exists prepare, objects.
  split_and!; [done|done|lia|done].
Qed.

(** One object of the closure. *)
Lemma publish_object_at prepare n index ordinal :
  prepare_record prepare → (n < S MAX_OBJECTS)%nat →
  hoare (objects_at prepare n) (publish_object log_cells index ordinal)
    (λ ordinal' s, (ordinal' <= ordinal + 1) ∧ objects_at prepare (S n) s) stopped.
Proof.
  intros Hp Hn s (objects & Ho & Hlen & Hlog & Hwf). unfold publish_object. rewrite run_bind, run_object.
  assert (∀ o, stopped o s ∨ ∃ v, o = Some (inr v)) as Hstop.
  { assert (partly s) as Hs by (eapply (objects_logged prepare n objects), la_logging, Hlog; [done|lia|done..]).
    intros [[v|v]|]; [by left|by right; exists v|by left]. }
  destruct (st_objects (sy_store s) !! index) as [e|] eqn:Hi; [|by destruct (Hstop None) as [|[? [=]]]].
  destruct (oe_durable e) eqn:Hd.
  { split; [lia|]. apply (objects_at_mono _ n); [lia|]. by exists objects. }
  cbv zeta. rewrite run_bind, write_mode_plain by apply Hlog. rewrite run_bind.
  pose proof (write_object_at (Q := N + N * Fault) s0 base t0 _ index e s Hlog Hwf Hi Hd) as Hw.
  pose proof (stages_write_object (Q := N + N * Fault) index fault_mode.NONE s Hwf) as Hwf'.
  assert (∀ s', logged_object s0 base t0 (prepare :: objects) s' → partly s') as Hleft.
  { intros s' (more & Hm & Hl & Hlogged). apply (objects_logged prepare (S n) (objects ++ more)).
    - done.
    - done.
    - by apply Forall_app.
    - rewrite length_app. lia.
    - done. }
  destruct (write_object _ _ s) as [[] s'|r s'|s']; try done.
  - destruct Hw as (r & Hr & Hat). runs. split; [lia|]. exists (objects ++ [r]). split_and!.
    + apply Forall_app. split; [done|by constructor].
    + rewrite length_app. cbn. lia.
    + by split.
  - runs. by apply Hleft.
  - by apply Hleft.
Qed.

Lemma publish_objects_at prepare n indices ordinal :
  prepare_record prepare → (n + length indices <= S MAX_OBJECTS)%nat →
  hoare (objects_at prepare n) (for_fold indices ordinal (λ ordinal index, publish_object log_cells index ordinal))
    (λ ordinal' s, (ordinal' <= ordinal + N.of_nat (length indices)) ∧ objects_at prepare (n + length indices) s) stopped.
Proof.
  intros Hp. revert n ordinal. induction indices as [|index indices IH]; intros n ordinal Hn; cbn [for_fold length] in *.
  { intros s Hs. cbn. rewrite Nat.add_0_r. split; [lia|done]. }
  eapply hoare_bind; [apply publish_object_at; [done|lia]|]. intros ordinal'. apply hoare_fact. intros Hord.
  eapply hoare_weaken; [intros s Hs; exact Hs| |intros o s Hs; exact Hs|apply IH; lia].
  cbn. intros o s [H1 H2]. rewrite Nat.add_succ_r. split; [lia|exact H2].
Qed.

(** ** The whole *)

Lemma gives_plus {R} x y : gives (R := R) (plus x y) (λ v, v = x + y ∧ x + y < 2 ^ 64).
Proof.
  intros s v s'. unfold plus, checked_add. case_decide; [|done]. intros [= <- _]. by split.
Qed.
Lemma gives_now {R} : gives (R := R) now_ns (λ v, v < 2 ^ 64).
Proof. intros s v s' [= <- _]. by apply N.mod_lt. Qed.

Lemma hoare_write_mode records point ordinal v :
  hoare (at_point records) (write_mode log_cells point ordinal (inl v)) (λ mode s, mode = fault_mode.NONE ∧ at_point records s) stopped.
Proof. intros s Hs. rewrite write_mode_plain by apply Hs. done. Qed.
Lemma hoare_stop_at records point v :
  hoare (at_point records) (stop_at log_cells point (inl v)) (λ _, at_point records) stopped.
Proof. intros s Hs. rewrite stop_at_plain by apply Hs. done. Qed.

Lemma hoare_append records kind body :
  publication_log (records ++ [(kind, body)]) →
  hoare (at_point records) (append kind body fault_mode.NONE)
    (λ r s, match r with
            | Some d => d = rh_digest (header_of (grown_by t0 records) kind body) ∧ at_point (records ++ [(kind, body)]) s
            | None => partly s
            end) stopped.
Proof.
  intros Hlog s [Hl Hwf]. pose proof (append_at (Q := N + N * Fault) s0 base t0 records kind body s Hl) as Ha.
  pose proof (shelf_append (Q := N + N * Fault) kind body fault_mode.NONE s) as Hs.
  destruct (append _ _ _ s) as [[d|] s'|r s'|s']; try done.
  - destruct Ha as [Ha Hd]. split; [done|]. split; [done|]. by apply (shelf_wf _ _ Hs).
  - by exists (records ++ [(kind, body)]).
  - by exists (records ++ [(kind, body)]).
Qed.

Lemma hoare_flush records :
  hoare (at_point records) flush (λ ok s, at_point records s ∧ (ok = true → durable_at records s)) stopped.
Proof.
  intros s [[Hl Ht Hv] Hwf]. pose proof (flush_logs (Q := N + N * Fault) s0 base _ s Hl) as Hf.
  pose proof (shelf_flush (Q := N + N * Fault) s) as Hs.
  destruct (flush s) as [ok s'|r s'|s']; [|done..]. destruct Hf as (Hl' & Ht' & Hv' & Hc).
  assert (at_point records s') as Hat.
  { split; [|by apply (shelf_wf _ _ Hs)]. split; [done|by rewrite Ht'|by rewrite Hv']. }
  split; [done|]. intros Hok. split; [done|by apply Hc].
Qed.

Lemma hoare_covered records :
  publication_log records → hoare (at_point records) commit_covered (λ _, at_point records) stopped.
Proof.
  intros Hlog. unfold commit_covered. eapply hoare_bind; [apply hoare_kept; [by apply kept_point|quiets|staging|walk_stays]|].
  intros log. case_decide; [by intros s Hs|].
  eapply hoare_bind; [apply hoare_kept; [by apply kept_point|quiets|staging|walk_stays]|].
  intros info. eapply hoare_weaken; [intros s Hs; exact Hs| |intros o s Hs; exact Hs|apply hoare_return_if].
  - by intros _ s [_ Hs].
  - intros s Hs. by apply (at_point_partly records).
Qed.

Lemma prepared_log n prepare objects :
  prepare_record prepare → Forall object_record objects → (length objects <= n)%nat → (n <= S MAX_OBJECTS)%nat →
  publication_log (prepare :: objects).
Proof. intros Hp Ho Hl Hn. right. left. exists prepare, objects. split_and!; [done|done|lia|done]. Qed.

Lemma kept_objects prepare n : prepare_record prepare → (n <= S MAX_OBJECTS)%nat → kept (objects_at prepare n).
Proof.
  intros Hp Hn. split.
  - intros s s' Hq Hs (objects & Ho & Hl & Hat). exists objects. split_and!; [done..|].
    by eapply (kept_point (prepare :: objects)); [apply (prepared_log n)|..].
  - intros s (objects & Ho & Hl & Hat). apply (at_point_partly (prepare :: objects)); [by apply (prepared_log n)|done].
Qed.

(** The next statement is quiet, or refuses. *)
Ltac keeping K := apply hoare_kept; [exact K|quiets|staging; try apply shelved_stages, shelf_fault_at|walk_stays].
Ltac quietly K k := eapply hoare_bind; [keeping K|intros k].
Ltac refusing K :=
  eapply hoare_bind; [apply hoare_return_if; exact (proj2 K)|intros []; apply hoare_fact; intros ?].

(** The objects. *)
Lemma publish_objects_log prepare receipt :
  prepare_record prepare →
  hoare (at_point [prepare]) (publish_objects log_cells (pb_candidate_root p) receipt)
    (λ ordinal s, ordinal < 2 ^ 64 ∧ ∃ objects, (Forall object_record objects ∧ (length objects <= S MAX_OBJECTS)%nat) ∧
       at_point (prepare :: objects) s) stopped.
Proof.
  intros Hp. pose proof (kept_point [prepare] (prepared_log 0%nat prepare [] Hp (List.Forall_nil _) ltac:(cbn; lia) ltac:(lia))) as K1.
  unfold publish_objects.
  eapply hoare_bind; [apply hoare_gives; [apply gives_closure|keeping K1]|]. intros walked. apply hoare_fact. intros Hlen.
  refusing K1.
  eapply hoare_bind.
  { eapply hoare_pre; [|apply (publish_objects_at prepare 0 walked.2 0 Hp); lia].
    intros s Hs. exists []. split_and!; [done|done|exact Hs]. }
  intros ordinal. apply hoare_fact. intros Hord. rewrite Nat.add_0_l.
  pose proof (kept_objects prepare (length walked.2) Hp ltac:(lia)) as K2.
  quietly K2 found. eapply hoare_bind; [apply hoare_or_return; exact (proj2 K2)|]. intros index. apply hoare_fact. intros _.
  eapply hoare_bind; [apply publish_object_at; [done|lia]|]. intros ordinal'. apply hoare_fact. intros Hord'.
  apply hoare_exists. intros objects. apply hoare_fact. intros Ho. apply hoare_fact. intros Hl.
  pose proof (kept_point (prepare :: objects) (prepared_log (S (length walked.2)) prepare objects Hp Ho Hl ltac:(lia))) as K3.
  eapply hoare_bind; [apply hoare_flush|]. intros ok.
  eapply hoare_pre; [intros s [Hs _]; exact Hs|]. refusing K3.
  eapply hoare_bind; [apply hoare_stop_at|]. intros []. intros s Hs. cbn in *.
  change MAX_OBJECTS with 40%nat in *. split; [lia|]. exists objects.
  split; [split; [done|lia]|done].
Qed.

(** The commit. *)
Lemma publish_commit_log prepare objects receipt ordinal :
  prepare_record prepare → Forall object_record objects → (length objects <= S MAX_OBJECTS)%nat →
  digest_ok receipt → ordinal < 2 ^ 64 →
  hoare (at_point (prepare :: objects))
    (publish_commit log_cells p request (generation + 1) receipt (tl_sequence t0)
      (rh_digest (header_of t0 prepare.1 prepare.2)) ordinal)
    (λ r s, match r with
            | inr (g, _) => g = generation + 1 ∧ ∃ records, committed records ∧ durable_at records s
            | inl _ => False
            end) stopped.
Proof.
  intros Hp Ho Hl Hr Hord. pose proof (kept_point _ (prepared_log _ prepare objects Hp Ho Hl (Nat.le_refl _))) as K1.
  unfold publish_commit. eapply hoare_bind; [apply hoare_write_mode|]. intros mode. apply hoare_fact. intros ->.
  eapply hoare_bind; [apply hoare_covered; by apply (prepared_log (S MAX_OBJECTS))|]. intros [].
  eapply hoare_bind; [apply hoare_gives; [apply gives_now|keeping K1]|]. intros now. apply hoare_fact. intros Hnow.
  set (body := cd_bytes CommitRecord_codec _). set (records := (prepare :: objects) ++ [(record_kind.COMMIT, body)]).
  assert (committed records) as Hc.
  { exists prepare, objects, (record_kind.COMMIT, body). split_and!; [done..| |done].
    exists receipt, now, ordinal. by split_and!. }
  assert (publication_log records) as Hlog by (right; by right).
  eapply hoare_bind; [by apply hoare_append|]. intros appended.
  pose proof (kept_point records Hlog) as K2.
  destruct appended as [d|]; cbn beta iota.
  { apply hoare_fact. intros _. quietly K2 failure. refusing K2.
    eapply hoare_bind; [apply hoare_flush|]. intros ok.
    eapply hoare_bind; [apply hoare_return_if; intros s [Hs _]; by apply (at_point_partly records)|]. intros [].
    apply hoare_fact. intros Hok%negb_false_iff.
    eapply hoare_pre; [intros s [_ Hs]; exact (Hs Hok)|].
    pose proof (kept_durable records Hlog) as K3.
    eapply hoare_bind; [apply hoare_kept; [exact K3| |staging|walk_stays]|intros []].
    { unfold published. apply quiet_record_result; by intros st. }
    { apply stages_update. intros st. etransitivity; [apply shelf_record_result|reflexivity]. }
    quietly K3 x. quietly K3 y. quietly K3 after. intros s Hs. split; [done|]. by exists records. }
  quietly kept_partly failure. rewrite bool_decide_true by done. by apply hoare_early.
Qed.

Lemma object_digest_ok type bytes : digest_ok (object_digest type bytes).
Proof. Transparent object_digest. unfold object_digest. rewrite hash_sha256. split; [apply sha256_len|apply sha256_ok]. Qed.
#[local] Opaque object_digest.

(** A publication, however it ends. [publication_log] tells how its log can look. *)
Lemma publish_logs {Q} s :
  at_point [] s → generation = st_published_generation (sy_store s) →
  match publish (Q := Q) log_cells p request invocation s with
  | Go (inr (g, _)) s' => g = generation + 1 ∧ ∃ records, committed records ∧ durable_at records s'
  | Go (inl _) s' | Bad s' => partly s'
  | Early _ _ => False
  end.
Proof.
  intros Hat Hgen. unfold publish. rewrite run_call, run_bind, run_self, <-Hgen.
  pose proof (kept_point [] (or_introl eq_refl)) as K0.
  match goal with |- context [bind_act ?m ?k s] =>
    enough (hoare (at_point []) (bind_act m k) (λ r s', match r with
      | inr (g, _) => g = generation + 1 ∧ ∃ records, committed records ∧ durable_at records s'
      | inl _ => False end) stopped) as Hh;
    [specialize (Hh s Hat); destruct (bind_act m k s) as [[v|[g fault]] s'|[v|v] s'|s']; by cbn in Hh|] end.
  eapply hoare_bind; [apply hoare_gives; [apply gives_plus|keeping K0]|]. intros g. apply hoare_fact. intros [-> _].
  quietly K0 now.
  eapply hoare_bind; [apply hoare_gives; [apply stage_digest|apply hoare_kept; [exact K0|quiets|by apply stages_stage|walk_stays]]|].
  intros staged. apply hoare_fact. intros Hstaged.
  destruct staged as [v|receipt].
  { apply (hoare_bind _ _ (λ _ _, False)); [by apply hoare_early, K0|by intros [] s' []]. }
  subst receipt. set (receipt := object_digest _ _).
  eapply hoare_bind; [apply hoare_go|]. intros []. apply hoare_fact. intros _.
  eapply hoare_bind; [apply hoare_write_mode|]. intros mode. apply hoare_fact. intros ->.
  eapply hoare_bind; [apply hoare_gives; [apply gives_now|keeping K0]|]. intros now'. apply hoare_fact. intros Hnow.
  eapply hoare_bind; [apply hoare_ask|]. intros sequence.
  eapply (hoare_pre (λ s', sequence = tl_sequence t0 ∧ at_point [] s')).
  { intros s' [-> Hs']. split; [|done]. exact (f_equal tl_sequence (la_tail _ _ _ _ _ (proj1 Hs'))). }
  apply hoare_fact. intros ->. set (body := cd_bytes PrepareRecord_codec _).
  set (prepare := (record_kind.PREPARE, body)).
  assert (prepare_record prepare) as Hp by by exists now'.
  pose proof (prepared_log 0%nat prepare [] Hp (List.Forall_nil _) ltac:(cbn; lia) ltac:(lia)) as Hlog.
  eapply hoare_bind; [by apply hoare_append|]. intros [d|]; cbn beta iota.
  2: { quietly kept_partly failure. eapply hoare_bind; [by apply hoare_or_return|]. intros x. apply hoare_fact. intros [=]. }
  apply hoare_fact. intros ->. pose proof (kept_point [prepare] Hlog) as K1.
  quietly K1 failure. cbn [or_return]. eapply hoare_bind; [apply hoare_go|]. intros d. apply hoare_fact. intros ->.
  eapply hoare_bind; [apply hoare_flush|]. intros ok. eapply hoare_pre; [intros s' [Hs' _]; exact Hs'|]. refusing K1.
  quietly K1 x. quietly K1 y. eapply hoare_bind; [apply hoare_stop_at|]. intros [].
  eapply hoare_bind; [by apply publish_objects_log|]. intros ordinal. apply hoare_fact. intros Hord.
  apply hoare_exists. intros objects. apply hoare_fact. intros [Ho Hl].
  by apply (publish_commit_log prepare); [| | |apply object_digest_ok|].
Qed.
End publishing.
