(* ===== verification/K4Calm.v ===== *)
(** * The durable store: recovery without faults

    What recovery does when every request reaches the driver and the device obeys:
    reading never panics, and two media that agree below a block are read alike
    below it. *)

From stdpp Require Import gmap.
From S2P Require Import Prelude Bytes Sha256 K4Layout K4Format K4FormatProofs.
From S2P Require Import Effects K4Disk K4Store K4StoreLog K4StorePub.
From S2P Require Import K4StoreProofs K4Staging K4Crash.

#[local] Open Scope N_scope.
#[local] Opaque hash object_digest record_digest BLOCK OBJECT_MAX md_read.

(** The device does what it is asked; only the clock is left open. *)
Definition calm (clock : nat → N) : Outside :=
  mkOutsideOf (λ _, true) (λ _, Moved) clock (λ _, None) (λ _, false).

(** ** The parts of the state that reading leaves alone *)

Definition core (st : Store) : Tail * (N * list N) * Pending * list ObjectEntry * N :=
  (tail st, version st, st_pending st, st_objects st, st_dependency_missing st).
Definition steady (s s' : Sys) : Prop := core (sy_store s') = core (sy_store s).
#[global] Instance steady_preorder : PreOrder steady.
Proof. split; [by intros s|]. intros s1 s2 s3 H12 H23. unfold steady in *. by rewrite H23. Qed.

Section steady.
Context `{Outside}.
Lemma steady_self {R A} (f : Store → A) : within steady (self (R := R) f).
Proof. apply within_ask, _. Qed.
Lemma steady_update {R} f : (∀ st, core (f st) = core st) → within steady (update (R := R) f).
Proof. intros Hf s. apply Hf. Qed.
Lemma steady_outside {R A} (f : nat → A) : within steady (outside (R := R) f).
Proof. by intros s. Qed.
Lemma steady_on_disk {R A} (f : Disk → World → A * Disk * World) : within steady (on_disk (R := R) f).
Proof. intros s. unfold on_disk. by destruct (f _ _) as [[a d] w]. Qed.
Lemma steady_slot {R} i : within steady (slot (R := R) i).
Proof. apply within_bind; [apply _|apply within_ask; apply _|]. intros. apply within_or_panic; apply _. Qed.
End steady.

Create HintDb steady.
#[export] Hint Resolve steady_self steady_outside steady_on_disk steady_slot : steady.
Ltac steady_step :=
  walk_step ltac:(first [apply steady_update; intros; reflexivity | solve [auto 1 with steady nocore]]).
Ltac steadies := repeat steady_step.

Section steady_calls.
Context `{Outside}.
Lemma steady_load {Q} index : within steady (load (Q := Q) index).
Proof. unfold load, object, into_content, disk_read. steadies. Qed.
Lemma steady_children {Q} index : within steady (children (Q := Q) index).
Proof. unfold children, object. steadies. all: apply steady_load. Qed.
Lemma steady_closure_walk {R} turns queue tail out : within steady (closure_walk (R := R) turns queue tail out).
Proof.
  revert queue tail out. induction turns as [|turns IH]; intros [|index queue] tail out; cbn [closure_walk]; steadies.
  all: first [apply steady_children|apply IH].
Qed.
Lemma steady_closure {Q} root : within steady (closure (Q := Q) root).
Proof. unfold closure. steadies. all: apply steady_closure_walk. Qed.
Lemma steady_principal_slot {Q} principal : within steady (principal_slot (Q := Q) principal).
Proof. unfold principal_slot. steadies. Qed.
Lemma steady_with_principal {Q} principal f : within steady (with_principal (Q := Q) principal f).
Proof. unfold with_principal. steadies. all: apply steady_principal_slot. Qed.
End steady_calls.
#[export] Hint Resolve steady_load steady_children steady_closure steady_principal_slot steady_with_principal : steady.

(** ** Reading never panics *)

(** The index of a store that has staged nothing. *)
Record replayable (st : Store) : Prop := {
  rp_len : length (st_objects st) = MAX_OBJECTS;
  rp_entries : Forall (λ e, oe_stage e = U32_MAX ∧ (N.to_nat (oe_length e) <= OBJECT_MAX)%nat) (st_objects st)
}.
Record sane (m : Medium) (s : Sys) : Prop := {
  sn_unharmed : unharmed s;
  sn_medium : w_medium (sy_world s) = m;
  sn_store : replayable (sy_store s)
}.

Section calm.
Context (clock : nat → N).
#[local] Hint Extern 0 Outside => exact (calm clock) : typeclass_instances.

(** ** Reading *)

(** The state after a block was read. *)
Definition after_read (block : N) (s : Sys) : Sys :=
  let w := sy_world s in
  mkSys
    ((sy_store s) <| st_disk ::= λ d, d <| dk_writes_issued := ft_writes_issued (w_faults w) |>
       <| dk_writes_suppressed := ft_writes_suppressed (w_faults w) |> <| dk_flushes := ft_flushes (w_faults w) |>
       <| dk_reads ::= N.succ |> |>)
    (w <| w_turn ::= λ t, S (S t) |> <| w_past ::= cons (w_medium w) |>
       <| w_iobuf ::= λ slots, md_read (w_medium w) block :: drop 1 slots |>).

Lemma read_calm {R} block s : disk_read (R := R) block READ_SLOT s = Go true (after_read block s).
Proof. destruct s as [st w], block; reflexivity. Qed.

Lemma after_read_slot {R} block s :
  slot (R := R) READ_SLOT (after_read block s) = Go (md_read (w_medium (sy_world s)) block) (after_read block s).
Proof. done. Qed.

Lemma after_read_medium block s : w_medium (sy_world (after_read block s)) = w_medium (sy_world s).
Proof. by destruct s. Qed.


(** Every run from [P] goes on, in [Q]. *)
Definition total {R A} (P : Sys → Prop) (m : Act Sys R A) (Q : A → Sys → Prop) : Prop :=
  hoare P m Q (λ _ _, False).

Lemma sane_quiet m s s' :
  quiet s s' → st_objects (sy_store s') = st_objects (sy_store s) → sane m s → sane m s'.
Proof.
  intros Hq Ho [Hu Hm [Hl He]]. destruct (Hq Hu) as [_ Hm' Hu' _]. split; [done|by rewrite Hm'|].
  by split; rewrite Ho.
Qed.

Lemma sane_after_read m block s : sane m s → sane m (after_read block s).
Proof.
  apply sane_quiet; [|done]. pose proof (quiet_disk_read (R := ()) block s) as Hq. by rewrite read_calm in Hq.
Qed.

Lemma sane_object m s (index : nat) : sane m s → (index < MAX_OBJECTS)%nat →
  ∃ e, st_objects (sy_store s) !! index = Some e ∧ oe_stage e = U32_MAX ∧ (N.to_nat (oe_length e) <= OBJECT_MAX)%nat.
Proof.
  intros [_ _ [Hl He]] Hi. rewrite <-Hl in Hi. apply lookup_lt_is_Some in Hi as [e Hi]. exists e. split; [done|].
  rewrite Forall_lookup in He. by apply (He index).
Qed.

Lemma load_total {Q} m (index : nat) : (index < MAX_OBJECTS)%nat →
  total (R := Q) (sane m) (load index) (λ _, sane m).
Proof.
  intros Hi. apply hoare_call. intros s Hs. destruct (sane_object m s index Hs Hi) as (e & He & Hst & Hlen).
  rewrite run_bind, run_object, He. destruct (oe_live e); runs; [|done]. rewrite bool_decide_true by done. cbn [negb].
  destruct (oe_durable e); runs; [|done]. rewrite read_calm. runs. rewrite after_read_slot.
  pose proof (sane_after_read m (oe_block e) s Hs) as Hs'. runs.
  repeat (case_option; runs; [|done]). destruct (bool_decide _); runs; [|done]. case_option; runs; [|done].
  destruct (bool_decide (oh_length _ = _)); runs; [|done]. destruct (bool_decide (_ < _)%nat) eqn:Hb; runs; [done|].
  destruct (bool_decide (object_digest _ _ = _)); runs; [|done].
  unfold into_content. rewrite decide_True; [by runs|]. unfold slice. rewrite length_take. lia.
Qed.

Lemma sane_same m s s' f :
  sane m s → s' = s <| sy_store ::= f |> → (∀ st, st_objects (f st) = st_objects st) →
  (∀ st, st_harness (f st) = st_harness st) → sane m s'.
Proof.
  intros [[Hp Ha Hl Hh Hs] Hm [Hlen He]] -> Ho Hf. split; [split; cbn; by rewrite ?Hf|done|].
  by split; cbn; rewrite Ho.
Qed.

Lemma children_total {Q} m (index : nat) : (index < MAX_OBJECTS)%nat →
  total (R := Q) (sane m) (children index) (λ _, sane m).
Proof.
  intros Hi. apply hoare_call. intros s Hs. destruct (sane_object m s index Hs Hi) as (e & He & _).
  rewrite run_bind, run_object, He.
  pose proof (load_total (Q := option (list (list N))) m index Hi s Hs) as Hload.
  case_decide; [|case_decide]; rewrite ?run_bind; [| |by runs].
  all: destruct (load index s) as [[bytes|] s'|r s'|s']; cbn in Hload; try done; runs.
  - by case_option; runs.
  - by apply (sane_same m s' _ (λ st, st <| st_closure_incomplete := true |>)).
  - by destruct (decode_tree _ _); runs.
  - by apply (sane_same m s' _ (λ st, st <| st_closure_incomplete := true |>)).
Qed.

Definition indexes (l : list nat) : Prop := Forall (λ i, (i < MAX_OBJECTS)%nat) l.
Lemma find_index digest m s i : sane m s → find digest (sy_store s) = Some i → (i < MAX_OBJECTS)%nat.
Proof. intros Hs Hf. apply position_spec in Hf as (e & He & _). rewrite <-(rp_len _ (sn_store _ _ Hs)). by eapply lookup_lt_Some. Qed.
Lemma enqueue_indexes digests m s queue tl queue' tl' :
  sane m s → indexes queue → enqueue digests queue tl (sy_store s) = Some (queue', tl') → indexes queue'.
Proof.
  intros Hs. revert queue tl. induction digests as [|d digests IH]; intros queue tl Hq; cbn; [by intros [= <- _]|].
  destruct (bool_decide _); [by apply IH|]. destruct (find d (sy_store s)) as [i|] eqn:Hf; [|done].
  case_decide; [done|]. apply IH. apply Forall_app. split; [done|]. constructor; [by eapply find_index|done].
Qed.

Lemma closure_walk_total {R} m turns queue tl out : indexes queue → indexes out →
  total (R := R) (sane m) (closure_walk turns queue tl out) (λ r s, indexes r.2 ∧ sane m s).
Proof.
  revert queue tl out. induction turns as [|turns IH]; intros [|index queue] tl out Hq Ho s Hs; cbn [closure_walk]; try done.
  apply Forall_cons in Hq as [Hi Hq]. destruct (bool_decide _); [by apply IH|]. case_decide; [done|]. rewrite run_bind.
  assert (indexes (out ++ [index])) as Ho' by (apply Forall_app; split; [done|by constructor]).
  pose proof (children_total (Q := R) m index Hi s Hs) as Hc.
  destruct (children index s) as [[digests|] s'|r s'|s']; cbn in Hc; try done. runs.
  destruct (enqueue digests queue tl (sy_store s')) as [[queue' tl']|] eqn:He; [|done].
  apply IH; [exact (enqueue_indexes digests m s' queue tl _ _ Hc Hq He)|done|done].
Qed.

Lemma closure_total {Q} m root : total (R := Q) (sane m) (closure root) (λ r s, indexes r.2 ∧ sane m s).
Proof.
  apply hoare_call. intros s Hs. runs.
  match goal with |- context [or_return ?o] => destruct o as [index|] eqn:Hf end; runs.
  2: { split; [constructor|]. by apply (sane_same m s _ (λ st, st <| st_closure_incomplete := false |>)). }
  assert (sane m (s <| sy_store ::= λ st, st <| st_closure_incomplete := false |> |>)) as Hs'.
  { by apply (sane_same m s _ (λ st, st <| st_closure_incomplete := false |>)). }
  pose proof (closure_walk_total (R := bool * list nat) m (MAX_OBJECTS * 2) [index] 1 []) as Hw.
  specialize (Hw ltac:(constructor; [by eapply find_index|constructor]) ltac:(constructor) _ Hs').
  destruct (closure_walk _ _ _ _ _); by cbn in Hw.
Qed.

(** ** Two media that agree below a block *)

(** The same state over media that agree below [n], where every durable object is. *)
Record sees (n : N) (s1 s2 : Sys) : Prop := {
  se_store : sy_store s1 = sy_store s2;
  se_faults : w_faults (sy_world s1) = w_faults (sy_world s2);
  se_iobuf : w_iobuf (sy_world s1) = w_iobuf (sy_world s2);
  se_turn : w_turn (sy_world s1) = w_turn (sy_world s2);
  se_medium b : b < n → md_read (w_medium (sy_world s1)) b = md_read (w_medium (sy_world s2)) b;
  se_objects (i : nat) e : st_objects (sy_store s1) !! i = Some e → oe_live e = true → oe_durable e = true →
    oe_block e < n
}.

Lemma alike_self {R A} n (f : Store → A) : alike_from (sees n) (self (R := R) f).
Proof. apply alike_ask. by intros s1 s2 [-> _ _ _ _ _]. Qed.
Lemma sees_update n f s1 s2 :
  sees n s1 s2 →
  (∀ (i : nat) e, st_objects (f (sy_store s1)) !! i = Some e → oe_live e = true → oe_durable e = true → oe_block e < n) →
  sees n (s1 <| sy_store ::= f |>) (s2 <| sy_store ::= f |>).
Proof. intros [H1 H2 H3 H4 H5 H6] Ho. split; cbn; [by rewrite H1|done..]. Qed.
Lemma alike_update {R} n f : (∀ st, st_objects (f st) = st_objects st) → alike_from (sees n) (update (R := R) f).
Proof.
  intros Hf. apply alike_change. intros s1 s2 Hs. apply sees_update; [done|]. intros i e. rewrite Hf. by apply (se_objects _ _ _ Hs).
Qed.
Lemma sees_after_read n block s1 s2 :
  block < n → sees n s1 s2 → sees n (after_read block s1) (after_read block s2).
Proof.
  intros Hb [H1 H2 H3 H4 H5 H6]. destruct s1 as [st w1], s2 as [st2 w2]. cbn in H1, H2, H3, H4, H5, H6. subst st2.
  pose proof (H5 block Hb) as Hr. split; cbn; rewrite ?H2, ?H3, ?H4, ?Hr; done.
Qed.
Lemma alike_disk_read {R} n block : block < n → alike_from (sees n) (disk_read (R := R) block READ_SLOT).
Proof. intros Hb s1 s2 Hs. rewrite !read_calm. split; [done|by apply sees_after_read]. Qed.
Lemma alike_slot {R} n i : alike_from (sees n) (slot (R := R) i).
Proof.
  apply alike_bind; [|intros; apply alike_or_panic]. apply alike_ask. intros s1 s2 Hs. unfold slot_bytes. by rewrite (se_iobuf _ _ _ Hs).
Qed.
Ltac alikes :=
  repeat walk_alike ltac:(first [apply alike_self | apply alike_slot | apply alike_update; intros; reflexivity]).

(** The two runs go on with the same statement. *)
Ltac alike_rest :=
  match goal with |- alike_steps ?rel (?m ?s1) (?m ?s2) =>
    let Ha := fresh in assert (alike_from rel m) as Ha; [|by apply Ha] end.

Lemma alike_load {Q} n (index : nat) : alike_from (sees n) (load (Q := Q) index).
Proof.
  unfold load. apply alike_call. intros s1 s2 Hs. rewrite !run_bind, !run_object, <-(se_store _ _ _ Hs).
  destruct (st_objects (sy_store s1) !! index) as [e|] eqn:He; [|done].
  destruct (oe_live e) eqn:Hl; [|by runs].
  destruct (oe_durable e) eqn:Hd.
  - assert (oe_block e < n) as Hb by by eapply (se_objects _ _ _ Hs).
    unfold into_content. alike_rest. alikes. by apply alike_disk_read.
  - runs. destruct (negb (bool_decide (oe_stage e = U32_MAX))); [|by runs].
    unfold into_content. alike_rest. alikes.
Qed.
Lemma alike_children {Q} n (index : nat) : alike_from (sees n) (children (Q := Q) index).
Proof. unfold children, object. alikes. all: apply alike_load. Qed.
Lemma alike_closure_walk {R} n turns queue tl out : alike_from (sees n) (closure_walk (R := R) turns queue tl out).
Proof.
  revert queue tl out. induction turns as [|turns IH]; intros [|index queue] tl out; cbn [closure_walk]; alikes.
  all: first [apply alike_children|apply IH].
Qed.
Lemma alike_closure {Q} n root : alike_from (sees n) (closure (Q := Q) root).
Proof. unfold closure. alikes. apply alike_closure_walk. Qed.
Lemma alike_with_principal {Q} n principal f : alike_from (sees n) (with_principal (Q := Q) principal f).
Proof. unfold with_principal, principal_slot. alikes. Qed.

Lemma alike_set_object {R} n (index : nat) f :
  (∀ e, oe_live (f e) = true → oe_durable (f e) = true → oe_block (f e) < n) →
  alike_from (sees n) (set_object (R := R) index f).
Proof.
  intros Hf. apply alike_change. intros s1 s2 Hs. apply sees_update; [done|]. intros i e. cbn.
  destruct (decide (i = index)) as [->|Hne].
  - rewrite list_lookup_alter_eq. destruct (_ !! _); [|done]. intros [= <-]. apply Hf.
  - rewrite list_lookup_alter_ne by done. apply (se_objects _ _ _ Hs).
Qed.
Lemma alike_adopt {Q} n digest type len block : block < n → alike_from (sees n) (adopt (Q := Q) digest type len block).
Proof.
  intros Hb. unfold adopt. alikes; apply alike_set_object; intros e; by cbn.
Qed.

Lemma alike_record_result {R} n entry f : (∀ st, st_objects (f st) = st_objects st) →
  alike_from (sees n) (update (R := R) (λ st, record_result entry (f st))).
Proof.
  intros Hf. apply alike_update. intros st. transitivity (st_objects (f st)); [|apply Hf].
  unfold record_result. destruct (position _ _); [done|]. by case_decide.
Qed.
Lemma alike_set_outbox {R} n principal sequence status :
  alike_from (sees n) (update (R := R) (set_outbox principal sequence status)).
Proof. apply alike_update. intros st. unfold set_outbox. by destruct (position _ _). Qed.

Lemma alike_replay_record {Q} n kind body block : block < n →
  alike_from (sees n) (replay_record (Q := Q) kind body block).
Proof.
  intros Hb. unfold replay_record, replay_object, replay_prepare, replay_commit, replay_abort, replay_outbox, dependency_missing.
  repeat case_decide; alikes.
  all: first [by apply alike_adopt|apply alike_with_principal|apply alike_closure|apply alike_set_outbox
    |by apply alike_record_result].
Qed.
Lemma alike_load_checkpoint {Q} n body : alike_from (sees n) (load_checkpoint (Q := Q) body).
Proof. unfold load_checkpoint. alikes. Qed.
Lemma alike_read_superblock {Q} n slot_ :
  (∀ b, absolute slot_ = Some b → b < n) → alike_from (sees n) (read_superblock (Q := Q) slot_).
Proof.
  intros Hb. unfold read_superblock. apply alike_call. intros s1 s2 Hs. rewrite !run_bind.
  destruct (absolute slot_) as [b|]; [|by runs]. rewrite !run_panic_some. alike_rest. alikes.
  by apply alike_disk_read, Hb.
Qed.
Lemma alike_open {Q} n superblock s1 s2 : st_arena_start (sy_store s1) < n → sees n s1 s2 →
  alike_steps (sees n) (replay_open (Q := Q) superblock s1) (replay_open superblock s2).
Proof.
  intros Hn Hs. unfold replay_open, plus. rewrite !run_call, !run_bind, !run_self, <-(se_store _ _ _ Hs).
  match goal with |- context [disk_read ?b _] => set (start := b) in * end.
  match goal with |- alike_steps _ (match ?m s1 with _ => _ end) _ =>
    assert (alike_from (sees n) m) as Ha; [|specialize (Ha s1 s2 Hs); by destruct (m s1), (m s2)] end.
  alikes; [by apply alike_disk_read|apply alike_load_checkpoint].
Qed.
Lemma alike_adopt_superblock {R} n superblock slot_ : alike_from (sees n) (adopt_superblock (R := R) superblock slot_).
Proof. unfold adopt_superblock. alikes. Qed.
End calm.
