(* ===== verification/K4Replay.v ===== *)
(** * The durable store: the scan of the log

    One turn of the scan, where it ends, and the scan of a medium that agrees with
    another below the end of its log. *)

From stdpp Require Import gmap.
From S2P Require Import Prelude Bytes Sha256 K4Layout K4Format K4FormatProofs.
From S2P Require Import Effects K4Disk K4Store K4StoreLog K4StorePub.
From S2P Require Import K4StoreProofs K4Staging K4Crash K4Calm.

#[local] Open Scope N_scope.
Lemma object_max_bytes : N.of_nat OBJECT_MAX = geometry.OBJECT_MAX_BYTES.
Proof. by vm_compute. Qed.
#[local] Opaque hash object_digest record_digest BLOCK OBJECT_MAX md_read.

Lemma parse_record_blocks span r : parse_record span = Some r → 1 <= rh_block_count (pr_header r).
Proof.
  unfold parse_record. intros Hp.
  repeat match type of Hp with
  | (if ?b then None else _) = _ => destruct b eqn:?; [done|]
  | (?o ≫= _) = _ => destruct o; cbn [mbind option_bind] in Hp; [|done]
  end.
  injection Hp as <-. cbn. match goal with H : bool_decide (_ = 0) || _ = false |- _ => apply orb_false_iff in H as [H0 _] end.
  apply bool_decide_eq_false in H0. lia.
Qed.

Section scan.
Context (clock : nat → N).
#[local] Hint Extern 0 Outside => exact (calm clock) : typeclass_instances.

(** A record that links is passed, before it is replayed. *)
Definition passed (header : RecordHeader) (next_block next_sequence : N) (s : Sys) : Sys :=
  s <| sy_store ::= λ st, st <| st_next_block := next_block |> <| st_next_sequence := next_sequence |>
                           <| st_prev_digest := rh_digest header |> <| st_scanned ::= N.succ |> |>.

(** One turn. *)
Lemma scan_turn {R} fuel s :
  replay_scan (R := R) fuel s =
  let st := sy_store s in
  match checked_add 64 (st_arena_start st) (st_arena_blocks st) with
  | None => Bad s
  | Some last =>
      if decide (last <= st_next_block st) then Go true s else
      match fuel with
      | O => Bad s
      | S fuel =>
          let s := after_read (st_next_block st) s in
          let span := md_read (w_medium (sy_world s)) (st_next_block st) in
          match parse_record span with
          | None => Go true s
          | Some record =>
              if negb (links (pr_header record) st) then Go true s else
              if decide (length (record_payload record span) <= PAYLOAD_MAX)%nat then
                match checked_add 64 (st_next_block st) (rh_block_count (pr_header record)) with
                | None => Bad s
                | Some next_block =>
                    match checked_add 64 (st_next_sequence st) 1 with
                    | None => Bad s
                    | Some next_sequence =>
                        match replay_record (rh_kind (pr_header record)) (record_payload record span) (st_next_block st)
                                (passed (pr_header record) next_block next_sequence s) with
                        | Go true s => replay_scan fuel s
                        | Go false s => Go false s
                        | Early r s => Early r s
                        | Bad s => Bad s
                        end
                    end
                end
              else Bad s
          end
      end
  end.
Proof.
  destruct fuel as [|fuel]; cbn [replay_scan]; unfold arena_end, plus; runs; cbv zeta.
  all: destruct (checked_add _ _ _) as [last|]; runs; [|done].
  all: unfold id; case_decide; [done|]; try done.
  rewrite run_bind, read_calm. cbn [negb]. rewrite run_bind, after_read_slot. cbv beta iota.
  change (w_medium (sy_world (after_read _ s))) with (w_medium (sy_world s)).
  destruct (parse_record _) as [record|]; [|done]. destruct (negb (links _ _)); [done|].
  unfold replayed. case_decide; runs; [|done]. destruct (checked_add _ (st_next_block _) _); runs; [|done].
  destruct (checked_add _ (st_next_sequence _) _); runs; [|done].
  unfold passed. destruct (replay_record _ _ _ _) as [[] s'|r s'|s']; done.
Qed.

(** ** The scan only moves forward *)

Record forward_to (s s' : Sys) : Prop := {
  fw_unharmed : unharmed s';
  fw_medium : w_medium (sy_world s') = w_medium (sy_world s);
  fw_epoch : st_store_epoch (sy_store s') = st_store_epoch (sy_store s);
  fw_arena : st_arena (sy_store s') = st_arena (sy_store s);
  fw_start : st_arena_start (sy_store s') = st_arena_start (sy_store s);
  fw_blocks : st_arena_blocks (sy_store s') = st_arena_blocks (sy_store s);
  fw_block : st_next_block (sy_store s) <= st_next_block (sy_store s');
  fw_sequence : st_next_sequence (sy_store s) <= st_next_sequence (sy_store s')
}.
Definition forward (s s' : Sys) : Prop := unharmed s → forward_to s s'.
#[global] Instance forward_preorder : PreOrder forward.
Proof.
  split; [intros s Hs; by split|]. intros s1 s2 s3 H12 H23 H1. destruct (H12 H1). destruct (H23 fw_unharmed0).
  split; first [done|congruence|lia].
Qed.
Lemma quiet_forward s s' : quiet s s' → forward s s'.
Proof.
  intros Hq Hu. destruct (Hq Hu) as [Ht Hm Hu' _]. injection Ht as E1 E2 E3 E4 E5 E6 _.
  split; try done; [by rewrite E5|by rewrite E6].
Qed.
Lemma forward_passed header next_block next_sequence s :
  st_next_block (sy_store s) <= next_block → st_next_sequence (sy_store s) <= next_sequence →
  forward s (passed header next_block next_sequence s).
Proof. intros Hb Hq [Hp Ha Hl Hh Hs]. by split. Qed.

Lemma checked_add_inv x y z : checked_add 64 x y = Some z → z = x + y ∧ z < 2 ^ 64.
Proof. unfold checked_add. case_decide; [|done]. by intros [= <-]. Qed.

(** A record that is passed: one turn on. *)
Lemma turn_forward s record span next_block next_sequence :
  parse_record span = Some record →
  checked_add 64 (st_next_block (sy_store s)) (rh_block_count (pr_header record)) = Some next_block →
  checked_add 64 (st_next_sequence (sy_store s)) 1 = Some next_sequence →
  forward s (passed (pr_header record) next_block next_sequence (after_read (st_next_block (sy_store s)) s)) ∧
  st_next_block (sy_store s) < next_block.
Proof.
  intros Hp%parse_record_blocks [-> _]%checked_add_inv [-> _]%checked_add_inv. split; [|lia].
  etransitivity; [apply quiet_forward|apply forward_passed; cbn; lia].
  pose proof (quiet_disk_read (R := ()) (st_next_block (sy_store s)) s) as Hq. by rewrite read_calm in Hq.
Qed.
Lemma forward_after_read block s : forward s (after_read block s).
Proof.
  apply quiet_forward. pose proof (quiet_disk_read (R := ()) block s) as Hq. by rewrite read_calm in Hq.
Qed.

Lemma forward_scan {R} fuel : within forward (replay_scan (R := R) fuel).
Proof.
  induction fuel as [|fuel IH]; intros s; rewrite scan_turn; cbv zeta.
  all: destruct (checked_add 64 (st_arena_start _) _) as [last|]; [|by cbn].
  all: case_decide; [by cbn|]; try by cbn.
  change (w_medium (sy_world (after_read (st_next_block (sy_store s)) s))) with (w_medium (sy_world s)).
  destruct (parse_record _) as [record|] eqn:Hr; [|apply forward_after_read].
  destruct (negb _); [apply forward_after_read|]. case_decide; [|apply forward_after_read].
  destruct (checked_add 64 (st_next_block _) _) as [next_block|] eqn:Hb; [|apply forward_after_read].
  destruct (checked_add 64 (st_next_sequence _) _) as [next_sequence|] eqn:Hq; [|apply forward_after_read].
  destruct (turn_forward s record _ next_block next_sequence Hr Hb Hq) as [Hf _].
  etransitivity; [exact Hf|].
  match goal with |- forward ?s _ => set (s1 := s) end.
  match goal with |- context [replay_record ?k ?b ?n s1] =>
    pose proof (quiet_forward _ _ (quiet_replay_record (Q := R) k b n s1)) as Hrec; destruct (replay_record k b n s1) as [[] s2|r s2|s2] end;
    cbn [final] in *; [|done..].
  etransitivity; [exact Hrec|apply IH].
Qed.

(** ** Two media that agree below the end of the log *)

(** The medium is left alone and no harness comes to work. *)
Definition intact (s s' : Sys) : Prop :=
  unharmed s → unharmed s' ∧ w_medium (sy_world s') = w_medium (sy_world s).
#[global] Instance intact_preorder : PreOrder intact.
Proof.
  split; [by intros s Hs|]. intros s1 s2 s3 H12 H23 H1. destruct (H12 H1) as [H2 E12]. destruct (H23 H2) as [H3 E23].
  split; [done|congruence].
Qed.
Lemma forward_intact s s' : forward s s' → intact s s'.
Proof. intros Hf Hu. destruct (Hf Hu). by split. Qed.
Lemma quiet_intact s s' : quiet s s' → intact s s'.
Proof. intros Hq. by apply forward_intact, quiet_forward. Qed.

Lemma unharmed_after_read block s : unharmed s → unharmed (after_read block s).
Proof. intros Hu. apply (forward_after_read block s Hu). Qed.

(** What a turn replays moves the end of the log past its block. *)
Lemma replayed_forward {R} fuel kind body block s s' :
  unharmed s →
  match replay_record (Q := R) kind body block s with
  | Go true s => replay_scan fuel s | Go false s => Go false s | Early r s => Early r s | Bad s => Bad s
  end = Go true s' → st_next_block (sy_store s) <= st_next_block (sy_store s').
Proof.
  intros Hu H. pose proof (quiet_forward _ _ (quiet_replay_record (Q := R) kind body block s) Hu) as Hrec.
  destruct (replay_record kind body block s) as [[] s2|r s2|s2]; try done. cbn [final] in Hrec.
  pose proof (forward_scan (R := R) fuel s2 (fw_unharmed _ _ Hrec)) as Hf. rewrite H in Hf. cbn [final] in Hf.
  pose proof (fw_block _ _ Hrec). pose proof (fw_block _ _ Hf). lia.
Qed.

(** A scan that stays where it is replays nothing. *)
Lemma scan_stays {R} fuel s s' :
  unharmed s → replay_scan (R := R) fuel s = Go true s' →
  st_next_block (sy_store s') = st_next_block (sy_store s) → core (sy_store s') = core (sy_store s).
Proof.
  intros Hu H Hn. rewrite scan_turn in H. cbv zeta in H.
  destruct (checked_add 64 (st_arena_start _) _) as [last|]; [|done]. case_decide as Hlast; [by injection H as <-|].
  destruct fuel as [|fuel]; [done|]. destruct (parse_record _) as [record|] eqn:Hr; [|by injection H as <-].
  destruct (negb _); [by injection H as <-|]. case_decide as Hlen; [|done].
  destruct (checked_add 64 (st_next_block _) _) as [next_block|] eqn:Hb; [|done].
  destruct (checked_add 64 (st_next_sequence _) _) as [next_sequence|] eqn:Hq; [|done].
  destruct (turn_forward s record _ next_block next_sequence Hr Hb Hq) as [Hf Hlt].
  apply (replayed_forward fuel _ _ _ _ _ (fw_unharmed _ _ (Hf Hu))) in H. cbn in H. lia.
Qed.

Lemma scan_split {R} n fuel s1 s2 s1' :
  sees n s1 s2 → unharmed s1 → replay_scan (R := R) fuel s1 = Go true s1' →
  st_next_block (sy_store s1) <= n → st_next_block (sy_store s1') = n →
  ∃ fuel' σ1 σ2, replay_scan (R := R) fuel s2 = replay_scan fuel' σ2 ∧ sees n σ1 σ2 ∧ intact s2 σ2 ∧
    core (sy_store σ1) = core (sy_store s1') ∧
    N.of_nat fuel + st_next_block (sy_store s1) <= N.of_nat fuel' + n.
Proof.
  revert s1 s2. induction fuel as [|fuel IH]; intros s1 s2 Hs Hu H Hle Hn.
  { exists 0%nat, s1, s2. split_and!; [done|done|done| |lia]. symmetry. rewrite scan_turn in H. cbv zeta in H.
    destruct (checked_add _ _ _); [|done]. case_decide; [by injection H as <-|done]. }
  destruct (decide (st_next_block (sy_store s1) = n)) as [Heq|Hne].
  { exists (S fuel), s1, s2. split_and!; [done|done|done| |lia]. symmetry. apply (scan_stays (R := R) (S fuel)); [done|done|congruence]. }
  assert (st_next_block (sy_store s1) < n) as Hlt by lia.
  rewrite scan_turn. rewrite scan_turn in H. cbv zeta in H |- *.
  pose proof (sees_after_read n _ s1 s2 Hlt Hs) as Hs'. rewrite <-(se_store _ _ _ Hs).
  pose proof (se_medium _ _ _ Hs _ Hlt) as Hm. rewrite !after_read_medium in *. rewrite <-Hm.
  destruct (checked_add 64 (st_arena_start _) _) as [last|] eqn:Hlast; [|done].
  case_decide. { injection H as <-. lia. }
  destruct (parse_record _) as [record|] eqn:Hr.
  2: { injection H as <-. cbn in Hn. lia. }
  destruct (negb _). { injection H as <-. cbn in Hn. lia. }
  case_decide; [|done].
  destruct (checked_add 64 (st_next_block _) _) as [next_block|] eqn:Hb; [|done].
  destruct (checked_add 64 (st_next_sequence _) _) as [next_sequence|] eqn:Hq; [|done].
  destruct (turn_forward s1 record _ next_block next_sequence Hr Hb Hq) as [Hf Hbig].
  assert (forward s2 (passed (pr_header record) next_block next_sequence (after_read (st_next_block (sy_store s1)) s2))) as Hf2.
  { rewrite (se_store _ _ _ Hs) in Hb, Hq |- *. by apply (turn_forward s2 record _ next_block next_sequence Hr Hb Hq). }
  specialize (Hf Hu).
  assert (sees n (passed (pr_header record) next_block next_sequence (after_read (st_next_block (sy_store s1)) s1))
            (passed (pr_header record) next_block next_sequence (after_read (st_next_block (sy_store s1)) s2))) as Hp.
  { apply sees_update; [done|]. apply (se_objects _ _ _ Hs'). }
  pose proof (alike_replay_record clock (Q := R) n (rh_kind (pr_header record)) (record_payload record
    (md_read (w_medium (sy_world s1)) (st_next_block (sy_store s1)))) _ Hlt _ _ Hp) as Halike.
  pose proof (replayed_forward fuel _ _ _ _ _ (fw_unharmed _ _ Hf) H) as Hreach.
  match type of H with context [replay_record ?k ?b ?m ?s] =>
    pose proof (quiet_forward _ _ (quiet_replay_record (Q := R) k b m s) (fw_unharmed _ _ Hf)) as Hq1;
    pose proof (quiet_replay_record (Q := R) k b m s (fw_unharmed _ _ Hf)) as Hqt;
    destruct (replay_record k b m s) as [[] s3|r s3|s3] end; try done.
  match goal with |- context [replay_record ?k ?b ?m ?s] =>
    pose proof (quiet_intact _ _ (quiet_replay_record (Q := R) k b m s)) as Hq2;
    destruct (replay_record k b m s) as [b4 s4|r4 s4|s4] end; try done.
  destruct Halike as [<- H34]. cbn [final] in Hq1, Hq2, Hqt.
  pose proof (qt_tail _ _ Hqt) as Htail. injection Htail as _ _ _ _ Hnb _ _. cbn in Hnb, Hreach.
  destruct (IH s3 s4 H34 (fw_unharmed _ _ Hq1) H) as (fuel' & σ1 & σ2 & E1 & E2 & E3 & E4 & E5); [lia|done|].
  exists fuel', σ1, σ2. split_and!; [done|done| |done|lia].
  etransitivity; [apply forward_intact, Hf2|]. by etransitivity.
Qed.
End scan.

(** ** Recovery stages nothing *)

Definition unstaged (s s' : Sys) : Prop := replayable (sy_store s) → replayable (sy_store s').
#[global] Instance unstaged_preorder : PreOrder unstaged.
Proof. split; [intros s Hs; exact Hs|]. intros s1 s2 s3 H12 H23 H1. exact (H23 (H12 H1)). Qed.

Lemma same_objects s s' : st_objects (sy_store s') = st_objects (sy_store s) → unstaged s s'.
Proof. intros Ho [Hl He]. by split; rewrite Ho. Qed.
Lemma steady_unstaged {R A} (m : Act Sys R A) : within steady m → within unstaged m.
Proof. intros Hm s. apply same_objects. exact (f_equal (λ c, c.1.2) (Hm s)). Qed.
Lemma unstaged_update {R} f : (∀ st, st_objects (f st) = st_objects st) → within unstaged (update (R := R) f).
Proof. intros Hf s. apply same_objects, Hf. Qed.
Lemma unstaged_record_result {R} entry f : (∀ st, st_objects (f st) = st_objects st) →
  within unstaged (update (R := R) (λ st, record_result entry (f st))).
Proof.
  intros Hf. apply unstaged_update. intros st. rewrite <-(Hf st). unfold record_result.
  destruct (position _ _); [done|]. by case_decide.
Qed.

Create HintDb unstaged.
#[export] Hint Extern 2 (within unstaged (update _)) => apply unstaged_update; intros; reflexivity : unstaged.
#[export] Hint Extern 3 (within unstaged (update _)) => apply unstaged_record_result; intros; reflexivity : unstaged.
#[export] Hint Extern 4 (within unstaged _) => apply steady_unstaged; solve [auto 1 with steady nocore] : unstaged.
Ltac unstaging := repeat walk_step ltac:(solve [auto 2 with unstaged nocore]).

Section unstaged.
Context `{Outside}.

Lemma unstaged_set_object {R} (index : nat) f :
  (∀ e, oe_stage e = U32_MAX ∧ (N.to_nat (oe_length e) <= OBJECT_MAX)%nat →
        oe_stage (f e) = U32_MAX ∧ (N.to_nat (oe_length (f e)) <= OBJECT_MAX)%nat) →
  within unstaged (set_object (R := R) index f).
Proof.
  intros Hf s [Hl He]. split; cbn; [by rewrite length_alter|]. apply Forall_alter; [done|]. intros e Hi He'. by apply Hf.
Qed.
Lemma unstaged_adopt {Q} digest type len block : len <= geometry.OBJECT_MAX_BYTES →
  within unstaged (adopt (Q := Q) digest type len block).
Proof.
  intros Hlen. unfold adopt. unstaging; apply unstaged_set_object; intros e He; [exact He|]. cbn.
  pose proof object_max_bytes. split; [done|lia].
Qed.
Lemma unstaged_guard {R A} b (r : R) (m : Act Sys R A) :
  (b = false → within unstaged m) → within unstaged (return_if b r;;; m)%act.
Proof.
  intros Hm s. rewrite run_bind. unfold return_if. destruct b; [done|]. by apply Hm.
Qed.
Lemma unstaged_replay_object {Q} body block : within unstaged (replay_object (Q := Q) body block).
Proof.
  unfold replay_object. apply within_call, within_bind; [apply _|unstaging|]. intros head. cbv zeta.
  apply unstaged_guard. intros [Hmax%bool_decide_eq_false _]%orb_false_iff. apply unstaged_guard. intros _.
  unstaging. apply unstaged_adopt. lia.
Qed.
Lemma unstaged_set_outbox {R} principal sequence status :
  within unstaged (update (R := R) (set_outbox principal sequence status)).
Proof. apply unstaged_update. intros st. unfold set_outbox. by destruct (position _ _). Qed.
Lemma unstaged_replay_record {Q} kind body block : within unstaged (replay_record (Q := Q) kind body block).
Proof.
  unfold replay_record, replay_prepare, replay_commit, replay_abort, replay_outbox, dependency_missing.
  repeat case_decide; unstaging. all: first [apply unstaged_replay_object|apply unstaged_set_outbox].
Qed.
Lemma unstaged_replay_scan {R} fuel : within unstaged (replay_scan (R := R) fuel).
Proof.
  induction fuel as [|fuel IH]; cbn [replay_scan]; unfold arena_end, plus, replayed, disk_read; unstaging.
  all: first [apply unstaged_replay_record|apply IH].
Qed.
Lemma unstaged_replay {Q} superblock : within unstaged (replay (Q := Q) superblock).
Proof.
  unfold replay, replay_open, load_checkpoint, disk_read, plus. unstaging. all: apply unstaged_replay_scan.
Qed.
Lemma unstaged_read_superblock {Q} slot_ : within unstaged (read_superblock (Q := Q) slot_).
Proof. unfold read_superblock, disk_read. unstaging. Qed.
Lemma unstaged_adopt_superblock {R} superblock slot_ : within unstaged (adopt_superblock (R := R) superblock slot_).
Proof. unfold adopt_superblock. unstaging. Qed.
End unstaged.
