(* ===== verification/K4Tail.v ===== *)
(** * The durable store: the scan of what a publication left

    The scan, from the end of an older log, over any front of a publication's records:
    what it replays of each record, and where it ends. *)

From stdpp Require Import gmap.
From S2P Require Import Prelude Bytes Sha256 K4Layout K4Format K4FormatProofs.
From S2P Require Import Effects K4Disk K4Store K4StoreLog K4StorePub.
From S2P Require Import K4StoreProofs K4Staging K4Crash K4PubLog K4Calm K4Replay.

#[local] Open Scope N_scope.

Lemma payload_max_bytes : N.of_nat PAYLOAD_MAX = 3328.
Proof. by vm_compute. Qed.
#[local] Opaque hash object_digest record_digest BLOCK OBJECT_MAX PAYLOAD_MAX md_read.

(** The widths of the log's position, and that [room] more blocks and sequence numbers
    are there. *)
Record tail_ok (room : N) (t : Tail) : Prop := {
  to_epoch : tl_epoch t < 2 ^ 64;
  to_arena : tl_arena t < 2 ^ 32;
  to_prev : digest_ok (tl_prev t);
  to_sequence : tl_sequence t + room < 2 ^ 64;
  to_block : tl_block t + room <= tl_start t + tl_blocks t;
  to_end : tl_start t + tl_blocks t < 2 ^ 64
}.

Lemma header_digest_ok t kind body : digest_ok (rh_digest (header_of t kind body)).
Proof. apply record_digest_shape. Qed.

Lemma tail_ok_grown room t kind body : tail_ok (room + 1) t → tail_ok room (grown t kind body).
Proof.
  intros [H1 H2 H3 H4 H5 H6]. split; cbn; try done; [apply header_digest_ok|lia|lia].
Qed.

Lemma tail_ok_le room room' t : room' <= room → tail_ok room t → tail_ok room' t.
Proof. intros Hle [H1 H2 H3 H4 H5 H6]. split; try done; lia. Qed.

Lemma frame_of_fits room t kind : tail_ok room t → kind < 2 ^ 32 → frame_fits (frame_of t kind).
Proof.
  intros [H1 H2 [H3 H3'] H4 H5 H6] Hk. split; cbn; try done; [lia|by apply N.mod_lt].
Qed.

(** ** The scan of what a publication left *)

Section atomic.
Context (clock : nat → N).
#[local] Hint Extern 0 Outside => exact (calm clock) : typeclass_instances.

(** What is published, and how many commits were found without their objects. *)
Definition standing (st : Store) : N * list N * N := (version st, st_dependency_missing st).
(** The scan is at the end [t] of what it has read of the medium [m]. *)
Record at_scan (m : Medium) (t : Tail) (v : N * list N * N) (pending : Pending) (s : Sys) : Prop := {
  as_sane : sane m s;
  as_tail : tail (sy_store s) = t;
  as_standing : standing (sy_store s) = v;
  as_pending : st_pending (sy_store s) = pending
}.

Lemma core_parts st st' : core st' = core st →
  tail st' = tail st ∧ version st' = version st ∧ st_pending st' = st_pending st ∧ st_objects st' = st_objects st ∧
  st_dependency_missing st' = st_dependency_missing st.
Proof.
  intros Hc. split_and!; [exact (f_equal (λ c, c.1.1.1.1) Hc)|exact (f_equal (λ c, c.1.1.1.2) Hc)
    |exact (f_equal (λ c, c.1.1.2) Hc)|exact (f_equal (λ c, c.1.2) Hc)|exact (f_equal (λ c, c.2) Hc)].
Qed.

Lemma at_scan_steady m t v pending s s' : quiet s s' → steady s s' → at_scan m t v pending s → at_scan m t v pending s'.
Proof.
  intros Hq Hs [H1 H2 H3 H4]. apply core_parts in Hs as (E1 & E2 & E3 & E4 & E5).
  split; [by eapply sane_quiet|by rewrite E1|by unfold standing; rewrite E2, E5|by rewrite E3].
Qed.
Lemma at_scan_read m t v pending block s : at_scan m t v pending s → at_scan m t v pending (after_read block s).
Proof. intros [H1 H2 H3 H4]. split; [by apply sane_after_read|done..]. Qed.

Lemma scan_next {R} m t v pending s fuel kind body room :
  at_scan m t v pending s → tail_ok (room + 1) t → kind < 2 ^ 32 → (length body <= PAYLOAD_MAX)%nat →
  md_read m (tl_block t) = image_of t kind body →
  ∃ s1, at_scan m (grown t kind body) v pending s1 ∧
  replay_scan (R := R) (S fuel) s =
    match replay_record kind body (tl_block t) s1 with
    | Go true s => replay_scan fuel s | Go false s => Go false s | Early r s => Early r s | Bad s => Bad s
    end.
Proof.
  intros [Hsane <- <- <-] Hok Hkind Hlen Hblock. set (t := tail (sy_store s)) in *.
  set (header := header_of t kind body).
  exists (passed header (tl_block t + 1) (tl_sequence t + 1) (after_read (tl_block t) s)). split.
  { split; [|done..]. apply (sane_same m (after_read (tl_block t) s) _ (λ st, st <| st_next_block := tl_block t + 1 |>
      <| st_next_sequence := tl_sequence t + 1 |> <| st_prev_digest := rh_digest header |> <| st_scanned ::= N.succ |>)); [|done..].
    by apply sane_after_read. }
  rewrite scan_turn. cbv zeta. rewrite after_read_medium, (sn_medium _ _ Hsane). change (st_next_block (sy_store s)) with (tl_block t). rewrite Hblock.
  change (st_arena_start (sy_store s)) with (tl_start t). change (st_arena_blocks (sy_store s)) with (tl_blocks t).
  destruct Hok as [O1 O2 O3 O4 O5 O6]. unfold checked_add at 1. rewrite decide_True by done. rewrite decide_False by lia.
  assert (length body <= RECORD_ROOM)%nat as Hroom.
  { pose proof payload_max_bytes. change RECORD_ROOM with 3968%nat. lia. }
  destruct (parse_framed (image_of t kind body) (frame_of t kind) body) as [-> Hslice].
  { by apply (frame_of_fits (room + 1)). }
  { done. }
  { unfold image_of. rewrite <-(record_image_len (header_of t kind body) body Hroom), firstn_all. done. }
  cbn [pr_header]. unfold record_payload. cbn [pr_payload_offset pr_payload_len]. rewrite Hslice.
  fold (header_of t kind body).
  assert (links (header_of t kind body) (sy_store s) = true) as ->.
  { unfold links. rewrite !andb_true_iff, !bool_decide_eq_true. split_and!; try done. cbn. by apply N.mod_small. }
  cbn [negb]. rewrite decide_True by done. change (rh_block_count (header_of t kind body)) with 1.
  change (st_next_sequence (sy_store s)) with (tl_sequence t).
  unfold checked_add. rewrite !decide_True by lia. done.
Qed.

(** No record that would go on from [t] is in its block. *)
Definition dead (m : Medium) (t : Tail) : Prop :=
  match parse_record (md_read m (tl_block t)) with
  | Some r => rh_sequence (pr_header r) ≠ tl_sequence t
  | None => True
  end.

Lemma scan_dead {R} m t v pending s fuel :
  at_scan m t v pending s → tl_start t + tl_blocks t < 2 ^ 64 → dead m t →
  ∃ s', replay_scan (R := R) (S fuel) s = Go true s' ∧ at_scan m t v pending s'.
Proof.
  intros Hat Hend Hdead. pose proof (at_scan_read m t v pending (tl_block t) s Hat) as Hread.
  rewrite scan_turn. cbv zeta. pose proof (as_sane _ _ _ _ _ Hat) as Hsane. pose proof (as_tail _ _ _ _ _ Hat) as Ht.
  subst t. rewrite after_read_medium, (sn_medium _ _ Hsane).
  cbn in Hend. unfold checked_add at 1. rewrite decide_True by done. case_decide; [by exists s|].
  unfold dead in Hdead. cbn in Hdead. destruct (parse_record _) as [r|]; [|by eexists].
  assert (links (pr_header r) (sy_store s) = false) as ->; [|by eexists].
  unfold links. by rewrite bool_decide_false.
Qed.

(** A record's payload read as its structure. *)
Lemma read_payload {A} (c : Codec A) `{!Layout c} a rest : cd_fits c a → read_from c (cd_bytes c a ++ rest) 0 = Some a.
Proof.
  intros Ha. apply (read_from_at c); [done| |].
  - rewrite length_app, ly_len. lia.
  - rewrite <-(ly_len (c := c) a). unfold slice. rewrite drop_0. apply take_app_length.
Qed.
Lemma read_whole {A} (c : Codec A) `{!Layout c} a : cd_fits c a → read_from c (cd_bytes c a) 0 = Some a.
Proof. intros Ha. rewrite <-(app_nil_r (cd_bytes c a)). by apply read_payload. Qed.

(** Statements about the tables never stop. *)
Lemma with_principal_goes {Q} principal f s : ∃ s', with_principal (Q := Q) principal f s = Go () s'.
Proof.
  unfold with_principal, principal_slot. rewrite run_bind, run_call. runs.
  destruct (position _ _); runs; [by eexists|]. case_option; runs; by eexists.
Qed.
Lemma with_principal_at {Q} m t v pending principal f s : at_scan m t v pending s →
  ∃ s', with_principal (Q := Q) principal f s = Go () s' ∧ at_scan m t v pending s'.
Proof.
  intros Hat. destruct (with_principal_goes (Q := Q) principal f s) as [s' E]. exists s'. split; [done|].
  pose proof (quiet_with_principal (Q := Q) principal f s) as Hq.
  pose proof (steady_with_principal (Q := Q) principal f s) as Hs. rewrite E in Hq, Hs. by eapply at_scan_steady.
Qed.

Lemma at_scan_update m t v pending v' pending' f s :
  at_scan m t v pending s → (∀ st, tail (f st) = tail st) → (∀ st, st_objects (f st) = st_objects st) →
  (∀ st, st_harness (f st) = st_harness st) →
  standing (f (sy_store s)) = v' → st_pending (f (sy_store s)) = pending' →
  at_scan m t v' pending' (s <| sy_store ::= f |>).
Proof.
  intros [H1 H2 H3 H4] Ht Ho Hh Hv Hp. split; [by apply (sane_same m s _ f)| |done|done]. cbn. by rewrite Ht.
Qed.

Lemma replay_prepare_at {Q} m t v pending s r block :
  at_scan m t v pending s → 1 <= tl_sequence t → cd_fits PrepareRecord_codec r →
  ∃ s', replay_record (Q := Q) record_kind.PREPARE (cd_bytes PrepareRecord_codec r) block s = Go true s' ∧
    at_scan m t v (mkPending true (pr_principal r) (pr_request_sequence r) (tl_sequence t - 1) (tl_prev t)
      (pr_request_digest r) (pr_candidate_root r) abort_reason.RECOVERED_UNRESOLVED) s'.
Proof.
  intros Hat Hseq Hfits. unfold replay_record. rewrite decide_False, decide_True by done.
  unfold replay_prepare. rewrite run_call, (read_whole _ r Hfits). runs. unfold id.
  pose proof (as_tail _ _ _ _ _ Hat) as Ht. subst t.
  unfold checked_sub. rewrite decide_True by done. runs. set (pending' := mkPending _ _ _ _ _ _ _ _).
  match goal with |- context [with_principal ?p ?f ?s1] =>
    destruct (with_principal_at (Q := bool) m _ v pending' p f s1 ltac:(eapply at_scan_update; [exact Hat|done|done|done| |done]; exact (as_standing _ _ _ _ _ Hat))) as (s' & -> & Hs') end.
  runs. by exists s'.
Qed.

(** An object's record is adopted, or there is no room in the index. *)
Lemma adopt_at {Q} m t v pending s digest type len block :
  at_scan m t v pending s → len <= geometry.OBJECT_MAX_BYTES →
  ∃ s', adopt (Q := Q) digest type len block s = Go () s' ∧ at_scan m t v pending s'.
Proof.
  intros Hat Hlen. unfold adopt, set_object. rewrite run_call. runs.
  assert (∀ (index : nat) f, (∀ e, oe_stage e = U32_MAX ∧ (N.to_nat (oe_length e) <= OBJECT_MAX)%nat →
      oe_stage (f e) = U32_MAX ∧ (N.to_nat (oe_length (f e)) <= OBJECT_MAX)%nat) →
    at_scan m t v pending (s <| sy_store ::= λ st, st <| st_objects ::= alter f index |> |>)) as Hset.
  { intros index f Hf. destruct Hat as [[Hu Hm [Hl He]] H2 H3 H4]. split; [|done..]. split; [|done|].
    - destruct Hu. by split.
    - split; cbn; [by rewrite length_alter|]. by apply Forall_alter; [|intros]; eauto. }
  destruct (find digest (sy_store s)) as [index|]; runs.
  { eexists. split; [done|]. apply Hset. intros e He. exact He. }
  case_option; runs; [|by exists s]. eexists. split; [done|]. apply Hset. intros e _. cbn.
  pose proof object_max_bytes. split; [done|lia].
Qed.

Lemma replay_object_at {Q} m t v pending s r block :
  at_scan m t v pending s → object_record r →
  ∃ s', replay_record (Q := Q) r.1 r.2 block s = Go true s' ∧ at_scan m t v pending s'.
Proof.
  intros Hat (type & bytes & -> & Htype & Hlen). cbn [fst snd]. unfold replay_record. rewrite decide_True by done.
  pose proof object_max_bytes as Hmax. unfold geometry.OBJECT_MAX_BYTES in Hmax.
  destruct (object_digest_ok type bytes) as [Hd Hd']. unfold replay_object, object_body. rewrite run_call.
  set (head := mkObjectRecordHeader _ _ _ _). rewrite (read_payload ObjectRecordHeader_codec head bytes).
  2: { unfold head. cbn. split_and!; try done. lia. }
  runs. change (oh_length head) with (N.of_nat (length bytes)). change (oh_object_type head) with type.
  change (oh_content_digest head) with (object_digest type bytes).
  assert (length (cd_bytes ObjectRecordHeader_codec head ++ bytes) = (ObjectRecordHeader.SIZE + length bytes)%nat) as Hl.
  { by rewrite length_app, ly_len. }
  rewrite Nat2N.id, Hl, (bool_decide_false (_ < _)) by (unfold geometry.OBJECT_MAX_BYTES; lia).
  rewrite bool_decide_false by lia. cbn [orb]. runs.
  assert (slice ObjectRecordHeader.SIZE (length bytes) (cd_bytes ObjectRecordHeader_codec head ++ bytes) = bytes) as ->.
  { change ObjectRecordHeader.SIZE with (cd_size ObjectRecordHeader_codec). rewrite <-(ly_len (c := ObjectRecordHeader_codec) head).
    unfold slice. rewrite drop_app_length. apply firstn_all. }
  rewrite bool_decide_true by done. cbn [negb]. runs.
  destruct (adopt_at (Q := bool) m t v pending s (object_digest type bytes) type (N.of_nat (length bytes)) block Hat)
    as (s' & -> & Hs'); [unfold geometry.OBJECT_MAX_BYTES; lia|]. runs. by exists s'.
Qed.

Lemma core_record_result entry st : core (record_result entry st) = core st.
Proof. unfold record_result. destruct (position _ _); [done|]. by case_decide. Qed.

Lemma closure_at {Q} m t v pending root s : at_scan m t v pending s →
  ∃ r s', closure (Q := Q) root s = Go r s' ∧ indexes r.2 ∧ at_scan m t v pending s'.
Proof.
  intros Hat. pose proof (closure_total clock (Q := Q) m root s (as_sane _ _ _ _ _ Hat)) as Hc.
  pose proof (quiet_closure (Q := Q) root s) as Hq. pose proof (steady_closure (Q := Q) root s) as Hs.
  destruct (closure root s) as [r s'|r s'|s']; try done. cbn [final] in Hq, Hs. exists r, s'.
  split_and!; [done|apply Hc|by eapply at_scan_steady].
Qed.

Lemma at_scan_missing m t v k pending s : at_scan m t (v, k) pending s →
  at_scan m t (v, N.succ k) (pending <| pd_reason := abort_reason.DEPENDENCY_MISSING |>)
    (s <| sy_store ::= λ st, st <| st_pending ::= λ p, p <| pd_reason := abort_reason.DEPENDENCY_MISSING |> |>
                                <| st_dependency_missing ::= N.succ |> |>).
Proof.
  intros Hat. pose proof (as_standing _ _ _ _ _ Hat) as Hv. eapply at_scan_update; [exact Hat|done|done|done| |].
  - exact (f_equal2 pair (f_equal fst Hv) (f_equal (λ x, N.succ x.2) Hv)).
  - cbn. by rewrite (as_pending _ _ _ _ _ Hat).
Qed.

(** A commit that fits its prepare publishes, or its objects are not all there. *)
Lemma replay_commit_at {Q} m t v k pending s r block :
  at_scan m t (v, k) pending s → cd_fits CommitRecord_codec r →
  pd_live pending = true → pd_prepare_sequence pending = cr_prepare_sequence r →
  pd_prepare_digest pending = cr_prepare_digest r → pd_candidate_root pending = cr_root_digest r →
  ∃ s' w pending', replay_record (Q := Q) record_kind.COMMIT (cd_bytes CommitRecord_codec r) block s = Go true s' ∧
    at_scan m t w pending' s' ∧ (w = (v, N.succ k) ∨ w = (cr_new_generation r, cr_root_digest r, k)).
Proof.
  intros Hat Hfits Hl Hq Hd Hr. unfold replay_record. rewrite !decide_False by done. rewrite decide_True by done.
  unfold replay_commit. rewrite run_call, (read_whole _ r Hfits). runs.
  rewrite (as_pending _ _ _ _ _ Hat), Hl, Hq, Hd, Hr, !bool_decide_true by done. cbn [negb orb]. runs.
  destruct (closure_at (Q := bool) m t (v, k) pending (cr_root_digest r) s Hat) as (walked & s1 & -> & Hi & Hat1). runs.
  assert (∃ s' w pending', Go (R := Q) true (s1 <| sy_store ::= λ st, st
      <| st_pending ::= λ p, p <| pd_reason := abort_reason.DEPENDENCY_MISSING |> |> <| st_dependency_missing ::= N.succ |> |>) = Go true s' ∧
    at_scan m t w pending' s' ∧ (w = (v, N.succ k) ∨ w = (cr_new_generation r, cr_root_digest r, k))) as Hmissing.
  { do 3 eexists. split; [done|]. split; [by apply at_scan_missing|by left]. }
  destruct walked.1; cbn [negb]; [|unfold dependency_missing; by runs]. runs.
  destruct (mapM (λ index, st_objects (sy_store s1) !! index) walked.2) as [entries|] eqn:Hm; runs.
  2: { exfalso. apply mapM_None_1 in Hm. apply Exists_exists in Hm as (i & Hin & Hnone).
       unfold indexes in Hi. rewrite Forall_forall in Hi. apply Hi in Hin.
       destruct (sane_object m s1 i (as_sane _ _ _ _ _ Hat1) Hin) as (e & He & _). by rewrite Hnone in He. }
  destruct (existsb _ entries); [unfold dependency_missing; by runs|]. runs.
  match goal with |- context [with_principal ?p ?f ?s2] =>
    destruct (with_principal_at (Q := bool) m t (cr_new_generation r, cr_root_digest r, k) pending p f s2) as (s3 & -> & Hat3) end.
  { eapply at_scan_update; [exact Hat1|..].
    - intros st. exact (proj1 (core_parts _ _ (core_record_result _ _))).
    - intros st. exact (proj1 (proj2 (proj2 (proj2 (core_parts _ _ (core_record_result _ _)))))).
    - intros st. by rewrite harness_record_result.
    - unfold standing. destruct (core_parts _ _ (core_record_result (mkResultEntry (cr_principal r) (cr_request_sequence r)
        result_outcome.COMMITTED outbox_status.NONE (cr_new_generation r) (cr_root_digest r) (pd_request_digest pending))
        ((sy_store s1) <| st_published_generation := cr_new_generation r |> <| st_published_root := cr_root_digest r |>
          <| st_published_policy := cr_policy_digest r |> <| st_published_receipt := cr_receipt_digest r |>)))
        as (_ & -> & _ & _ & ->).
      exact (f_equal (λ x, (cr_new_generation r, cr_root_digest r, x.2)) (as_standing _ _ _ _ _ Hat1)).
    - transitivity (st_pending (sy_store s1)); [|apply Hat1].
      exact (proj1 (proj2 (proj2 (core_parts _ _ (core_record_result _ _))))). }
  runs. do 3 eexists. split; [done|]. split; [|by right].
  eapply at_scan_update; [exact Hat3|done|done|done| |done]. exact (as_standing _ _ _ _ _ Hat3).
Qed.

(** ** The front of a log *)

(** The medium holds these records and then nothing that goes on; where they may be
    [cut], only some front of them. *)
Fixpoint front (cut : Prop) (m : Medium) (t : Tail) (records : list (N * list N)) : Prop :=
  match records with
  | [] => dead m t
  | (kind, body) :: records =>
      (cut ∧ dead m t) ∨ md_read m (tl_block t) = image_of t kind body ∧ front cut m (grown t kind body) records
  end.

Lemma object_record_ok r : object_record r → r.1 < 2 ^ 32 ∧ (length r.2 <= PAYLOAD_MAX)%nat.
Proof.
  intros (type & bytes & -> & _ & Hlen). cbn [fst snd]. split; [done|]. unfold object_body. rewrite length_app, ly_len.
  pose proof object_max_bytes as H1. pose proof payload_max_bytes as H2. unfold geometry.OBJECT_MAX_BYTES in H1.
  change (cd_size ObjectRecordHeader_codec) with 48%nat. lia.
Qed.

(** The scan ends here, or goes on behind the objects. *)
Lemma scan_objects {R} cut m t v pending s fuel objects rest room :
  at_scan m t v pending s → Forall object_record objects → front cut m t (objects ++ rest) →
  tail_ok (N.of_nat (length objects) + room) t → (length objects < fuel)%nat → 1 <= room →
  (cut ∧ ∃ s' t', replay_scan (R := R) fuel s = Go true s' ∧ at_scan m t' v pending s' ∧ tail_ok 1 t' ∧
     tl_sequence t <= tl_sequence t') ∨
  (∃ s', replay_scan (R := R) fuel s = replay_scan (fuel - length objects) s' ∧
     at_scan m (grown_by t objects) v pending s' ∧ front cut m (grown_by t objects) rest ∧ tail_ok room (grown_by t objects) ∧
     tl_sequence t <= tl_sequence (grown_by t objects)).
Proof.
  revert t s fuel. induction objects as [|[kind body] objects IH]; intros t s fuel Hat Ho Hf Hok Hfuel Hroom; cbn [grown_by app length] in *.
  { right. exists s. rewrite Nat.sub_0_r. split_and!; [done..|lia]. }
  apply Forall_cons in Ho as [Ho Hos]. destruct fuel as [|fuel]; [lia|]. destruct Hf as [[Hcut Hdead]|[Hread Hf]].
  { left. split; [done|]. destruct (scan_dead (R := R) m t v pending s fuel Hat (to_end _ _ Hok) Hdead) as (s' & E & Hs').
    exists s', t. split_and!; [done|done| |lia]. eapply tail_ok_le; [|exact Hok]. lia. }
  destruct (object_record_ok _ Ho) as [Hk Hl]. cbn [fst snd] in Hk, Hl.
  assert (tail_ok (N.of_nat (length objects) + room + 1) t) as Hok1 by (eapply tail_ok_le; [|exact Hok]; lia).
  destruct (scan_next (R := R) m t v pending s fuel kind body _ Hat Hok1 Hk Hl Hread) as (s1 & Hat1 & ->).
  destruct (replay_object_at (Q := R) _ _ _ _ s1 (kind, body) (tl_block t) Hat1 Ho) as (s2 & E & Hat2). cbn [fst snd] in E. rewrite E.
  destruct (IH (grown t kind body) s2 fuel Hat2 Hos Hf (tail_ok_grown _ _ _ _ Hok1) ltac:(lia) Hroom)
    as [(Hcut & s' & t' & H1 & H2 & H3 & H4)|(s' & H1 & H2 & H3 & H4 & H5)]; [left|right]; cbn in *.
  - split; [done|]. exists s', t'. split_and!; [done..|lia].
  - exists s'. split_and!; [done..|lia].
Qed.

(** ** The scan of a publication's log *)

Variable (t0 : Tail) (p : Publication) (request : list N) (invocation generation : N).

(** What the publication was asked fits the widths of its records. *)
Definition publication_fits : Prop :=
  cd_fits PrepareRecord_codec (prepare_of p request 0 invocation) ∧ generation + 1 < 2 ^ 64.

(** A log that ends with its commit. *)
Definition closed (records : list (N * list N)) : Prop := ∃ body, last records = Some (record_kind.COMMIT, body).
(** What recovery publishes: what was, unless the commit has to be there; or what the
    publication made of it; and when the commit was there but not all of its objects,
    that was counted. *)
Definition lands (old : Prop) (v : N * list N) (k : N) (w : N * list N * N) : Prop :=
  old ∧ w = (v, k) ∨ w = (v, N.succ k) ∨ w = (generation + 1, pb_candidate_root p, k).

Lemma prepare_fits now : publication_fits → now < 2 ^ 64 → cd_fits PrepareRecord_codec (prepare_of p request now invocation).
Proof. intros [Hf _] Hnow. cbn in *. destruct_and!. by split_and!. Qed.
Lemma commit_fits sequence digest receipt now objects :
  publication_fits → sequence < 2 ^ 64 → digest_ok digest → digest_ok receipt → now < 2 ^ 64 → objects < 2 ^ 64 →
  cd_fits CommitRecord_codec (commit_of p sequence digest (generation + 1) receipt now objects).
Proof. intros [Hf Hg] H1 [H2 H2'] [H3 H3'] H4 H5. cbn in *. destruct_and!. by split_and!. Qed.

Lemma publication_log_parts records : publication_log t0 p request invocation generation records →
  records = [] ∨ ∃ prepare objects rest, records = prepare :: objects ++ rest ∧
    prepare_record p request invocation prepare ∧ Forall object_record objects ∧ (length objects <= S MAX_OBJECTS)%nat ∧
    (rest = [] ∧ ¬ closed records ∨ ∃ commit, rest = [commit] ∧ commit_record t0 p generation prepare commit).
Proof.
  assert (∀ prepare objects, prepare_record p request invocation prepare → Forall object_record objects →
    ¬ closed (prepare :: objects)) as Hopen.
  { intros prepare objects (now & _ & ->) Ho [body Hb]. destruct objects as [|o objects _] using rev_ind; [done|].
    rewrite app_comm_cons, last_snoc in Hb. injection Hb as ->. apply Forall_app in Ho as [_ Ho].
    apply Forall_cons in Ho as [(type & bytes & [=] & _) _]. }
  intros [->|[(prepare & objects & Hp & Ho & Hl & ->)|(prepare & objects & commit & Hp & Ho & Hl & Hc & ->)]]; [by left|right..].
  - exists prepare, objects, []. rewrite app_nil_r. split_and!; try done. left. split; [done|by apply Hopen].
  - exists prepare, objects, [commit]. split_and!; try done. right. by exists commit.
Qed.

(** The pending request a prepare leaves. *)
Definition open_request (prepare : N * list N) : Pending :=
  mkPending true (pb_principal p) (pb_sequence p) (tl_sequence t0) (rh_digest (header_of t0 prepare.1 prepare.2)) request
    (pb_candidate_root p) abort_reason.RECOVERED_UNRESOLVED.

(** The commit, or what is there instead of it. *)
Lemma scan_commit {R} cut (open : Prop) m t v k prepare s fuel rest :
  at_scan m t (v, k) (open_request prepare) s → publication_fits → tail_ok 2 t → tail_ok 1 t0 →
  (rest = [] ∧ open ∨ ∃ commit, rest = [commit] ∧ commit_record t0 p generation prepare commit) →
  front cut m t rest → (2 <= fuel)%nat →
  ∃ s' t' w pending, replay_scan (R := R) fuel s = Go true s' ∧ at_scan m t' w pending s' ∧ tail_ok 1 t' ∧
    tl_sequence t <= tl_sequence t' ∧ lands (cut ∨ open) v k w.
Proof.
  intros Hat Hfits Hok Hok0 Hrest Hf Hfuel. destruct fuel as [|[|fuel]]; [lia..|].
  assert (cut ∨ open → dead m t → ∃ s' t' w pending, replay_scan (R := R) (S (S fuel)) s = Go true s' ∧ at_scan m t' w pending s' ∧
    tail_ok 1 t' ∧ tl_sequence t <= tl_sequence t' ∧ lands (cut ∨ open) v k w) as Hstop.
  { intros Hold Hdead. destruct (scan_dead (R := R) _ _ _ _ s (S fuel) Hat (to_end _ _ Hok) Hdead) as (s' & E & Hs').
    exists s', t, (v, k), (open_request prepare). split_and!; try done; [|by left]. by eapply tail_ok_le; [|exact Hok]. }
  destruct Hrest as [[-> Hopen]|(commit & -> & receipt & now & objects & Hr & Hnow & Hobj & ->)]; cbn [front] in Hf.
  { apply Hstop; [by right|done]. }
  destruct Hf as [[Hcut Hdead]|[Hread Hdead]]; [apply Hstop; [by left|done]|]. set (c := commit_of _ _ _ _ _ _ _) in *.
  assert (cd_fits CommitRecord_codec c) as Hc.
  { apply commit_fits; try done; [pose proof (to_sequence _ _ Hok0); lia|apply header_digest_ok]. }
  assert (length (cd_bytes CommitRecord_codec c) <= PAYLOAD_MAX)%nat as Hl.
  { rewrite ly_len. pose proof payload_max_bytes. change (cd_size CommitRecord_codec) with 176%nat. lia. }
  destruct (scan_next (R := R) m t (v, k) _ s (S fuel) record_kind.COMMIT _ 1 Hat Hok eq_refl Hl Hread) as (s1 & Hat1 & ->).
  destruct (replay_commit_at (Q := R) m _ v k _ s1 c (tl_block t) Hat1 Hc eq_refl eq_refl eq_refl eq_refl)
    as (s2 & w & pending & -> & Hat2 & Hw).
  pose proof (tail_ok_grown 1 t record_kind.COMMIT (cd_bytes CommitRecord_codec c) Hok) as Hok1.
  destruct (scan_dead (R := R) _ _ _ _ s2 fuel Hat2 (to_end _ _ Hok1) Hdead) as (s' & E & Hs').
  exists s', (grown t record_kind.COMMIT (cd_bytes CommitRecord_codec c)), w, pending. split_and!; try done; [cbn; lia|].
  destruct Hw as [-> | ->]; [by right; left|by right; right].
Qed.

(** The most a publication writes, and the abort of what it left open. *)
Definition PUBLICATION_BLOCKS : N := 44.

Lemma scan_log {R} cut m v k pending0 s fuel records :
  at_scan m t0 (v, k) pending0 s → publication_fits → 1 <= tl_sequence t0 → tail_ok PUBLICATION_BLOCKS t0 →
  publication_log t0 p request invocation generation records → front cut m t0 records → (44 < fuel)%nat →
  ∃ s' t' w pending, replay_scan (R := R) fuel s = Go true s' ∧ at_scan m t' w pending s' ∧
    tail_ok 1 t' ∧ tl_sequence t0 <= tl_sequence t' ∧ lands (cut ∨ ¬ closed records) v k w.
Proof.
  intros Hat Hfits Hseq Hok Hlog Hf Hfuel.
  assert (cut ∨ ¬ closed records → dead m t0 → ∃ s' t' w pending, replay_scan (R := R) fuel s = Go true s' ∧ at_scan m t' w pending s' ∧
    tail_ok 1 t' ∧ tl_sequence t0 <= tl_sequence t' ∧ lands (cut ∨ ¬ closed records) v k w) as Hstop.
  { intros Hold Hdead. destruct fuel as [|fuel]; [lia|].
    destruct (scan_dead (R := R) _ _ _ _ s fuel Hat (to_end _ _ Hok) Hdead) as (s' & E & Hs').
    exists s', t0, (v, k), pending0. split_and!; try done; [by eapply tail_ok_le; [|exact Hok]|by left]. }
  pose proof Hlog as Hparts. apply publication_log_parts in Hparts as [->|(prepare & objects & rest & -> & (now & Hnow & Hp) & Ho & Hl & Hrest)].
  { apply Hstop; [right; by intros [body [=]]|done]. }
  subst prepare. destruct Hf as [[Hcut Hdead]|[Hread Hf]]; [apply Hstop; [by left|done]|]. clear Hstop Hlog.
  set (r := prepare_of p request now invocation) in *. set (body := cd_bytes PrepareRecord_codec r) in *.
  pose proof (prepare_fits now Hfits Hnow) as Hr. fold r in Hr.
  assert (length body <= PAYLOAD_MAX)%nat as Hlen.
  { unfold body. rewrite ly_len. pose proof payload_max_bytes. change (cd_size PrepareRecord_codec) with 216%nat. lia. }
  destruct fuel as [|fuel]; [lia|].
  destruct (scan_next (R := R) m t0 (v, k) _ s fuel record_kind.PREPARE body 43 Hat Hok eq_refl Hlen Hread) as (s1 & Hat1 & ->).
  destruct (replay_prepare_at (Q := R) m _ (v, k) _ s1 r (tl_block t0) Hat1 ltac:(cbn; lia) Hr) as (s2 & E & Hat2).
  unfold body at 1. rewrite E. clear E.
  set (t1 := grown t0 record_kind.PREPARE body) in *. pose proof (tail_ok_grown 43 t0 record_kind.PREPARE body Hok : tail_ok 43 t1) as Hok1.
  assert (at_scan m t1 (v, k) (open_request (record_kind.PREPARE, body)) s2) as Hat2'.
  { destruct Hat2 as [H1 H2 H3 H4]. split; try done. rewrite H4. unfold open_request. cbn. f_equal. lia. }
  assert (S (length objects) <= 42)%nat as Hl' by (change MAX_OBJECTS with 40%nat in Hl; lia).
  destruct (scan_objects (R := R) cut m t1 (v, k) _ s2 fuel objects rest 2 Hat2' Ho Hf) as
    [(Hcut & s' & t' & H1 & H2 & H3 & H4)|(s3 & H1 & H2 & H3 & H4 & H5)]; [eapply tail_ok_le; [|exact Hok1]; lia|lia|lia|..].
  - exists s', t', (v, k), (open_request (record_kind.PREPARE, body)). cbn in H4.
    split_and!; try done; [cbn in *; lia|left; split; [by left|done]].
  - rewrite H1. destruct (scan_commit (R := R) cut (¬ closed ((record_kind.PREPARE, body) :: objects ++ rest)) m _ v k (record_kind.PREPARE, body) s3 (fuel - length objects) rest H2 Hfits H4)
      as (s' & t' & w & pending & E & G1 & G2 & G3 & G4); [eapply tail_ok_le; [|exact Hok]; done|done|done|lia|].
    exists s', t', w, pending. split_and!; try done. cbn in *; lia.
Qed.
End atomic.
