(* ===== verification/K4Reopen.v ===== *)
(** * The durable store: recovery over what a publication left

    Recovery as a search for the end of the log and the resolution of what is pending;
    over a medium that differs from a recovered one only behind the end of its log, it
    reads the same log and then whatever is there of a publication. *)

From stdpp Require Import gmap.
From S2P Require Import Prelude Bytes Sha256 K4Layout K4Format K4FormatProofs.
From S2P Require Import Effects K4Disk K4Store K4StoreLog K4StorePub.
From S2P Require Import K4StoreProofs K4Staging K4Crash K4PubLog K4Calm K4Replay K4Tail.

#[local] Open Scope N_scope.
#[local] Open Scope act_scope.
Lemma md_read_agree d1 d2 b : d1 !! b = d2 !! b → md_read (mkMedium d1 []) b = md_read (mkMedium d2 []) b.
Proof. intros Hd. unfold md_read. cbn. by rewrite Hd. Qed.
#[local] Opaque hash object_digest record_digest BLOCK OBJECT_MAX PAYLOAD_MAX md_read.

(** ** Recovery up to what is pending *)

(** What [recover] does before it resolves, on a store that is there. *)
Definition reopen `{Outside} {Q} : Act Sys Q (option StoreSuperblock) := call (
  a <- read_superblock geometry.SUPERBLOCK_A_BLOCK;;
  b <- read_superblock geometry.SUPERBLOCK_B_BLOCK;;
  match choose a b with
  | None => go None
  | Some (superblock, slot) =>
      adopt_superblock superblock slot;;;
      replayed <- replay superblock;;
      go (if replayed : bool then Some superblock else None)
  end).

(** The same call in both bodies. *)
Lemma read_anywhere `{Outside} {Q1 Q2} slot_ s :
  (∃ r s', read_superblock (Q := Q1) slot_ s = Go r s' ∧ read_superblock (Q := Q2) slot_ s = Go r s') ∨
  (∃ s', read_superblock (Q := Q1) slot_ s = Bad s' ∧ read_superblock (Q := Q2) slot_ s = Bad s').
Proof. apply call_anywhere. Qed.
Lemma replay_anywhere `{Outside} {Q1 Q2} superblock s :
  (∃ r s', replay (Q := Q1) superblock s = Go r s' ∧ replay (Q := Q2) superblock s = Go r s') ∨
  (∃ s', replay (Q := Q1) superblock s = Bad s' ∧ replay (Q := Q2) superblock s = Bad s').
Proof. apply call_anywhere. Qed.

Lemma recover_reopen `{Outside} {Q} seed s superblock s' :
  reopen (Q := ()) s = Go (Some superblock) s' →
  recover (Q := Q) seed s =
  match resolve_pending (Q := bool) s' with
  | Go true s => Go true (s <| sy_store ::= λ st, st <| st_ready := true |> |>)
  | Go false s => Go false s
  | Early r s => Go r s
  | Bad s => Bad s
  end.
Proof.
  unfold reopen, recover. rewrite !run_call, !run_bind.
  destruct (read_anywhere (Q1 := option StoreSuperblock) (Q2 := bool) geometry.SUPERBLOCK_A_BLOCK s) as [(a & s1 & -> & ->)|(s1 & -> & ->)]; [|done].
  rewrite !run_bind.
  destruct (read_anywhere (Q1 := option StoreSuperblock) (Q2 := bool) geometry.SUPERBLOCK_B_BLOCK s1) as [(b & s2 & -> & ->)|(s2 & -> & ->)]; [|done].
  destruct (choose a b) as [[sb slot_]|]; [|by runs]. unfold adopt_superblock. runs.
  case_option; runs; [|done].
  match goal with |- context [replay sb ?s3] => destruct (replay_anywhere (Q1 := option StoreSuperblock) (Q2 := bool) sb s3)
    as [([] & s4 & -> & ->)|(s4 & -> & ->)] end; [| |done]; runs; [|by intros [=]].
  intros Hs. injection Hs as -> ->. cbn [negb]. runs. destruct (resolve_pending s') as [[] s5|r s5|s5]; by runs.
Qed.

Lemma open_anywhere `{Outside} {Q1 Q2} superblock s :
  (∃ r s', replay_open (Q := Q1) superblock s = Go r s' ∧ replay_open (Q := Q2) superblock s = Go r s') ∨
  (∃ s', replay_open (Q := Q1) superblock s = Bad s' ∧ replay_open (Q := Q2) superblock s = Bad s').
Proof. apply call_anywhere. Qed.

(** ** What is pending is resolved *)

Section atomic.
Context (clock : nat → N).
#[local] Hint Extern 0 Outside => exact (calm clock) : typeclass_instances.

Lemma disk_write_calm block d w b0 image rest :
  ft_latched (w_faults w) = false → w_iobuf w = b0 :: image :: rest →
  (Disk.write block WRITE_SLOT fault_mode.NONE d w).1.1 = true.
Proof.
  intros Hl Hio. unfold Disk.write, Disk.call. cbn [ou_reaches calm negb].
  unfold serve. cbn [dq_op]. rewrite decide_False, decide_True by done.
  change (bounded _) with true. cbn [negb w_faults]. cbn [set_field rebuild World_rebuild w_faults]. rewrite Hl.
  rewrite (write_with_faults_plain block _ b0 image rest) by done.
  unfold transfer. cbn [ou_fate calm]. done.
Qed.

Lemma append_calm {Q} kind body t s :
  unharmed s → tail (sy_store s) = t → tail_ok 1 t → (length body <= RECORD_ROOM)%nat →
  ∃ d s', append (Q := Q) kind body fault_mode.NONE s = Go (Some d) s' ∧ unharmed s' ∧
    standing (sy_store s') = standing (sy_store s) ∧ st_pending (sy_store s') = st_pending (sy_store s).
Proof.
  intros Hu <- Hok Hlen. destruct s as [st w].
  assert (st_next_block st + 1 <= st_arena_start st + st_arena_blocks st) as H5 by exact (to_block _ _ Hok).
  assert (st_next_sequence st + 1 < 2 ^ 64) as H4 by exact (to_sequence _ _ Hok).
  assert (st_arena_start st + st_arena_blocks st < 2 ^ 64) as H6 by exact (to_end _ _ Hok).
  destruct (uh_slots _ Hu) as (b0 & b1 & rest & Hio & Hb1). cbn in Hio. destruct Hu as [Hp Ha Hl Hh _]. cbn in Hp, Ha, Hl, Hh.
  unfold append. rewrite run_call. unfold arena_end, plus. runs. cbn [sy_store]. unfold checked_add. rewrite decide_True by done. runs.
  unfold id. cbn [sy_store]. rewrite bool_decide_false by lia. runs.
  unfold slot. runs. cbn [sy_world]. unfold slot_bytes. rewrite Hio. change (N.to_nat WRITE_SLOT) with 1%nat.
  cbn [lookup list_lookup]. runs. rewrite frame_record_block by done. unfold ok. runs. unfold set_slot. runs.
  set (image := record_image _ body).
  assert (w_iobuf (put_slot WRITE_SLOT image w) = b0 :: image :: rest) as Hio' by (unfold put_slot; cbn; by rewrite Hio).
  unfold disk_write, on_disk. cbn [set_field rebuild Sys_rebuild sy_store sy_world].
  pose proof (disk_write_calm (st_next_block st) (st_disk st) (put_slot WRITE_SLOT image w) b0 image rest Hl Hio') as Hok'.
  pose proof (disk_write_wrote (st_next_block st) (st_disk st) (put_slot WRITE_SLOT image w) b0 image rest Hl Hio') as Hw.
  destruct (Disk.write _ _ _ _ _) as [[wok d'] w']. cbn [fst] in Hok'. subst wok. destruct Hw as [W1 W2 W3 _].
  cbn [negb]. runs. cbn [sy_store set_field rebuild Store_rebuild st_next_block st_next_sequence].
  rewrite decide_True by lia. runs. rewrite decide_True by lia. runs.
  do 2 eexists. split; [done|]. split; [|done]. split; cbn; rewrite ?W1, ?W2; try done.
  exists b0, image, rest. rewrite W3, Hio'. split; [done|]. by apply record_image_len.
Qed.

Lemma disk_flush_calm d w :
  ft_latched (w_faults w) = false → ft_held (w_faults w) = None → (Disk.flush d w).1.1 = true.
Proof.
  intros Hl Hh. unfold Disk.flush, Disk.call. cbn [ou_reaches calm negb].
  unfold serve. cbn [dq_op]. rewrite !decide_False by done. rewrite decide_True by done.
  cbn [set_field rebuild World_rebuild w_faults]. rewrite Hl. unfold release_held.
  cbn [set_field rebuild World_rebuild w_faults]. rewrite Hh. unfold transfer. cbn [ou_fate calm]. done.
Qed.

Lemma flush_calm {Q} s : unharmed s →
  ∃ s', flush (Q := Q) s = Go true s' ∧ unharmed s' ∧
    standing (sy_store s') = standing (sy_store s) ∧ st_pending (sy_store s') = st_pending (sy_store s).
Proof.
  intros [Hp Ha Hl Hh Hs]. destruct s as [st w]. cbn in Hp, Ha, Hl, Hh, Hs. unfold flush. rewrite run_call. runs. cbn [sy_store]. rewrite Ha.
  unfold disk_flush, on_disk. cbn [sy_store sy_world].
  pose proof (disk_flush_flushed (st_disk st) w Hl Hh) as Hf. pose proof (disk_flush_calm (st_disk st) w Hl Hh) as Hok.
  destruct (Disk.flush (st_disk st) w) as [[ok d] w']. cbn [fst] in Hok. subst ok. destruct Hf as [F1 F2 F3 _].
  eexists. split; [done|]. split; [|done]. split; cbn; rewrite ?F1, ?F2, ?F3; done.
Qed.

Lemma resolve_at {Q} m t w pending s :
  at_scan m t w pending s → tail_ok 1 t →
  ∃ s', resolve_pending (Q := Q) s = Go true s' ∧ standing (sy_store s') = w ∧ pd_live (st_pending (sy_store s')) = false.
Proof.
  intros [Hsane Ht Hw Hp] Hok. unfold resolve_pending. rewrite run_call. runs. rewrite Hp.
  destruct (pd_live pending) eqn:Hl; cbn [negb]; runs; [|exists s; by rewrite Hp].
  unfold now_ns, outside. runs. set (body := cd_bytes AbortRecord_codec _).
  match goal with |- context [append record_kind.ABORT body _ ?s0] => set (s1 := s0) end.
  assert (unharmed s1) as Hu1 by (destruct (sn_unharmed _ _ Hsane); by split).
  assert (length body <= RECORD_ROOM)%nat as Hlen.
  { unfold body. rewrite ly_len. change (cd_size AbortRecord_codec) with AbortRecord.SIZE. unfold AbortRecord.SIZE. change RECORD_ROOM with 3968%nat. lia. }
  destruct (append_calm (Q := bool) record_kind.ABORT body t s1 Hu1 Ht Hok Hlen) as (d & s2 & -> & Hu2 & Hs2 & _). runs.
  destruct (flush_calm (Q := bool) s2 Hu2) as (s3 & -> & Hu3 & Hs3 & _). cbn [negb]. runs.
  match goal with |- context [with_principal ?p ?f ?s] => destruct (with_principal_goes (Q := bool) p f s) as [s4 E4];
    pose proof (steady_with_principal (Q := bool) p f s) as H4 end.
  rewrite E4 in H4 |- *. runs. eexists. split; [done|]. split; [|done].
  change (standing (sy_store s4) = w). rewrite <-Hw. transitivity (standing (sy_store s3)); [|by rewrite Hs3, Hs2].
  apply core_parts in H4 as (_ & V & _ & _ & K). cbn [final] in V, K. unfold standing. rewrite V, K.
  destruct (core_parts _ _ (core_record_result (aborted (pd_principal pending) (pd_request_sequence pending)
    (pd_request_digest pending)) ((sy_store s3) <| st_recovery_aborts ::= N.succ |>))) as (_ & V' & _ & _ & K').
  exact (f_equal2 pair V' K').
Qed.

(** ** Recovery up to the scan *)

(** What comes before the scan, of [reopen] and [replay]. *)
Definition opening {Q} : Act Sys Q (option StoreSuperblock) := call (
  a <- read_superblock geometry.SUPERBLOCK_A_BLOCK;;
  b <- read_superblock geometry.SUPERBLOCK_B_BLOCK;;
  match choose a b with
  | None => go None
  | Some (superblock, slot) =>
      adopt_superblock superblock slot;;;
      opened <- replay_open superblock;;
      go (if opened : bool then Some superblock else None)
  end).

Lemma stays_replay_record {R} kind body block : stays (replay_record (Q := R) kind body block).
Proof.
  unfold replay_record, replay_object, replay_prepare, replay_commit, replay_abort, replay_outbox. walk_stays.
Qed.
Lemma stays_load_checkpoint {R} body : stays (load_checkpoint (Q := R) body).
Proof. unfold load_checkpoint. walk_stays. Qed.
Lemma stays_scan {R} fuel : stays (replay_scan (R := R) fuel).
Proof.
  induction fuel as [|fuel IH]; intros s r s'; rewrite scan_turn; cbv zeta.
  all: destruct (checked_add 64 (st_arena_start _) _) as [last|]; [|done]; case_decide; [done|]; try done.
  destruct (parse_record _); [|done]. destruct (negb _); [done|]. case_decide; [|done].
  destruct (checked_add 64 (st_next_block _) _); [|done]. destruct (checked_add 64 (st_next_sequence _) _); [|done].
  match goal with |- context [replay_record ?k ?b ?m ?s] =>
    pose proof (stays_replay_record (R := R) k b m s) as Hst; destruct (replay_record k b m s) as [[] s2|r2 s2|s2] end;
    done.
Qed.

Lemma stays_adopt {R} superblock slot_ : stays (adopt_superblock (R := R) superblock slot_).
Proof. unfold adopt_superblock. walk_stays. Qed.

Definition last_durable (superblock : StoreSuperblock) (st : Store) : Prop :=
  1 <= st_next_sequence st ∧ sb_durable_through_sequence superblock <= st_next_sequence st - 1.

(** [reopen] opens, scans and compares the end of the log with the superblock. *)
Lemma reopen_opens {Q} s superblock s' :
  reopen (Q := Q) s = Go (Some superblock) s' ↔
  ∃ s1, opening (Q := Q) s = Go (Some superblock) s1 ∧
    replay_scan (R := bool) (N.to_nat (st_arena_blocks (sy_store s1))) s1 = Go true s' ∧
    last_durable superblock (sy_store s').
Proof.
  unfold reopen, opening. rewrite !run_call, !run_bind.
  set (R := option StoreSuperblock).
  destruct (read_anywhere (Q1 := R) (Q2 := R) geometry.SUPERBLOCK_A_BLOCK s) as [(a & s1 & -> & _)|(s1 & -> & _)];
    [|split; [by intros [=]|by intros (? & [=] & _)]]. rewrite !run_bind.
  destruct (read_anywhere (Q1 := R) (Q2 := R) geometry.SUPERBLOCK_B_BLOCK s1) as [(b & s2 & -> & _)|(s2 & -> & _)];
    [|split; [by intros [=]|by intros (? & [=] & _)]].
  destruct (choose a b) as [[sb slot_]|]; [|split; [by intros [=]|by intros (? & [=] & _)]].
  rewrite !run_bind. destruct (adopt_superblock sb slot_ s2) as [[] s3|r s3|s3] eqn:Ea; [| |split; [by intros [=]|by intros (? & [=] & _)]].
  2: by destruct (stays_adopt _ _ _ _ _ Ea).
  rewrite !run_bind. unfold replay at 1. rewrite run_call, run_bind.
  destruct (open_anywhere (Q1 := bool) (Q2 := R) sb s3) as [(opened & s4 & -> & ->)|(s4 & -> & ->)];
    [|split; [by intros [=]|by intros (? & [=] & _)]].
  destruct opened; cbn [negb]; [|runs; split; [by intros [=]|by intros (? & [=] & _)]].
  runs. pose proof (stays_scan (R := bool) (N.to_nat (st_arena_blocks (sy_store s4))) s4) as Hscan.
  split.
  - destruct (replay_scan _ s4) as [[] s5|r s5|s5] eqn:E; [|runs; by intros [=]|by destruct (Hscan r s5)|runs; by intros [=]]. cbn [negb]. runs.
    unfold id. cbn [sy_store]. unfold checked_sub. case_decide; runs; [|done]. case_bool_decide; runs; [done|].
    intros Hs. injection Hs as -> ->. exists s4. split; [done|]. split; [done|]. split; [done|lia].
  - intros (s5 & Ho & Hs & Hl & Hd). injection Ho as -> ->. rewrite Hs. cbn [negb]. runs.
    unfold checked_sub. rewrite decide_True by done. runs. rewrite bool_decide_false by lia. by runs.
Qed.

(** Opening leaves the medium alone. *)
Lemma intact_update {R} f : (∀ st, st_harness (f st) = st_harness st) → within intact (update (R := R) f).
Proof. intros Hf s [Hp Ha Hl Hh Hs]. split; [split; cbn; by rewrite ?Hf|done]. Qed.
Lemma intact_quiet {R A} (m : Act Sys R A) : within quiet m → within intact m.
Proof. intros Hm s. apply quiet_intact, Hm. Qed.
Lemma intact_adopt {R} superblock slot_ : within intact (adopt_superblock (R := R) superblock slot_).
Proof. unfold adopt_superblock. repeat walk_step ltac:(apply intact_update; done). Qed.
Lemma intact_opening {Q} : within intact (opening (Q := Q)).
Proof.
  unfold opening, replay_open, plus.
  repeat walk_step ltac:(first [apply intact_adopt|apply intact_update; done|apply intact_quiet; by quiets]).
Qed.
Lemma unstaged_opening {Q} : within unstaged (opening (Q := Q)).
Proof.
  unfold opening, replay_open, load_checkpoint, plus, disk_read. unstaging.
  all: first [apply unstaged_read_superblock|apply unstaged_adopt_superblock].
Qed.

(** The log begins behind its checkpoint. *)
Lemma open_goes {Q} superblock s s' : unharmed s → replay_open (Q := Q) superblock s = Go true s' →
  st_arena_start (sy_store s') = st_arena_start (sy_store s) ∧
  st_arena_start (sy_store s) < st_next_block (sy_store s').
Proof.
  intros Hu. unfold replay_open. rewrite run_call. runs. rewrite read_calm. cbn [negb]. runs. rewrite after_read_slot. runs.
  destruct (parse_record _) as [record|] eqn:Hr; runs; [|by intros [=]].
  apply parse_record_blocks in Hr. unfold id.
  destruct (_ || _); runs; [by intros [=]|].
  match goal with |- context [load_checkpoint ?b ?s] => pose proof (quiet_load_checkpoint (Q := bool) b s) as Hq;
    pose proof (stays_load_checkpoint (R := bool) b s) as Hst;
    destruct (load_checkpoint b s) as [[] s2|r s2|s2] end; cbn [negb]; runs; try by intros [=]; try by destruct (Hst r s2).
  destruct (Hq (unharmed_after_read clock _ _ Hu)) as [Ht _ _ _]. apply (f_equal tl_start) in Ht. cbn in Ht.
  unfold plus, checked_add. case_decide; runs; [|by intros [=]]. case_decide; runs; [|by intros [=]].
  intros [= <-]. cbn. split; [done|lia].
Qed.
(** What is opened over one medium is opened over another that agrees below the end of
    the log. *)
Lemma alike_opening {Q} n s1 s2 superblock s1' :
  sees n s1 s2 → unharmed s1 →
  at_block geometry.SUPERBLOCK_A_BLOCK < n → at_block geometry.SUPERBLOCK_B_BLOCK < n →
  opening (Q := Q) s1 = Go (Some superblock) s1' → st_next_block (sy_store s1') <= n →
  ∃ s2', opening (Q := Q) s2 = Go (Some superblock) s2' ∧ sees n s1' s2' ∧
    st_arena_start (sy_store s1') < st_next_block (sy_store s1').
Proof.
  intros Hs Hu Ha Hb. unfold opening. rewrite !run_call, !run_bind. set (R := option StoreSuperblock).
  pose proof (alike_read_superblock clock (Q := R) n geometry.SUPERBLOCK_A_BLOCK ltac:(by intros ? [= <-]) s1 s2 Hs) as H1.
  pose proof (quiet_intact _ _ (quiet_read_superblock (Q := R) geometry.SUPERBLOCK_A_BLOCK s1) Hu) as [Hu1 _].
  destruct (read_superblock _ s1) as [a σ1|r σ1|σ1]; [|by intros [=]..].
  destruct (read_superblock _ s2) as [a2 σ2|r2 σ2|σ2]; try done. destruct H1 as [<- H1]. cbn [final] in Hu1. rewrite !run_bind.
  pose proof (alike_read_superblock clock (Q := R) n geometry.SUPERBLOCK_B_BLOCK ltac:(by intros ? [= <-]) σ1 σ2 H1) as H2.
  pose proof (quiet_intact _ _ (quiet_read_superblock (Q := R) geometry.SUPERBLOCK_B_BLOCK σ1) Hu1) as [Hu2 _].
  destruct (read_superblock _ σ1) as [b σ3|r σ3|σ3]; [|by intros [=]..].
  destruct (read_superblock _ σ2) as [b2 σ4|r2 σ4|σ4]; try done. destruct H2 as [<- H2]. cbn [final] in Hu2.
  destruct (choose a b) as [[sb slot_]|]; [|by intros [=]]. rewrite !run_bind.
  pose proof (alike_adopt_superblock (R := R) n sb slot_ σ3 σ4 H2) as H3.
  pose proof (intact_adopt (R := R) sb slot_ σ3 Hu2) as [Hu3 _].
  destruct (adopt_superblock sb slot_ σ3) as [[] σ5|r σ5|σ5] eqn:Ea; [|by destruct (stays_adopt _ _ _ _ _ Ea)|by intros [=]].
  destruct (adopt_superblock sb slot_ σ4) as [[] σ6|r2 σ6|σ6]; try done. destruct H3 as [_ H3]. cbn [final] in Hu3. rewrite !run_bind.
  pose proof (open_goes (Q := R) sb σ5) as Hgoes. pose proof (alike_open clock (Q := R) n sb σ5 σ6) as H4.
  destruct (replay_open sb σ5) as [[] σ7|r σ7|σ7] eqn:Eo;
    [|by intros [=]|by destruct (call_no_early _ _ _ _ Eo)|by intros [=]].
  runs. intros E Hn. injection E as -> <-. destruct (Hgoes σ7 Hu3 eq_refl) as [G1 G2]. specialize (H4 ltac:(lia) H3).
  destruct (replay_open superblock σ6) as [o2 σ8|r2 σ8|σ8]; try done. destruct H4 as [<- H4]. runs.
  exists σ8. split_and!; [done|done|by rewrite G1].
Qed.

(** ** The store over a medium *)

(** A store that starts over this medium. *)
Definition boot (d : gmap N (list N)) : Sys := mkSys (Store.new Disk.new) (power_on (mkMedium d [])).

Lemma unharmed_boot d : unharmed (boot d).
Proof. split; try done. by exists zero_block, zero_block, [zero_block; zero_block]. Qed.
Lemma replayable_boot d : replayable (sy_store (boot d)).
Proof. split; [done|]. apply Forall_replicate. split; [done|]. apply Nat.le_0_l. Qed.
Lemma sees_boot n d1 d2 : (∀ b, b < n → d1 !! b = d2 !! b) → sees n (boot d1) (boot d2).
Proof.
  intros Hd. split; try done.
  - intros b Hb. by apply md_read_agree, Hd.
  - intros i e Hi. apply lookup_replicate in Hi as [-> _]. done.
Qed.

Lemma reopen_crash {Q} base d cut superblock σ p request invocation generation records v k :
  reopen (Q := Q) (boot base) = Go (Some superblock) σ →
  let t0 := tail (sy_store σ) in
  standing (sy_store σ) = (v, k) → publication_fits p request invocation generation →
  (∀ b, b < tl_block t0 → base !! b = d !! b) →
  at_block geometry.SUPERBLOCK_A_BLOCK < tl_block t0 → at_block geometry.SUPERBLOCK_B_BLOCK < tl_block t0 →
  tail_ok PUBLICATION_BLOCKS t0 → publication_log t0 p request invocation generation records →
  front cut (mkMedium d []) t0 records →
  ∃ s' t' w pending, reopen (Q := Q) (boot d) = Go (Some superblock) s' ∧
    at_scan (mkMedium d []) t' w pending s' ∧ tail_ok 1 t' ∧
    lands p generation (cut ∨ ¬ closed records) v k w.
Proof.
  intros Hre t0 Hv Hfits Hd Ha Hb Hok Hlog Hf. apply reopen_opens in Hre as (s1 & Ho & Hscan & Hlast).
  set (n := tl_block t0) in *.
  pose proof (intact_opening (Q := Q) (boot base)) as Hi1. pose proof (unstaged_opening (Q := Q) (boot base) (replayable_boot base)) as Hr1.
  rewrite Ho in Hi1, Hr1. destruct (Hi1 (unharmed_boot base)) as [Hu1 _]. cbn [final] in Hu1, Hr1. clear Hi1.
  pose proof (forward_scan clock (R := bool) (N.to_nat (st_arena_blocks (sy_store s1))) s1 Hu1) as Hfw.
  pose proof (unstaged_replay_scan (R := bool) (N.to_nat (st_arena_blocks (sy_store s1))) s1 Hr1) as Hrep.
  rewrite Hscan in Hfw, Hrep. cbn [final] in Hfw, Hrep.
  pose proof (fw_block _ _ Hfw : st_next_block (sy_store s1) <= n) as Hle.
  destruct (alike_opening n (boot base) (boot d) superblock s1 (sees_boot n base d Hd) (unharmed_boot base) Ha Hb Ho Hle)
    as (s2 & Ho2 & Hsees & Hstart).
  pose proof (intact_opening (Q := Q) (boot d)) as Hi2. rewrite Ho2 in Hi2.
  destruct (Hi2 (unharmed_boot d)) as [Hu2 Hm2]. cbn [final] in Hu2, Hm2. clear Hi2.
  destruct (scan_split clock (R := bool) n _ s1 s2 σ Hsees Hu1 Hscan Hle eq_refl)
    as (fuel & σ1 & σ2 & Esplit & Hσ & Hint & Hcore & Hfuel).
  destruct (Hint Hu2) as [Hu3 Hm3].
  apply core_parts in Hcore as (C1 & C2 & C3 & C4 & C5).
  assert (at_scan (mkMedium d []) t0 (v, k) (st_pending (sy_store σ)) σ2) as Hat.
  { rewrite (se_store _ _ _ Hσ) in C1, C2, C3, C4, C5. split; [|done| |done].
    - split; [done|by rewrite Hm3, Hm2|]. destruct Hrep as [R1 R2]. split; by rewrite C4.
    - unfold standing. rewrite C2, C5. exact Hv. }
  assert (1 <= tl_sequence t0) as Hseq by apply Hlast.
  pose proof (to_block _ _ Hok) as Hroom.
  assert (44 < fuel)%nat as H44.
  { pose proof (fw_start _ _ Hfw) as F1. pose proof (fw_blocks _ _ Hfw) as F2. unfold PUBLICATION_BLOCKS in Hroom.
    cbn in Hroom. rewrite F1, F2 in Hroom. change (st_next_block (sy_store σ)) with n in Hroom. lia. }
  destruct (scan_log clock t0 p request invocation generation (R := bool) cut (mkMedium d []) v k _ σ2 fuel records
    Hat Hfits Hseq Hok Hlog Hf H44) as (s' & t' & w & pending & E & G1 & G2 & G3 & G4).
  exists s', t', w, pending. split_and!; try done. apply reopen_opens. exists s2. split; [done|].
  rewrite <-(se_store _ _ _ Hsees), Esplit. split; [done|].
  pose proof (as_tail _ _ _ _ _ G1) as Ht'. apply (f_equal tl_sequence) in Ht'. cbn in Ht'.
  destruct Hlast as [L1 L2]. change (st_next_sequence (sy_store σ)) with (tl_sequence t0) in L1, L2.
  split; rewrite Ht'; lia.
Qed.
End atomic.
