(* ===== verification/K4Atomic.v ===== *)
(** * The durable store: a publication survives a power cut whole

    Recovery over any medium a power cut during a publication can leave: the version
    before or the version published, and nothing pending. *)

From stdpp Require Import gmap.
From S2P Require Import Prelude Bytes Sha256 K4Layout K4Format K4FormatProofs.
From S2P Require Import Effects K4Disk K4Store K4StoreLog K4StorePub.
From S2P Require Import K4StoreProofs K4Staging K4Crash K4PubLog K4Calm K4Replay K4Tail K4Reopen.

#[local] Open Scope N_scope.
Lemma md_read_some d b data : d !! b = Some data → md_read (mkMedium d []) b = data.
Proof. intros Hd. unfold md_read. cbn. by rewrite Hd. Qed.
#[local] Opaque hash object_digest record_digest BLOCK OBJECT_MAX PAYLOAD_MAX md_read.

(** ** What a power cut leaves of a log *)

(** Behind the log no record goes on with its sequence. *)
Definition stale (base : gmap N (list N)) (t : Tail) : Prop := ∀ i r,
  parse_record (md_read (mkMedium base []) (tl_block t + i)) = Some r → rh_sequence (pr_header r) ≠ tl_sequence t + i.

(** A block is as it was, or holds its write, or no record. *)
Definition left_at (base : gmap N (list N)) (writes : list (N * list N)) (d : gmap N (list N)) (b : N) : Prop :=
  d !! b = base !! b ∨
  ∃ data, (b, data) ∈ writes ∧ (d !! b = Some data ∨ ∃ torn, d !! b = Some torn ∧ parse_record torn = None).

Lemma cut_leaves base writes m d b : covered base writes m → power_cut m d → left_at base writes d b.
Proof.
  intros [Hd Hc] Hcut. unfold left_at. destruct (Hcut b) as [->|(data & Hin & H)].
  - destruct (Hd b) as [H|(data & H & Hin)]; [by left|right]. exists data. split; [done|by left].
  - right. exists data. split; [by apply Hc|done].
Qed.

Lemma writes_behind t records b data : (b, data) ∈ writes_of t records → tl_block t <= b.
Proof.
  revert t. induction records as [|[kind body] records IH]; intros t; cbn; [by intros ?%elem_of_nil|].
  intros [[= -> _]|Hin]%elem_of_cons; [done|]. apply IH in Hin. cbn in Hin. lia.
Qed.
Lemma stale_grown base t kind body image :
  stale base t → stale (<[tl_block t := image]> base) (grown t kind body).
Proof.
  intros Hs i r. cbn. rewrite <-!N.add_assoc. intros Hr. apply (Hs (1 + i) r). rewrite <-Hr. f_equal.
  apply md_read_agree. rewrite lookup_insert_ne; [done|lia].
Qed.
Lemma stale_dead base d t : stale base t → d !! tl_block t = base !! tl_block t → dead (mkMedium d []) t.
Proof.
  intros Hs Hd. unfold dead. rewrite (md_read_agree d base _ Hd). specialize (Hs 0). rewrite !N.add_0_r in Hs.
  destruct (parse_record _) as [r|]; [by apply Hs|done].
Qed.

Lemma front_cut base d t records :
  stale base t → (∀ b, tl_block t <= b → left_at base (writes_of t records) d b) → front True (mkMedium d []) t records.
Proof.
  revert base t. induction records as [|[kind body] records IH]; intros base t Hs Hd; cbn [front].
  { apply (stale_dead base); [done|]. destruct (Hd (tl_block t) ltac:(lia)) as [H|(data & []%elem_of_nil & _)]. done. }
  destruct (Hd (tl_block t) ltac:(lia)) as [H|(data & Hin & H)]; [left; split; [done|by apply (stale_dead base)]|].
  cbn [writes_of] in Hin. apply elem_of_cons in Hin as [[= ->]|Hin%writes_behind]; [|cbn in Hin; lia].
  destruct H as [H|(torn & H & Htorn)].
  - right. split; [by apply md_read_some|]. apply (IH (<[tl_block t := image_of t kind body]> base)); [by apply stale_grown|].
    intros b Hb. cbn in Hb.
    destruct (Hd b ltac:(lia)) as [H'|(data & Hin & H')]; [left; rewrite lookup_insert_ne by lia; done|right].
    cbn [writes_of] in Hin. apply elem_of_cons in Hin as [[= -> _]|Hin]; [lia|]. by exists data.
  - left. split; [done|]. unfold dead. by rewrite (md_read_some d _ torn), Htorn.
Qed.

Lemma front_whole base d t records :
  stale base t → (∀ b, d !! b = apply_writes (writes_of t records) base !! b) → front False (mkMedium d []) t records.
Proof.
  revert base t. induction records as [|[kind body] records IH]; intros base t Hs Hd; cbn [front].
  { by apply (stale_dead base). }
  right. split.
  - apply md_read_some. rewrite Hd. cbn [writes_of]. change (apply_writes (?w :: ?ws) base) with (apply_writes ws (<[w.1 := w.2]> base)).
    cbn [fst snd]. destruct (apply_writes_lookup (writes_of (grown t kind body) records) (<[tl_block t := image_of t kind body]> base) (tl_block t))
      as [->|(data & _ & Hin%writes_behind)]; [by rewrite lookup_insert_eq|cbn in Hin; lia].
  - apply (IH (<[tl_block t := image_of t kind body]> base)); [by apply stale_grown|]. exact Hd.
Qed.

(** ** The crash theorem *)

(** A store at rest over a durable medium: recovery without faults finds this log and
    this version there, behind the superblocks and with room for a publication, and
    the blocks behind the log hold nothing that goes on with it. *)
Record resting (clock : nat → N) (base : gmap N (list N)) (s0 σ : Sys) : Prop := {
  rs_unharmed : unharmed s0;
  rs_staging : staging_wf (sy_store s0);
  rs_medium : w_medium (sy_world s0) = mkMedium base [];
  rs_reopen : ∃ superblock, reopen (H := calm clock) (Q := ()) (boot base) = Go (Some superblock) σ;
  rs_tail : tail (sy_store σ) = tail (sy_store s0);
  rs_version : version (sy_store σ) = version (sy_store s0);
  rs_behind : at_block geometry.SUPERBLOCK_A_BLOCK < tl_block (tail (sy_store s0)) ∧
              at_block geometry.SUPERBLOCK_B_BLOCK < tl_block (tail (sy_store s0));
  rs_room : tail_ok PUBLICATION_BLOCKS (tail (sy_store s0));
  rs_stale : stale base (tail (sy_store s0))
}.

(** Recovery without faults over [d] ends in a store of which [P] holds, with nothing
    pending. *)
Definition recovers (clock : nat → N) (seed : N) (d : gmap N (list N)) (P : Store → Prop) : Prop :=
  ∃ s, recover (H := calm clock) (Q := ()) seed (boot d) = Go true s ∧
    pd_live (st_pending (sy_store s)) = false ∧ P (sy_store s).

Lemma recovers_front cut clock seed base s0 σ p request invocation records d :
  resting clock base s0 σ → publication_fits p request invocation (st_published_generation (sy_store s0)) →
  (∀ b, b < tl_block (tail (sy_store s0)) → base !! b = d !! b) →
  publication_log (tail (sy_store s0)) p request invocation (st_published_generation (sy_store s0)) records →
  front cut (mkMedium d []) (tail (sy_store s0)) records →
  recovers clock seed d (λ st,
    lands p (st_published_generation (sy_store s0)) (cut ∨ ¬ closed records) (version (sy_store s0))
      (st_dependency_missing (sy_store σ)) (standing st)).
Proof.
  intros [R1 R2 R3 [superblock R4] R5 R6 [R7 R7'] R8 R9] Hfits Hd Hlog Hf. rewrite <-R5 in *.
  destruct (reopen_crash clock base d cut superblock σ p request invocation
    (st_published_generation (sy_store s0)) records (version (sy_store s0))
    (st_dependency_missing (sy_store σ)) R4) as (s' & t' & w & pending & E & G1 & G2 & G3); try done.
  { unfold standing. by rewrite R6. }
  destruct (resolve_at clock (Q := bool) _ t' w pending s' G1 G2) as (s2 & E2 & E3 & E4).
  eexists. split; [by rewrite (recover_reopen seed _ superblock s' E), E2|]. split; [done|].
  change (standing _) with (standing (sy_store s2)). by rewrite E3.
Qed.

(** Every medium of a part of the log is recovered to the old version or the new one. *)
Lemma recovers_cut clock seed base s0 σ p request invocation records m d :
  resting clock base s0 σ → publication_fits p request invocation (st_published_generation (sy_store s0)) →
  publication_log (tail (sy_store s0)) p request invocation (st_published_generation (sy_store s0)) records →
  covered base (writes_of (tail (sy_store s0)) records) m → power_cut m d →
  recovers clock seed d (λ st, version st = version (sy_store s0) ∨
    version st = (st_published_generation (sy_store s0) + 1, pb_candidate_root p)).
Proof.
  intros Hr Hfits Hlog Hm Hd. pose proof (λ b, cut_leaves base _ m d b Hm Hd) as Hleft.
  destruct (recovers_front True clock seed base s0 σ p request invocation records d Hr Hfits) as (s & E & Hp & Hl).
  - intros b Hb. destruct (Hleft b) as [H|(data & Hin%writes_behind & _)]; [done|lia].
  - done.
  - apply (front_cut base); [apply Hr|]. intros b _. apply Hleft.
  - exists s. split; [done|]. split; [done|]. unfold lands, standing in Hl.
    destruct Hl as [[_ Hl]|[Hl|Hl]]; [left|left|right]; exact (f_equal fst Hl).
Qed.

Section publication.
Context `{Outside} (log_cells : nat) (p : Publication) (request : list N) (invocation : N)
  (clock : nat → N) (seed : N) (base : gmap N (list N)) (s0 σ : Sys).

End publication.

(** ** A store freshly formatted, one object staged, and its publication *)

Module Example.
Definition clock (turn : nat) : N := N.of_nat turn.
Definition content : list N := [104; 101; 108; 108; 111].
Definition root : list N := object_digest object_type.BYTES content.
Definition operations : list StoreOp := [Recover 7; Stage object_type.BYTES content].
Definition rested : Sys := perform_ops (H := calm clock) 0 operations (boot ∅).
Definition base : gmap N (list N) := md_durable (w_medium (sy_world rested)).
Definition found : Sys := final (reopen (H := calm clock) (Q := ()) (boot base)).
Definition asked : Publication := mkPublication 1 1 0 root no_digest no_digest 0 no_digest.
End Example.

(** Whether a call went on with a value. *)
Definition answers {A} (r : Step Sys () (option A)) : bool := match r with Go (Some _) _ => true | _ => false end.
Lemma answers_some {A} (r : Step Sys () (option A)) : answers r = true → ∃ a, r = Go (Some a) (final r).
Proof. destruct r as [[a|] s|r s|s]; try done. intros _. by exists a. Qed.

Lemma example_stale : stale Example.base (tail (sy_store Example.rested)).
Proof.
  assert (map_Forall (λ b _, b < 67) Example.base) as Hb by (apply (bool_decide_unpack _); by vm_compute).
  assert (tl_block (tail (sy_store Example.rested)) = 67) as Ht by by vm_compute.
  intros i r. rewrite Ht. enough (Example.base !! (67 + i) = None) as Hi.
  - rewrite (md_read_agree Example.base ∅ _) by (by rewrite Hi, lookup_empty). by vm_compute.
  - destruct (Example.base !! (67 + i)) eqn:E; [|done]. apply Hb in E. lia.
Qed.

Lemma example_rests : resting Example.clock Example.base Example.rested Example.found.
Proof.
  split.
  - split; [by vm_compute..|]. exists zero_block. eexists _, _. split; [by vm_compute|by vm_compute].
  - exact (perform_ops_stages (H := calm Example.clock) 0 Example.operations (boot ∅) (store_new_staging Disk.new)).
  - by vm_compute.
  - unfold Example.found. refine (answers_some (reopen (H := calm Example.clock) (Q := ()) (boot Example.base)) _). by vm_compute.
  - by vm_compute.
  - by vm_compute.
  - by vm_compute.
  - split; [by vm_compute..| |by vm_compute|by vm_compute|by vm_compute].
    split; [by vm_compute|]. by apply (bool_decide_unpack _); vm_compute.
  - apply example_stale.
Qed.

(** Whether it was answered with this generation. *)
Definition published_as {X Y} (generation : N) (r : Step Sys () (X + N * Y)) : bool :=
  match r with Go (inr (g, _)) _ => bool_decide (g = generation) | _ => false end.
Lemma published_as_eq {X Y} generation (r : Step Sys () (X + N * Y)) :
  published_as generation r = true → ∃ y, r = Go (inr (generation, y)) (final r).
Proof. destruct r as [[x|[g y]] s|r s|s]; try done. intros ->%bool_decide_eq_true. by exists y. Qed.

Lemma example_fits : publication_fits Example.asked (request_of Example.asked) 1 0.
Proof.
  split; [|by vm_compute]. cbn. split_and!; try done; try (by vm_compute); apply (bool_decide_unpack _); by vm_compute.
Qed.

