(* ===== verification/Leads.v ===== *)
(** * What eventually happens

    Runs of several processors whose steps interleave, and the leads-to relation of
    their states with the rules that establish it: a helpful processor that is always
    scheduled again, a condition that does not last, a measure that goes down. A run is
    a function of the step's number. *)

From S2P Require Import Prelude.

#[local] Open Scope nat_scope.

Section leads.
Context {S : Type} (step : N → S → S → Prop).

(** A run: who moves at each step, and the states. *)
Record Run := mkRun { mover : nat → N; at_step : nat → S }.
Definition is_run (r : Run) : Prop := ∀ t, step (mover r t) (at_step r t) (at_step r (Datatypes.S t)).
(** A processor is always scheduled again. *)
Definition scheduled (r : Run) (i : N) : Prop := ∀ t, ∃ t', t <= t' ∧ mover r t' = i.
(** A condition never lasts for ever. *)
Definition passes (r : Run) (P : S → Prop) : Prop := ∀ t, ∃ t', t <= t' ∧ ¬ P (at_step r t').

Implicit Types (P Q B : S → Prop).

Section one.
Context (r : Run) (Hr : is_run r) (inv : S → Prop) (Hinv : ∀ t, inv (at_step r t)).

Definition leads (P Q : S → Prop) : Prop :=
  ∀ t, P (at_step r t) → ∃ t', t <= t' ∧ Q (at_step r t').

(** Every step from [P] leaves [P] or [Q]. *)
Definition unless (P Q : S → Prop) : Prop := ∀ i s s', inv s → step i s s' → P s → P s' ∨ Q s'.

Lemma leads_now P Q : (∀ s, inv s → P s → Q s) → leads P Q.
Proof. intros H t HP. exists t. split; [done|]. by apply H. Qed.
Lemma leads_trans P B Q : leads P B → leads B Q → leads P Q.
Proof.
  intros H1 H2 t HP. destruct (H1 t HP) as (t1 & Ht1 & HB). destruct (H2 t1 HB) as (t2 & Ht2 & HQ).
  exists t2. split; [lia|done].
Qed.
Lemma leads_mono P P' Q Q' :
  (∀ s, inv s → P' s → P s) → (∀ s, inv s → Q s → Q' s) → leads P Q → leads P' Q'.
Proof.
  intros HP HQ H t HPt. destruct (H t) as (t' & Ht & HQt); [by apply HP|].
  exists t'. split; [done|]. by apply HQ.
Qed.
Lemma leads_or P P' Q : leads P Q → leads P' Q → leads (λ s, P s ∨ P' s) Q.
Proof. intros H H' t [HP|HP]; [by apply H|by apply H']. Qed.

(** Until a later moment, [P] holds unless [Q] came first. *)
Lemma unless_until P Q t n :
  unless P Q → P (at_step r t) →
  P (at_step r (t + n)) ∨ ∃ t', t <= t' <= t + n ∧ Q (at_step r t').
Proof.
  intros HU HP. induction n as [|n [HPn|(t' & Ht & HQ)]].
  - left. by rewrite Nat.add_0_r.
  - rewrite Nat.add_succ_r. destruct (HU _ _ _ (Hinv _) (Hr (t + n)) HPn) as [H|H]; [by left|].
    right. exists (Datatypes.S (t + n)). split; [lia|done].
  - right. exists t'. split; [lia|done].
Qed.

(** A processor that is always scheduled again, each of whose steps from [P] reaches
    [Q]. *)
Lemma leads_helpful i P Q :
  scheduled r i → unless P Q → (∀ s s', inv s → step i s s' → P s → Q s') → leads P Q.
Proof.
  intros Hi HU Hhelp t HP. destruct (Hi t) as (t' & Ht & Hm).
  destruct (unless_until P Q t (t' - t) HU HP) as [HP'|(u & Hu & HQ)].
  - replace (t + (t' - t)) with t' in HP' by lia. exists (Datatypes.S t'). split; [lia|].
    apply (Hhelp (at_step r t')); [done| |done]. rewrite <-Hm. apply Hr.
  - exists u. split; [lia|done].
Qed.
(** What does not last, and is left only for [Q]. *)
Lemma leads_passing P Q : passes r P → unless P Q → leads P Q.
Proof.
  intros Hp HU t HP. destruct (Hp t) as (t' & Ht & Hn).
  destruct (unless_until P Q t (t' - t) HU HP) as [HP'|(u & Hu & HQ)].
  - by replace (t + (t' - t)) with t' in HP' by lia.
  - exists u. split; [lia|done].
Qed.
(** What holds besides, until something else does. *)
Lemma leads_beside P Q B C :
  leads P Q → unless B C → leads (λ s, P s ∧ B s) (λ s, (Q s ∧ B s) ∨ C s).
Proof.
  intros H HU t [HP HB]. destruct (H t HP) as (t' & Ht & HQ).
  destruct (unless_until B C t (t' - t) HU HB) as [HB'|(u & Hu & HC)].
  - replace (t + (t' - t)) with t' in HB' by lia. exists t'. split; [done|]. by left.
  - exists u. split; [lia|]. by right.
Qed.
(** A measure that goes down until [Q]. *)
Lemma leads_measure (m : S → nat) P Q :
  (∀ k, leads (λ s, P s ∧ m s = k) (λ s, Q s ∨ (P s ∧ m s < k))) → leads P Q.
Proof.
  intros H t. remember (m (at_step r t)) as k eqn:Hk. revert t Hk.
  induction (lt_wf k) as [k _ IH]. intros t Hk HP.
  destruct (H k t) as (t1 & Ht1 & [HQ|[HP1 Hm]]); [done|by exists t1|].
  destruct (IH _ Hm t1 eq_refl HP1) as (t2 & Ht2 & HQ). exists t2. split; [lia|done].
Qed.
End one.
End leads.
Arguments Run : clear implicits.
