(* ===== verification/Sync.v ===== *)
(** * The locks

    [kernel/src/sync.rs], one instruction of one processor at a time: the test-and-set
    cell, and the lock of the machine that hot paths hold shared and the control plane
    exclusive. The instructions both handshakes rest on are sequentially consistent in
    the code, so a state is what memory holds and where each processor is. Statistics,
    and the invalidations a waiting processor services, are left out. *)

From S2P Require Import Prelude Obj Scope Leads.

#[local] Open Scope N_scope.

Module SpinLock.
(** Where a processor is with the cell. *)
(** kernel/src/sync.rs:177-232 [SpinLock::lock and SpinLock::try_lock, between instructions] *)
Inductive Pc := Outside | Trying | Retrying | Looking | Holding.
#[global] Instance Pc_eq_dec : EqDecision Pc.
Proof. solve_decision. Defined.

(** kernel/src/sync.rs:143-149 [SpinLock] *)
Record SpinLock := mkSpinLock { held : N; pcs : list Pc }.

(** What a processor between holds, or in one, does next. *)
Inductive Wish := Stay | Lock | TryLock | Leave.

Definition at_pc (i : N) (pc : Pc) (held : N) (s : SpinLock) : SpinLock := mkSpinLock held (<[i := pc]> (pcs s)).

(** The exchange from clear to set: whether it succeeds, and the cell after it. The weak
    form fails, as on this architecture, only when the cell is set. *)
(** kernel/src/sync.rs:180-184 [SpinLock::lock, the exchange] *)
Definition exchange (h : N) : bool * N := if decide (h = 0) then (true, 1) else (false, h).
(** kernel/src/sync.rs:177-220 [SpinLock::lock] *)
Definition lock (i : N) (pc : Pc) (s : SpinLock) : SpinLock :=
  match pc with
  | Trying => let '(won, h) := exchange (held s) in at_pc i (if won : bool then Holding else Retrying) h s
  | Retrying => let '(won, h) := exchange (held s) in at_pc i (if won : bool then Holding else Looking) h s
  | Looking => if decide (held s = 0) then at_pc i Retrying (held s) s else s
  | Outside | Holding => s
  end.
(** kernel/src/sync.rs:228-233 [SpinLock::try_lock] *)
Definition try_lock (i : N) (s : SpinLock) : SpinLock :=
  let '(won, h) := exchange (held s) in at_pc i (if won : bool then Holding else Outside) h s.
(** kernel/src/sync.rs:298-300 [SpinGuard::drop] *)
Definition drop (i : N) (s : SpinLock) : SpinLock := at_pc i Outside 0 s.

(** One instruction of processor [i]. *)
Definition move (i : N) (wish : Wish) (s : SpinLock) : SpinLock :=
  match pcs s !! i with
  | None => s
  | Some Outside =>
      match wish with
      | Lock => at_pc i Trying (held s) s
      | TryLock => try_lock i s
      | Stay | Leave => s
      end
  | Some Holding => match wish with Leave => drop i s | _ => s end
  | Some pc => lock i pc s
  end.
Definition step (i : N) (s s' : SpinLock) : Prop := ∃ wish, s' = move i wish s.
(** kernel/src/sync.rs:164-170 [SpinLock::of_class] *)
Definition new : SpinLock := mkSpinLock 0 (replicate (N.to_nat MAX_CPUS) Outside).
End SpinLock.

Module BrLock.
(** Where a processor is with the lock: in [read], in [write], or a guard's drop. *)
(** kernel/src/sync.rs:359-483 [BrLock::read, BrLock::write and the guards, between
    instructions] *)
Inductive Pc :=
| Outside
| ReadStore | ReadLoad | ReadWithdraw | ReadWait | Shared
| WriteTicket | WriteTurn (ticket : N) | WriteExclude | WriteDrain (reader : N) | Exclusive | WriteServe.
#[global] Instance Pc_eq_dec : EqDecision Pc.
Proof. solve_decision. Defined.

(** kernel/src/sync.rs:328-336 [BrLock] *)
Record BrLock := mkBrLock {
  next : N;
  serving : N;
  excluding : N;
  readers : list N;
  pcs : list Pc
}.
#[global] Instance BrLock_rebuild : Rebuild BrLock := λ s,
  mkBrLock (next s) (serving s) (excluding s) (readers s) (pcs s).

(** What a processor between holds, or in one, does next. *)
Inductive Wish := Stay | Read | Write | Leave.

Definition at_pc (i : N) (pc : Pc) (s : BrLock) : BrLock := s <| pcs ::= <[i := pc]> |>.
Definition raise (i value : N) (s : BrLock) : BrLock := s <| readers ::= <[i := value]> |>.

(** kernel/src/sync.rs:359-393 [BrLock::read] *)
Definition read (i : N) (pc : Pc) (s : BrLock) : BrLock :=
  match pc with
  | ReadStore => at_pc i ReadLoad (raise i 1 s)
  | ReadLoad => at_pc i (if decide (excluding s = 0) then Shared else ReadWithdraw) s
  | ReadWithdraw => at_pc i ReadWait (raise i 0 s)
  | ReadWait => if decide (excluding s = 0) then at_pc i ReadStore s else s
  | _ => s
  end.
(** kernel/src/sync.rs:396-432 [BrLock::write] *)
Definition write (i : N) (pc : Pc) (s : BrLock) : BrLock :=
  match pc with
  | WriteTicket => at_pc i (WriteTurn (next s)) (s <| next ::= λ n, wrapping_add 32 n 1 |>)
  | WriteTurn ticket => if decide (serving s = ticket) then at_pc i WriteExclude s else s
  | WriteExclude => at_pc i (WriteDrain 0) (s <| excluding := 1 |>)
  | WriteDrain reader =>
      match readers s !! reader with
      | None => at_pc i Exclusive s
      | Some 0 => at_pc i (WriteDrain (reader + 1)) s
      | Some _ => s
      end
  | _ => s
  end.
(** kernel/src/sync.rs:454-456 [ReadGuard::drop] *)
Definition read_drop (i : N) (s : BrLock) : BrLock := at_pc i Outside (raise i 0 s).
(** kernel/src/sync.rs:480-483 [WriteGuard::drop] *)
Definition write_drop (i : N) (pc : Pc) (s : BrLock) : BrLock :=
  match pc with
  | Exclusive => at_pc i WriteServe (s <| excluding := 0 |>)
  | WriteServe => at_pc i Outside (s <| serving ::= λ n, wrapping_add 32 n 1 |>)
  | _ => s
  end.

(** One instruction of processor [i]. *)
Definition move (i : N) (wish : Wish) (s : BrLock) : BrLock :=
  match pcs s !! i with
  | None => s
  | Some Outside =>
      match wish with Read => at_pc i ReadStore s | Write => at_pc i WriteTicket s | Stay | Leave => s end
  | Some Shared => match wish with Leave => read_drop i s | _ => s end
  | Some Exclusive => match wish with Leave => write_drop i Exclusive s | _ => s end
  | Some WriteServe => write_drop i WriteServe s
  | Some ((ReadStore | ReadLoad | ReadWithdraw | ReadWait) as pc) => read i pc s
  | Some pc => write i pc s
  end.
Definition step (i : N) (s s' : BrLock) : Prop := ∃ wish, s' = move i wish s.

(** kernel/src/sync.rs:348-356 [BrLock::new] *)
Definition new : BrLock := {|
  next := 0;
  serving := 0;
  excluding := 0;
  readers := replicate (N.to_nat MAX_CPUS) 0;
  pcs := replicate (N.to_nat MAX_CPUS) Outside
|}.
End BrLock.
