(* ===== verification/SyncProofs.v ===== *)
(** * What the locks guarantee

    Mutual exclusion of both locks under any interleaving of their instructions, and
    that an exclusive hold, once asked for, is had: in the order of the tickets, whatever
    the shared holders do, as long as every processor is scheduled and holds end. *)

From S2P Require Import Prelude Obj Scope Leads Sync.

#[local] Open Scope N_scope.

Module SpinProofs.
Import SpinLock.

(** The cell is set exactly while one processor holds it. *)
Definition spin_inv (s : SpinLock) : Prop :=
  (held s = 0 ∧ ∀ i, pcs s !! i ≠ Some Holding) ∨
  (held s ≠ 0 ∧ ∃ h, ∀ i, pcs s !! i = Some Holding ↔ i = h).

Lemma at_pc_lookup i pc h s j :
  pcs (at_pc i pc h s) !! j = if decide (i = j ∧ j < tlen (pcs s)) then Some pc else pcs s !! j.
Proof. apply table_insert. Qed.

(** A processor that does not hold the cell goes where it does not hold it either. *)
Lemma spin_aside i pc pc' s :
  spin_inv s → pcs s !! i = Some pc → pc ≠ Holding → pc' ≠ Holding → spin_inv (at_pc i pc' (held s) s).
Proof.
  intros Hs Hi H H'. assert (Hlook : ∀ j, pcs (at_pc i pc' (held s) s) !! j = Some Holding ↔ pcs s !! j = Some Holding).
  { intros j. rewrite at_pc_lookup. case_decide as Hd; [|done]. destruct Hd as [-> _]. rewrite Hi. naive_solver. }
  destruct Hs as [[Hh Hn]|[Hh [h Hn]]]; [left|right]; (split; [done|]).
  - intros j. rewrite Hlook. apply Hn.
  - exists h. intros j. by rewrite Hlook.
Qed.
(** The exchange that wins. *)
Lemma spin_won i pc s : spin_inv s → pcs s !! i = Some pc → held s = 0 → spin_inv (at_pc i Holding 1 s).
Proof.
  intros [[_ Hn]|[]] Hi Hz; [|done]. right. split; [done|]. exists i. intros j. rewrite at_pc_lookup.
  case_decide as Hd; [naive_solver|]. split; [intros H; by apply Hn in H|intros ->].
  destruct Hd. split; [done|]. by eapply table_lookup_lt.
Qed.
Lemma spin_exchange i pc pc' s :
  spin_inv s → pcs s !! i = Some pc → pc ≠ Holding → pc' ≠ Holding →
  spin_inv (let '(won, h) := exchange (held s) in at_pc i (if won : bool then Holding else pc') h s).
Proof.
  intros Hs Hi H H'. unfold exchange. case_decide; [by eapply spin_won|by eapply spin_aside].
Qed.
Lemma spin_step i s s' : step i s s' → spin_inv s → spin_inv s'.
Proof.
  intros [wish ->] Hs. unfold move. destruct (pcs s !! i) as [[]|] eqn:Hi; [..|done].
  - destruct wish; [done|by eapply spin_aside|by eapply spin_exchange|done].
  - by eapply spin_exchange.
  - by eapply spin_exchange.
  - cbn. case_decide; [by eapply spin_aside|done].
  - destruct wish; [done..|]. destruct Hs as [[_ Hn]|[_ [h Hn]]]; [by apply Hn in Hi|]. left. split; [done|].
    intros j. unfold drop. rewrite at_pc_lookup. case_decide as Hd; [done|]. rewrite Hn. intros ->.
    apply Hn in Hi as ->. apply Hd. split; [done|]. by eapply table_lookup_lt, Hn.
Qed.
Lemma spin_reach s : rtc (λ s s', ∃ i, step i s s') new s → spin_inv s.
Proof.
  intros H. cut (∀ s0, rtc (λ s s', ∃ i, step i s s') s0 s → spin_inv s0 → spin_inv s).
  { intros H'. apply (H' new); [done|]. left. split; [done|]. intros i Hi.
    by apply lookup_replicate_1 in Hi as [? _]. }
  intros s0 Hr. induction Hr as [|s0 s1 s2 [i Hi] _ IH]; [done|]. intros H0. by eapply IH, spin_step.
Qed.
End SpinProofs.

Module BrProofs.
Import BrLock.

(** Whether the processor's count is up, whether it keeps shared holds out, and what it
    may still do to its count while they are kept out. *)
Definition raised (pc : Pc) : bool := match pc with ReadLoad | ReadWithdraw | Shared => true | _ => false end.
Definition closes (pc : Pc) : bool := match pc with WriteDrain _ | Exclusive => true | _ => false end.
Definition rank (pc : Pc) : nat :=
  match pc with
  | Shared => 5 | Outside => 4 | ReadStore | WriteTicket => 3 | ReadLoad => 2 | ReadWithdraw => 1 | _ => 0
  end.

(** The place of a processor in the line of those with a ticket, oldest first. *)
Definition placed (first : N) (q : list N) (i : N) (pc : Pc) : Prop :=
  match pc with
  | WriteTurn ticket => ∃ k, q !! k = Some i ∧ ticket = wrapping_add 32 first (N.of_nat k)
  | WriteExclude | WriteDrain _ | Exclusive | WriteServe => head q = Some i
  | _ => i ∉ q
  end.

(** Where the processor at the head of the line is. *)
Definition front (q : list N) (s : BrLock) : option Pc := head q ≫= λ w, pcs s !! w.

Record br_inv (n : N) (q : list N) (s : BrLock) : Prop := {
  br_sizes : tlen (pcs s) = n ∧ tlen (readers s) = n ∧ n < 2 ^ 32;
  br_line : NoDup q ∧ (∀ i, i ∈ q → i < n) ∧ serving s < 2 ^ 32 ∧ next s = wrapping_add 32 (serving s) (tlen q);
  br_placed i pc : pcs s !! i = Some pc → placed (serving s) q i pc;
  br_counts i pc : pcs s !! i = Some pc → readers s !! i = Some (if raised pc then 1 else 0);
  br_flag : excluding s = if from_option closes false (front q s) then 1 else 0;
  br_drained w r i : pcs s !! w = Some (WriteDrain r) → i < r → pcs s !! i ≠ Some Shared;
  br_alone w i : pcs s !! w = Some Exclusive → pcs s !! i ≠ Some Shared
}.

Lemma closes_first first q i pc : placed first q i pc → closes pc = true → head q = Some i.
Proof. by destruct pc. Qed.
Lemma closing n q s w pc : br_inv n q s → pcs s !! w = Some pc → closes pc = true → excluding s = 1.
Proof.
  intros I Hw Hc. rewrite (br_flag _ _ _ I). unfold front.
  rewrite (closes_first _ _ _ _ (br_placed _ _ _ I w pc Hw) Hc). cbn. by rewrite Hw; cbn; rewrite Hc.
Qed.
Lemma open_none n q s w pc : br_inv n q s → excluding s = 0 → pcs s !! w = Some pc → closes pc = false.
Proof.
  intros I H0 Hw. destruct (closes pc) eqn:Hc; [|done]. pose proof (closing n q s w pc I Hw Hc). congruence.
Qed.

(** One processor moves. *)
Section change.
Context (n : N) (q q' : list N) (s s' : BrLock) (i : N) (pc pc' : Pc).

Lemma br_change :
  br_inv n q s → pcs s !! i = Some pc → pcs s' = <[i := pc']> (pcs s) →
  tlen (readers s') = tlen (readers s) → readers s' !! i = Some (if raised pc' then 1 else 0) →
  (∀ j, j ≠ i → readers s' !! j = readers s !! j) →
  NoDup q' ∧ (∀ j, j ∈ q' → j < n) ∧ serving s' < 2 ^ 32 ∧ next s' = wrapping_add 32 (serving s') (tlen q') →
  placed (serving s') q' i pc' →
  (∀ j p, j ≠ i → placed (serving s) q j p → placed (serving s') q' j p) →
  excluding s' = (if from_option closes false (front q' s') then 1 else 0) →
  (pc' = Shared → pc = Shared ∨ excluding s = 0) →
  (∀ r, pc' = WriteDrain r → ∀ j, j < r → pcs s !! j ≠ Some Shared) →
  (pc' = Exclusive → ∀ j, pcs s !! j ≠ Some Shared) →
  br_inv n q' s'.
Proof.
  intros I Hi Hpcs Hlen Hri Hrj Hline Hpi Hpj Hflag Hsh Hdr Hex.
  assert (Hat : ∀ j, pcs s' !! j = if decide (i = j) then Some pc' else pcs s !! j).
  { intros j. rewrite Hpcs, table_insert. repeat case_decide; try done; [naive_solver|].
    subst. exfalso. apply H. split; [done|]. by eapply table_lookup_lt. }
  assert (Hclosed : ∀ w p, w ≠ i → pcs s !! w = Some p → closes p = true → pc' = Shared → pc = Shared).
  { intros w p _ Hw Hc [?|H0]%Hsh; [done|]. by rewrite (open_none n q s w p I H0 Hw) in Hc. }
  split.
  - destruct (br_sizes _ _ _ I) as (H1 & H2 & H3). rewrite Hpcs, tlen_insert. repeat split; congruence.
  - done.
  - intros j p. rewrite Hat. case_decide as Hd; [intros [= <-]; by subst j|]. intros Hj.
    apply Hpj; [congruence|]. by apply (br_placed _ _ _ I).
  - intros j p. rewrite Hat. case_decide as Hd; [intros [= <-]; by subst j|]. intros Hj.
    rewrite Hrj by congruence. by apply (br_counts _ _ _ I).
  - done.
  - intros w r j. rewrite !Hat. case_decide as Hd.
    + intros [= ->] Hr. case_decide; [done|]. by apply (Hdr r).
    + intros Hw Hr. case_decide as Hd'; [subst j; intros [= ->]|by eapply (br_drained _ _ _ I)].
      eapply (br_drained _ _ _ I w r i); [done..|]. rewrite Hi. f_equal. by eapply (Hclosed w).
  - intros w j. rewrite !Hat. case_decide as Hd.
    + intros [= ->]. case_decide; [done|]. by apply Hex.
    + intros Hw. case_decide as Hd'; [subst j; intros [= ->]|by eapply (br_alone _ _ _ I)].
      eapply (br_alone _ _ _ I w i); [done..|]. rewrite Hi. f_equal. by eapply (Hclosed w).
Qed.
End change.

(** A move that leaves the line and the flag alone. *)
Lemma br_quiet n q s s' i pc pc' :
  br_inv n q s → pcs s !! i = Some pc → pcs s' = <[i := pc']> (pcs s) →
  next s' = next s → serving s' = serving s → excluding s' = excluding s →
  tlen (readers s') = tlen (readers s) → readers s' !! i = Some (if raised pc' then 1 else 0) →
  (∀ j, j ≠ i → readers s' !! j = readers s !! j) →
  placed (serving s) q i pc' → closes pc' = closes pc →
  (pc' = Shared → pc = Shared ∨ excluding s = 0) →
  (∀ r, pc' = WriteDrain r → ∀ j, j < r → pcs s !! j ≠ Some Shared) →
  (pc' = Exclusive → ∀ j, pcs s !! j ≠ Some Shared) → br_inv n q s'.
Proof.
  intros I Hi Hp Hn Hs He. intros. eapply br_change; try done; rewrite ?Hn, ?Hs; try done; [apply (br_line _ _ _ I)|].
  rewrite He, (br_flag _ _ _ I). unfold front. destruct (head q) as [w|]; [|done]. cbn. rewrite Hp.
  destruct (decide (w = i)) as [->|]; [|by rewrite table_insert_ne].
  rewrite table_insert_eq by (by eapply table_lookup_lt). rewrite Hi. cbn.
  by match goal with H : closes _ = _ |- _ => rewrite H end.
Qed.

(** The move to another place, the count up or down with it. *)
Lemma br_move n q s i pc pc' :
  br_inv n q s → pcs s !! i = Some pc → raised pc' = raised pc → placed (serving s) q i pc' →
  closes pc' = closes pc → (pc' = Shared → pc = Shared ∨ excluding s = 0) →
  (∀ r, pc' = WriteDrain r → ∀ j, j < r → pcs s !! j ≠ Some Shared) →
  (pc' = Exclusive → ∀ j, pcs s !! j ≠ Some Shared) → br_inv n q (at_pc i pc' s).
Proof.
  intros I Hi Hr. intros. eapply br_quiet; try done. rewrite Hr. by apply (br_counts _ _ _ I).
Qed.
Lemma br_raise n q s i pc pc' :
  br_inv n q s → pcs s !! i = Some pc → placed (serving s) q i pc' →
  closes pc' = closes pc → (pc' ≠ Shared) → (∀ r, pc' ≠ WriteDrain r) → pc' ≠ Exclusive →
  br_inv n q (at_pc i pc' (raise i (if raised pc' then 1 else 0) s)).
Proof.
  intros I Hi Hp Hc H1 H2 H3. pose proof (table_lookup_lt _ _ _ (br_counts _ _ _ I i pc Hi)).
  eapply br_quiet; try done; cbn.
  - apply tlen_insert.
  - by apply table_insert_eq.
  - intros j Hj. by apply table_insert_ne.
  - intros r ->. by destruct (H2 r).
Qed.

(** The place behind the others. *)
Lemma placed_behind first q i j p : i ≠ j → placed first q j p → placed first (q ++ [i]) j p.
Proof.
  intros Hij. assert (Hout : j ∉ q → j ∉ q ++ [i]) by (rewrite not_elem_of_app, list_elem_of_singleton; naive_solver).
  destruct p; cbn; try done; try (by destruct q).
  intros (k & Hk & ->). exists k. split; [|done]. by apply lookup_app_l_Some.
Qed.
(** The place one turn later. *)
Lemma placed_next first q i j p :
  first < 2 ^ 32 → NoDup (i :: q) → j ≠ i → placed first (i :: q) j p → placed (wrapping_add 32 first 1) q j p.
Proof.
  intros Hf Hnd Hij. destruct p; cbn; rewrite ?elem_of_cons; try naive_solver.
  intros (k & Hk & ->). destruct k as [|k]; [naive_solver|]. exists k. split; [done|].
  unfold wrapping_add. rewrite N.Div0.add_mod_idemp_l. f_equal. lia.
Qed.
Lemma head_turn first q i :
  first < 2 ^ 32 → tlen q <= 2 ^ 32 → placed first q i (WriteTurn first) → head q = Some i.
Proof.
  intros Hf Hq (k & Hk & Ht). assert (k = 0)%nat as ->; [|by destruct q].
  apply lookup_lt_Some in Hk. unfold tlen, wrapping_add in *.
  destruct (N.lt_ge_cases (first + N.of_nat k) (2 ^ 32)).
  - rewrite N.mod_small in Ht by done. lia.
  - assert ((first + N.of_nat k) mod 2 ^ 32 = first + N.of_nat k - 2 ^ 32); [|lia].
    symmetry. apply (N.mod_unique _ _ 1); lia.
Qed.
Lemma line_short n q s : br_inv n q s → tlen q <= n.
Proof.
  intros I. destruct (br_line _ _ _ I) as (Hnd & Hin & _).
  assert (Hsub : q ⊆+ indices (pcs s)).
  { apply NoDup_submseteq; [done|]. intros i Hi. apply indices_lookup.
    destruct (br_sizes _ _ _ I) as [-> _]. by apply Hin. }
  apply submseteq_length in Hsub. unfold indices in Hsub. rewrite length_fmap, length_seq in Hsub.
  destruct (br_sizes _ _ _ I) as [Hl _]. unfold tlen in *. lia.
Qed.

(** Each move, by where the processor is. *)
Lemma front_shared n q s i : br_inv n q s → head q = Some i → ∀ pc, pcs s !! i = Some pc →
  front q s = Some pc.
Proof. intros _ Hq pc Hi. unfold front. by rewrite Hq. Qed.

Lemma br_ticket n q s i :
  br_inv n q s → pcs s !! i = Some WriteTicket →
  br_inv n (q ++ [i]) (at_pc i (WriteTurn (next s)) (s <| next ::= λ x, wrapping_add 32 x 1 |>)).
Proof.
  intros I Hi. pose proof (br_placed _ _ _ I i _ Hi) as Hout. cbn in Hout.
  destruct (br_line _ _ _ I) as (Hnd & Hin & Hs & Hn). pose proof (table_lookup_lt _ _ _ Hi) as Hlt.
  destruct (br_sizes _ _ _ I) as (Hlen & _). rewrite Hlen in Hlt.
  eapply br_change; try done; cbn.
  - rewrite (br_counts _ _ _ I i _ Hi). done.
  - split; [|split; [|split; [done|]]].
    + apply NoDup_app. split; [done|]. split; [|apply NoDup_singleton].
      intros j Hj ->%list_elem_of_singleton. done.
    + intros j [Hj| ->%list_elem_of_singleton]%elem_of_app; [by apply Hin|done].
    + rewrite Hn, tlen_app. unfold wrapping_add, tlen. cbn. rewrite N.Div0.add_mod_idemp_l. f_equal. lia.
  - exists (length q). split; [by rewrite lookup_app_r, Nat.sub_diag|]. by rewrite Hn.
  - intros j p Hj. by apply placed_behind.
  - rewrite (br_flag _ _ _ I). unfold front. destruct q as [|w q]; cbn.
    + rewrite table_insert_eq; [done|]. by eapply table_lookup_lt.
    + rewrite table_insert_ne; [done|]. intros ->. apply Hout. by left.
Qed.

Lemma br_exclude n q s i :
  br_inv n q s → pcs s !! i = Some WriteExclude → br_inv n q (at_pc i (WriteDrain 0) (s <| excluding := 1 |>)).
Proof.
  intros I Hi. pose proof (br_placed _ _ _ I i _ Hi) as Hq.
  eapply br_change; try done; cbn.
  - by rewrite (br_counts _ _ _ I i _ Hi).
  - apply (br_line _ _ _ I).
  - unfold front. cbn in Hq. rewrite Hq. cbn. by rewrite table_insert_eq by (by eapply table_lookup_lt).
  - intros r [= <-] j Hj. lia.
Qed.
Lemma br_open n q s i :
  br_inv n q s → pcs s !! i = Some Exclusive → br_inv n q (at_pc i WriteServe (s <| excluding := 0 |>)).
Proof.
  intros I Hi. pose proof (br_placed _ _ _ I i _ Hi) as Hq.
  eapply br_change; try done; cbn.
  - by rewrite (br_counts _ _ _ I i _ Hi).
  - apply (br_line _ _ _ I).
  - unfold front. cbn in Hq. rewrite Hq. cbn. by rewrite table_insert_eq by (by eapply table_lookup_lt).
Qed.
Lemma br_serve n q s i :
  br_inv n q s → pcs s !! i = Some WriteServe →
  br_inv n (tail q) (at_pc i Outside (s <| serving ::= λ x, wrapping_add 32 x 1 |>)).
Proof.
  intros I Hi. pose proof (br_placed _ _ _ I i _ Hi) as Hq. destruct q as [|w q]; [done|]. injection Hq as ->.
  pose proof (br_flag _ _ _ I) as Hflag. rewrite (front_shared _ _ _ i I eq_refl _ Hi) in Hflag. cbn in Hflag.
  destruct (br_line _ _ _ I) as (Hnd & Hin & Hs & Hn). pose proof Hnd as [Hni Hnd']%NoDup_cons.
  eapply br_change; try done; cbn.
  - by rewrite (br_counts _ _ _ I i _ Hi).
  - split; [done|]. split; [intros j Hj; apply Hin; by right|]. split; [by apply N.mod_lt|].
    rewrite Hn. unfold wrapping_add, tlen. cbn [length]. rewrite N.Div0.add_mod_idemp_l. f_equal. lia.
  - intros j p Hj. by apply placed_next.
  - rewrite Hflag. unfold front. destruct q as [|w q]; [done|]. cbn.
    assert (w ≠ i) by (intros ->; apply Hni; by left). rewrite table_insert_ne by done.
    destruct (pcs s !! w) as [pw|] eqn:Hw; [|done]. cbn.
    by rewrite (open_none n _ s w pw I Hflag Hw).
Qed.

(** How the line changes: it grows behind, or its head, done, leaves. *)
Definition moves_on (q q' : list N) (s : BrLock) : Prop :=
  q' = q ∨ (∃ i, q' = q ++ [i]) ∨ ∃ w, q = w :: q' ∧ pcs s !! w = Some WriteServe.

Lemma br_write n q s i pc :
  br_inv n q s → pcs s !! i = Some pc → ∃ q', br_inv n q' (write i pc s) ∧ moves_on q q' s.
Proof.
  intros I Hi. assert (moves_on q q s) as Hq by by left. destruct pc; try by exists q.
  - exists (q ++ [i]). split; [by apply br_ticket|]. right. left. by exists i.
  - cbn. case_decide as Ht; [|by exists q]. exists q. split; [|done]. eapply br_move; try done. cbn.
    destruct (br_sizes _ _ _ I) as (_ & _ & Hn). destruct (br_line _ _ _ I) as (_ & _ & Hs & _).
    apply (head_turn (serving s)); [done|pose proof (line_short _ _ _ I); lia|].
    rewrite Ht at 2. by apply (br_placed _ _ _ I).
  - exists q. split; [by apply br_exclude|done].
  - cbn. destruct (br_sizes _ _ _ I) as (Hl & Hl' & _).
    assert (Hpast : ∀ j, j < reader → pcs s !! j ≠ Some Shared) by (intros j Hj; by eapply (br_drained _ _ _ I)).
    destruct (readers s !! reader) as [[|v]|] eqn:Hr; exists q; (split; [|done]); [| done|].
    + eapply br_move; try done; [by apply (br_placed _ _ _ I _ _ Hi)|].
      intros r [= <-] j Hj Hsh. destruct (decide (j = reader)) as [->|]; [|by apply (Hpast j); [lia|]].
      apply (br_counts _ _ _ I) in Hsh. cbn in Hsh. congruence.
    + eapply br_move; try done; [by apply (br_placed _ _ _ I _ _ Hi)|].
      intros _ j Hsh. apply (Hpast j); [|done]. apply table_lookup_lt in Hsh.
      destruct (decide (reader < tlen (readers s))) as [H%table_lookup_is_Some|]; [|lia].
      rewrite Hr in H. by destruct H.
Qed.

Lemma br_step n q s i s' : br_inv n q s → step i s s' → ∃ q', br_inv n q' s' ∧ moves_on q q' s.
Proof.
  intros I [wish ->]. unfold move. assert (moves_on q q s) as Hq by by left.
  destruct (pcs s !! i) as [pc|] eqn:Hi; [|by exists q].
  pose proof (br_placed _ _ _ I i _ Hi) as Hp.
  destruct pc; try (by eapply br_write); [exists q; split; [|done]..|exists (tail q)].
  - destruct wish; try done; by eapply br_move.
  - by eapply (br_raise n q s i ReadStore ReadLoad).
  - cbn. case_decide; (eapply br_move; try done). by right.
  - by eapply (br_raise n q s i ReadWithdraw ReadWait).
  - cbn. case_decide; [|done]. by eapply br_move.
  - destruct wish; try done. by eapply (br_raise n q s i Shared Outside).
  - destruct wish; try done. by apply br_open.
  - split; [by apply br_serve|]. right. right. exists i. split; [|done]. by destruct q; [|injection Hp as ->].
Qed.

Lemma br_new : br_inv MAX_CPUS [] new.
Proof.
  assert (Hpc : ∀ i pc, pcs new !! i = Some pc → pc = Outside)
    by (intros i pc Hi; by apply lookup_replicate_1 in Hi as [? _]).
  split; [by vm_compute| | | |done|..].
  - split; [apply NoDup_nil_2|]. split; [by intros i Hi%not_elem_of_nil|done].
  - intros i pc ->%Hpc. apply not_elem_of_nil.
  - intros i pc Hi. rewrite (Hpc i pc Hi). apply table_lookup_lt in Hi.
    assert (tlen (pcs new) = 8) as Hl by by vm_compute. rewrite Hl in Hi.
    apply lookup_replicate_2. change (N.to_nat MAX_CPUS) with 8%nat. lia.
  - by intros w r i Hw%Hpc.
  - by intros w i Hw%Hpc.
Qed.

Definition any_step (s s' : BrLock) : Prop := ∃ i, step i s s'.
Lemma br_reach s : rtc any_step new s → ∃ q, br_inv MAX_CPUS q s.
Proof.
  assert (∀ s0, rtc any_step s0 s → (∃ q, br_inv MAX_CPUS q s0) → ∃ q, br_inv MAX_CPUS q s) as H.
  { intros s0 Hr. induction Hr as [|s0 s1 s2 [i Hi] _ IH]; [done|]. intros [q I].
    destruct (br_step _ _ _ _ _ I Hi) as (q' & I' & _). apply IH. by exists q'. }
  intros Hr. apply (H new Hr). exists []. apply br_new.
Qed.

(** ** An exclusive hold is had *)

(** Only the processor itself moves its place. *)
Lemma at_pc_other i j pc s : i ≠ j → pcs (at_pc i pc s) !! j = pcs s !! j.
Proof. intros. by apply table_insert_ne. Qed.
Lemma step_other i j s s' : step i s s' → i ≠ j → pcs s' !! j = pcs s !! j ∧ readers s' !! j = readers s !! j.
Proof.
  intros [wish ->] Hij. unfold move. destruct (pcs s !! i) as [[]|], wish; try done; cbn;
    repeat case_decide; repeat case_match; try done; unfold at_pc, raise; cbn;
    by rewrite ?table_insert_ne by done.
Qed.

(** While shared holds are kept out, a processor that is not the one at the head of the
    line only goes down in rank. *)
Lemma kept_out n q w i s s' pc :
  br_inv n q s → excluding s = 1 → head q = Some w → i ≠ w → step i s s' → pcs s !! i = Some pc →
  ∃ pc', pcs s' !! i = Some pc' ∧ (pc' = pc ∨ (rank pc' < rank pc)%nat).
Proof.
  intros I He Hw Hne [wish ->] Hi. pose proof (br_placed _ _ _ I i _ Hi) as Hp.
  assert (Hat : ∀ p x, (rank p < rank pc)%nat → pcs x = pcs s →
    ∃ pc', pcs (at_pc i p x) !! i = Some pc' ∧ (pc' = pc ∨ (rank pc' < rank pc)%nat)).
  { intros p x Hr Hx. exists p. split; [|by right]. cbn. rewrite Hx. apply table_insert_eq. by eapply table_lookup_lt. }
  assert (Hstay : ∃ pc', pcs s !! i = Some pc' ∧ (pc' = pc ∨ (rank pc' < rank pc)%nat)) by (exists pc; auto).
  unfold move. rewrite Hi. destruct pc; cbn; rewrite ?He; try case_decide as Hd; try done; try (apply Hat; cbn; [lia|done]).
  - destruct wish; try done; (apply Hat; cbn; [lia|done]).
  - destruct wish; try done; (apply Hat; cbn; [lia|done]).
  - exfalso. apply Hne. rewrite <-Hd in Hp. apply (head_turn (serving s)) in Hp; [congruence|apply (br_line _ _ _ I)|].
    pose proof (line_short _ _ _ I). pose proof (br_sizes _ _ _ I). lia.
  - exfalso. cbn in Hp. congruence.
  - exfalso. cbn in Hp. congruence.
  - exfalso. cbn in Hp. congruence.
  - exfalso. cbn in Hp. congruence.
Qed.

Lemma drain_step n q w j i s s' pj :
  br_inv n q s → pcs s !! w = Some (WriteDrain j) → pcs s !! j = Some pj → step i s s' →
  (pcs s' !! w = Some (WriteDrain (j + 1)) ∧ raised pj = false) ∨
  (pcs s' !! w = Some (WriteDrain j) ∧ (i = w → raised pj = true) ∧
   ∃ pj', pcs s' !! j = Some pj' ∧ (pj' = pj ∨ (rank pj' < rank pj)%nat)).
Proof.
  intros I Hw Hj Hstep. pose proof (br_placed _ _ _ I w _ Hw) as Hq. pose proof (br_counts _ _ _ I j _ Hj) as Hc.
  destruct (decide (i = w)) as [->|Hiw].
  - destruct Hstep as [wish ->]. unfold move. rewrite Hw. cbn. rewrite Hc. destruct (raised pj) eqn:Hr; cbn.
    + right. split; [done|]. split; [done|]. exists pj. auto.
    + left. rewrite table_insert_eq by (by eapply table_lookup_lt). by destruct wish.
  - right. rewrite (proj1 (step_other i w s s' Hstep Hiw)). split; [done|]. split; [done|].
    destruct (decide (i = j)) as [->|Hij].
    + eapply (kept_out n q w); try done. exact (closing n q s w _ I Hw eq_refl).
    + exists pj. rewrite (proj1 (step_other i j s s' Hstep Hij)). auto.
Qed.

Section eventually.
Context (run : Run BrLock) (Hr : is_run step run) (Hstart : at_step run 0 = new).
Context (Hfair : ∀ i, i < MAX_CPUS → scheduled run i).
(** Holds end. *)
Definition holds (i : N) (s : BrLock) : Prop := pcs s !! i = Some Shared ∨ pcs s !! i = Some Exclusive.
Context (Hends : ∀ i, i < MAX_CPUS → passes run (holds i)).

Definition inv (s : BrLock) : Prop := ∃ q, br_inv MAX_CPUS q s.
Lemma inv_at t : inv (at_step run t).
Proof.
  induction t as [|t [q I]]; [rewrite Hstart; exists []; apply br_new|].
  destruct (br_step _ _ _ _ _ I (Hr t)) as (q' & I' & _). by exists q'.
Qed.

#[local] Abbreviation leads := (leads run).
Definition at_ (w : N) (pc : Pc) (s : BrLock) : Prop := pcs s !! w = Some pc.

Lemma cpu_at i s : inv s → i < MAX_CPUS ↔ is_Some (pcs s !! i).
Proof. intros [q I]. destruct (br_sizes _ _ _ I) as [<- _]. apply table_lookup_is_Some. Qed.
Lemma at_cpu i pc s : inv s → at_ i pc s → i < MAX_CPUS.
Proof. intros I H. apply (cpu_at i s I). by exists pc. Qed.

(** A writer past one reader's count. *)
Lemma leads_drain w j : w < MAX_CPUS → j < MAX_CPUS → leads (at_ w (WriteDrain j)) (at_ w (WriteDrain (j + 1))).
Proof.
  intros Hw Hj. set (m := λ s, from_option rank 0%nat (pcs s !! j)).
  apply (leads_measure run m). intros k.
  set (next := λ s, at_ w (WriteDrain (j + 1)) s ∨ (at_ w (WriteDrain j) s ∧ (m s < k)%nat)).
  (* from one place of processor [j], a step stays or goes down *)
  assert (Hstep : ∀ i s s' pj, inv s → step i s s' → at_ w (WriteDrain j) s → at_ j pj s → m s = k →
    next s' ∨ ((i = w → raised pj = true) ∧ at_ w (WriteDrain j) s' ∧ at_ j pj s' ∧ m s' = k)).
  { intros i s s' pj [q I] Hi Hd Hpj Hm. unfold next, m, at_ in *. rewrite Hpj in Hm. cbn in Hm.
    destruct (drain_step _ q w j i s s' pj I Hd Hpj Hi) as [[H _]|(H & Hraised & pj' & Hpj' & Hrank)]; [by left; left|].
    rewrite Hpj'. cbn. destruct Hrank as [->|Hrank]; [right; by rewrite <-Hm|left; right; split; [done|lia]]. }
  assert (Hunless : ∀ pj, unless step inv (λ s, at_ w (WriteDrain j) s ∧ at_ j pj s ∧ m s = k) next).
  { intros pj i s s' Is Hi (Hd & Hpj & Hm). destruct (Hstep i s s' pj Is Hi Hd Hpj Hm) as [?|(_ & ?)]; auto. }
  assert (Hpc : ∀ pj, leads (λ s, at_ w (WriteDrain j) s ∧ at_ j pj s ∧ m s = k) next).
  { intros pj. destruct (decide (pj = Shared)) as [->|Hns].
    { apply (leads_passing step run Hr inv inv_at); [|apply Hunless].
      intros t. destruct (Hends j Hj t) as (t' & Ht & Hn). exists t'. split; [done|].
      intros (_ & H & _). apply Hn. by left. }
    destruct (raised pj) eqn:Hraised.
    - (* the reader sees the flag, or withdraws *)
      apply (leads_helpful step run Hr inv inv_at j); [by apply Hfair|apply Hunless|].
      intros s s' Is Hi (Hd & Hpj & Hm).
      destruct (Hstep j s s' pj Is Hi Hd Hpj Hm) as [?|(_ & _ & Hsame & _)]; [done|exfalso].
      destruct Is as [q I]. pose proof (closing _ q s w _ I Hd eq_refl) as He.
      destruct Hi as [wish ->]. unfold move in Hsame. unfold at_ in Hpj, Hsame. rewrite Hpj in Hsame.
      destruct pj; try done; cbn in Hsame; rewrite ?He in Hsame;
        rewrite table_insert_eq in Hsame by (by eapply table_lookup_lt); try case_decide; congruence.
    - apply (leads_helpful step run Hr inv inv_at w); [by apply Hfair|apply Hunless|].
      intros s s' Is Hi (Hd & Hpj & Hm).
      destruct (Hstep w s s' pj Is Hi Hd Hpj Hm) as [?|(Hc & _)]; [done|].
      specialize (Hc eq_refl). congruence. }
  intros t [Hd Hm]. destruct (proj1 (cpu_at j _ (inv_at t)) Hj) as [pj Hpj]. by apply (Hpc pj).
Qed.

(** A place only its own processor's steps leave. *)
Lemma leads_own w pc (Q : BrLock → Prop) :
  w < MAX_CPUS → (∀ s s', inv s → step w s s' → at_ w pc s → Q s') → leads (at_ w pc) Q.
Proof.
  intros Hw H. apply (leads_helpful step run Hr inv inv_at w); [by apply Hfair| |done].
  intros i s s' Is Hi Hpc. destruct (decide (i = w)) as [->|Hne]; [right; by apply (H s)|left].
  unfold at_. by rewrite (proj1 (step_other i w s s' Hi Hne)).
Qed.
Lemma own_move w s s' pc pc' x :
  step w s s' → at_ w pc s → (∀ wish, move w wish s = at_pc w pc' x) → pcs x = pcs s → at_ w pc' s'.
Proof.
  intros [wish ->] Hpc Hm Hx. rewrite Hm. unfold at_. cbn. rewrite Hx. apply table_insert_eq.
  by eapply table_lookup_lt.
Qed.

Lemma leads_drained w j : w < MAX_CPUS → leads (at_ w (WriteDrain j)) (at_ w Exclusive).
Proof.
  intros Hw. remember (N.to_nat (MAX_CPUS - j)) as d eqn:Hd. revert j Hd.
  induction d as [|d IH]; intros j Hd.
  - apply leads_own; [done|]. intros s s' [q I] Hi Hpc.
    assert (readers s !! j = None) as Hnone.
    { apply table_lookup_ge. destruct (br_sizes _ _ _ I) as (_ & -> & _). lia. }
    eapply (own_move w s s' _ Exclusive s); [done|done| |done].
    intros wish. unfold move. unfold at_ in Hpc. rewrite Hpc. cbn. by rewrite Hnone.
  - eapply leads_trans; [apply leads_drain; [done|lia]|]. apply IH. lia.
Qed.

Lemma leads_excluded w : w < MAX_CPUS → leads (at_ w WriteExclude) (at_ w (WriteDrain 0)).
Proof.
  intros Hw. apply leads_own; [done|]. intros s s' Is Hi Hpc. set (x := s <| excluding := 1 |>).
  apply (own_move w s s' WriteExclude (WriteDrain 0) x); [done|done| |done].
  intros wish. unfold move. unfold at_ in Hpc. by rewrite Hpc.
Qed.

Lemma step_serving i s s' :
  step i s s' → serving s' = serving s ∨ (pcs s !! i = Some WriteServe ∧ serving s' = wrapping_add 32 (serving s) 1).
Proof.
  intros [wish ->]. unfold move. destruct (pcs s !! i) as [[]|], wish; try (by left); try (by right);
    cbn; repeat case_decide; repeat case_match; by left.
Qed.

(** The processor whose turn it is gets the lock. *)
Lemma leads_turn w t : leads (λ s, at_ w (WriteTurn t) s ∧ serving s = t) (at_ w Exclusive).
Proof.
  intros t0 [Hpc0 Hs0]. assert (w < MAX_CPUS) as Hw by (by eapply at_cpu; [apply inv_at|]).
  cut (leads (λ s, at_ w (WriteTurn t) s ∧ serving s = t) (at_ w WriteExclude)).
  { intros H. assert (leads (at_ w WriteExclude) (at_ w Exclusive)) as H'.
    { exact (leads_trans run _ _ _ (leads_excluded w Hw) (leads_drained w 0 Hw)). }
    apply (leads_trans run _ _ _ H H' t0). done. }
  apply (leads_helpful step run Hr inv inv_at w); [by apply Hfair| |].
  - intros i s s' [q I] Hi [Hpc Hs]. destruct (decide (i = w)) as [->|Hne].
    + right. eapply (own_move w s s' _ _ s); [done|done| |done].
      intros wish. unfold move. unfold at_ in Hpc. rewrite Hpc. cbn. by rewrite decide_True.
    + left. unfold at_. rewrite (proj1 (step_other i w s s' Hi Hne)). split; [done|].
      destruct (step_serving i s s' Hi) as [->|[Hserve _]]; [done|]. exfalso. apply Hne.
      pose proof (br_placed _ _ _ I i _ Hserve) as Hq1. pose proof (br_placed _ _ _ I w _ Hpc) as Hq2.
      rewrite <-Hs in Hq2. apply head_turn in Hq2; [cbn in Hq1; congruence|apply (br_line _ _ _ I)|].
      pose proof (line_short _ _ _ I). pose proof (br_sizes _ _ _ I). lia.
  - intros s s' Is Hi [Hpc Hs]. eapply (own_move w s s' _ _ s); [done|done| |done].
    intros wish. unfold move. unfold at_ in Hpc. rewrite Hpc. cbn. by rewrite decide_True.
Qed.

(** An exclusive hold ends, and the turn passes on. *)
Lemma leads_served w : w < MAX_CPUS → leads (at_ w Exclusive) (at_ w WriteServe).
Proof.
  intros Hw. apply (leads_passing step run Hr inv inv_at).
  - intros t. destruct (Hends w Hw t) as (t' & Ht & Hn). exists t'. split; [done|]. intros H. apply Hn. by right.
  - intros i s s' Is Hi Hpc. destruct (decide (i = w)) as [->|Hne].
    + destruct Hi as [wish ->]. unfold move. unfold at_ in Hpc. rewrite Hpc. destruct wish; [by left..|right].
      cbn. unfold at_. cbn. apply table_insert_eq. by eapply table_lookup_lt.
    + left. unfold at_. by rewrite (proj1 (step_other i w s s' Hi Hne)).
Qed.

(** Whatever the head of the line is at, it comes to pass the turn on. *)
Lemma leads_head w pc v :
  w < MAX_CPUS →
  leads (λ s, at_ w pc s ∧ serving s = v ∧ ∃ q, br_inv MAX_CPUS q s ∧ head q = Some w) (at_ w WriteServe).
Proof.
  intros Hw t (Hpc & Hv & q & I & Hq).
  assert (Hex : leads (at_ w Exclusive) (at_ w WriteServe)) by by apply leads_served.
  pose proof (br_placed _ _ _ I w _ Hpc) as Hp. destruct pc; cbn in Hp; try (destruct q; [done|]; injection Hq as ->; by destruct Hp; left).
  - assert (ticket = v) as ->.
    { destruct Hp as (k & Hk & ->). destruct q as [|w' q]; [done|]. injection Hq as ->.
      destruct (br_line _ _ _ I) as ([Hn _]%NoDup_cons & _ & Hlt & _).
      destruct k as [|k]; [|destruct Hn; by eapply list_elem_of_lookup_2].
      unfold wrapping_add. rewrite N.add_0_r, N.mod_small; [done|]. done. }
    apply (leads_trans run _ _ _ (leads_turn w v) Hex t). done.
  - apply (leads_trans run _ _ _ (leads_excluded w Hw) (leads_trans run _ _ _ (leads_drained w 0 Hw) Hex) t Hpc).
  - apply (leads_trans run _ _ _ (leads_drained w _ Hw) Hex t Hpc).
  - by apply Hex.
  - exists t. split; [lia|done].
Qed.

(** Turns still to come before a ticket's own. *)
Definition ahead (t v : N) : nat := N.to_nat (wrapping_sub 32 t v).
Lemma ahead_none t v : t < 2 ^ 32 → v < 2 ^ 32 → ahead t v = 0%nat → v = t.
Proof.
  unfold ahead, wrapping_sub. intros Ht Hv H. destruct (N.le_gt_cases v t).
  - replace (t + 2 ^ 32 - v) with (t - v + 1 * 2 ^ 32) in H by lia.
    rewrite N.Div0.mod_add, N.mod_small in H by lia. lia.
  - rewrite N.mod_small in H by lia. lia.
Qed.
Lemma ahead_next t v : t < 2 ^ 32 → v < 2 ^ 32 → v ≠ t → (ahead t (wrapping_add 32 v 1) < ahead t v)%nat.
Proof.
  unfold ahead, wrapping_sub, wrapping_add. intros Ht Hv Hne.
  assert (Hv1 : (v + 1) mod 2 ^ 32 = if decide (v + 1 = 2 ^ 32) then 0 else v + 1).
  { case_decide as H; [by rewrite H|]. apply N.mod_small. lia. }
  rewrite Hv1. case_decide as Hd.
  - rewrite N.sub_0_r. replace (t + 2 ^ 32) with (t + 1 * 2 ^ 32) by lia. rewrite N.Div0.mod_add.
    rewrite !N.mod_small by lia. lia.
  - destruct (N.le_gt_cases v t).
    + replace (t + 2 ^ 32 - v) with (t - v + 1 * 2 ^ 32) by lia.
      replace (t + 2 ^ 32 - (v + 1)) with (t - (v + 1) + 1 * 2 ^ 32) by lia.
      rewrite !N.Div0.mod_add, !N.mod_small by lia. lia.
    + rewrite !N.mod_small by lia. lia.
Qed.

Lemma ticket_bound q s i t : br_inv MAX_CPUS q s → at_ i (WriteTurn t) s → t < 2 ^ 32.
Proof.
  intros I Hi. destruct (br_placed _ _ _ I i _ Hi) as (k & _ & ->). by apply N.mod_lt.
Qed.

(** One turn passes while a processor waits for its own. *)
Lemma leads_pass i t v : v ≠ t →
  leads (λ s, at_ i (WriteTurn t) s ∧ serving s = v) (λ s, at_ i (WriteTurn t) s ∧ serving s = wrapping_add 32 v 1).
Proof.
  intros Hne. set (B := λ s, at_ i (WriteTurn t) s ∧ serving s = v).
  set (C := λ s, at_ i (WriteTurn t) s ∧ serving s = wrapping_add 32 v 1).
  assert (HU : unless step inv B C).
  { intros j s s' Is Hj [Hpc Hv]. unfold B, C. assert (Hpc' : at_ i (WriteTurn t) s').
    { destruct (decide (j = i)) as [->|Hji].
      - destruct Hj as [wish ->]. unfold at_, move in *. rewrite Hpc. cbn. by rewrite decide_False by congruence.
      - unfold at_. by rewrite (proj1 (step_other j i s s' Hj Hji)). }
    destruct (step_serving j s s' Hj) as [->|[_ ->]]; [by left|right]. by rewrite Hv. }
  intros t0 [Hpc Hv]. destruct (inv_at t0) as [q I]. pose proof (br_placed _ _ _ I i _ Hpc) as (k & Hk & _).
  destruct q as [|w q]; [done|]. assert (w < MAX_CPUS) as Hw by (apply (br_line _ _ _ I); by left).
  destruct (proj1 (cpu_at w _ (inv_at t0)) Hw) as [pc Hpcw].
  assert (Hhead : leads (λ s, (at_ w pc s ∧ serving s = v ∧ ∃ q, br_inv MAX_CPUS q s ∧ head q = Some w) ∧ B s) C).
  { eapply leads_trans; [exact (leads_beside step run Hr inv inv_at _ _ B C (leads_head w pc v Hw) HU)|].
    apply leads_or; [|by apply (leads_now run inv inv_at)].
    apply (leads_helpful step run Hr inv inv_at w); [by apply Hfair| |].
    - intros j s s' Is Hj [Hserve HB]. destruct (HU j s s' Is Hj HB) as [HB'|HC]; [|by right].
      destruct (decide (j = w)) as [->|Hjw].
      + right. destruct Hj as [wish ->]. unfold move in *. unfold at_ in Hserve. rewrite Hserve in HB' |- *.
        destruct HB as [_ Hv1], HB' as [HB' _]. split; [done|]. cbn. by rewrite Hv1.
      + left. split; [|done]. unfold at_. by rewrite (proj1 (step_other j w s s' Hj Hjw)).
    - intros s s' Is Hj [Hserve [Hpc' Hv1]]. destruct (decide (w = i)) as [->|Hwi].
      { unfold at_ in *. congruence. }
      split; [unfold at_; by rewrite (proj1 (step_other w i s s' Hj Hwi))|].
      destruct Hj as [wish ->]. unfold move. unfold at_ in Hserve. rewrite Hserve. cbn. by rewrite Hv1. }
  apply (Hhead t0). split; [|done]. split; [done|]. split; [done|]. by exists (w :: q).
Qed.

Lemma leads_exclusive i t : leads (at_ i (WriteTurn t)) (at_ i Exclusive).
Proof.
  apply (leads_measure run (λ s, ahead t (serving s))). intros k t0 [Hpc Hk]. destruct (inv_at t0) as [q I].
  pose proof (ticket_bound q _ i t I Hpc) as Ht. destruct (br_line _ _ _ I) as (_ & _ & Hv & _).
  destruct (decide (serving (at_step run t0) = t)) as [Heq|Hne].
  - destruct (leads_turn i t t0 (conj Hpc Heq)) as (t1 & Ht1 & H). exists t1. split; [done|by left].
  - destruct (leads_pass i t _ Hne t0 (conj Hpc eq_refl)) as (t1 & Ht1 & Hpc1 & Hv1).
    exists t1. split; [done|]. right. split; [done|]. rewrite Hv1, <-Hk. by apply ahead_next.
Qed.

(** ** In the order of the tickets *)

Definition before_hold (pc : Pc) : bool :=
  match pc with WriteTurn _ | WriteExclude | WriteDrain _ => true | _ => false end.
(** [i] waits, and stands before [j] in the line. *)
Definition before (i j : N) (s : BrLock) : Prop :=
  ∃ q a b pc, br_inv MAX_CPUS q s ∧ q !! a = Some i ∧ q !! b = Some j ∧ (a < b)%nat ∧ at_ i pc s ∧ before_hold pc = true.

Lemma before_unless i j : unless step inv (before i j) (at_ i Exclusive).
Proof.
  intros k s s' _ Hk (q & a & b & pc & I & Ha & Hb & Hab & Hpc & Hw).
  destruct (br_step _ _ _ _ _ I Hk) as (q' & I' & Hq).
  assert (Hpc' : at_ i Exclusive s' ∨ ∃ pc', at_ i pc' s' ∧ before_hold pc' = true).
  { destruct (decide (k = i)) as [->|Hki].
    - destruct Hk as [wish ->]. unfold at_, move in *. rewrite Hpc. pose proof (table_lookup_lt _ _ _ Hpc).
      destruct pc; try done; cbn; repeat case_decide; repeat case_match; cbn;
        try (left; by apply table_insert_eq); right; eexists; (split; [by apply table_insert_eq|done]) || (by split).
    - right. exists pc. unfold at_. by rewrite (proj1 (step_other k i s s' Hk Hki)). }
  destruct Hpc' as [?|(pc' & Hpc' & Hw')]; [by right|left].
  destruct Hq as [->|[[x ->]|(w & -> & Hserve)]].
  - by exists q, a, b, pc'.
  - exists (q ++ [x]), a, b, pc'. split_and!; try done; by apply lookup_app_l_Some.
  - destruct a as [|a].
    { injection Ha as ->. unfold at_ in Hpc. rewrite Hserve in Hpc. by injection Hpc as <-. }
    destruct b as [|b]; [lia|]. exists q', a, b, pc'. split_and!; try done. lia.
Qed.
Lemma before_waits i j s : before i j s → ¬ at_ j Exclusive s.
Proof.
  intros (q & a & b & pc & I & Ha & Hb & Hab & _) Hj.
  pose proof (br_placed _ _ _ I j _ Hj) as Hq. cbn in Hq. destruct (br_line _ _ _ I) as (Hnd & _).
  destruct q as [|w q]; [done|]. injection Hq as ->.
  assert (b = 0)%nat; [|lia]. by eapply (NoDup_lookup _ b 0 j).
Qed.
Lemma in_order i j t t' :
  before i j (at_step run t) → (t <= t')%nat → at_ j Exclusive (at_step run t') →
  ∃ u, (t <= u <= t')%nat ∧ at_ i Exclusive (at_step run u).
Proof.
  intros Hb Ht Hj. destruct (unless_until step run Hr inv inv_at _ _ t (t' - t) (before_unless i j) Hb) as [H|(u & Hu & H)].
  - replace (t + (t' - t))%nat with t' in H by lia. by apply before_waits in H.
  - exists u. split; [lia|done].
Qed.
End eventually.

(** Two tickets, by how many turns each has ahead. *)
Lemma before_tickets i j ti tj s :
  inv s → pcs s !! i = Some (WriteTurn ti) → pcs s !! j = Some (WriteTurn tj) →
  (ahead ti (serving s) < ahead tj (serving s))%nat → before i j s.
Proof.
  intros [q I] Hi Hj Hlt. pose proof (br_placed _ _ _ I i _ Hi) as (a & Ha & ->).
  pose proof (br_placed _ _ _ I j _ Hj) as (b & Hb & ->).
  exists q, a, b, (WriteTurn (wrapping_add 32 (serving s) (N.of_nat a))). split_and!; try done.
  destruct (br_line _ _ _ I) as (_ & _ & Hs & _). destruct (br_sizes _ _ _ I) as (_ & _ & Hn).
  assert (Hah : ∀ c x, q !! c = Some x → ahead (wrapping_add 32 (serving s) (N.of_nat c)) (serving s) = c).
  { intros c x Hc%lookup_lt_Some. pose proof (line_short _ _ _ I) as Hl. unfold tlen in Hl.
    unfold ahead, wrapping_sub, wrapping_add. destruct (N.lt_ge_cases (serving s + N.of_nat c) (2 ^ 32)).
    - rewrite (N.mod_small (serving s + _)) by done.
      replace (serving s + N.of_nat c + 2 ^ 32 - serving s) with (N.of_nat c + 1 * 2 ^ 32) by lia.
      rewrite N.Div0.mod_add, N.mod_small by lia. lia.
    - replace ((serving s + N.of_nat c) mod 2 ^ 32) with (serving s + N.of_nat c - 2 ^ 32)
        by (apply (N.mod_unique _ _ 1); lia).
      rewrite N.mod_small by lia. lia. }
  by rewrite (Hah a i Ha), (Hah b j Hb) in Hlt.
Qed.
End BrProofs.

(** ** The theorems *)

Import BrProofs.

(** C9. The locks exclude. Whatever the order in which the processors' instructions run,
    no two hold the same cell at once; and while one holds the machine exclusively, no
    other holds it exclusively or shared. *)
Theorem holds_exclude :
  (∀ s i j, rtc (λ s s', ∃ i, SpinLock.step i s s') SpinLock.new s →
     SpinLock.pcs s !! i = Some SpinLock.Holding → SpinLock.pcs s !! j = Some SpinLock.Holding → i = j) ∧
  (∀ s w i, rtc any_step BrLock.new s → BrLock.pcs s !! w = Some BrLock.Exclusive →
     BrLock.pcs s !! i ≠ Some BrLock.Shared ∧ (BrLock.pcs s !! i = Some BrLock.Exclusive → i = w)).
Proof.
  split.
  - intros s i j H Hi Hj. destruct (SpinProofs.spin_reach s H) as [[_ Hn]|[_ [h Hh]]]; [by apply Hn in Hi|].
    apply Hh in Hi, Hj. congruence.
  - intros s w i [q I]%br_reach Hw. split; [by apply (br_alone _ _ _ I w)|]. intros Hi.
    pose proof (br_placed _ _ _ I w _ Hw). pose proof (br_placed _ _ _ I i _ Hi). cbn in *. congruence.
Qed.

(** C40. An exclusive hold is had, in turn. Where every processor is scheduled again and
    again and no hold lasts for ever, a processor that has taken a ticket comes to hold
    the machine exclusively, whatever shared holds and other tickets there are; and one
    whose ticket is later does not hold it first, past the wrap of the tickets too. *)
Theorem exclusive_is_had run :
  is_run BrLock.step run → at_step run 0%nat = BrLock.new →
  (∀ i, i < MAX_CPUS → scheduled run i) → (∀ i, i < MAX_CPUS → passes run (holds i)) →
  ∀ t i ticket, BrLock.pcs (at_step run t) !! i = Some (BrLock.WriteTurn ticket) →
  (∃ t', (t <= t')%nat ∧ BrLock.pcs (at_step run t') !! i = Some BrLock.Exclusive) ∧
  (∀ j later t', BrLock.pcs (at_step run t) !! j = Some (BrLock.WriteTurn later) →
     let first := BrLock.serving (at_step run t) in
     wrapping_sub 32 ticket first < wrapping_sub 32 later first →
     (t <= t')%nat → BrLock.pcs (at_step run t') !! j = Some BrLock.Exclusive →
     ∃ u, (t <= u <= t')%nat ∧ BrLock.pcs (at_step run u) !! i = Some BrLock.Exclusive).
Proof.
  intros Hr Hstart Hfair Hends t i ticket Hi. split.
  - exact (leads_exclusive run Hr Hstart Hfair Hends i ticket t Hi).
  - intros j later t' Hj first Hlt Ht Hex. apply (in_order run Hr Hstart i j t t'); [|done|done].
    apply (before_tickets i j ticket later); [by apply inv_at|done|done|]. unfold ahead. fold first. lia.
Qed.


(** ** The theorems at work *)

Definition spin_moves (l : list (N * SpinLock.Wish)) : SpinLock.SpinLock :=
  foldl (λ s x, SpinLock.move x.1 x.2 s) SpinLock.new l.
Definition br_moves (l : list (N * BrLock.Wish)) : BrLock.BrLock :=
  foldl (λ s x, BrLock.move x.1 x.2 s) BrLock.new l.
Lemma spin_moves_reach l : rtc (λ s s', ∃ i, SpinLock.step i s s') SpinLock.new (spin_moves l).
Proof.
  unfold spin_moves. induction l as [|x l IH] using rev_ind; [constructor|]. rewrite foldl_app.
  eapply rtc_r; [exact IH|]. exists x.1, x.2. reflexivity.
Qed.
Lemma br_moves_reach l : rtc any_step BrLock.new (br_moves l).
Proof.
  unfold br_moves. induction l as [|x l IH] using rev_ind; [constructor|]. rewrite foldl_app.
  eapply rtc_r; [exact IH|]. exists x.1, x.2. reflexivity.
Qed.

(** Processor 0 holds the machine while 1 waits with a ticket and 2 was kept out. *)
Definition writer_moves : list (N * BrLock.Wish) :=
  [(2, BrLock.Read); (2, BrLock.Stay)] ++ replicate 4 (0, BrLock.Write) ++
  [(1, BrLock.Write); (1, BrLock.Stay); (2, BrLock.Stay); (2, BrLock.Stay)] ++ replicate 9 (0, BrLock.Stay).
Lemma holds_exclude_witness :
  (1 = 1 ∧ ∀ i, SpinLock.pcs (spin_moves [(1, SpinLock.Lock); (1, SpinLock.Stay)]) !! i = Some SpinLock.Holding → i = 1) ∧
  (∀ i, BrLock.pcs (br_moves writer_moves) !! i ≠ Some BrLock.Shared ∧
     (BrLock.pcs (br_moves writer_moves) !! i = Some BrLock.Exclusive → i = 0)).
Proof.
  split; [split; [done|]|].
  - intros i Hi. apply (proj1 holds_exclude _ i 1 (spin_moves_reach [(1, SpinLock.Lock); (1, SpinLock.Stay)]) Hi).
    by vm_compute.
  - intros i. apply (proj2 holds_exclude _ 0 i (br_moves_reach writer_moves)). by vm_compute.
Defined.

(** Processors 0 and 1 write, 2 reads, the others do other things; each in its turn. *)
Definition wish_of (i : N) (s : BrLock.BrLock) : BrLock.Wish :=
  if bool_decide (holds i s) then BrLock.Leave
  else if decide (i < 2) then BrLock.Write else if decide (i = 2) then BrLock.Read else BrLock.Stay.
Definition round_robin : Run BrLock.BrLock := {|
  mover t := N.of_nat (t mod 8);
  at_step t := Nat.recursion BrLock.new (λ t s, let i := N.of_nat (t mod 8) in BrLock.move i (wish_of i s) s) t
|}.
Lemma round_robin_turn i t : i < MAX_CPUS → mover round_robin (8 * t + N.to_nat i) = i.
Proof.
  intros Hi. cbn [mover round_robin]. change MAX_CPUS with 8 in Hi. rewrite Nat.add_comm, Nat.mul_comm.
  rewrite Nat.Div0.mod_add, Nat.mod_small by lia. lia.
Qed.
Lemma round_robin_scheduled i : i < MAX_CPUS → scheduled round_robin i.
Proof. intros Hi t. exists (8 * t + N.to_nat i)%nat. split; [lia|by apply round_robin_turn]. Qed.
Lemma round_robin_step t :
  at_step round_robin (S t) =
    BrLock.move (mover round_robin t) (wish_of (mover round_robin t) (at_step round_robin t)) (at_step round_robin t).
Proof. reflexivity. Qed.
Lemma round_robin_ends i : i < MAX_CPUS → passes round_robin (holds i).
Proof.
  intros Hi t. set (u := (8 * t + N.to_nat i)%nat). destruct (decide (holds i (at_step round_robin u))) as [H|H].
  - exists (S u). split; [lia|]. rewrite round_robin_step. assert (mover round_robin u = i) as -> by by apply round_robin_turn.
    unfold wish_of. rewrite bool_decide_true by done. unfold BrLock.move.
    destruct H as [H|H]; pose proof (table_lookup_lt _ _ _ H); rewrite H; cbn; unfold holds; cbn;
      rewrite table_insert_eq by done; naive_solver.
  - exists u. split; [lia|done].
Qed.
Lemma exclusive_is_had_witness :
  (∃ t', (16 <= t')%nat ∧ BrLock.pcs (at_step round_robin t') !! 1 = Some BrLock.Exclusive) ∧
  (∀ t', (16 <= t')%nat → BrLock.pcs (at_step round_robin t') !! 1 = Some BrLock.Exclusive →
     ∃ u, (16 <= u <= t')%nat ∧ BrLock.pcs (at_step round_robin u) !! 0 = Some BrLock.Exclusive).
Proof.
  pose proof (λ i ticket, exclusive_is_had round_robin (λ t, ex_intro _ _ (round_robin_step t)) eq_refl
    round_robin_scheduled round_robin_ends 16%nat i ticket) as H.
  split.
  - apply (H 1 1). by vm_compute.
  - intros t' Ht. refine (proj2 (H 0 0 _) 1 1 t' _ _ Ht); by vm_compute.
Defined.
