(* ===== verification/Shootdown.v ===== *)
(** * Withdrawn translations

    [kernel/src/tlb.rs], one memory access of one processor at a time, with what the
    processors do around it: the switch between address spaces ([kernel/src/sched.rs]),
    the withdrawal of a mapping ([kernel/src/api/memops.rs]) and of a kernel stack
    ([kernel/src/domain.rs]).

    The state follows one page of one address space and one page of the kernel half,
    each mapped or not. A mapping has a version, fresh each time one is installed; a
    processor's translation caches hold versions. The hardware may fill a cache from
    a present entry at any moment -- for the space's page, while the processor has the
    space loaded -- and drops entries only where the code makes it. The accesses the
    protocol rests on are sequentially consistent or read-modify-write in the code, so
    a state is what memory holds. The processors that take part are fixed from the
    start; one can stop. Interrupts sent, counters and the mask of every processor a
    space was ever on are left out. *)

From S2P Require Import Prelude Obj Scope Frame.

#[local] Open Scope N_scope.

(** kernel/src/tlb.rs:95-95 [WAIT_SPIN_LIMIT] *)
Definition WAIT_SPIN_LIMIT : N := 200000000.

(** Where a processor is in a refresh. *)
(** kernel/src/tlb.rs:294-325 [refresh_local, between instructions] *)
Inductive Refresh :=
| Settled
| Starting
| Compared (wanted : N)
| Flushing (wanted wanted_kernel : N)
| Storing (wanted wanted_kernel : N)
| Closing (wanted : N).

(** kernel/src/tlb.rs:355-374 [Ack]. The counts it reports are not modelled. *)
Record Ack := mkAck { ack_generation : N; ack_spins : N; ack_timed_out : bool }.

(** Where a processor is: what it does next, and, for a withdrawal, the version it
    removed. *)
Inductive Pc :=
| Running
| Noted | Entering          (* a switch into the space, before and after its refresh *)
| Turning | Leaving | Left  (* a switch to another: before its refresh, after it, after the load *)
| Removed (version : N) | Published (version generation : N) | Recorded (version : N)
| Shot (version generation : N) | Counted (version generation online : N)
| Announced (version generation : N)
| Waiting (version generation mask : N)
| Scanning (version generation mask spins cpu : N) (outstanding : bool)
| Acked (version : N) (ack : Ack)
| KernelRemoved (version : N) | KernelStepped (version : N)
| StackStamping | StackStamped (stamp : N)
| Parking | Parked.

(** kernel/src/tlb.rs:53-67 [Processor]. [loaded]: whether the space is the one this
    processor has loaded; the caches are the hardware's. *)
Record Processor := mkProcessor {
  seen : N;
  seen_kernel : N;
  loaded : bool;
  refresh : Refresh;
  pc : Pc;
  cached : list N;
  cached_kernel : list N
}.
#[global] Instance Processor_rebuild : Rebuild Processor := λ p,
  mkProcessor (seen p) (seen_kernel p) (loaded p) (refresh p) (pc p) (cached p) (cached_kernel p).

(** What a withdrawal records on its object, for its own version; the object keeps the
    latest generation and the union of the masks. *)
(** kernel/src/api/memops.rs:389-413 [withdraw_map_deferring, the record] *)
Record Withdrawal := mkWithdrawal { wd_version : N; wd_unmapped_at : N; wd_unmapped_cpus : N }.
(** kernel/src/mm/frame.rs:52-58 [Quarantined, of a frame of the kernel half] *)
Record Retired := mkRetired { rt_version : N; rt_stamp : N }.

(** kernel/src/tlb.rs:41-125 [GENERATION, KERNEL_GENERATION, PROCESSORS, ONLINE, SPACE_LIVE] *)
Record Space := mkSpace {
  generation : N;
  kernel_generation : N;
  online : N;
  live : N;
  processors : list Processor;
  mapped : option N;
  mapped_kernel : option N;
  fresh : N;
  withdrawals : list Withdrawal;
  retired : list Retired;
  released : list Retired
}.
#[global] Instance Space_rebuild : Rebuild Space := λ s,
  mkSpace (generation s) (kernel_generation s) (online s) (live s) (processors s) (mapped s) (mapped_kernel s)
    (fresh s) (withdrawals s) (retired s) (released s).

Definition bit (cpu : N) : N := N.shiftl 1 cpu.
Definition on (i : N) (f : Processor → Processor) (s : Space) : Space := s <| processors ::= alter f i |>.
Definition goto (i : N) (to : Pc) (s : Space) : Space := on i (λ p, p <| pc := to |>) s.

(** ** The instructions of the code *)

(** kernel/src/tlb.rs:138-155 [note_dispatch] *)
Definition note_dispatch (i : N) (s : Space) : Space :=
  if N.testbit (live s) i then s else s <| live ::= λ l, N.lor l (bit i) |>.
(** The caches after [flush_tlb_user] and [flush_tlb_all]. *)
(** kernel/src/arch/x86_64/cpu.rs:318-322 [flush_tlb_user] *)
Definition flush_tlb_user (p : Processor) : Processor := p <| cached := [] |>.
(** kernel/src/arch/x86_64/cpu.rs:296-309 [flush_tlb_all] *)
Definition flush_tlb_all (p : Processor) : Processor := p <| cached := [] |> <| cached_kernel := [] |>.
(** kernel/src/tlb.rs:294-325 [refresh_local] *)
Definition refresh_local (i : N) (p : Processor) (s : Space) : Space :=
  match refresh p with
  | Settled => s
  | Starting =>
      let wanted := generation s in
      on i (λ p, p <| refresh := if decide (wanted <= seen p) then Settled else Compared wanted |>) s
  | Compared wanted => on i (λ p, p <| refresh := Flushing wanted (kernel_generation s) |>) s
  | Flushing wanted wanted_kernel =>
      on i (λ p, (if decide (seen_kernel p < wanted_kernel) then flush_tlb_all p else flush_tlb_user p)
                   <| refresh := Storing wanted wanted_kernel |>) s
  | Storing wanted wanted_kernel =>
      on i (λ p, p <| seen_kernel := wanted_kernel |> <| refresh := Closing wanted |>) s
  | Closing wanted => on i (λ p, p <| seen := wanted |> <| refresh := Settled |>) s
  end.

(** The write of the root and, when a space was left, its bit. *)
(** kernel/src/tlb.rs:188-223 [switch_space, to the space] *)
Definition switch_into (i : N) (p : Processor) (s : Space) : Space :=
  on i (λ p, (if loaded p then p else flush_tlb_user p <| loaded := true |>) <| pc := Running |>) s.
(** kernel/src/tlb.rs:188-223 [switch_space, from it] *)
Definition switch_away (i : N) (p : Processor) (s : Space) : Space :=
  match pc p with
  | Leaving =>
      if loaded p then on i (λ p, flush_tlb_user p <| loaded := false |> <| pc := Left |>) s
      else goto i Running s
  | Left => goto i Running (s <| live ::= λ l, andnot l (bit i) |>)
  | _ => s
  end.

(** kernel/src/tlb.rs:263-266 [publish] *)
Definition publish (s : Space) : N * Space :=
  let g := wrapping_add 64 (generation s) 1 in (g, s <| generation := g |>).

(** The removal of the page's entry, invalidated at once where the space is loaded. *)
(** kernel/src/api/memops.rs:340-358 [withdraw_map_deferring, the entry] *)
Definition remove (i : N) (p : Processor) (version : N) (s : Space) : Space :=
  on i (λ p, (if loaded p then p <| cached := [] |> else p) <| pc := Removed version |>) (s <| mapped := None |>).
(** kernel/src/api/memops.rs:389-413 [withdraw_map_deferring, the announcement] *)
Definition withdraw (i : N) (p : Processor) (s : Space) : Space :=
  match pc p with
  | Removed version => let '(g, s) := publish s in goto i (Published version g) s
  | Published version g =>
      let mine := bit i in
      let mask := N.lor (andnot (live s) mine) (if loaded p then 0 else N.land (live s) mine) in
      goto i (Recorded version) (s <| withdrawals ::= cons (mkWithdrawal version g mask) |>)
  | _ => s
  end.

(** One access of the wait: the refresh before it, and the scan of the processors. *)
(** kernel/src/tlb.rs:394-450 [wait_for_mask] *)
Definition wait_for_mask (i : N) (p : Processor) (s : Space) : Space :=
  match pc p with
  | Waiting version g mask => goto i (Scanning version g mask 0 0 false) s
  | Scanning version g mask spins cpu outstanding =>
      if decide (cpu < MAX_CPUS) then
        let behind := from_option (λ q, bool_decide (seen q < g)) false (processors s !! cpu) in
        goto i (Scanning version g mask spins (cpu + 1) (outstanding || (N.testbit mask cpu && behind))) s
      else if negb outstanding then goto i (Acked version (mkAck g spins false)) s
      else
        let spins := spins + 1 in
        if decide (WAIT_SPIN_LIMIT <= spins) then goto i (Acked version (mkAck g spins true)) s
        else goto i (Scanning version g mask spins 0 false) s
  | _ => s
  end.
(** kernel/src/tlb.rs:473-509 [shootdown_space] *)
Definition shootdown_space (i : N) (p : Processor) (s : Space) : Space :=
  match pc p with
  | Recorded version => let '(g, s) := publish s in goto i (Shot version g) s
  | Shot version g => goto i (Counted version g (online s)) s
  | Counted version g online =>
      let live := N.land (live s) online in
      let others := andnot live (bit i) in
      if decide (others = 0) then goto i (Acked version (mkAck g 0 false)) s
      else on i (λ p, p <| refresh := Starting |> <| pc := Waiting version g live |>) s
  | _ => s
  end.

(** kernel/src/tlb.rs:457-460 [shootdown] and kernel/src/tlb.rs:388-390 [wait_for] *)
Definition shootdown (i : N) (p : Processor) (s : Space) : Space :=
  match pc p with
  | Recorded version => let '(g, s) := publish s in goto i (Announced version g) s
  | Announced version g => on i (λ p, p <| refresh := Starting |> <| pc := Waiting version g (online s) |>) s
  | _ => s
  end.

(** A frame of the kernel half, its entry removed and then stamped. *)
(** kernel/src/domain.rs:149-160 [allocate_kernel_stack, the undoing] and
    kernel/src/tlb.rs:285-288 [retire_stamp_kernel] *)
Definition retire_kernel (i : N) (p : Processor) (s : Space) : Space :=
  match pc p with
  | KernelRemoved version =>
      goto i (KernelStepped version) (s <| kernel_generation ::= λ g, wrapping_add 64 g 1 |>)
  | KernelStepped version =>
      let '(g, s) := publish s in on i (λ p, p <| cached_kernel := [] |> <| pc := Running |>)
                                   (s <| retired ::= cons (mkRetired version g) |>)
  | _ => s
  end.
(** A kernel stack, stamped and then its entry removed. *)
(** kernel/src/domain.rs:170-193 [release_kernel_stack] *)
Definition release_kernel_stack (i : N) (p : Processor) (s : Space) : Space :=
  match pc p with
  | Running => goto i StackStamping (s <| kernel_generation ::= λ g, wrapping_add 64 g 1 |>)
  | StackStamping => let '(g, s) := publish s in goto i (StackStamped g) s
  | StackStamped stamp =>
      match mapped_kernel s with
      | Some version =>
          on i (λ p, p <| cached_kernel := [] |> <| pc := Running |>)
            (s <| mapped_kernel := None |> <| released ::= cons (mkRetired version stamp) |>)
      | None => goto i Running s
      end
  | _ => s
  end.

(** kernel/src/tlb.rs:244-250 [mark_offline] *)
Definition mark_offline (i : N) (p : Processor) (s : Space) : Space :=
  match pc p with
  | Running => on i (λ p, p <| seen := U64_MAX |> <| pc := Parking |>) s
  | Parking => goto i Parked (s <| online ::= λ o, andnot o (bit i) |>)
  | _ => s
  end.

(** kernel/src/tlb.rs:518-529 [flushed_by], its loads at one moment *)
Definition flushed_by (mask g : N) (s : Space) : bool :=
  forallb (λ cpu, negb (N.testbit (N.land mask (online s)) cpu) ||
                  from_option (λ q, negb (bool_decide (seen q < g))) true (processors s !! cpu))
    (N.of_nat <$> seq 0 (N.to_nat MAX_CPUS)).
(** What the quarantine asks, of [Frame]. *)
(** kernel/src/tlb.rs:537-554 [safe_generation, its loads at one moment] *)
Definition safe (s : Space) : N := safe_generation (mkTlb (generation s) (online s) (seen <$> processors s)).

(** ** The steps *)

(** What a processor that is free to choose does next, and what the hardware does. *)
Inductive Wish :=
| Stay | Refreshing | Enter | Turn | Map | Unmap | MapKernel | UnmapKernel | Release | Park
| Shoot | ShootAll | Return | Fill | FillKernel.

(** A processor between operations. *)
Definition begins (i : N) (p : Processor) (wish : Wish) (s : Space) : Space :=
  match wish with
  | Refreshing => on i (λ p, p <| refresh := Starting |>) s
  | Enter => goto i Noted (note_dispatch i s)
  | Turn => goto i Turning s
  | Map =>
      match mapped s with
      | Some _ => s
      | None => s <| mapped := Some (fresh s) |> <| fresh ::= λ v, v + 1 |>
      end
  | MapKernel =>
      match mapped_kernel s with
      | Some _ => s
      | None => s <| mapped_kernel := Some (fresh s) |> <| fresh ::= λ v, v + 1 |>
      end
  | Unmap => match mapped s with Some version => remove i p version s | None => s end
  | UnmapKernel =>
      match mapped_kernel s with
      | Some version => goto i (KernelRemoved version) (s <| mapped_kernel := None |>)
      | None => s
      end
  | Release => release_kernel_stack i p s
  | Park => mark_offline i p s
  | _ => s
  end.

(** One access of processor [i]: the hardware's, the next of a refresh it is in, or the
    next of what it does. *)
(** kernel/src/sched.rs:1032-1048 [schedule_with, the refresh before the switch] *)
Definition move (i : N) (wish : Wish) (s : Space) : Space :=
  match processors s !! i with
  | None => s
  | Some p =>
      match wish with
      | Fill =>
          match mapped s with
          | Some version => if loaded p then on i (λ p, p <| cached ::= cons version |>) s else s
          | None => s
          end
      | FillKernel =>
          match mapped_kernel s with
          | Some version => on i (λ p, p <| cached_kernel ::= cons version |>) s
          | None => s
          end
      | _ =>
          match refresh p with
          | Settled =>
              match pc p with
              | Running => begins i p wish s
              | Noted => on i (λ p, p <| refresh := Starting |> <| pc := Entering |>) s
              | Entering => switch_into i p s
              | Turning => on i (λ p, p <| refresh := Starting |> <| pc := Leaving |>) s
              | Leaving | Left => switch_away i p s
              | Removed _ | Published _ _ => withdraw i p s
              | Recorded _ =>
                  match wish with
                  | Shoot => shootdown_space i p s
                  | ShootAll => shootdown i p s
                  | Return => goto i Running s
                  | _ => s
                  end
              | Shot _ _ | Counted _ _ _ => shootdown_space i p s
              | Announced _ _ => shootdown i p s
              | Waiting _ _ _ | Scanning _ _ _ _ _ _ => wait_for_mask i p s
              | Acked _ _ => match wish with Return => goto i Running s | _ => s end
              | KernelRemoved _ | KernelStepped _ => retire_kernel i p s
              | StackStamping | StackStamped _ => release_kernel_stack i p s
              | Parking => mark_offline i p s
              | Parked => s
              end
          | _ => refresh_local i p s
          end
      end
  end.

(** A step, while the generations last. *)
Definition lasting (s : Space) : Prop := generation s + 1 < U64_MAX ∧ kernel_generation s + 1 < U64_MAX.
Definition step (s s' : Space) : Prop := lasting s ∧ ∃ i wish, s' = move i wish s.

(** All processors online, the page in neither half mapped yet. *)
(** kernel/src/tlb.rs:41-78 [GENERATION, KERNEL_GENERATION, PROCESSORS and ONLINE, as every
    processor is online] *)
Definition booted : Space := {|
  generation := 1;
  kernel_generation := 1;
  online := N.ones MAX_CPUS;
  live := 0;
  processors := replicate (N.to_nat MAX_CPUS) (mkProcessor 1 1 false Settled Running [] []);
  mapped := None;
  mapped_kernel := None;
  fresh := 0;
  withdrawals := [];
  retired := [];
  released := []
|}.
