(* ===== verification/ShootdownProofs.v ===== *)
(** * What a withdrawal guarantees

    After a wait that was not given up, and whenever the frames of a withdrawn page may
    be reused, no processor holds the translation that was withdrawn. *)

From S2P Require Import Prelude Obj Scope Frame Shootdown.

#[local] Open Scope N_scope.

(** Whether the processor still takes part. *)
Definition kept (p : Processor) : bool := match pc p with Parking | Parked => false | _ => true end.
(** The generation its caches have been emptied at. *)
Definition reached (p : Processor) : N :=
  match refresh p with Storing w _ | Closing w => N.max (seen p) w | _ => seen p end.
Definition kreached (p : Processor) : N :=
  match refresh p with Storing _ wk => N.max (seen_kernel p) wk | _ => seen_kernel p end.
(** A refresh at [g] or later is one of the kernel half at [kg] or later. *)
Definition kaims (g kg : N) (p : Processor) : Prop :=
  match refresh p with Flushing w wk | Storing w wk => g <= w → kg <= wk | _ => True end.
Definition behind (g kg : N) (p : Processor) : Prop := reached p < g ∧ kreached p < kg.

Definition gone (s : Space) (v : N) : Prop := v < fresh s ∧ mapped s ≠ Some v.
Definition kgone (s : Space) (v : N) : Prop := v < fresh s ∧ mapped_kernel s ≠ Some v.
Definition clean (s : Space) (v j : N) : Prop :=
  ∀ q, processors s !! j = Some q → kept q → v ∉ cached q.
Definition covered (s : Space) (v g : N) : Prop :=
  gone s v ∧ g <= generation s ∧
  ∀ j q, processors s !! j = Some q → kept q → v ∈ cached q → reached q < g.
Definition kcovered (s : Space) (v g kg : N) : Prop :=
  kgone s v ∧ g <= generation s ∧ kg <= kernel_generation s ∧
  ∀ j q, processors s !! j = Some q → kept q → kaims g kg q ∧ (v ∈ cached_kernel q → behind g kg q).
(** Of a version whose kernel generation stepped and whose own comes next. *)
Definition kstepped (s : Space) (v kg : N) : Prop :=
  kgone s v ∧ kg <= kernel_generation s ∧
  ∀ j q, processors s !! j = Some q → kept q → v ∈ cached_kernel q → kreached q < kg.

Definition targets (s : Space) (v mask : N) : Prop := ∀ j, N.testbit mask j = false → clean s v j.

(** What the processor's place in a withdrawal says. *)
Definition pc_ok (s : Space) (i : N) (p : Processor) : Prop :=
  match pc p with
  | Removed v | Recorded v => gone s v ∧ clean s v i
  | Published v g | Shot v g => covered s v g ∧ clean s v i
  | Counted v g on =>
      covered s v g ∧ clean s v i ∧ ∀ j q, processors s !! j = Some q → kept q → N.testbit on j = true
  | Announced v g => covered s v g
  | Waiting v g mask => covered s v g ∧ targets s v mask
  | Scanning v g mask _ k outstanding =>
      covered s v g ∧ targets s v mask ∧ (outstanding = false → ∀ j, j < k → clean s v j)
  | Acked v ack => gone s v ∧ (ack_timed_out ack = false → ∀ j, clean s v j)
  | KernelRemoved v => kgone s v
  | KernelStepped v => ∃ kg, kstepped s v kg
  | _ => True
  end.

Definition in_range (s : Space) (p : Processor) : Prop :=
  seen p <= generation s ∧ seen_kernel p <= kernel_generation s ∧
  match refresh p with
  | Compared w | Closing w => w <= generation s
  | Flushing w wk | Storing w wk => w <= generation s ∧ wk <= kernel_generation s
  | _ => True
  end.

Record proc_ok (s : Space) (i : N) (p : Processor) : Prop := {
  ok_live : loaded p = true ∨ pc p = Noted ∨ pc p = Entering → N.testbit (live s) i = true;
  ok_left : pc p = Left → loaded p = false;
  ok_cached : loaded p = false → cached p = [];
  ok_range : kept p → in_range s p;
  ok_fresh v : v ∈ cached p ∨ v ∈ cached_kernel p → v < fresh s;
  ok_online : kept p → N.testbit (online s) i = true;
  ok_pc : pc_ok s i p
}.

Record space_inv (s : Space) : Prop := {
  inv_size : tlen (processors s) = MAX_CPUS;
  inv_proc i p : processors s !! i = Some p → proc_ok s i p;
  inv_mapped v : mapped s = Some v ∨ mapped_kernel s = Some v → v < fresh s;
  inv_withdrawn w : w ∈ withdrawals s →
    covered s (wd_version w) (wd_unmapped_at w) ∧ targets s (wd_version w) (wd_unmapped_cpus w);
  inv_retired r : r ∈ retired s → ∃ kg, kcovered s (rt_version r) (rt_stamp r) kg
}.

(** ** What a step leaves *)

(** One processor, over a step from [s]. *)
Record padv (s : Space) (p p' : Processor) : Prop := {
  pa_kept : kept p' → kept p;
  pa_cached v : v ∈ cached p' → v ∈ cached p ∨ mapped s = Some v;
  pa_reached v : kept p' → v ∈ cached p' → reached p' <= reached p;
  pa_kernel v : v ∈ cached_kernel p' → v ∈ cached_kernel p ∨ mapped_kernel s = Some v;
  pa_kaims g kg : kept p' → kg <= kernel_generation s → kaims g kg p → kaims g kg p';
  pa_behind g kg v : kept p' → kg <= kernel_generation s → kaims g kg p → v ∈ cached_kernel p' →
    behind g kg p → behind g kg p';
  pa_kreached v : kept p' → v ∈ cached_kernel p' → kreached p' <= kreached p
}.
Record adv (s s' : Space) : Prop := {
  adv_generation : generation s <= generation s';
  adv_kernel : kernel_generation s <= kernel_generation s';
  adv_gone v : gone s v → gone s' v;
  adv_kgone v : kgone s v → kgone s' v;
  adv_proc j p' : processors s' !! j = Some p' → ∃ p, processors s !! j = Some p ∧ padv s p p'
}.

Lemma padv_refl s p : padv s p p.
Proof. split; auto; intros; lia. Qed.
Lemma clean_adv s s' v j : adv s s' → gone s v → clean s v j → clean s' v j.
Proof.
  intros A [_ Hg] Hc q' Hq Hk Hv. destruct (adv_proc _ _ A j q' Hq) as (q & Hq' & P).
  destruct (pa_cached _ _ _ P v Hv) as [Hin|Hm]; [|done]. by apply (Hc q Hq'); [by apply P|].
Qed.
Lemma covered_gone s v g : covered s v g → gone s v.
Proof. by intros []. Qed.
Lemma covered_adv s s' v g : adv s s' → covered s v g → covered s' v g.
Proof.
  intros A (Hg & Hgen & Hc). split; [by apply (adv_gone _ _ A)|]. split; [pose proof (adv_generation _ _ A); lia|].
  intros j q' Hq Hk Hv. destruct (adv_proc _ _ A j q' Hq) as (q & Hq' & P).
  destruct (pa_cached _ _ _ P v Hv) as [Hin|Hm]; [|by destruct Hg].
  pose proof (pa_reached _ _ _ P v Hk Hv). pose proof (Hc j q Hq' (pa_kept _ _ _ P Hk) Hin). lia.
Qed.
Lemma targets_adv s s' v mask : adv s s' → gone s v → targets s v mask → targets s' v mask.
Proof. intros A Hg Ht j Hj. by eapply clean_adv, Ht. Qed.
Lemma kcovered_adv s s' v g kg : adv s s' → kcovered s v g kg → kcovered s' v g kg.
Proof.
  intros A (Hg & Hgen & Hkg & Hc). split; [by apply (adv_kgone _ _ A)|].
  split; [pose proof (adv_generation _ _ A); lia|]. split; [pose proof (adv_kernel _ _ A); lia|].
  intros j q' Hq Hk. destruct (adv_proc _ _ A j q' Hq) as (q & Hq' & P).
  destruct (Hc j q Hq' (pa_kept _ _ _ P Hk)) as [Ha Hb]. split; [by apply (pa_kaims _ _ _ P)|].
  intros Hv. apply (pa_behind _ _ _ P g kg v); [done..|]. apply Hb.
  destruct (pa_kernel _ _ _ P v Hv) as [Hin|Hm]; [done|by destruct Hg].
Qed.
Lemma kstepped_adv s s' v kg : adv s s' → kstepped s v kg → kstepped s' v kg.
Proof.
  intros A (Hg & Hkg & Hc). split; [by apply (adv_kgone _ _ A)|]. split; [pose proof (adv_kernel _ _ A); lia|].
  intros j q' Hq Hk Hv. destruct (adv_proc _ _ A j q' Hq) as (q & Hq' & P).
  destruct (pa_kernel _ _ _ P v Hv) as [Hin|Hm]; [|by destruct Hg].
  pose proof (pa_kreached _ _ _ P v Hk Hv). pose proof (Hc j q Hq' (pa_kept _ _ _ P Hk) Hin). lia.
Qed.
#[local] Hint Resolve clean_adv covered_adv targets_adv kcovered_adv kstepped_adv covered_gone adv_gone adv_kgone : core.

Lemma pc_ok_adv s s' i p : adv s s' → pc_ok s i p → pc_ok s' i p.
Proof.
  intros A. unfold pc_ok. destruct (pc p); try done; try naive_solver.
  - intros (H & H' & Hon). split; [by eauto|]. split; [by eauto|]. intros j q' Hq Hk.
    destruct (adv_proc _ _ A j q' Hq) as (q & Hq' & P). apply (Hon j q Hq'). by apply P.
Qed.

(** ** One processor moves *)

Lemma adv_refl s : adv s s.
Proof. split; auto; [lia..|]. intros j p Hp. exists p. split; [done|apply padv_refl]. Qed.
(** What a step is to come to. *)
Definition goes (s s' : Space) : Prop := space_inv s' ∧ adv s s'.
Lemma goes_refl s : space_inv s → goes s s.
Proof. intros I. split; [done|apply adv_refl]. Qed.
#[local] Hint Resolve goes_refl : core.

Section move.
Context (s s' : Space) (i : N) (p p' : Processor).
Context (I : space_inv s) (Hi : processors s !! i = Some p) (Hp : processors s' = <[i := p']> (processors s)).
(** What the rest of the memory does. *)
Record around : Prop := {
  ar_generation : generation s <= generation s';
  ar_kernel : kernel_generation s <= kernel_generation s';
  ar_fresh : fresh s <= fresh s';
  ar_mapped v : mapped s' = Some v → mapped s = Some v ∨ (v = fresh s ∧ v < fresh s');
  ar_mapped_kernel v : mapped_kernel s' = Some v → mapped_kernel s = Some v ∨ (v = fresh s ∧ v < fresh s');
  ar_live j : j ≠ i → N.testbit (live s) j = true → N.testbit (live s') j = true;
  ar_online j : j ≠ i → N.testbit (online s) j = true → N.testbit (online s') j = true
}.
Context (R : around) (P : padv s p p').

Lemma moved_lookup j : processors s' !! j = if decide (i = j) then Some p' else processors s !! j.
Proof using Hi Hp.
  rewrite Hp, table_insert. repeat case_decide; try done; [naive_solver|]. subst.
  exfalso. apply H. split; [done|]. by eapply table_lookup_lt.
Qed.
Lemma adv_move : adv s s'.
Proof using Hi Hp R P.
  split; [apply R|apply R|..].
  - intros v [Hv Hm]. split; [pose proof (ar_fresh R); lia|]. intros Hm'.
    destruct (ar_mapped R v Hm') as [?|[-> _]]; [done|lia].
  - intros v [Hv Hm]. split; [pose proof (ar_fresh R); lia|]. intros Hm'.
    destruct (ar_mapped_kernel R v Hm') as [?|[-> _]]; [done|lia].
  - intros j q. rewrite moved_lookup. case_decide as Hd; [intros [= <-]; subst j; by exists p|].
    intros Hq. exists q. split; [done|apply padv_refl].
Qed.

Lemma inv_move :
  proc_ok s' i p' →
  (∀ w, w ∈ withdrawals s' → w ∈ withdrawals s ∨
     covered s' (wd_version w) (wd_unmapped_at w) ∧ targets s' (wd_version w) (wd_unmapped_cpus w)) →
  (∀ r, r ∈ retired s' → r ∈ retired s ∨ ∃ kg, kcovered s' (rt_version r) (rt_stamp r) kg) →
  goes s s'.
Proof using All.
  intros Hok Hw Hr. pose proof adv_move as A. split; [|done]. split.
  - rewrite Hp, tlen_insert. apply I.
  - intros j q. rewrite moved_lookup. case_decide as Hd; [intros [= <-]; by subst j|]. intros Hq.
    pose proof (inv_proc _ I j q Hq) as O. split; try apply O.
    + intros H. apply (ar_live R); [congruence|]. by apply O.
    + intros Hk. destruct (ok_range _ _ _ O Hk) as (H1 & H2 & H3).
      pose proof (ar_generation R). pose proof (ar_kernel R). split; [lia|]. split; [lia|].
      destruct (refresh q); lia.
    + intros v Hv. pose proof (ok_fresh _ _ _ O v Hv). pose proof (ar_fresh R). lia.
    + intros H. apply (ar_online R); [congruence|]. by apply O.
    + eapply pc_ok_adv; [done|]. apply O.
  - pose proof (ar_fresh R).
    intros v [Hv|Hv]; [destruct (ar_mapped R v Hv) as [?|[_ ?]]|destruct (ar_mapped_kernel R v Hv) as [?|[_ ?]]];
      try done; pose proof (inv_mapped _ I v ltac:(auto)); lia.
  - intros w [Hin|?]%Hw; [|done]. destruct (inv_withdrawn _ I w Hin). split; eauto.
  - intros r [Hin|?]%Hr; [|done]. destruct (inv_retired _ I r Hin) as [kg Hkg]. exists kg. eauto.
Qed.
End move.

Lemma around_self s s' i :
  generation s' = generation s → kernel_generation s' = kernel_generation s → fresh s' = fresh s →
  mapped s' = mapped s → mapped_kernel s' = mapped_kernel s → live s' = live s → online s' = online s → around s s' i.
Proof. intros H1 H2 H3 H4 H5 H6 H7. split; rewrite ?H1, ?H2, ?H3, ?H4, ?H5, ?H6, ?H7; auto; lia. Qed.

Lemma on_processors i f s p :
  processors s !! i = Some p → processors (on i f s) = <[i := f p]> (processors s).
Proof. intros H. cbn. by apply table_alter_as_insert. Qed.

(** A move of one processor and of nothing else. *)
Lemma inv_on s i p f :
  space_inv s → processors s !! i = Some p → padv s p (f p) →
  (adv s (on i f s) → proc_ok (on i f s) i (f p)) → goes s (on i f s).
Proof.
  intros I Hi P Hok.
  assert (R : around s (on i f s) i) by by apply around_self.
  eapply inv_move; [done|done|by apply on_processors|done|done| |by left|by left].
  apply Hok. eapply adv_move; [done|by apply on_processors|done|done].
Qed.

(** A processor that goes elsewhere and changes nothing it knows. *)
Definition still (p p' : Processor) : Prop :=
  seen p' = seen p ∧ seen_kernel p' = seen_kernel p ∧ refresh p' = refresh p ∧
  cached p' = cached p ∧ cached_kernel p' = cached_kernel p ∧ kept p' = kept p.
Lemma padv_still s p p' : still p p' → padv s p p'.
Proof.
  intros (H1 & H2 & H3 & H4 & H5 & H6).
  split; unfold reached, kreached, kaims, behind, reached, kreached; rewrite ?H1, ?H2, ?H3, ?H4, ?H5, ?H6; auto; lia.
Qed.

(** ** A refresh *)

Lemma pc_ok_same s i p p' : pc p' = pc p → pc_ok s i p → pc_ok s i p'.
Proof. intros H. unfold pc_ok. by rewrite H. Qed.

(** A processor that only advances its refresh. *)
Lemma inv_refreshing s i p f :
  space_inv s → processors s !! i = Some p → padv s p (f p) →
  pc (f p) = pc p → loaded (f p) = loaded p → (cached (f p) = cached p ∨ cached (f p) = []) →
  (cached_kernel (f p) = cached_kernel p ∨ cached_kernel (f p) = []) →
  (kept p → in_range s p → in_range s (f p)) → goes s (on i f s).
Proof.
  intros I Hi P Hpc Hl Hc Hck Hr. apply (inv_on s i p f I Hi P). intros A.
  pose proof (inv_proc _ I i p Hi) as O.
  assert (Hk : kept (f p) = kept p) by (unfold kept; by rewrite Hpc).
  split; rewrite ?Hpc, ?Hl, ?Hk; try apply O.
  - intros H. destruct Hc as [->| ->]; [by apply O|done].
  - intros H. apply Hr; [done|]. by apply O.
  - intros v [Hv|Hv].
    + destruct Hc as [E|E]; rewrite E in Hv; [apply O; auto|by apply not_elem_of_nil in Hv].
    + destruct Hck as [E|E]; rewrite E in Hv; [apply O; auto|by apply not_elem_of_nil in Hv].
  - apply (pc_ok_same _ _ p); [done|]. eapply pc_ok_adv; [done|]. apply O.
Qed.

Ltac flat := split; unfold reached, kreached, kaims, behind, reached, kreached, kept; cbn;
  try (intros; by auto).

Lemma inv_refresh s i p :
  space_inv s → processors s !! i = Some p → goes s (refresh_local i p s).
Proof.
  intros I Hi. unfold refresh_local. destruct (refresh p) as [| |w|w wk|w wk|w] eqn:Hr; [by apply goes_refl|..];
    apply (inv_refreshing s i p); try done; try (by left); cbn.
  - case_decide; flat; rewrite ?Hr; auto; lia.
  - intros _ (H1 & H2 & _). unfold in_range. case_decide; cbn; auto using N.le_refl.
  - flat; rewrite ?Hr; auto. all: lia.
  - intros _ (H1 & H2 & H3). rewrite Hr in H3. unfold in_range; cbn. auto using N.le_refl.
  - case_decide as Hd; flat; rewrite ?Hr; auto; try lia; try (intros; by match goal with H : _ ∈ [] |- _ => apply not_elem_of_nil in H end).
  - by case_decide.
  - by case_decide.
  - case_decide; cbn; by right.
  - case_decide; cbn; auto.
  - intros _ (H1 & H2 & H3). rewrite Hr in H3. unfold in_range. case_decide; cbn; auto.
  - flat; rewrite ?Hr; auto; lia.
  - intros _ (H1 & H2 & H3). rewrite Hr in H3. unfold in_range; cbn. tauto.
  - flat; rewrite ?Hr; auto; lia.
  - intros _ (H1 & H2 & H3). rewrite Hr in H3. unfold in_range; cbn. tauto.
Qed.

(** ** What a processor does *)

(** A processor goes on, its caches and refresh as they are. *)
Lemma inv_goes s s' i p p' :
  space_inv s → processors s !! i = Some p → processors s' = <[i := p']> (processors s) → around s s' i →
  still p p' → loaded p' = loaded p →
  (loaded p = true ∨ pc p' = Noted ∨ pc p' = Entering → N.testbit (live s') i = true) →
  (pc p' = Left → loaded p = false) → (kept p → N.testbit (online s) i = true → N.testbit (online s') i = true) →
  (∀ w, w ∈ withdrawals s' → w ∈ withdrawals s ∨
     (adv s s' → covered s' (wd_version w) (wd_unmapped_at w) ∧ targets s' (wd_version w) (wd_unmapped_cpus w))) →
  (∀ r, r ∈ retired s' → r ∈ retired s ∨ (adv s s' → ∃ kg, kcovered s' (rt_version r) (rt_stamp r) kg)) →
  (adv s s' → pc_ok s i p → pc_ok s' i p') → goes s s'.
Proof.
  intros I Hi Hp R St Hl Hlive Hleft Hon Hw Hr Hpc. pose proof (inv_proc _ I i p Hi) as O.
  pose proof (padv_still s p p' St) as P. pose proof (adv_move s s' i p p' Hi Hp R P) as A.
  destruct St as (H1 & H2 & H3 & H4 & H5 & H6).
  eapply (inv_move s s' i p p'); try done.
  - split; rewrite ?Hl, ?H4, ?H5, ?H6; try apply O; try done.
    + intros Hk. destruct (ok_range _ _ _ O Hk) as (R1 & R2 & R3). unfold in_range. rewrite H1, H2, H3.
      pose proof (ar_generation _ _ _ R). pose proof (ar_kernel _ _ _ R). split; [lia|]. split; [lia|].
      destruct (refresh p); lia.
    + intros v Hv. pose proof (ok_fresh _ _ _ O v Hv). pose proof (ar_fresh _ _ _ R). lia.
    + intros Hk. apply Hon; [done|]. by apply O.
    + apply Hpc; [done|]. apply O.
  - intros w Hin. destruct (Hw w Hin); auto.
  - intros r Hin. destruct (Hr r Hin); auto.
Qed.

(** A processor that only goes to another place. *)
Lemma inv_goto s i p to :
  space_inv s → processors s !! i = Some p → kept p = true → kept (p <| pc := to |>) = true →
  (to = Noted ∨ to = Entering → N.testbit (live s) i = true) → (to = Left → loaded p = false) →
  (adv s (goto i to s) → pc_ok s i p → pc_ok (goto i to s) i (p <| pc := to |>)) → goes s (goto i to s).
Proof.
  intros I Hi Hk Hk' Hlive Hleft Hpc. pose proof (inv_proc _ I i p Hi) as O.
  eapply (inv_goes s _ i p (p <| pc := to |>)); try done; try (by left).
  - by apply on_processors.
  - by apply around_self.
  - repeat split; congruence.
  - cbn. intros [H|H]; [apply O; auto|by apply Hlive].
Qed.

(** The start of a refresh on the way. *)
Lemma inv_starts s i p to :
  space_inv s → processors s !! i = Some p → refresh p = Settled → kept p = true → kept (p <| pc := to |>) = true →
  (to = Entering → N.testbit (live s) i = true) → to ≠ Noted → to ≠ Left →
  (adv s (on i (λ p, p <| refresh := Starting |> <| pc := to |>) s) → pc_ok s i p →
   pc_ok (on i (λ p, p <| refresh := Starting |> <| pc := to |>) s) i (p <| refresh := Starting |> <| pc := to |>)) →
  goes s (on i (λ p, p <| refresh := Starting |> <| pc := to |>) s).
Proof.
  intros I Hi Hr Hk Hk' Hlive Hn Hleft Hpc. pose proof (inv_proc _ I i p Hi) as O.
  apply (inv_on s i p); [done|done| |].
  - flat; rewrite ?Hr; auto; lia.
  - intros A. split; cbn; try apply O; try done.
    + intros [H|[H|H]]; [apply O; auto|done|by apply Hlive].
    + intros _. destruct (ok_range _ _ _ O) as (H1 & H2 & _); [by rewrite Hk|]. by split.
    + intros _. apply O. by rewrite Hk.
    + apply Hpc; [done|]. apply O.
Qed.

Lemma inv_fill s i p v :
  space_inv s → processors s !! i = Some p → mapped s = Some v → loaded p = true →
  goes s (on i (λ p, p <| cached ::= cons v |>) s).
Proof.
  intros I Hi Hm Hl. pose proof (inv_proc _ I i p Hi) as O. apply (inv_on s i p); [done|done| |].
  - flat. intros v' [->|?]%elem_of_cons; auto. all: try lia. 
  - intros A. split; cbn; try apply O; try done; [by rewrite Hl| |].
    + intros v' [[->|?]%elem_of_cons|?]; [apply (inv_mapped _ I); auto|apply O; auto..].
    + apply (pc_ok_same _ _ p); [done|]. eapply pc_ok_adv; [done|]. apply O.
Qed.
Lemma inv_fill_kernel s i p v :
  space_inv s → processors s !! i = Some p → mapped_kernel s = Some v →
  goes s (on i (λ p, p <| cached_kernel ::= cons v |>) s).
Proof.
  intros I Hi Hm. pose proof (inv_proc _ I i p Hi) as O. apply (inv_on s i p); [done|done| |].
  - flat. intros v' [->|?]%elem_of_cons; auto. all: try lia.
  - intros A. split; cbn; try apply O; try done.
    + intros v' [?|[->|?]%elem_of_cons]; [apply O; auto|apply (inv_mapped _ I); auto|apply O; auto].
    + apply (pc_ok_same _ _ p); [done|]. eapply pc_ok_adv; [done|]. apply O.
Qed.

Lemma reached_range s p : in_range s p → reached p <= generation s ∧ kreached p <= kernel_generation s.
Proof. intros (H1 & H2 & H3). unfold reached, kreached. destruct (refresh p); lia. Qed.

(** A generation published now covers what is gone. *)
Lemma publish_next s : lasting s → (publish s).1 = generation s + 1.
Proof. intros [Hl _]. apply wrapping_add_small. change (2 ^ 64) with (U64_MAX + 1). lia. Qed.
Section published.
Context (s s' : Space) (I : space_inv s) (A : adv s s') (Hg : generation s' = generation s + 1).
(** ... in a step in which no cache is filled and no refresh goes on. *)
Context (Hsame : ∀ j q', processors s' !! j = Some q' → ∃ q, processors s !! j = Some q ∧ still q q').
Lemma covered_published v : gone s' v → covered s' v (generation s + 1).
Proof using All.
  intros Hv. split; [done|]. split; [lia|]. intros j q' Hq Hk _.
  destruct (Hsame j q' Hq) as (q & Hq' & (H1 & H2 & H3 & H4 & H5 & H6)). rewrite H6 in Hk.
  destruct (reached_range s q) as [H _]; [by apply (inv_proc _ I j q)|].
  unfold reached in *. rewrite H1, H3. lia.
Qed.
Lemma kcovered_published v kg : kstepped s' v kg → kcovered s' v (generation s + 1) kg.
Proof using All.
  intros (Hv & Hkg & Hc). split; [done|]. split; [lia|]. split; [done|]. intros j q' Hq Hk.
  destruct (Hsame j q' Hq) as (q & Hq' & (H1 & H2 & H3 & H4 & H5 & H6)). pose proof Hk as Hk'. rewrite H6 in Hk'.
  pose proof (ok_range _ _ _ (inv_proc _ I j q Hq') Hk') as Hr. pose proof (reached_range s q Hr) as [Hle _].
  split.
  - destruct Hr as (_ & _ & Hr). unfold kaims. rewrite H3. destruct (refresh q); try done; intros; lia.
  - intros Hin. split; [unfold reached in *; rewrite H1, H3; lia|by apply (Hc j)].
Qed.
End published.
Lemma still_moved s s' i p p' :
  processors s !! i = Some p → processors s' = <[i := p']> (processors s) → still p p' →
  ∀ j q', processors s' !! j = Some q' → ∃ q, processors s !! j = Some q ∧ still q q'.
Proof.
  intros Hi Hp St j q'. rewrite (moved_lookup s s' i p p' Hi Hp). case_decide as Hd.
  - intros [= <-]. subst j. by exists p.
  - intros Hq. exists q'. split; [done|]. repeat split.
Qed.

(** A publication, and what it is recorded as. *)
Lemma inv_publish s s' i p to :
  space_inv s → lasting s → processors s !! i = Some p → kept p = true → kept (p <| pc := to |>) = true →
  s' = (goto i to (s <| generation := generation s + 1 |>)) → to ≠ Noted → to ≠ Entering → to ≠ Left →
  (adv s s' → (∀ v, gone s v → covered s' v (generation s + 1)) → pc_ok s i p → pc_ok s' i (p <| pc := to |>)) →
  goes s s'.
Proof.
  intros I Hl Hi Hk Hk' -> H1 H2 H3 Hpc. pose proof (inv_proc _ I i p Hi) as O.
  assert (St : still p (p <| pc := to |>)) by (repeat split; congruence).
  pose proof (on_processors i (λ p, p <| pc := to |>) (s <| generation := generation s + 1 |>) p Hi) as Hp.
  eapply (inv_goes s _ i p (p <| pc := to |>)); try done; try (by left).
  - split; cbn; auto; lia.
  - cbn. intros [H|[H|H]]; [apply O; auto|done..].
  - intros A Hok. apply Hpc; [done| |done]. intros v Hv.
    apply (covered_published s _ I); [done|done|by eapply still_moved|].
    by apply (adv_gone _ _ A).
Qed.

Lemma clean_self s v i p : processors s !! i = Some p → clean s v i ↔ (kept p → v ∉ cached p).
Proof. intros Hi. unfold clean. rewrite Hi. naive_solver. Qed.

(** The removal of the entry, and its local invalidation. *)
Lemma inv_remove s i p v :
  space_inv s → processors s !! i = Some p → pc p = Running → refresh p = Settled → mapped s = Some v →
  goes s (remove i p v s).
Proof.
  intros I Hi Hpc Hr Hm. pose proof (inv_proc _ I i p Hi) as O. unfold remove.
  set (p' := (if loaded p then p <| cached := [] |> else p) <| pc := Removed v |>).
  assert (Hp : processors (remove i p v s) = <[i := p']> (processors s)).
  { unfold remove. set (s0 := s <| mapped := None |>). exact (on_processors i _ s0 p Hi). }
  assert (Hc' : cached p' = [] ∧ loaded p' = loaded p ∧ pc p' = Removed v ∧ cached_kernel p' = cached_kernel p ∧
    seen p' = seen p ∧ seen_kernel p' = seen_kernel p ∧ refresh p' = refresh p).
  { subst p'. destruct (loaded p) eqn:Hl; cbn; repeat split; auto. by apply O. }
  destruct Hc' as (C1 & C2 & C3 & C4 & C5 & C6 & C7).
  assert (R : around s (remove i p v s) i) by (split; cbn; auto; try lia; by intros).
  assert (P : padv s p p').
  { split; unfold reached, kreached, kaims, behind, reached, kreached, kept; rewrite ?C1, ?C3, ?C4, ?C5, ?C6, ?C7, ?Hpc; auto; try lia.
    intros w Hw. by apply not_elem_of_nil in Hw. }
  assert (Hv : v < fresh s) by (apply (inv_mapped _ I); auto).
  eapply (inv_move s (remove i p v s) i p p'); try done; [|by left|by left].
  split; unfold kept, pc_ok; rewrite ?C1, ?C2, ?C3, ?C4.
  - intros [H|[H|H]]; [|done..]. cbn. by apply O; auto.
  - done.
  - done.
  - intros _. destruct (ok_range _ _ _ O) as (H1 & H2 & H3); [unfold kept; by rewrite Hpc|].
    unfold in_range. rewrite C5, C6, C7, Hr. cbn. auto.
  - intros w [Hw|Hw]; [by apply not_elem_of_nil in Hw|]. cbn. apply O; auto.
  - intros _. cbn. apply O. unfold kept; by rewrite Hpc.
  - split; [by split|]. apply (clean_self _ _ _ p'); [rewrite Hp; apply table_insert_eq; by eapply table_lookup_lt|].
    intros _. rewrite C1. apply not_elem_of_nil.
Qed.

Lemma bit_other i j : j ≠ i → N.testbit (bit i) j = false.
Proof. intros H. unfold bit. rewrite N.shiftl_1_l. apply N.pow2_bits_false. congruence. Qed.
Lemma andnot_other x i j : j ≠ i → N.testbit (andnot x (bit i)) j = N.testbit x j.
Proof. intros H. unfold andnot. by rewrite N.ldiff_spec, bit_other, andb_true_r. Qed.
Lemma bit_self i : N.testbit (bit i) i = true.
Proof. unfold bit. rewrite N.shiftl_1_l. apply N.pow2_bits_true. Qed.
Lemma wrap_next x : x + 1 < U64_MAX → wrapping_add 64 x 1 = x + 1.
Proof. intros. apply wrapping_add_small. change (2 ^ 64) with (U64_MAX + 1). lia. Qed.

Ltac settle := repeat split; unfold kept; cbn; try congruence; auto.

(** Between operations. *)
Lemma inv_enter s i p :
  space_inv s → processors s !! i = Some p → pc p = Running → goes s (goto i Noted (note_dispatch i s)).
Proof.
  intros I Hi Hpc. assert (Hself : N.testbit (live (note_dispatch i s)) i = true).
  { unfold note_dispatch. destruct (N.testbit (live s) i) eqn:E; [done|]. cbn. by rewrite N.lor_spec, bit_self, orb_true_r. }
  assert (Hn : processors (note_dispatch i s) = processors s) by (unfold note_dispatch; by case_match).
  eapply (inv_goes s _ i p (p <| pc := Noted |>)); try done; try (by left).
  - rewrite <-Hn. rewrite <-Hn in Hi. exact (on_processors i _ _ p Hi).
  - unfold note_dispatch. destruct (N.testbit (live s) i); split; cbn; auto; try lia.
    intros j _ Hj. by rewrite N.lor_spec, Hj.
  - settle. by rewrite Hpc.
  - intros _ Ho. unfold note_dispatch. by case_match.
  - unfold note_dispatch. case_match; by left.
  - unfold note_dispatch. case_match; by left.
Qed.
Lemma inv_map s i p v :
  space_inv s → processors s !! i = Some p → fresh s = v → mapped s = None →
  goes s (s <| mapped := Some v |> <| fresh ::= λ v, v + 1 |>).
Proof.
  intros I Hi <- Hm. eapply (inv_goes s _ i p p); try done; try (by left).
  - cbn. by rewrite table_insert_id.
  - split; cbn; auto; try lia. intros v [= <-]. right. lia.
  - intros H. destruct H as [H|[H|H]]; cbn; apply (inv_proc _ I i p Hi); auto.
  - intros H. by apply (inv_proc _ I i p Hi).
  - intros A Hok. by eapply pc_ok_adv.
Qed.
Lemma inv_map_kernel s i p v :
  space_inv s → processors s !! i = Some p → fresh s = v → mapped_kernel s = None →
  goes s (s <| mapped_kernel := Some v |> <| fresh ::= λ v, v + 1 |>).
Proof.
  intros I Hi <- Hm. eapply (inv_goes s _ i p p); try done; try (by left).
  - cbn. by rewrite table_insert_id.
  - split; cbn; auto; try lia. intros v [= <-]. right. lia.
  - intros H. destruct H as [H|[H|H]]; cbn; apply (inv_proc _ I i p Hi); auto.
  - intros H. by apply (inv_proc _ I i p Hi).
  - intros A Hok. by eapply pc_ok_adv.
Qed.
Lemma inv_unmap_kernel s i p v :
  space_inv s → processors s !! i = Some p → pc p = Running → mapped_kernel s = Some v →
  goes s (goto i (KernelRemoved v) (s <| mapped_kernel := None |>)).
Proof.
  intros I Hi Hpc Hm. set (s0 := s <| mapped_kernel := None |>).
  eapply (inv_goes s _ i p (p <| pc := KernelRemoved v |>)); try done; try (by left).
  - exact (on_processors i _ s0 p Hi).
  - split; cbn; auto; try lia. by intros.
  - settle. by rewrite Hpc.
  - cbn. intros [H|[H|H]]; try done. apply (inv_proc _ I i p Hi); auto.
  - intros A _. split; [|done]. cbn. apply (inv_mapped _ I). auto.
Qed.
Lemma inv_park s i p :
  space_inv s → processors s !! i = Some p → pc p = Running ∨ pc p = Parking → refresh p = Settled →
  goes s (mark_offline i p s).
Proof.
  intros I Hi [Hpc|Hpc] Hr; unfold mark_offline; rewrite Hpc; pose proof (inv_proc _ I i p Hi) as O.
  - apply (inv_on s i p); [done|done|flat; done|]. intros A. split; cbn; try apply O; try done.
    intros [H|[H|H]]; [apply O; auto|done..].
  - set (s0 := s <| online ::= λ o, andnot o (bit i) |>).
    eapply (inv_goes s _ i p (p <| pc := Parked |>)); try done; try (by left).
    + exact (on_processors i _ s0 p Hi).
    + split; cbn; auto; try lia. intros j Hj Ho. by rewrite andnot_other.
    + settle. by rewrite Hpc.
    + cbn. intros [H|[H|H]]; try done. apply O; auto.
    + unfold kept. by rewrite Hpc.
Qed.
Lemma inv_switch_into s i p :
  space_inv s → processors s !! i = Some p → pc p = Entering → goes s (switch_into i p s).
Proof.
  intros I Hi Hpc. pose proof (inv_proc _ I i p Hi) as O. unfold switch_into.
  set (f := λ p, (if loaded p then p else flush_tlb_user p <| loaded := true |>) <| pc := Running |>).
  assert (Hk : kept p = true) by (unfold kept; by rewrite Hpc).
  assert (F : loaded (f p) = true ∧ pc (f p) = Running ∧ (cached (f p) = cached p ∨ cached (f p) = []) ∧
    cached_kernel (f p) = cached_kernel p ∧ seen (f p) = seen p ∧ seen_kernel (f p) = seen_kernel p ∧ refresh (f p) = refresh p).
  { subst f. cbn. destruct (loaded p) eqn:Hl; cbn; auto 10. }
  destruct F as (C1 & C2 & C3 & C4 & C5 & C6 & C7).
  apply (inv_on s i p f); [done|done| |].
  - split; unfold reached, kreached, kaims, behind, reached, kreached; rewrite ?C4, ?C5, ?C6, ?C7; auto; try lia.
    destruct C3 as [->| ->]; auto. intros v Hv. by apply not_elem_of_nil in Hv.
  - intros A. split; unfold kept, pc_ok; rewrite ?C1, ?C2, ?C4; try done.
    + intros _. cbn. apply O. auto.
    + intros _. destruct (ok_range _ _ _ O) as (H1 & H2 & H3); [by rewrite Hk|]. unfold in_range. by rewrite C5, C6, C7.
    + intros v Hv. cbn. apply O. destruct C3 as [E|E]; rewrite E in Hv; [done|]. destruct Hv as [Hv|]; [by apply not_elem_of_nil in Hv|auto].
    + intros _. cbn. apply O. by rewrite Hk.
Qed.
Lemma inv_switch_away s i p :
  space_inv s → processors s !! i = Some p → pc p = Leaving ∨ pc p = Left → goes s (switch_away i p s).
Proof.
  intros I Hi [Hpc|Hpc]; unfold switch_away; rewrite Hpc; pose proof (inv_proc _ I i p Hi) as O;
    assert (Hk : kept p = true) by (unfold kept; by rewrite Hpc).
  - destruct (loaded p) eqn:Hl; [|apply (inv_goto s i p); try done; by intros []].
    apply (inv_on s i p); [done|done| |].
    + flat; auto; try lia; try (by intros v Hv%not_elem_of_nil).
    + intros A. split; cbn; try done.
      * by intros [H|[H|H]].
      * intros _. destruct (ok_range _ _ _ O) as (H1 & H2 & H3); [by rewrite Hk|]. by split.
      * intros v [Hv%not_elem_of_nil|Hv]; [done|]. apply O; auto.
      * intros _. apply O. by rewrite Hk.
  - pose proof (ok_left _ _ _ O Hpc) as Hl. set (s0 := s <| live ::= λ l, andnot l (bit i) |>).
    eapply (inv_goes s _ i p (p <| pc := Running |>)); try done; try (by left).
    + exact (on_processors i _ s0 p Hi).
    + split; cbn; auto; try lia. intros j Hj Ho. by rewrite andnot_other.
    + rewrite Hl. by intros [H|[H|H]].
Qed.

(** A withdrawal, the wait for it, and a frame of the kernel half. *)
Lemma inv_withdraw s i p :
  space_inv s → lasting s → processors s !! i = Some p →
  (∃ v, pc p = Removed v) ∨ (∃ v g, pc p = Published v g) → goes s (withdraw i p s).
Proof.
  intros I Hl Hi [(v & Hpc)|(v & g & Hpc)]; unfold withdraw; rewrite Hpc; pose proof (inv_proc _ I i p Hi) as O;
    assert (Hk : kept p = true) by (unfold kept; by rewrite Hpc).
  - unfold publish. rewrite wrap_next by apply Hl. eapply (inv_publish s _ i p (Published v (generation s + 1))); try done.
    intros A Hcov Hok. unfold pc_ok in Hok. rewrite Hpc in Hok. destruct Hok as [Hg Hc].
    split; [by apply Hcov|by eapply clean_adv].
  - set (mask := N.lor _ _). set (s0 := s <| withdrawals ::= cons (mkWithdrawal v g mask) |>).
    assert (Hok : pc_ok s i p) by apply O. unfold pc_ok in Hok. rewrite Hpc in Hok. destruct Hok as [Hcov Hc].
    eapply (inv_goes s _ i p (p <| pc := Recorded v |>)); try done; try (by left).
    + exact (on_processors i _ s0 p Hi).
    + by apply around_self.
    + cbn. intros [H|[H|H]]; [apply O; auto|done..].
    + intros w [->|Hw]%elem_of_cons; [right|by left]. intros A. cbn. split; [by eapply covered_adv|].
      (* who is not in the mask holds nothing *)
      eapply targets_adv; [done|by eapply covered_gone|]. intros j Hj. subst mask.
      destruct (decide (j = i)) as [->|Hne]; [done|]. intros q Hq Hkq. pose proof (inv_proc _ I j q Hq) as Oq.
      rewrite N.lor_spec in Hj. apply orb_false_iff in Hj as [Hj _].
      rewrite andnot_other in Hj by done.
      destruct (loaded q) eqn:Hlq; [|rewrite (ok_cached _ _ _ Oq Hlq); apply not_elem_of_nil].
      pose proof (ok_live _ _ _ Oq (or_introl Hlq)). congruence.
    + intros A _. split; [eauto|]. eapply clean_adv; [done|by eapply covered_gone|done].
Qed.

Lemma seen_reached p : seen p <= reached p.
Proof. unfold reached. destruct (refresh p); lia. Qed.

Lemma inv_scanned s i p v ack :
  space_inv s → processors s !! i = Some p → kept p = true → gone s v →
  (ack_timed_out ack = false → ∀ j, clean s v j) → goes s (goto i (Acked v ack) s).
Proof.
  intros I Hi Hk Hg Hc. apply (inv_goto s i p); try done; try (by intros []).
  intros A _. split; [by apply (adv_gone _ _ A)|]. intros Ht j. eauto.
Qed.

Lemma inv_wait s i p :
  space_inv s → processors s !! i = Some p →
  (∃ v g mask, pc p = Waiting v g mask) ∨ (∃ v g mask spins cpu out, pc p = Scanning v g mask spins cpu out) →
  goes s (wait_for_mask i p s).
Proof.
  intros I Hi Hcase. pose proof (inv_proc _ I i p Hi) as O. assert (Hok : pc_ok s i p) by apply O.
  unfold wait_for_mask, pc_ok in *.
  destruct Hcase as [(v & g & mask & Hpc)|(v & g & mask & spins & cpu & out & Hpc)]; rewrite Hpc in *;
    assert (Hk : kept p = true) by (unfold kept; by rewrite Hpc).
  - apply (inv_goto s i p); try done; try (by intros []). intros A _. destruct Hok as [Hcov Ht].
    split; [eauto|]. split; [eauto|]. intros _ j Hj. lia.
  - destruct Hok as (Hcov & Ht & Hscan). case_decide as Hcpu.
    + apply (inv_goto s i p); try done; try (by intros []). intros A _. split; [eauto|]. split; [eauto|].
      intros [Hout Hb]%orb_false_iff j Hj. eapply clean_adv; [done|eauto|].
      destruct (decide (j = cpu)) as [->|]; [|apply Hscan; [done|lia]].
      destruct (N.testbit mask cpu) eqn:Hbit; [|by apply Ht]. intros q Hq Hkq Hin. rewrite Hq in Hb. cbn in Hb.
      apply bool_decide_eq_false in Hb. destruct Hcov as (_ & _ & Hcov).
      pose proof (Hcov cpu q Hq Hkq Hin). pose proof (seen_reached q). lia.
    + destruct out; cbn.
      * case_decide; [by apply (inv_scanned s i p); eauto|]. apply (inv_goto s i p); try done; try (by intros []).
        intros A _. split; [eauto|]. split; [eauto|]. intros _ j Hj. lia.
      * apply (inv_scanned s i p); eauto. intros _ j. destruct (decide (j < MAX_CPUS)); [apply Hscan; [done|lia]|].
        intros q Hq. apply table_lookup_lt in Hq. rewrite (inv_size _ I) in Hq. lia.
Qed.

Lemma inv_shootdown_space s i p :
  space_inv s → lasting s → processors s !! i = Some p → refresh p = Settled →
  (∃ v, pc p = Recorded v) ∨ (∃ v g, pc p = Shot v g) ∨ (∃ v g on, pc p = Counted v g on) →
  goes s (shootdown_space i p s).
Proof.
  intros I Hl Hi Hr Hcase. pose proof (inv_proc _ I i p Hi) as O. assert (Hok : pc_ok s i p) by apply O.
  unfold shootdown_space, pc_ok in *.
  destruct Hcase as [(v & Hpc)|[(v & g & Hpc)|(v & g & on & Hpc)]]; rewrite Hpc in *;
    assert (Hk : kept p = true) by (unfold kept; by rewrite Hpc).
  - unfold publish. rewrite wrap_next by apply Hl. destruct Hok as [Hg Hc].
    eapply (inv_publish s _ i p (Shot v (generation s + 1))); try done.
    intros A Hcov _. split; [by apply Hcov|by eapply clean_adv].
  - destruct Hok as [Hcov Hc]. apply (inv_goto s i p); try done; try (by intros []). intros A _.
    split; [eauto|]. split; [eauto|]. intros j q Hq Hkq. destruct (adv_proc _ _ A j q Hq) as (q0 & Hq0 & P).
    apply (inv_proc _ I j q0 Hq0). by apply P.
  - destruct Hok as (Hcov & Hc & Hon). set (live' := N.land _ _).
    (* who is not in the set holds nothing *)
    assert (Hlive : targets s v live').
    { intros j Hj q Hq Hkq. pose proof (inv_proc _ I j q Hq) as Oq. subst live'.
      rewrite N.land_spec, (Hon j q Hq Hkq), andb_true_r in Hj.
      destruct (loaded q) eqn:Hlq; [|rewrite (ok_cached _ _ _ Oq Hlq); apply not_elem_of_nil].
      pose proof (ok_live _ _ _ Oq (or_introl Hlq)). congruence. }
    case_decide as Hothers.
    + apply (inv_scanned s i p); eauto. intros _ j. destruct (decide (j = i)) as [->|Hne]; [done|].
      apply Hlive. apply (f_equal (λ x, N.testbit x j)) in Hothers.
      by rewrite andnot_other, N.bits_0 in Hothers.
    + apply (inv_starts s i p); try done. intros A _. split; eauto.
Qed.
Lemma inv_shootdown s i p :
  space_inv s → lasting s → processors s !! i = Some p → refresh p = Settled →
  (∃ v, pc p = Recorded v) ∨ (∃ v g, pc p = Announced v g) → goes s (shootdown i p s).
Proof.
  intros I Hl Hi Hr Hcase. pose proof (inv_proc _ I i p Hi) as O. assert (Hok : pc_ok s i p) by apply O.
  unfold shootdown, pc_ok in *.
  destruct Hcase as [(v & Hpc)|(v & g & Hpc)]; rewrite Hpc in *;
    assert (Hk : kept p = true) by (unfold kept; by rewrite Hpc).
  - unfold publish. rewrite wrap_next by apply Hl. destruct Hok as [Hg Hc].
    eapply (inv_publish s _ i p (Announced v (generation s + 1))); try done. intros A Hcov _. by apply Hcov.
  - apply (inv_starts s i p); try done. intros A _. split; [eauto|]. eapply targets_adv; [done|eauto|].
    intros j Hj q Hq Hkq. pose proof (ok_online _ _ _ (inv_proc _ I j q Hq) Hkq). congruence.
Qed.

Lemma inv_retire_kernel s i p :
  space_inv s → lasting s → processors s !! i = Some p → refresh p = Settled →
  (∃ v, pc p = KernelRemoved v) ∨ (∃ v, pc p = KernelStepped v) → goes s (retire_kernel i p s).
Proof.
  intros I Hl Hi Hr Hcase. pose proof (inv_proc _ I i p Hi) as O. assert (Hok : pc_ok s i p) by apply O.
  unfold retire_kernel, pc_ok in *.
  destruct Hcase as [(v & Hpc)|(v & Hpc)]; rewrite Hpc in *;
    assert (Hk : kept p = true) by (unfold kept; by rewrite Hpc).
  - set (s0 := s <| kernel_generation ::= λ g, wrapping_add 64 g 1 |>).
    assert (Hg : kernel_generation s0 = kernel_generation s + 1) by apply wrap_next, Hl.
    eapply (inv_goes s _ i p (p <| pc := KernelStepped v |>)); try done; try (by left).
    + exact (on_processors i _ s0 p Hi).
    + split; try (cbn; auto; lia). change (kernel_generation s <= kernel_generation s0). lia.
    + cbn. intros [H|[H|H]]; [apply O; auto|done..].
    + intros A _. exists (kernel_generation s + 1). split; [by apply (adv_kgone _ _ A)|].
      split; [change (kernel_generation s + 1 <= kernel_generation s0); lia|].
      intros j q' Hq Hkq Hin. destruct (adv_proc _ _ A j q' Hq) as (q & Hq' & P).
      pose proof (pa_kreached _ _ _ P v Hkq Hin).
      destruct (reached_range s q) as [_ H']; [|lia]. apply (inv_proc _ I j q Hq'). by apply P.
  - destruct Hok as [kg Hst]. unfold publish. rewrite wrap_next by apply Hl.
    set (s0 := s <| generation := generation s + 1 |> <| retired ::= cons (mkRetired v (generation s + 1)) |>).
    set (f := λ p : Processor, p <| cached_kernel := [] |> <| pc := Running |>).
    set (s' := on i f s0). change (goes s s').
    assert (Hp : processors s' = <[i := f p]> (processors s)) by exact (on_processors i f s0 p Hi).
    assert (R : around s s' i) by (split; cbn; auto; lia).
    assert (P : padv s p (f p)).
    { flat; auto; try lia; try (by intros v' Hv%not_elem_of_nil). }
    pose proof (adv_move s s' i p (f p) Hi Hp R P) as A.
    eapply (inv_move s s' i p (f p)); try done; [|by left|].
    + split; cbn; try apply O; try done.
      * intros [H|[H|H]]; [apply O; auto|done..].
      * intros _. destruct (ok_range _ _ _ O) as (H1 & H2 & H3); [by rewrite Hk|].
        rewrite Hr in H3. unfold in_range. cbn. rewrite Hr. split; [lia|]. by split.
      * intros v' [Hv|Hv%not_elem_of_nil]; [|done]. apply O; auto.
      * intros _. apply O. by rewrite Hk.
    + intros r [->|Hin]%elem_of_cons; [right|by left]. exists kg. cbn.
      pose proof (kstepped_adv _ _ _ _ A Hst) as (Hv & Hkg & Hc).
      split; [done|]. split; [cbn; lia|]. split; [done|]. intros j q' Hq Hkq.
      pose proof (Hc j q' Hq Hkq) as Hc'.
      assert (Hle : reached q' <= generation s ∧ kaims (generation s + 1) kg q').
      { rewrite (moved_lookup s s' i p (f p) Hi Hp) in Hq.
        assert (∀ q, in_range s q → reached q <= generation s ∧ kaims (generation s + 1) kg q) as Hrng.
        { intros q Hq'. split; [by apply reached_range|]. destruct Hq' as (_ & _ & H). unfold kaims.
          destruct (refresh q); try done; intros; lia. }
        apply Hrng. case_decide as Hd.
        - injection Hq as <-. destruct (ok_range _ _ _ O) as (H1 & H2 & H3); [by rewrite Hk|]. by split.
        - by apply (inv_proc _ I j q' Hq). }
      destruct Hle as [Hle Ha]. split; [done|]. intros Hin. split; [lia|by apply Hc'].
Qed.

Lemma inv_release_stack s i p :
  space_inv s → lasting s → processors s !! i = Some p →
  pc p = Running ∨ pc p = StackStamping ∨ (∃ g, pc p = StackStamped g) → goes s (release_kernel_stack i p s).
Proof.
  intros I Hl Hi Hcase. pose proof (inv_proc _ I i p Hi) as O. unfold release_kernel_stack.
  destruct Hcase as [Hpc|[Hpc|[g Hpc]]]; rewrite Hpc; assert (Hk : kept p = true) by (unfold kept; by rewrite Hpc).
  - set (s0 := s <| kernel_generation ::= λ g, wrapping_add 64 g 1 |>).
    assert (Hg : kernel_generation s0 = kernel_generation s + 1) by apply wrap_next, Hl.
    eapply (inv_goes s _ i p (p <| pc := StackStamping |>)); try done; try (by left).
    + exact (on_processors i _ s0 p Hi).
    + split; try (cbn; auto; lia). change (kernel_generation s <= kernel_generation s0). lia.
    + cbn. intros [H|[H|H]]; [apply O; auto|done..].
  - unfold publish. rewrite wrap_next by apply Hl.
    by eapply (inv_publish s _ i p (StackStamped (generation s + 1))).
  - destruct (mapped_kernel s) as [v|] eqn:Hm; [|apply (inv_goto s i p); try done; by intros []].
    set (s0 := s <| mapped_kernel := None |> <| released ::= cons (mkRetired v g) |>).
    set (f := λ p : Processor, p <| cached_kernel := [] |> <| pc := Running |>).
    assert (P : padv s p (f p)).
    { flat; auto; try lia; try (by intros v' Hv%not_elem_of_nil). }
    eapply (inv_move s (on i f s0) i p (f p)); try done; [exact (on_processors i f s0 p Hi)|split; cbn; auto; try lia; by intros| |by left|by left].
    split; cbn; try apply O; try done.
    + intros [H|[H|H]]; [apply O; auto|done..].
    + intros _. destruct (ok_range _ _ _ O) as (H1 & H2 & H3); [by rewrite Hk|]. by split.
    + intros v' [Hv|Hv%not_elem_of_nil]; [|done]. apply O; auto.
    + intros _. apply O. by rewrite Hk.
Qed.

Lemma inv_begins s i p wish :
  space_inv s → lasting s → processors s !! i = Some p → pc p = Running → refresh p = Settled →
  goes s (begins i p wish s).
Proof.
  intros I Hl Hi Hpc Hr. assert (Hk : kept p = true) by (unfold kept; by rewrite Hpc).
  destruct wish; cbn; try (by apply goes_refl).
  - apply (inv_refreshing s i p); try done; try (by left).
    + flat; rewrite ?Hr; auto; lia.
    + intros _ (H1 & H2 & _). by split.
  - by apply (inv_enter s i p).
  - apply (inv_goto s i p); try done; by intros [].
  - destruct (mapped s) eqn:Hm; [by apply goes_refl|]. by apply (inv_map s i p).
  - destruct (mapped s) eqn:Hm; [|by apply goes_refl]. by apply (inv_remove s i p).
  - destruct (mapped_kernel s) eqn:Hm; [by apply goes_refl|]. by apply (inv_map_kernel s i p).
  - destruct (mapped_kernel s) eqn:Hm; [|by apply goes_refl]. by apply (inv_unmap_kernel s i p).
  - apply inv_release_stack; auto.
  - apply inv_park; auto.
Qed.

Lemma inv_step s s' : step s s' → space_inv s → goes s s'.
Proof.
  intros [Hl (i & wish & ->)] I. unfold move. destruct (processors s !! i) as [p|] eqn:Hi; [|by apply goes_refl].
  assert (Hcode : goes s match refresh p with
    | Settled => match pc p with
      | Running => begins i p wish s
      | Noted => on i (λ p, p <| refresh := Starting |> <| pc := Entering |>) s
      | Entering => switch_into i p s
      | Turning => on i (λ p, p <| refresh := Starting |> <| pc := Leaving |>) s
      | Leaving | Left => switch_away i p s
      | Removed _ | Published _ _ => withdraw i p s
      | Recorded _ => match wish with Shoot => shootdown_space i p s | ShootAll => shootdown i p s
                                    | Return => goto i Running s | _ => s end
      | Shot _ _ | Counted _ _ _ => shootdown_space i p s
      | Announced _ _ => shootdown i p s
      | Waiting _ _ _ | Scanning _ _ _ _ _ _ => wait_for_mask i p s
      | Acked _ _ => match wish with Return => goto i Running s | _ => s end
      | KernelRemoved _ | KernelStepped _ => retire_kernel i p s
      | StackStamping | StackStamped _ => release_kernel_stack i p s
      | Parking => mark_offline i p s
      | Parked => s
      end
    | _ => refresh_local i p s end).
  { destruct (refresh p) eqn:Hr; [|by apply inv_refresh..]. destruct (pc p) eqn:Hpc; try (by apply goes_refl);
      assert (kept p = true ∨ pc p = Parking ∨ pc p = Parked) as Hk by (unfold kept; rewrite Hpc; auto).
    - by apply inv_begins.
    - apply (inv_starts s i p); try done; [unfold kept; by rewrite Hpc|]. intros _. apply (inv_proc _ I i p Hi). auto.
    - by apply inv_switch_into.
    - apply (inv_starts s i p); try done; unfold kept; by rewrite Hpc.
    - apply inv_switch_away; auto.
    - apply inv_switch_away; auto.
    - apply inv_withdraw; eauto.
    - apply inv_withdraw; eauto.
    - destruct wish; try (by apply goes_refl).
      + apply inv_shootdown_space; eauto.
      + apply inv_shootdown; eauto.
      + apply (inv_goto s i p); try done; [unfold kept; by rewrite Hpc|by intros []].
    - apply inv_shootdown_space; eauto.
    - apply inv_shootdown_space; eauto 10.
    - apply inv_shootdown; eauto.
    - apply inv_wait; eauto.
    - apply inv_wait; eauto 10.
    - destruct wish; try (by apply goes_refl). apply (inv_goto s i p); try done; [unfold kept; by rewrite Hpc|by intros []].
    - apply inv_retire_kernel; eauto.
    - apply inv_retire_kernel; eauto.
    - apply inv_release_stack; eauto.
    - apply inv_release_stack; eauto.
    - apply inv_park; auto. }
  destruct wish; try exact Hcode.
  - destruct (mapped s) eqn:Hm; [|by apply goes_refl]. destruct (loaded p) eqn:Hlo; [by apply (inv_fill s i p)|by apply goes_refl].
  - destruct (mapped_kernel s) eqn:Hm; [|by apply goes_refl]. by apply (inv_fill_kernel s i p).
Qed.

(** ** Over a run *)

Lemma inv_booted : space_inv booted.
Proof.
  assert (Hp : ∀ i p, processors booted !! i = Some p → p = mkProcessor 1 1 false Settled Running [] [] ∧ i < MAX_CPUS).
  { intros i p Hi. pose proof (table_lookup_lt _ _ _ Hi) as Hlt. split; [by apply lookup_replicate_1 in Hi as [? _]|].
    by assert (tlen (processors booted) = MAX_CPUS) as <- by by vm_compute. }
  split; [by vm_compute| |by intros v []|by intros w ?%not_elem_of_nil|by intros r ?%not_elem_of_nil].
  intros i p [-> Hlt]%Hp. split; cbn; try done.
  - by intros [H|[H|H]].
  - by intros v [Hv%not_elem_of_nil|Hv%not_elem_of_nil].
  - intros _. by apply N.ones_spec_low.
Qed.
Lemma inv_steps s s' : rtc step s s' → space_inv s → space_inv s'.
Proof. induction 1 as [|s1 s2 s3 H _ IH]; [done|]. intros I. by apply IH, (inv_step s1). Qed.
Lemma inv_reach s : rtc step booted s → space_inv s.
Proof. intros H. by eapply inv_steps, inv_booted. Qed.

(** Never again cached by a processor that takes part. *)
Definition unreachable (s : Space) (v : N) : Prop :=
  ∀ s' j q, rtc step s s' → processors s' !! j = Some q → kept q → v ∉ cached q.
Definition kernel_unreachable (s : Space) (v : N) : Prop :=
  ∀ s' j q, rtc step s s' → processors s' !! j = Some q → kept q → v ∉ cached_kernel q.

Lemma clean_unreachable s v : space_inv s → gone s v → (∀ j, clean s v j) → unreachable s v.
Proof.
  intros I Hg Hc s' j q H Hq Hk. enough (gone s' v ∧ ∀ j, clean s' v j) as [_ Hc'] by by apply (Hc' j q).
  clear j q Hq Hk. revert I Hg Hc. induction H as [|s1 s2 s3 H _ IH]; [done|]. intros I Hg Hc.
  destruct (inv_step s1 s2 H I) as [I' A]. apply IH; [done|by apply (adv_gone _ _ A)|]. intros j. by eapply clean_adv.
Qed.
Definition kclean (s : Space) (v j : N) : Prop :=
  ∀ q, processors s !! j = Some q → kept q → v ∉ cached_kernel q.
Lemma kclean_adv s s' v j : adv s s' → kgone s v → kclean s v j → kclean s' v j.
Proof.
  intros A [_ Hg] Hc q' Hq Hk Hv. destruct (adv_proc _ _ A j q' Hq) as (q & Hq' & P).
  destruct (pa_kernel _ _ _ P v Hv) as [Hin|Hm]; [|done]. by apply (Hc q Hq'); [by apply P|].
Qed.
Lemma kclean_unreachable s v : space_inv s → kgone s v → (∀ j, kclean s v j) → kernel_unreachable s v.
Proof.
  intros I Hg Hc s' j q H Hq Hk. enough (kgone s' v ∧ ∀ j, kclean s' v j) as [_ Hc'] by by apply (Hc' j q).
  clear j q Hq Hk. revert I Hg Hc. induction H as [|s1 s2 s3 H _ IH]; [done|]. intros I Hg Hc.
  destruct (inv_step s1 s2 H I) as [I' A]. apply IH; [done|by apply (adv_kgone _ _ A)|]. intros j. by eapply kclean_adv.
Qed.

(** What the quarantine's questions say of one processor. *)
Lemma safe_seen s j q :
  space_inv s → processors s !! j = Some q → kept q → safe s <= seen q.
Proof.
  intros I Hq Hk. pose proof (ok_online _ _ _ (inv_proc _ I j q Hq) Hk) as Ho.
  assert (Hj : N.to_nat j ∈ seq 0 (N.to_nat MAX_CPUS)).
  { apply elem_of_seq. apply table_lookup_lt in Hq. rewrite (inv_size _ I) in Hq. lia. }
  unfold safe, safe_generation. cbn [tlb_online tlb_generation tlb_seen]. rewrite decide_False by (intros H; by rewrite H, N.bits_0 in Ho).
  set (f := λ safe cpu, _). assert (Hmin : ∀ l acc, foldl f acc l <= acc).
  { induction l as [|x l IH]; intros acc; [done|]. cbn. specialize (IH (f acc x)).
    assert (f acc x <= acc); [|lia]. subst f. cbn. destruct (negb _); [done|]. case_match; [|done]. case_decide; lia. }
  revert Hj. generalize U64_MAX. induction (seq 0 (N.to_nat MAX_CPUS)) as [|x l IH]; intros acc Hj; [by apply not_elem_of_nil in Hj|].
  cbn. apply elem_of_cons in Hj as [<-|Hj]; [|by apply IH]. eapply N.le_trans; [apply Hmin|].
  subst f. cbn. rewrite N2Nat.id, Ho. cbn. rewrite table_fmap, Hq. cbn. case_decide; lia.
Qed.
Lemma flushed_seen mask g s j q :
  space_inv s → flushed_by mask g s = true → processors s !! j = Some q → kept q → N.testbit mask j = true → g <= seen q.
Proof.
  intros I Hf Hq Hk Hm. pose proof (ok_online _ _ _ (inv_proc _ I j q Hq) Hk) as Ho.
  assert (Hj : j ∈ N.of_nat <$> seq 0 (N.to_nat MAX_CPUS)).
  { apply list_elem_of_fmap. exists (N.to_nat j). rewrite elem_of_seq.
    apply table_lookup_lt in Hq. rewrite (inv_size _ I) in Hq. lia. }
  pose proof (forallb_elem _ _ Hf j Hj) as H. cbn in H. rewrite N.land_spec, Hm, Ho, Hq in H. cbn in H.
  apply negb_true_iff, bool_decide_eq_false in H. lia.
Qed.


(** ** A run *)

Definition moves (l : list (N * Wish)) (s : Space) : Space := foldl (λ s x, move x.1 x.2 s) s l.
Definition lastingb (s : Space) : bool := (generation s + 1 <? U64_MAX) && (kernel_generation s + 1 <? U64_MAX).
Fixpoint all_last (l : list (N * Wish)) (s : Space) : bool :=
  match l with [] => true | x :: l => lastingb s && all_last l (move x.1 x.2 s) end.
Lemma moves_reach l s : all_last l s = true → rtc step s (moves l s).
Proof.
  revert s. induction l as [|x l IH]; intros s H; [constructor|]. cbn in H. apply andb_true_iff in H as [Hl H].
  eapply rtc_l; [|by apply IH]. apply andb_true_iff in Hl as [H1%N.ltb_lt H2%N.ltb_lt]. split; [done|]. by exists x.1, x.2.
Qed.

(** Processors 1 and 2 run in the space and cache its page; 0 withdraws it and waits for
    both, 1 taking the interrupt and 2 leaving the space meanwhile. *)
Definition enter (i : N) : list (N * Wish) := (i, Enter) :: replicate 8 (i, Stay).
Definition shootdown_moves : list (N * Wish) :=
  [(0, Map)] ++ enter 1 ++ enter 2 ++ [(1, Fill); (2, Fill); (0, Unmap); (0, Stay); (0, Stay); (0, Shoot); (0, Stay); (0, Stay)] ++
  (1, Refreshing) :: replicate 5 (1, Stay) ++ (2, Turn) :: replicate 8 (2, Stay) ++ replicate 20 (0, Stay).
Definition after_shootdown : Space := Eval vm_compute in moves shootdown_moves booted.

(** A kernel stack is stamped before its entries are removed: a processor that refreshes
    in between and fills its cache from the entry still there passes for flushed. *)
Definition release_moves : list (N * Wish) :=
  [(0, MapKernel); (0, Release); (0, Stay)] ++
  flat_map (λ i, (i, Refreshing) :: replicate 5 (i, Stay)) (N.of_nat <$> seq 1 7) ++
  [(1, FillKernel); (0, Stay); (0, Refreshing)] ++ replicate 5 (0, Stay).
Lemma stack_frame_back_early :
  ∃ s r q, rtc step booted s ∧ r ∈ released s ∧ rt_stamp r <= safe s ∧ mapped_kernel s = None ∧
    processors s !! 1 = Some q ∧ kept q ∧ rt_version r ∈ cached_kernel q.
Proof.
  exists (moves release_moves booted), (mkRetired 0 2), (mkProcessor 2 2 false Settled Running [] [0]).
  split; [apply moves_reach; by vm_compute|]. split; [vm_compute; left|]. split; [by vm_compute|].
  split; [by vm_compute|]. split; [by vm_compute|]. split; [done|left].
Qed.
