(* ===== verification/Events.v ===== *)
(** * Signals and timers

    [kernel/src/api/evtops.rs], and from [kernel/src/sched.rs] the part of the tick that
    ends timed waits. A wait on a signal is an attempt under the machine's lock, and what
    follows the block, again and again. The earliest deadlines the tick compares the
    clock with are statics beside the machine; they are components of the state here.
    A request arrives decoded and a response is returned as a record. *)

From S2P Require Import Prelude Abi AbiWire Obj Scope Frame Objects Machine Thread.

#[local] Open Scope N_scope.

(** The kernel, the earliest armed timer and the earliest deadline of a wait. *)
(** kernel/src/api/evtops.rs:32-34 [NEXT_TIMER] and kernel/src/sched.rs:278-278
    [NEXT_DEADLINE] *)
Record Ticks := mkTicks { tk_kernel : Kernel; tk_next_timer : N; tk_next_deadline : N }.
#[global] Instance Ticks_rebuild : Rebuild Ticks := λ x,
  mkTicks (tk_kernel x) (tk_next_timer x) (tk_next_deadline x).

(** An operation of the kernel. *)
Definition on_kernel {A} (m : K Kernel A) : K Ticks A := λ x,
  match m (tk_kernel x) with
  | Done a k => Done a (x <| tk_kernel := k |>)
  | Fail e k => Fail e (x <| tk_kernel := k |>)
  | Panic => Panic
  end.
Definition on_signal (index : N) (f : Signal → Signal) (m : Machine) : Machine := m <| m_signals ::= alter f index |>.
Definition on_timer (index : N) (f : Timer → Timer) (m : Machine) : Machine := m <| m_timers ::= alter f index |>.

(** ** What the tick looks at *)

(** kernel/src/api/evtops.rs:36-40 [timer_due] *)
Definition timer_due (now : N) (x : Ticks) : bool := bool_decide (tk_next_timer x <= now).
(** kernel/src/api/evtops.rs:358-362 [any_armed] *)
Definition any_armed (x : Ticks) : bool := negb (bool_decide (tk_next_timer x = U64_MAX)).
Definition armed_deadlines (timers : list Timer) : list N :=
  tm_deadline_ns <$> filter (λ t, tm_used t && tm_armed t) timers.
(** kernel/src/api/evtops.rs:43-52 [recompute_next] *)
Definition recompute_next : K Ticks () :=
  modify (λ x, x <| tk_next_timer :=
    match armed_deadlines (m_timers (kn_machine (tk_kernel x))) with
    | [] => U64_MAX
    | d :: l => foldr N.min d l
    end |>).

(** ** Creation *)

(** kernel/src/api/evtops.rs:55-104 [create_signal] *)
Definition create_signal (ctx : Ctx) : K Machine N :=
  let sponsor := obj_index (rs_object (cx_cap ctx)) in
  node ← at_index (λ m, scopes (m_scopes m)) sponsor;
  err_if (negb (bool_decide (sc_state node = Scope.Open))) status.SCOPE_CLOSED;;
  signals ← gets m_signals;
  found ← ok_or status.LIMIT_EXHAUSTED (list_find (λ s, sig_used s = false) signals);
  let index := N.of_nat found.1 in
  ok ← on_scopes (Scope.reserve sponsor Metadata 1);
  if negb ok then err status.LIMIT_EXHAUSTED else
  id ← run next_id;
  match id with
  | None => release_metadata sponsor;; err status.LIMIT_EXHAUSTED
  | Some id =>
      let generation := saturating_add 32 (sig_generation found.2) 1 in
      modify (λ m, m <| m_signals ::= <[index := mkSignal true generation id sponsor 0 0 0 0]> |>);;
      let object := mkObjRef Obj.Signal index generation in
      domain ← at_index m_domains (cx_domain ctx);
      allocated ← grant_alloc (dom_owner_scope domain) NO_GRANT object (rights_mask Obj.Signal) 0 None 0;
      grant ← ok_or status.LIMIT_EXHAUSTED allocated;
      handle ← cap_install (cx_domain ctx) object grant None;
      ok_or status.LIMIT_EXHAUSTED handle
  end.

(** kernel/src/api/evtops.rs:107-174 [create_timer] *)
Definition create_timer (ctx : Ctx) (request : TimerCreateRequest) : K Machine N :=
  signal ← resolve (cx_domain ctx) (wtr_signal_handle request) object_type.SIGNAL right.SIGNAL_RAISE (cx_now ctx);
  err_if (bool_decide (wtr_bits request = 0)) status.INVALID_ARGUMENT;;
  let sponsor := obj_index (rs_object (cx_cap ctx)) in
  node ← at_index (λ m, scopes (m_scopes m)) sponsor;
  err_if (negb (bool_decide (sc_state node = Scope.Open))) status.SCOPE_CLOSED;;
  timers ← gets m_timers;
  found ← ok_or status.LIMIT_EXHAUSTED (list_find (λ t, tm_used t = false) timers);
  let index := N.of_nat found.1 in
  ok ← on_scopes (Scope.reserve sponsor Metadata 1);
  if negb ok then err status.LIMIT_EXHAUSTED else
  id ← run next_id;
  match id with
  | None => release_metadata sponsor;; err status.LIMIT_EXHAUSTED
  | Some id =>
      let generation := saturating_add 32 (tm_generation found.2) 1 in
      modify (λ m, m <| m_timers ::= <[index :=
        mkTimer true generation id sponsor (obj_index (rs_object signal)) (obj_generation (rs_object signal))
          (wtr_bits request) 0 false 0 0]> |>);;
      let object := mkObjRef Obj.Timer index generation in
      domain ← at_index m_domains (cx_domain ctx);
      allocated ← grant_alloc (dom_owner_scope domain) NO_GRANT object (rights_mask Obj.Timer) 0 None 0;
      grant ← ok_or status.LIMIT_EXHAUSTED allocated;
      handle ← cap_install (cx_domain ctx) object grant None;
      handle ← ok_or status.LIMIT_EXHAUSTED handle;
      _ ← at_index m_signals (obj_index (rs_object signal));
      mret handle
  end.

(** ** Raising *)

(** kernel/src/api/evtops.rs:207-214 [raise_bits, the waits it ends] *)
Definition waits_for (index generation bits : N) (w : WaitRecord) : bool :=
  match wt_wait w with
  | Wait.Signal signal signal_generation mask =>
      bool_decide (signal = index) && bool_decide (signal_generation = generation) &&
      negb (bool_decide (N.land mask bits = 0))
  | _ => false
  end.
(** kernel/src/api/evtops.rs:193-221 [raise_bits] *)
Definition raise_bits (index generation bits : N) : K Kernel () :=
  signal ← on_machine (at_index m_signals index);
  if negb (sig_used signal) || negb (bool_decide (sig_generation signal = generation)) then mret () else
  change (on_signal index (λ s, s <| sig_bits ::= λ b, N.lor b bits |>
                                  <| sig_sequence ::= λ n, wrapping_add 64 n 1 |>));;
  if decide (sig_waiters signal = 0) then mret () else
  for_each (range 0 MAX_THREADS) (λ thread,
    _ ← defer_wake_if thread (waits_for index generation bits) status.OK 0 Any; mret ()).
(** kernel/src/api/evtops.rs:177-190 [raise] *)
Definition raise (ctx : Ctx) (request : SignalBits) : K Kernel N :=
  err_if (bool_decide (wsb_bits request = 0)) status.INVALID_ARGUMENT;;
  let index := obj_index (rs_object (cx_cap ctx)) in
  signal ← on_machine (at_index m_signals index);
  raise_bits index (sig_generation signal) (wsb_bits request);;
  signal ← on_machine (at_index m_signals index);
  mret (sig_sequence signal).

(** ** Waiting *)

(** kernel/src/sched.rs:389-391 [note_deadline] *)
Definition note_deadline (deadline_ns : N) : K Ticks () := modify (λ x, x <| tk_next_deadline ::= N.min deadline_ns |>).
(** kernel/src/thread.rs:656-681 [prepare_wait, prepare_wait_offering] *)
Definition prepare_wait (index : N) (wait : Wait.Wait) (deadline_ns : N) : K Ticks () :=
  on_kernel (prepare_wait_offering index wait deadline_ns Handoff.NONE);;
  if decide (deadline_ns = 0) then mret () else note_deadline deadline_ns.
Definition signal_info (s : Signal) (bits : N) : SignalInfo := mkSignalInfo bits (sig_sequence s) (sig_id s) (sig_waiters s) 0.
(** The signal blocked on, or what was observed. *)
(** kernel/src/api/evtops.rs:225-266 [wait, before it blocks] *)
Definition wait_attempt (ctx : Ctx) (required : N * N) (now : N) (request : SignalBits) : K Ticks (N + SignalInfo) :=
  err_if (bool_decide (wsb_bits request = 0)) status.INVALID_ARGUMENT;;
  cap ← on_kernel (on_machine (resolve (cx_domain ctx) (cx_handle ctx) required.1 required.2 now));
  let index := obj_index (rs_object cap) in
  signal ← on_kernel (on_machine (at_index m_signals index));
  let observed := N.land (sig_bits signal) (wsb_bits request) in
  if negb (bool_decide (observed = 0)) then
    on_kernel (change (on_signal index (λ s, s <| sig_bits ::= λ b, andnot b observed |>)));;
    mret (inr (signal_info signal observed))
  else
    err_if (negb (bool_decide (N.land (cx_flags ctx) flag.NONBLOCKING = 0))) status.WOULD_BLOCK;;
    prepare_wait (cx_thread ctx) (Wait.Signal index (obj_generation (rs_object cap)) (wsb_bits request)) (cx_deadline ctx);;
    waiters ← expect (checked_add 32 (sig_waiters signal) 1);
    on_kernel (change (on_signal index (λ s, s <| sig_waiters := waiters |>)));;
    mret (inl index).
(** What follows the block; a wait that was not refused is attempted again. *)
(** kernel/src/api/evtops.rs:268-279 [wait, after it blocked] *)
Definition wait_resume (thread index : N) : K Kernel () :=
  woken ← take_wake_status thread;
  signals ← machine m_signals;
  (if from_option sig_used false (signals !! index)
   then change (on_signal index (λ s, s <| sig_waiters ::= λ w, saturating_sub w 1 |>)) else mret ());;
  err_if (negb (bool_decide (woken.1 = status.OK))) woken.1.
(** kernel/src/api/evtops.rs:284-297 [query_signal] *)
Definition query_signal (ctx : Ctx) : K Machine SignalInfo :=
  signal ← at_index m_signals (obj_index (rs_object (cx_cap ctx)));
  mret (signal_info signal (sig_bits signal)).

(** ** Timers *)

(** kernel/src/api/evtops.rs:300-310 [arm] *)
Definition arm (ctx : Ctx) (request : TimerArmRequest) : K Ticks N :=
  let deadline := wta_deadline_ns request in
  err_if (bool_decide (deadline = 0)) status.INVALID_ARGUMENT;;
  let index := obj_index (rs_object (cx_cap ctx)) in
  _ ← on_kernel (on_machine (at_index m_timers index));
  on_kernel (change (on_timer index (λ t, t <| tm_deadline_ns := deadline |> <| tm_armed := true |>)));;
  modify (λ x, x <| tk_next_timer ::= N.min deadline |>);;
  mret deadline.
(** kernel/src/api/evtops.rs:313-319 [cancel] *)
Definition cancel (ctx : Ctx) : K Ticks N :=
  let index := obj_index (rs_object (cx_cap ctx)) in
  _ ← on_kernel (on_machine (at_index m_timers index));
  on_kernel (change (on_timer index (λ t, t <| tm_armed := false |> <| tm_deadline_ns := 0 |>)));;
  recompute_next;;
  mret 0.
(** kernel/src/api/evtops.rs:322-335 [query_timer] *)
Definition query_timer (ctx : Ctx) : K Machine TimerInfo :=
  timer ← at_index m_timers (obj_index (rs_object (cx_cap ctx)));
  mret (mkTimerInfo (if tm_armed timer then 1 else 0) 0 (tm_deadline_ns timer) (tm_fired timer) (tm_id timer)).

(** kernel/src/api/evtops.rs:341-347 [expire, the timers due] *)
Definition is_due (now : N) (t : Timer) : bool := tm_used t && tm_armed t && bool_decide (tm_deadline_ns t <= now).
(** kernel/src/api/evtops.rs:342-356 [expire, a timer] *)
Definition fire (now index : N) : K Kernel bool :=
  timer ← on_machine (at_index m_timers index);
  if negb (is_due now timer) then mret false else
  change (on_timer index (λ t, t <| tm_armed := false |> <| tm_fired ::= λ n, n + 1 |>));;
  raise_bits (tm_signal timer) (tm_signal_generation timer) (tm_bits timer);;
  mret true.
(** kernel/src/api/evtops.rs:340-354 [expire, the loop] *)
Fixpoint fire_all (now : N) (timers : list N) : K Kernel N :=
  match timers with
  | [] => mret 0
  | index :: timers => fired ← fire now index; rest ← fire_all now timers; mret ((if fired : bool then 1 else 0) + rest)
  end.
(** kernel/src/api/evtops.rs:338-356 [expire] *)
Definition expire (now : N) : K Ticks N :=
  timers ← on_kernel (machine m_timers);
  fired ← on_kernel (fire_all now (range 0 (tlen timers)));
  recompute_next;;
  mret fired.

(** ** Deadlines of waits *)

(** kernel/src/thread.rs:557-570 [wake_if] *)
Definition wake_if (index : N) (matches : WaitRecord → bool) (code : Z) (aux : N) : K Kernel bool :=
  claimed ← claim_handoff index matches code aux;
  match claimed with
  | None => mret false
  | Some _ => wake index;; mret true
  end.
(** kernel/src/sched.rs:1632-1632 [expire_waits, the waits it ends] *)
Definition is_past (now : N) (w : WaitRecord) : bool :=
  negb (bool_decide (wt_deadline_ns w = 0)) && bool_decide (wt_deadline_ns w <= now).
(** The waits ended, and the earliest deadline left. *)
(** kernel/src/sched.rs:1612-1640 [expire_waits, the loop] *)
Fixpoint expire_from (now : N) (threads : list N) (woken next : N) : K Kernel (N * N) :=
  match threads with
  | [] => mret (woken, next)
  | index :: threads =>
      cell ← thread index;
      let deadline := wt_deadline_ns (th_wait cell) in
      if negb (bool_decide (th_state cell = ThreadState.Blocked)) || bool_decide (deadline = 0)
      then expire_from now threads woken next else
      if decide (deadline <= now) then
        ended ← wake_if index (is_past now) status.TIMED_OUT 0;
        expire_from now threads (if ended : bool then woken + 1 else woken) next
      else expire_from now threads woken (N.min next deadline)
  end.
(** kernel/src/sched.rs:1613-1648 [expire_waits] *)
Definition expire_waits (now : N) : K Ticks N :=
  first ← gets tk_next_deadline;
  if decide (now < first) then mret 0 else
  ended ← on_kernel (expire_from now (range 0 MAX_THREADS) 0 U64_MAX);
  modify (λ x, x <| tk_next_deadline ::= N.min ended.2 |>);;
  mret ended.1.
