(* ===== verification/EventsProofs.v ===== *)
(** * No wake-up is lost

    A raise ends every wait whose bits it meets, and no thread sleeps over bits that are
    raised: over any sequence of the operations on signals and timers, the tick and
    whatever else the kernel does beside them. *)

From stdpp Require Import relations.
From S2P Require Import Prelude Abi AbiWire Obj Scope ScopeProofs Ctrl Frame Objects Machine AuthorityOps Thread Hoare Events.

#[local] Open Scope N_scope.

(** ** Ending waits *)

Definition blocked (c : ThreadCell) : Prop := th_state c = ThreadState.Blocked.
Definition woken (code : Z) : WaitRecord := mkWaitRecord Wait.None 0 code 0 Handoff.NONE.
Definition called (i g b : N) (c : ThreadCell) : bool :=
  bool_decide (th_state c = ThreadState.Blocked) && waits_for i g b (th_wait c).
(** A thread whose wait a raise ended: it is ready, or this processor is to wake it. *)
Definition answered (k : Kernel) (t : N) (c : ThreadCell) : Prop :=
  th_wait c = woken status.OK ∧
  (th_state c = ThreadState.Ready ∨ blocked c ∧ ∃ hint, (t, hint) ∈ kn_deferred k).

Section wake_each.
Context (i g b : N).
Definition wakes (thread : N) : K Kernel () := _ ← defer_wake_if thread (waits_for i g b) status.OK 0 Any; mret ().

Lemma wp_read {A B} (table : Machine → list A) j x (f : A → K Kernel B) Q E k :
  table (kn_machine k) !! j = Some x → wp (f x) Q E k → wp (on_machine (at_index table j) ≫= f) Q E k.
Proof.
  intros Hx Hf. apply wp_bind. unfold wp, on_machine, at_index, mbind, K_bind, gets. cbv beta iota.
  rewrite Hx. change (wp (f x) Q E (k <| kn_machine := kn_machine k |>)). by rewrite with_own_machine.
Qed.
Lemma at_thread k t : tlen (kn_threads k) = MAX_THREADS → t < MAX_THREADS → ∃ c, kn_threads k !! t = Some c.
Proof. intros Hl Ht. destruct (proj1 (table_lookup_is_Some (kn_threads k) t)) as [c Hc]; [lia|by exists c]. Qed.
Lemma thread_index_id t : t < MAX_THREADS → thread_index t = t.
Proof. unfold thread_index. lia. Qed.
Lemma wp_thread {B} t (f : ThreadCell → K Kernel B) Q E k c :
  t < MAX_THREADS → kn_threads k !! t = Some c → wp (f c) Q E k → wp (thread t ≫= f) Q E k.
Proof.
  intros Ht Hc Hw. apply wp_bind. unfold thread. apply wp_bind, wp_gets, wp_expect. exists c.
  by rewrite thread_index_id.
Qed.

Lemma wp_on_thread t f c (Q : () → Kernel → Prop) E k :
  t < MAX_THREADS → kn_threads k !! t = Some c →
  Q () (k <| kn_threads := <[t := f c]> (kn_threads k) |>) → wp (on_thread t f) Q E k.
Proof.
  intros Ht Hc HQ. apply wp_modify. rewrite thread_index_id by done. cbn -[alter insert] in *.
  by rewrite (table_alter_as_insert _ _ _ _ Hc).
Qed.

(** What one claim leaves, thread and deferred wakes. *)
Lemma wp_defer t k c :
  t < MAX_THREADS → kn_threads k !! t = Some c → tlen (kn_threads k) = MAX_THREADS →
  wp (defer_wake_if t (waits_for i g b) status.OK 0 Any)
    (λ _ k', kn_machine k' = kn_machine k ∧ kn_deferred k ⊆ kn_deferred k' ∧
       ∃ c', kn_threads k' = <[t := c']> (kn_threads k) ∧
             if called i g b c then answered k' t c' else c' = c)
    (λ _ _, False) k.
Proof.
  intros Ht Hc Hl. unfold defer_wake_if. apply wp_bind. unfold claim_handoff.
  eapply wp_thread; [done|exact Hc|]. unfold called.
  case_bool_decide as Hb; cbn [negb andb orb].
  2:{ apply wp_ret. split_and!; [done..|]. exists c. split; [|done]. by rewrite table_insert_id. }
  destruct (waits_for i g b (th_wait c)) eqn:Hw; cbn [negb].
  2:{ apply wp_ret. split_and!; [done..|]. exists c. split; [|done]. by rewrite table_insert_id. }
  apply wp_bind. eapply wp_on_thread; [done|exact Hc|]. apply wp_ret. cbv beta.
  set (c1 := c <| th_wait := _ |>).
  apply wp_bind. unfold defer_wake. apply wp_bind, wp_gets. case_bool_decide.
  - unfold wake. eapply (wp_thread _ _ _ _ _ c1); [done| |].
    { cbn. apply table_insert_eq. lia. }
    rewrite bool_decide_eq_true_2 by (cbn; rewrite Hb; left).
    eapply wp_on_thread; [done|cbn; apply table_insert_eq; lia|]. apply wp_ret. split_and!; [done..|].
    eexists. split; [cbn; apply table_insert_insert|]. split; [done|by left].
  - apply wp_modify, wp_ret. split_and!; [done|cbn; set_solver|].
    exists c1. split; [done|]. split; [done|]. right. split; [done|]. exists Any. cbn. set_solver.
Qed.

(** What waking the threads of [l] leaves. *)
Record swept (l : list N) (k k' : Kernel) : Prop := {
  sw_threads : tlen (kn_threads k') = tlen (kn_threads k);
  sw_deferred : kn_deferred k ⊆ kn_deferred k';
  sw_each t c : kn_threads k !! t = Some c → ∃ c', kn_threads k' !! t = Some c' ∧
    if bool_decide (t ∈ l) && called i g b c then answered k' t c' else c' = c
}.

Lemma answered_mono k k' t c : kn_deferred k ⊆ kn_deferred k' → answered k t c → answered k' t c.
Proof. intros Hd [? [?|[? [h Hh]]]]; split; [done|by left|done|]. right. split; [done|]. exists h. by apply Hd. Qed.

Lemma wp_sweep l k :
  NoDup l → (∀ t, t ∈ l → t < MAX_THREADS) → tlen (kn_threads k) = MAX_THREADS →
  wp (for_each l wakes) (λ _ k', kn_machine k' = kn_machine k ∧ swept l k k') (λ _ _, False) k.
Proof.
  revert k. induction l as [|t l IH]; intros k Hnd Hlt Hl.
  { apply wp_ret. split; [done|]. split; [done..|]. intros t c Hc. by exists c. }
  apply NoDup_cons in Hnd as [Hn Hnd]. destruct (at_thread k t Hl) as [c Hc]; [apply Hlt; left|].
  cbn [for_each]. apply wp_bind. apply wp_bind.
  eapply wp_mono; [apply (wp_defer t k c); [apply Hlt; left|done..]| |done].
  intros _ k1 (Hm & Hd & c' & Hth & Hc'). apply wp_ret.
  eapply wp_mono; [apply IH; [done|intros ? ?; apply Hlt; by right|by rewrite Hth, tlen_insert]| |done].
  intros [] k2 (Hm2 & [Hl2 Hd2 He2]). split; [congruence|]. split; [by rewrite Hl2, Hth, tlen_insert|by etrans|].
  intros t' d Hd'. destruct (decide (t' = t)) as [->|Hne].
  - assert (d = c) as -> by congruence. destruct (He2 t c') as (c2 & Hc2 & H2).
    { rewrite Hth. apply table_insert_eq. by eapply table_lookup_lt. }
    rewrite bool_decide_eq_false_2 in H2 by done. cbn in H2. subst c2. exists c'. split; [done|].
    rewrite bool_decide_eq_true_2 by left. cbn. destruct (called i g b c); [|done]. by eapply answered_mono.
  - destruct (He2 t' d) as (c2 & Hc2 & H2); [by rewrite Hth, table_insert_ne|].
    exists c2. split; [done|]. rewrite (bool_decide_ext _ (t' ∈ l)); [done|]. set_solver.
Qed.
End wake_each.

(** ** Raising *)

Definition live (g : N) (s : Signal) : bool := sig_used s && bool_decide (sig_generation s = g).
Definition with_bits (b : N) (s : Signal) : Signal :=
  s <| sig_bits ::= λ x, N.lor x b |> <| sig_sequence ::= λ n, wrapping_add 64 n 1 |>.
(** The threads a raise looks at. *)
Definition looked_at (g : N) (s : Signal) : list N :=
  if live g s && negb (bool_decide (sig_waiters s = 0)) then range 0 MAX_THREADS else [].

Lemma swept_nil i g b k k' : kn_threads k' = kn_threads k → kn_deferred k' = kn_deferred k → swept i g b [] k k'.
Proof. intros H H'. split; [by rewrite H|by rewrite H'|]. intros t c Hc. exists c. by rewrite H. Qed.

Lemma wp_raise_bits i g b k s :
  tlen (kn_threads k) = MAX_THREADS → m_signals (kn_machine k) !! i = Some s →
  wp (raise_bits i g b)
    (λ _ k', kn_machine k' = (if live g s then on_signal i (with_bits b) (kn_machine k) else kn_machine k) ∧
             swept i g b (looked_at g s) k k') (λ _ _, False) k.
Proof.
  intros Hl Hs. unfold raise_bits. apply (wp_read _ _ s); [done|].
  unfold looked_at. rewrite <-negb_andb. fold (live g s). destruct (live g s) eqn:Hlive; cbn [negb andb].
  2:{ apply wp_ret. split; [done|]. by apply swept_nil. }
  apply wp_bind, wp_modify. case_decide as Hw.
  { rewrite bool_decide_eq_true_2 by done. apply wp_ret. split; [done|]. by apply swept_nil. }
  rewrite bool_decide_eq_false_2 by done. cbn [negb].
  eapply wp_mono; [apply (wp_sweep i g b)| |done].
  - apply NoDup_range.
  - intros t Ht%range_elem. lia.
  - done.
  - intros [] k' [Hm Hsw]. split; [done|]. destruct Hsw as [H1 H2 H3]. by split.
Qed.

(** ** What is kept beside the events *)

(** A signal and a timer but for the references to it. *)
Definition sig_view (s : Signal) : Signal := s <| sig_refs := 0 |>.
Definition tm_view (t : Timer) : Timer := t <| tm_refs := 0 |>.
Definition signals_of (m : Machine) : list Signal := sig_view <$> m_signals m.
Definition timers_of (m : Machine) : list Timer := tm_view <$> m_timers m.
Definition views (m : Machine) : list Signal * list Timer := (signals_of m, timers_of m).

(** Every wait is an earlier one, or none. *)
Definition same_wait (w w' : WaitRecord) : Prop := wt_wait w' = wt_wait w ∧ wt_deadline_ns w' = wt_deadline_ns w.
Definition no_wait (w : WaitRecord) : Prop := wt_wait w = Wait.None ∧ wt_deadline_ns w = 0.
Record no_new_wait (k k' : Kernel) : Prop := {
  nw_threads : tlen (kn_threads k') = tlen (kn_threads k);
  nw_each t c' : kn_threads k' !! t = Some c' → blocked c' →
    (∃ c, kn_threads k !! t = Some c ∧ blocked c ∧ same_wait (th_wait c) (th_wait c')) ∨ no_wait (th_wait c')
}.
#[global] Instance no_new_wait_preorder : PreOrder no_new_wait.
Proof.
  split.
  - intros k. split; [done|]. intros t c Hc Hb. left. by exists c.
  - intros k1 k2 k3 [L1 E1] [L2 E2]. split; [congruence|]. intros t c3 Hc3 Hb3.
    destruct (E2 t c3 Hc3 Hb3) as [(c2 & Hc2 & Hb2 & Hs2 & Hd2)|?]; [|by right].
    destruct (E1 t c2 Hc2 Hb2) as [(c1 & Hc1 & Hb1 & Hs1 & Hd1)|[H H']]; [left|right].
    + exists c1. split_and!; [done..|]. split; congruence.
    + split; congruence.
Qed.

Lemma swept_no_new i g b l k k' : swept i g b l k k' → no_new_wait k k'.
Proof.
  intros [Hl _ He]. split; [done|]. intros t c' Hc' Hb.
  destruct (proj1 (table_lookup_is_Some (kn_threads k) t)) as [c Hc].
  { rewrite <-Hl. by eapply table_lookup_lt. }
  destruct (He t c Hc) as (c2 & Hc2 & H). assert (c2 = c') as -> by congruence.
  destruct (_ && _); [right|left]. { destruct H as [H _]. rewrite H. by split. }
  subst c'. by exists c.
Qed.

Lemma keeps_new_on_thread t f :
  (∀ c, blocked (f c) → blocked c ∧ same_wait (th_wait c) (th_wait (f c)) ∨ no_wait (th_wait (f c))) →
  keeps no_new_wait (on_thread t f).
Proof.
  intros Hf. apply keeps_modify. intros k. split; cbn -[alter]; [by rewrite tlen_alter|].
  intros t' c' Hc' Hb. rewrite table_alter in Hc'. case_decide; [|left; by exists c'].
  destruct (kn_threads k !! t') as [c|] eqn:Hc; [|done]. injection Hc' as <-.
  destruct (Hf c Hb) as [[??]|?]; [left|by right]. by exists c.
Qed.
Lemma keeps_new_thread i : keeps no_new_wait (thread i).
Proof. unfold thread. keep. Qed.
#[local] Hint Resolve keeps_new_thread : keeps.
Lemma keeps_new_claim t matches code aux : keeps no_new_wait (claim_handoff t matches code aux).
Proof. unfold claim_handoff. keep. apply keeps_new_on_thread. intros c _. by right. Qed.
Lemma keeps_new_wake t : keeps no_new_wait (wake t).
Proof. unfold wake. keep. by apply keeps_new_on_thread. Qed.
#[local] Hint Resolve keeps_new_claim keeps_new_wake : keeps.
Lemma keeps_new_flush : keeps no_new_wait flush_wakes.
Proof. unfold flush_wakes. keep. split; [done|]. intros t c Hc Hb. left. by exists c. Qed.
Lemma keeps_machine_flush : keeps (same kn_machine) flush_wakes.
Proof. unfold flush_wakes, wake, thread, on_thread. keep; done. Qed.
Lemma keeps_new_wake_if t matches code aux : keeps no_new_wait (wake_if t matches code aux).
Proof. unfold wake_if. keep. Qed.
Lemma keeps_new_take t : keeps no_new_wait (take_wake_status t).
Proof. unfold take_wake_status. keep. apply keeps_new_on_thread. intros c Hb. by left. Qed.
#[local] Hint Resolve keeps_new_flush keeps_new_wake_if keeps_new_take : keeps.
Lemma keeps_new_expire_from now l woken next : keeps no_new_wait (expire_from now l woken next).
Proof.
  revert woken next. induction l as [|t l IH]; intros woken next; cbn [expire_from]; keep.
Qed.

(** ** What the creators keep *)

Lemma fmap_set {A B} (f : A → B) (l : list A) (i : N) x : f <$> <[i := x]> l = <[i := f x]> (f <$> l).
Proof. unfold insert, table_Insert. apply list_fmap_insert. Qed.

Lemma views_signals m f : sig_view <$> f (m_signals m) = signals_of m → same views m (m <| m_signals ::= f |>).
Proof. intros H. unfold same, views. by f_equal. Qed.
Lemma views_timers m f : tm_view <$> f (m_timers m) = timers_of m → same views m (m <| m_timers ::= f |>).
Proof. intros H. unfold same, views. by f_equal. Qed.

Lemma keeps_view_scopes {A} (f : Scopes → A * Scopes) : keeps (same views) (on_scopes f).
Proof. intros m. by apply wlp_on_scopes. Qed.
Lemma keeps_view_metadata owner : keeps (same views) (release_metadata owner).
Proof. unfold release_metadata. keep. done. Qed.
Lemma keeps_view_next_id : keeps (same views) (run next_id).
Proof. intros m. apply wlp_run. unfold next_id. by case_decide. Qed.
#[local] Hint Resolve keeps_view_scopes keeps_view_metadata keeps_view_next_id : keeps.
Lemma keeps_view_adjust o delta : keeps (same views) (adjust_object_refs o delta).
Proof.
  unfold adjust_object_refs. destruct (obj_kind o); keep; try done.
  - by apply views_signals, fmap_alter_same.
  - by apply views_timers, fmap_alter_same.
Qed.
#[local] Hint Resolve keeps_view_adjust : keeps.
Lemma keeps_view_grant_alloc sponsor parent object rights deadline life facet :
  keeps (same views) (grant_alloc sponsor parent object rights deadline life facet).
Proof. unfold grant_alloc. keep; done. Qed.
Lemma keeps_view_install domain object grant slot : keeps (same views) (cap_install domain object grant slot).
Proof.
  unfold cap_install. apply keeps_bind; [apply _|keep|intros d].
  apply keeps_bind; [apply _|keep|intros ok]. destruct (negb ok); [keep|].
  destruct (match slot with Some _ => _ | None => _ end) as [handle caps]. keep; done.
Qed.
#[local] Hint Resolve keeps_view_grant_alloc keeps_view_install : keeps.

(** A live signal. *)
Lemma alive_signal m o :
  abi_type (obj_kind o) = object_type.SIGNAL → object_alive m o = true →
  ∃ s, m_signals m !! obj_index o = Some s ∧ live (obj_generation o) s = true.
Proof.
  intros Hk Ha. unfold object_alive in Ha. destruct (obj_kind o); try done.
  destruct (m_signals m !! obj_index o) as [s|]; [|done]. by exists s.
Qed.

(** One slot, not in use before, is a new signal; or nothing changed. *)
Definition signal_made (m m' : Machine) : Prop :=
  same views m m' ∨ ∃ i s g id scope, signals_of m !! i = Some s ∧ sig_used s = false ∧
    views m' = (<[i := mkSignal true g id scope 0 0 0 0]> (signals_of m), timers_of m).
Lemma wlp_after {A} (R : Machine → Machine → Prop) m0 (c : K Machine A) m :
  (∀ m1 m2, R m0 m1 → same views m1 m2 → R m0 m2) →
  keeps (same views) c → R m0 m → wlp c (λ _, R m0) (λ _, R m0) m.
Proof. intros HR Hc Hm. eapply wlp_mono; [apply Hc|..]; intros ? ? H; by eapply HR. Qed.

Lemma signal_made_after m0 m1 m2 : signal_made m0 m1 → same views m1 m2 → signal_made m0 m2.
Proof.
  unfold same. intros [H|(i & s & g & id & scope & Hs & Hu & H)] H2; [left; unfold same; congruence|right].
  exists i, s, g, id, scope. split_and!; [done..|congruence].
Qed.
Lemma wlp_create_signal ctx m : wlp (create_signal ctx) (λ _, signal_made m) (λ _, signal_made m) m.
Proof.
  unfold create_signal. set (R := signal_made).
  assert (∀ m1, same views m m1 → R m m1) as Hsame by (by left).
  apply wlp_bind, wlp_at_index. intros node _. apply wlp_bind, wlp_err_if; [by left|intros _].
  apply wlp_bind, wlp_gets. apply wlp_bind, wlp_ok_or; [|by left].
  intros [i s] (Hs & Hu & _)%list_find_Some. apply wlp_bind, wlp_on_scopes.
  set (m1 := m <| m_scopes := _ |>). set (ok := (Scope.reserve _ _ _ _).1).
  destruct (negb ok); [by left|]. apply wlp_bind, wlp_run.
  assert (same views m (next_id m1).2) as H2 by (unfold next_id; by case_decide).
  destruct (next_id m1) as [[id|] m2]; cbn [fst snd] in *.
  2:{ apply wlp_bind. eapply wlp_mono; [apply keeps_view_metadata|..].
      - intros [] m3 H3. apply wlp_err, Hsame. by etrans.
      - intros e m3 H3. apply Hsame. by etrans. }
  apply wlp_bind, wlp_modify. eapply (wlp_after R m).
  - intros; by eapply signal_made_after.
  - keep.
  - right. cbn [fst snd]. eexists (N.of_nat i), (sig_view s), _, _, _.
    split_and!; [unfold signals_of; by rewrite table_fmap, table_lookup_nat, Hs|done|].
    injection H2 as H2 H2'. apply (f_equal2 pair); [|exact H2']. rewrite <-H2.
    etrans; [apply (fmap_set sig_view (m_signals m2))|reflexivity].
Qed.

(** One slot, not in use before, is a new timer of a signal there is; or nothing changed. *)
Definition timer_made (m m' : Machine) : Prop :=
  same views m m' ∨ ∃ i t j s g id scope gj b, timers_of m !! i = Some t ∧ tm_used t = false ∧ signals_of m !! j = Some s ∧
    views m' = (signals_of m, <[i := mkTimer true g id scope j gj b 0 false 0 0]> (timers_of m)).
Lemma timer_made_after m0 m1 m2 : timer_made m0 m1 → same views m1 m2 → timer_made m0 m2.
Proof.
  unfold same. intros [H|(i & t & j & s & g & id & scope & gj & b & Ht & Hu & Hs & H)] H2; [left; unfold same; congruence|right].
  exists i, t, j, s, g, id, scope, gj, b. split_and!; [done..|congruence].
Qed.
Lemma wlp_create_timer ctx request m : wlp (create_timer ctx request) (λ _, timer_made m) (λ _, timer_made m) m.
Proof.
  unfold create_timer. set (R := timer_made).
  assert (∀ m1, same views m m1 → R m m1) as Hsame by (by left).
  apply wlp_bind. eapply wlp_mono; [apply wlp_resolve| |by intros e m' ->; left].
  intros cap m' (-> & Halive & Htype).
  destruct (alive_signal m _ (Htype ltac:(done)) Halive) as (sg & Hsg & _).
  apply wlp_bind, wlp_err_if; [by left|intros _].
  apply wlp_bind, wlp_at_index. intros node _. apply wlp_bind, wlp_err_if; [by left|intros _].
  apply wlp_bind, wlp_gets. apply wlp_bind, wlp_ok_or; [|by left].
  intros [i t] (Ht & Hu & _)%list_find_Some. apply wlp_bind, wlp_on_scopes.
  set (m1 := m <| m_scopes := _ |>). set (ok := (Scope.reserve _ _ _ _).1).
  destruct (negb ok); [by left|]. apply wlp_bind, wlp_run.
  assert (same views m (next_id m1).2) as H2 by (unfold next_id; by case_decide).
  destruct (next_id m1) as [[id|] m2]; cbn [fst snd] in *.
  2:{ apply wlp_bind. eapply wlp_mono; [apply keeps_view_metadata|..].
      - intros [] m3 H3. apply wlp_err, Hsame. by etrans.
      - intros e m3 H3. apply Hsame. by etrans. }
  apply wlp_bind, wlp_modify. eapply (wlp_after R m).
  - intros; by eapply timer_made_after.
  - keep.
  - right. cbn [fst snd]. eexists (N.of_nat i), (tm_view t), (obj_index (rs_object cap)), (sig_view sg), _, _, _, _, _.
    split_and!; [|done|..]; [unfold timers_of; by rewrite table_fmap, table_lookup_nat, Ht|unfold signals_of; by rewrite table_fmap, Hsg|].
    injection H2 as H2 H2'. apply (f_equal2 pair); [exact H2|]. rewrite <-H2'.
    etrans; [apply (fmap_set tm_view (m_timers m2))|reflexivity].
Qed.

(** ** The invariant *)

(** How many of the waits that have not yet left their loop are on signal [i]. *)
Definition count_on (i : N) (waiting : list (N * N)) : N := tlen (filter (λ p, p.2 = i) waiting).

(** [waiting]: the threads between the block of a wait and what follows it, each with
    the signal its wait is on. *)
Record inv (x : Ticks) (waiting : list (N * N)) : Prop := {
  iv_threads : tlen (kn_threads (tk_kernel x)) = MAX_THREADS;
  iv_nodup : NoDup waiting.*1;
  iv_count i s : signals_of (kn_machine (tk_kernel x)) !! i = Some s →
    count_on i waiting <= if sig_used s then sig_waiters s else 0;
  iv_wait t c i g b : kn_threads (tk_kernel x) !! t = Some c → blocked c → wt_wait (th_wait c) = Wait.Signal i g b →
    (t, i) ∈ waiting ∧ ∃ s, signals_of (kn_machine (tk_kernel x)) !! i = Some s ∧ live g s = true ∧ N.land (sig_bits s) b = 0;
  iv_timer i t : timers_of (kn_machine (tk_kernel x)) !! i = Some t → tm_used t = true →
    (tm_armed t = true → tk_next_timer x <= tm_deadline_ns t) ∧
    is_Some (signals_of (kn_machine (tk_kernel x)) !! tm_signal t);
  iv_deadline t c : kn_threads (tk_kernel x) !! t = Some c → blocked c → wt_deadline_ns (th_wait c) ≠ 0 →
    tk_next_deadline x <= wt_deadline_ns (th_wait c)
}.

(** What the rest of the kernel does: it leaves signals and timers but for their
    references, begins no wait on a signal, and notes the deadlines of the waits it
    begins. *)
Record beside (x x' : Ticks) : Prop := {
  bs_views : same views (kn_machine (tk_kernel x)) (kn_machine (tk_kernel x'));
  bs_timer : tk_next_timer x' = tk_next_timer x;
  bs_deadline : tk_next_deadline x' <= tk_next_deadline x;
  bs_threads : tlen (kn_threads (tk_kernel x')) = tlen (kn_threads (tk_kernel x));
  bs_each t c' : kn_threads (tk_kernel x') !! t = Some c' → blocked c' →
    (∃ c, kn_threads (tk_kernel x) !! t = Some c ∧ blocked c ∧ same_wait (th_wait c) (th_wait c')) ∨
    (∀ i g b, wt_wait (th_wait c') ≠ Wait.Signal i g b) ∧
    (wt_deadline_ns (th_wait c') ≠ 0 → tk_next_deadline x' <= wt_deadline_ns (th_wait c'))
}.

Lemma inv_beside x x' l : beside x x' → inv x l → inv x' l.
Proof.
  intros [[= Hs Htm] Ht Hd Hl He] [I1 I2 I3 I4 I5 I6]. split; rewrite ?Hs, ?Htm, ?Hl, ?Ht; [done..| |done|].
  - intros t c i g b Hc Hb Hwt. destruct (He t c Hc Hb) as [(c0 & Hc0 & Hb0 & Hs0 & _)|[Hn _]]; [|by apply Hn in Hwt].
    apply (I4 t c0); [done|done|congruence].
  - intros t c Hc Hb Hne. destruct (He t c Hc Hb) as [(c0 & Hc0 & Hb0 & _ & Hdl)|[_ Hn]]; [|by apply Hn].
    etrans; [apply Hd|]. rewrite Hdl. apply (I6 t); [done|done|congruence].
Qed.
(** An operation that ends waits and leaves the machine, or the views of it. *)
Lemma beside_no_new x k' :
  same views (kn_machine (tk_kernel x)) (kn_machine k') → no_new_wait (tk_kernel x) k' → beside x (x <| tk_kernel := k' |>).
Proof.
  intros Hv [Hl He]. split; [done..|]. intros t c' Hc' Hb. destruct (He t c' Hc' Hb) as [?|[Hn Hd]]; [by left|right].
  split; [intros; by rewrite Hn|done].
Qed.
(** The tick is to look sooner. *)
Lemma beside_sooner x x' d : beside x x' → beside x (x' <| tk_next_deadline ::= N.min d |>).
Proof.
  intros [B1 B2 B3 B4 B5]. split; [exact B1|exact B2| |exact B4|].
  - cbn. lia.
  - intros t c' Hc' Hb. destruct (B5 t c' Hc' Hb) as [?|[? Hn]]; [by left|right]. split; [done|]. intros Hne.
    specialize (Hn Hne). cbn. lia.
Qed.
Definition with_machine (m : Machine) (x : Ticks) : Ticks := x <| tk_kernel ::= λ k, k <| kn_machine := m |> |>.
Lemma beside_machine x m' : same views (kn_machine (tk_kernel x)) m' → beside x (with_machine m' x).
Proof. intros Hv. split; [done..|]. intros t c' Hc' Hb. left. by exists c'. Qed.

Lemma inv_signal_made x m' l : signal_made (kn_machine (tk_kernel x)) m' → inv x l → inv (with_machine m' x) l.
Proof.
  intros [Hv|(i & s & g & id & scope & Hs & Hu & Hv)] I; [by eapply inv_beside; [apply beside_machine|]|].
  injection Hv as Hvs Hvt. destruct I as [I1 I2 I3 I4 I5 I6].
  split; cbn [with_machine tk_kernel kn_machine set_field] in *; rewrite ?Hvs, ?Hvt; [done|done|..].
  - intros j s' Hs'. rewrite table_insert in Hs'. case_decide as Hd; [|by apply I3].
    destruct Hd as [<- _]. injection Hs' as <-. pose proof (I3 i s Hs) as H. by rewrite Hu in H.
  - intros t c j g' b Hc Hb Hwt. destruct (I4 t c j g' b Hc Hb Hwt) as (Hin & s0 & Hs0 & Hlv & Hz). split; [done|].
    exists s0. rewrite table_insert_ne; [done|]. intros <-. assert (s0 = s) as -> by congruence.
    unfold live in Hlv. by rewrite Hu in Hlv.
  - intros j t' Ht' Hu'. destruct (I5 j t' Ht' Hu') as [H1 H2]. split; [done|].
    rewrite table_insert. by case_decide.
  - done.
Qed.
Lemma inv_timer_made x m' l : timer_made (kn_machine (tk_kernel x)) m' → inv x l → inv (with_machine m' x) l.
Proof.
  intros [Hv|(i & t & j & s & g & id & scope & gj & b & Ht & Hu & Hs & Hv)] I; [by eapply inv_beside; [apply beside_machine|]|].
  injection Hv as Hvs Hvt. destruct I as [I1 I2 I3 I4 I5 I6].
  split; cbn [with_machine tk_kernel kn_machine set_field] in *; rewrite ?Hvs, ?Hvt; [done|done|done|done| |done].
  intros j' t' Ht' Hu'. rewrite table_insert in Ht'. case_decide as Hd; [|by apply (I5 j')].
  injection Ht' as <-. split; [done|]. cbn. by exists s.
Qed.

(** ** Raising keeps it *)

Lemma wlp_on_kernel {A} (c : K Kernel A) Q E x :
  wlp c (λ a k, Q a (x <| tk_kernel := k |>)) (λ e k, E e (x <| tk_kernel := k |>)) (tk_kernel x) →
  wlp (on_kernel c) Q E x.
Proof. unfold wlp, on_kernel. by destruct (c _). Qed.
Lemma wp_on_kernel {A} (c : K Kernel A) Q E x :
  wp c (λ a k, Q a (x <| tk_kernel := k |>)) (λ e k, E e (x <| tk_kernel := k |>)) (tk_kernel x) →
  wp (on_kernel c) Q E x.
Proof. unfold wp, on_kernel. by destruct (c _). Qed.
Lemma wp_is_wlp {S A} (c : K S A) Q E s : wp c Q E s → wlp c Q E s.
Proof. unfold wp, wlp. by destruct (c s). Qed.
Lemma with_own_kernel x : x <| tk_kernel := tk_kernel x |> = x.
Proof. by destruct x. Qed.

Lemma fmap_alter_comm {A B} (h : A → B) (f : A → A) (g : B → B) (l : list A) (i : N) :
  (∀ a, h (f a) = g (h a)) → h <$> alter f i l = alter g i (h <$> l).
Proof.
  intros H. apply table_eq. intros j. rewrite table_fmap, !table_alter, table_fmap.
  case_decide; [|done]. destruct (l !! j); cbn; [by rewrite H|done].
Qed.
Lemma lookup_view {A B} (h : A → B) (l : list A) (i : N) y : (h <$> l) !! i = Some y → ∃ x, l !! i = Some x ∧ y = h x.
Proof. rewrite table_fmap. destruct (l !! i) as [x|]; [|done]. intros [= <-]. by exists x. Qed.

Lemma count_on_elem t i l : (t, i) ∈ l → 1 <= count_on i l.
Proof.
  intros H. assert ((t, i) ∈ filter (λ p, p.2 = i) l) as Hf by (by apply list_elem_of_filter).
  unfold count_on, tlen. destruct (filter _ l); [by apply not_elem_of_nil in Hf|cbn; lia].
Qed.

Lemma live_unique s g g' : live g s = true → live g' s = true → g = g'.
Proof. unfold live. intros [_ <-%bool_decide_eq_true]%andb_prop [_ <-%bool_decide_eq_true]%andb_prop. done. Qed.
Lemma looked_at_waited g s t : live g s = true → 1 <= sig_waiters s → t < MAX_THREADS → t ∈ looked_at g s.
Proof.
  intros Hl Hw Ht. unfold looked_at. rewrite Hl, bool_decide_eq_false_2 by lia. cbn. apply range_elem. lia.
Qed.
(** A thread a raise does not call waits for none of its bits. *)
Lemma uncalled i g b c mask :
  blocked c → wt_wait (th_wait c) = Wait.Signal i g mask → called i g b c = false → N.land b mask = 0.
Proof.
  intros Hb Hw Hn. unfold called in Hn. rewrite bool_decide_eq_true_2 in Hn by exact Hb. unfold waits_for in Hn.
  rewrite Hw, !bool_decide_eq_true_2 in Hn by done. cbn in Hn. apply negb_false_iff, bool_decide_eq_true in Hn.
  by rewrite N.land_comm.
Qed.
Lemma land_lor_zero x y z : N.land x z = 0 → N.land y z = 0 → N.land (N.lor x y) z = 0.
Proof. intros Hx Hy. by rewrite N.land_lor_distr_l, Hx, Hy. Qed.

Lemma inv_raised i g b x k' s l :
  m_signals (kn_machine (tk_kernel x)) !! i = Some s →
  kn_machine k' = (if live g s then on_signal i (with_bits b) (kn_machine (tk_kernel x)) else kn_machine (tk_kernel x)) →
  swept i g b (looked_at g s) (tk_kernel x) k' → inv x l → inv (x <| tk_kernel := k' |>) l.
Proof.
  intros Hs Hm Hsw I. pose proof (swept_no_new _ _ _ _ _ _ Hsw) as Hnew.
  destruct (live g s) eqn:Hlive.
  2:{ eapply inv_beside; [|exact I]. apply beside_no_new; [by rewrite Hm|done]. }
  destruct I as [I1 I2 I3 I4 I5 I6], Hnew as [Hlen Hnew].
  assert (signals_of (kn_machine k') = alter (with_bits b) i (signals_of (kn_machine (tk_kernel x)))) as Hv.
  { rewrite Hm. by apply fmap_alter_comm. }
  assert (timers_of (kn_machine k') = timers_of (kn_machine (tk_kernel x))) as Ht by (by rewrite Hm).
  split; cbn [tk_kernel set_field tk_next_timer tk_next_deadline]; rewrite ?Hv, ?Ht; [by rewrite Hlen|done|..].
  - intros j s' Hs'. rewrite table_alter in Hs'. case_decide as Hd; [|by apply I3].
    destruct (_ !! j) as [s0|] eqn:H0; [|done]. injection Hs' as <-. exact (I3 j s0 H0).
  - intros t c' j g' b' Hc' Hb' Hw'.
    destruct (proj1 (table_lookup_is_Some (kn_threads (tk_kernel x)) t)) as [c Hc].
    { rewrite <-Hlen. by eapply table_lookup_lt. }
    destruct (sw_each _ _ _ _ _ _ Hsw t c Hc) as (c2 & Hc2 & Hd). assert (c2 = c') as -> by congruence.
    destruct (bool_decide (t ∈ _) && called i g b c) eqn:Hcall.
    { destruct Hd as [Hd _]. by rewrite Hd in Hw'. }
    subst c'. destruct (I4 t c j g' b' Hc Hb' Hw') as (Hin & s0 & Hs0 & Hl0 & Hz). split; [done|].
    destruct (decide (j = i)) as [->|Hne]; [|exists s0; by rewrite table_alter_ne].
    exists (with_bits b s0). rewrite table_alter_eq, Hs0. split; [done|]. split; [exact Hl0|]. cbn.
    destruct (lookup_view _ _ _ _ Hs0) as (s1 & Hs1 & ->). assert (s1 = s) as -> by congruence.
    assert (g' = g) as -> by exact (live_unique s g' g Hl0 Hlive).
    apply land_lor_zero; [exact Hz|]. apply (uncalled i g b c b'); [done..|].
    apply andb_false_iff in Hcall as [Hn%bool_decide_eq_false|Hn]; [|done]. exfalso. apply Hn.
    apply looked_at_waited; [done|..].
    + pose proof (count_on_elem _ _ _ Hin) as Hone. pose proof (I3 i _ Hs0) as Hw. cbn in Hw.
      destruct (sig_used s); lia.
    + rewrite <-I1. by eapply table_lookup_lt.
  - intros j t Hj Hu. destruct (I5 j t Hj Hu) as [H1 H2]. split; [done|]. rewrite table_alter. case_decide; [|done].
    by apply fmap_is_Some.
  - intros t c' Hc' Hb Hne. destruct (Hnew t c' Hc' Hb) as [(c & Hc & Hbc & _ & Hdl)|[_ Hz]]; [|done].
    rewrite Hdl. apply (I6 t c); [done|done|congruence].
Qed.

Lemma wlp_raise ctx request x l :
  inv x l → wlp (on_kernel (raise ctx request)) (λ _ x', inv x' l) (λ _ x', inv x' l) x.
Proof.
  intros I. apply wlp_on_kernel. unfold raise. apply wlp_bind, wlp_err_if.
  { intros _. by rewrite with_own_kernel. }
  intros _. apply wlp_bind, wlp_read. intros s Hs. apply wlp_bind.
  eapply wlp_mono; [apply wp_is_wlp, wp_raise_bits; [apply (iv_threads _ _ I)|exact Hs]| |by intros ? ? []].
  intros [] k' [Hm Hsw]. apply wlp_bind, wlp_read. intros s' _. apply wlp_ret. by eapply inv_raised.
Qed.
Lemma wlp_raise_bits i g b x l :
  inv x l → wlp (on_kernel (raise_bits i g b)) (λ _ x', inv x' l) (λ _ x', inv x' l) x.
Proof.
  intros I. apply wlp_on_kernel. destruct (m_signals (kn_machine (tk_kernel x)) !! i) as [s|] eqn:Hs.
  - eapply wlp_mono; [apply wp_is_wlp, wp_raise_bits; [apply (iv_threads _ _ I)|exact Hs]| |by intros ? ? []].
    intros [] k' [Hm Hsw]. by eapply inv_raised.
  - unfold raise_bits. apply wlp_bind, wlp_read. congruence.
Qed.

(** ** Waiting keeps it *)

(** Writes to one signal that leave whether it is in use and its generation. *)
Lemma signals_alter i f m :
  (∀ s, sig_view (f s) = f (sig_view s)) → signals_of (on_signal i f m) = alter f i (signals_of m).
Proof. intros Hf. by apply fmap_alter_comm. Qed.

Lemma land_andnot_zero x y z : N.land x z = 0 → N.land (andnot x y) z = 0.
Proof.
  intros Hz. apply N.bits_inj. intros n. pose proof (f_equal (λ w, N.testbit w n) Hz) as H. cbn beta in H.
  unfold andnot. rewrite N.land_spec, N.ldiff_spec, N.bits_0. rewrite N.land_spec, N.bits_0 in H.
  by destruct (N.testbit x n), (N.testbit z n), (N.testbit y n).
Qed.
(** Fewer bits are raised. *)
Lemma inv_consumed i observed x l :
  inv x l → inv (with_machine (on_signal i (λ s, s <| sig_bits ::= λ b, andnot b observed |>) (kn_machine (tk_kernel x))) x) l.
Proof.
  intros [I1 I2 I3 I4 I5 I6]. set (f := λ s : Signal, _).
  assert (∀ s, sig_view (f s) = f (sig_view s)) as Hf by done.
  split; cbn [with_machine tk_kernel kn_machine set_field tk_next_timer tk_next_deadline]; rewrite ?(signals_alter i f _ Hf);
    [done|done|..|done].
  - intros j s' Hs'. rewrite table_alter in Hs'. case_decide; [|by apply I3].
    destruct (_ !! j) as [s0|] eqn:H0; [|done]. injection Hs' as <-. exact (I3 j s0 H0).
  - intros t c j g b Hc Hb Hw. destruct (I4 t c j g b Hc Hb Hw) as (Hin & s & Hs & Hl & Hz). split; [done|].
    rewrite table_alter. case_decide; [|by exists s]. rewrite Hs. exists (f s). split_and!; [done|exact Hl|].
    by apply land_andnot_zero.
  - intros j t Hj Hu. destruct (I5 j t Hj Hu) as [H1 H2]. split; [done|]. rewrite table_alter. case_decide; [|done].
    by apply fmap_is_Some.
Qed.

Lemma count_on_cons t i j l : count_on j ((t, i) :: l) = (if decide (i = j) then 1 else 0) + count_on j l.
Proof. unfold count_on. rewrite filter_cons. cbn. case_decide; unfold tlen; cbn [length]; lia. Qed.

(** A thread not waiting begins to. *)
Lemma inv_waits t i g b deadline waiters s x l next :
  inv x l → t < MAX_THREADS → t ∉ l.*1 →
  m_signals (kn_machine (tk_kernel x)) !! i = Some s → live g s = true → N.land (sig_bits s) b = 0 →
  checked_add 32 (sig_waiters s) 1 = Some waiters →
  next <= tk_next_deadline x → (deadline ≠ 0 → next <= deadline) →
  let cell c := c <| th_wait := mkWaitRecord (Wait.Signal i g b) deadline status.OK 0 Handoff.NONE |>
                  <| th_state := ThreadState.Blocked |> in
  inv (mkTicks (mkKernel (on_signal i (λ s, s <| sig_waiters := waiters |>) (kn_machine (tk_kernel x)))
                 (alter cell t (kn_threads (tk_kernel x))) (kn_deferred (tk_kernel x))) (tk_next_timer x) next)
      ((t, i) :: l).
Proof.
  intros [I1 I2 I3 I4 I5 I6] Ht Hn Hs Hl Hz Hw Hnext Hd cell.
  assert (waiters = sig_waiters s + 1) as ->.
  { unfold checked_add in Hw. case_decide; [|done]. by injection Hw as <-. }
  set (f := λ s0 : Signal, s0 <| sig_waiters := sig_waiters s + 1 |>).
  assert (∀ s, sig_view (f s) = f (sig_view s)) as Hf by done.
  assert (signals_of (kn_machine (tk_kernel x)) !! i = Some (sig_view s)) as Hv by (unfold signals_of; by rewrite table_fmap, Hs).
  split; cbn [tk_kernel kn_machine kn_threads tk_next_timer tk_next_deadline]; rewrite ?(signals_alter i f _ Hf);
    [by rewrite tlen_alter|by apply NoDup_cons|..].
  - intros j s' Hs'. rewrite count_on_cons. rewrite table_alter in Hs'. case_decide as Hd'; [subst j|by apply I3].
    rewrite Hv in Hs'. injection Hs' as <-. cbn. pose proof (I3 i _ Hv) as H. cbn in H.
    unfold live in Hl. destruct (sig_used s); [lia|done].
  - intros t' c' j g' b' Hc' Hb' Hw'. rewrite table_alter in Hc'. case_decide as Hd'; [subst t'|].
    + destruct (_ !! t) as [c|]; [|done]. injection Hc' as <-. cbn in Hw'. injection Hw' as <- <- <-.
      split; [by left|]. exists (f (sig_view s)). by rewrite table_alter_eq, Hv.
    + destruct (I4 t' c' j g' b' Hc' Hb' Hw') as (Hin & s0 & Hs0 & Hl0 & Hz0). split; [by right|].
      rewrite table_alter. case_decide; [|by exists s0]. rewrite Hs0. by exists (f s0).
  - intros j t' Hj Hu. destruct (I5 j t' Hj Hu) as [H1 H2]. split; [done|]. rewrite table_alter. case_decide; [|done].
    by apply fmap_is_Some.
  - intros t' c' Hc' Hb' Hne. rewrite table_alter in Hc'. case_decide as Hd'; [subst t'|].
    + destruct (_ !! t) as [c|]; [|done]. injection Hc' as <-. by apply Hd.
    + etrans; [exact Hnext|]. by apply (I6 t' c').
Qed.

Definition after_attempt (t : N) (l : list (N * N)) (r : N + SignalInfo) (x' : Ticks) : Prop :=
  match r with
  | inl i => t < MAX_THREADS → t ∉ l.*1 → inv x' ((t, i) :: l)
  | inr _ => inv x' l
  end.
Lemma wlp_wait_attempt ctx rights now request x l :
  inv x l →
  wlp (wait_attempt ctx (object_type.SIGNAL, rights) now request) (after_attempt (cx_thread ctx) l) (λ _ x', inv x' l) x.
Proof.
  intros I. unfold wait_attempt. apply wlp_bind, wlp_err_if; [done|intros _].
  apply wlp_bind, wlp_on_kernel, wlp_on_machine.
  eapply wlp_mono; [apply wlp_resolve|..]; cbn [fst].
  2:{ intros e m' ->. by rewrite with_own_machine, with_own_kernel. }
  intros cap m' (-> & Ha & Htype). rewrite with_own_machine, with_own_kernel.
  destruct (alive_signal _ _ (Htype ltac:(done)) Ha) as (s & Hs & Hl). set (i := obj_index _) in *.
  set (g := obj_generation _) in *.
  apply wlp_bind, wlp_on_kernel, wlp_read. intros s0 Hs0. rewrite with_own_kernel.
  assert (s0 = s) as -> by congruence. destruct (negb _) eqn:Hob.
  { apply wlp_bind. apply wlp_on_kernel, wlp_change, wlp_ret. by apply inv_consumed. }
  apply negb_false_iff, bool_decide_eq_true in Hob.
  apply wlp_bind, wlp_err_if; [done|intros _]. apply wlp_bind. unfold prepare_wait. apply wlp_bind, wlp_on_kernel.
  unfold prepare_wait_offering. apply wlp_bind. unfold thread at 1. apply wlp_bind, wlp_gets, wlp_expect. intros c _.
  apply wlp_modify. set (x1 := x <| tk_kernel := _ |>).
  assert (∀ next, next <= tk_next_deadline x → (cx_deadline ctx ≠ 0 → next <= cx_deadline ctx) →
    wlp (waiters ← expect (checked_add 32 (sig_waiters s) 1);
         on_kernel (change (on_signal i (λ s, s <| sig_waiters := waiters |>)));; mret (inl i))
      (after_attempt (cx_thread ctx) l) (λ _ x', inv x' l) (x1 <| tk_next_deadline := next |>)) as Hrest.
  { intros next Hnext Hd. apply wlp_bind, wlp_expect. intros waiters Hw. apply wlp_bind, wlp_on_kernel, wlp_change, wlp_ret.
    intros Ht Hn. unfold x1. rewrite thread_index_id by done.
    exact (inv_waits (cx_thread ctx) i g (wsb_bits request) (cx_deadline ctx) waiters s x l next I Ht Hn Hs Hl Hob Hw Hnext Hd). }
  case_decide as Hd.
  - apply wlp_ret. replace x1 with (x1 <| tk_next_deadline := tk_next_deadline x |>) by (unfold x1; by destruct x).
    apply Hrest; [done|]. by intros ?.
  - apply wlp_modify. apply (Hrest (N.min (cx_deadline ctx) (tk_next_deadline x))); lia.
Qed.

(** What is left when a thread leaves its wait. *)
Definition without (t : N) (l : list (N * N)) : list (N * N) := filter (λ p, p.1 ≠ t) l.
Lemma NoDup_without t l : NoDup l.*1 → NoDup (without t l).*1.
Proof. intros H. eapply sublist_NoDup; [exact H|]. apply fmap_sublist, sublist_filter. Qed.
Lemma count_without t l j : count_on j (without t l) <= count_on j l.
Proof.
  induction l as [|[t' i'] l IH]; [done|]. unfold without in *. rewrite filter_cons, count_on_cons.
  case_decide; [rewrite count_on_cons|]; case_decide; lia.
Qed.
Lemma count_leaves t i l : NoDup l.*1 → (t, i) ∈ l → count_on i (without t l) + 1 <= count_on i l.
Proof.
  induction l as [|[t' i'] l IH]; intros Hnd Hin; [by apply not_elem_of_nil in Hin|].
  cbn in Hnd. apply NoDup_cons in Hnd as [Hn Hnd]. rewrite count_on_cons. unfold without. rewrite filter_cons. cbn.
  apply elem_of_cons in Hin as [[= -> ->]|Hin].
  - rewrite decide_False by (by intros []). pose proof (count_without t' l i') as H. unfold without in H.
    rewrite decide_True by done. lia.
  - assert (t' ≠ t) as Hne. { intros ->. apply Hn, list_elem_of_fmap. by exists (t, i). }
    rewrite decide_True by done. rewrite count_on_cons. pose proof (IH Hnd Hin) as H. unfold without in H. lia.
Qed.

(** A thread that is not blocked is no longer counted. *)
Lemma inv_without t x l :
  (∀ c, kn_threads (tk_kernel x) !! t = Some c → ¬ blocked c) → inv x l → inv x (without t l).
Proof.
  intros Hn [I1 I2 I3 I4 I5 I6]. split; [done|by apply NoDup_without|..|done|done].
  - intros i s Hs. etrans; [apply count_without|by apply I3].
  - intros t' c i g b Hc Hb Hw. destruct (I4 t' c i g b Hc Hb Hw) as [Hin H]. split; [|done].
    apply list_elem_of_filter. split; [|done]. cbn. intros ->. by apply (Hn c).
Qed.
Lemma inv_leaves t i x l :
  (∀ c, kn_threads (tk_kernel x) !! t = Some c → ¬ blocked c) → (t, i) ∈ l → inv x l →
  inv (with_machine (on_signal i (λ s, s <| sig_waiters ::= λ w, saturating_sub w 1 |>) (kn_machine (tk_kernel x))) x) (without t l).
Proof.
  intros Hn Hin I. pose proof (inv_without t x l Hn I) as [_ I2 I3 I4 I5 I6]. pose proof (iv_count _ _ I i) as Hi.
  set (f := λ s : Signal, _). assert (∀ s, sig_view (f s) = f (sig_view s)) as Hf by done.
  split; cbn [with_machine tk_kernel kn_machine set_field tk_next_timer tk_next_deadline]; rewrite ?(signals_alter i f _ Hf);
    [apply I|done|..|done].
  - intros j s' Hs'. rewrite table_alter in Hs'. case_decide; [subst j|by apply I3].
    destruct (_ !! i) as [s0|] eqn:H0; [|done]. injection Hs' as <-. specialize (Hi s0 eq_refl).
    pose proof (count_leaves t i l (iv_nodup _ _ I) Hin) as Hlt. unfold f. cbn. unfold saturating_sub.
    destruct (sig_used s0); lia.
  - intros t' c j g b Hc Hb Hw. destruct (I4 t' c j g b Hc Hb Hw) as (Hin' & s & Hs & Hl & Hz). split; [done|].
    rewrite table_alter. case_decide; [|by exists s]. rewrite Hs. by exists (f s).
  - intros j t' Hj Hu. destruct (I5 j t' Hj Hu) as [H1 H2]. split; [done|]. rewrite table_alter. case_decide; [|done].
    by apply fmap_is_Some.
Qed.

Lemma wlp_wait_resume t i x l :
  t < MAX_THREADS → (∀ c, kn_threads (tk_kernel x) !! t = Some c → ¬ blocked c) → (t, i) ∈ l → inv x l →
  wlp (on_kernel (wait_resume t i)) (λ _ x', inv x' (without t l)) (λ _ x', inv x' (without t l)) x.
Proof.
  intros Ht Hn Hin I. apply wlp_on_kernel. unfold wait_resume. apply wlp_bind. unfold take_wake_status.
  apply wlp_bind. unfold thread. apply wlp_bind, wlp_gets, wlp_expect. intros c Hc. apply wlp_bind.
  apply wlp_modify, wlp_ret. rewrite thread_index_id in * by done. set (k1 := _ <| kn_threads ::= _ |>).
  assert (no_new_wait (tk_kernel x) k1) as Hnew.
  { split; cbn -[alter]; [by rewrite tlen_alter|]. intros t' c' Hc' Hb. left. rewrite table_alter in Hc'.
    case_decide; [subst t'|by exists c']. rewrite Hc in Hc'. injection Hc' as <-. by apply Hn in Hc. }
  assert (inv (x <| tk_kernel := k1 |>) l) as I1 by (eapply inv_beside; [apply beside_no_new; [|exact Hnew]; done|done]).
  assert (∀ c', kn_threads k1 !! t = Some c' → ¬ blocked c') as Hn1.
  { intros c'. cbn -[alter]. rewrite table_alter_eq, Hc. intros [= <-]. exact (Hn c Hc). }
  apply wlp_bind, wlp_gets. apply wlp_bind.
  assert (∀ m', inv (x <| tk_kernel := k1 <| kn_machine := m' |> |>) (without t l) →
    wlp (err_if (negb (bool_decide (wt_wake_status (th_wait c) = status.OK))) (wt_wake_status (th_wait c)))
      (λ _ k, inv (x <| tk_kernel := k |>) (without t l)) (λ _ k, inv (x <| tk_kernel := k |>) (without t l))
      (k1 <| kn_machine := m' |>)) as Hend.
  { intros m' I'. by apply wlp_err_if; intros _. }
  destruct (from_option _ _ _).
  - apply wlp_change. apply Hend. exact (inv_leaves t i (x <| tk_kernel := k1 |>) l Hn1 Hin I1).
  - apply wlp_ret. pose proof (Hend (kn_machine k1)) as H. rewrite with_own_machine in H. apply H.
    exact (inv_without t (x <| tk_kernel := k1 |>) l Hn1 I1).
Qed.

(** ** Timers keep it *)

Lemma inv_timers f n x l :
  (∀ i t, f (m_timers (kn_machine (tk_kernel x))) !! i = Some t → tm_used t = true →
     (tm_armed t = true → n <= tm_deadline_ns t) ∧ is_Some (signals_of (kn_machine (tk_kernel x)) !! tm_signal t)) →
  inv x l → inv (x <| tk_kernel ::= λ k, k <| kn_machine ::= λ m, m <| m_timers ::= f |> |> |> <| tk_next_timer := n |>) l.
Proof.
  intros Hf [I1 I2 I3 I4 I5 I6]. split; [done..| |done]. intros i t Ht Hu.
  destruct (lookup_view _ _ _ _ Ht) as (t0 & Ht0 & ->). by apply (Hf i t0).
Qed.
Lemma inv_timer_at x l i t :
  inv x l → m_timers (kn_machine (tk_kernel x)) !! i = Some t → tm_used t = true →
  (tm_armed t = true → tk_next_timer x <= tm_deadline_ns t) ∧ is_Some (signals_of (kn_machine (tk_kernel x)) !! tm_signal t).
Proof.
  intros I Ht Hu. apply (iv_timer _ _ I i (tm_view t)); [|done]. unfold timers_of. by rewrite table_fmap, Ht.
Qed.
(** A write to a timer that disarms it, or arms it for no earlier than what the tick
    looks at. *)
Lemma inv_on_timer i f n x l :
  (∀ t, tm_used (f t) = tm_used t ∧ tm_signal (f t) = tm_signal t ∧ (tm_armed (f t) = true → n <= tm_deadline_ns (f t))) →
  n <= tk_next_timer x → inv x l →
  inv (x <| tk_kernel ::= λ k, k <| kn_machine ::= on_timer i f |> |> <| tk_next_timer := n |>) l.
Proof.
  intros Hf Hn I. apply (inv_timers (alter f i)); [|done]. intros j t Ht Hu. rewrite table_alter in Ht. case_decide.
  - destruct (_ !! j) as [t0|] eqn:H0; [|done]. injection Ht as <-. destruct (Hf t0) as (H1 & H2 & H3).
    split; [exact H3|]. rewrite H2. apply (inv_timer_at x l j t0 I H0). congruence.
  - destruct (inv_timer_at x l j t I Ht Hu) as [H1 H2]. split; [|done]. intros Ha. etrans; [exact Hn|by apply H1].
Qed.

Lemma foldr_min_le d l y : y ∈ d :: l → foldr N.min d l <= y.
Proof.
  induction l as [|z l IH]; cbn [foldr].
  - intros ->%list_elem_of_singleton. done.
  - intros [->|[->|Hy]%elem_of_cons]%elem_of_cons; [|lia|].
    + etrans; [|apply IH; left]. lia.
    + etrans; [|apply IH; by right]. lia.
Qed.
Definition next_armed (timers : list Timer) : N :=
  match armed_deadlines timers with [] => U64_MAX | d :: l => foldr N.min d l end.
Lemma next_armed_le timers i t :
  timers !! i = Some t → tm_used t = true → tm_armed t = true → next_armed timers <= tm_deadline_ns t.
Proof.
  intros Ht Hu Ha. assert (tm_deadline_ns t ∈ armed_deadlines timers) as H.
  { apply list_elem_of_fmap. exists t. split; [done|]. apply list_elem_of_filter. split; [by rewrite Hu, Ha|].
    by eapply list_elem_of_lookup_2. }
  unfold next_armed. destruct (armed_deadlines timers) as [|d l]; [by apply not_elem_of_nil in H|]. by apply foldr_min_le.
Qed.
Lemma inv_recompute x l : inv x l → inv (x <| tk_next_timer := next_armed (m_timers (kn_machine (tk_kernel x))) |>) l.
Proof.
  intros I. pose proof I as [I1 I2 I3 I4 I5 I6]. split; [exact I1|exact I2|exact I3|exact I4| |exact I6].
  intros i t Ht Hu. destruct (lookup_view _ _ _ _ Ht) as (t0 & Ht0 & ->).
  split; [exact (next_armed_le _ i t0 Ht0 Hu)|]. exact (proj2 (inv_timer_at x l i t0 I Ht0 Hu)).
Qed.

Lemma wlp_arm ctx request x l : inv x l → wlp (arm ctx request) (λ _ x', inv x' l) (λ _ x', inv x' l) x.
Proof.
  intros I. unfold arm. apply wlp_bind, wlp_err_if; [done|intros _]. apply wlp_bind, wlp_on_kernel, wlp_read.
  intros t _. rewrite with_own_kernel. apply wlp_bind, wlp_on_kernel, wlp_change. apply wlp_bind, wlp_modify, wlp_ret.
  apply (inv_on_timer _ _ (N.min (wta_deadline_ns request) (tk_next_timer x))); [|lia|done].
  intros t0. split_and!; [done..|]. cbn. lia.
Qed.
Lemma wlp_cancel ctx x l : inv x l → wlp (cancel ctx) (λ _ x', inv x' l) (λ _ x', inv x' l) x.
Proof.
  intros I. unfold cancel. apply wlp_bind, wlp_on_kernel, wlp_read. intros t _. rewrite with_own_kernel.
  apply wlp_bind, wlp_on_kernel, wlp_change. apply wlp_bind, wlp_modify, wlp_ret. set (x1 := x <| tk_kernel := _ |>).
  apply (inv_recompute x1). apply (inv_on_timer _ _ (tk_next_timer x)); [|done|done]. intros t0. by split_and!.
Qed.

(** ** Expiry *)

Definition bits_in (a b : N) : Prop := N.land a b = a.
Lemma bits_in_lor_l a b : bits_in a (N.lor a b).
Proof. unfold bits_in. apply N.bits_inj. intros n. rewrite N.land_spec, N.lor_spec. by destruct (N.testbit a n). Qed.
Lemma bits_in_lor_r a b : bits_in b (N.lor a b).
Proof. rewrite N.lor_comm. apply bits_in_lor_l. Qed.
#[global] Instance bits_in_preorder : PreOrder bits_in.
Proof.
  split; [intros a; apply N.land_diag|]. unfold bits_in. intros a b c H1 H2. by rewrite <-H1, <-N.land_assoc, H2.
Qed.

(** Signals are raised, and none other written. *)
Definition grown (m m' : Machine) : Prop := ∀ j s, m_signals m !! j = Some s →
  ∃ s', m_signals m' !! j = Some s' ∧ sig_used s' = sig_used s ∧ sig_generation s' = sig_generation s ∧
        bits_in (sig_bits s) (sig_bits s').
#[global] Instance grown_preorder : PreOrder grown.
Proof.
  split.
  - intros m j s Hs. by exists s.
  - intros m1 m2 m3 H1 H2 j s Hs. destruct (H1 j s Hs) as (s1 & Hs1 & Hu1 & Hg1 & Hb1).
    destruct (H2 j s1 Hs1) as (s2 & Hs2 & Hu2 & Hg2 & Hb2). exists s2. split_and!; [done|congruence..|by etrans].
Qed.
(** The signal of a timer, if it still is the one the timer was bound to, has its bits. *)
Definition raised_for (t : Timer) (m m' : Machine) : Prop := ∀ s,
  m_signals m !! tm_signal t = Some s → live (tm_signal_generation t) s = true →
  ∃ s', m_signals m' !! tm_signal t = Some s' ∧ bits_in (tm_bits t) (sig_bits s').
Lemma raised_for_before t m0 m m' : grown m0 m → raised_for t m m' → raised_for t m0 m'.
Proof.
  intros Hg Hr s Hs Hl. destruct (Hg _ s Hs) as (s1 & Hs1 & Hu & Hgen & _). apply (Hr s1 Hs1).
  unfold live in *. by rewrite Hu, Hgen.
Qed.
Lemma raised_for_after t m m' m2 : raised_for t m m' → grown m' m2 → raised_for t m m2.
Proof.
  intros Hr Hg s Hs Hl. destruct (Hr s Hs Hl) as (s1 & Hs1 & Hb). destruct (Hg _ s1 Hs1) as (s2 & Hs2 & _ & _ & Hb2).
  exists s2. split; [done|by etrans].
Qed.
Lemma raised_for_timer t t' m m' :
  tm_signal t' = tm_signal t → tm_signal_generation t' = tm_signal_generation t → tm_bits t' = tm_bits t →
  raised_for t' m m' → raised_for t m m'.
Proof. unfold raised_for. by intros -> -> ->. Qed.

Definition disarmed (t : Timer) : Timer := t <| tm_armed := false |> <| tm_fired ::= λ n, n + 1 |>.
Definition expired (now : N) (t : Timer) : Timer := if is_due now t then disarmed t else t.

Record fired (now : N) (l : list N) (x : Ticks) (w : list (N * N)) (n : N) (k' : Kernel) : Prop := {
  fd_inv : inv (x <| tk_kernel := k' |>) w;
  fd_count : n = tlen (filter (λ i, from_option (is_due now) false (m_timers (kn_machine (tk_kernel x)) !! i)) l);
  fd_timers i : m_timers (kn_machine k') !! i =
    (if decide (i ∈ l) then expired now else id) <$> m_timers (kn_machine (tk_kernel x)) !! i;
  fd_grown : grown (kn_machine (tk_kernel x)) (kn_machine k');
  fd_raised i t : i ∈ l → m_timers (kn_machine (tk_kernel x)) !! i = Some t → is_due now t = true →
    raised_for t (kn_machine (tk_kernel x)) (kn_machine k')
}.

Lemma wp_fire now i x w t :
  inv x w → m_timers (kn_machine (tk_kernel x)) !! i = Some t →
  wp (fire now i) (λ b k', b = is_due now t ∧ inv (x <| tk_kernel := k' |>) w ∧
        m_timers (kn_machine k') = alter (expired now) i (m_timers (kn_machine (tk_kernel x))) ∧
        grown (kn_machine (tk_kernel x)) (kn_machine k') ∧
        (is_due now t = true → raised_for t (kn_machine (tk_kernel x)) (kn_machine k'))) (λ _ _, False) (tk_kernel x).
Proof.
  intros I Ht. unfold fire. apply (wp_read _ _ t); [done|]. destruct (is_due now t) eqn:Hd; cbn [negb].
  2:{ apply wp_ret. split_and!; [done|by rewrite with_own_kernel| |done|done]. symmetry.
      rewrite (table_alter_as_insert _ _ _ _ Ht). unfold expired. rewrite Hd. by apply table_insert_id. }
  assert (tm_used t = true) as Hu by (unfold is_due in Hd; by destruct (tm_used t)).
  destruct (inv_timer_at x w i t I Ht Hu) as [_ [v Hv]]. destruct (lookup_view _ _ _ _ Hv) as (s & Hs & _).
  apply wp_bind, wp_modify. set (k1 := (tk_kernel x) <| kn_machine ::= _ |>).
  assert (inv (x <| tk_kernel := k1 |>) w) as I1.
  { apply (inv_on_timer i disarmed (tk_next_timer x)); [|done|done]. intros t0. by split_and!. }
  apply wp_bind. eapply wp_mono; [apply (wp_raise_bits _ _ _ k1 s); [apply (iv_threads _ _ I)|exact Hs]| |done].
  intros [] k' [Hm Hsw]. apply wp_ret.
  assert (m_timers (kn_machine k') = alter disarmed i (m_timers (kn_machine (tk_kernel x)))) as Htm by (rewrite Hm; by destruct (live _ _)).
  assert (inv (x <| tk_kernel := k' |>) w) as I2.
  { refine (inv_raised (tm_signal t) (tm_signal_generation t) (tm_bits t) (x <| tk_kernel := k1 |>) k' s w _ _ Hsw I1); [exact Hs|].
    cbn [tk_kernel set_field]. exact Hm. }
  split_and!; [done|exact I2|..].
  - rewrite Htm, !(table_alter_as_insert _ _ _ _ Ht). unfold expired. by rewrite Hd.
  - rewrite Hm. intros j s0 Hs0. destruct (live _ _); [|by exists s0]. cbn -[alter]. rewrite table_alter.
    case_decide; [|by exists s0]. rewrite Hs0. eexists. split_and!; [done..|]. apply bits_in_lor_l.
  - intros _ s0 Hs0 Hl. assert (s0 = s) as -> by congruence. rewrite Hm, Hl. cbn -[alter]. rewrite table_alter_eq, Hs.
    eexists. split; [done|]. apply bits_in_lor_r.
Qed.

Lemma is_due_expired now t : is_due now (expired now t) = false.
Proof. unfold expired. destruct (is_due now t) eqn:H; [|done]. unfold is_due. cbn. by rewrite andb_false_r. Qed.

Lemma wp_wlp_and {S A} (c : K S A) (Q Q' : A → S → Prop) E E' s :
  wlp c Q E s → wp c Q' E' s → wp c (λ a s', Q a s' ∧ Q' a s') E' s.
Proof. unfold wp, wlp. by destruct (c s). Qed.

Lemma wp_fire_all now l x w :
  inv x w → NoDup l → (∀ i, i ∈ l → i < tlen (m_timers (kn_machine (tk_kernel x)))) →
  wp (fire_all now l) (fired now l x w) (λ _ _, False) (tk_kernel x).
Proof.
  revert x. induction l as [|i l IH]; intros x I Hnd Hlt.
  { apply wp_ret. split; [by rewrite with_own_kernel|done| |done|].
    - intros i. rewrite decide_False by apply not_elem_of_nil. by rewrite option_fmap_id.
    - intros i t Hi. by apply not_elem_of_nil in Hi. }
  apply NoDup_cons in Hnd as [Hn Hnd]. cbn [fire_all].
  destruct (proj1 (table_lookup_is_Some (m_timers (kn_machine (tk_kernel x))) i)) as [t Ht]; [apply Hlt; left|].
  apply wp_bind. eapply wp_mono; [by apply (wp_fire now i x w t)| |done].
  intros b k1 (-> & I1 & Htm & Hg & Hr). apply wp_bind.
  eapply wp_mono; [apply (IH (x <| tk_kernel := k1 |>) I1 Hnd)| |done].
  { intros j Hj. cbn [tk_kernel set_field]. rewrite Htm, tlen_alter. apply Hlt. by right. }
  intros n k2 [I2 Hc2 Ht2 Hg2 Hr2]. cbn [tk_kernel set_field] in Hc2, Ht2, Hg2, Hr2. apply wp_ret.
  assert (∀ j, j ∈ l → m_timers (kn_machine k1) !! j = m_timers (kn_machine (tk_kernel x)) !! j) as Hsame.
  { intros j Hj. rewrite Htm. apply table_alter_ne. by intros <-. }
  split; [exact I2|..].
  - rewrite filter_cons, Ht. cbn [from_option]. rewrite Hc2.
    assert (filter (λ i, from_option (is_due now) false (m_timers (kn_machine k1) !! i)) l =
            filter (λ i, from_option (is_due now) false (m_timers (kn_machine (tk_kernel x)) !! i)) l) as ->.
    { apply filter_agree. intros j Hj. by rewrite Hsame. }
    destruct (is_due now t); [rewrite decide_True by done|rewrite decide_False by (by intros [])];
      unfold tlen; cbn [length]; lia.
  - intros j. rewrite Ht2, Htm, table_alter. destruct (decide (i = j)) as [<-|Hne].
    + rewrite (decide_False (P := i ∈ l)) by done. rewrite decide_True by left. by rewrite option_fmap_id.
    + by rewrite (decide_ext _ (j ∈ i :: l)) by set_solver.
  - by etrans.
  - intros j tj Hj Htj Hdue. apply elem_of_cons in Hj as [->|Hj].
    + assert (tj = t) as -> by congruence. eapply raised_for_after; [by apply Hr|done].
    + eapply raised_for_before; [exact Hg|]. apply (Hr2 j); [done|by rewrite Hsame|done].
Qed.

(** What an expiry leaves. *)
Record expiry (now : N) (x : Ticks) (w : list (N * N)) (n : N) (x' : Ticks) : Prop := {
  ex_inv : inv x' w;
  ex_count : n = tlen (filter (is_due now) (m_timers (kn_machine (tk_kernel x))));
  ex_timers : m_timers (kn_machine (tk_kernel x')) = expired now <$> m_timers (kn_machine (tk_kernel x));
  ex_next : tk_next_timer x' = next_armed (m_timers (kn_machine (tk_kernel x')));
  ex_raised i t : m_timers (kn_machine (tk_kernel x)) !! i = Some t → is_due now t = true →
    raised_for t (kn_machine (tk_kernel x)) (kn_machine (tk_kernel x'))
}.
Lemma count_indices (p : Timer → bool) (l : list Timer) :
  tlen (filter (λ i, from_option p false (l !! i)) (range 0 (tlen l))) = tlen (filter p l).
Proof.
  unfold range, tlen. rewrite Nat2N.id, Nat.sub_0_r. change (N.to_nat 0) with 0%nat. induction l as [|t l IH] using rev_ind; [done|].
  rewrite length_app, seq_app, fmap_app, !filter_app, !length_app, !Nat2N.inj_add. rewrite <-IH.
  assert (∀ n : nat, (n < length l)%nat → (l ++ [t]) !! N.of_nat n = l !! N.of_nat n) as Hl.
  { intros n Hn. rewrite !table_lookup_nat. by apply lookup_app_l. }
  assert ((l ++ [t]) !! N.of_nat (length l) = Some t) as Ht.
  { rewrite table_lookup_nat, lookup_app_r, Nat.sub_diag by lia. done. }
  f_equal.
  - f_equal. f_equal. apply filter_agree. intros i Hi. apply list_elem_of_fmap in Hi as (n & -> & Hn%elem_of_seq).
    rewrite Hl by lia. done.
  - change (N.of_nat <$> seq (0 + length l) (length [t])) with [N.of_nat (length l)].
    rewrite !filter_cons, !filter_nil, Ht. cbn [from_option]. by destruct (decide (p t)).
Qed.

Lemma wp_expire now x w : inv x w → wp (expire now) (expiry now x w) (λ _ _, False) x.
Proof.
  intros I. unfold expire. apply wp_bind, wp_on_kernel, wp_gets. rewrite with_own_kernel. apply wp_bind, wp_on_kernel.
  eapply wp_mono; [apply (wp_fire_all now _ x w I)| |done].
  - apply NoDup_range.
  - intros i Hi%range_elem. lia.
  - intros n k' [I' Hc Ht _ Hr]. apply wp_bind, wp_modify, wp_ret. split.
    + exact (inv_recompute _ _ I').
    + by rewrite Hc, count_indices.
    + cbn [tk_kernel set_field]. apply table_eq. intros i. rewrite table_fmap, Ht. case_decide as Hi; [done|].
      rewrite table_lookup_ge; [done|]. rewrite range_elem in Hi. lia.
    + done.
    + intros i t Hi. apply (Hr i t); [|done]. apply range_elem. apply table_lookup_lt in Hi. lia.
Qed.

Lemma next_armed_gt now timers :
  now < U64_MAX → (∀ t, t ∈ timers → is_due now t = false) → now < next_armed timers.
Proof.
  intros Hn Hd. unfold next_armed. assert (∀ d, d ∈ armed_deadlines timers → now < d) as H.
  { intros d (t & -> & Ht)%list_elem_of_fmap. apply list_elem_of_filter in Ht as [Hua Ht].
    apply Is_true_true in Hua. specialize (Hd t Ht). unfold is_due in Hd. rewrite Hua in Hd.
    apply bool_decide_eq_false in Hd. lia. }
  destruct (armed_deadlines timers) as [|d l]; [done|].
  assert (now < d) as Hd0 by (apply H; left). assert (∀ z, z ∈ l → now < z) as Hl by (intros z Hz; apply H; by right).
  clear H Hd. induction l as [|z l IH]; cbn [foldr]; [done|].
  apply N.min_glb_lt; [apply Hl; left|]. apply IH. intros z' Hz'. apply Hl. by right.
Qed.

(** ** Deadlines of waits *)

Definition overdue (now : N) (c : ThreadCell) : bool :=
  bool_decide (th_state c = ThreadState.Blocked) && is_past now (th_wait c).
(** A thread whose wait its deadline ended. *)
Definition timed_out (c : ThreadCell) : ThreadCell := c <| th_wait := woken status.TIMED_OUT |> <| th_state := ThreadState.Ready |>.
Definition past (now : N) (c : ThreadCell) : ThreadCell := if overdue now c then timed_out c else c.

Lemma wp_wake_if t now c k :
  t < MAX_THREADS → kn_threads k !! t = Some c → tlen (kn_threads k) = MAX_THREADS → overdue now c = true →
  wp (wake_if t (is_past now) status.TIMED_OUT 0)
    (λ b k', b = true ∧ k' = k <| kn_threads := <[t := timed_out c]> (kn_threads k) |>) (λ _ _, False) k.
Proof.
  intros Ht Hc Hl [Hb%bool_decide_eq_true Hp]%andb_prop. unfold wake_if, claim_handoff. apply wp_bind.
  eapply wp_thread; [done|exact Hc|]. rewrite bool_decide_eq_true_2, Hp by done. cbn [negb orb].
  apply wp_bind. eapply wp_on_thread; [done|exact Hc|]. apply wp_ret. apply wp_bind. unfold wake.
  set (c1 := c <| th_wait := _ |>). eapply (wp_thread _ _ _ _ _ c1); [done|cbn; apply table_insert_eq; lia|].
  rewrite bool_decide_eq_true_2 by (cbn; rewrite Hb; left).
  eapply wp_on_thread; [done|cbn; apply table_insert_eq; lia|]. apply wp_ret. split; [done|].
  cbn -[insert]. by rewrite table_insert_insert.
Qed.

Lemma wp_expire_from now l woken next k :
  NoDup l → (∀ t, t ∈ l → t < MAX_THREADS) → tlen (kn_threads k) = MAX_THREADS →
  wp (expire_from now l woken next)
    (λ _ k', kn_machine k' = kn_machine k ∧
       ∀ t, kn_threads k' !! t = (if decide (t ∈ l) then past now else id) <$> kn_threads k !! t) (λ _ _, False) k.
Proof.
  revert woken next k. induction l as [|t l IH]; intros woken next k Hnd Hlt Hl.
  { apply wp_ret. split; [done|]. intros t. rewrite decide_False by apply not_elem_of_nil. by rewrite option_fmap_id. }
  apply NoDup_cons in Hnd as [Hn Hnd]. assert (t < MAX_THREADS) as Ht by (apply Hlt; left).
  assert (∀ t, t ∈ l → t < MAX_THREADS) as Hlt' by (intros ? ?; apply Hlt; by right).
  destruct (at_thread k t Hl Ht) as [c Hc]. cbn [expire_from]. eapply wp_thread; [done|exact Hc|]. cbv zeta.
  assert (∀ woken next k1, kn_machine k1 = kn_machine k → kn_threads k1 = <[t := past now c]> (kn_threads k) →
    wp (expire_from now l woken next)
      (λ _ k', kn_machine k' = kn_machine k ∧
         ∀ t', kn_threads k' !! t' = (if decide (t' ∈ t :: l) then past now else id) <$> kn_threads k !! t') (λ _ _, False) k1) as Hrest.
  { intros w n k1 Hm Hth. eapply wp_mono; [apply IH; [done|done|by rewrite Hth, tlen_insert]| |done].
    intros _ k' [Hm' Ht']. split; [congruence|]. intros t'. rewrite Ht', Hth. destruct (decide (t = t')) as [<-|Hne].
    - rewrite (decide_False (P := t ∈ l)), decide_True by (done || left). rewrite table_insert_eq by lia. by rewrite Hc.
    - rewrite table_insert_ne by done. by rewrite (decide_ext _ (t' ∈ t :: l)) by set_solver. }
  assert (overdue now c = false → ∀ woken next, wp (expire_from now l woken next)
    (λ _ k', kn_machine k' = kn_machine k ∧
         ∀ t', kn_threads k' !! t' = (if decide (t' ∈ t :: l) then past now else id) <$> kn_threads k !! t') (λ _ _, False) k) as Hskip.
  { intros Ho w n. apply Hrest; [done|]. unfold past. rewrite Ho. by rewrite table_insert_id. }
  destruct (negb _ || _) eqn:Hskipped.
  { apply Hskip. unfold overdue, is_past. apply orb_true_iff in Hskipped as [H%negb_true_iff|H]; rewrite H; [done|].
    by rewrite andb_false_r. }
  apply orb_false_iff in Hskipped as [H1%negb_false_iff H2]. destruct (decide (wt_deadline_ns (th_wait c) <= now)) as [Hd|Hd].
  - assert (overdue now c = true) as Ho.
    { unfold overdue, is_past. by rewrite H1, H2, bool_decide_eq_true_2. }
    apply wp_bind. eapply wp_mono; [by apply (wp_wake_if t now c k)| |done]. intros b k1 [-> ->].
    apply Hrest; [done|]. unfold past. by rewrite Ho.
  - apply Hskip. unfold overdue, is_past. by rewrite H1, H2, bool_decide_eq_false_2.
Qed.

(** What the end of the waits whose deadline has passed leaves. *)
Lemma wp_expire_waits now x w :
  inv x w →
  wp (expire_waits now) (λ _ x', inv x' w ∧ kn_machine (tk_kernel x') = kn_machine (tk_kernel x) ∧
        kn_threads (tk_kernel x') = past now <$> kn_threads (tk_kernel x)) (λ _ _, False) x.
Proof.
  intros I. unfold expire_waits. apply wp_bind, wp_gets. case_decide as Hd.
  - apply wp_ret. split_and!; [done..|]. symmetry. apply table_eq. intros t. rewrite table_fmap.
    destruct (kn_threads (tk_kernel x) !! t) as [c|] eqn:Hc; [|done]. cbn. f_equal. unfold past, overdue, is_past.
    case_bool_decide as Hb; [|done]. case_bool_decide as Hz; [done|]. cbn.
    pose proof (iv_deadline _ _ I t c Hc Hb Hz). by rewrite bool_decide_eq_false_2 by lia.
  - apply wp_bind, wp_on_kernel. eapply wp_mono.
    { eapply wp_wlp_and; [apply keeps_new_expire_from|].
      apply (wp_expire_from now (range 0 MAX_THREADS)); [apply NoDup_range|intros t Ht%range_elem; lia|apply I]. }
    2: by intros ? ? [].
    cbv beta. intros r k' (Hkeep & Hm & Ht). apply wp_bind, wp_modify, wp_ret.
    split_and!; [|done|].
    + eapply inv_beside; [|exact I]. apply beside_sooner, beside_no_new; [|done]. unfold same. by rewrite Hm.
    + apply table_eq. intros t. cbn [tk_kernel set_field]. rewrite table_fmap, Ht. case_decide as Hin; [done|].
      rewrite table_lookup_ge; [done|]. rewrite range_elem in Hin. pose proof (iv_threads _ _ I). lia.
Qed.

(** ** Runs *)

Definition ends {S A} (c : K S A) (s s' : S) : Prop := (∃ a, c s = Done a s') ∨ ∃ e, c s = Fail e s'.
Lemma wlp_ends {S A} (c : K S A) (P : S → Prop) s s' : wlp c (λ _, P) (λ _, P) s → ends c s s' → P s'.
Proof. intros H [[a Ha]|[e He]]; [exact (wlp_done c _ _ s a s' H Ha)|exact (wlp_fail c _ _ s e s' H He)]. Qed.

(** The slot of a signal and of a timer as retirement leaves it. *)
Definition vacated_signal (s : Signal) : Signal := Signal.empty <| sig_generation := sig_generation s |>.
Definition vacated_timer (t : Timer) : Timer := Timer.empty <| tm_generation := tm_generation t |>.

(** The state, with the threads that are in a wait and the signal each is on. *)
Record World := mkWorld { w_ticks : Ticks; w_waiting : list (N * N) }.
Definition machine_of (x : World) : Machine := kn_machine (tk_kernel (w_ticks x)).
Definition threads_of (x : World) : list ThreadCell := kn_threads (tk_kernel (w_ticks x)).
Definition unblocked (t : N) (x : World) : Prop := ∀ c, threads_of x !! t = Some c → ¬ blocked c.

Inductive step (x : World) : World → Prop :=
| step_create_signal ctx m : ends (create_signal ctx) (machine_of x) m → step x (mkWorld (with_machine m (w_ticks x)) (w_waiting x))
| step_create_timer ctx request m :
    ends (create_timer ctx request) (machine_of x) m → step x (mkWorld (with_machine m (w_ticks x)) (w_waiting x))
| step_raise ctx request k : ends (on_kernel (raise ctx request)) (w_ticks x) k → step x (mkWorld k (w_waiting x))
| step_raise_bits i g b k : ends (on_kernel (raise_bits i g b)) (w_ticks x) k → step x (mkWorld k (w_waiting x))
| step_wait ctx rights now request i k :
    wait_attempt ctx (object_type.SIGNAL, rights) now request (w_ticks x) = Done (inl i) k →
    cx_thread ctx < MAX_THREADS → cx_thread ctx ∉ (w_waiting x).*1 →
    step x (mkWorld k ((cx_thread ctx, i) :: w_waiting x))
| step_observe ctx rights now request info k :
    wait_attempt ctx (object_type.SIGNAL, rights) now request (w_ticks x) = Done (inr info) k → step x (mkWorld k (w_waiting x))
| step_refuse ctx rights now request e k :
    wait_attempt ctx (object_type.SIGNAL, rights) now request (w_ticks x) = Fail e k → step x (mkWorld k (w_waiting x))
| step_resume t i k :
    t < MAX_THREADS → unblocked t x → (t, i) ∈ w_waiting x → ends (on_kernel (wait_resume t i)) (w_ticks x) k →
    step x (mkWorld k (without t (w_waiting x)))
| step_arm ctx request k : ends (arm ctx request) (w_ticks x) k → step x (mkWorld k (w_waiting x))
| step_cancel ctx k : ends (cancel ctx) (w_ticks x) k → step x (mkWorld k (w_waiting x))
| step_expire now k : ends (expire now) (w_ticks x) k → step x (mkWorld k (w_waiting x))
| step_expire_waits now k : ends (expire_waits now) (w_ticks x) k → step x (mkWorld k (w_waiting x))
| step_flush k : ends (on_kernel flush_wakes) (w_ticks x) k → step x (mkWorld k (w_waiting x))
| step_vacate_signal i : count_on i (w_waiting x) = 0 →
    step x (mkWorld (with_machine (on_signal i vacated_signal (machine_of x)) (w_ticks x)) (w_waiting x))
| step_vacate_timer i : step x (mkWorld (with_machine (on_timer i vacated_timer (machine_of x)) (w_ticks x)) (w_waiting x))
| step_die t : unblocked t x → step x (mkWorld (w_ticks x) (without t (w_waiting x)))
| step_beside k : beside (w_ticks x) k → step x (mkWorld k (w_waiting x)).

(** No object made, no thread waiting. *)
Definition booted (t : Scopes) : World :=
  mkWorld (mkTicks (mkKernel (Machine.new t) (replicate (N.to_nat MAX_THREADS) ThreadCell.empty) []) U64_MAX U64_MAX) [].

Lemma events_inv_booted t : inv (w_ticks (booted t)) (w_waiting (booted t)).
Proof.
  split; [done|constructor|..].
  - intros i s Hs. apply N.le_0_l.
  - intros n c i g b Hc Hb _. unfold lookup, table_Lookup in Hc. cbn in Hc.
    apply lookup_replicate in Hc as [-> _]. done.
  - intros i n Hn Hu. destruct (lookup_view _ _ _ _ Hn) as (t0 & Ht0 & ->). unfold lookup, table_Lookup in Ht0.
    apply lookup_replicate in Ht0 as [-> _]. done.
  - intros n c Hc Hb. unfold lookup, table_Lookup in Hc. apply lookup_replicate in Hc as [-> _]. done.
Qed.

Lemma inv_vacate_signal i x l :
  count_on i l = 0 → inv x l → inv (with_machine (on_signal i vacated_signal (kn_machine (tk_kernel x))) x) l.
Proof.
  intros Hz [I1 I2 I3 I4 I5 I6]. assert (∀ s, sig_view (vacated_signal s) = vacated_signal (sig_view s)) as Hf by done.
  split; cbn [with_machine tk_kernel kn_machine set_field tk_next_timer tk_next_deadline];
    rewrite ?(signals_alter i vacated_signal _ Hf); [done|done|..|done].
  - intros j s' Hs'. rewrite table_alter in Hs'. case_decide; [subst j|by apply I3].
    destruct (_ !! i) as [s0|]; [|done]. injection Hs' as <-. cbn. lia.
  - intros t c j g b Hc Hb Hw. destruct (I4 t c j g b Hc Hb Hw) as (Hin & s & Hs & Hl & Hz0). split; [done|].
    rewrite table_alter. case_decide; [subst j|by exists s]. pose proof (count_on_elem _ _ _ Hin). lia.
  - intros j t Hj Hu. destruct (I5 j t Hj Hu) as [H1 H2]. split; [done|]. rewrite table_alter. case_decide; [|done].
    by apply fmap_is_Some.
Qed.
Lemma inv_vacate_timer i x l : inv x l → inv (with_machine (on_timer i vacated_timer (kn_machine (tk_kernel x))) x) l.
Proof.
  intros I. apply (inv_timers (alter vacated_timer i) (tk_next_timer x)); [|done]. intros j t Ht Hu.
  rewrite table_alter in Ht. case_decide; [|by apply (inv_timer_at x l j)].
  destruct (_ !! j) as [t0|]; [|done]. injection Ht as <-. done.
Qed.

Lemma wlp_flush x l : inv x l → wlp (on_kernel flush_wakes) (λ _ x', inv x' l) (λ _ x', inv x' l) x.
Proof.
  intros I. apply wlp_on_kernel. eapply wlp_mono; [apply wlp_and; [apply keeps_new_flush|apply keeps_machine_flush]|..].
  all: intros ? k' [Hn Hm]; eapply inv_beside; [apply beside_no_new; [|exact Hn]|exact I]; unfold same; by rewrite Hm.
Qed.

Lemma events_inv_step x x' : step x x' → inv (w_ticks x) (w_waiting x) → inv (w_ticks x') (w_waiting x').
Proof.
  intros S I. destruct S; cbn [w_ticks w_waiting].
  - apply inv_signal_made; [|done]. by eapply wlp_ends; [apply wlp_create_signal|].
  - apply inv_timer_made; [|done]. by eapply wlp_ends; [apply wlp_create_timer|].
  - by eapply (wlp_ends _ (λ k, inv k _)); [apply wlp_raise|].
  - by eapply (wlp_ends _ (λ k, inv k _)); [apply wlp_raise_bits|].
  - eapply (wlp_done _ _ _ _ _ _ (wlp_wait_attempt ctx rights now request _ _ I) H); done.
  - exact (wlp_done _ _ _ _ _ _ (wlp_wait_attempt ctx rights now request _ _ I) H).
  - exact (wlp_fail _ _ _ _ _ _ (wlp_wait_attempt ctx rights now request _ _ I) H).
  - by eapply (wlp_ends _ (λ k, inv k _)); [apply wlp_wait_resume|].
  - by eapply (wlp_ends _ (λ k, inv k _)); [apply wlp_arm|].
  - by eapply (wlp_ends _ (λ k, inv k _)); [apply wlp_cancel|].
  - eapply (wlp_ends (expire now) (λ k, inv k _)); [|done].
    eapply wlp_mono; [apply wp_is_wlp, wp_expire; exact I| |by intros ? ? []]. intros n k' E. apply E.
  - eapply (wlp_ends (expire_waits now) (λ k, inv k _)); [|done].
    eapply wlp_mono; [apply wp_is_wlp, wp_expire_waits; exact I| |by intros ? ? []]. intros n k' E. apply E.
  - by eapply (wlp_ends _ (λ k, inv k _)); [apply wlp_flush|].
  - by apply inv_vacate_signal.
  - by apply inv_vacate_timer.
  - by apply inv_without.
  - by eapply inv_beside.
Qed.
Lemma events_inv_reach t x : rtc step (booted t) x → inv (w_ticks x) (w_waiting x).
Proof.
  intros H. pose proof (events_inv_booted t) as I. induction H as [|x y z S _ IH]; [done|]. apply IH. by eapply events_inv_step.
Qed.

(** ** The theorems *)


(** C13. No deadline is missed. Whatever ran before, the tick looks whenever a timer is
    due or the deadline of a wait has passed; an expiry fires every due timer once,
    disarms it and raises its bits on the signal it was bound to, changes no other timer
    and leaves none due; the end of overdue waits ends exactly them, as timed out. *)
Theorem no_missed_deadline t x now :
  rtc step (booted t) x → now < U64_MAX →
  (∀ i tm, m_timers (machine_of x) !! i = Some tm → is_due now tm = true → timer_due now (w_ticks x) = true) ∧
  (∃ n x', expire now (w_ticks x) = Done n x' ∧ n = tlen (filter (is_due now) (m_timers (machine_of x))) ∧
     m_timers (kn_machine (tk_kernel x')) = expired now <$> m_timers (machine_of x) ∧ timer_due now x' = false ∧
     ∀ i tm s, m_timers (machine_of x) !! i = Some tm → is_due now tm = true →
       m_signals (machine_of x) !! tm_signal tm = Some s → live (tm_signal_generation tm) s = true →
       ∃ s', m_signals (kn_machine (tk_kernel x')) !! tm_signal tm = Some s' ∧ N.land (tm_bits tm) (sig_bits s') = tm_bits tm) ∧
  (∃ n x', expire_waits now (w_ticks x) = Done n x' ∧ kn_machine (tk_kernel x') = machine_of x ∧
     kn_threads (tk_kernel x') = past now <$> threads_of x).
Proof.
  unfold machine_of, threads_of. intros I%events_inv_reach Hnow. split; [|split].
  - intros i tm Htm Hd. unfold is_due in Hd. apply andb_prop in Hd as [[Hu Ha]%andb_prop Hle%bool_decide_eq_true].
    destruct (inv_timer_at _ _ i tm I Htm Hu) as [Hn _]. specialize (Hn Ha). apply bool_decide_eq_true_2. lia.
  - pose proof (wp_expire now _ _ I) as H. unfold wp in H. destruct (expire now (w_ticks x)) as [n x'|e x'|]; [|done|done].
    exists n, x'. destruct H as [_ Hc Ht Hn Hr]. split_and!; [done..| |].
    + unfold timer_due. apply bool_decide_eq_false_2. rewrite Hn, Ht. apply N.lt_nge, next_armed_gt; [done|].
      intros tm (tm0 & -> & _)%list_elem_of_fmap. apply is_due_expired.
    + intros i tm s Htm Hd. exact (Hr i tm Htm Hd s).
  - pose proof (wp_expire_waits now _ _ I) as H. unfold wp in H.
    destruct (expire_waits now (w_ticks x)) as [n x'|e x'|]; [|done|done]. exists n, x'. by destruct H as (_ & Hm & Ht).
Qed.
