(* ===== verification/EventsSample.v ===== *)
(** * Signals and timers at work

    A kernel with one domain, which makes a signal and a timer and waits: the theorems
    on wake-ups there, and the one way a wake-up is lost. *)

From S2P Require Import Prelude Abi AbiWire Obj Scope ScopeProofs Ctrl Frame Objects Machine AuthorityOps Thread Hoare.
From S2P Require Import Events EventsProofs.
From stdpp Require Import relations.

#[local] Open Scope N_scope.

Definition outcome {S A} (s : S) (o : out S A) : S := match o with Done _ s' => s' | Fail _ s' => s' | Panic => s end.
Definition finished {S A} (o : out S A) : bool := match o with Panic => false | _ => true end.
Lemma ends_outcome {S A} (c : K S A) s : finished (c s) = true → ends c s (outcome s (c s)).
Proof. unfold ends. destruct (c s) as [a s'|e s'|]; [left; by exists a|right; by exists e|done]. Qed.

Definition is_some {A} (o : option A) : bool := match o with Some _ => true | None => false end.

Definition event_scopes : Scopes := sample_scopes <| scopes ::= <[0 := sample_scope NO_SCOPE 0 (sample_limits 200)]> |>.
Definition event_domain : Domain := Domain.empty <| dom_state := DomainState.Runnable |> <| dom_id := 9 |>.
Definition event_ctx (thread handle deadline : N) (object : ObjRef) : Ctx :=
  mkCtx 0 thread handle 0 0 deadline 5 (mkResolved 0 object NO_GRANT 0 0).
Definition event_boot : World := booted event_scopes.
(** A domain beside the events. *)
Definition event_start : World :=
  mkWorld (with_machine ((machine_of event_boot) <| m_domains ::= <[0 := event_domain]> |>) (w_ticks event_boot)) [].

Definition scope_ctx : Ctx := event_ctx 8 0 0 (mkObjRef Obj.Scope 0 0).
Definition make_signal (x : World) : World :=
  mkWorld (with_machine (outcome (machine_of x) (create_signal scope_ctx (machine_of x))) (w_ticks x)) (w_waiting x).
Definition make_timer (request : TimerCreateRequest) (x : World) : World :=
  mkWorld (with_machine (outcome (machine_of x) (create_timer scope_ctx request (machine_of x))) (w_ticks x)) (w_waiting x).
Definition arm_timer (ctx : Ctx) (request : TimerArmRequest) (x : World) : World :=
  mkWorld (outcome (w_ticks x) (arm ctx request (w_ticks x))) (w_waiting x).
Definition wait_on (ctx : Ctx) (mask now : N) (x : World) : option World :=
  match wait_attempt ctx (object_type.SIGNAL, right.SIGNAL_WAIT) now (mkSignalBits mask) (w_ticks x) with
  | Done (inl i) k => Some (mkWorld k ((cx_thread ctx, i) :: w_waiting x))
  | _ => None
  end.

Lemma step_make_signal x : finished (create_signal scope_ctx (machine_of x)) = true → step x (make_signal x).
Proof. intros H. eapply step_create_signal, ends_outcome, H. Qed.
Lemma step_make_timer request x :
  finished (create_timer scope_ctx request (machine_of x)) = true → step x (make_timer request x).
Proof. intros H. eapply step_create_timer, ends_outcome, H. Qed.
Lemma step_arm_timer ctx request x : finished (arm ctx request (w_ticks x)) = true → step x (arm_timer ctx request x).
Proof. intros H. eapply step_arm, ends_outcome, H. Qed.
Lemma step_wait_on ctx mask now x x' :
  wait_on ctx mask now x = Some x' → cx_thread ctx < MAX_THREADS → cx_thread ctx ∉ (w_waiting x).*1 → step x x'.
Proof.
  unfold wait_on. intros H Ht Hn. destruct (wait_attempt _ _ _ _ _) as [[i|info] k|e k|] eqn:Hw; try done.
  injection H as <-. by eapply step_wait.
Qed.
Lemma step_start : step event_boot event_start.
Proof. apply step_beside. split; [done..|]. intros t c Hc Hb. left. by exists c. Qed.

(** Thread 8 waits for bits 1 and 2 of the signal, until 100; a timer raises bit 2 at 50. *)
Definition event_made : World := make_signal event_start.
Definition event_armed : World :=
  arm_timer (event_ctx 8 (handle 1 1) 0 (mkObjRef Obj.Timer 0 1)) (mkTimerArmRequest 50)
    (make_timer (mkTimerCreateRequest (handle 0 1) 4) event_made).
Definition wait_ctx (thread : N) : Ctx := event_ctx thread (handle 0 1) 100 (mkObjRef Obj.Signal 0 1).
Definition event_waiting : World := default event_armed (wait_on (wait_ctx 8) 6 5 event_armed).

Lemma event_waiting_some : wait_on (wait_ctx 8) 6 5 event_armed = Some event_waiting.
Proof.
  assert (is_some (wait_on (wait_ctx 8) 6 5 event_armed) = true) as H by by vm_compute.
  unfold event_waiting. by destruct (wait_on _ _ _ _).
Qed.
Lemma event_reached : rtc step event_boot event_waiting.
Proof.
  eapply rtc_l; [exact step_start|]. eapply rtc_l; [apply step_make_signal; by vm_compute|].
  eapply rtc_l; [apply (step_make_timer (mkTimerCreateRequest (handle 0 1) 4)); by vm_compute|].
  eapply rtc_l; [apply (step_arm_timer (event_ctx 8 (handle 1 1) 0 (mkObjRef Obj.Timer 0 1)) (mkTimerArmRequest 50)); by vm_compute|].
  eapply rtc_l; [eapply step_wait_on; [exact event_waiting_some|by vm_compute|]|apply rtc_refl].
  assert (bool_decide (cx_thread (wait_ctx 8) ∈ (w_waiting event_armed).*1) = false) as H by by vm_compute.
  by apply bool_decide_eq_false in H.
Qed.

Definition waits_at (x : World) (t i g mask : N) : bool :=
  from_option (λ c, bool_decide (th_state c = ThreadState.Blocked) && bool_decide (wt_wait (th_wait c) = Wait.Signal i g mask))
    false (threads_of x !! t).
Lemma waits_at_ok x t i g mask : waits_at x t i g mask = true →
  ∃ c, threads_of x !! t = Some c ∧ blocked c ∧ wt_wait (th_wait c) = Wait.Signal i g mask.
Proof.
  unfold waits_at. destruct (threads_of x !! t) as [c|]; [|done].
  intros [Hb%bool_decide_eq_true Hw%bool_decide_eq_true]%andb_prop. by exists c.
Qed.


Lemma no_missed_deadline_witness :
  rtc step event_boot event_waiting ∧ 120 < U64_MAX ∧
  timer_due 120 (w_ticks event_waiting) = true ∧
  (∃ x', expire 120 (w_ticks event_waiting) = Done 1 x' ∧ timer_due 120 x' = false) ∧
  ∃ n x', expire_waits 120 (w_ticks event_waiting) = Done n x' ∧
    kn_threads (tk_kernel x') = past 120 <$> threads_of event_waiting.
Proof.
  pose proof event_reached as H.
  destruct (no_missed_deadline event_scopes event_waiting 120 H) as (H1 & (n & x' & Hx & Hn & _ & Hd & _) & (n' & x2 & Hx2 & _ & Ht)).
  { by vm_compute. }
  split; [exact H|]. split; [by vm_compute|]. split; [by vm_compute|]. split.
  - exists x'. split; [|exact Hd]. assert (n = 1) as <- by (rewrite Hn; by vm_compute). exact Hx.
  - exact (ex_intro _ n' (ex_intro _ x2 (conj Hx2 Ht))).
Defined.

(** ** A slot used again *)

(** A thread outside a retired scope is still in its wait on a signal of it when the slot
    is given to another signal. When its deadline ends the wait, it takes back the count
    of a waiter of the new signal, and a raise of the new signal looks at no thread. *)
Definition vacated : World :=
  mkWorld (with_machine (on_signal 0 vacated_signal (machine_of event_waiting)) (w_ticks event_waiting)) (w_waiting event_waiting).
Definition reused : World := make_signal vacated.
Definition reused_ctx : Ctx := event_ctx 9 (handle 2 1) 0 (mkObjRef Obj.Signal 0 2).
Definition both_waiting : World := default reused (wait_on reused_ctx 4 6 reused).
Definition left_over : Ticks :=
  let x := outcome (w_ticks both_waiting) (expire_waits 120 (w_ticks both_waiting)) in
  let x := outcome x (on_kernel (wait_resume 8 0) x) in
  outcome x (on_kernel (raise_bits 0 2 4) x).
Lemma reused_slot_loses_wakeup :
  (∃ c, kn_threads (tk_kernel left_over) !! 9 = Some c ∧ blocked c ∧ wt_wait (th_wait c) = Wait.Signal 0 2 4) ∧
  ∃ s, m_signals (kn_machine (tk_kernel left_over)) !! 0 = Some s ∧ live 2 s = true ∧ sig_bits s = 4.
Proof.
  split.
  - apply (waits_at_ok (mkWorld left_over []) 9 0 2 4). by vm_compute.
  - assert (from_option (λ s, live 2 s && bool_decide (sig_bits s = 4)) false (m_signals (kn_machine (tk_kernel left_over)) !! 0) = true) as H
      by by vm_compute.
    destruct (m_signals _ !! 0) as [s|]; [|discriminate].
    apply andb_prop in H as [Hl Hb%bool_decide_eq_true]. exact (ex_intro _ s (conj eq_refl (conj Hl Hb))).
Qed.
