(* ===== verification/LogOps.v ===== *)
(** * The control log through a capability

    [kernel/src/api/logops.rs]: reading in batches, with the wait for a full one, the
    wake of a reader the log owes one, notes whose origin the kernel stamps,
    acknowledgement and reports. [api::receipt] is here with that wake. A read is an
    attempt under the machine's lock, and what follows the block, again and again. *)

From S2P Require Import Prelude Abi AbiWire Obj Scope Ctrl Frame Objects Machine Thread Events.

#[local] Open Scope N_scope.

Definition on_log (index : N) (f : ControlLog → ControlLog) (m : Machine) : Machine := m <| m_logs ::= alter f index |>.

(** kernel/src/api/logops.rs:25-25 [BATCH] *)
Definition BATCH : N := limit.RECEIPT_BATCH.

(** ** Wakes *)

(** kernel/src/api/logops.rs:106-106 [wake_reader, the waits it ends] *)
Definition waits_for_log (index generation : N) (w : WaitRecord) : bool :=
  bool_decide (wt_wait w = Wait.Log index generation).
(** The readers left to try, the lowest first. *)
(** kernel/src/api/logops.rs:100-113 [wake_reader, the loop] *)
Fixpoint wake_first (index generation : N) (waiting : list N) : K Kernel () :=
  match waiting with
  | [] => mret ()
  | thread :: waiting =>
      _ ← on_machine (at_index m_logs index);
      change (on_log index (λ l, l <| cl_readers ::= λ r, andnot r (N.shiftl 1 thread) |>));;
      ended ← defer_wake_if thread (waits_for_log index generation) status.OK 0 Any;
      if ended : bool then mret () else wake_first index generation waiting
  end.
(** kernel/src/api/logops.rs:92-114 [wake_reader] *)
Definition wake_reader (index generation : N) : K Kernel () :=
  log ← on_machine (at_index m_logs index);
  if decide (cl_count log < BATCH) then mret () else
  wake_first index generation (filter (N.testbit (cl_readers log)) (range 0 64)).

(** The receipt of [Machine.receipt], and the wake it owes. *)
(** kernel/src/api/mod.rs:1255-1286 [receipt, with the wake] *)
Definition receipt (now_ns kind origin_domain : N) (origin_scope : ScopeId)
    (object grant parent_invocation : N) (result : Z) (a b : N) (reserved : bool) : K Kernel N :=
  sequence ← on_machine (Machine.receipt now_ns kind origin_domain origin_scope object grant parent_invocation result a b reserved);
  system ← machine m_system_log;
  match system with
  | None => mret sequence
  | Some index =>
      log ← on_machine (at_index m_logs index);
      (if bool_decide (BATCH <= cl_count log) && negb (bool_decide (cl_readers log = 0))
       then wake_reader index (cl_generation log) else mret ());;
      mret sequence
  end.

(** ** Reading *)

(** What the buffer of a read holds: the records copied, over a zeroed rest. *)
Definition batch (records : list ReceiptRecord) : list ReceiptRecord :=
  records ++ replicate (N.to_nat (BATCH - tlen records)) ReceiptRecord.zeroed.
(** The log blocked on, or what was read. *)
(** kernel/src/api/logops.rs:43-78 [read, before it blocks] *)
Definition read_attempt (ctx : Ctx) (required : N * N) (now : N) (final_pass : bool) : K Ticks (N + LogReadResult) :=
  cap ← on_kernel (on_machine (resolve (cx_domain ctx) (cx_handle ctx) required.1 required.2 now));
  let index := obj_index (rs_object cap) in
  log ← on_kernel (on_machine (at_index m_logs index));
  let records := ControlLog.read BATCH log in
  let count := tlen records in
  if bool_decide (BATCH <= count) || bool_decide (cx_deadline ctx = 0) || final_pass || bool_decide (cx_deadline ctx <= now)
  then mret (inr (mkLogReadResult count (cl_lost log) (cl_next_sequence log) (batch records)))
  else
    err_if (negb (bool_decide (N.land (cx_flags ctx) flag.NONBLOCKING = 0))) status.WOULD_BLOCK;;
    prepare_wait (cx_thread ctx) (Wait.Log index (obj_generation (rs_object cap))) (cx_deadline ctx);;
    on_kernel (change (on_log index (λ l, l <| cl_readers ::= λ r, N.lor r (N.shiftl 1 (cx_thread ctx)) |>)));;
    mret (inl index).
(** What follows the block: whether the next attempt is the last. *)
(** kernel/src/api/logops.rs:80-87 [read, after it blocked] *)
Definition read_resume (thread : N) (final_pass : bool) : K Kernel bool :=
  woken ← take_wake_status thread;
  if decide (woken.1 = status.OK) then mret final_pass
  else if decide (woken.1 = status.TIMED_OUT) then mret true
  else err woken.1.

(** ** Appending and consuming *)

(** kernel/src/api/logops.rs:117-154 [append] *)
Definition append (ctx : Ctx) (now_ns : N) (request : LogAppendRequest) : K Kernel N :=
  err_if (negb (bool_decide (wla_reserved0 request = 0))) status.INVALID_ARGUMENT;;
  cell ← thread (cx_thread ctx);
  _ ← on_machine (at_index m_domains (cx_domain ctx));
  parent ← match th_bound cell with
    | None => mret 0
    | Some (index, _) => invocation ← on_machine (at_index m_invocations index); mret (inv_id invocation)
    end;
  sequence ← receipt now_ns receipt_kind.SERVICE_NOTE (cx_domain ctx) (th_effective_scope cell) (wla_kind request) 0 parent
    status.OK (wla_a request) (wla_b request) false;
  err_if (bool_decide (sequence = 0)) status.LIMIT_EXHAUSTED;;
  mret sequence.
(** kernel/src/api/logops.rs:157-164 [acknowledge] *)
Definition acknowledge (ctx : Ctx) (request : LogAckRequest) : K Machine N :=
  let index := obj_index (rs_object (cx_cap ctx)) in
  log ← at_index m_logs index;
  let '(dropped, log) := ControlLog.acknowledge (wlk_through_sequence request) log in
  modify (λ m, m <| m_logs ::= <[index := log]> |>);;
  mret dropped.
(** kernel/src/api/logops.rs:167-182 [query] *)
Definition query (ctx : Ctx) : K Machine LogInfo :=
  log ← at_index m_logs (obj_index (rs_object (cx_cap ctx)));
  mret (mkLogInfo CONTROL_LOG_CAPACITY CONTROL_LOG_RESERVED (cl_count log) (cl_lost log) (cl_next_sequence log)
          (cl_oldest_sequence log) (cl_id log)).
