(* ===== verification/ScopeOps.v ===== *)
(** * Scope operations

    [kernel/src/api/scopeops.rs], and [collect_retired] of [kernel/src/scope.rs]: the
    handlers over the tree of accounts. A barrier also touches threads and channels, so
    it is an operation of the kernel; the others are operations of the machine. *)

From S2P Require Import Prelude Abi AbiWire Obj Scope Ctrl Frame Objects Machine CapOps Thread Ipc Events.

#[local] Open Scope N_scope.

(** Runs an operation of the frame allocator, which exists from the bootstrap on. *)
(** kernel/src/state.rs:493-497 [Machine::allocator] *)
Definition allocator {A} (f : FrameAllocator → option (A * FrameAllocator)) : K Machine A :=
  memory ← gets m_memory;
  frames ← expect memory;
  result ← expect (f frames);
  modify (λ m, m <| m_memory := Some result.2 |>);;
  mret result.1.
(** The sums a loop adds up. *)
Fixpoint sum_each {S A} (l : list A) (body : A → K S (N * N)) : K S (N * N) :=
  match l with
  | [] => mret (0, 0)
  | x :: l => here ← body x; rest ← sum_each l body; mret (here.1 + rest.1, here.2 + rest.2)
  end.
Definition scope_at (i : ScopeId) : K Machine Scope.Scope := at_index (λ m, scopes (m_scopes m)) i.
Definition change_scopes (f : Scopes → Scopes) : K Machine () := modify (λ m, m <| m_scopes ::= f |>).

(** ** Ceilings *)

(** kernel/src/api/scopeops.rs:34-43 [to_limits] *)
Definition to_limits (request : ScopeLimits) : Limits :=
  mkLimits (wsl_memory_pages request) (wsl_metadata_objects request) (wsl_cpu_budget_ns request)
    (wsl_queue_bytes request) (wsl_closure_reserve_ns request) (wsl_parallelism request).
(** kernel/src/api/scopeops.rs:45-55 [from_limits] *)
Definition from_limits (l : Limits) : ScopeLimits :=
  mkScopeLimits (l_memory_pages l) (l_metadata_objects l) (l_cpu_budget_ns l) (l_queue_bytes l)
    (l_closure_reserve_ns l) (l_parallelism l) 0.
(** kernel/src/api/scopeops.rs:58-65 [fits] *)
Definition fits (child parent : Limits) : bool :=
  bool_decide (l_memory_pages child <= l_memory_pages parent) &&
  bool_decide (l_metadata_objects child <= l_metadata_objects parent) &&
  bool_decide (l_cpu_budget_ns child <= l_cpu_budget_ns parent) &&
  bool_decide (l_queue_bytes child <= l_queue_bytes parent) &&
  bool_decide (l_closure_reserve_ns child <= l_closure_reserve_ns parent) &&
  bool_decide (l_parallelism child <= l_parallelism parent).

(** ** Creation *)

(** kernel/src/scope.rs:1240-1242 [collect_retired, has_child] *)
Definition has_child (index : ScopeId) (t : Scopes) : bool :=
  existsb (λ other, negb (bool_decide (sc_state other = Scope.Empty)) && bool_decide (parent other = Some index)) (scopes t).
(** kernel/src/scope.rs:1231-1257 [collect_retired] *)
Definition collect_retired (index : ScopeId) : K Machine bool :=
  node ← scope_at index;
  if negb (bool_decide (sc_state node = Retired)) || negb (bool_decide (sc_refs node = 0)) ||
     negb (bool_decide (sc_threads node = 0)) then mret false else
  t ← gets m_scopes;
  if has_child index t then mret false else
  _ ← allocator (λ a, Some (reassign_quarantine (OwnScope index) OwnKernel a));
  change_scopes (forget_credits index);;
  (match parent node with
   | None => mret ()
   | Some above => _ ← scope_at above; change_scopes (on_scope above (λ n, n <| sc_children ::= decrement |>))
   end);;
  change_scopes (reset index);;
  mret true.
(** The first slot a retired scope gives up. *)
(** kernel/src/api/scopeops.rs:95-97 [create_child, the search for a retired slot] *)
Fixpoint collect_first (candidates : list ScopeId) : K Machine (option ScopeId) :=
  match candidates with
  | [] => mret None
  | index :: candidates =>
      ok ← collect_retired index;
      if ok : bool then mret (Some index) else collect_first candidates
  end.
(** kernel/src/api/scopeops.rs:91-98 [create_child, the slot] *)
Definition find_slot : K Machine ScopeId :=
  nodes ← gets (λ m, scopes (m_scopes m));
  match list_find (λ n, sc_state n = Scope.Empty) nodes with
  | Some (index, _) => mret (N.of_nat index)
  | None => found ← collect_first (indices nodes); ok_or status.LIMIT_EXHAUSTED found
  end.
(** What a slot is made into: reset, then filled in, then opened. *)
(** kernel/src/api/scopeops.rs:107-123 [create_child, the node] *)
Definition open_slot (index parent : ScopeId) (generation id depth : N) (label : list N) (limits : Limits) (now : N)
    (t : Scopes) : Scopes :=
  let t := reset index t in
  let t := on_scope index (λ n, n <| sc_generation := generation |> <| sc_id := id |> <| sc_parent := parent |>
    <| sc_depth := depth |> <| sc_label := label |> <| sc_limits := limits |>
    <| sc_window_index := now / CPU_WINDOW_NS |>) t in
  set_state index Open (forget_credits index t).
(** kernel/src/api/scopeops.rs:73-156 [create_child] *)
Definition create_child (ctx : Ctx) (request : ScopeCreateRequest) : K Machine N :=
  err_if (negb (bool_decide (wsl_reserved0 (wsc_limits request) = 0))) status.INVALID_ARGUMENT;;
  let above := obj_index (rs_object (cx_cap ctx)) in
  node ← scope_at above;
  err_if (negb (bool_decide (sc_state node = Open))) status.SCOPE_CLOSED;;
  depth ← expect (checked_add 16 (sc_depth node) 1);
  err_if (bool_decide (limit.MAX_SCOPE_DEPTH <= depth)) status.LIMIT_EXHAUSTED;;
  let limits := to_limits (wsc_limits request) in
  err_if (negb (fits limits (sc_limits node))) status.LIMIT_EXHAUSTED;;
  index ← find_slot;
  ok ← on_scopes (reserve above Metadata 1);
  if negb ok then err status.LIMIT_EXHAUSTED else
  id ← run next_id;
  match id with
  | None => release_metadata above;; err status.LIMIT_EXHAUSTED
  | Some id =>
      slot ← scope_at index;
      let generation := saturating_add 32 (sc_generation slot) 1 in
      change_scopes (open_slot index above generation id depth (wsc_label request) limits (cx_now ctx));;
      change_scopes (on_scope above (λ n, n <| sc_children ::= λ c, wrapping_add 32 c 1 |>));;
      let object := mkObjRef Obj.Scope index generation in
      domain ← at_index m_domains (cx_domain ctx);
      allocated ← grant_alloc (dom_owner_scope domain) NO_GRANT object (rights_mask Obj.Scope) 0 None 0;
      grant ← ok_or status.LIMIT_EXHAUSTED allocated;
      handle ← cap_install (cx_domain ctx) object grant None;
      ok_or status.LIMIT_EXHAUSTED handle
  end.

(** ** Reports and ceilings of an open scope *)

(** kernel/src/api/scopeops.rs:159-193 [query] *)
Definition query (ctx : Ctx) : K Machine (ScopeInfo * N) :=
  change_scopes (roll_window (cx_now ctx));;
  let index := obj_index (rs_object (cx_cap ctx)) in
  node ← scope_at index;
  t ← gets m_scopes;
  let pending := pending_charges t index in
  above ← (match parent node with None => mret 0 | Some above => sc_id <$> scope_at above end);
  window_used ← expect (checked_add 64 (sc_cpu_window_ns node) pending);
  total ← expect (checked_add 64 (sc_cpu_total_ns node) pending);
  mret (mkScopeInfo (from_limits (sc_limits node)) (State.abi (sc_state node)) (sc_depth node)
          (sc_parallelism_used node) (sc_threads node) (sc_id node) above (sc_memory_pages node) (sc_metadata node)
          (sc_queue_bytes node) window_used total (sc_cpu_debt_ns node) (sc_closure_used_ns node) (sc_window_index node),
        total).
(** kernel/src/api/scopeops.rs:196-232 [set_limits] *)
Definition set_limits (ctx : Ctx) (request : ScopeLimits) : K Machine N :=
  err_if (negb (bool_decide (wsl_reserved0 request = 0))) status.INVALID_ARGUMENT;;
  let index := obj_index (rs_object (cx_cap ctx)) in
  node ← scope_at index;
  err_if (negb (bool_decide (sc_state node = Open))) status.SCOPE_CLOSED;;
  let limits := to_limits request in
  (match parent node with
   | None => mret ()
   | Some above => n ← scope_at above; err_if (negb (fits limits (sc_limits n))) status.LIMIT_EXHAUSTED
   end);;
  err_if (bool_decide (l_memory_pages limits < sc_memory_pages node) ||
          bool_decide (l_metadata_objects limits < sc_metadata node) ||
          bool_decide (l_queue_bytes limits < sc_queue_bytes node)) status.STATE_CONFLICT;;
  change_scopes (on_scope index (λ n, n <| sc_limits := limits |>));;
  mret 0.

(** ** Barrier and drain *)

(** kernel/src/api/scopeops.rs:238-248 [cancel_waits, one thread] *)
Definition cancel_wait (root : ScopeId) (index : N) : K Kernel N :=
  cell ← thread index;
  t ← machine m_scopes;
  if negb (bool_decide (th_state cell = ThreadState.Blocked)) ||
     (negb (is_within t root (th_effective_scope cell)) && negb (is_within t root (th_owner_scope cell)))
  then mret 0 else
  ended ← wake_if index (λ _, true) status.CANCELLED 0;
  mret (if ended : bool then 1 else 0).
(** kernel/src/api/scopeops.rs:235-252 [cancel_waits] *)
Definition cancel_waits (root : ScopeId) : K Kernel N :=
  woken ← sum_each (range 0 MAX_THREADS) (λ index, n ← cancel_wait root index; mret (n, 0));
  mret woken.1.
(** kernel/src/scope.rs:1264-1284 [advance_quiescence, from the machine] *)
Definition advance (now : N) : K Machine () :=
  t ← gets m_scopes;
  result ← expect (advance_quiescence now t);
  change_scopes (λ _, result.2).
(** kernel/src/api/scopeops.rs:255-289 [fence] *)
Definition fence (ctx : Ctx) (receipt_ns : N) : K Kernel N :=
  let root := obj_index (rs_object (cx_cap ctx)) in
  fenced_ ← on_machine (on_scopes (Scope.fence root));
  _ ← cancel_waits root;
  withdrawn ← withdraw_undelivered root (cx_now ctx);
  change (mark_cancelled root);;
  t ← machine m_scopes;
  _ ← expect (pending t root);
  node ← on_machine (scope_at root);
  _ ← on_machine (receipt receipt_ns receipt_kind.FENCE (cx_domain ctx) root (sc_id node) 0 0 status.OK fenced_ withdrawn false);
  on_machine (advance (cx_now ctx));;
  mret fenced_.
(** kernel/src/api/scopeops.rs:291-308 [report] *)
Definition report (root : ScopeId) (now : N) : K Machine DrainReport :=
  advance now;;
  t ← gets m_scopes;
  obligations ← expect (pending t root);
  node ← scope_at root;
  mret (mkDrainReport (State.abi (sc_state node)) (p_threads obligations) (p_invocations obligations)
          (p_effects obligations) (p_maps obligations) (p_undelivered obligations) 0 0 (p_pages obligations)
          (p_metadata obligations) (sc_last_progress_ns node) (sc_drain_token node)).
(** kernel/src/api/scopeops.rs:311-317 [drain_status] *)
Definition drain_status (ctx : Ctx) : K Machine (DrainReport * N) :=
  value ← report (obj_index (rs_object (cx_cap ctx))) (cx_now ctx);
  total ← expect (checked_add 32 (rp_invocations_pending value) (rp_effects_pending value));
  mret (value, total).

(** ** Retirement *)

(** kernel/src/api/scopeops.rs:390-400 [withdraw_everywhere] *)
Definition withdraw_everywhere (object : ObjRef) : K Machine () :=
  domains ← gets m_domains;
  for_each (indices domains) (λ domain,
    d ← at_index m_domains domain;
    if decide (dom_state d = DomainState.Empty) then mret () else
    for_each (range 0 MAX_CAPS) (λ slot,
      d ← at_index m_domains domain;
      entry ← expect (slots (dom_caps d) !! slot);
      if cap_live entry && bool_decide (cap_object entry = object)
      then _ ← cap_release_slot domain slot; mret () else mret ())).
(** kernel/src/api/scopeops.rs:415-459 [release_sponsored, a memory object] *)
Definition release_memory (root : ScopeId) (index : N) : K Machine (N * N) :=
  object ← at_index m_memories index;
  t ← gets m_scopes;
  if bool_decide (mo_state object = memobj.Empty) || negb (is_within t root (mo_sponsor object)) ||
     negb (bool_decide (mo_map_count object = 0)) then mret (0, 0) else
  withdraw_everywhere (mkObjRef Obj.Memory index (mo_generation object));;
  for_each (range 0 (mo_pages object)) (λ page,
    allocator (λ a, (tt,.) <$> Frame.release (frame_containing (mo_base object + page * PAGE_SIZE))
                                (OwnScope (mo_sponsor object)) a));;
  change_scopes (Scope.release (mo_sponsor object) MemoryPages (mo_pages object));;
  change_scopes (Scope.release (mo_sponsor object) Metadata 1);;
  modify (λ m, m <| m_memories ::= <[index := MemoryObject.empty <| mo_generation := mo_generation object |>]> |>);;
  mret (mo_pages object, 1).
(** kernel/src/api/scopeops.rs:461-478 [release_sponsored, an endpoint] *)
Definition release_endpoint (root : ScopeId) (index : N) : K Machine (N * N) :=
  name ← at_index m_endpoint_ids index;
  channel ← at_index m_endpoints index;
  t ← gets m_scopes;
  if negb (ei_used name) || negb (is_within t root (ep_owner_scope channel)) then mret (0, 0) else
  withdraw_everywhere (mkObjRef Obj.Endpoint index (ei_generation name));;
  change_scopes (Scope.release (ep_owner_scope channel) Metadata 1);;
  modify (λ m, m <| m_endpoints ::= <[index := Endpoint.empty]> |>
                 <| m_endpoint_ids ::= alter (λ e, e <| ei_used := false |>) index |>);;
  mret (0, 1).
(** kernel/src/api/scopeops.rs:480-496 [release_sponsored, a signal] *)
Definition release_signal (root : ScopeId) (index : N) : K Machine (N * N) :=
  signal ← at_index m_signals index;
  t ← gets m_scopes;
  if negb (sig_used signal) || negb (is_within t root (sig_owner_scope signal)) then mret (0, 0) else
  withdraw_everywhere (mkObjRef Obj.Signal index (sig_generation signal));;
  change_scopes (Scope.release (sig_owner_scope signal) Metadata 1);;
  modify (λ m, m <| m_signals ::= <[index := Signal.empty <| sig_generation := sig_generation signal |>]> |>);;
  mret (0, 1).
(** kernel/src/api/scopeops.rs:498-514 [release_sponsored, a timer] *)
Definition release_timer (root : ScopeId) (index : N) : K Machine (N * N) :=
  timer ← at_index m_timers index;
  t ← gets m_scopes;
  if negb (tm_used timer) || negb (is_within t root (tm_owner_scope timer)) then mret (0, 0) else
  withdraw_everywhere (mkObjRef Obj.Timer index (tm_generation timer));;
  change_scopes (Scope.release (tm_owner_scope timer) Metadata 1);;
  modify (λ m, m <| m_timers ::= <[index := Timer.empty <| tm_generation := tm_generation timer |>]> |>);;
  mret (0, 1).
(** kernel/src/api/scopeops.rs:410-517 [release_sponsored] *)
Definition release_sponsored (root : ScopeId) : K Machine (N * N) :=
  memories ← sum_each (range 0 MAX_MEMORY_OBJECTS) (release_memory root);
  endpoints ← sum_each (range 0 MAX_ENDPOINTS) (release_endpoint root);
  signals ← sum_each (range 0 MAX_SIGNALS) (release_signal root);
  timers ← sum_each (range 0 MAX_TIMERS) (release_timer root);
  mret (memories.1, memories.2 + endpoints.2 + signals.2 + timers.2).
(** kernel/src/api/scopeops.rs:349-355 [retire, the states] *)
Definition retire_scopes (root : ScopeId) (t : Scopes) : Scopes :=
  foldl (λ t index, match scopes t !! index with
    | Some n => if bool_decide (sc_state n = Scope.Empty) || negb (is_within t root index) then t else set_state index Retired t
    | None => t
    end) t (indices (scopes t)).
(** The report is the response whatever the outcome. *)
(** kernel/src/api/scopeops.rs:320-380 [retire] *)
Definition retire (ctx : Ctx) (receipt_ns : N) : K Machine (DrainReport * (Z + N)) :=
  let root := obj_index (rs_object (cx_cap ctx)) in
  value ← report root (cx_now ctx);
  node ← scope_at root;
  match sc_state node with
  | Open => mret (value, inl status.STATE_CONFLICT)
  | Fenced => mret (value, inl status.DRAIN_INCOMPLETE)
  | Retired => mret (value, inr 0)
  | _ =>
      _ ← release_sponsored root;
      node ← scope_at root;
      change_scopes (retire_scopes root);;
      _ ← receipt receipt_ns receipt_kind.RETIRE (cx_domain ctx) root (sc_id node) 0 0 status.OK
            (sc_memory_pages node) (sc_metadata node) false;
      mret (value, inr (sc_memory_pages node))
  end.
(** kernel/src/api/scopeops.rs:519-531 [outstanding] *)
Definition outstanding (m : Machine) (root : ScopeId) : N :=
  tlen (filter (λ i, negb (bool_decide (inv_state i = ipc.Empty)) && negb (bool_decide (inv_state i = ipc.Resolved)) &&
                     is_within (m_scopes m) root (inv_origin_scope i)) (m_invocations m)).
