(* ===== verification/ScopeOpsProofs.v ===== *)
(** * Retirement

    What a retirement frees, what it leaves, and that no capability outlives what it
    named. The perimeter does not move while objects are freed, so the loops over the
    four tables are one argument: each turn frees the objects it looks at, exactly the
    ones the perimeter sponsors, after the last entry that names them is gone. *)

From S2P Require Import Prelude Abi AbiWire Obj Scope ScopeProofs Ctrl Frame Objects Machine AuthorityOps CapOps.
From S2P Require Import Thread Hoare Ipc IpcFrames IpcWithdraw IpcAdmit Events ScopeOps.

#[local] Open Scope N_scope.

(** ** Loops *)

(** Each turn of a loop achieves something the later turns do not undo. *)
Lemma wlp_for_all {S A} (R : S → S → Prop) `{!PreOrder R} (P : A → S → Prop) (I : S → Prop) (l : list A)
    (body : A → K S ()) s :
  (∀ x s s', R s s' → P x s → P x s') → (∀ s s', R s s' → I s → I s') → I s →
  (∀ x s, x ∈ l → I s → wlp (body x) (λ _ s', R s s' ∧ P x s') (λ _ _, False) s) →
  wlp (for_each l body) (λ _ s', R s s' ∧ ∀ x, x ∈ l → P x s') (λ _ _, False) s.
Proof.
  intros HP HI. revert s. induction l as [|x l IH]; intros s Hs Hb.
  { apply wlp_ret. split; [done|]. by intros x ?%not_elem_of_nil. }
  apply wlp_bind. eapply wlp_mono; [apply Hb; [left|done]| |done]. intros _ s1 [H1 Hx].
  eapply wlp_mono; [apply IH; [by eapply HI|intros y s2 Hy; apply Hb; by right]| |done].
  intros _ s2 [H2 Hl]. split; [by etrans|]. intros y [->|Hy]%elem_of_cons; [by eapply HP|by apply Hl].
Qed.

(** ** What a withdrawal leaves alone *)

(** The tables retirement goes through: what is in use, whose it is, and the tree. *)
Definition sponsored (m : Machine) :=
  ((λ n, (sc_state n, sc_parent n)) <$> scopes (m_scopes m),
   (λ o, (mo_state o, mo_generation o, mo_sponsor o, mo_map_count o)) <$> m_memories m,
   (λ s, (sig_used s, sig_generation s, sig_owner_scope s)) <$> m_signals m,
   (λ t, (tm_used t, tm_generation t, tm_owner_scope t)) <$> m_timers m,
   ((λ e, (ei_used e, ei_generation e)) <$> m_endpoint_ids m, ep_owner_scope <$> m_endpoints m),
   (λ d, (dom_state d, length (slots (dom_caps d)))) <$> m_domains m).

(** The entry at a slot of a domain in use. *)
Definition held (m : Machine) (d s : N) (e : CapEntry) : Prop :=
  ∃ D, m_domains m !! d = Some D ∧ dom_state D ≠ DomainState.Empty ∧ slots (dom_caps D) !! s = Some e ∧ cap_live e = true.
(** Entries go, none comes. *)
Definition shrinks (m m' : Machine) : Prop := ∀ d s e, held m' d s e → held m d s e.
#[global] Instance shrinks_preorder : PreOrder shrinks.
Proof. split; [by intros m d s e|]. intros m1 m2 m3 H1 H2 d s e H. by apply H1, H2. Qed.

Definition still : Machine → Machine → Prop := both (same sponsored) shrinks.
#[global] Instance still_preorder : PreOrder still.
Proof. unfold still. apply _. Qed.

Lemma shrinks_domains m m' : m_domains m' = m_domains m → shrinks m m'.
Proof. intros H d s e. unfold held. by rewrite H. Qed.
Lemma shrinks_alter m f d :
  (∀ D, m_domains m !! d = Some D → dom_state (f D) = dom_state D ∧
     ∀ s e, slots (dom_caps (f D)) !! s = Some e → cap_live e = true → slots (dom_caps D) !! s = Some e) →
  shrinks m (m <| m_domains ::= alter f d |>).
Proof.
  intros Hf d' s e (D' & HD & Hs & He & Hl). cbn -[alter] in HD. rewrite table_alter in HD. case_decide as Hd; [subst d'|by exists D'].
  apply fmap_Some in HD as (D & HD & ->). destruct (Hf D HD) as [H1 H2]. exists D. split_and!; [done|by rewrite <-H1|auto..].
Qed.

(** The pieces of [sponsored] one write changes are the same seen through it. *)
Ltac still_step :=
  split; [unfold same, sponsored; cbn -[alter]; repeat first [reflexivity|by apply fmap_alter_same|f_equal]
         |apply shrinks_domains; reflexivity].

Lemma still_scopes m f :
  (λ n, (sc_state n, sc_parent n)) <$> scopes (f (m_scopes m)) = (λ n, (sc_state n, sc_parent n)) <$> scopes (m_scopes m) →
  still m (m <| m_scopes ::= f |>).
Proof. intros Hf. split; [unfold same, sponsored; cbn; by rewrite Hf|by apply shrinks_domains]. Qed.
Lemma still_release s r a m : still m (m <| m_scopes ::= Scope.release s r a |>).
Proof. apply still_scopes, fmap_for_nodes. by destruct r. Qed.

Lemma keeps_still_metadata owner : keeps still (release_metadata owner).
Proof. apply keeps_modify. intros m. apply still_release. Qed.
#[export] Hint Resolve keeps_still_metadata : keeps.

Lemma keeps_still_adjust o delta : keeps still (adjust_object_refs o delta).
Proof.
  unfold adjust_object_refs. destruct (obj_kind o); keep.
  2: split; [unfold same, sponsored; cbn -[alter]; f_equal; by apply fmap_alter_same|apply shrinks_alter; by split].
  1: apply (still_scopes _ (on_scope _ _)), (fmap_alter_same (λ n, (sc_state n, sc_parent n))); reflexivity.
  all: still_step.
Qed.
Lemma keeps_still_collect_from steps g : keeps still (collect_from steps g).
Proof.
  revert g. induction steps as [|steps IH]; intros g; [apply keeps_ret, _|]. cbn [collect_from]. keep; still_step.
Qed.
Lemma keeps_still_entry domain entry : keeps still (release_entry domain entry).
Proof.
  unfold release_entry, collect_invocation. pose proof keeps_still_adjust.
  assert (∀ g, keeps still (collect_grant g)) by (intros g; apply keeps_still_collect_from).
  keep; try still_step. unfold defer_memory. case_decide; still_step.
Qed.
#[export] Hint Resolve keeps_still_entry : keeps.

(** ** Withdrawal of an object *)

Lemma still_caps m d D caps :
  m_domains m !! d = Some D → length (slots caps) = length (slots (dom_caps D)) →
  (∀ s e, slots caps !! s = Some e → cap_live e = true → slots (dom_caps D) !! s = Some e) →
  still m (m <| m_domains ::= alter (λ d, d <| dom_caps := caps |>) d |>).
Proof.
  intros HD Hlen Hs. split.
  - unfold same, sponsored. cbn -[alter]. f_equal. apply table_eq. intros j. rewrite !table_fmap, table_alter.
    case_decide; [subst j|done]. rewrite HD. cbn. by rewrite Hlen.
  - apply shrinks_alter. intros D' HD'. by replace D' with D by congruence.
Qed.

Lemma wlp_release_held d s m :
  wlp (cap_release_slot d s) (λ _ m', still m m' ∧ ∀ e, ¬ held m' d s e) (λ _ _, False) m.
Proof.
  unfold cap_release_slot, release_with. apply wlp_bind, wlp_at_index. intros D HD.
  unfold CapTable.release_slot.
  destruct (slots (dom_caps D) !! s) as [x|] eqn:Hx; [destruct (cap_live x) eqn:Hl; cbn [negb]|].
  2-3: apply wlp_ret; split; [done|]; intros e (D' & HD' & _ & He & Hle); replace D' with D in * by congruence; congruence.
  set (caps := _ : CapTable).
  assert (Hlt : s < tlen (slots (dom_caps D))) by (by eapply table_lookup_lt).
  apply wlp_bind, wlp_modify, wlp_bind. set (m1 := m <| m_domains ::= _ |>).
  assert (still m m1) as H1.
  { eapply still_caps; [done|apply length_insert|]. intros s' e. cbn -[insert]. rewrite table_insert.
    case_decide as Hd; [destruct Hd as [<- _]; by intros [= <-]|done]. }
  eapply wlp_unfailing; [apply keeps_still_entry|unfold release_entry; smooth|].
  intros _ m2 H2. apply wlp_ret. split; [by etrans|]. intros e (D2 & HD2 & _ & He & Hle)%(proj2 H2).
  subst m1. cbn -[alter] in HD2. rewrite table_alter_eq, HD in HD2. injection HD2 as <-. cbn -[insert] in He.
  rewrite table_insert_eq in He by done. by injection He as <-.
Qed.

(** Every table of a domain is of the size the withdrawal goes over. *)
Definition roomy (m : Machine) : Prop := ∀ d D, m_domains m !! d = Some D → tlen (slots (dom_caps D)) = MAX_CAPS.
Lemma roomy_still m m' : still m m' → roomy m → roomy m'.
Proof.
  intros [Hs _] Hr d D HD. pose proof (f_equal (λ v, snd v !! d) Hs) as H. cbn in H. rewrite !table_fmap, HD in H.
  symmetry in H. apply fmap_Some in H as (D0 & HD0 & [= _ Hl]). rewrite <-(Hr d D0 HD0). unfold tlen. by rewrite Hl.
Qed.

(** No entry of a domain in use names [o]. *)
Definition unnamed (o : ObjRef) (d s : N) (m : Machine) : Prop := ∀ e, held m d s e → cap_object e ≠ o.

Lemma withdraw_everywhere_clears o m :
  roomy m →
  wlp (withdraw_everywhere o) (λ _ m', still m m' ∧ ∀ d s, unnamed o d s m') (λ _ _, False) m.
Proof.
  intros Hr. unfold withdraw_everywhere. apply wlp_bind, wlp_gets.
  assert (Hst : ∀ d s m m', still m m' → unnamed o d s m → unnamed o d s m') by (intros d s ?? [_ H] Hu e He; by apply Hu, H).
  eapply wlp_mono; [apply (wlp_for_all still (λ d m, ∀ s, unnamed o d s m)
    (λ m', roomy m' ∧ tlen (m_domains m') = tlen (m_domains m)))| |done].
  - intros d m1 m2 H H1 s. by eapply Hst.
  - intros m1 m2 H [H1 H2]. split; [by eapply roomy_still|]. rewrite <-H2.
    pose proof (f_equal (λ v, length (snd v)) (proj1 H)) as Hl. cbn in Hl. rewrite !length_fmap in Hl. unfold tlen. by rewrite Hl.
  - by split.
  - intros d m1 _ [Hr1 _]. apply wlp_bind, wlp_at_index. intros D HD. case_decide as Hempty.
    { apply wlp_ret. split; [done|]. intros s e (D' & HD' & Hne & _). congruence. }
    eapply wlp_mono; [apply (wlp_for_all still (λ s m, unnamed o d s m) roomy)| |done].
    + intros s m2 m3. apply Hst.
    + apply roomy_still.
    + done.
    + intros s m2 _ Hr2. apply wlp_bind, wlp_at_index. intros D2 HD2. apply wlp_bind, wlp_expect. intros e Hs.
      destruct (cap_live e && bool_decide (cap_object e = o)) eqn:Hb.
      * apply wlp_bind. eapply wlp_mono; [apply wlp_release_held| |done]. intros _ m3 [H3 Hn]. apply wlp_ret.
        split; [done|]. intros e' He'. by destruct (Hn e').
      * apply wlp_ret. split; [done|]. intros e' (D' & HD' & _ & Hs' & Hl). replace D' with D2 in * by congruence.
        replace e' with e in * by congruence. rewrite Hl in Hb. by apply bool_decide_eq_false in Hb.
    + intros _ m2 [H2 Hs]. split; [done|]. intros s e He. destruct (decide (s < MAX_CAPS)) as [Hlt|Hge].
      * apply (Hs s); [apply range_elem; lia|done].
      * destruct He as (D2 & HD2 & _ & Hs2 & _). apply table_lookup_lt in Hs2.
        rewrite (roomy_still _ _ H2 Hr1 d D2 HD2) in Hs2. lia.
  - intros _ m1 [H1 Hd]. split; [done|]. intros d s e He.
    assert (d < tlen (m_domains m)) as Hlt.
    { apply (proj2 H1) in He as (D & HD & _). by eapply table_lookup_lt. }
    exact (Hd d (proj2 (indices_lookup _ _) Hlt) s e He).
Qed.

(** ** What is to be freed *)

(** The scopes inside the perimeter of [root], as the tree has it. *)
Definition perimeter (m : Machine) (root : ScopeId) : ScopeId → bool := is_within (m_scopes m) root.

Section freeing.
Context (W : ScopeId → bool).

(** A slot of one of the four tables: whether it is in use, its generation, and whether
    the perimeter [W] frees what it holds. *)
Definition slot_view (m : Machine) (k : ObjKind) (i : N) : option (bool * N * bool) :=
  match k with
  | Obj.Memory =>
      (λ o, let u := negb (bool_decide (mo_state o = memobj.Empty)) in
            (u, mo_generation o, u && W (mo_sponsor o) && bool_decide (mo_map_count o = 0))) <$> m_memories m !! i
  | Obj.Endpoint =>
      e ← m_endpoint_ids m !! i; c ← m_endpoints m !! i;
      Some (ei_used e, ei_generation e, ei_used e && W (ep_owner_scope c))
  | Obj.Signal => (λ s, (sig_used s, sig_generation s, sig_used s && W (sig_owner_scope s))) <$> m_signals m !! i
  | Obj.Timer => (λ t, (tm_used t, tm_generation t, tm_used t && W (tm_owner_scope t))) <$> m_timers m !! i
  | _ => None
  end.
Definition vacated (v : bool * N * bool) : bool * N * bool := let '(u, g, due) := v in if due then (false, g, false) else v.
(** The object is to be freed. *)
Definition owed (m : Machine) (o : ObjRef) : bool :=
  match slot_view m (obj_kind o) (obj_index o) with
  | Some (_, g, due) => due && bool_decide (g = obj_generation o)
  | None => false
  end.

(** The tree and the shape of the domains. *)
Definition ground (m : Machine) :=
  ((λ n, (sc_state n, sc_parent n)) <$> scopes (m_scopes m), (λ d, (dom_state d, length (slots (dom_caps d)))) <$> m_domains m).

(** The slots in [P] have been gone through: what they held that was to be freed is, no
    entry names it, and nothing else changed. *)
Record freed (P : ObjKind → N → bool) (m m' : Machine) : Prop := {
  fr_ground : ground m' = ground m;
  fr_view k i : slot_view m' k i = if P k i then vacated <$> slot_view m k i else slot_view m k i;
  fr_held : shrinks m m';
  fr_named d s e : held m' d s e → P (obj_kind (cap_object e)) (obj_index (cap_object e)) = true → owed m (cap_object e) = false
}.

Definition none (k : ObjKind) (i : N) : bool := false.
Definition one (k0 : ObjKind) (i0 : N) (k : ObjKind) (i : N) : bool := bool_decide (k = k0) && bool_decide (i = i0).
Definition either (P P' : ObjKind → N → bool) (k : ObjKind) (i : N) : bool := P k i || P' k i.

Lemma vacated_twice v : vacated (vacated v) = vacated v.
Proof. by destruct v as [[u g] []]. Qed.
Lemma freed_none m : freed none m m.
Proof. by split. Qed.
Lemma freed_trans P P' m1 m2 m3 : freed P m1 m2 → freed P' m2 m3 → freed (either P P') m1 m3.
Proof.
  intros [G1 V1 H1 N1] [G2 V2 H2 N2]. split; [congruence| |by etrans|].
  - intros k i. rewrite V2, V1. unfold either. destruct (P k i), (P' k i); cbn; try done.
    destruct (slot_view m1 k i); cbn; [by rewrite vacated_twice|done].
  - intros d s e He Hp. destruct (P (obj_kind (cap_object e)) (obj_index (cap_object e))) eqn:Hp1; [apply (N1 d s); [by apply H2|done]|].
    unfold either in Hp. rewrite Hp1 in Hp. specialize (N2 d s e He Hp). unfold owed in *. by rewrite V1, Hp1 in N2.
Qed.
Lemma freed_ext P P' m m' : (∀ k i, P k i = P' k i) → freed P m m' → freed P' m m'.
Proof. intros HP [G V H N]. split; [done|..|done|]; intros; [by rewrite <-HP|by eapply N; [|rewrite HP]]. Qed.

(** A slot that holds nothing to be freed is gone through at once. *)
Lemma freed_idle k i m : (∀ u g due, slot_view m k i = Some (u, g, due) → due = false) → freed (one k i) m m.
Proof.
  intros Hd. split; [done|..|done|].
  - intros k' i'. unfold one. case_bool_decide as Hk; [|done]. case_bool_decide as Hi; [|done]. subst. cbn.
    destruct (slot_view m k i) as [[[u g] due]|] eqn:Hv; [|done]. cbn. by rewrite (Hd u g due).
  - intros d s e _ [Hk%bool_decide_eq_true Hi%bool_decide_eq_true]%andb_prop. unfold owed. rewrite Hk, Hi.
    destruct (slot_view m k i) as [[[u g] due]|] eqn:Hv; [|done]. by rewrite (Hd u g due).
Qed.

Lemma view_sponsored m m' k i : sponsored m' = sponsored m → slot_view m' k i = slot_view m k i.
Proof.
  intros [= _ Hm Hs Ht He Ho _].
  assert (∀ {A B C} (h : A → B) (g : B → C) (l l' : list A), h <$> l' = h <$> l → (g ∘ h) <$> l' !! i = (g ∘ h) <$> l !! i) as Hh.
  { intros A B C h g l l' Hl. rewrite !option_fmap_compose, <-!table_fmap. by rewrite Hl. }
  destruct k; cbn; try done.
  - exact (Hh _ _ _ _ (λ v, let '(s, g, o, c) := v in let u := negb (bool_decide (s = memobj.Empty)) in (u, g, u && W o && bool_decide (c = 0))) _ _ Hm).
  - pose proof (f_equal (λ l, l !! i) He) as He'. cbn in He'. rewrite !table_fmap in He'.
    assert (ep_owner_scope <$> m_endpoints m' !! i = ep_owner_scope <$> m_endpoints m !! i) as Ho' by (by rewrite <-!table_fmap, Ho).
    destruct (m_endpoint_ids m !! i), (m_endpoint_ids m' !! i); try done.
    destruct (m_endpoints m !! i), (m_endpoints m' !! i); cbn in *; congruence.
  - exact (Hh _ _ _ _ (λ v, let '(u, g, o) := v in (u, g, u && W o)) _ _ Hs).
  - exact (Hh _ _ _ _ (λ v, let '(u, g, o) := v in (u, g, u && W o)) _ _ Ht).
Qed.

(** The turn of a slot: the entries go, then the slot is vacated. *)
Lemma freed_turn k i m m1 m2 u g due :
  slot_view m k i = Some (u, g, due) → still m m1 → (∀ d s, unnamed (mkObjRef k i g) d s m1) →
  m_domains m2 = m_domains m1 → ground m2 = ground m1 →
  slot_view m2 k i = Some (false, g, false) → due = true →
  (∀ k' i', one k i k' i' = false → slot_view m2 k' i' = slot_view m1 k' i') →
  freed (one k i) m m2.
Proof.
  intros Hv [Hs Hh] Hu Hd Hg Hv2 -> Ho. split.
  - rewrite Hg. unfold same, sponsored in Hs. unfold ground. by injection Hs as -> _ _ _ _ _ ->.
  - intros k' i'. destruct (one k i k' i') eqn:Hone; [|by rewrite Ho, (view_sponsored _ _ _ _ Hs)].
    apply andb_prop in Hone as [->%bool_decide_eq_true ->%bool_decide_eq_true]. by rewrite Hv2, Hv.
  - etrans; [exact Hh|by apply shrinks_domains].
  - intros d s e He [Hk%bool_decide_eq_true Hi%bool_decide_eq_true]%andb_prop. unfold owed. rewrite Hk, Hi, Hv.
    unfold held in He. rewrite Hd in He. specialize (Hu d s e He). case_bool_decide as Hgen; [|done].
    destruct Hu. destruct (cap_object e); cbn in *; congruence.
Qed.

(** ** The four loops *)

Context (root : ScopeId).
(** What the turns rely on: the perimeter has not moved. *)
Definition at_rest (m : Machine) : Prop := roomy m ∧ ∀ j, perimeter m root j = W j.
Lemma at_rest_ground m m' : ground m' = ground m → at_rest m → at_rest m'.
Proof.
  intros [= Hsc Hd] [Hr Hw]. split.
  - intros d D HD. pose proof (f_equal (λ v, v !! d) Hd) as H. cbn in H. rewrite !table_fmap, HD in H.
    symmetry in H. apply fmap_Some in H as (D0 & HD0 & [= _ Hl]). rewrite <-(Hr d D0 HD0). unfold tlen. by rewrite Hl.
  - intros j. rewrite <-Hw. apply is_within_ext. intros i. pose proof (f_equal (λ v, v !! i) Hsc) as H. cbn in H.
    rewrite !table_fmap in H. destruct (scopes (m_scopes m) !! i), (scopes (m_scopes m') !! i); try done. cbn in *.
    injection H as _ H. unfold parent. by rewrite H.
Qed.
Lemma ground_scopes m f :
  (λ n, (sc_state n, sc_parent n)) <$> scopes (f (m_scopes m)) = (λ n, (sc_state n, sc_parent n)) <$> scopes (m_scopes m) →
  ground (m <| m_scopes ::= f |>) = ground m.
Proof. intros Hf. unfold ground. cbn. by rewrite Hf. Qed.
Lemma ground_release s r a m : ground (m <| m_scopes ::= Scope.release s r a |>) = ground m.
Proof. apply ground_scopes, fmap_for_nodes. by destruct r. Qed.
Lemma ground_still m m' : still m m' → ground m' = ground m.
Proof. intros [Hs _]. unfold same, sponsored in Hs. unfold ground. by injection Hs as -> _ _ _ _ _ ->. Qed.

Definition those (k0 : ObjKind) (l : list N) (k : ObjKind) (i : N) : bool := bool_decide (k = k0) && bool_decide (i ∈ l).
Lemma freed_sum k l (body : N → K Machine (N * N)) m :
  at_rest m → (∀ i m, at_rest m → wlp (body i) (λ _ m', freed (one k i) m m') (λ _ _, False) m) →
  wlp (sum_each l body) (λ _ m', freed (those k l) m m') (λ _ _, False) m.
Proof.
  intros Hr Hb. revert m Hr. induction l as [|i l IH]; intros m Hr.
  { apply wlp_ret. eapply freed_ext; [|apply freed_none]. intros k' i'. unfold those.
    rewrite (bool_decide_eq_false_2 (i' ∈ [])) by apply not_elem_of_nil. by rewrite andb_false_r. }
  apply wlp_bind. eapply wlp_mono; [by apply Hb| |done]. intros here m1 H1. apply wlp_bind.
  eapply wlp_mono; [apply IH; eapply at_rest_ground; [apply (fr_ground _ _ _ H1)|done]| |done]. intros rest m2 H2.
  apply wlp_ret. eapply freed_ext; [|exact (freed_trans _ _ _ _ _ H1 H2)]. intros k' i'. unfold either, one, those.
  rewrite (bool_decide_ext (i' ∈ i :: l) (i' = i ∨ i' ∈ l)) by apply elem_of_cons.
  rewrite bool_decide_or. by destruct (bool_decide (k' = k)).
Qed.

Lemma still_slot k i v m m1 : slot_view m k i = Some v → still m m1 → slot_view m1 k i = Some v.
Proof. intros Hv [Hs _]. by rewrite (view_sponsored _ _ k i Hs). Qed.
Lemma one_self k i : one k i k i = true.
Proof. unfold one. by rewrite !bool_decide_eq_true_2. Qed.
(** The condition under which a turn skips its slot. *)
Lemma skip_idle k i m u g w : slot_view m k i = Some (u, g, u && w) → negb u || negb w = true → freed (one k i) m m.
Proof. intros Hv Hb. apply freed_idle. intros u' g' due. rewrite Hv. intros [= _ _ <-]. by destruct u, w. Qed.
Lemma not_skipped u w : negb u || negb w = false → u && w = true.
Proof. by destruct u, w. Qed.

Lemma turn_signal i m : at_rest m → wlp (release_signal root i) (λ _ m', freed (one Obj.Signal i) m m') (λ _ _, False) m.
Proof.
  intros [Hr Hw]. unfold release_signal. apply wlp_bind, wlp_at_index. intros x Hx. apply wlp_bind, wlp_gets.
  fold (perimeter m root (sig_owner_scope x)). rewrite Hw.
  assert (slot_view m Obj.Signal i = Some (sig_used x, sig_generation x, sig_used x && W (sig_owner_scope x))) as Hv
    by (cbn; by rewrite Hx).
  destruct (_ || _) eqn:Hb; [apply wlp_ret; by eapply skip_idle|]. apply not_skipped in Hb.
  apply wlp_bind. eapply wlp_mono; [by apply withdraw_everywhere_clears| |done]. intros _ m1 [Hs Hn].
  apply wlp_bind, wlp_modify, wlp_bind, wlp_modify, wlp_ret. pose proof (still_slot _ _ _ _ _ Hv Hs) as Hv1.
  eapply freed_turn; [exact Hv|exact Hs|exact Hn|reflexivity|apply (ground_release (sig_owner_scope x) Metadata 1 m1)| |exact Hb|].
  - apply fmap_Some in Hv1 as (y & Hy%table_lookup_lt & _). cbn -[insert]. by rewrite table_insert_eq.
  - intros k' i' Hne. destruct k'; try reflexivity. cbn -[insert]. rewrite table_insert_ne; [done|].
    intros ->. by rewrite one_self in Hne.
Qed.

Lemma turn_timer i m : at_rest m → wlp (release_timer root i) (λ _ m', freed (one Obj.Timer i) m m') (λ _ _, False) m.
Proof.
  intros [Hr Hw]. unfold release_timer. apply wlp_bind, wlp_at_index. intros x Hx. apply wlp_bind, wlp_gets.
  fold (perimeter m root (tm_owner_scope x)). rewrite Hw.
  assert (slot_view m Obj.Timer i = Some (tm_used x, tm_generation x, tm_used x && W (tm_owner_scope x))) as Hv
    by (cbn; by rewrite Hx).
  destruct (_ || _) eqn:Hb; [apply wlp_ret; by eapply skip_idle|]. apply not_skipped in Hb.
  apply wlp_bind. eapply wlp_mono; [by apply withdraw_everywhere_clears| |done]. intros _ m1 [Hs Hn].
  apply wlp_bind, wlp_modify, wlp_bind, wlp_modify, wlp_ret. pose proof (still_slot _ _ _ _ _ Hv Hs) as Hv1.
  eapply freed_turn; [exact Hv|exact Hs|exact Hn|reflexivity|apply (ground_release (tm_owner_scope x) Metadata 1 m1)| |exact Hb|].
  - apply fmap_Some in Hv1 as (y & Hy%table_lookup_lt & _). cbn -[insert]. by rewrite table_insert_eq.
  - intros k' i' Hne. destruct k'; try reflexivity. cbn -[insert]. rewrite table_insert_ne; [done|].
    intros ->. by rewrite one_self in Hne.
Qed.

Lemma turn_endpoint i m : at_rest m → wlp (release_endpoint root i) (λ _ m', freed (one Obj.Endpoint i) m m') (λ _ _, False) m.
Proof.
  intros [Hr Hw]. unfold release_endpoint. apply wlp_bind, wlp_at_index. intros e He.
  apply wlp_bind, wlp_at_index. intros x Hx. apply wlp_bind, wlp_gets.
  fold (perimeter m root (ep_owner_scope x)). rewrite Hw.
  assert (slot_view m Obj.Endpoint i = Some (ei_used e, ei_generation e, ei_used e && W (ep_owner_scope x))) as Hv
    by (cbn; by rewrite He, Hx).
  destruct (_ || _) eqn:Hb; [apply wlp_ret; by eapply skip_idle|]. apply not_skipped in Hb.
  apply wlp_bind. eapply wlp_mono; [by apply withdraw_everywhere_clears| |done]. intros _ m1 [Hs Hn].
  apply wlp_bind, wlp_modify, wlp_bind, wlp_modify, wlp_ret. pose proof (still_slot _ _ _ _ _ Hv Hs) as Hv1.
  eapply freed_turn; [exact Hv|exact Hs|exact Hn|reflexivity|apply (ground_release (ep_owner_scope x) Metadata 1 m1)| |exact Hb|].
  - cbn -[insert alter] in *. rewrite table_alter_eq.
    destruct (m_endpoint_ids m1 !! i) as [e1|]; [|done]. cbn -[insert alter] in *.
    destruct (m_endpoints m1 !! i) as [x1|] eqn:Hx1; [|done]. apply table_lookup_lt in Hx1.
    rewrite table_insert_eq by done. cbn in *. by injection Hv1 as _ -> _.
  - intros k' i' Hne. destruct k'; try reflexivity. cbn -[insert alter].
    assert (i ≠ i') as Hi by (intros ->; by rewrite one_self in Hne).
    by rewrite table_insert_ne, table_alter_ne by done.
Qed.

Lemma keeps_still_allocator {A} (f : FrameAllocator → option (A * FrameAllocator)) : keeps still (allocator f).
Proof. unfold allocator. keep. still_step. Qed.
Lemma unfailing_allocator {A} (f : FrameAllocator → option (A * FrameAllocator)) : unfailing (allocator f).
Proof. unfold allocator. smooth. Qed.

Lemma turn_memory i m : at_rest m → wlp (release_memory root i) (λ _ m', freed (one Obj.Memory i) m m') (λ _ _, False) m.
Proof.
  intros [Hr Hw]. unfold release_memory. apply wlp_bind, wlp_at_index. intros x Hx. apply wlp_bind, wlp_gets.
  fold (perimeter m root (mo_sponsor x)). rewrite Hw. set (u := bool_decide (mo_state x = memobj.Empty)).
  assert (slot_view m Obj.Memory i = Some (negb u, mo_generation x, negb u && W (mo_sponsor x) && bool_decide (mo_map_count x = 0))) as Hv
    by (cbn; by rewrite Hx).
  destruct (_ || _) eqn:Hb.
  { apply wlp_ret, freed_idle. intros u' g due. rewrite Hv. intros [= _ _ <-].
    by destruct u, (W _), (bool_decide _). }
  assert (negb u && W (mo_sponsor x) && bool_decide (mo_map_count x = 0) = true) as Hdue by (by destruct u, (W _), (bool_decide _)).
  apply wlp_bind. eapply wlp_mono; [by apply withdraw_everywhere_clears| |done]. intros _ m1 [Hs Hn].
  apply wlp_bind. apply (wlp_unfailing still).
  { apply keeps_for_each; [apply _|]. intros page. apply keeps_still_allocator. }
  { apply unfailing_for_each. intros page. apply unfailing_allocator. }
  intros _ m2 Hs2. assert (still m m2) as Hs' by (by etrans).
  assert (∀ d s, unnamed (mkObjRef Obj.Memory i (mo_generation x)) d s m2) as Hn2.
  { intros d s e He. apply (Hn d s e). by apply (proj2 Hs2). }
  apply wlp_bind, wlp_modify, wlp_bind, wlp_modify, wlp_bind, wlp_modify, wlp_ret.
  pose proof (still_slot _ _ _ _ _ Hv Hs') as Hv1.
  eapply freed_turn; [exact Hv|exact Hs'|exact Hn2|reflexivity| | |exact Hdue|].
  - etrans; [apply (ground_release (mo_sponsor x) Metadata 1)|apply (ground_release (mo_sponsor x) MemoryPages (mo_pages x))].
  - apply fmap_Some in Hv1 as (y & Hy%table_lookup_lt & _). cbn -[insert]. by rewrite table_insert_eq.
  - intros k' i' Hne. destruct k'; try reflexivity. cbn -[insert]. rewrite table_insert_ne; [done|].
    intros ->. by rewrite one_self in Hne.
Qed.

(** All four: what retirement frees is freed, whatever the kind. *)
Definition releasable (k : ObjKind) (i : N) : bool :=
  match k with
  | Obj.Memory => bool_decide (i < MAX_MEMORY_OBJECTS)
  | Obj.Endpoint => bool_decide (i < MAX_ENDPOINTS)
  | Obj.Signal => bool_decide (i < MAX_SIGNALS)
  | Obj.Timer => bool_decide (i < MAX_TIMERS)
  | _ => false
  end.
Lemma release_sponsored_frees m :
  at_rest m → wlp (release_sponsored root) (λ _ m', freed releasable m m') (λ _ _, False) m.
Proof.
  intros H0. unfold release_sponsored.
  apply wlp_bind. eapply wlp_mono; [by apply (freed_sum Obj.Memory), turn_memory| |done]. intros ? m1 F1.
  assert (at_rest m1) as H1 by (eapply at_rest_ground; [exact (fr_ground _ _ _ F1)|done]).
  apply wlp_bind. eapply wlp_mono; [by apply (freed_sum Obj.Endpoint), turn_endpoint| |done]. intros ? m2 F2.
  assert (at_rest m2) as H2 by (eapply at_rest_ground; [exact (fr_ground _ _ _ F2)|done]).
  apply wlp_bind. eapply wlp_mono; [by apply (freed_sum Obj.Signal), turn_signal| |done]. intros ? m3 F3.
  assert (at_rest m3) as H3 by (eapply at_rest_ground; [exact (fr_ground _ _ _ F3)|done]).
  apply wlp_bind. eapply wlp_mono; [by apply (freed_sum Obj.Timer), turn_timer| |done]. intros ? m4 F4.
  apply wlp_ret. eapply freed_ext;
    [|exact (freed_trans _ _ _ _ _ (freed_trans _ _ _ _ _ (freed_trans _ _ _ _ _ F1 F2) F3) F4)].
  intros k i. unfold either, those. destruct k; cbn; rewrite ?orb_false_r; try done; apply bool_decide_ext; rewrite range_elem; lia.
Qed.
End freeing.

(** ** Retirement *)

(** The kernel's tables have their sizes. *)
Record sized (m : Machine) : Prop := {
  sz_slots : roomy m;
  sz_memories : tlen (m_memories m) = MAX_MEMORY_OBJECTS;
  sz_endpoints : tlen (m_endpoint_ids m) = MAX_ENDPOINTS;
  sz_signals : tlen (m_signals m) = MAX_SIGNALS;
  sz_timers : tlen (m_timers m) = MAX_TIMERS
}.
Lemma view_releasable W m k i : sized m → is_Some (slot_view W m k i) → releasable k i = true.
Proof.
  intros [_ Hm He Hs Ht] [v Hv]. destruct k; cbn in *; try done; apply bool_decide_eq_true.
  - apply fmap_Some in Hv as (x & Hx%table_lookup_lt & _). congruence.
  - apply bind_Some in Hv as (x & Hx%table_lookup_lt & _). congruence.
  - apply fmap_Some in Hv as (x & Hx%table_lookup_lt & _). congruence.
  - apply fmap_Some in Hv as (x & Hx%table_lookup_lt & _). congruence.
Qed.

Lemma retire_scopes_spec root t :
  (∀ i, sc_parent <$> scopes (retire_scopes root t) !! i = sc_parent <$> scopes t !! i) ∧
  ∀ i, sc_state <$> scopes (retire_scopes root t) !! i =
    (λ n, if negb (bool_decide (sc_state n = Scope.Empty)) && is_within t root i then Retired else sc_state n) <$> scopes t !! i.
Proof.
  unfold retire_scopes. set (turn := λ t index, _ : Scopes).
  enough (∀ l u, (∀ i, sc_parent <$> scopes u !! i = sc_parent <$> scopes t !! i) →
    (∀ i, sc_parent <$> scopes (foldl turn u l) !! i = sc_parent <$> scopes t !! i) ∧
    ∀ i, sc_state <$> scopes (foldl turn u l) !! i = (λ n, if bool_decide (i ∈ l) && (negb (bool_decide (sc_state n = Scope.Empty)) && is_within t root i)
      then Retired else sc_state n) <$> scopes u !! i) as H.
  { destruct (H (indices (scopes t)) t) as [H1 H2]; [done|]. split; [exact H1|]. intros i. rewrite H2.
    destruct (scopes t !! i) as [n|] eqn:Hn; [|done]. cbn. rewrite bool_decide_eq_true_2; [done|].
    apply indices_lookup. by eapply table_lookup_lt. }
  induction l as [|j l IH]; intros u Hu.
  { split; [exact Hu|]. intros i. cbn. rewrite bool_decide_eq_false_2 by apply not_elem_of_nil. by destruct (scopes u !! i). }
  assert (∀ i, is_within u root i = is_within t root i) as Hw.
  { intros i. apply is_within_ext. intros k. specialize (Hu k).
    destruct (scopes u !! k), (scopes t !! k); cbn in *; try done. unfold parent. by injection Hu as ->. }
  assert (∀ i, scopes (turn u j) !! i = (λ n, if bool_decide (i = j) && (negb (bool_decide (sc_state n = Scope.Empty)) && is_within t root i)
      then n <| sc_state := Retired |> else n) <$> scopes u !! i) as Ht.
  { intros i. subst turn. cbn beta. destruct (scopes u !! j) as [n|] eqn:Hn.
    - rewrite Hw. destruct (bool_decide (sc_state n = Scope.Empty) || negb (is_within t root j)) eqn:Hb.
      + destruct (bool_decide_reflect (i = j)) as [Hi|Hi]; [subst i; rewrite Hn; cbn|by destruct (scopes u !! i)].
        by destruct (bool_decide _), (is_within t root j).
      + rewrite set_state_scopes, table_alter. destruct (decide (j = i)) as [<-|Hi].
        * rewrite Hn, bool_decide_eq_true_2 by done. cbn. by destruct (bool_decide _), (is_within t root j).
        * rewrite bool_decide_eq_false_2 by congruence. by destruct (scopes u !! i).
    - destruct (bool_decide_reflect (i = j)) as [Hi|Hi]; [subst i; by rewrite Hn|by destruct (scopes u !! i)]. }
  destruct (IH (turn u j)) as [H1 H2].
  { intros i. rewrite <-Hu, Ht. destruct (scopes u !! i); [|done]. cbn. by case_match. }
  split; [exact H1|]. intros i. cbn [foldl]. rewrite H2, Ht. destruct (scopes u !! i) as [n|]; [|done]. cbn.
  rewrite (bool_decide_ext (i ∈ j :: l) (i = j ∨ i ∈ l)) by apply elem_of_cons. rewrite bool_decide_or.
  destruct (bool_decide (i = j)), (bool_decide (i ∈ l)), (bool_decide (sc_state n = Scope.Empty)) eqn:Hs, (is_within t root i);
    cbn; rewrite ?Hs; done.
Qed.

Lemma perimeter_parents m m' root i :
  (∀ j, sc_parent <$> scopes (m_scopes m') !! j = sc_parent <$> scopes (m_scopes m) !! j) → perimeter m' root i = perimeter m root i.
Proof.
  intros H. apply is_within_ext. intros j. specialize (H j).
  destruct (scopes (m_scopes m) !! j), (scopes (m_scopes m') !! j); cbn in *; try done. unfold parent. by injection H as ->.
Qed.

(** A report only settles quiescence. *)
Lemma report_advances root now m :
  wlp (report root now)
    (λ _ m1, ∃ c t, advance_quiescence now (m_scopes m) = Some (c, t) ∧ m1 = m <| m_scopes := t |> ∧
       ∀ j, sc_parent <$> scopes t !! j = sc_parent <$> scopes (m_scopes m) !! j) (λ _ _, False) m.
Proof.
  unfold report, advance. apply wlp_bind, wlp_bind, wlp_gets, wlp_bind, wlp_expect. intros [c t] Ha. apply wlp_modify.
  apply wlp_bind, wlp_gets, wlp_bind, wlp_expect. intros ? _. apply wlp_bind, wlp_at_index. intros n _. apply wlp_ret.
  exists c, t. split_and!; [done|reflexivity|]. intros j. unfold advance_quiescence in Ha.
  apply quiesce_from_le in Ha as [Hlen Hle]. destruct (scopes (m_scopes m) !! j) as [n0|] eqn:Hj.
  - destruct (Hle j n0 Hj) as (n' & -> & Hn). cbn. by rewrite (le_parent Hn).
  - destruct (scopes t !! j) as [n1|] eqn:Hn; [|done]. apply table_lookup_lt in Hn. rewrite Hlen in Hn.
    apply table_lookup_is_Some in Hn as [??]. congruence.
Qed.
Lemma keeps_still_receipt now kind domain scope object grant parent result a b reserved :
  keeps still (receipt now kind domain scope object grant parent result a b reserved).
Proof. unfold receipt. keep. still_step. Qed.

(** What is left after a retirement that was granted. *)
Definition retired_all (root : ScopeId) (m m' : Machine) : Prop :=
  let inside := perimeter m root in
  (∀ k i, slot_view inside m' k i = vacated <$> slot_view inside m k i) ∧
  (∀ d s e, held m' d s e → held m d s e ∧ owed inside m (cap_object e) = false) ∧
  (∀ i x, scopes (m_scopes m') !! i = Some x → inside i = true → sc_state x = Retired ∨ sc_state x = Scope.Empty).

Lemma retired_all_frees root m m1 m2 m3 t :
  sized m → m1 = m <| m_scopes := t |> → (∀ j, sc_parent <$> scopes t !! j = sc_parent <$> scopes (m_scopes m) !! j) →
  freed (perimeter m root) releasable m1 m2 → still (m2 <| m_scopes ::= retire_scopes root |>) m3 → retired_all root m m3.
Proof.
  intros Hsz -> Ht [G V H N] Hs. unfold retired_all. cbv zeta. set (W := perimeter m root) in *.
  assert (∀ k i, slot_view W m3 k i = slot_view W m2 k i) as V3.
  { intros k i. rewrite (view_sponsored W _ m3 k i (proj1 Hs)). by destruct k. }
  assert (∀ k i, slot_view W (m <| m_scopes := t |>) k i = slot_view W m k i) as V0 by (intros [] i; done).
  assert (∀ d s e, held m3 d s e → held m2 d s e) as Hh.
  { intros d s e He. exact (proj2 Hs d s e He). }
  split_and!.
  - intros k i. rewrite V3, V, V0. destruct (releasable k i) eqn:Hr; [done|].
    destruct (slot_view W m k i) eqn:Hv; [|done].
    pose proof (view_releasable W m k i Hsz (mk_is_Some _ _ Hv)). congruence.
  - intros d s e He. split; [exact (H d s e (Hh d s e He))|].
    destruct (owed W m (cap_object e)) eqn:Ho; [|done].
    assert (releasable (obj_kind (cap_object e)) (obj_index (cap_object e)) = true) as Hrel.
    { unfold owed in Ho. destruct (slot_view W m _ _) eqn:Hv in Ho; [|done]. exact (view_releasable W m _ _ Hsz (mk_is_Some _ _ Hv)). }
    pose proof (N d s e (Hh d s e He) Hrel) as Hn. unfold owed in *. rewrite V0 in Hn. congruence.
  - intros i x Hx Hi. pose proof (retire_scopes_spec root (m_scopes m2)) as [_ Hst].
    assert (sc_state <$> scopes (m_scopes m3) !! i = sc_state <$> scopes (retire_scopes root (m_scopes m2)) !! i) as H3.
    { destruct Hs as [Hs _]. unfold same, sponsored in Hs. injection Hs as Hs _ _ _ _ _ _.
      apply (f_equal (λ l, fst <$> l !! i)) in Hs. rewrite !table_fmap, <-!option_fmap_compose in Hs. exact Hs. }
    rewrite Hst, Hx in H3. destruct (scopes (m_scopes m2) !! i) as [n|] eqn:Hn; [|done]. cbn in H3. injection H3 as ->.
    assert (is_within (m_scopes m2) root i = true) as ->.
    { rewrite <-Hi. apply perimeter_parents. intros j. rewrite <-Ht. injection G as G _.
      apply (f_equal (λ l, snd <$> l !! j)) in G. rewrite !table_fmap, <-!option_fmap_compose in G. exact G. }
    destruct (bool_decide_reflect (sc_state n = Scope.Empty)); cbn; auto.
Qed.

Lemma retire_cases ctx now m :
  sized m →
  let root := obj_index (rs_object (cx_cap ctx)) in
  wlp (retire ctx now) (λ va m', ∃ c t n, advance_quiescence (cx_now ctx) (m_scopes m) = Some (c, t) ∧
    scopes t !! root = Some n ∧
    match va.2 with
    | inl code => m' = m <| m_scopes := t |> ∧
        (code = status.STATE_CONFLICT ∧ sc_state n = Open ∨ code = status.DRAIN_INCOMPLETE ∧ sc_state n = Fenced)
    | inr pages => sc_state n = Retired ∧ m' = m <| m_scopes := t |> ∨ retired_all root m m'
    end) (λ _ _, False) m.
Proof.
  intros Hsz root. unfold retire. fold root.
  apply wlp_bind. eapply wlp_mono; [apply report_advances| |done]. intros v m1 (c & t & Ha & Hm1 & Hp).
  apply wlp_bind, wlp_at_index. intros n Hn. rewrite Hm1 in Hn. cbn in Hn.
  assert (at_rest (perimeter m root) root m1) as Hrest.
  { subst m1. split; [exact (sz_slots _ Hsz)|]. intros j. by apply perimeter_parents. }
  assert (wlp (_ ← release_sponsored root; node ← scope_at root; change_scopes (retire_scopes root);;
      _ ← receipt now receipt_kind.RETIRE (cx_domain ctx) root (sc_id node) 0 0 status.OK
            (sc_memory_pages node) (sc_metadata node) false;
      mret (v, inr (sc_memory_pages node)))
    (λ (va : DrainReport * (Z + N)) m', (∃ pages, va.2 = inr pages) ∧ retired_all root m m') (λ _ _, False) m1) as Hall.
  { apply wlp_bind. eapply wlp_mono; [by apply release_sponsored_frees| |done]. intros released m2 F.
    apply wlp_bind, wlp_at_index. intros n2 _. apply wlp_bind, wlp_modify, wlp_bind.
    apply (wlp_unfailing still); [apply keeps_still_receipt|apply unfailing_receipt|]. intros _ m3 Hs. apply wlp_ret.
    split; [by eexists|]. exact (retired_all_frees root m m1 m2 m3 t Hsz Hm1 Hp F Hs). }
  destruct (sc_state n) eqn:Hst.
  2: apply wlp_ret; exists c, t, n; split_and!; [done..|]; cbn; auto.
  2: apply wlp_ret; exists c, t, n; split_and!; [done..|]; cbn; auto.
  3: apply wlp_ret; exists c, t, n; split_and!; [done..|]; cbn; auto.
  all: eapply wlp_mono; [exact Hall| |done]; intros [v' a] m' [[pages Hpg] H]; cbn in Hpg; subst a;
    exists c, t, n; split_and!; [done..|by right].
Qed.

