(* ===== verification/ScopeOpsSample.v ===== *)
(** * A scope slot used again

    A full table of scopes in which one child is fenced, retired and collected for
    another: what the reuse of its slot leaves behind. *)

From S2P Require Import Prelude Abi AbiWire Obj Scope ScopeProofs Ctrl Frame FrameProofs Objects Machine CapOps.
From S2P Require Import Thread Ipc Events ScopeOps ScopeOpsProofs.

#[local] Open Scope N_scope.

Definition settled_in {S A} (s : S) (o : out S A) : S := match o with Done _ s' => s' | Fail _ s' => s' | Panic => s end.
Definition answer {S A} (o : out S A) : option (Z + A) :=
  match o with Done a _ => Some (inr a) | Fail e _ => Some (inl e) | Panic => None end.

(** A root, 22 children of it, and a free slot. *)
Definition crowded_scopes : Scopes :=
  sample_scopes <| scopes := [sample_scope NO_SCOPE 0 (sample_limits 10)] ++
                             replicate 22 (sample_scope 0 1 (sample_limits 3)) ++ [Scope.empty] |>.
Definition outside : Domain := Domain.empty <| dom_state := DomainState.Runnable |> <| dom_id := 1 |>.
Definition inside : Domain := outside <| dom_id := 2 |> <| dom_owner_scope := 23 |>.
Definition crowded : Machine :=
  (Machine.new crowded_scopes) <| m_domains ::= λ l, <[0 := outside]> (<[1 := inside]> l) |>
    <| m_memory := Some sample_pool |>
    <| m_memories ::= alter (λ o, o <| mo_state := memobj.Mutable |> <| mo_generation := 1 |>) 0 |>.
Definition page : ObjRef := mkObjRef Obj.Memory 0 1.
Definition ctx_of (domain : N) (object : ObjRef) (grant : N) : Ctx :=
  mkCtx domain 8 0 0 0 0 5 (mkResolved 0 object grant (rights_mask (obj_kind object)) 0).
Definition child_request : ScopeCreateRequest :=
  mkScopeCreateRequest (mkScopeLimits 10 50 4000000 3 1000000 4 0) (replicate 16 0).

(** The supervisor makes the last scope. *)
Definition made : Machine := settled_in crowded (create_child (ctx_of 0 (mkObjRef Obj.Scope 0 0) 0) child_request crowded).
(** A domain of it, given a page of the root's, derives from it and passes a copy out. *)
Definition given : Machine :=
  let m := settled_in made (grant_alloc 0 NO_GRANT page (rights_mask Obj.Memory) 0 None 0 made) in
  settled_in m (cap_install 1 page 1 None m).
Definition derived : Machine :=
  settled_in given (CapOps.derive (ctx_of 1 page 1) (mkDeriveRequest right.MEMORY_READ 0 0 0) given).
Definition passed : Machine := settled_in derived (cap_install 0 page 2 None derived).
Definition passed_handle : N := handle 1 1.
Definition uses (m : Machine) : option (Z + N) :=
  match resolve 0 passed_handle object_type.MEMORY right.MEMORY_READ 6 m with
  | Done cap _ => Some (inr (rs_rights cap))
  | Fail e _ => Some (inl e)
  | Panic => None
  end.

(** The scope is fenced, its domain stops, it is retired, and its handle closed. *)
Definition closed : Machine :=
  let k := mkKernel passed (replicate (N.to_nat MAX_THREADS) ThreadCell.empty) [] in
  kn_machine (settled_in k (ScopeOps.fence (ctx_of 0 (mkObjRef Obj.Scope 23 1) 0) 7 k)).
Definition left : Machine :=
  foldl (λ m slot, settled_in m (cap_release_slot 1 slot m)) closed (range 0 4).
Definition retired_ : Machine :=
  let m := settled_in left (retire (ctx_of 0 (mkObjRef Obj.Scope 23 1) 0) 8 left) in
  settled_in m (cap_release_slot 0 0 m).
Definition replaced : Machine :=
  settled_in retired_ (create_child (ctx_of 0 (mkObjRef Obj.Scope 0 0) 0) child_request retired_).

(** A fence does not outlast the slot of the scope it closed. The copy the closed
    scope's domain passed out works, is refused from the fence on, through retirement,
    and works again once the slot is given to another scope: a grant names the scope
    that pays for it by its slot, without a generation. *)
Lemma reused_scope_reopens_lineage :
  uses passed = Some (inr right.MEMORY_READ) ∧ uses closed = Some (inl status.SCOPE_CLOSED) ∧
  uses retired_ = Some (inl status.SCOPE_CLOSED) ∧ uses replaced = Some (inr right.MEMORY_READ).
Proof. by vm_compute. Qed.

(** The metadata object a child scope is charged for is never given back: made, fenced,
    retired, its handle closed and its slot collected, the parent still holds the charge
    with no capability left. *)
Definition emptied : Machine :=
  let k := mkKernel made (replicate (N.to_nat MAX_THREADS) ThreadCell.empty) [] in
  let m := kn_machine (settled_in k (ScopeOps.fence (ctx_of 0 (mkObjRef Obj.Scope 23 1) 0) 7 k)) in
  let m := settled_in m (retire (ctx_of 0 (mkObjRef Obj.Scope 23 1) 0) 8 m) in
  settled_in m (cap_release_slot 0 0 m).
Lemma child_charge_is_kept :
  (sc_metadata <$> scopes (m_scopes crowded) !! 0) = Some 0 ∧
  answer (collect_retired 23 emptied) = Some (inr true) ∧
  let m := settled_in emptied (collect_retired 23 emptied) in
  (sc_metadata <$> scopes (m_scopes m) !! 0) = Some 1 ∧
  forallb (λ g, negb (g_used g)) (m_grants m) = true ∧
  forallb (λ d, forallb (λ e, negb (cap_live e)) (slots (dom_caps d))) (m_domains m) = true.
Proof. by vm_compute. Qed.

(** A scope to retire: drained, with a signal of its own that the supervisor holds. *)
Definition its_signal : ObjRef := mkObjRef Obj.Signal 0 1.
Definition drained_ : Machine :=
  let m := left <| m_signals ::= <[0 := Signal.empty <| sig_used := true |> <| sig_generation := 1 |> <| sig_owner_scope := 23 |>]> |> in
  let m := settled_in m (grant_alloc 0 NO_GRANT its_signal (rights_mask Obj.Signal) 0 None 0 m) in
  settled_in m (cap_install 0 its_signal 3 None m).
Definition closing : Ctx := ctx_of 0 (mkObjRef Obj.Scope 23 1) 0.
Definition names_it (m : Machine) : bool :=
  existsb (λ d, existsb (λ e, cap_live e && bool_decide (cap_object e = its_signal)) (slots (dom_caps d))) (m_domains m).
Definition is_sized (m : Machine) : bool :=
  forallb (λ d, bool_decide (tlen (slots (dom_caps d)) = MAX_CAPS)) (m_domains m) &&
  bool_decide (tlen (m_memories m) = MAX_MEMORY_OBJECTS) && bool_decide (tlen (m_endpoint_ids m) = MAX_ENDPOINTS) &&
  bool_decide (tlen (m_signals m) = MAX_SIGNALS) && bool_decide (tlen (m_timers m) = MAX_TIMERS).
Lemma sized_computed m : is_sized m = true → sized m.
Proof.
  unfold is_sized. rewrite !andb_true_iff, !bool_decide_eq_true, forallb_forall. intros ((((H1 & H2) & H3) & H4) & H5).
  split; [|done..]. intros d D HD. apply (bool_decide_eq_true (_ = _)), H1, list_elem_of_In. by eapply list_elem_of_lookup_2.
Qed.
