(* ===== verification/FrameHeld.v ===== *)
(** * Frames that are held

    What the operations of the pool do to the frames somebody holds, for clients that
    know only that an operation returned. *)

From S2P Require Import Prelude Scope Frame FrameProofs.

#[local] Open Scope N_scope.

Lemma held_hint a h f : FrameProofs.held a f → FrameProofs.held (a <| fa_hint := h |>) f.
Proof. by destruct a. Qed.

(** ** Giving a frame up *)

Lemma held_release frame owner a a' :
  pool_wf a → FrameProofs.held a frame → owner_slot owner < OWNER_SLOTS → Frame.release frame owner a = Some a' →
  pool_wf a' ∧ fa_frames a' = fa_frames a ∧
  ∀ f, frame_index f ≠ frame_index frame → FrameProofs.held a f → FrameProofs.held a' f.
Proof.
  intros Hwf (Hi & Ht & Hq) Ho Hr.
  destruct (release_taken frame owner a Hwf Ho Hi Ht) as (a1 & Hr1 & Hf). rewrite Hr in Hr1. injection Hr1 as ->.
  split; [by eapply freed_wf|]. split; [apply (freed_frames _ _ _ Hf)|]. intros f Hne (Hfi & Hft & Hfq).
  split_and!; [by rewrite (freed_frames _ _ _ Hf)| |].
  - rewrite (freed_taken _ _ _ Hf), Hft, bool_decide_eq_false_2; [done|congruence].
  - unfold in_quarantine in *. by rewrite (freed_quarantine _ _ _ Hf).
Qed.

Lemma held_retire frame owner generation a :
  pool_wf a → FrameProofs.held a frame → owner_slot owner < OWNER_SLOTS →
  let a' := retire_at frame owner generation a in
  pool_wf a' ∧ fa_frames a' = fa_frames a ∧
  ∀ f, frame_index f ≠ frame_index frame → FrameProofs.held a f → FrameProofs.held a' f.
Proof.
  intros Hwf Hh Ho a'. destruct (retire_at_spec frame owner generation a Hwf Ho Hh) as [Hwf' _].
  assert (fa_frames a' = fa_frames a ∧ fa_bitmap a' = fa_bitmap a ∧
    ∀ s q, fa_quarantine a' !! s = Some q → fa_quarantine a !! s = Some q ∨ q_frame q = frame) as (Hfr & Hbm & Hqs).
  { unfold a', retire_at. destruct (retire_slot _ 0) as [i|]; cbn -[insert].
    - case_decide; cbn -[insert]; (split; [done|]; split; [done|]); intros s q; rewrite table_insert; (case_decide; [intros [= <-]; by right|by left]).
    - split; [done|]. split; [done|]. by left. }
  split; [done|]. split; [done|]. intros f Hne (Hfi & Hft & Hfq). split_and!; [by rewrite Hfr| |].
  - unfold taken in *. by rewrite Hbm.
  - intros (s & q & Hs & Hu & Hf). destruct (Hqs s q Hs) as [Hq|Hq]; [apply Hfq; by exists s, q|]. by rewrite Hq in Hf.
Qed.

(** ** Taking a run *)

Lemma take_frames_charge owner count : ∀ i a a',
  (0 < count)%nat → take_frames count i owner a = Some a' → chargeable owner (N.of_nat count) a.
Proof.
  induction count as [|count IH]; intros i a a' Hc; [lia|]. cbn [take_frames]. intros H.
  apply bind_Some in H as (a1 & H1 & H2). unfold take_frame in H1.
  apply bind_Some in H1 as (free & _ & H1). apply bind_Some in H1 as (c & Hch & H1).
  apply bind_Some in H1 as (c1 & Hc1 & H1). unfold checked_add in Hc1. case_decide as Hlt; [|done]. injection Hc1 as <-.
  exists c. split; [done|]. destruct count as [|count]; [lia|].
  destruct (IH (i + 1) a1 a' ltac:(lia) H2) as (c' & Hc' & Hlt'). injection H1 as <-. unfold charged in Hc'. cbn -[insert] in Hc'.
  rewrite table_insert_eq in Hc' by (by eapply table_lookup_lt). injection Hc' as <-. lia.
Qed.

Lemma held_run count i a a' f :
  (∀ j, taken a' j = true ↔ within i count j ∨ taken a j = true) → fa_quarantine a' = fa_quarantine a →
  fa_frames a' = fa_frames a → FrameProofs.held a f → FrameProofs.held a' f.
Proof.
  intros Ht Hq Hfr (H1 & H2 & H3). split_and!; [by rewrite Hfr|apply Ht; by right|]. unfold in_quarantine in *. by rewrite Hq.
Qed.

(** A run that was taken: nobody held its frames, and now they are held. *)
Definition took_run (owner : Owner) (a a' : FrameAllocator) (frame count : N) : Prop :=
  owner_slot owner < OWNER_SLOTS ∧ ∃ i, frame = i * PAGE_SIZE ∧ i + count <= fa_frames a ∧
    ∀ j, i <= j < i + count → ¬ FrameProofs.held a (j * PAGE_SIZE) ∧ FrameProofs.held a' (j * PAGE_SIZE).

Lemma take_run_held from to count owner a found a' :
  pool_wf a → 0 < count → from <= fa_frames a → to <= fa_frames a → fa_frames a + count < 2 ^ 64 →
  take_run from to count owner a = Some (found, a') →
  pool_wf a' ∧ fa_frames a' = fa_frames a ∧ (∀ f, FrameProofs.held a f → FrameProofs.held a' f) ∧
  match found with Some frame => took_run owner a a' frame count | None => a' = a end.
Proof.
  intros Hwf Hpos Hfrom Hto Hbig H. pose proof H as H0. unfold take_run in H.
  pose proof (run_from_spec a to count Hwf Hto Hbig (N.to_nat to + 1) from Hfrom ltac:(lia) ltac:(lia)) as Hrun.
  destruct (run_from _ _ _ _ _) as [[i|]|]; cbn [mbind option_bind] in H; [| |done].
  2:{ injection H as <- <-. by split_and!. }
  destruct Hrun as (Hi & Hend & Hfree). apply bind_Some in H as (a1 & H1 & H). injection H as <- <-.
  apply take_frames_charge in H1 as Hch; [|lia]. rewrite N2Nat.id in Hch.
  destruct (take_frames_spec (N.to_nat count) owner i a Hwf) as (a2 & H2 & Hwf2 & T); rewrite ?N2Nat.id; [done|lia|done|].
  rewrite H1 in H2. injection H2 as <-. rewrite N2Nat.id in T. pose proof (took_frames _ _ _ _ T) as Hfr.
  assert (∀ f, FrameProofs.held a f → FrameProofs.held a1 f) as Hheld.
  { intros f. apply (held_run count i); [apply T|apply T|done]. }
  split_and!; [apply hint_wf, hint_after_lt; [done|lia]|done|by intros f Hf; apply held_hint, Hheld|].
  split.
  { destruct Hch as (c & Hc & _). rewrite <-(pool_charged a Hwf). by eapply table_lookup_lt. }
  exists i. rewrite frame_containing_mul. split; [done|]. split; [lia|]. intros j Hj. split.
  - intros (_ & Ht & _). rewrite frame_index_mul in Ht. specialize (Hfree (j - i) ltac:(lia)).
    replace (i + (j - i)) with j in Hfree by lia. congruence.
  - apply held_hint. split_and!; rewrite ?frame_index_mul; [lia|apply T; by left|].
    intros (s & q & Hs & Hu & Hf). rewrite (took_quarantine _ _ _ _ T) in Hs.
    destruct (pool_quarantine a Hwf s q Hs Hu) as (_ & Ht & _). rewrite Hf in Ht.
    specialize (Hfree (j - i) ltac:(lia)). replace (i + (j - i)) with j in Hfree by lia. congruence.
Qed.

Lemma held_drain safe a d f : drained_pool safe a d → FrameProofs.held a f → FrameProofs.held d f.
Proof.
  intros (_ & Hfr & Hq & _ & Ht) (Hi & Htk & Hn).
  assert (∀ q, q ∈ fa_quarantine a → q_used q = true → frame_index (q_frame q) ≠ frame_index f) as Hne.
  { intros q [s Hs]%list_elem_of_lookup_1 Hu Heq. apply Hn. exists (N.of_nat s), q. by rewrite table_lookup_nat. }
  split_and!; [by rewrite Hfr| |].
  - apply Ht. split; [done|]. intros q Hin Hx. apply Hne; [done|].
    unfold expired in Hx. by apply andb_prop in Hx as [? _].
  - intros (s & q & Hs & Hu & Heq). rewrite Hq, table_fmap in Hs. apply fmap_Some in Hs as (q0 & Hs & ->).
    unfold expire in Hu, Heq. destruct (expired safe q0); [done|].
    apply (Hne q0); [by eapply list_elem_of_lookup_2|done..].
Qed.

Lemma held_alloc_contiguous safe count owner a found a' :
  pool_wf a → fa_frames a + count < 2 ^ 64 → alloc_contiguous safe count owner a = Some (found, a') →
  pool_wf a' ∧ fa_frames a' = fa_frames a ∧ (∀ f, FrameProofs.held a f → FrameProofs.held a' f) ∧
  ∀ frame, found = Some frame → took_run owner a a' frame count.
Proof.
  intros Hwf Hbig H. unfold alloc_contiguous in H. case_decide as Hz; [injection H as <- <-; by split_and!|].
  destruct (drain_spec safe a Hwf) as (n & d & Hdr & _ & Hd). rewrite Hdr in H. cbn [mbind option_bind] in H.
  pose proof Hd as (Hwfd & Hfrd & _). pose proof (λ f, held_drain safe a d f Hd) as Hhd.
  set (start := N.min (fa_hint d) (fa_frames d)) in H. apply bind_Some in H as ([f1 a1] & H1 & H).
  apply take_run_held in H1 as (Hwf1 & Hfr1 & Hh1 & Hf1); [|done|lia|lia|lia|by rewrite Hfrd].
  assert (∀ frame b b', pool_wf b' → fa_frames b' = fa_frames b → (∀ f, FrameProofs.held a f → FrameProofs.held b f) → fa_frames b = fa_frames a →
    (∀ f, FrameProofs.held b f → FrameProofs.held b' f) → took_run owner b b' frame count →
    took_run owner a b' frame count) as Hrun.
  { intros frame b b' _ _ Hb Hfb _ (Ho & i & -> & Hi & Hj). split; [done|]. exists i. split; [done|]. split; [lia|].
    intros j Hlt. destruct (Hj j Hlt) as [Hn Hy]. split; [auto|done]. }
  destruct f1 as [frame|].
  - injection H as <- <-. split_and!; [done|congruence|auto|]. intros x [= <-]. by eapply Hrun.
  - subst a1. apply take_run_held in H as (Hwf2 & Hfr2 & Hh2 & Hf2); [|done|lia|lia|lia|by rewrite Hfrd].
    split_and!; [done|congruence|auto|]. intros x ->. by eapply Hrun.
Qed.

(** ** Taking one *)

(** No frame of the pool is free. *)
Definition exhausted (a : FrameAllocator) : Prop := ∀ i, i < fa_frames a → taken a i = true.
Lemma held_alloc safe owner a found a' :
  pool_wf a → alloc safe owner a = Some (found, a') →
  pool_wf a' ∧ fa_frames a' = fa_frames a ∧ (∀ f, FrameProofs.held a f → FrameProofs.held a' f) ∧
  match found with
  | Some frame => ∃ i, frame = i * PAGE_SIZE ∧ i < fa_frames a ∧ ¬ FrameProofs.held a frame ∧ FrameProofs.held a' frame
  | None => exhausted a'
  end.
Proof.
  intros Hwf H. unfold alloc in H.
  assert (∃ d, (if decide (fa_free a = 0) then snd <$> drain_quarantine safe a else Some a) = Some d ∧ pool_wf d ∧
    fa_frames d = fa_frames a ∧ ∀ f, FrameProofs.held a f → FrameProofs.held d f) as (d & Hd & Hwfd & Hfr & Hh).
  { case_decide; [|by exists a]. destruct (drain_spec safe a Hwf) as (m & d & -> & _ & Hd). exists d.
    pose proof Hd as (? & ? & _). split_and!; [done..|]. intros f. by apply held_drain with (safe := safe). }
  rewrite Hd in H. cbn [mbind option_bind] in H. pose proof (pool_hint d Hwfd) as Hhint.
  pose proof (scan_spec d (fa_hint d) Hwfd Hhint (N.to_nat (fa_frames d)) 0 ltac:(lia) ltac:(lia) ltac:(intros; lia)) as Hscan.
  rewrite N.add_0_r, N.mod_small in Hscan by done.
  destruct (scan _ _ _ d) as [[i|]|]; cbn [mbind option_bind] in H; [| |done].
  - destruct Hscan as [Hi Hfree]. apply bind_Some in H as (a1 & H1 & H). injection H as <- <-.
    assert (chargeable owner 1 d) as Hch.
    { apply (take_frames_charge owner 1 i d a1); [lia|]. cbn [take_frames]. by rewrite H1. }
    destruct (take_frame_spec i owner 0 d Hwfd Hch Hi Hfree) as (a2 & H2 & Hwf2 & T & _). rewrite H1 in H2. injection H2 as <-.
    pose proof (took_frames _ _ _ _ T) as Hfr1. rewrite frame_containing_mul.
    assert (∀ f, FrameProofs.held d f → FrameProofs.held a1 f) as Hheld.
    { intros f. apply (held_run 1 i); [|apply T|done]. intros j. rewrite (took_taken _ _ _ _ T). unfold within. f_equiv. lia. }
    split_and!; [apply hint_wf, hint_after_lt; [done|lia]|cbn; lia|by intros f Hf; apply held_hint, Hheld, Hh|].
    exists i. split; [done|]. split; [lia|]. split.
    + intros (_ & Ht & _)%Hh. rewrite frame_index_mul in Ht. congruence.
    + apply held_hint. split_and!; rewrite ?frame_index_mul; [lia|apply T; by left|].
      intros (s & q & Hs & Hu & Hf). rewrite (took_quarantine _ _ _ _ T) in Hs.
      destruct (pool_quarantine d Hwfd s q Hs Hu) as (_ & Ht & _). rewrite Hf in Ht. congruence.
  - injection H as <- <-. split_and!; [done..|]. intros i Hi. by apply Hscan.
Qed.
