(* ===== verification/Paging.v ===== *)
(** * Page tables

    [kernel/src/arch/x86_64/paging.rs]: four-level tables in the words of physical
    frames. A frame is its base address and a table its 512 words; [pg_words] holds the
    words of all frames, a word it does not have being zero. A function that returns a
    [Result] returns early with its error. The generation a teardown stamps its frames
    with is asked of [tlb.rs] and an argument here, as the safe generation the allocator
    asks for. *)

From stdpp Require Import gmap.
From S2P Require Import Prelude Effects Scope Frame.

#[local] Open Scope N_scope.
#[local] Open Scope act_scope.

(** ** Entries *)

(** kernel/src/arch/x86_64/paging.rs:18-18 [PRESENT] *)
Definition PRESENT : N := 1.
(** kernel/src/arch/x86_64/paging.rs:19-19 [WRITABLE] *)
Definition WRITABLE : N := 2.
(** kernel/src/arch/x86_64/paging.rs:20-20 [USER] *)
Definition USER : N := 4.
(** kernel/src/arch/x86_64/paging.rs:21-21 [WRITE_THROUGH] *)
Definition WRITE_THROUGH : N := 8.
(** kernel/src/arch/x86_64/paging.rs:22-22 [CACHE_DISABLE] *)
Definition CACHE_DISABLE : N := 16.
(** kernel/src/arch/x86_64/paging.rs:23-23 [HUGE] *)
Definition HUGE : N := 128.
(** kernel/src/arch/x86_64/paging.rs:24-24 [GLOBAL] *)
Definition GLOBAL : N := 256.
(** kernel/src/arch/x86_64/paging.rs:25-25 [NO_EXECUTE] *)
Definition NO_EXECUTE : N := 2 ^ 63.
(** kernel/src/arch/x86_64/paging.rs:28-28 [FLAG_WRITABLE] *)
Definition FLAG_WRITABLE : N := WRITABLE.
(** kernel/src/arch/x86_64/paging.rs:31-31 [FLAG_USER] *)
Definition FLAG_USER : N := USER.
(** kernel/src/arch/x86_64/paging.rs:34-34 [ADDRESS_MASK] *)
Definition ADDRESS_MASK : N := 0x000FFFFFFFFFF000.
(** kernel/src/arch/x86_64/paging.rs:35-35 [ENTRIES] *)
Definition ENTRIES : N := 512.
(** kernel/src/arch/x86_64/paging.rs:38-38 [SLOT_HHDM] *)
Definition SLOT_HHDM : N := 256.
(** kernel/src/arch/x86_64/paging.rs:40-40 [SLOT_DYNAMIC] *)
Definition SLOT_DYNAMIC : N := 257.
(** kernel/src/arch/x86_64/paging.rs:42-42 [SLOT_IMAGE] *)
Definition SLOT_IMAGE : N := 511.
(** kernel/src/arch/x86_64/paging.rs:44-44 [KERNEL_SLOTS] *)
Definition KERNEL_SLOTS : list N := [SLOT_HHDM; SLOT_DYNAMIC; SLOT_IMAGE].

(** kernel/src/arch/x86_64/paging.rs:52-63 [MapError] *)
Inductive MapError := BadRights (e : RightsError) | BadAddress | AlreadyMapped | LargePageInTheWay | OutOfMemory.

(** kernel/src/arch/x86_64/paging.rs:85-88 [canonical] *)
Definition canonical (addr : N) : bool :=
  let top := N.shiftr addr 47 in bool_decide (top = 0) || bool_decide (top = 0x1FFFF).
(** kernel/src/arch/x86_64/paging.rs:90-92 [index] *)
Definition index (addr level : N) : N := N.land (N.shiftr addr (12 + 9 * level)) 0x1FF.
Definition has (flag entry : N) : bool := negb (bool_decide (N.land entry flag = 0)).
(** The frame an entry names. *)
Definition frame_of (entry : N) : N := frame_containing (N.land entry ADDRESS_MASK).
(** kernel/src/arch/x86_64/paging.rs:156-181 [leaf_flags] *)
Definition leaf_flags (r : Rights) : N :=
  let flags := PRESENT in
  let flags := if rt_write r then N.lor flags WRITABLE else flags in
  let flags := if rt_user r then N.lor flags USER else N.lor flags GLOBAL in
  let flags := if rt_execute r then flags else N.lor flags NO_EXECUTE in
  if rt_uncacheable r then N.lor flags (N.lor CACHE_DISABLE WRITE_THROUGH) else flags.

(** ** Memory *)

(** The words of every frame, by frame and slot. *)
Definition Words : Type := gmap (N * N) N.
(** kernel/src/arch/x86_64/paging.rs:144-154 [load_entry] *)
Definition load_entry (w : Words) (frame slot : N) : N := default 0 (w !! (frame, slot)).
Definition store_entry (frame slot entry : N) (w : Words) : Words := <[(frame, slot) := entry]> w.
Definition zeroed (frame : N) (w : Words) : Words := filter (λ x, x.1.1 ≠ frame) w.

Record Paging := mkPaging { pg_words : Words; pg_pool : FrameAllocator }.
#[global] Instance Paging_rebuild : Rebuild Paging := λ s, mkPaging (pg_words s) (pg_pool s).

(** Takes a frame, zeroed. *)
(** kernel/src/mm/frame.rs:364-395 [FrameAllocator::alloc, with the zeroing] *)
Definition alloc_zeroed (safe : N) (owner : Owner) : Act Paging MapError N :=
  pool <- ask pg_pool;;
  result <- or_panic (Frame.alloc safe owner pool);;
  change (λ s, s <| pg_pool := result.2 |>);;;
  frame <- or_return result.1 OutOfMemory;;
  change (λ s, s <| pg_words ::= zeroed frame |>);;;
  go frame.
Definition entry_at (frame slot : N) : Act Paging MapError N := ask (λ s, load_entry (pg_words s) frame slot).
Definition set_entry {R} (frame slot entry : N) : Act Paging R () := change (λ s, s <| pg_words ::= store_entry frame slot entry |>).

(** ** Translation *)

(** [steps] counts down the levels. *)
(** kernel/src/arch/x86_64/paging.rs:125-139 [translate_in, the loop] *)
Fixpoint translate_from (w : Words) (steps : nat) (frame vaddr : N) : option (N * N) :=
  let level := N.of_nat steps in
  let entry := load_entry w frame (index vaddr level) in
  if negb (has PRESENT entry) then None else
  match steps with
  | O => Some (N.lor (N.land entry ADDRESS_MASK) (N.land vaddr 0xFFF), entry)
  | S below =>
      if has HUGE entry
      then Some (N.lor (N.land entry ADDRESS_MASK) (N.land vaddr (2 ^ (12 + 9 * level) - 1)), entry)
      else translate_from w below (frame_of entry) vaddr
  end.
(** kernel/src/arch/x86_64/paging.rs:119-140 [translate_in]; lines 326-328 of [AddressSpace::translate] *)
Definition translate_in (w : Words) (root vaddr : N) : option (N * N) :=
  if negb (canonical vaddr) then None else translate_from w 3 (frame_containing root) vaddr.

(** ** An address space, named by its root *)

(** kernel/src/arch/x86_64/paging.rs:190-194 [AddressSpace::new] *)
Definition new (safe : N) (owner : Owner) : Act Paging MapError N := alloc_zeroed safe owner.
(** kernel/src/arch/x86_64/paging.rs:204-213 [AddressSpace::create_kernel_slots] *)
Definition create_kernel_slots (safe root : N) : Act Paging MapError () :=
  for_each KERNEL_SLOTS (λ slot,
    entry <- entry_at root slot;;
    when (negb (has PRESENT entry))
      (frame <- alloc_zeroed safe OwnKernel;;
       set_entry root slot (N.lor (N.lor frame PRESENT) WRITABLE))).
(** kernel/src/arch/x86_64/paging.rs:219-225 [AddressSpace::attach_kernel] *)
Definition attach_kernel (root kernel : N) : Act Paging MapError () :=
  for_each KERNEL_SLOTS (λ slot, entry <- entry_at kernel slot;; set_entry root slot entry).
(** kernel/src/arch/x86_64/paging.rs:280-309 [AddressSpace::child] *)
Definition child (safe parent slot : N) (user : bool) (owner : Owner) : Act Paging MapError N :=
  entry <- entry_at parent slot;;
  if has PRESENT entry then
    return_if (has HUGE entry) LargePageInTheWay;;;
    let entry := if user then N.lor entry USER else entry in
    let entry := N.lor entry WRITABLE in
    set_entry parent slot entry;;;
    go (frame_of entry)
  else
    frame <- alloc_zeroed safe owner;;
    let flags := N.lor PRESENT WRITABLE in
    let flags := if user then N.lor flags USER else flags in
    set_entry parent slot (N.lor frame flags);;;
    go frame.
(** kernel/src/arch/x86_64/paging.rs:311-322 [AddressSpace::entry_for] *)
Definition entry_for (safe root vaddr : N) (user : bool) (owner : Owner) : Act Paging MapError (N * N) :=
  pdpt <- child safe root (index vaddr 3) user owner;;
  pd <- child safe pdpt (index vaddr 2) user owner;;
  pt <- child safe pd (index vaddr 1) user owner;;
  go (pt, index vaddr 0).
(** kernel/src/arch/x86_64/paging.rs:228-246 [AddressSpace::map] *)
Definition map (safe root vaddr frame : N) (rights : Rights) (owner : Owner) : Act Paging MapError () :=
  (match Rights.validate rights with Some e => early (BadRights e) | None => go () end);;;
  return_if (negb (canonical vaddr) || negb (bool_decide (vaddr mod PAGE_SIZE = 0))) BadAddress;;;
  place <- entry_for safe root vaddr (rt_user rights) owner;;
  entry <- entry_at place.1 place.2;;
  return_if (has PRESENT entry) AlreadyMapped;;;
  set_entry place.1 place.2 (N.lor frame (leaf_flags rights)).
(** kernel/src/arch/x86_64/paging.rs:261-261 [map_large_range, LARGE] *)
Definition LARGE : N := 2 * 1024 * 1024.
(** kernel/src/arch/x86_64/paging.rs:252-278 [AddressSpace::map_large_range] *)
Definition map_large_range (safe root vaddr phys count : N) (rights : Rights) : Act Paging MapError () :=
  (match Rights.validate rights with Some e => early (BadRights e) | None => go () end);;;
  return_if (negb (bool_decide (vaddr mod LARGE = 0)) || negb (bool_decide (phys mod LARGE = 0))) BadAddress;;;
  for_each (range 0 count) (λ i,
    let va := vaddr + i * LARGE in
    let pa := phys + i * LARGE in
    pdpt <- child safe root (index va 3) (rt_user rights) OwnKernel;;
    pd <- child safe pdpt (index va 2) (rt_user rights) OwnKernel;;
    let slot := index va 1 in
    entry <- entry_at pd slot;;
    return_if (has PRESENT entry) AlreadyMapped;;;
    set_entry pd slot (N.lor (N.lor pa (leaf_flags rights)) HUGE)).

(** The table at the bottom of the walk. *)
(** kernel/src/arch/x86_64/paging.rs:341-348 [AddressSpace::unmap, the loop] *)
Fixpoint descend (w : Words) (steps : nat) (frame vaddr : N) : option N :=
  match steps with
  | O => Some frame
  | S below =>
      let entry := load_entry w frame (index vaddr (N.of_nat steps)) in
      if negb (has PRESENT entry) || has HUGE entry then None else descend w below (frame_of entry) vaddr
  end.
(** kernel/src/arch/x86_64/paging.rs:335-356 [AddressSpace::unmap] *)
Definition unmap (root vaddr : N) (w : Words) : option N * Words :=
  if negb (canonical vaddr) || negb (bool_decide (vaddr mod PAGE_SIZE = 0)) then (None, w) else
  match descend w 3 root vaddr with
  | None => (None, w)
  | Some frame =>
      let slot := load_entry w frame (index vaddr 0) in
      if negb (has PRESENT slot) then (None, w) else (Some (frame_of slot), store_entry frame (index vaddr 0) 0 w)
  end.

(** ** Teardown *)

(** kernel/src/arch/x86_64/paging.rs:447-453 [Reclaimed] *)
Record Reclaimed := mkReclaimed { data_frames : N; table_frames : N }.
#[global] Instance Reclaimed_rebuild : Rebuild Reclaimed := λ r, mkReclaimed (data_frames r) (table_frames r).
Definition retire (frame : N) (owner : Owner) (stamp : N) (s : Paging) : Paging :=
  s <| pg_pool ::= retire_at frame owner stamp |>.

(** kernel/src/arch/x86_64/paging.rs:386-426 [AddressSpace::destroy_level] *)
Fixpoint destroy_level (level : nat) (frame : N) (owner : Owner) (stamp : N) (cs : Reclaimed * Paging) : Reclaimed * Paging :=
  let '(counts, s) := foldl (λ cs slot, let '(counts, s) := cs : Reclaimed * Paging in
    let entry := load_entry (pg_words s) frame slot in
    if negb (has PRESENT entry) then (counts, s) else
    let '(counts, s) :=
      match level with
      | S (S _ as below) =>
          if has HUGE entry then (counts <| data_frames ::= N.succ |>, retire (frame_of entry) owner stamp s)
          else destroy_level below (frame_of entry) owner stamp (counts, s)
      | _ => (counts <| data_frames ::= N.succ |>, retire (frame_of entry) owner stamp s)
      end in
    (counts, s <| pg_words ::= store_entry frame slot 0 |>)) cs (range 0 ENTRIES) in
  (counts <| table_frames ::= N.succ |>, retire frame owner stamp s).
(** kernel/src/arch/x86_64/paging.rs:363-383 [AddressSpace::destroy_user_half] *)
Definition destroy_user_half (root : N) (owner : Owner) (stamp : N) (s : Paging) : Reclaimed * Paging :=
  foldl (λ cs slot, let '(counts, s) := cs : Reclaimed * Paging in
    let entry := load_entry (pg_words s) root slot in
    if negb (has PRESENT entry) then (counts, s) else
    let '(counts, s) := destroy_level 3 (frame_of entry) owner stamp (counts, s) in
    (counts, s <| pg_words ::= store_entry root slot 0 |>)) (mkReclaimed 0 0, s) (range 0 SLOT_HHDM).
(** kernel/src/arch/x86_64/paging.rs:435-443 [AddressSpace::release_root] *)
Definition release_root (root : N) (owner : Owner) (stamp : N) (s : Paging) : Paging :=
  retire root owner stamp (s <| pg_words ::= λ w, foldl (λ w slot, store_entry root slot 0 w) w KERNEL_SLOTS |>).
