(* ===== verification/PagingProofs.v ===== *)
(** * Page tables as a map

    The tables of an address space are a tree: every table has one place in it, the
    slots on the way down to it. That is a ghost, [T], from a table's frame to its
    place. A write to a table then concerns only the addresses whose indices begin with
    its place, so mapping a page is an insertion and unmapping a deletion in the map from
    pages to translations, whatever tables had to be made. *)

From stdpp Require Import gmap.
From S2P Require Import Prelude Effects Scope Frame FrameProofs FrameHeld Paging.

#[local] Open Scope N_scope.

(** ** Entries *)

Lemma land_lor_flag e flag mask : N.land flag mask = 0 → N.land (N.lor e flag) mask = N.land e mask.
Proof. intros H. by rewrite N.land_lor_distr_l, H, N.lor_0_r. Qed.
Lemma frame_of_flag e flag : N.land flag ADDRESS_MASK = 0 → frame_of (N.lor e flag) = frame_of e.
Proof. intros H. unfold frame_of. by rewrite land_lor_flag. Qed.
Lemma has_flag_other e flag f : N.land flag f = 0 → has f (N.lor e flag) = has f e.
Proof. intros H. unfold has. by rewrite land_lor_flag. Qed.
Lemma frame_of_land e : frame_of e = N.land e ADDRESS_MASK.
Proof.
  unfold frame_of, frame_containing, andnot. apply N.bits_inj. intros i. rewrite N.ldiff_spec, !N.land_spec.
  change (PAGE_SIZE - 1) with (N.ones 12). destruct (decide (i < 12)) as [Hi|Hi].
  - rewrite N.ones_spec_low by done. cbn [negb]. rewrite andb_false_r.
    change ADDRESS_MASK with (N.shiftl (N.ones 40) 12). by rewrite N.shiftl_spec_low, andb_false_r.
  - rewrite N.ones_spec_high by lia. by rewrite andb_true_r.
Qed.

(** A frame an entry can name. *)
Definition nameable (f : N) : Prop := N.land f ADDRESS_MASK = f.
Lemma nameable_frame i : i < 2 ^ 40 → nameable (i * PAGE_SIZE).
Proof.
  intros Hi. unfold nameable. change PAGE_SIZE with (2 ^ 12). rewrite <-N.shiftl_mul_pow2.
  change ADDRESS_MASK with (N.shiftl (N.ones 40) 12). rewrite <-N.shiftl_land, N.land_ones.
  by rewrite N.mod_small.
Qed.
Lemma frame_of_named f flags : nameable f → N.land flags ADDRESS_MASK = 0 → frame_of (N.lor f flags) = f.
Proof. intros Hf H. by rewrite frame_of_land, land_lor_flag. Qed.
Lemma frame_of_nameable e : nameable (frame_of e).
Proof. unfold nameable. rewrite frame_of_land. by rewrite <-N.land_assoc, N.land_diag. Qed.
Lemma leaf_flags_mask r : N.land (leaf_flags r) ADDRESS_MASK = 0.
Proof. by destruct r as [[] [] [] [] []]. Qed.
Lemma leaf_flags_present r : has PRESENT (leaf_flags r) = true.
Proof. by destruct r as [[] [] [] [] []]. Qed.
Lemma frame_containing_named f : nameable f → frame_containing f = f.
Proof.
  intros Hf. transitivity (frame_of f); [unfold frame_of; by rewrite Hf|by rewrite frame_of_land].
Qed.
Lemma has_present_lor e flag : has PRESENT flag = true → has PRESENT (N.lor e flag) = true.
Proof.
  unfold has. rewrite N.land_lor_distr_l, !negb_true_iff, !bool_decide_eq_false. intros H Hz. apply H.
  by apply N.lor_eq_0_iff in Hz as [_ ?].
Qed.

(** An entry that leads to a table. *)
Definition interior (e : N) : bool := has PRESENT e && negb (has HUGE e).

(** ** Words *)

Lemma load_store w f s e g k :
  load_entry (store_entry f s e w) g k = if decide (f = g ∧ s = k) then e else load_entry w g k.
Proof.
  unfold load_entry, store_entry, Words in *. rewrite (fin_maps.lookup_insert (M := gmap (N * N))). case_decide as H.
  - injection H as -> ->. by rewrite decide_True.
  - rewrite decide_False; [done|]. by intros [-> ->].
Qed.
Lemma load_zeroed w f g k : load_entry (zeroed f w) g k = if decide (f = g) then 0 else load_entry w g k.
Proof.
  unfold load_entry, zeroed, Words in *. rewrite (fin_maps.map_lookup_filter (M := gmap (N * N))). case_decide as H.
  - subst. destruct (w !! (g, k)); cbn; [|done]. by rewrite option_guard_False by (intros Hn; by apply Hn).
  - destruct (w !! (g, k)); cbn; [|done]. by rewrite option_guard_True by (intros ->; by apply H).
Qed.

(** ** Places *)

(** The slots of an address, from the root down. *)
Definition slots_of (va : N) : list N := [index va 3; index va 2; index va 1; index va 0].
(** The place of the table the walk of [va] is at with [n] levels below. *)
Definition place (va : N) (n : nat) : list N := take (3 - n) (slots_of va).
Lemma place_below va n : (n < 3)%nat → place va n = place va (S n) ++ [index va (N.of_nat (S n))].
Proof. intros Hn. destruct n as [|[|[|]]]; [done..|lia]. Qed.
Lemma place_length va n : (n <= 3)%nat → length (place va n) = (3 - n)%nat.
Proof. intros Hn. unfold place. rewrite length_take. cbn. lia. Qed.

(** The part of the space under the slots [V] of the root; the rest may be shared. *)
Section space.
Context (V : N → bool).

(** The slot of the root a place is under, or [s] itself at the root. *)
Definition under (p : list N) (s : N) : bool := V (default s (head p)).
Record tree (root : N) (T : gmap N (list N)) (w : Words) : Prop := {
  tr_root : T !! root = Some [];
  tr_named f p : T !! f = Some p → nameable f;
  tr_child f p s : T !! f = Some p → (length p < 3)%nat → under p s = true → interior (load_entry w f s) = true →
    T !! frame_of (load_entry w f s) = Some (p ++ [s])
}.
Lemma under_place va n : under (place va (S n)) (index va (N.of_nat (S n))) = V (index va 3) ∨ (2 < n)%nat.
Proof. destruct n as [|[|[|n]]]; [left; reflexivity..|right; lia]. Qed.

(** What the walk of [va] meets at a table, before and after. *)
Definition unchanged (w w' : Words) (f s : N) (n : nat) : Prop :=
  let e := load_entry w f s in
  let e' := load_entry w' f s in
  e' = e ∨
  n ≠ O ∧ interior e = true ∧ interior e' = true ∧ frame_of e' = frame_of e ∨
  n ≠ O ∧ has PRESENT e = false ∧ interior e' = true ∧ ∀ s, load_entry w' (frame_of e') s = 0.

Lemma interior_present e : interior e = true → has PRESENT e = true ∧ has HUGE e = false.
Proof. intros [? ?%negb_true_iff]%andb_prop. done. Qed.

Lemma translate_agree root T w w' va n f :
  tree root T w → V (index va 3) = true → (n <= 3)%nat → T !! f = Some (place va n) →
  (∀ g k, (k <= n)%nat → T !! g = Some (place va k) → unchanged w w' g (index va (N.of_nat k)) k) →
  translate_from w' n f va = translate_from w n f va.
Proof.
  intros Htr Hv. revert f. induction n as [|n IH]; intros f Hn Hf Hu.
  - destruct (Hu f O ltac:(lia) Hf) as [He|[[? _]|[? _]]]; [|done..]. cbn in He |- *. by rewrite He.
  - pose proof (Hu f (S n) ltac:(lia) Hf) as Hf'. cbn zeta in Hf'. unfold unchanged in Hf'.
    cbn [translate_from]. set (s := index va (N.of_nat (S n))) in *.
    assert (∀ e, interior e = true → e = load_entry w f s → T !! frame_of e = Some (place va n)) as Hdown.
    { intros e Hi ->. rewrite (place_below va n) by lia. apply (tr_child root T w); [done|done| | |done].
      - rewrite place_length; lia.
      - destruct (under_place va n) as [Hx|?]; [|lia]. subst s. by rewrite Hx. }
    destruct Hf' as [He|[(_ & Hi & Hi' & He)|(_ & Hp & Hi' & Hz)]].
    + rewrite He. destruct (has PRESENT (load_entry w f s)) eqn:Hp; cbn [negb]; [|done].
      destruct (has HUGE (load_entry w f s)) eqn:Hh; [done|].
      apply IH; [lia|apply Hdown; [|done]; unfold interior; by rewrite Hp, Hh|].
      intros g k Hk. apply Hu. lia.
    + destruct (interior_present _ Hi) as [-> ->]. destruct (interior_present _ Hi') as [-> ->]. cbn [negb].
      rewrite He. apply IH; [lia|by apply Hdown|]. intros g k Hk. apply Hu. lia.
    + destruct (interior_present _ Hi') as [-> ->]. rewrite Hp. cbn [negb].
      destruct n; cbn [translate_from]; by rewrite Hz.
Qed.

Lemma descend_translate w n : ∀ f va pt, descend w n f va = Some pt →
  translate_from w n f va = let e := load_entry w pt (index va 0) in
    if has PRESENT e then Some (N.lor (N.land e ADDRESS_MASK) (N.land va 0xFFF), e) else None.
Proof.
  induction n as [|n IH]; intros f va pt; cbn [descend translate_from].
  - intros [= ->]. cbn. by destruct (has PRESENT _).
  - destruct (has PRESENT _) eqn:Hp; cbn [negb orb]; [|done]. destruct (has HUGE _) eqn:Hh; [done|]. apply IH.
Qed.

(** ** Pages *)

Lemma index_mod va l : index va l = (va / 2 ^ (12 + 9 * l)) mod 512.
Proof. unfold index. change 0x1FF with (N.ones 9). by rewrite N.land_ones, N.shiftr_div_pow2. Qed.
Lemma quotient_eq q q' d : 0 < d → q mod d = q' mod d → q / d = q' / d → q = q'.
Proof. intros Hd Hm Hq. rewrite (N.div_mod q d), (N.div_mod q' d) by lia. by rewrite Hm, Hq. Qed.
(** A number by its quotient and its remainder, for [lia]. *)
Lemma divided x d : d ≠ 0 → ∃ q r, x / d = q ∧ x mod d = r ∧ x = d * q + r ∧ r < d.
Proof. intros Hd. exists (x / d), (x mod d). split_and!; [done..|by apply N.div_mod|by apply N.mod_lt]. Qed.
Lemma canonical_top va : canonical va = true → let x := va / 2 ^ 39 in x < 256 ∨ 256 * 0x1FFFF <= x < 256 * 0x20000.
Proof.
  unfold canonical. rewrite orb_true_iff, !bool_decide_eq_true, N.shiftr_div_pow2. intros H. cbv zeta.
  assert (va / 2 ^ 47 = va / 2 ^ 39 / 256) as Hx by (rewrite N.Div0.div_div; reflexivity).
  rewrite Hx in H. clear Hx. revert H. generalize (va / 2 ^ 39). intros x H.
  destruct (divided x 256 ltac:(done)) as (q & r & Hq & _ & Hx & Hr). rewrite Hq in H. clear Hq. lia.
Qed.
(** The slots of a canonical address are its page. *)
Lemma slots_page va va' :
  canonical va = true → canonical va' = true → slots_of va = slots_of va' → va / PAGE_SIZE = va' / PAGE_SIZE.
Proof.
  intros Hc Hc' [= H3 H2 H1 H0]. rewrite !index_mod in *. cbn [N.add N.mul] in *.
  assert (va / 2 ^ 39 = va' / 2 ^ 39) as Htop.
  { apply canonical_top in Hc, Hc'. cbv zeta in *. apply (quotient_eq _ _ 512); [done|exact H3|].
    change (2 ^ (12 + 9 * 3)) with (2 ^ 39) in H3.
    clear H0 H1 H2. revert H3 Hc Hc'. generalize (va / 2 ^ 39), (va' / 2 ^ 39). intros x x' H Hx Hx'.
    destruct (divided x 512 ltac:(done)) as (q & r & Hq & Hm & ? & ?), (divided x' 512 ltac:(done)) as (q' & r' & Hq' & Hm' & ? & ?).
    rewrite Hm, Hm' in H. rewrite Hq, Hq'. clear Hq Hq' Hm Hm'. lia. }
  assert (∀ a b x, a * 512 = b → x / b = x / a / 512) as Hdiv by (intros a b x <-; by rewrite N.Div0.div_div).
  change PAGE_SIZE with (2 ^ 12). apply (quotient_eq _ _ 512); [done|exact H0|].
  rewrite <-!(Hdiv (2 ^ 12) (2 ^ 21)) by done. apply (quotient_eq _ _ 512); [done|exact H1|].
  rewrite <-!(Hdiv (2 ^ 21) (2 ^ 30)) by done. apply (quotient_eq _ _ 512); [done|exact H2|].
  by rewrite <-!(Hdiv (2 ^ 30) (2 ^ 39)) by done.
Qed.
Lemma page_slots va va' : va / PAGE_SIZE = va' / PAGE_SIZE → slots_of va = slots_of va'.
Proof.
  intros H. unfold slots_of. rewrite !index_mod.
  assert (∀ l, va / 2 ^ (12 + 9 * l) = va' / 2 ^ (12 + 9 * l)) as Hl.
  { intros l. rewrite N.pow_add_r, <-!N.Div0.div_div. change (2 ^ 12) with PAGE_SIZE. by rewrite H. }
  by rewrite !Hl.
Qed.

(** ** The pool a tree is built from *)

(** How many more frames an owner can be charged, where that is known: where it is not,
    a charge may overflow, which is a panic. *)
Definition budget (owner : Owner) (n : option N) (a : FrameAllocator) : Prop :=
  match n with Some n => chargeable owner n a | None => True end.
Definition more (n : option N) (k : N) : option N := (λ n, n + k) <$> n.
Lemma more_more n k l : more (more n k) l = more n (k + l).
Proof. destruct n; cbn; [|done]. f_equal. lia. Qed.
Lemma budget_less owner n k a : budget owner (more n k) a → budget owner n a.
Proof. destruct n as [n|]; [|done]. intros (c & Hc & Hn). exists c. split; [done|lia]. Qed.

(** The frames [H] are held, and [owner] can be charged [n] more. *)
Record kept (owner : Owner) (n : option N) (H : N → Prop) (a : FrameAllocator) : Prop := {
  kp_wf : pool_wf a;
  kp_frames : fa_frames a <= 2 ^ 40;
  kp_owner : owner_slot owner < OWNER_SLOTS;
  kp_charge : budget owner n a;
  kp_held f : H f → FrameProofs.held a f
}.

Lemma alloc_zeroed_spec safe owner n H s :
  kept owner (more n 1) H (pg_pool s) →
  match alloc_zeroed safe owner s with
  | Go f s' => ¬ H f ∧ nameable f ∧ pg_words s' = zeroed f (pg_words s) ∧ kept owner n (λ g, H g ∨ g = f) (pg_pool s')
  | Early e s' => e = OutOfMemory ∧ pg_words s' = pg_words s ∧ kept owner n H (pg_pool s') ∧ exhausted (pg_pool s')
  | Bad _ => n = None
  end.
Proof.
  intros [Hwf Hfr Ho Hch Hh].
  assert (match alloc safe owner (pg_pool s) with
    | Some (found, a') => budget owner n a'
    | None => n = None
    end) as Hb.
  { destruct n as [n|]; [|by destruct (alloc safe owner (pg_pool s)) as [[]|]].
    destruct (alloc_spec safe owner n (pg_pool s) Hwf Ho Hch) as (d & found & a' & -> & _ & _ & Hc & _). exact Hc. }
  unfold alloc_zeroed, bind_act, ask, Effects.change, go. cbv beta iota.
  destruct (alloc safe owner (pg_pool s)) as [[found a']|] eqn:Hal; cbn [or_panic go fst snd bad]; [|done].
  destruct (held_alloc safe owner (pg_pool s) found a' Hwf Hal) as (Hwf' & Hfr' & Hh' & Hf).
  destruct found as [frame|]; cbn [or_return go early pg_words pg_pool set_field].
  - destruct Hf as (i & -> & Hi & Hn & Hy). split; [auto|]. split; [apply nameable_frame; lia|]. split; [done|].
    split; cbn; [done|lia|done|done|]. intros f [Hf| ->]; auto.
  - split; [done|]. split; [done|]. split; [|done]. split; cbn; [done|lia|done|done|auto].
Qed.

(** ** Making a table *)

Lemma kept_less owner n k (H H' : N → Prop) a : (∀ f, H' f → H f) → kept owner (more n k) H a → kept owner n H' a.
Proof. intros HH [Hwf Hfr Ho Hch Hh]. split; [done..| |auto]. by eapply budget_less. Qed.
Lemma kept_part owner n (H H' : N → Prop) a : (∀ f, H' f → H f) → kept owner n H a → kept owner n H' a.
Proof. intros HH [Hwf Hfr Ho Hch Hh]. split; [done..|auto]. Qed.

Lemma tree_fresh root T w f q : tree root T w → T !! f = None → nameable f → tree root (<[f := q]> T) (zeroed f w).
Proof.
  intros [Hr Hn Hc] Hf Hnf. split.
  - by rewrite lookup_insert_ne by (intros ->; congruence).
  - intros g p Hg. destruct (decide (g = f)) as [->|Hne]; [done|]. rewrite lookup_insert_ne in Hg by done. by eapply Hn.
  - intros g p s Hg Hl Hu. rewrite load_zeroed. destruct (decide (f = g)) as [->|Hne]; [done|].
    rewrite lookup_insert_ne in Hg by done. intros Hi. pose proof (Hc g p s Hg Hl Hu Hi) as HT.
    by rewrite lookup_insert_ne by (intros ->; congruence).
Qed.
Lemma tree_link root T w f p s e :
  tree root T w → T !! f = Some p → (interior e = true → (length p < 3)%nat → T !! frame_of e = Some (p ++ [s])) →
  tree root T (store_entry f s e w).
Proof.
  intros [Hr Hn Hc] Hf He. split; [done..|]. intros g q k Hg Hl Hu. rewrite load_store.
  case_decide as Hd; [|by apply Hc]. destruct Hd as [<- <-]. replace q with p in * by congruence. intros Hi. by apply He.
Qed.

Lemma interior_flag e flag : N.land flag PRESENT = 0 → N.land flag HUGE = 0 → interior (N.lor e flag) = interior e.
Proof. intros H1 H2. unfold interior. by rewrite !has_flag_other. Qed.
Lemma interior_new f flags :
  nameable f → has PRESENT flags = true → N.land flags HUGE = 0 → interior (N.lor f flags) = true.
Proof.
  intros Hf Hp Hh. unfold interior. rewrite has_present_lor, (has_flag_other f flags HUGE) by done.
  unfold has. rewrite <-Hf, <-N.land_assoc. change (N.land ADDRESS_MASK HUGE) with 0. by rewrite N.land_0_r.
Qed.

(** A write to one slot of a table, seen by the walks. *)
Lemma unchanged_elsewhere (T : gmap N (list N)) w w' parent slot p :
  T !! parent = Some p →
  (∀ g s, is_Some (T !! g) → (g, s) ≠ (parent, slot) → load_entry w' g s = load_entry w g s) →
  ∀ va g k, (k <= 3)%nat → T !! g = Some (place va k) → unchanged w w' g (index va (N.of_nat k)) k ∨
    g = parent ∧ index va (N.of_nat k) = slot ∧ k = (3 - length p)%nat ∧ p = place va k.
Proof.
  intros Hp Hw va g k Hk Hg. destruct (decide ((g, index va (N.of_nat k)) = (parent, slot))) as [[= -> <-]|Hne].
  - right. replace p with (place va k) in * by congruence. rewrite place_length by done. split_and!; [done..|lia|done].
  - left. left. by apply Hw.
Qed.

(** What making a table, or finding it, did: the tables of [T'] are those of [T] and
    frames that were not held; no other frame was written. *)
Record grown (owner : Owner) (n : option N) (H : N → Prop) (root : N) (T T' : gmap N (list N)) (s s' : Paging) : Prop := {
  gr_more : T ⊆ T';
  gr_tree : tree root T' (pg_words s');
  gr_kept : kept owner n (λ g, H g ∨ is_Some (T' !! g)) (pg_pool s');
  gr_new g : is_Some (T' !! g) → is_Some (T !! g) ∨ ¬ H g;
  gr_else g k : T' !! g = None → load_entry (pg_words s') g k = load_entry (pg_words s) g k;
  gr_same va : V (index va 3) = true → translate_from (pg_words s') 3 root va = translate_from (pg_words s) 3 root va
}.
Definition linked (w : Words) (parent slot f : N) : Prop :=
  interior (load_entry w parent slot) = true ∧ frame_of (load_entry w parent slot) = f.

Lemma child_spec safe owner n H root T s parent p slot user :
  tree root T (pg_words s) → (∀ f, is_Some (T !! f) → H f) → kept owner (more n 1) H (pg_pool s) →
  T !! parent = Some p → (length p < 3)%nat → under p slot = true →
  match child safe parent slot user owner s with
  | Go f s' => ∃ T', grown owner n H root T T' s s' ∧ T' !! f = Some (p ++ [slot]) ∧ linked (pg_words s') parent slot f ∧
      ∀ g k, is_Some (T !! g) → (g, k) ≠ (parent, slot) → load_entry (pg_words s') g k = load_entry (pg_words s) g k
  | Early e s' => pg_words s' = pg_words s ∧ kept owner n H (pg_pool s') ∧
      (e = OutOfMemory ∧ exhausted (pg_pool s') ∨
       e = LargePageInTheWay ∧ has PRESENT (load_entry (pg_words s) parent slot) = true ∧ has HUGE (load_entry (pg_words s) parent slot) = true)
  | Bad _ => n = None
  end.
Proof.
  intros Htr HH Hk Hp Hl Hun. unfold child, entry_at, bind_act at 1, ask. cbv beta iota.
  set (e := load_entry (pg_words s) parent slot). destruct (has PRESENT e) eqn:Hpe.
  - unfold bind_act, return_if. destruct (has HUGE e) eqn:Hhe; cbn [early go set_entry Effects.change pg_words].
    { split; [done|]. split; [by apply (kept_less _ n 1 H); [auto|]|]. by right. }
    set (e1 := N.lor (if user then N.lor e USER else e) WRITABLE).
    assert (interior e = true) as Hi by (unfold interior; by rewrite Hpe, Hhe).
    assert (interior e1 = true) as Hi1 by (unfold e1; destruct user; by rewrite !interior_flag by done).
    assert (frame_of e1 = frame_of e) as Hf1 by (unfold e1; destruct user; by rewrite !frame_of_flag by done).
    pose proof (tr_child _ _ _ Htr parent p slot Hp Hl Hun Hi) as HT. fold e in HT.
    set (s' := s <| pg_words ::= store_entry parent slot e1 |>).
    assert (load_entry (pg_words s') parent slot = e1) as Hload by (cbn; rewrite load_store; by rewrite decide_True).
    assert (∀ g k, is_Some (T !! g) → (g, k) ≠ (parent, slot) → load_entry (pg_words s') g k = load_entry (pg_words s) g k) as Helse.
    { intros g k _ Hne. cbn. rewrite load_store, decide_False; [done|]. intros [-> ->]. by apply Hne. }
    exists T. rewrite Hf1. split; [split|].
    + done.
    + apply (tree_link root T (pg_words s) parent p); [done..|]. intros _ _. by rewrite Hf1.
    + apply (kept_less _ n 1 H); [intros g [?|?]; auto|exact Hk].
    + auto.
    + intros g k Hg. cbn. rewrite load_store, decide_False; [done|]. intros [<- _]. congruence.
    + intros va Hv. eapply translate_agree; [done|done|lia|apply (tr_root _ _ _ Htr)|]. intros g k Hk3 Hg.
      destruct (unchanged_elsewhere T _ (pg_words s') parent slot p Hp Helse va g k Hk3 Hg) as [?|(-> & Hs & -> & _)]; [done|].
      right. left. rewrite Hs, Hload. split_and!; [lia|done..].
    + split; [exact HT|]. split; [|exact Helse]. split; by rewrite Hload.
  - pose proof (alloc_zeroed_spec safe owner n H s Hk) as Hal. unfold bind_act.
    destruct (alloc_zeroed safe owner s) as [f s1|err s1|s1]; [|by destruct Hal as (-> & ? & ? & ?); auto 10|done].
    destruct Hal as (HnH & Hnf & Hw & Hk1). assert (T !! f = None) as HT by (apply eq_None_not_Some; auto).
    cbn [go set_entry Effects.change pg_words].
    set (flags := if user then N.lor (N.lor PRESENT WRITABLE) USER else N.lor PRESENT WRITABLE).
    set (e1 := N.lor f flags).
    assert (interior e1 = true) as Hi1 by (apply interior_new; [done|by destruct user..]).
    assert (frame_of e1 = f) as Hf1 by (apply frame_of_named; [done|by destruct user]).
    set (s' := s1 <| pg_words ::= store_entry parent slot e1 |>).
    assert (f ≠ parent) as Hfp by (intros ->; congruence).
    assert (load_entry (pg_words s') parent slot = e1) as Hload by (cbn; rewrite load_store; by rewrite decide_True).
    assert (∀ g k, is_Some (T !! g) → (g, k) ≠ (parent, slot) → load_entry (pg_words s') g k = load_entry (pg_words s) g k) as Helse.
    { intros g k [q Hg] Hne. cbn. rewrite load_store, decide_False by (intros [-> ->]; by apply Hne).
      rewrite Hw, load_zeroed, decide_False; [done|]. intros ->. congruence. }
    exists (<[f := p ++ [slot]]> T). split; [split|].
    + by apply insert_subseteq.
    + apply (tree_link _ _ _ parent p); [rewrite Hw; by apply tree_fresh|by rewrite lookup_insert_ne|].
      intros _ _. by rewrite Hf1, lookup_insert_eq.
    + eapply kept_part with (2 := Hk1). intros g [?|[q Hg]]; [by left|].
      destruct (decide (g = f)) as [->|Hne]; [by right|]. rewrite lookup_insert_ne in Hg by done. left. apply HH. by eexists.
    + intros g [q Hg]. destruct (decide (g = f)) as [->|Hne]; [by right|]. rewrite lookup_insert_ne in Hg by done. left. by eexists.
    + intros g k Hg. destruct (decide (g = f)) as [->|Hne]; [by rewrite lookup_insert_eq in Hg|].
      rewrite lookup_insert_ne in Hg by done. cbn. rewrite load_store, decide_False by (intros [<- _]; congruence).
      by rewrite Hw, load_zeroed, decide_False.
    + intros va Hv. eapply translate_agree; [done|done|lia|apply (tr_root _ _ _ Htr)|]. intros g k Hk3 Hg.
      destruct (unchanged_elsewhere T _ (pg_words s') parent slot p Hp Helse va g k Hk3 Hg) as [?|(-> & Hs & -> & _)]; [done|].
      right. right. rewrite Hs, Hload. fold e. split_and!; [lia|done..|]. intros k. rewrite Hf1. cbn.
      rewrite load_store, decide_False by (intros [-> _]; congruence). by rewrite Hw, load_zeroed, decide_True.
    + split; [by rewrite lookup_insert_eq|]. split; [|exact Helse]. split; by rewrite Hload.
Qed.

(** ** The walk down *)

Lemma linked_descend w n f g va :
  linked w f (index va (N.of_nat (S n))) g → descend w (S n) f va = descend w n g va.
Proof. intros [[Hp Hh]%interior_present <-]. cbn [descend]. by rewrite Hp, Hh. Qed.
Lemma linked_translate w n f g va :
  linked w f (index va (N.of_nat (S n))) g → translate_from w (S n) f va = translate_from w n g va.
Proof. intros [[Hp Hh]%interior_present <-]. cbn [translate_from]. by rewrite Hp, Hh. Qed.

Lemma grown_refl owner n H root T s s' :
  tree root T (pg_words s) → (∀ f, is_Some (T !! f) → H f) → pg_words s' = pg_words s → kept owner n H (pg_pool s') →
  grown owner n H root T T s s'.
Proof.
  intros Htr HH Hw Hk. split; rewrite ?Hw; [done|done| |auto|done|done].
  eapply kept_part with (2 := Hk). intros g [?|?]; auto.
Qed.
Lemma grown_trans owner n m H root T1 T2 T3 s1 s2 s3 :
  grown owner n H root T1 T2 s1 s2 → grown owner m (λ g, H g ∨ is_Some (T2 !! g)) root T2 T3 s2 s3 →
  grown owner m H root T1 T3 s1 s3.
Proof.
  intros [H1 _ _ N1 E1 S1] [H2 ? K2 N2 E2 S2]. split; [by etrans|done|..].
  - eapply kept_part with (2 := K2). intros g [?|?]; auto.
  - intros g Hg. destruct (N2 g Hg) as [Hg2|Hn]; [auto|]. right. auto.
  - intros g k Hg. assert (T2 !! g = None) as Hg2.
    { apply eq_None_not_Some. intros [q Hq]. by rewrite (lookup_weaken _ _ _ _ Hq H2) in Hg. }
    by rewrite E2, E1.
  - intros va Hv. by rewrite S2, S1.
Qed.
Lemma linked_later (T : gmap N (list N)) w w' f s g parent slot :
  (∀ h k, is_Some (T !! h) → (h, k) ≠ (parent, slot) → load_entry w' h k = load_entry w h k) →
  is_Some (T !! f) → f ≠ parent → linked w f s g → linked w' f s g.
Proof. intros Hw Hf Hne. unfold linked. rewrite Hw; [done..|]. by intros [= ->]. Qed.
Lemma places_differ (T : gmap N (list N)) f g p q : T !! f = Some p → T !! g = Some q → length p ≠ length q → f ≠ g.
Proof. intros Hf Hg Hl ->. apply Hl. congruence. Qed.

(** What a refusal on the way down says. *)
Definition blocked (root va : N) (e : MapError) (s s' : Paging) : Prop :=
  e = OutOfMemory ∧ exhausted (pg_pool s') ∨
  e = LargePageInTheWay ∧ ∃ pa entry, translate_from (pg_words s) 3 root va = Some (pa, entry) ∧ has HUGE entry = true.

Lemma huge_translate w n f va :
  has PRESENT (load_entry w f (index va (N.of_nat (S n)))) = true → has HUGE (load_entry w f (index va (N.of_nat (S n)))) = true →
  ∃ pa entry, translate_from w (S n) f va = Some (pa, entry) ∧ has HUGE entry = true.
Proof. intros Hp Hh. cbn [translate_from]. rewrite Hp, Hh. cbn [negb]. by eexists _, _. Qed.

Lemma entry_for_spec safe owner n H root T s va user :
  tree root T (pg_words s) → (∀ f, is_Some (T !! f) → H f) → kept owner (more n 3) H (pg_pool s) → V (index va 3) = true →
  match entry_for safe root va user owner s with
  | Go p s' => ∃ T', grown owner n H root T T' s s' ∧ p.2 = index va 0 ∧ T' !! p.1 = Some (place va 0) ∧
      descend (pg_words s') 3 root va = Some p.1
  | Early e s' => ∃ T', grown owner n H root T T' s s' ∧ blocked root va e s s'
  | Bad _ => n = None
  end.
Proof.
  intros Htr HH Hk Hv. unfold entry_for, bind_act at 1. pose proof (tr_root _ _ _ Htr) as Hroot.
  replace (more n 3) with (more (more n 2) 1) in Hk by (by rewrite more_more).
  pose proof (child_spec safe owner (more n 2) H root T s root [] (index va 3) user Htr HH Hk Hroot ltac:(cbn; lia) Hv) as H1.
  destruct (child safe root (index va 3) user owner s) as [f1 s1|e s1|s1]; [| |by destruct n].
  2:{ destruct H1 as (Hw & Hk1 & Hb). apply (kept_less owner n 2 H H (pg_pool s1) ltac:(auto)) in Hk1.
      exists T. split; [by apply grown_refl|].
      destruct Hb as [?|(-> & Hp & Hh)]; [by left|right]. split; [done|]. by apply (huge_translate _ 2). }
  destruct H1 as (T1 & G1 & Hf1 & L1 & E1). cbn [app] in Hf1. set (H' := λ g, H g ∨ is_Some (T1 !! g)).
  unfold bind_act at 1. pose proof (gr_tree _ _ _ _ _ _ _ _ G1) as Htr1.
  pose proof (gr_kept _ _ _ _ _ _ _ _ G1) as Hk1. replace (more n 2) with (more (more n 1) 1) in Hk1 by (by rewrite more_more).
  pose proof (child_spec safe owner (more n 1) H' root T1 s1 f1 _ (index va 2) user Htr1 ltac:(by right) Hk1 Hf1 ltac:(cbn; lia) Hv) as H2.
  destruct (child safe f1 (index va 2) user owner s1) as [f2 s2|e s2|s2]; [| |by destruct n].
  2:{ destruct H2 as (Hw & Hk2 & Hb). apply (kept_less owner n 1 H' H' (pg_pool s2) ltac:(auto)) in Hk2. exists T1.
      split; [eapply grown_trans; [exact G1|by apply grown_refl; [|right|..]]|].
      destruct Hb as [?|(-> & Hp & Hh)]; [by left|right]. split; [done|].
      rewrite <-(gr_same _ _ _ _ _ _ _ _ G1), (linked_translate _ 2 root f1) by done. by apply (huge_translate _ 1). }
  destruct H2 as (T2 & G2 & Hf2 & L2 & E2). cbn [app] in Hf2.
  assert (linked (pg_words s2) root (index va 3) f1) as L1'.
  { eapply linked_later; [exact E2|rewrite (tr_root _ _ _ Htr1); by eexists| |exact L1].
    eapply (places_differ T1); [apply (tr_root _ _ _ Htr1)|exact Hf1|done]. }
  pose proof (grown_trans _ _ _ _ _ _ _ _ _ _ _ G1 G2) as G12. 
  pose proof (lookup_weaken _ _ _ _ Hf1 (gr_more _ _ _ _ _ _ _ _ G2)) as Hf1'. clear G1 G2 Hk Hk1 E1 E2.
  unfold bind_act at 1. pose proof (gr_tree _ _ _ _ _ _ _ _ G12) as Htr2. pose proof (gr_kept _ _ _ _ _ _ _ _ G12) as Hk2.
  set (H'' := λ g, H g ∨ is_Some (T2 !! g)) in Hk2.
  pose proof (child_spec safe owner n H'' root T2 s2 f2 _ (index va 1) user Htr2 ltac:(by right) Hk2 Hf2 ltac:(cbn; lia) Hv) as H3.
  destruct (child safe f2 (index va 1) user owner s2) as [f3 s3|e s3|s3]; [| |done].
  2:{ destruct H3 as (Hw & Hk3 & Hb). exists T2. split; [eapply grown_trans; [exact G12|by apply grown_refl; [|right|..]]|].
      destruct Hb as [?|(-> & Hp & Hh)]; [by left|right]. split; [done|].
      rewrite <-(gr_same _ _ _ _ _ _ _ _ G12), (linked_translate _ 2 root f1), (linked_translate _ 1 f1 f2) by done.
      by apply (huge_translate _ 0). }
  destruct H3 as (T3 & G3 & Hf3 & L3 & E3). cbn [app] in Hf3. cbn [go].
  exists T3. split; [by eapply grown_trans|]. split; [done|]. split; [exact Hf3|].
  rewrite (linked_descend _ 2 root f1), (linked_descend _ 1 f1 f2), (linked_descend _ 0 f2 f3); [done|exact L3|..].
  - eapply linked_later; [exact E3|by eexists| |exact L2]. by eapply (places_differ T2).
  - eapply linked_later; [exact E3|rewrite (tr_root _ _ _ Htr2); by eexists| |exact L1'].
    eapply (places_differ T2); [apply (tr_root _ _ _ Htr2)|exact Hf2|done].
Qed.

(** One step down. *)
Lemma tree_down root T w va n f :
  tree root T w → V (index va 3) = true → (S n <= 3)%nat → T !! f = Some (place va (S n)) →
  let e := load_entry w f (index va (N.of_nat (S n))) in
  has PRESENT e = true → has HUGE e = false → T !! frame_of e = Some (place va (S n) ++ [index va (N.of_nat (S n))]).
Proof.
  intros Htr Hv Hn Hf e Hp Hh. apply (tr_child root T w); [done|done| | |].
  - rewrite place_length; lia.
  - destruct (under_place va n) as [->|?]; [done|lia].
  - unfold interior. fold e. by rewrite Hp, Hh.
Qed.
Lemma descend_place root T w va n : ∀ f pt,
  tree root T w → V (index va 3) = true → (n <= 3)%nat → T !! f = Some (place va n) → descend w n f va = Some pt →
  T !! pt = Some (place va 0).
Proof.
  induction n as [|n IH]; intros f pt Htr Hv Hn Hf; cbn [descend]; [by intros [= <-]|].
  destruct (has PRESENT _) eqn:Hp; cbn [negb orb]; [|done]. destruct (has HUGE _) eqn:Hh; [done|].
  apply IH; [done|done|lia|]. rewrite (place_below va n) by lia. by apply (tree_down root T w).
Qed.

Lemma canonical_page va va' : va / PAGE_SIZE = va' / PAGE_SIZE → canonical va = canonical va'.
Proof.
  intros H. unfold canonical. rewrite !N.shiftr_div_pow2.
  assert (∀ x, x / 2 ^ 47 = x / PAGE_SIZE / 2 ^ 35) as Hx by (intros x; by rewrite N.Div0.div_div).
  by rewrite !Hx, H.
Qed.

(** ** A write to a leaf *)

(** The table at the bottom of the walk of [va], a word of it replaced: the page of [va]
    changes, and no other. *)
Lemma leaf_write root T w va pt e :
  tree root T w → V (index va 3) = true → canonical va = true → descend w 3 root va = Some pt →
  let w' := store_entry pt (index va 0) e w in
  tree root T w' ∧ T !! pt = Some (place va 0) ∧ ∀ va', V (index va' 3) = true → translate_in w' root va' =
    if decide (va' / PAGE_SIZE = va / PAGE_SIZE)
    then if has PRESENT e then Some (N.lor (N.land e ADDRESS_MASK) (N.land va' 0xFFF), e) else None
    else translate_in w root va'.
Proof.
  intros Htr Hv Hcan Hd w'. pose proof (tr_root _ _ _ Htr) as Hroot.
  pose proof (descend_place root T w va 3 root pt Htr Hv ltac:(lia) Hroot Hd) as Hpt.
  split; [apply (tree_link root T w pt _ _ e Htr Hpt); intros _ Hl; rewrite place_length in Hl by lia; lia|].
  split; [exact Hpt|]. intros va' Hv'. unfold translate_in. rewrite frame_containing_named by (by eapply (tr_named root T w)).
  case_decide as Hp.
  - rewrite (canonical_page _ _ Hp), Hcan. cbn [negb]. pose proof (page_slots _ _ Hp) as Hs.
    assert (index va' 0 = index va 0) as H0 by (by injection Hs).
    assert (descend w' 3 root va' = Some pt) as Hd'.
    { assert (∀ n f, (n <= 3)%nat → T !! f = Some (place va n) → descend w' n f va' = descend w n f va) as Hsame.
      { induction n as [|n IH]; intros f Hn Hf; [done|]. cbn [descend].
        assert (index va' (N.of_nat (S n)) = index va (N.of_nat (S n))) as ->.
        { unfold slots_of in Hs. injection Hs. destruct n as [|[|[|]]]; [done..|lia]. }
        assert (load_entry w' f (index va (N.of_nat (S n))) = load_entry w f (index va (N.of_nat (S n)))) as ->.
        { unfold w'. rewrite load_store, decide_False; [done|]. intros [<- _]. rewrite Hpt in Hf. injection Hf as Hf.
          apply (f_equal length) in Hf. rewrite !place_length in Hf; lia. }
        destruct (has PRESENT _) eqn:Hpr; cbn [negb orb]; [|done]. destruct (has HUGE _) eqn:Hh; [done|].
        apply IH; [lia|]. rewrite (place_below va n) by lia. by apply (tree_down root T w). }
      by rewrite Hsame. }
    rewrite (descend_translate _ _ _ _ _ Hd'), H0. unfold w'. cbv zeta. by rewrite load_store, decide_True.
  - destruct (canonical va') eqn:Hcan'; cbn [negb]; [|done].
    eapply translate_agree; [exact Htr|exact Hv'|lia|exact Hroot|]. intros g k Hk Hg. left. unfold w'.
    rewrite load_store, decide_False; [done|]. intros [<- Hi]. apply Hp. apply slots_page; [done..|].
    rewrite Hpt in Hg. injection Hg as Hg. pose proof (f_equal length Hg) as Hl. rewrite !place_length in Hl by lia.
    replace k with O in * by lia. change (N.of_nat 0) with 0 in Hi. unfold place, slots_of in *. injection Hg as Ha Hb Hc.
    by rewrite Ha, Hb, Hc, Hi.
Qed.

(** ** The theorem *)

(** Why a mapping was refused. *)
Definition refused (root va : N) (rights : Rights) (e : MapError) (s s' : Paging) : Prop :=
  match e with
  | BadRights r => Rights.validate rights = Some r
  | BadAddress => canonical va = false ∨ va mod PAGE_SIZE ≠ 0
  | AlreadyMapped => is_Some (translate_in (pg_words s) root va)
  | LargePageInTheWay => ∃ pa entry, translate_in (pg_words s) root va = Some (pa, entry) ∧ has HUGE entry = true
  | OutOfMemory => exhausted (pg_pool s')
  end.

(** What is left after a mapping, whatever it did to the translations. *)
Record extended (owner : Owner) (n : option N) (H : N → Prop) (root : N) (T T' : gmap N (list N)) (s s' : Paging) : Prop := {
  ex_more : T ⊆ T';
  ex_tree : tree root T' (pg_words s');
  ex_kept : kept owner n (λ g, H g ∨ is_Some (T' !! g)) (pg_pool s');
  ex_new g : is_Some (T' !! g) → is_Some (T !! g) ∨ ¬ H g;
  ex_else g k : T' !! g = None → load_entry (pg_words s') g k = load_entry (pg_words s) g k
}.
Lemma grown_extended owner n H root T T' s s' : grown owner n H root T T' s s' → extended owner n H root T T' s s'.
Proof. by intros []. Qed.

Lemma map_spec safe owner n H root T s va frame rights :
  tree root T (pg_words s) → (∀ f, is_Some (T !! f) → H f) → kept owner (more n 3) H (pg_pool s) →
  V (index va 3) = true → nameable frame →
  match Paging.map safe root va frame rights owner s with
  | Go _ s' => ∃ T', extended owner n H root T T' s s' ∧
      Rights.validate rights = None ∧ canonical va = true ∧ va mod PAGE_SIZE = 0 ∧ translate_in (pg_words s) root va = None ∧
      ∀ va', V (index va' 3) = true → translate_in (pg_words s') root va' =
        if decide (va' / PAGE_SIZE = va / PAGE_SIZE)
        then Some (N.lor frame (N.land va' 0xFFF), N.lor frame (leaf_flags rights))
        else translate_in (pg_words s) root va'
  | Early e s' => ∃ T', extended owner n H root T T' s s' ∧
      (∀ va', V (index va' 3) = true → translate_in (pg_words s') root va' = translate_in (pg_words s) root va') ∧
      refused root va rights e s s'
  | Bad _ => n = None
  end.
Proof.
  intros Htr HH Hk Hv Hnf. pose proof (tr_root _ _ _ Htr) as Hroot.
  assert (frame_containing root = root) as Hfc by (apply frame_containing_named; by eapply (tr_named root T)).
  unfold Paging.map.
  assert (extended owner n H root T T s s) as Hsame.
  { apply grown_extended, grown_refl; [done..|]. apply (kept_less owner n 3 H); [auto|done]. }
  unfold bind_act at 1. destruct (Rights.validate rights) as [r|] eqn:Hva; cbn [early go].
  { exists T. by split_and!. }
  unfold bind_act at 1, return_if.
  destruct (canonical va) eqn:Hcan; cbn [negb orb]; [|cbn [early]; exists T; split_and!; [done..|by left]].
  destruct (bool_decide_reflect (va mod PAGE_SIZE = 0)) as [Ha|Ha]; cbn [negb]; [|cbn [early]; exists T; split_and!; [done..|by right]].
  clear Hsame. cbn [go]. unfold bind_act at 1.
  pose proof (entry_for_spec safe owner n H root T s va (rt_user rights) Htr HH Hk Hv) as He.
  destruct (entry_for safe root va (rt_user rights) owner s) as [[pt i] s1|e s1|s1]; [| |done].
  2:{ destruct He as (T' & G & Hb). exists T'. split_and!; [by apply grown_extended| |].
      - intros va' Hv'. unfold translate_in. by rewrite Hfc, (gr_same _ _ _ _ _ _ _ _ G).
      - destruct Hb as [[-> Hx]|[-> (pa & entry & Ht & Hh)]]; [done|]. exists pa, entry. split; [|done].
        unfold translate_in. by rewrite Hcan, Hfc. }
  destruct He as (T' & [G1 G2 G3 G4 G5 G6] & Hi & Hpt & Hd). cbn [fst snd] in *. subst i.
  unfold bind_act, entry_at, ask, set_entry, Effects.change, return_if. cbn [fst snd].
  pose proof (descend_translate _ _ _ _ _ Hd) as Ht. rewrite G6 in Ht by done. cbv zeta in Ht.
  destruct (has PRESENT (load_entry (pg_words s1) pt (index va 0))) eqn:Hp; cbn [early go].
  { exists T'. split_and!; [done| |].
    - intros va' Hv'. unfold translate_in. by rewrite Hfc, G6.
    - unfold refused, translate_in. rewrite Hcan, Hfc, Ht. cbn [negb]. by eexists. }
  destruct (leaf_write root T' (pg_words s1) va pt (N.lor frame (leaf_flags rights)) G2 Hv Hcan Hd) as (Htr' & _ & Hw).
  exists T'. split_and!; [split|done|done|done| |].
  - exact G1.
  - exact Htr'.
  - exact G3.
  - exact G4.
  - intros g k Hg. cbn. rewrite load_store, decide_False by (intros [<- _]; congruence). by apply G5.
  - unfold translate_in. by rewrite Hcan, Hfc, Ht.
  - intros va' Hv'. cbn [pg_words set_field]. rewrite Hw, has_present_lor by (done || apply leaf_flags_present).
    rewrite land_lor_flag, Hnf by apply leaf_flags_mask. case_decide; [done|].
    unfold translate_in. by rewrite Hfc, G6.
Qed.

Lemma unmap_spec root T w va :
  tree root T w → V (index va 3) = true →
  let '(found, w') := unmap root va w in
  tree root T w' ∧ (∀ g k, T !! g = None → load_entry w' g k = load_entry w g k) ∧
  match found with
  | Some frame => ∃ e, translate_in w root va = Some (N.lor frame (N.land va 0xFFF), e) ∧
      ∀ va', V (index va' 3) = true → translate_in w' root va' =
        if decide (va' / PAGE_SIZE = va / PAGE_SIZE) then None else translate_in w root va'
  | None => w' = w
  end.
Proof.
  intros Htr Hv. pose proof (tr_root _ _ _ Htr) as Hroot.
  assert (frame_containing root = root) as Hfc by (apply frame_containing_named; by eapply (tr_named root T)).
  unfold unmap. destruct (canonical va) eqn:Hcan; cbn [negb orb]; [|done].
  destruct (bool_decide_reflect (va mod PAGE_SIZE = 0)) as [Ha|Ha]; cbn [negb]; [|done].
  destruct (descend w 3 root va) as [pt|] eqn:Hd; [|done].
  destruct (has PRESENT (load_entry w pt (index va 0))) eqn:Hp; cbn [negb]; [|done].
  destruct (leaf_write root T w va pt 0 Htr Hv Hcan Hd) as (Htr' & Hpt & Hw).
  split; [exact Htr'|]. split; [intros g k Hg; rewrite load_store, decide_False by (intros [<- _]; congruence); done|].
  exists (load_entry w pt (index va 0)). split.
  - unfold translate_in. rewrite Hcan, Hfc. cbn [negb]. rewrite (descend_translate _ _ _ _ _ Hd). cbv zeta.
    by rewrite Hp, frame_of_land.
  - intros va' Hv'. by rewrite Hw.
Qed.
End space.


Definition sample_space : Paging := mkPaging ∅ sample_pool.
Lemma sample_tree : tree (λ _, true) PAGE_SIZE {[PAGE_SIZE := []]} (pg_words sample_space).
Proof.
  split.
  - by rewrite lookup_singleton_eq.
  - intros f p [<- _]%lookup_singleton_Some. by apply (nameable_frame 1).
  - intros f p s _ _ _. done.
Qed.
Lemma sample_kept n : n < 2 ^ 63 → kept (OwnScope 3) (Some n) (eq PAGE_SIZE) (pg_pool sample_space).
Proof.
  intros Hn. split; [exact sample_pool_wf|done|done|apply sample_chargeable; lia|].
  intros f <-. split_and!; [done|done|]. intros (s & q & Hs & Hu & Hf).
  unfold lookup, table_Lookup in Hs. destruct (N.to_nat s) as [|[|]]; simplify_eq/=.
Qed.
Definition sample_rights : Rights := mkRights true true false true false.
Definition mapped_space : Step Paging MapError () :=
  Paging.map 6 PAGE_SIZE 0x400000 (9 * PAGE_SIZE) sample_rights (OwnScope 3) sample_space.
