(* ===== verification/MemOps.v ===== *)
(** * Memory objects and their mappings

    [kernel/src/api/memops.rs], and the mapping of an object in a domain and its
    withdrawal ([kernel/src/api/domainops.rs]). The state is the machine with the page
    tables of its domains, the bytes the objects hold, and the generations of
    [kernel/src/tlb.rs]. An operation that waits for other processors in the middle, with
    no lock held, is two, before and after the wait, and the second is told whether the
    wait was cut short. *)

From stdpp Require Import gmap.
From S2P Require Import Effects Paging.
From S2P Require Import Prelude Abi AbiWire Obj Scope Frame Elf Objects Machine CapOps.

#[local] Open Scope N_scope.

(** ** State *)

(** Where the operation runs: the processor and the root it has loaded. *)
Record Here := mkHere { he_cpu : N; he_cr3 : N }.

(** kernel/src/tlb.rs:41-125 [GENERATION, PROCESSORS, ONLINE, SPACE_LIVE], between operations;
    the address space of a domain ([Domain::space]) is its root; the words of frames
    used as tables and the bytes of frames objects hold are kept apart. *)
Record System := mkSystem {
  sy_machine : Machine;
  sy_words : Words;
  sy_spaces : list (option N);
  sy_bytes : gmap N N;
  sy_tlb : Tlb;
  sy_live : list N
}.
#[global] Instance System_rebuild : Rebuild System := λ s,
  mkSystem (sy_machine s) (sy_words s) (sy_spaces s) (sy_bytes s) (sy_tlb s) (sy_live s).

(** An operation of the machine. *)
Definition in_machine {A} (m : K Machine A) : K System A := λ sy,
  match m (sy_machine sy) with
  | Done a s => Done a (sy <| sy_machine := s |>)
  | Fail e s => Fail e (sy <| sy_machine := s |>)
  | Panic => Panic
  end.
Definition table {A} (f : Machine → list A) (i : N) : K System A := in_machine (at_index f i).
Definition update (f : Machine → Machine) : K System () := modify (λ sy, sy <| sy_machine ::= f |>).
Definition on_object (i : N) (f : MemoryObject → MemoryObject) : K System () := update (λ m, m <| m_memories ::= alter f i |>).
(** An operation on page tables, with the allocator that gives it frames. *)
Definition on_tables {A} (c : Act Paging MapError A) : K System (MapError + A) := λ sy,
  match m_memory (sy_machine sy) with
  | None => Panic
  | Some pool =>
      let put s := sy <| sy_words := pg_words s |> <| sy_machine ::= λ m, m <| m_memory := Some (pg_pool s) |> |> in
      match c (mkPaging (sy_words sy) pool) with
      | Go a s => Done (inr a) (put s)
      | Early e s => Done (inl e) (put s)
      | Bad _ => Panic
      end
  end.
(** An operation of the frame allocator. *)
(** kernel/src/state.rs:493-497 [Machine::allocator] *)
Definition with_allocator {A} (f : FrameAllocator → option (A * FrameAllocator)) : K System A :=
  sy ← getk;
  pool ← expect (m_memory (sy_machine sy));
  result ← expect (f pool);
  update (λ m, m <| m_memory := Some result.2 |>);;
  mret result.1.
Definition space_of (domain : N) : K System (option N) := spaces ← gets sy_spaces; expect (spaces !! domain).

(** kernel/src/tlb.rs:263-266 [publish]; lines 274-276 of [retire_stamp] *)
Definition publish : K System N :=
  modify (λ sy, sy <| sy_tlb ::= λ t, mkTlb (wrapping_add 64 (tlb_generation t) 1) (tlb_online t) (tlb_seen t) |>);;
  gets (λ sy, tlb_generation (sy_tlb sy)).
(** kernel/src/tlb.rs:518-529 [flushed_by] *)
Definition flushed_by (t : Tlb) (mask generation : N) : bool :=
  let online := N.land mask (tlb_online t) in
  forallb (λ cpu, negb (N.testbit online cpu) || negb (bool_decide (default 0 (tlb_seen t !! cpu) < generation)))
    (range 0 MAX_CPUS).
(** kernel/src/tlb.rs:167-171 [live_mask] *)
Definition live_mask (sy : System) (domain : N) : N := default 0 (sy_live sy !! domain).

(** ** Rights and ranges *)

(** kernel/src/api/memops.rs:37-51 [mapping_rights] *)
Definition mapping_rights (rights : N) : Z + Rights :=
  let read := negb (bool_decide (N.land rights right.MEMORY_READ = 0)) in
  let write := negb (bool_decide (N.land rights right.MEMORY_WRITE = 0)) in
  let execute := negb (bool_decide (N.land rights right.MEMORY_EXECUTE = 0)) in
  if negb read && (write || execute) then inl status.INSUFFICIENT_RIGHTS
  else if write && execute then inl status.INVALID_ARGUMENT
  else if negb read then inl status.INVALID_ARGUMENT
  else inr (Rights.user read write execute).
(** kernel/src/api/memops.rs:169-174 [range_ok] *)
Definition range_ok (offset length size : N) : bool :=
  match checked_add 64 offset length with Some last => bool_decide (last <= size) | None => false end.

(** ** Bytes *)

Definition read_bytes (bytes : gmap N N) (from length : N) : list N := (λ i, default 0 (bytes !! (from + i))) <$> range 0 length.
Definition write_bytes (to : N) (data : list N) (bytes : gmap N N) : gmap N N :=
  foldl (λ b x, <[to + x.1 := x.2]> b) bytes (zip (range 0 (tlen data)) data).
Definition zero_bytes (from length : N) (bytes : gmap N N) : gmap N N := filter (λ x, ¬ (from <= x.1 < from + length)) bytes.

(** kernel/src/api/memops.rs:177-219 [copy] *)
Definition copy (ctx : Ctx) (request : MemoryCopyRequest) : K System N :=
  source ← in_machine (resolve (cx_domain ctx) (wmp_source_handle request) object_type.MEMORY right.MEMORY_READ (cx_now ctx));
  let destination := obj_index (rs_object (cx_cap ctx)) in
  let origin := obj_index (rs_object source) in
  target ← table m_memories destination;
  err_if (negb (bool_decide (mo_state target = memobj.Mutable))) status.STATE_CONFLICT;;
  given ← table m_memories origin;
  err_if (negb (range_ok (wmp_source_offset request) (wmp_length request) (memory_len given)) ||
          negb (range_ok (wmp_dest_offset request) (wmp_length request) (memory_len target))) status.INVALID_ARGUMENT;;
  if decide (wmp_length request = 0) then mret 0 else
  err_if (bool_decide (origin = destination)) status.INVALID_ARGUMENT;;
  modify (λ sy, sy <| sy_bytes ::= λ b,
    write_bytes (mo_base target + wmp_dest_offset request)
      (read_bytes b (mo_base given + wmp_source_offset request) (wmp_length request)) b |>);;
  mret (wmp_length request).
(** kernel/src/api/memops.rs:226-254 [write] *)
Definition write (ctx : Ctx) (request : MemoryBytes) : K System N :=
  object ← table m_memories (obj_index (rs_object (cx_cap ctx)));
  err_if (negb (bool_decide (mo_state object = memobj.Mutable))) status.STATE_CONFLICT;;
  err_if (bool_decide (tlen (wmb_bytes request) < wmb_length request) ||
          negb (range_ok (wmb_offset request) (wmb_length request) (memory_len object))) status.INVALID_ARGUMENT;;
  modify (λ sy, sy <| sy_bytes ::=
    write_bytes (mo_base object + wmb_offset request) (take (N.to_nat (wmb_length request)) (wmb_bytes request)) |>);;
  mret (wmb_length request).
(** kernel/src/api/memops.rs:257-287 [read] *)
Definition read (ctx : Ctx) (request : MemoryBytes) : K System (MemoryBytes * N) :=
  object ← table m_memories (obj_index (rs_object (cx_cap ctx)));
  err_if (bool_decide (tlen (wmb_bytes request) < wmb_length request) ||
          negb (range_ok (wmb_offset request) (wmb_length request) (memory_len object))) status.INVALID_ARGUMENT;;
  bytes ← gets (λ sy, read_bytes (sy_bytes sy) (mo_base object + wmb_offset request) (wmb_length request));
  mret (mkMemoryBytes (wmb_offset request) (wmb_length request)
          (bytes ++ replicate (256 - N.to_nat (wmb_length request)) 0), wmb_length request).

(** ** Objects *)

(** kernel/src/api/memops.rs:54-148 [create] *)
Definition create (ctx : Ctx) (request : MemoryCreateRequest) : K System N :=
  err_if (negb (bool_decide (wmc_reserved0 request = 0))) status.INVALID_ARGUMENT;;
  err_if (bool_decide (wmc_pages request = 0) || bool_decide (MAX_OBJECT_PAGES < wmc_pages request)) status.INVALID_ARGUMENT;;
  err_if (negb (bool_decide (andnot (wmc_max_rights request) (rights_mask Obj.Memory) = 0))) status.INVALID_ARGUMENT;;
  let sponsor := obj_index (rs_object (cx_cap ctx)) in
  node ← table (λ m, scopes (m_scopes m)) sponsor;
  err_if (negb (bool_decide (sc_state node = Scope.Open))) status.SCOPE_CLOSED;;
  objects ← in_machine (gets m_memories);
  found ← ok_or status.LIMIT_EXHAUSTED (list_find (λ o, mo_state o = memobj.Empty) objects);
  let index := N.of_nat found.1 in
  ok ← in_machine (on_scopes (reserve sponsor Metadata 1));
  if negb ok then err status.LIMIT_EXHAUSTED else
  ok ← in_machine (on_scopes (reserve sponsor MemoryPages (wmc_pages request)));
  if negb ok then in_machine (release_metadata sponsor);; err status.LIMIT_EXHAUSTED else
  safe ← gets (λ sy, safe_generation (sy_tlb sy));
  taken ← with_allocator (alloc_contiguous safe (wmc_pages request) (OwnScope sponsor));
  match taken with
  | None =>
      in_machine (release_metadata sponsor);;
      update (λ m, m <| m_scopes ::= Scope.release sponsor MemoryPages (wmc_pages request) |>);;
      err status.LIMIT_EXHAUSTED
  | Some base =>
      modify (λ sy, sy <| sy_bytes ::= zero_bytes base (wmc_pages request * PAGE_SIZE) |>);;
      id ← in_machine (run next_id);
      id ← ok_or status.LIMIT_EXHAUSTED id;
      slot ← table m_memories index;
      let generation := saturating_add 32 (mo_generation slot) 1 in
      update (λ m, m <| m_memories ::= <[index :=
        mkMemoryObject memobj.Mutable generation id base (wmc_pages request) (wmc_max_rights request) sponsor 0 0 0
          (wmc_label request) 0 0 0]> |>);;
      let object := mkObjRef Obj.Memory index generation in
      domain ← table m_domains (cx_domain ctx);
      allocated ← in_machine (grant_alloc (dom_owner_scope domain) NO_GRANT object
                                (N.lor (wmc_max_rights request) COMMON_RIGHTS) 0 None 0);
      grant ← ok_or status.LIMIT_EXHAUSTED allocated;
      handle ← in_machine (cap_install (cx_domain ctx) object grant None);
      ok_or status.LIMIT_EXHAUSTED handle
  end.

(** kernel/src/api/memops.rs:509-521 [describe]; lines 152-163 of [query] *)
Definition describe (index : N) : K System MemoryInfo :=
  object ← table m_memories index;
  sponsor ← table (λ m, scopes (m_scopes m)) (mo_sponsor object);
  mret (mkMemoryInfo (memobj.state_abi (mo_state object)) (mo_max_rights object) (mo_map_count object)
          (mo_writable_maps object) (mo_pages object) (mo_id object) (sc_id sponsor) (mo_label object)).
(** kernel/src/api/memops.rs:151-167 [query] *)
Definition query (ctx : Ctx) : K System (MemoryInfo * N) :=
  info ← describe (obj_index (rs_object (cx_cap ctx)));
  mret (info, wmi_pages info).

(** ** The end of an object *)

(** The frames of an object, each returned or put in quarantine under one stamp. *)
(** kernel/src/api/memops.rs:479-493 [collect_memory_acked, the frames] *)
Definition give_frames (object : MemoryObject) (stamp : option N) : K System () :=
  for_each (range 0 (mo_pages object)) (λ page,
    let frame := frame_containing (mo_base object + page * PAGE_SIZE) in
    with_allocator (λ a, match stamp with
      | None => (tt,.) <$> Frame.release frame (OwnScope (mo_sponsor object)) a
      | Some stamp => Some (tt, retire_at frame (OwnScope (mo_sponsor object)) stamp a)
      end)).
(** kernel/src/api/memops.rs:442-506 [collect_memory_acked] *)
Definition collect_memory_acked (index : N) (acknowledged : bool) : K System () :=
  objects ← in_machine (gets m_memories);
  match objects !! index with
  | None => mret ()
  | Some object =>
      if bool_decide (mo_state object = memobj.Empty) || negb (bool_decide (mo_refs object = 0)) ||
         negb (bool_decide (mo_map_count object = 0)) || negb (bool_decide (mo_dma_grants object = 0)) then mret () else
      sponsor ← table (λ m, scopes (m_scopes m)) (mo_sponsor object);
      if negb (bool_decide (sc_state sponsor = Scope.Open) || bool_decide (sc_state sponsor = Fenced) ||
               bool_decide (sc_state sponsor = Quiescent)) then mret () else
      t ← gets sy_tlb;
      let immediate := acknowledged || bool_decide (mo_unmapped_at object = 0) ||
        flushed_by t (mo_unmapped_cpus object) (mo_unmapped_at object) ||
        bool_decide (mo_unmapped_at object <= safe_generation t) in
      (if immediate then give_frames object None else stamp ← publish; give_frames object (Some stamp));;
      update (λ m, m <| m_scopes ::= Scope.release (mo_sponsor object) MemoryPages (mo_pages object) |>);;
      in_machine (release_metadata (mo_sponsor object));;
      on_object index (λ o, MemoryObject.empty <| mo_generation := mo_generation object |>)
  end.
(** kernel/src/api/memops.rs:429-431 [collect_memory] *)
Definition collect_memory (index : N) : K System () := collect_memory_acked index false.
(** The objects whose last handle went while the machine was shared, one bit each. *)
(** kernel/src/api/mod.rs:289-298 [drain_pending_memory] *)
Definition drain_pending_memory : K System () :=
  pending ← in_machine (run take_pending_memory);
  for_each (zip (indices pending) pending) (λ x,
    for_each (filter (N.testbit x.2) (range 0 64)) (λ bit, collect_memory (x.1 * 64 + bit))).

(** ** Mappings *)

(** The pages of a mapping, withdrawn one by one. *)
(** kernel/src/api/memops.rs:346-360 [withdraw_map_deferring, the pages] *)
Fixpoint unmap_pages (root vaddr : N) (pages : list N) (removed : N) (w : Words) : N * Words :=
  match pages with
  | [] => (removed, w)
  | page :: pages =>
      let '(found, w) := unmap root (vaddr + page * PAGE_SIZE) w in
      unmap_pages root vaddr pages (if found is Some _ then removed + 1 else removed) w
  end.
(** kernel/src/api/memops.rs:334-414 [withdraw_map_deferring] *)
Definition withdraw_map_deferring (here : Here) (map_index : N) : K System (N * option N) :=
  record ← table m_maps map_index;
  if negb (map_used record) then mret (0, None) else
  let domain := map_domain record in
  space ← space_of domain;
  let current := bool_decide (space = Some (he_cr3 here)) in
  words ← gets sy_words;
  let '(removed, words) := match space with
    | Some root => unmap_pages root (map_vaddr record) (range 0 (map_pages record)) 0 words
    | None => (0, words)
    end in
  modify (λ sy, sy <| sy_words := words |>);;
  let memory := map_memory record in
  object ← table m_memories memory;
  let same_object := bool_decide (mo_generation object = map_memory_generation record) in
  (if same_object
   then on_object memory (λ o, o <| mo_map_count ::= λ c, saturating_sub c 1 |>
          <| mo_writable_maps ::= λ c, if bool_decide (N.land (map_rights record) right.MEMORY_WRITE = 0) then c else saturating_sub c 1 |>)
   else mret ());;
  let scope := map_scope record in
  _ ← table (λ m, scopes (m_scopes m)) scope;
  update (λ m, m <| m_scopes ::= on_scope scope (λ n, n <| sc_maps_pending ::= decrement |>) |>);;
  in_machine (release_metadata scope);;
  let grant := map_grant record in
  update (λ m, m <| m_maps ::= <[map_index := MapRecord.empty]> |>);;
  (if decide (grant = NO_GRANT) then mret () else
   _ ← table m_grants grant;
   update (λ m, m <| m_grants ::= alter (λ n, n <| g_refs ::= λ r, saturating_sub r 1 |>) grant |>);;
   in_machine (collect_grant grant));;
  (if decide (removed = 0) then mret () else
   published ← publish;
   sy ← getk;
   if same_object then
     let mine := N.shiftl 1 (he_cpu here) in
     let live := live_mask sy domain in
     on_object memory (λ o, o <| mo_unmapped_at := published |>
       <| mo_unmapped_cpus ::= λ c, N.lor c (N.lor (andnot live mine) (if current then 0 else N.land live mine)) |>)
   else mret ());;
  mret (removed, if same_object then Some memory else None).
(** kernel/src/api/memops.rs:317-323 [withdraw_map] *)
Definition withdraw_map (here : Here) (map_index : N) : K System N :=
  x ← withdraw_map_deferring here map_index;
  (match x.2 with Some memory => collect_memory memory | None => mret () end);;
  mret x.1.

(** The pages of an object, mapped one by one until one is refused. *)
(** kernel/src/api/domainops.rs:189-211 [map, the pages] *)
Fixpoint install_pages (target : N) (request : MapRequest) (base : N) (rights : Rights) (pages : list N) (installed : N) :
    K System (N * option MapError) :=
  match pages with
  | [] => mret (installed, None)
  | page :: pages =>
      let frame := frame_containing (base + (wmr_offset_pages request + page) * PAGE_SIZE) in
      let vaddr := wmr_vaddr request + page * PAGE_SIZE in
      space ← space_of target;
      root ← expect space;
      safe ← gets (λ sy, safe_generation (sy_tlb sy));
      result ← on_tables (Paging.map safe root vaddr frame rights (OwnDomain target));
      match result with
      | inr _ => install_pages target request base rights pages (installed + 1)
      | inl error => mret (installed, Some error)
      end
  end.
(** kernel/src/api/domainops.rs:43-43 [MAP_TABLE_RESERVE] *)
Definition MAP_TABLE_RESERVE : N := 4.
Definition charge_of (target : N) : K System N :=
  pool ← in_machine (gets m_memory); pool ← expect pool; expect (charged pool (OwnDomain target)).
(** kernel/src/api/domainops.rs:115-284 [map] *)
Definition map (ctx : Ctx) (request : MapRequest) : K System N :=
  err_if (negb (bool_decide (wmr_reserved0 request = 0)) || bool_decide (wmr_page_count request = 0)) status.INVALID_ARGUMENT;;
  let target := obj_index (rs_object (cx_cap ctx)) in
  domain ← table m_domains target;
  err_if (negb (bool_decide (dom_state domain = DomainState.Building) || bool_decide (dom_state domain = DomainState.Runnable)))
    status.STATE_CONFLICT;;
  memory ← in_machine (resolve (cx_domain ctx) (wmr_memory_handle request) object_type.MEMORY right.MEMORY_MAP (cx_now ctx));
  let index := obj_index (rs_object memory) in
  err_if (negb (bool_decide (andnot (wmr_rights request) (rs_rights memory) = 0))) status.INSUFFICIENT_RIGHTS;;
  object ← table m_memories index;
  err_if (negb (bool_decide (andnot (wmr_rights request) (mo_max_rights object) = 0))) status.INSUFFICIENT_RIGHTS;;
  match mapping_rights (wmr_rights request) with
  | inl code => err code
  | inr rights =>
      err_if (rt_write rights && negb (bool_decide (mo_state object = memobj.Mutable))) status.STATE_CONFLICT;;
      last ← ok_or status.INVALID_ARGUMENT (checked_add 64 (wmr_offset_pages request) (wmr_page_count request));
      err_if (bool_decide (mo_pages object < last)) status.INVALID_ARGUMENT;;
      err_if (negb (bool_decide (wmr_vaddr request mod PAGE_SIZE = 0))) status.INVALID_ARGUMENT;;
      end_ ← ok_or status.INVALID_ARGUMENT (checked_add 64 (wmr_vaddr request) (wmr_page_count request * PAGE_SIZE));
      err_if (bool_decide (wmr_vaddr request < Elf.USER_MIN_ADDR) || bool_decide (Elf.USER_MAX_ADDR < end_)) status.INVALID_ARGUMENT;;
      records ← in_machine (gets m_maps);
      found ← ok_or status.LIMIT_EXHAUSTED (list_find (λ r, map_used r = false) records);
      let record_index := N.of_nat found.1 in
      let owner := dom_owner_scope domain in
      ok ← in_machine (on_scopes (reserve owner Metadata 1));
      if negb ok then err status.LIMIT_EXHAUSTED else
      ok ← in_machine (on_scopes (reserve owner MemoryPages MAP_TABLE_RESERVE));
      if negb ok then in_machine (release_metadata owner);; err status.LIMIT_EXHAUSTED else
      before ← charge_of target;
      result ← install_pages target request (mo_base object) rights (range 0 (wmr_page_count request)) 0;
      let '(installed, failure) := result in
      match failure with
      | Some error =>
          space ← space_of target;
          (match space with
           | Some root => modify (λ sy, sy <| sy_words ::= λ w, (unmap_pages root (wmr_vaddr request) (range 0 installed) 0 w).2 |>)
           | None => mret ()
           end);;
          in_machine (release_metadata owner);;
          update (λ m, m <| m_scopes ::= Scope.release owner MemoryPages MAP_TABLE_RESERVE |>);;
          err (match error with
               | AlreadyMapped => status.STATE_CONFLICT
               | OutOfMemory => status.LIMIT_EXHAUSTED
               | _ => status.INVALID_ARGUMENT
               end)
      | None =>
          update (λ m, m <| m_maps ::= <[record_index :=
            mkMapRecord true index (obj_generation (rs_object memory)) target (dom_generation domain) (wmr_vaddr request)
              (wmr_offset_pages request) (wmr_page_count request) (wmr_rights request) (rs_grant memory) owner]> |>);;
          (if decide (rs_grant memory = NO_GRANT) then mret () else
           _ ← table m_grants (rs_grant memory);
           update (λ m, m <| m_grants ::= alter (λ n, n <| g_refs ::= λ r, saturating_add 32 r 1 |>) (rs_grant memory) |>));;
          after ← charge_of target;
          let taken := N.min (saturating_sub after before) MAP_TABLE_RESERVE in
          update (λ m, m <| m_scopes ::= Scope.release owner MemoryPages (MAP_TABLE_RESERVE - taken) |>);;
          d ← table m_domains target;
          reserved ← expect (checked_add 64 (dom_reserved_pages d) taken);
          update (λ m, m <| m_domains ::= alter (λ d, d <| dom_reserved_pages := reserved |>) target |>);;
          o ← table m_memories index;
          count ← expect (checked_add 32 (mo_map_count o) 1);
          on_object index (λ o, o <| mo_map_count := count |>);;
          (if bool_decide (N.land (wmr_rights request) right.MEMORY_WRITE = 0) then mret () else
           writable ← expect (checked_add 32 (mo_writable_maps o) 1);
           on_object index (λ o, o <| mo_writable_maps := writable |>));;
          _ ← table (λ m, scopes (m_scopes m)) owner;
          update (λ m, m <| m_scopes ::= on_scope owner (λ n, n <| sc_maps_pending ::= λ c, wrapping_add 32 c 1 |>) |>);;
          mret installed
      end
  end.

(** ** Unmapping, before and after the wait *)

Definition names_mapping (target generation : N) (request : UnmapRequest) (r : MapRecord) : Prop :=
  map_used r = true ∧ map_domain r = target ∧ map_domain_generation r = generation ∧
  map_vaddr r = wum_vaddr request ∧ map_pages r = wum_page_count request.
#[global] Instance names_mapping_dec target generation request r : Decision (names_mapping target generation request r).
Proof. unfold names_mapping. apply _. Defined.
(** The right and the type are the operation's, from its specification. *)
(** kernel/src/api/domainops.rs:300-339 [unmap, to the wait] *)
Definition unmap_withdraw (here : Here) (ctx : Ctx) (type rights : N) (request : UnmapRequest) : K System (N * option N) :=
  err_if (negb (bool_decide (wum_reserved0 request = 0))) status.INVALID_ARGUMENT;;
  cap ← in_machine (resolve (cx_domain ctx) (cx_handle ctx) type rights (cx_now ctx));
  let target := obj_index (rs_object cap) in
  domain ← table m_domains target;
  records ← in_machine (gets m_maps);
  found ← ok_or status.INVALID_ARGUMENT (list_find (names_mapping target (dom_generation domain) request) records);
  withdraw_map_deferring here (N.of_nat found.1).
(** kernel/src/api/domainops.rs:361-371 [unmap, from the wait on] *)
Definition unmap_settle (pages : N) (memory : option N) (timed_out : bool) : K System N :=
  (match memory with Some memory => collect_memory_acked memory (negb timed_out) | None => mret () end);;
  err_if timed_out status.DRAIN_INCOMPLETE;;
  mret pages.

(** ** Sealing, before and after the wait *)

(** The writers of an object. *)
Definition writes_object (index generation : N) (r : MapRecord) : bool :=
  map_used r && bool_decide (map_memory r = index) && bool_decide (map_memory_generation r = generation) &&
  negb (bool_decide (N.land (map_rights r) right.MEMORY_WRITE = 0)).
(** kernel/src/api/memops.rs:590-612 [seal, the writers] *)
Fixpoint withdraw_writers (here : Here) (index generation : N) (records : list N) (withdrawn : N) : K System N :=
  match records with
  | [] => mret withdrawn
  | map_index :: records =>
      record ← table m_maps map_index;
      if writes_object index generation record
      then _ ← withdraw_map here map_index; withdraw_writers here index generation records (withdrawn + 1)
      else withdraw_writers here index generation records withdrawn
  end.
(** What the first part hands to the second: the object, its generation and how many
    writers were withdrawn; or, of an object sealed already, its report. *)
(** kernel/src/api/memops.rs:542-625 [seal, to the wait] *)
Definition seal_withdraw (here : Here) (ctx : Ctx) (type rights : N) : K System (MemoryInfo + N * N * N) :=
  cap ← in_machine (resolve (cx_domain ctx) (cx_handle ctx) type rights (cx_now ctx));
  let index := obj_index (rs_object cap) in
  object ← table m_memories index;
  let generation := mo_generation object in
  match mo_state object with
  | memobj.Sealed => inl <$> describe index
  | memobj.Empty => err status.STATE_CONFLICT
  | _ =>
      err_if (negb (bool_decide (mo_dma_grants object = 0))) status.STATE_CONFLICT;;
      on_object index (λ o, o <| mo_state := memobj.Sealing |>);;
      records ← in_machine (gets m_maps);
      withdrawn ← withdraw_writers here index generation (indices records) 0;
      mret (inr (index, generation, withdrawn))
  end.
(** kernel/src/api/memops.rs:631-677 [seal, from the wait on] *)
Definition seal_publish (index generation withdrawn : N) (timed_out : bool) : K System (MemoryInfo * N) :=
  object ← table m_memories index;
  err_if (negb (bool_decide (mo_generation object = generation)) || bool_decide (mo_state object = memobj.Empty)) status.PEER_DEAD;;
  err_if (negb (bool_decide (mo_writable_maps object = 0))) status.STATE_CONFLICT;;
  err_if timed_out status.DRAIN_INCOMPLETE;;
  on_object index (λ o, o <| mo_state := memobj.Sealed |>);;
  info ← describe index;
  mret (info, withdrawn).
